(* ===== verification/_CoqProject ===== *)
-Q . S2P
Prelude.v
Errors.v
Outcome.v
Bits.v
Mem.v
BitStream.v
FseTable.v
FseSpread.v
FseSymbols.v
FseBuild.v
FseBuildC.v
FseCodec.v
FseStream.v
FseSafe.v
FseEncode.v
FseRoundtrip.v
FseNCount.v
HufStats.v
Hist.v
FseNormalize.v
FseWriteNCount.v
FseNCountRoundtrip.v
HufWeights.v
HufTree.v
HufCode.v
HufEncode.v
HufDTable.v
HufDecode.v
HufFour.v
HufRoundtrip.v
Wire.v
LzCopy.v
ExecSequence.v
SeqTables.v
SeqDecode.v
BitStack.v
SeqCodec.v
SeqEncode.v
SeqRoundtrip.v
SeqSelect.v
SeqBuildC.v
SeqSection.v
Frame.v
MatchBase.v
MatchParse.v
MatchFinder.v
MatchFast.v
MatchDFast.v
MatchBlock.v
SplitLit.v
LitDecode.v
LitEncode.v
BlockDecode.v
FrameHeader.v
FrameParse.v
FrameWalk.v
Skippable.v
XxHash.v
DDict.v
DCtx.v
FrameDecode.v
FrameContent.v
PackedBlock.v
FrameInput.v
DContinue.v
StreamContent.v
Pool.v
PoolLive.v
