(* ===== verification/Prelude.v ===== *)
(** * zstd-jni: the native core of the compression library

    This library models the C code under [src/src/main/native] that zstd-jni
    compiles into its shared object, and proves what that code promises. It is a
    shallow embedding: a C function is a Rocq function on buffers (lists of
    bytes), words (integers in their range, with the wrap-around of the C type
    written out) and records for its structures.

    ** Conventions

    - [Prelude]: words ([u8], [u16], [u32], [u64], [s16], [s32]), arrays as lists
      indexed by [Z] ([zlen], [zat], [zupd], [zsub], [zpatch]), the tactics
      [zdm], [bools], [case_if], [bytes_dec] and the lemmas of general use.
      [size_t] is 64 bits wide.
    - [Errors] (zstd_errors.h, common/error_private.[ch]): the error codes and
      their encoding in a [size_t].
    - [Outcome]: the monad of the model. A computation gives [Ok], [Err] (an
      error code, [RETURN_ERROR_IF] and [FORWARD_IF_ERROR]) or [Stuck]: an access
      outside a buffer, behaviour the C standard leaves undefined, or a loop that
      ran out of the fuel given to it. The rules of [wp] are total: a theorem
      stated with [wp], or with [Ok] or [Err] on the right-hand side, says as well
      that the code is defined and terminates. Every loop that is not a counted
      one has as fuel a number of the size of the buffer it walks over.

    ** Components

    - [Bits] (common/bits.h), [Mem] (common/mem.h): bit counts and rotations,
      unaligned accesses of both byte orders.
    - [BitStream] (common/bitstream.h): the backward bit stream, writer
      ([BIT_CStream_t]) and reader ([BIT_DStream_t], with the four statuses of
      [BIT_reloadDStream]).
    - [FseTable], [FseSpread], [FseSymbols], [FseBuild], [FseBuildC], [FseCodec],
      [FseStream], [FseSafe], [FseEncode], [FseRoundtrip] (common/fse.h,
      common/fse_decompress.c, compress/fse_compress.c): the finite-state entropy
      coder: the two ways of spreading the symbols, decoding and encoding tables,
      the coding loops with two interleaved states, and the round trip.
    - [FseNCount], [HufStats] (common/entropy_common.c): the readers of the headers
      of FSE tables and of Huffman trees.
    - [Hist] (compress/hist.c): histograms, by the simple counter and by the one in
      four tables.
    - [FseNormalize], [FseWriteNCount], [FseNCountRoundtrip]
      (compress/fse_compress.c): the choice of a table size, the normalisation of
      counts by both methods, the writer of table headers and its round trip with
      the reader.
    - [Wire]: lemmas on serialised fields, used by every format.
    - [Frame], [FrameHeader], [FrameParse], [FrameWalk], [Skippable]
      (decompress/zstd_decompress.c, decompress/zstd_decompress_block.c,
      compress/zstd_compress.c, compress/zstd_compress_internal.h): frame headers
      and their reader that asks for more input, skippable frames, block headers,
      and the functions that walk over frames without decompressing them.
    - [XxHash] (common/xxhash.h): XXH64, one-shot and streaming.
    - [DDict] (decompress/zstd_decompress.c): the set of dictionaries of a
      decompression context, with linear probing.
    - [HufWeights], [HufTree], [HufCode], [HufEncode] (compress/huf_compress.c):
      the Huffman encoder: the compression of weights by FSE, the description of a
      tree, canonical codes and encoding tables, the bit stream with two
      containers filled from the top and its unrolled loop, the one and the four
      streams. A tree is given by its sorted nodes ([nodes_ok]); building it is not
      modelled.
    - [HufDTable], [HufDecode], [HufFour], [HufRoundtrip]
      (decompress/huf_decompress.c): the Huffman decoder with one symbol per
      entry: the table, the loop of one stream, the four interleaved streams,
      and the round trips with the encoder.
    - [LzCopy], [ExecSequence] (common/zstd_internal.h,
      decompress/zstd_decompress_block.c): the copies by 8 and 16 bytes, and the
      execution of a sequence with them. The output is a list of bytes and its
      pointers are indices; a pointer that is read is either one of them or points
      into another buffer ([src_ptr]), which is how the prefix, the dictionary and
      the literals are told apart.
    - [SeqTables], [SeqDecode] (the same file): the tables of sequences, their
      header, the decoding of sequences and the loop that executes them.
    - [BitStack], [SeqCodec], [SeqEncode], [SeqRoundtrip], [SeqSelect], [SeqBuildC],
      [SeqSection] (compress/zstd_compress_sequences.c, compress/zstd_compress.c,
      compress/zstd_compress_internal.h): the encoder of sequences: the store, the
      codes and the repeated offsets, the costs and the choice of the three tables,
      their descriptions, and the section of the block. The class [SeqCodec] is the
      interface between a table of the encoder and one of the decoder: it is
      implemented by the tables made of counts ([fse_codec]) and by those of one
      symbol ([rle_codec]), and the stream is proved against it alone.
    - [Pool], [PoolLive] (common/pool.c): the thread pool as a step relation: a step
      is a critical section of a worker or of a caller, or the end of a job. A
      signal wakes at least one waiter; spurious wakeups are steps of their own.
    - [SplitLit], [LitDecode], [LitEncode], [BlockDecode]
      (decompress/zstd_decompress_block.c, compress/zstd_compress_literals.c): the literals
      section and the places where the decoder puts the literals (the output after
      the block, the extra buffer, or split between the two), the loop that executes
      sequences over literals that lie in the output, raw and repeated literals on
      both sides, and the decoding of a compressed block. [literals_spec] and
      [compressed_block_spec] say what a section and a block mean, without buffers;
      [agrees] is the refinement.
    - [DCtx] (decompress/zstd_decompress.c, decompress/zstd_ddict.c): the context at the
      start of a frame, and the dictionaries that are loaded in it or digested before.
      [begun] is what holds then: the dictionary is the segment before the output.
    - [FrameDecode], [FrameContent], [PackedBlock], [FrameInput]
      (decompress/zstd_decompress.c): decompression in one call. [FrameDecode] has the
      operations and their safety: [decoding] holds between two blocks of a frame,
      [frame_run] also relates the state of the checksum to the output. [FrameContent] says what
      blocks and frames mean ([blocks_mean], [frame_means]); [PackedBlock] makes a
      compressed block of a section of literals and one of sequences; [FrameInput] is about
      frames and skippable frames one after another.
    - [DContinue], [StreamContent] (decompress/zstd_decompress.c): decompression piece by piece.
      [DContinue] has [ZSTD_decompressContinue], a definition for each stage, and
      the invariant [continue_ok] of the context between two calls; [feed] is a caller, which is not
      part of the code: at each turn it has some of the input at hand and gives what
      [ZSTD_nextSrcSizeToDecompressWithInputSize] asks for. [StreamContent] shows, as a sequence of turns, that a frame is
      decoded to the content that [frame_means] gives it.
    - [MatchBase], [MatchParse], [MatchFinder], [MatchFast], [MatchDFast], [MatchBlock]
      (compress/zstd_compress_internal.h, zstd_fast.c, zstd_double_fast.c, zstd_compress.c): match
      finders. A pointer into the input is its index from [window.base], and the bytes
      from the index [lo] on are a list. [MatchBase] has the length of a match, the hashes and the
      store of sequences while it is filled ([written]); [MatchParse] what every finder keeps
      true ([parsed]: what is stored regenerates the block up to the anchor);
      [MatchFinder] the interface that the block compressor relies on, a class of which the
      fast and the double fast finder are instances; the gotos of their loops are
      outcomes of the search ([fast_outcome], [dfast_outcome]). [MatchBlock] is the store of a block.
    The entropy coder is layered: [BitStream] promises that what is pushed is
    popped in reverse order ([crep], [drep]); [FseCodec] shows that an encoding
    step and a decoding step of the tables built from the same counts are inverse
    ([ctable_ok], [dtable_of]); [FseEncode] and [FseRoundtrip] run the two loops
    against each other. [HufStats] composes the header reader, the table builder
    and the decoding loop. The Huffman coder has one specification for its two
    sides: a list of weights with Kraft's equality ([kraft]), the canonical code
    of a symbol ([code_val]) and its interval of the decoding table
    ([at_entry]); [HufFour] treats the four streams as lanes that own their
    part of the destination ([same_lane]), once for safety on any bytes and
    once for the symbols decoded. The sequences section is layered the same way:
    [LzCopy] says of each copy what is in the output after it ([copied]),
    [ExecSequence] lifts this to the history, where a sequence is [lz_sequence], and
    [SeqDecode] relates the loop to [lz_exec] on the sequences that are decoded. Its
    tables are those of [FseBuild] with the codes replaced by their bases and bits
    ([seq_table_of]). The stream of sequences is a stack of fields ([pushed],
    [popped]); [linked] is what the encoder and the decoder keep from a block to the
    next, and [described] what the bytes of a table mean. The frame format is layered on [Wire]: every writer is
    shown to emit the bytes of a functional description, and every reader to read
    that description back in front of any bytes.

    ** What the theorems show

    An input made of frames, skippable frames, raw, repeated and compressed blocks and
    checksums is decompressed to the contents that these describe, and on any other
    input decompression ends within its buffers. Round trips of the bit stream, of FSE coding and of its table headers, of
    Huffman coding from the tree to the bytes, of the sequences section of a
    compressed block (tables chosen, described and rebuilt, repeated offsets replaced,
    the stream read to its last bit), of frame, block and skippable
    headers, of raw and repeated literals, of the byte orders; safety on arbitrary input of the readers
    (headers, FSE and Huffman decoding, Huffman tree descriptions, the walk over
    frames); that the sequences of a block mean what LZ77 says whatever copies they are made
    of, and that the tables written out in the code are those that the code
    builds; that a thread pool runs each job once and, for one caller, always
    finishes; termination of every loop; stability of the frame-header reader when input
    arrives in pieces; equivalence of streaming and one-shot hashing; refinement
    of a finite map by the dictionary set; exact histograms; normalisation that
    always fills the table. Some theorems state what the code does
    where it was meant to do something else: the probing of the dictionary set
    that leaves its table ([DDictHashSet_search_leaves_table]), a dictionary
    without an id selected for another id
    ([selectFrameDDict_takes_raw_dictionary]), the load factor
    ([DDictHashSet_load_factor]), a signal of the thread pool taken by the wrong
    waiter ([POOL_joinJobs_takes_wakeup]), the sizes of skippable frames that are written
    and not read ([skippable_size_limit]), the size of the table of ranks
    ([HUF_readStats_rankStats_size]), the bound on the size of a table header
    ([FSE_NCountWriteBound_short]), the copy of literals that overwrites its own
    source ([safecopyDstBeforeSrc_clobbers]), the histogram of a source of less than four
    bytes ([HIST_count_wksp_short_source]).

    ** Configuration

    Legacy formats are compiled out, as in this repository. Byte order is a
    parameter where a theorem is about it and otherwise irrelevant by the theorem
    of [Mem]. Branches that replace portable code by compiler builtins or by
    code for particular processors (BMI2, assembly) are modelled by the portable
    code. Assertions are compiled out; where the code is only defined under one,
    the model is [Stuck] outside it. The decoder is that of the minified library
    (HUF_FORCE_DECOMPRESS_X1 and ZSTD_FORCE_DECOMPRESS_SEQUENCES_SHORT, which ZSTD_LIB_MINIFY
    implies). A null destination is a flag ([dst_null]); other pointers are not null. What the memory
    of a workspace holds when a function is called is an argument of its definition
    (the [scratch] and [wksp] records), on which no theorem depends.

    ** Not modelled

    The building of Huffman trees and with it compressed literals on the side of the
    encoder, the Huffman decoder with two symbols per entry
    and its loops for processors with BMI2, the decoding of sequences with
    prefetching, decompression where the input lies in the output buffer, the match finders with a dictionary and those of the
    strategies above double fast, long distance matching, streaming
    compression, the buffers of [ZSTD_decompressStream], parameters and workspaces are not modelled. The parallel compressor
    (compress/zstdmt_compress.c), the dictionary builder, the
    portability layer and the JNI and Java bindings are outside the scope. *)

From Stdlib Require Export ZArith Lia.
From coqutil Require Export Z.bitblast.
From stdpp Require Export base numbers tactics option list.
#[global] Open Scope Z_scope.

(** ** Machine words *)

(** The unsigned types of the C code: a value is a [Z] in [0, 2^w), and each
    arithmetic result is reduced where the C expression has that type.
    [size_t] is 64 bits wide in this development. *)
Definition wrap (w x : Z) : Z := x mod 2 ^ w.
Definition u8 (x : Z) : Z := x mod 2 ^ 8.
Definition u16 (x : Z) : Z := x mod 2 ^ 16.
Definition u32 (x : Z) : Z := x mod 2 ^ 32.
Definition u64 (x : Z) : Z := x mod 2 ^ 64.

(** The signed types, in two's complement. *)
Definition s16 (x : Z) : Z := (x + 2 ^ 15) mod 2 ^ 16 - 2 ^ 15.
Definition s32 (x : Z) : Z := (x + 2 ^ 31) mod 2 ^ 32 - 2 ^ 31.

(** C's truth value of a comparison. *)
Definition b2z (b : bool) : Z := if b then 1 else 0.

Declare Scope zstd_scope.
Delimit Scope zstd_scope with zstd.
Notation "a '.|' b" := (Z.lor a b) (at level 50, left associativity) : zstd_scope.
Notation "a '.&' b" := (Z.land a b) (at level 40, left associativity) : zstd_scope.
#[global] Open Scope zstd_scope.

(** ** Arrays *)

(** C arrays are lists indexed by [Z]. [zat] is the total read used in
    specifications, [zupd] the write; the operations of the model go through
    the checked [rd] and [wr] of [Outcome]. *)
Definition zlen {A} (l : list A) : Z := Z.of_nat (length l).
Definition zat {A} `{!Inhabited A} (l : list A) (i : Z) : A := l !!! Z.to_nat i.
Definition zupd {A} (l : list A) (i : Z) (v : A) : list A := <[Z.to_nat i := v]> l.
Definition zsub {A} (l : list A) (i n : Z) : list A :=
  take (Z.to_nat n) (drop (Z.to_nat i) l).
Definition zfill {A} (n : Z) (v : A) : list A := replicate (Z.to_nat n) v.
(** [memcpy] of [src] over [dst] at index [i]. *)
Definition zpatch {A} (dst : list A) (i : Z) (src : list A) : list A :=
  take (Z.to_nat i) dst ++ src ++ drop (Z.to_nat i + length src) dst.
(** The sum of an array. *)
Definition zsum (l : list Z) : Z := foldr Z.add 0 l.
(** The bytes of a buffer. *)
Definition is_byte (b : Z) : Prop := 0 <= b < 256.
Definition bytes_ok (l : list Z) : Prop := Forall is_byte l.

#[global] Instance is_byte_dec b : Decision (is_byte b).
Proof. unfold is_byte. apply _. Defined.
#[global] Instance bytes_ok_dec l : Decision (bytes_ok l).
Proof. unfold bytes_ok. apply _. Defined.

(** ** Tactics *)

(** Linear arithmetic with divisions and remainders by constants. *)
Ltac zdm := Z.to_euclidean_division_equations; lia.
(** Turn the boolean comparisons of hypotheses into propositions. *)
Ltac bools :=
  repeat match goal with
  | H : (_ <? _) = true |- _ => apply Z.ltb_lt in H
  | H : (_ <? _) = false |- _ => apply Z.ltb_ge in H
  | H : (_ <=? _) = true |- _ => apply Z.leb_le in H
  | H : (_ <=? _) = false |- _ => apply Z.leb_gt in H
  | H : (_ =? _) = true |- _ => apply Z.eqb_eq in H
  | H : (_ =? _) = false |- _ => apply Z.eqb_neq in H
  | H : (_ >? _) = _ |- _ => rewrite Z.gtb_ltb in H
  | H : (_ >=? _) = _ |- _ => rewrite Z.geb_leb in H
  | H : _ && _ = true |- _ => apply andb_true_iff in H; destruct H
  | H : _ || _ = false |- _ => apply orb_false_iff in H; destruct H
  | H : negb _ = true |- _ => apply negb_true_iff in H
  | H : negb _ = false |- _ => apply negb_false_iff in H
  end.
(** Case analysis on the first boolean condition of the goal. *)
Ltac case_if :=
  match goal with
  | |- context [if ?b then _ else _] => let E := fresh "Hif" in destruct b eqn:E; bools
  end.

(** Decide that a concrete buffer holds bytes. *)
Ltac bytes_dec :=
  match goal with |- bytes_ok ?l => apply (bool_decide_unpack (bytes_ok l)); vm_compute; exact I end.

Create HintDb word.

(** ** Facts on words *)

Lemma u8_range x : 0 <= u8 x < 2 ^ 8.
Proof. unfold u8. apply Z.mod_pos_bound. lia. Qed.
Lemma u16_range x : 0 <= u16 x < 2 ^ 16.
Proof. unfold u16. apply Z.mod_pos_bound. lia. Qed.
Lemma u32_range x : 0 <= u32 x < 2 ^ 32.
Proof. unfold u32. apply Z.mod_pos_bound. lia. Qed.
Lemma u64_range x : 0 <= u64 x < 2 ^ 64.
Proof. unfold u64. apply Z.mod_pos_bound. lia. Qed.
Lemma u8_small x : 0 <= x < 2 ^ 8 -> u8 x = x.
Proof. apply Z.mod_small. Qed.
Lemma u16_small x : 0 <= x < 2 ^ 16 -> u16 x = x.
Proof. apply Z.mod_small. Qed.
Lemma u32_small x : 0 <= x < 2 ^ 32 -> u32 x = x.
Proof. apply Z.mod_small. Qed.
Lemma u64_small x : 0 <= x < 2 ^ 64 -> u64 x = x.
Proof. apply Z.mod_small. Qed.
Lemma s16_small x : - 2 ^ 15 <= x < 2 ^ 15 -> s16 x = x.
Proof. intros. unfold s16. rewrite Z.mod_small; lia. Qed.
Lemma s32_small x : - 2 ^ 31 <= x < 2 ^ 31 -> s32 x = x.
Proof. intros. unfold s32. rewrite Z.mod_small; lia. Qed.
#[export] Hint Resolve u8_range u16_range u32_range u64_range : word.
#[export] Hint Rewrite u8_small u16_small u32_small u64_small s16_small s32_small
  using lia : word.

Lemma pow2_pos n : 0 <= n -> 0 < 2 ^ n.
Proof. intros. apply Z.pow_pos_nonneg; lia. Qed.
Lemma pow2_le a b : 0 <= a <= b -> 2 ^ a <= 2 ^ b.
Proof. intros. apply Z.pow_le_mono_r; lia. Qed.
Lemma pow2_lt a b : 0 <= a < b -> 2 ^ a < 2 ^ b.
Proof. intros. apply Z.pow_lt_mono_r; lia. Qed.
Lemma pow2_add a b : 0 <= a -> 0 <= b -> 2 ^ (a + b) = 2 ^ a * 2 ^ b.
Proof. intros. apply Z.pow_add_r; lia. Qed.
Lemma pow2_S a : 0 <= a -> 2 ^ (a + 1) = 2 * 2 ^ a.
Proof. intros. rewrite pow2_add by lia. lia. Qed.
#[export] Hint Resolve pow2_pos : word.

(** The mask of [n] low bits. *)
Lemma land_mask x n : 0 <= n -> Z.land x (2 ^ n - 1) = x mod 2 ^ n.
Proof. intros. rewrite <- Z.land_ones, Z.ones_equiv by lia. f_equal. Qed.

(** The masks of the code. *)
Lemma land_1 x : (Z.land x 1 =? 0) = Z.even x.
Proof. change 1 with (2 ^ 1 - 1). rewrite land_mask by lia. by rewrite Zeven_mod. Qed.
Lemma land_2 x : (Z.land x 2 =? 0) = (x mod 4 <? 2).
Proof.
  change 2 with (Z.land 3 2) at 1. rewrite Z.land_assoc. change 3 with (2 ^ 2 - 1).
  rewrite land_mask by lia. change (2 ^ 2) with 4.
  pose proof (Z.mod_pos_bound x 4 ltac:(lia)) as H.
  assert (x mod 4 = 0 \/ x mod 4 = 1 \/ x mod 4 = 2 \/ x mod 4 = 3) as [-> | [-> | [-> | ->]]] by lia; done.
Qed.
Lemma land_7 x : Z.land x 7 = x mod 8.
Proof. change 7 with (2 ^ 3 - 1). by rewrite land_mask by lia. Qed.
Lemma land_31 x : 0 <= Z.land x 31 <= 31.
Proof.
  assert (Z.land x 31 = x mod 2 ^ 5) as -> by (by apply (land_mask x 5)).
  pose proof (Z.mod_pos_bound x (2 ^ 5)). lia.
Qed.
Lemma land_63 x : 0 <= x < 64 -> Z.land x 63 = x.
Proof. intros. change 63 with (2 ^ 6 - 1). rewrite land_mask by lia. by apply Z.mod_small. Qed.

(** A sum of fields that do not overlap is their disjunction. *)
Lemma lor_shiftl_add a b n :
  0 <= n -> 0 <= a < 2 ^ n -> Z.lor a (Z.shiftl b n) = a + b * 2 ^ n.
Proof.
  intros Hn Ha. rewrite <- Z.shiftl_mul_pow2 by lia. apply Z.or_to_plus.
  apply Z.bits_inj'. intros i Hi. rewrite Z.land_spec, Z.bits_0.
  destruct (Z.ltb_spec i n).
  - rewrite Z.shiftl_spec_low by lia. apply andb_false_r.
  - rewrite <- (Z.mod_small a (2 ^ n)) by lia.
    rewrite Z.mod_pow2_bits_high by lia. done.
Qed.

Lemma testbit_high x n i : 0 <= x < 2 ^ n -> n <= i -> Z.testbit x i = false.
Proof.
  intros Hx Hi. destruct (Z.ltb_spec n 0).
  - rewrite Z.pow_neg_r in Hx by lia. lia.
  - rewrite <- (Z.mod_small x (2 ^ n)) by lia. apply Z.mod_pow2_bits_high. lia.
Qed.

(** ** Facts on arrays *)

Lemma zlen_nonneg {A} (l : list A) : 0 <= zlen l.
Proof. unfold zlen. lia. Qed.
Lemma zlen_app {A} (l k : list A) : zlen (l ++ k) = zlen l + zlen k.
Proof. unfold zlen. rewrite length_app. lia. Qed.
Lemma zlen_zupd {A} (l : list A) i v : zlen (zupd l i v) = zlen l.
Proof. unfold zlen, zupd. by rewrite length_insert. Qed.
Lemma zlen_zfill {A} n (v : A) : 0 <= n -> zlen (zfill n v) = n.
Proof. intros. unfold zlen, zfill. rewrite length_replicate. lia. Qed.
Lemma zlen_zpatch {A} (dst src : list A) i :
  0 <= i -> i + zlen src <= zlen dst -> zlen (zpatch dst i src) = zlen dst.
Proof.
  unfold zlen, zpatch. intros. rewrite !length_app, length_take, length_drop. lia.
Qed.
Lemma zlen_zsub {A} (l : list A) i n :
  0 <= i -> 0 <= n -> i + n <= zlen l -> zlen (zsub l i n) = n.
Proof. unfold zlen, zsub. intros. rewrite length_take, length_drop. lia. Qed.
#[export] Hint Rewrite @zlen_app @zlen_zupd : zlist.
#[export] Hint Rewrite @zlen_zfill @zlen_zpatch @zlen_zsub using lia : zlist.
#[export] Hint Resolve zlen_nonneg : zlist.

Lemma zat_map {A B} `{!Inhabited A, !Inhabited B} (f : A -> B) l i : 0 <= i < zlen l -> zat (map f l) i = f (zat l i).
Proof.
  unfold zat, zlen. intros Hi. destruct (lookup_lt_is_Some_2 l (Z.to_nat i)) as [x Hx]; [lia|].
  rewrite (list_lookup_total_correct _ _ _ Hx). apply list_lookup_total_correct. by rewrite list_lookup_fmap, Hx.
Qed.

Lemma zat_zupd {A} `{!Inhabited A} (l : list A) i j v :
  0 <= i < zlen l -> 0 <= j ->
  zat (zupd l i v) j = if j =? i then v else zat l j.
Proof.
  unfold zat, zupd, zlen. intros Hi Hj. destruct (Z.eqb_spec j i) as [->|].
  - apply list_lookup_total_insert_eq. lia.
  - apply list_lookup_total_insert_ne. lia.
Qed.
Lemma zat_zupd_eq {A} `{!Inhabited A} (l : list A) i v :
  0 <= i < zlen l -> zat (zupd l i v) i = v.
Proof. intros. rewrite zat_zupd by lia. by rewrite Z.eqb_refl. Qed.
Lemma zat_zupd_ne {A} `{!Inhabited A} (l : list A) i j v :
  0 <= i -> 0 <= j -> i <> j -> zat (zupd l i v) j = zat l j.
Proof. unfold zat, zupd. intros. apply list_lookup_total_insert_ne. lia. Qed.
Lemma zat_app_l {A} `{!Inhabited A} (l k : list A) i :
  0 <= i < zlen l -> zat (l ++ k) i = zat l i.
Proof. unfold zat, zlen. intros. apply lookup_total_app_l. lia. Qed.
Lemma zat_app_r {A} `{!Inhabited A} (l k : list A) i :
  zlen l <= i -> zat (l ++ k) i = zat k (i - zlen l).
Proof.
  unfold zat, zlen. intros. rewrite lookup_total_app_r by lia. f_equal. lia.
Qed.
Lemma zat_cons_0 {A} `{!Inhabited A} (x : A) l : zat (x :: l) 0 = x.
Proof. done. Qed.
Lemma zat_cons_S {A} `{!Inhabited A} (x : A) l i : 0 < i -> zat (x :: l) i = zat l (i - 1).
Proof.
  unfold zat. intros. replace (Z.to_nat i) with (S (Z.to_nat (i - 1))) by lia. done.
Qed.
Lemma zat_zfill {A} `{!Inhabited A} n (v : A) i : 0 <= i < n -> zat (zfill n v) i = v.
Proof. unfold zat, zfill. intros. apply lookup_total_replicate_2. lia. Qed.
Lemma zat_Forall {A} `{!Inhabited A} (P : A -> Prop) l i :
  Forall P l -> 0 <= i < zlen l -> P (zat l i).
Proof.
  unfold zat, zlen. intros HF Hi.
  destruct (lookup_lt_is_Some_2 l (Z.to_nat i)) as [x Hx]; [lia|].
  rewrite (list_lookup_total_correct _ _ _ Hx).
  by apply (Forall_lookup_1 _ _ _ _ HF Hx).
Qed.
Lemma zat_ext {A} `{!Inhabited A} (l k : list A) :
  zlen l = zlen k -> (forall i, 0 <= i < zlen l -> zat l i = zat k i) -> l = k.
Proof.
  unfold zlen, zat. intros Hlen Hi. apply list_eq_same_length with (length l); [lia|lia|].
  intros i x y Hlt Hx Hy.
  rewrite <- (list_lookup_total_correct _ _ _ Hx), <- (list_lookup_total_correct _ _ _ Hy).
  rewrite <- (Nat2Z.id i). apply Hi. lia.
Qed.
Lemma Forall_zat {A} `{!Inhabited A} (P : A -> Prop) l :
  (forall i, 0 <= i < zlen l -> P (zat l i)) -> Forall P l.
Proof.
  unfold zlen, zat. intros H. apply Forall_lookup. intros i x Hx.
  rewrite <- (list_lookup_total_correct _ _ _ Hx), <- (Nat2Z.id i).
  apply H. pose proof (lookup_lt_Some _ _ _ Hx). lia.
Qed.
Lemma Forall_zupd {A} (P : A -> Prop) l i v : Forall P l -> P v -> Forall P (zupd l i v).
Proof. unfold zupd. intros. by apply Forall_insert. Qed.
Lemma zat_zsub {A} `{!Inhabited A} (l : list A) i n j :
  0 <= i -> 0 <= j < n -> zat (zsub l i n) j = zat l (i + j).
Proof.
  unfold zat, zsub. intros.
  rewrite lookup_total_take_lt by lia. rewrite lookup_total_drop. f_equal. lia.
Qed.
Lemma zat_zpatch {A} `{!Inhabited A} (dst src : list A) i j :
  0 <= i -> i + zlen src <= zlen dst -> 0 <= j ->
  zat (zpatch dst i src) j =
    if (i <=? j) && (j <? i + zlen src) then zat src (j - i) else zat dst j.
Proof.
  unfold zat, zpatch, zlen. intros.
  destruct (Z.leb_spec i j); simpl.
  - rewrite lookup_total_app_r; rewrite length_take; [|lia].
    destruct (Z.ltb_spec j (i + Z.of_nat (length src))).
    + rewrite lookup_total_app_l by lia. f_equal. lia.
    + rewrite lookup_total_app_r by lia. rewrite lookup_total_drop. f_equal. lia.
  - rewrite lookup_total_app_l by (rewrite length_take; lia).
    apply lookup_total_take_lt. lia.
Qed.
#[export] Hint Rewrite @zat_zupd_eq @zat_zupd_ne using lia : zlist.

Lemma zsub_zpatch {A} (dst src : list A) i :
  0 <= i -> i + zlen src <= zlen dst -> zsub (zpatch dst i src) i (zlen src) = src.
Proof.
  unfold zsub, zpatch, zlen. intros. rewrite drop_app_length'.
  - rewrite Nat2Z.id. by rewrite take_app_length.
  - rewrite length_take. lia.
Qed.

Lemma zsub_split {A} (l : list A) i a b :
  0 <= i -> 0 <= a -> 0 <= b -> zsub l i (a + b) = zsub l i a ++ zsub l (i + a) b.
Proof.
  intros. unfold zsub. rewrite !Z2Nat.inj_add by lia. by rewrite <- drop_drop, take_take_drop.
Qed.
Lemma zsub_all {A} (l : list A) : zsub l 0 (zlen l) = l.
Proof. unfold zsub, zlen. rewrite Nat2Z.id. apply firstn_all. Qed.
Lemma zsub_cut {A} (l : list A) p :
  0 <= p <= zlen l -> l = zsub l 0 p ++ zsub l p (zlen l - p).
Proof.
  intros. rewrite <- (zsub_split l 0 p) by lia.
  replace (p + (zlen l - p)) with (zlen l) by lia. symmetry. apply zsub_all.
Qed.
Lemma zsub_cut3 {A} (l : list A) p n :
  0 <= p -> 0 <= n -> p + n <= zlen l ->
  l = zsub l 0 p ++ zsub l p n ++ zsub l (p + n) (zlen l - p - n).
Proof.
  intros. rewrite <- zsub_split by lia. replace (n + (zlen l - p - n)) with (zlen l - p) by lia.
  apply zsub_cut. lia.
Qed.
Lemma zsub_zpatch_before {A} (dst src : list A) i p n :
  0 <= i -> 0 <= n -> i + n <= p -> p + zlen src <= zlen dst ->
  zsub (zpatch dst p src) i n = zsub dst i n.
Proof.
  unfold zlen, zsub, zpatch. intros. rewrite drop_app_le by (rewrite length_take; lia).
  rewrite take_app_le by (rewrite length_drop, length_take; lia).
  rewrite skipn_firstn_comm. rewrite take_take. f_equal. lia.
Qed.
Lemma zsub_zpatch_prefix {A} (dst src : list A) i n :
  0 <= i -> 0 <= n <= zlen src -> i + zlen src <= zlen dst ->
  zsub (zpatch dst i src) i n = take (Z.to_nat n) src.
Proof.
  unfold zsub, zpatch, zlen. intros. rewrite drop_app_length' by (rewrite length_take; lia).
  apply take_app_le. lia.
Qed.

Lemma filter_true {A} (P : A -> Prop) `{!forall x, Decision (P x)} l :
  Forall P l -> filter P l = l.
Proof. induction 1 as [|x l Hx _ IH]; [done|]. rewrite filter_cons_True by done. by rewrite IH. Qed.
Lemma filter_false {A} (P : A -> Prop) `{!forall x, Decision (P x)} l :
  Forall (fun x => ~ P x) l -> filter P l = [].
Proof. induction 1 as [|x l Hx _ IH]; [done|]. by rewrite filter_cons_False. Qed.

Lemma zsum_app l k : zsum (l ++ k) = zsum l + zsum k.
Proof. unfold zsum. induction l as [|x l IH]; simpl; [lia|]. rewrite IH. lia. Qed.
Lemma zsum_zupd l i v :
  0 <= i < zlen l -> zsum (zupd l i v) = zsum l - zat l i + v.
Proof.
  unfold zlen, zupd, zat. intros Hi. remember (Z.to_nat i) as n.
  assert (n < length l)%nat as Hn by lia. clear -Hn. revert n Hn.
  induction l as [|x l IH]; intros [|n] Hn; simpl in *; try lia.
  unfold zsum in *. simpl. rewrite IH by lia. lia.
Qed.
Lemma zsum_zfill n v : 0 <= n -> zsum (zfill n v) = n * v.
Proof.
  intros. unfold zfill. replace n with (Z.of_nat (Z.to_nat n)) at 2 by lia.
  induction (Z.to_nat n) as [|k IH]; [done|]. unfold zsum in *. simpl replicate.
  simpl foldr. lia.
Qed.
Lemma zsum_nonneg l : Forall (fun x => 0 <= x) l -> 0 <= zsum l.
Proof. unfold zsum. induction 1; simpl; lia. Qed.
Lemma zsum_zat_le l i : Forall (fun x => 0 <= x) l -> 0 <= i < zlen l -> zat l i <= zsum l.
Proof.
  intros HF Hi. pose proof (zsum_zupd l i 0 Hi) as E.
  assert (0 <= zsum (zupd l i 0)); [|lia].
  apply zsum_nonneg, Forall_zupd; [done|lia].
Qed.

(** Decide a property of every integer of a range by computation. *)
Definition range_forallb (P : Z -> bool) (lo : Z) (n : nat) : bool :=
  forallb P (seqZ lo (Z.of_nat n)).

Lemma forallb_range (P : Z -> bool) lo hi :
  range_forallb P lo (Z.to_nat (hi - lo)) = true -> forall k, lo <= k < hi -> P k = true.
Proof.
  unfold range_forallb. intros H k Hk. rewrite forallb_forall in H. apply H.
  apply list_elem_of_In, elem_of_seqZ. lia.
Qed.
