(* ===== verification/Errors.v ===== *)
(** Error codes of the library and their encoding in a [size_t]
    (zstd_errors.h, common/error_private.h, common/error_private.c). *)

From stdpp Require Import base tactics strings.
From S2P Require Import Prelude.

(** [enum ZSTD_ErrorCode]. *)
Inductive ZSTD_ErrorCode : Set :=
| no_error
| GENERIC
| prefix_unknown
| version_unsupported
| frameParameter_unsupported
| frameParameter_windowTooLarge
| corruption_detected
| checksum_wrong
| literals_headerWrong
| dictionary_corrupted
| dictionary_wrong
| dictionaryCreation_failed
| parameter_unsupported
| parameter_combination_unsupported
| parameter_outOfBound
| tableLog_tooLarge
| maxSymbolValue_tooLarge
| maxSymbolValue_tooSmall
| cannotProduce_uncompressedBlock
| stabilityCondition_notRespected
| stage_wrong
| init_missing
| memory_allocation
| workSpace_tooSmall
| dstSize_tooSmall
| srcSize_wrong
| dstBuffer_null
| noForwardProgress_destFull
| noForwardProgress_inputEmpty
| frameIndex_tooLarge
| seekableIO
| dstBuffer_wrong
| srcBuffer_wrong
| sequenceProducer_failed
| externalSequences_invalid
| maxCode.

#[global] Instance ZSTD_ErrorCode_eq_dec : EqDecision ZSTD_ErrorCode.
Proof. solve_decision. Defined.

(** The numeric values of the enumerators. *)
Definition code_of (e : ZSTD_ErrorCode) : Z :=
  match e with
  | no_error => 0
  | GENERIC => 1
  | prefix_unknown => 10
  | version_unsupported => 12
  | frameParameter_unsupported => 14
  | frameParameter_windowTooLarge => 16
  | corruption_detected => 20
  | checksum_wrong => 22
  | literals_headerWrong => 24
  | dictionary_corrupted => 30
  | dictionary_wrong => 32
  | dictionaryCreation_failed => 34
  | parameter_unsupported => 40
  | parameter_combination_unsupported => 41
  | parameter_outOfBound => 42
  | tableLog_tooLarge => 44
  | maxSymbolValue_tooLarge => 46
  | maxSymbolValue_tooSmall => 48
  | cannotProduce_uncompressedBlock => 49
  | stabilityCondition_notRespected => 50
  | stage_wrong => 60
  | init_missing => 62
  | memory_allocation => 64
  | workSpace_tooSmall => 66
  | dstSize_tooSmall => 70
  | srcSize_wrong => 72
  | dstBuffer_null => 74
  | noForwardProgress_destFull => 80
  | noForwardProgress_inputEmpty => 82
  | frameIndex_tooLarge => 100
  | seekableIO => 102
  | dstBuffer_wrong => 104
  | srcBuffer_wrong => 105
  | sequenceProducer_failed => 106
  | externalSequences_invalid => 107
  | maxCode => 120
  end.

(** [ERROR(name)], i.e. [(size_t)-ZSTD_error_name]. *)
Definition ERROR (e : ZSTD_ErrorCode) : Z := u64 (- code_of e).

Definition ERR_isError (code : Z) : bool := code >? ERROR maxCode.

(** The enum value held by an error [size_t]; the C cast keeps the number, so
    it is a number here as well. *)
Definition ERR_getErrorCode (code : Z) : Z :=
  if negb (ERR_isError code) then 0 else u64 (0 - code).

(** The strings of [ERR_getErrorString]; the [switch] is on the numeric value,
    every value without a case takes the default. *)
Definition ERR_getErrorString (code : Z) : string :=
  if code =? code_of no_error then "No error detected" else
  if code =? code_of GENERIC then "Error (generic)" else
  if code =? code_of prefix_unknown then "Unknown frame descriptor" else
  if code =? code_of version_unsupported then "Version not supported" else
  if code =? code_of frameParameter_unsupported then "Unsupported frame parameter" else
  if code =? code_of frameParameter_windowTooLarge then "Frame requires too much memory for decoding" else
  if code =? code_of corruption_detected then "Data corruption detected" else
  if code =? code_of checksum_wrong then "Restored data doesn't match checksum" else
  if code =? code_of literals_headerWrong then "Header of Literals' block doesn't respect format specification" else
  if code =? code_of parameter_unsupported then "Unsupported parameter" else
  if code =? code_of parameter_combination_unsupported then "Unsupported combination of parameters" else
  if code =? code_of parameter_outOfBound then "Parameter is out of bound" else
  if code =? code_of init_missing then "Context should be init first" else
  if code =? code_of memory_allocation then "Allocation error : not enough memory" else
  if code =? code_of workSpace_tooSmall then "workSpace buffer is not large enough" else
  if code =? code_of stage_wrong then "Operation not authorized at current processing stage" else
  if code =? code_of tableLog_tooLarge then "tableLog requires too much memory : unsupported" else
  if code =? code_of maxSymbolValue_tooLarge then "Unsupported max Symbol Value : too large" else
  if code =? code_of maxSymbolValue_tooSmall then "Specified maxSymbolValue is too small" else
  if code =? code_of cannotProduce_uncompressedBlock then "This mode cannot generate an uncompressed block" else
  if code =? code_of stabilityCondition_notRespected then "pledged buffer stability condition is not respected" else
  if code =? code_of dictionary_corrupted then "Dictionary is corrupted" else
  if code =? code_of dictionary_wrong then "Dictionary mismatch" else
  if code =? code_of dictionaryCreation_failed then "Cannot create Dictionary from provided samples" else
  if code =? code_of dstSize_tooSmall then "Destination buffer is too small" else
  if code =? code_of srcSize_wrong then "Src size is incorrect" else
  if code =? code_of dstBuffer_null then "Operation on NULL destination buffer" else
  if code =? code_of noForwardProgress_destFull then "Operation made no progress over multiple calls, due to output buffer being full" else
  if code =? code_of noForwardProgress_inputEmpty then "Operation made no progress over multiple calls, due to input being empty" else
  if code =? code_of frameIndex_tooLarge then "Frame index is too large" else
  if code =? code_of seekableIO then "An I/O error occurred when reading/seeking" else
  if code =? code_of dstBuffer_wrong then "Destination buffer is wrong" else
  if code =? code_of srcBuffer_wrong then "Source buffer is wrong" else
  if code =? code_of sequenceProducer_failed then "Block-level external sequence producer returned an error code" else
  if code =? code_of externalSequences_invalid then "External sequences are not valid" else
  "Unspecified error code".

Definition ERR_getErrorName (code : Z) : string :=
  ERR_getErrorString (ERR_getErrorCode code).

(** *** Lemmas *)

Lemma code_of_range e : 0 <= code_of e <= 120.
Proof. destruct e; simpl; lia. Qed.

Lemma code_of_inj e e' : code_of e = code_of e' -> e = e'.
Proof. destruct e, e'; simpl; congruence. Qed.

(** Every code but [no_error] and the sentinel [maxCode] is a real error. *)
Definition is_real_error (e : ZSTD_ErrorCode) : bool :=
  negb (bool_decide (e = no_error)) && negb (bool_decide (e = maxCode)).

Lemma ERROR_val e : e <> no_error -> ERROR e = 2 ^ 64 - code_of e.
Proof. destruct e; try done; intros _; vm_compute; reflexivity. Qed.

Lemma ERR_isError_small n : 0 <= n <= 2 ^ 64 - 121 -> ERR_isError n = false.
Proof.
  intros. unfold ERR_isError. change (ERROR maxCode) with (2 ^ 64 - 120).
  rewrite Z.gtb_ltb. apply Z.ltb_ge. lia.
Qed.

Lemma ERR_isError_ERROR e : ERR_isError (ERROR e) = is_real_error e.
Proof. destruct e; vm_compute; reflexivity. Qed.

Lemma ERR_getErrorCode_ERROR e :
  is_real_error e = true -> ERR_getErrorCode (ERROR e) = code_of e.
Proof. destruct e; vm_compute; congruence. Qed.

(** ** Properties *)

(** An error code and a size are never confused. Every error but the two
    sentinels, returned in a [size_t], is recognised by [ERR_isError], gives its
    code back through [ERR_getErrorCode] and has a name of its own through
    [ERR_getErrorName]; a size of at most [2^64 - 121] is not an error. *)
Theorem error_codes_unambiguous (e e' : ZSTD_ErrorCode) (n : Z) :
  is_real_error e = true -> is_real_error e' = true -> 0 <= n <= 2 ^ 64 - 121 ->
  ERR_isError (ERROR e) = true /\ ERR_getErrorCode (ERROR e) = code_of e /\
  ERR_isError n = false /\ ERROR e <> n /\
  (ERR_getErrorName (ERROR e) = ERR_getErrorName (ERROR e') -> e = e') /\
  ERR_getErrorName (ERROR e) <> "Unspecified error code".
Proof.
  intros He He' Hn. split_and!.
  - by rewrite ERR_isError_ERROR.
  - by apply ERR_getErrorCode_ERROR.
  - by apply ERR_isError_small.
  - intros E. pose proof (ERR_isError_ERROR e) as H. rewrite He, E, ERR_isError_small in H; done.
  - unfold ERR_getErrorName. rewrite !ERR_getErrorCode_ERROR by done.
    clear. destruct e, e'; vm_compute; congruence.
  - unfold ERR_getErrorName. rewrite ERR_getErrorCode_ERROR by done. destruct e; vm_compute in He |- *; congruence.
Qed.

Lemma error_codes_unambiguous_witness :
  ERR_isError (ERROR corruption_detected) = true /\ ERR_getErrorCode (ERROR corruption_detected) = 20 /\
  ERR_isError 131072 = false /\ ERROR corruption_detected <> 131072 /\
  (ERR_getErrorName (ERROR corruption_detected) = ERR_getErrorName (ERROR checksum_wrong) ->
   corruption_detected = checksum_wrong) /\
  ERR_getErrorName (ERROR corruption_detected) <> "Unspecified error code".
Proof. apply (error_codes_unambiguous corruption_detected checksum_wrong 131072); [reflexivity|reflexivity|lia]. Defined.
