(* ===== verification/Outcome.v ===== *)
(** The monad of the model. A C function of the library that returns a size or
    an error code in a [size_t] is a computation whose value is [Ok], an error
    ([Err], the [RETURN_ERROR] and [FORWARD_IF_ERROR] macros) or [Stuck]:
    behaviour the C standard leaves undefined (an access outside an array, a
    shift by the width) and a loop that used up the fuel given to it. The rules
    of [wp] prove total correctness, so that a theorem about a [wp] also says
    that the code is neither undefined nor divergent. *)

From stdpp Require Import base tactics.
From S2P Require Import Prelude Errors.

Inductive result (A : Type) : Type :=
| Ok (a : A)
| Err (e : ZSTD_ErrorCode)
| Stuck.
Arguments Ok {A} a.
Arguments Err {A} e.
Arguments Stuck {A}.

Definition bind {A B} (m : result A) (f : A -> result B) : result B :=
  match m with
  | Ok a => f a
  | Err e => Err e
  | Stuck => Stuck
  end.

Notation "'let*' x := m 'in' f" := (bind m (fun x => f))
  (at level 200, x binder, m at level 100, f at level 200) : zstd_scope.
Notation "'let*' ' p := m 'in' f" := (bind m (fun p => f))
  (at level 200, p strict pattern, m at level 100, f at level 200) : zstd_scope.

(** [RETURN_ERROR_IF(cond, err)]. *)
Definition RETURN_ERROR_IF {A} (c : bool) (e : ZSTD_ErrorCode) (m : result A) : result A :=
  if c then Err e else m.
Notation "'ERROR_IF' c 'THEN' e ';;' m" := (RETURN_ERROR_IF c e m)
  (at level 200, c at level 99, e at level 99, m at level 200) : zstd_scope.

(** A condition the C code relies on without testing it ([assert] is compiled
    out of a release build): the continuation is only defined under it. *)
Definition defined_if {A} (c : bool) (m : result A) : result A :=
  if c then m else Stuck.
Notation "'REQUIRE' c ';;' m" := (defined_if c m)
  (at level 200, c at level 99, m at level 200) : zstd_scope.

(** The [size_t] a caller that does arithmetic on the value would see. *)
Definition to_size (m : result Z) : option Z :=
  match m with
  | Ok n => Some n
  | Err e => Some (ERROR e)
  | Stuck => None
  end.

(** Checked array accesses. *)
Definition rd {A} `{!Inhabited A} (l : list A) (i : Z) : result A :=
  if (0 <=? i) && (i <? zlen l) then Ok (zat l i) else Stuck.
Definition wr {A} (l : list A) (i : Z) (v : A) : result (list A) :=
  if (0 <=? i) && (i <? zlen l) then Ok (zupd l i v) else Stuck.
(** [memcpy] of [src] at index [i] of [dst], inside [dst]. *)
Definition memcpy_at {A} (dst : list A) (i : Z) (src : list A) : result (list A) :=
  if (0 <=? i) && (i + zlen src <=? zlen dst) then Ok (zpatch dst i src) else Stuck.

(** *** Loops *)

(** [for (i = lo; i < hi; i++)]. *)
Fixpoint for_ {T : Type} (n : nat) (i : Z) (body : Z -> T -> result T) (s : T) : result T :=
  match n with
  | O => Ok s
  | S n => let* s' := body i s in for_ n (i + 1) body s'
  end.
Definition for_range {T : Type} (lo hi : Z) (body : Z -> T -> result T) (s : T) : result T :=
  for_ (Z.to_nat (hi - lo)) lo body s.

(** [for (i = lo; i < hi; i += step)]. *)
Definition for_step {T : Type} (lo hi step : Z) (body : Z -> T -> result T) (s : T) : result T :=
  for_range 0 ((hi - lo + step - 1) / step) (fun k => body (lo + k * step)) s.

(** [while (cond) body], with fuel. *)
Fixpoint while_ {T : Type} (fuel : nat) (cond : T -> bool) (body : T -> result T) (s : T)
  : result T :=
  if cond s then
    match fuel with
    | O => Stuck
    | S fuel => let* s' := body s in while_ fuel cond body s'
    end
  else Ok s.

(** [for (;;)] with [break]: the body says whether to go on. *)
Inductive flow (T R : Type) : Type :=
| Continue (s : T)
| Break (r : R).
Arguments Continue {T R} s.
Arguments Break {T R} r.

Fixpoint loop_ {T R : Type} (fuel : nat) (body : T -> result (flow T R)) (s : T) : result R :=
  match fuel with
  | O => Stuck
  | S fuel =>
      let* f := body s in
      match f with
      | Continue s' => loop_ fuel body s'
      | Break r => Ok r
      end
  end.

(** *** Program logic *)

(** [wp m Q E]: [m] is defined, its value satisfies [Q], its error [E]. *)
Definition wp {A} (m : result A) (Q : A -> Prop) (E : ZSTD_ErrorCode -> Prop) : Prop :=
  match m with
  | Ok a => Q a
  | Err e => E e
  | Stuck => False
  end.

Definition any_error : ZSTD_ErrorCode -> Prop := fun _ => True.
Definition no_errors : ZSTD_ErrorCode -> Prop := fun _ => False.

Lemma wp_bind {A B} (m : result A) (f : A -> result B) (Q : B -> Prop) E :
  wp m (fun a => wp (f a) Q E) E -> wp (bind m f) Q E.
Proof. destruct m; done. Qed.

Lemma wp_mono {A} (m : result A) (Q Q' : A -> Prop)
    (E E' : ZSTD_ErrorCode -> Prop) :
  wp m Q E -> (forall a, Q a -> Q' a) -> (forall e, E e -> E' e) -> wp m Q' E'.
Proof. destruct m; naive_solver. Qed.

Section rules.
Context {A : Type}.
Implicit Types (E : ZSTD_ErrorCode -> Prop).

Lemma wp_Ok (a : A) (Q : A -> Prop) E : Q a -> wp (Ok a) Q E.
Proof. done. Qed.

Lemma wp_Err e (Q : A -> Prop) E : E e -> wp (Err e) Q E.
Proof. done. Qed.

Lemma wp_conj (m : result A) (Q Q' : A -> Prop) E :
  wp m Q E -> wp m Q' E -> wp m (fun a => Q a /\ Q' a) E.
Proof. destruct m; done. Qed.

Lemma wp_error_if c e (m : result A) (Q : A -> Prop) E :
  (c = true -> E e) -> (c = false -> wp m Q E) -> wp (RETURN_ERROR_IF c e m) Q E.
Proof. destruct c; naive_solver. Qed.

Lemma wp_defined_if c (m : result A) (Q : A -> Prop) E :
  c = true -> wp m Q E -> wp (defined_if c m) Q E.
Proof. by intros ->. Qed.

Lemma wp_if (c : bool) (m m' : result A) (Q : A -> Prop) E :
  (c = true -> wp m Q E) -> (c = false -> wp m' Q E) -> wp (if c then m else m') Q E.
Proof. destruct c; naive_solver. Qed.

Lemma wp_rd `{!Inhabited A} (l : list A) i (Q : A -> Prop) E :
  0 <= i < zlen l -> Q (zat l i) -> wp (rd l i) Q E.
Proof.
  intros Hi HQ. unfold rd. rewrite (proj2 (Z.leb_le 0 i)), (proj2 (Z.ltb_lt i _)) by lia. done.
Qed.

Lemma wp_wr (l : list A) i v (Q : list A -> Prop) E :
  0 <= i < zlen l -> Q (zupd l i v) -> wp (wr l i v) Q E.
Proof.
  intros Hi HQ. unfold wr. rewrite (proj2 (Z.leb_le 0 i)), (proj2 (Z.ltb_lt i _)) by lia. done.
Qed.

Lemma wp_memcpy_at (dst : list A) i src (Q : list A -> Prop) E :
  0 <= i -> i + zlen src <= zlen dst -> Q (zpatch dst i src) -> wp (memcpy_at dst i src) Q E.
Proof.
  intros Hi Hlen HQ. unfold memcpy_at.
  rewrite (proj2 (Z.leb_le 0 i)), (proj2 (Z.leb_le (i + _) _)) by lia. done.
Qed.

Lemma wp_for (I : Z -> A -> Prop) lo hi body (s : A) (Q : A -> Prop) E :
  lo <= hi -> I lo s ->
  (forall i s, lo <= i < hi -> I i s -> wp (body i s) (I (i + 1)) E) ->
  (forall s, I hi s -> Q s) ->
  wp (for_range lo hi body s) Q E.
Proof.
  intros Hle H0 Hstep HQ. unfold for_range.
  assert (forall n i s, lo <= i -> i + Z.of_nat n = hi -> I i s ->
    wp (for_ n i body s) Q E) as Hgen.
  { induction n as [|n IH]; intros i s0 Hi Hn HI.
    - apply HQ. by replace hi with i by lia.
    - simpl. apply wp_bind. eapply wp_mono; [apply Hstep; [lia|done]| |done].
      intros s' HI'. apply IH; [lia|lia|done]. }
  apply Hgen; [lia|lia|done].
Qed.

Lemma wp_while (I : A -> Prop) (m : A -> Z) fuel cond body (s : A) (Q : A -> Prop) E :
  I s -> m s <= Z.of_nat fuel ->
  (forall s, I s -> cond s = true ->
     0 < m s /\ wp (body s) (fun s' => I s' /\ m s' < m s) E) ->
  (forall s, I s -> cond s = false -> Q s) ->
  wp (while_ fuel cond body s) Q E.
Proof.
  intros HI Hm Hstep HQ. revert s HI Hm.
  induction fuel as [|fuel IH]; intros s HI Hm; simpl; destruct (cond s) eqn:Hc; try by apply HQ.
  - destruct (Hstep s HI Hc). lia.
  - destruct (Hstep s HI Hc) as [Hpos Hb]. apply wp_bind. eapply wp_mono; [apply Hb| |done].
    intros s' [HI' Hlt]. apply IH; [done|lia].
Qed.

Lemma wp_loop {R : Type} (I : A -> Prop) (m : A -> Z) fuel (body : A -> result (flow A R))
    (s : A) (Q : R -> Prop) E :
  I s -> 0 <= m s < Z.of_nat fuel ->
  (forall s, I s ->
     wp (body s) (fun f => match f with
                           | Continue s' => I s' /\ 0 <= m s' < m s
                           | Break r => Q r
                           end) E) ->
  wp (loop_ fuel body s) Q E.
Proof.
  intros HI Hm Hstep. revert s HI Hm.
  induction fuel as [|fuel IH]; intros s HI Hm; [lia|].
  simpl. apply wp_bind. eapply wp_mono; [by apply Hstep| |done].
  intros [s'|r]; [|done]. intros [HI' Hlt]. apply IH; [done|]. lia.
Qed.

Lemma wp_inv_Ok (m : result A) (Q : A -> Prop) E a : wp m Q E -> m = Ok a -> Q a.
Proof. by intros H ->. Qed.

Lemma wp_not_stuck (m : result A) (Q : A -> Prop) E : wp m Q E -> m <> Stuck.
Proof. by destruct m. Qed.

Lemma wp_no_errors_Ok (m : result A) (Q : A -> Prop) :
  wp m Q no_errors -> exists a, m = Ok a /\ Q a.
Proof. destruct m; simpl; [eauto|by intros []..]. Qed.

End rules.

Lemma rd_ok {A} `{!Inhabited A} (l : list A) i : 0 <= i < zlen l -> rd l i = Ok (zat l i).
Proof.
  intros. unfold rd. by rewrite (proj2 (Z.leb_le 0 i)), (proj2 (Z.ltb_lt i _)) by lia.
Qed.
Lemma wr_ok {A} (l : list A) i v : 0 <= i < zlen l -> wr l i v = Ok (zupd l i v).
Proof.
  intros. unfold wr. by rewrite (proj2 (Z.leb_le 0 i)), (proj2 (Z.ltb_lt i _)) by lia.
Qed.

(** One step of symbolic execution of a [wp] goal. *)
Ltac wp_step :=
  match goal with
  | |- wp (bind _ _) _ _ => apply wp_bind
  | |- wp (Ok _) _ _ => apply wp_Ok
  | |- wp (Err _) _ _ => apply wp_Err
  | |- wp (RETURN_ERROR_IF _ _ _) _ _ => apply wp_error_if; let H := fresh "Hc" in intros H; bools
  | |- wp (defined_if _ _) _ _ => apply wp_defined_if
  | |- wp (rd _ _) _ _ => apply wp_rd
  | |- wp (wr _ _ _) _ _ => apply wp_wr
  | |- wp (if _ then _ else _) _ _ => apply wp_if; let H := fresh "Hc" in intros H; bools
  | |- wp (let _ := _ in _) _ _ => cbv zeta
  end.
Ltac wp_steps := repeat (wp_step; try done).

#[global] Instance result_eq_dec {A} `{!EqDecision A} : EqDecision (result A).
Proof. solve_decision. Defined.

#[global] Instance result_inhabited {A} : Inhabited (result A) := populate Stuck.
