(* ===== verification/Bits.v ===== *)
(** Bit counting and rotations (common/bits.h). The functions are the portable
    branch of the source, the one a compiler without the builtins takes. *)

From S2P Require Import Prelude.

(** ** Definitions *)

Definition DeBruijnBytePos : list Z :=
  [0; 1; 28; 2; 29; 14; 24; 3;
   30; 22; 20; 15; 25; 17; 4; 8;
   31; 27; 13; 23; 21; 19; 16; 7;
   26; 12; 18; 6; 11; 5; 10; 9].

Definition ZSTD_countTrailingZeros32_fallback (val : Z) : Z :=
  zat DeBruijnBytePos (Z.shiftr (u32 (Z.land val (u32 (- s32 val)) * 125613361)) 27).

Definition ZSTD_countTrailingZeros32 (val : Z) : Z :=
  ZSTD_countTrailingZeros32_fallback val.

Definition DeBruijnClz : list Z :=
  [0; 9; 1; 10; 13; 21; 2; 29;
   11; 14; 16; 18; 22; 25; 3; 30;
   8; 12; 20; 28; 15; 17; 24; 7;
   19; 27; 23; 6; 26; 5; 4; 31].

Definition ZSTD_countLeadingZeros32_fallback (val : Z) : Z :=
  let val := val .| Z.shiftr val 1 in
  let val := val .| Z.shiftr val 2 in
  let val := val .| Z.shiftr val 4 in
  let val := val .| Z.shiftr val 8 in
  let val := val .| Z.shiftr val 16 in
  31 - zat DeBruijnClz (Z.shiftr (u32 (val * 130329821)) 27).

Definition ZSTD_countLeadingZeros32 (val : Z) : Z :=
  ZSTD_countLeadingZeros32_fallback val.

Definition ZSTD_countTrailingZeros64 (val : Z) : Z :=
  let mostSignificantWord := u32 (Z.shiftr val 32) in
  let leastSignificantWord := u32 val in
  if leastSignificantWord =? 0
  then 32 + ZSTD_countTrailingZeros32 mostSignificantWord
  else ZSTD_countTrailingZeros32 leastSignificantWord.

Definition ZSTD_countLeadingZeros64 (val : Z) : Z :=
  let mostSignificantWord := u32 (Z.shiftr val 32) in
  let leastSignificantWord := u32 val in
  if mostSignificantWord =? 0
  then 32 + ZSTD_countLeadingZeros32 leastSignificantWord
  else ZSTD_countLeadingZeros32 mostSignificantWord.

(** The number of bytes two words have in common, from the xor of the words:
    [le] is [MEM_isLittleEndian()], [b64] is [MEM_64bits()]. *)
Definition ZSTD_NbCommonBytes (le b64 : bool) (val : Z) : Z :=
  if le then
    if b64 then Z.shiftr (ZSTD_countTrailingZeros64 val) 3
    else Z.shiftr (ZSTD_countTrailingZeros32 (u32 val)) 3
  else
    if b64 then Z.shiftr (ZSTD_countLeadingZeros64 val) 3
    else Z.shiftr (ZSTD_countLeadingZeros32 (u32 val)) 3.

Definition ZSTD_highbit32 (val : Z) : Z := 31 - ZSTD_countLeadingZeros32 val.

Definition ZSTD_rotateRight_U64 (value count : Z) : Z :=
  let count := count .& 63 in
  Z.shiftr value count .| u64 (Z.shiftl value (u32 (0 - count) .& 63)).

Definition ZSTD_rotateRight_U32 (value count : Z) : Z :=
  let count := count .& 31 in
  Z.shiftr value count .| u32 (Z.shiftl value (u32 (0 - count) .& 31)).

Definition ZSTD_rotateRight_U16 (value count : Z) : Z :=
  let count := count .& 15 in
  Z.shiftr value count .| u16 (Z.shiftl value (u32 (0 - count) .& 15)).

(** ** Lemmas *)

(** [k] is the number of zero bits below the lowest one of [v]. *)
Definition is_ctz (v k : Z) : Prop :=
  0 <= k /\ Z.testbit v k = true /\ forall j, j < k -> Z.testbit v j = false.

Lemma land_double a b : Z.land (2 * a) (2 * b) = 2 * Z.land a b.
Proof.
  rewrite <- !(Z.mul_comm _ 2). change 2 with (2 ^ 1).
  rewrite <- !Z.shiftl_mul_pow2, Z.shiftl_land by lia. done.
Qed.

Lemma land_opp_odd a : Z.land (2 * a + 1) (- (2 * a + 1)) = 1.
Proof.
  replace (- (2 * a + 1)) with (2 * Z.lnot a + 1) by (unfold Z.lnot; lia).
  apply Z.bits_inj'. intros i Hi. rewrite Z.land_spec.
  destruct (Z.eqb_spec i 0) as [->|].
  - rewrite !Z.testbit_odd_0. done.
  - replace i with (Z.succ (i - 1)) by lia. rewrite !Z.testbit_odd_succ by lia.
    rewrite Z.lnot_spec by lia. rewrite andb_negb_r.
    change 1 with (2 * 0 + 1). by rewrite Z.testbit_odd_succ, Z.bits_0 by lia.
Qed.

Lemma land_opp_ctz p :
  exists k, is_ctz (Z.pos p) k /\ Z.land (Z.pos p) (- Z.pos p) = 2 ^ k /\ 2 ^ k <= Z.pos p.
Proof.
  induction p as [p _|p [k (Hk & Hl & Hle)]|].
  - exists 0. replace (Z.pos p~1) with (2 * Z.pos p + 1) by lia.
    rewrite land_opp_odd. split_and!; [|done|lia]. split_and!; [lia| |].
    + by rewrite Z.testbit_odd_0.
    + intros j Hj. by apply Z.testbit_neg_r.
  - destruct Hk as (Hk & Ht & Hf). exists (Z.succ k).
    replace (Z.pos p~0) with (2 * Z.pos p) by lia.
    replace (- (2 * Z.pos p)) with (2 * (- Z.pos p)) by lia.
    rewrite land_double, Hl, Z.pow_succ_r by lia. split_and!; [|done|lia].
    split_and!; [lia| |].
    + by rewrite Z.testbit_even_succ by lia.
    + intros j Hj. destruct (Z.ltb_spec j 0); [by apply Z.testbit_neg_r|].
      destruct (Z.eqb_spec j 0) as [->|]; [by rewrite Z.testbit_even_0|].
      replace j with (Z.succ (j - 1)) by lia. rewrite Z.testbit_even_succ by lia. apply Hf. lia.
  - exists 0. split_and!; [|done|lia]. split_and!; [lia|done|].
    intros j Hj. by apply Z.testbit_neg_r.
Qed.

Lemma opp_signed_mod M h v : M <> 0 -> (- ((v + h) mod M - h)) mod M = (- v) mod M.
Proof.
  intros HM. rewrite (Z.mod_eq (v + h)) by lia.
  replace (- (v + h - M * ((v + h) / M) - h)) with (- v + (v + h) / M * M) by ring.
  by apply Z.mod_add.
Qed.

Lemma land_opp_u32 v : 0 <= v < 2 ^ 32 -> Z.land v (u32 (- s32 v)) = Z.land v (- v).
Proof.
  intros Hv. unfold u32, s32.
  replace ((- ((v + 2 ^ 31) mod 2 ^ 32 - 2 ^ 31)) mod 2 ^ 32) with ((- v) mod 2 ^ 32).
  - rewrite <- Z.land_ones by lia. rewrite Z.land_comm, <- Z.land_assoc, (Z.land_comm _ v).
    rewrite Z.land_ones by lia. rewrite Z.mod_small by lia. apply Z.land_comm.
  - symmetry. apply opp_signed_mod. lia.
Qed.

(** The positions of the De Bruijn tables. *)
Lemma DeBruijnBytePos_spec k :
  0 <= k < 32 -> zat DeBruijnBytePos (Z.shiftr (u32 (2 ^ k * 125613361)) 27) = k.
Proof.
  intros Hk. apply Z.eqb_eq.
  apply (forallb_range (fun k => zat DeBruijnBytePos (Z.shiftr (u32 (2 ^ k * 125613361)) 27) =? k) 0 32); [|lia].
  vm_compute. reflexivity.
Qed.

Lemma DeBruijnClz_spec k :
  0 <= k < 32 -> zat DeBruijnClz (Z.shiftr (u32 ((2 ^ (k + 1) - 1) * 130329821)) 27) = k.
Proof.
  intros Hk. apply Z.eqb_eq.
  apply (forallb_range (fun k => zat DeBruijnClz (Z.shiftr (u32 ((2 ^ (k + 1) - 1) * 130329821)) 27) =? k) 0 32); [|lia].
  vm_compute. reflexivity.
Qed.

Lemma is_ctz_lt v k n : 0 < v < 2 ^ n -> is_ctz v k -> k < n.
Proof.
  intros Hv (Hk & Ht & _). destruct (Z.ltb_spec k n); [done|].
  rewrite (testbit_high v n k) in Ht; [done|lia|lia].
Qed.

Lemma is_ctz_unique v k k' : is_ctz v k -> is_ctz v k' -> k = k'.
Proof.
  intros (Hk & Ht & Hf) (Hk' & Ht' & Hf').
  destruct (Z.lt_trichotomy k k') as [H|[H|H]]; [|done|].
  - rewrite Hf' in Ht by lia. done.
  - rewrite Hf in Ht' by lia. done.
Qed.

Lemma ctz32_fallback_spec v :
  0 < v < 2 ^ 32 -> is_ctz v (ZSTD_countTrailingZeros32_fallback v).
Proof.
  intros Hv. unfold ZSTD_countTrailingZeros32_fallback.
  rewrite land_opp_u32 by lia. destruct v as [|p|p]; try lia.
  destruct (land_opp_ctz p) as (k & Hk & -> & _).
  pose proof (is_ctz_lt _ _ 32 Hv Hk). destruct Hk as [Hk0 ?].
  rewrite DeBruijnBytePos_spec by lia. done.
Qed.

Lemma ctz32_spec v : 0 < v < 2 ^ 32 -> is_ctz v (ZSTD_countTrailingZeros32 v).
Proof. apply ctz32_fallback_spec. Qed.

(** One step of the smearing of the top bit. *)
Definition smeared (n s v : Z) : Prop :=
  (forall i, n < i -> Z.testbit v i = false) /\
  (forall i, 0 <= i -> n - s < i <= n -> Z.testbit v i = true).

Lemma smear_step n s v : 0 < s -> smeared n s v -> smeared n (2 * s) (v .| Z.shiftr v s).
Proof.
  intros Hs [Hhi Hlo]. split.
  - intros i Hi. destruct (Z.ltb_spec i 0); [by apply Z.testbit_neg_r|].
    rewrite Z.lor_spec, Z.shiftr_spec by lia. rewrite !Hhi by lia. done.
  - intros i Hi0 Hi. rewrite Z.lor_spec, Z.shiftr_spec by lia.
    destruct (Z.ltb_spec (n - s) i); [by rewrite Hlo by lia|].
    rewrite (Hlo (i + s)) by lia. apply orb_true_r.
Qed.

Lemma smeared_full n s v : 0 <= n < s -> smeared n s v -> v = 2 ^ (n + 1) - 1.
Proof.
  intros Hn [Hhi Hlo]. replace (2 ^ (n + 1) - 1) with (Z.ones (n + 1)) by (rewrite Z.ones_equiv; lia).
  apply Z.bits_inj'. intros i Hi. destruct (Z.ltb_spec n i).
  - rewrite Hhi, Z.ones_spec_high by lia. done.
  - rewrite Hlo, Z.ones_spec_low by lia. done.
Qed.

Lemma clz32_fallback_spec v :
  0 < v < 2 ^ 32 -> ZSTD_countLeadingZeros32_fallback v = 31 - Z.log2 v.
Proof.
  intros Hv. unfold ZSTD_countLeadingZeros32_fallback.
  assert (smeared (Z.log2 v) 1 v) as H1.
  { split; intros i; intros.
    - destruct (Z.ltb_spec i 0); [by apply Z.testbit_neg_r|]. apply Z.bits_above_log2; lia.
    - replace i with (Z.log2 v) by lia. apply Z.bit_log2. lia. }
  assert (0 <= Z.log2 v < 32) as Hlog.
  { split; [apply Z.log2_nonneg|]. apply Z.log2_lt_pow2; lia. }
  apply smear_step in H1; [|lia]. change (2 * 1) with 2 in H1.
  apply smear_step in H1; [|lia]. change (2 * 2) with 4 in H1.
  apply smear_step in H1; [|lia]. change (2 * 4) with 8 in H1.
  apply smear_step in H1; [|lia]. change (2 * 8) with 16 in H1.
  apply smear_step in H1; [|lia]. change (2 * 16) with 32 in H1.
  apply smeared_full in H1; [|lia]. cbv zeta. rewrite H1, DeBruijnClz_spec by lia. done.
Qed.

Lemma highbit32_spec v : 0 < v < 2 ^ 32 -> ZSTD_highbit32 v = Z.log2 v.
Proof.
  intros. unfold ZSTD_highbit32, ZSTD_countLeadingZeros32. rewrite clz32_fallback_spec by lia. lia.
Qed.

Lemma highbit32_bounds v :
  0 < v < 2 ^ 32 -> 0 <= ZSTD_highbit32 v < 32 /\
  2 ^ ZSTD_highbit32 v <= v < 2 ^ (ZSTD_highbit32 v + 1).
Proof.
  intros Hv. rewrite highbit32_spec by lia. pose proof (Z.log2_spec v).
  pose proof (Z.log2_nonneg v). replace (Z.log2 v + 1) with (Z.succ (Z.log2 v)) by lia.
  split; [|lia]. split; [done|]. apply Z.log2_lt_pow2; lia.
Qed.

Lemma highbit32_unique v n :
  0 < v < 2 ^ 32 -> 0 <= n -> 2 ^ n <= v < 2 ^ (n + 1) -> ZSTD_highbit32 v = n.
Proof. intros. rewrite highbit32_spec by lia. apply Z.log2_unique; [lia|]. by rewrite <- Z.add_1_r. Qed.

Lemma highbit32_pow2 n : 0 <= n < 32 -> ZSTD_highbit32 (2 ^ n) = n.
Proof.
  intros. rewrite highbit32_spec; [apply Z.log2_pow2; lia|].
  split; [apply pow2_pos; lia|apply pow2_lt; lia].
Qed.

Lemma ctz64_spec v : 0 < v < 2 ^ 64 -> is_ctz v (ZSTD_countTrailingZeros64 v).
Proof.
  intros Hv. unfold ZSTD_countTrailingZeros64.
  destruct (Z.eqb_spec (u32 v) 0) as [H0|H0].
  - assert (0 < u32 (Z.shiftr v 32) < 2 ^ 32) as Hhi.
    { split; [|apply u32_range]. rewrite Z.shiftr_div_pow2 by lia.
      unfold u32 in *. rewrite Z.mod_small; [|zdm]. zdm. }
    destruct (ctz32_spec _ Hhi) as (Hk & Ht & Hf).
    assert (forall i, 0 <= i < 32 -> Z.testbit (u32 (Z.shiftr v 32)) i = Z.testbit v (i + 32)) as Hb.
    { intros i Hi. unfold u32. rewrite Z.mod_pow2_bits_low, Z.shiftr_spec by lia. done. }
    pose proof (is_ctz_lt _ _ 32 Hhi (conj Hk (conj Ht Hf))).
    rewrite Hb in Ht by lia. split_and!; [lia|by rewrite Z.add_comm|].
    intros j Hj. destruct (Z.ltb_spec j 32).
    + destruct (Z.ltb_spec j 0); [by apply Z.testbit_neg_r|].
      rewrite <- (Z.mod_pow2_bits_low v 32) by lia. unfold u32 in H0. rewrite H0. apply Z.bits_0.
    + specialize (Hf (j - 32) ltac:(lia)). rewrite Hb in Hf by lia.
      by replace (j - 32 + 32) with j in Hf by lia.
  - pose proof (u32_range v). destruct (ctz32_spec (u32 v)) as (Hk & Ht & Hf); [lia|].
    assert (is_ctz (u32 v) (ZSTD_countTrailingZeros32 (u32 v))) as Hc by done.
    apply (is_ctz_lt _ _ 32) in Hc; [|lia]. unfold u32 in *. split_and!; [done| |].
    + by rewrite Z.mod_pow2_bits_low in Ht by lia.
    + intros j Hj. rewrite <- (Hf j Hj). symmetry. apply Z.mod_pow2_bits_low. lia.
Qed.

Lemma clz64_spec v : 0 < v < 2 ^ 64 -> ZSTD_countLeadingZeros64 v = 63 - Z.log2 v.
Proof.
  intros Hv. unfold ZSTD_countLeadingZeros64, ZSTD_countLeadingZeros32.
  assert (u32 (Z.shiftr v 32) = v / 2 ^ 32) as Hhi.
  { rewrite Z.shiftr_div_pow2 by lia. apply u32_small. zdm. }
  rewrite Hhi. destruct (Z.eqb_spec (v / 2 ^ 32) 0) as [H0|H0].
  - rewrite u32_small by zdm. rewrite clz32_fallback_spec by zdm. lia.
  - rewrite clz32_fallback_spec by zdm.
    rewrite <- Z.shiftr_div_pow2 by lia. rewrite Z.log2_shiftr by lia.
    assert (32 <= Z.log2 v); [|lia]. apply Z.log2_le_pow2; zdm.
Qed.

(** The rotations, generically in the width. *)
Lemma rotate_bits w v c i :
  0 < w -> 0 <= v < 2 ^ w -> 0 <= c < w -> 0 <= i < w ->
  Z.testbit (Z.shiftr v c .| (Z.shiftl v ((w - c) mod w) mod 2 ^ w)) i
  = Z.testbit v ((i + c) mod w).
Proof.
  intros Hw Hv Hc Hi.
  rewrite Z.lor_spec, Z.shiftr_spec, Z.mod_pow2_bits_low by lia.
  destruct (Z.eqb_spec c 0) as [->|].
  - rewrite Z.sub_0_r, Z.mod_same, Z.shiftl_0_r, !Z.add_0_r, Z.mod_small by lia.
    apply orb_diag.
  - rewrite (Z.mod_small (w - c)) by lia. rewrite Z.shiftl_spec by lia.
    destruct (Z.ltb_spec (i + c) w).
    + rewrite (Z.mod_small (i + c)) by lia.
      rewrite (Z.testbit_neg_r v (i - (w - c))) by lia. apply orb_false_r.
    + replace ((i + c) mod w) with (i + c - w).
      * rewrite (testbit_high v w) by lia. simpl. f_equal. lia.
      * apply (Z.mod_unique_pos _ _ 1); lia.
Qed.

Lemma rotate_amount c w k :
  w = 2 ^ k -> 0 <= k < 32 -> 0 <= c < w -> Z.land (u32 (0 - c)) (w - 1) = (w - c) mod w.
Proof.
  intros -> Hk Hc. rewrite land_mask by lia. unfold u32.
  rewrite <- Znumtheory.Zmod_div_mod; [| |lia|].
  - rewrite <- (Z.mod_add (0 - c) 1) by lia. f_equal. lia.
  - apply pow2_pos; lia.
  - exists (2 ^ (32 - k)). rewrite <- pow2_add by lia. f_equal. lia.
Qed.

Lemma rotateRight_U64_spec v c i :
  0 <= v < 2 ^ 64 -> 0 <= c < 64 -> 0 <= i < 64 ->
  Z.testbit (ZSTD_rotateRight_U64 v c) i = Z.testbit v ((i + c) mod 64).
Proof.
  intros. unfold ZSTD_rotateRight_U64. replace (Z.land c 63) with c.
  - change 63 with (64 - 1). rewrite (rotate_amount c 64 6) by lia.
    apply (rotate_bits 64); lia.
  - change 63 with (2 ^ 6 - 1). rewrite land_mask, Z.mod_small by lia. done.
Qed.

Lemma rotateRight_U32_spec v c i :
  0 <= v < 2 ^ 32 -> 0 <= c < 32 -> 0 <= i < 32 ->
  Z.testbit (ZSTD_rotateRight_U32 v c) i = Z.testbit v ((i + c) mod 32).
Proof.
  intros. unfold ZSTD_rotateRight_U32. replace (Z.land c 31) with c.
  - change 31 with (32 - 1). rewrite (rotate_amount c 32 5) by lia.
    apply (rotate_bits 32); lia.
  - change 31 with (2 ^ 5 - 1). rewrite land_mask, Z.mod_small by lia. done.
Qed.

Lemma rotateRight_U16_spec v c i :
  0 <= v < 2 ^ 16 -> 0 <= c < 16 -> 0 <= i < 16 ->
  Z.testbit (ZSTD_rotateRight_U16 v c) i = Z.testbit v ((i + c) mod 16).
Proof.
  intros. unfold ZSTD_rotateRight_U16. replace (Z.land c 15) with c.
  - change 15 with (16 - 1). rewrite (rotate_amount c 16 4) by lia.
    apply (rotate_bits 16); lia.
  - change 15 with (2 ^ 4 - 1). rewrite land_mask, Z.mod_small by lia. done.
Qed.

(** ** Properties *)

(** The De Bruijn fallbacks and the two-word code on top of them compute
    the mathematical bit counts on every nonzero word: the highest set bit, and
    the lowest one. *)
Theorem bits_count_correct v :
  (0 < v < 2 ^ 32 ->
     ZSTD_countLeadingZeros32 v = 31 - Z.log2 v /\
     ZSTD_highbit32 v = Z.log2 v /\
     is_ctz v (ZSTD_countTrailingZeros32 v)) /\
  (0 < v < 2 ^ 64 ->
     ZSTD_countLeadingZeros64 v = 63 - Z.log2 v /\
     is_ctz v (ZSTD_countTrailingZeros64 v)).
Proof.
  split; intros Hv.
  - split_and!; [by apply clz32_fallback_spec|by apply highbit32_spec|by apply ctz32_spec].
  - split; [by apply clz64_spec|by apply ctz64_spec].
Qed.
