(* ===== verification/Mem.v ===== *)
(** Unaligned memory accesses and byte orders (common/mem.h), over buffers that
    are lists of bytes. The target's byte order and the size of [size_t] are
    parameters of the accesses; the theorem of the file is that the
    little-endian and big-endian accessors do not depend on them. *)

From S2P Require Import Prelude Errors Outcome.

(** ** Definitions *)

(** The value of a sequence of bytes in each byte order, and the bytes of a
    value: what the hardware does. *)
Fixpoint le_val (l : list Z) : Z :=
  match l with
  | [] => 0
  | b :: l => b + 256 * le_val l
  end.
Definition be_val (l : list Z) : Z := le_val (reverse l).
Fixpoint le_bytes (n : nat) (v : Z) : list Z :=
  match n with
  | O => []
  | S n => v mod 256 :: le_bytes n (v / 256)
  end.
Definition be_bytes (n : nat) (v : Z) : list Z := reverse (le_bytes n v).

(** [n] bytes of a buffer at an offset, inside the buffer. *)
Definition rd_bytes (mem : list Z) (p n : Z) : result (list Z) :=
  if (0 <=? p) && (p + n <=? zlen mem) then Ok (zsub mem p n) else Stuck.

Section accesses.
Context (MEM_isLittleEndian MEM_64bits : bool).

(** Native unaligned accesses. *)
Definition native_val (l : list Z) : Z := if MEM_isLittleEndian then le_val l else be_val l.
Definition native_bytes (n : nat) (v : Z) : list Z :=
  if MEM_isLittleEndian then le_bytes n v else be_bytes n v.

Definition MEM_read16 (mem : list Z) (p : Z) : result Z :=
  let* l := rd_bytes mem p 2 in Ok (native_val l).
Definition MEM_read32 (mem : list Z) (p : Z) : result Z :=
  let* l := rd_bytes mem p 4 in Ok (native_val l).
Definition MEM_read64 (mem : list Z) (p : Z) : result Z :=
  let* l := rd_bytes mem p 8 in Ok (native_val l).
Definition MEM_readST (mem : list Z) (p : Z) : result Z :=
  if MEM_64bits then MEM_read64 mem p else MEM_read32 mem p.
Definition MEM_write16 (mem : list Z) (p value : Z) : result (list Z) :=
  memcpy_at mem p (native_bytes 2 value).
Definition MEM_write32 (mem : list Z) (p value : Z) : result (list Z) :=
  memcpy_at mem p (native_bytes 4 value).
Definition MEM_write64 (mem : list Z) (p value : Z) : result (list Z) :=
  memcpy_at mem p (native_bytes 8 value).

Definition MEM_swap32_fallback (i : Z) : Z :=
  (u32 (Z.shiftl i 24) .& 0xff000000) .|
  (u32 (Z.shiftl i 8) .& 0x00ff0000) .|
  (Z.shiftr i 8 .& 0x0000ff00) .|
  (Z.shiftr i 24 .& 0x000000ff).
Definition MEM_swap32 (i : Z) : Z := MEM_swap32_fallback i.

Definition MEM_swap64_fallback (i : Z) : Z :=
  (u64 (Z.shiftl i 56) .& 0xff00000000000000) .|
  (u64 (Z.shiftl i 40) .& 0x00ff000000000000) .|
  (u64 (Z.shiftl i 24) .& 0x0000ff0000000000) .|
  (u64 (Z.shiftl i 8) .& 0x000000ff00000000) .|
  (Z.shiftr i 8 .& 0x00000000ff000000) .|
  (Z.shiftr i 24 .& 0x0000000000ff0000) .|
  (Z.shiftr i 40 .& 0x000000000000ff00) .|
  (Z.shiftr i 56 .& 0x00000000000000ff).
Definition MEM_swap64 (i : Z) : Z := MEM_swap64_fallback i.
Definition MEM_swapST (i : Z) : Z :=
  if negb MEM_64bits then MEM_swap32 (u32 i) else MEM_swap64 i.

(** Little-endian accesses. *)
Definition MEM_readLE16 (mem : list Z) (p : Z) : result Z :=
  if MEM_isLittleEndian then MEM_read16 mem p
  else let* p0 := rd mem p in let* p1 := rd mem (p + 1) in
       Ok (u16 (p0 + Z.shiftl p1 8)).
Definition MEM_writeLE16 (mem : list Z) (p val : Z) : result (list Z) :=
  if MEM_isLittleEndian then MEM_write16 mem p val
  else let* mem := wr mem p (u8 val) in wr mem (p + 1) (u8 (Z.shiftr val 8)).
Definition MEM_readLE24 (mem : list Z) (p : Z) : result Z :=
  let* lo := MEM_readLE16 mem p in let* hi := rd mem (p + 2) in
  Ok (u32 (lo + u32 (Z.shiftl hi 16))).
Definition MEM_writeLE24 (mem : list Z) (p val : Z) : result (list Z) :=
  let* mem := MEM_writeLE16 mem p (u16 val) in wr mem (p + 2) (u8 (Z.shiftr val 16)).
Definition MEM_readLE32 (mem : list Z) (p : Z) : result Z :=
  if MEM_isLittleEndian then MEM_read32 mem p
  else let* v := MEM_read32 mem p in Ok (MEM_swap32 v).
Definition MEM_writeLE32 (mem : list Z) (p val32 : Z) : result (list Z) :=
  if MEM_isLittleEndian then MEM_write32 mem p val32
  else MEM_write32 mem p (MEM_swap32 val32).
Definition MEM_readLE64 (mem : list Z) (p : Z) : result Z :=
  if MEM_isLittleEndian then MEM_read64 mem p
  else let* v := MEM_read64 mem p in Ok (MEM_swap64 v).
Definition MEM_writeLE64 (mem : list Z) (p val64 : Z) : result (list Z) :=
  if MEM_isLittleEndian then MEM_write64 mem p val64
  else MEM_write64 mem p (MEM_swap64 val64).
Definition MEM_readLEST (mem : list Z) (p : Z) : result Z :=
  if negb MEM_64bits then MEM_readLE32 mem p else MEM_readLE64 mem p.
Definition MEM_writeLEST (mem : list Z) (p val : Z) : result (list Z) :=
  if negb MEM_64bits then MEM_writeLE32 mem p (u32 val) else MEM_writeLE64 mem p val.

(** Big-endian accesses. *)
Definition MEM_readBE32 (mem : list Z) (p : Z) : result Z :=
  if MEM_isLittleEndian then let* v := MEM_read32 mem p in Ok (MEM_swap32 v)
  else MEM_read32 mem p.
Definition MEM_writeBE32 (mem : list Z) (p val32 : Z) : result (list Z) :=
  if MEM_isLittleEndian then MEM_write32 mem p (MEM_swap32 val32)
  else MEM_write32 mem p val32.
Definition MEM_readBE64 (mem : list Z) (p : Z) : result Z :=
  if MEM_isLittleEndian then let* v := MEM_read64 mem p in Ok (MEM_swap64 v)
  else MEM_read64 mem p.
Definition MEM_writeBE64 (mem : list Z) (p val64 : Z) : result (list Z) :=
  if MEM_isLittleEndian then MEM_write64 mem p (MEM_swap64 val64)
  else MEM_write64 mem p val64.
Definition MEM_readBEST (mem : list Z) (p : Z) : result Z :=
  if negb MEM_64bits then MEM_readBE32 mem p else MEM_readBE64 mem p.
Definition MEM_writeBEST (mem : list Z) (p val : Z) : result (list Z) :=
  if negb MEM_64bits then MEM_writeBE32 mem p (u32 val) else MEM_writeBE64 mem p val.

End accesses.

(** ** Lemmas *)

Lemma le_val_range l : bytes_ok l -> 0 <= le_val l < 2 ^ (8 * zlen l).
Proof.
  unfold bytes_ok, zlen. induction 1 as [|b l Hb _ IH]; simpl le_val; [simpl; lia|].
  unfold is_byte in Hb. replace (8 * Z.of_nat (length (b :: l))) with (8 + 8 * Z.of_nat (length l))
    by (simpl length; lia).
  rewrite pow2_add by lia. change (2 ^ 8) with 256. nia.
Qed.

Lemma le_val_app l k : le_val (l ++ k) = le_val l + 2 ^ (8 * zlen l) * le_val k.
Proof.
  unfold zlen. induction l as [|b l IH]; simpl le_val.
  - rewrite Z.mul_0_r. change (2 ^ 0) with 1. simpl. lia.
  - rewrite IH. replace (8 * Z.of_nat (length (b :: l))) with (8 + 8 * Z.of_nat (length l))
      by (simpl length; lia).
    rewrite pow2_add by lia. change (2 ^ 8) with 256. lia.
Qed.

Lemma length_le_bytes n v : length (le_bytes n v) = n.
Proof. revert v. induction n; intros; simpl; congruence. Qed.

Lemma zlen_le_bytes n v : zlen (le_bytes n v) = Z.of_nat n.
Proof. unfold zlen. by rewrite length_le_bytes. Qed.

Lemma le_bytes_ok n v : bytes_ok (le_bytes n v).
Proof.
  unfold bytes_ok. revert v. induction n; intros; simpl; constructor; [|done].
  unfold is_byte. apply Z.mod_pos_bound. lia.
Qed.

Lemma le_val_le_bytes n v : le_val (le_bytes n v) = v mod 2 ^ (8 * Z.of_nat n).
Proof.
  revert v. induction n as [|n IH]; intros v; simpl le_bytes; simpl le_val.
  - by rewrite Z.mod_1_r.
  - rewrite IH. replace (8 * Z.of_nat (S n)) with (8 + 8 * Z.of_nat n) by lia.
    rewrite pow2_add by lia. change (2 ^ 8) with 256.
    rewrite Z.rem_mul_r; [lia|lia|apply pow2_pos; lia].
Qed.

Lemma le_bytes_le_val l : bytes_ok l -> le_bytes (length l) (le_val l) = l.
Proof.
  unfold bytes_ok. induction 1 as [|b l Hb _ IH]; simpl; [done|]. unfold is_byte in Hb.
  rewrite (Z.mul_comm 256), Z.mod_add, Z.mod_small by lia. f_equal.
  rewrite Z.div_add, Z.div_small by lia. exact IH.
Qed.

Lemma take_le_bytes k n v : (k <= n)%nat -> take k (le_bytes n v) = le_bytes k v.
Proof.
  revert k v. induction n as [|n IH]; intros [|k] v Hk; simpl; try done; [lia|].
  f_equal. apply IH. lia.
Qed.

Lemma le_val_inj l k : bytes_ok l -> bytes_ok k -> length l = length k ->
  le_val l = le_val k -> l = k.
Proof.
  intros Hl Hk Hlen Hv. rewrite <- (le_bytes_le_val l), <- (le_bytes_le_val k) by done. congruence.
Qed.

(** The bytes of a value as bit fields. *)
Lemma field_shl v n m w :
  0 <= n <= m -> m + 8 <= w ->
  Z.land (Z.shiftl v n mod 2 ^ w) (Z.shiftl (2 ^ 8 - 1) m)
  = Z.shiftl (Z.shiftr v (m - n) mod 2 ^ 8) m.
Proof.
  intros. rewrite <- (Z.land_ones _ 8), <- (Z.land_ones _ w) by lia.
  change (2 ^ 8 - 1) with (Z.ones 8). Z.bitblast; repeat f_equal; lia.
Qed.

Lemma field_shr v n m :
  0 <= n -> 0 <= m ->
  Z.land (Z.shiftr v n) (Z.shiftl (2 ^ 8 - 1) m) = Z.shiftl (Z.shiftr v (m + n) mod 2 ^ 8) m.
Proof.
  intros. rewrite <- (Z.land_ones _ 8) by lia.
  change (2 ^ 8 - 1) with (Z.ones 8). Z.bitblast; repeat f_equal; lia.
Qed.

Lemma lor_field x y m k :
  0 <= m -> 0 <= x < 2 ^ 8 -> k = m + 8 ->
  Z.lor (Z.shiftl y k) (Z.shiftl x m) = Z.shiftl (x + 256 * y) m.
Proof.
  intros Hm Hx ->. rewrite Z.lor_comm, (Z.add_comm m 8), <- Z.shiftl_shiftl by lia.
  rewrite <- Z.shiftl_lor. f_equal. rewrite lor_shiftl_add by lia. lia.
Qed.

Lemma byte_of_le_val l j :
  bytes_ok l -> 0 <= j < zlen l -> Z.shiftr (le_val l) (8 * j) mod 2 ^ 8 = zat l j.
Proof.
  unfold bytes_ok, zlen. intros Hl. revert j.
  induction Hl as [|b l Hb _ IH]; intros j Hj; simpl length in Hj; [lia|].
  unfold is_byte in Hb. simpl le_val. rewrite Z.shiftr_div_pow2 by lia.
  destruct (Z.eqb_spec j 0) as [->|].
  - change (2 ^ (8 * 0)) with 1. rewrite Z.div_1_r. change (2 ^ 8) with 256.
    rewrite (Z.mul_comm 256), Z.mod_add, Z.mod_small by lia. done.
  - rewrite zat_cons_S by lia. rewrite <- IH by lia.
    replace (8 * j) with (8 + 8 * (j - 1)) by lia.
    rewrite pow2_add, <- Z.div_div; [|lia|apply pow2_pos; lia|lia|lia].
    change (2 ^ 8) with 256. rewrite (Z.mul_comm 256), Z.div_add by lia.
    rewrite (Z.div_small b) by lia. by rewrite Z.shiftr_div_pow2 by lia.
Qed.

Lemma byte_at_bit l : bytes_ok l -> forall k j, 0 <= j < zlen l -> k = 8 * j ->
  Z.shiftr (le_val l) k mod 2 ^ 8 = zat l j.
Proof. intros Hl k j Hj ->. by apply byte_of_le_val. Qed.

(** The byte-swapping functions reverse the bytes. *)
Lemma swap32_spec l :
  bytes_ok l -> length l = 4%nat -> MEM_swap32 (le_val l) = le_val (reverse l).
Proof.
  intros Hl Hlen. unfold MEM_swap32, MEM_swap32_fallback, u32.
  pose proof (byte_at_bit l Hl) as Hb. unfold zlen in Hb. rewrite Hlen in Hb.
  change 0xff000000 with (Z.shiftl (2 ^ 8 - 1) 24).
  change 0x00ff0000 with (Z.shiftl (2 ^ 8 - 1) 16).
  change 0x0000ff00 with (Z.shiftl (2 ^ 8 - 1) 8).
  change 0x000000ff with (Z.shiftl (2 ^ 8 - 1) 0).
  rewrite !field_shl, !field_shr by lia.
  rewrite (Hb (24 - 24) 0 ltac:(lia) eq_refl), (Hb (16 - 8) 1 ltac:(lia) eq_refl), (Hb (8 + 8) 2 ltac:(lia) eq_refl), (Hb (0 + 24) 3 ltac:(lia) eq_refl).
  destruct l as [|a [|b [|c [|d [|]]]]]; try discriminate Hlen.
  unfold bytes_ok in Hl. rewrite !Forall_cons_iff in Hl. unfold is_byte in Hl.
  change (reverse [a; b; c; d]) with [d; c; b; a]. unfold zat. simpl.
  rewrite (lor_field b a 16 24), (lor_field c _ 8 16), (lor_field d _ 0 8) by lia.
  rewrite Z.shiftl_0_r. lia.
Qed.

Lemma swap64_spec l :
  bytes_ok l -> length l = 8%nat -> MEM_swap64 (le_val l) = le_val (reverse l).
Proof.
  intros Hl Hlen. unfold MEM_swap64, MEM_swap64_fallback, u64.
  pose proof (byte_at_bit l Hl) as Hb. unfold zlen in Hb. rewrite Hlen in Hb.
  change 0xff00000000000000 with (Z.shiftl (2 ^ 8 - 1) 56).
  change 0x00ff000000000000 with (Z.shiftl (2 ^ 8 - 1) 48).
  change 0x0000ff0000000000 with (Z.shiftl (2 ^ 8 - 1) 40).
  change 0x000000ff00000000 with (Z.shiftl (2 ^ 8 - 1) 32).
  change 0x00000000ff000000 with (Z.shiftl (2 ^ 8 - 1) 24).
  change 0x0000000000ff0000 with (Z.shiftl (2 ^ 8 - 1) 16).
  change 0x000000000000ff00 with (Z.shiftl (2 ^ 8 - 1) 8).
  change 0x00000000000000ff with (Z.shiftl (2 ^ 8 - 1) 0).
  rewrite !field_shl, !field_shr by lia.
  rewrite (Hb (56 - 56) 0 ltac:(lia) eq_refl), (Hb (48 - 40) 1 ltac:(lia) eq_refl), (Hb (40 - 24) 2 ltac:(lia) eq_refl), (Hb (32 - 8) 3 ltac:(lia) eq_refl),
    (Hb (24 + 8) 4 ltac:(lia) eq_refl), (Hb (16 + 24) 5 ltac:(lia) eq_refl), (Hb (8 + 40) 6 ltac:(lia) eq_refl), (Hb (0 + 56) 7 ltac:(lia) eq_refl).
  destruct l as [|a [|b [|c [|d [|e [|f [|g [|h [|]]]]]]]]]; try discriminate Hlen.
  unfold bytes_ok in Hl. rewrite !Forall_cons_iff in Hl. unfold is_byte in Hl.
  change (reverse [a; b; c; d; e; f; g; h]) with [h; g; f; e; d; c; b; a]. unfold zat. simpl.
  rewrite (lor_field b a 48 56), (lor_field c _ 40 48), (lor_field d _ 32 40),
    (lor_field e _ 24 32), (lor_field f _ 16 24), (lor_field g _ 8 16), (lor_field h _ 0 8) by lia.
  rewrite Z.shiftl_0_r. lia.
Qed.

Lemma rd_bytes_ok mem p n :
  0 <= p -> p + n <= zlen mem -> rd_bytes mem p n = Ok (zsub mem p n).
Proof.
  intros. unfold rd_bytes. by rewrite (proj2 (Z.leb_le 0 p)), (proj2 (Z.leb_le (p + n) _)) by lia.
Qed.

Lemma memcpy_at_ok {A} (dst src : list A) p :
  0 <= p -> p + zlen src <= zlen dst -> memcpy_at dst p src = Ok (zpatch dst p src).
Proof.
  intros. unfold memcpy_at. by rewrite (proj2 (Z.leb_le 0 p)), (proj2 (Z.leb_le (p + _) _)) by lia.
Qed.

Lemma bytes_ok_zsub mem p n : bytes_ok mem -> bytes_ok (zsub mem p n).
Proof. unfold bytes_ok, zsub. intros. by apply Forall_take, Forall_drop. Qed.
Lemma bytes_ok_reverse l : bytes_ok l -> bytes_ok (reverse l).
Proof. unfold bytes_ok. by rewrite Forall_reverse. Qed.
Lemma bytes_ok_app l k : bytes_ok l -> bytes_ok k -> bytes_ok (l ++ k).
Proof. unfold bytes_ok. intros. by apply Forall_app. Qed.
Lemma bytes_ok_zpatch dst i src : bytes_ok dst -> bytes_ok src -> bytes_ok (zpatch dst i src).
Proof.
  unfold zpatch. intros. apply bytes_ok_app; [by apply Forall_take|].
  apply bytes_ok_app; [done|by apply Forall_drop].
Qed.
Lemma bytes_ok_zat l i : bytes_ok l -> 0 <= i < zlen l -> 0 <= zat l i < 256.
Proof. intros Hl Hi. exact (zat_Forall _ _ _ Hl Hi). Qed.
#[export] Hint Resolve bytes_ok_zsub bytes_ok_reverse bytes_ok_app bytes_ok_zpatch le_bytes_ok : zlist.

Lemma length_zsub {A} (l : list A) i n :
  0 <= i -> 0 <= n -> i + n <= zlen l -> length (zsub l i n) = Z.to_nat n.
Proof. intros. pose proof (zlen_zsub l i n). unfold zlen in *. lia. Qed.

Lemma zsub_cons {A} `{!Inhabited A} (l : list A) p n :
  0 <= p < zlen l -> 0 < n -> zsub l p n = zat l p :: zsub l (p + 1) (n - 1).
Proof.
  unfold zlen, zsub, zat. intros Hp Hn.
  destruct (lookup_lt_is_Some_2 l (Z.to_nat p)) as [x Hx]; [lia|].
  rewrite (list_lookup_total_correct _ _ _ Hx).
  rewrite (drop_S _ _ _ Hx). replace (Z.to_nat n) with (S (Z.to_nat (n - 1))) by lia.
  simpl. by replace (Z.to_nat (p + 1)) with (S (Z.to_nat p)) by lia.
Qed.
Lemma zsub_0 {A} (l : list A) p : zsub l p 0 = [].
Proof. done. Qed.

Ltac zsub_unfold :=
  repeat match goal with |- context [zsub ?l ?p ?n] => rewrite (zsub_cons l p n) by lia end.

(** The value of a byte sequence that a word has been written over. *)
Lemma le_val_extend mem s p v k n :
  0 <= s <= p -> p + Z.of_nat n <= zlen mem -> 0 <= k <= Z.of_nat n ->
  le_val (zsub (zpatch mem p (le_bytes n v)) s (p - s + k))
  = le_val (zsub mem s (p - s)) + 2 ^ (8 * (p - s)) * (v mod 2 ^ (8 * k)).
Proof.
  intros Hs Hp Hk. rewrite zsub_split by lia. rewrite zsub_zpatch_before by (rewrite ?zlen_le_bytes; lia).
  replace (s + (p - s)) with p by lia.
  rewrite zsub_zpatch_prefix by (rewrite ?zlen_le_bytes; lia).
  rewrite take_le_bytes, le_val_app, le_val_le_bytes by lia.
  rewrite zlen_zsub, Z2Nat.id by lia. done.
Qed.

Lemma swap32_be l : bytes_ok l -> length l = 4%nat -> MEM_swap32 (be_val l) = le_val l.
Proof.
  intros. unfold be_val. rewrite swap32_spec; [by rewrite reverse_involutive|by apply bytes_ok_reverse|].
  by rewrite length_reverse.
Qed.
Lemma swap64_be l : bytes_ok l -> length l = 8%nat -> MEM_swap64 (be_val l) = le_val l.
Proof.
  intros. unfold be_val. rewrite swap64_spec; [by rewrite reverse_involutive|by apply bytes_ok_reverse|].
  by rewrite length_reverse.
Qed.

Lemma be_bytes_swap32 v : 0 <= v < 2 ^ 32 -> be_bytes 4 (MEM_swap32 v) = le_bytes 4 v.
Proof.
  intros Hv. assert (v = le_val (le_bytes 4 v)) as E.
  { rewrite le_val_le_bytes. symmetry. apply Z.mod_small. done. }
  unfold be_bytes. rewrite E at 1. rewrite swap32_spec; [|apply le_bytes_ok|apply length_le_bytes].
  replace 4%nat with (length (reverse (le_bytes 4 v))) at 1 by done.
  rewrite le_bytes_le_val by (apply bytes_ok_reverse, le_bytes_ok). apply reverse_involutive.
Qed.
Lemma be_bytes_swap64 v : 0 <= v < 2 ^ 64 -> be_bytes 8 (MEM_swap64 v) = le_bytes 8 v.
Proof.
  intros Hv. assert (v = le_val (le_bytes 8 v)) as E.
  { rewrite le_val_le_bytes. symmetry. apply Z.mod_small. done. }
  unfold be_bytes. rewrite E at 1. rewrite swap64_spec; [|apply le_bytes_ok|apply length_le_bytes].
  replace 8%nat with (length (reverse (le_bytes 8 v))) at 1 by done.
  rewrite le_bytes_le_val by (apply bytes_ok_reverse, le_bytes_ok). apply reverse_involutive.
Qed.
Lemma le_bytes_swap32 v : 0 <= v < 2 ^ 32 -> le_bytes 4 (MEM_swap32 v) = be_bytes 4 v.
Proof.
  intros. pose proof (be_bytes_swap32 v) as E. unfold be_bytes in *. rewrite <- E by lia.
  symmetry. apply reverse_involutive.
Qed.
Lemma le_bytes_swap64 v : 0 <= v < 2 ^ 64 -> le_bytes 8 (MEM_swap64 v) = be_bytes 8 v.
Proof.
  intros. pose proof (be_bytes_swap64 v) as E. unfold be_bytes in *. rewrite <- E by lia.
  symmetry. apply reverse_involutive.
Qed.

Section specs.
Context (le b64 : bool) (mem : list Z) (p : Z).
Hypothesis Hmem : bytes_ok mem.
Hypothesis Hp : 0 <= p.

Lemma readLE16_spec :
  p + 2 <= zlen mem -> MEM_readLE16 le mem p = Ok (le_val (zsub mem p 2)).
Proof.
  intros Hn. unfold MEM_readLE16, MEM_read16. destruct le.
  - rewrite rd_bytes_ok by lia. done.
  - rewrite !rd_ok by lia. simpl. f_equal. zsub_unfold. simpl.
    pose proof (bytes_ok_zat mem p Hmem ltac:(lia)).
    pose proof (bytes_ok_zat mem (p + 1) Hmem ltac:(lia)).
    rewrite Z.shiftl_mul_pow2 by lia. rewrite u16_small by lia. lia.
Qed.

Lemma readLE24_spec :
  p + 3 <= zlen mem -> MEM_readLE24 le mem p = Ok (le_val (zsub mem p 3)).
Proof.
  intros Hn. unfold MEM_readLE24. rewrite readLE16_spec by lia. simpl.
  rewrite rd_ok by lia. simpl. f_equal.
  zsub_unfold. simpl.
  pose proof (bytes_ok_zat mem p Hmem ltac:(lia)).
  pose proof (bytes_ok_zat mem (p + 1) Hmem ltac:(lia)).
  pose proof (bytes_ok_zat mem (p + 2) Hmem ltac:(lia)).
  rewrite Z.shiftl_mul_pow2 by lia. rewrite (u32_small (_ * _)), u32_small by lia.
  replace (p + 1 + 1) with (p + 2) by lia. lia.
Qed.

Lemma readLE32_spec :
  p + 4 <= zlen mem -> MEM_readLE32 le mem p = Ok (le_val (zsub mem p 4)).
Proof.
  intros Hn. unfold MEM_readLE32, MEM_read32. rewrite rd_bytes_ok by lia. destruct le; [done|].
  simpl. f_equal. apply swap32_be; [by apply bytes_ok_zsub|by apply length_zsub].
Qed.

Lemma readLE64_spec :
  p + 8 <= zlen mem -> MEM_readLE64 le mem p = Ok (le_val (zsub mem p 8)).
Proof.
  intros Hn. unfold MEM_readLE64, MEM_read64. rewrite rd_bytes_ok by lia. destruct le; [done|].
  simpl. f_equal. apply swap64_be; [by apply bytes_ok_zsub|by apply length_zsub].
Qed.

Lemma readBE32_spec :
  p + 4 <= zlen mem -> MEM_readBE32 le mem p = Ok (be_val (zsub mem p 4)).
Proof.
  intros Hn. unfold MEM_readBE32, MEM_read32. rewrite rd_bytes_ok by lia. destruct le; [|done].
  simpl. f_equal. apply swap32_spec; [by apply bytes_ok_zsub|by apply length_zsub].
Qed.

Lemma readBE64_spec :
  p + 8 <= zlen mem -> MEM_readBE64 le mem p = Ok (be_val (zsub mem p 8)).
Proof.
  intros Hn. unfold MEM_readBE64, MEM_read64. rewrite rd_bytes_ok by lia. destruct le; [|done].
  simpl. f_equal. apply swap64_spec; [by apply bytes_ok_zsub|by apply length_zsub].
Qed.

Lemma writeLE32_spec v :
  0 <= v < 2 ^ 32 -> p + 4 <= zlen mem ->
  MEM_writeLE32 le mem p v = Ok (zpatch mem p (le_bytes 4 v)).
Proof.
  intros Hv Hn. unfold MEM_writeLE32, MEM_write32. destruct le; unfold native_bytes;
    rewrite ?be_bytes_swap32 by lia; apply memcpy_at_ok; rewrite ?zlen_le_bytes; lia.
Qed.

Lemma writeLE64_spec v :
  0 <= v < 2 ^ 64 -> p + 8 <= zlen mem ->
  MEM_writeLE64 le mem p v = Ok (zpatch mem p (le_bytes 8 v)).
Proof.
  intros Hv Hn. unfold MEM_writeLE64, MEM_write64. destruct le; unfold native_bytes;
    rewrite ?be_bytes_swap64 by lia; apply memcpy_at_ok; rewrite ?zlen_le_bytes; lia.
Qed.

Lemma writeBE32_spec v :
  0 <= v < 2 ^ 32 -> p + 4 <= zlen mem ->
  MEM_writeBE32 le mem p v = Ok (zpatch mem p (be_bytes 4 v)).
Proof.
  intros Hv Hn. unfold MEM_writeBE32, MEM_write32. destruct le; unfold native_bytes;
    rewrite ?le_bytes_swap32 by lia; apply memcpy_at_ok;
    unfold be_bytes, zlen; rewrite ?length_reverse, ?length_le_bytes; unfold zlen in *; lia.
Qed.

Lemma writeBE64_spec v :
  0 <= v < 2 ^ 64 -> p + 8 <= zlen mem ->
  MEM_writeBE64 le mem p v = Ok (zpatch mem p (be_bytes 8 v)).
Proof.
  intros Hv Hn. unfold MEM_writeBE64, MEM_write64. destruct le; unfold native_bytes;
    rewrite ?le_bytes_swap64 by lia; apply memcpy_at_ok;
    unfold be_bytes, zlen; rewrite ?length_reverse, ?length_le_bytes; unfold zlen in *; lia.
Qed.

Lemma writeLE16_spec v :
  0 <= v < 2 ^ 16 -> p + 2 <= zlen mem ->
  MEM_writeLE16 le mem p v = Ok (zpatch mem p (le_bytes 2 v)).
Proof.
  intros Hv Hn. unfold MEM_writeLE16, MEM_write16. destruct le; unfold native_bytes.
  - apply memcpy_at_ok; rewrite ?zlen_le_bytes; lia.
  - rewrite wr_ok by lia. cbn [bind]. rewrite wr_ok by (rewrite zlen_zupd; lia). f_equal.
    assert (zlen (le_bytes 2 v) = 2) as Hl by apply zlen_le_bytes.
    apply zat_ext.
    + rewrite !zlen_zupd, zlen_zpatch by lia. done.
    + intros i Hi. rewrite !zlen_zupd in Hi. rewrite zat_zpatch by lia. rewrite Hl.
      rewrite !zat_zupd by (rewrite ?zlen_zupd; lia).
      rewrite Z.shiftr_div_pow2 by lia. unfold u8. change (2 ^ 8) with 256.
      destruct (Z.leb_spec p i), (Z.ltb_spec i (p + 2)); simpl;
      destruct (Z.eqb_spec i (p + 1)), (Z.eqb_spec i p); try lia; try done.
      * by replace (i - p) with 1 by lia.
      * by replace (i - p) with 0 by lia.
Qed.

Lemma writeLE24_spec v :
  0 <= v < 2 ^ 24 -> p + 3 <= zlen mem ->
  MEM_writeLE24 le mem p v = Ok (zpatch mem p (le_bytes 3 v)).
Proof.
  intros Hv Hn. unfold MEM_writeLE24. pose proof (u16_range v).
  rewrite writeLE16_spec by lia. cbn [bind].
  assert (zlen (le_bytes 2 (u16 v)) = 2) as Hl2 by apply zlen_le_bytes.
  assert (zlen (le_bytes 3 v) = 3) as Hl3 by apply zlen_le_bytes.
  rewrite wr_ok by (rewrite zlen_zpatch; lia). f_equal. apply zat_ext.
  - rewrite zlen_zupd, !zlen_zpatch by lia. done.
  - intros i Hi. rewrite zlen_zupd, zlen_zpatch in Hi by lia.
    rewrite zat_zupd by (rewrite ?zlen_zpatch; lia). rewrite !zat_zpatch by lia. rewrite Hl2, Hl3.
    rewrite Z.shiftr_div_pow2 by lia. unfold u8, u16. change (2 ^ 8) with 256.
    change (2 ^ 16) with (256 * 256).
    destruct (Z.leb_spec p i), (Z.ltb_spec i (p + 2)), (Z.ltb_spec i (p + 3)),
      (Z.eqb_spec i (p + 2)); simpl andb; cbv iota; try lia; try done.
    + assert (i - p = 0 \/ i - p = 1) as [E|E] by lia; rewrite E; simpl.
      * change (zat [?a; ?b] 0) with a. rewrite zat_cons_0. rewrite Z.rem_mul_r by lia. zdm.
      * change (zat [?a; ?b] 1) with b. change (zat [?a; ?b; ?c] 1) with b. zdm.
    + replace (i - p) with 2 by lia. simpl. change (zat [?a; ?b; ?c] 2) with c.
      by rewrite Z.div_div by lia.
Qed.

End specs.

(** A read at the place of a write of [n] bytes gives the bytes written. *)
Lemma le_val_patched mem p n v :
  0 <= p -> p + Z.of_nat n <= zlen mem -> 0 <= v < 2 ^ (8 * Z.of_nat n) ->
  le_val (zsub (zpatch mem p (le_bytes n v)) p (Z.of_nat n)) = v.
Proof.
  intros. rewrite <- (zlen_le_bytes n v). rewrite zsub_zpatch by (rewrite ?zlen_le_bytes; lia).
  rewrite le_val_le_bytes. by apply Z.mod_small.
Qed.

Lemma be_val_patched mem p n v :
  0 <= p -> p + Z.of_nat n <= zlen mem -> 0 <= v < 2 ^ (8 * Z.of_nat n) ->
  be_val (zsub (zpatch mem p (be_bytes n v)) p (Z.of_nat n)) = v.
Proof.
  intros. assert (zlen (be_bytes n v) = Z.of_nat n) as Hl.
  { unfold zlen, be_bytes. by rewrite length_reverse, length_le_bytes. }
  rewrite <- Hl. rewrite zsub_zpatch by lia.
  unfold be_val, be_bytes. rewrite reverse_involutive, le_val_le_bytes. by apply Z.mod_small.
Qed.

#[global] Arguments le_bytes : simpl never.
#[global] Arguments le_val : simpl never.

(** The accessors of the little-endian 64-bit target, used by the rest of the
    development; by the theorem below the choice of the target is irrelevant. *)
Abbreviation readLE16 := (MEM_readLE16 true).
Abbreviation readLE24 := (MEM_readLE24 true).
Abbreviation readLE32 := (MEM_readLE32 true).
Abbreviation readLE64 := (MEM_readLE64 true).
Abbreviation readLEST := (MEM_readLEST true true).
Abbreviation writeLE16 := (MEM_writeLE16 true).
Abbreviation writeLE24 := (MEM_writeLE24 true).
Abbreviation writeLE32 := (MEM_writeLE32 true).
Abbreviation writeLE64 := (MEM_writeLE64 true).
Abbreviation writeLEST := (MEM_writeLEST true true).

(** ** Properties *)

(** What a round trip through an [n]-byte accessor gives: the write stays inside
    its [n] bytes, and the read of the same bytes gives the value back. *)
Definition roundtrips (n : Z) (w : result (list Z)) (r : list Z -> result Z)
    (mem : list Z) (p v : Z) : Prop :=
  exists mem', w = Ok mem' /\ r mem' = Ok v /\ zlen mem' = zlen mem /\
  forall i, 0 <= i -> i < p \/ p + n <= i -> zat mem' i = zat mem i.

Lemma roundtrips_intro n mem p v bs (w : result (list Z)) r :
  0 <= p -> zlen bs = n -> p + n <= zlen mem ->
  w = Ok (zpatch mem p bs) -> r (zpatch mem p bs) = Ok v -> roundtrips n w r mem p v.
Proof.
  intros Hp Hl Hn Hw Hr. exists (zpatch mem p bs). split_and!; [done..|by apply zlen_zpatch; lia|].
  intros i Hi Hout. rewrite zat_zpatch by lia.
  destruct (Z.leb_spec p i), (Z.ltb_spec i (p + zlen bs)); try done; lia.
Qed.

(** The fixed-endianness accessors are portable: a value written by a
    machine of either byte order is read back by a machine of either byte order,
    at every width, and the write touches only its own bytes. *)
Theorem MEM_LE_BE_portable (le le' : bool) mem p v :
  bytes_ok mem -> 0 <= p ->
  (p + 2 <= zlen mem -> 0 <= v < 2 ^ 16 ->
     roundtrips 2 (MEM_writeLE16 le mem p v) (fun m => MEM_readLE16 le' m p) mem p v) /\
  (p + 3 <= zlen mem -> 0 <= v < 2 ^ 24 ->
     roundtrips 3 (MEM_writeLE24 le mem p v) (fun m => MEM_readLE24 le' m p) mem p v) /\
  (p + 4 <= zlen mem -> 0 <= v < 2 ^ 32 ->
     roundtrips 4 (MEM_writeLE32 le mem p v) (fun m => MEM_readLE32 le' m p) mem p v /\
     roundtrips 4 (MEM_writeBE32 le mem p v) (fun m => MEM_readBE32 le' m p) mem p v) /\
  (p + 8 <= zlen mem -> 0 <= v < 2 ^ 64 ->
     roundtrips 8 (MEM_writeLE64 le mem p v) (fun m => MEM_readLE64 le' m p) mem p v /\
     roundtrips 8 (MEM_writeBE64 le mem p v) (fun m => MEM_readBE64 le' m p) mem p v).
Proof.
  intros Hmem Hp.
  assert (forall n v, bytes_ok (be_bytes n v)) as Hbe.
  { intros. unfold be_bytes. apply bytes_ok_reverse, le_bytes_ok. }
  assert (forall n v, zlen (be_bytes n v) = Z.of_nat n) as Hlbe.
  { intros. unfold zlen, be_bytes. by rewrite length_reverse, length_le_bytes. }
  split_and!; intros Hn Hv; try split;
    match goal with
    | |- roundtrips 2 (MEM_writeLE16 _ _ _ _) _ _ _ _ => apply (roundtrips_intro _ _ _ _ (le_bytes 2 v))
    | |- roundtrips 3 (MEM_writeLE24 _ _ _ _) _ _ _ _ => apply (roundtrips_intro _ _ _ _ (le_bytes 3 v))
    | |- roundtrips 4 (MEM_writeLE32 _ _ _ _) _ _ _ _ => apply (roundtrips_intro _ _ _ _ (le_bytes 4 v))
    | |- roundtrips 8 (MEM_writeLE64 _ _ _ _) _ _ _ _ => apply (roundtrips_intro _ _ _ _ (le_bytes 8 v))
    | |- roundtrips 4 (MEM_writeBE32 _ _ _ _) _ _ _ _ => apply (roundtrips_intro _ _ _ _ (be_bytes 4 v))
    | |- roundtrips 8 (MEM_writeBE64 _ _ _ _) _ _ _ _ => apply (roundtrips_intro _ _ _ _ (be_bytes 8 v))
    end; try lia; try apply zlen_le_bytes; try apply Hlbe;
    auto using writeLE16_spec, writeLE24_spec, writeLE32_spec, writeLE64_spec,
      writeBE32_spec, writeBE64_spec.
  - rewrite readLE16_spec; [f_equal; by apply (le_val_patched _ _ 2)|auto with zlist|done|].
    rewrite zlen_zpatch; rewrite ?zlen_le_bytes, ?Hlbe; lia.
  - rewrite readLE24_spec; [f_equal; by apply (le_val_patched _ _ 3)|auto with zlist|done|].
    rewrite zlen_zpatch; rewrite ?zlen_le_bytes, ?Hlbe; lia.
  - rewrite readLE32_spec; [f_equal; by apply (le_val_patched _ _ 4)|auto with zlist|done|].
    rewrite zlen_zpatch; rewrite ?zlen_le_bytes, ?Hlbe; lia.
  - rewrite readBE32_spec; [f_equal; by apply (be_val_patched _ _ 4)|auto with zlist|done|].
    rewrite zlen_zpatch; rewrite ?zlen_le_bytes, ?Hlbe; lia.
  - rewrite readLE64_spec; [f_equal; by apply (le_val_patched _ _ 8)|auto with zlist|done|].
    rewrite zlen_zpatch; rewrite ?zlen_le_bytes, ?Hlbe; lia.
  - rewrite readBE64_spec; [f_equal; by apply (be_val_patched _ _ 8)|auto with zlist|done|].
    rewrite zlen_zpatch; rewrite ?zlen_le_bytes, ?Hlbe; lia.
Qed.

Lemma MEM_LE_BE_portable_witness :
  bytes_ok (zfill 10 7) /\ 0 <= 2 /\
  roundtrips 8 (MEM_writeLE64 false (zfill 10 7) 2 0x1122334455667788)
    (fun m => MEM_readLE64 true m 2) (zfill 10 7) 2 0x1122334455667788.
Proof.
  assert (bytes_ok (zfill 10 7)) as H by bytes_dec.
  split_and!; [exact H|lia|].
  destruct (MEM_LE_BE_portable false true (zfill 10 7) 2 0x1122334455667788 H ltac:(lia))
    as (_ & _ & _ & H8).
  apply H8; [vm_compute; congruence|lia].
Defined.
