(* ===== verification/BitStream.v ===== *)
(** The bit streams of the entropy coders (common/bitstream.h), on a 64-bit
    target. Bits are written forward by a [BIT_CStream_t] and read backward by a
    [BIT_DStream_t]; pointers are offsets in the buffer that is passed along.
    The refinement lemmas relate each operation to a stack of bits, held as one
    integer; the theorem is that what is pushed is popped in reverse order. *)

From S2P Require Import Prelude Errors Outcome Bits Mem.

(** ** Definitions *)

Record BIT_CStream_t := mkCStream {
  c_bitContainer : Z;
  c_bitPos : Z;
  c_startPtr : Z;
  c_ptr : Z;
  c_endPtr : Z;
}.

(** A decoding stream: [d_ptr] is an offset in the source, or points to the
    zero-filled word an overflowed stream is parked on. *)
Inductive DPtr := PtrSrc (p : Z) | PtrZeroFilled.

Record BIT_DStream_t := mkDStream {
  d_bitContainer : Z;
  d_bitsConsumed : Z;
  d_ptr : DPtr;
  d_start : Z;
  d_limitPtr : Z;
}.

Inductive BIT_DStream_status :=
| BIT_DStream_unfinished
| BIT_DStream_endOfBuffer
| BIT_DStream_completed
| BIT_DStream_overflow.

#[global] Instance BIT_DStream_status_eq_dec : EqDecision BIT_DStream_status.
Proof. solve_decision. Defined.

Definition BIT_mask : list Z :=
  [0; 1; 3; 7; 0xF; 0x1F;
   0x3F; 0x7F; 0xFF; 0x1FF; 0x3FF; 0x7FF;
   0xFFF; 0x1FFF; 0x3FFF; 0x7FFF; 0xFFFF; 0x1FFFF;
   0x3FFFF; 0x7FFFF; 0xFFFFF; 0x1FFFFF; 0x3FFFFF; 0x7FFFFF;
   0xFFFFFF; 0x1FFFFFF; 0x3FFFFFF; 0x7FFFFFF; 0xFFFFFFF; 0x1FFFFFFF;
   0x3FFFFFFF; 0x7FFFFFFF].

(** [sizeof(BitContainerType)]. *)
Definition containerSize : Z := 8.

Definition BIT_initCStream (startPtr dstCapacity : Z) : result BIT_CStream_t :=
  let bitC := mkCStream 0 0 startPtr startPtr (startPtr + dstCapacity - containerSize) in
  ERROR_IF dstCapacity <=? containerSize THEN dstSize_tooSmall ;;
  Ok bitC.

Definition BIT_getLowerBits (bitContainer nbBits : Z) : result Z :=
  let* mask := rd BIT_mask nbBits in
  Ok (bitContainer .& mask).

Definition BIT_addBits (bitC : BIT_CStream_t) (value nbBits : Z) : result BIT_CStream_t :=
  let* bits := BIT_getLowerBits value nbBits in
  REQUIRE c_bitPos bitC <? containerSize * 8 ;;
  Ok (mkCStream (c_bitContainer bitC .| u64 (Z.shiftl bits (c_bitPos bitC)))
        (c_bitPos bitC + nbBits) (c_startPtr bitC) (c_ptr bitC) (c_endPtr bitC)).

Definition BIT_addBitsFast (bitC : BIT_CStream_t) (value nbBits : Z) : result BIT_CStream_t :=
  REQUIRE c_bitPos bitC <? containerSize * 8 ;;
  Ok (mkCStream (c_bitContainer bitC .| u64 (Z.shiftl value (c_bitPos bitC)))
        (c_bitPos bitC + nbBits) (c_startPtr bitC) (c_ptr bitC) (c_endPtr bitC)).

Definition BIT_flushBitsFast (mem : list Z) (bitC : BIT_CStream_t)
  : result (list Z * BIT_CStream_t) :=
  let nbBytes := Z.shiftr (c_bitPos bitC) 3 in
  let* mem := writeLEST mem (c_ptr bitC) (c_bitContainer bitC) in
  let ptr := c_ptr bitC + nbBytes in
  REQUIRE nbBytes * 8 <? containerSize * 8 ;;
  Ok (mem, mkCStream (Z.shiftr (c_bitContainer bitC) (nbBytes * 8)) (c_bitPos bitC .& 7)
             (c_startPtr bitC) ptr (c_endPtr bitC)).

Definition BIT_flushBits (mem : list Z) (bitC : BIT_CStream_t)
  : result (list Z * BIT_CStream_t) :=
  let nbBytes := Z.shiftr (c_bitPos bitC) 3 in
  let* mem := writeLEST mem (c_ptr bitC) (c_bitContainer bitC) in
  let ptr := c_ptr bitC + nbBytes in
  let ptr := if ptr >? c_endPtr bitC then c_endPtr bitC else ptr in
  REQUIRE nbBytes * 8 <? containerSize * 8 ;;
  Ok (mem, mkCStream (Z.shiftr (c_bitContainer bitC) (nbBytes * 8)) (c_bitPos bitC .& 7)
             (c_startPtr bitC) ptr (c_endPtr bitC)).

(** The size of the stream, 0 when it did not fit. *)
Definition BIT_closeCStream (mem : list Z) (bitC : BIT_CStream_t) : result (list Z * Z) :=
  let* bitC := BIT_addBitsFast bitC 1 1 in
  let* '(mem, bitC) := BIT_flushBits mem bitC in
  if c_ptr bitC >=? c_endPtr bitC then Ok (mem, 0)
  else Ok (mem, c_ptr bitC - c_startPtr bitC + b2z (c_bitPos bitC >? 0)).

(** The [switch] with fallthrough that loads a source of less than 8 bytes. *)
Definition BIT_initDStream_switch (src : list Z) : result Z :=
  let srcSize := zlen src in
  let* c := rd src 0 in
  let* c := (if 7 <=? srcSize then
               let* b := rd src 6 in Ok (u64 (c + u64 (Z.shiftl b (containerSize * 8 - 16))))
             else Ok c) in
  let* c := (if 6 <=? srcSize then
               let* b := rd src 5 in Ok (u64 (c + u64 (Z.shiftl b (containerSize * 8 - 24))))
             else Ok c) in
  let* c := (if 5 <=? srcSize then
               let* b := rd src 4 in Ok (u64 (c + u64 (Z.shiftl b (containerSize * 8 - 32))))
             else Ok c) in
  let* c := (if 4 <=? srcSize then
               let* b := rd src 3 in Ok (u64 (c + u64 (Z.shiftl b 24))) else Ok c) in
  let* c := (if 3 <=? srcSize then
               let* b := rd src 2 in Ok (u64 (c + u64 (Z.shiftl b 16))) else Ok c) in
  let* c := (if 2 <=? srcSize then
               let* b := rd src 1 in Ok (u64 (c + u64 (Z.shiftl b 8))) else Ok c) in
  Ok c.

(** [src] holds exactly the bytes of the stream. *)
Definition BIT_initDStream (src : list Z) : result BIT_DStream_t :=
  let srcSize := zlen src in
  ERROR_IF srcSize <? 1 THEN Errors.srcSize_wrong ;;
  let start := 0 in
  let limitPtr := start + containerSize in
  if srcSize >=? containerSize then
    let ptr := srcSize - containerSize in
    let* bitContainer := readLEST src ptr in
    let* lastByte := rd src (srcSize - 1) in
    let bitsConsumed := if lastByte =? 0 then 0 else 8 - ZSTD_highbit32 lastByte in
    ERROR_IF lastByte =? 0 THEN GENERIC ;;
    Ok (mkDStream bitContainer bitsConsumed (PtrSrc ptr) start limitPtr)
  else
    let* c := BIT_initDStream_switch src in
    let* lastByte := rd src (srcSize - 1) in
    let bitsConsumed := if lastByte =? 0 then 0 else 8 - ZSTD_highbit32 lastByte in
    ERROR_IF lastByte =? 0 THEN corruption_detected ;;
    let bitsConsumed := u32 (bitsConsumed + u32 (containerSize - srcSize) * 8) in
    Ok (mkDStream c bitsConsumed (PtrSrc start) start limitPtr).

Definition BIT_getUpperBits (bitContainer start : Z) : Z := Z.shiftr bitContainer start.

Definition BIT_getMiddleBits (bitContainer start nbBits : Z) : result Z :=
  let regMask := containerSize * 8 - 1 in
  REQUIRE nbBits <? 64 ;;
  Ok (Z.shiftr bitContainer (start .& regMask) .& u64 (u64 (Z.shiftl 1 nbBits) - 1)).

Definition BIT_lookBits (bitD : BIT_DStream_t) (nbBits : Z) : result Z :=
  BIT_getMiddleBits (d_bitContainer bitD)
    (u32 (containerSize * 8 - d_bitsConsumed bitD - nbBits)) nbBits.

Definition BIT_lookBitsFast (bitD : BIT_DStream_t) (nbBits : Z) : Z :=
  let regMask := containerSize * 8 - 1 in
  Z.shiftr (u64 (Z.shiftl (d_bitContainer bitD) (d_bitsConsumed bitD .& regMask)))
    (u32 (regMask + 1 - nbBits) .& regMask).

Definition BIT_skipBits (bitD : BIT_DStream_t) (nbBits : Z) : BIT_DStream_t :=
  mkDStream (d_bitContainer bitD) (u32 (d_bitsConsumed bitD + nbBits)) (d_ptr bitD)
    (d_start bitD) (d_limitPtr bitD).

Definition BIT_readBits (bitD : BIT_DStream_t) (nbBits : Z) : result (Z * BIT_DStream_t) :=
  let* value := BIT_lookBits bitD nbBits in
  Ok (value, BIT_skipBits bitD nbBits).

Definition BIT_readBitsFast (bitD : BIT_DStream_t) (nbBits : Z) : result (Z * BIT_DStream_t) :=
  let value := BIT_lookBitsFast bitD nbBits in
  Ok (value, BIT_skipBits bitD nbBits).

(** The window moved down by the whole bytes consumed. *)
Definition BIT_reloadDStream_internal (src : list Z) (bitD : BIT_DStream_t) (p : Z)
  : result (BIT_DStream_status * BIT_DStream_t) :=
  let p := p - Z.shiftr (d_bitsConsumed bitD) 3 in
  let* c := readLEST src p in
  Ok (BIT_DStream_unfinished,
      mkDStream c (d_bitsConsumed bitD .& 7) (PtrSrc p) (d_start bitD) (d_limitPtr bitD)).

Definition BIT_reloadDStreamFast (src : list Z) (bitD : BIT_DStream_t)
  : result (BIT_DStream_status * BIT_DStream_t) :=
  match d_ptr bitD with
  | PtrZeroFilled => Stuck
  | PtrSrc p =>
      if p <? d_limitPtr bitD then Ok (BIT_DStream_overflow, bitD)
      else BIT_reloadDStream_internal src bitD p
  end.

Definition BIT_reloadDStream (src : list Z) (bitD : BIT_DStream_t)
  : result (BIT_DStream_status * BIT_DStream_t) :=
  if d_bitsConsumed bitD >? containerSize * 8 then
    Ok (BIT_DStream_overflow,
        mkDStream (d_bitContainer bitD) (d_bitsConsumed bitD) PtrZeroFilled
          (d_start bitD) (d_limitPtr bitD))
  else
  match d_ptr bitD with
  | PtrZeroFilled => Stuck
  | PtrSrc p =>
      if p >=? d_limitPtr bitD then BIT_reloadDStream_internal src bitD p
      else if p =? d_start bitD then
        if d_bitsConsumed bitD <? containerSize * 8 then Ok (BIT_DStream_endOfBuffer, bitD)
        else Ok (BIT_DStream_completed, bitD)
      else
        let nbBytes := Z.shiftr (d_bitsConsumed bitD) 3 in
        let '(nbBytes, res) :=
          if p - nbBytes <? d_start bitD then (p - d_start bitD, BIT_DStream_endOfBuffer)
          else (nbBytes, BIT_DStream_unfinished) in
        let p := p - nbBytes in
        let* c := readLEST src p in
        Ok (res, mkDStream c (u32 (d_bitsConsumed bitD - nbBytes * 8)) (PtrSrc p)
                   (d_start bitD) (d_limitPtr bitD))
  end.

Definition BIT_endOfDStream (DStream : BIT_DStream_t) : bool :=
  match d_ptr DStream with
  | PtrSrc p => (p =? d_start DStream) && (d_bitsConsumed DStream =? containerSize * 8)
  | PtrZeroFilled => false
  end.

(** *** Clients of the interface, for the statements *)

(** Push fields, flushing after each one. *)
Fixpoint write_fields (mem : list Z) (bitC : BIT_CStream_t) (fs : list (Z * Z))
  : result (list Z * BIT_CStream_t) :=
  match fs with
  | [] => Ok (mem, bitC)
  | (v, nb) :: fs =>
      let* bitC := BIT_addBits bitC v nb in
      let* '(mem, bitC) := BIT_flushBits mem bitC in
      write_fields mem bitC fs
  end.

(** Pop fields of the given widths, reloading before each one. *)
Fixpoint read_fields (src : list Z) (bitD : BIT_DStream_t) (nbs : list Z)
  : result (list Z * BIT_DStream_t) :=
  match nbs with
  | [] => Ok ([], bitD)
  | nb :: nbs =>
      let* '(_, bitD) := BIT_reloadDStream src bitD in
      let* '(v, bitD) := BIT_readBits bitD nb in
      let* '(vs, bitD) := read_fields src bitD nbs in
      Ok (v :: vs, bitD)
  end.

(** A whole stream written into [dst] from offset 0. *)
Definition write_stream (dst : list Z) (fs : list (Z * Z)) : result (list Z * Z) :=
  let* bitC := BIT_initCStream 0 (zlen dst) in
  let* '(mem, bitC) := write_fields dst bitC fs in
  BIT_closeCStream mem bitC.

Definition read_stream (src : list Z) (nbs : list Z) : result (list Z * bool) :=
  let* bitD := BIT_initDStream src in
  let* '(vs, bitD) := read_fields src bitD nbs in
  Ok (vs, BIT_endOfDStream bitD).

(** ** Refinement of a stack of bits *)

(** *** Writing *)

(** The registers and pointers of an encoding stream are consistent. *)
Record cwf (mem : list Z) (c : BIT_CStream_t) : Prop := {
  cwf_start : 0 <= c_startPtr c <= c_ptr c;
  cwf_end : c_ptr c <= c_endPtr c;
  cwf_mem : c_endPtr c + 8 <= zlen mem;
  cwf_pos : 0 <= c_bitPos c < 64;
  cwf_container : 0 <= c_bitContainer c < 2 ^ c_bitPos c;
}.

(** The bits of the stream as an integer, the first one lowest, and their
    number. *)
Definition cval (mem : list Z) (c : BIT_CStream_t) : Z :=
  le_val (zsub mem (c_startPtr c) (c_ptr c - c_startPtr c))
  + 2 ^ (8 * (c_ptr c - c_startPtr c)) * c_bitContainer c.
Definition cbits (c : BIT_CStream_t) : Z := 8 * (c_ptr c - c_startPtr c) + c_bitPos c.

(** Either the stream holds [acc] on [n] bits, or it overflowed: it is stuck at
    its end, and the bits pushed fill the buffer. *)
Definition crep (mem : list Z) (c : BIT_CStream_t) (acc n : Z) : Prop :=
  cwf mem c /\
  (c_ptr c < c_endPtr c /\ cval mem c = acc /\ cbits c = n \/
   c_ptr c = c_endPtr c /\ 8 * (c_endPtr c - c_startPtr c) <= n).

(** Project the fields of a stream. *)
Ltac cbs :=
  cbn [c_bitContainer c_bitPos c_startPtr c_ptr c_endPtr
       d_bitContainer d_bitsConsumed d_ptr d_start d_limitPtr] in *.

Lemma BIT_mask_spec nb : 0 <= nb < 32 -> zat BIT_mask nb = 2 ^ nb - 1.
Proof.
  intros Hnb. apply Z.eqb_eq.
  apply (forallb_range (fun nb => zat BIT_mask nb =? 2 ^ nb - 1) 0 32); [|lia].
  vm_compute. reflexivity.
Qed.

Lemma getLowerBits_spec v nb :
  0 <= nb < 32 -> BIT_getLowerBits v nb = Ok (v mod 2 ^ nb).
Proof.
  intros Hnb. unfold BIT_getLowerBits. rewrite rd_ok by (change (zlen BIT_mask) with 32; lia).
  cbn [bind]. by rewrite BIT_mask_spec, land_mask by lia.
Qed.

Lemma BIT_initCStream_spec mem s cap :
  0 <= s -> s + cap <= zlen mem -> 8 < cap ->
  exists c, BIT_initCStream s cap = Ok c /\ crep mem c 0 0 /\
    c_startPtr c = s /\ c_endPtr c = s + cap - 8 /\ c_bitPos c = 0.
Proof.
  intros Hs Hcap Hc. eexists. unfold BIT_initCStream, RETURN_ERROR_IF, containerSize.
  rewrite (proj2 (Z.leb_gt cap 8)) by lia. split; [done|]. split_and!; [|done..].
  split; [split; simpl; lia|]. left. unfold cval, cbits. simpl. rewrite Z.sub_diag.
  split_and!; [lia| |lia]. rewrite zsub_0. change (le_val []) with 0. lia.
Qed.

Lemma addBits_refines mem c acc n v nb :
  crep mem c acc n -> 0 <= nb < 32 -> c_bitPos c + nb < 64 ->
  exists c', BIT_addBits c v nb = Ok c' /\
    crep mem c' (acc + 2 ^ n * (v mod 2 ^ nb)) (n + nb) /\
    c_bitPos c' = c_bitPos c + nb /\ c_startPtr c' = c_startPtr c /\ c_endPtr c' = c_endPtr c /\
    c_ptr c' = c_ptr c.
Proof.
  intros [[Hs He Hm Hp Hc] Hr] Hnb Hlt. unfold BIT_addBits. rewrite getLowerBits_spec by lia.
  cbn [bind]. unfold defined_if, containerSize. rewrite (proj2 (Z.ltb_lt _ _)) by lia.
  pose proof (Z.mod_pos_bound v (2 ^ nb) ltac:(apply pow2_pos; lia)) as Hv.
  assert (0 <= v mod 2 ^ nb * 2 ^ c_bitPos c < 2 ^ 64) as Hsh.
  { pose proof (pow2_pos (c_bitPos c) ltac:(lia)).
    pose proof (pow2_le (c_bitPos c + nb) 64 ltac:(lia)) as Hle.
    rewrite pow2_add in Hle by lia. nia. }
  assert (u64 (Z.shiftl (v mod 2 ^ nb) (c_bitPos c)) = Z.shiftl (v mod 2 ^ nb) (c_bitPos c)) as ->.
  { apply u64_small. rewrite Z.shiftl_mul_pow2 by lia. done. }
  rewrite lor_shiftl_add by lia. eexists. split; [done|]. simpl. split_and!; [|done..].
  pose proof (pow2_pos (c_bitPos c) ltac:(lia)).
  split.
  - split; simpl; try lia. rewrite pow2_add by lia. nia.
  - unfold cval, cbits in *. simpl. destruct Hr as [(? & <- & <-)|[? ?]]; [left|right; lia].
    split_and!; [lia| |lia]. rewrite pow2_add by lia. lia.
Qed.

Lemma flush_refines mem c acc n :
  crep mem c acc n ->
  exists mem' c', BIT_flushBits mem c = Ok (mem', c') /\ crep mem' c' acc n /\
    c_bitPos c' = c_bitPos c mod 8 /\ c_startPtr c' = c_startPtr c /\ c_endPtr c' = c_endPtr c /\
    zlen mem' = zlen mem /\
    (c_ptr c' < c_endPtr c' -> c_bitPos c' > 0 ->
       zat mem' (c_ptr c') = c_bitContainer c') /\
    (bytes_ok mem -> bytes_ok mem').
Proof.
  intros [[Hs He Hm Hp Hc] Hr]. unfold BIT_flushBits, writeLEST, MEM_writeLEST.
  assert (2 ^ c_bitPos c < 2 ^ 64) as H64 by (apply pow2_lt; lia).
  simpl negb. cbv iota. rewrite writeLE64_spec by lia. cbn [bind].
  rewrite (Z.shiftr_div_pow2 (c_bitPos c) 3) by lia. change (2 ^ 3) with 8.
  set (k := c_bitPos c / 8). assert (0 <= k < 8 /\ 8 * k <= c_bitPos c) as [Hk Hk8] by (unfold k; zdm).
  unfold defined_if, containerSize. rewrite (proj2 (Z.ltb_lt _ _)) by lia.
  change 7 with (2 ^ 3 - 1). rewrite land_mask by lia. change (2 ^ 3) with 8.
  rewrite Z.shiftr_div_pow2 by lia.
  assert (0 <= c_bitContainer c / 2 ^ (k * 8) < 2 ^ (c_bitPos c mod 8)) as Hc'.
  { pose proof (pow2_pos (k * 8) ltac:(lia)). split; [apply Z.div_pos; lia|].
    apply Z.div_lt_upper_bound; [lia|]. rewrite <- pow2_add by (unfold k; zdm).
    replace (k * 8 + c_bitPos c mod 8) with (c_bitPos c) by (unfold k; zdm). lia. }
  assert (zlen (le_bytes 8 (c_bitContainer c)) = 8) as Hl8 by apply zlen_le_bytes.
  assert (0 <= c_bitPos c mod 8 < 8) as Hm8 by zdm.
  do 2 eexists. split; [done|]. split_and!; [|done..|by rewrite zlen_zpatch by lia| |auto with zlist].
  - split.
    + constructor; cbs; rewrite ?zlen_zpatch by lia; try exact Hc'; try lia;
        destruct (Z.gtb_spec (c_ptr c + k) (c_endPtr c)); lia.
    + simpl. unfold cval, cbits in *. simpl.
      destruct (Z.gtb_spec (c_ptr c + k) (c_endPtr c)).
      { right. unfold k in *. zdm. }
      destruct (Z.eqb_spec (c_ptr c + k) (c_endPtr c)); [right; unfold k in *; zdm|].
      left. destruct Hr as [(Hlt & <- & <-)|[? ?]]; [|lia].
      split_and!; [lia| |unfold k in *; zdm].
      replace (c_ptr c + k - c_startPtr c) with (c_ptr c - c_startPtr c + k) by lia.
      rewrite (le_val_extend mem _ _ _ k 8) by lia.
      replace (8 * (c_ptr c - c_startPtr c + k)) with (8 * (c_ptr c - c_startPtr c) + k * 8) by lia.
      rewrite pow2_add by lia. rewrite (Z.mul_comm 8 k).
      pose proof (Z.div_mod (c_bitContainer c) (2 ^ (k * 8)) ltac:(apply Z.pow_nonzero; lia)) as E.
      rewrite <- Z.add_assoc, <- Z.mul_assoc, <- Z.mul_add_distr_l. do 2 f_equal. lia.
  - simpl. intros Hlt Hpos. destruct (Z.gtb_spec (c_ptr c + k) (c_endPtr c)); [lia|].
    rewrite zat_zpatch by lia.
    rewrite (proj2 (Z.leb_le _ _)), (proj2 (Z.ltb_lt _ _)) by lia. simpl andb. cbv iota.
    replace (c_ptr c + k - c_ptr c) with k by lia.
    rewrite <- byte_of_le_val by (first [apply le_bytes_ok|lia]).
    rewrite le_val_le_bytes. change (8 * Z.of_nat 8) with 64.
    rewrite (Z.mod_small (c_bitContainer c)) by lia.
    rewrite Z.shiftr_div_pow2 by lia. rewrite (Z.mul_comm 8 k). apply Z.mod_small.
    pose proof (pow2_lt (c_bitPos c mod 8) 8). lia.
Qed.

Lemma addBitsFast_refines mem c acc n v nb :
  crep mem c acc n -> 0 <= nb -> 0 <= v < 2 ^ nb -> c_bitPos c + nb < 64 ->
  exists c', BIT_addBitsFast c v nb = Ok c' /\ crep mem c' (acc + 2 ^ n * v) (n + nb) /\
    c_bitPos c' = c_bitPos c + nb /\ c_startPtr c' = c_startPtr c /\ c_endPtr c' = c_endPtr c.
Proof.
  intros [[Hs He Hm Hp Hc] Hr] Hnb Hv Hlt. unfold BIT_addBitsFast, defined_if, containerSize.
  rewrite (proj2 (Z.ltb_lt _ _)) by lia.
  pose proof (pow2_pos (c_bitPos c) ltac:(lia)).
  assert (0 <= v * 2 ^ c_bitPos c < 2 ^ 64) as Hsh.
  { pose proof (pow2_le (c_bitPos c + nb) 64 ltac:(lia)) as Hle. rewrite pow2_add in Hle by lia. nia. }
  assert (u64 (Z.shiftl v (c_bitPos c)) = Z.shiftl v (c_bitPos c)) as ->.
  { apply u64_small. rewrite Z.shiftl_mul_pow2 by lia. done. }
  rewrite lor_shiftl_add by lia. eexists. split; [done|]. cbs. split_and!; [|done..].
  split.
  - constructor; cbs; try lia. rewrite pow2_add by lia. nia.
  - unfold cval, cbits in *. cbs. destruct Hr as [(? & <- & <-)|[? ?]]; [left|right; lia].
    split_and!; [lia| |lia]. rewrite pow2_add by lia. lia.
Qed.

Lemma crep_nonneg mem c acc n : crep mem c acc n -> 0 <= n.
Proof. intros [[] [(_ & _ & <-)|[? ?]]]; unfold cbits; lia. Qed.

Lemma close_refines mem c acc n :
  crep mem c acc n -> c_bitPos c < 63 ->
  exists mem' sz, BIT_closeCStream mem c = Ok (mem', sz) /\ zlen mem' = zlen mem /\
    (sz = 0 /\ 8 * (c_endPtr c - c_startPtr c) <= n + 1 \/
     0 < sz /\ c_startPtr c + sz <= c_endPtr c /\ 8 * (sz - 1) <= n < 8 * sz /\
     le_val (zsub mem' (c_startPtr c) sz) = acc + 2 ^ n) /\
    (bytes_ok mem -> bytes_ok mem').
Proof.
  intros Hr Hpos. pose proof (crep_nonneg _ _ _ _ Hr). unfold BIT_closeCStream.
  destruct (addBitsFast_refines mem c acc n 1 1) as (c1 & -> & Hr1 & Hp1 & Hs1 & He1); [done|lia|lia|lia|].
  cbn [bind].
  destruct (flush_refines mem c1 _ _ Hr1) as (mem' & c2 & -> & Hr2 & Hp2 & Hs2 & He2 & Hl & Hz & Hok).
  cbn [bind]. rewrite Z.mul_1_r in Hr2. destruct Hr2 as [[Hs He Hm Hp Hc] Hr2].
  destruct (Z.geb_spec (c_ptr c2) (c_endPtr c2)); do 2 eexists; (split; [done|]); (split; [done|]); (split; [|exact Hok]).
  - left. split; [done|]. destruct Hr2 as [(? & _)|[_ ?]]; [lia|]. rewrite Hs2, He2, Hs1, He1 in *. lia.
  - right. destruct Hr2 as [(_ & Hv & Hn)|[? _]]; [|lia]. unfold cval, cbits in *.
    rewrite Hs2, He2, Hs1, He1 in *.
    assert (0 <= c_bitPos c2 < 8) as Hp8 by zdm.
    destruct (Z.gtb_spec (c_bitPos c2) 0); cbn [b2z].
    + split_and!; try lia. rewrite zsub_split by lia.
      replace (c_startPtr c + (c_ptr c2 - c_startPtr c)) with (c_ptr c2) by lia.
      rewrite (zsub_cons mem' (c_ptr c2) 1), Hz by lia.
      change (1 - 1) with 0. rewrite zsub_0, le_val_app, zlen_zsub by lia.
      change (le_val [c_bitContainer c2]) with (c_bitContainer c2 + 256 * 0). lia.
    + assert (c_bitPos c2 = 0) as E by lia. rewrite E in Hc. change (2 ^ 0) with 1 in Hc.
      assert (c_bitContainer c2 = 0) as E' by lia. rewrite E' in Hv.
      rewrite Z.add_0_r. split_and!; lia.
Qed.

(** *** Reading *)

(** The window of a decoding stream shows the bits below [r] of the source. *)
Definition drep (src : list Z) (d : BIT_DStream_t) (r : Z) : Prop :=
  exists p, d_ptr d = PtrSrc p /\ d_start d = 0 /\ d_limitPtr d = 8 /\
    0 <= p /\ (p = 0 \/ p + 8 <= zlen src) /\
    d_bitContainer d = (le_val src / 2 ^ (8 * p)) mod 2 ^ 64 /\
    0 <= d_bitsConsumed d <= 64 /\ r = 8 * p + 64 - d_bitsConsumed d /\ 8 * p <= r.

(** The bits that can be read before the next reload. *)
Definition davail (d : BIT_DStream_t) : Z := 64 - d_bitsConsumed d.

Lemma le_val_zsub src p n :
  bytes_ok src -> 0 <= p -> 0 <= n -> p + n <= zlen src ->
  le_val (zsub src p n) = (le_val src / 2 ^ (8 * p)) mod 2 ^ (8 * n).
Proof.
  intros Hb Hp Hn Hl.
  assert (src = zsub src 0 p ++ zsub src p n ++ zsub src (p + n) (zlen src - p - n)) as E.
  { apply zsub_cut3; lia. }
  pose proof (le_val_range _ (bytes_ok_zsub src 0 p Hb)) as R1.
  pose proof (le_val_range _ (bytes_ok_zsub src p n Hb)) as R2.
  rewrite zlen_zsub in R1, R2 by lia.
  apply (f_equal le_val) in E. rewrite !le_val_app, !zlen_zsub in E by lia. rewrite E.
  rewrite Z.mul_comm, Z.div_add by lia. rewrite (Z.div_small (le_val (zsub src 0 p))) by lia.
  rewrite Z.add_0_l, Z.mul_comm, Z.mod_add by (apply Z.pow_nonzero; lia).
  symmetry. by apply Z.mod_small.
Qed.

Lemma readLEST_window src p :
  bytes_ok src -> 0 <= p -> p + 8 <= zlen src ->
  readLEST src p = Ok ((le_val src / 2 ^ (8 * p)) mod 2 ^ 64).
Proof.
  intros. unfold readLEST, MEM_readLEST. simpl negb. cbv iota. rewrite readLE64_spec by done.
  f_equal. by rewrite le_val_zsub.
Qed.

(** The position of the end mark. *)
Lemma end_mark src :
  bytes_ok src -> 0 < zlen src -> zat src (zlen src - 1) <> 0 ->
  Z.log2 (le_val src) = 8 * (zlen src - 1) + ZSTD_highbit32 (zat src (zlen src - 1)) /\
  0 <= ZSTD_highbit32 (zat src (zlen src - 1)) <= 7.
Proof.
  intros Hb Hl Hz. pose proof (bytes_ok_zat src (zlen src - 1) Hb ltac:(lia)) as Hby.
  set (b := zat src (zlen src - 1)) in *.
  destruct (highbit32_bounds b) as [Hr Hbd]; [lia|].
  assert (ZSTD_highbit32 b <= 7) as H7.
  { rewrite highbit32_spec by lia. assert (Z.log2 b < 8); [|lia]. apply Z.log2_lt_pow2; lia. }
  split; [|lia].
  assert (src = zsub src 0 (zlen src - 1) ++ zsub src (zlen src - 1) 1) as E.
  { rewrite (zsub_cut src (zlen src - 1)) at 1 by lia. do 2 f_equal. lia. }
  pose proof (le_val_range _ (bytes_ok_zsub src 0 (zlen src - 1) Hb)) as R1.
  rewrite zlen_zsub in R1 by lia. rewrite E at 1.
  rewrite (zsub_cons src (zlen src - 1) 1), zsub_0 by lia. rewrite le_val_app, zlen_zsub by lia.
  change (le_val [?x]) with (x + 256 * 0). fold b.
  apply Z.log2_unique; [lia|].
  replace (Z.succ (8 * (zlen src - 1) + ZSTD_highbit32 b))
    with (8 * (zlen src - 1) + (ZSTD_highbit32 b + 1)) by lia.
  rewrite !(pow2_add (8 * (zlen src - 1))) by lia.
  pose proof (pow2_pos (8 * (zlen src - 1)) ltac:(lia)). nia.
Qed.

Lemma switch_container src :
  bytes_ok src -> 0 < zlen src < 8 -> BIT_initDStream_switch src = Ok (le_val src).
Proof.
  intros Hb Hl. unfold bytes_ok in Hb.
  destruct src as [|b0 [|b1 [|b2 [|b3 [|b4 [|b5 [|b6 [|b7 src]]]]]]]];
    unfold zlen in Hl; simpl length in Hl; try lia;
    rewrite ?Forall_cons_iff in Hb; unfold is_byte in Hb;
    unfold BIT_initDStream_switch, zlen; simpl length; unfold containerSize;
    repeat first
      [ progress cbn [bind]
      | rewrite rd_ok by (unfold zlen; simpl length; lia)
      | match goal with |- context [?a <=? ?b] =>
          let v := eval vm_compute in (a <=? b) in change (a <=? b) with v; cbv iota end ];
    f_equal;
    repeat match goal with |- context [zat ?l ?i] =>
      let v := eval cbv in (zat l i) in change (zat l i) with v end;
    repeat match goal with |- context [Z.shiftl ?b ?n] =>
      rewrite (Z.shiftl_mul_pow2 b n) by lia end;
    unfold le_val;
    repeat match goal with |- context [u64 ?x] =>
      lazymatch x with context [u64 _] => fail | _ => rewrite (u64_small x) by lia end end;
    lia.
Qed.

Lemma initDStream_refines src :
  bytes_ok src -> 0 < zlen src < 2 ^ 32 -> zat src (zlen src - 1) <> 0 ->
  exists d, BIT_initDStream src = Ok d /\ drep src d (Z.log2 (le_val src)).
Proof.
  intros Hb Hl Hz. destruct (end_mark src Hb) as [Hlog Hh]; [lia|done|].
  unfold BIT_initDStream, RETURN_ERROR_IF, containerSize.
  rewrite (proj2 (Z.ltb_ge (zlen src) 1)) by lia.
  destruct (Z.geb_spec (zlen src) 8).
  - rewrite readLEST_window, rd_ok by (first [done|lia]). cbn [bind].
    rewrite (proj2 (Z.eqb_neq _ 0)) by done. eexists. split; [done|].
    exists (zlen src - 8). cbs. rewrite Hlog. split_and!; try lia. done.
  - rewrite switch_container by (first [done|lia]). cbn [bind]. rewrite rd_ok by lia. cbn [bind].
    rewrite (proj2 (Z.eqb_neq _ 0)) by done. eexists. split; [done|].
    exists 0. cbs. rewrite Hlog. rewrite !u32_small by (rewrite ?u32_small; lia).
    split_and!; try lia; try done.
    change (2 ^ (8 * 0)) with 1. rewrite Z.div_1_r. symmetry. apply Z.mod_small.
    pose proof (le_val_range src Hb). pose proof (pow2_le (8 * zlen src) 64). lia.
Qed.

Lemma initDStream_errors src :
  bytes_ok src -> zlen src < 2 ^ 32 ->
  (zlen src = 0 -> BIT_initDStream src = Err Errors.srcSize_wrong) /\
  (0 < zlen src -> zat src (zlen src - 1) = 0 ->
     BIT_initDStream src = Err (if zlen src <? 8 then corruption_detected else GENERIC)).
Proof.
  intros Hb Hl. unfold BIT_initDStream, RETURN_ERROR_IF, containerSize. split.
  - intros ->. done.
  - intros Hp Hz. rewrite (proj2 (Z.ltb_ge (zlen src) 1)) by lia.
    rewrite Z.geb_leb, Z.leb_antisym. destruct (Z.ltb_spec (zlen src) 8); cbn [negb].
    + rewrite switch_container by (first [done|lia]). cbn [bind]. rewrite rd_ok by lia. cbn [bind].
      by rewrite Hz.
    + rewrite readLEST_window, rd_ok by (first [done|lia]). cbn [bind]. by rewrite Hz.
Qed.

Lemma initDStream_wp src (Q : BIT_DStream_t -> Prop) :
  bytes_ok src -> zlen src < 2 ^ 32 ->
  (forall d, 0 < le_val src -> drep src d (Z.log2 (le_val src)) -> Q d) ->
  wp (BIT_initDStream src) Q any_error.
Proof.
  intros Hb Hl HQ. destruct (initDStream_errors src Hb Hl) as [E0 E1].
  pose proof (zlen_nonneg src).
  destruct (Z.eqb_spec (zlen src) 0) as [E|]; [by rewrite E0|].
  destruct (Z.eqb_spec (zat src (zlen src - 1)) 0) as [E|]; [by rewrite E1 by lia|].
  destruct (initDStream_refines src Hb) as (d & -> & Hd); [lia|done|].
  apply HQ; [|done]. destruct (end_mark src Hb) as [Hlog Hh]; [lia|done|].
  pose proof (le_val_range src Hb).
  destruct (Z.eqb_spec (le_val src) 0) as [E'|]; [|lia].
  rewrite E' in Hlog. change (Z.log2 0) with 0 in Hlog.
  assert (zlen src = 1) as E1' by lia.
  rewrite (zsub_cut src (zlen src - 1)) in E' by lia. rewrite le_val_app in E'.
  rewrite E1' in *. change (1 - 1) with 0 in *. rewrite zsub_0, (zsub_cons src 0), zsub_0 in E' by lia.
  change (le_val []) with 0 in E'. change (le_val [?x]) with (x + 256 * 0) in E'.
  change (2 ^ (8 * zlen [])) with 1 in E'. lia.
Qed.

Lemma getMiddleBits_spec c start nb :
  0 <= start < 64 -> 0 <= nb < 64 ->
  BIT_getMiddleBits c start nb = Ok ((c / 2 ^ start) mod 2 ^ nb).
Proof.
  intros Hs Hn. unfold BIT_getMiddleBits, defined_if, containerSize.
  rewrite (proj2 (Z.ltb_lt _ _)) by lia. change (8 * 8 - 1) with (2 ^ 6 - 1).
  rewrite (land_mask start 6) by lia. rewrite (Z.mod_small start) by lia.
  rewrite Z.shiftl_1_l. pose proof (pow2_lt nb 64). pose proof (pow2_pos nb).
  rewrite (u64_small (2 ^ nb)) by lia. rewrite u64_small by lia.
  by rewrite land_mask, Z.shiftr_div_pow2 by lia.
Qed.

Lemma readBits_refines src d r nb :
  drep src d r -> 0 <= nb < 64 -> nb <= davail d ->
  exists d', BIT_readBits d nb = Ok ((le_val src / 2 ^ (r - nb)) mod 2 ^ nb, d') /\
    drep src d' (r - nb) /\ davail d' = davail d - nb /\ d_ptr d' = d_ptr d.
Proof.
  intros (p & Hp & Hst & Hli & Hp0 & Hp8 & Hc & Hcon & Hr & Hr8) Hnb Hav. unfold davail in *.
  unfold BIT_readBits, BIT_lookBits, containerSize.
  rewrite (u32_small (8 * 8 - _ - _)) by lia.
  set (st := 8 * 8 - d_bitsConsumed d - nb).
  assert ((exists v, BIT_getMiddleBits (d_bitContainer d) st nb = Ok v /\
           v = (le_val src / 2 ^ (r - nb)) mod 2 ^ nb)) as (v & -> & ->).
  { destruct (Z.eqb_spec nb 0) as [->|].
    - eexists. unfold BIT_getMiddleBits, defined_if. cbn [Z.ltb Z.compare]. split; [done|].
      change (u64 (u64 (Z.shiftl 1 0) - 1)) with 0. by rewrite Z.land_0_r, Z.mod_1_r.
    - rewrite getMiddleBits_spec by (unfold st; lia). eexists. split; [done|].
      rewrite Hc. replace 64 with (st + (64 - st)) by lia.
      rewrite <- (Z.shiftr_div_pow2 (_ mod _)), <- !Z.land_ones by (unfold st; lia).
      rewrite Z.shiftr_land, Z.shiftr_div_pow2 by (unfold st; lia).
      rewrite Z.div_div by (first [apply Z.pow_nonzero; lia|apply pow2_pos; unfold st; lia]).
      rewrite <- pow2_add by (unfold st; lia). rewrite <- Z.land_assoc.
      replace (8 * p + st) with (r - nb) by (unfold st; lia). f_equal.
      apply Z.bits_inj'. intros i Hi. rewrite Z.land_spec, Z.shiftr_spec by lia.
      destruct (Z.ltb_spec i nb).
      + rewrite !Z.ones_spec_low by (unfold st in *; lia). done.
      + rewrite (Z.ones_spec_high nb) by lia. apply andb_false_r. }
  cbn [bind]. eexists. split; [done|]. unfold BIT_skipBits. cbs.
  rewrite u32_small by lia. split_and!; [|lia|done].
  exists p. cbs. split_and!; try done; lia.
Qed.

Lemma reload_refines src d r :
  bytes_ok src -> drep src d r ->
  exists st d', BIT_reloadDStream src d = Ok (st, d') /\ drep src d' r /\
    (d_bitsConsumed d' <= 7 \/ d_ptr d' = PtrSrc 0) /\ davail d <= davail d' /\
    st <> BIT_DStream_overflow /\ (st = BIT_DStream_completed <-> r = 0) /\
    (st = BIT_DStream_unfinished -> d_bitsConsumed d' <= 7).
Proof.
  intros Hb (p & Hp & Hst & Hli & Hp0 & Hp8 & Hc & Hcon & Hr & Hr8). unfold davail.
  unfold BIT_reloadDStream, containerSize.
  replace (d_bitsConsumed d >? 8 * 8) with false by (symmetry; rewrite Z.gtb_ltb; apply Z.ltb_ge; lia).
  rewrite Hp, Hli, Hst. destruct (Z.geb_spec p 8).
  - unfold BIT_reloadDStream_internal. rewrite (Z.shiftr_div_pow2 _ 3) by lia. change (2 ^ 3) with 8.
    change 7 with (2 ^ 3 - 1). rewrite land_mask by lia. change (2 ^ 3 - 1) with 7. change (2 ^ 3) with 8.
    rewrite readLEST_window by (first [done|zdm]). cbn [bind].
    do 2 eexists. split; [done|]. cbs.
    split; [exists (p - d_bitsConsumed d / 8); cbs; split_and!; try done; zdm|].
    split; [left; zdm|]. split; [zdm|]. split; [done|].
    split; [split; intros; [done|zdm]|intros; zdm].
  - destruct (Z.eqb_spec p 0) as [->|].
    + assert (drep src d r) as Hd by (exists 0; split_and!; done || lia).
      destruct (Z.ltb_spec (d_bitsConsumed d) (8 * 8)); do 2 eexists; (split; [done|]);
        (split; [exact Hd|]); (split; [by right|]); (split; [lia|]); (split; [done|]);
        (split; [split; intros; first [done|lia]|done]).
    + rewrite (Z.shiftr_div_pow2 _ 3) by lia. change (2 ^ 3) with 8.
      destruct (Z.ltb_spec (p - d_bitsConsumed d / 8) 0).
      * rewrite Z.sub_0_r, Z.sub_diag. rewrite readLEST_window by (first [done|lia]). cbn [bind].
        rewrite u32_small by zdm. do 2 eexists. split; [done|]. cbs.
        split; [exists 0; cbs; split_and!; try done; zdm|].
        split; [by right|]. split; [lia|]. split; [done|]. split; [split; intros; [done|zdm]|done].
      * rewrite readLEST_window by (first [done|zdm]). cbn [bind].
        rewrite u32_small by zdm. do 2 eexists. split; [done|]. cbs.
        split; [exists (p - d_bitsConsumed d / 8); cbs; split_and!; try done; zdm|].
        split; [left; zdm|]. split; [zdm|]. split; [done|].
        split; [split; intros; [done|zdm]|intros; zdm].
Qed.

(** *** The composition *)

(** The fields as one integer, the first one lowest, and their total width. *)
Fixpoint stack_val (fs : list (Z * Z)) : Z :=
  match fs with
  | [] => 0
  | (v, nb) :: fs => v mod 2 ^ nb + 2 ^ nb * stack_val fs
  end.
Definition stack_bits (fs : list (Z * Z)) : Z := zsum (map snd fs).
(** What is read back from a field. *)
Definition field_read (f : Z * Z) : Z := f.1 mod 2 ^ f.2.
Definition widths_ok (fs : list (Z * Z)) : Prop := Forall (fun f => 0 <= f.2 < 32) fs.

Definition widths_nonneg (fs : list (Z * Z)) : Prop := Forall (fun f => 0 <= f.2) fs.
Lemma widths_ok_nonneg fs : widths_ok fs -> widths_nonneg fs.
Proof. intros H. eapply Forall_impl; [exact H|]. cbn. lia. Qed.

Lemma stack_bits_nonneg fs : widths_nonneg fs -> 0 <= stack_bits fs.
Proof. unfold stack_bits, zsum. induction 1 as [|[v nb] fs H _ IH]; simpl in *; lia. Qed.

Lemma stack_bits_snoc fs v nb : stack_bits (fs ++ [(v, nb)]) = stack_bits fs + nb.
Proof. unfold stack_bits. rewrite map_app, zsum_app. unfold zsum. simpl. lia. Qed.

Lemma stack_val_range fs : widths_nonneg fs -> 0 <= stack_val fs < 2 ^ stack_bits fs.
Proof.
  induction 1 as [|[v nb] fs H Hw IH]; [done|]. simpl in *.
  pose proof (stack_bits_nonneg fs Hw).
  change (stack_bits ((v, nb) :: fs)) with (nb + stack_bits fs). rewrite pow2_add by lia.
  pose proof (Z.mod_pos_bound v (2 ^ nb) ltac:(apply pow2_pos; lia)). nia.
Qed.

Lemma stack_val_snoc fs v nb :
  widths_nonneg fs -> stack_val (fs ++ [(v, nb)]) = stack_val fs + 2 ^ stack_bits fs * (v mod 2 ^ nb).
Proof.
  induction 1 as [|[v' nb'] fs H Hw IH]; cbn [stack_val app].
  - change (stack_bits []) with 0. change (2 ^ 0) with 1. lia.
  - change (stack_bits ((v', nb') :: fs)) with (nb' + stack_bits fs).
    cbn in H. rewrite IH, pow2_add by (first [lia|by apply stack_bits_nonneg]). lia.
Qed.

Lemma write_fields_refines fs mem c acc n :
  crep mem c acc n -> c_bitPos c <= 7 -> widths_ok fs ->
  exists mem' c', write_fields mem c fs = Ok (mem', c') /\
    crep mem' c' (acc + 2 ^ n * stack_val fs) (n + stack_bits fs) /\
    c_bitPos c' <= 7 /\ c_startPtr c' = c_startPtr c /\ c_endPtr c' = c_endPtr c /\
    zlen mem' = zlen mem /\ (bytes_ok mem -> bytes_ok mem').
Proof.
  intros Hr Hp Hw. revert mem c acc n Hr Hp.
  induction Hw as [|[v nb] fs H Hw IH]; intros mem c acc n Hr Hp; cbn [write_fields].
  - exists mem, c. change (stack_bits []) with 0. cbn [stack_val].
    rewrite Z.mul_0_r, !Z.add_0_r. done.
  - cbn in H. pose proof (crep_nonneg _ _ _ _ Hr).
    destruct (addBits_refines mem c acc n v nb) as (c1 & -> & Hr1 & Hp1 & Hs1 & He1 & _); [done|lia|lia|].
    cbn [bind].
    destruct (flush_refines _ _ _ _ Hr1) as (mem2 & c2 & -> & Hr2 & Hp2 & Hs2 & He2 & Hl2 & _ & Hok2).
    cbn [bind]. destruct (IH _ _ _ _ Hr2) as (mem3 & c3 & E & Hr3 & Hp3 & Hs3 & He3 & Hl3 & Hok3); [zdm|].
    rewrite E. exists mem3, c3. split; [done|].
    change (stack_bits ((v, nb) :: fs)) with (nb + stack_bits fs). cbn [stack_val].
    split_and!; try congruence; [|auto].
    rewrite pow2_add in Hr3 by lia.
    replace (acc + 2 ^ n * (v mod 2 ^ nb + 2 ^ nb * stack_val fs))
      with (acc + 2 ^ n * (v mod 2 ^ nb) + 2 ^ n * 2 ^ nb * stack_val fs) by lia.
    by rewrite Z.add_assoc.
Qed.

Lemma davail_min src d r :
  drep src d r -> d_bitsConsumed d <= 7 \/ d_ptr d = PtrSrc 0 -> Z.min 57 r <= davail d.
Proof.
  intros (p & Hp & _ & _ & Hp0 & _ & _ & Hcon & Hr & _) [H|H]; unfold davail; [lia|].
  rewrite Hp in H. injection H as ->. lia.
Qed.

Lemma read_fields_refines fs src d :
  bytes_ok src -> widths_ok fs -> drep src d (stack_bits fs) ->
  le_val src mod 2 ^ stack_bits fs = stack_val fs ->
  exists d', read_fields src d (reverse (map snd fs)) = Ok (reverse (map field_read fs), d') /\
    drep src d' 0.
Proof.
  intros Hb. revert d. induction fs as [|[v nb] fs IH] using rev_ind; intros d Hw Hd HW.
  - exists d. by split.
  - unfold widths_ok in Hw. rewrite Forall_app, Forall_singleton in Hw. destruct Hw as [Hw H]. cbn in H.
    rewrite stack_bits_snoc, stack_val_snoc in * by (by apply widths_ok_nonneg).
    pose proof (stack_bits_nonneg fs (widths_ok_nonneg fs Hw)) as Hn. pose proof (stack_val_range fs (widths_ok_nonneg fs Hw)) as Hv.
    rewrite !map_app, !reverse_app. cbn [map reverse]. change (reverse [?x]) with [x].
    cbn [read_fields app fst snd].
    destruct (reload_refines src d _ Hb Hd) as (st & d1 & -> & Hd1 & Hav & _). cbn [bind].
    apply (davail_min src _ (stack_bits fs + nb)) in Hav; [|done].
    destruct (readBits_refines src d1 _ nb Hd1) as (d2 & -> & Hd2 & _); [lia|lia|]. cbn [bind].
    replace (stack_bits fs + nb - nb) with (stack_bits fs) in * by lia.
    pose proof (Z.mod_pos_bound v (2 ^ nb) ltac:(apply pow2_pos; lia)) as Hvr.
    pose proof (pow2_pos (stack_bits fs) Hn) as Hpos. pose proof (pow2_pos nb ltac:(lia)) as Hposn.
    assert (le_val src mod 2 ^ stack_bits fs = stack_val fs) as HW1.
    { apply (f_equal (fun x => x mod 2 ^ stack_bits fs)) in HW.
      rewrite pow2_add, Z.rem_mul_r in HW by lia.
      rewrite (Z.mul_comm (2 ^ _)), Z.mod_add, Z.mod_mod in HW by lia.
      rewrite (Z.mul_comm (2 ^ _)), Z.mod_add, (Z.mod_small (stack_val fs)) in HW by lia. done. }
    destruct (IH d2 Hw Hd2 HW1) as (d3 & -> & Hd3). cbn [bind]. exists d3. split; [|done].
    do 2 f_equal. unfold field_read at 2. cbn [fst snd]. f_equal.
    rewrite pow2_add, Z.rem_mul_r, HW1 in HW by lia. nia.
Qed.

Lemma drep_0_end src d : drep src d 0 -> BIT_endOfDStream d = true.
Proof.
  intros (p & Hp & Hst & _ & Hp0 & _ & _ & Hcon & Hr & Hr8). unfold BIT_endOfDStream, containerSize.
  rewrite Hp, Hst. assert (p = 0) as -> by lia.
  apply andb_true_iff. split; apply Z.eqb_eq; lia.
Qed.

(** ** Properties *)

(** C28: what is pushed on a bit stream is popped in reverse order. For every
    list of fields of at most 31 bits and every destination larger than the bit
    container, writing never leaves the buffer; the stream is reported as not
    fitting (size 0) only when its bits do not leave the 8 spare bytes free; and
    reading the bytes produced, with the widths reversed, gives back the fields
    in reverse order, with the stream exactly at its end. *)
Theorem bitstream_roundtrip (dst : list Z) (fs : list (Z * Z)) :
  bytes_ok dst -> 8 < zlen dst < 2 ^ 32 -> widths_ok fs ->
  exists mem sz, write_stream dst fs = Ok (mem, sz) /\ zlen mem = zlen dst /\
    (stack_bits fs + 1 < 8 * (zlen dst - 8) -> sz <> 0) /\
    (sz <> 0 ->
       sz = stack_bits fs / 8 + 1 /\
       read_stream (zsub mem 0 sz) (reverse (map snd fs))
       = Ok (reverse (map field_read fs), true)).
Proof.
  intros Hb Hlen Hw. unfold write_stream.
  destruct (BIT_initCStream_spec dst 0 (zlen dst)) as (c & -> & Hr & Hs & He & Hp); [lia..|].
  cbn [bind].
  destruct (write_fields_refines fs _ _ _ _ Hr) as (m1 & c1 & -> & Hr1 & Hp1 & Hs1 & He1 & Hl1 & Hb1);
    [lia|done|]. cbn [bind]. change (2 ^ 0) with 1 in Hr1. rewrite !Z.add_0_l, Z.mul_1_l in Hr1.
  destruct (close_refines _ _ _ _ Hr1) as (m2 & sz & -> & Hl2 & Hsz & Hb2); [lia|].
  exists m2, sz. rewrite Hs1, Hs, He1, He in Hsz.
  split; [done|]. split; [congruence|]. split; [intros; lia|]. intros Hnz.
  destruct Hsz as [[? _]|(Hsz & Hend & Hn & HW)]; [done|]. specialize (Hb2 (Hb1 Hb)).
  split; [zdm|].
  pose proof (stack_val_range fs (widths_ok_nonneg fs Hw)) as Hv. pose proof (stack_bits_nonneg fs (widths_ok_nonneg fs Hw)) as Hn0.
  assert (zlen (zsub m2 0 sz) = sz) as Hlz by (apply zlen_zsub; lia).
  assert (bytes_ok (zsub m2 0 sz)) as Hbz by (by apply bytes_ok_zsub).
  unfold read_stream.
  destruct (initDStream_refines (zsub m2 0 sz)) as (d & -> & Hd); [done|lia| |].
  { rewrite Hlz. intros Hz. rewrite (zsub_cut (zsub m2 0 sz) (sz - 1)) in HW by lia.
    rewrite Hlz in HW. replace (sz - (sz - 1)) with 1 in HW by lia.
    rewrite (zsub_cons (zsub m2 0 sz) (sz - 1)), zsub_0, Hz, le_val_app in HW by lia.
    change (le_val [0]) with 0 in HW.
    pose proof (le_val_range _ (bytes_ok_zsub (zsub m2 0 sz) 0 (sz - 1) Hbz)) as Hlv.
    rewrite zlen_zsub in Hlv by lia. pose proof (pow2_le (8 * (sz - 1)) (stack_bits fs)). lia. }
  cbn [bind]. rewrite HW in Hd.
  assert (Z.log2 (stack_val fs + 2 ^ stack_bits fs) = stack_bits fs) as Hlog.
  { apply Z.log2_unique; [lia|]. rewrite Z.pow_succ_r by lia. lia. }
  rewrite Hlog in Hd.
  destruct (read_fields_refines fs (zsub m2 0 sz) d Hbz Hw Hd) as (d' & -> & Hd').
  { rewrite HW. rewrite <- (Z.mul_1_l (2 ^ _)) at 1.
    rewrite Z.mod_add by (apply Z.pow_nonzero; lia). by apply Z.mod_small. }
  cbn [bind]. by rewrite (drep_0_end _ _ Hd').
Qed.

Definition sample_fields : list (Z * Z) :=
  [(5, 3); (1000, 10); (7, 31); (0, 0); (12345, 20); (1, 1)].

Lemma bitstream_roundtrip_witness :
  exists mem sz, write_stream (zfill 32 0) sample_fields = Ok (mem, sz) /\
    sz = 9 /\ read_stream (zsub mem 0 sz) [1; 20; 0; 31; 10; 3] = Ok ([1; 12345; 0; 7; 1000; 5], true).
Proof.
  assert (bytes_ok (zfill 32 0)) as Hb by bytes_dec.
  assert (widths_ok sample_fields) as Hw.
  { apply (bool_decide_unpack (Forall (fun f : Z * Z => 0 <= f.2 < 32) sample_fields)). vm_compute. exact I. }
  destruct (bitstream_roundtrip (zfill 32 0) sample_fields Hb ltac:(vm_compute; split; congruence) Hw)
    as (mem & sz & E & _ & Hne & Hrt).
  exists mem, sz. specialize (Hne ltac:(vm_compute; congruence)).
  destruct (Hrt Hne) as [Hsz Hrd]. split; [exact E|]. split; [exact Hsz|exact Hrd].
Defined.
