(* ===== verification/FseTable.v ===== *)
(** Finite-state-entropy tables (common/fse.h, common/fse_decompress.c,
    compress/fse_compress.c): the spreading of symbols over the states, the
    decoding table and the encoding table built on it. *)

From S2P Require Import Prelude Errors Outcome Bits Mem.

(** ** Definitions *)

Definition FSE_MAX_MEMORY_USAGE : Z := 14.
Definition FSE_DEFAULT_MEMORY_USAGE : Z := 13.
Definition FSE_MAX_SYMBOL_VALUE : Z := 255.
Definition FSE_MAX_TABLELOG : Z := FSE_MAX_MEMORY_USAGE - 2.
Definition FSE_DEFAULT_TABLELOG : Z := FSE_DEFAULT_MEMORY_USAGE - 2.
Definition FSE_MIN_TABLELOG : Z := 5.
Definition FSE_TABLELOG_ABSOLUTE_MAX : Z := 15.
Definition FSE_TABLESTEP (tableSize : Z) : Z :=
  Z.shiftr tableSize 1 + Z.shiftr tableSize 3 + 3.

Record FSE_decode_t := mkDecode {
  newState : Z;
  symbol : Z;
  nbBits : Z;
}.
#[global] Instance FSE_decode_t_inhabited : Inhabited FSE_decode_t := populate (mkDecode 0 0 0).

(** A decoding table: its header and its entries. *)
Record FSE_DTable := mkDTable {
  dt_tableLog : Z;
  dt_fastMode : Z;
  dt_table : list FSE_decode_t;
}.

Record FSE_symbolCompressionTransform := mkSymbolTT {
  deltaFindState : Z;
  deltaNbBits : Z;
}.
#[global] Instance FSE_symbolTT_inhabited : Inhabited FSE_symbolCompressionTransform :=
  populate (mkSymbolTT 0 0).

(** An encoding table: its header, [tableU16] and [symbolTT]. *)
Record FSE_CTable := mkCTable {
  ct_tableLog : Z;
  ct_maxSymbolValue : Z;
  ct_stateTable : list Z;
  ct_symbolTT : list FSE_symbolCompressionTransform;
}.

(** *** Spreading the symbols

    The same code is in [FSE_buildDTable_internal] and [FSE_buildCTable_wksp];
    [table] is the column of the symbols. *)

(** No low-probability symbol: the symbols are laid down in order in [spread],
    8 bytes at a time. *)
Definition FSE_layDown (spread : list Z) (norm : list Z) (maxSV1 : Z) : result (list Z) :=
  let add := 0x0101010101010101 in
  let* '(spread, _, _) :=
    for_range 0 maxSV1 (fun s '(spread, pos, sv) =>
      let* n := rd norm s in
      let* spread := memcpy_at spread pos (le_bytes 8 sv) in
      let* spread := for_step 8 n 8 (fun i spread =>
        memcpy_at spread (pos + i) (le_bytes 8 sv)) spread in
      Ok (spread, pos + n, u64 (sv + add))) (spread, 0, 0) in
  Ok spread.

(** Then the positions are spread over the table, two per iteration; the last
    position is returned. *)
Definition FSE_spreadFast (table spread : list Z) (tableSize step : Z) : result (list Z * Z) :=
  let tableMask := tableSize - 1 in
  let unroll := 2 in
  for_step 0 tableSize unroll (fun s '(table, position) =>
    let* table := for_range 0 unroll (fun u table =>
      let uPosition := (position + u * step) .& tableMask in
      let* sym := rd spread (s + u) in
      wr table uPosition sym) table in
    Ok (table, (position + unroll * step) .& tableMask)) (table, 0).

(** With low-probability symbols above [highThreshold]. *)
Definition FSE_spreadSlow (table norm : list Z) (maxSV1 tableSize step highThreshold : Z)
  : result (list Z * Z) :=
  let tableMask := tableSize - 1 in
  for_range 0 maxSV1 (fun s '(table, position) =>
    let* n := rd norm s in
    for_range 0 n (fun i '(table, position) =>
      let* table := wr table position s in
      let position := (position + step) .& tableMask in
      let* position := while_ (Z.to_nat tableSize)
        (fun position => position >? highThreshold)
        (fun position => Ok ((position + step) .& tableMask)) position in
      Ok (table, position)) (table, position)) (table, 0).

Definition FSE_BUILD_DTABLE_WKSP_SIZE (maxTableLog maxSymbolValue : Z) : Z :=
  2 * (maxSymbolValue + 1) + 2 ^ maxTableLog + 8.

(** [FSE_buildDTable_internal]: [table] holds the initial content of the
    entries, [symbolNext] and [spread] the initial content of the workspace. *)
Definition FSE_buildDTable_internal (table : list FSE_decode_t) (normalizedCounter : list Z)
    (maxSymbolValue tableLog : Z) (symbolNext spread : list Z) (wkspSize : Z)
  : result FSE_DTable :=
  let maxSV1 := maxSymbolValue + 1 in
  let tableSize := u32 (Z.shiftl 1 tableLog) in
  (* Sanity Checks *)
  ERROR_IF FSE_BUILD_DTABLE_WKSP_SIZE tableLog maxSymbolValue >? wkspSize
    THEN maxSymbolValue_tooLarge ;;
  ERROR_IF maxSymbolValue >? FSE_MAX_SYMBOL_VALUE THEN maxSymbolValue_tooLarge ;;
  ERROR_IF tableLog >? FSE_MAX_TABLELOG THEN tableLog_tooLarge ;;
  (* Init, lay down lowprob symbols *)
  let largeLimit := s16 (Z.shiftl 1 (tableLog - 1)) in
  let* '(syms, symbolNext, highThreshold, fastMode) :=
    for_range 0 maxSV1 (fun s '(syms, symbolNext, highThreshold, fastMode) =>
      let* n := rd normalizedCounter s in
      if n =? -1 then
        let* syms := wr syms highThreshold s in
        let* symbolNext := wr symbolNext s 1 in
        Ok (syms, symbolNext, u32 (highThreshold - 1), fastMode)
      else
        let fastMode := if n >=? largeLimit then 0 else fastMode in
        let* symbolNext := wr symbolNext s (u16 n) in
        Ok (syms, symbolNext, highThreshold, fastMode))
      (map symbol table, symbolNext, tableSize - 1, 1) in
  (* Spread symbols *)
  let step := FSE_TABLESTEP tableSize in
  let* syms :=
    (if highThreshold =? tableSize - 1 then
       let* spread := FSE_layDown spread normalizedCounter maxSV1 in
       let* '(syms, _) := FSE_spreadFast syms spread tableSize step in
       Ok syms
     else
       let* '(syms, position) :=
         FSE_spreadSlow syms normalizedCounter maxSV1 tableSize step highThreshold in
       ERROR_IF negb (position =? 0) THEN GENERIC ;;
       Ok syms) in
  (* Build Decoding table *)
  let* '(table, _) :=
    for_range 0 tableSize (fun u '(table, symbolNext) =>
      let* symbol := rd syms u in
      let* nextState := rd symbolNext symbol in
      let* symbolNext := wr symbolNext symbol (u16 (nextState + 1)) in
      REQUIRE negb (nextState =? 0) ;;
      let nbBits := u8 (tableLog - ZSTD_highbit32 nextState) in
      let newState := u16 (Z.shiftl nextState nbBits - tableSize) in
      let* table := wr table u (mkDecode newState symbol nbBits) in
      Ok (table, symbolNext)) (table, symbolNext) in
  Ok (mkDTable (u16 tableLog) fastMode table).

Definition FSE_BUILD_CTABLE_WORKSPACE_SIZE (maxSymbolValue tableLog : Z) : Z :=
  4 * ((maxSymbolValue + 2 + 2 ^ tableLog) / 2 + 2).

(** [FSE_buildCTable_wksp]: [stateTable] and [symbolTT] hold the initial content
    of the table, [cumul], [tableSymbol] and [spread] that of the workspace. *)
Definition FSE_buildCTable_wksp (stateTable : list Z)
    (symbolTT : list FSE_symbolCompressionTransform) (normalizedCounter : list Z)
    (maxSymbolValue tableLog : Z) (cumul tableSymbol spread : list Z) (wkspSize : Z)
  : result FSE_CTable :=
  let tableSize := u32 (Z.shiftl 1 tableLog) in
  let step := FSE_TABLESTEP tableSize in
  let maxSV1 := maxSymbolValue + 1 in
  ERROR_IF FSE_BUILD_CTABLE_WORKSPACE_SIZE maxSymbolValue tableLog >? wkspSize
    THEN tableLog_tooLarge ;;
  (* symbol start positions *)
  let* cumul := wr cumul 0 0 in
  let* '(cumul, tableSymbol, highThreshold) :=
    for_range 1 (maxSV1 + 1) (fun u '(cumul, tableSymbol, highThreshold) =>
      let* n := rd normalizedCounter (u - 1) in
      let* prev := rd cumul (u - 1) in
      if n =? -1 then
        let* cumul := wr cumul u (u16 (prev + 1)) in
        let* tableSymbol := wr tableSymbol highThreshold (u8 (u - 1)) in
        Ok (cumul, tableSymbol, u32 (highThreshold - 1))
      else
        let* cumul := wr cumul u (u16 (prev + u16 n)) in
        Ok (cumul, tableSymbol, highThreshold)) (cumul, tableSymbol, tableSize - 1) in
  let* cumul := wr cumul maxSV1 (u16 (tableSize + 1)) in
  (* Spread symbols *)
  let* '(tableSymbol, _) :=
    (if highThreshold =? tableSize - 1 then
       let* spread := FSE_layDown spread normalizedCounter maxSV1 in
       FSE_spreadFast tableSymbol spread tableSize step
     else FSE_spreadSlow tableSymbol normalizedCounter maxSV1 tableSize step highThreshold) in
  (* Build table *)
  let* '(stateTable, _) :=
    for_range 0 tableSize (fun u '(stateTable, cumul) =>
      let* s := rd tableSymbol u in
      let* c := rd cumul s in
      let* stateTable := wr stateTable c (u16 (tableSize + u)) in
      let* cumul := wr cumul s (u16 (c + 1)) in
      Ok (stateTable, cumul)) (stateTable, cumul) in
  (* Build Symbol Transformation Table *)
  let* '(symbolTT, _) :=
    for_range 0 (maxSymbolValue + 1) (fun s '(symbolTT, total) =>
      let* n := rd normalizedCounter s in
      let* old := rd symbolTT s in
      if n =? 0 then
        let* symbolTT := wr symbolTT s
          (mkSymbolTT (deltaFindState old) (u32 (Z.shiftl (tableLog + 1) 16 - Z.shiftl 1 tableLog))) in
        Ok (symbolTT, total)
      else if (n =? -1) || (n =? 1) then
        let* symbolTT := wr symbolTT s
          (mkSymbolTT (s32 (total - 1)) (u32 (Z.shiftl tableLog 16 - Z.shiftl 1 tableLog))) in
        Ok (symbolTT, u32 (total + 1))
      else
        REQUIRE n >? 1 ;;
        let maxBitsOut := u32 (tableLog - ZSTD_highbit32 (n - 1)) in
        let minStatePlus := u32 (Z.shiftl n maxBitsOut) in
        let* symbolTT := wr symbolTT s
          (mkSymbolTT (s32 (total - n)) (u32 (Z.shiftl maxBitsOut 16 - minStatePlus))) in
        Ok (symbolTT, u32 (total + n))) (symbolTT, 0) in
  Ok (mkCTable (u16 tableLog) (u16 maxSymbolValue) stateTable symbolTT).

(** [FSE_buildCTable_rle]: a fake table for an input of one symbol. *)
Definition FSE_buildCTable_rle (stateTable : list Z)
    (symbolTT : list FSE_symbolCompressionTransform) (symbolValue : Z) : result FSE_CTable :=
  let* stateTable := wr stateTable 0 0 in
  let* stateTable := wr stateTable 1 0 in
  let* symbolTT := wr symbolTT symbolValue (mkSymbolTT 0 0) in
  Ok (mkCTable 0 (u16 symbolValue) stateTable symbolTT).
