(* ===== verification/FseSpread.v ===== *)
(** The spreading of the symbols over the states of a table: both paths of the
    code, the unrolled one and the one that steps over the low-probability area,
    place the symbols along the orbit of the table step, which visits every
    state exactly once. *)

From S2P Require Import Prelude Errors Outcome Bits Mem FseTable.

(** ** Definitions *)

(** The symbols in order, each repeated as often as its count says; counts that
    are not positive repeat nothing. *)
Fixpoint syms_of (norm : list Z) (s : Z) : list Z :=
  match norm with
  | [] => []
  | n :: norm => zfill n s ++ syms_of norm (s + 1)
  end.
Definition syms_upto (norm : list Z) (s : Z) : list Z := syms_of (take (Z.to_nat s) norm) 0.

(** Store the symbols [ss] at the positions [ps]. *)
Fixpoint fill (t ps ss : list Z) : list Z :=
  match ps, ss with
  | p :: ps, s :: ss => fill (zupd t p s) ps ss
  | _, _ => t
  end.

(** The positions of the orbit that are at most [high], in the order of the
    first [j] steps. *)
Definition orbit (tableSize j : Z) : Z := (j * FSE_TABLESTEP tableSize) mod tableSize.
Definition places (tableSize high j : Z) : list Z :=
  filter (fun p => p <= high) (map (orbit tableSize) (seqZ 0 j)).

(** ** Lemmas *)

Lemma for_range_empty {A} lo hi (body : Z -> A -> result A) s :
  hi <= lo -> for_range lo hi body s = Ok s.
Proof. intros. unfold for_range. by replace (Z.to_nat (hi - lo)) with O by lia. Qed.

Lemma syms_of_app n1 n2 s : syms_of (n1 ++ n2) s = syms_of n1 s ++ syms_of n2 (s + zlen n1).
Proof.
  revert s. induction n1 as [|n n1 IH]; intros s; simpl.
  - f_equal. unfold zlen. simpl. lia.
  - rewrite IH, app_assoc. do 2 f_equal. unfold zlen. simpl length. lia.
Qed.

Lemma syms_upto_S norm s :
  0 <= s < zlen norm -> syms_upto norm (s + 1) = syms_upto norm s ++ zfill (zat norm s) s.
Proof.
  intros Hs. unfold syms_upto. unfold zlen in Hs.
  destruct (lookup_lt_is_Some_2 norm (Z.to_nat s)) as [n Hn]; [lia|].
  replace (Z.to_nat (s + 1)) with (S (Z.to_nat s)) by lia.
  rewrite (take_S_r _ _ _ Hn), syms_of_app. f_equal. simpl. rewrite app_nil_r.
  unfold zat. rewrite (list_lookup_total_correct _ _ _ Hn). f_equal.
  unfold zlen. rewrite length_take. lia.
Qed.

Lemma syms_upto_0 norm : syms_upto norm 0 = [].
Proof. done. Qed.

Lemma zlen_zfill_max {A} n (v : A) : zlen (zfill n v) = Z.max 0 n.
Proof. unfold zlen, zfill. rewrite length_replicate. lia. Qed.

Lemma syms_upto_mono norm s s' :
  0 <= s <= s' -> s' <= zlen norm -> exists k, syms_upto norm s' = syms_upto norm s ++ k.
Proof.
  intros Hs Hs'. replace s' with (s + Z.of_nat (Z.to_nat (s' - s))) by lia.
  assert (s + Z.of_nat (Z.to_nat (s' - s)) <= zlen norm) as Hle by lia. revert Hle.
  induction (Z.to_nat (s' - s)) as [|m IH]; intros Hle.
  - exists []. by rewrite Z.add_0_r, app_nil_r.
  - destruct IH as [k IH]; [lia|]. eexists.
    replace (s + Z.of_nat (S m)) with (s + Z.of_nat m + 1) by lia.
    rewrite syms_upto_S, IH by lia. by rewrite <- app_assoc.
Qed.

Lemma zlen_syms_upto_le norm s s' :
  0 <= s <= s' -> s' <= zlen norm -> zlen (syms_upto norm s) <= zlen (syms_upto norm s').
Proof.
  intros Hs Hs'. destruct (syms_upto_mono norm s s' Hs Hs') as [k ->].
  rewrite zlen_app. pose proof (zlen_nonneg k). lia.
Qed.

Lemma syms_upto_range norm s :
  0 <= s <= zlen norm -> Forall (fun x => 0 <= x < s) (syms_upto norm s).
Proof.
  intros Hs. replace s with (Z.of_nat (Z.to_nat s)) in * by lia.
  induction (Z.to_nat s) as [|m IH]; [constructor|].
  replace (Z.of_nat (S m)) with (Z.of_nat m + 1) in * by lia.
  rewrite syms_upto_S by lia. apply Forall_app. split.
  - eapply Forall_impl; [apply IH; lia|]. simpl. lia.
  - unfold zfill. apply Forall_replicate. lia.
Qed.

(** *** fill *)

Lemma zlen_fill t ps ss : zlen (fill t ps ss) = zlen t.
Proof.
  revert t ss. induction ps as [|p ps IH]; intros t [|s ss]; simpl; try done.
  rewrite IH. apply zlen_zupd.
Qed.

Lemma fill_snoc t ps ss p s :
  length ps = length ss -> fill t (ps ++ [p]) (ss ++ [s]) = zupd (fill t ps ss) p s.
Proof.
  revert t ss. induction ps as [|p' ps IH]; intros t [|s' ss] Hl; simpl in *; try done.
  apply IH. lia.
Qed.

Lemma zat_fill_out t ps ss u :
  0 <= u -> Forall (fun p => 0 <= p) ps -> u ∉ ps -> zat (fill t ps ss) u = zat t u.
Proof.
  intros Hu HF. revert t ss. induction HF as [|p ps Hp HF IH]; intros t [|s ss] Hin; simpl; try done.
  rewrite not_elem_of_cons in Hin. rewrite IH by naive_solver. apply zat_zupd_ne; naive_solver.
Qed.

Lemma zat_fill_in t ps ss k :
  NoDup ps -> Forall (fun p => 0 <= p < zlen t) ps -> length ps = length ss ->
  0 <= k < zlen ps -> zat (fill t ps ss) (zat ps k) = zat ss k.
Proof.
  intros Hnd. revert t ss k. induction Hnd as [|p ps Hp Hnd IH]; intros t [|s ss] k HF Hl Hk;
    unfold zlen in *; simpl length in *; try lia.
  rewrite Forall_cons_iff in HF. destruct HF as [Hpr HF]. simpl fill.
  destruct (Z.eqb_spec k 0) as [->|].
  - rewrite !zat_cons_0. rewrite zat_fill_out; [|lia| |done].
    + apply zat_zupd_eq. unfold zlen. lia.
    + eapply Forall_impl; [exact HF|]. simpl. lia.
  - rewrite !zat_cons_S by lia. apply IH; [|lia|lia].
    eapply Forall_impl; [exact HF|]. simpl. unfold zupd. rewrite length_insert. lia.
Qed.

(** *** The orbit of the step *)

Section orbit.
Context (tl : Z).
Hypothesis Htl : 5 <= tl <= 15.

Lemma tableSize_bounds : 32 <= 2 ^ tl <= 2 ^ 15 /\ 2 ^ tl = 2 ^ (tl - 5) * 32 /\ 1 <= 2 ^ (tl - 5).
Proof.
  pose proof (pow2_le 5 tl). pose proof (pow2_le tl 15). pose proof (pow2_pos (tl - 5)).
  rewrite <- pow2_add with (b := 5) by lia. replace (tl - 5 + 5) with tl by lia. lia.
Qed.

Lemma step_odd : exists q, FSE_TABLESTEP (2 ^ tl) = 2 * q + 1.
Proof.
  destruct tableSize_bounds as (_ & E & _). unfold FSE_TABLESTEP.
  rewrite !Z.shiftr_div_pow2 by lia. rewrite E.
  exists (2 ^ (tl - 5) * 10 + 1). set (x := 2 ^ (tl - 5)).
  assert (x * 32 / 2 ^ 1 = x * 16) as -> by zdm. assert (x * 32 / 2 ^ 3 = x * 4) as -> by zdm. lia.
Qed.

Lemma pow2_divide_odd q (n : nat) x :
  (2 ^ Z.of_nat n | (2 * q + 1) * x) -> (2 ^ Z.of_nat n | x).
Proof.
  revert x. induction n as [|n IH]; intros x [k Hk].
  - exists x. change (2 ^ Z.of_nat 0) with 1. lia.
  - replace (Z.of_nat (S n)) with (Z.of_nat n + 1) in * by lia. rewrite pow2_S in * by lia.
    assert (x mod 2 = 0) as Hx by zdm.
    destruct (IH (x / 2)) as [k' Hk'].
    + exists k. zdm.
    + exists k'. zdm.
Qed.

Lemma orbit_range j : 0 <= orbit (2 ^ tl) j < 2 ^ tl.
Proof. unfold orbit. apply Z.mod_pos_bound. apply pow2_pos. lia. Qed.

Lemma orbit_next j k :
  Z.land (orbit (2 ^ tl) j + k * FSE_TABLESTEP (2 ^ tl)) (2 ^ tl - 1) = orbit (2 ^ tl) (j + k).
Proof.
  rewrite land_mask by lia. unfold orbit. rewrite Z.add_mod_idemp_l by (apply Z.pow_nonzero; lia).
  f_equal. lia.
Qed.

Lemma orbit_next1 j :
  Z.land (orbit (2 ^ tl) j + FSE_TABLESTEP (2 ^ tl)) (2 ^ tl - 1) = orbit (2 ^ tl) (j + 1).
Proof. rewrite <- (orbit_next j 1). f_equal. lia. Qed.

Lemma orbit_0 : orbit (2 ^ tl) 0 = 0.
Proof. unfold orbit. rewrite Z.mul_0_l. apply Z.mod_0_l, Z.pow_nonzero; lia. Qed.

Lemma orbit_full : orbit (2 ^ tl) (2 ^ tl) = 0.
Proof. unfold orbit. rewrite Z.mul_comm. apply Z.mod_mul, Z.pow_nonzero; lia. Qed.

Lemma orbit_inj i j :
  0 <= i < 2 ^ tl -> 0 <= j < 2 ^ tl -> orbit (2 ^ tl) i = orbit (2 ^ tl) j -> i = j.
Proof.
  intros Hi Hj E. unfold orbit in E. destruct step_odd as [q Hq].
  assert (2 ^ tl | (2 * q + 1) * (i - j)) as Hd.
  { apply Z.mod_divide; [apply Z.pow_nonzero; lia|]. rewrite <- Hq.
    replace (FSE_TABLESTEP (2 ^ tl) * (i - j))
      with (i * FSE_TABLESTEP (2 ^ tl) - j * FSE_TABLESTEP (2 ^ tl)) by lia.
    rewrite Zminus_mod, E, Z.sub_diag. apply Z.mod_0_l, Z.pow_nonzero; lia. }
  replace tl with (Z.of_nat (Z.to_nat tl)) in Hd at 1 by lia. apply pow2_divide_odd in Hd.
  rewrite Z2Nat.id in Hd by lia. destruct Hd as [k Hk].
  assert (- 2 ^ tl < k * 2 ^ tl < 2 ^ tl) by lia. assert (k = 0) as -> by nia. lia.
Qed.

Lemma map_fmap {A B} (f : A -> B) l : map f l = f <$> l.
Proof. done. Qed.

Lemma orbit_perm : Permutation (map (orbit (2 ^ tl)) (seqZ 0 (2 ^ tl))) (seqZ 0 (2 ^ tl)).
Proof.
  apply submseteq_length_Permutation.
  - apply NoDup_submseteq.
    + rewrite map_fmap. apply NoDup_fmap_2_strong; [|apply NoDup_seqZ].
      intros x y Hx Hy. rewrite elem_of_seqZ in Hx, Hy. apply orbit_inj; lia.
    + intros x. rewrite map_fmap, list_elem_of_fmap. intros (j & -> & _).
      apply elem_of_seqZ. pose proof (orbit_range j). lia.
  - by rewrite length_map.
Qed.

Lemma filter_seqZ high n :
  -1 <= high < n -> filter (fun p => p <= high) (seqZ 0 n) = seqZ 0 (high + 1).
Proof.
  intros. replace n with ((high + 1) + (n - (high + 1))) by lia. rewrite seqZ_app by lia.
  rewrite filter_app, filter_true, filter_false; [apply app_nil_r| |].
  - apply Forall_forall. intros x Hx. rewrite elem_of_seqZ in Hx. lia.
  - apply Forall_forall. intros x Hx. rewrite elem_of_seqZ in Hx. lia.
Qed.

Lemma places_perm high :
  -1 <= high < 2 ^ tl -> Permutation (places (2 ^ tl) high (2 ^ tl)) (seqZ 0 (high + 1)).
Proof.
  intros. rewrite <- (filter_seqZ high (2 ^ tl)) by lia. unfold places. by rewrite orbit_perm.
Qed.

Lemma places_length high :
  -1 <= high < 2 ^ tl -> zlen (places (2 ^ tl) high (2 ^ tl)) = high + 1.
Proof.
  intros. unfold zlen. rewrite places_perm by lia. rewrite length_seqZ. lia.
Qed.

Lemma places_NoDup high : -1 <= high < 2 ^ tl -> NoDup (places (2 ^ tl) high (2 ^ tl)).
Proof. intros. rewrite places_perm by lia. apply NoDup_seqZ. Qed.

Lemma places_S high j :
  0 <= j -> places (2 ^ tl) high (j + 1) = places (2 ^ tl) high j ++
    (if decide (orbit (2 ^ tl) j <= high) then [orbit (2 ^ tl) j] else []).
Proof.
  intros. unfold places. rewrite seqZ_app by lia. rewrite map_app, filter_app. f_equal.
Qed.

Lemma places_mono high i j :
  0 <= i <= j -> zlen (places (2 ^ tl) high i) <= zlen (places (2 ^ tl) high j).
Proof.
  intros. unfold places. replace j with (i + (j - i)) by lia. rewrite seqZ_app by lia.
  rewrite map_app, filter_app, zlen_app.
  pose proof (zlen_nonneg (filter (fun p => p <= high) (map (orbit (2 ^ tl)) (seqZ (0 + i) (j - i))))).
  lia.
Qed.

Lemma places_full : places (2 ^ tl) (2 ^ tl - 1) (2 ^ tl) = map (orbit (2 ^ tl)) (seqZ 0 (2 ^ tl)).
Proof.
  unfold places. apply filter_true. apply Forall_forall. intros x.
  rewrite map_fmap, list_elem_of_fmap. intros (j & -> & _). pose proof (orbit_range j). lia.
Qed.

End orbit.

(** *** The slow path *)

Section slow.
Context (tl : Z) (norm : list Z) (maxSV1 high : Z) (t0 : list Z).
Hypothesis Htl : 5 <= tl <= 15.
Hypothesis Hmax : 0 <= maxSV1 <= zlen norm.
Hypothesis Ht0 : zlen t0 = 2 ^ tl.
Hypothesis Hhigh : 0 <= high < 2 ^ tl.
Hypothesis Hcount : zlen (syms_upto norm maxSV1) = high + 1.

(** The loop is at step [j] of the orbit, with the symbols [ss] placed. *)
Definition spread_at (ss : list Z) (st : list Z * Z) : Prop :=
  exists j, 0 <= j <= 2 ^ tl /\ st.2 = orbit (2 ^ tl) j /\ orbit (2 ^ tl) j <= high /\
    zlen (places (2 ^ tl) high j) = zlen ss /\ st.1 = fill t0 (places (2 ^ tl) high j) ss.

Lemma spread_skip j :
  0 <= j < 2 ^ tl -> orbit (2 ^ tl) j <= high ->
  wp (while_ (Z.to_nat (2 ^ tl)) (fun p => p >? high)
        (fun p => Ok (Z.land (p + FSE_TABLESTEP (2 ^ tl)) (2 ^ tl - 1)))
        (Z.land (orbit (2 ^ tl) j + FSE_TABLESTEP (2 ^ tl)) (2 ^ tl - 1)))
    (fun p => exists j', j < j' <= 2 ^ tl /\ p = orbit (2 ^ tl) j' /\ p <= high /\
       places (2 ^ tl) high j' = places (2 ^ tl) high (j + 1)) no_errors.
Proof.
  intros Hj Ho. rewrite orbit_next1 by done.
  pose (R := fun (p : Z) (j' : Z) => j < j' <= 2 ^ tl /\ p = orbit (2 ^ tl) j' /\
    places (2 ^ tl) high j' = places (2 ^ tl) high (j + 1)).
  assert (forall fuel j', R (orbit (2 ^ tl) j') j' -> 2 ^ tl - j' <= Z.of_nat fuel ->
    wp (while_ fuel (fun p => p >? high)
        (fun p => Ok (Z.land (p + FSE_TABLESTEP (2 ^ tl)) (2 ^ tl - 1))) (orbit (2 ^ tl) j'))
    (fun p => exists j', j < j' <= 2 ^ tl /\ p = orbit (2 ^ tl) j' /\ p <= high /\
       places (2 ^ tl) high j' = places (2 ^ tl) high (j + 1)) no_errors) as Hgen.
  { induction fuel as [|fuel IH]; intros j' (Hj' & _ & Hpl) Hf; simpl;
      destruct (Z.gtb_spec (orbit (2 ^ tl) j') high) as [Hgt|Hle].
    - replace j' with (2 ^ tl) in Hgt by lia. rewrite orbit_full in Hgt by done. lia.
    - exists j'. split_and!; done || lia.
    - rewrite orbit_next1 by done. destruct (Z.eqb_spec j' (2 ^ tl)) as [->|].
      { rewrite orbit_full in Hgt by done. lia. }
      apply IH; [|lia]. split_and!; [lia|lia|done|]. rewrite places_S by (done || lia).
      rewrite decide_False by lia. by rewrite app_nil_r.
    - exists j'. split_and!; done || lia. }
  apply Hgen; [|lia]. split_and!; [lia|lia|done|done].
Qed.

Lemma spread_step s ss st :
  zlen ss <= high -> spread_at ss st ->
  wp (let '(table, position) := st in
      let* table := wr table position s in
      let* position := while_ (Z.to_nat (2 ^ tl)) (fun position => position >? high)
        (fun position => Ok (Z.land (position + FSE_TABLESTEP (2 ^ tl)) (2 ^ tl - 1)))
        (Z.land (position + FSE_TABLESTEP (2 ^ tl)) (2 ^ tl - 1)) in
      Ok (table, position)) (spread_at (ss ++ [s])) no_errors.
Proof.
  destruct st as [table position]. intros Hlen (j & Hj & Hp & Ho & Hl & Ht). simpl in Hp, Ht. subst.
  assert (j < 2 ^ tl) as Hjlt.
  { destruct (Z.eqb_spec j (2 ^ tl)) as [->|]; [|lia].
    rewrite places_length in Hl by (done || lia). lia. }
  wp_step. pose proof (orbit_range tl Htl j). wp_step; [rewrite zlen_fill; lia|].
  wp_step. eapply wp_mono; [apply spread_skip; [lia|done]| |done].
  intros p (j' & Hj' & -> & Hle & Hpl). wp_step. exists j'. simpl.
  rewrite Hpl, places_S by (done || lia). rewrite decide_True by done.
  split_and!; try lia; [rewrite !zlen_app; unfold zlen; simpl; unfold zlen in Hl; lia|].
  rewrite fill_snoc; [done|]. unfold zlen in Hl. lia.
Qed.

Lemma FSE_spreadSlow_spec :
  FSE_spreadSlow t0 norm maxSV1 (2 ^ tl) (FSE_TABLESTEP (2 ^ tl)) high
  = Ok (fill t0 (places (2 ^ tl) high (2 ^ tl)) (syms_upto norm maxSV1), 0).
Proof.
  assert (wp (FSE_spreadSlow t0 norm maxSV1 (2 ^ tl) (FSE_TABLESTEP (2 ^ tl)) high)
    (spread_at (syms_upto norm maxSV1)) no_errors) as Hwp.
  { unfold FSE_spreadSlow.
    apply (wp_for (fun s => spread_at (syms_upto norm s))); [lia| | |done].
    - exists 0. simpl. rewrite syms_upto_0. unfold places. simpl.
      rewrite orbit_0 by done. split_and!; try done; lia.
    - intros s [table position] Hs HI. wp_step. wp_step; [lia|].
      rewrite syms_upto_S by lia. set (n := zat norm s).
      destruct (Z.leb_spec n 0) as [Hn|Hn].
      { rewrite for_range_empty by lia. wp_step. unfold zfill.
        replace (Z.to_nat n) with O by lia. by rewrite app_nil_r. }
      apply (wp_for (fun i => spread_at (syms_upto norm s ++ zfill i s))); [lia| | |done].
      + unfold zfill. simpl. by rewrite app_nil_r.
      + intros i st Hi HI'. unfold zfill. replace (Z.to_nat (i + 1)) with (S (Z.to_nat i)) by lia.
        rewrite replicate_S_end, app_assoc. apply spread_step; [|done].
        pose proof (zlen_syms_upto_le norm (s + 1) maxSV1 ltac:(lia) ltac:(lia)) as Hle.
        rewrite syms_upto_S, Hcount, zlen_app, zlen_zfill_max in Hle by lia. fold n in Hle.
        change (replicate (Z.to_nat i) s) with (zfill i s).
        rewrite zlen_app, zlen_zfill_max. lia. }
  destruct (wp_no_errors_Ok _ _ Hwp) as ([table position] & -> & (j & Hj & Hp & Ho & Hl & Ht)).
  simpl in Hp, Ht. subst.
  assert (j = 2 ^ tl) as ->.
  { destruct (Z.eqb_spec j (2 ^ tl)); [done|].
    pose proof (places_mono tl high (j + 1) (2 ^ tl) ltac:(lia)) as Hm.
    rewrite places_S, decide_True, zlen_app, places_length in Hm by (done || lia).
    unfold zlen at 2 in Hm. simpl in Hm. lia. }
  by rewrite orbit_full by done.
Qed.

End slow.

(** Without a positive count nothing is spread. *)
Lemma FSE_spreadSlow_none t0 norm maxSV1 ts step high :
  0 <= maxSV1 <= zlen norm -> syms_upto norm maxSV1 = [] ->
  FSE_spreadSlow t0 norm maxSV1 ts step high = Ok (t0, 0).
Proof.
  intros Hmax Hs.
  assert (wp (FSE_spreadSlow t0 norm maxSV1 ts step high) (fun st => st = (t0, 0)) no_errors) as Hwp.
  { unfold FSE_spreadSlow. apply (wp_for (fun _ st => st = (t0, 0))); [lia|done| |done].
    intros s st Hi ->. wp_step. wp_step; [lia|]. rewrite for_range_empty; [done|].
    pose proof (zlen_syms_upto_le norm (s + 1) maxSV1 ltac:(lia) ltac:(lia)) as Hle.
    rewrite syms_upto_S, Hs, zlen_app, zlen_zfill_max in Hle by lia.
    pose proof (zlen_nonneg (syms_upto norm s)). change (zlen []) with 0 in Hle. lia. }
  by destruct (wp_no_errors_Ok _ _ Hwp) as (st & -> & ->).
Qed.

(** *** The fast path *)

Lemma symbol_word s :
  0 <= s < 256 -> le_bytes 8 (u64 (s * 0x0101010101010101)) = zfill 8 s.
Proof.
  intros Hs. assert (bool_decide (le_bytes 8 (u64 (s * 0x0101010101010101)) = zfill 8 s) = true) as H.
  { revert s Hs. apply forallb_range. vm_compute. reflexivity. }
  by apply bool_decide_eq_true_1 in H.
Qed.

Section fast.
Context (tl : Z) (norm : list Z) (maxSV1 : Z).
Hypothesis Htl : 5 <= tl <= 15.
Hypothesis Hmax : 0 <= maxSV1 <= zlen norm.
Hypothesis Hmax256 : maxSV1 <= 256.
Hypothesis Hnonneg : forall s, 0 <= s < maxSV1 -> 0 <= zat norm s.
Hypothesis Hcount : zlen (syms_upto norm maxSV1) = 2 ^ tl.

(** The first symbols of [spread] are those laid down so far. *)
Definition laid (ss spread : list Z) : Prop :=
  zlen spread = 2 ^ tl + 8 /\ forall i, 0 <= i < zlen ss -> zat spread i = zat ss i.

Lemma laid_write ss spread s k :
  0 <= s < 256 -> 0 <= k -> zlen ss + 8 * (k + 1) <= 2 ^ tl + 8 -> laid (ss ++ zfill (8 * k) s) spread ->
  exists spread', memcpy_at spread (zlen ss + 8 * k) (le_bytes 8 (u64 (s * 0x0101010101010101)))
    = Ok spread' /\ laid (ss ++ zfill (8 * (k + 1)) s) spread'.
Proof.
  intros Hs Hk Hlen [Hl Hz]. rewrite symbol_word by done. pose proof (zlen_nonneg ss).
  assert (zlen (zfill 8 s) = 8) as H8 by done.
  rewrite memcpy_at_ok by lia. eexists. split; [done|]. split; [rewrite zlen_zpatch; lia|].
  intros i Hi. rewrite zlen_app, zlen_zfill in Hi by lia. rewrite zat_zpatch by lia. rewrite H8.
  destruct (Z.leb_spec (zlen ss + 8 * k) i), (Z.ltb_spec i (zlen ss + 8 * k + 8)); simpl; try lia.
  - rewrite zat_zfill by lia. rewrite zat_app_r by lia. rewrite zat_zfill; lia.
  - rewrite Hz by (rewrite zlen_app, zlen_zfill; lia).
    destruct (Z.ltb_spec i (zlen ss)); [by rewrite !zat_app_l by lia|].
    rewrite !zat_app_r by lia. by rewrite !zat_zfill by lia.
Qed.

Lemma FSE_layDown_spec spread0 :
  zlen spread0 = 2 ^ tl + 8 ->
  wp (FSE_layDown spread0 norm maxSV1) (laid (syms_upto norm maxSV1)) no_errors.
Proof.
  intros Hl0. unfold FSE_layDown. apply wp_bind.
  apply (wp_for (fun s '(spread, pos, sv) =>
    laid (syms_upto norm s) spread /\ pos = zlen (syms_upto norm s) /\
    sv = u64 (s * 0x0101010101010101))); [lia| | |].
  - split_and!; [|done|done]. split; [done|]. intros i Hi. change (zlen (syms_upto norm 0)) with 0 in Hi. lia.
  - intros s [[spread pos] sv] Hs (HI & -> & ->). wp_step. wp_step; [lia|].
    set (n := zat norm s). pose proof (Hnonneg s Hs) as Hn. fold n in Hn.
    pose proof (zlen_syms_upto_le norm (s + 1) maxSV1 ltac:(lia) ltac:(lia)) as Hle.
    rewrite syms_upto_S, Hcount, zlen_app, zlen_zfill_max in Hle by lia. fold n in Hle.
    destruct (laid_write (syms_upto norm s) spread s 0) as (sp1 & E1 & HI1); [lia|lia|lia| |].
    { unfold zfill. simpl. by rewrite app_nil_r. }
    rewrite Z.mul_0_r, Z.add_0_r in E1. rewrite E1. cbn [bind]. wp_step.
    unfold for_step.
    destruct (Z.leb_spec n 8) as [Hn8|Hn8].
    + rewrite for_range_empty by zdm. wp_step. wp_step. rewrite syms_upto_S by lia. fold n.
      split_and!; [|rewrite zlen_app, zlen_zfill_max; lia|].
      * destruct HI1 as [? HI1]. split; [done|]. intros i Hi.
        rewrite zlen_app, zlen_zfill_max in Hi. rewrite HI1 by (rewrite zlen_app, zlen_zfill_max; lia).
        destruct (Z.ltb_spec i (zlen (syms_upto norm s))); [by rewrite !zat_app_l by lia|].
        rewrite !zat_app_r by lia. by rewrite !zat_zfill by lia.
      * unfold u64. rewrite Z.add_mod_idemp_l by lia. f_equal. lia.
    + apply (wp_for (fun k spread => laid (syms_upto norm s ++ zfill (8 * (k + 1)) s) spread)); [zdm|done| |].
      * intros k sp Hk HIk.
        destruct (laid_write (syms_upto norm s) sp s (k + 1)) as (sp' & E & HI'); [lia|lia|zdm|done|].
        replace (zlen (syms_upto norm s) + (8 + k * 8)) with (zlen (syms_upto norm s) + 8 * (k + 1)) by lia.
        rewrite E. wp_step. done.
      * intros sp [? HIk]. wp_step. rewrite syms_upto_S by lia. fold n.
        split_and!; [|rewrite zlen_app, zlen_zfill_max; lia|].
        -- split; [done|]. intros i Hi. rewrite zlen_app, zlen_zfill_max in Hi.
           rewrite HIk by (rewrite zlen_app, zlen_zfill_max; zdm).
           destruct (Z.ltb_spec i (zlen (syms_upto norm s))); [by rewrite !zat_app_l by lia|].
           rewrite !zat_app_r by lia. rewrite !zat_zfill by zdm. done.
        -- unfold u64. rewrite Z.add_mod_idemp_l by lia. f_equal. lia.
  - intros [[spread pos] sv] (HI & _ & _). by wp_step.
Qed.

Lemma FSE_spreadFast_spec t0 spread :
  zlen t0 = 2 ^ tl -> laid (syms_upto norm maxSV1) spread ->
  FSE_spreadFast t0 spread (2 ^ tl) (FSE_TABLESTEP (2 ^ tl))
  = Ok (fill t0 (places (2 ^ tl) (2 ^ tl - 1) (2 ^ tl)) (syms_upto norm maxSV1), 0).
Proof.
  intros Ht0 [Hlsp Hsp]. set (S := syms_upto norm maxSV1) in *.
  destruct (tableSize_bounds tl Htl) as (Hb & Heven & Hx). set (T := 2 ^ tl) in *.
  pose (tab := fun m => fill t0 (map (orbit T) (seqZ 0 m)) (take (Z.to_nat m) S)).
  assert (forall m, 0 <= m < T -> forall p, p = orbit T m ->
    (let* sym := rd spread m in wr (tab m) p sym) = Ok (tab (m + 1))) as Hone.
  { intros m Hm p ->. rewrite rd_ok by lia. cbn [bind].
    assert (zlen (tab m) = T) as Hlt by (unfold tab; rewrite zlen_fill; done).
    pose proof (orbit_range tl Htl m). fold T in H.
    rewrite wr_ok by lia. f_equal. unfold tab. rewrite seqZ_app by lia. rewrite map_app. simpl.
    replace (Z.to_nat (m + 1)) with (Datatypes.S (Z.to_nat m)) by lia.
    destruct (lookup_lt_is_Some_2 S (Z.to_nat m)) as [x Hx']; [unfold zlen in *; lia|].
    rewrite (take_S_r _ _ _ Hx'), fill_snoc.
    - f_equal. rewrite Hsp by lia. unfold zat. by rewrite (list_lookup_total_correct _ _ _ Hx').
    - rewrite length_map, length_seqZ, length_take. unfold zlen in *. lia. }
  assert (wp (FSE_spreadFast t0 spread T (FSE_TABLESTEP T))
    (fun st => st = (tab T, 0)) no_errors) as Hwp.
  { unfold FSE_spreadFast, for_step.
    apply (wp_for (fun k st => st = (tab (2 * k), orbit T (2 * k)))).
    - zdm.
    - unfold T. rewrite orbit_0 by done. done.
    - intros k st Hk ->. assert (2 * k + 1 < T) as Hk' by zdm.
      unfold for_range. change (Z.to_nat (2 - 0)) with 2%nat. cbn [for_ bind].
      unfold T. rewrite !orbit_next by done. fold T.
      replace (0 + k * 2 + 0) with (2 * k) by lia. replace (0 + k * 2 + (0 + 1)) with (2 * k + 1) by lia.
      rewrite (Hone (2 * k)) by (f_equal; lia). cbn [bind].
      rewrite (Hone (2 * k + 1)) by (first [lia|f_equal; lia]). cbn [bind].
      wp_step. replace (2 * (k + 1)) with (2 * k + 1 + 1) by lia. f_equal. f_equal. lia.
    - intros st ->. replace (2 * ((T - 0 + 2 - 1) / 2)) with T by zdm.
      unfold T. by rewrite orbit_full by done. }
  destruct (wp_no_errors_Ok _ _ Hwp) as (st & -> & ->). unfold tab.
  rewrite firstn_all2 by (unfold zlen in *; lia). unfold T. by rewrite <- places_full by done.
Qed.

End fast.
