(* ===== verification/FseSymbols.v ===== *)
(** The symbols of the states of a table: the column that both table builders
    compute, as a function of the normalised counts, and how often each symbol
    occurs in it. *)

From S2P Require Import Prelude Errors Outcome Bits Mem FseTable FseSpread.

(** ** Definitions *)

(** The number of states of the symbols below [s]. *)
Definition cum (norm : list Z) (s : Z) : Z := zsum (map Z.abs (take (Z.to_nat s) norm)).

(** Normalised counts that sum to the size of the table, where -1 marks a
    symbol of low probability. *)
Record norm_ok (norm : list Z) (maxSV1 tl : Z) : Prop := {
  nok_tl : 5 <= tl <= 15;
  nok_max : 0 <= maxSV1 <= zlen norm;
  nok_max256 : maxSV1 <= 256;
  nok_counts : forall s, 0 <= s < maxSV1 -> -1 <= zat norm s;
  nok_sum : cum norm maxSV1 = 2 ^ tl;
}.

(** The symbols of low probability below [s], and where they are put. *)
Definition lows (norm : list Z) (s : Z) : list Z :=
  filter (fun i => zat norm i = -1) (seqZ 0 s).
Definition low_places (tableSize n : Z) : list Z :=
  map (fun k => tableSize - 1 - k) (seqZ 0 n).

(** The symbol of each state. *)
Definition state_symbols (norm : list Z) (maxSV1 tl : Z) : list Z :=
  let T := 2 ^ tl in
  let L := lows norm maxSV1 in
  fill (zfill T 0) (low_places T (zlen L) ++ places T (T - 1 - zlen L) T)
    (L ++ syms_upto norm maxSV1).

(** The number of occurrences of a symbol. *)
Definition occ (s : Z) (l : list Z) : Z := zlen (filter (fun x => x = s) l).

(** ** Lemmas *)

Lemma take_zS {A} `{!Inhabited A} (l : list A) s :
  0 <= s < zlen l -> take (Z.to_nat (s + 1)) l = take (Z.to_nat s) l ++ [zat l s].
Proof.
  unfold zlen. intros Hs. destruct (lookup_lt_is_Some_2 l (Z.to_nat s)) as [n Hn]; [lia|].
  replace (Z.to_nat (s + 1)) with (S (Z.to_nat s)) by lia.
  rewrite (take_S_r _ _ _ Hn). unfold zat. by rewrite (list_lookup_total_correct _ _ _ Hn).
Qed.

Lemma cum_0 norm : cum norm 0 = 0.
Proof. done. Qed.
Lemma cum_S norm s : 0 <= s < zlen norm -> cum norm (s + 1) = cum norm s + Z.abs (zat norm s).
Proof.
  intros. unfold cum. rewrite take_zS, map_app, zsum_app by done. unfold zsum. simpl. lia.
Qed.
Lemma cum_mono norm s s' : 0 <= s <= s' -> s' <= zlen norm -> cum norm s <= cum norm s'.
Proof.
  intros Hs Hs'. replace s' with (s + Z.of_nat (Z.to_nat (s' - s))) in * by lia.
  induction (Z.to_nat (s' - s)) as [|m IH]; [by rewrite Z.add_0_r|].
  replace (s + Z.of_nat (S m)) with (s + Z.of_nat m + 1) in * by lia.
  rewrite cum_S by lia. specialize (IH ltac:(lia) ltac:(lia)). lia.
Qed.
Lemma cum_nonneg norm s : 0 <= s <= zlen norm -> 0 <= cum norm s.
Proof. intros. rewrite <- (cum_0 norm). apply cum_mono; lia. Qed.

Lemma seqZ_S s : 0 <= s -> seqZ 0 (s + 1) = seqZ 0 s ++ [s].
Proof. intros. rewrite seqZ_app by lia. done. Qed.

Lemma lows_S norm s :
  0 <= s -> lows norm (s + 1) = lows norm s ++ (if zat norm s =? -1 then [s] else []).
Proof.
  intros. unfold lows. rewrite seqZ_S, filter_app by lia. f_equal. cbn.
  destruct (Z.eqb_spec (zat norm s) (-1)); [by rewrite decide_True|by rewrite decide_False].
Qed.
Lemma lows_range norm s : Forall (fun x => 0 <= x < s) (lows norm s).
Proof.
  apply Forall_forall. intros x Hx. unfold lows in Hx.
  apply list_elem_of_filter in Hx. rewrite elem_of_seqZ in Hx. lia.
Qed.
Lemma low_places_S T n :
  0 <= n -> low_places T (n + 1) = low_places T n ++ [T - 1 - n].
Proof. intros. unfold low_places. by rewrite seqZ_S, map_app by lia. Qed.
Lemma zlen_low_places T n : 0 <= n -> zlen (low_places T n) = n.
Proof. intros. unfold low_places, zlen. rewrite length_map, length_seqZ. lia. Qed.

(** *** Occurrences *)

Lemma occ_nil s : occ s [] = 0.
Proof. done. Qed.
Lemma occ_app s l k : occ s (l ++ k) = occ s l + occ s k.
Proof. unfold occ. by rewrite filter_app, zlen_app. Qed.
Lemma occ_cons s x l : occ s (x :: l) = b2z (x =? s) + occ s l.
Proof.
  unfold occ. rewrite filter_cons. destruct (Z.eqb_spec x s); simpl.
  - rewrite decide_True by done. unfold zlen. simpl. lia.
  - by rewrite decide_False.
Qed.
Lemma occ_nonneg s l : 0 <= occ s l.
Proof. apply zlen_nonneg. Qed.
Lemma occ_perm s l k : Permutation l k -> occ s l = occ s k.
Proof. intros H. unfold occ, zlen. by rewrite H. Qed.
Lemma occ_zfill s n x : occ s (zfill n x) = if x =? s then Z.max 0 n else 0.
Proof.
  unfold zfill. replace (Z.max 0 n) with (Z.of_nat (Z.to_nat n)) by lia.
  induction (Z.to_nat n) as [|m IH]; [simpl; by destruct (x =? s)|].
  cbn [replicate]. rewrite occ_cons, IH. destruct (x =? s); simpl b2z; lia.
Qed.
Lemma occ_out s l (P : Z -> Prop) : Forall P l -> ~ P s -> occ s l = 0.
Proof.
  intros HF Hs. unfold occ. rewrite filter_false; [done|].
  eapply Forall_impl; [exact HF|]. intros x Hx ->. done.
Qed.
Lemma occ_le_take s l n : occ s (take n l) <= occ s l.
Proof.
  rewrite <- (take_drop n l) at 2. rewrite occ_app. pose proof (occ_nonneg s (drop n l)). lia.
Qed.
Lemma occ_take_S s l u :
  0 <= u < zlen l ->
  occ s (take (Z.to_nat (u + 1)) l) = occ s (take (Z.to_nat u) l) + b2z (zat l u =? s).
Proof. intros. rewrite take_zS, occ_app, occ_cons, occ_nil by done. lia. Qed.
Lemma occ_take_mono s l u v :
  0 <= u <= v -> occ s (take (Z.to_nat u) l) <= occ s (take (Z.to_nat v) l).
Proof.
  intros. replace (take (Z.to_nat u) l) with (take (Z.to_nat u) (take (Z.to_nat v) l)).
  - apply occ_le_take.
  - rewrite take_take. f_equal. lia.
Qed.
(** The occurrence found at [u] is one of those of the whole list. *)
Lemma occ_take_lt l u :
  0 <= u < zlen l -> occ (zat l u) (take (Z.to_nat u) l) < occ (zat l u) l.
Proof.
  intros Hu. pose proof (occ_le_take (zat l u) l (Z.to_nat (u + 1))) as H.
  rewrite occ_take_S, Z.eqb_refl in H by done. simpl b2z in H. lia.
Qed.
Lemma occ_inj l u v :
  0 <= u < zlen l -> 0 <= v < zlen l -> zat l u = zat l v ->
  occ (zat l u) (take (Z.to_nat u) l) = occ (zat l v) (take (Z.to_nat v) l) -> u = v.
Proof.
  intros Hu Hv E Ho. destruct (Z.lt_trichotomy u v) as [H|[H|H]]; [|done|].
  - pose proof (occ_take_mono (zat l u) l (u + 1) v ltac:(lia)) as Hm.
    rewrite occ_take_S, Z.eqb_refl in Hm by done. simpl b2z in Hm. rewrite E in *. lia.
  - pose proof (occ_take_mono (zat l v) l (v + 1) u ltac:(lia)) as Hm.
    rewrite occ_take_S, Z.eqb_refl in Hm by done. simpl b2z in Hm. rewrite E in *. lia.
Qed.
(** Every occurrence is found at some index. *)
Lemma occ_find s l k :
  0 <= k < occ s l ->
  exists u, 0 <= u < zlen l /\ zat l u = s /\ occ s (take (Z.to_nat u) l) = k.
Proof.
  revert k. induction l as [|x l IH]; intros k Hk; [rewrite occ_nil in Hk; lia|].
  rewrite occ_cons in Hk. destruct (Z.eqb_spec x s) as [->|Hne]; cbn [b2z] in Hk.
  - destruct (Z.eqb_spec k 0) as [->|].
    + exists 0. by split_and!.
    + destruct (IH (k - 1)) as (u & Hu & Hz & Ho); [lia|]. exists (u + 1).
      split_and!; [lia|unfold zlen in *; simpl; lia|rewrite zat_cons_S by lia; by replace (u + 1 - 1) with u by lia|].
      replace (Z.to_nat (u + 1)) with (S (Z.to_nat u)) by lia. cbn [take].
      rewrite occ_cons, Ho, Z.eqb_refl. simpl b2z. lia.
  - destruct (IH k) as (u & Hu & Hz & Ho); [lia|]. exists (u + 1).
    split_and!; [lia|unfold zlen in *; simpl; lia|rewrite zat_cons_S by lia; by replace (u + 1 - 1) with u by lia|].
    replace (Z.to_nat (u + 1)) with (S (Z.to_nat u)) by lia. cbn [take].
    rewrite occ_cons, Ho. rewrite (proj2 (Z.eqb_neq x s)) by done. simpl b2z. lia.
Qed.

(** *** fill at a permutation of the indices *)

Lemma map_zat_seqZ {A} `{!Inhabited A} (l : list A) : map (zat l) (seqZ 0 (zlen l)) = l.
Proof.
  apply zat_ext.
  - unfold zlen. rewrite length_map, length_seqZ. lia.
  - intros i Hi. unfold zlen in Hi. rewrite length_map, length_seqZ in Hi.
    unfold zat at 1. rewrite list_lookup_total_alt, map_fmap, list_lookup_fmap.
    rewrite lookup_seqZ_lt by (unfold zlen; lia). simpl. f_equal. lia.
Qed.

Lemma elem_of_zat {A} `{!Inhabited A} (l : list A) x :
  x ∈ l -> exists k, 0 <= k < zlen l /\ zat l k = x.
Proof.
  intros H. apply list_elem_of_lookup in H as [k Hk]. exists (Z.of_nat k).
  pose proof (lookup_lt_Some _ _ _ Hk). unfold zlen, zat. split; [lia|].
  rewrite Nat2Z.id. by apply list_lookup_total_correct.
Qed.

Lemma fill_app t p1 p2 s1 s2 :
  length p1 = length s1 -> fill t (p1 ++ p2) (s1 ++ s2) = fill (fill t p1 s1) p2 s2.
Proof.
  revert t s1. induction p1 as [|p p1 IH]; intros t [|s s1] Hl; simpl in *; try done.
  apply IH. lia.
Qed.

Section cover.
Context (T : Z) (ps ss : list Z).
Hypothesis Hps : Permutation ps (seqZ 0 T).
Hypothesis Hlen : length ps = length ss.
Hypothesis HT : 0 <= T.

Lemma cover_range : Forall (fun p => 0 <= p < T) ps.
Proof.
  apply Forall_forall. intros x Hx. rewrite Hps in Hx. rewrite elem_of_seqZ in Hx. lia.
Qed.

Lemma cover_zat t k :
  zlen t = T -> 0 <= k < zlen ps -> zat (fill t ps ss) (zat ps k) = zat ss k.
Proof.
  intros Ht Hk. apply zat_fill_in; [|rewrite Ht; apply cover_range|done|done].
  rewrite Hps. apply NoDup_seqZ.
Qed.

Lemma cover_indep t t' : zlen t = T -> zlen t' = T -> fill t ps ss = fill t' ps ss.
Proof.
  intros Ht Ht'. apply zat_ext; [by rewrite !zlen_fill, Ht, Ht'|].
  rewrite zlen_fill, Ht. intros i Hi.
  destruct (elem_of_zat ps i) as (k & Hk & <-).
  { rewrite Hps. apply elem_of_seqZ. lia. }
  by rewrite !cover_zat.
Qed.

Lemma cover_perm t : zlen t = T -> Permutation (fill t ps ss) ss.
Proof.
  intros Ht. rewrite <- (map_zat_seqZ (fill t ps ss)), zlen_fill, Ht, <- Hps.
  assert (map (zat (fill t ps ss)) ps = ss) as ->; [|done].
  apply zat_ext; [unfold zlen; by rewrite length_map, Hlen|].
  unfold zlen at 1. rewrite length_map. intros i Hi.
  rewrite <- (cover_zat t) by done. unfold zat at 1 4. rewrite !list_lookup_total_alt, map_fmap, list_lookup_fmap.
  destruct (lookup_lt_is_Some_2 ps (Z.to_nat i)) as [x ->]; [lia|]. done.
Qed.

End cover.

(** *** The column of symbols *)

Section column.
Context (norm : list Z) (maxSV1 tl : Z).
Hypothesis Hok : norm_ok norm maxSV1 tl.

Lemma split_count s :
  0 <= s <= maxSV1 -> zlen (syms_upto norm s) + zlen (lows norm s) = cum norm s.
Proof.
  intros Hs. destruct Hok as [_ Hmax _ Hc _].
  replace s with (Z.of_nat (Z.to_nat s)) in * by lia.
  induction (Z.to_nat s) as [|m IH]; [done|].
  replace (Z.of_nat (S m)) with (Z.of_nat m + 1) in * by lia.
  rewrite syms_upto_S, lows_S, cum_S, !zlen_app, zlen_zfill_max by lia.
  specialize (IH ltac:(lia)). specialize (Hc (Z.of_nat m) ltac:(lia)).
  destruct (Z.eqb_spec (zat norm (Z.of_nat m)) (-1)) as [->|].
  - change (zlen [Z.of_nat m]) with 1. lia.
  - change (zlen []) with 0. lia.
Qed.

Definition low_count : Z := zlen (lows norm maxSV1).

Lemma low_count_range : 0 <= low_count <= 2 ^ tl.
Proof.
  destruct Hok. pose proof (split_count maxSV1 ltac:(lia)) as E. unfold low_count.
  pose proof (zlen_nonneg (lows norm maxSV1)). pose proof (zlen_nonneg (syms_upto norm maxSV1)). lia.
Qed.
Lemma syms_count : zlen (syms_upto norm maxSV1) = 2 ^ tl - low_count.
Proof. destruct Hok. pose proof (split_count maxSV1 ltac:(lia)) as E. unfold low_count. lia. Qed.

Lemma low_places_perm n T :
  0 <= n -> Permutation (low_places T n) (seqZ (T - n) n).
Proof.
  intros Hn. replace n with (Z.of_nat (Z.to_nat n)) by lia.
  induction (Z.to_nat n) as [|m IH]; [done|].
  replace (Z.of_nat (S m)) with (Z.of_nat m + 1) by lia. rewrite low_places_S, IH by lia.
  replace (seqZ (T - (Z.of_nat m + 1)) (Z.of_nat m + 1))
    with (T - 1 - Z.of_nat m :: seqZ (T - Z.of_nat m) (Z.of_nat m)).
  - symmetry. apply Permutation_cons_append.
  - rewrite (seqZ_cons _ (Z.of_nat m + 1)) by lia. f_equal; [lia|]. f_equal; lia.
Qed.

Lemma column_perm :
  Permutation (low_places (2 ^ tl) low_count ++ places (2 ^ tl) (2 ^ tl - 1 - low_count) (2 ^ tl))
    (seqZ 0 (2 ^ tl)).
Proof.
  pose proof low_count_range. destruct Hok.
  rewrite low_places_perm, places_perm by (done || lia).
  rewrite Permutation_app_comm. replace (2 ^ tl - 1 - low_count + 1) with (2 ^ tl - low_count) by lia.
  replace (seqZ (2 ^ tl - low_count) low_count) with (seqZ (0 + (2 ^ tl - low_count)) low_count) by (f_equal; lia).
  rewrite <- seqZ_app by lia. by replace (2 ^ tl - low_count + low_count) with (2 ^ tl) by lia.
Qed.

Lemma column_length :
  length (low_places (2 ^ tl) low_count ++ places (2 ^ tl) (2 ^ tl - 1 - low_count) (2 ^ tl))
  = length (lows norm maxSV1 ++ syms_upto norm maxSV1).
Proof.
  rewrite column_perm, length_seqZ, length_app.
  pose proof syms_count. unfold low_count, zlen in *. lia.
Qed.

Lemma state_symbols_any t :
  zlen t = 2 ^ tl ->
  fill t (low_places (2 ^ tl) low_count ++ places (2 ^ tl) (2 ^ tl - 1 - low_count) (2 ^ tl))
    (lows norm maxSV1 ++ syms_upto norm maxSV1) = state_symbols norm maxSV1 tl.
Proof.
  intros Ht. pose proof (pow2_pos tl ltac:(destruct Hok; lia)).
  apply (cover_indep (2 ^ tl)); [apply column_perm|apply column_length|done|].
  apply zlen_zfill. lia.
Qed.

Lemma zlen_state_symbols : zlen (state_symbols norm maxSV1 tl) = 2 ^ tl.
Proof.
  unfold state_symbols. rewrite zlen_fill, zlen_zfill; [done|]. apply Z.pow_nonneg. lia.
Qed.

Lemma state_symbols_perm :
  Permutation (state_symbols norm maxSV1 tl) (lows norm maxSV1 ++ syms_upto norm maxSV1).
Proof.
  apply (cover_perm (2 ^ tl)); [apply column_perm|apply column_length|].
  apply zlen_zfill. apply Z.pow_nonneg. lia.
Qed.

Lemma state_symbols_range : Forall (fun x => 0 <= x < maxSV1) (state_symbols norm maxSV1 tl).
Proof.
  rewrite state_symbols_perm. apply Forall_app. split; [apply lows_range|].
  apply syms_upto_range. apply Hok.
Qed.

Lemma state_symbol_range u :
  0 <= u < 2 ^ tl -> 0 <= zat (state_symbols norm maxSV1 tl) u < maxSV1.
Proof.
  intros Hu. apply (zat_Forall _ _ _ state_symbols_range). by rewrite zlen_state_symbols.
Qed.

(** Each symbol has as many states as its count says. *)
Lemma occ_state_symbols s :
  0 <= s < maxSV1 -> occ s (state_symbols norm maxSV1 tl) = Z.abs (zat norm s).
Proof.
  intros Hs. rewrite (occ_perm _ _ _ state_symbols_perm), occ_app.
  destruct Hok as [_ Hmax _ Hc _].
  assert (forall m, 0 <= m <= maxSV1 -> occ s (lows norm m) + occ s (syms_upto norm m)
    = if s <? m then Z.abs (zat norm s) else 0) as Hgen.
  { intros m Hm. replace m with (Z.of_nat (Z.to_nat m)) in * by lia.
    induction (Z.to_nat m) as [|k IH].
    - rewrite (proj2 (Z.ltb_ge _ _)) by lia. done.
    - replace (Z.of_nat (S k)) with (Z.of_nat k + 1) in * by lia.
      rewrite lows_S, syms_upto_S, !occ_app, occ_zfill by lia. specialize (IH ltac:(lia)).
      specialize (Hc (Z.of_nat k) ltac:(lia)).
      replace (occ s (if zat norm (Z.of_nat k) =? -1 then [Z.of_nat k] else []))
        with (if Z.of_nat k =? s then b2z (zat norm (Z.of_nat k) =? -1) else 0).
      + destruct (Z.eqb_spec (Z.of_nat k) s) as [E|]; destruct (Z.ltb_spec s (Z.of_nat k + 1)),
          (Z.ltb_spec s (Z.of_nat k)); try lia.
        rewrite E in *. destruct (Z.eqb_spec (zat norm s) (-1)); simpl b2z; lia.
      + destruct (zat norm (Z.of_nat k) =? -1); rewrite ?occ_cons, occ_nil;
          destruct (Z.eqb_spec (Z.of_nat k) s); simpl b2z; lia. }
  rewrite Hgen by lia. by rewrite (proj2 (Z.ltb_lt _ _)) by lia.
Qed.

(** The rank of state [u] among those of its symbol. *)
Definition rank (u : Z) : Z :=
  let s := zat (state_symbols norm maxSV1 tl) u in
  occ s (take (Z.to_nat u) (state_symbols norm maxSV1 tl)).

Lemma rank_range u :
  0 <= u < 2 ^ tl -> 0 <= rank u < Z.abs (zat norm (zat (state_symbols norm maxSV1 tl) u)).
Proof.
  intros Hu. unfold rank. rewrite <- occ_state_symbols by (by apply state_symbol_range).
  split; [apply occ_nonneg|]. apply occ_take_lt. by rewrite zlen_state_symbols.
Qed.

Lemma abs_norm_le s : 0 <= s < maxSV1 -> Z.abs (zat norm s) <= 2 ^ tl.
Proof.
  intros Hs. destruct Hok as [_ Hmax _ _ E]. rewrite <- E.
  pose proof (cum_mono norm (s + 1) maxSV1 ltac:(lia) ltac:(lia)) as Hm.
  rewrite cum_S in Hm by lia. pose proof (cum_nonneg norm s ltac:(lia)). lia.
Qed.

End column.
