(* ===== verification/FseBuild.v ===== *)
(** The two table builders compute the tables the counts determine: total
    correctness of [FSE_buildDTable_internal] and [FSE_buildCTable_wksp] on
    every normalised count, and the relation between the two tables. *)

From S2P Require Import Prelude Errors Outcome Bits Mem FseTable FseSpread FseSymbols.

(** ** Definitions *)

(** The decoding entry of state [u]: its symbol [s], of [w] states, is at its
    [x]-th one, [w <= x < 2 * w]; the entry reads the bits that bring [x] back
    to the size of the table. *)
Definition dentry (norm : list Z) (maxSV1 tl u : Z) : FSE_decode_t :=
  let s := zat (state_symbols norm maxSV1 tl) u in
  let x := Z.abs (zat norm s) + rank norm maxSV1 tl u in
  let nb := tl - Z.log2 x in
  mkDecode (x * 2 ^ nb - 2 ^ tl) s nb.

(** No symbol has half of the states. *)
Definition no_large (norm : list Z) (s tl : Z) : bool :=
  forallb (fun i => zat norm i <? 2 ^ (tl - 1)) (seqZ 0 s).

Definition dtable_of (norm : list Z) (maxSV1 tl : Z) : FSE_DTable :=
  mkDTable tl (b2z (no_large norm maxSV1 tl))
    (map (dentry norm maxSV1 tl) (seqZ 0 (2 ^ tl))).

(** ** Lemmas *)

Lemma fill_low_snoc t T L s :
  fill t (low_places T (zlen (L ++ [s]))) (L ++ [s])
  = zupd (fill t (low_places T (zlen L)) L) (T - 1 - zlen L) s.
Proof.
  rewrite zlen_app. change (zlen [s]) with 1.
  rewrite low_places_S by apply zlen_nonneg. apply fill_snoc.
  unfold low_places. rewrite length_map, length_seqZ. unfold zlen. lia.
Qed.

Lemma zat_map_seqZ {A} `{!Inhabited A} (f : Z -> A) n i :
  0 <= i < n -> zat (map f (seqZ 0 n)) i = f i.
Proof.
  intros Hi. unfold zat. rewrite list_lookup_total_alt, map_fmap, list_lookup_fmap.
  rewrite lookup_seqZ_lt by lia. simpl. f_equal. lia.
Qed.
Lemma zlen_map_seqZ {A} (f : Z -> A) n : 0 <= n -> zlen (map f (seqZ 0 n)) = n.
Proof. intros. unfold zlen. rewrite length_map, length_seqZ. lia. Qed.

Lemma no_large_S norm s tl :
  0 <= s -> no_large norm (s + 1) tl = no_large norm s tl && (zat norm s <? 2 ^ (tl - 1)).
Proof.
  intros. unfold no_large. rewrite seqZ_S, forallb_app by lia. simpl. by rewrite andb_true_r.
Qed.

Section build.
Context (norm : list Z) (maxSV1 tl : Z).
Hypothesis Hok : norm_ok norm maxSV1 tl.

Lemma tl_range : 5 <= tl <= 15.
Proof. apply Hok. Qed.
Lemma T_bounds : 32 <= 2 ^ tl <= 32768.
Proof. pose proof (tableSize_bounds tl tl_range). lia. Qed.

Lemma lows_before s :
  0 <= s < maxSV1 -> zat norm s = -1 -> 0 <= zlen (lows norm s) < 2 ^ tl.
Proof.
  intros Hs Hn. split; [apply zlen_nonneg|].
  assert (zlen (lows norm (s + 1)) <= 2 ^ tl) as H.
  { pose proof (split_count norm maxSV1 tl Hok (s + 1) ltac:(lia)) as E.
    destruct Hok as [_ Hmax _ _ Hsum].
    pose proof (cum_mono norm (s + 1) maxSV1 ltac:(lia) ltac:(lia)).
    pose proof (zlen_nonneg (syms_upto norm (s + 1))). lia. }
  rewrite lows_S, Hn, zlen_app in H by lia. change (zlen (if -1 =? -1 then [s] else [])) with 1 in H. lia.
Qed.

(** *** The spreading, on the column where the low symbols are laid *)

Definition after_low (t : list Z) : list Z :=
  fill t (low_places (2 ^ tl) (low_count norm maxSV1)) (lows norm maxSV1).

Lemma after_low_spread t :
  zlen t = 2 ^ tl ->
  fill (after_low t) (places (2 ^ tl) (2 ^ tl - 1 - low_count norm maxSV1) (2 ^ tl))
    (syms_upto norm maxSV1) = state_symbols norm maxSV1 tl.
Proof.
  intros Ht. unfold after_low. rewrite <- fill_app; [by apply state_symbols_any|].
  pose proof (zlen_low_places (2 ^ tl) (low_count norm maxSV1) (zlen_nonneg _)) as E.
  unfold low_count, zlen in *. lia.
Qed.

Lemma spread_slow_phase t :
  zlen t = 2 ^ tl -> low_count norm maxSV1 <> 0 ->
  FSE_spreadSlow (after_low t) norm maxSV1 (2 ^ tl) (FSE_TABLESTEP (2 ^ tl))
    (u32 (2 ^ tl - 1 - low_count norm maxSV1))
  = Ok (state_symbols norm maxSV1 tl, 0).
Proof.
  intros Ht Hlc. pose proof (low_count_range norm maxSV1 tl Hok) as Hr.
  pose proof (syms_count norm maxSV1 tl Hok) as Hsc. pose proof T_bounds. pose proof tl_range.
  rewrite <- (after_low_spread t) by done.
  destruct (Z.eqb_spec (low_count norm maxSV1) (2 ^ tl)) as [E|].
  - assert (syms_upto norm maxSV1 = []) as Hs.
    { unfold zlen in Hsc. apply length_zero_iff_nil. lia. }
    rewrite FSE_spreadSlow_none by (first [apply Hok|done]). rewrite Hs.
    by destruct (places _ _ _).
  - rewrite u32_small by lia. apply FSE_spreadSlow_spec; [done|apply Hok| |lia|lia].
    unfold after_low. by rewrite zlen_fill.
Qed.

Lemma no_lows_nonneg :
  low_count norm maxSV1 = 0 -> forall s, 0 <= s < maxSV1 -> 0 <= zat norm s.
Proof.
  intros Hlc s Hs. destruct (Z.eqb_spec (zat norm s) (-1)) as [E|].
  - assert (s ∈ lows norm maxSV1) as Hin.
    { apply list_elem_of_filter. split; [done|]. apply elem_of_seqZ. lia. }
    unfold low_count, zlen in Hlc.
    destruct (lows norm maxSV1); [|simpl in Hlc; lia]. by apply not_elem_of_nil in Hin.
  - pose proof (nok_counts _ _ _ Hok s Hs). lia.
Qed.

Lemma spread_fast_phase {B} t spread0 (k : list Z * Z -> result B) (Q : B -> Prop) E :
  zlen t = 2 ^ tl -> zlen spread0 = 2 ^ tl + 8 -> low_count norm maxSV1 = 0 ->
  wp (k (state_symbols norm maxSV1 tl, 0)) Q E ->
  wp (let* spread := FSE_layDown spread0 norm maxSV1 in
      let* r := FSE_spreadFast (after_low t) spread (2 ^ tl) (FSE_TABLESTEP (2 ^ tl)) in k r) Q E.
Proof.
  intros Ht Hsp Hlc Hk. pose proof (syms_count norm maxSV1 tl Hok) as Hsc.
  rewrite Hlc, Z.sub_0_r in Hsc. pose proof tl_range.
  apply wp_bind. eapply wp_mono; [apply (FSE_layDown_spec tl norm maxSV1)| |by intros e []]; try done;
    try apply Hok; [by apply no_lows_nonneg|].
  intros spread Hlaid. rewrite (FSE_spreadFast_spec tl norm maxSV1); [|try done..].
  - cbn [bind]. pose proof (after_low_spread t Ht) as E'. rewrite Hlc, Z.sub_0_r in E'.
    by rewrite E'.
  - unfold after_low. by rewrite zlen_fill.
Qed.

(** *** The decoding table *)

Lemma dentry_bounds u :
  0 <= u < 2 ^ tl ->
  let e := dentry norm maxSV1 tl u in
  let x := Z.abs (zat norm (symbol e)) + rank norm maxSV1 tl u in
  1 <= x < 2 ^ (tl + 1) /\ 0 <= nbBits e <= tl /\ x * 2 ^ nbBits e = 2 ^ tl + newState e /\
  0 <= newState e /\ newState e + 2 ^ nbBits e <= 2 ^ tl /\ 0 <= symbol e < maxSV1.
Proof.
  intros Hu. cbn zeta. unfold dentry. cbn [symbol nbBits newState].
  pose proof (state_symbol_range norm maxSV1 tl Hok u Hu) as Hs.
  pose proof (rank_range norm maxSV1 tl Hok u Hu) as Hk.
  pose proof (abs_norm_le norm maxSV1 tl Hok _ Hs) as Hle. pose proof tl_range.
  set (x := Z.abs _ + _). assert (1 <= x < 2 ^ (tl + 1)) as Hx by (rewrite pow2_S by lia; unfold x; lia).
  pose proof (Z.log2_spec x ltac:(lia)) as Hlog. pose proof (Z.log2_nonneg x).
  assert (Z.log2 x < tl + 1) by (apply Z.log2_lt_pow2; lia).
  set (nb := tl - Z.log2 x). assert (2 ^ tl = 2 ^ Z.log2 x * 2 ^ nb) as E.
  { rewrite <- pow2_add by (unfold nb; lia). f_equal. unfold nb. lia. }
  rewrite Z.pow_succ_r in Hlog by lia. pose proof (pow2_pos nb ltac:(unfold nb; lia)).
  rewrite E. split_and!; try (unfold nb; lia); try lia; nia.
Qed.

(** The loop that fills the decoding table from the column of symbols. *)
Lemma build_decoding table symbolNext :
  tl <= 12 -> zlen table = 2 ^ tl -> maxSV1 <= zlen symbolNext ->
  (forall i, 0 <= i < maxSV1 -> zat symbolNext i = Z.abs (zat norm i)) ->
  wp (for_range 0 (2 ^ tl) (fun u '(table, symbolNext) =>
      let* symbol := rd (state_symbols norm maxSV1 tl) u in
      let* nextState := rd symbolNext symbol in
      let* symbolNext := wr symbolNext symbol (u16 (nextState + 1)) in
      REQUIRE negb (nextState =? 0) ;;
      let nbBits := u8 (tl - ZSTD_highbit32 nextState) in
      let newState := u16 (Z.shiftl nextState nbBits - 2 ^ tl) in
      let* table := wr table u (mkDecode newState symbol nbBits) in
      Ok (table, symbolNext)) (table, symbolNext))
    (fun '(table, _) => table = map (dentry norm maxSV1 tl) (seqZ 0 (2 ^ tl))) no_errors.
Proof.
  intros Htl12 Ht Hsn Hinit. pose proof T_bounds as HT. pose proof tl_range as Htl.
  set (syms := state_symbols norm maxSV1 tl).
  apply (wp_for (fun u '(table, symbolNext) => zlen table = 2 ^ tl /\ maxSV1 <= zlen symbolNext /\
    (forall i, 0 <= i < maxSV1 ->
       zat symbolNext i = Z.abs (zat norm i) + occ i (take (Z.to_nat u) syms)) /\
    (forall i, 0 <= i < u -> zat table i = dentry norm maxSV1 tl i))); [lia| | |].
  - split_and!; [done|done| |intros; lia]. intros i Hi. rewrite Hinit by done.
    change (take _ _) with (@nil Z). rewrite occ_nil. lia.
  - intros u [tab sn] Hu (Hlt & Hls & Hsnx & Htab).
    wp_step. wp_step; [unfold syms; by rewrite zlen_state_symbols|].
    pose proof (dentry_bounds u Hu) as Hd. cbn zeta in Hd.
    pose proof (state_symbol_range norm maxSV1 tl Hok u Hu) as Hs. fold syms in Hs.
    set (s := zat syms u) in *. wp_step. wp_step; [lia|].
    assert (zat sn s = Z.abs (zat norm s) + rank norm maxSV1 tl u) as Ex by (by apply Hsnx).
    change (symbol (dentry norm maxSV1 tl u)) with s in Hd. rewrite <- Ex in Hd.
    assert (dentry norm maxSV1 tl u = mkDecode (zat sn s * 2 ^ (tl - Z.log2 (zat sn s)) - 2 ^ tl) s
      (tl - Z.log2 (zat sn s))) as Ed by (by rewrite Ex).
    assert (nbBits (dentry norm maxSV1 tl u) = tl - Z.log2 (zat sn s)) as Enb by (by rewrite Ed).
    assert (newState (dentry norm maxSV1 tl u)
      = zat sn s * 2 ^ (tl - Z.log2 (zat sn s)) - 2 ^ tl) as Ens by (by rewrite Ed).
    rewrite Enb, Ens in Hd. set (x := zat sn s) in *.
    destruct Hd as (Hx & Hnb & _ & Hns0 & Hns & _).
    assert (2 ^ (tl + 1) <= 2 ^ 13) by (apply pow2_le; lia).
    pose proof (pow2_pos (tl - Z.log2 x) ltac:(lia)) as Hpnb.
    wp_step. wp_step; [lia|]. wp_step; [rewrite (proj2 (Z.eqb_neq x 0)) by lia; done|].
    cbv zeta. rewrite highbit32_spec by lia. rewrite u8_small by lia.
    rewrite Z.shiftl_mul_pow2 by lia. rewrite u16_small by lia. rewrite <- Ed.
    wp_step. wp_step; [lia|]. wp_step. split_and!; [by rewrite zlen_zupd..| |].
    + intros i Hi. rewrite occ_take_S by (unfold syms; rewrite zlen_state_symbols; lia).
      rewrite zat_zupd by lia. fold s. rewrite (Z.eqb_sym s i).
      destruct (Z.eqb_spec i s) as [->|]; cbn [b2z].
      * rewrite u16_small by lia.
        unfold x. rewrite (Hsnx s Hs). lia.
      * rewrite Hsnx by done. lia.
    + intros i Hi. rewrite zat_zupd by lia. destruct (Z.eqb_spec i u) as [->|]; [done|].
      apply Htab. lia.
  - intros [tab sn] (Hlt & _ & _ & Htab). apply zat_ext.
    + by rewrite zlen_map_seqZ by lia.
    + intros i Hi. rewrite zat_map_seqZ by lia. apply Htab. lia.
Qed.


(** The loop that lays down the low symbols. *)
Lemma dtable_init table symbolNext :
  zlen table = 2 ^ tl -> maxSV1 <= zlen symbolNext ->
  wp (for_range 0 maxSV1 (fun s '(syms, symbolNext, highThreshold, fastMode) =>
      let* n := rd norm s in
      if n =? -1 then
        let* syms := wr syms highThreshold s in
        let* symbolNext := wr symbolNext s 1 in
        Ok (syms, symbolNext, u32 (highThreshold - 1), fastMode)
      else
        let fastMode := if n >=? s16 (Z.shiftl 1 (tl - 1)) then 0 else fastMode in
        let* symbolNext := wr symbolNext s (u16 n) in
        Ok (syms, symbolNext, highThreshold, fastMode))
      (table, symbolNext, 2 ^ tl - 1, 1))
    (fun '(syms, symbolNext, highThreshold, fastMode) =>
       syms = after_low table /\ maxSV1 <= zlen symbolNext /\
       (forall i, 0 <= i < maxSV1 -> zat symbolNext i = Z.abs (zat norm i)) /\
       highThreshold = u32 (2 ^ tl - 1 - low_count norm maxSV1) /\
       fastMode = b2z (no_large norm maxSV1 tl)) no_errors.
Proof.
  intros Ht Hsn. pose proof T_bounds as HT. pose proof tl_range as Htl.
  assert (s16 (Z.shiftl 1 (tl - 1)) = 2 ^ (tl - 1)) as ->.
  { rewrite Z.shiftl_1_l. apply s16_small. pose proof (pow2_le (tl - 1) 14).
    pose proof (pow2_pos (tl - 1)). lia. }
  apply (wp_for (fun s '(syms, symbolNext, highThreshold, fastMode) =>
    syms = fill table (low_places (2 ^ tl) (zlen (lows norm s))) (lows norm s) /\
    maxSV1 <= zlen symbolNext /\
    (forall i, 0 <= i < s -> zat symbolNext i = Z.abs (zat norm i)) /\
    highThreshold = u32 (2 ^ tl - 1 - zlen (lows norm s)) /\
    fastMode = b2z (no_large norm s tl))); [apply Hok| | |done].
  - split_and!; [done|done|lia| |done]. change (zlen (lows norm 0)) with 0.
    rewrite u32_small by lia. lia.
  - intros s [[[syms sn] high] fm] Hs (-> & Hl & Hsnx & -> & ->).
    pose proof (nok_counts _ _ _ Hok s Hs) as Hn. pose proof (nok_max _ _ _ Hok) as Hmax.
    pose proof (abs_norm_le norm maxSV1 tl Hok s Hs) as Hle.
    wp_step. wp_step; [lia|]. rewrite lows_S, no_large_S by lia.
    destruct (Z.eqb_spec (zat norm s) (-1)) as [E|E].
    + pose proof (lows_before s Hs E) as Hlow. rewrite u32_small by lia.
      wp_step. wp_step; [rewrite zlen_fill; lia|]. wp_step. wp_step; [lia|]. wp_step.
      split_and!.
      * by rewrite fill_low_snoc.
      * by rewrite zlen_zupd.
      * intros i Hi. rewrite zat_zupd by lia. destruct (Z.eqb_spec i s) as [->|]; [lia|].
        apply Hsnx. lia.
      * rewrite zlen_app. change (zlen [s]) with 1. f_equal. lia.
      * rewrite E. rewrite (proj2 (Z.ltb_lt _ _)), andb_true_r; [done|].
        pose proof (pow2_pos (tl - 1)). lia.
    + wp_step. wp_step. wp_step; [lia|]. wp_step. rewrite app_nil_r. split_and!; [done|by rewrite zlen_zupd| |done|].
      * intros i Hi. rewrite zat_zupd by lia. destruct (Z.eqb_spec i s) as [->|].
        -- rewrite u16_small; lia.
        -- apply Hsnx. lia.
      * rewrite Z.geb_leb, Z.leb_antisym. destruct (zat norm s <? 2 ^ (tl - 1)); simpl negb; cbv iota.
        -- by rewrite andb_true_r.
        -- by rewrite andb_false_r.
Qed.

Lemma map_symbol_zlen (table : list FSE_decode_t) : zlen (map symbol table) = zlen table.
Proof. unfold zlen. by rewrite length_map. Qed.

Lemma high_eq : (u32 (2 ^ tl - 1 - low_count norm maxSV1) =? 2 ^ tl - 1) = (low_count norm maxSV1 =? 0).
Proof.
  pose proof T_bounds as HT. pose proof (low_count_range norm maxSV1 tl Hok) as Hlc.
  destruct (Z.eqb_spec (low_count norm maxSV1) (2 ^ tl)) as [->|].
  - replace (2 ^ tl - 1 - 2 ^ tl) with (-1) by lia. change (u32 (-1)) with (2 ^ 32 - 1).
    rewrite !(proj2 (Z.eqb_neq _ _)) by lia. done.
  - rewrite u32_small by lia. apply eq_true_iff_eq. rewrite !Z.eqb_eq. lia.
Qed.

Lemma buildDTable_ok table symbolNext spread wkspSize :
  tl <= 12 -> zlen table = 2 ^ tl -> zlen symbolNext = maxSV1 -> zlen spread = 2 ^ tl + 8 ->
  FSE_BUILD_DTABLE_WKSP_SIZE tl (maxSV1 - 1) <= wkspSize ->
  FSE_buildDTable_internal table norm (maxSV1 - 1) tl symbolNext spread wkspSize
  = Ok (dtable_of norm maxSV1 tl).
Proof.
  intros Htl12 Ht Hsn Hsp Hwk. pose proof T_bounds as HT. pose proof tl_range as Htl.
  assert (wp (FSE_buildDTable_internal table norm (maxSV1 - 1) tl symbolNext spread wkspSize)
    (fun d => d = dtable_of norm maxSV1 tl) no_errors) as Hwp.
  2: { by destruct (wp_no_errors_Ok _ _ Hwp) as (d & -> & ->). }
  unfold FSE_buildDTable_internal. cbv zeta.
  replace (u32 (Z.shiftl 1 tl)) with (2 ^ tl) by (rewrite Z.shiftl_1_l, u32_small; lia).
  replace (maxSV1 - 1 + 1) with maxSV1 by lia.
  pose proof (nok_max256 _ _ _ Hok). pose proof (low_count_range norm maxSV1 tl Hok) as Hlc.
  wp_step; [lia|]. wp_step; [unfold FSE_MAX_SYMBOL_VALUE in *; lia|].
  wp_step; [unfold FSE_MAX_TABLELOG, FSE_MAX_MEMORY_USAGE in *; lia|].
  wp_step. eapply wp_mono; [apply dtable_init; [by rewrite map_symbol_zlen|lia]| |done].
  intros [[[syms sn] high] fm] (-> & Hlsn & Hsnx & -> & ->).
  rewrite high_eq. wp_step.
  assert (forall syms, syms = state_symbols norm maxSV1 tl ->
    wp (let* '(table0, _) := for_range 0 (2 ^ tl) (fun u '(table0, symbolNext0) =>
          let* symbol0 := rd syms u in
          let* nextState := rd symbolNext0 symbol0 in
          let* symbolNext1 := wr symbolNext0 symbol0 (u16 (nextState + 1)) in
          REQUIRE negb (nextState =? 0) ;;
          let* table1 := wr table0 u (mkDecode
            (u16 (Z.shiftl nextState (u8 (tl - ZSTD_highbit32 nextState)) - 2 ^ tl)) symbol0
            (u8 (tl - ZSTD_highbit32 nextState))) in
          Ok (table1, symbolNext1)) (table, sn) in
        Ok (mkDTable (u16 tl) (b2z (no_large norm maxSV1 tl)) table0))
      (fun d => d = dtable_of norm maxSV1 tl) no_errors) as Hbuild.
  { intros syms ->. wp_step. eapply wp_mono; [apply build_decoding; [lia|done|lia|done]| |done].
    intros [tab sn'] ->. wp_step. unfold dtable_of. by rewrite u16_small by lia. }
  destruct (Z.eqb_spec (low_count norm maxSV1) 0) as [E0|E0].
  - apply spread_fast_phase; [by rewrite map_symbol_zlen|done|done|]. wp_step. by apply Hbuild.
  - rewrite spread_slow_phase by (first [done|by rewrite map_symbol_zlen]). cbn [bind].
    wp_step; [done|]. wp_step. by apply Hbuild.
Qed.

End build.
