(* ===== verification/FseBuildC.v ===== *)
(** The encoding table: [FSE_buildCTable_wksp] is total on every normalised
    count, and its state table is indexed by symbol and rank. *)

From S2P Require Import Prelude Errors Outcome Bits Mem FseTable FseSpread FseSymbols FseBuild.

(** ** Definitions *)

(** [deltaNbBits] of a symbol of [w] states. *)
Definition delta_nb (tl w : Z) : Z :=
  if w =? 0 then (tl + 1) * 2 ^ 16 - 2 ^ tl
  else if w =? 1 then tl * 2 ^ 16 - 2 ^ tl
  else let m := tl - Z.log2 (w - 1) in m * 2 ^ 16 - w * 2 ^ m.

(** What the encoder relies on. *)
Record ctable_ok (norm : list Z) (maxSV1 tl : Z) (ct : FSE_CTable) : Prop := {
  cto_log : ct_tableLog ct = tl;
  cto_max : ct_maxSymbolValue ct = maxSV1 - 1;
  cto_len : 2 ^ tl <= zlen (ct_stateTable ct);
  cto_lenTT : maxSV1 <= zlen (ct_symbolTT ct);
  cto_state : forall u, 0 <= u < 2 ^ tl ->
    let s := zat (state_symbols norm maxSV1 tl) u in
    zat (ct_stateTable ct) (cum norm s + rank norm maxSV1 tl u) = 2 ^ tl + u;
  cto_nb : forall s, 0 <= s < maxSV1 ->
    deltaNbBits (zat (ct_symbolTT ct) s) = delta_nb tl (Z.abs (zat norm s));
  cto_find : forall s, 0 <= s < maxSV1 -> zat norm s <> 0 ->
    deltaFindState (zat (ct_symbolTT ct) s) = cum norm s - Z.abs (zat norm s);
}.

(** ** Lemmas *)

Section build.
Context (norm : list Z) (maxSV1 tl : Z).
Hypothesis Hok : norm_ok norm maxSV1 tl.

Let Htl := tl_range norm maxSV1 tl Hok.
Let HT := T_bounds norm maxSV1 tl Hok.

Lemma cum_le_T s : 0 <= s <= maxSV1 -> 0 <= cum norm s <= 2 ^ tl.
Proof.
  intros Hs. pose proof Hok as [_ Hmax _ _ E]. rewrite <- E. split.
  - apply cum_nonneg. lia.
  - apply cum_mono; lia.
Qed.

Lemma cum_next s : 0 <= s < maxSV1 -> cum norm (s + 1) = cum norm s + Z.abs (zat norm s).
Proof. intros. apply cum_S. pose proof (nok_max _ _ _ Hok). lia. Qed.

(** The slots of the states are distinct. *)
Lemma slot_range u :
  0 <= u < 2 ^ tl ->
  let s := zat (state_symbols norm maxSV1 tl) u in
  cum norm s <= cum norm s + rank norm maxSV1 tl u < cum norm (s + 1) /\
  cum norm (s + 1) <= 2 ^ tl.
Proof.
  intros Hu s. pose proof (state_symbol_range norm maxSV1 tl Hok u Hu) as Hs. fold s in Hs.
  pose proof (rank_range norm maxSV1 tl Hok u Hu) as Hk. fold s in Hk.
  rewrite cum_next by done. pose proof (cum_le_T (s + 1) ltac:(lia)) as H. rewrite cum_next in H by done. lia.
Qed.

Lemma slot_inj u v :
  0 <= u < 2 ^ tl -> 0 <= v < 2 ^ tl ->
  cum norm (zat (state_symbols norm maxSV1 tl) u) + rank norm maxSV1 tl u
  = cum norm (zat (state_symbols norm maxSV1 tl) v) + rank norm maxSV1 tl v -> u = v.
Proof.
  intros Hu Hv E. pose proof (slot_range u Hu) as Ru. pose proof (slot_range v Hv) as Rv.
  cbn zeta in Ru, Rv. pose proof (state_symbol_range norm maxSV1 tl Hok u Hu) as Hsu.
  pose proof (state_symbol_range norm maxSV1 tl Hok v Hv) as Hsv.
  pose proof (nok_max _ _ _ Hok) as Hmax. set (su := zat _ u) in *. set (sv := zat _ v) in *.
  assert (su = sv) as Es.
  { destruct (Z.lt_trichotomy su sv) as [H|[H|H]]; [|done|].
    - pose proof (cum_mono norm (su + 1) sv ltac:(lia) ltac:(lia)). lia.
    - pose proof (cum_mono norm (sv + 1) su ltac:(lia) ltac:(lia)). lia. }
  rewrite Es in E. apply (occ_inj (state_symbols norm maxSV1 tl)); rewrite ?zlen_state_symbols; try done.
  unfold rank in E. fold su sv in E |- *. rewrite Es in *. lia.
Qed.

(** The loop over the counts. *)
Lemma ctable_init cumul tableSymbol :
  zlen cumul = maxSV1 + 1 -> zlen tableSymbol = 2 ^ tl -> zat cumul 0 = 0 ->
  wp (for_range 1 (maxSV1 + 1) (fun u '(cumul, tableSymbol, highThreshold) =>
      let* n := rd norm (u - 1) in
      let* prev := rd cumul (u - 1) in
      if n =? -1 then
        let* cumul := wr cumul u (u16 (prev + 1)) in
        let* tableSymbol := wr tableSymbol highThreshold (u8 (u - 1)) in
        Ok (cumul, tableSymbol, u32 (highThreshold - 1))
      else
        let* cumul := wr cumul u (u16 (prev + u16 n)) in
        Ok (cumul, tableSymbol, highThreshold)) (cumul, tableSymbol, 2 ^ tl - 1))
    (fun '(cumul, tableSymbol', highThreshold) =>
       zlen cumul = maxSV1 + 1 /\ (forall i, 0 <= i <= maxSV1 -> zat cumul i = cum norm i) /\
       tableSymbol' = after_low norm maxSV1 tl tableSymbol /\
       highThreshold = u32 (2 ^ tl - 1 - low_count norm maxSV1)) no_errors.
Proof.
  intros Hlc Hlt H0. pose proof (nok_max _ _ _ Hok) as Hmax.
  apply (wp_for (fun u '(cumul, tab, highThreshold) =>
    zlen cumul = maxSV1 + 1 /\ (forall i, 0 <= i < u -> zat cumul i = cum norm i) /\
    tab = fill tableSymbol (low_places (2 ^ tl) (zlen (lows norm (u - 1)))) (lows norm (u - 1)) /\
    highThreshold = u32 (2 ^ tl - 1 - zlen (lows norm (u - 1))))); [lia| | |].
  - change (zlen (lows norm (1 - 1))) with 0. rewrite u32_small by lia. split_and!; try done; [|lia].
    intros i Hi. replace i with 0 by lia. done.
  - intros u [[cm tab] high] Hu (Hl & Hc & -> & ->).
    pose proof (nok_counts _ _ _ Hok (u - 1) ltac:(lia)) as Hn.
    pose proof (abs_norm_le norm maxSV1 tl Hok (u - 1) ltac:(lia)) as Hle.
    pose proof (cum_le_T u ltac:(lia)) as Hcu. pose proof (cum_next (u - 1) ltac:(lia)) as Ecu.
    replace (u - 1 + 1) with u in Ecu by lia.
    pose proof (cum_le_T (u - 1) ltac:(lia)) as Hcu1.
    wp_step. wp_step; [lia|]. wp_step. wp_step; [lia|]. rewrite Hc by lia.
    replace (u + 1 - 1) with ((u - 1) + 1) by lia. rewrite lows_S by lia.
    destruct (Z.eqb_spec (zat norm (u - 1)) (-1)) as [E|E].
    + pose proof (lows_before norm maxSV1 tl Hok (u - 1) ltac:(lia) E) as Hlow. rewrite (u32_small (_ - _ - _)) by lia.
      wp_step. wp_step; [lia|]. wp_step. wp_step; [rewrite zlen_fill; lia|]. wp_step.
      pose proof (nok_max256 _ _ _ Hok). rewrite u8_small by lia.
      split_and!; [by rewrite zlen_zupd| |by rewrite fill_low_snoc|].
      * intros i Hi. rewrite zat_zupd by lia. destruct (Z.eqb_spec i u) as [->|]; [|apply Hc; lia].
        rewrite u16_small; lia.
      * rewrite zlen_app. change (zlen [u - 1]) with 1. f_equal. lia.
    + wp_step. wp_step; [lia|]. wp_step. rewrite app_nil_r.
      split_and!; [by rewrite zlen_zupd| |done|done].
      intros i Hi. rewrite zat_zupd by lia. destruct (Z.eqb_spec i u) as [->|]; [|apply Hc; lia].
      rewrite (u16_small (zat _ _)) by lia. rewrite u16_small; lia.
  - intros [[cm tab] high]. replace (maxSV1 + 1 - 1) with maxSV1 by lia.
    intros (Hl & Hc & -> & ->). split_and!; try done. intros. apply Hc. lia.
Qed.

(** The loop that fills the state table. *)
Lemma ctable_states stateTable cumul :
  2 ^ tl <= zlen stateTable -> maxSV1 <= zlen cumul ->
  (forall i, 0 <= i < maxSV1 -> zat cumul i = cum norm i) ->
  wp (for_range 0 (2 ^ tl) (fun u '(stateTable, cumul) =>
      let* s := rd (state_symbols norm maxSV1 tl) u in
      let* c := rd cumul s in
      let* stateTable := wr stateTable c (u16 (2 ^ tl + u)) in
      let* cumul := wr cumul s (u16 (c + 1)) in
      Ok (stateTable, cumul)) (stateTable, cumul))
    (fun '(stateTable, _) => 2 ^ tl <= zlen stateTable /\
       forall u, 0 <= u < 2 ^ tl ->
         zat stateTable (cum norm (zat (state_symbols norm maxSV1 tl) u) + rank norm maxSV1 tl u)
         = 2 ^ tl + u) no_errors.
Proof.
  intros Hst Hlc Hcum. set (syms := state_symbols norm maxSV1 tl).
  apply (wp_for (fun u '(stateTable, cumul) =>
    2 ^ tl <= zlen stateTable /\ maxSV1 <= zlen cumul /\
    (forall i, 0 <= i < maxSV1 -> zat cumul i = cum norm i + occ i (take (Z.to_nat u) syms)) /\
    (forall v, 0 <= v < u -> zat stateTable (cum norm (zat syms v) + rank norm maxSV1 tl v)
       = 2 ^ tl + v))); [lia| | |].
  - split_and!; [done|done| |intros; lia]. intros i Hi. rewrite Hcum by done.
    change (take _ _) with (@nil Z). rewrite occ_nil. lia.
  - intros u [st cm] Hu (Hl & Hl' & Hc & Hs).
    pose proof (state_symbol_range norm maxSV1 tl Hok u Hu) as Hsr. fold syms in Hsr.
    pose proof (slot_range u Hu) as Hslot. cbn zeta in Hslot. fold syms in Hslot.
    assert (0 <= cum norm (zat syms u)) as Hc0 by (apply cum_le_T; lia).
    wp_step. wp_step; [unfold syms; by rewrite zlen_state_symbols|]. wp_step. wp_step; [lia|].
    rewrite (Hc (zat syms u)) by done. change (occ (zat syms u) _) with (rank norm maxSV1 tl u).
    wp_step. wp_step; [lia|]. wp_step. wp_step; [lia|]. wp_step.
    rewrite !u16_small by lia. split_and!; [by rewrite zlen_zupd|by rewrite zlen_zupd| |].
    + intros i Hi. rewrite occ_take_S by (unfold syms; rewrite zlen_state_symbols; lia).
      rewrite zat_zupd by lia. rewrite (Z.eqb_sym (zat syms u) i).
      destruct (Z.eqb_spec i (zat syms u)) as [->|]; cbn [b2z].
      * change (occ (zat syms u) _) with (rank norm maxSV1 tl u). lia.
      * rewrite Hc by done. lia.
    + intros v Hv. pose proof (slot_range v ltac:(lia)) as Hslv. cbn zeta in Hslv. fold syms in Hslv.
      pose proof (state_symbol_range norm maxSV1 tl Hok v ltac:(lia)) as Hsv. fold syms in Hsv.
      assert (0 <= cum norm (zat syms v)) by (apply cum_le_T; lia).
      rewrite zat_zupd by lia. destruct (Z.eqb_spec (cum norm (zat syms v) + rank norm maxSV1 tl v)
        (cum norm (zat syms u) + rank norm maxSV1 tl u)) as [E|].
      * by rewrite (slot_inj v u) by (first [lia|exact E]).
      * apply Hs. destruct (Z.eqb_spec v u) as [->|]; [done|lia].
  - intros [st cm] (Hl & _ & _ & Hs). done.
Qed.

Lemma delta_nb_range w : 0 <= w <= 2 ^ tl -> 0 <= delta_nb tl w < 2 ^ 21.
Proof.
  intros Hw. unfold delta_nb. destruct (Z.eqb_spec w 0); [lia|]. destruct (Z.eqb_spec w 1); [lia|].
  cbv zeta. pose proof (Z.log2_spec (w - 1) ltac:(lia)) as Hlog. pose proof (Z.log2_nonneg (w - 1)).
  assert (Z.log2 (w - 1) < tl) by (apply Z.log2_lt_pow2; lia).
  set (m := tl - Z.log2 (w - 1)) in *. rewrite Z.pow_succ_r in Hlog by lia.
  assert (2 ^ tl = 2 ^ Z.log2 (w - 1) * 2 ^ m) as E.
  { rewrite <- pow2_add by (unfold m; lia). f_equal. unfold m. lia. }
  pose proof (pow2_pos m ltac:(unfold m; lia)). assert (1 <= m <= 15) by (unfold m; lia). nia.
Qed.

(** The loop that fills the transformation table. *)
Lemma ctable_symbols symbolTT :
  maxSV1 <= zlen symbolTT ->
  wp (for_range 0 maxSV1 (fun s '(symbolTT, total) =>
      let* n := rd norm s in
      let* old := rd symbolTT s in
      if n =? 0 then
        let* symbolTT := wr symbolTT s
          (mkSymbolTT (deltaFindState old) (u32 (Z.shiftl (tl + 1) 16 - Z.shiftl 1 tl))) in
        Ok (symbolTT, total)
      else if (n =? -1) || (n =? 1) then
        let* symbolTT := wr symbolTT s
          (mkSymbolTT (s32 (total - 1)) (u32 (Z.shiftl tl 16 - Z.shiftl 1 tl))) in
        Ok (symbolTT, u32 (total + 1))
      else
        REQUIRE n >? 1 ;;
        let maxBitsOut := u32 (tl - ZSTD_highbit32 (n - 1)) in
        let minStatePlus := u32 (Z.shiftl n maxBitsOut) in
        let* symbolTT := wr symbolTT s
          (mkSymbolTT (s32 (total - n)) (u32 (Z.shiftl maxBitsOut 16 - minStatePlus))) in
        Ok (symbolTT, u32 (total + n))) (symbolTT, 0))
    (fun '(symbolTT, _) => maxSV1 <= zlen symbolTT /\ forall s, 0 <= s < maxSV1 ->
       deltaNbBits (zat symbolTT s) = delta_nb tl (Z.abs (zat norm s)) /\
       (zat norm s <> 0 ->
          deltaFindState (zat symbolTT s) = cum norm s - Z.abs (zat norm s))) no_errors.
Proof.
  intros Hl0. pose proof (nok_max _ _ _ Hok) as Hmax.
  apply (wp_for (fun s '(tab, total) => maxSV1 <= zlen tab /\ total = cum norm s /\
    forall i, 0 <= i < s ->
       deltaNbBits (zat tab i) = delta_nb tl (Z.abs (zat norm i)) /\
       (zat norm i <> 0 -> deltaFindState (zat tab i) = cum norm i - Z.abs (zat norm i))));
    [lia|split_and!; [done|done|intros; lia]| |].
  2: { intros [tt' total] (Hl & _ & H). done. }
  intros s [tt' total] Hs (Hl & -> & Htt).
  pose proof (nok_counts _ _ _ Hok s Hs) as Hn. pose proof (abs_norm_le norm maxSV1 tl Hok s Hs) as Hle.
  pose proof (cum_le_T s ltac:(lia)) as Hcs. pose proof (cum_le_T (s + 1) ltac:(lia)) as Hcs1.
  pose proof (cum_next s Hs) as Ecs. assert (0 <= delta_nb tl (Z.abs (zat norm s)) < 2 ^ 21) as Hdr by (apply delta_nb_range; lia).
  assert (forall e total', deltaNbBits e = delta_nb tl (Z.abs (zat norm s)) ->
    (zat norm s <> 0 -> deltaFindState e = cum norm s - Z.abs (zat norm s)) ->
    total' = cum norm (s + 1) ->
    wp (let* symbolTT := wr tt' s e in Ok (symbolTT, total'))
      (fun '(tab, total) => maxSV1 <= zlen tab /\ total = cum norm (s + 1) /\
        forall i, 0 <= i < s + 1 ->
        deltaNbBits (zat tab i) = delta_nb tl (Z.abs (zat norm i)) /\
        (zat norm i <> 0 -> deltaFindState (zat tab i) = cum norm i - Z.abs (zat norm i)))
      no_errors) as Hwr.
  { intros e total' E1 E2 ->. wp_step. wp_step; [lia|]. wp_step.
    split_and!; [by rewrite zlen_zupd|done|]. intros i Hi. rewrite zat_zupd by lia.
    destruct (Z.eqb_spec i s) as [->|]; [done|]. apply Htt. lia. }
  wp_step. wp_step; [lia|]. wp_step. wp_step; [lia|]. rewrite !(Z.shiftl_mul_pow2 _ 16), Z.shiftl_1_l by lia.
  unfold delta_nb in *.
  destruct (Z.eqb_spec (zat norm s) 0) as [E|E].
  { apply Hwr; cbn [deltaNbBits deltaFindState]; [|done|lia]. rewrite E in *.
    change (Z.abs 0 =? 0) with true in *. cbv iota in *. rewrite u32_small; lia. }
  rewrite (proj2 (Z.eqb_neq _ 0)) in * by lia.
  destruct ((zat norm s =? -1) || (zat norm s =? 1)) eqn:E1.
  { assert (Z.abs (zat norm s) = 1) as Ea.
    { apply orb_true_iff in E1. rewrite !Z.eqb_eq in E1. lia. }
    rewrite Ea in *. change (1 =? 1) with true in *. cbv iota in *.
    apply Hwr; cbn [deltaNbBits deltaFindState]; [rewrite u32_small; lia|intros; rewrite s32_small; lia|].
    rewrite u32_small; lia. }
  bools. rewrite Z.abs_eq in * by lia. rewrite (proj2 (Z.eqb_neq _ 1)) in * by lia. cbv zeta in *.
  wp_step; [rewrite Z.gtb_ltb; apply Z.ltb_lt; lia|]. cbv zeta.
  rewrite highbit32_spec by lia.
  assert (Z.log2 (zat norm s - 1) < tl) by (apply Z.log2_lt_pow2; lia).
  pose proof (Z.log2_nonneg (zat norm s - 1)).
  set (m := tl - Z.log2 (zat norm s - 1)) in *. assert (1 <= m <= 15) by (unfold m; lia).
  rewrite (u32_small m), !Z.shiftl_mul_pow2 by lia.
  assert (0 <= zat norm s * 2 ^ m < 2 ^ 32).
  { pose proof (pow2_le m 15 ltac:(lia)). pose proof (pow2_pos m ltac:(lia)). nia. }
  rewrite (u32_small (zat norm s * 2 ^ m)) by lia.
  apply Hwr; cbn [deltaNbBits deltaFindState]; [rewrite u32_small; lia|intros; rewrite s32_small; lia|].
  rewrite u32_small; lia.
Qed.

Lemma buildCTable_ok stateTable symbolTT cumul tableSymbol spread wkspSize :
  zlen stateTable = 2 ^ tl -> zlen symbolTT = maxSV1 ->
  zlen cumul = maxSV1 + 1 -> zlen tableSymbol = 2 ^ tl -> zlen spread = 2 ^ tl + 8 ->
  FSE_BUILD_CTABLE_WORKSPACE_SIZE (maxSV1 - 1) tl <= wkspSize ->
  wp (FSE_buildCTable_wksp stateTable symbolTT norm (maxSV1 - 1) tl cumul tableSymbol spread wkspSize)
    (ctable_ok norm maxSV1 tl) no_errors.
Proof.
  intros Hst Htt Hcu Hts Hsp Hwk. pose proof (nok_max _ _ _ Hok) as Hmax.
  pose proof (nok_max256 _ _ _ Hok) as Hm256. pose proof (low_count_range norm maxSV1 tl Hok) as Hlc.
  unfold FSE_buildCTable_wksp. cbv zeta.
  replace (u32 (Z.shiftl 1 tl)) with (2 ^ tl) by (rewrite Z.shiftl_1_l, u32_small; lia).
  replace (maxSV1 - 1 + 1) with maxSV1 by lia.
  wp_step; [lia|]. wp_step. wp_step; [lia|].
  wp_step. eapply wp_mono; [apply ctable_init; [by rewrite zlen_zupd|done|apply zat_zupd_eq; lia]| |done].
  intros [[cm tab] high] (Hlcm & Hcm & -> & ->). wp_step. wp_step; [lia|].
  assert (u32 (2 ^ tl - 1 - low_count norm maxSV1) =? 2 ^ tl - 1 = (low_count norm maxSV1 =? 0)) as Ehigh.
  { destruct (Z.eqb_spec (low_count norm maxSV1) (2 ^ tl)) as [->|].
    - replace (2 ^ tl - 1 - 2 ^ tl) with (-1) by lia. change (u32 (-1)) with (2 ^ 32 - 1).
      rewrite !(proj2 (Z.eqb_neq _ _)) by lia. done.
    - rewrite u32_small by lia. apply eq_true_iff_eq. rewrite !Z.eqb_eq. lia. }
  rewrite Ehigh. wp_step.
  assert (maxSV1 <> 0) as Hne.
  { intros E. pose proof (nok_sum _ _ _ Hok) as Hs. rewrite E, cum_0 in Hs. lia. }
  match goal with |- wp _ ?Q _ => assert (Q (state_symbols norm maxSV1 tl, 0)) as Hrest end.
  { cbn beta iota. wp_step. eapply wp_mono; [apply (ctable_states _ (zupd cm maxSV1 _)); rewrite ?zlen_zupd; [lia|lia|]| |done].
    { intros i Hi. rewrite zat_zupd_ne by lia. apply Hcm. lia. }
    intros [st cm'] (Hlst & Hsts). wp_step. eapply wp_mono; [apply ctable_symbols; lia| |done].
    intros [tt' tot] (Hltt & Hs). wp_step. rewrite !u16_small by lia.
    constructor; cbn [ct_tableLog ct_maxSymbolValue ct_stateTable ct_symbolTT];
      first [done|lia|exact Hsts|intros s Hsr; by apply Hs]. }
  destruct (Z.eqb_spec (low_count norm maxSV1) 0) as [E0|E0].
  - pose proof (spread_fast_phase norm maxSV1 tl Hok tableSymbol spread Ok) as Hf.
    match goal with |- wp _ ?Q _ => specialize (Hf Q no_errors Hts Hsp E0 Hrest) end.
    unfold bind in Hf |- *. destruct (FSE_layDown _ _ _); try done.
    by destruct (FSE_spreadFast _ _ _ _).
  - rewrite spread_slow_phase by done. exact Hrest.
Qed.

End build.
