(* ===== verification/FseCodec.v ===== *)
(** Coding one symbol with the tables (the inlined functions of common/fse.h):
    a decoding step undoes the encoding step. *)

From S2P Require Import Prelude Errors Outcome Bits Mem BitStream FseTable FseSpread FseSymbols FseBuild FseBuildC.

(** ** Definitions *)

Record FSE_CState_t := mkCState {
  cs_value : Z;
  cs_stateTable : list Z;
  cs_symbolTT : list FSE_symbolCompressionTransform;
  cs_stateLog : Z;
}.

Definition FSE_initCState (ct : FSE_CTable) : FSE_CState_t :=
  let tableLog := ct_tableLog ct in
  mkCState (Z.shiftl 1 tableLog) (ct_stateTable ct) (ct_symbolTT ct) tableLog.

Definition FSE_initCState2 (ct : FSE_CTable) (symbol : Z) : result FSE_CState_t :=
  let st := FSE_initCState ct in
  let* symbolTT := rd (cs_symbolTT st) symbol in
  let nbBitsOut := Z.shiftr (u32 (deltaNbBits symbolTT + Z.shiftl 1 15)) 16 in
  let value := u32 (u32 (Z.shiftl nbBitsOut 16) - deltaNbBits symbolTT) in
  let* value := rd (cs_stateTable st) (Z.shiftr value nbBitsOut + deltaFindState symbolTT) in
  Ok (mkCState value (cs_stateTable st) (cs_symbolTT st) (cs_stateLog st)).

Definition FSE_encodeSymbol (bitC : BIT_CStream_t) (st : FSE_CState_t) (symbol : Z)
  : result (BIT_CStream_t * FSE_CState_t) :=
  let* symbolTT := rd (cs_symbolTT st) symbol in
  let nbBitsOut := u32 (Z.shiftr (cs_value st + deltaNbBits symbolTT) 16) in
  let* bitC := BIT_addBits bitC (cs_value st) nbBitsOut in
  let* value := rd (cs_stateTable st) (Z.shiftr (cs_value st) nbBitsOut + deltaFindState symbolTT) in
  Ok (bitC, mkCState value (cs_stateTable st) (cs_symbolTT st) (cs_stateLog st)).

Definition FSE_flushCState (mem : list Z) (bitC : BIT_CStream_t) (st : FSE_CState_t)
  : result (list Z * BIT_CStream_t) :=
  let* bitC := BIT_addBits bitC (cs_value st) (cs_stateLog st) in
  BIT_flushBits mem bitC.

(** Approximate costs of a symbol. *)
Definition FSE_getMaxNbBits (symbolTT : list FSE_symbolCompressionTransform) (symbolValue : Z)
  : result Z :=
  let* t := rd symbolTT symbolValue in
  Ok (Z.shiftr (u32 (deltaNbBits t + (Z.shiftl 1 16 - 1))) 16).

Definition FSE_bitCost (symbolTT : list FSE_symbolCompressionTransform)
    (tableLog symbolValue accuracyLog : Z) : result Z :=
  let* t := rd symbolTT symbolValue in
  let minNbBits := Z.shiftr (deltaNbBits t) 16 in
  let threshold := u32 (Z.shiftl (minNbBits + 1) 16) in
  let tableSize := u32 (Z.shiftl 1 tableLog) in
  let deltaFromThreshold := u32 (threshold - u32 (deltaNbBits t + tableSize)) in
  let normalizedDeltaFromThreshold :=
    Z.shiftr (u32 (Z.shiftl deltaFromThreshold accuracyLog)) tableLog in
  let bitMultiplier := u32 (Z.shiftl 1 accuracyLog) in
  Ok (u32 (u32 ((minNbBits + 1) * bitMultiplier) - normalizedDeltaFromThreshold)).

Record FSE_DState_t := mkDState {
  ds_state : Z;
  ds_table : list FSE_decode_t;
}.

Definition FSE_initDState (src : list Z) (bitD : BIT_DStream_t) (dt : FSE_DTable)
  : result (FSE_DState_t * BIT_DStream_t) :=
  let* '(state, bitD) := BIT_readBits bitD (dt_tableLog dt) in
  let* '(_, bitD) := BIT_reloadDStream src bitD in
  Ok (mkDState state (dt_table dt), bitD).

Definition FSE_peekSymbol (st : FSE_DState_t) : result Z :=
  let* DInfo := rd (ds_table st) (ds_state st) in
  Ok (symbol DInfo).

Definition FSE_updateState (st : FSE_DState_t) (bitD : BIT_DStream_t)
  : result (FSE_DState_t * BIT_DStream_t) :=
  let* DInfo := rd (ds_table st) (ds_state st) in
  let* '(lowBits, bitD) := BIT_readBits bitD (nbBits DInfo) in
  Ok (mkDState (newState DInfo + lowBits) (ds_table st), bitD).

Definition FSE_decodeSymbol (st : FSE_DState_t) (bitD : BIT_DStream_t)
  : result (Z * FSE_DState_t * BIT_DStream_t) :=
  let* DInfo := rd (ds_table st) (ds_state st) in
  let* '(lowBits, bitD) := BIT_readBits bitD (nbBits DInfo) in
  Ok (symbol DInfo, mkDState (newState DInfo + lowBits) (ds_table st), bitD).

(** Unsafe when a symbol has a probability above one half. *)
Definition FSE_decodeSymbolFast (st : FSE_DState_t) (bitD : BIT_DStream_t)
  : result (Z * FSE_DState_t * BIT_DStream_t) :=
  let* DInfo := rd (ds_table st) (ds_state st) in
  let* '(lowBits, bitD) := BIT_readBitsFast bitD (nbBits DInfo) in
  Ok (symbol DInfo, mkDState (newState DInfo + lowBits) (ds_table st), bitD).

Definition FSE_endOfDState (st : FSE_DState_t) : bool := ds_state st =? 0.

(** ** Lemmas *)

(** The encoding step on the state [v] for a symbol of [w] states: the number of
    bits put out. *)
Definition enc_nb (tl w v : Z) : Z := (v + delta_nb tl w) / 2 ^ 16.

(** The state after coding symbol [s]: that of the symbol's [v / 2 ^ nb]-th one. *)
Definition enc_state (norm : list Z) (ct : FSE_CTable) (tl s v : Z) : Z :=
  let w := Z.abs (zat norm s) in
  zat (ct_stateTable ct) (v / 2 ^ enc_nb tl w v + cum norm s - w).
Definition init_state (norm : list Z) (ct : FSE_CTable) (s : Z) : Z :=
  zat (ct_stateTable ct) (cum norm s).

Section codec.
Context (norm : list Z) (maxSV1 tl : Z) (ct : FSE_CTable).
Hypothesis Hok : norm_ok norm maxSV1 tl.
Hypothesis Hct : ctable_ok norm maxSV1 tl ct.

Let Htl := tl_range norm maxSV1 tl Hok.
Let HT := T_bounds norm maxSV1 tl Hok.

(** The bits put out bring the state to the range of the symbol. *)
Lemma enc_nb_spec w v :
  0 < w <= 2 ^ tl -> 2 ^ tl <= v < 2 ^ (tl + 1) ->
  let nb := enc_nb tl w v in
  0 <= nb <= tl /\ w <= v / 2 ^ nb < 2 * w /\ nb = tl - Z.log2 (v / 2 ^ nb).
Proof.
  intros Hw Hv. cbv zeta.
  assert (exists m, enc_nb tl w v = m /\ 0 <= m <= tl /\ w * 2 ^ m <= v < 2 * (w * 2 ^ m))
    as (m & -> & Hm & Hwm).
  { unfold enc_nb, delta_nb. rewrite (proj2 (Z.eqb_neq w 0)) by lia.
    rewrite pow2_S in Hv by lia. destruct (Z.eqb_spec w 1) as [->|].
    - exists tl. split_and!; first [lia|zdm].
    - cbv zeta. pose proof (Z.log2_spec (w - 1) ltac:(lia)) as Hlog.
      pose proof (Z.log2_nonneg (w - 1)).
      assert (Z.log2 (w - 1) < tl) by (apply Z.log2_lt_pow2; lia).
      set (k := tl - Z.log2 (w - 1)) in *. rewrite Z.pow_succ_r in Hlog by lia.
      assert (2 ^ tl = 2 ^ Z.log2 (w - 1) * 2 ^ k) as E.
      { rewrite <- pow2_add by (unfold k; lia). f_equal. unfold k. lia. }
      assert (2 ^ k = 2 * 2 ^ (k - 1)) as Ek.
      { rewrite <- pow2_S by (unfold k; lia). f_equal. lia. }
      pose proof (pow2_pos (k - 1) ltac:(unfold k; lia)).
      set (P := 2 ^ Z.log2 (w - 1)) in *. rewrite Ek in *. set (Q := 2 ^ (k - 1)) in *.
      assert (2 ^ tl <= w * (2 * Q) <= 2 * 2 ^ tl) by nia.
      destruct (Z.leb_spec (w * (2 * Q)) v).
      + exists k. rewrite Ek. fold Q. split_and!; [|unfold k; lia|unfold k; lia|lia|nia].
        symmetry. apply Z.div_unique_pos with (v - w * (2 * Q)); lia.
      + exists (k - 1). fold Q. split_and!; [|unfold k; lia|unfold k; lia|nia|nia].
        symmetry. apply Z.div_unique_pos with (2 ^ 16 + v - w * (2 * Q)); [lia|]. lia. }
  pose proof (pow2_pos m ltac:(lia)) as Hp.
  assert (w <= v / 2 ^ m < 2 * w) as Hx.
  { split; [apply Z.div_le_lower_bound; lia|apply Z.div_lt_upper_bound; lia]. }
  split_and!; try lia.
  assert (Z.log2 (v / 2 ^ m) = tl - m) as ->; [|lia].
  rewrite <- Z.shiftr_div_pow2, Z.log2_shiftr by lia.
  rewrite (Z.log2_unique v tl) by (rewrite <- ?Z.add_1_r; lia). lia.
Qed.

(** The new state is a state of the symbol, and its decoding entry leads back. *)
Lemma enc_state_spec s v :
  0 <= s < maxSV1 -> zat norm s <> 0 -> 2 ^ tl <= v < 2 ^ (tl + 1) ->
  let nb := enc_nb tl (Z.abs (zat norm s)) v in
  0 <= v / 2 ^ nb + cum norm s - Z.abs (zat norm s) < 2 ^ tl /\
  exists u, 0 <= u < 2 ^ tl /\ enc_state norm ct tl s v = 2 ^ tl + u /\
    dentry norm maxSV1 tl u = mkDecode (v / 2 ^ nb * 2 ^ nb - 2 ^ tl) s nb.
Proof.
  intros Hs Hn Hv nb. pose proof (abs_norm_le norm maxSV1 tl Hok s Hs) as Hle.
  destruct (enc_nb_spec (Z.abs (zat norm s)) v) as (Hnb & Hx & Hlog); [lia|done|]. fold nb in Hnb, Hx, Hlog.
  set (w := Z.abs (zat norm s)) in *.
  destruct (occ_find s (state_symbols norm maxSV1 tl) (v / 2 ^ nb - w)) as (u & Hu & Hz & Ho).
  { rewrite (occ_state_symbols norm maxSV1 tl Hok) by done. fold w. lia. }
  rewrite zlen_state_symbols in Hu.
  assert (rank norm maxSV1 tl u = v / 2 ^ nb - w) as Hr by (unfold rank; by rewrite Hz).
  pose proof (slot_range norm maxSV1 tl Hok u Hu) as Hslot. cbn zeta in Hslot. rewrite Hz, Hr in Hslot.
  pose proof (cum_le_T norm maxSV1 tl Hok s ltac:(lia)).
  split; [lia|]. exists u. split; [done|]. split.
  - unfold enc_state. fold w nb.
    pose proof (cto_state _ _ _ _ Hct u Hu) as Hst. cbn zeta in Hst. rewrite Hz, Hr in Hst.
    rewrite <- Hst. f_equal. lia.
  - unfold dentry. rewrite Hz, Hr. fold w. replace (w + (v / 2 ^ nb - w)) with (v / 2 ^ nb) by lia.
    by rewrite <- Hlog.
Qed.

(** A state of the encoder running on the table. *)
Definition on_table (st : FSE_CState_t) (v : Z) : Prop :=
  st = mkCState v (ct_stateTable ct) (ct_symbolTT ct) tl.

Lemma encodeSymbol_refines mem c acc n st s v :
  0 <= s < maxSV1 -> zat norm s <> 0 -> 2 ^ tl <= v < 2 ^ (tl + 1) -> on_table st v ->
  crep mem c acc n -> c_bitPos c + tl < 64 ->
  let nb := enc_nb tl (Z.abs (zat norm s)) v in
  exists c' st', FSE_encodeSymbol c st s = Ok (c', st') /\
    on_table st' (enc_state norm ct tl s v) /\
    crep mem c' (acc + 2 ^ n * (v mod 2 ^ nb)) (n + nb) /\
    c_bitPos c' = c_bitPos c + nb /\ c_startPtr c' = c_startPtr c /\ c_endPtr c' = c_endPtr c /\
    c_ptr c' = c_ptr c.
Proof.
  intros Hs Hn Hv -> Hc Hp nb. unfold FSE_encodeSymbol. cbn [cs_value cs_stateTable cs_symbolTT cs_stateLog].
  pose proof (cto_lenTT _ _ _ _ Hct). pose proof (cto_len _ _ _ _ Hct).
  rewrite rd_ok by lia. cbn [bind].
  rewrite (cto_nb _ _ _ _ Hct s Hs), (cto_find _ _ _ _ Hct s Hs Hn).
  rewrite Z.shiftr_div_pow2 by lia. fold (enc_nb tl (Z.abs (zat norm s)) v). fold nb.
  destruct (enc_state_spec s v Hs Hn Hv) as (Hidx & u & Hu & Est & _). fold nb in Hidx.
  destruct (enc_nb_spec (Z.abs (zat norm s)) v) as (Hnb & _).
  { pose proof (abs_norm_le norm maxSV1 tl Hok s Hs). lia. } { done. } fold nb in Hnb.
  rewrite (u32_small nb) by lia.
  destruct (addBits_refines mem c acc n v nb Hc) as (c' & -> & Hc' & Hrest); [lia|lia|]. cbn [bind].
  rewrite Z.shiftr_div_pow2 by lia.
  replace (v / 2 ^ nb + (cum norm s - Z.abs (zat norm s)))
    with (v / 2 ^ nb + cum norm s - Z.abs (zat norm s)) by lia.
  rewrite rd_ok by lia. cbn [bind]. do 2 eexists. split; [done|]. done.
Qed.

(** The first state: the smallest one of the symbol. *)
Lemma initCState2_spec s :
  tl <= 12 -> 0 <= s < maxSV1 -> zat norm s <> 0 ->
  exists st u, FSE_initCState2 ct s = Ok st /\ on_table st (init_state norm ct s) /\
    init_state norm ct s = 2 ^ tl + u /\ 0 <= u < 2 ^ tl /\
    symbol (dentry norm maxSV1 tl u) = s /\
    nbBits (dentry norm maxSV1 tl u) = tl - Z.log2 (Z.abs (zat norm s)).
Proof.
  intros Htl12 Hs Hn. unfold FSE_initCState2, FSE_initCState.
  cbn [cs_value cs_stateTable cs_symbolTT cs_stateLog]. rewrite (cto_log _ _ _ _ Hct).
  pose proof (cto_lenTT _ _ _ _ Hct). pose proof (cto_len _ _ _ _ Hct).
  rewrite rd_ok by lia. cbn [bind].
  rewrite (cto_nb _ _ _ _ Hct s Hs), (cto_find _ _ _ _ Hct s Hs Hn).
  pose proof (abs_norm_le norm maxSV1 tl Hok s Hs) as Hle. set (w := Z.abs (zat norm s)) in *.
  assert (0 < w) by lia.
  assert (exists m, 1 <= m <= tl /\ delta_nb tl w = m * 2 ^ 16 - w * 2 ^ m /\ w * 2 ^ m <= 2 ^ 13)
    as (m & Hm & -> & Hwm).
  { unfold delta_nb. rewrite (proj2 (Z.eqb_neq w 0)) by lia.
    pose proof (pow2_le tl 12 ltac:(lia)).
    destruct (Z.eqb_spec w 1) as [->|]; [exists tl; split_and!; lia|].
    exists (tl - Z.log2 (w - 1)). pose proof (Z.log2_nonneg (w - 1)).
    pose proof (Z.log2_spec (w - 1) ltac:(lia)) as Hlog. rewrite Z.pow_succ_r in Hlog by lia.
    assert (Z.log2 (w - 1) < tl) by (apply Z.log2_lt_pow2; lia).
    split_and!; try lia. set (k := tl - Z.log2 (w - 1)).
    assert (2 ^ tl = 2 ^ Z.log2 (w - 1) * 2 ^ k) as E.
    { rewrite <- pow2_add by (unfold k; lia). f_equal. unfold k. lia. }
    pose proof (pow2_pos k ltac:(unfold k; lia)). nia. }
  assert (0 < w * 2 ^ m) by (pose proof (pow2_pos m ltac:(lia)); nia).
  assert (Z.shiftr (u32 (m * 2 ^ 16 - w * 2 ^ m + Z.shiftl 1 15)) 16 = m) as ->.
  { rewrite Z.shiftr_div_pow2 by lia. change (Z.shiftl 1 15) with (2 ^ 15).
    rewrite u32_small by lia. zdm. }
  rewrite (Z.shiftl_mul_pow2 m 16), (u32_small (m * 2 ^ 16)) by lia.
  rewrite (u32_small (_ - _)) by lia. rewrite Z.shiftr_div_pow2 by lia.
  replace (m * 2 ^ 16 - (m * 2 ^ 16 - w * 2 ^ m)) with (w * 2 ^ m) by lia.
  rewrite Z.div_mul by (apply Z.pow_nonzero; lia).
  replace (w + (cum norm s - w)) with (cum norm s) by lia.
  destruct (occ_find s (state_symbols norm maxSV1 tl) 0) as (u & Hu & Hz & Ho).
  { rewrite (occ_state_symbols norm maxSV1 tl Hok) by done. fold w. lia. }
  rewrite zlen_state_symbols in Hu.
  assert (rank norm maxSV1 tl u = 0) as Hr by (unfold rank; by rewrite Hz).
  pose proof (slot_range norm maxSV1 tl Hok u Hu) as Hslot. cbn zeta in Hslot. rewrite Hz, Hr in Hslot.
  pose proof (cum_le_T norm maxSV1 tl Hok s ltac:(lia)).
  pose proof (cto_state _ _ _ _ Hct u Hu) as Hst. cbn zeta in Hst. rewrite Hz, Hr, Z.add_0_r in Hst.
  rewrite rd_ok by lia. cbn [bind]. fold (init_state norm ct s) in Hst |- *.
  exists (mkCState (init_state norm ct s) (ct_stateTable ct) (ct_symbolTT ct) tl), u.
  split; [done|]. split; [done|]. split; [done|]. split; [done|].
  unfold dentry. cbn [symbol nbBits]. rewrite Hz, Hr. fold w. by rewrite Z.add_0_r.
Qed.

End codec.
