(* ===== verification/FseStream.v ===== *)
(** Coding a buffer with the tables: [FSE_compress_usingCTable] of
    compress/fse_compress.c and [FSE_decompress_usingDTable_generic] of
    common/fse_decompress.c, two interleaved states each. *)

From S2P Require Import Prelude Errors Outcome Bits Mem BitStream FseTable FseSpread FseSymbols FseBuild FseBuildC FseCodec.

(** ** Definitions *)

Definition FSE_BLOCKBOUND (size : Z) : Z := size + Z.shiftr size 7 + 4 + 8.
Definition FSE_NCOUNTBOUND : Z := 512.
Definition FSE_COMPRESSBOUND (size : Z) : Z := FSE_NCOUNTBOUND + FSE_BLOCKBOUND size.
Definition FSE_compressBound (size : Z) : Z := FSE_COMPRESSBOUND size.

(** [FSE_FLUSHBITS]. *)
Definition FSE_FLUSHBITS (fast : bool) (mem : list Z) (bitC : BIT_CStream_t)
  : result (list Z * BIT_CStream_t) :=
  if fast then BIT_flushBitsFast mem bitC else BIT_flushBits mem bitC.

(** The variables of the compressor. *)
Record FSE_cvars := mkCVars {
  cv_mem : list Z;
  cv_bitC : BIT_CStream_t;
  cv_state1 : FSE_CState_t;
  cv_state2 : FSE_CState_t;
  cv_ip : Z;
}.

(** [FSE_encodeSymbol(&bitC, &CState1, *--ip)], and the same on [CState2]. *)
Definition encode1 (src : list Z) (v : FSE_cvars) : result FSE_cvars :=
  let* s := rd src (cv_ip v - 1) in
  let* '(bitC, st) := FSE_encodeSymbol (cv_bitC v) (cv_state1 v) s in
  Ok (mkCVars (cv_mem v) bitC st (cv_state2 v) (cv_ip v - 1)).
Definition encode2 (src : list Z) (v : FSE_cvars) : result FSE_cvars :=
  let* s := rd src (cv_ip v - 1) in
  let* '(bitC, st) := FSE_encodeSymbol (cv_bitC v) (cv_state2 v) s in
  Ok (mkCVars (cv_mem v) bitC (cv_state1 v) st (cv_ip v - 1)).
Definition flush_vars (fast : bool) (v : FSE_cvars) : result FSE_cvars :=
  let* '(mem, bitC) := FSE_FLUSHBITS fast (cv_mem v) (cv_bitC v) in
  Ok (mkCVars mem bitC (cv_state1 v) (cv_state2 v) (cv_ip v)).

(** The destination after the call, and the size (0: not compressible). *)
Definition FSE_compress_usingCTable_generic (dst src : list Z) (ct : FSE_CTable) (fast : bool)
  : result (list Z * Z) :=
  let srcSize := zlen src in
  let iend := srcSize in
  if srcSize <=? 2 then Ok (dst, 0)
  else
  match BIT_initCStream 0 (zlen dst) with
  | Stuck => Stuck
  | Err _ => Ok (dst, 0)
  | Ok bitC =>
      let* v :=
        (if negb (srcSize .& 1 =? 0) then
           let* s1 := rd src (iend - 1) in
           let* CState1 := FSE_initCState2 ct s1 in
           let* s2 := rd src (iend - 2) in
           let* CState2 := FSE_initCState2 ct s2 in
           let* v := encode1 src (mkCVars dst bitC CState1 CState2 (iend - 2)) in
           flush_vars fast v
         else
           let* s2 := rd src (iend - 1) in
           let* CState2 := FSE_initCState2 ct s2 in
           let* s1 := rd src (iend - 2) in
           let* CState1 := FSE_initCState2 ct s1 in
           Ok (mkCVars dst bitC CState1 CState2 (iend - 2))) in
      (* join to mod 4 *)
      let srcSize := srcSize - 2 in
      let* v :=
        (if (containerSize * 8 >? FSE_MAX_TABLELOG * 4 + 7) && negb (srcSize .& 2 =? 0) then
           let* v := encode2 src v in
           let* v := encode1 src v in
           flush_vars fast v
         else Ok v) in
      (* 2 or 4 encoding per loop *)
      let* v := while_ (length src) (fun v => cv_ip v >? 0) (fun v =>
        let* v := encode2 src v in
        let* v := (if containerSize * 8 <? FSE_MAX_TABLELOG * 2 + 7 then flush_vars fast v
                   else Ok v) in
        let* v := encode1 src v in
        let* v := (if containerSize * 8 >? FSE_MAX_TABLELOG * 4 + 7 then
                     let* v := encode2 src v in encode1 src v
                   else Ok v) in
        flush_vars fast v) v in
      let* '(mem, bitC) := FSE_flushCState (cv_mem v) (cv_bitC v) (cv_state2 v) in
      let* '(mem, bitC) := FSE_flushCState mem bitC (cv_state1 v) in
      BIT_closeCStream mem bitC
  end.

Definition FSE_compress_usingCTable (dst src : list Z) (ct : FSE_CTable) : result (list Z * Z) :=
  let fast := zlen dst >=? FSE_BLOCKBOUND (zlen src) in
  FSE_compress_usingCTable_generic dst src ct fast.

(** [FSE_GETSYMBOL]. *)
Definition FSE_GETSYMBOL (fast : bool) (st : FSE_DState_t) (bitD : BIT_DStream_t)
  : result (Z * FSE_DState_t * BIT_DStream_t) :=
  if fast then FSE_decodeSymbolFast st bitD else FSE_decodeSymbol st bitD.

(** The variables of the decompressor. *)
Record FSE_dvars := mkDVars {
  dv_dst : list Z;
  dv_op : Z;
  dv_bitD : BIT_DStream_t;
  dv_state1 : FSE_DState_t;
  dv_state2 : FSE_DState_t;
}.

(** [*op++ = FSE_GETSYMBOL(&state1)], and the same on [state2]. *)
Definition get1 (fast : bool) (v : FSE_dvars) : result FSE_dvars :=
  let* '(s, st, bitD) := FSE_GETSYMBOL fast (dv_state1 v) (dv_bitD v) in
  let* dst := wr (dv_dst v) (dv_op v) s in
  Ok (mkDVars dst (dv_op v + 1) bitD st (dv_state2 v)).
Definition get2 (fast : bool) (v : FSE_dvars) : result FSE_dvars :=
  let* '(s, st, bitD) := FSE_GETSYMBOL fast (dv_state2 v) (dv_bitD v) in
  let* dst := wr (dv_dst v) (dv_op v) s in
  Ok (mkDVars dst (dv_op v + 1) bitD (dv_state1 v) st).
Definition reload_vars (src : list Z) (v : FSE_dvars) : result (BIT_DStream_status * FSE_dvars) :=
  let* '(st, bitD) := BIT_reloadDStream src (dv_bitD v) in
  Ok (st, mkDVars (dv_dst v) (dv_op v) bitD (dv_state1 v) (dv_state2 v)).

(** The destination after the call, and the number of symbols. *)
Definition FSE_decompress_usingDTable_generic (dst cSrc : list Z) (dt : FSE_DTable) (fast : bool)
  : result (list Z * Z) :=
  let omax := zlen dst in
  let olimit := omax - 3 in
  let* bitD := BIT_initDStream cSrc in
  let* '(state1, bitD) := FSE_initDState cSrc bitD dt in
  let* '(state2, bitD) := FSE_initDState cSrc bitD dt in
  let* '(st, bitD) := BIT_reloadDStream cSrc bitD in
  ERROR_IF bool_decide (st = BIT_DStream_overflow) THEN corruption_detected ;;
  (* 4 symbols per loop *)
  let* v := loop_ (S (length dst)) (fun v =>
    let* '(st, v) := reload_vars cSrc v in
    if bool_decide (st = BIT_DStream_unfinished) && (dv_op v <? olimit) then
      let* v := get1 fast v in
      let* v := get2 fast v in
      let* v := get1 fast v in
      let* v := get2 fast v in
      Ok (Continue v)
    else Ok (Break v)) (mkDVars dst 0 bitD state1 state2) in
  (* tail *)
  let* v := loop_ (S (length dst)) (fun v =>
    ERROR_IF dv_op v >? omax - 2 THEN dstSize_tooSmall ;;
    let* v := get1 fast v in
    let* '(st, v) := reload_vars cSrc v in
    if bool_decide (st = BIT_DStream_overflow) then
      let* v := get2 fast v in Ok (Break v)
    else
      ERROR_IF dv_op v >? omax - 2 THEN dstSize_tooSmall ;;
      let* v := get2 fast v in
      let* '(st, v) := reload_vars cSrc v in
      if bool_decide (st = BIT_DStream_overflow) then
        let* v := get1 fast v in Ok (Break v)
      else Ok (Continue v)) v in
  Ok (dv_dst v, dv_op v).
