(* ===== verification/FseSafe.v ===== *)
(** The decoder of symbols on arbitrary input: it never leaves its buffers and
    always ends. *)

From S2P Require Import Prelude Errors Outcome Bits Mem BitStream FseTable FseSpread FseSymbols FseBuild FseBuildC FseCodec FseStream.

(** ** Definitions *)

(** A decoding table the decoder can run on; the fast decoder needs every entry
    to read at least one bit. *)
Record dtable_wf (dt : FSE_DTable) (fast : bool) : Prop := {
  dw_log : 5 <= dt_tableLog dt <= 12;
  dw_len : zlen (dt_table dt) = 2 ^ dt_tableLog dt;
  dw_entry : forall u, 0 <= u < 2 ^ dt_tableLog dt ->
    let e := zat (dt_table dt) u in
    0 <= nbBits e <= dt_tableLog dt /\ (fast = true -> 1 <= nbBits e) /\
    0 <= newState e /\ newState e + 2 ^ nbBits e <= 2 ^ dt_tableLog dt /\ is_byte (symbol e);
}.

(** A stream in use: inside its source, or overflowed by a bounded amount. *)
Definition dlive (src : list Z) (d : BIT_DStream_t) (over : Z) : Prop :=
  (exists r, drep src d r) \/ 64 < d_bitsConsumed d <= 64 + over.

(** A state of the decoder on the table. *)
Definition on_dtable (dt : FSE_DTable) (st : FSE_DState_t) (x : Z) : Prop :=
  st = mkDState x (dt_table dt) /\ 0 <= x < 2 ^ dt_tableLog dt.

(** ** Lemmas *)

Lemma drep_consumed src d r : drep src d r -> 0 <= d_bitsConsumed d <= 64.
Proof. by intros (p & _ & _ & _ & _ & _ & _ & H & _). Qed.
Lemma drep_nonneg src d r : drep src d r -> 0 <= r.
Proof. intros (p & _ & _ & _ & ? & _ & _ & _ & _ & ?). lia. Qed.
Lemma drep_container src d r : drep src d r -> 0 <= d_bitContainer d < 2 ^ 64.
Proof. intros (p & _ & _ & _ & _ & _ & -> & _). apply Z.mod_pos_bound. lia. Qed.

Lemma dlive_consumed src d over : 0 <= over -> dlive src d over -> 0 <= d_bitsConsumed d <= 64 + over.
Proof. intros Ho [[r H]|H]; [apply drep_consumed in H; lia|lia]. Qed.

Lemma readBits_any d nb :
  0 <= nb < 32 -> exists v, BIT_readBits d nb = Ok (v, BIT_skipBits d nb) /\ 0 <= v < 2 ^ nb.
Proof.
  intros Hnb. unfold BIT_readBits, BIT_lookBits, BIT_getMiddleBits, defined_if.
  rewrite (proj2 (Z.ltb_lt nb 64)) by lia. cbn [bind]. eexists. split; [done|].
  pose proof (pow2_lt nb 64 ltac:(lia)). pose proof (pow2_pos nb ltac:(lia)).
  rewrite Z.shiftl_1_l, (u64_small (2 ^ nb)), u64_small by lia.
  rewrite land_mask by lia. by apply Z.mod_pos_bound.
Qed.

Lemma readBitsFast_any d nb :
  1 <= nb < 32 -> exists v, BIT_readBitsFast d nb = Ok (v, BIT_skipBits d nb) /\ 0 <= v < 2 ^ nb.
Proof.
  intros Hnb. unfold BIT_readBitsFast, BIT_lookBitsFast, containerSize.
  eexists. split; [done|]. change (8 * 8 - 1) with 63. rewrite (u32_small (63 + 1 - nb)) by lia.
  rewrite (land_63 (63 + 1 - nb)) by lia.
  rewrite Z.shiftr_div_pow2 by lia. set (x := u64 _). pose proof (u64_range (Z.shiftl (d_bitContainer d) (Z.land (d_bitsConsumed d) 63))) as Hx.
  fold x in Hx. pose proof (pow2_pos (63 + 1 - nb) ltac:(lia)).
  split; [apply Z.div_pos; lia|]. apply Z.div_lt_upper_bound; [lia|].
  rewrite <- pow2_add by lia. replace (63 + 1 - nb + nb) with 64 by lia. lia.
Qed.

(** Inside the source the fast read is the read. *)
Lemma readBitsFast_eq src d r nb :
  drep src d r -> 1 <= nb < 64 -> nb <= davail d -> BIT_readBitsFast d nb = BIT_readBits d nb.
Proof.
  intros Hd Hnb Hav. pose proof (drep_container _ _ _ Hd) as Hc.
  pose proof (drep_consumed _ _ _ Hd) as Hcon. unfold davail in Hav.
  unfold BIT_readBitsFast, BIT_readBits, BIT_lookBits, BIT_lookBitsFast, containerSize.
  rewrite (u32_small (8 * 8 - _ - nb)) by lia. rewrite getMiddleBits_spec by lia. cbn [bind].
  do 2 f_equal. change (8 * 8 - 1) with 63. rewrite (u32_small (63 + 1 - nb)) by lia.
  rewrite !land_63 by lia.
  set (c := d_bitContainer d) in *. set (k := d_bitsConsumed d) in *.
  rewrite Z.shiftr_div_pow2, Z.shiftl_mul_pow2 by lia. unfold u64.
  replace 64 with ((63 + 1 - nb) + nb) at 1 by lia.
  apply Z.bits_inj'. intros i Hi.
  rewrite Z.div_pow2_bits by lia. destruct (Z.ltb_spec i nb).
  - rewrite !Z.mod_pow2_bits_low by lia. rewrite Z.mul_pow2_bits by lia. rewrite Z.div_pow2_bits by lia.
    f_equal. lia.
  - rewrite !Z.mod_pow2_bits_high by lia. done.
Qed.

Lemma skip_live src d over nb :
  dlive src d over -> 0 <= over < 2 ^ 31 -> 0 <= nb <= 12 ->
  dlive src (BIT_skipBits d nb) (over + 12).
Proof.
  intros Hd Ho Hnb. pose proof (dlive_consumed _ _ _ (proj1 Ho) Hd) as Hc.
  destruct (Z.leb_spec (d_bitsConsumed d + nb) 64) as [Hle|Hgt].
  - destruct Hd as [[r Hd]|Hd]; [|lia]. left.
    destruct (readBits_refines src d r nb Hd) as (d' & E & Hd' & _); [lia|unfold davail; lia|].
    exists (r - nb). unfold BIT_readBits in E. destruct (BIT_lookBits d nb); simplify_eq/=. done.
  - right. unfold BIT_skipBits. cbs. rewrite u32_small by lia. lia.
Qed.

Lemma reload_live src d over :
  bytes_ok src -> dlive src d over -> 0 <= over ->
  exists st d', BIT_reloadDStream src d = Ok (st, d') /\
    dlive src d' over /\
    (st <> BIT_DStream_overflow -> exists r, drep src d' r) /\
    (st = BIT_DStream_unfinished -> d_bitsConsumed d' <= 7).
Proof.
  intros Hb [[r Hd]|Hd] Ho.
  - destruct (reload_refines src d r Hb Hd) as (st & d' & E & Hd' & _ & _ & _ & _ & Hu).
    exists st, d'. split; [done|]. split; [left; eauto|]. eauto.
  - unfold BIT_reloadDStream, containerSize.
    replace (d_bitsConsumed d >? 8 * 8) with true by (symmetry; rewrite Z.gtb_ltb; apply Z.ltb_lt; lia).
    do 2 eexists. split; [done|]. split; [right; cbs; lia|]. done.
Qed.

Section safe.
Context (dt : FSE_DTable) (fast : bool) (src : list Z).
Hypothesis Hdt : dtable_wf dt fast.
Hypothesis Hsrc : bytes_ok src.

(** Decoding a symbol never fails; the bits are the next ones of the stream. *)
Lemma getsymbol_step st x d over :
  on_dtable dt st x -> dlive src d over -> 0 <= over < 1000 ->
  exists st' x', FSE_GETSYMBOL fast st d
      = Ok (symbol (zat (dt_table dt) x), st', BIT_skipBits d (nbBits (zat (dt_table dt) x))) /\
    on_dtable dt st' x' /\
    (forall r, drep src d r -> nbBits (zat (dt_table dt) x) <= davail d ->
       x' = newState (zat (dt_table dt) x)
            + (le_val src / 2 ^ (r - nbBits (zat (dt_table dt) x))) mod 2 ^ nbBits (zat (dt_table dt) x) /\
       drep src (BIT_skipBits d (nbBits (zat (dt_table dt) x))) (r - nbBits (zat (dt_table dt) x))).
Proof.
  intros [-> Hx] Hd Ho. pose proof (dw_log _ _ Hdt) as Hlog. pose proof (dw_len _ _ Hdt) as Hlen.
  pose proof (dw_entry _ _ Hdt x Hx) as He. cbv zeta in He.
  set (e := zat (dt_table dt) x) in *. destruct He as (Hnb & Hf & Hns & Hns2 & _).
  assert (exists v, FSE_GETSYMBOL fast (mkDState x (dt_table dt)) d
      = Ok (symbol e, mkDState (newState e + v) (dt_table dt), BIT_skipBits d (nbBits e)) /\
    0 <= v < 2 ^ nbBits e /\
    forall r, drep src d r -> nbBits e <= davail d -> BIT_readBits d (nbBits e) = Ok (v, BIT_skipBits d (nbBits e)))
    as (v & E & Hv & Hr).
  { unfold FSE_GETSYMBOL, FSE_decodeSymbolFast, FSE_decodeSymbol. cbn [ds_table ds_state].
    rewrite rd_ok by lia. cbn [bind]. fold e. destruct fast.
    - destruct (readBitsFast_any d (nbBits e)) as (v & E & Hv); [specialize (Hf eq_refl); lia|].
      exists v. rewrite E. split; [done|]. split; [done|]. intros r Hr Hav.
      rewrite <- (readBitsFast_eq src d r) by (first [done|specialize (Hf eq_refl); lia]). done.
    - destruct (readBits_any d (nbBits e)) as (v & E & Hv); [lia|].
      exists v. rewrite E. done. }
  do 2 eexists. split; [exact E|]. split; [split; [done|lia]|]. intros r Hdr Hav.
  destruct (readBits_refines src d r (nbBits e) Hdr) as (d' & E' & Hd' & _); [lia|done|].
  rewrite (Hr r Hdr Hav) in E'. injection E' as -> ->. done.
Qed.

Lemma entry_nb x : 0 <= x < 2 ^ dt_tableLog dt -> 0 <= nbBits (zat (dt_table dt) x) <= 12.
Proof.
  intros Hx. pose proof (dw_entry _ _ Hdt x Hx) as He. cbv zeta in He. pose proof (dw_log _ _ Hdt). lia.
Qed.
Lemma entry_byte x : 0 <= x < 2 ^ dt_tableLog dt -> is_byte (symbol (zat (dt_table dt) x)).
Proof. intros Hx. by apply (dw_entry _ _ Hdt x Hx). Qed.

(** The variables of the decompressor are consistent, [n] bytes of destination. *)
Definition dvars_ok (n over : Z) (v : FSE_dvars) : Prop :=
  zlen (dv_dst v) = n /\ 0 <= dv_op v <= n /\ dlive src (dv_bitD v) over /\
  bytes_ok (dv_dst v) /\
  (exists x, on_dtable dt (dv_state1 v) x) /\ (exists x, on_dtable dt (dv_state2 v) x).

Lemma dvars_change n over over' v :
  dvars_ok n over v ->
  (64 < d_bitsConsumed (dv_bitD v) <= 64 + over -> d_bitsConsumed (dv_bitD v) <= 64 + over') ->
  dvars_ok n over' v.
Proof.
  intros (Hl & Hop & Hd & Hrest) Hc.
  refine (conj Hl (conj Hop (conj _ Hrest))). destruct Hd as [Hd|Hd]; [by left|right; lia].
Qed.

Lemma get1_ok n over v :
  dvars_ok n over v -> 0 <= over < 1000 -> dv_op v < n ->
  exists v', get1 fast v = Ok v' /\ dvars_ok n (over + 12) v' /\ dv_op v' = dv_op v + 1 /\
    d_bitsConsumed (dv_bitD v') <= d_bitsConsumed (dv_bitD v) + 12.
Proof.
  intros (Hl & Hop & Hd & Hb & [x1 H1] & [x2 H2]) Ho Hlt. unfold get1.
  destruct (getsymbol_step _ _ _ _ H1 Hd Ho) as (st & x' & -> & Hst & _). cbn [bind].
  rewrite wr_ok by lia. eexists. split; [done|]. cbn [dv_op dv_bitD].
  pose proof (entry_nb x1 (proj2 H1)). pose proof (dlive_consumed _ _ _ (proj1 Ho) Hd).
  split; [|split; [lia|unfold BIT_skipBits; cbs; rewrite u32_small; lia]].
  split_and!; cbn [dv_dst dv_op dv_bitD dv_state1 dv_state2]; eauto; try lia.
  - by rewrite zlen_zupd.
  - apply skip_live; [done|lia|by apply entry_nb, H1].
  - apply Forall_zupd; [done|by apply entry_byte, H1].
Qed.

Lemma get2_ok n over v :
  dvars_ok n over v -> 0 <= over < 1000 -> dv_op v < n ->
  exists v', get2 fast v = Ok v' /\ dvars_ok n (over + 12) v' /\ dv_op v' = dv_op v + 1 /\
    d_bitsConsumed (dv_bitD v') <= d_bitsConsumed (dv_bitD v) + 12.
Proof.
  intros (Hl & Hop & Hd & Hb & [x1 H1] & [x2 H2]) Ho Hlt. unfold get2.
  destruct (getsymbol_step _ _ _ _ H2 Hd Ho) as (st & x' & -> & Hst & _). cbn [bind].
  rewrite wr_ok by lia. eexists. split; [done|]. cbn [dv_op dv_bitD].
  pose proof (entry_nb x2 (proj2 H2)). pose proof (dlive_consumed _ _ _ (proj1 Ho) Hd).
  split; [|split; [lia|unfold BIT_skipBits; cbs; rewrite u32_small; lia]].
  split_and!; cbn [dv_dst dv_op dv_bitD dv_state1 dv_state2]; eauto; try lia.
  - by rewrite zlen_zupd.
  - apply skip_live; [done|lia|by apply entry_nb, H2].
  - apply Forall_zupd; [done|by apply entry_byte, H2].
Qed.

Lemma reload_vars_ok n over v :
  dvars_ok n over v -> 0 <= over ->
  exists st v', reload_vars src v = Ok (st, v') /\ dvars_ok n over v' /\ dv_op v' = dv_op v /\
    (st <> BIT_DStream_overflow -> dvars_ok n 0 v') /\
    (st = BIT_DStream_unfinished -> d_bitsConsumed (dv_bitD v') <= 7).
Proof.
  intros (Hl & Hop & Hd & Hb & H1 & H2) Ho. unfold reload_vars.
  destruct (reload_live _ _ _ Hsrc Hd Ho) as (st & d' & -> & Hd' & Hr & Hu). cbn [bind].
  do 2 eexists. split; [done|]. split; [exact (conj Hl (conj Hop (conj Hd' (conj Hb (conj H1 H2)))))|].
  split; [done|]. split; [|done].
  intros Hst. exact (conj Hl (conj Hop (conj (or_introl (Hr Hst)) (conj Hb (conj H1 H2))))).
Qed.

Lemma initDState_ok d over :
  dlive src d over -> 0 <= over < 1000 ->
  exists st d', FSE_initDState src d dt = Ok (st, d') /\ (exists x, on_dtable dt st x) /\
    dlive src d' (over + 12).
Proof.
  intros Hd Ho. unfold FSE_initDState. pose proof (dw_log _ _ Hdt) as Hlog.
  destruct (readBits_any d (dt_tableLog dt)) as (v & -> & Hv); [lia|]. cbn [bind].
  destruct (reload_live src (BIT_skipBits d (dt_tableLog dt)) (over + 12) Hsrc) as (st & d' & -> & Hd' & _);
    [apply skip_live; [done|lia|lia]|lia|]. cbn [bind].
  do 2 eexists. split; [done|]. split; [|done]. exists v. done.
Qed.

(** Four symbols per loop. *)
Lemma main_loop_ok n v :
  dvars_ok n 0 v -> n = zlen (dv_dst v) ->
  wp (loop_ (S (length (dv_dst v))) (fun v =>
    let* '(st, v) := reload_vars src v in
    if bool_decide (st = BIT_DStream_unfinished) && (dv_op v <? n - 3) then
      let* v := get1 fast v in
      let* v := get2 fast v in
      let* v := get1 fast v in
      let* v := get2 fast v in
      Ok (Continue v)
    else Ok (Break v)) v) (dvars_ok n 0) any_error.
Proof.
  intros Hv Hn.
  apply (wp_loop (fun v => dvars_ok n 0 v) (fun v => n - dv_op v)); [done| |].
  { destruct Hv as (_ & Hop & _). unfold zlen in Hn. lia. }
  clear v Hv Hn. intros v Hv.
  destruct (reload_vars_ok n 0 v Hv) as (st & v1 & -> & Hv1 & Ho1 & Hno & Hu); [lia|]. cbn [bind].
  destruct (_ && _) eqn:Ec; [|wp_step].
  - apply andb_true_iff in Ec as [Ec1 Ec2]. bools. apply bool_decide_eq_true in Ec1.
    destruct (get1_ok n 0 v1) as (v2 & -> & Hv2 & Ho2 & Hc2); [done|lia|lia|]. cbn [bind].
    destruct (get2_ok n 12 v2) as (v3 & -> & Hv3 & Ho3 & Hc3); [done|lia|lia|]. cbn [bind].
    destruct (get1_ok n 24 v3) as (v4 & -> & Hv4 & Ho4 & Hc4); [done|lia|lia|]. cbn [bind].
    destruct (get2_ok n 36 v4) as (v5 & -> & Hv5 & Ho5 & Hc5); [done|lia|lia|]. cbn [bind].
    wp_step. specialize (Hu Ec1). split; [|destruct Hv5 as (? & ? & _); lia].
    apply (dvars_change n _ 0 v5 Hv5). lia.
  - destruct (decide (st = BIT_DStream_overflow)) as [->|Hne]; [|by apply Hno].
    done.
Qed.

(** The tail. *)
Lemma tail_loop_ok n v :
  dvars_ok n 0 v -> n = zlen (dv_dst v) ->
  wp (loop_ (S (length (dv_dst v))) (fun v =>
    ERROR_IF dv_op v >? n - 2 THEN dstSize_tooSmall ;;
    let* v := get1 fast v in
    let* '(st, v) := reload_vars src v in
    if bool_decide (st = BIT_DStream_overflow) then
      let* v := get2 fast v in Ok (Break v)
    else
      ERROR_IF dv_op v >? n - 2 THEN dstSize_tooSmall ;;
      let* v := get2 fast v in
      let* '(st, v) := reload_vars src v in
      if bool_decide (st = BIT_DStream_overflow) then
        let* v := get1 fast v in Ok (Break v)
      else Ok (Continue v)) v) (dvars_ok n 36) any_error.
Proof.
  intros Hv Hn.
  apply (wp_loop (fun v => dvars_ok n 0 v) (fun v => n - dv_op v)); [done| |].
  { destruct Hv as (_ & Hop & _). unfold zlen in Hn. lia. }
  clear v Hv Hn. intros v Hv. assert (0 <= dv_op v <= n) as Hopv by apply Hv.
  wp_step; [done|].
  destruct (get1_ok n 0 v) as (v1 & -> & Hv1 & Ho1 & _); [done|lia|lia|]. cbn [bind].
  destruct (reload_vars_ok n 12 v1 Hv1) as (st & v2 & -> & Hv2 & Ho2 & Hno & _); [lia|]. cbn [bind].
  wp_step.
  - destruct (get2_ok n 12 v2) as (v3 & -> & Hv3 & Ho3 & _); [done|lia|lia|]. cbn [bind]. wp_step.
    apply (dvars_change n _ 36 v3 Hv3). lia.
  - apply bool_decide_eq_false in Hc0. specialize (Hno Hc0). wp_step; [done|].
    destruct (get2_ok n 0 v2) as (v3 & -> & Hv3 & Ho3 & _); [done|lia|lia|]. cbn [bind].
    destruct (reload_vars_ok n 12 v3 Hv3) as (st' & v4 & -> & Hv4 & Ho4 & Hno4 & _); [lia|]. cbn [bind].
    wp_step.
    + destruct (get1_ok n 12 v4) as (v5 & -> & Hv5 & Ho5 & _); [done|lia|lia|]. cbn [bind]. wp_step.
      apply (dvars_change n _ 36 v5 Hv5). lia.
    + wp_step. apply bool_decide_eq_false in Hc2. split; [by apply Hno4|]. destruct Hv4 as (? & ? & _). lia.
Qed.

Lemma decompress_wp dst :
  bytes_ok dst -> zlen src < 2 ^ 32 ->
  wp (FSE_decompress_usingDTable_generic dst src dt fast)
    (fun '(dst', n) => zlen dst' = zlen dst /\ 0 <= n <= zlen dst /\ bytes_ok dst') any_error.
Proof.
  intros Hdst Hlen. unfold FSE_decompress_usingDTable_generic. cbv zeta. wp_step.
  apply initDStream_wp; [done|done|]. intros d0 _ Hd0.
  destruct (initDState_ok d0 0) as (s1 & d1 & -> & Hs1 & Hd1); [left; eauto|lia|]. cbn [bind].
  destruct (initDState_ok d1 12) as (s2 & d2 & -> & Hs2 & Hd2); [done|lia|]. cbn [bind].
  destruct (reload_live src d2 24 Hsrc Hd2) as (st & d3 & -> & Hd3 & Hno & _); [lia|]. cbn [bind].
  wp_step; [done|]. apply bool_decide_eq_false in Hc. specialize (Hno Hc).
  wp_step. eapply wp_mono; [apply (main_loop_ok (zlen dst) (mkDVars dst 0 d3 s1 s2)); [|done]| |done].
  { split_and!; cbn; try done; [pose proof (zlen_nonneg dst); lia|by left]. }
  intros v Hv. wp_step. assert (zlen (dv_dst v) = zlen dst) as Hlv by apply Hv.
  replace (S (length dst)) with (S (length (dv_dst v))) by (unfold zlen in Hlv; lia).
  eapply wp_mono; [apply (tail_loop_ok (zlen dst)); done| |done].
  intros v' (? & ? & _ & ? & _). wp_step. done.
Qed.

End safe.
