(* ===== verification/FseEncode.v ===== *)
(** The compressor refines a pure encoder: a function of the symbols that are
    left, which gives the bits pushed so far and the two states. *)

From S2P Require Import Prelude Errors Outcome Bits Mem BitStream FseTable FseSpread FseSymbols FseBuild FseBuildC FseCodec FseStream.

(** ** Definitions *)

(** The encoder after the symbols [l], the last one first: the bits and their
    number, the state that decodes the first symbol and the other one. *)
Fixpoint enc_all (norm : list Z) (ct : FSE_CTable) (tl : Z) (l : list Z) : Z * Z * Z * Z :=
  match l with
  | [] => (0, 0, 2 ^ tl, 2 ^ tl)
  | s :: rest =>
      let '(acc, n, cur, oth) := enc_all norm ct tl rest in
      match rest with
      | [] | [_] => (acc, n, init_state norm ct s, cur)
      | _ =>
          let nb := enc_nb tl (Z.abs (zat norm s)) oth in
          (acc + 2 ^ n * (oth mod 2 ^ nb), n + nb, enc_state norm ct tl s oth, cur)
      end
  end.

(** The symbols from index [i] on. *)
Definition suffix (src : list Z) (i : Z) : list Z := drop (Z.to_nat i) src.

(** The symbols a table can code. *)
Definition codable (norm : list Z) (maxSV1 : Z) (l : list Z) : Prop :=
  Forall (fun s => 0 <= s < maxSV1 /\ zat norm s <> 0) l.

(** ** Lemmas *)

Lemma drop_zat {A} `{!Inhabited A} (l : list A) i :
  0 <= i < zlen l -> drop (Z.to_nat i) l = zat l i :: drop (Z.to_nat (i + 1)) l.
Proof.
  unfold zlen. intros Hi. destruct (lookup_lt_is_Some_2 l (Z.to_nat i)) as [x Hx]; [lia|].
  rewrite (drop_S _ _ _ Hx). unfold zat. rewrite (list_lookup_total_correct _ _ _ Hx).
  do 2 f_equal. lia.
Qed.

Lemma zlen_suffix src i : 0 <= i <= zlen src -> zlen (suffix src i) = zlen src - i.
Proof. intros. unfold suffix, zlen in *. rewrite length_drop. lia. Qed.

Lemma codable_zat norm maxSV1 src i :
  codable norm maxSV1 src -> 0 <= i < zlen src -> 0 <= zat src i < maxSV1 /\ zat norm (zat src i) <> 0.
Proof. intros Hsrc Hi. apply (zat_Forall _ _ _ Hsrc Hi). Qed.

Lemma flushFast_eq mem c acc n :
  crep mem c acc n -> n < 8 * (c_endPtr c - c_startPtr c) ->
  BIT_flushBitsFast mem c = BIT_flushBits mem c.
Proof.
  intros [[Hs He Hm Hp Hc] [(_ & _ & Hn)|[_ ?]]] Hlt; [|lia].
  unfold BIT_flushBitsFast, BIT_flushBits. destruct (writeLEST _ _ _); cbn [bind]; try done.
  unfold cbits in Hn. rewrite (Z.shiftr_div_pow2 _ 3) by lia.
  destruct (Z.gtb_spec (c_ptr c + c_bitPos c / 2 ^ 3) (c_endPtr c)); [|done]. zdm.
Qed.

Section encode.
Context (norm : list Z) (maxSV1 tl : Z) (ct : FSE_CTable).
Hypothesis Hok : norm_ok norm maxSV1 tl.
Hypothesis Hct : ctable_ok norm maxSV1 tl ct.
Hypothesis Htl12 : tl <= 12.

Let Htl := tl_range norm maxSV1 tl Hok.
Let HT := T_bounds norm maxSV1 tl Hok.

Lemma enc_all_3 s a b rest :
  enc_all norm ct tl (s :: a :: b :: rest) =
  (let '(acc, n, cur, oth) := enc_all norm ct tl (a :: b :: rest) in
   let nb := enc_nb tl (Z.abs (zat norm s)) oth in
   (acc + 2 ^ n * (oth mod 2 ^ nb), n + nb, enc_state norm ct tl s oth, cur)).
Proof. cbn [enc_all]. by destruct (let '(_, _, _, _) := _ in _) as [[[? ?] ?] ?]. Qed.

Lemma enc_all_2 a b :
  enc_all norm ct tl [a; b] = (0, 0, init_state norm ct a, init_state norm ct b).
Proof. done. Qed.

Definition enc_inv (l : list Z) (e : Z * Z * Z * Z) : Prop :=
  let '(acc, n, cur, oth) := e in
  0 <= acc < 2 ^ n /\ 0 <= n <= tl * (zlen l - 2) /\
  2 ^ tl <= cur < 2 ^ (tl + 1) /\ 2 ^ tl <= oth < 2 ^ (tl + 1).

Lemma init_state_range s :
  0 <= s < maxSV1 -> zat norm s <> 0 -> 2 ^ tl <= init_state norm ct s < 2 ^ (tl + 1).
Proof.
  intros Hs Hn. destruct (initCState2_spec norm maxSV1 tl ct Hok Hct s) as (st & u & _ & _ & E & Hu & _);
    [done..|]. rewrite pow2_S by lia. lia.
Qed.

Lemma enc_push_inv l acc n cur oth s :
  0 <= s < maxSV1 -> zat norm s <> 0 -> enc_inv l (acc, n, cur, oth) ->
  let nb := enc_nb tl (Z.abs (zat norm s)) oth in
  0 <= nb <= tl /\
  enc_inv (s :: l) (acc + 2 ^ n * (oth mod 2 ^ nb), n + nb, enc_state norm ct tl s oth, cur).
Proof.
  intros Hs Hn (Hacc & Hnn & Hcur & Hoth) nb.
  pose proof (abs_norm_le norm maxSV1 tl Hok s Hs) as Hle.
  destruct (enc_nb_spec norm maxSV1 tl Hok (Z.abs (zat norm s)) oth) as (Hnb & _); [lia|done|]. fold nb in Hnb.
  destruct (enc_state_spec norm maxSV1 tl ct Hok Hct s oth Hs Hn Hoth) as (_ & u & Hu & -> & _).
  split; [done|]. unfold enc_inv. rewrite pow2_add, (pow2_S tl) by lia.
  pose proof (Z.mod_pos_bound oth (2 ^ nb) ltac:(apply pow2_pos; lia)).
  rewrite pow2_S in Hcur by lia. assert (zlen (s :: l) = zlen l + 1) as -> by (unfold zlen; simpl; lia).
  split_and!; try lia; nia.
Qed.

Lemma enc_all_inv l :
  codable norm maxSV1 l -> 2 <= zlen l -> enc_inv l (enc_all norm ct tl l).
Proof.
  intros Hl. induction Hl as [|s l [Hs Hn] Hl IH]; intros Hlen; [unfold zlen in Hlen; simpl in Hlen; lia|].
  destruct l as [|a [|b l]]; [unfold zlen in Hlen; simpl in Hlen; lia| |].
  - rewrite enc_all_2. inversion_clear Hl as [|? ? [Ha Hna] _]. unfold enc_inv.
    change (zlen [s; a]) with 2. split_and!; try lia; by apply init_state_range.
  - rewrite enc_all_3. specialize (IH ltac:(unfold zlen; simpl; lia)).
    destruct (enc_all norm ct tl (a :: b :: l)) as [[[acc n] cur] oth].
    by apply enc_push_inv.
Qed.

Lemma suffix_inv src i :
  codable norm maxSV1 src -> 0 <= i <= zlen src - 2 ->
  enc_inv (suffix src i) (enc_all norm ct tl (suffix src i)).
Proof.
  intros Hsrc Hi. apply enc_all_inv; [unfold suffix; by apply Forall_drop|]. rewrite zlen_suffix; lia.
Qed.

Lemma enc_suffix src i :
  0 < i <= zlen src - 2 ->
  enc_all norm ct tl (suffix src (i - 1)) =
  (let '(acc, n, cur, oth) := enc_all norm ct tl (suffix src i) in
   let nb := enc_nb tl (Z.abs (zat norm (zat src (i - 1)))) oth in
   (acc + 2 ^ n * (oth mod 2 ^ nb), n + nb, enc_state norm ct tl (zat src (i - 1)) oth, cur)).
Proof.
  intros Hi. unfold suffix. rewrite (drop_zat src (i - 1)) by lia. replace (i - 1 + 1) with i by lia.
  rewrite (drop_zat src i), (drop_zat src (i + 1)) by lia. apply enc_all_3.
Qed.

Section run.
Context (src dst : list Z).
Hypothesis Hsrc : codable norm maxSV1 src.
Hypothesis Hlen : 2 < zlen src.
Hypothesis Hcap : 8 < zlen dst.

(** The compressor with [ip] symbols left: the first symbol coded is decoded by
    the first state when its index is even. *)
Definition erep (v : FSE_cvars) : Prop :=
  let '(acc, n, cur, oth) := enc_all norm ct tl (suffix src (cv_ip v)) in
  0 <= cv_ip v <= zlen src - 2 /\
  crep (cv_mem v) (cv_bitC v) acc n /\
  c_startPtr (cv_bitC v) = 0 /\ c_endPtr (cv_bitC v) = zlen dst - 8 /\
  zlen (cv_mem v) = zlen dst /\ (bytes_ok dst -> bytes_ok (cv_mem v)) /\
  on_table tl ct (if Z.even (cv_ip v) then cv_state1 v else cv_state2 v) cur /\
  on_table tl ct (if Z.even (cv_ip v) then cv_state2 v else cv_state1 v) oth.

Lemma encode_sim v :
  erep v -> 0 < cv_ip v -> c_bitPos (cv_bitC v) + tl < 64 ->
  exists v', (if Z.even (cv_ip v) then encode2 src v else encode1 src v) = Ok v' /\ erep v' /\
    cv_ip v' = cv_ip v - 1 /\ c_bitPos (cv_bitC v') <= c_bitPos (cv_bitC v) + tl.
Proof.
  unfold erep. intros Hv Hip Hpos.
  destruct (enc_all norm ct tl (suffix src (cv_ip v))) as [[[acc n] cur] oth] eqn:E.
  destruct Hv as (Hi & Hc & Hst & Hen & Hl & Hb & Hcur & Hoth).
  pose proof (suffix_inv src (cv_ip v) Hsrc Hi) as Hinv. rewrite E in Hinv.
  destruct (codable_zat norm maxSV1 src (cv_ip v - 1) Hsrc) as [Hs Hn]; [lia|].
  pose proof (enc_suffix src (cv_ip v) ltac:(lia)) as Enext. rewrite E in Enext.
  set (s := zat src (cv_ip v - 1)) in *.
  destruct (enc_push_inv (suffix src (cv_ip v)) acc n cur oth s Hs Hn Hinv) as [Hnb _].
  set (nb := enc_nb tl (Z.abs (zat norm s)) oth) in *. cbn beta zeta iota in Enext.
  assert (2 ^ tl <= oth < 2 ^ (tl + 1)) as Hor by apply Hinv.
  assert (Z.even (cv_ip v - 1) = negb (Z.even (cv_ip v))) as Eev
    by (rewrite Z.even_sub; by destruct (Z.even (cv_ip v))).
  destruct (Z.even (cv_ip v)) eqn:Ev; unfold encode2, encode1; rewrite rd_ok by lia; cbn [bind]; fold s;
    destruct (encodeSymbol_refines norm maxSV1 tl ct Hok Hct (cv_mem v) (cv_bitC v) acc n _ s oth Hs Hn Hor Hoth Hc Hpos)
      as (c' & st' & -> & Hst' & Hc' & Hp' & Hs' & He' & _); cbn [bind];
    (eexists; split; [done|]); cbn [cv_ip cv_bitC cv_mem cv_state1 cv_state2];
    rewrite Enext, Eev; cbn [negb];
    (split; [|fold nb in Hp'; lia]); rewrite Hs', He'; split_and!; done || lia.
Qed.

Lemma flush_sim fast v :
  erep v -> (fast = true -> tl * zlen src < 8 * (zlen dst - 8)) ->
  exists v', flush_vars fast v = Ok v' /\ erep v' /\ cv_ip v' = cv_ip v /\
    0 <= c_bitPos (cv_bitC v') <= 7.
Proof.
  unfold erep. intros Hv Hfast.
  destruct (enc_all norm ct tl (suffix src (cv_ip v))) as [[[acc n] cur] oth] eqn:E.
  destruct Hv as (Hi & Hc & Hst & Hen & Hl & Hb & Hcur & Hoth).
  pose proof (suffix_inv src (cv_ip v) Hsrc Hi) as Hinv. rewrite E in Hinv.
  assert (0 <= n <= tl * (zlen (suffix src (cv_ip v)) - 2)) as Hn by apply Hinv.
  rewrite zlen_suffix in Hn by lia.
  destruct (flush_refines _ _ _ _ Hc) as (mem' & c' & Ef & Hc' & Hp' & Hs' & He' & Hl' & _ & Hb').
  assert (FSE_FLUSHBITS fast (cv_mem v) (cv_bitC v) = Ok (mem', c')) as Ef'.
  { unfold FSE_FLUSHBITS. destruct fast; [|done]. specialize (Hfast eq_refl).
    rewrite (flushFast_eq _ _ acc n) by (first [done|rewrite Hst, Hen; nia]). done. }
  unfold flush_vars. rewrite Ef'. cbn [bind]. eexists. split; [done|].
  cbn [cv_ip cv_bitC cv_mem cv_state1 cv_state2]. rewrite E, Hs', He'.
  split; [split_and!; try done; [lia..|auto]|]. split; [done|]. rewrite Hp'. zdm.
Qed.

(** Symbols encoded in a row. *)
Lemma encode_1 v :
  erep v -> Z.even (cv_ip v) = false -> 0 < cv_ip v -> c_bitPos (cv_bitC v) + tl < 64 ->
  exists v', encode1 src v = Ok v' /\ erep v' /\ cv_ip v' = cv_ip v - 1 /\
    Z.even (cv_ip v') = true /\ c_bitPos (cv_bitC v') <= c_bitPos (cv_bitC v) + tl.
Proof.
  intros Hv Hev Hip Hp. destruct (encode_sim v Hv Hip Hp) as (v' & E & Hv' & Hip' & Hp').
  rewrite Hev in E. exists v'. split_and!; try done. by rewrite Hip', Z.even_sub, Hev.
Qed.
Lemma encode_2 v :
  erep v -> Z.even (cv_ip v) = true -> 0 < cv_ip v -> c_bitPos (cv_bitC v) + tl < 64 ->
  exists v', encode2 src v = Ok v' /\ erep v' /\ cv_ip v' = cv_ip v - 1 /\
    Z.even (cv_ip v') = false /\ c_bitPos (cv_bitC v') <= c_bitPos (cv_bitC v) + tl.
Proof.
  intros Hv Hev Hip Hp. destruct (encode_sim v Hv Hip Hp) as (v' & E & Hv' & Hip' & Hp').
  rewrite Hev in E. exists v'. split_and!; try done. by rewrite Hip', Z.even_sub, Hev.
Qed.

(** The main loop, four symbols at a time. *)
Lemma encode_loop fast v :
  erep v -> (fast = true -> tl * zlen src < 8 * (zlen dst - 8)) ->
  (4 | cv_ip v) -> 0 <= c_bitPos (cv_bitC v) <= 7 ->
  wp (while_ (length src) (fun v => cv_ip v >? 0) (fun v =>
        let* v := encode2 src v in
        let* v := (if containerSize * 8 <? FSE_MAX_TABLELOG * 2 + 7 then flush_vars fast v
                   else Ok v) in
        let* v := encode1 src v in
        let* v := (if containerSize * 8 >? FSE_MAX_TABLELOG * 4 + 7 then
                     let* v := encode2 src v in encode1 src v
                   else Ok v) in
        flush_vars fast v) v)
    (fun v => erep v /\ cv_ip v = 0 /\ 0 <= c_bitPos (cv_bitC v) <= 7) no_errors.
Proof.
  intros Hv Hfast Hdiv Hpos.
  assert (forall v, erep v -> 0 <= cv_ip v <= zlen src - 2) as Hbound.
  { intros w. unfold erep. destruct (enc_all _ _ _ _) as [[[? ?] ?] ?]. tauto. }
  apply (wp_while (fun v => erep v /\ (4 | cv_ip v) /\ 0 <= c_bitPos (cv_bitC v) <= 7)
           (fun v => cv_ip v)); [done| | |].
  - pose proof (Hbound v Hv). unfold zlen in *. lia.
  - clear v Hv Hdiv Hpos. intros v (Hv & Hdiv & Hpos) Hc. rewrite Z.gtb_ltb in Hc. bools. split; [done|].
    destruct Hdiv as [k Hk].
    assert (Z.even (cv_ip v) = true) as Hev by (rewrite Hk, Z.even_mul; apply orb_true_r).
    change (containerSize * 8 <? FSE_MAX_TABLELOG * 2 + 7) with false.
    change (containerSize * 8 >? FSE_MAX_TABLELOG * 4 + 7) with true. cbv iota.
    destruct (encode_2 v) as (v1 & -> & Hv1 & Hi1 & He1 & Hp1); [done..|lia|]. cbn [bind].
    destruct (encode_1 v1) as (v2 & -> & Hv2 & Hi2 & He2 & Hp2); [done|done|lia|lia|]. cbn [bind].
    destruct (encode_2 v2) as (v3 & -> & Hv3 & Hi3 & He3 & Hp3); [done|done|lia|lia|]. cbn [bind].
    destruct (encode_1 v3) as (v4 & -> & Hv4 & Hi4 & He4 & Hp4); [done|done|lia|lia|]. cbn [bind].
    destruct (flush_sim fast v4 Hv4 Hfast) as (v5 & -> & Hv5 & Hi5 & Hp5). wp_step.
    split_and!; try done; [|lia..]. exists (k - 1). lia.
  - clear v Hv Hdiv Hpos. intros v (Hv & Hdiv & Hpos) Hc. rewrite Z.gtb_ltb in Hc. bools.
    split_and!; try done; [|lia..]. pose proof (Hbound v Hv). lia.
Qed.

(** The stream the compressor leaves: the bits of the symbols, then the states. *)
Definition final_bits : Z * Z :=
  let '(acc, n, cur, oth) := enc_all norm ct tl src in
  (acc + 2 ^ n * (oth mod 2 ^ tl) + 2 ^ (n + tl) * (cur mod 2 ^ tl), n + tl + tl).

Lemma flushCState_refines mem c acc n st v :
  crep mem c acc n -> 0 <= c_bitPos c <= 7 -> on_table tl ct st v ->
  exists mem' c', FSE_flushCState mem c st = Ok (mem', c') /\
    crep mem' c' (acc + 2 ^ n * (v mod 2 ^ tl)) (n + tl) /\ 0 <= c_bitPos c' <= 7 /\
    c_startPtr c' = c_startPtr c /\ c_endPtr c' = c_endPtr c /\ zlen mem' = zlen mem /\
    (bytes_ok mem -> bytes_ok mem').
Proof.
  intros Hc Hp ->. unfold FSE_flushCState. cbn [cs_value cs_stateLog].
  destruct (addBits_refines mem c acc n v tl Hc) as (c1 & -> & Hc1 & Hp1 & Hs1 & He1 & _); [lia|lia|].
  cbn [bind]. destruct (flush_refines _ _ _ _ Hc1) as (mem2 & c2 & -> & Hc2 & Hp2 & Hs2 & He2 & Hl2 & _ & Hb2).
  exists mem2, c2. split_and!; try done; try congruence; rewrite Hp2; zdm.
Qed.

Lemma init_erep_even bitC st1 st2 :
  Z.even (zlen src) = true -> crep dst bitC 0 0 -> c_startPtr bitC = 0 ->
  c_endPtr bitC = zlen dst - 8 ->
  on_table tl ct st1 (init_state norm ct (zat src (zlen src - 2))) ->
  on_table tl ct st2 (init_state norm ct (zat src (zlen src - 1))) ->
  erep (mkCVars dst bitC st1 st2 (zlen src - 2)).
Proof.
  intros Hev Hc Hs He H1 H2. unfold erep, suffix. cbn [cv_ip cv_mem cv_bitC cv_state1 cv_state2].
  rewrite drop_zat, drop_zat, drop_ge by (unfold zlen in *; lia).
  replace (zlen src - 2 + 1) with (zlen src - 1) by lia. rewrite enc_all_2.
  rewrite Z.even_sub, Hev. cbn [Z.even Bool.eqb]. split_and!; done || lia.
Qed.
Lemma init_erep_odd bitC st1 st2 :
  Z.even (zlen src) = false -> crep dst bitC 0 0 -> c_startPtr bitC = 0 ->
  c_endPtr bitC = zlen dst - 8 ->
  on_table tl ct st2 (init_state norm ct (zat src (zlen src - 2))) ->
  on_table tl ct st1 (init_state norm ct (zat src (zlen src - 1))) ->
  erep (mkCVars dst bitC st1 st2 (zlen src - 2)).
Proof.
  intros Hev Hc Hs He H1 H2. unfold erep, suffix. cbn [cv_ip cv_mem cv_bitC cv_state1 cv_state2].
  rewrite drop_zat, drop_zat, drop_ge by (unfold zlen in *; lia).
  replace (zlen src - 2 + 1) with (zlen src - 1) by lia. rewrite enc_all_2.
  rewrite Z.even_sub, Hev. cbn [Z.even Bool.eqb]. split_and!; done || lia.
Qed.

Lemma erep_final v :
  erep v -> cv_ip v = 0 -> 0 <= c_bitPos (cv_bitC v) <= 7 -> zlen dst < 2 ^ 32 ->
  exists mem sz,
    (let* '(mem, bitC) := FSE_flushCState (cv_mem v) (cv_bitC v) (cv_state2 v) in
     let* '(mem, bitC) := FSE_flushCState mem bitC (cv_state1 v) in
     BIT_closeCStream mem bitC) = Ok (mem, sz) /\
    zlen mem = zlen dst /\ (bytes_ok dst -> bytes_ok mem) /\
    (sz = 0 /\ 8 * (zlen dst - 8) <= final_bits.2 + 1 \/
     0 < sz <= zlen dst - 8 /\ 8 * (sz - 1) <= final_bits.2 < 8 * sz /\
     le_val (zsub mem 0 sz) = final_bits.1 + 2 ^ final_bits.2).
Proof.
  unfold erep, final_bits. intros Hv Hip Hp Hd. rewrite Hip in Hv. unfold suffix in Hv.
  change (drop (Z.to_nat 0) src) with src in Hv.
  destruct (enc_all norm ct tl src) as [[[acc n] cur] oth].
  destruct Hv as (_ & Hc & Hs & He & Hl & Hb & H1 & H2). cbn [Z.even] in H1, H2.
  destruct (flushCState_refines _ _ _ _ _ _ Hc Hp H2) as (m1 & c1 & -> & Hc1 & Hp1 & Hs1 & He1 & Hl1 & Hb1).
  cbn [bind].
  destruct (flushCState_refines _ _ _ _ _ _ Hc1 Hp1 H1) as (m2 & c2 & -> & Hc2 & Hp2 & Hs2 & He2 & Hl2 & Hb2).
  cbn [bind]. destruct (close_refines _ _ _ _ Hc2) as (m3 & sz & -> & Hl3 & Hsz & Hb3); [lia|].
  exists m3, sz. cbn [fst snd]. rewrite Hs2, Hs1, Hs, He2, He1, He in Hsz.
  split; [done|]. split; [congruence|]. split; [auto|].
  destruct Hsz as [[? ?]|(? & ? & ? & Hw)]; [left; lia|right].
  split_and!; first [lia|exact Hw].
Qed.

(** The start and the symbols that bring the rest to a multiple of four. *)
Lemma encode_start fast bitC :
  crep dst bitC 0 0 -> c_startPtr bitC = 0 -> c_endPtr bitC = zlen dst - 8 -> c_bitPos bitC = 0 ->
  (fast = true -> tl * zlen src < 8 * (zlen dst - 8)) ->
  exists v,
    (if negb (zlen src .& 1 =? 0) then
       let* s1 := rd src (zlen src - 1) in
       let* CState1 := FSE_initCState2 ct s1 in
       let* s2 := rd src (zlen src - 2) in
       let* CState2 := FSE_initCState2 ct s2 in
       let* v := encode1 src (mkCVars dst bitC CState1 CState2 (zlen src - 2)) in
       flush_vars fast v
     else
       let* s2 := rd src (zlen src - 1) in
       let* CState2 := FSE_initCState2 ct s2 in
       let* s1 := rd src (zlen src - 2) in
       let* CState1 := FSE_initCState2 ct s1 in
       Ok (mkCVars dst bitC CState1 CState2 (zlen src - 2))) = Ok v /\
    erep v /\ 0 <= c_bitPos (cv_bitC v) <= 7 /\ Z.even (cv_ip v) = true /\
    zlen src - 3 <= cv_ip v <= zlen src - 2.
Proof.
  intros Hc Hs He Hp Hfast. rewrite land_1. rewrite !rd_ok by lia. cbn [bind].
  destruct (codable_zat norm maxSV1 src (zlen src - 1) Hsrc) as [Hs1 Hn1]; [lia|].
  destruct (codable_zat norm maxSV1 src (zlen src - 2) Hsrc) as [Hs2 Hn2]; [lia|].
  destruct (initCState2_spec norm maxSV1 tl ct Hok Hct _ Htl12 Hs1 Hn1) as (st1 & _ & -> & Hst1 & _).
  destruct (initCState2_spec norm maxSV1 tl ct Hok Hct _ Htl12 Hs2 Hn2) as (st2 & _ & E2 & Hst2 & _).
  rewrite E2. cbn [bind]. destruct (Z.even (zlen src)) eqn:Hev; cbn [negb].
  - eexists. split; [done|]. split; [by apply init_erep_even|]. cbn [cv_bitC cv_ip].
    rewrite Z.even_sub, Hev. cbn [Z.even Bool.eqb]. split_and!; done || lia.
  - pose proof (init_erep_odd bitC st1 st2 Hev Hc Hs He Hst2 Hst1) as H0.
    destruct (encode_1 _ H0) as (v1 & -> & Hv1 & Hi1 & He1 & Hp1); cbn [cv_ip cv_bitC]; [|lia|lia|].
    { rewrite Z.even_sub, Hev. done. }
    cbn [bind]. destruct (flush_sim fast v1 Hv1 Hfast) as (v2 & -> & Hv2 & Hi2 & Hp2).
    exists v2. rewrite Hi2. cbn [cv_ip] in Hi1. split_and!; done || lia.
Qed.

Lemma compress_ok fast :
  zlen dst < 2 ^ 32 -> (fast = true -> tl * zlen src < 8 * (zlen dst - 8)) ->
  exists mem sz, FSE_compress_usingCTable_generic dst src ct fast = Ok (mem, sz) /\
    zlen mem = zlen dst /\ (bytes_ok dst -> bytes_ok mem) /\
    (sz = 0 /\ 8 * (zlen dst - 8) <= final_bits.2 + 1 \/
     0 < sz <= zlen dst - 8 /\ 8 * (sz - 1) <= final_bits.2 < 8 * sz /\
     le_val (zsub mem 0 sz) = final_bits.1 + 2 ^ final_bits.2).
Proof.
  intros Hd Hfast. unfold FSE_compress_usingCTable_generic. cbv zeta.
  rewrite (proj2 (Z.leb_gt (zlen src) 2)) by lia.
  destruct (BIT_initCStream_spec dst 0 (zlen dst)) as (c & -> & Hc & Hs & He & Hp); [lia..|].
  destruct (encode_start fast c Hc Hs He Hp Hfast) as (v1 & -> & Hv1 & Hp1 & Hev1 & Hi1). cbn [bind].
  assert (exists v2,
    (if (containerSize * 8 >? FSE_MAX_TABLELOG * 4 + 7) && negb ((zlen src - 2) .& 2 =? 0) then
       let* v := encode2 src v1 in
       let* v := encode1 src v in
       flush_vars fast v
     else Ok v1) = Ok v2 /\ erep v2 /\ (4 | cv_ip v2) /\ 0 <= c_bitPos (cv_bitC v2) <= 7)
    as (v2 & -> & Hv2 & Hdiv & Hp2).
  { change (containerSize * 8 >? FSE_MAX_TABLELOG * 4 + 7) with true. cbn [andb]. rewrite land_2.
    rewrite Zeven_mod, Z.eqb_eq in Hev1.
    destruct (Z.ltb_spec ((zlen src - 2) mod 4) 2); cbn [negb].
    - exists v1. split_and!; try done; [|lia..]. exists (cv_ip v1 / 4). zdm.
    - assert (Z.even (cv_ip v1) = true) as Hev by (by rewrite Zeven_mod, Z.eqb_eq).
      destruct (encode_2 v1) as (w1 & -> & Hw1 & Hj1 & Hf1 & Hq1); [done|done|zdm|lia|]. cbn [bind].
      destruct (encode_1 w1) as (w2 & -> & Hw2 & Hj2 & Hf2 & Hq2); [done|done|zdm|lia|]. cbn [bind].
      destruct (flush_sim fast w2 Hw2 Hfast) as (w3 & -> & Hw3 & Hj3 & Hq3). exists w3.
      split_and!; try done; [|lia..]. exists (cv_ip w3 / 4). zdm. }
  cbn [bind].
  destruct (wp_no_errors_Ok _ _ (encode_loop fast v2 Hv2 Hfast Hdiv Hp2)) as (v3 & -> & Hv3 & Hip3 & Hp3).
  cbn [bind]. by apply erep_final.
Qed.

End run.

End encode.
