(* ===== verification/FseRoundtrip.v ===== *)
(** Decompression undoes compression: the decoder walks back through the states
    of the encoder. *)

From S2P Require Import Prelude Errors Outcome Bits Mem BitStream FseTable FseSpread FseSymbols FseBuild FseBuildC FseCodec FseStream FseSafe FseEncode.

(** ** Lemmas *)

(** Peeling the last field off an integer. *)
Lemma peel W A n v nb :
  0 <= n -> 0 <= nb -> 0 <= A < 2 ^ n -> W mod 2 ^ (n + nb) = A + 2 ^ n * (v mod 2 ^ nb) ->
  (W / 2 ^ n) mod 2 ^ nb = v mod 2 ^ nb /\ W mod 2 ^ n = A.
Proof.
  intros Hn Hnb HA HW. pose proof (pow2_pos n Hn). pose proof (pow2_pos nb Hnb).
  assert (W mod 2 ^ n = A) as E.
  { rewrite <- (Z.mod_small A (2 ^ n)) by lia.
    apply (f_equal (fun x => x mod 2 ^ n)) in HW.
    rewrite pow2_add, Z.rem_mul_r in HW by lia.
    rewrite (Z.mul_comm (2 ^ n) (_ mod _)), Z.mod_add, Z.mod_mod in HW by lia.
    rewrite (Z.mul_comm (2 ^ n)), Z.mod_add in HW by lia. done. }
  split; [|done]. rewrite pow2_add, Z.rem_mul_r, E in HW by lia. nia.
Qed.

Lemma dtable_of_wf norm maxSV1 tl fast :
  norm_ok norm maxSV1 tl -> tl <= 12 -> (fast = true -> no_large norm maxSV1 tl = true) ->
  dtable_wf (dtable_of norm maxSV1 tl) fast.
Proof.
  intros Hok Htl12 Hfast. pose proof (tl_range norm maxSV1 tl Hok) as Htl.
  pose proof (T_bounds norm maxSV1 tl Hok) as HT.
  constructor; unfold dtable_of; cbn [dt_tableLog dt_table]; [lia|by apply zlen_map_seqZ; lia|].
  intros u Hu. rewrite zat_map_seqZ by done. cbv zeta.
  pose proof (dentry_bounds norm maxSV1 tl Hok u Hu) as Hd. cbv zeta in Hd.
  destruct Hd as (Hx & Hnb & _ & Hns & Hns2 & Hs). pose proof (nok_max256 _ _ _ Hok).
  split_and!; try (unfold is_byte; lia).
  intros ->. specialize (Hfast eq_refl). unfold no_large in Hfast. rewrite forallb_forall in Hfast.
  set (s := symbol (dentry norm maxSV1 tl u)) in *.
  specialize (Hfast s). rewrite Z.ltb_lt in Hfast.
  assert (zat norm s < 2 ^ (tl - 1)) as Hlt.
  { apply Hfast. apply list_elem_of_In, elem_of_seqZ. lia. }
  unfold dentry in *. cbn [nbBits symbol] in *. fold s in Hx, Hnb |- *.
  pose proof (rank_range norm maxSV1 tl Hok u Hu) as Hr. fold s in Hr.
  pose proof (nok_counts _ _ _ Hok s Hs) as Hc.
  assert (2 ^ tl = 2 * 2 ^ (tl - 1)) as E by (rewrite <- pow2_S by lia; f_equal; lia).
  pose proof (pow2_le 4 (tl - 1)).
  assert (Z.log2 (Z.abs (zat norm s) + rank norm maxSV1 tl u) < tl); [|lia].
  apply Z.log2_lt_pow2; lia.
Qed.

Section roundtrip.
Context (norm : list Z) (maxSV1 tl : Z) (ct : FSE_CTable) (fast : bool) (src W8 : list Z) (n0 : Z).
Hypothesis Hok : norm_ok norm maxSV1 tl.
Hypothesis Hct : ctable_ok norm maxSV1 tl ct.
Hypothesis Htl12 : tl <= 12.
Hypothesis Hfast : fast = true -> no_large norm maxSV1 tl = true.
(** No symbol has every state. *)
Hypothesis Hfull : forall s, 0 <= s < maxSV1 -> zat norm s < 2 ^ tl.
Hypothesis Hsrc : codable norm maxSV1 src.
Hypothesis Hlen : 2 < zlen src.
(** The bytes of the stream. *)
Hypothesis Hbytes : bytes_ok W8.
Hypothesis Hsize : 0 < zlen W8 < 2 ^ 32.
Hypothesis Hcap : zlen src <= n0.

Let Htl := tl_range norm maxSV1 tl Hok.
Let HT := T_bounds norm maxSV1 tl Hok.
Let dt := dtable_of norm maxSV1 tl.

Lemma Hwf : dtable_wf dt fast.
Proof. by apply dtable_of_wf. Qed.

(** The decompressor after [op] symbols mirrors the compressor with [op] symbols
    left. *)
Definition rrep (v : FSE_dvars) : Prop :=
  let '(acc, n, cur, oth) := enc_all norm ct tl (suffix src (dv_op v)) in
  0 <= dv_op v <= zlen src - 2 /\
  zlen (dv_dst v) = n0 /\ take (Z.to_nat (dv_op v)) (dv_dst v) = take (Z.to_nat (dv_op v)) src /\
  drep W8 (dv_bitD v) n /\ le_val W8 mod 2 ^ n = acc /\
  on_dtable dt (if Z.even (dv_op v) then dv_state1 v else dv_state2 v) (cur - 2 ^ tl) /\
  on_dtable dt (if Z.even (dv_op v) then dv_state2 v else dv_state1 v) (oth - 2 ^ tl).

(** The bits left. *)
Definition bits_left (v : FSE_dvars) : Z :=
  let '(_, n, _, _) := enc_all norm ct tl (suffix src (dv_op v)) in n.

Lemma bits_left_bound v :
  0 <= dv_op v <= zlen src - 2 -> 0 <= bits_left v <= 12 * (zlen src - 2 - dv_op v).
Proof.
  intros Hop. pose proof (suffix_inv norm maxSV1 tl ct Hok Hct Htl12 src (dv_op v) Hsrc Hop) as Hinv.
  unfold bits_left. destruct (enc_all _ _ _ _) as [[[acc n] cur] oth].
  destruct Hinv as (_ & Hn & _). rewrite zlen_suffix in Hn by lia. nia.
Qed.

Lemma take_snoc_upd (d l : list Z) i :
  0 <= i < zlen d -> i < zlen l -> take (Z.to_nat i) d = take (Z.to_nat i) l ->
  take (Z.to_nat (i + 1)) (zupd d i (zat l i)) = take (Z.to_nat (i + 1)) l.
Proof.
  intros Hi Hl E. rewrite !take_zS by (rewrite ?zlen_zupd; lia). rewrite zat_zupd_eq by lia.
  f_equal. rewrite <- E. unfold zupd. apply take_insert_ge. lia.
Qed.

(** Which of the two states is current. *)
Definition get_cur (v : FSE_dvars) : result FSE_dvars :=
  if Z.even (dv_op v) then get1 fast v else get2 fast v.
Definition get_oth (v : FSE_dvars) : result FSE_dvars :=
  if Z.even (dv_op v) then get2 fast v else get1 fast v.

Lemma get_sim v :
  rrep v -> dv_op v < zlen src - 2 -> Z.min 12 (bits_left v) <= davail (dv_bitD v) ->
  exists v', get_cur v = Ok v' /\ rrep v' /\ dv_op v' = dv_op v + 1 /\
    davail (dv_bitD v) - 12 <= davail (dv_bitD v').
Proof.
  unfold rrep, bits_left. intros Hv Hop Hav.
  assert (0 <= dv_op v) as Hop0 by (destruct (enc_all _ _ _ _) as [[[? ?] ?] ?]; lia).
  pose proof (enc_suffix norm tl ct src (dv_op v + 1) ltac:(lia)) as Enext.
  replace (dv_op v + 1 - 1) with (dv_op v) in Enext by lia.
  pose proof (suffix_inv norm maxSV1 tl ct Hok Hct Htl12 src (dv_op v + 1) Hsrc ltac:(lia)) as Hinv.
  destruct (enc_all norm ct tl (suffix src (dv_op v + 1))) as [[[acc' n'] cur'] oth'] eqn:E'.
  destruct (codable_zat norm maxSV1 src (dv_op v) Hsrc) as [Hs Hn]; [lia|].
  set (s := zat src (dv_op v)) in *. cbv beta zeta iota in Enext. rewrite Enext in Hv, Hav.
  destruct Hinv as (Hacc & Hn' & Hcur & Hoth).
  destruct (enc_nb_spec norm maxSV1 tl Hok (Z.abs (zat norm s)) oth') as (Hnb & _).
  { pose proof (abs_norm_le norm maxSV1 tl Hok s Hs). lia. } { done. }
  destruct (enc_state_spec norm maxSV1 tl ct Hok Hct s oth' Hs Hn Hoth) as (_ & u & Hu & Est & Ed).
  set (nb := enc_nb tl (Z.abs (zat norm s)) oth') in *.
  destruct Hv as (_ & Hl & Ht & Hd & Hw & Hc & Ho). rewrite Est in Hc. replace (2 ^ tl + u - 2 ^ tl) with u in Hc by lia.
  destruct (peel (le_val W8) acc' n' oth' nb) as [Hbits Hlow]; [lia|lia|lia|done|].
  assert (zat (dt_table dt) u = dentry norm maxSV1 tl u) as Eu.
  { unfold dt, dtable_of. cbn [dt_table]. by apply zat_map_seqZ. }
  rewrite <- Eu in Ed.
  assert (nb <= davail (dv_bitD v)) as Hav' by lia.
  assert (0 <= davail (dv_bitD v)) by lia.
  destruct (getsymbol_step dt fast W8 Hwf _ u (dv_bitD v) 0 Hc) as (st & x' & Eg & Hst & Hval);
    [left; eauto|lia|].
  destruct (Hval _ Hd) as (-> & Hd'); [by rewrite Ed|]. rewrite Ed in Eg, Hd', Hst.
  cbn [nbBits symbol newState] in Eg, Hd', Hst. replace (n' + nb - nb) with n' in Hd', Hst by lia.
  rewrite Hbits in Hst.
  assert (oth' / 2 ^ nb * 2 ^ nb - 2 ^ tl + oth' mod 2 ^ nb = oth' - 2 ^ tl) as Ex.
  { pose proof (Z.div_mod oth' (2 ^ nb) ltac:(apply Z.pow_nonzero; lia)). lia. }
  rewrite Ex in Hst.
  assert (Z.even (dv_op v + 1) = negb (Z.even (dv_op v))) as Eev
    by (rewrite Z.even_add; by destruct (Z.even (dv_op v))).
  pose proof (drep_consumed _ _ _ Hd) as Hcon.
  unfold get_cur, get1, get2. destruct (Z.even (dv_op v)) eqn:Ev; rewrite Eg; cbn [bind];
    rewrite wr_ok by lia; cbn [bind]; (eexists; split; [done|]);
    cbn [dv_op dv_dst dv_bitD dv_state1 dv_state2]; rewrite E', Eev; cbn [negb];
    (split; [|split; [done|unfold davail, BIT_skipBits in *; cbs; rewrite u32_small; lia]]);
    (split_and!; [lia|lia|by rewrite zlen_zupd|apply take_snoc_upd; [lia|lia|done]|done|done|done|done]).
Qed.

(** The last two symbols: the stream is at its end, and the bit that the last
    entry but one asks for overflows it. *)
Lemma get_last v :
  rrep v -> dv_op v = zlen src - 2 ->
  exists v1 v2 v3, get_cur v = Ok v1 /\ dv_op v1 = dv_op v + 1 /\
    reload_vars W8 v1 = Ok (BIT_DStream_overflow, v2) /\ dv_op v2 = dv_op v + 1 /\
    get_cur v2 = Ok v3 /\ dv_op v3 = zlen src /\ zlen (dv_dst v3) = n0 /\
    take (length src) (dv_dst v3) = src.
Proof.
  unfold rrep. intros Hv Hop.
  assert (suffix src (dv_op v) = [zat src (zlen src - 2); zat src (zlen src - 1)]) as Esuf.
  { unfold suffix. rewrite Hop, drop_zat, drop_zat, drop_ge by (unfold zlen in *; lia).
    do 2 f_equal. f_equal. lia. }
  rewrite Esuf, enc_all_2 in Hv. destruct Hv as (Hop0 & Hl & Ht & Hd & _ & Hc & Ho).
  destruct (codable_zat norm maxSV1 src (zlen src - 2) Hsrc) as [Hsa Hna]; [lia|].
  destruct (codable_zat norm maxSV1 src (zlen src - 1) Hsrc) as [Hsb Hnb]; [lia|].
  destruct (initCState2_spec norm maxSV1 tl ct Hok Hct _ Htl12 Hsa Hna) as (_ & ua & _ & _ & Ea & Hua & Hsyma & Hnba).
  destruct (initCState2_spec norm maxSV1 tl ct Hok Hct _ Htl12 Hsb Hnb) as (_ & ub & _ & _ & Eb & Hub & Hsymb & _).
  rewrite Ea in Hc. rewrite Eb in Ho.
  replace (2 ^ tl + ua - 2 ^ tl) with ua in Hc by lia. replace (2 ^ tl + ub - 2 ^ tl) with ub in Ho by lia.
  set (a := zat src (zlen src - 2)) in *. set (b := zat src (zlen src - 1)) in *.
  assert (zat (dt_table dt) ua = dentry norm maxSV1 tl ua) as Eua by (by apply zat_map_seqZ).
  assert (zat (dt_table dt) ub = dentry norm maxSV1 tl ub) as Eub by (by apply zat_map_seqZ).
  rewrite <- Eua in Hsyma, Hnba. rewrite <- Eub in Hsymb.
  assert (1 <= nbBits (zat (dt_table dt) ua) <= 12) as Hnb1.
  { rewrite Hnba. pose proof (nok_counts _ _ _ Hok a Hsa). pose proof (Hfull a Hsa).
    assert (Z.log2 (Z.abs (zat norm a)) < tl) by (apply Z.log2_lt_pow2; lia).
    pose proof (Z.log2_nonneg (Z.abs (zat norm a))). lia. }
  assert (d_bitsConsumed (dv_bitD v) = 64) as Hcon.
  { destruct Hd as (p & _ & _ & _ & ? & _ & _ & ? & ? & ?). lia. }
  destruct (getsymbol_step dt fast W8 Hwf _ ua (dv_bitD v) 0 Hc) as (sta & xa & Eg & Hsta & _); [left; eauto|lia|].
  rewrite Hsyma in Eg. set (d1 := BIT_skipBits _ _) in *.
  assert (d_bitsConsumed d1 = 64 + nbBits (zat (dt_table dt) ua)) as Hcon1.
  { unfold d1, BIT_skipBits. cbs. rewrite Hcon, u32_small; lia. }
  assert (exists d2, BIT_reloadDStream W8 d1 = Ok (BIT_DStream_overflow, d2) /\ dlive W8 d2 12) as (d2 & Erl & Hd2).
  { unfold BIT_reloadDStream, containerSize.
    replace (d_bitsConsumed d1 >? 8 * 8) with true by (symmetry; rewrite Z.gtb_ltb; apply Z.ltb_lt; lia).
    eexists. split; [done|]. right. cbs. lia. }
  destruct (getsymbol_step dt fast W8 Hwf _ ub d2 12 Ho) as (stb & xb & Egb & _ & _); [done|lia|].
  rewrite Hsymb in Egb.
  assert (Z.even (dv_op v + 1) = negb (Z.even (dv_op v))) as Eev
    by (rewrite Z.even_add; by destruct (Z.even (dv_op v))).
  assert (take (length src) (zupd (zupd (dv_dst v) (dv_op v) a) (dv_op v + 1) b) = src) as Hfinal.
  { assert (take (Z.to_nat (dv_op v + 1)) (zupd (dv_dst v) (dv_op v) a) = take (Z.to_nat (dv_op v + 1)) src) as H1.
    { unfold a. replace (zlen src - 2) with (dv_op v) by lia. apply take_snoc_upd; [lia|lia|done]. }
    pose proof (take_snoc_upd (zupd (dv_dst v) (dv_op v) a) src (dv_op v + 1)
      ltac:(rewrite zlen_zupd; lia) ltac:(lia) H1) as H2.
    replace (zat src (dv_op v + 1)) with b in H2 by (unfold b; f_equal; lia).
    replace (Z.to_nat (dv_op v + 1 + 1)) with (length src) in H2 by (unfold zlen in *; lia).
    rewrite H2. apply firstn_all. }
  unfold get_cur, get1, get2, reload_vars in *.
  destruct (Z.even (dv_op v)) eqn:Ev; rewrite Eg; cbn [bind]; rewrite wr_ok by lia; cbn [bind];
    do 3 eexists; (split; [done|]); cbn [dv_op dv_dst dv_bitD dv_state1 dv_state2]; (split; [done|]);
    rewrite Erl; cbn [bind]; (split; [done|]); cbn [dv_op dv_dst dv_bitD dv_state1 dv_state2]; (split; [done|]);
    rewrite Eev; cbn [negb]; rewrite Egb; cbn [bind]; rewrite wr_ok by (rewrite zlen_zupd; lia); cbn [bind];
    (split; [done|]); cbn [dv_op dv_dst]; (split; [lia|]); (split; [by rewrite !zlen_zupd|done]).
Qed.

(** Reloading keeps the relation, and makes the next bits available. *)
Lemma reload_sim v :
  rrep v ->
  exists st v', reload_vars W8 v = Ok (st, v') /\ rrep v' /\ dv_op v' = dv_op v /\
    st <> BIT_DStream_overflow /\ Z.min 57 (bits_left v') <= davail (dv_bitD v') /\
    (st = BIT_DStream_unfinished -> 57 <= davail (dv_bitD v') /\ 57 <= bits_left v').
Proof.
  unfold rrep, bits_left. intros Hv. unfold reload_vars.
  destruct (enc_all norm ct tl (suffix src (dv_op v))) as [[[acc n] cur] oth] eqn:E.
  destruct Hv as (Hop & Hl & Ht & Hd & Hw & Hc & Ho).
  destruct (reload_refines W8 (dv_bitD v) n Hbytes Hd) as (st & d' & -> & Hd' & Hwin & _ & Hno & _ & Hu).
  cbn [bind]. do 2 eexists. split; [done|]. cbn [dv_op dv_dst dv_bitD dv_state1 dv_state2]. rewrite E.
  split; [done|]. split; [done|]. split; [done|]. split; [by eapply davail_min|].
  intros Hst. specialize (Hu Hst). unfold davail. split; [lia|].
  destruct Hd' as (p & _ & _ & _ & ? & _ & _ & ? & ? & ?). lia.
Qed.

Lemma rrep_op v : rrep v -> 0 <= dv_op v <= zlen src - 2.
Proof. unfold rrep. destruct (enc_all _ _ _ _) as [[[? ?] ?] ?]. tauto. Qed.
Lemma rrep_dst v : rrep v -> zlen (dv_dst v) = n0.
Proof. unfold rrep. destruct (enc_all _ _ _ _) as [[[? ?] ?] ?]. tauto. Qed.

Lemma even_succ x : Z.even (x + 1) = negb (Z.even x).
Proof. rewrite Z.even_add. by destruct (Z.even x). Qed.

(** Two calls of the loop bodies, at an even position. *)
Lemma get12_sim v :
  rrep v -> Z.even (dv_op v) = true -> dv_op v < zlen src - 3 -> 24 <= davail (dv_bitD v) ->
  exists v1 v2, get1 fast v = Ok v1 /\ get2 fast v1 = Ok v2 /\ rrep v2 /\ dv_op v2 = dv_op v + 2 /\
    davail (dv_bitD v) - 24 <= davail (dv_bitD v2).
Proof.
  intros Hv Hev Hop Hav.
  destruct (get_sim v Hv) as (v1 & E1 & Hv1 & Ho1 & Ha1); [lia|lia|].
  destruct (get_sim v1 Hv1) as (v2 & E2 & Hv2 & Ho2 & Ha2); [lia|lia|].
  unfold get_cur in E1, E2. rewrite Hev in E1. rewrite Ho1, even_succ, Hev in E2. cbn [negb] in E2.
  exists v1, v2. split_and!; try done; lia.
Qed.

Lemma main_loop_sim v :
  rrep v -> Z.even (dv_op v) = true ->
  wp (loop_ (S (length (dv_dst v))) (fun v =>
    let* '(st, v) := reload_vars W8 v in
    if bool_decide (st = BIT_DStream_unfinished) && (dv_op v <? n0 - 3) then
      let* v := get1 fast v in
      let* v := get2 fast v in
      let* v := get1 fast v in
      let* v := get2 fast v in
      Ok (Continue v)
    else Ok (Break v)) v)
    (fun v => rrep v /\ Z.even (dv_op v) = true /\
       Z.min 57 (bits_left v) <= davail (dv_bitD v)) no_errors.
Proof.
  intros Hv Hev.
  apply (wp_loop (fun v => rrep v /\ Z.even (dv_op v) = true) (fun v => n0 - dv_op v)); [done| |].
  { pose proof (rrep_op v Hv). pose proof (rrep_dst v Hv). unfold zlen in *. lia. }
  clear v Hv Hev. intros v [Hv Hev]. pose proof (rrep_op v Hv) as Hop.
  destruct (reload_sim v Hv) as (st & v1 & -> & Hv1 & Ho1 & _ & Hav & Hu). cbn [bind].
  destruct (_ && _) eqn:Ec; [|wp_step; split_and!; try done; by rewrite Ho1].
  apply andb_true_iff in Ec as [Ec _]. apply bool_decide_eq_true in Ec.
  destruct (Hu Ec) as [Ha Hb]. pose proof (bits_left_bound v1 ltac:(lia)).
  destruct (get12_sim v1 Hv1) as (w1 & w2 & -> & E2 & Hw2 & Ho2 & Ha2); [by rewrite Ho1|lia|lia|].
  cbn [bind]. rewrite E2. cbn [bind].
  assert (Z.even (dv_op w2) = true) as Hev2 by (rewrite Ho2, Ho1, Z.even_add, Hev; done).
  destruct (get12_sim w2 Hw2) as (w3 & w4 & -> & E4 & Hw4 & Ho4 & Ha4); [done|lia|lia|].
  cbn [bind]. rewrite E4. cbn [bind]. wp_step.
  pose proof (rrep_op _ Hw4).
  split; [split; [done|rewrite Ho4, Z.even_add, Hev2; done]|lia].
Qed.

Lemma tail_loop_sim v :
  rrep v -> Z.even (dv_op v) = true -> Z.min 57 (bits_left v) <= davail (dv_bitD v) ->
  wp (loop_ (S (length (dv_dst v))) (fun v =>
    ERROR_IF dv_op v >? n0 - 2 THEN dstSize_tooSmall ;;
    let* v := get1 fast v in
    let* '(st, v) := reload_vars W8 v in
    if bool_decide (st = BIT_DStream_overflow) then
      let* v := get2 fast v in Ok (Break v)
    else
      ERROR_IF dv_op v >? n0 - 2 THEN dstSize_tooSmall ;;
      let* v := get2 fast v in
      let* '(st, v) := reload_vars W8 v in
      if bool_decide (st = BIT_DStream_overflow) then
        let* v := get1 fast v in Ok (Break v)
      else Ok (Continue v)) v)
    (fun v => dv_op v = zlen src /\ zlen (dv_dst v) = n0 /\ take (length src) (dv_dst v) = src)
    no_errors.
Proof.
  intros Hv Hev Hav.
  apply (wp_loop (fun v => rrep v /\ Z.even (dv_op v) = true /\
    Z.min 57 (bits_left v) <= davail (dv_bitD v)) (fun v => n0 - dv_op v)); [done| |].
  { pose proof (rrep_op v Hv). pose proof (rrep_dst v Hv). unfold zlen in *. lia. }
  clear v Hv Hev Hav. intros v (Hv & Hev & Hav). pose proof (rrep_op v Hv) as Hop.
  wp_step; [lia|].
  destruct (Z.eqb_spec (dv_op v) (zlen src - 2)) as [Elast|Hne].
  { destruct (get_last v Hv Elast) as (v1 & v2 & v3 & E1 & _ & E2 & Ho2 & E3 & Hres).
    unfold get_cur in E1, E3. rewrite Hev in E1. rewrite Ho2, even_succ, Hev in E3. cbn [negb] in E3.
    rewrite E1. cbn [bind]. rewrite E2. cbn [bind].
    rewrite bool_decide_eq_true_2 by done. rewrite E3. cbn [bind]. wp_step. done. }
  pose proof (bits_left_bound v ltac:(lia)).
  destruct (get_sim v Hv) as (v1 & E1 & Hv1 & Ho1 & _); [lia|lia|].
  unfold get_cur in E1. rewrite Hev in E1. rewrite E1. cbn [bind].
  destruct (reload_sim v1 Hv1) as (st & v2 & -> & Hv2 & Ho2 & Hno & Ha2 & _). cbn [bind].
  rewrite bool_decide_eq_false_2 by done. wp_step; [lia|].
  assert (Z.even (dv_op v2) = false) as Hev2 by (rewrite Ho2, Ho1, even_succ, Hev; done).
  destruct (Z.eqb_spec (dv_op v2) (zlen src - 2)) as [Elast|Hne2].
  { destruct (get_last v2 Hv2 Elast) as (w1 & w2 & w3 & F1 & _ & F2 & Fo2 & F3 & Hres).
    unfold get_cur in F1, F3. rewrite Hev2 in F1. rewrite Fo2, even_succ, Hev2 in F3. cbn [negb] in F3.
    rewrite F1. cbn [bind]. rewrite F2. cbn [bind].
    rewrite bool_decide_eq_true_2 by done. rewrite F3. cbn [bind]. wp_step. done. }
  pose proof (bits_left_bound v2 ltac:(lia)).
  destruct (get_sim v2 Hv2) as (v3 & E3 & Hv3 & Ho3 & _); [lia|lia|].
  unfold get_cur in E3. rewrite Hev2 in E3. rewrite E3. cbn [bind].
  destruct (reload_sim v3 Hv3) as (st' & v4 & -> & Hv4 & Ho4 & Hno4 & Ha4 & _). cbn [bind].
  rewrite bool_decide_eq_false_2 by done. wp_step. pose proof (rrep_op _ Hv4).
  split; [|lia]. split_and!; try done. rewrite Ho4, Ho3, even_succ, Hev2. done.
Qed.

Lemma decompress_ok dst :
  zlen dst = n0 -> le_val W8 = (final_bits norm tl ct src).1 + 2 ^ (final_bits norm tl ct src).2 ->
  8 * (zlen W8 - 1) <= (final_bits norm tl ct src).2 < 8 * zlen W8 ->
  wp (FSE_decompress_usingDTable_generic dst W8 dt fast)
    (fun '(dst', n) => n = zlen src /\ take (length src) dst' = src) no_errors.
Proof.
  intros Hl HW Hsz. unfold FSE_decompress_usingDTable_generic. cbv zeta.
  pose proof (suffix_inv norm maxSV1 tl ct Hok Hct Htl12 src 0 Hsrc ltac:(lia)) as Hinv.
  unfold final_bits, suffix in *. change (drop (Z.to_nat 0) src) with src in Hinv.
  destruct (enc_all norm ct tl src) as [[[acc n] cur] oth] eqn:E. cbn [fst snd] in HW, Hsz.
  destruct Hinv as (Hacc & Hn & Hcur & Hoth).
  pose proof (pow2_pos n ltac:(lia)). rewrite pow2_S in Hcur, Hoth by lia.
  assert (oth mod 2 ^ tl = oth - 2 ^ tl) as Eo by (symmetry; apply Z.mod_unique with 1; lia).
  assert (cur mod 2 ^ tl = cur - 2 ^ tl) as Ec by (symmetry; apply Z.mod_unique with 1; lia).
  rewrite Eo, Ec in HW.
  set (B := acc + 2 ^ n * (oth - 2 ^ tl)) in *. set (A := B + 2 ^ (n + tl) * (cur - 2 ^ tl)) in *.
  assert (0 <= B < 2 ^ (n + tl)) as HB by (rewrite pow2_add by lia; unfold B; nia).
  pose proof (pow2_pos (n + tl) ltac:(lia)).
  assert (0 <= A < 2 ^ (n + tl + tl)) as HA by (rewrite (pow2_add (n + tl)) by lia; unfold A; nia).
  assert (Z.log2 (le_val W8) = n + tl + tl) as Hlog.
  { apply Z.log2_unique; [lia|]. rewrite Z.pow_succ_r by lia. lia. }
  assert (le_val W8 mod 2 ^ (n + tl + tl) = A) as HmA.
  { rewrite HW. rewrite <- (Z.mul_1_l (2 ^ (n + tl + tl))) at 1.
    rewrite Z.mod_add by (apply Z.pow_nonzero; lia). by apply Z.mod_small. }
  assert ((le_val W8 / 2 ^ (n + tl)) mod 2 ^ tl = cur - 2 ^ tl /\ le_val W8 mod 2 ^ (n + tl) = B) as [Hb1 HmB].
  { rewrite <- Ec. apply peel; first [lia|rewrite Ec; exact HmA]. }
  assert ((le_val W8 / 2 ^ n) mod 2 ^ tl = oth - 2 ^ tl /\ le_val W8 mod 2 ^ n = acc) as [Hb2 Hmacc].
  { rewrite <- Eo. apply peel; first [lia|rewrite Eo; exact HmB]. }
  destruct (initDStream_refines W8 Hbytes Hsize) as (d0 & -> & Hd0).
  { intros Hz. rewrite (zsub_cut W8 (zlen W8 - 1)) in HW by lia.
    replace (zlen W8 - (zlen W8 - 1)) with 1 in HW by lia.
    rewrite (zsub_cons W8 (zlen W8 - 1)), zsub_0, Hz, le_val_app in HW by lia.
    change (le_val [0]) with 0 in HW.
    pose proof (le_val_range _ (bytes_ok_zsub W8 0 (zlen W8 - 1) Hbytes)) as Hlv.
    rewrite zlen_zsub in Hlv by lia. pose proof (pow2_le (8 * (zlen W8 - 1)) (n + tl + tl)). lia. }
  cbn [bind]. rewrite Hlog in Hd0.
  assert (tl <= davail d0) as Ha0.
  { destruct Hd0 as (p & _ & _ & _ & ? & [?|?] & _ & ? & ? & ?); unfold davail; lia. }
  unfold FSE_initDState. change (dt_tableLog dt) with tl.
  destruct (readBits_refines W8 d0 _ tl Hd0) as (d1 & -> & Hd1 & _); [lia|done|]. cbn [bind].
  replace (n + tl + tl - tl) with (n + tl) in * by lia.
  destruct (reload_refines W8 d1 _ Hbytes Hd1) as (st1 & d2 & -> & Hd2 & Hw2 & _). cbn [bind].
  pose proof (davail_min _ _ _ Hd2 Hw2) as Hmin.
  destruct (readBits_refines W8 d2 _ tl Hd2) as (d3 & -> & Hd3 & _); [lia|lia|]. cbn [bind].
  replace (n + tl - tl) with n in * by lia.
  destruct (reload_refines W8 d3 _ Hbytes Hd3) as (st2 & d4 & -> & Hd4 & _). cbn [bind].
  destruct (reload_refines W8 d4 _ Hbytes Hd4) as (st3 & d5 & -> & Hd5 & _ & _ & Hno & _). cbn [bind].
  rewrite bool_decide_eq_false_2 by done. cbn [RETURN_ERROR_IF]. rewrite Hb1, Hb2.
  wp_step. rewrite Hl. eapply wp_mono.
  { replace (S (length dst)) with (S (length (dv_dst (mkDVars dst 0 d5
      (mkDState (cur - 2 ^ tl) (dt_table dt)) (mkDState (oth - 2 ^ tl) (dt_table dt)))))) by done.
    apply main_loop_sim; [|done]. unfold rrep, suffix. cbn [dv_op dv_dst dv_bitD dv_state1 dv_state2].
    change (drop (Z.to_nat 0) src) with src. rewrite E. cbn [Z.even]. unfold on_dtable. change (dt_tableLog dt) with tl.
    split_and!; done || lia. }
  2: done.
  intros v (Hv & Hev & Hav). wp_step.
  replace (S (length dst)) with (S (length (dv_dst v)))
    by (pose proof (rrep_dst v Hv); unfold zlen in *; lia).
  eapply wp_mono; [by apply tail_loop_sim| |done]. intros v' (-> & _ & Hres). wp_step. done.
Qed.

End roundtrip.

(** *** The transitions of the decoding table *)

Section transitions.
Context (norm : list Z) (maxSV1 tl : Z).
Hypothesis Hok : norm_ok norm maxSV1 tl.
Notation table := (dt_table (dtable_of norm maxSV1 tl)).

Lemma dtable_zat u : 0 <= u < 2 ^ tl -> zat table u = dentry norm maxSV1 tl u.
Proof. intros. by apply zat_map_seqZ. Qed.

Lemma dtable_symbols : map symbol table = state_symbols norm maxSV1 tl.
Proof.
  unfold dtable_of. cbn [dt_table]. rewrite map_map. cbn [symbol dentry].
  rewrite <- (map_zat_seqZ (state_symbols norm maxSV1 tl)) at 1. by rewrite zlen_state_symbols.
Qed.

(** The [k]-th state of a symbol of [w] states has the bits that bring [w + k] to the
    size of the table. *)
Lemma dtable_transition u :
  0 <= u < 2 ^ tl ->
  let e := zat table u in
  let x := Z.abs (zat norm (symbol e)) + occ (symbol e) (take (Z.to_nat u) (map symbol table)) in
  2 ^ tl <= x * 2 ^ nbBits e < 2 ^ (tl + 1) /\ newState e = x * 2 ^ nbBits e - 2 ^ tl.
Proof.
  intros Hu. cbv zeta. rewrite dtable_zat, dtable_symbols by done.
  pose proof (dentry_bounds norm maxSV1 tl Hok u Hu) as Hd. cbv zeta in Hd. unfold rank in Hd.
  set (e := dentry norm maxSV1 tl u) in *. change (zat (state_symbols norm maxSV1 tl) u) with (symbol e) in Hd.
  destruct Hd as (_ & Hnb & E & H0 & H1 & _). rewrite E. pose proof (pow2_pos (nbBits e) ltac:(lia)).
  rewrite pow2_S by (pose proof (tl_range norm maxSV1 tl Hok); lia). lia.
Qed.

(** Two numbers of [w, 2 w) that the same number extends. *)
Lemma extension_inj w x1 x2 nb1 nb2 v :
  w <= x1 < 2 * w -> w <= x2 < 2 * w -> 0 <= nb1 -> 0 <= nb2 ->
  x1 * 2 ^ nb1 <= v < (x1 + 1) * 2 ^ nb1 -> x2 * 2 ^ nb2 <= v < (x2 + 1) * 2 ^ nb2 -> x1 = x2.
Proof.
  assert (forall x1 x2 nb1 nb2, w <= x1 < 2 * w -> w <= x2 < 2 * w -> 0 <= nb1 -> nb1 < nb2 ->
    x1 * 2 ^ nb1 <= v < (x1 + 1) * 2 ^ nb1 -> x2 * 2 ^ nb2 <= v < (x2 + 1) * 2 ^ nb2 -> False) as Hlt.
  { clear. intros x1 x2 nb1 nb2 H1 H2 Hnb Hlt Hv1 Hv2. pose proof (pow2_pos nb1 Hnb). pose proof (pow2_le (nb1 + 1) nb2 ltac:(lia)) as Hp.
    rewrite pow2_S in Hp by lia. nia. }
  intros H1 H2 Hn1 Hn2 Hv1 Hv2. destruct (Z.lt_trichotomy nb1 nb2) as [H|[<-|H]].
  - destruct (Hlt x1 x2 nb1 nb2); done || lia.
  - pose proof (pow2_pos nb1 Hn1). nia.
  - destruct (Hlt x2 x1 nb2 nb1); done || lia.
Qed.

(** For each symbol the states that may follow are split among its own. *)
Lemma dtable_partition s v :
  0 <= s < maxSV1 -> zat norm s <> 0 -> 0 <= v < 2 ^ tl ->
  exists! u, 0 <= u < 2 ^ tl /\ symbol (zat table u) = s /\ newState (zat table u) <= v < newState (zat table u) + 2 ^ nbBits (zat table u).
Proof.
  intros Hs Hn Hv. pose proof (abs_norm_le norm maxSV1 tl Hok s Hs) as Hle. pose proof (tl_range norm maxSV1 tl Hok) as Htl.
  destruct (enc_nb_spec norm maxSV1 tl Hok (Z.abs (zat norm s)) (2 ^ tl + v)) as (Hnb & Hx & Hlog); [lia|rewrite pow2_S by lia; lia|].
  set (nb := enc_nb tl (Z.abs (zat norm s)) (2 ^ tl + v)) in *. set (x := (2 ^ tl + v) / 2 ^ nb) in *.
  destruct (occ_find s (state_symbols norm maxSV1 tl) (x - Z.abs (zat norm s))) as (u & Hu & Hz & Ho).
  { rewrite (occ_state_symbols norm maxSV1 tl Hok) by done. lia. }
  rewrite zlen_state_symbols in Hu. assert (forall u', 0 <= u' < 2 ^ tl -> symbol (zat table u') = zat (state_symbols norm maxSV1 tl) u') as Hsym.
  { intros u' Hu'. by rewrite dtable_zat. }
  exists u. split.
  - split; [done|]. split; [by rewrite Hsym|]. rewrite dtable_zat by done. unfold dentry, rank. rewrite Hz, Ho. cbn [newState nbBits].
    replace (Z.abs (zat norm s) + (x - Z.abs (zat norm s))) with x by lia. rewrite <- Hlog.
    pose proof (pow2_pos nb ltac:(lia)). unfold x. zdm.
  - intros u' (Hu' & Es' & Hr'). pose proof (dtable_transition u' Hu') as [Hs' E']. cbv zeta in Hs', E'. rewrite Es', dtable_symbols in Hs', E'. rewrite E' in Hr'.
    assert (0 <= nbBits (zat table u')) as Hnb'.
    { rewrite dtable_zat by done. pose proof (dentry_bounds norm maxSV1 tl Hok u' Hu') as Hd. cbv zeta in Hd. lia. }
    pose proof (rank_range norm maxSV1 tl Hok u' Hu') as Hk. unfold rank in Hk. rewrite Hsym in Es' by done. rewrite Es' in Hk.
    set (k := occ s (take (Z.to_nat u') (state_symbols norm maxSV1 tl))) in *.
    assert (x = Z.abs (zat norm s) + k) as Ex.
    { pose proof (pow2_pos nb ltac:(lia)).
      apply (extension_inj (Z.abs (zat norm s)) _ _ nb (nbBits (zat table u')) (2 ^ tl + v)); try lia. unfold x. zdm. }
    apply (occ_inj (state_symbols norm maxSV1 tl)); rewrite ?zlen_state_symbols; try done; [by rewrite Hz, Es'|].
    rewrite Hz, Es', Ho. unfold k in Ex. lia.
Qed.
End transitions.

(** ** Properties *)


Definition sample_norm : list Z := [5; -1; 10; 16].
Definition sample_src : list Z := [0; 2; 3; 3; 1; 2; 2; 3; 0; 3; 3; 3; 2; 1; 0; 2; 3].

Lemma sample_norm_ok : norm_ok sample_norm 4 5.
Proof.
  split; [lia|vm_compute; split; congruence|lia| |vm_compute; reflexivity].
  intros s Hs. apply Z.leb_le. revert s Hs.
  apply (forallb_range (fun s => -1 <=? zat sample_norm s) 0 4). vm_compute. reflexivity.
Qed.

Lemma sample_codable : codable sample_norm 4 sample_src.
Proof.
  unfold codable. apply (bool_decide_unpack (Forall (fun s => 0 <= s < 4 /\ zat sample_norm s <> 0) sample_src)).
  vm_compute. exact I.
Qed.


(** C27: the decoding table. For all normalised counts, the builder succeeds
    whatever its memory held before, and in the table it returns: each symbol has
    as many states as its count says (one for a symbol of low probability); every
    entry names a symbol of the alphabet, asks for at most [tableLog] bits and is
    the transition of the automaton: the [k]-th state of a symbol of [w] states asks
    for the bits that bring [w + k] to the size of the table, and leads to what they
    make of it; the next state is in the table whatever these bits are; and the
    states of a symbol split the table: each state follows exactly one of them, so
    that coding a symbol before a state is possible in one way; fast mode is set
    exactly when no count reaches half of the table, in which case every entry
    asks for at least one bit. *)
Theorem FSE_buildDTable_correct (norm : list Z) (maxSV1 tl : Z) table symbolNext spread wksp :
  norm_ok norm maxSV1 tl -> tl <= 12 ->
  zlen table = 2 ^ tl -> zlen symbolNext = maxSV1 -> zlen spread = 2 ^ tl + 8 ->
  FSE_BUILD_DTABLE_WKSP_SIZE tl (maxSV1 - 1) <= wksp ->
  exists dt,
    FSE_buildDTable_internal table norm (maxSV1 - 1) tl symbolNext spread wksp = Ok dt /\
    dt_tableLog dt = tl /\ zlen (dt_table dt) = 2 ^ tl /\
    (forall s, 0 <= s < maxSV1 -> occ s (map symbol (dt_table dt)) = Z.abs (zat norm s)) /\
    (forall u, 0 <= u < 2 ^ tl ->
       let e := zat (dt_table dt) u in
       let x := Z.abs (zat norm (symbol e)) + occ (symbol e) (take (Z.to_nat u) (map symbol (dt_table dt))) in
       0 <= symbol e < maxSV1 /\ 0 <= nbBits e <= tl /\
       2 ^ tl <= x * 2 ^ nbBits e < 2 ^ (tl + 1) /\ newState e = x * 2 ^ nbBits e - 2 ^ tl /\
       (forall low, 0 <= low < 2 ^ nbBits e -> 0 <= newState e + low < 2 ^ tl) /\
       (dt_fastMode dt = 1 -> 1 <= nbBits e)) /\
    (forall s v, 0 <= s < maxSV1 -> zat norm s <> 0 -> 0 <= v < 2 ^ tl ->
       exists! u, 0 <= u < 2 ^ tl /\ symbol (zat (dt_table dt) u) = s /\
         newState (zat (dt_table dt) u) <= v < newState (zat (dt_table dt) u) + 2 ^ nbBits (zat (dt_table dt) u)) /\
    (dt_fastMode dt = 1 <-> forall s, 0 <= s < maxSV1 -> zat norm s < 2 ^ (tl - 1)).
Proof.
  intros Hok Htl12 H1 H2 H3 H4. exists (dtable_of norm maxSV1 tl).
  split; [by apply buildDTable_ok|]. pose proof (T_bounds norm maxSV1 tl Hok) as HT.
  split; [done|]. split; [by apply zlen_map_seqZ; lia|]. split; [|split; [|split]].
  - intros s Hs. rewrite dtable_symbols. by apply occ_state_symbols.
  - intros u Hu. pose proof (dtable_transition norm maxSV1 tl Hok u Hu) as [Hx Hnew].
    pose proof (dentry_bounds norm maxSV1 tl Hok u Hu) as Hd. rewrite <- dtable_zat in Hd by done. cbv zeta in Hx, Hnew, Hd |- *.
    do 4 (split; [tauto|]). split; [lia|]. intros Hf.
    destruct (dtable_of_wf norm maxSV1 tl true Hok Htl12) as [_ _ He].
    { intros _. cbn [dt_fastMode dtable_of] in Hf. by destruct (no_large _ _ _). }
    specialize (He u Hu). cbv zeta in He. by apply He.
  - by apply dtable_partition.
  - cbn [dt_fastMode dtable_of].
    transitivity (no_large norm maxSV1 tl = true); [by destruct (no_large _ _ _)|].
    unfold no_large. rewrite forallb_forall. split.
    + intros H s Hs. apply Z.ltb_lt, H, list_elem_of_In, elem_of_seqZ. lia.
    + intros H s Hs. apply Z.ltb_lt, H. apply list_elem_of_In, elem_of_seqZ in Hs. lia.
Qed.

Lemma FSE_buildDTable_correct_witness :
  exists dt, FSE_buildDTable_internal (zfill 32 (mkDecode 1 2 3)) sample_norm 3 5 (zfill 4 8)
      (zfill 40 5) 200 = Ok dt /\ occ 2 (map symbol (dt_table dt)) = 10 /\
    exists! u, 0 <= u < 32 /\ symbol (zat (dt_table dt) u) = 2 /\
      newState (zat (dt_table dt) u) <= 17 < newState (zat (dt_table dt) u) + 2 ^ nbBits (zat (dt_table dt) u).
Proof.
  destruct (FSE_buildDTable_correct sample_norm 4 5 (zfill 32 (mkDecode 1 2 3)) (zfill 4 8) (zfill 40 5) 200
    sample_norm_ok ltac:(lia) eq_refl eq_refl eq_refl ltac:(vm_compute; congruence))
    as (dt & E & _ & _ & Hocc & _ & Hpart & _).
  exists dt. split; [exact E|]. split; [exact (Hocc 2 ltac:(lia))|].
  exact (Hpart 2 17 ltac:(lia) ltac:(discriminate) ltac:(lia)).
Defined.

(** C20: the FSE decoder is safe on arbitrary input. With the decoding table of
    any normalised counts, in the mode the table asks for, decompressing any
    bytes into any destination ends, and either reports an error or the number
    of symbols written, which fits the destination; no access is out of bounds. *)
Theorem FSE_decompress_safe (norm : list Z) (maxSV1 tl : Z) (cSrc dst : list Z) table symbolNext spread wksp :
  norm_ok norm maxSV1 tl -> tl <= 12 -> bytes_ok cSrc -> zlen cSrc < 2 ^ 32 -> bytes_ok dst ->
  zlen table = 2 ^ tl -> zlen symbolNext = maxSV1 -> zlen spread = 2 ^ tl + 8 ->
  FSE_BUILD_DTABLE_WKSP_SIZE tl (maxSV1 - 1) <= wksp ->
  wp (let* dt := FSE_buildDTable_internal table norm (maxSV1 - 1) tl symbolNext spread wksp in
      FSE_decompress_usingDTable_generic dst cSrc dt (negb (dt_fastMode dt =? 0)))
    (fun '(dst', n) => zlen dst' = zlen dst /\ 0 <= n <= zlen dst /\ bytes_ok dst') any_error.
Proof.
  intros Hok Htl12 Hb Hlen Hdst H1 H2 H3 H4. rewrite buildDTable_ok by done. cbn [bind].
  apply decompress_wp; try done. apply dtable_of_wf; [done|done|].
  cbn [dt_fastMode dtable_of]. by destruct (no_large _ _ _).
Qed.

Lemma FSE_decompress_safe_witness :
  wp (let* dt := FSE_buildDTable_internal (zfill 32 (mkDecode 1 2 3)) sample_norm 3 5 (zfill 4 8)
        (zfill 40 5) 200 in
      FSE_decompress_usingDTable_generic (zfill 5 0) [1; 2; 3; 4; 5; 6; 7; 8; 9; 255] dt
        (negb (dt_fastMode dt =? 0)))
    (fun '(dst', n) => zlen dst' = 5 /\ 0 <= n <= 5 /\ bytes_ok dst') any_error.
Proof.
  apply (FSE_decompress_safe sample_norm 4 5 [1; 2; 3; 4; 5; 6; 7; 8; 9; 255] (zfill 5 0)
    (zfill 32 (mkDecode 1 2 3)) (zfill 4 8) (zfill 40 5) 200);
    [exact sample_norm_ok|lia|bytes_dec|vm_compute; reflexivity|bytes_dec|reflexivity..|vm_compute; congruence].
Defined.
