(* ===== verification/FseNCount.v ===== *)
(** The header of an FSE table (common/entropy_common.c): reading normalised
    counts from untrusted bytes. The reader stays in its buffer, always ends,
    and what it accepts is a valid table description. *)

From S2P Require Import Prelude Errors Outcome Bits Mem FseTable FseSpread FseSymbols.

(** ** Definitions *)

(** The local variables of [FSE_readNCount_body]. *)
Record NC_vars := mkNC {
  nc_ip : Z;
  nc_bitStream : Z;
  nc_bitCount : Z;
  nc_charnum : Z;
  nc_nbBits : Z;
  nc_remaining : Z;
  nc_threshold : Z;
  nc_previous0 : bool;
  nc_norm : list Z;
}.

(** [MEM_readLE32(ip) >> bitCount]. *)
Definition NC_window (src : list Z) (ip bitCount : Z) : result Z :=
  let* w := readLE32 src ip in
  REQUIRE (0 <=? bitCount) && (bitCount <? 32) ;;
  Ok (Z.shiftr w bitCount).

(** [ZSTD_countTrailingZeros32(~bitStream | 0x80000000) >> 1]. *)
Definition NC_repeats (bitStream : Z) : Z :=
  Z.shiftr (ZSTD_countTrailingZeros32 (u32 (Z.lnot bitStream) .| 0x80000000)) 1.

(** Move to the next byte, or to the last word of the source. *)
Definition NC_advance (iend ip bitCount : Z) : Z * Z :=
  if (ip <=? iend - 7) || (ip + Z.shiftr bitCount 3 <=? iend - 4) then
    (ip + Z.shiftr bitCount 3, bitCount .& 7)
  else (iend - 4, (bitCount - 8 * (iend - 4 - ip)) .& 31).

(** The branch [if (previous0)], which skips a run of absent symbols. *)
Definition NC_zero_run (src : list Z) (maxSV1 : Z) (v : NC_vars) : result (flow NC_vars NC_vars) :=
  let iend := zlen src in
  let* '(ip, bitStream, bitCount, charnum) :=
    while_ (length src + 16)
      (fun '(ip, bitStream, bitCount, charnum) => NC_repeats bitStream >=? 12)
      (fun '(ip, bitStream, bitCount, charnum) =>
         let charnum := u32 (charnum + 3 * 12) in
         let '(ip, bitCount) :=
           if ip <=? iend - 7 then (ip + 3, bitCount)
           else (iend - 4, (bitCount - 8 * (iend - 7 - ip)) .& 31) in
         let* bitStream := NC_window src ip bitCount in
         Ok (ip, bitStream, bitCount, charnum))
      (nc_ip v, nc_bitStream v, nc_bitCount v, nc_charnum v) in
  let repeats := NC_repeats bitStream in
  let charnum := u32 (charnum + 3 * repeats) in
  let bitStream := Z.shiftr bitStream (2 * repeats) in
  let bitCount := bitCount + 2 * repeats in
  let charnum := u32 (charnum + (bitStream .& 3)) in
  let bitCount := bitCount + 2 in
  let v := mkNC ip bitStream bitCount charnum (nc_nbBits v) (nc_remaining v) (nc_threshold v)
             (nc_previous0 v) (nc_norm v) in
  if charnum >=? maxSV1 then Ok (Break v)
  else
    let '(ip, bitCount) := NC_advance iend ip bitCount in
    let* bitStream := NC_window src ip bitCount in
    Ok (Continue (mkNC ip bitStream bitCount charnum (nc_nbBits v) (nc_remaining v)
                    (nc_threshold v) (nc_previous0 v) (nc_norm v))).

(** The block that reads one count. *)
Definition NC_read_count (src : list Z) (maxSV1 : Z) (v : NC_vars) : result (flow NC_vars NC_vars) :=
  let iend := zlen src in
  let max := 2 * nc_threshold v - 1 - nc_remaining v in
  let '(count, bitCount) :=
    if (nc_bitStream v .& (nc_threshold v - 1)) <? u32 max then
      (nc_bitStream v .& (nc_threshold v - 1), nc_bitCount v + (nc_nbBits v - 1))
    else
      let count := nc_bitStream v .& (2 * nc_threshold v - 1) in
      (if count >=? nc_threshold v then count - max else count, nc_bitCount v + nc_nbBits v) in
  let count := count - 1 in
  let remaining := if count >=? 0 then nc_remaining v - count else nc_remaining v + count in
  let* norm := wr (nc_norm v) (nc_charnum v) (s16 count) in
  let charnum := u32 (nc_charnum v + 1) in
  let previous0 := count =? 0 in
  let v' := mkNC (nc_ip v) (nc_bitStream v) bitCount charnum (nc_nbBits v) remaining
              (nc_threshold v) previous0 norm in
  if (remaining <? nc_threshold v) && (remaining <=? 1) then Ok (Break v')
  else
    let '(nbBits, threshold) :=
      if remaining <? nc_threshold v then
        let nbBits := ZSTD_highbit32 remaining + 1 in (nbBits, Z.shiftl 1 (nbBits - 1))
      else (nc_nbBits v, nc_threshold v) in
    let v' := mkNC (nc_ip v) (nc_bitStream v) bitCount charnum nbBits remaining threshold
                previous0 norm in
    if charnum >=? maxSV1 then Ok (Break v')
    else
      let '(ip, bitCount) := NC_advance iend (nc_ip v) bitCount in
      let* bitStream := NC_window src ip bitCount in
      Ok (Continue (mkNC ip bitStream bitCount charnum nbBits remaining threshold previous0 norm)).

(** One iteration of [for (;;)]. *)
Definition NC_iteration (src : list Z) (maxSV1 : Z) (v : NC_vars) : result (flow NC_vars NC_vars) :=
  if nc_previous0 v then
    let* f := NC_zero_run src maxSV1 v in
    match f with
    | Break v => Ok (Break v)
    | Continue v => NC_read_count src maxSV1 v
    end
  else NC_read_count src maxSV1 v.

(** What a successful call returns: the counts, [*maxSVPtr], [*tableLogPtr] and
    the size of the header. *)
Record NCount := mkNCount {
  nco_norm : list Z;
  nco_maxSV : Z;
  nco_tableLog : Z;
  nco_size : Z;
}.

(** [FSE_readNCount_body], on at least 8 bytes. *)
Definition FSE_readNCount_body8 (normalizedCounter : list Z) (maxSV : Z) (src : list Z)
  : result NCount :=
  let maxSV1 := u32 (maxSV + 1) in
  let* norm := memcpy_at normalizedCounter 0 (zfill (maxSV + 1) 0) in
  let* bitStream := readLE32 src 0 in
  let nbBits := (bitStream .& 0xF) + FSE_MIN_TABLELOG in
  ERROR_IF nbBits >? FSE_TABLELOG_ABSOLUTE_MAX THEN tableLog_tooLarge ;;
  let bitStream := Z.shiftr bitStream 4 in
  let tableLog := nbBits in
  let remaining := Z.shiftl 1 nbBits + 1 in
  let threshold := Z.shiftl 1 nbBits in
  let nbBits := nbBits + 1 in
  let* v := loop_ (Z.to_nat (maxSV1 + 1)) (NC_iteration src maxSV1)
              (mkNC 0 bitStream 4 0 nbBits remaining threshold false norm) in
  ERROR_IF negb (nc_remaining v =? 1) THEN corruption_detected ;;
  ERROR_IF nc_charnum v >? maxSV1 THEN maxSymbolValue_tooSmall ;;
  ERROR_IF nc_bitCount v >? 32 THEN corruption_detected ;;
  Ok (mkNCount (nc_norm v) (u32 (nc_charnum v - 1)) tableLog
        (nc_ip v + Z.shiftr (nc_bitCount v + 7) 3)).

(** [FSE_readNCount_body]: a short source is copied to a buffer of 8 bytes. *)
Definition FSE_readNCount (normalizedCounter : list Z) (maxSV : Z) (src : list Z) : result NCount :=
  let hbSize := zlen src in
  if hbSize <? 8 then
    let* buffer := memcpy_at (zfill 8 0) 0 src in
    let* r := FSE_readNCount_body8 normalizedCounter maxSV buffer in
    ERROR_IF nco_size r >? hbSize THEN corruption_detected ;;
    Ok r
  else FSE_readNCount_body8 normalizedCounter maxSV src.

(** ** Lemmas *)

Lemma is_ctz_mod v k j : 0 <= j <= k -> is_ctz v k -> v mod 2 ^ j = 0.
Proof.
  intros Hj (Hk & _ & Hz). apply Z.bits_inj'. intros i Hi. rewrite Z.bits_0.
  destruct (Z.ltb_spec i j).
  - rewrite Z.mod_pow2_bits_low by lia. apply Hz. lia.
  - apply Z.mod_pow2_bits_high. lia.
Qed.

Lemma lnot_u32 b : 0 <= b < 2 ^ 32 -> u32 (Z.lnot b) = 2 ^ 32 - 1 - b.
Proof.
  intros. unfold u32. rewrite <- (Z.mod_small (2 ^ 32 - 1 - b) (2 ^ 32)) by lia.
  replace (2 ^ 32 - 1 - b) with (Z.lnot b + 1 * 2 ^ 32) by (unfold Z.lnot; lia).
  by rewrite Z.mod_add.
Qed.

Lemma lor_high_mod a : (a .| 0x80000000) mod 2 ^ 24 = a mod 2 ^ 24.
Proof.
  rewrite <- !Z.land_ones, Z.land_lor_distr_l by lia.
  change (Z.land 0x80000000 (Z.ones 24)) with 0. apply Z.lor_0_r.
Qed.

(** The word whose trailing zeros are counted is not 0. *)
Lemma NC_repeats_arg b : 0 <= b < 2 ^ 32 -> 0 < u32 (Z.lnot b) .| 0x80000000 < 2 ^ 32.
Proof.
  intros Hb. rewrite lnot_u32 by done.
  assert (0 <= (2 ^ 32 - 1 - b) .| 0x80000000) by (apply Z.lor_nonneg; lia).
  split.
  - assert ((2 ^ 32 - 1 - b) .| 0x80000000 <> 0); [|lia]. intros E. apply Z.lor_eq_0_iff in E. lia.
  - apply Z.log2_lt_cancel. rewrite Z.log2_lor by lia. rewrite Z.log2_pow2 by lia.
    change (Z.log2 0x80000000) with 31.
    assert (Z.log2 (2 ^ 32 - 1 - b) <= 31); [|lia].
    destruct (Z.eqb_spec (2 ^ 32 - 1 - b) 0) as [->|]; [done|].
    assert (Z.log2 (2 ^ 32 - 1 - b) < 32); [apply Z.log2_lt_pow2; lia|lia].
Qed.

(** The number of repeats, and what twelve of them say of the window. *)
Lemma NC_repeats_spec b :
  0 <= b < 2 ^ 32 -> 0 <= NC_repeats b <= 15 /\ (12 <= NC_repeats b -> 2 ^ 24 - 1 <= b).
Proof.
  intros Hb. unfold NC_repeats. pose proof (NC_repeats_arg b Hb) as Hv. rewrite lnot_u32 in * by done.
  set (v := (2 ^ 32 - 1 - b) .| 0x80000000) in *.
  pose proof (ctz32_spec v Hv) as Hctz. pose proof (is_ctz_lt v _ 32 Hv Hctz) as Hlt.
  pose proof (proj1 Hctz) as H0. rewrite Z.shiftr_div_pow2 by lia. change (2 ^ 1) with 2.
  split; [zdm|]. intros H12.
  pose proof (is_ctz_mod v (ZSTD_countTrailingZeros32 v) 24 ltac:(zdm) Hctz) as Hm. unfold v in Hm. rewrite lor_high_mod in Hm.
  apply Z.mod_divide in Hm; [|lia]. destruct Hm as [k Hk]. lia.
Qed.

Lemma NC_window_ok src ip bc :
  bytes_ok src -> 0 <= ip -> ip + 4 <= zlen src -> 0 <= bc <= 31 ->
  exists b, NC_window src ip bc = Ok b /\ 0 <= b < 2 ^ (32 - bc).
Proof.
  intros Hb Hip Hlen Hbc. unfold NC_window. rewrite readLE32_spec by done. cbn [bind].
  unfold defined_if. rewrite (proj2 (Z.leb_le _ _)), (proj2 (Z.ltb_lt _ _)) by lia.
  eexists. split; [done|]. rewrite Z.shiftr_div_pow2 by lia.
  pose proof (le_val_range _ (bytes_ok_zsub src ip 4 Hb)) as R. rewrite zlen_zsub in R by lia.
  change (8 * 4) with 32 in R. pose proof (pow2_pos bc ltac:(lia)).
  split; [apply Z.div_pos; lia|]. apply Z.div_lt_upper_bound; [lia|].
  rewrite <- pow2_add by lia. replace (bc + (32 - bc)) with 32 by lia. lia.
Qed.

Section read.
Context (src : list Z) (maxSV1 T : Z) (n0 : Z).
Hypothesis Hsrc : bytes_ok src.
Hypothesis Hlen : 8 <= zlen src < 2 ^ 26.
Hypothesis HmaxSV1 : 1 <= maxSV1 <= 256.
Hypothesis Hn0 : maxSV1 <= n0.
Hypothesis HT : 32 <= T <= 2 ^ 15.

Let iend := zlen src.

(** The read position: inside the source, with the window loaded. *)
Definition pos_ok (ip bitCount : Z) : Prop :=
  0 <= ip <= iend - 4 /\ 0 <= bitCount <= 31 /\ (bitCount <= 7 \/ ip = iend - 4).

Lemma NC_advance_ok ip bc :
  0 <= ip <= iend - 4 -> 0 <= bc -> (ip <= iend - 7 -> bc <= 31) ->
  pos_ok (NC_advance iend ip bc).1 (NC_advance iend ip bc).2.
Proof.
  intros Hip Hbc H. unfold NC_advance, pos_ok. rewrite (Z.shiftr_div_pow2 bc 3), land_7 by lia.
  change (2 ^ 3) with 8.
  destruct (_ || _) eqn:E; cbn [fst snd].
  - assert (ip + bc / 8 <= iend - 4).
    { apply orb_true_iff in E as [E|E]; bools; [specialize (H E); zdm|lia]. }
    split_and!; try lia; zdm.
  - pose proof (land_31 (bc - 8 * (iend - 4 - ip))). split_and!; try lia.
Qed.

(** The invariant of the reader: what has been read and what remains make up the
    table. *)
Definition nc_sum (v : NC_vars) : Prop :=
  (forall i, 0 <= i < nc_charnum v -> -1 <= zat (nc_norm v) i \/ (T = 2 ^ 15 /\ zat (nc_norm v) i = - 2 ^ 15)) /\
  cum (nc_norm v) (nc_charnum v) + nc_remaining v = T + 1.

Definition nc_tail (v : NC_vars) : Prop :=
  zlen (nc_norm v) = n0 /\
  (forall i, nc_charnum v <= i < maxSV1 -> zat (nc_norm v) i = 0).

Definition nc_inv (v : NC_vars) : Prop :=
  pos_ok (nc_ip v) (nc_bitCount v) /\ 0 <= nc_bitStream v < 2 ^ (32 - nc_bitCount v) /\
  0 <= nc_charnum v < maxSV1 /\
  2 <= nc_nbBits v <= 16 /\ nc_threshold v = 2 ^ (nc_nbBits v - 1) /\
  nc_threshold v <= nc_remaining v < 2 * nc_threshold v /\ nc_remaining v <= T + 1 /\
  nc_tail v /\ nc_sum v.

(** At the end of the loop. *)
Definition nc_done (v : NC_vars) : Prop :=
  0 <= nc_ip v <= iend - 4 /\ 1 <= nc_bitCount v /\
  (nc_remaining v = 1 -> 1 <= nc_charnum v <= maxSV1 /\ nc_tail v /\ nc_sum v).

Lemma cum_update norm i x :
  0 <= i < zlen norm -> cum (zupd norm i x) (i + 1) = cum norm i + Z.abs x.
Proof.
  intros Hi. rewrite cum_S, zat_zupd_eq by (rewrite ?zlen_zupd; lia). f_equal.
  unfold cum, zupd. by rewrite take_insert_ge by lia.
Qed.

(** A count in a [short]: it does not fit when it is 2^15. *)
Lemma s16_count c :
  -1 <= c <= 2 ^ 15 -> (s16 c = c \/ c = 2 ^ 15 /\ s16 c = - 2 ^ 15) /\ Z.abs (s16 c) = Z.abs c.
Proof.
  intros Hc. destruct (Z.eq_dec c (2 ^ 15)) as [->|]; [split; [right|]; done|].
  rewrite s16_small by lia. split; [by left|done].
Qed.

(** The count that is read is at most what remains. *)
Lemma count_bounds thr rem bs :
  2 <= thr -> thr <= rem < 2 * thr -> 0 <= bs -> (exists k, 0 <= k /\ thr = 2 ^ k) ->
  let max := 2 * thr - 1 - rem in
  let c := if (bs .& (thr - 1)) <? u32 max then bs .& (thr - 1)
           else let c := bs .& (2 * thr - 1) in if c >=? thr then c - max else c in
  thr <= 2 ^ 20 -> 0 <= c <= rem.
Proof.
  intros Hthr Hrem Hbs (k & Hk & Ek) max c Hle.
  assert (bs .& (thr - 1) = bs mod thr) as E1 by (rewrite Ek; apply land_mask; lia).
  assert (bs .& (2 * thr - 1) = bs mod (2 * thr)) as E2.
  { rewrite Ek, <- pow2_S by lia. apply land_mask. lia. }
  unfold c. rewrite E1, E2. pose proof (Z.mod_pos_bound bs thr ltac:(lia)).
  pose proof (Z.mod_pos_bound bs (2 * thr) ltac:(lia)).
  rewrite u32_small by (unfold max; lia).
  destruct (Z.ltb_spec (bs mod thr) max); [lia|]. cbv zeta.
  destruct (Z.geb_spec (bs mod (2 * thr)) thr); unfold max; lia.
Qed.

Lemma read_count_ok v :
  nc_inv v ->
  wp (NC_read_count src maxSV1 v)
    (fun f => match f with
              | Continue v' => nc_inv v' /\ nc_charnum v' = nc_charnum v + 1
              | Break v' => nc_done v'
              end) no_errors.
Proof.
  intros ((Hip & Hbc & Hpos) & Hbs & Hch & Hnb & Hthr & Hrem & HremT & [Hl Htail] & Hsum).
  assert (2 <= nc_threshold v <= 2 ^ 15) as Hthr2.
  { rewrite Hthr. pose proof (pow2_le 1 (nc_nbBits v - 1)). pose proof (pow2_le (nc_nbBits v - 1) 15). lia. }
  pose proof (count_bounds (nc_threshold v) (nc_remaining v) (nc_bitStream v) ltac:(lia) Hrem ltac:(lia)
    ltac:(exists (nc_nbBits v - 1); split; [lia|done]) ltac:(lia)) as Hc.
  unfold NC_read_count. cbv zeta in Hc |- *.
  set (cb := if _ <? _ then (_, _) else (_, _)).
  assert (exists c bc, cb = (c, bc) /\ 0 <= c <= nc_remaining v /\ 1 <= bc <= nc_bitCount v + nc_nbBits v)
    as (c & bc & -> & Hcr & Hbcr).
  { unfold cb. destruct (_ <? _); do 2 eexists; (split; [done|]); split; done || lia. }
  clear Hc.
  set (rem := if c - 1 >=? 0 then nc_remaining v - (c - 1) else nc_remaining v + (c - 1)).
  assert (1 <= rem <= nc_remaining v /\ rem = nc_remaining v - Z.abs (c - 1)) as [Hr1 Hr2].
  { unfold rem. destruct (Z.geb_spec (c - 1) 0); lia. }
  wp_step. wp_step; [lia|]. rewrite (u32_small (nc_charnum v + 1)) by lia.
  set (norm := zupd (nc_norm v) (nc_charnum v) (s16 (c - 1))).
  assert (forall ip bs bc nb thr p0, nc_tail (mkNC ip bs bc (nc_charnum v + 1) nb rem thr p0 norm)) as Htail'.
  { intros. split; cbn [nc_norm nc_charnum]; [unfold norm; by rewrite zlen_zupd|].
    intros i Hi. unfold norm. rewrite zat_zupd_ne by lia. apply Htail. lia. }
  assert (forall ip bs bc nb thr p0,
    nc_sum (mkNC ip bs bc (nc_charnum v + 1) nb rem thr p0 norm)) as Hsum'.
  { intros ip bs bc' nb thr p0. destruct Hsum as [Hge Heq].
    unfold nc_sum; cbn [nc_norm nc_charnum nc_remaining]. unfold norm.
    destruct (s16_count (c - 1)) as [Hs1 Hs2]; [lia|]. split.
    - intros i Hi. rewrite zat_zupd by lia. destruct (Z.eqb_spec i (nc_charnum v)); [|apply Hge; lia].
      destruct Hs1 as [->|[E1 E2]]; [left; lia|right; lia].
    - rewrite cum_update by lia. lia. }
  wp_step.
  { wp_step. unfold nc_done; cbn [nc_ip nc_bitCount nc_remaining nc_charnum].
    split; [done|]. split; [lia|]. intros _. split; [lia|]. split; [apply Htail'|apply Hsum']. }
  assert (1 < rem) as Hrem1.
  { destruct (Z.ltb_spec rem (nc_threshold v)), (Z.leb_spec rem 1); lia. }
  set (nt := if rem <? nc_threshold v then _ else _).
  assert (exists nb thr, nt = (nb, thr) /\ 2 <= nb <= 16 /\ thr = 2 ^ (nb - 1) /\ thr <= rem < 2 * thr)
    as (nb & thr & -> & Hnb' & Hthr' & Hrt).
  { unfold nt. destruct (Z.ltb_spec rem (nc_threshold v)) as [Hlt|Hge].
    - pose proof (Z.log2_spec rem ltac:(lia)) as Hlog. rewrite Z.pow_succ_r in Hlog by apply Z.log2_nonneg.
      assert (1 <= Z.log2 rem) by (apply (Z.log2_le_mono 2 rem); lia).
      assert (Z.log2 rem < 15) by (apply Z.log2_lt_pow2; lia).
      rewrite highbit32_spec by lia. do 2 eexists. split; [done|].
      rewrite Z.shiftl_1_l. replace (Z.log2 rem + 1 - 1) with (Z.log2 rem) by lia. split_and!; lia.
    - do 2 eexists. split; [done|]. split_and!; lia. }
  wp_step.
  { wp_step. unfold nc_done; cbn [nc_ip nc_bitCount nc_remaining nc_charnum].
    split; [done|]. split; [lia|]. intros _. split; [lia|]. split; [apply Htail'|apply Hsum']. }
  pose proof (NC_advance_ok (nc_ip v) bc Hip ltac:(lia) ltac:(lia)) as Hadv. fold iend.
  destruct (NC_advance iend (nc_ip v) bc) as [ip' bc']. cbn [fst snd] in Hadv.
  destruct (NC_window_ok src ip' bc' Hsrc) as (bs' & -> & Hbs'); [apply Hadv|unfold iend in *; destruct Hadv; lia|apply Hadv|].
  cbn [bind]. wp_step. unfold nc_inv; cbn [nc_ip nc_bitStream nc_bitCount nc_charnum nc_nbBits nc_remaining nc_threshold].
  split; [|done]. split_and!; try done; try lia; try apply Htail'.
Qed.

(** The run of absent symbols. *)
Lemma zero_run_ok v :
  nc_inv v ->
  wp (NC_zero_run src maxSV1 v)
    (fun f => match f with
              | Continue v' => nc_inv v' /\ nc_charnum v <= nc_charnum v'
              | Break v' => nc_done v'
              end) no_errors.
Proof.
  intros (Hpos0 & Hbs0 & Hch & Hnb & Hthr & Hrem & HremT & [Hl Htail] & Hsum).
  unfold NC_zero_run. cbv zeta. fold iend. apply wp_bind.
  apply (wp_while
    (fun '(ip, bs, bc, ch) => pos_ok ip bc /\ 0 <= bs < 2 ^ (32 - bc) /\
       nc_charnum v <= ch /\ ch + 36 * (if ip <=? iend - 7 then iend - ip + 4
         else if ip <? iend - 4 then 4 else if bc =? 8 then 3 else if bc <? 8 then 2 else 1) < 3000000000)
    (fun '(ip, bs, bc, ch) => if ip <=? iend - 7 then iend - ip + 4
         else if ip <? iend - 4 then 4 else if bc =? 8 then 3 else if bc <? 8 then 2 else 1)).
  - split_and!; try done; try apply Hbs0.
    destruct Hpos0 as ([? ?] & _). unfold iend in *. repeat case_if; lia.
  - destruct Hpos0 as ([? ?] & _). unfold iend, zlen in *. repeat case_if; lia.
  - intros [[[ip bs] bc] ch] ((Hip & Hbc & Hpos) & Hbs & Hchm & Hbound) Hc. rewrite Z.geb_leb in Hc. bools.
    assert (2 ^ (32 - bc) <= 2 ^ 32) by (apply pow2_le; lia).
    destruct (NC_repeats_spec bs ltac:(lia)) as [_ H24]. specialize (H24 Hc).
    assert (bc <= 8) as Hbc8.
    { destruct (Z.leb_spec bc 8); [done|]. pose proof (pow2_le (32 - bc) 23). lia. }
    set (nx := if ip <=? iend - 7 then (_, _) else (_, _)).
    assert (exists ip' bc', nx = (ip', bc') /\ pos_ok ip' bc' /\
      (if ip' <=? iend - 7 then iend - ip' + 4
         else if ip' <? iend - 4 then 4 else if bc' =? 8 then 3 else if bc' <? 8 then 2 else 1) + 1 <=
      (if ip <=? iend - 7 then iend - ip + 4
         else if ip <? iend - 4 then 4 else if bc =? 8 then 3 else if bc <? 8 then 2 else 1))
      as (ip' & bc' & -> & Hpos' & Hmeas).
    { unfold nx. destruct (Z.leb_spec ip (iend - 7)).
      - do 2 eexists. split; [done|]. split; [unfold pos_ok; lia|]. repeat case_if; lia.
      - do 2 eexists. split; [done|]. pose proof (land_31 (bc - 8 * (iend - 7 - ip))) as H31.
        split; [unfold pos_ok; lia|]. rewrite (proj2 (Z.leb_gt (iend - 4) _)), (proj2 (Z.ltb_ge (iend - 4) _)) by lia.
        destruct (Z.ltb_spec ip (iend - 4)); [repeat case_if; lia|].
        replace (bc - 8 * (iend - 7 - ip)) with (bc + 24) in * by lia.
        change 31 with (2 ^ 5 - 1). rewrite land_mask by lia. change (2 ^ 5) with 32.
        destruct (Z.eqb_spec bc 8) as [->|]; [done|].
        rewrite (Z.mod_small (bc + 24)) by lia.
        rewrite (proj2 (Z.eqb_neq (bc + 24) 8)), (proj2 (Z.ltb_ge (bc + 24) 8)), (proj2 (Z.ltb_lt bc 8)) by lia. lia. }
    assert (1 <= (if ip' <=? iend - 7 then iend - ip' + 4
         else if ip' <? iend - 4 then 4 else if bc' =? 8 then 3 else if bc' <? 8 then 2 else 1)) as Hm1.
    { destruct Hpos' as ([? ?] & _). repeat case_if; lia. }
    destruct (NC_window_ok src ip' bc' Hsrc) as (bs' & -> & Hbs');
      [apply Hpos'|unfold iend in *; destruct Hpos'; lia|apply Hpos'|].
    cbn [bind]. split; [lia|]. wp_step. rewrite u32_small by lia.
    split; [|lia]. split_and!; try done; try apply Hbs'; lia.
  - intros [[[ip bs] bc] ch] ((Hip & Hbc & Hpos) & Hbs & Hchm & Hbound) Hc. rewrite Z.geb_leb in Hc. bools.
    assert (2 ^ (32 - bc) <= 2 ^ 32) by (apply pow2_le; lia).
    destruct (NC_repeats_spec bs ltac:(lia)) as [Hrep _].
    assert (ch < 3000000000) as Hch31 by (clear -Hbound Hip; revert Hbound; repeat case_if; lia).
    rewrite (u32_small (ch + 3 * NC_repeats bs)) by lia.
    set (b2 := Z.shiftr bs (2 * NC_repeats bs) .& 3).
    assert (0 <= b2 <= 3) as Hb2.
    { unfold b2. change 3 with (2 ^ 2 - 1). rewrite land_mask by lia.
      pose proof (Z.mod_pos_bound (Z.shiftr bs (2 * NC_repeats bs)) (2 ^ 2) ltac:(lia)). lia. }
    rewrite u32_small by lia. set (ch' := ch + 3 * NC_repeats bs + b2).
    cbv zeta. cbn [nc_charnum nc_nbBits nc_remaining nc_threshold nc_previous0 nc_norm].
    wp_step.
    { wp_step. unfold nc_done; cbn [nc_ip nc_bitCount nc_remaining nc_charnum].
      split; [done|]. split; [lia|]. intros E. rewrite E in Hrem. rewrite Hthr in Hrem.
      pose proof (pow2_le 1 (nc_nbBits v - 1)). lia. }
    pose proof (NC_advance_ok ip (bc + 2 * NC_repeats bs + 2) Hip ltac:(lia) ltac:(lia)) as Hadv.
    destruct (NC_advance iend ip (bc + 2 * NC_repeats bs + 2)) as [ip' bc']. cbn [fst snd] in Hadv.
    destruct (NC_window_ok src ip' bc' Hsrc) as (bs' & -> & Hbs');
      [apply Hadv|unfold iend in *; destruct Hadv; lia|apply Hadv|].
    cbn [bind]. wp_step. unfold nc_inv; cbn [nc_ip nc_bitStream nc_bitCount nc_charnum nc_nbBits nc_remaining nc_threshold].
    assert (nc_charnum v <= ch') by (unfold ch'; lia).
    split; [|done]. split_and!; try done; try lia.
    + split; cbn [nc_norm nc_charnum]; [done|]. intros i Hi. apply Htail. lia.
    + destruct Hsum as [Hge Heq]. unfold nc_sum; cbn [nc_norm nc_charnum nc_remaining].
      assert (forall k : nat, nc_charnum v + Z.of_nat k <= maxSV1 ->
        cum (nc_norm v) (nc_charnum v + Z.of_nat k) = cum (nc_norm v) (nc_charnum v)) as Hcum.
      { induction k as [|k IH]; intros Hk; [by rewrite Z.add_0_r|].
        replace (nc_charnum v + Z.of_nat (S k)) with (nc_charnum v + Z.of_nat k + 1) by lia.
        rewrite cum_S, IH, Htail by lia. lia. }
      specialize (Hcum (Z.to_nat (ch' - nc_charnum v)) ltac:(lia)).
      replace (nc_charnum v + Z.of_nat (Z.to_nat (ch' - nc_charnum v))) with ch' in Hcum by lia.
      split; [|lia]. intros i Hi. destruct (Z.ltb_spec i (nc_charnum v)); [apply Hge; lia|].
      left. rewrite Htail by lia. lia.
Qed.

Lemma iteration_ok v :
  nc_inv v ->
  wp (NC_iteration src maxSV1 v)
    (fun f => match f with
              | Continue v' => nc_inv v' /\ nc_charnum v < nc_charnum v'
              | Break v' => nc_done v'
              end) no_errors.
Proof.
  intros Hv. unfold NC_iteration. destruct (nc_previous0 v).
  - wp_step. eapply wp_mono; [by apply zero_run_ok| |done]. intros [v1|v1]; [|by intros; wp_step].
    intros [Hv1 Hle]. eapply wp_mono; [by apply read_count_ok| |done].
    intros [v2|v2]; [|done]. intros [Hv2 E]. split; [done|lia].
  - eapply wp_mono; [by apply read_count_ok| |done].
    intros [v2|v2]; [|done]. intros [Hv2 E]. split; [done|lia].
Qed.

Lemma iterations_ok v :
  nc_inv v -> nc_charnum v = 0 ->
  wp (loop_ (Z.to_nat (maxSV1 + 1)) (NC_iteration src maxSV1) v) nc_done no_errors.
Proof.
  intros Hv E. apply (wp_loop nc_inv (fun v => maxSV1 - nc_charnum v)); [done|lia|].
  intros w Hw. eapply wp_mono; [by apply iteration_ok| |done]. intros [w'|w']; [|done].
  intros [Hw' Hlt]. split; [done|]. destruct Hw' as (_ & _ & ? & _). lia.
Qed.

End read.

(** One symbol has all the 2^15 states of a table, and its count is stored in a [short]. *)
Definition wrapped_norm (norm : list Z) (n : Z) : Prop :=
  exists s, 0 <= s < n /\ zat norm s = - 2 ^ 15 /\ forall i, 0 <= i < n -> i <> s -> zat norm i = 0.

Lemma wrapped_norm_intro norm n s :
  0 <= s < n -> n <= zlen norm -> zat norm s = - 2 ^ 15 -> cum norm n = 2 ^ 15 -> wrapped_norm norm n.
Proof.
  intros Hs Hn E Hsum. exists s. split; [done|]. split; [done|]. intros i Hi Hne.
  assert (forall a b, 0 <= a < b -> b < n -> Z.abs (zat norm a) + Z.abs (zat norm b) <= 2 ^ 15) as Hpair.
  { intros a b Ha Hb. rewrite <- Hsum. pose proof (cum_nonneg norm a ltac:(lia)).
    pose proof (cum_mono norm (a + 1) b ltac:(lia) ltac:(lia)) as H1. pose proof (cum_mono norm (b + 1) n ltac:(lia) ltac:(lia)) as H2.
    rewrite cum_S in H1, H2 by lia. lia. }
  destruct (Z.lt_trichotomy i s) as [Hlt|[->|Hlt]]; [|done|].
  - specialize (Hpair i s ltac:(lia) ltac:(lia)). rewrite E in Hpair. lia.
  - specialize (Hpair s i ltac:(lia) ltac:(lia)). rewrite E in Hpair. lia.
Qed.

(** What a successful call promises. *)
Definition ncount_ok (maxSV hbSize : Z) (norm0 : list Z) (r : NCount) : Prop :=
  0 < nco_size r <= hbSize /\ 0 <= nco_maxSV r <= maxSV /\ 5 <= nco_tableLog r <= 15 /\
  zlen (nco_norm r) = zlen norm0 /\
  (norm_ok (nco_norm r) (nco_maxSV r + 1) (nco_tableLog r) \/
   nco_tableLog r = 15 /\ wrapped_norm (nco_norm r) (nco_maxSV r + 1)).

Lemma readNCount_body8_ok norm0 maxSV src :
  bytes_ok src -> 8 <= zlen src < 2 ^ 26 -> 0 <= maxSV <= 255 -> maxSV < zlen norm0 ->
  wp (FSE_readNCount_body8 norm0 maxSV src) (ncount_ok maxSV (zlen src) norm0) any_error.
Proof.
  intros Hb Hlen Hm Hn. unfold FSE_readNCount_body8. rewrite (u32_small (maxSV + 1)) by lia. cbv zeta.
  rewrite memcpy_at_ok by (rewrite ?zlen_zfill; lia). cbn [bind].
  rewrite readLE32_spec by (first [done|lia]). cbn [bind].
  pose proof (le_val_range _ (bytes_ok_zsub src 0 4 Hb)) as R. rewrite zlen_zsub in R by lia.
  change (8 * 4) with 32 in R. set (w := le_val (zsub src 0 4)) in *.
  change 0xF with (2 ^ 4 - 1). rewrite land_mask by lia. change FSE_MIN_TABLELOG with 5.
  pose proof (Z.mod_pos_bound w (2 ^ 4) ltac:(lia)) as Hw.
  set (tl := w mod 2 ^ 4 + 5) in *. wp_step; [done|]. change FSE_TABLELOG_ABSOLUTE_MAX with 15 in Hc. bools.
  rewrite Z.shiftl_1_l.
  assert (5 <= tl <= 15) as Htl by lia.
  assert (32 <= 2 ^ tl <= 2 ^ 15) as HT.
  { split; [apply (pow2_le 5 tl); lia|apply pow2_le; lia]. }
  set (norm1 := zpatch norm0 0 (zfill (maxSV + 1) 0)).
  assert (zlen norm1 = zlen norm0) as Hl1 by (apply zlen_zpatch; rewrite ?zlen_zfill; lia).
  wp_step. eapply wp_mono; [apply (iterations_ok src (maxSV + 1) (2 ^ tl) (zlen norm0)); try done; try lia| |done].
  - unfold nc_inv; cbn [nc_ip nc_bitStream nc_bitCount nc_charnum nc_nbBits nc_remaining nc_threshold].
    assert (forall i, 0 <= i < maxSV + 1 -> zat norm1 i = 0) as Hz.
    { intros i Hi. unfold norm1. rewrite zat_zpatch by (rewrite ?zlen_zfill; lia).
      rewrite zlen_zfill by lia. rewrite (proj2 (Z.leb_le _ _)), (proj2 (Z.ltb_lt _ _)) by lia.
      simpl andb. cbv iota. apply zat_zfill. lia. }
    split_and!; try lia; try done.
    + unfold pos_ok. lia.
    + rewrite Z.shiftr_div_pow2 by lia. zdm.
    + rewrite Z.shiftr_div_pow2 by lia. zdm.
    + f_equal. lia.
    + split; cbn [nc_norm nc_charnum nc_remaining]; [intros; lia|]. rewrite cum_0. lia.
  - intros v (Hip & Hbc & Hdone). wp_step; [done|]. bools. pose proof (Hdone Hc0) as Hd.
    destruct Hd as (Hch & [Hl Htail] & Hsum).
    wp_step; [done|]. wp_step; [done|]. wp_step.
    unfold ncount_ok; cbn [nco_size nco_maxSV nco_tableLog nco_norm].
    rewrite u32_small by lia. rewrite Z.shiftr_div_pow2 by lia. change (2 ^ 3) with 8.
    split_and!; try lia; try zdm.
    + destruct Hsum as [Hge Heq]. rewrite Hc0 in Heq. replace (nc_charnum v - 1 + 1) with (nc_charnum v) by lia.
      destruct (decide (Forall (fun i => -1 <= zat (nc_norm v) i) (seqZ 0 (nc_charnum v)))) as [Hall|Hex].
      * left. split; try lia. intros s Hs. rewrite Forall_forall in Hall. apply Hall, elem_of_seqZ. lia.
      * right. apply not_Forall_Exists, Exists_exists in Hex as (s & Hs & Hlt); [|apply _]. apply elem_of_seqZ in Hs.
        destruct (Hge s ltac:(lia)) as [|[ET E]]; [done|]. split.
        -- apply (Z.pow_inj_r 2); lia.
        -- apply (wrapped_norm_intro _ _ s); lia.
Qed.
