(* ===== verification/HufStats.v ===== *)
(** Decompressing with a table description (common/fse_decompress.c,
    [FSE_decompress_wksp_body]) and the weights of a Huffman tree
    (common/entropy_common.c, [HUF_readStats_body]), on untrusted bytes. *)

From S2P Require Import Prelude Errors Outcome Bits Mem BitStream FseTable FseSpread FseSymbols FseBuild FseBuildC FseCodec FseStream FseSafe FseEncode FseRoundtrip FseNCount.

(** ** Definitions *)

Definition FSE_DTABLE_SIZE_U32 (maxTableLog : Z) : Z := 1 + Z.shiftl 1 maxTableLog.
Definition FSE_DTABLE_SIZE (maxTableLog : Z) : Z := FSE_DTABLE_SIZE_U32 maxTableLog * 4.
Definition FSE_BUILD_DTABLE_WKSP_SIZE_U32 (maxTableLog maxSymbolValue : Z) : Z :=
  (FSE_BUILD_DTABLE_WKSP_SIZE maxTableLog maxSymbolValue + 4 - 1) / 4.
Definition FSE_DECOMPRESS_WKSP_SIZE_U32 (maxTableLog maxSymbolValue : Z) : Z :=
  FSE_DTABLE_SIZE_U32 maxTableLog + 1 + FSE_BUILD_DTABLE_WKSP_SIZE_U32 maxTableLog maxSymbolValue
  + (FSE_MAX_SYMBOL_VALUE + 1) / 2 + 1.
Definition FSE_DECOMPRESS_WKSP_SIZE (maxTableLog maxSymbolValue : Z) : Z :=
  FSE_DECOMPRESS_WKSP_SIZE_U32 maxTableLog maxSymbolValue * 4.

(** [sizeof(FSE_DecompressWksp)]. *)
Definition FSE_DecompressWksp_size : Z := 2 * (FSE_MAX_SYMBOL_VALUE + 1).

(** The workspace: its size in bytes, and what its memory holds where the counts,
    the table and the two arrays of the builder are put. *)
Record FSE_wksp := mkWksp {
  wk_size : Z;
  wk_ncount : list Z;
  wk_table : list FSE_decode_t;
  wk_symbolNext : list Z;
  wk_spread : list Z;
}.

(** [FSE_decompress_wksp_body]. *)
Definition FSE_decompress_wksp (dst cSrc : list Z) (maxLog : Z) (wksp : FSE_wksp)
  : result (list Z * Z) :=
  let wkspSize := wk_size wksp in
  ERROR_IF wkspSize <? FSE_DecompressWksp_size THEN GENERIC ;;
  (* normal FSE decoding mode *)
  let* r := FSE_readNCount (wk_ncount wksp) FSE_MAX_SYMBOL_VALUE cSrc in
  let tableLog := nco_tableLog r in
  let maxSymbolValue := nco_maxSV r in
  ERROR_IF tableLog >? maxLog THEN tableLog_tooLarge ;;
  let ip := nco_size r in
  let cSrcSize := zlen cSrc - nco_size r in
  ERROR_IF FSE_DECOMPRESS_WKSP_SIZE tableLog maxSymbolValue >? wkspSize THEN tableLog_tooLarge ;;
  let wkspSize := wkspSize - (FSE_DecompressWksp_size + FSE_DTABLE_SIZE tableLog) in
  let* dtable := FSE_buildDTable_internal (zsub (wk_table wksp) 0 (2 ^ tableLog)) (nco_norm r)
    maxSymbolValue tableLog (zsub (wk_symbolNext wksp) 0 (maxSymbolValue + 1))
    (zsub (wk_spread wksp) 0 (2 ^ tableLog + 8)) wkspSize in
  let fastMode := negb (dt_fastMode dtable =? 0) in
  FSE_decompress_usingDTable_generic dst (zsub cSrc ip cSrcSize) dtable fastMode.

Definition HUF_TABLELOG_MAX : Z := 12.

(** The workspace that the callers of [HUF_readStats] reserve. *)
Definition HUF_READ_STATS_WORKSPACE_SIZE : Z := FSE_DECOMPRESS_WKSP_SIZE 6 (HUF_TABLELOG_MAX - 1).

(** What [HUF_readStats] returns: the weights, their statistics, the number of
    symbols, the depth of the tree and the bytes read. *)
Record HUF_stats := mkStats {
  hs_huffWeight : list Z;
  hs_rankStats : list Z;
  hs_nbSymbols : Z;
  hs_tableLog : Z;
  hs_size : Z;
}.

(** Weights of 4 bits. *)
Definition HUF_readStats_raw (huffWeight src : list Z) (oSize : Z) : result (list Z) :=
  let ip := 1 in
  for_step 0 oSize 2 (fun n huffWeight =>
    let* b := rd src (ip + n / 2) in
    let* huffWeight := wr huffWeight n (Z.shiftr b 4) in
    let* b := rd src (ip + n / 2) in
    wr huffWeight (n + 1) (b .& 15)) huffWeight.

(** The statistics of the weights. *)
Definition HUF_readStats_collect (huffWeight rankStats : list Z) (oSize : Z) : result (list Z * Z) :=
  for_range 0 oSize (fun n '(rankStats, weightTotal) =>
    let* w := rd huffWeight n in
    ERROR_IF w >? HUF_TABLELOG_MAX THEN corruption_detected ;;
    let* c := rd rankStats w in
    let* rankStats := wr rankStats w (u32 (c + 1)) in
    Ok (rankStats, u32 (weightTotal + Z.shiftr (Z.shiftl 1 w) 1))) (rankStats, 0).

(** The last weight, implied by the others: the total must be a power of 2. *)
Definition HUF_readStats_last (huffWeight rankStats : list Z) (weightTotal oSize iSize : Z)
  : result HUF_stats :=
  ERROR_IF weightTotal =? 0 THEN corruption_detected ;;
  (* get last non-null symbol weight (implied, total must be 2^n) *)
  let tableLog := ZSTD_highbit32 weightTotal + 1 in
  ERROR_IF tableLog >? HUF_TABLELOG_MAX THEN corruption_detected ;;
  let total := Z.shiftl 1 tableLog in
  let rest := u32 (total - weightTotal) in
  let verif := u32 (Z.shiftl 1 (ZSTD_highbit32 rest)) in
  let lastWeight := ZSTD_highbit32 rest + 1 in
  ERROR_IF negb (verif =? rest) THEN corruption_detected ;;
  let* huffWeight := wr huffWeight oSize (u8 lastWeight) in
  let* c := rd rankStats lastWeight in
  let* rankStats := wr rankStats lastWeight (u32 (c + 1)) in
  (* check tree construction validity *)
  let* r1 := rd rankStats 1 in
  ERROR_IF (r1 <? 2) || negb (r1 .& 1 =? 0) THEN corruption_detected ;;
  Ok (mkStats huffWeight rankStats (oSize + 1) tableLog (iSize + 1)).

(** [HUF_readStats_body]. *)
Definition HUF_readStats (huffWeight rankStats src : list Z) (wksp : FSE_wksp) : result HUF_stats :=
  let hwSize := zlen huffWeight in
  let srcSize := zlen src in
  ERROR_IF srcSize =? 0 THEN Errors.srcSize_wrong ;;
  let* iSize := rd src 0 in
  let* '(huffWeight, iSize, oSize) :=
    (if iSize >=? 128 then
       let oSize := iSize - 127 in
       let iSize := (oSize + 1) / 2 in
       ERROR_IF iSize + 1 >? srcSize THEN Errors.srcSize_wrong ;;
       ERROR_IF oSize >=? hwSize THEN corruption_detected ;;
       let* huffWeight := HUF_readStats_raw huffWeight src oSize in
       Ok (huffWeight, iSize, oSize)
     else
       ERROR_IF iSize + 1 >? srcSize THEN Errors.srcSize_wrong ;;
       let* '(hw, oSize) :=
         FSE_decompress_wksp (zsub huffWeight 0 (hwSize - 1)) (zsub src 1 iSize) 6 wksp in
       Ok (zpatch huffWeight 0 hw, iSize, oSize)) in
  (* collect weight stats *)
  let* rankStats := memcpy_at rankStats 0 (zfill (HUF_TABLELOG_MAX + 1) 0) in
  let* '(rankStats, weightTotal) := HUF_readStats_collect huffWeight rankStats oSize in
  HUF_readStats_last huffWeight rankStats weightTotal oSize iSize.

(** ** Lemmas *)

Lemma readNCount_ok norm0 maxSV src :
  bytes_ok src -> zlen src < 2 ^ 26 -> 0 <= maxSV <= 255 -> maxSV < zlen norm0 ->
  wp (FSE_readNCount norm0 maxSV src) (ncount_ok maxSV (zlen src) norm0) any_error.
Proof.
  intros Hb Hlen Hm Hn. unfold FSE_readNCount. cbv zeta. pose proof (zlen_nonneg src).
  destruct (Z.ltb_spec (zlen src) 8).
  - rewrite memcpy_at_ok by (rewrite ?zlen_zfill; lia). cbn [bind].
    set (buf := zpatch (zfill 8 0) 0 src).
    assert (zlen buf = 8) as Hl by (unfold buf; rewrite zlen_zpatch; rewrite ?zlen_zfill; lia).
    wp_step. eapply wp_mono; [apply readNCount_body8_ok| |done]; try lia.
    + apply bytes_ok_zpatch; [bytes_dec|done].
    + intros r (Hsz & Hrest). wp_step; [done|]. wp_step. split; [lia|done].
  - by apply readNCount_body8_ok.
Qed.

(** A workspace of the size it claims. *)
Definition wksp_ok (w : FSE_wksp) : Prop :=
  256 <= zlen (wk_ncount w) /\ 2 ^ 12 <= zlen (wk_table w) /\
  256 <= zlen (wk_symbolNext w) /\ 2 ^ 12 + 8 <= zlen (wk_spread w).

Lemma buildDTable_too_large table norm maxSV tl symbolNext spread wk :
  tl > 12 -> exists e, FSE_buildDTable_internal table norm maxSV tl symbolNext spread wk = Err e.
Proof.
  intros Htl. unfold FSE_buildDTable_internal, RETURN_ERROR_IF. cbv zeta.
  destruct (_ >? wk); [eauto|]. destruct (_ >? FSE_MAX_SYMBOL_VALUE); [eauto|].
  change FSE_MAX_TABLELOG with 12. destruct (Z.gtb_spec tl 12); [eauto|lia].
Qed.

Lemma decompress_wksp_ok dst cSrc maxLog w :
  bytes_ok cSrc -> zlen cSrc < 2 ^ 26 -> bytes_ok dst -> wksp_ok w ->
  wp (FSE_decompress_wksp dst cSrc maxLog w)
    (fun '(dst', n) => zlen dst' = zlen dst /\ 0 <= n <= zlen dst /\ bytes_ok dst') any_error.
Proof.
  intros Hb Hlen Hdst (Hw1 & Hw2 & Hw3 & Hw4). unfold FSE_decompress_wksp. cbv zeta.
  wp_step; [done|]. wp_step. change FSE_MAX_SYMBOL_VALUE with 255.
  eapply wp_mono; [apply readNCount_ok; done || lia| |done].
  intros r (Hsz & Hms & Htl & Hln & Hnorm). wp_step; [done|]. wp_step; [done|].
  destruct (Z.ltb_spec 12 (nco_tableLog r)) as [Hbig|Hsmall].
  { edestruct buildDTable_too_large as [e ->]; [|done]. lia. }
  destruct Hnorm as [Hnorm|[? _]]; [|lia].
  assert (2 ^ 5 <= 2 ^ nco_tableLog r <= 2 ^ 12) as HT by (split; apply pow2_le; lia).
  replace (nco_maxSV r) with (nco_maxSV r + 1 - 1) at 1 by lia.
  rewrite buildDTable_ok.
  - cbn [bind]. apply decompress_wp; try done.
    + apply dtable_of_wf; [done|done|]. cbn [dt_fastMode dtable_of]. by destruct (no_large _ _ _).
    + by apply bytes_ok_zsub.
    + rewrite zlen_zsub; lia.
  - done.
  - done.
  - rewrite zlen_zsub; lia.
  - rewrite zlen_zsub; lia.
  - rewrite zlen_zsub; lia.
  - unfold FSE_DECOMPRESS_WKSP_SIZE, FSE_DECOMPRESS_WKSP_SIZE_U32, FSE_DTABLE_SIZE,
      FSE_DTABLE_SIZE_U32, FSE_BUILD_DTABLE_WKSP_SIZE_U32, FSE_DecompressWksp_size in *.
    replace (nco_maxSV r + 1 - 1) with (nco_maxSV r) by lia. rewrite Z.shiftl_1_l in *.
    change FSE_MAX_SYMBOL_VALUE with 255 in *.
    set (B := FSE_BUILD_DTABLE_WKSP_SIZE _ _) in *. change ((255 + 1) / 2) with 128 in *.
    assert (B <= 4 * ((B + 4 - 1) / 4)) by zdm. lia.
Qed.

(** Half of the weight [w] stands for, [2 ^ w / 2]. *)
Definition weight_val (w : Z) : Z := 2 ^ w / 2.
Definition weights_sum (l : list Z) : Z := zsum (map weight_val l).

Lemma weights_sum_snoc l w : weights_sum (l ++ [w]) = weights_sum l + weight_val w.
Proof. unfold weights_sum. rewrite map_app, zsum_app. unfold zsum. simpl. lia. Qed.

Lemma weight_val_le w : 0 <= w <= 12 -> 0 <= weight_val w <= 2 ^ 11.
Proof.
  intros Hw. unfold weight_val. pose proof (pow2_le w 12). pose proof (pow2_pos w). zdm.
Qed.

Lemma collect_ok hw rk oSize :
  bytes_ok hw -> 0 <= oSize <= zlen hw -> oSize <= 255 -> 13 <= zlen rk ->
  (forall i, 0 <= i < 13 -> zat rk i = 0) ->
  wp (HUF_readStats_collect hw rk oSize)
    (fun '(rk', total) => zlen rk' = zlen rk /\
       Forall (fun w => 0 <= w <= 12) (take (Z.to_nat oSize) hw) /\
       total = weights_sum (take (Z.to_nat oSize) hw) /\ 0 <= total <= oSize * 2 ^ 11 /\
       (forall i, 0 <= i < 13 -> zat rk' i = occ i (take (Z.to_nat oSize) hw)))
    (fun _ => ~ Forall (fun w => w <= 12) (take (Z.to_nat oSize) hw)).
Proof.
  intros Hb Ho Ho255 Hl Hz. unfold HUF_readStats_collect.
  apply (wp_for (fun n '(rk', total) => zlen rk' = zlen rk /\
    Forall (fun w => 0 <= w <= 12) (take (Z.to_nat n) hw) /\
    total = weights_sum (take (Z.to_nat n) hw) /\ 0 <= total <= n * 2 ^ 11 /\
    (forall i, 0 <= i < 13 -> zat rk' i = occ i (take (Z.to_nat n) hw)))); [lia| | |done].
  - by split_and!.
  - intros n [rk' total] Hn (Hl' & HF & -> & Ht & Hocc).
    wp_step. wp_step; [lia|]. pose proof (bytes_ok_zat hw n Hb ltac:(lia)) as Hw.
    set (w := zat hw n) in *. change HUF_TABLELOG_MAX with 12. wp_step.
    { intros Hall. assert (w <= 12); [|lia]. unfold w. replace (zat hw n) with (zat (take (Z.to_nat oSize) hw) n).
      - apply (zat_Forall (fun w => w <= 12)); [done|]. unfold zlen in *. rewrite length_take. lia.
      - unfold zat. by rewrite lookup_total_take_lt by lia. }
    wp_step. wp_step; [lia|]. wp_step. wp_step; [lia|]. wp_step.
    pose proof (weight_val_le w ltac:(lia)) as Hwv.
    rewrite Z.shiftr_div_pow2, Z.shiftl_1_l by lia. change (2 ^ 1) with 2. fold (weight_val w).
    rewrite (u32_small (_ + weight_val w)) by nia.
    rewrite take_zS by lia. fold w. rewrite weights_sum_snoc.
    split_and!; try lia.
    + by rewrite zlen_zupd.
    + apply Forall_app. split; [done|]. constructor; [lia|constructor].
    + intros i Hi. rewrite occ_app, occ_cons, occ_nil. rewrite zat_zupd by lia.
      rewrite (Z.eqb_sym w i). pose proof (occ_nonneg w (take (Z.to_nat n) hw)).
      assert (occ w (take (Z.to_nat n) hw) <= n) as Hon.
      { unfold occ, zlen. pose proof (length_filter (fun x => x = w) (take (Z.to_nat n) hw)).
        rewrite length_take in *. lia. }
      destruct (Z.eqb_spec i w) as [->|]; cbn [b2z].
      * rewrite Hocc by lia. rewrite u32_small; lia.
      * rewrite Hocc by lia. lia.
Qed.

Lemma raw_ok hw src oSize :
  bytes_ok hw -> bytes_ok src -> 0 < oSize < zlen hw -> (oSize + 1) / 2 + 1 <= zlen src ->
  exists hw', HUF_readStats_raw hw src oSize = Ok hw' /\ zlen hw' = zlen hw /\ bytes_ok hw'.
Proof.
  intros Hb Hs Ho Hl. unfold HUF_readStats_raw, for_step.
  assert (wp (for_range 0 ((oSize - 0 + 2 - 1) / 2) (fun k huffWeight =>
      let* b := rd src (1 + (0 + k * 2) / 2) in
      let* huffWeight := wr huffWeight (0 + k * 2) (Z.shiftr b 4) in
      let* b := rd src (1 + (0 + k * 2) / 2) in
      wr huffWeight (0 + k * 2 + 1) (b .& 15)) hw)
    (fun hw' => zlen hw' = zlen hw /\ bytes_ok hw') no_errors) as Hwp.
  2: { destruct (wp_no_errors_Ok _ _ Hwp) as (hw' & E & ? & ?). by exists hw'. }
  apply (wp_for (fun _ hw' => zlen hw' = zlen hw /\ bytes_ok hw')); [zdm|done| |done].
  intros k hw1 Hk [Hl1 Hb1].
  assert (0 <= 1 + (0 + k * 2) / 2 < zlen src) as Hidx by zdm.
  pose proof (bytes_ok_zat src _ Hs Hidx) as Hby.
  wp_step. wp_step; [done|]. wp_step. wp_step; [zdm|]. wp_step. wp_step; [done|].
  wp_step; [rewrite zlen_zupd; zdm|]. rewrite !zlen_zupd. split; [done|].
  apply Forall_zupd; [apply Forall_zupd; [done|]|]; unfold is_byte.
  - rewrite Z.shiftr_div_pow2 by lia. zdm.
  - change 15 with (2 ^ 4 - 1). rewrite land_mask by lia. zdm.
Qed.

(** ** Properties *)

(** What a tree description promises: a complete prefix code. *)
Definition stats_ok (huffWeight rankStats : list Z) (srcSize : Z) (r : HUF_stats) : Prop :=
  let weights := take (Z.to_nat (hs_nbSymbols r)) (hs_huffWeight r) in
  1 <= hs_size r <= srcSize /\ 1 <= hs_nbSymbols r <= zlen huffWeight /\
  1 <= hs_tableLog r <= 12 /\
  zlen (hs_huffWeight r) = zlen huffWeight /\ zlen (hs_rankStats r) = zlen rankStats /\
  Forall (fun w => 0 <= w <= hs_tableLog r) weights /\
  weights_sum weights = 2 ^ hs_tableLog r /\
  (forall i, 0 <= i < 13 -> zat (hs_rankStats r) i = occ i weights) /\
  2 <= zat (hs_rankStats r) 1 /\ Z.even (zat (hs_rankStats r) 1) = true.

Lemma zsum_weight_le l w :
  Forall (fun w => 0 <= w <= 12) l -> w ∈ l -> weight_val w <= weights_sum l.
Proof.
  intros HF. unfold weights_sum, zsum. induction HF as [|x l Hx HF IH]; intros Hin.
  - by apply not_elem_of_nil in Hin.
  - cbn [map foldr]. assert (0 <= foldr Z.add 0 (map weight_val l)) as H0.
    { apply (zsum_nonneg (map weight_val l)). apply List.Forall_map.
      eapply Forall_impl; [exact HF|]. intros y Hy. by apply weight_val_le. }
    pose proof (weight_val_le x Hx). apply elem_of_cons in Hin as [->|Hin]; [lia|].
    specialize (IH Hin). lia.
Qed.

(** The last weight completes the tree: the end of [HUF_readStats]. *)
Lemma finish_ok hw0 rk0 hw rk oSize iSize srcSize total :
  bytes_ok hw -> zlen hw = zlen hw0 -> zlen rk = zlen rk0 -> 13 <= zlen rk0 ->
  0 <= oSize < zlen hw -> oSize <= 255 -> 1 <= iSize + 1 <= srcSize ->
  Forall (fun w => 0 <= w <= 12) (take (Z.to_nat oSize) hw) ->
  total = weights_sum (take (Z.to_nat oSize) hw) -> 0 <= total <= oSize * 2 ^ 11 ->
  (forall i, 0 <= i < 13 -> zat rk i = occ i (take (Z.to_nat oSize) hw)) ->
  wp (HUF_readStats_last hw rk total oSize iSize)
    (stats_ok hw0 rk0 srcSize) any_error.
Proof.
  intros Hb Hl Hlr H13 Ho Ho255 His HF Ht Htr Hocc. unfold HUF_readStats_last. wp_step; [done|].
  rewrite highbit32_spec by lia. pose proof (Z.log2_spec total ltac:(lia)) as Hlog.
  pose proof (Z.log2_nonneg total). rewrite Z.pow_succ_r in Hlog by lia.
  cbv zeta. wp_step; [done|]. change HUF_TABLELOG_MAX with 12 in Hc0.
  set (h := Z.log2 total) in *. rewrite (Z.shiftl_1_l (h + 1)), (pow2_S h) by lia.
  pose proof (pow2_le h 11 ltac:(lia)). rewrite (u32_small (2 * 2 ^ h - total)) by lia.
  set (rest := 2 * 2 ^ h - total). assert (1 <= rest <= 2 ^ h) as Hrest by (unfold rest; lia).
  rewrite (highbit32_spec rest) by lia. set (g := Z.log2 rest) in *.
  assert (0 <= g <= h) as Hg.
  { split; [apply Z.log2_nonneg|]. unfold g. rewrite <- (Z.log2_pow2 h) by lia. apply Z.log2_le_mono. lia. }
  rewrite Z.shiftl_1_l. pose proof (pow2_le g 11 ltac:(lia)). pose proof (pow2_pos g ltac:(lia)).
  rewrite (u32_small (2 ^ g)) by lia. wp_step; [done|]. bools.
  wp_step. wp_step; [lia|]. wp_step. wp_step; [lia|]. wp_step. wp_step; [lia|].
  wp_step. wp_step; [rewrite zlen_zupd; lia|]. wp_step; [done|].
  assert (occ (g + 1) (take (Z.to_nat oSize) hw) <= oSize) as Hon.
  { unfold occ, zlen. pose proof (length_filter (fun x => x = g + 1) (take (Z.to_nat oSize) hw)).
    rewrite length_take in *. lia. }
  pose proof (occ_nonneg (g + 1) (take (Z.to_nat oSize) hw)).
  wp_step. unfold stats_ok. cbn [hs_huffWeight hs_rankStats hs_nbSymbols hs_tableLog hs_size]. cbv zeta.
  assert (take (Z.to_nat (oSize + 1)) (zupd hw oSize (u8 (g + 1))) = take (Z.to_nat oSize) hw ++ [g + 1]) as Etake.
  { rewrite take_zS, zat_zupd_eq by (rewrite ?zlen_zupd; lia). rewrite u8_small by lia. f_equal.
    unfold zupd. apply take_insert_ge. lia. }
  rewrite Etake, weights_sum_snoc, <- Ht. rewrite !zlen_zupd.
  assert (weight_val (g + 1) = 2 ^ g) as Ewv.
  { unfold weight_val. rewrite pow2_S by lia. rewrite Z.mul_comm. apply Z.div_mul. lia. }
  assert (forall i, 0 <= i < 13 ->
    zat (zupd rk (g + 1) (u32 (zat rk (g + 1) + 1))) i = occ i (take (Z.to_nat oSize) hw ++ [g + 1])) as Hocc'.
  { intros i Hi. rewrite occ_app, occ_cons, occ_nil, zat_zupd by lia. rewrite (Z.eqb_sym (g + 1) i).
    destruct (Z.eqb_spec i (g + 1)) as [->|]; cbn [b2z]; rewrite Hocc by lia; [rewrite u32_small|]; lia. }
  split_and!; try done; try lia.
  - apply Forall_app. split; [|constructor; [lia|constructor]].
    apply Forall_forall. intros w Hin. pose proof (proj1 (Forall_forall _ _) HF w Hin) as Hw. simpl in Hw.
    pose proof (zsum_weight_le _ w HF Hin) as Hle. rewrite <- Ht in Hle. split; [lia|].
    destruct (Z.leb_spec w (h + 1)); [done|]. exfalso. unfold weight_val in Hle.
    replace w with (w - 1 + 1) in Hle by lia. rewrite pow2_S, Z.mul_comm, Z.div_mul in Hle by lia.
    pose proof (pow2_le (h + 1) (w - 1) ltac:(lia)) as Hp. rewrite pow2_S in Hp by lia. lia.
  - rewrite Ewv, pow2_S by lia. unfold rest in *. lia.
  - rewrite <- land_1. by apply Z.eqb_eq.
Qed.

Lemma readStats_ok (huffWeight rankStats src : list Z) (w : FSE_wksp) :
  bytes_ok huffWeight -> bytes_ok src -> zlen src < 2 ^ 26 ->
  1 <= zlen huffWeight <= 256 -> 13 <= zlen rankStats -> wksp_ok w ->
  wp (HUF_readStats huffWeight rankStats src w) (stats_ok huffWeight rankStats (zlen src)) any_error.
Proof.
  intros Hbw Hb Hlen Hhw Hrk Hw. unfold HUF_readStats. cbv zeta. pose proof (zlen_nonneg src).
  wp_step; [done|]. wp_step. wp_step; [lia|].
  pose proof (bytes_ok_zat src 0 Hb ltac:(lia)) as His. set (iSize := zat src 0) in *.
  apply wp_bind. eapply (wp_mono _ (fun '(hw, iS, oSize) => zlen hw = zlen huffWeight /\ bytes_ok hw /\
    0 <= oSize < zlen huffWeight /\ 1 <= iS + 1 <= zlen src) _ any_error); [| |done].
  - wp_step.
    + wp_step; [done|]. wp_step; [done|].
      destruct (raw_ok huffWeight src (iSize - 127)) as (hw' & -> & Hl & Hb'); [done|done|lia|lia|].
      cbn [bind]. wp_step. split_and!; try done; try lia. zdm.
    + wp_step; [done|]. wp_step.
      eapply wp_mono; [apply decompress_wksp_ok; try done; [by apply bytes_ok_zsub| |by apply bytes_ok_zsub]| |done].
      { rewrite zlen_zsub by lia. lia. }
      intros [hw' n] (Hl & Hn & Hb'). rewrite zlen_zsub in Hl, Hn by lia. wp_step.
      split_and!; try lia; [rewrite zlen_zpatch; lia|by apply bytes_ok_zpatch].
  - intros [[hw iS] oSize] (Hl & Hbh & Ho & Hi).
    rewrite memcpy_at_ok by (change HUF_TABLELOG_MAX with 12; rewrite ?zlen_zfill; lia). cbn [bind].
    set (rk := zpatch rankStats 0 (zfill (HUF_TABLELOG_MAX + 1) 0)).
    assert (zlen rk = zlen rankStats) as Hlr.
    { apply zlen_zpatch; change HUF_TABLELOG_MAX with 12; rewrite ?zlen_zfill; lia. }
    wp_step. eapply wp_mono; [apply collect_ok; try done; try lia| |done].
    { intros i Hi'. unfold rk. change (HUF_TABLELOG_MAX + 1) with 13.
      rewrite zat_zpatch by (rewrite ?zlen_zfill; lia). rewrite zlen_zfill by lia.
      rewrite (proj2 (Z.leb_le _ _)), (proj2 (Z.ltb_lt _ _)) by lia. simpl andb. cbv iota.
      apply zat_zfill. lia. }
    intros [rk' total] (Hlr' & HF & Ht & Htr & Hocc).
    apply finish_ok with (rk0 := rankStats); try done; lia.
Qed.

(** C31: reading a Huffman tree description is safe and yields a complete code.
    On any bytes, with any memory contents, [HUF_readStats] ends within its
    buffers; and when it accepts, it read at most the bytes given, the depth is
    at most 12, every weight is at most the depth, the weights satisfy Kraft's
    equality (the sum of the 2^(w-1) is 2^tableLog), the statistics count them,
    and there is an even number, at least 2, of weights 1. *)
Theorem HUF_readStats_ok (huffWeight rankStats src : list Z) (w : FSE_wksp) :
  bytes_ok huffWeight -> bytes_ok src -> zlen src < 2 ^ 26 ->
  1 <= zlen huffWeight <= 256 -> 13 <= zlen rankStats -> wksp_ok w ->
  wp (HUF_readStats huffWeight rankStats src w) (stats_ok huffWeight rankStats (zlen src)) any_error.
Proof. apply readStats_ok. Qed.

Definition sample_wksp : FSE_wksp :=
  mkWksp 20000 (zfill 256 0) (zfill 4096 (mkDecode 0 0 0)) (zfill 256 0) (zfill 4104 0).

Lemma HUF_readStats_ok_witness :
  wp (HUF_readStats (zfill 256 0) (zfill 13 0) [129; 17; 32; 0] sample_wksp)
    (stats_ok (zfill 256 0) (zfill 13 0) 4) any_error /\
  exists r, HUF_readStats (zfill 256 0) (zfill 13 0) [129; 17; 32; 0] sample_wksp = Ok r /\
    hs_tableLog r = 2 /\ hs_nbSymbols r = 3.
Proof.
  split.
  - apply (HUF_readStats_ok (zfill 256 0) (zfill 13 0) [129; 17; 32; 0] sample_wksp);
      [bytes_dec|bytes_dec|vm_compute; reflexivity|vm_compute; split; congruence|vm_compute; congruence|].
    vm_compute. repeat split; congruence.
  - eexists. split; [vm_compute; reflexivity|]. split; reflexivity.
Defined.

(** C38: reading the counts of an FSE table is safe and its result is usable. On
    any header of less than 64 MB, [FSE_readNCount] reads no byte outside it and
    writes no count outside its table; what it accepts lies inside the header,
    uses an alphabet within the limit and a table log of 5 to 15, and its counts
    are a normalised distribution (they are at least -1 and sum to the size of
    the table, which is what the builder of the decoding table relies on), with
    one exception: with a table log of 15, beyond the 12 that the builder accepts,
    a symbol that alone has the 32768 states, a count that a [short] holds as
    -32768. *)
Theorem FSE_readNCount_correct norm0 maxSV src :
  bytes_ok src -> zlen src < 2 ^ 26 -> 0 <= maxSV <= 255 -> maxSV < zlen norm0 ->
  match FSE_readNCount norm0 maxSV src with
  | Ok r => 0 < nco_size r <= zlen src /\ 0 <= nco_maxSV r <= maxSV /\ 5 <= nco_tableLog r <= 15 /\
      zlen (nco_norm r) = zlen norm0 /\
      (norm_ok (nco_norm r) (nco_maxSV r + 1) (nco_tableLog r) \/
       nco_tableLog r = 15 /\ exists s, 0 <= s <= nco_maxSV r /\ zat (nco_norm r) s = - 2 ^ 15 /\
         forall i, 0 <= i <= nco_maxSV r -> i <> s -> zat (nco_norm r) i = 0)
  | Err _ => True
  | Stuck => False
  end.
Proof.
  intros Hb Hl Hm Hn. pose proof (readNCount_ok norm0 maxSV src Hb Hl Hm Hn) as H.
  destruct (FSE_readNCount norm0 maxSV src) as [r| |]; [|done..].
  destruct H as (H1 & H2 & H3 & H4 & [H5|(H5 & s & Hs & Ez & H0)]); (do 4 (split; [done|])); [by left|right].
  split; [done|]. exists s. split; [lia|]. split; [done|]. intros i Hi. apply H0. lia.
Qed.

Lemma FSE_readNCount_correct_witness :
  match FSE_readNCount (zfill 3 0) 2 [0x10; 0x3F] with
  | Ok r => 0 < nco_size r <= 2 /\ 0 <= nco_maxSV r <= 2 /\ 5 <= nco_tableLog r <= 15 /\
      zlen (nco_norm r) = 3 /\
      (norm_ok (nco_norm r) (nco_maxSV r + 1) (nco_tableLog r) \/
       nco_tableLog r = 15 /\ exists s, 0 <= s <= nco_maxSV r /\ zat (nco_norm r) s = - 2 ^ 15 /\
         forall i, 0 <= i <= nco_maxSV r -> i <> s -> zat (nco_norm r) i = 0)
  | Err _ => True
  | Stuck => False
  end /\
  FSE_readNCount (zfill 3 0) 2 [0x10; 0x3F] = Ok (mkNCount [16; 16; 0] 1 5 2) /\
  FSE_readNCount (zfill 3 0) 2 [0xFA; 0xFF; 0x0F] = Ok (mkNCount [-32768; 0; 0] 0 15 3).
Proof.
  split; [|split; vm_compute; reflexivity].
  apply (FSE_readNCount_correct (zfill 3 0) 2 [0x10; 0x3F]);
    [bytes_dec|vm_compute; reflexivity|lia|vm_compute; reflexivity].
Defined.

(** The table of ranks needs one more entry than its description says. The
    comment of [HUF_readStats] asks for a table of at least [HUF_TABLELOG_MAX]
    counters; the code clears [HUF_TABLELOG_MAX + 1] of them, so that no
    execution that succeeds is defined with only [HUF_TABLELOG_MAX]. *)
Theorem HUF_readStats_rankStats_size huffWeight rankStats src w r :
  HUF_readStats huffWeight rankStats src w = Ok r -> HUF_TABLELOG_MAX + 1 <= zlen rankStats.
Proof.
  unfold HUF_readStats. cbv zeta. unfold RETURN_ERROR_IF at 1. destruct (zlen src =? 0); [done|].
  destruct (rd src 0) as [i| |]; cbn [bind]; [|done..].
  match goal with |- bind ?m _ = _ -> _ => destruct m as [[[hw iS] oS]| |] end; cbn [bind]; [|done..].
  unfold memcpy_at. destruct (Z.leb_spec (0 + zlen (zfill (HUF_TABLELOG_MAX + 1) 0)) (zlen rankStats)) as [Hle|].
  - intros _. rewrite zlen_zfill in Hle by (unfold HUF_TABLELOG_MAX; lia). lia.
  - by rewrite andb_false_r.
Qed.

Lemma HUF_readStats_rankStats_size_witness :
  exists r, HUF_readStats (zfill 256 0) (zfill 13 0) [129; 17; 32; 0] sample_wksp = Ok r /\
    HUF_TABLELOG_MAX + 1 <= zlen (zfill 13 0).
Proof.
  eexists. split; [vm_compute; reflexivity|].
  eapply (HUF_readStats_rankStats_size (zfill 256 0) (zfill 13 0) [129; 17; 32; 0] sample_wksp).
  vm_compute. reflexivity.
Defined.
