(* ===== verification/Hist.v ===== *)
(** Histograms (compress/hist.c, compress/hist.h): the plain counting loop, the
    one that counts in four tables by stripes of 16 bytes, and the choice between
    them. Both give the number of occurrences of every symbol, whatever the byte
    order of the machine. *)

From S2P Require Import Prelude Errors Outcome Bits Mem FseTable FseSpread FseSymbols FseBuild.

(** ** Definitions *)

Definition HIST_WKSP_SIZE_U32 : Z := 1024.
Definition HIST_WKSP_SIZE : Z := HIST_WKSP_SIZE_U32 * 4.

(** What a call gives: the table, [*maxSymbolValuePtr] and the returned count. *)
Record HIST := mkHIST {
  h_count : list Z;
  h_maxSymbolValue : Z;
  h_largest : Z;
}.

(** [count[b]++]. *)
Definition HIST_incr (count : list Z) (b : Z) : result (list Z) :=
  let* n := rd count b in wr count b (u32 (n + 1)).

Definition HIST_add (count src : list Z) : result (list Z) :=
  for_range 0 (zlen src) (fun ip count => let* b := rd src ip in HIST_incr count b) count.

(** [while (!count[maxSymbolValue]) maxSymbolValue--]. *)
Definition HIST_lastSymbol (count : list Z) (maxSymbolValue : Z) : result Z :=
  loop_ (Z.to_nat (maxSymbolValue + 1))
    (fun m => let* n := rd count m in
       Ok (if n =? 0 then Continue (u32 (m - 1)) else Break m)) maxSymbolValue.

(** The highest of the counts of the symbols up to [maxSymbolValue]. *)
Definition HIST_largest (count : list Z) (maxSymbolValue : Z) : result Z :=
  for_range 0 (maxSymbolValue + 1) (fun s largestCount =>
    let* n := rd count s in Ok (if n >? largestCount then n else largestCount)) 0.

Definition HIST_count_simple (count : list Z) (maxSymbolValue : Z) (src : list Z) : result HIST :=
  let* count := memcpy_at count 0 (zfill (u32 (maxSymbolValue + 1)) 0) in
  if zlen src =? 0 then Ok (mkHIST count 0 0)
  else
    let* count := HIST_add count src in
    let* maxSymbolValue := HIST_lastSymbol count maxSymbolValue in
    let* largestCount := HIST_largest count maxSymbolValue in
    Ok (mkHIST count maxSymbolValue largestCount).

Section parallel.
Context (le : bool).

(** One word, in the tables [Counting1] to [Counting4] of the workspace. *)
Definition HIST_stripe (c : Z) (ws : list Z) : result (list Z) :=
  let* ws := HIST_incr ws (u8 c) in
  let* ws := HIST_incr ws (256 + u8 (Z.shiftr c 8)) in
  let* ws := HIST_incr ws (512 + u8 (Z.shiftr c 16)) in
  HIST_incr ws (768 + Z.shiftr c 24).

(** [c = cached; cached = MEM_read32(ip); ip += 4; ...]. *)
Definition HIST_next (source : list Z) (v : Z * Z * list Z) : result (Z * Z * list Z) :=
  let '(ip, cached, ws) := v in
  let c := cached in
  let* cached := MEM_read32 le source ip in
  let* ws := HIST_stripe c ws in
  Ok (ip + 4, cached, ws).

(** The four tables are added up in the first one; the highest sum is returned. *)
Definition HIST_recombine (ws : list Z) : result (list Z * Z) :=
  for_range 0 256 (fun s '(ws, max) =>
    let* c1 := rd ws s in let* c2 := rd ws (256 + s) in
    let* c3 := rd ws (512 + s) in let* c4 := rd ws (768 + s) in
    let n := u32 (c1 + u32 (u32 (c2 + c3) + c4)) in
    let* ws := wr ws s n in
    Ok (ws, if n >? max then n else max)) (ws, 0).

(** [HIST_count_parallel_wksp]; [workSpace] is its content at the call. *)
Definition HIST_count_parallel_wksp (count : list Z) (maxSymbolValue : Z) (source : list Z)
    (check : bool) (workSpace : list Z) : result HIST :=
  let sourceSize := zlen source in
  let countSize := u32 (maxSymbolValue + 1) in
  if sourceSize =? 0 then
    let* count := memcpy_at count 0 (zfill countSize 0) in
    Ok (mkHIST count 0 0)
  else
    let* ws := memcpy_at workSpace 0 (zfill (4 * 256) 0) in
    (* by stripes of 16 bytes *)
    let* cached := MEM_read32 le source 0 in
    let* '(ip, _, ws) :=
      while_ (length source) (fun '(ip, _, _) => ip <? sourceSize - 15)
        (fun v => let* v := HIST_next source v in let* v := HIST_next source v in
                  let* v := HIST_next source v in HIST_next source v)
        (4, cached, ws) in
    let ip := ip - 4 in
    (* finish last symbols *)
    let* ws := for_range ip sourceSize (fun ip ws => let* b := rd source ip in HIST_incr ws b) ws in
    let* '(ws, max) := HIST_recombine ws in
    let* last := HIST_lastSymbol ws 255 in
    ERROR_IF check && (last >? maxSymbolValue) THEN maxSymbolValue_tooSmall ;;
    let* new := rd_bytes ws 0 countSize in
    let* count := memcpy_at count 0 new in
    Ok (mkHIST count last max).

(** The workspace of the functions below: its address and its content. *)
Record HIST_wksp := mkHWksp {
  hw_addr : Z;
  hw_size : Z;
  hw_data : list Z;
}.

Definition HIST_countFast_wksp (count : list Z) (maxSymbolValue : Z) (source : list Z)
    (w : HIST_wksp) : result HIST :=
  if zlen source <? 1500 then HIST_count_simple count maxSymbolValue source
  else
    ERROR_IF negb ((hw_addr w .& 3) =? 0) THEN GENERIC ;;
    ERROR_IF hw_size w <? HIST_WKSP_SIZE THEN workSpace_tooSmall ;;
    HIST_count_parallel_wksp count maxSymbolValue source false (hw_data w).

Definition HIST_count_wksp (count : list Z) (maxSymbolValue : Z) (source : list Z)
    (w : HIST_wksp) : result HIST :=
  ERROR_IF negb ((hw_addr w .& 3) =? 0) THEN GENERIC ;;
  ERROR_IF hw_size w <? HIST_WKSP_SIZE THEN workSpace_tooSmall ;;
  if maxSymbolValue <? 255 then
    HIST_count_parallel_wksp count maxSymbolValue source true (hw_data w)
  else HIST_countFast_wksp count 255 source w.

(** The variants with a workspace on the stack: an array of [unsigned], aligned,
    of indeterminate content. *)
Definition HIST_countFast (count : list Z) (maxSymbolValue : Z) (source : list Z)
    (addr : Z) (tmpCounters : list Z) : result HIST :=
  HIST_countFast_wksp count maxSymbolValue source (mkHWksp (4 * addr) HIST_WKSP_SIZE tmpCounters).
Definition HIST_count (count : list Z) (maxSymbolValue : Z) (src : list Z)
    (addr : Z) (tmpCounters : list Z) : result HIST :=
  HIST_count_wksp count maxSymbolValue src (mkHWksp (4 * addr) HIST_WKSP_SIZE tmpCounters).

End parallel.

(** *** Specification *)

(** The number of occurrences of every symbol up to [top] replaces the first
    entries of the table; [top] becomes the last symbol that occurs, and the
    result is the number of occurrences of the most frequent one. *)
Definition hist_of (count0 : list Z) (top : Z) (src : list Z) : list Z :=
  zpatch count0 0 (map (fun s => occ s src) (seqZ 0 (top + 1))).
Definition largest_of (src : list Z) : Z := foldr Z.max 0 (map (fun s => occ s src) (seqZ 0 256)).
Definition last_of (src : list Z) : Z := foldr Z.max 0 src.
Definition hist_spec (count0 : list Z) (top : Z) (src : list Z) : HIST :=
  mkHIST (hist_of count0 top src) (last_of src) (largest_of src).

(** ** Lemmas *)

Lemma fold_max_ge l x : x ∈ l -> x <= foldr Z.max 0 l.
Proof. induction 1; simpl; lia. Qed.
Lemma fold_max_in l : foldr Z.max 0 l = 0 \/ foldr Z.max 0 l ∈ l.
Proof.
  induction l as [|x l IH]; [by left|]. simpl. destruct (Z.max_spec x (foldr Z.max 0 l)) as [[_ ->]|[_ ->]].
  - destruct IH as [IH|IH]; [by left|]. right. by apply list_elem_of_further.
  - right. apply list_elem_of_here.
Qed.
Lemma fold_max_nonneg l : 0 <= foldr Z.max 0 l.
Proof. induction l; simpl; lia. Qed.
Lemma fold_max_unique l m :
  0 <= m -> (forall x, x ∈ l -> x <= m) -> m = 0 \/ m ∈ l -> foldr Z.max 0 l = m.
Proof.
  intros Hm Hub Hin. assert (foldr Z.max 0 l <= m).
  { destruct (fold_max_in l) as [->|H]; [lia|by apply Hub]. }
  pose proof (fold_max_nonneg l). destruct Hin as [->|H2]; [lia|]. pose proof (fold_max_ge l m H2). lia.
Qed.

Lemma occ_pos s l : 0 < occ s l <-> s ∈ l.
Proof.
  induction l as [|x l IH].
  - rewrite occ_nil. split; [lia|by intros ?%not_elem_of_nil].
  - rewrite occ_cons, elem_of_cons. pose proof (occ_nonneg s l). destruct (Z.eqb_spec x s); simpl b2z.
    + split; [by left|lia].
    + rewrite Z.add_0_l, IH. naive_solver.
Qed.
Lemma occ_le_len s l : occ s l <= zlen l.
Proof.
  induction l as [|x l IH]; [done|]. rewrite occ_cons. unfold zlen in *. simpl length.
  destruct (x =? s); simpl b2z; lia.
Qed.

Section counting.
Context (src : list Z).
Hypothesis Hsrc : bytes_ok src.

Lemma largest_of_spec m :
  0 <= m -> (forall i, 0 <= i < 256 -> occ i src <= m) ->
  m = 0 \/ (exists i, 0 <= i < 256 /\ m = occ i src) -> largest_of src = m.
Proof.
  intros Hm Hub Hin. apply fold_max_unique; [done| |].
  - intros x Hx. rewrite map_fmap in Hx. apply list_elem_of_fmap in Hx as (i & -> & Hi).
    apply elem_of_seqZ in Hi. apply Hub. lia.
  - destruct Hin as [|(i & Hi & ->)]; [by left|right]. rewrite map_fmap. apply list_elem_of_fmap.
    exists i. split; [done|]. apply elem_of_seqZ. lia.
Qed.

Lemma last_of_spec m :
  0 <= m -> 0 < occ m src -> (forall i, m < i < 256 -> occ i src = 0) -> last_of src = m.
Proof.
  intros Hm Hocc Hz. apply fold_max_unique; [done| |right; by apply occ_pos].
  intros x Hx. pose proof (proj2 (occ_pos x src) Hx) as Hp.
  pose proof (proj1 (Forall_forall is_byte src) Hsrc x Hx) as Hb. unfold is_byte in Hb.
  destruct (Z.le_gt_cases x m); [done|]. rewrite Hz in Hp by lia. lia.
Qed.

Lemma last_of_range : src <> [] -> 0 <= last_of src < 256 /\ 0 < occ (last_of src) src.
Proof.
  intros Hne. unfold last_of. destruct (fold_max_in src) as [E|Hin].
  - rewrite E. split; [lia|]. apply occ_pos. destruct src as [|x l]; [done|].
    apply Forall_cons in Hsrc as [Hx _]. unfold is_byte in Hx. simpl in E.
    pose proof (fold_max_nonneg l). replace 0 with x by lia. apply list_elem_of_here.
  - split; [|by apply occ_pos]. exact (proj1 (Forall_forall is_byte src) Hsrc _ Hin).
Qed.
Lemma last_of_bound : last_of src <= 255.
Proof. destruct (decide (src = [])) as [->|Hne]; [done|]. pose proof (last_of_range Hne). lia. Qed.
Lemma occ_above_last i : last_of src < i -> occ i src = 0.
Proof.
  intros Hi. pose proof (occ_nonneg i src). destruct (Z.eq_dec (occ i src) 0); [done|].
  assert (i ∈ src) as Hin by (apply occ_pos; lia). pose proof (fold_max_ge src i Hin). unfold last_of in Hi. lia.
Qed.

(** The two scans over a table that holds the counts. *)
Lemma lastSymbol_ok tab top :
  src <> [] -> last_of src <= top < 256 -> top < zlen tab ->
  (forall i, 0 <= i <= top -> zat tab i = occ i src) ->
  HIST_lastSymbol tab top = Ok (last_of src).
Proof.
  intros Hne Htop Hl Htab. destruct (last_of_range Hne) as [Hr Hp].
  destruct (wp_no_errors_Ok (HIST_lastSymbol tab top) (fun m => m = last_of src)) as (m & -> & ->); [|done].
  unfold HIST_lastSymbol.
  apply (wp_loop (fun m => last_of src <= m <= top) (fun m => m)); [lia|lia|]. intros m Hm.
  wp_step. wp_step; [lia|]. wp_step. rewrite Htab by lia. destruct (Z.eqb_spec (occ m src) 0) as [E|Hne0].
  - assert (m <> last_of src) by (intros ->; lia). rewrite u32_small by lia. lia.
  - destruct (Z.eq_dec m (last_of src)); [done|]. rewrite occ_above_last in Hne0 by lia. done.
Qed.

(** [m] is the highest of the counts below [s]. *)
Definition is_largest (s m : Z) : Prop :=
  0 <= m /\ (forall i, 0 <= i < s -> occ i src <= m) /\
  (m = 0 \/ exists i, 0 <= i < 256 /\ m = occ i src).
Lemma is_largest_S s m :
  0 <= s < 256 -> is_largest s m ->
  is_largest (s + 1) (if occ s src >? m then occ s src else m).
Proof.
  intros Hs (H0 & Hub & Hex). pose proof (occ_nonneg s src). rewrite Z.gtb_ltb.
  destruct (Z.ltb_spec m (occ s src)); (split_and!; [lia| |eauto]); intros i Hi;
    destruct (Z.eq_dec i s) as [->|]; try lia; specialize (Hub i); lia.
Qed.
Lemma is_largest_end s m : last_of src < s -> is_largest s m -> largest_of src = m.
Proof.
  intros Hs (H0 & Hub & Hex). apply largest_of_spec; [done| |done]. intros i Hi.
  destruct (Z.lt_ge_cases i s); [apply Hub; lia|]. rewrite occ_above_last by lia. done.
Qed.

Lemma HIST_largest_ok tab top :
  last_of src <= top < 256 -> 0 <= top < zlen tab ->
  (forall i, 0 <= i <= top -> zat tab i = occ i src) ->
  HIST_largest tab top = Ok (largest_of src).
Proof.
  intros Htop Hl Htab.
  destruct (wp_no_errors_Ok (HIST_largest tab top) (fun m => m = largest_of src)) as (m & -> & ->); [|done].
  apply (wp_for is_largest); [lia| | |].
  - split_and!; [lia|lia|by left].
  - intros s m Hs Hm. wp_step. wp_step; [lia|]. wp_step. rewrite Htab by lia. apply is_largest_S; [lia|done].
  - intros m Hm. symmetry. apply (is_largest_end (top + 1)); [lia|done].
Qed.

End counting.

(** *** The plain loop *)

Lemma wp_incr tab i (Q : list Z -> Prop) E :
  0 <= i < zlen tab -> 0 <= zat tab i < 2 ^ 32 - 1 ->
  Q (zupd tab i (zat tab i + 1)) -> wp (HIST_incr tab i) Q E.
Proof.
  intros Hi Hv HQ. unfold HIST_incr. wp_step. wp_step; [done|]. wp_step; [done|].
  by rewrite u32_small by lia.
Qed.

Lemma zat_elem {A} `{!Inhabited A} (l : list A) i : 0 <= i < zlen l -> zat l i ∈ l.
Proof.
  unfold zlen, zat. intros Hi. destruct (lookup_lt_is_Some_2 l (Z.to_nat i)) as [x Hx]; [lia|].
  rewrite (list_lookup_total_correct _ _ _ Hx). by eapply list_elem_of_lookup_2.
Qed.

Lemma wp_rd_byte src p (Q : Z -> Prop) E :
  bytes_ok src -> 0 <= p < zlen src -> (0 <= zat src p < 256 -> Q (zat src p)) -> wp (rd src p) Q E.
Proof. intros Hb Hp HQ. apply wp_rd; [done|]. apply HQ. by apply bytes_ok_zat. Qed.

(** [HIST_add] adds the number of occurrences of every symbol. *)
Lemma HIST_add_ok count src :
  bytes_ok src ->
  (forall i, i ∈ src -> i < zlen count /\ 0 <= zat count i /\ zat count i + occ i src < 2 ^ 32) ->
  wp (HIST_add count src)
    (fun c => zlen c = zlen count /\ forall i, 0 <= i < zlen count -> zat c i = zat count i + occ i src)
    no_errors.
Proof.
  intros Hb Hc. unfold HIST_add.
  apply (wp_for (fun p c => zlen c = zlen count /\
    forall i, 0 <= i < zlen count -> zat c i = zat count i + occ i (take (Z.to_nat p) src))).
  - pose proof (zlen_nonneg src). lia.
  - split; [done|]. intros. cbn. rewrite occ_nil. lia.
  - intros p c Hp [Hl Hv]. wp_step. apply wp_rd_byte; [done..|]. intros Hbyte.
    pose proof (occ_take_lt src p Hp). pose proof (occ_nonneg (zat src p) (take (Z.to_nat p) src)).
    destruct (Hc (zat src p) (zat_elem _ _ Hp)) as (? & ? & ?).
    apply wp_incr; [lia|rewrite Hv by lia; lia|].
    split; [by rewrite zlen_zupd|]. intros i Hi. rewrite occ_take_S, zat_zupd by lia.
    rewrite (Z.eqb_sym (zat src p) i). destruct (Z.eqb_spec i (zat src p)) as [->|]; simpl b2z; rewrite Hv by lia; lia.
  - intros c [Hl Hv]. split; [done|]. intros i Hi. rewrite Hv by done. unfold zlen. by rewrite Nat2Z.id, firstn_all.
Qed.

Lemma zat_hist_of count0 top src i :
  0 <= top < zlen count0 -> 0 <= i ->
  zat (hist_of count0 top src) i = if i <=? top then occ i src else zat count0 i.
Proof.
  intros Ht Hi. unfold hist_of. rewrite zat_zpatch by (rewrite ?zlen_map_seqZ; lia).
  rewrite zlen_map_seqZ by lia. destruct (Z.leb_spec 0 i); [|lia]. simpl andb.
  destruct (Z.ltb_spec i (0 + (top + 1))), (Z.leb_spec i top); try lia; try done.
  rewrite zat_map_seqZ by lia. f_equal. lia.
Qed.
Lemma zlen_hist_of count0 top src :
  0 <= top < zlen count0 -> zlen (hist_of count0 top src) = zlen count0.
Proof. intros. apply zlen_zpatch; rewrite ?zlen_map_seqZ; lia. Qed.

Lemma hist_of_empty count0 top :
  0 <= top < zlen count0 -> zpatch count0 0 (zfill (top + 1) 0) = hist_of count0 top [].
Proof.
  intros. unfold hist_of. f_equal. apply zat_ext; rewrite zlen_zfill by lia.
  - by rewrite zlen_map_seqZ by lia.
  - intros i Hi. by rewrite zat_zfill, zat_map_seqZ by lia.
Qed.
Lemma zat_cleared {A} `{!Inhabited A} (l : list A) n (v : A) i :
  0 <= n <= zlen l -> 0 <= i -> zat (zpatch l 0 (zfill n v)) i = if i <? n then v else zat l i.
Proof.
  intros Hn Hi. rewrite zat_zpatch by (rewrite ?zlen_zfill; lia). rewrite zlen_zfill by lia.
  destruct (Z.leb_spec 0 i); [|lia]. simpl andb. rewrite Z.add_0_l.
  destruct (Z.ltb_spec i n); [|done]. by apply zat_zfill; lia.
Qed.

Lemma count_simple_ok count0 top src :
  bytes_ok src -> zlen src < 2 ^ 32 -> 0 <= top < 256 -> top < zlen count0 -> last_of src <= top ->
  HIST_count_simple count0 top src = Ok (hist_spec count0 top src).
Proof.
  intros Hb Hlen Htop Hc Hlast. unfold HIST_count_simple. rewrite u32_small by lia.
  rewrite memcpy_at_ok by (rewrite ?zlen_zfill; lia). cbn [bind].
  destruct (Z.eqb_spec (zlen src) 0) as [E|Hne].
  { destruct src; [|discriminate E]. by rewrite hist_of_empty by lia. }
  assert (src <> []) as Hne' by (intros ->; done).
  assert (forall x, x ∈ src -> 0 <= x <= top) as Hrange.
  { intros x Hx. pose proof (fold_max_ge src x Hx). pose proof (proj1 (Forall_forall _ _) Hb x Hx) as [? _].
    unfold last_of in Hlast. lia. }
  set (c0 := zpatch count0 0 (zfill (top + 1) 0)).
  assert (zlen c0 = zlen count0) as Hl0 by (apply zlen_zpatch; rewrite ?zlen_zfill; lia).
  assert (forall i, 0 <= i -> zat c0 i = if i <? top + 1 then 0 else zat count0 i) as Hz
    by (intros; apply zat_cleared; lia).
  destruct (wp_no_errors_Ok _ _ (HIST_add_ok c0 src Hb ltac:(intros i Hi; specialize (Hrange i Hi);
    pose proof (occ_le_len i src); rewrite Hz by lia; destruct (Z.ltb_spec i (top + 1)); lia)))
    as (c & -> & Hl & Hv).
  cbn [bind].
  assert (forall i, 0 <= i <= top -> zat c i = occ i src) as Hvt.
  { intros i Hi. rewrite Hv, Hz by lia. destruct (Z.ltb_spec i (top + 1)); lia. }
  destruct (last_of_range src Hb Hne') as [Hr _].
  rewrite (lastSymbol_ok src Hb c top) by (done || lia). cbn [bind].
  rewrite (HIST_largest_ok src c (last_of src)); [|lia|lia|intros; apply Hvt; lia]. cbn [bind].
  unfold hist_spec. do 2 f_equal. apply zat_ext; rewrite ?zlen_hist_of by lia; [lia|].
  intros i Hi. rewrite zat_hist_of by lia. destruct (Z.leb_spec i top); [apply Hvt; lia|].
  rewrite Hv, Hz by lia. destruct (Z.ltb_spec i (top + 1)); [lia|]. rewrite occ_above_last by lia. lia.
Qed.

(** *** The four tables *)

(** The four tables count the symbols of [l] between them. *)
Definition quads (n0 : Z) (ws l : list Z) : Prop :=
  zlen ws = n0 /\ (forall i, 0 <= i < 1024 -> 0 <= zat ws i) /\
  forall b, 0 <= b < 256 ->
    zat ws b + zat ws (256 + b) + zat ws (512 + b) + zat ws (768 + b) = occ b l.

Lemma quads_perm n0 ws l k : Permutation l k -> quads n0 ws l -> quads n0 ws k.
Proof. intros H (Hl & Hn & Hq). split_and!; [done..|]. intros b Hb. rewrite Hq by done. by apply occ_perm. Qed.

Lemma quads_incr n0 ws l k b i (Q : list Z -> Prop) E :
  1024 <= n0 -> quads n0 ws l -> 0 <= b < 256 -> k = 0 \/ k = 256 \/ k = 512 \/ k = 768 -> i = k + b ->
  zlen l < 2 ^ 32 - 1 -> (forall ws', quads n0 ws' (l ++ [b]) -> Q ws') -> wp (HIST_incr ws i) Q E.
Proof.
  intros Hn0 (Hl & Hn & Hq) Hb Hk -> Hlen HQ.
  assert (0 <= zat ws (k + b) <= occ b l) as Hv.
  { rewrite <- Hq by done. pose proof (Hn b). pose proof (Hn (256 + b)).
    pose proof (Hn (512 + b)). pose proof (Hn (768 + b)).
    destruct Hk as [-> | [-> | [-> | ->]]]; rewrite ?Z.add_0_l; lia. }
  pose proof (occ_le_len b l). apply wp_incr; [lia|lia|]. apply HQ. split_and!.
  - by rewrite zlen_zupd.
  - intros i Hi. rewrite zat_zupd by lia. destruct (Z.eqb_spec i (k + b)); [lia|]. by apply Hn.
  - intros c Hc. rewrite occ_app, occ_cons, occ_nil, <- Hq, !zat_zupd by lia.
    destruct (Z.eqb_spec b c) as [->|]; simpl b2z;
      repeat match goal with |- context [?x =? ?y] => destruct (Z.eqb_spec x y); try lia end;
      destruct Hk as [-> | [-> | [-> | ->]]]; rewrite ?Z.add_0_l in *; lia.
Qed.

Lemma quads_cleared ws : 1024 <= zlen ws -> quads (zlen ws) (zpatch ws 0 (zfill (4 * 256) 0)) [].
Proof.
  intros Hl. split_and!.
  - apply zlen_zpatch; rewrite ?zlen_zfill; lia.
  - intros i Hi. rewrite zat_cleared by lia. destruct (Z.ltb_spec i (4 * 256)); lia.
  - intros b Hb. rewrite occ_nil, !zat_cleared by lia.
    repeat match goal with |- context [?x <? ?y] => destruct (Z.ltb_spec x y); try lia end.
Qed.

(** The four bytes of a word, whatever the byte order. *)
Lemma word_bytes le l :
  bytes_ok l -> length l = 4%nat ->
  exists a b c d, Permutation l [a; b; c; d] /\ bytes_ok [a; b; c; d] /\
    let v := native_val le l in
    u8 v = a /\ u8 (Z.shiftr v 8) = b /\ u8 (Z.shiftr v 16) = c /\ Z.shiftr v 24 = d.
Proof.
  intros Hb Hl.
  assert (exists k, Permutation l k /\ bytes_ok k /\ length k = 4%nat /\ native_val le l = le_val k)
    as (k & Hp & Hk & Hlk & ->).
  { destruct le; [by exists l|]. exists (reverse l). split_and!; [by rewrite reverse_Permutation|
      by apply bytes_ok_reverse|by rewrite length_reverse|done]. }
  destruct k as [|a [|b [|c [|d [|]]]]]; try discriminate Hlk.
  exists a, b, c, d. split; [done|]. split; [done|]. cbv zeta.
  pose proof (byte_at_bit _ Hk) as Hbit. unfold zlen in Hbit. cbn [length] in Hbit. unfold u8.
  split_and!; [|by apply (Hbit 8 1)|by apply (Hbit 16 2)|].
  - pose proof (Hbit 0 0 ltac:(lia) eq_refl) as E0. by rewrite Z.shiftr_0_r in E0.
  - rewrite <- (Z.mod_small (Z.shiftr _ 24) (2 ^ 8)); [by apply (Hbit 24 3)|].
    pose proof (le_val_range _ Hk) as R. unfold zlen in R. cbn [length] in R.
    change (8 * Z.of_nat 4) with 32 in R. rewrite Z.shiftr_div_pow2 by lia. zdm.
Qed.

Section stripes.
Context (le : bool) (source : list Z) (n0 : Z).
Hypothesis Hsource : bytes_ok source.
Hypothesis Hlen : zlen source < 2 ^ 32.
Hypothesis Hn0 : 1024 <= n0.

Lemma stripe_counts c ws l p :
  quads n0 ws l -> c = native_val le (zsub source p 4) -> 0 <= p -> p + 4 <= zlen source -> zlen l < 2 ^ 32 - 4 ->
  wp (HIST_stripe c ws) (fun ws' => quads n0 ws' (l ++ zsub source p 4)) no_errors.
Proof.
  intros Hq -> Hp Hlp Hll.
  destruct (word_bytes le (zsub source p 4)) as (a & b & c & d & HP & Hb & Ea & Eb & Ec & Ed);
    [by apply bytes_ok_zsub|by apply length_zsub|]. cbv zeta in Ea, Eb, Ec, Ed.
  unfold HIST_stripe. rewrite Ea, Eb, Ec, Ed. unfold bytes_ok in Hb. rewrite !Forall_cons_iff in Hb.
  unfold is_byte in Hb. destruct Hb as (? & ? & ? & ? & _).
  wp_step. apply (quads_incr n0 ws l 0 a); [done|done|lia|lia|lia|lia|]. intros w1 Hw1.
  wp_step. apply (quads_incr n0 w1 (l ++ [a]) 256 b); [done|done|lia|lia|lia|rewrite zlen_app; unfold zlen in *; simpl; lia|]. intros w2 Hw2.
  wp_step. apply (quads_incr n0 w2 ((l ++ [a]) ++ [b]) 512 c); [done|done|lia|lia|lia|rewrite !zlen_app; unfold zlen in *; simpl; lia|]. intros w3 Hw3.
  apply (quads_incr n0 w3 (((l ++ [a]) ++ [b]) ++ [c]) 768 d); [done|done|lia|lia|lia|rewrite !zlen_app; unfold zlen in *; simpl; lia|]. intros w4 Hw4.
  eapply quads_perm; [|exact Hw4]. rewrite HP. rewrite <- !app_assoc. done.
Qed.

(** The state of the stripe loop: the bytes before the cached word are counted. *)
Definition stripe_inv (v : Z * Z * list Z) : Prop :=
  let '(ip, cached, ws) := v in
  4 <= ip <= zlen source /\ cached = native_val le (zsub source (ip - 4) 4) /\
  quads n0 ws (zsub source 0 (ip - 4)).

Lemma next_ok v :
  stripe_inv v -> v.1.1 + 4 <= zlen source ->
  wp (HIST_next le source v) (fun v' => stripe_inv v' /\ v'.1.1 = v.1.1 + 4) no_errors.
Proof.
  destruct v as [[ip cached] ws]. intros (Hip & Hc & Hq) Hle. cbn [fst] in *. unfold HIST_next, MEM_read32.
  rewrite rd_bytes_ok by lia. cbn [bind]. wp_step.
  eapply wp_mono; [eapply (stripe_counts cached ws _ (ip - 4)); try done; try lia| |done].
  { rewrite zlen_zsub by lia. lia. }
  intros ws' Hq'. wp_step. split; [|done]. unfold stripe_inv. split; [lia|]. split; [do 2 f_equal; lia|].
  replace (ip + 4 - 4) with (ip - 4 + 4) by lia. rewrite zsub_split by lia.
  by replace (0 + (ip - 4)) with (ip - 4) by lia.
Qed.

Lemma stripes_ok ws :
  4 <= zlen source -> quads n0 ws [] ->
  wp (while_ (length source) (fun '(ip, _, _) => ip <? zlen source - 15)
        (fun v => let* v := HIST_next le source v in let* v := HIST_next le source v in
                  let* v := HIST_next le source v in HIST_next le source v)
        (4, native_val le (zsub source 0 4), ws)) stripe_inv no_errors.
Proof.
  intros H4 Hq. apply (wp_while stripe_inv (fun v => zlen source - v.1.1)).
  - unfold stripe_inv. split; [lia|]. split; [done|]. exact Hq.
  - cbn. unfold zlen. lia.
  - intros [[ip cached] w] Hv Hc. bools. cbn [fst]. split; [lia|].
    wp_step. eapply wp_mono; [apply next_ok; [done|cbn; lia]| |done]. intros v1 [H1 E1].
    wp_step. eapply wp_mono; [apply next_ok; [done|cbn [fst] in *; lia]| |done]. intros v2 [H2 E2].
    wp_step. eapply wp_mono; [apply next_ok; [done|cbn [fst] in *; lia]| |done]. intros v3 [H3 E3].
    eapply wp_mono; [apply next_ok; [done|cbn [fst] in *; lia]| |done]. intros v4 [H4' E4].
    cbn [fst] in *. split; [done|]. lia.
  - done.
Qed.

Lemma rest_ok ip ws :
  0 <= ip <= zlen source -> quads n0 ws (zsub source 0 ip) ->
  wp (for_range ip (zlen source) (fun ip ws => let* b := rd source ip in HIST_incr ws b) ws)
    (fun ws => quads n0 ws source) no_errors.
Proof.
  intros Hip Hq. apply (wp_for (fun p ws => quads n0 ws (zsub source 0 p))); [lia|done| |].
  - intros p w Hp Hw. wp_step. apply wp_rd_byte; [done|lia|]. intros Hbyte.
    apply (quads_incr n0 w (zsub source 0 p) 0 (zat source p)); [done|done|done|lia|lia|rewrite zlen_zsub; lia|].
    intros w' Hw'. rewrite zsub_split by lia. rewrite Z.add_0_l. rewrite (zsub_cons source p 1) by lia. exact Hw'.
  - intros w Hw. by rewrite zsub_all in Hw.
Qed.

Lemma recombine_ok ws :
  quads n0 ws source ->
  wp (HIST_recombine ws)
    (fun '(ws', max) => zlen ws' = n0 /\ max = largest_of source /\
       forall i, 0 <= i < 256 -> zat ws' i = occ i source) no_errors.
Proof.
  intros (Hl & Hn & Hq). unfold HIST_recombine.
  apply (wp_for (fun s '(w, max) => zlen w = n0 /\ is_largest source s max /\
    (forall i, 0 <= i < s -> zat w i = occ i source) /\ (forall i, s <= i < 1024 -> zat w i = zat ws i))).
  - lia.
  - split_and!; [done| |intros; lia|done]. split_and!; [lia|intros; lia|by left].
  - intros s [w max] Hs (Hlw & Hmax & Hdone & Htodo).
    do 4 (wp_step; wp_step; [lia|]). cbv zeta. rewrite !Htodo by lia.
    specialize (Hq s Hs). pose proof (Hn s). pose proof (Hn (256 + s)). pose proof (Hn (512 + s)). pose proof (Hn (768 + s)).
    pose proof (occ_le_len s source).
    rewrite (u32_small (zat ws (256 + s) + _)), (u32_small (zat ws (256 + s) + _ + _)), u32_small by lia.
    replace (zat ws s + _) with (occ s source) by lia. wp_step. wp_step; [lia|]. wp_step.
    split_and!; [by rewrite zlen_zupd|by apply is_largest_S| |].
    + intros i Hi. rewrite zat_zupd by lia. destruct (Z.eqb_spec i s) as [->|]; [done|]. apply Hdone. lia.
    + intros i Hi. rewrite zat_zupd_ne by lia. apply Htodo. lia.
  - intros [w max] (Hlw & Hmax & Hdone & _). split_and!; [done| |done]. symmetry.
    destruct (decide (source = [])) as [E|Hne].
    + apply (is_largest_end _ 256); [by rewrite E|done].
    + apply (is_largest_end _ 256); [|done]. by apply last_of_range.
Qed.

Lemma parallel_ok count0 top check ws :
  4 <= zlen source -> 0 <= top < 256 -> top < zlen count0 -> zlen ws = n0 ->
  HIST_count_parallel_wksp le count0 top source check ws
  = if check && (last_of source >? top) then Err maxSymbolValue_tooSmall
    else Ok (hist_spec count0 top source).
Proof.
  intros H4 Htop Hc Hws. unfold HIST_count_parallel_wksp. rewrite (proj2 (Z.eqb_neq _ _)) by lia.
  rewrite u32_small by lia. rewrite memcpy_at_ok by (rewrite ?zlen_zfill; lia). cbn [bind].
  unfold MEM_read32. rewrite rd_bytes_ok by lia. cbn [bind].
  destruct (wp_no_errors_Ok _ _ (stripes_ok (zpatch ws 0 (zfill (4 * 256) 0)) H4
    ltac:(rewrite <- Hws; apply quads_cleared; lia))) as ([[ip cached] w1] & -> & Hip & Hcc & Hq1). cbn [bind].
  destruct (wp_no_errors_Ok _ _ (rest_ok (ip - 4) w1 ltac:(lia) Hq1)) as (w2 & -> & Hq2). cbn [bind].
  destruct (wp_no_errors_Ok _ _ (recombine_ok w2 Hq2)) as ([w3 max] & -> & Hl3 & -> & Hv3). cbn [bind].
  assert (source <> []) as Hne by (intros E; rewrite E in H4; cbv in H4; congruence).
  destruct (last_of_range source Hsource Hne) as [Hr _].
  rewrite (lastSymbol_ok source Hsource w3 255) by (done || lia || (intros; apply Hv3; lia)). cbn [bind].
  unfold RETURN_ERROR_IF. destruct (check && _); [done|].
  rewrite rd_bytes_ok by lia. cbn [bind]. rewrite memcpy_at_ok by (rewrite ?zlen_zsub; lia). cbn [bind].
  unfold hist_spec, hist_of. do 3 f_equal. apply zat_ext; rewrite zlen_zsub by lia.
  - by rewrite zlen_map_seqZ by lia.
  - intros i Hi. rewrite zat_zsub, zat_map_seqZ by lia. apply Hv3. lia.
Qed.

Lemma parallel_empty count0 top check ws :
  source = [] -> 0 <= top < 256 -> top < zlen count0 ->
  HIST_count_parallel_wksp le count0 top source check ws = Ok (hist_spec count0 top source).
Proof.
  intros -> Htop Hc. unfold HIST_count_parallel_wksp. cbn [zlen length Z.of_nat Z.eqb]. rewrite u32_small by lia.
  rewrite memcpy_at_ok by (rewrite ?zlen_zfill; lia). cbn [bind]. by rewrite hist_of_empty by lia.
Qed.

End stripes.

(** ** Properties *)

(** The declared size of a workspace is that of its content. *)
Definition hist_wksp_ok (w : HIST_wksp) : Prop := hw_size w = 4 * zlen (hw_data w).

(** The parallel counter loads the first four bytes of the source without
    looking at its size: on a source of one to three bytes, and a table of fewer
    than 256 symbols, [HIST_count_wksp] reads past the end of the source. *)
Lemma HIST_count_wksp_short_source le count0 top src w :
  1 <= zlen src < 4 -> 0 <= top < 255 -> hist_wksp_ok w -> (hw_addr w .& 3) = 0 ->
  HIST_WKSP_SIZE <= hw_size w ->
  HIST_count_wksp le count0 top src w = Stuck.
Proof.
  intros Hs Ht Hw Ha Hsz. unfold hist_wksp_ok in Hw. change HIST_WKSP_SIZE with 4096 in Hsz.
  unfold HIST_count_wksp, RETURN_ERROR_IF. rewrite Ha. change HIST_WKSP_SIZE with 4096.
  rewrite (proj2 (Z.ltb_ge (hw_size w) 4096)), (proj2 (Z.ltb_lt top 255)) by lia. cbn [Z.eqb negb].
  unfold HIST_count_parallel_wksp. rewrite (proj2 (Z.eqb_neq (zlen src) 0)) by lia.
  rewrite memcpy_at_ok by (rewrite ?zlen_zfill; lia). cbn [bind].
  unfold MEM_read32, rd_bytes. rewrite (proj2 (Z.leb_gt (0 + 4) (zlen src))) by lia. done.
Qed.

(** C36: the histogram, on every branch. A misaligned or small workspace and a
    symbol above [*maxSymbolValuePtr] are errors that leave the table alone. On a
    source of one to three bytes with [*maxSymbolValuePtr] below 255 the call is
    undefined: four bytes of the source are read. Otherwise the table holds the
    number of occurrences of every symbol, [*maxSymbolValuePtr] is the last symbol
    that occurs and the result is the highest count, whichever of the two
    algorithms runs and whatever the byte order. *)
Theorem HIST_count_wksp_correct le count0 top src w :
  bytes_ok src -> zlen src < 2 ^ 32 -> 0 <= top -> Z.min top 255 < zlen count0 -> hist_wksp_ok w ->
  HIST_count_wksp le count0 top src w
  = if negb ((hw_addr w .& 3) =? 0) then Err GENERIC
    else if hw_size w <? HIST_WKSP_SIZE then Err workSpace_tooSmall
    else if (top <? 255) && (1 <=? zlen src) && (zlen src <? 4) then Stuck
    else if (top <? 255) && (last_of src >? top) then Err maxSymbolValue_tooSmall
    else Ok (hist_spec count0 (Z.min top 255) src).
Proof.
  intros Hb Hlen Ht Hc Hw. destruct ((hw_addr w .& 3) =? 0) eqn:Ha; [|by unfold HIST_count_wksp, RETURN_ERROR_IF; rewrite Ha].
  destruct (Z.ltb_spec (hw_size w) HIST_WKSP_SIZE) as [Hs|Hs]; cbn [negb].
  { unfold HIST_count_wksp, RETURN_ERROR_IF. by rewrite Ha, (proj2 (Z.ltb_lt _ _) Hs). }
  destruct ((top <? 255) && (1 <=? zlen src) && (zlen src <? 4)) eqn:Hshort.
  { bools. apply HIST_count_wksp_short_source; done || lia. }
  unfold HIST_count_wksp, RETURN_ERROR_IF. rewrite Ha, (proj2 (Z.ltb_ge _ _) Hs). cbn [negb]. unfold hist_wksp_ok in Hw. change HIST_WKSP_SIZE with 4096 in *.
  destruct (Z.ltb_spec top 255).
  - rewrite Z.min_l in * by lia. destruct (decide (src = [])) as [->|Hne].
    + rewrite (parallel_empty le []) by (done || lia). change (last_of []) with 0.
      destruct (Z.gtb_spec 0 top); [lia|done].
    + assert (4 <= zlen src) as H4.
      { assert (1 <= zlen src) by (destruct src; [done|unfold zlen; cbn; lia]).
        destruct (Z.leb_spec 1 (zlen src)), (Z.ltb_spec (zlen src) 4); [done|lia|lia|lia]. }
      by rewrite (parallel_ok le src (zlen (hw_data w)) Hb Hlen) by lia.
  - rewrite Z.min_r in * by lia. unfold HIST_countFast_wksp, RETURN_ERROR_IF. rewrite Ha.
    pose proof (last_of_bound src Hb).
    destruct (Z.ltb_spec (zlen src) 1500); [apply count_simple_ok; done || lia|].
    change HIST_WKSP_SIZE with 4096. rewrite (proj2 (Z.ltb_ge (hw_size w) 4096)) by lia.
    by rewrite (parallel_ok le src (zlen (hw_data w)) Hb Hlen) by lia.
Qed.

Lemma HIST_count_wksp_correct_witness :
  HIST_count_wksp true (zfill 256 9) 255 [3; 1; 3; 3; 0] (mkHWksp 4096 4096 (zfill 1024 7))
  = Ok (mkHIST ([1; 1; 0; 3] ++ zfill 252 0) 3 3) /\
  HIST_count_wksp false (zfill 256 9) 2 [3; 1; 3; 3; 0] (mkHWksp 4096 4096 (zfill 1024 7))
  = Err maxSymbolValue_tooSmall /\
  HIST_count_wksp true (zfill 256 9) 7 [1; 2; 3] (mkHWksp 4096 4096 (zfill 1024 7)) = Stuck.
Proof.
  split; [|split]; rewrite HIST_count_wksp_correct; try done; try bytes_dec; try (vm_compute; congruence).
Defined.

(** The fast counter is equivalent to the simple one: on a source without a
    symbol above [*maxSymbolValuePtr] the two return the same table, the same last
    symbol and the same highest count, however long the source is. *)
Theorem HIST_countFast_equiv_simple le count0 top src w :
  bytes_ok src -> zlen src < 2 ^ 32 -> 0 <= top < 256 -> top < zlen count0 -> last_of src <= top ->
  hist_wksp_ok w -> (hw_addr w .& 3) = 0 -> HIST_WKSP_SIZE <= hw_size w ->
  HIST_countFast_wksp le count0 top src w = HIST_count_simple count0 top src /\
  HIST_count_simple count0 top src = Ok (hist_spec count0 top src).
Proof.
  intros Hb Hlen Ht Hc Hl Hw Ha Hs. unfold hist_wksp_ok in Hw. change HIST_WKSP_SIZE with 4096 in Hs.
  rewrite count_simple_ok by done. split; [|done].
  unfold HIST_countFast_wksp, RETURN_ERROR_IF. destruct (Z.ltb_spec (zlen src) 1500); [by apply count_simple_ok|].
  rewrite Ha. change HIST_WKSP_SIZE with 4096. rewrite (proj2 (Z.ltb_ge (hw_size w) 4096)) by lia. cbn [Z.eqb negb].
  by rewrite (parallel_ok le src (zlen (hw_data w)) Hb Hlen) by lia.
Qed.

Lemma HIST_countFast_equiv_simple_witness :
  HIST_countFast_wksp true (zfill 256 9) 7 (zfill 1600 5) (mkHWksp 4096 4096 (zfill 1024 7))
  = HIST_count_simple (zfill 256 9) 7 (zfill 1600 5) /\
  HIST_count_simple (zfill 256 9) 7 (zfill 1600 5) = Ok (hist_spec (zfill 256 9) 7 (zfill 1600 5)).
Proof.
  apply HIST_countFast_equiv_simple; try done; try (vm_compute; congruence).
  bytes_dec.
Defined.
