(* ===== verification/FseNormalize.v ===== *)
(** From a histogram to the normalised counts of an FSE table
    (compress/fse_compress.c): the choice of the table's size, the main
    normalisation method and the secondary one. *)

From S2P Require Import Prelude Errors Outcome Bits Mem FseTable FseSpread FseSymbols FseBuild.

(** ** Definitions *)

Definition FSE_minTableLog (srcSize maxSymbolValue : Z) : result Z :=
  REQUIRE negb (u32 srcSize =? 0) ;;
  REQUIRE negb (maxSymbolValue =? 0) ;;
  let minBitsSrc := ZSTD_highbit32 (u32 srcSize) + 1 in
  let minBitsSymbols := ZSTD_highbit32 maxSymbolValue + 2 in
  Ok (if minBitsSrc <? minBitsSymbols then minBitsSrc else minBitsSymbols).

Definition FSE_optimalTableLog_internal (maxTableLog srcSize maxSymbolValue minus : Z) : result Z :=
  REQUIRE negb (u32 (srcSize - 1) =? 0) ;;
  let maxBitsSrc := u32 (ZSTD_highbit32 (u32 (srcSize - 1)) - minus) in
  let tableLog := maxTableLog in
  let* minBits := FSE_minTableLog srcSize maxSymbolValue in
  let tableLog := if tableLog =? 0 then FSE_DEFAULT_TABLELOG else tableLog in
  let tableLog := if maxBitsSrc <? tableLog then maxBitsSrc else tableLog in
  let tableLog := if minBits >? tableLog then minBits else tableLog in
  let tableLog := if tableLog <? FSE_MIN_TABLELOG then FSE_MIN_TABLELOG else tableLog in
  Ok (if tableLog >? FSE_MAX_TABLELOG then FSE_MAX_TABLELOG else tableLog).

Definition FSE_optimalTableLog (maxTableLog srcSize maxSymbolValue : Z) : result Z :=
  FSE_optimalTableLog_internal maxTableLog srcSize maxSymbolValue 2.

Definition NOT_YET_ASSIGNED : Z := -2.

(** The first loop of [FSE_normalizeM2]: symbols of low count get one state. *)
Definition M2_lows (norm count : list Z) (total lowThreshold lowOne lowProbCount maxSymbolValue : Z)
  : result (list Z * Z * Z) :=
  for_range 0 (maxSymbolValue + 1) (fun s '(norm, distributed, total) =>
    let* c := rd count s in
    if c =? 0 then let* norm := wr norm s 0 in Ok (norm, distributed, total)
    else if c <=? lowThreshold then
      let* norm := wr norm s lowProbCount in Ok (norm, u32 (distributed + 1), u64 (total - c))
    else if c <=? lowOne then
      let* norm := wr norm s 1 in Ok (norm, u32 (distributed + 1), u64 (total - c))
    else let* norm := wr norm s NOT_YET_ASSIGNED in Ok (norm, distributed, total))
    (norm, 0, total).

(** The second one, with a higher threshold. *)
Definition M2_round (norm count : list Z) (distributed total lowOne maxSymbolValue : Z)
  : result (list Z * Z * Z) :=
  for_range 0 (maxSymbolValue + 1) (fun s '(norm, distributed, total) =>
    let* n := rd norm s in let* c := rd count s in
    if (n =? NOT_YET_ASSIGNED) && (c <=? lowOne) then
      let* norm := wr norm s 1 in Ok (norm, u32 (distributed + 1), u64 (total - c))
    else Ok (norm, distributed, total)) (norm, distributed, total).

(** All remaining points to the most frequent symbol. *)
Definition M2_max (norm count : list Z) (ToDistribute maxSymbolValue : Z) : result (list Z) :=
  let* '(maxV, _) :=
    for_range 0 (maxSymbolValue + 1) (fun s '(maxV, maxC) =>
      let* c := rd count s in
      Ok (if c >? maxC then (s, c) else (maxV, maxC))) (0, 0) in
  let* n := rd norm maxV in
  wr norm maxV (s16 (n + s16 ToDistribute)).

(** One point at a time to the symbols with a positive count. *)
Definition M2_spread (norm : list Z) (ToDistribute maxSymbolValue : Z) : result (list Z) :=
  let* '(_, norm, _) :=
    while_ (Z.to_nat ((ToDistribute + 1) * (maxSymbolValue + 1)))
      (fun '(s, norm, ToDistribute) => ToDistribute >? 0)
      (fun '(s, norm, ToDistribute) =>
         let* n := rd norm s in
         let s' := u32 (s + 1) mod (maxSymbolValue + 1) in
         if n >? 0 then
           let* norm := wr norm s (s16 (n + 1)) in Ok (s', norm, u32 (ToDistribute - 1))
         else Ok (s', norm, ToDistribute)) (0, norm, ToDistribute) in
  Ok norm.

(** The unassigned symbols share the remaining points in proportion. *)
Definition M2_scale (norm count : list Z) (total ToDistribute tableLog maxSymbolValue : Z)
  : result (list Z) :=
  let vStepLog := u64 (62 - tableLog) in
  let mid := u64 (Z.shiftl 1 (vStepLog - 1) - 1) in
  REQUIRE negb (u32 total =? 0) ;;
  let rStep := u64 (u64 (Z.shiftl 1 vStepLog * ToDistribute) + mid) / u32 total in
  let* '(norm, _) :=
    for_range 0 (maxSymbolValue + 1) (fun s '(norm, tmpTotal) =>
      let* n := rd norm s in
      if n =? NOT_YET_ASSIGNED then
        let* c := rd count s in
        let end_ := u64 (tmpTotal + u64 (c * rStep)) in
        let sStart := u32 (Z.shiftr tmpTotal vStepLog) in
        let sEnd := u32 (Z.shiftr end_ vStepLog) in
        let weight := u32 (sEnd - sStart) in
        ERROR_IF weight <? 1 THEN GENERIC ;;
        let* norm := wr norm s (s16 weight) in
        Ok (norm, end_)
      else Ok (norm, tmpTotal)) (norm, mid) in
  Ok norm.

(** [FSE_normalizeM2]; the counts it leaves in [norm]. *)
Definition FSE_normalizeM2 (norm : list Z) (tableLog : Z) (count : list Z)
    (total maxSymbolValue lowProbCount : Z) : result (list Z) :=
  let lowThreshold := u32 (Z.shiftr total tableLog) in
  let lowOne := u32 (Z.shiftr (u64 (total * 3)) (tableLog + 1)) in
  let* '(norm, distributed, total) :=
    M2_lows norm count total lowThreshold lowOne lowProbCount maxSymbolValue in
  let ToDistribute := u32 (Z.shiftl 1 tableLog - distributed) in
  if ToDistribute =? 0 then Ok norm
  else
    let* '(norm, distributed, total, ToDistribute) :=
      (if total / ToDistribute >? lowOne then
         REQUIRE negb (u32 (ToDistribute * 2) =? 0) ;;
         let lowOne := u32 (u64 (total * 3) / u32 (ToDistribute * 2)) in
         let* '(norm, distributed, total) :=
           M2_round norm count distributed total lowOne maxSymbolValue in
         Ok (norm, distributed, total, u32 (Z.shiftl 1 tableLog - distributed))
       else Ok (norm, distributed, total, ToDistribute)) in
    if distributed =? maxSymbolValue + 1 then M2_max norm count ToDistribute maxSymbolValue
    else if total =? 0 then M2_spread norm ToDistribute maxSymbolValue
    else M2_scale norm count total ToDistribute tableLog maxSymbolValue.

Definition rtbTable : list Z := [0; 473195; 504333; 520860; 550000; 700000; 750000; 830000].

(** The states given to a symbol of frequency [c]: the product rounded down, or
    up above a bound that depends on it for small values. *)
Definition FSE_proba (c step scale vStep : Z) : result Z :=
  let proba := s16 (Z.shiftr (u64 (c * step)) scale) in
  if proba <? 8 then
    let* rtb := rd rtbTable proba in
    let restToBeat := u64 (vStep * rtb) in
    Ok (s16 (proba + b2z (u64 (u64 (c * step) - u64 (Z.shiftl proba scale)) >? restToBeat)))
  else Ok proba.

(** The local variables of the loop of [FSE_normalizeCount]. *)
Record norm_vars := mkNV {
  nv_s : Z;
  nv_norm : list Z;
  nv_still : Z;
  nv_largest : Z;
  nv_largestP : Z;
}.

(** One iteration; [None] is the early return of the rle case. *)
Definition FSE_normalize_step (count : list Z) (total maxSymbolValue lowThreshold lowProbCount step scale vStep : Z)
    (v : norm_vars) : result (flow norm_vars (list Z * option norm_vars)) :=
  let s := nv_s v in
  if s <=? maxSymbolValue then
    let* c := rd count s in
    if c =? total then Ok (Break (nv_norm v, None))
    else if c =? 0 then
      let* norm := wr (nv_norm v) s 0 in
      Ok (Continue (mkNV (s + 1) norm (nv_still v) (nv_largest v) (nv_largestP v)))
    else if c <=? lowThreshold then
      let* norm := wr (nv_norm v) s lowProbCount in
      Ok (Continue (mkNV (s + 1) norm (nv_still v - 1) (nv_largest v) (nv_largestP v)))
    else
      let* proba := FSE_proba c step scale vStep in
      let '(largestP, largest) :=
        if proba >? nv_largestP v then (proba, s) else (nv_largestP v, nv_largest v) in
      let* norm := wr (nv_norm v) s proba in
      Ok (Continue (mkNV (s + 1) norm (nv_still v - proba) largest largestP))
  else Ok (Break (nv_norm v, Some v)).

(** [FSE_normalizeCount]: the counts and the returned size of the table, 0 when
    the source holds a single symbol. *)
Definition FSE_normalizeCount (normalizedCounter : list Z) (tableLog : Z) (count : list Z)
    (total maxSymbolValue : Z) (useLowProbCount : bool) : result (list Z * Z) :=
  let tableLog := if tableLog =? 0 then FSE_DEFAULT_TABLELOG else tableLog in
  ERROR_IF tableLog <? FSE_MIN_TABLELOG THEN GENERIC ;;
  ERROR_IF tableLog >? FSE_MAX_TABLELOG THEN tableLog_tooLarge ;;
  let* minLog := FSE_minTableLog total maxSymbolValue in
  ERROR_IF tableLog <? minLog THEN GENERIC ;;
  let lowProbCount := if useLowProbCount then -1 else 1 in
  let scale := u64 (62 - tableLog) in
  let step := Z.shiftl 1 62 / u32 total in
  let vStep := Z.shiftl 1 (scale - 20) in
  let lowThreshold := u32 (Z.shiftr total tableLog) in
  let* '(norm, o) :=
    loop_ (Z.to_nat (maxSymbolValue + 2))
      (FSE_normalize_step count total maxSymbolValue lowThreshold lowProbCount step scale vStep)
      (mkNV 0 normalizedCounter (Z.shiftl 1 tableLog) 0 0) in
  match o with
  | None => Ok (norm, 0)
  | Some v =>
      let* nl := rd norm (nv_largest v) in
      if - nv_still v >=? Z.shiftr nl 1 then
        let* norm := FSE_normalizeM2 norm tableLog count total maxSymbolValue lowProbCount in
        Ok (norm, tableLog)
      else
        let* norm := wr norm (nv_largest v) (s16 (nl + s16 (nv_still v))) in
        Ok (norm, tableLog)
  end.

(** ** Lemmas *)

(** *** Sums over the symbols *)

Definition zsumf (f : Z -> Z) (n : Z) : Z := zsum (map f (seqZ 0 n)).

Lemma zsumf_0 f : zsumf f 0 = 0.
Proof. done. Qed.
Lemma zsumf_S f n : 0 <= n -> zsumf f (n + 1) = zsumf f n + f n.
Proof. intros. unfold zsumf. rewrite seqZ_S, map_app, zsum_app by lia. cbn. lia. Qed.

(** Induction on the number of symbols. *)
Lemma between_ind (P : Z -> Prop) lo n :
  lo <= n -> P lo -> (forall k, lo <= k < n -> P k -> P (k + 1)) -> P n.
Proof.
  intros Hn H0 HS. replace n with (lo + Z.of_nat (Z.to_nat (n - lo))) in * by lia.
  induction (Z.to_nat (n - lo)) as [|m IH]; [by rewrite Z.add_0_r|].
  replace (lo + Z.of_nat (S m)) with (lo + Z.of_nat m + 1) in * by lia.
  apply HS; [lia|]. apply IH; [lia|]. intros. apply HS; [lia|done].
Qed.

Lemma zsumf_ext f g n : 0 <= n -> (forall i, 0 <= i < n -> f i = g i) -> zsumf f n = zsumf g n.
Proof.
  intros Hn. pattern n. apply (between_ind _ 0); [done|done|]. intros k Hk IH H.
  rewrite !zsumf_S, IH, H by (try (intros; apply H); lia). done.
Qed.
Lemma zsumf_le f g n : 0 <= n -> (forall i, 0 <= i < n -> f i <= g i) -> zsumf f n <= zsumf g n.
Proof.
  intros Hn. pattern n. apply (between_ind _ 0); [done|done|]. intros k Hk IH H. rewrite !zsumf_S by lia.
  pose proof (H k ltac:(lia)). pose proof (IH ltac:(intros; apply H; lia)). lia.
Qed.
Lemma zsumf_const c n : 0 <= n -> zsumf (fun _ => c) n = c * n.
Proof. intros Hn. pattern n. apply (between_ind _ 0); [done|rewrite zsumf_0; lia|]. intros k Hk IH. rewrite zsumf_S, IH by lia. lia. Qed.
Lemma zsumf_add f g n : 0 <= n -> zsumf (fun i => f i + g i) n = zsumf f n + zsumf g n.
Proof. intros Hn. pattern n. apply (between_ind _ 0); [done|done|]. intros k Hk IH. rewrite !zsumf_S, IH by lia. lia. Qed.
Lemma zsumf_nonneg f n : 0 <= n -> (forall i, 0 <= i < n -> 0 <= f i) -> 0 <= zsumf f n.
Proof. intros Hn H. rewrite <- (Z.mul_0_l n), <- (zsumf_const 0 n) by done. by apply zsumf_le. Qed.
Lemma zsumf_mono f k n : 0 <= k <= n -> (forall i, 0 <= i < n -> 0 <= f i) -> zsumf f k <= zsumf f n.
Proof.
  intros Hk. pattern n. apply (between_ind _ k); [lia|done|]. intros j Hj IH H. rewrite zsumf_S by lia.
  pose proof (H j ltac:(lia)). pose proof (IH ltac:(intros; apply H; lia)). lia.
Qed.
Lemma zsumf_ge_one f n s : 0 <= s < n -> (forall i, 0 <= i < n -> 0 <= f i) -> f s <= zsumf f n.
Proof.
  intros Hs H. pose proof (zsumf_mono f (s + 1) n ltac:(lia) H) as Hm. rewrite zsumf_S in Hm by lia.
  pose proof (zsumf_nonneg f s ltac:(lia) ltac:(intros; apply H; lia)). lia.
Qed.
Lemma zsumf_exists f c n : 0 <= n -> c * n < zsumf f n -> exists i, 0 <= i < n /\ c < f i.
Proof.
  intros Hn. pattern n. apply (between_ind _ 0); [done|rewrite zsumf_0; lia|]. intros k Hk IH H.
  rewrite zsumf_S in H by lia. destruct (Z.lt_ge_cases c (f k)); [exists k; lia|].
  destruct IH as (i & ? & ?); [lia|]. exists i. lia.
Qed.

(** The effect of an assignment on a sum over an array. *)
Lemma zsumf_zupd (g : Z -> Z -> Z) l s v n :
  0 <= s < n -> n <= zlen l ->
  zsumf (fun i => g (zat (zupd l s v) i) i) n = zsumf (fun i => g (zat l i) i) n - g (zat l s) s + g v s.
Proof.
  intros Hs Hl. revert Hl. pattern n. apply (between_ind _ (s + 1)); [lia| |].
  - intros Hl. rewrite !zsumf_S by lia. rewrite zat_zupd_eq by lia.
    rewrite (zsumf_ext _ (fun i => g (zat l i) i) s); [lia|lia|]. intros i Hi. by rewrite zat_zupd_ne by lia.
  - intros k Hk IH Hl. rewrite !(zsumf_S _ k), IH by lia. rewrite zat_zupd_ne by lia. lia.
Qed.
Lemma zsumf_zupd_S (g : Z -> Z -> Z) l s v :
  0 <= s < zlen l ->
  zsumf (fun i => g (zat (zupd l s v) i) i) (s + 1) = zsumf (fun i => g (zat l i) i) s + g v s.
Proof. intros Hs. rewrite zsumf_zupd, zsumf_S by lia. lia. Qed.

Lemma cum_zsumf norm n : 0 <= n <= zlen norm -> cum norm n = zsumf (fun i => Z.abs (zat norm i)) n.
Proof.
  intros Hn. assert (n <= zlen norm) as Hl by lia. revert Hl. pattern n.
  apply (between_ind _ 0); [lia|done|]. intros k Hk IH Hl. rewrite cum_S, zsumf_S, IH by lia. done.
Qed.

(** *** The proportional share of a symbol *)

Lemma FSE_proba_ok c total tl :
  5 <= tl <= 12 -> 0 < c <= total -> total < 2 ^ 32 ->
  wp (FSE_proba c (2 ^ 62 / total) (62 - tl) (2 ^ (42 - tl))) (fun p => 1 <= p <= 2 ^ tl) no_errors.
Proof.
  intros Htl Hc Ht. unfold FSE_proba.
  assert (1 <= 2 ^ 62 / total) as Hs by (apply Z.div_le_lower_bound; lia).
  assert (total * (2 ^ 62 / total) <= 2 ^ 62) as Hs2 by (apply Z.mul_div_le; lia).
  assert (0 < c * (2 ^ 62 / total) <= 2 ^ 62) as Hcs by nia. set (cs := c * (2 ^ 62 / total)) in *.
  rewrite (u64_small cs), Z.shiftr_div_pow2 by lia.
  assert (2 ^ 62 = 2 ^ tl * 2 ^ (62 - tl)) as E by (rewrite <- pow2_add by lia; f_equal; lia).
  assert (32 <= 2 ^ tl <= 4096) as HN by (split; [apply (pow2_le 5)|apply (pow2_le tl 12)]; lia).
  assert (2 ^ 50 <= 2 ^ (62 - tl) <= 2 ^ 57) as Hv by (split; apply pow2_le; lia).
  assert (0 <= cs / 2 ^ (62 - tl) <= 2 ^ tl) as Hp.
  { split; [apply Z.div_pos; lia|]. apply Z.div_le_upper_bound; [lia|]. rewrite Z.mul_comm. lia. }
  rewrite (s16_small (cs / _)) by lia. wp_step; [|wp_step; lia].
  wp_step. wp_step; [change (zlen rtbTable) with 8; lia|].
  set (p := cs / 2 ^ (62 - tl)) in *. wp_step.
  destruct (Z.eq_dec p 0) as [->|Hp0].
  - change (zat rtbTable 0) with 0. rewrite Z.mul_0_r, Z.shiftl_0_l.
    change (u64 0) with 0. rewrite Z.sub_0_r, u64_small by lia. rewrite Z.gtb_ltb, (proj2 (Z.ltb_lt 0 cs)) by lia.
    cbn [b2z]. rewrite s16_small by lia. lia.
  - destruct (_ >? _); cbn [b2z]; rewrite s16_small by lia; lia.
Qed.

Section normalize.
Context (count : list Z) (n total tl low n0 : Z).
Hypothesis Hn : 2 <= n <= 256.
Hypothesis Hlen : n <= zlen count.
Hypothesis Hn0 : n <= n0.
Hypothesis Hcount : forall i, 0 <= i < n -> 0 <= zat count i.
Hypothesis Htotal : zsumf (zat count) n = total.
Hypothesis Ht : 0 < total < 2 ^ 32.
Hypothesis Htl : 5 <= tl <= 12.
Hypothesis Hroom : 2 * n <= 2 ^ tl \/ total < 2 ^ tl.
Hypothesis Hlow : low = 1 \/ low = -1.

Let lt := total / 2 ^ tl.

Lemma table_range : 32 <= 2 ^ tl <= 4096.
Proof. split; [apply (pow2_le 5)|apply (pow2_le tl 12)]; lia. Qed.

Lemma count_le_total i : 0 <= i < n -> zat count i <= total.
Proof. intros. rewrite <- Htotal. by apply (zsumf_ge_one (zat count)). Qed.

(** Some symbol has its proportional share of at least one state. *)
Lemma some_above : exists i, 0 <= i < n /\ lt < zat count i.
Proof.
  apply (zsumf_exists (zat count)); [lia|]. rewrite Htotal. pose proof table_range as HN. unfold lt.
  destruct Hroom as [H|H]; [|rewrite Z.div_small by lia; lia].
  pose proof (Z.mul_div_le total (2 ^ tl) ltac:(lia)). pose proof (Z.div_pos total (2 ^ tl) ltac:(lia) ltac:(lia)). nia.
Qed.

(** *** The secondary method *)

Definition assigned (x : Z) : Z := b2z (negb (x =? 0) && negb (x =? NOT_YET_ASSIGNED)).
Definition pending (x i : Z) : Z := if x =? NOT_YET_ASSIGNED then zat count i else 0.

(** The value of a symbol after the first loops. *)
Definition m2_val (x i : Z) : Prop :=
  (zat count i = 0 /\ x = 0) \/
  (0 < zat count i /\ (x = 1 \/ x = NOT_YET_ASSIGNED \/ (x = low /\ zat count i <= lt))).

Record m2_state (thr : Z) (norm : list Z) (d t : Z) : Prop := {
  m2_len : zlen norm = n0;
  m2_vals : forall i, 0 <= i < n -> m2_val (zat norm i) i;
  m2_d : d = zsumf (fun i => assigned (zat norm i)) n;
  m2_t : t = zsumf (fun i => pending (zat norm i) i) n;
  m2_thr : forall i, 0 <= i < n -> zat norm i = NOT_YET_ASSIGNED -> thr < zat count i;
}.

Lemma assigned_range x : 0 <= assigned x <= 1.
Proof. unfold assigned. destruct (_ && _); cbn; lia. Qed.
Lemma pending_range x i : 0 <= i < n -> 0 <= pending x i <= zat count i.
Proof. intros Hi. unfold pending. pose proof (Hcount i Hi). destruct (_ =? _); lia. Qed.
Lemma low_cases x i : m2_val x i -> x = 0 \/ x = 1 \/ x = -1 \/ x = NOT_YET_ASSIGNED.
Proof. unfold m2_val. destruct Hlow; naive_solver. Qed.
Lemma assigned_pending x i : m2_val x i -> 0 <= zat count i -> assigned x + pending x i <= zat count i.
Proof.
  unfold m2_val, assigned, pending, NOT_YET_ASSIGNED. intros H Hc.
  destruct H as [[E ->]|[Hp [->|[->|[-> _]]]]]; [|cbn; lia|cbn; lia|destruct Hlow as [->| ->]; cbn; lia].
  cbn. lia.
Qed.

Lemma m2_bounds thr norm d t :
  m2_state thr norm d t -> 0 <= d <= n /\ 0 <= t /\ d + t <= total /\ 1 <= 2 ^ tl - d.
Proof.
  intros [Hl Hv -> -> _].
  assert (0 <= zsumf (fun i => assigned (zat norm i)) n <= n) as Hd.
  { split; [apply zsumf_nonneg; [lia|]; intros; apply assigned_range|].
    rewrite <- (Z.mul_1_l n) at 2. rewrite <- (zsumf_const 1 n) by lia. apply zsumf_le; [lia|]. intros; apply assigned_range. }
  assert (0 <= zsumf (fun i => pending (zat norm i) i) n) as Hp.
  { apply zsumf_nonneg; [lia|]. intros. by apply pending_range. }
  assert (zsumf (fun i => assigned (zat norm i)) n + zsumf (fun i => pending (zat norm i) i) n <= total) as Hdt.
  { rewrite <- Htotal, <- zsumf_add by lia. apply zsumf_le; [lia|]. intros. apply assigned_pending; [by apply Hv|by apply Hcount]. }
  pose proof table_range. destruct Hroom; lia.
Qed.

Lemma M2_lows_ok norm lowOne :
  zlen norm = n0 -> 0 <= lowOne ->
  wp (M2_lows norm count total lt lowOne low (n - 1))
    (fun '(norm, d, t) => m2_state lowOne norm d t) no_errors.
Proof.
  intros Hl H1. unfold M2_lows.
  apply (wp_for (fun s '(norm, d, t) => zlen norm = n0 /\ (forall i, 0 <= i < s -> m2_val (zat norm i) i) /\
    d = zsumf (fun i => assigned (zat norm i)) s /\
    t = total - zsumf (zat count) s + zsumf (fun i => pending (zat norm i) i) s /\
    (forall i, 0 <= i < s -> zat norm i = NOT_YET_ASSIGNED -> lowOne < zat count i))); [lia| | |].
  - split_and!; try (intros; lia); done || (rewrite ?zsumf_0; lia).
  - intros s [[nm d] t] Hs (Hl' & Hv & Hd & Htt & Hthr). wp_step. wp_step; [lia|]. set (c := zat count s).
    assert (forall x d' t', m2_val x s -> d' = d + assigned x -> t' = t - c + pending x s ->
      (x = NOT_YET_ASSIGNED -> lowOne < c) ->
      zlen (zupd nm s x) = n0 /\ (forall i, 0 <= i < s + 1 -> m2_val (zat (zupd nm s x) i) i) /\
      d' = zsumf (fun i => assigned (zat (zupd nm s x) i)) (s + 1) /\
      t' = total - zsumf (zat count) (s + 1) + zsumf (fun i => pending (zat (zupd nm s x) i) i) (s + 1) /\
      (forall i, 0 <= i < s + 1 -> zat (zupd nm s x) i = NOT_YET_ASSIGNED -> lowOne < zat count i)) as Hstep.
    { intros x d' t' Hx Ed Et Hxt. split_and!.
      - by rewrite zlen_zupd.
      - intros i Hi. rewrite zat_zupd by lia. destruct (Z.eqb_spec i s) as [->|]; [done|apply Hv; lia].
      - rewrite (zsumf_zupd_S (fun v _ => assigned v)) by lia. lia.
      - rewrite (zsumf_zupd_S pending), zsumf_S by lia. fold c. lia.
      - intros i Hi. rewrite zat_zupd by lia. destruct (Z.eqb_spec i s) as [->|]; [done|apply Hthr; lia]. }
    pose proof (Hcount s ltac:(lia)) as Hc0. fold c in Hc0.
    assert (0 <= d <= s) as Hds.
    { rewrite Hd. split; [apply zsumf_nonneg; [lia|]; intros; apply assigned_range|].
      rewrite <- (Z.mul_1_l s) at 2. rewrite <- (zsumf_const 1 s) by lia. apply zsumf_le; [lia|]. intros; apply assigned_range. }
    assert (c <= t <= total) as Hct.
    { rewrite Htt. pose proof (zsumf_mono (zat count) (s + 1) n ltac:(lia) Hcount) as Hm.
      rewrite zsumf_S, Htotal in Hm by lia. fold c in Hm.
      pose proof (zsumf_nonneg (fun i => pending (zat nm i) i) s ltac:(lia) ltac:(intros; apply pending_range; lia)).
      pose proof (zsumf_le (fun i => pending (zat nm i) i) (zat count) s ltac:(lia) ltac:(intros; apply pending_range; lia)). lia. }
    wp_step; [|wp_step].
    + wp_step. wp_step; [lia|]. wp_step. apply Hstep; [left; done| | |done]; cbn; lia.
    + wp_step. wp_step; [lia|]. wp_step. rewrite u32_small, u64_small by lia.
      apply Hstep; [right; split; [lia|]; right; right; done| | |]; destruct Hlow as [->| ->]; cbn; lia || done.
    + wp_step.
      * wp_step. wp_step; [lia|]. wp_step. rewrite u32_small, u64_small by lia.
        apply Hstep; [right; split; [lia|]; by left| | |]; cbn; lia || done.
      * wp_step. wp_step; [lia|]. wp_step.
        apply Hstep; [right; split; [lia|]; right; by left| | |]; cbn; fold c; lia.
  - intros [[nm d] t] (Hl' & Hv & Hd & Htt & Hthr). replace (n - 1 + 1) with n in * by lia.
    split; try done. rewrite Htt, Htotal. lia.
Qed.

Lemma M2_round_ok thr norm d t lowOne :
  m2_state thr norm d t ->
  wp (M2_round norm count d t lowOne (n - 1))
    (fun '(norm', d', t') => m2_state lowOne norm' d' t' /\ d <= d' /\ t' <= t) no_errors.
Proof.
  intros Hst. unfold M2_round.
  apply (wp_for (fun s '(nm, d', t') => m2_state thr nm d' t' /\ d <= d' /\ t' <= t /\
    (forall i, 0 <= i < s -> zat nm i = NOT_YET_ASSIGNED -> lowOne < zat count i))); [lia| | |].
  - split_and!; [done|lia|lia|intros; lia].
  - intros s [[nm d1] t1] Hs (Hst1 & Hd1 & Ht1 & Hthr1). pose proof (m2_bounds _ _ _ _ Hst1) as Hb.
    destruct Hst1 as [Hl Hv Ed Et Hthr].
    wp_step. wp_step; [lia|]. wp_step. wp_step; [lia|]. wp_step.
    + wp_step. wp_step; [lia|]. wp_step.
      pose proof (zsumf_ge_one (fun i => pending (zat nm i) i) n s ltac:(lia) ltac:(intros; by apply pending_range)) as Hp.
      cbn beta in Hp. unfold pending in Hp at 1. rewrite (proj2 (Z.eqb_eq _ _) H) in Hp.
      destruct (Hv s ltac:(lia)) as [[? ?]|[Hcp _]]; [unfold NOT_YET_ASSIGNED in *; lia|].
      rewrite u32_small, u64_small by lia. split; [|split; [lia|split; [lia|]]].
      * split; [by rewrite zlen_zupd| | | |].
        -- intros i Hi. rewrite zat_zupd by lia. destruct (Z.eqb_spec i s) as [->|]; [|by apply Hv].
           right. split; [done|by left].
        -- rewrite (zsumf_zupd (fun v _ => assigned v)), <- Ed, H by lia. cbn. lia.
        -- rewrite (zsumf_zupd pending), <- Et, H by lia. cbn. lia.
        -- intros i Hi. rewrite zat_zupd by lia. destruct (Z.eqb_spec i s); [done|by apply Hthr].
      * intros i Hi. rewrite zat_zupd by lia. destruct (Z.eqb_spec i s); [done|apply Hthr1; lia].
    + wp_step. split; [by split|]. split; [done|]. split; [done|]. intros i Hi E.
      destruct (Z.eq_dec i s) as [->|]; [|apply Hthr1; [lia|done]].
      apply andb_false_iff in Hc as [Hc|Hc]; bools; [done|lia].
  - intros [[nm d1] t1] (Hst1 & Hd1 & Ht1 & Hthr1). replace (n - 1 + 1) with n in * by lia.
    destruct Hst1. by split.
Qed.

(** What both methods leave: a symbol has states if and only if it occurs, and
    the states make up the table. *)
Definition fin_val (x i : Z) : Prop :=
  (zat count i = 0 /\ x = 0) \/ (0 < zat count i /\ (1 <= x <= 2 ^ tl \/ x = low)).
Definition normalized (norm : list Z) : Prop :=
  zlen norm = n0 /\ (forall i, 0 <= i < n -> fin_val (zat norm i) i) /\
  zsumf (fun i => Z.abs (zat norm i)) n = 2 ^ tl.

Lemma assigned_abs x i : m2_val x i -> x <> NOT_YET_ASSIGNED -> Z.abs x = assigned x.
Proof.
  intros H Hx. destruct (low_cases x i H) as [->|[->|[->| ->]]]; done.
Qed.
Lemma m2_fin x i : m2_val x i -> x <> NOT_YET_ASSIGNED -> fin_val x i.
Proof.
  pose proof table_range as HN. unfold m2_val, fin_val. intros [H|[Hp [->|[->|[-> _]]]]] Hx;
    [by left|right; split; [done|]; left; lia|done|right; split; [done|]; by right].
Qed.
Lemma all_assigned thr norm d t i :
  m2_state thr norm d t -> d = n \/ t = 0 -> 0 <= i < n -> zat norm i <> NOT_YET_ASSIGNED.
Proof.
  intros [Hl Hv Hd Htt _] [E|E] Hi Ex.
  - assert (forall j, 0 <= j < n -> 0 <= 1 - assigned (zat norm j)) as Hpos.
    { intros j _. pose proof (assigned_range (zat norm j)). lia. }
    pose proof (zsumf_ge_one (fun i => 1 - assigned (zat norm i)) n i Hi Hpos) as H. cbn beta in H.
    pose proof (zsumf_add (fun i => assigned (zat norm i)) (fun i => 1 - assigned (zat norm i)) n ltac:(lia)) as H2. cbn beta in H2.
    assert (zsumf (fun i => assigned (zat norm i) + (1 - assigned (zat norm i))) n = n) as H3.
    { rewrite (zsumf_ext _ (fun _ => 1)), zsumf_const by (intros; cbn beta; lia). lia. }
    rewrite Ex in H. change (assigned NOT_YET_ASSIGNED) with 0 in H. lia.
  - pose proof (zsumf_ge_one (fun i => pending (zat norm i) i) n i Hi ltac:(intros; by apply pending_range)) as H.
    cbn beta in H. rewrite Ex in H. unfold pending in H at 1. rewrite Z.eqb_refl in H.
    destruct (Hv i Hi) as [[? ?]|[? _]]; [unfold NOT_YET_ASSIGNED in *; lia|lia].
Qed.
Lemma abs_sum_assigned thr norm d t :
  m2_state thr norm d t -> d = n \/ t = 0 -> zsumf (fun i => Z.abs (zat norm i)) n = d.
Proof.
  intros Hst Hdt. rewrite (m2_d _ _ _ _ Hst). apply zsumf_ext; [lia|]. intros i Hi.
  apply (assigned_abs _ i); [by apply (m2_vals _ _ _ _ Hst)|by eapply all_assigned].
Qed.
Lemma above_not_low thr norm d t i :
  m2_state thr norm d t -> d = n \/ t = 0 -> 0 <= i < n -> lt < zat count i -> zat norm i = 1.
Proof.
  intros Hst Hdt Hi Hlt. pose proof (all_assigned _ _ _ _ i Hst Hdt Hi) as Hna.
  assert (0 <= lt) by (apply Z.div_pos; pose proof table_range; lia).
  destruct (m2_vals _ _ _ _ Hst i Hi) as [[? ?]|[_ [?|[?|[? ?]]]]]; lia || done.
Qed.

Lemma M2_max_ok thr norm d t :
  m2_state thr norm d t -> d = n ->
  wp (M2_max norm count (2 ^ tl - d) (n - 1)) normalized no_errors.
Proof.
  intros Hst Hd. pose proof (m2_bounds _ _ _ _ Hst) as Hb. pose proof table_range as HN.
  unfold M2_max. wp_step. apply (wp_for (fun s '(maxV, maxC) => (forall i, 0 <= i < s -> zat count i <= maxC) /\
    0 <= maxC /\ (0 < maxC -> 0 <= maxV < n /\ zat count maxV = maxC))); [lia| | |].
  - split_and!; [intros; lia|lia|lia].
  - intros s [mv mc] Hs (Hm & Hm0 & Hex). wp_step. wp_step; [lia|]. wp_step.
    destruct (Z.gtb_spec (zat count s) mc); (split_and!; [|lia|]).
    + intros i Hi. destruct (Z.eq_dec i s) as [->|]; [lia|]. specialize (Hm i). lia.
    + intros _. split; [lia|done].
    + intros i Hi. destruct (Z.eq_dec i s) as [->|]; [lia|]. apply Hm. lia.
    + done.
  - intros [mv mc] (Hm & Hm0 & Hex). destruct some_above as (p & Hp & Hlt).
    assert (0 <= lt) by (apply Z.div_pos; lia). specialize (Hm p). destruct Hex as [Hmv Emv]; [lia|].
    assert (zat norm mv = 1) as E1 by (eapply above_not_low; [done|by left|lia|lia]).
    pose proof (m2_len _ _ _ _ Hst) as Hl. wp_step. wp_step; [lia|]. apply wp_wr; [lia|].
    rewrite E1, (s16_small (2 ^ tl - d)), s16_small by lia. split_and!.
    + by rewrite zlen_zupd.
    + intros i Hi. rewrite zat_zupd by lia. destruct (Z.eqb_spec i mv) as [->|].
      * right. split; [lia|]. left. lia.
      * apply m2_fin; [by apply (m2_vals _ _ _ _ Hst)|eapply all_assigned; [done|by left|done]].
    + rewrite (zsumf_zupd (fun v _ => Z.abs v)), E1 by lia.
      rewrite (abs_sum_assigned _ _ _ _ Hst (or_introl Hd)). lia.
Qed.

Lemma M2_spread_ok thr norm d t :
  m2_state thr norm d t -> t = 0 ->
  wp (M2_spread norm (2 ^ tl - d) (n - 1)) normalized no_errors.
Proof.
  intros Hst Htz. pose proof (m2_bounds _ _ _ _ Hst) as Hb. pose proof table_range as HN.
  destruct some_above as (p & Hp & Hlt). unfold M2_spread. replace (n - 1 + 1) with n by lia.
  wp_step. set (I := fun '(s, nm, TD) => 0 <= s < n /\ zlen nm = n0 /\ 0 <= TD <= 2 ^ tl - d /\
    (forall i, 0 <= i < n -> (zat count i = 0 /\ zat nm i = 0) \/ (0 < zat count i /\ (1 <= zat nm i \/ zat nm i = low))) /\
    1 <= zat nm p /\ zsumf (fun i => Z.abs (zat nm i)) n = 2 ^ tl - TD).
  apply (wp_while I (fun '(s, nm, TD) => TD * n + (p - s) mod n)).
  - split_and!; try lia; try apply (m2_len _ _ _ _ Hst).
    + intros i Hi. destruct (m2_fin _ _ (m2_vals _ _ _ _ Hst i Hi)) as [?|[? [?|?]]];
        [eapply all_assigned; [done|by right|done]|by left|right; split; [done|]; left; lia|right; split; [done|by right]].
    + rewrite (above_not_low _ _ _ _ p Hst (or_intror Htz)) by done. lia.
    + rewrite (abs_sum_assigned _ _ _ _ Hst (or_intror Htz)). lia.
  - pose proof (Z.mod_pos_bound (p - 0) n ltac:(lia)). nia.
  - intros [[s nm] TD] (Hs & Hl & HTD & Hv & Hpp & Hsum) Hc. bools.
    pose proof (Z.mod_pos_bound (p - s) n ltac:(lia)) as Hm. split; [nia|].
    assert (u32 (s + 1) mod n = if s =? n - 1 then 0 else s + 1) as Es.
    { rewrite u32_small by lia. destruct (Z.eqb_spec s (n - 1)) as [->|].
      - replace (n - 1 + 1) with n by lia. apply Z.mod_same. lia.
      - apply Z.mod_small. lia. }
    assert (forall TD', TD' <= TD -> (s = p -> TD' < TD) ->
      TD' * n + (p - u32 (s + 1) mod n) mod n < TD * n + (p - s) mod n) as Hdec.
    { intros TD' H1 H2. rewrite Es.
      destruct (Z.eq_dec s p) as [->|Hne].
      - pose proof (Z.mod_pos_bound (p - (if p =? n - 1 then 0 else p + 1)) n ltac:(lia)).
        rewrite Z.sub_diag, Z.mod_0_l by lia. specialize (H2 eq_refl). nia.
      - assert ((p - (if s =? n - 1 then 0 else s + 1)) mod n = (p - s) mod n - 1) as ->; [|nia].
        assert ((p - s) mod n = if s <? p then p - s else p - s + n) as ->.
        { destruct (Z.ltb_spec s p); [apply Z.mod_small; lia|].
          symmetry. apply (Z.mod_unique _ _ (-1)); lia. }
        destruct (Z.eqb_spec s (n - 1)), (Z.ltb_spec s p); try lia.
        + rewrite Z.mod_small by lia. lia.
        + rewrite Z.mod_small by lia. lia.
        + symmetry. apply (Z.mod_unique _ _ (-1)); lia. }
    assert (0 <= u32 (s + 1) mod n < n) as Hsr by (apply Z.mod_pos_bound; lia).
    wp_step. wp_step; [lia|]. cbv zeta. wp_step.
    + assert (zat nm s <= 2 ^ tl) as Hub.
      { pose proof (zsumf_ge_one (fun i => Z.abs (zat nm i)) n s Hs ltac:(intros; cbn beta; lia)). cbn beta in *. lia. }
      wp_step. wp_step; [lia|]. wp_step. rewrite (u32_small (TD - 1)), s16_small by lia.
      split; [|apply Hdec; lia]. split_and!; try lia.
      * by rewrite zlen_zupd.
      * intros i Hi. rewrite zat_zupd by lia. destruct (Z.eqb_spec i s) as [->|]; [|by apply Hv].
        destruct (Hv s Hs) as [[? ?]|[? _]]; [lia|]. right. split; [done|]. left. lia.
      * rewrite zat_zupd by lia. destruct (Z.eqb_spec p s) as [->|]; lia.
      * rewrite (zsumf_zupd (fun v _ => Z.abs v)), Hsum by lia. lia.
    + wp_step. split; [|apply Hdec; [lia|intros ->; lia]]. split_and!; done || lia.
  - intros [[s nm] TD] (Hs & Hl & HTD & Hv & Hpp & Hsum) Hc. wp_step.
    rewrite Z.gtb_ltb in Hc. bools. split_and!; [done| |lia]. intros i Hi.
    pose proof (zsumf_ge_one (fun i => Z.abs (zat nm i)) n i Hi ltac:(intros; cbn beta; lia)). cbn beta in *.
    destruct (Hv i Hi) as [?|[? [?|?]]]; [by left|right; split; [done|]; left; lia|right; split; [done|by right]].
Qed.

(** The arithmetic of the proportional shares: [r] points of weight [V] for each
    unit of frequency. *)
Lemma scale_bounds V TD t r :
  2 ^ 50 <= V -> Z.even V = true -> 1 <= TD -> 0 < t < 2 ^ 32 -> r = (V * TD + (V / 2 - 1)) / t ->
  0 <= r /\ t * r <= V * TD + (V / 2 - 1) /\ (V / 2 - 1 + t * r) / V = TD /\
  (forall c, t <= c * TD -> V <= c * r).
Proof.
  intros HV Hev HTD Htb ->. apply Z.even_spec in Hev as [h ->]. rewrite (Z.mul_comm 2 h), Z.div_mul by lia.
  set (A := h * 2 * TD + (h - 1)). assert (0 <= A) by (unfold A; nia).
  pose proof (Z.mul_div_le A t ltac:(lia)). pose proof (Z.mul_succ_div_gt A t ltac:(lia)).
  assert (0 <= A / t) as Hr by (apply Z.div_pos; lia).
  split_and!; [done|done| |].
  - symmetry. apply (Z.div_unique _ _ _ (h - 1 + t * (A / t) - h * 2 * TD)); [|lia]. left. unfold A in *. lia.
  - intros c Hc. assert (0 < c) by nia.
    assert (c * (A - t + 1) <= c * (t * (A / t))) as HA1 by (apply Z.mul_le_mono_nonneg_l; lia).
    assert (h * 2 * t <= c * (A - t + 1)) as HA2.
    { unfold A. assert (h * 2 * t <= h * 2 * (c * TD)) by (apply Z.mul_le_mono_nonneg_l; lia).
      assert (0 <= c * (h - 1 - t + 1)) by (apply Z.mul_nonneg_nonneg; lia). nia. }
    apply (Z.mul_le_mono_pos_l _ _ t); [lia|]. nia.
Qed.

Lemma M2_scale_ok thr norm d t :
  m2_state thr norm d t -> 0 < t ->
  (forall i, 0 <= i < n -> zat norm i = NOT_YET_ASSIGNED -> t <= zat count i * (2 ^ tl - d)) ->
  wp (M2_scale norm count t (2 ^ tl - d) tl (n - 1)) normalized no_errors.
Proof.
  intros Hst Htp Hshare. pose proof (m2_bounds _ _ _ _ Hst) as Hb. pose proof table_range as HN.
  destruct Hst as [Hl Hv Hd Htt _]. set (TD := 2 ^ tl - d) in *. unfold M2_scale.
  rewrite (u64_small (62 - tl)), !Z.shiftl_1_l by lia.
  assert (2 ^ (62 - tl) = 2 * 2 ^ (62 - tl - 1)) as EV by (rewrite <- pow2_S by lia; f_equal; lia).
  assert (2 ^ 50 <= 2 ^ (62 - tl) <= 2 ^ 57) as HV by (split; apply pow2_le; lia).
  assert (2 ^ tl * 2 ^ (62 - tl) = 2 ^ 62) as EN by (rewrite <- pow2_add by lia; f_equal; lia).
  assert (2 ^ (62 - tl) / 2 = 2 ^ (62 - tl - 1)) as Eh by (rewrite EV, Z.mul_comm; apply Z.div_mul; lia).
  assert (Z.even (2 ^ (62 - tl)) = true) as Hev by (rewrite EV; apply Z.even_mul).
  rewrite <- Eh. set (V := 2 ^ (62 - tl)) in *.
  assert (V * TD <= 2 ^ 62) as HVT by (unfold TD; nia). assert (0 <= V * TD) as HVT0 by nia.
  cbv zeta. rewrite (u32_small t), (u64_small (V / 2 - 1)), (u64_small (V * TD)), (u64_small (V * TD + _)) by lia.
  wp_step; [by rewrite (proj2 (Z.eqb_neq t 0)) by lia|].
  destruct (scale_bounds V TD t _ (proj1 HV) Hev ltac:(lia) ltac:(lia) eq_refl) as (Hr0 & Hr1 & Hend & Hmin).
  set (r := (V * TD + (V / 2 - 1)) / t) in *.
  set (P := fun s => zsumf (fun i => pending (zat norm i) i) s).
  assert (forall s, 0 <= s < n -> 0 <= P s /\ P s + pending (zat norm s) s <= t) as HP.
  { intros s Hs. split; [apply zsumf_nonneg; [lia|intros; apply pending_range; lia]|].
    unfold P. rewrite <- (zsumf_S (fun i => pending (zat norm i) i)) by lia. rewrite Htt.
    apply zsumf_mono; [lia|intros; by apply pending_range]. }
  wp_step. apply (wp_for (fun s '(nm, tmp) => zlen nm = n0 /\ tmp = V / 2 - 1 + r * P s /\
    (forall i, 0 <= i < s -> fin_val (zat nm i) i) /\ (forall i, s <= i < n -> zat nm i = zat norm i) /\
    zsumf (fun i => Z.abs (zat nm i)) s = zsumf (fun i => assigned (zat norm i)) s + tmp / V)); [lia| | |].
  - unfold P. rewrite !zsumf_0. split_and!; [done|lia|intros; lia|done|].
    rewrite Z.div_small by lia. lia.
  - intros s [nm tmp] Hs (Hl' & Htmp & Hdone & Htodo & Hsum). wp_step. wp_step; [lia|]. rewrite Htodo by lia.
    destruct (HP s ltac:(lia)) as [HP0 HP1]. assert (P (s + 1) = P s + pending (zat norm s) s) as EPS by exact (zsumf_S (fun i => pending (zat norm i) i) s ltac:(lia)).
    assert (0 <= r * P s) as HrP by nia.
    wp_step.
    + wp_step. wp_step; [lia|]. cbv zeta. unfold pending in HP1, EPS. rewrite (proj2 (Z.eqb_eq _ _) Hc) in HP1, EPS.
      set (c := zat count s) in *. pose proof (Hmin c (Hshare s ltac:(lia) Hc)) as HVc.
      assert (0 <= c * r /\ r * P s + c * r <= t * r) as [Hcr0 Hcr1] by nia.
      rewrite (u64_small (c * r)), (u64_small (tmp + _)) by lia.
      rewrite !Z.shiftr_div_pow2 by lia. fold V.
      assert (0 <= tmp / V) as Hq0 by (apply Z.div_pos; lia).
      assert ((tmp + c * r) / V <= TD) as Hq1.
      { rewrite <- Hend. apply Z.div_le_mono; lia. }
      assert (tmp / V + 1 <= (tmp + c * r) / V) as Hq2.
      { replace (tmp / V + 1) with ((tmp + 1 * V) / V) by (rewrite Z.div_add by lia; lia). apply Z.div_le_mono; lia. }
      rewrite (u32_small (tmp / V)), (u32_small ((tmp + c * r) / V)), (u32_small (_ - _)) by (unfold TD in *; lia).
      wp_step; [lia|]. wp_step. wp_step; [lia|]. wp_step. rewrite s16_small by (unfold TD in *; lia).
      split_and!.
      * by rewrite zlen_zupd.
      * rewrite EPS. lia.
      * intros i Hi. rewrite zat_zupd by lia. destruct (Z.eqb_spec i s) as [->|]; [|apply Hdone; lia].
        right. split; [|left; unfold TD in *; lia]. fold c. nia.
      * intros i Hi. rewrite zat_zupd_ne by lia. apply Htodo. lia.
      * rewrite (zsumf_zupd_S (fun v _ => Z.abs v)), Hsum, zsumf_S by lia. rewrite Hc.
        change (assigned NOT_YET_ASSIGNED) with 0. lia.
    + wp_step. unfold pending in EPS. rewrite (proj2 (Z.eqb_neq _ _) Hc), Z.add_0_r in EPS. rewrite EPS.
      split_and!; [done|done| | |].
      * intros i Hi. destruct (Z.eq_dec i s) as [->|]; [|apply Hdone; lia]. rewrite Htodo by lia.
        apply m2_fin; [apply Hv; lia|done].
      * intros i Hi. apply Htodo. lia.
      * rewrite !zsumf_S, Hsum, Htodo by lia. rewrite (assigned_abs _ s) by (done || apply Hv; lia). lia.
  - intros [nm tmp] (Hl' & Htmp & Hdone & _ & Hsum). replace (n - 1 + 1) with n in * by lia.
    wp_step. split_and!; [done|done|]. rewrite Hsum, <- Hd, Htmp. unfold P. rewrite <- Htt, (Z.mul_comm r t), Hend.
    unfold TD. lia.
Qed.

(** The thresholds are such that a symbol left to the end has a full share. *)
Lemma share_first norm d t lowOne i :
  m2_state lowOne norm d t -> lowOne < zat count i -> t / (2 ^ tl - d) <= lowOne ->
  t <= zat count i * (2 ^ tl - d).
Proof.
  intros Hst Hc Hle. pose proof (m2_bounds _ _ _ _ Hst).
  pose proof (Z.mul_succ_div_gt t (2 ^ tl - d) ltac:(lia)). nia.
Qed.
Lemma share_second norm d t norm' d' t' thr thr' c :
  m2_state thr norm d t -> m2_state thr' norm' d' t' -> t' <= t -> d <= d' ->
  (total * 3) / 2 ^ (tl + 1) < t / (2 ^ tl - d) -> (t * 3) / ((2 ^ tl - d) * 2) < c ->
  t' <= c * (2 ^ tl - d').
Proof.
  intros Hst Hst' Htt Hdd Hgt Hc. pose proof (m2_bounds _ _ _ _ Hst) as Hb. pose proof (m2_bounds _ _ _ _ Hst') as Hb'.
  pose proof table_range as HN. rewrite pow2_S in Hgt by lia. set (TD := 2 ^ tl - d) in *.
  pose proof (Z.mul_succ_div_gt (total * 3) (2 * 2 ^ tl) ltac:(lia)) as HA1.
  pose proof (Z.mul_div_le t TD ltac:(lia)) as HA2.
  pose proof (Z.mul_succ_div_gt (t * 3) (TD * 2) ltac:(lia)) as HA3.
  set (q1 := total * 3 / (2 * 2 ^ tl)) in *. set (q2 := t / TD) in *. set (q3 := t * 3 / (TD * 2)) in *.
  assert (0 <= q1) by (apply Z.div_pos; lia). assert (0 <= q3) by (apply Z.div_pos; lia).
  assert (total * 3 < 2 * 2 ^ tl * q2) as HA4 by nia.
  destruct Hroom as [Hr|Hr].
  - assert (3 * TD < 2 * 2 ^ tl) as HA5.
    { assert (total * 3 * TD < 2 * 2 ^ tl * q2 * TD) by (apply Z.mul_lt_mono_pos_r; lia).
      assert (2 * 2 ^ tl * (TD * q2) <= 2 * 2 ^ tl * total) by (apply Z.mul_le_mono_nonneg_l; lia).
      apply (Z.mul_lt_mono_pos_l total); lia. }
    assert (2 ^ tl <= 2 * (2 ^ tl - d')) as HA6 by lia.
    assert (TD * 2 * (q3 + 1) <= TD * 2 * c) as HA7 by (apply Z.mul_le_mono_nonneg_l; lia).
    assert (0 <= c) by lia. assert (3 * TD * c <= 4 * (2 ^ tl - d') * c) by (apply Z.mul_le_mono_nonneg_r; lia). lia.
  - assert (t < TD) as HA5 by (unfold TD; lia). assert (q2 = 0) by (unfold q2; apply Z.div_small; lia). lia.
Qed.

Lemma normalizeM2_ok norm :
  zlen norm = n0 -> wp (FSE_normalizeM2 norm tl count total (n - 1) low) normalized no_errors.
Proof.
  intros Hl. unfold FSE_normalizeM2. pose proof table_range as HN.
  assert (0 <= lt <= total) as Hlt.
  { split; [apply Z.div_pos; lia|]. apply Z.div_le_upper_bound; [lia|nia]. }
  assert (0 <= total * 3 / 2 ^ (tl + 1) <= total * 3) as H1.
  { pose proof (pow2_pos (tl + 1) ltac:(lia)). split; [apply Z.div_pos; lia|]. apply Z.div_le_upper_bound; [lia|nia]. }
  assert (total * 3 / 2 ^ (tl + 1) <= total) as H2.
  { apply Z.div_le_upper_bound; [apply pow2_pos; lia|]. rewrite pow2_S by lia. nia. }
  rewrite !Z.shiftr_div_pow2, Z.shiftl_1_l by lia. fold lt.
  rewrite (u64_small (total * 3)), (u32_small lt), (u32_small (total * 3 / _)) by lia. cbv zeta.
  set (lowOne := total * 3 / 2 ^ (tl + 1)) in *.
  wp_step. eapply wp_mono; [apply (M2_lows_ok norm lowOne Hl); lia| |done].
  intros [[nm d] t] Hst. pose proof (m2_bounds _ _ _ _ Hst) as Hb. rewrite (u32_small (2 ^ tl - d)) by lia.
  rewrite (proj2 (Z.eqb_neq (2 ^ tl - d) 0)) by lia. wp_step.
  set (TD := 2 ^ tl - d) in *.
  apply (wp_mono _ (fun '(nm', d', t', TD') => exists thr', m2_state thr' nm' d' t' /\ TD' = 2 ^ tl - d' /\
    (forall i, 0 <= i < n -> zat nm' i = NOT_YET_ASSIGNED -> t' <= zat count i * TD')) _ no_errors).
  - wp_step; [|wp_step].
    + rewrite (u32_small (TD * 2)) by (unfold TD; lia).
      wp_step; [by rewrite (proj2 (Z.eqb_neq (TD * 2) 0)) by lia|].
      rewrite (u64_small (t * 3)) by lia.
      assert (1 < TD) as HTD.
      { unfold TD. destruct Hroom; [lia|]. pose proof (Z.div_small t TD ltac:(unfold TD; lia)). lia. }
      assert (0 <= t * 3 / (TD * 2) < 2 ^ 32) as Hq.
      { split; [apply Z.div_pos; lia|]. apply Z.div_lt_upper_bound; [lia|nia]. }
      rewrite (u32_small (t * 3 / (TD * 2))) by lia. cbv zeta.
      wp_step. eapply wp_mono; [apply (M2_round_ok _ _ _ _ _ Hst)| |done].
      intros [[nm2 d2] t2] (Hst2 & Hd2 & Ht2). pose proof (m2_bounds _ _ _ _ Hst2) as Hb2.
      wp_step. rewrite u32_small by lia. eexists. split; [exact Hst2|]. split; [done|]. intros i Hi Ei.
      eapply share_second; [exact Hst|exact Hst2|lia|lia|exact Hc|by apply (m2_thr _ _ _ _ Hst2)].
    + exists lowOne. split; [done|]. split; [done|]. intros i Hi Ei.
      eapply share_first; [exact Hst|by apply (m2_thr _ _ _ _ Hst)|exact Hc].
  - intros [[[nm2 d2] t2] TD2] (thr2 & Hst2 & -> & Hshare). pose proof (m2_bounds _ _ _ _ Hst2).
    wp_step; [by eapply M2_max_ok; [exact Hst2|lia]|].
    wp_step; [by eapply M2_spread_ok|]. eapply M2_scale_ok; [exact Hst2|lia|done].
  - done.
Qed.

(** *** The main method *)

Definition step_ok (i x : Z) : Prop :=
  (zat count i = 0 /\ x = 0) \/ (0 < zat count i <= lt /\ x = low) \/ (lt < zat count i /\ 1 <= x <= 2 ^ tl).

Definition norm_inv (v : norm_vars) : Prop :=
  0 <= nv_s v <= n /\ zlen (nv_norm v) = n0 /\
  (forall i, 0 <= i < nv_s v -> zat count i < total /\ step_ok i (zat (nv_norm v) i)) /\
  nv_still v = 2 ^ tl - zsumf (fun i => Z.abs (zat (nv_norm v) i)) (nv_s v) /\
  ((nv_largestP v = 0 /\ forall i, 0 <= i < nv_s v -> zat count i <= lt) \/
   (0 <= nv_largest v < nv_s v /\ lt < zat count (nv_largest v))).

(** The loop ends at a symbol that makes up the source, or after the last one. *)
Definition norm_done (r : list Z * option norm_vars) : Prop :=
  match r.2 with
  | None => zlen r.1 = n0 /\ exists s, 0 <= s < n /\ zat count s = total
  | Some v => norm_inv v /\ nv_s v = n /\ r.1 = nv_norm v
  end.

Lemma step_inv v x still' lg lp :
  norm_inv v -> nv_s v < n -> zat count (nv_s v) < total -> step_ok (nv_s v) x -> still' = nv_still v - Z.abs x ->
  (lt < zat count (nv_s v) -> lg = if x >? nv_largestP v then nv_s v else nv_largest v) ->
  (zat count (nv_s v) <= lt -> lg = nv_largest v /\ lp = nv_largestP v) ->
  norm_inv (mkNV (nv_s v + 1) (zupd (nv_norm v) (nv_s v) x) still' lg lp).
Proof.
  intros (Hs & Hl & Hv & Hst & Hlg) Hsn Hct Hx -> Hgt Hle. unfold norm_inv; cbn [nv_s nv_norm nv_still nv_largest nv_largestP].
  split_and!; [lia|lia|by rewrite zlen_zupd| | |].
  - intros i Hi. rewrite zat_zupd by lia. destruct (Z.eqb_spec i (nv_s v)) as [->|]; [done|apply Hv; lia].
  - rewrite (zsumf_zupd_S (fun v _ => Z.abs v)) by lia. lia.
  - destruct (Z.le_gt_cases (zat count (nv_s v)) lt) as [H|H].
    + destruct (Hle H) as [-> ->]. destruct Hlg as [[? Hall]|[? ?]]; [left|right; lia].
      split; [done|]. intros i Hi. destruct (Z.eq_dec i (nv_s v)) as [->|]; [done|apply Hall; lia].
    + right. rewrite (Hgt H). destruct Hx as [[? ?]|[[? ?]|[_ ?]]]; [pose proof (Z.div_pos total (2 ^ tl) ltac:(lia) ltac:(pose proof table_range; lia)); unfold lt in H; lia|lia|].
      destruct (Z.gtb_spec x (nv_largestP v)); [lia|]. destruct Hlg as [[? _]|?]; lia.
Qed.

Lemma step_wp v :
  norm_inv v ->
  wp (FSE_normalize_step count total (n - 1) lt low (2 ^ 62 / total) (62 - tl) (2 ^ (42 - tl)) v)
    (fun f => match f with
              | Continue v' => norm_inv v' /\ nv_s v' = nv_s v + 1 /\ nv_s v < n
              | Break r => norm_done r
              end) no_errors.
Proof.
  intros Hv. pose proof Hv as (Hs & Hl & _). pose proof table_range as HN.
  assert (0 <= lt) by (apply Z.div_pos; lia).
  unfold FSE_normalize_step. wp_step; [|wp_step; unfold norm_done; cbn [fst snd]; split_and!; [done|lia|done]].
  pose proof (Hcount (nv_s v) ltac:(lia)). pose proof (count_le_total (nv_s v) ltac:(lia)).
  wp_step. wp_step; [lia|]. wp_step; [wp_step; cbn; split; [done|]; exists (nv_s v); lia|].
  wp_step; [|wp_step].
  - wp_step. wp_step; [lia|]. wp_step. split; [|split; [done|lia]].
    apply step_inv; try done; try lia. by left.
  - wp_step. wp_step; [lia|]. wp_step. split; [|split; [done|lia]].
    apply step_inv; try done; try lia. right; left. lia.
  - wp_step. eapply wp_mono; [apply FSE_proba_ok; lia| |done]. intros p Hp. cbv beta in Hp.
    destruct (p >? nv_largestP v) eqn:Ep; wp_step; (wp_step; [lia|]); wp_step; (split; [|split; [done|lia]]).
    all: apply step_inv; try done; try lia; [right; right; lia|intros _; by rewrite Ep].
Qed.

Lemma normalize_loop_ok norm :
  zlen norm = n0 ->
  wp (loop_ (Z.to_nat (n - 1 + 2))
        (FSE_normalize_step count total (n - 1) lt low (2 ^ 62 / total) (62 - tl) (2 ^ (42 - tl)))
        (mkNV 0 norm (2 ^ tl) 0 0)) norm_done no_errors.
Proof.
  intros Hl. apply (wp_loop norm_inv (fun v => n - nv_s v)).
  - unfold norm_inv; cbn [nv_s nv_norm nv_still nv_largest nv_largestP]. rewrite zsumf_0.
    split_and!; [lia|lia|done|intros; lia|lia|]. left. split; [done|intros; lia].
  - cbn [nv_s]. lia.
  - intros v Hv. eapply wp_mono; [by apply step_wp| |done]. intros [v'|r]; [|done].
    intros (Hv' & E & H). split; [done|]. lia.
Qed.

(** The symbol that takes the rounding error has at least one state left. *)
Lemma adjust_ok v :
  norm_inv v -> nv_s v = n -> ~ (- nv_still v >= Z.shiftr (zat (nv_norm v) (nv_largest v)) 1) ->
  0 <= nv_largest v < n0 /\
  normalized (zupd (nv_norm v) (nv_largest v)
    (s16 (zat (nv_norm v) (nv_largest v) + s16 (nv_still v)))) /\
  (forall i, 0 <= i < n -> zat count i < total).
Proof.
  intros (Hs & Hl & Hv & Hst & Hlg) En Hadj. pose proof table_range as HN. rewrite En in *.
  destruct some_above as (p & Hp & Hpl).
  destruct Hlg as [[_ Hall]|[Hlr Hla]]; [specialize (Hall p Hp); lia|].
  set (g := nv_largest v) in *. set (x := zat (nv_norm v) g) in *.
  assert (0 <= lt) as Hlt0 by (apply Z.div_pos; lia).
  assert (1 <= x <= 2 ^ tl) as Hx.
  { pose proof (proj2 (Hv g Hlr)) as Hg. fold x in Hg. unfold step_ok in Hg. lia. }
  pose proof (zsumf_ge_one (fun i => Z.abs (zat (nv_norm v) i)) n g Hlr ltac:(intros; cbn beta; lia)) as Hge.
  cbn beta in Hge. fold x in Hge. rewrite Z.shiftr_div_pow2 in Hadj by lia. change (2 ^ 1) with 2 in Hadj.
  assert (x / 2 * 2 <= x) as Hx2 by zdm. assert (0 <= x / 2) by (apply Z.div_pos; lia).
  assert (1 <= x + nv_still v <= 2 ^ tl) as Hnew by lia.
  rewrite (s16_small (nv_still v)), s16_small by lia. split; [lia|]. split; [|intros i Hi; by apply Hv].
  split_and!.
  - by rewrite zlen_zupd.
  - intros i Hi. rewrite zat_zupd by lia. destruct (Z.eqb_spec i g) as [->|].
    + right. split; [lia|]. left. lia.
    + destruct (Hv i Hi) as [_ [[? ?]|[[? ?]|[? ?]]]]; [by left|right..]; (split; [lia|]); [by right|by left].
  - rewrite (zsumf_zupd (fun v _ => Z.abs v)) by lia. fold x. lia.
Qed.

Lemma normalizeCount_ok norm (useLow : bool) :
  zlen norm = n0 -> low = (if useLow then -1 else 1) ->
  (exists m, FSE_minTableLog total (n - 1) = Ok m /\ m <= tl) ->
  wp (FSE_normalizeCount norm tl count total (n - 1) useLow)
    (fun '(norm', r) => zlen norm' = n0 /\
       ((r = 0 /\ exists s, 0 <= s < n /\ zat count s = total) \/
        (r = tl /\ normalized norm' /\ forall i, 0 <= i < n -> zat count i < total))) no_errors.
Proof.
  intros Hl Elow (m & Em & Hm). unfold FSE_normalizeCount. pose proof table_range as HN.
  rewrite (proj2 (Z.eqb_neq tl 0)) by lia. cbv zeta. change FSE_MIN_TABLELOG with 5. change FSE_MAX_TABLELOG with 12.
  wp_step; [lia|]. wp_step; [lia|]. rewrite Em. cbn [bind]. wp_step; [lia|].
  rewrite <- Elow, (u64_small (62 - tl)), (u32_small total), !Z.shiftl_1_l, Z.shiftr_div_pow2 by lia.
  replace (62 - tl - 20) with (42 - tl) by lia. fold lt.
  assert (0 <= lt <= total) as Hlt.
  { split; [apply Z.div_pos; lia|]. apply Z.div_le_upper_bound; [lia|nia]. }
  rewrite (u32_small lt) by lia.
  wp_step. eapply wp_mono; [by apply normalize_loop_ok| |done]. intros [nm [v|]] Hd; cbn [norm_done fst snd] in Hd.
  - destruct Hd as (Hv & En & ->). pose proof Hv as (_ & Hlv & Hvv & _ & Hlg).
    assert (0 <= nv_largest v < n0) as Hgr.
    { destruct some_above as (p & Hp & Hpl). rewrite En in Hlg.
      destruct Hlg as [[_ Hall]|[? _]]; [specialize (Hall p Hp); lia|lia]. }
    wp_step. wp_step; [lia|]. wp_step.
    + wp_step. eapply wp_mono; [by apply normalizeM2_ok| |done]. intros nm' Hn'. wp_step.
      split; [apply Hn'|]. right. split; [done|]. split; [done|]. rewrite En in Hvv. intros i Hi. by apply Hvv.
    + destruct (adjust_ok v Hv En ltac:(lia)) as (_ & Hnew & Hall).
      wp_step. wp_step; [lia|]. wp_step. split; [apply Hnew|]. by right.
  - destruct Hd as [Hl' Hex]. wp_step. split; [done|]. by left.
Qed.

End normalize.

Lemma minTableLog_ok srcSize maxSV :
  0 < srcSize < 2 ^ 32 -> 0 < maxSV < 2 ^ 32 ->
  FSE_minTableLog srcSize maxSV = Ok (Z.min (Z.log2 srcSize + 1) (Z.log2 maxSV + 2)).
Proof.
  intros Hs Hm. unfold FSE_minTableLog, defined_if. rewrite u32_small, (proj2 (Z.eqb_neq srcSize 0)), (proj2 (Z.eqb_neq maxSV 0)) by lia.
  cbn [negb]. rewrite !highbit32_spec by lia. cbv zeta. f_equal.
  destruct (Z.ltb_spec (Z.log2 srcSize + 1) (Z.log2 maxSV + 2)); lia.
Qed.

Lemma minTableLog_room srcSize maxSV tl :
  0 < srcSize -> 0 < maxSV -> Z.min (Z.log2 srcSize + 1) (Z.log2 maxSV + 2) <= tl ->
  2 * (maxSV + 1) <= 2 ^ tl \/ srcSize < 2 ^ tl.
Proof.
  intros Hs Hm H. pose proof (Z.log2_nonneg srcSize). pose proof (Z.log2_nonneg maxSV).
  destruct (Z.log2_spec srcSize Hs) as [_ Hls]. destruct (Z.log2_spec maxSV Hm) as [_ Hlm].
  unfold Z.succ in *. destruct (Z.le_gt_cases (Z.log2 srcSize + 1) tl).
  - right. eapply Z.lt_le_trans; [exact Hls|]. apply pow2_le. lia.
  - left. assert (2 ^ (Z.log2 maxSV + 2) <= 2 ^ tl) by (apply pow2_le; lia).
    replace (Z.log2 maxSV + 2) with (Z.log2 maxSV + 1 + 1) in * by lia. rewrite (pow2_S (Z.log2 maxSV + 1)) in * by lia. lia.
Qed.

Lemma optimalTableLog_ok maxTableLog srcSize maxSV minus :
  1 < srcSize < 2 ^ 32 -> 0 < maxSV <= 255 -> 0 <= maxTableLog < 2 ^ 32 ->
  exists tl, FSE_optimalTableLog_internal maxTableLog srcSize maxSV minus = Ok tl /\ 5 <= tl <= 12 /\
    Z.min (Z.log2 srcSize + 1) (Z.log2 maxSV + 2) <= tl.
Proof.
  intros Hs Hm Ht. unfold FSE_optimalTableLog_internal, defined_if.
  rewrite (u32_small (srcSize - 1)), (proj2 (Z.eqb_neq (srcSize - 1) 0)) by lia. cbn [negb].
  rewrite minTableLog_ok by lia. cbn [bind].
  assert (Z.log2 maxSV <= 7) by (apply (Z.log2_le_mono maxSV 255); lia).
  change FSE_MIN_TABLELOG with 5. change FSE_MAX_TABLELOG with 12. change FSE_DEFAULT_TABLELOG with 11.
  set (m := Z.min _ _). assert (0 <= m <= 9) as Hm9 by (unfold m; pose proof (Z.log2_nonneg srcSize); pose proof (Z.log2_nonneg maxSV); lia).
  eexists. split; [done|]. set (t1 := if maxTableLog =? 0 then _ else _).
  set (t2 := if _ <? t1 then _ else t1). set (t3 := if m >? t2 then m else t2).
  assert (m <= t3) by (unfold t3; destruct (Z.gtb_spec m t2); lia).
  set (t4 := if t3 <? 5 then 5 else t3). assert (5 <= t4 /\ m <= t4) by (unfold t4; destruct (Z.ltb_spec t3 5); lia).
  destruct (Z.gtb_spec t4 12); lia.
Qed.

(** ** Properties *)

(** A histogram of [total] symbols up to [maxSV]. *)
Definition histogram_ok (count : list Z) (maxSV total : Z) : Prop :=
  maxSV < zlen count /\ (forall i, 0 <= i <= maxSV -> 0 <= zat count i) /\
  zsumf (zat count) (maxSV + 1) = total.

(** What a call of [FSE_normalizeCount] with a table of size [2^tl] promises. *)
Definition normalize_ok (norm0 count : list Z) (total maxSV tl : Z) (useLow : bool) (r : list Z * Z) : Prop :=
  zlen r.1 = zlen norm0 /\
  (((exists s, 0 <= s <= maxSV /\ zat count s = total) /\ r.2 = 0) \/
   ((forall s, 0 <= s <= maxSV -> zat count s < total) /\ r.2 = tl /\ norm_ok r.1 (maxSV + 1) tl /\
    (forall s, 0 <= s <= maxSV ->
       (zat count s = 0 <-> zat r.1 s = 0) /\ (useLow = false -> 0 <= zat r.1 s)))).

Lemma normalize_correct norm0 tl count total maxSV useLow :
  histogram_ok count maxSV total -> 1 <= maxSV <= 255 -> maxSV < zlen norm0 -> 0 < total < 2 ^ 32 ->
  5 <= tl <= 12 -> Z.min (Z.log2 total + 1) (Z.log2 maxSV + 2) <= tl ->
  wp (FSE_normalizeCount norm0 tl count total maxSV useLow)
    (normalize_ok norm0 count total maxSV tl useLow) no_errors.
Proof.
  intros (Hl & Hc & Hsum) Hm Hn0 Ht Htl Hmin. set (low := if useLow then -1 else 1).
  assert (low = 1 \/ low = -1) as Hlow by (unfold low; destruct useLow; auto).
  pose proof (minTableLog_room total maxSV tl ltac:(lia) ltac:(lia) Hmin) as Hroom.
  replace maxSV with (maxSV + 1 - 1) at 1 by lia.
  eapply wp_mono; [apply (normalizeCount_ok count (maxSV + 1) total tl low (zlen norm0)); try done; try lia| |done].
  - intros i Hi. apply Hc. lia.
  - rewrite minTableLog_ok by lia. eexists. split; [done|]. by replace (maxSV + 1 - 1) with maxSV by lia.
  - intros [norm r] [Hln H]. split; [done|]. cbn [fst snd]. destruct H as [[-> (s & Hs & E)]|(-> & (_ & Hv & Habs) & Hall)].
    + left. split; [|done]. exists s. split; [lia|done].
    + right. split; [intros s Hs; apply Hall; lia|]. split; [done|]. split.
      * split; [lia|lia|lia| |].
        -- intros s Hs. destruct (Hv s Hs) as [[_ ->]|[_ [?| ->]]]; destruct Hlow; lia.
        -- rewrite cum_zsumf by lia. done.
      * intros s Hs. destruct (Hv s ltac:(lia)) as [[? ->]|[? [?| ->]]]; (split; [destruct Hlow; lia|]);
          unfold low; intros ->; lia.
Qed.

(** C25: normalisation never fails on a histogram that the chosen size can hold:
    a source of one symbol is reported as such (0); otherwise, by the main method
    or by the secondary one, the states given to the symbols make up the table
    exactly, every symbol that occurs has at least one and no other has any. The
    three checks on the size are the only errors, and they are decided by the
    arguments. *)
Theorem FSE_normalizeCount_correct norm0 tl count total maxSV useLow :
  histogram_ok count maxSV total -> 1 <= maxSV <= 255 -> maxSV < zlen norm0 -> 0 < total < 2 ^ 32 ->
  let tl' := if tl =? 0 then 11 else tl in
  let minLog := Z.min (Z.log2 total + 1) (Z.log2 maxSV + 2) in
  if (tl' <? 5) || (tl' <=? 12) && (tl' <? minLog)
  then FSE_normalizeCount norm0 tl count total maxSV useLow = Err GENERIC
  else if tl' >? 12 then FSE_normalizeCount norm0 tl count total maxSV useLow = Err tableLog_tooLarge
  else exists r, FSE_normalizeCount norm0 tl count total maxSV useLow = Ok r /\
         normalize_ok norm0 count total maxSV tl' useLow r.
Proof.
  intros Hh Hm Hn0 Ht tl' minLog.
  assert (FSE_normalizeCount norm0 tl count total maxSV useLow
          = FSE_normalizeCount norm0 tl' count total maxSV useLow) as ->.
  { unfold tl', FSE_normalizeCount. by destruct (Z.eqb_spec tl 0) as [->|]; rewrite ?(proj2 (Z.eqb_neq tl 0)). }
  assert (tl' <> 0) as Hnz by (unfold tl'; destruct (Z.eqb_spec tl 0); lia). clearbody tl'.
  destruct (Z.gtb_spec tl' 12), (Z.ltb_spec tl' 5); cbn [orb]; try lia; [ | |].
  - rewrite (proj2 (Z.leb_gt tl' 12)) by lia. cbn [andb].
    unfold FSE_normalizeCount, RETURN_ERROR_IF. rewrite (proj2 (Z.eqb_neq tl' 0)) by lia.
    change FSE_MIN_TABLELOG with 5. change FSE_MAX_TABLELOG with 12.
    by rewrite (proj2 (Z.ltb_ge tl' 5)), (proj2 (Z.gtb_lt tl' 12)) by lia.
  - unfold FSE_normalizeCount, RETURN_ERROR_IF. rewrite (proj2 (Z.eqb_neq tl' 0)) by lia.
    change FSE_MIN_TABLELOG with 5. by rewrite (proj2 (Z.ltb_lt tl' 5)) by lia.
  - rewrite (proj2 (Z.leb_le tl' 12)) by lia. cbn [andb]. destruct (Z.ltb_spec tl' minLog).
    + unfold FSE_normalizeCount, RETURN_ERROR_IF. rewrite (proj2 (Z.eqb_neq tl' 0)) by lia.
      change FSE_MIN_TABLELOG with 5. change FSE_MAX_TABLELOG with 12.
      rewrite (proj2 (Z.ltb_ge tl' 5)), Z.gtb_ltb, (proj2 (Z.ltb_ge 12 tl')) by lia.
      rewrite minTableLog_ok by lia. cbn [bind]. by rewrite (proj2 (Z.ltb_lt tl' _)) by (unfold minLog in *; lia).
    + apply wp_no_errors_Ok, normalize_correct; done || lia.
Qed.

(** A histogram for which the secondary method runs: many rare symbols. *)
Definition sample_histogram : list Z := zfill 39 1 ++ [2].

Lemma sample_histogram_ok : histogram_ok sample_histogram 39 41.
Proof.
  split; [vm_compute; reflexivity|]. split; [|vm_compute; reflexivity].
  intros i Hi. apply (zat_Forall (fun x => 0 <= x) sample_histogram); [|change (zlen sample_histogram) with 40; lia].
  unfold sample_histogram. cbn. repeat constructor; lia.
Qed.

Lemma FSE_normalizeCount_correct_witness :
  exists r, FSE_normalizeCount (zfill 40 0) 6 sample_histogram 41 39 false = Ok r /\
    normalize_ok (zfill 40 0) sample_histogram 41 39 6 false r.
Proof.
  apply (FSE_normalizeCount_correct (zfill 40 0) 6 sample_histogram 41 39 false);
    [|lia|vm_compute; reflexivity|lia].
  exact sample_histogram_ok.
Defined.

(** The size that [FSE_optimalTableLog] picks, whatever the maximum asked
    for, is between the two limits of the format and large enough for
    [FSE_normalizeCount] to succeed. *)
Theorem FSE_optimalTableLog_accepted norm0 maxTableLog count total maxSV useLow :
  histogram_ok count maxSV total -> 1 <= maxSV <= 255 -> maxSV < zlen norm0 -> 1 < total < 2 ^ 32 ->
  0 <= maxTableLog < 2 ^ 32 ->
  exists tl r, FSE_optimalTableLog maxTableLog total maxSV = Ok tl /\ FSE_MIN_TABLELOG <= tl <= FSE_MAX_TABLELOG /\
    FSE_normalizeCount norm0 tl count total maxSV useLow = Ok r /\
    normalize_ok norm0 count total maxSV tl useLow r.
Proof.
  intros Hh Hm Hn0 Ht HM.
  destruct (optimalTableLog_ok maxTableLog total maxSV 2 ltac:(lia) ltac:(lia) HM) as (tl & E & Htl & Hmin).
  destruct (wp_no_errors_Ok _ _ (normalize_correct norm0 tl count total maxSV useLow Hh Hm Hn0 ltac:(lia) Htl Hmin))
    as (r & Er & Hr).
  exists tl, r. split; [done|]. split; [exact Htl|]. by split.
Qed.

Lemma FSE_optimalTableLog_accepted_witness :
  exists tl r, FSE_optimalTableLog 6 41 39 = Ok tl /\ FSE_MIN_TABLELOG <= tl <= FSE_MAX_TABLELOG /\
    FSE_normalizeCount (zfill 40 0) tl sample_histogram 41 39 true = Ok r /\
    normalize_ok (zfill 40 0) sample_histogram 41 39 tl true r.
Proof.
  apply (FSE_optimalTableLog_accepted (zfill 40 0) 6 sample_histogram 41 39 true);
    [|lia|vm_compute; reflexivity|lia|lia].
  exact sample_histogram_ok.
Defined.
