(* ===== verification/FseWriteNCount.v ===== *)
(** Writing the header of an FSE table (compress/fse_compress.c): the normalised
    counts as a sequence of bit fields, and the bound on the size of the header. *)

From S2P Require Import Prelude Errors Outcome Bits Mem BitStream FseTable FseSpread FseSymbols FseBuild FseStream.

(** ** Definitions *)

Definition FSE_NCountWriteBound (maxSymbolValue tableLog : Z) : Z :=
  let maxHeaderSize :=
    u32 (u32 (u32 (u32 (maxSymbolValue + 1) * tableLog) + 4 + 2) / 8 + 1 + 2) in
  if negb (maxSymbolValue =? 0) then maxHeaderSize else FSE_NCOUNTBOUND.

(** The local variables of [FSE_writeNCount_generic]. *)
Record NW_vars := mkNW {
  nw_header : list Z;
  nw_out : Z;
  nw_bitStream : Z;
  nw_bitCount : Z;
  nw_symbol : Z;
  nw_remaining : Z;
  nw_threshold : Z;
  nw_nbBits : Z;
  nw_previousIs0 : bool;
}.

Section generic.
Context (normalizedCounter : list Z) (alphabetSize headerBufferSize : Z) (writeIsSafe : bool).

(** The 16 low bits of [bitStream] go to [out]; unless the caller knows that they
    fit, the end of the buffer is tested first. *)
Definition NW_flush (header : list Z) (out bitStream : Z) : result (list Z) :=
  ERROR_IF negb writeIsSafe && (out >? headerBufferSize - 2) THEN dstSize_tooSmall ;;
  let* header := wr header out (u8 bitStream) in
  wr header (out + 1) (u8 (Z.shiftr bitStream 8)).

(** [if (bitCount>16)]. *)
Definition NW_flush16 (header : list Z) (out bitStream bitCount : Z) : result (list Z * Z * Z * Z) :=
  if bitCount >? 16 then
    let* header := NW_flush header out bitStream in
    Ok (header, out + 2, Z.shiftr bitStream 16, bitCount - 16)
  else Ok (header, out, bitStream, bitCount).

(** [bitStream += value << bitCount]. *)
Definition NW_put (bitStream value bitCount : Z) : result Z :=
  REQUIRE (0 <=? bitCount) && (bitCount <? 32) ;;
  Ok (u32 (bitStream + u32 (Z.shiftl (u32 value) bitCount))).

(** [while ((symbol < alphabetSize) && !normalizedCounter[symbol]) symbol++]. *)
Definition NW_skip (symbol : Z) : result Z :=
  loop_ (Z.to_nat (alphabetSize + 1)) (fun symbol =>
    if symbol <? alphabetSize then
      let* c := rd normalizedCounter symbol in
      Ok (if c =? 0 then Continue (u32 (symbol + 1)) else Break symbol)
    else Ok (Break symbol)) symbol.

(** The branch [if (previousIs0)]; [None] is its [break]. *)
Definition NW_zero_run (v : NW_vars) : result (option NW_vars) :=
  let start := nw_symbol v in
  let* symbol := NW_skip start in
  if symbol =? alphabetSize then Ok None
  else
    let* '(header, out, bitStream, start) :=
      while_ (Z.to_nat alphabetSize)
        (fun '(header, out, bitStream, start) => symbol >=? u32 (start + 24))
        (fun '(header, out, bitStream, start) =>
           let start := u32 (start + 24) in
           let* bitStream := NW_put bitStream 0xFFFF (nw_bitCount v) in
           let* header := NW_flush header out bitStream in
           Ok (header, out + 2, Z.shiftr bitStream 16, start))
        (nw_header v, nw_out v, nw_bitStream v, start) in
    let* '(bitStream, bitCount, start) :=
      while_ (Z.to_nat alphabetSize)
        (fun '(bitStream, bitCount, start) => symbol >=? u32 (start + 3))
        (fun '(bitStream, bitCount, start) =>
           let start := u32 (start + 3) in
           let* bitStream := NW_put bitStream 3 bitCount in
           Ok (bitStream, bitCount + 2, start))
        (bitStream, nw_bitCount v, start) in
    let* bitStream := NW_put bitStream (u32 (symbol - start)) bitCount in
    let bitCount := bitCount + 2 in
    let* '(header, out, bitStream, bitCount) := NW_flush16 header out bitStream bitCount in
    Ok (Some (mkNW header out bitStream bitCount symbol (nw_remaining v) (nw_threshold v)
                (nw_nbBits v) (nw_previousIs0 v))).

(** The block that writes one count. *)
Definition NW_count (v : NW_vars) : result NW_vars :=
  let* count := rd normalizedCounter (nw_symbol v) in
  let symbol := u32 (nw_symbol v + 1) in
  let max := (2 * nw_threshold v - 1) - nw_remaining v in
  let remaining := nw_remaining v - (if count <? 0 then - count else count) in
  let count := count + 1 in
  let count := if count >=? nw_threshold v then count + max else count in
  let* bitStream := NW_put (nw_bitStream v) count (nw_bitCount v) in
  let bitCount := nw_bitCount v + nw_nbBits v in
  let bitCount := bitCount - b2z (count <? max) in
  let previousIs0 := count =? 1 in
  ERROR_IF remaining <? 1 THEN GENERIC ;;
  let* '(nbBits, threshold) :=
    while_ (Z.to_nat (nw_nbBits v)) (fun '(nbBits, threshold) => remaining <? threshold)
      (fun '(nbBits, threshold) => Ok (nbBits - 1, Z.shiftr threshold 1))
      (nw_nbBits v, nw_threshold v) in
  let* '(header, out, bitStream, bitCount) :=
    NW_flush16 (nw_header v) (nw_out v) bitStream bitCount in
  Ok (mkNW header out bitStream bitCount symbol remaining threshold nbBits previousIs0).

(** One iteration of the main loop. *)
Definition NW_iteration (v : NW_vars) : result (flow NW_vars NW_vars) :=
  if (nw_symbol v <? alphabetSize) && (nw_remaining v >? 1) then
    if nw_previousIs0 v then
      let* o := NW_zero_run v in
      match o with
      | None => Ok (Break v)
      | Some v => let* v := NW_count v in Ok (Continue v)
      end
    else let* v := NW_count v in Ok (Continue v)
  else Ok (Break v).

End generic.

(** The header and its size. *)
Definition FSE_writeNCount_generic (header : list Z) (headerBufferSize : Z)
    (normalizedCounter : list Z) (maxSymbolValue tableLog : Z) (writeIsSafe : bool)
  : result (list Z * Z) :=
  let tableSize := Z.shiftl 1 tableLog in
  let alphabetSize := u32 (maxSymbolValue + 1) in
  let* bitStream := NW_put 0 (u32 (tableLog - FSE_MIN_TABLELOG)) 0 in
  let* v :=
    loop_ (Z.to_nat (alphabetSize + 1))
      (NW_iteration normalizedCounter alphabetSize headerBufferSize writeIsSafe)
      (mkNW header 0 bitStream 4 0 (tableSize + 1) tableSize (tableLog + 1) false) in
  ERROR_IF negb (nw_remaining v =? 1) THEN GENERIC ;;
  let* header := NW_flush headerBufferSize writeIsSafe (nw_header v) (nw_out v) (nw_bitStream v) in
  Ok (header, nw_out v + (nw_bitCount v + 7) / 8).

Definition FSE_writeNCount (buffer : list Z) (normalizedCounter : list Z)
    (maxSymbolValue tableLog : Z) : result (list Z * Z) :=
  let bufferSize := zlen buffer in
  ERROR_IF tableLog >? FSE_MAX_TABLELOG THEN tableLog_tooLarge ;;
  ERROR_IF tableLog <? FSE_MIN_TABLELOG THEN GENERIC ;;
  if bufferSize <? FSE_NCountWriteBound maxSymbolValue tableLog then
    FSE_writeNCount_generic buffer bufferSize normalizedCounter maxSymbolValue tableLog false
  else FSE_writeNCount_generic buffer bufferSize normalizedCounter maxSymbolValue tableLog true.

(** *** Specification: the fields of a header *)

(** The state of both the writer and the reader: the next symbol, what remains to
    be distributed (plus one) and whether the last count was 0. *)
Definition nc_state : Type := Z * Z * bool.

(** A count is written on one bit less when its value is below a bound that
    depends on what remains. *)
Definition nc_thr (rem : Z) : Z := 2 ^ Z.log2 rem.
Definition nc_max (rem : Z) : Z := 2 * nc_thr rem - 1 - rem.
Definition nc_value (rem c : Z) : Z :=
  if c + 1 >=? nc_thr rem then c + 1 + nc_max rem else c + 1.
Definition nc_width (rem c : Z) : Z := Z.log2 rem + 1 - b2z (nc_value rem c <? nc_max rem).
(** A run of [k] absent symbols: [k / 3] times 3 on two bits, then the rest. *)
Definition nc_run (k : Z) : Z * Z := ((k mod 3 + 1) * 4 ^ (k / 3) - 1, 2 * (k / 3) + 2).

Inductive nc_step (norm : list Z) (n : Z) : nc_state -> Z * Z -> nc_state -> Prop :=
| nc_step_count s rem :
    0 <= s < n -> 1 < rem -> -1 <= zat norm s -> Z.abs (zat norm s) < rem ->
    nc_step norm n (s, rem, false) (nc_value rem (zat norm s), nc_width rem (zat norm s))
      (s + 1, rem - Z.abs (zat norm s), zat norm s =? 0)
| nc_step_run s rem k :
    0 <= s -> 0 <= k -> s + k < n -> 1 < rem ->
    (forall i, s <= i < s + k -> zat norm i = 0) -> zat norm (s + k) <> 0 ->
    nc_step norm n (s, rem, true) (nc_run k) (s + k, rem, false).

Inductive nc_emits (norm : list Z) (n : Z) : nc_state -> list (Z * Z) -> nc_state -> Prop :=
| nc_emits_nil st : nc_emits norm n st [] st
| nc_emits_cons st f st' fs st'' :
    nc_step norm n st f st' -> nc_emits norm n st' fs st'' -> nc_emits norm n st (f :: fs) st''.

(** ** Lemmas *)

Lemma nc_emits_snoc norm n st fs st' f st'' :
  nc_emits norm n st fs st' -> nc_step norm n st' f st'' -> nc_emits norm n st (fs ++ [f]) st''.
Proof.
  induction 1 as [st|st g st1 gs st2 Hg _ IH]; intros Hf; cbn [app].
  - econstructor; [exact Hf|constructor].
  - econstructor; [exact Hg|by apply IH].
Qed.

Lemma nc_thr_range rem : 0 < rem -> nc_thr rem <= rem < 2 * nc_thr rem.
Proof.
  intros H. unfold nc_thr. pose proof (Z.log2_spec rem H). rewrite Z.pow_succ_r in * by apply Z.log2_nonneg. lia.
Qed.

Lemma nc_field_range rem c :
  1 < rem -> -1 <= c -> Z.abs c < rem ->
  0 <= nc_value rem c < 2 ^ nc_width rem c /\ 1 <= nc_width rem c <= Z.log2 rem + 1.
Proof.
  intros Hr Hc Ha. pose proof (nc_thr_range rem ltac:(lia)) as Ht.
  assert (1 <= Z.log2 rem) as Hl by (apply (Z.log2_le_mono 2 rem); lia).
  unfold nc_width, nc_value, nc_max in *. fold (nc_thr rem) in *.
  assert (2 ^ (Z.log2 rem + 1) = 2 * nc_thr rem) as E by (apply pow2_S; lia).
  set (v := if _ >=? _ then _ else _).
  assert (0 <= v /\ (v < nc_thr rem \/ 2 * nc_thr rem - 1 - rem <= v < 2 * nc_thr rem)) as [Hv0 Hv].
  { unfold v. destruct (Z.geb_spec (c + 1) (nc_thr rem)); lia. }
  destruct (Z.ltb_spec v (2 * nc_thr rem - 1 - rem)); cbn [b2z].
  - replace (Z.log2 rem + 1 - 1) with (Z.log2 rem) by lia. fold (nc_thr rem). lia.
  - rewrite Z.sub_0_r, E. lia.
Qed.

Lemma pow4_pow2 j : 0 <= j -> 4 ^ j = 2 ^ (2 * j).
Proof. intros. rewrite Z.pow_mul_r by lia. done. Qed.
Lemma nc_run_range k : 0 <= k -> 0 <= (nc_run k).1 < 2 ^ (nc_run k).2 /\ 2 <= (nc_run k).2.
Proof.
  intros Hk. unfold nc_run; cbn [fst snd]. pose proof (Z.div_pos k 3 Hk ltac:(lia)).
  rewrite pow2_add, pow4_pow2 by lia. pose proof (pow2_pos (2 * (k / 3)) ltac:(lia)).
  pose proof (Z.mod_pos_bound k 3 ltac:(lia)). nia.
Qed.

Lemma nc_step_field norm n st f st' : nc_step norm n st f st' -> 0 <= f.1 < 2 ^ f.2 /\ 1 <= f.2.
Proof.
  destruct 1 as [s rem Hs Hr Hc Ha|s rem k Hs Hk Hn Hr Hz Hnz]; cbn [fst snd].
  - pose proof (nc_field_range rem (zat norm s) Hr Hc Ha). lia.
  - pose proof (nc_run_range k Hk). lia.
Qed.
Lemma nc_step_bound norm n st f st' : nc_step norm n st f st' -> f.2 <= Z.max (Z.log2 st.1.2 + 1) (st'.1.1 - st.1.1 + 2).
Proof.
  destruct 1 as [s rem Hs Hr Hc Ha|s rem k Hs Hk Hn Hr Hz Hnz]; cbn [fst snd].
  - pose proof (nc_field_range rem (zat norm s) Hr Hc Ha). lia.
  - unfold nc_run; cbn [snd]. zdm.
Qed.

(** A run of zeros does not change the sum of the counts. *)
Lemma cum_zeros norm s e :
  0 <= s <= e -> e <= zlen norm -> (forall i, s <= i < e -> zat norm i = 0) -> cum norm e = cum norm s.
Proof.
  intros Hs He Hz. replace e with (s + Z.of_nat (Z.to_nat (e - s))) in * by lia.
  induction (Z.to_nat (e - s)) as [|m IH]; [by rewrite Z.add_0_r|].
  replace (s + Z.of_nat (S m)) with (s + Z.of_nat m + 1) in * by lia.
  rewrite cum_S, Hz, IH by (lia || (intros; apply Hz; lia)). lia.
Qed.

(** Writing a field after the others. *)
Lemma stack_bits_app fs gs : stack_bits (fs ++ gs) = stack_bits fs + stack_bits gs.
Proof. unfold stack_bits. by rewrite map_app, zsum_app. Qed.

Section write.
Context (norm : list Z) (n tl size : Z) (writeIsSafe : bool).
Hypothesis Hok : norm_ok norm n tl.
Hypothesis Hn : 1 <= n.
Hypothesis Htl : 5 <= tl <= 12.
Hypothesis Hsize : 0 <= size.
Hypothesis Hsafe : writeIsSafe = true -> (n * (tl + 3) + 4) / 8 + 3 <= size.

(** Only a writer that tests the end of the buffer can fail. *)
Definition nw_err (e : ZSTD_ErrorCode) : Prop := writeIsSafe = false /\ e = dstSize_tooSmall.

(** The bytes and the bits that are written, as one integer of [nb] bits. *)
Definition nw_rep (h : list Z) (out bs bc acc nb : Z) : Prop :=
  zlen h = size /\ bytes_ok h /\ 0 <= out /\ out <= size /\ 0 <= bc <= 32 /\ 0 <= bs < 2 ^ bc /\
  le_val (zsub h 0 out) + 2 ^ (8 * out) * bs = acc /\ 8 * out + bc = nb.

Lemma put_ok h out bs bc acc nb v w :
  nw_rep h out bs bc acc nb -> 0 <= v < 2 ^ w -> 0 < w -> bc < 32 -> bc + w <= 32 ->
  exists bs', NW_put bs v bc = Ok bs' /\ nw_rep h out bs' (bc + w) (acc + 2 ^ nb * v) (nb + w).
Proof.
  intros (Hl & Hb & Ho & Hos & Hbc & Hbs & Hacc & Hnb) Hv Hw Hlt Hle. unfold NW_put, defined_if.
  rewrite (proj2 (Z.leb_le 0 bc)), (proj2 (Z.ltb_lt bc 32)) by lia. cbn [andb].
  assert (2 ^ w <= 2 ^ 32) by (apply pow2_le; lia).
  assert (2 ^ bc * 2 ^ w <= 2 ^ 32) as Hpw by (rewrite <- pow2_add by lia; apply pow2_le; lia).
  pose proof (pow2_pos bc ltac:(lia)).
  assert (0 <= v * 2 ^ bc <= (2 ^ w - 1) * 2 ^ bc) as Hvb by (split; [nia|apply Z.mul_le_mono_nonneg_r; lia]).
  rewrite (u32_small v), Z.shiftl_mul_pow2, (u32_small (v * 2 ^ bc)), u32_small by lia.
  eexists. split; [done|]. split_and!; try done; try lia.
  - rewrite pow2_add by lia. lia.
  - rewrite <- Hnb, <- Hacc, pow2_add by lia. lia.
Qed.

(** A flush writes the two low bytes of the bits that wait. *)
Lemma flush_bytes h out bs (Q : list Z -> Prop) :
  zlen h = size -> bytes_ok h -> 0 <= out -> (writeIsSafe = true -> out + 2 <= size) ->
  (forall h', zlen h' = size -> bytes_ok h' -> out + 2 <= size ->
     le_val (zsub h' 0 (out + 2)) = le_val (zsub h 0 out) + 2 ^ (8 * out) * (bs mod 2 ^ 16) -> Q h') ->
  wp (NW_flush size writeIsSafe h out bs) Q nw_err.
Proof.
  intros Hl Hb Ho Hs HQ. unfold NW_flush. wp_step.
  { split; [|done]. by destruct writeIsSafe. }
  assert (out + 2 <= size) as Hfit.
  { destruct writeIsSafe; [by apply Hs|]. cbn [negb andb] in Hc. bools. lia. }
  wp_step. wp_step; [lia|]. wp_step; [rewrite zlen_zupd; lia|].
  assert (zupd (zupd h out (u8 bs)) (out + 1) (u8 (Z.shiftr bs 8)) = zpatch h out (le_bytes 2 bs)) as ->.
  { assert (le_bytes 2 bs = [u8 bs; u8 (Z.shiftr bs 8)]) as ->.
    { rewrite Z.shiftr_div_pow2 by lia. done. }
    assert (zlen [u8 bs; u8 (Z.shiftr bs 8)] = 2) as H2 by done.
    apply zat_ext; [rewrite !zlen_zupd, zlen_zpatch by lia; done|]. rewrite !zlen_zupd. intros i Hi.
    rewrite zat_zpatch, H2 by lia. rewrite !zat_zupd by (rewrite ?zlen_zupd; lia).
    destruct (Z.eqb_spec i (out + 1)) as [->|].
    - rewrite (proj2 (Z.leb_le _ _)), (proj2 (Z.ltb_lt _ _)) by lia. cbn [andb]. by replace (out + 1 - out) with 1 by lia.
    - destruct (Z.eqb_spec i out) as [->|].
      + rewrite (proj2 (Z.leb_le _ _)), (proj2 (Z.ltb_lt _ _)) by lia. cbn [andb]. by rewrite Z.sub_diag.
      + destruct (Z.leb_spec out i), (Z.ltb_spec i (out + 2)); cbn [andb]; done || lia. }
  apply HQ; [by rewrite zlen_zpatch by (rewrite ?zlen_le_bytes; lia)|auto with zlist|lia|].
  pose proof (le_val_extend h 0 out bs 2 2 ltac:(lia) ltac:(lia) ltac:(lia)) as E.
  rewrite Z.sub_0_r in E. exact E.
Qed.

Lemma flush_ok h out bs bc acc nb :
  nw_rep h out bs bc acc nb -> 16 <= bc -> nb <= 4 + n * (tl + 3) ->
  wp (NW_flush size writeIsSafe h out bs)
    (fun h' => nw_rep h' (out + 2) (Z.shiftr bs 16) (bc - 16) acc nb) nw_err.
Proof.
  intros (Hl & Hb & Ho & Hos & Hbc & Hbs & Hacc & Hnb) H16 Hbound. apply flush_bytes; [done|done|done| |].
  - intros E. specialize (Hsafe E). zdm.
  - intros h' Hl' Hb' Hfit E. rewrite Z.shiftr_div_pow2 by lia.
    assert (2 ^ bc = 2 ^ 16 * 2 ^ (bc - 16)) as Ebc by (rewrite <- pow2_add by lia; f_equal; lia).
    pose proof (Z.div_mod bs (2 ^ 16) ltac:(lia)) as Hdm.
    split_and!; try done; try lia.
    + apply Z.div_pos; lia.
    + apply Z.div_lt_upper_bound; lia.
    + rewrite E, <- Hacc. replace (8 * (out + 2)) with (8 * out + 16) by lia. rewrite pow2_add by lia. nia.
Qed.

Lemma flush16_ok h out bs bc acc nb :
  nw_rep h out bs bc acc nb -> nb <= 4 + n * (tl + 3) ->
  wp (NW_flush16 size writeIsSafe h out bs bc)
    (fun '(h', out', bs', bc') => nw_rep h' out' bs' bc' acc nb /\ bc' <= 16 /\ (0 < bc -> 0 < bc')) nw_err.
Proof.
  intros Hr Hbound. unfold NW_flush16. wp_step.
  - wp_step. eapply wp_mono; [by apply (flush_ok _ _ _ _ _ _ Hr); lia| |done]. intros h' Hr'. wp_step.
    destruct Hr as (_ & _ & _ & _ & Hbc & _). split; [done|]. lia.
  - wp_step. split; [done|]. lia.
Qed.

(** *** The loops of an iteration *)

Lemma skip_ok s :
  0 <= s <= n -> cum norm s < 2 ^ tl ->
  wp (NW_skip norm n s) (fun e => s <= e < n /\ (forall i, s <= i < e -> zat norm i = 0) /\ zat norm e <> 0) no_errors.
Proof.
  intros Hs Hc. pose proof (nok_max _ _ _ Hok). pose proof (nok_max256 _ _ _ Hok). pose proof (nok_sum _ _ _ Hok) as Hsum.
  unfold NW_skip. apply (wp_loop (fun e => s <= e <= n /\ (forall i, s <= i < e -> zat norm i = 0)) (fun e => n - e)).
  - split; [lia|]. intros; lia.
  - lia.
  - intros e [He Hz]. destruct (Z.ltb_spec e n).
    + wp_step. wp_step; [lia|]. wp_step. destruct (Z.eqb_spec (zat norm e) 0) as [E|].
      * rewrite u32_small by lia. split; [|lia]. split; [lia|]. intros i Hi.
        destruct (Z.eq_dec i e) as [->|]; [done|apply Hz; lia].
      * split; [lia|]. by split.
    + exfalso. replace e with n in * by lia. rewrite (cum_zeros norm s n) in Hsum by (done || lia). lia.
Qed.

Lemma threshold_ok rem nb :
  1 <= rem -> Z.log2 rem <= nb - 1 -> 1 <= nb ->
  wp (while_ (Z.to_nat nb) (fun '(nbBits, threshold) => rem <? threshold)
       (fun '(nbBits, threshold) => Ok (nbBits - 1, Z.shiftr threshold 1)) (nb, 2 ^ (nb - 1)))
    (fun r => r = (Z.log2 rem + 1, nc_thr rem)) no_errors.
Proof.
  intros Hr Hnb H1. apply (wp_while (fun '(k, t) => 1 <= k /\ Z.log2 rem <= k - 1 /\ t = 2 ^ (k - 1)) (fun '(k, t) => k)).
  - lia.
  - lia.
  - intros [k t] (Hk & Hl & ->) Hc. bools. split; [lia|]. wp_step.
    assert (Z.log2 rem < k - 1) by (apply Z.log2_lt_pow2; lia). split; [|lia]. split; [pose proof (Z.log2_nonneg rem); lia|].
    split; [lia|]. rewrite Z.shiftr_div_pow2 by lia. replace (k - 1) with (k - 1 - 1 + 1) at 1 by lia.
    rewrite pow2_S by (pose proof (Z.log2_nonneg rem); lia). change (2 ^ 1) with 2. rewrite Z.mul_comm. apply Z.div_mul. lia.
  - intros [k t] (Hk & Hl & ->) Hc. bools.
    assert (Z.log2 rem = k - 1) as E.
    { apply Z.le_antisymm; [done|]. rewrite <- (Z.log2_pow2 (k - 1)) by lia. by apply Z.log2_le_mono. }
    unfold nc_thr. rewrite E. f_equal. lia.
Qed.

(** The invariant of the writer, [p0] telling whether the last count was 0. *)
Definition winv (p0 : bool) (v : NW_vars) (P : list (Z * Z)) : Prop :=
  nc_emits norm n (0, 2 ^ tl + 1, false) P (nw_symbol v, nw_remaining v, p0) /\
  nw_rep (nw_header v) (nw_out v) (nw_bitStream v) (nw_bitCount v)
    (tl - 5 + 16 * stack_val P) (4 + stack_bits P) /\
  0 < nw_bitCount v <= 16 /\ nw_threshold v = nc_thr (nw_remaining v) /\
  nw_nbBits v = Z.log2 (nw_remaining v) + 1 /\ 0 <= nw_symbol v <= n /\
  cum norm (nw_symbol v) + nw_remaining v = 2 ^ tl + 1 /\ 1 <= nw_remaining v /\
  stack_bits P + (if p0 then 2 else 0) <= nw_symbol v * (tl + 3).

Lemma emits_widths st P st' : nc_emits norm n st P st' -> widths_nonneg P.
Proof.
  induction 1 as [st0|st0 f st1 fs st2 Hf _ IH]; constructor; [|done].
  pose proof (nc_step_field _ _ _ _ _ Hf). lia.
Qed.

(** Appending a field to the fields that are written. *)
Lemma rep_field h out bs bc P v w acc :
  nw_rep h out bs bc acc (4 + stack_bits P + w) -> widths_nonneg P -> 0 <= v < 2 ^ w ->
  acc = tl - 5 + 16 * stack_val P + 2 ^ (4 + stack_bits P) * v ->
  nw_rep h out bs bc (tl - 5 + 16 * stack_val (P ++ [(v, w)])) (4 + stack_bits (P ++ [(v, w)])).
Proof.
  intros Hr Hw Hv ->. rewrite stack_val_snoc, stack_bits_snoc, Z.mod_small by done.
  pose proof (stack_bits_nonneg P Hw). rewrite pow2_add in Hr by lia. change (2 ^ 4) with 16 in Hr.
  replace (4 + (stack_bits P + w)) with (4 + stack_bits P + w) by lia.
  replace (tl - 5 + 16 * (stack_val P + 2 ^ stack_bits P * v)) with (tl - 5 + 16 * stack_val P + 16 * 2 ^ stack_bits P * v) by lia.
  exact Hr.
Qed.

(** *** Runs of absent symbols, by 24 and by 3 *)

Lemma put_triples h out bs bc acc nb q a :
  nw_rep h out bs bc (acc + 2 ^ nb * (4 ^ q - 1)) (nb + 2 * q) -> 0 <= q -> 0 < a -> bc < 32 -> bc + 2 * a <= 32 -> 0 <= nb ->
  exists bs', NW_put bs (4 ^ a - 1) bc = Ok bs' /\
    nw_rep h out bs' (bc + 2 * a) (acc + 2 ^ nb * (4 ^ (q + a) - 1)) (nb + 2 * (q + a)).
Proof.
  intros Hr Hq Ha Hlt Hle Hnb. pose proof (pow2_pos (2 * a) ltac:(lia)).
  destruct (put_ok _ _ _ _ _ _ (4 ^ a - 1) (2 * a) Hr) as (bs' & E & Hr'); [rewrite pow4_pow2 by lia; lia|lia|done|done|].
  exists bs'. split; [done|]. replace (nb + 2 * q + 2 * a) with (nb + 2 * (q + a)) in Hr' by lia.
  rewrite Z.pow_add_r by lia. rewrite pow2_add, <- pow4_pow2 in Hr' by lia.
  replace (acc + 2 ^ nb * (4 ^ q * 4 ^ a - 1)) with (acc + 2 ^ nb * (4 ^ q - 1) + 2 ^ nb * 4 ^ q * (4 ^ a - 1)) by lia.
  exact Hr'.
Qed.

Section run.
Context (acc nb s e : Z).
Hypothesis Hse : 0 <= s <= e.
Hypothesis He : e < n.
Hypothesis Hn256 : n <= 256.
Hypothesis Hnb : 0 <= nb.
Hypothesis Hbits : nb + 2 <= 4 + s * (tl + 3).

(** [q] triples of the run are written, up to [start]. *)
Definition run_rep (h : list Z) (out bs bc start q : Z) : Prop :=
  nw_rep h out bs bc (acc + 2 ^ nb * (4 ^ q - 1)) (nb + 2 * q) /\ 0 <= q /\ start = s + 3 * q /\ start <= e.

Lemma run24_ok h out bs bc :
  run_rep h out bs bc s 0 -> 0 < bc <= 16 ->
  wp (while_ (Z.to_nat n)
        (fun '(header, out, bitStream, start) => e >=? u32 (start + 24))
        (fun '(header, out, bitStream, start) =>
           let start := u32 (start + 24) in
           let* bitStream := NW_put bitStream 0xFFFF bc in
           let* header := NW_flush size writeIsSafe header out bitStream in
           Ok (header, out + 2, Z.shiftr bitStream 16, start)) (h, out, bs, s))
     (fun '(h, out, bs, start) => (exists q, run_rep h out bs bc start q) /\ e < start + 24) nw_err.
Proof.
  intros Hr Hbc. apply (wp_while (fun '(h, out, bs, start) => exists q, run_rep h out bs bc start q)
    (fun '(_, _, _, start) => e - start)).
  - by exists 0.
  - lia.
  - intros [[[h1 out1] bs1] st] (q & Hr1 & Hq & -> & Hle) Hc. rewrite u32_small, Z.geb_leb in Hc by lia. bools.
    split; [lia|]. rewrite u32_small by lia.
    destruct (put_triples _ _ _ _ _ _ q 8 Hr1) as (bs2 & E & Hr2); [lia..|]. change (4 ^ 8 - 1) with 0xFFFF in E.
    rewrite E. cbn [bind]. wp_step. eapply wp_mono; [apply (flush_ok _ _ _ _ _ _ Hr2); [lia|nia]| |done].
    intros h2 Hr3. wp_step. split; [|lia]. exists (q + 8). unfold run_rep.
    replace (bc + 2 * 8 - 16) with bc in Hr3 by lia. split; [done|]. lia.
  - intros [[[h1 out1] bs1] st] (q & Hr1 & Hq & -> & Hle) Hc. rewrite u32_small, Z.geb_leb in Hc by lia. bools.
    split; [by exists q|lia].
Qed.

Lemma run3_ok h out bs bc start q0 :
  run_rep h out bs bc start q0 -> e < start + 24 -> 0 < bc <= 16 ->
  wp (while_ (Z.to_nat n)
        (fun '(bitStream, bitCount, start) => e >=? u32 (start + 3))
        (fun '(bitStream, bitCount, start) =>
           let start := u32 (start + 3) in
           let* bitStream := NW_put bitStream 3 bitCount in
           Ok (bitStream, bitCount + 2, start)) (bs, bc, start))
     (fun '(bs', bc', start') => start' = e - (e - s) mod 3 /\
        run_rep h out bs' bc' start' ((e - s) / 3) /\ 0 < bc' <= 30) nw_err.
Proof.
  intros Hr Hlt Hbc.
  apply (wp_while (fun '(b, c, st) => exists q, run_rep h out b c st q /\ q0 <= q /\ c = bc + 2 * (q - q0) /\ 3 * (q - q0) < 24)
    (fun '(_, _, st) => e - st)).
  - exists q0. split; [done|]. lia.
  - destruct Hr as (_ & ? & -> & ?). lia.
  - intros [[b c] st] (q & Hr1 & Hq & -> & Hlt1). pose proof Hr as (_ & Hq0 & Est & Hle0).
    destruct Hr1 as (Hr1 & Hq1 & -> & Hle). intros Hc. rewrite u32_small, Z.geb_leb in Hc by lia. bools.
    split; [lia|]. rewrite u32_small by lia.
    destruct (put_triples _ _ _ _ _ _ q 1 Hr1) as (b2 & E & Hr2); [lia..|]. change (4 ^ 1 - 1) with 3 in E.
    rewrite E. cbn [bind]. wp_step. split; [|lia]. exists (q + 1). unfold run_rep.
    replace (bc + 2 * (q - q0) + 2 * 1) with (bc + 2 * (q - q0) + 2) in Hr2 by lia. split; [split; [done|]|]; lia.
  - intros [[b c] st] (q & Hr1 & Hq & -> & Hlt1) Hc. pose proof Hr as (_ & Hq0 & Est & Hle0).
    pose proof Hr1 as (_ & Hq1 & -> & Hle). rewrite u32_small, Z.geb_leb in Hc by lia. bools.
    assert ((e - s) / 3 = q) as -> by zdm. split; [zdm|]. split; [done|]. lia.
Qed.

End run.

Lemma zero_run_writes v P :
  winv true v P -> 1 < nw_remaining v ->
  wp (NW_zero_run norm n size writeIsSafe v)
    (fun o => exists v' P', o = Some v' /\ winv false v' P' /\ 1 < nw_remaining v' /\
       nw_symbol v <= nw_symbol v' < n) nw_err.
Proof.
  intros (Hem & Hrep & Hbc & Hthr & Hnb & Hs & Hcum & Hr1 & Hbits) Hrem.
  pose proof (nok_max _ _ _ Hok). pose proof (nok_max256 _ _ _ Hok) as H256.
  pose proof (cum_nonneg norm (nw_symbol v) ltac:(lia)).
  unfold NW_zero_run. wp_step. eapply wp_mono; [apply skip_ok; lia| |by intros ? []]. intros e (He & Hz & Hnz).
  rewrite (proj2 (Z.eqb_neq e n)) by lia. set (s := nw_symbol v) in *.
  assert (0 <= 4 + stack_bits P) as Hnb0 by (destruct Hrep as (_ & _ & ? & _ & ? & _ & _ & <-); lia).
  pose proof (emits_widths _ _ _ Hem) as HwP.
  wp_step. eapply wp_mono; [apply (run24_ok (tl - 5 + 16 * stack_val P) (4 + stack_bits P) s e)| |done]; try lia.
  { split; [|lia]. replace (tl - 5 + 16 * stack_val P + 2 ^ (4 + stack_bits P) * (4 ^ 0 - 1)) with (tl - 5 + 16 * stack_val P) by lia.
    by rewrite Z.mul_0_r, Z.add_0_r. }
  intros [[[h1 out1] bs1] st1] ((q1 & Hr1') & H24). wp_step.
  eapply wp_mono; [eapply (run3_ok (tl - 5 + 16 * stack_val P) (4 + stack_bits P) s e);
    (exact Hr1' || exact H24 || exact Hbc || lia)| |done].
  intros [[bs2 bc2] st2] (-> & (Hr2 & _ & _ & Hle2) & Hbc2).
  set (k := e - s) in *. pose proof (Z.mod_pos_bound k 3 ltac:(lia)) as Hk3.
  rewrite (u32_small (e - _)) by lia. replace (e - (e - k mod 3)) with (k mod 3) by lia.
  destruct (put_ok _ _ _ _ _ _ (k mod 3) 2 Hr2) as (bs3 & E3 & Hr3); [lia..|]. rewrite E3. cbn [bind].
  assert (nw_rep h1 out1 bs3 (bc2 + 2)
    (tl - 5 + 16 * stack_val (P ++ [nc_run k])) (4 + stack_bits (P ++ [nc_run k]))) as Hr4.
  { pose proof (nc_run_range k ltac:(lia)) as [Hkv Hkw]. destruct (nc_run k) as [kv kw] eqn:Ek.
    injection Ek as <- <-. cbn [fst snd] in *. pose proof (Z.div_pos k 3 ltac:(lia) ltac:(lia)).
    eapply rep_field; [|done|done|].
    - replace (4 + stack_bits P + (2 * (k / 3) + 2)) with (4 + stack_bits P + 2 * (k / 3) + 2) by lia. exact Hr3.
    - rewrite (pow2_add (4 + stack_bits P) (2 * (k / 3))), <- pow4_pow2 by lia. lia. }
  wp_step. eapply wp_mono; [apply (flush16_ok _ _ _ _ _ _ Hr4)| |done].
  { rewrite stack_bits_app. change (stack_bits [nc_run k]) with (2 * (k / 3) + 2 + 0).
    assert (2 * (k / 3) <= k) by zdm. assert (k * 1 <= k * (tl + 3)) by (apply Z.mul_le_mono_nonneg_l; lia).
    assert (e * (tl + 3) <= n * (tl + 3)) by (apply Z.mul_le_mono_nonneg_r; lia). unfold k in *. lia. }
  intros [[[h5 out5] bs5] bc5] (Hr5 & Hbc5 & Hbc5'). wp_step.
  eexists _, (P ++ [nc_run k]). split; [done|].
  unfold winv; cbn [nw_header nw_out nw_bitStream nw_bitCount nw_symbol nw_remaining nw_threshold nw_nbBits].
  split; [|lia]. split_and!; try done; try lia.
  - eapply nc_emits_snoc; [exact Hem|]. replace e with (s + k) by (unfold k; lia). apply nc_step_run; try lia.
    + intros i Hi. apply Hz. unfold k in Hi. lia.
    + by replace (s + k) with e by (unfold k; lia).
  - rewrite (cum_zeros norm s e) by (done || lia). lia.
  - rewrite stack_bits_app. change (stack_bits [nc_run k]) with (2 * (k / 3) + 2 + 0).
    assert (2 * (k / 3) <= k) by zdm. assert (k * 1 <= k * (tl + 3)) by (apply Z.mul_le_mono_nonneg_l; lia). unfold k in *. lia.
Qed.

Lemma count_writes v P :
  winv false v P -> 1 < nw_remaining v -> nw_symbol v < n ->
  wp (NW_count norm size writeIsSafe v)
    (fun v' => (exists P', winv (nw_previousIs0 v') v' P') /\ nw_symbol v' = nw_symbol v + 1) nw_err.
Proof.
  intros (Hem & Hrep & Hbc & Hthr & Hnb & Hs & Hcum & Hr1 & Hbits) Hrem Hsn.
  pose proof (nok_max _ _ _ Hok). pose proof (nok_max256 _ _ _ Hok) as H256.
  set (s := nw_symbol v) in *. set (rem := nw_remaining v) in *. set (c := zat norm s).
  assert (32 <= 2 ^ tl <= 4096) as HN by (split; [apply (pow2_le 5)|apply (pow2_le tl 12)]; lia).
  pose proof (cum_nonneg norm s ltac:(lia)).
  assert (cum norm (s + 1) <= 2 ^ tl) as Hcs.
  { rewrite <- (nok_sum _ _ _ Hok). apply cum_mono; lia. }
  rewrite cum_S in Hcs by lia. fold c in Hcs. pose proof (nok_counts _ _ _ Hok s ltac:(lia)) as Hc1. fold c in Hc1.
  assert (Z.abs c < rem) as Habs by lia.
  assert (Z.log2 rem <= 12) as Hlog by (apply (Z.log2_le_mono rem (2 ^ 12 + 1)); lia).
  destruct (nc_field_range rem c Hrem Hc1 Habs) as [Hv Hw].
  unfold NW_count. wp_step. wp_step; [lia|]. cbv zeta. fold s rem. fold c. rewrite (u32_small (s + 1)) by lia.
  rewrite Hthr, Hnb.
  change (2 * nc_thr rem - 1 - rem) with (nc_max rem). change (if c + 1 >=? nc_thr rem then c + 1 + nc_max rem else c + 1) with (nc_value rem c).
  replace (if c <? 0 then - c else c) with (Z.abs c) by (destruct (Z.ltb_spec c 0); lia).
  destruct (put_ok _ _ _ _ _ _ (nc_value rem c) (nc_width rem c) Hrep) as (bs1 & E1 & Hr2); [done|lia|lia|lia|].
  rewrite E1. cbn [bind]. wp_step; [lia|].
  replace (nc_thr rem) with (2 ^ (Z.log2 rem + 1 - 1)) by (unfold nc_thr; f_equal; lia).
  wp_step. eapply wp_mono; [apply threshold_ok; [lia| |pose proof (Z.log2_nonneg rem); lia]| |by intros ? []].
  { replace (Z.log2 rem + 1 - 1) with (Z.log2 rem) by lia. apply Z.log2_le_mono. lia. }
  intros [nb2 thr2] E2. injection E2 as -> ->.
  change (nc_value rem c <? nc_max rem) with (nc_value rem c <? nc_max rem) in *.
  replace (nw_bitCount v + (Z.log2 rem + 1) - b2z (nc_value rem c <? nc_max rem)) with (nw_bitCount v + nc_width rem c) by (unfold nc_width; lia).
  pose proof (emits_widths _ _ _ Hem) as HwP.
  assert (nw_rep (nw_header v) (nw_out v) bs1 (nw_bitCount v + nc_width rem c)
    (tl - 5 + 16 * stack_val (P ++ [(nc_value rem c, nc_width rem c)])) (4 + stack_bits (P ++ [(nc_value rem c, nc_width rem c)]))) as Hr3
    by (eapply rep_field; [exact Hr2|done|done|done]).
  assert (nc_width rem c <= tl + 1) as Hwtl.
  { assert (Z.log2 rem <= tl); [|lia]. rewrite <- (Z.log2_pow2 tl) by lia.
    destruct (Z.le_gt_cases rem (2 ^ tl)); [by apply Z.log2_le_mono|].
    replace rem with (2 ^ tl + 1) by lia. rewrite Z.log2_pow2, (Z.log2_unique (2 ^ tl + 1) tl) by (rewrite ?Z.pow_succ_r; lia). lia. }
  assert (stack_bits P + nc_width rem c + (if c + 1 =? 1 then 2 else 0) <= (s + 1) * (tl + 3)) as Hb2.
  { destruct (c + 1 =? 1); lia. }
  wp_step. eapply wp_mono; [apply (flush16_ok _ _ _ _ _ _ Hr3)| |done].
  { rewrite stack_bits_snoc. assert ((s + 1) * (tl + 3) <= n * (tl + 3)) by (apply Z.mul_le_mono_nonneg_r; lia).
    destruct (c + 1 =? 1); lia. }
  intros [[[h5 out5] bs5] bc5] (Hr5 & Hbc5 & Hbc5'). wp_step. cbn [nw_previousIs0 nw_symbol]. split; [|done].
  eexists. unfold winv; cbn [nw_header nw_out nw_bitStream nw_bitCount nw_symbol nw_remaining nw_threshold nw_nbBits].
  assert ((nc_value rem c =? 1) = (c =? 0)) as E0.
  { unfold nc_value, nc_max. pose proof (nc_thr_range rem ltac:(lia)).
    assert (2 <= nc_thr rem) by (apply (pow2_le 1); split; [lia|]; apply (Z.log2_le_mono 2 rem); lia).
    destruct (Z.geb_spec (c + 1) (nc_thr rem)), (Z.eqb_spec c 0); (apply Z.eqb_neq; lia) || (apply Z.eqb_eq; lia). }
  rewrite E0. split_and!; try done; try lia.
  - eapply nc_emits_snoc; [exact Hem|]. by apply nc_step_count; lia.
  - rewrite cum_S by lia. fold c. lia.
  - rewrite stack_bits_snoc. replace (c + 1 =? 1) with (c =? 0) in Hb2; [lia|].
    destruct (Z.eqb_spec c 0), (Z.eqb_spec (c + 1) 1); done || lia.
Qed.

(** What a header holds: the size of the table on 4 bits, then the fields of the
    counts, in the first [sz] bytes. *)
Definition ncount_header (h : list Z) (sz : Z) : Prop :=
  exists P s p0, nc_emits norm n (0, 2 ^ tl + 1, false) P (s, 1, p0) /\
    sz = (4 + stack_bits P + 7) / 8 /\ 0 < sz <= Z.min (zlen h) ((n * (tl + 3) + 4) / 8 + 1) /\ bytes_ok h /\
    le_val (zsub h 0 sz) = tl - 5 + 16 * stack_val P.

Lemma generic_writes header :
  zlen header = size -> bytes_ok header ->
  wp (FSE_writeNCount_generic header size norm (n - 1) tl writeIsSafe)
    (fun '(h, sz) => zlen h = size /\ ncount_header h sz) nw_err.
Proof.
  intros Hl Hb. pose proof (nok_max _ _ _ Hok). pose proof (nok_max256 _ _ _ Hok) as H256.
  assert (32 <= 2 ^ tl <= 4096) as HN by (split; [apply (pow2_le 5)|apply (pow2_le tl 12)]; lia).
  unfold FSE_writeNCount_generic. replace (n - 1 + 1) with n by lia. rewrite (u32_small n), Z.shiftl_1_l by lia.
  change FSE_MIN_TABLELOG with 5. unfold NW_put, defined_if. cbn [Z.leb Z.ltb Z.compare andb bind].
  rewrite (u32_small (tl - 5)), (u32_small (tl - 5)), Z.shiftl_0_r, Z.add_0_l, (u32_small (tl - 5)), (u32_small (tl - 5)) by
    (rewrite ?Z.shiftl_0_r, ?u32_small by lia; lia).
  assert (Z.log2 (2 ^ tl + 1) = tl) as Hlog by (apply Z.log2_unique; rewrite ?Z.pow_succ_r; lia).
  wp_step. apply wp_mono with (Q := fun v => (exists P, winv (nw_previousIs0 v) v P) /\ nw_remaining v = 1) (E := nw_err).
  - apply (wp_loop (fun v => exists P, winv (nw_previousIs0 v) v P) (fun v => n - nw_symbol v)).
    + exists []. unfold winv; cbn [nw_header nw_out nw_bitStream nw_bitCount nw_symbol nw_remaining nw_threshold nw_nbBits nw_previousIs0].
      rewrite cum_0. split_and!; try lia; try done.
      * constructor.
      * change (stack_val []) with 0. change (stack_bits []) with 0. unfold nw_rep. rewrite zsub_0.
        change (le_val []) with 0. change (2 ^ 4) with 16. change (2 ^ (8 * 0)) with 1. split_and!; done || lia.
      * unfold nc_thr. by rewrite Hlog.
    + cbn [nw_symbol]. lia.
    + intros v [P Hv]. pose proof Hv as (_ & _ & _ & _ & _ & Hs & Hcum & Hr1 & _). unfold NW_iteration.
      destruct (Z.ltb_spec (nw_symbol v) n), (Z.gtb_spec (nw_remaining v) 1); cbn [andb].
      * destruct (nw_previousIs0 v) eqn:Ep.
        -- wp_step. eapply wp_mono; [by apply (zero_run_writes v P)| |done]. intros o (v1 & P1 & -> & Hv1 & Hr & Hs1).
           wp_step. eapply wp_mono; [apply (count_writes v1 P1 Hv1); lia| |done]. intros v2 [Hv2 E2]. wp_step.
           split; [done|]. destruct Hv2 as [? (_ & _ & _ & _ & _ & ? & _)]. lia.
        -- wp_step. eapply wp_mono; [apply (count_writes v P Hv); lia| |done]. intros v2 [Hv2 E2]. wp_step.
           split; [done|]. destruct Hv2 as [? (_ & _ & _ & _ & _ & ? & _)]. lia.
      * wp_step. split; [by exists P|]. lia.
      * wp_step. split; [by exists P|]. replace (nw_symbol v) with n in Hcum by lia. rewrite (nok_sum _ _ _ Hok) in Hcum. lia.
      * wp_step. split; [by exists P|]. lia.
  - intros v [[P (Hem & Hrep & Hbc & _ & _ & Hs & _ & _ & Hbits)] Hrem]. wp_step; [bools; lia|].
    destruct Hrep as (Hlv & Hbv & Ho & Hos & _ & Hbs & Hacc & Hnb).
    assert (nw_symbol v * (tl + 3) <= n * (tl + 3)) by (apply Z.mul_le_mono_nonneg_r; lia).
    wp_step. apply flush_bytes; [done|done|done| |].
    { intros E. specialize (Hsafe E). destruct (nw_previousIs0 v); zdm. }
    intros h' Hl' Hb' Hfit E. wp_step. split; [done|].
    assert (2 ^ nw_bitCount v <= 2 ^ 16) by (apply pow2_le; lia).
    rewrite (Z.mod_small (nw_bitStream v)), Hacc in E by lia.
    set (sz := nw_out v + (nw_bitCount v + 7) / 8).
    assert (sz = (4 + stack_bits P + 7) / 8) as Esz by (unfold sz; zdm).
    exists P, (nw_symbol v), (nw_previousIs0 v). rewrite Hrem in Hem. split; [done|]. split; [done|].
    assert (nw_out v < sz <= nw_out v + 2) as Hsz by (unfold sz; zdm).
    split; [assert (sz <= (n * (tl + 3) + 4) / 8 + 1) by (destruct (nw_previousIs0 v); zdm); lia|]. split; [done|].
    pose proof (emits_widths _ _ _ Hem) as HwP. pose proof (stack_val_range P HwP). pose proof (stack_bits_nonneg P HwP).
    rewrite <- (Z.mod_small (tl - 5 + 16 * stack_val P) (2 ^ (8 * sz))).
    + rewrite <- E. replace (nw_out v + 2) with (sz + (nw_out v + 2 - sz)) by lia.
      rewrite (zsub_split h' 0 sz), le_val_app, zlen_zsub by lia. rewrite Z.mul_comm, Z.mod_add by (pose proof (pow2_pos (8 * sz) ltac:(lia)); lia).
      pose proof (le_val_range _ (bytes_ok_zsub h' 0 sz Hb')) as R. rewrite zlen_zsub in R by lia. symmetry. by apply Z.mod_small.
    + split; [lia|]. apply Z.lt_le_trans with (2 ^ (4 + stack_bits P)); [rewrite pow2_add by lia; lia|]. apply pow2_le. rewrite Esz. zdm.
  - done.
Qed.

End write.
