(* ===== verification/FseNCountRoundtrip.v ===== *)
(** The header of an FSE table is read back: the reader of [FseNCount] follows the
    fields that the writer of [FseWriteNCount] emits, in front of any bytes. *)

From S2P Require Import Prelude Errors Outcome Bits Mem BitStream FseTable FseSpread FseSymbols FseBuild FseStream FseNCount FseWriteNCount.

(** ** Lemmas *)

(** The low bits of a window that agree with those of the source at [X]. *)
Definition sees (b X : Z) : Prop := 0 <= b < 2 ^ 32 /\ b mod 2 ^ 25 = X mod 2 ^ 25.

Lemma mod_pow2_weaken a b w w' : 0 <= w <= w' -> a mod 2 ^ w' = b mod 2 ^ w' -> a mod 2 ^ w = b mod 2 ^ w.
Proof.
  intros Hw E. assert (forall x, x mod 2 ^ w = (x mod 2 ^ w') mod 2 ^ w) as H.
  { intros x. replace w' with (w + (w' - w)) by lia. rewrite pow2_add by lia.
    apply Znumtheory.Zmod_div_mod; [apply pow2_pos; lia|pose proof (pow2_pos w); pose proof (pow2_pos (w' - w)); nia|].
    apply Z.divide_factor_l. }
  by rewrite (H a), (H b), E.
Qed.
Lemma sees_mod b X w : sees b X -> 0 <= w <= 25 -> b mod 2 ^ w = X mod 2 ^ w.
Proof. intros [_ H] Hw. by apply (mod_pow2_weaken b X w 25). Qed.

Lemma div_pow2_add X a b : 0 <= a -> 0 <= b -> X / 2 ^ (a + b) = X / 2 ^ a / 2 ^ b.
Proof.
  intros. pose proof (pow2_pos a). pose proof (pow2_pos b). by rewrite pow2_add, Z.div_div by lia.
Qed.

(** A field is in front of the others. *)
Lemma stack_front X v w R :
  0 <= w -> widths_nonneg R -> 0 <= v < 2 ^ w -> X mod 2 ^ (w + stack_bits R) = stack_val ((v, w) :: R) ->
  X mod 2 ^ w = v /\ (X / 2 ^ w) mod 2 ^ stack_bits R = stack_val R.
Proof.
  intros Hw HR Hv H. cbn [stack_val] in H. rewrite (Z.mod_small v) in H by done.
  pose proof (stack_bits_nonneg R HR) as HbR. pose proof (stack_val_range R HR).
  rewrite pow2_add in H by lia. pose proof (pow2_pos w Hw). pose proof (pow2_pos (stack_bits R) HbR).
  rewrite Z.rem_mul_r in H by lia. pose proof (Z.mod_pos_bound X (2 ^ w) ltac:(lia)).
  destruct (Z.div_mod_unique (2 ^ w) ((X / 2 ^ w) mod 2 ^ stack_bits R) (stack_val R) (X mod 2 ^ w) v) as [-> ->]; [lia|lia|lia|done].
Qed.

Lemma mod_pow2_front X v w y b :
  0 <= w -> 0 <= b -> 0 <= v < 2 ^ w -> 0 <= y < 2 ^ b -> X mod 2 ^ (w + b) = v + 2 ^ w * y -> (X / 2 ^ w) mod 2 ^ b = y.
Proof.
  intros Hw Hb Hv Hy H. pose proof (pow2_pos w Hw). pose proof (pow2_pos b Hb).
  rewrite pow2_add, Z.rem_mul_r in H by lia. pose proof (Z.mod_pos_bound X (2 ^ w) ltac:(lia)).
  by destruct (Z.div_mod_unique (2 ^ w) ((X / 2 ^ w) mod 2 ^ b) y (X mod 2 ^ w) v) as [-> _]; [lia|lia|lia|].
Qed.

(** *** The pairs of bits of a run *)

Lemma testbit_mod_low v w i : 0 <= i < w -> Z.testbit v i = Z.testbit (v mod 2 ^ w) i.
Proof. intros. by rewrite Z.mod_pow2_bits_low by lia. Qed.

Lemma run_pairs_ctz v m d :
  0 <= m -> 1 <= d <= 3 -> v mod 2 ^ (2 * m + 2) = d * 4 ^ m -> is_ctz v (2 * m + b2z (d =? 2)).
Proof.
  intros Hm Hd E.
  assert (forall i, 0 <= i < 2 * m + 2 -> Z.testbit v i = Z.testbit (Z.shiftl d (2 * m)) i) as H.
  { intros i Hi. rewrite (testbit_mod_low v (2 * m + 2)), E, Z.shiftl_mul_pow2, pow4_pow2 by lia. done. }
  assert (d = 1 \/ d = 2 \/ d = 3) as Hd3 by lia. split; [destruct (d =? 2); cbn; lia|]. split.
  - rewrite H, Z.shiftl_spec by (destruct (d =? 2); cbn; lia).
    replace (2 * m + b2z (d =? 2) - 2 * m) with (b2z (d =? 2)) by lia. by destruct Hd3 as [-> | [-> | ->]].
  - intros j Hj. destruct (Z.ltb_spec j 0); [by apply Z.testbit_neg_r|].
    rewrite H by (destruct (d =? 2); cbn in *; lia). destruct (Z.ltb_spec j (2 * m)); [by apply Z.shiftl_spec_low|].
    rewrite Z.shiftl_spec by lia. destruct Hd3 as [-> | [-> | ->]]; cbn in Hj; try lia.
    by replace (j - 2 * m) with 0 by lia.
Qed.

(** What the number of repeats says of a window in front of a run of [m] triples
    and [r] more symbols. *)
Lemma NC_repeats_run b X m r :
  sees b X -> 0 <= m -> 0 <= r < 3 -> X mod 2 ^ (2 * m + 2) = (r + 1) * 4 ^ m - 1 ->
  (12 <= m -> 12 <= NC_repeats b) /\
  (m < 12 -> NC_repeats b = m /\ Z.shiftr b (2 * m) .& 3 = r).
Proof.
  intros Hs Hm Hr HX. pose proof Hs as [Hb _]. pose proof (NC_repeats_arg b Hb) as Hv.
  unfold NC_repeats. pose proof (ctz32_spec _ Hv) as Hctz. set (v := u32 (Z.lnot b) .| 0x80000000) in *.
  assert (v mod 2 ^ 24 = (2 ^ 32 - 1 - b) mod 2 ^ 24) as Hv24 by (unfold v; rewrite lnot_u32 by done; apply lor_high_mod).
  rewrite Z.shiftr_div_pow2 by lia. change (2 ^ 1) with 2. split; intros H12.
  - assert (b mod 2 ^ 24 = 2 ^ 24 - 1) as E.
    { rewrite (sees_mod b X 24) by (done || lia).
      rewrite (mod_pow2_weaken X ((r + 1) * 4 ^ m - 1) 24 (2 * m + 2)) by
        (lia || (rewrite HX; symmetry; apply Z.mod_small; pose proof (nc_run_range (3 * m + r) ltac:(lia)) as [R _];
          unfold nc_run in R; cbn [fst snd] in R; replace ((3 * m + r) mod 3) with r in R by zdm;
          replace ((3 * m + r) / 3) with m in R by zdm; exact R)).
      rewrite pow4_pow2 by lia. replace (2 * m) with (24 + (2 * m - 24)) by lia. rewrite pow2_add by lia.
      replace ((r + 1) * (2 ^ 24 * 2 ^ (2 * m - 24)) - 1) with (2 ^ 24 - 1 + ((r + 1) * 2 ^ (2 * m - 24) - 1) * 2 ^ 24) by lia.
      rewrite Z.mod_add by lia. by apply Z.mod_small. }
    assert (v mod 2 ^ 24 = 0) as Ev.
    { rewrite Hv24. rewrite (Z.div_mod b (2 ^ 24)), E by lia.
      replace (2 ^ 32 - 1 - (2 ^ 24 * (b / 2 ^ 24) + (2 ^ 24 - 1))) with ((2 ^ 8 - 1 - b / 2 ^ 24) * 2 ^ 24) by lia.
      apply Z.mod_mul. lia. }
    destruct Hctz as (H0 & Hset & _). destruct (Z.lt_ge_cases (ZSTD_countTrailingZeros32 v) 24); [|zdm].
    rewrite (testbit_mod_low v 24), Ev, Z.bits_0 in Hset by lia. done.
  - assert (b mod 2 ^ (2 * m + 2) = (r + 1) * 4 ^ m - 1) as E by (by rewrite (sees_mod b X) by (done || lia)).
    pose proof (pow2_pos (2 * m) ltac:(lia)) as Hp. rewrite pow4_pow2 in * by lia.
    assert (2 ^ (2 * m + 2) = 4 * 2 ^ (2 * m)) as E4 by (rewrite pow2_add by lia; lia).
    assert (is_ctz v (2 * m + b2z (3 - r =? 2))) as Hctz'.
    { apply run_pairs_ctz; [lia|lia|]. rewrite pow4_pow2 by lia.
      rewrite (mod_pow2_weaken v (2 ^ 32 - 1 - b) (2 * m + 2) 24) by (lia || done).
      rewrite (Z.div_mod b (2 ^ (2 * m + 2))), E by lia.
      replace (2 ^ 32) with (2 ^ (2 * m + 2) * 2 ^ (30 - 2 * m)) by (rewrite <- pow2_add by lia; f_equal; lia).
      replace (2 ^ (2 * m + 2) * 2 ^ (30 - 2 * m) - 1 - (2 ^ (2 * m + 2) * (b / 2 ^ (2 * m + 2)) + ((r + 1) * 2 ^ (2 * m) - 1)))
        with ((3 - r) * 2 ^ (2 * m) + (2 ^ (30 - 2 * m) - 1 - b / 2 ^ (2 * m + 2)) * 2 ^ (2 * m + 2)) by lia.
      rewrite Z.mod_add by lia. apply Z.mod_small. nia. }
    rewrite (is_ctz_unique _ _ _ Hctz Hctz'). split; [destruct (3 - r =? 2); cbn [b2z]; zdm|].
    change 3 with (2 ^ 2 - 1). rewrite land_mask, Z.shiftr_div_pow2 by lia.
    rewrite (Z.div_mod b (2 ^ (2 * m + 2))), E, E4 by lia.
    replace (4 * 2 ^ (2 * m) * (b / (4 * 2 ^ (2 * m))) + ((r + 1) * 2 ^ (2 * m) - 1))
      with (2 ^ (2 * m) - 1 + (r + b / (4 * 2 ^ (2 * m)) * 4) * 2 ^ (2 * m)) by lia.
    rewrite Z.div_add, (Z.div_small (2 ^ (2 * m) - 1)) by lia. rewrite Z.add_0_l. change (2 ^ 2) with 4.
    rewrite Z.mod_add by lia. apply Z.mod_small. lia.
Qed.

(** *** A count *)

Lemma count_decode b rem c :
  1 < rem -> -1 <= c -> Z.abs c < rem -> 0 <= b -> nc_thr rem <= 2 ^ 20 ->
  b mod 2 ^ nc_width rem c = nc_value rem c ->
  (if (b .& (nc_thr rem - 1)) <? u32 (nc_max rem) then (b .& (nc_thr rem - 1), Z.log2 rem)
   else (let k := b .& (2 * nc_thr rem - 1) in if k >=? nc_thr rem then k - nc_max rem else k, Z.log2 rem + 1))
  = (c + 1, nc_width rem c).
Proof.
  intros Hr Hc Ha Hb Hthr HX. pose proof (nc_thr_range rem ltac:(lia)) as Ht.
  pose proof (Z.log2_nonneg rem) as Hl.
  assert (2 * nc_thr rem = 2 ^ (Z.log2 rem + 1)) as E2 by (unfold nc_thr; rewrite pow2_S by lia; done).
  assert (b .& (nc_thr rem - 1) = b mod nc_thr rem) as -> by (unfold nc_thr; by apply land_mask).
  assert (b .& (2 * nc_thr rem - 1) = b mod (2 * nc_thr rem)) as -> by (rewrite E2; apply land_mask; lia).
  rewrite u32_small by (unfold nc_max; lia). unfold nc_width in *.
  destruct (Z.ltb_spec (nc_value rem c) (nc_max rem)) as [Hlt|Hge]; cbn [b2z] in *.
  - replace (Z.log2 rem + 1 - 1) with (Z.log2 rem) in * by lia. fold (nc_thr rem) in HX. rewrite HX.
    rewrite (proj2 (Z.ltb_lt _ _)) by done. f_equal. unfold nc_value in *.
    destruct (Z.geb_spec (c + 1) (nc_thr rem)); lia.
  - rewrite Z.sub_0_r in *. rewrite <- E2 in HX.
    assert (b mod nc_thr rem = nc_value rem c mod nc_thr rem) as Em.
    { rewrite <- HX. rewrite E2. unfold nc_thr. symmetry. apply (mod_pow2_weaken (b mod 2 ^ (Z.log2 rem + 1)) b _ (Z.log2 rem + 1)); [lia|].
      apply Z.mod_mod. lia. }
    rewrite Em, HX. unfold nc_value, nc_max in *. destruct (Z.geb_spec (c + 1) (nc_thr rem)).
    + assert ((c + 1 + (2 * nc_thr rem - 1 - rem)) mod nc_thr rem = c + nc_thr rem - rem) as ->.
      { symmetry. apply (Z.mod_unique _ _ 1); lia. }
      rewrite (proj2 (Z.ltb_ge _ _)) by lia. cbv zeta. destruct (Z.geb_spec (c + 1 + (2 * nc_thr rem - 1 - rem)) (nc_thr rem)); [|lia].
      f_equal. lia.
    + rewrite Z.mod_small by lia. rewrite (proj2 (Z.ltb_ge _ _)) by lia. cbv zeta.
      by destruct (Z.geb_spec (c + 1) (nc_thr rem)); [lia|].
Qed.

Section follow.
Context (norm : list Z) (n tl : Z) (src : list Z) (maxSV1 n0 sE B : Z).
Hypothesis Htl : 5 <= tl <= 12.
Hypothesis Hn : 1 <= n <= maxSV1.
Hypothesis HmaxSV1 : maxSV1 <= 256.
Hypothesis Hn0 : maxSV1 <= n0.
Hypothesis Hsrc : bytes_ok src.
Hypothesis Hlen : 8 <= zlen src.

Let iend := zlen src.
Let W := le_val src.

(** The reader is [p] bits into the source. *)
Definition rpos (ip bc p : Z) : Prop :=
  0 <= ip <= iend - 4 /\ 0 <= bc <= 31 /\ (bc <= 7 \/ ip = iend - 4) /\ p = 8 * ip + bc.

Lemma window_sees ip bc p :
  rpos ip bc p -> exists b, NC_window src ip bc = Ok b /\ sees b (W / 2 ^ p).
Proof.
  intros (Hip & Hbc & Hor & ->). unfold NC_window. rewrite readLE32_spec by (done || unfold iend in *; lia). cbn [bind].
  unfold defined_if. rewrite (proj2 (Z.leb_le _ _)), (proj2 (Z.ltb_lt _ _)) by lia. cbn [andb].
  eexists. split; [done|]. rewrite le_val_zsub by (done || unfold iend in *; lia). fold W. change (8 * 4) with 32.
  pose proof (pow2_pos (8 * ip) ltac:(lia)). pose proof (pow2_pos bc ltac:(lia)).
  rewrite Z.shiftr_div_pow2, pow2_add, <- Z.div_div by lia. set (Y := W / 2 ^ (8 * ip)).
  pose proof (Z.mod_pos_bound Y (2 ^ 32) ltac:(lia)).
  assert ((Y mod 2 ^ 32) / 2 ^ bc = (Y / 2 ^ bc) mod 2 ^ (32 - bc)) as E.
  { replace 32 with (bc + (32 - bc)) at 1 by lia. rewrite pow2_add by lia. pose proof (pow2_pos (32 - bc) ltac:(lia)).
    rewrite Z.rem_mul_r, (Z.mul_comm (2 ^ bc)), Z.div_add by lia.
    rewrite (Z.div_small (Y mod 2 ^ bc)) by (apply Z.mod_pos_bound; lia). lia. }
  split.
  - split; [apply Z.div_pos; lia|]. apply Z.div_lt_upper_bound; [lia|]. nia.
  - destruct Hor as [H7|Hend].
    + rewrite E. apply (mod_pow2_weaken _ _ 25 (32 - bc)); [lia|]. apply Z.mod_mod. pose proof (pow2_pos (32 - bc)). lia.
    + rewrite (Z.mod_small Y); [done|]. pose proof (le_val_range src Hsrc) as R. fold W in R. fold iend in R.
      split; [apply Z.div_pos; lia|]. apply Z.div_lt_upper_bound; [lia|]. rewrite <- pow2_add by lia.
      replace (8 * ip + 32) with (8 * iend) by lia. lia.
Qed.

Lemma advance_pos ip bc :
  0 <= ip <= iend - 4 -> 0 <= bc -> (ip <= iend - 7 -> bc <= 31) -> 8 * ip + bc < 8 * iend ->
  exists ip' bc', NC_advance iend ip bc = (ip', bc') /\ rpos ip' bc' (8 * ip + bc).
Proof.
  intros Hip Hbc H31 Hlt. unfold NC_advance. rewrite Z.shiftr_div_pow2, land_7 by lia. change (2 ^ 3) with 8.
  destruct (_ || _) eqn:E.
  - eexists _, _. split; [done|]. apply orb_true_iff in E. unfold rpos.
    assert (ip + bc / 8 <= iend - 4).
    { destruct E as [E|E]; bools; [specialize (H31 E); zdm|lia]. }
    split_and!; zdm.
  - bools. eexists _, _. split; [done|].
    assert (0 <= bc - 8 * (iend - 4 - ip) < 32) as Hr by zdm.
    assert ((bc - 8 * (iend - 4 - ip)) .& 31 = bc - 8 * (iend - 4 - ip)) as ->.
    { change 31 with (2 ^ 5 - 1). rewrite land_mask by lia. apply Z.mod_small. lia. }
    unfold rpos. split_and!; lia.
Qed.

(** What is known of the counts that are read. *)
Definition counts_read (l : list Z) (s : Z) : Prop :=
  zlen l = n0 /\ (forall i, 0 <= i < s -> zat l i = zat norm i) /\ (forall i, s <= i < maxSV1 -> zat l i = 0).

(** The invariant: the fields [R] that are left, from bit [p]. *)
Definition rinv (p0 : bool) (v : NC_vars) (R : list (Z * Z)) : Prop :=
  exists p, nc_emits norm n (nc_charnum v, nc_remaining v, p0) R (sE, 1, false) /\
  rpos (nc_ip v) (nc_bitCount v) p /\ sees (nc_bitStream v) (W / 2 ^ p) /\
  (W / 2 ^ p) mod 2 ^ stack_bits R = stack_val R /\ p + stack_bits R = B /\
  nc_threshold v = nc_thr (nc_remaining v) /\ nc_nbBits v = Z.log2 (nc_remaining v) + 1 /\
  1 < nc_remaining v <= 2 ^ tl + 1 /\ 0 <= nc_charnum v /\ counts_read (nc_norm v) (nc_charnum v).

Definition rdone (v : NC_vars) : Prop :=
  nc_remaining v = 1 /\ nc_charnum v = sE /\ 8 * nc_ip v + nc_bitCount v = B /\ 0 <= nc_ip v /\
  0 <= nc_bitCount v <= 32 /\ 0 < sE <= n /\ counts_read (nc_norm v) sE.

Hypothesis HB : B <= 8 * iend.

Lemma emits_done s p0 R : nc_emits norm n (s, 1, p0) R (sE, 1, false) -> R = [] /\ s = sE.
Proof. inversion 1 as [|? f st' fs ? Hst]; subst; [done|]. inversion Hst; lia. Qed.

Lemma follow_count v R :
  rinv false v R ->
  wp (NC_read_count src maxSV1 v)
    (fun f => match f with
              | Continue v' => (exists R', rinv (nc_previous0 v') v' R') /\ nc_charnum v' = nc_charnum v + 1
              | Break v' => rdone v'
              end) no_errors.
Proof.
  intros (p & Hem & (Hip & Hbc & Hor & Hp) & Hsee & HR & HpB & Hthr & Hnb & Hrem & Hs & Hl & Hread & Hzero).
  set (s := nc_charnum v) in *. set (rem := nc_remaining v) in *.
  inversion Hem as [|? f st' R' ? Hst Hem']; subst R; [lia|]. subst.
  set (p := 8 * nc_ip v + nc_bitCount v) in *. assert (p = 8 * nc_ip v + nc_bitCount v) as Hp by done. clearbody p.
  inversion Hst as [s' rem' Hsn Hr1 Hc1 Habs E1 E2 E3|]; subst s' rem'. set (c := zat norm s) in *.
  subst f st'. destruct (nc_field_range rem c Hr1 Hc1 Habs) as [Hv Hw].
  pose proof (emits_widths _ _ _ _ _ Hem') as HwR.
  change (stack_bits ((nc_value rem c, nc_width rem c) :: R')) with (nc_width rem c + stack_bits R') in *.
  pose proof (stack_bits_nonneg R' HwR) as HbR.
  destruct (stack_front (W / 2 ^ p) (nc_value rem c) (nc_width rem c) R' ltac:(lia) HwR Hv HR) as [Hval HR'].
  assert (2 <= nc_thr rem) as Ht2 by (apply (pow2_le 1); split; [lia|]; apply (Z.log2_le_mono 2 rem); lia).
  pose proof (nc_thr_range rem ltac:(lia)) as Htr.
  assert (2 ^ tl <= 4096) as HN by (apply (pow2_le tl 12); lia).
  assert (Z.log2 rem <= 12) as Hlog by (apply (Z.log2_le_mono rem (2 ^ 12 + 1)); lia).
  assert (nc_bitStream v mod 2 ^ nc_width rem c = nc_value rem c) as Hb by (rewrite (sees_mod _ _ _ Hsee) by lia; done).
  pose proof (count_decode _ rem c Hr1 Hc1 Habs (proj1 (proj1 Hsee)) ltac:(lia) Hb) as Hdec.
  unfold NC_read_count. cbv zeta in Hdec |- *. fold rem s. rewrite Hthr, Hnb. fold (nc_max rem).
  set (cb := if _ <? _ then (_, _) else (_, _)).
  assert (cb = (c + 1, nc_bitCount v + nc_width rem c)) as ->.
  { unfold cb. destruct (_ <? u32 (nc_max rem)); injection Hdec as -> <-; f_equal; lia. }
  replace (c + 1 - 1) with c by lia. set (rem' := if c >=? 0 then rem - c else rem + c).
  assert (rem' = rem - Z.abs c) as Erem by (unfold rem'; destruct (Z.geb_spec c 0); lia). clearbody rem'.
  rewrite s16_small, (u32_small (s + 1)) by lia. wp_step. wp_step; [lia|].
  assert (counts_read (zupd (nc_norm v) s c) (s + 1)) as Hcr.
  { split_and!.
    - by rewrite zlen_zupd.
    - intros i Hi. rewrite zat_zupd by lia. destruct (Z.eqb_spec i s) as [->|]; [done|apply Hread; lia].
    - intros i Hi. rewrite zat_zupd_ne by lia. apply Hzero. lia. }
  rewrite <- Erem in Hem'.
  assert (rem' = 1 -> R' = [] /\ s + 1 = sE) as Hfin by (intros ->; eapply emits_done; exact Hem').
  assert (nc_bitCount v + nc_width rem c <= 32) as H32.
  { destruct Hor; [lia|]. unfold iend in *. lia. }
  destruct (Z.eq_dec rem' 1) as [E1|Hne1].
  { destruct (Hfin E1) as [-> Es]. rewrite (proj2 (Z.ltb_lt rem' (nc_thr rem))), (proj2 (Z.leb_le rem' 1)) by lia. cbn [andb].
    wp_step. unfold rdone; cbn [nc_remaining nc_charnum nc_ip nc_bitCount nc_norm]. rewrite <- Es.
    change (stack_bits []) with 0 in *. split_and!; done || lia. }
  rewrite (proj2 (Z.leb_gt rem' 1)), andb_false_r by lia.
  assert (exists f1 st1 fs1, R' = f1 :: fs1 /\ nc_step norm n (s + 1, rem', c =? 0) f1 st1) as (f1 & st1 & fs1 & ER' & Hst1).
  { inversion Hem'; subst; [lia|]. by do 3 eexists. }
  assert (s + 1 < n) as Hs1 by (inversion Hst1; lia).
  set (nt := if rem' <? nc_thr rem then _ else _).
  assert (nt = (Z.log2 rem' + 1, nc_thr rem')) as ->.
  { unfold nt. destruct (Z.ltb_spec rem' (nc_thr rem)).
    - rewrite highbit32_spec by lia. rewrite Z.shiftl_1_l. unfold nc_thr. do 2 f_equal. lia.
    - assert (Z.log2 rem' = Z.log2 rem) as El; [|unfold nc_thr; by rewrite El].
      apply Z.le_antisymm; [apply Z.log2_le_mono; lia|].
      rewrite <- (Z.log2_pow2 (Z.log2 rem)) by apply Z.log2_nonneg. apply Z.log2_le_mono. fold (nc_thr rem). lia. }
  rewrite Z.geb_leb, (proj2 (Z.leb_gt maxSV1 (s + 1))) by lia.
  assert (1 <= stack_bits R') as HR1.
  { rewrite ER' in *. change (stack_bits (f1 :: fs1)) with (f1.2 + stack_bits fs1).
    inversion HwR as [|? ? _ Hwf]. pose proof (stack_bits_nonneg fs1 Hwf). pose proof (nc_step_field _ _ _ _ _ Hst1). lia. }
  destruct (advance_pos (nc_ip v) (nc_bitCount v + nc_width rem c)) as (ip' & bc' & Eadv & Hpos'); [lia|lia|lia|lia|].
  fold iend. rewrite Eadv. destruct (window_sees _ _ _ Hpos') as (b' & -> & Hsee'). cbn [bind]. wp_step.
  cbn [nc_previous0 nc_charnum]. split; [|done]. exists R'. exists (8 * nc_ip v + (nc_bitCount v + nc_width rem c)).
  cbn [nc_charnum nc_remaining nc_ip nc_bitCount nc_bitStream nc_threshold nc_nbBits nc_norm].
  replace (8 * nc_ip v + (nc_bitCount v + nc_width rem c)) with (p + nc_width rem c) in * by lia.
  assert (W / 2 ^ (p + nc_width rem c) = W / 2 ^ p / 2 ^ nc_width rem c) as EW.
  { apply div_pow2_add; lia. }
  split_and!; try done; try lia. by rewrite EW.
Qed.

(** The loop that skips the triples of a run, twelve at a time. *)
Lemma triples_ok v p k :
  rpos (nc_ip v) (nc_bitCount v) p -> sees (nc_bitStream v) (W / 2 ^ p) -> 0 <= nc_charnum v -> 0 <= k ->
  nc_charnum v + k <= 256 ->
  (W / 2 ^ p) mod 2 ^ (nc_run k).2 = (nc_run k).1 -> p + (nc_run k).2 <= 8 * iend ->
  wp (while_ (length src + 16)
       (fun '(ip, bitStream, bitCount, charnum) => NC_repeats bitStream >=? 12)
       (fun '(ip, bitStream, bitCount, charnum) =>
          let charnum := u32 (charnum + 3 * 12) in
          let '(ip, bitCount) :=
            if ip <=? iend - 7 then (ip + 3, bitCount)
            else (iend - 4, (bitCount - 8 * (iend - 7 - ip)) .& 31) in
          let* bitStream := NC_window src ip bitCount in
          Ok (ip, bitStream, bitCount, charnum))
       (nc_ip v, nc_bitStream v, nc_bitCount v, nc_charnum v))
    (fun '(ip, b, bc, ch) =>
       rpos ip bc (8 * ip + bc) /\ NC_repeats b < 12 /\ Z.shiftr b (2 * NC_repeats b) .& 3 = k mod 3 /\
       ch + 3 * NC_repeats b + k mod 3 = nc_charnum v + k /\ 0 <= NC_repeats b /\ 0 <= ch <= 256 /\
       8 * ip + bc + 2 * NC_repeats b + 2 = p + (nc_run k).2) no_errors.
Proof.
  intros Hpos Hsee Hch0 Hk Hk256 Hrun Hfit. unfold nc_run in Hrun, Hfit |- *; cbn [fst snd] in Hrun, Hfit |- *.
  set (r := k mod 3) in *. set (m := k / 3) in *.
  assert (k = 3 * m + r /\ 0 <= r < 3 /\ 0 <= m) as (Ek & Hr & Hm0) by (unfold m, r; zdm). clearbody r m.
  set (I := fun '(ip, b, bc, ch) => exists j, 0 <= j <= m /\ ch = nc_charnum v + 3 * j /\
    rpos ip bc (p + 2 * j) /\ sees b (W / 2 ^ (p + 2 * j)) /\
    (W / 2 ^ (p + 2 * j)) mod 2 ^ (2 * (m - j) + 2) = (r + 1) * 4 ^ (m - j) - 1).
  apply (wp_while I (fun '(ip, b, bc, ch) => (nc_charnum v + k - ch) / 36)).
  - exists 0. rewrite !Z.mul_0_r, !Z.add_0_r, !Z.sub_0_r. split_and!; done || lia.
  - zdm.
  - intros [[[ip b] bc] ch] (j & Hj & -> & Hp & Hs & HX) Hc. bools.
    destruct (NC_repeats_run b _ (m - j) r Hs ltac:(lia) Hr HX) as [_ Hlt].
    assert (12 <= m - j) as H12 by (destruct (Z.lt_ge_cases (m - j) 12) as [H|H]; [destruct (Hlt H); lia|done]).
    destruct Hp as (Hip & Hbc & Hor & Hp). split; [apply Z.div_str_pos; lia|]. rewrite u32_small by lia.
    set (nx := if ip <=? iend - 7 then _ else _).
    assert (exists ip' bc', nx = (ip', bc') /\ rpos ip' bc' (p + 2 * (j + 12))) as (ip' & bc' & -> & Hp').
    { unfold nx. destruct (Z.leb_spec ip (iend - 7)).
      - eexists _, _. split; [done|]. unfold rpos. lia.
      - eexists _, _. split; [done|].
        assert ((bc - 8 * (iend - 7 - ip)) .& 31 = bc - 8 * (iend - 7 - ip)) as ->.
        { change 31 with (2 ^ 5 - 1). rewrite land_mask by lia. apply Z.mod_small. lia. }
        unfold rpos. lia. }
    destruct (window_sees _ _ _ Hp') as (b' & -> & Hs'). cbn [bind]. wp_step.
    split; [|clear; set (z := nc_charnum v + k - (nc_charnum v + 3 * j)); replace (_ - (_ + 3 * 12)) with (z + (-1) * 36) by lia; rewrite Z.div_add by lia; lia].
    exists (j + 12). split; [lia|]. split; [lia|]. split; [done|]. split; [done|].
    assert (W / 2 ^ (p + 2 * (j + 12)) = W / 2 ^ (p + 2 * j) / 2 ^ 24) as ->.
    { replace (p + 2 * (j + 12)) with (p + 2 * j + 24) by lia. apply div_pow2_add; lia. }
    set (X := W / 2 ^ (p + 2 * j)) in *.
    replace (2 * (m - j) + 2) with (24 + (2 * (m - (j + 12)) + 2)) in HX by lia.
    replace (m - j) with (12 + (m - (j + 12))) in HX by lia. rewrite (Z.pow_add_r 4) in HX by lia.
    set (q := m - (j + 12)) in *. pose proof (nc_run_range (3 * q + r) ltac:(lia)) as [R _].
    unfold nc_run in R; cbn [fst snd] in R. assert ((3 * q + r) mod 3 = r /\ (3 * q + r) / 3 = q) as [Er Eq] by (clear -Hr; zdm). rewrite Er, Eq in R.
    apply (mod_pow2_front X (4 ^ 12 - 1) 24 ((r + 1) * 4 ^ q - 1) (2 * q + 2)); [lia|lia|lia|done|].
    rewrite HX. change (2 ^ 24) with (4 ^ 12). lia.
  - intros [[[ip b] bc] ch] (j & Hj & -> & Hp & Hs & HX) Hc. rewrite Z.geb_leb in Hc. bools.
    destruct (NC_repeats_run b _ (m - j) r Hs ltac:(lia) Hr HX) as [Hge Hlt].
    assert (m - j < 12) as H12 by (destruct (Z.lt_ge_cases (m - j) 12) as [H|H]; [done|specialize (Hge H); lia]).
    destruct (Hlt H12) as [-> ->]. pose proof Hp as (_ & _ & _ & E). rewrite <- E. split_and!; done || lia.
Qed.

Lemma follow_run v R :
  rinv true v R ->
  wp (NC_zero_run src maxSV1 v)
    (fun f => match f with
              | Continue v' => (exists R', rinv false v' R') /\ nc_charnum v <= nc_charnum v'
              | Break _ => False
              end) no_errors.
Proof.
  intros (p & Hem & Hpos & Hsee & HR & HpB & Hthr & Hnb & Hrem & Hs & Hl & Hread & Hzero).
  inversion Hem as [|? f st' R' ? Hst Hem']; subst R; subst.
  inversion Hst as [|s' rem' k Hs0 Hk Hkn Hr1 Hz Hnz E1 E2 E3]. subst s' rem' f st'.
  destruct (nc_run_range k Hk) as [Hv Hw].
  pose proof (emits_widths _ _ _ _ _ Hem') as HwR. pose proof (stack_bits_nonneg R' HwR) as HbR.
  change (stack_bits (nc_run k :: R')) with ((nc_run k).2 + stack_bits R') in *.
  destruct (stack_front (W / 2 ^ p) (nc_run k).1 (nc_run k).2 R' ltac:(lia) HwR Hv) as [Hval HR'].
  { rewrite HR. by destruct (nc_run k). }
  unfold NC_zero_run. cbv zeta. fold iend. wp_step.
  eapply wp_mono; [apply (triples_ok v p k Hpos Hsee Hs Hk ltac:(lia) Hval ltac:(lia))| |done].
  intros [[[ip b] bc] ch] ((Hip & Hbc & Hor & _) & H12 & Hlow & Hch & H0 & Hch256 & Hend).
  rewrite Hlow, (u32_small (ch + 3 * NC_repeats b)), (u32_small (ch + 3 * NC_repeats b + k mod 3)), Hch by
    (pose proof (Z.mod_pos_bound k 3 ltac:(lia)); lia).
  cbn [nc_charnum nc_nbBits nc_remaining nc_threshold nc_previous0 nc_norm].
  rewrite Z.geb_leb, (proj2 (Z.leb_gt maxSV1 _)) by lia.
  assert (1 <= stack_bits R') as HR1.
  { inversion Hem' as [|? f1 st1 fs1 ? Hst1 _]; subst; [lia|].
    change (stack_bits (f1 :: fs1)) with (f1.2 + stack_bits fs1).
    inversion HwR as [|? ? _ Hwf]. pose proof (stack_bits_nonneg fs1 Hwf). pose proof (nc_step_field _ _ _ _ _ Hst1). lia. }
  destruct (advance_pos ip (bc + 2 * NC_repeats b + 2)) as (ip' & bc' & Eadv & Hpos'); [lia|lia|lia|lia|].
  rewrite Eadv. destruct (window_sees _ _ _ Hpos') as (b' & -> & Hsee'). cbn [bind]. wp_step.
  cbn [nc_charnum]. split; [|lia]. exists R', (8 * ip + (bc + 2 * NC_repeats b + 2)).
  cbn [nc_charnum nc_remaining nc_ip nc_bitCount nc_bitStream nc_threshold nc_nbBits nc_norm].
  replace (8 * ip + (bc + 2 * NC_repeats b + 2)) with (p + (nc_run k).2) in * by lia.
  destruct Hpos as (? & ? & _ & Hp).
  rewrite div_pow2_add in * by lia.
  assert (counts_read (nc_norm v) (nc_charnum v + k)) as Hcr.
  { split; [done|]. split.
    - intros i Hi. destruct (Z.ltb_spec i (nc_charnum v)); [apply Hread; lia|]. rewrite Hzero by lia. symmetry. apply Hz. lia.
    - intros i Hi. apply Hzero. lia. }
  split_and!; try done; try lia; apply Hcr.
Qed.

Lemma follow_ok v R :
  rinv (nc_previous0 v) v R ->
  wp (loop_ (Z.to_nat (maxSV1 + 1)) (NC_iteration src maxSV1) v) rdone no_errors.
Proof.
  intros Hv. assert (forall p0 v R, rinv p0 v R -> 0 <= nc_charnum v < n) as Hcn.
  { intros p0 w Q (p & Hem & _ & _ & _ & _ & _ & _ & Hrem & Hs & _). split; [done|].
    inversion Hem as [|? f1 st1 fs1 ? Hst1 _]; subst; [lia|]. inversion Hst1; lia. }
  apply (wp_loop (fun v => exists R, rinv (nc_previous0 v) v R) (fun v => maxSV1 - nc_charnum v)).
  - by exists R.
  - specialize (Hcn _ _ _ Hv). lia.
  - intros w [Q Hw]. unfold NC_iteration. destruct (nc_previous0 w) eqn:Ep.
    + wp_step. eapply wp_mono; [by apply (follow_run w Q)| |done]. intros [w1|w1]; [|by intros []].
      intros [[Q1 Hw1] Hle]. eapply wp_mono; [by apply (follow_count w1 Q1)| |done]. intros [w2|w2]; [|done].
      intros [[Q2 Hw2] E2]. split; [by exists Q2|]. specialize (Hcn _ _ _ Hw2). lia.
    + eapply wp_mono; [by apply (follow_count w Q)| |done]. intros [w2|w2]; [|done].
      intros [[Q2 Hw2] E2]. split; [by exists Q2|]. specialize (Hcn _ _ _ Hw2). lia.
Qed.

End follow.

(** The whole header, in front of any bytes. *)
Lemma body8_reads norm n tl src maxSV norm0 P sE B :
  5 <= tl <= 12 -> 1 <= n <= maxSV + 1 -> maxSV <= 255 -> maxSV < zlen norm0 -> bytes_ok src -> 8 <= zlen src ->
  nc_emits norm n (0, 2 ^ tl + 1, false) P (sE, 1, false) ->
  B = 4 + stack_bits P -> B <= 8 * zlen src -> le_val src mod 2 ^ B = tl - 5 + 16 * stack_val P ->
  exists r, FSE_readNCount_body8 norm0 maxSV src = Ok r /\ nco_tableLog r = tl /\ nco_size r = (B + 7) / 8 /\
    nco_maxSV r = sE - 1 /\ 0 < sE <= n /\ counts_read norm (maxSV + 1) (zlen norm0) (nco_norm r) sE.
Proof.
  intros Htl Hn Hm Hn0 Hsrc Hlen Hem -> HB HW. apply wp_no_errors_Ok.
  pose proof (emits_widths _ _ _ _ _ Hem) as HwP. pose proof (stack_bits_nonneg P HwP) as HbP.
  pose proof (stack_val_range P HwP) as HvP.
  assert (32 <= 2 ^ tl <= 4096) as HN by (split; [apply (pow2_le 5)|apply (pow2_le tl 12)]; lia).
  assert (Z.log2 (2 ^ tl + 1) = tl) as Hlog by (apply Z.log2_unique; rewrite ?Z.pow_succ_r; lia).
  unfold FSE_readNCount_body8. rewrite (u32_small (maxSV + 1)) by lia. cbv zeta.
  rewrite memcpy_at_ok by (rewrite ?zlen_zfill; lia). cbn [bind].
  rewrite readLE32_spec by (first [done|lia]). cbn [bind].
  rewrite le_val_zsub by (first [done|lia]). change (2 ^ (8 * 0)) with 1. rewrite Z.div_1_r. change (8 * 4) with 32.
  set (W := le_val src) in *. set (b := W mod 2 ^ 32).
  assert (0 <= b < 2 ^ 32) as Hb by (apply Z.mod_pos_bound; lia).
  destruct (Z.div_mod_unique (2 ^ 4) ((W / 2 ^ 4) mod 2 ^ stack_bits P) (stack_val P) (W mod 2 ^ 4) (tl - 5)) as [HR Hlow].
  { left. apply Z.mod_pos_bound. lia. }
  { left. lia. }
  { pose proof (pow2_pos (stack_bits P) HbP). pose proof (Z.rem_mul_r W (2 ^ 4) (2 ^ stack_bits P) ltac:(lia) ltac:(lia)) as E.
    rewrite <- pow2_add, HW in E by lia. lia. }
  assert (b mod 2 ^ 4 = tl - 5) as Hb4.
  { rewrite <- Hlow. apply (mod_pow2_weaken b W 4 32); [lia|]. unfold b. by apply Z.mod_mod. }
  change 0xF with (2 ^ 4 - 1). rewrite land_mask, Hb4 by lia. change FSE_MIN_TABLELOG with 5.
  change FSE_TABLELOG_ABSOLUTE_MAX with 15. wp_step; [lia|]. replace (tl - 5 + 5) with tl by lia. rewrite Z.shiftl_1_l.
  set (norm1 := zpatch norm0 0 (zfill (maxSV + 1) 0)).
  wp_step. eapply wp_mono; [apply (follow_ok norm n tl src (maxSV + 1) (zlen norm0) sE (4 + stack_bits P)) with (R := P)| |done]; try done; try lia.
  - cbn [nc_previous0]. exists 4. cbn [nc_charnum nc_remaining nc_ip nc_bitCount nc_bitStream nc_threshold nc_nbBits nc_norm].
    split; [done|]. split; [unfold rpos; lia|]. split.
    { rewrite Z.shiftr_div_pow2 by lia. split; [split; [apply Z.div_pos; lia|apply Z.div_lt_upper_bound; lia]|].
      fold W. unfold b. replace 32 with (4 + 28) by lia. rewrite pow2_add by lia.
      rewrite Z.rem_mul_r, (Z.mul_comm (2 ^ 4)), Z.div_add, (Z.div_small (W mod 2 ^ 4)), Z.add_0_l by
        (lia || (apply Z.mod_pos_bound; lia)).
      apply (mod_pow2_weaken _ _ 25 28); [lia|]. by apply Z.mod_mod. }
    split; [exact HR|]. split; [done|]. split; [unfold nc_thr; by rewrite Hlog|]. split; [by rewrite Hlog|].
    split; [lia|]. split; [done|]. split_and!.
    + apply zlen_zpatch; rewrite ?zlen_zfill; lia.
    + intros; lia.
    + intros i Hi. unfold norm1. rewrite zat_zpatch by (rewrite ?zlen_zfill; lia). rewrite zlen_zfill by lia.
      rewrite (proj2 (Z.leb_le _ _)), (proj2 (Z.ltb_lt _ _)) by lia. cbn [andb]. apply zat_zfill. lia.
  - intros v (Hr1 & Hch & HvB & Hip & Hbc & HsE & Hcr). wp_step; [bools; lia|]. wp_step; [lia|]. wp_step; [lia|]. wp_step.
    cbn [nco_tableLog nco_size nco_maxSV nco_norm]. rewrite Z.shiftr_div_pow2, u32_small by lia. change (2 ^ 3) with 8.
    split_and!; done || zdm || lia.
Qed.

Lemma le_val_zfill n : le_val (zfill n 0) = 0.
Proof.
  unfold zfill. induction (Z.to_nat n) as [|m IH]; [done|]. cbn [replicate].
  change (le_val (0 :: replicate m 0)) with (0 + 256 * le_val (replicate m 0)). by rewrite IH.
Qed.

(** A short header is read from a copy padded with zeros. *)
Lemma readNCount_reads norm n tl src maxSV norm0 P sE sz :
  5 <= tl <= 12 -> 1 <= n <= maxSV + 1 -> maxSV <= 255 -> maxSV < zlen norm0 -> bytes_ok src ->
  nc_emits norm n (0, 2 ^ tl + 1, false) P (sE, 1, false) ->
  sz = (4 + stack_bits P + 7) / 8 -> sz <= zlen src ->
  le_val src mod 2 ^ (4 + stack_bits P) = tl - 5 + 16 * stack_val P ->
  exists r, FSE_readNCount norm0 maxSV src = Ok r /\ nco_tableLog r = tl /\ nco_size r = sz /\
    nco_maxSV r = sE - 1 /\ 0 < sE <= n /\ counts_read norm (maxSV + 1) (zlen norm0) (nco_norm r) sE.
Proof.
  intros Htl Hn Hm Hn0 Hsrc Hem -> Hsz HW. unfold FSE_readNCount.
  pose proof (stack_bits_nonneg P (emits_widths _ _ _ _ _ Hem)) as HbP.
  destruct (Z.ltb_spec (zlen src) 8).
  - rewrite memcpy_at_ok by (rewrite ?zlen_zfill; lia). cbn [bind].
    assert (zpatch (zfill 8 0) 0 src = src ++ zfill (8 - zlen src) 0) as ->.
    { unfold zpatch, zfill, zlen in *. rewrite take_0, drop_replicate. cbn [app]. do 2 f_equal. lia. }
    assert (bytes_ok (src ++ zfill (8 - zlen src) 0)) as Hb8.
    { apply bytes_ok_app; [done|]. apply Forall_replicate. unfold is_byte. lia. }
    destruct (body8_reads norm n tl (src ++ zfill (8 - zlen src) 0) maxSV norm0 P sE (4 + stack_bits P))
      as (r & -> & Ht & Hs & Hrest); try done.
    + rewrite zlen_app, zlen_zfill by lia. lia.
    + rewrite zlen_app, zlen_zfill by lia. zdm.
    + by rewrite le_val_app, le_val_zfill, Z.mul_0_r, Z.add_0_r.
    + cbn [bind]. unfold RETURN_ERROR_IF. rewrite Hs, Z.gtb_ltb, (proj2 (Z.ltb_ge _ _)) by lia. by exists r.
  - apply (body8_reads norm n tl src maxSV norm0 P sE); try done; try lia. zdm.
Qed.

(** At the end of the fields the counts make up the table. *)
Lemma emits_cum norm n st R st' :
  nc_emits norm n st R st' -> n <= zlen norm -> cum norm st'.1.1 + st'.1.2 = cum norm st.1.1 + st.1.2.
Proof.
  intros H Hn. induction H as [|st f st1 fs st2 Hst _ IH]; [done|]. rewrite IH. destruct Hst; cbn [fst snd].
  - rewrite cum_S by lia. lia.
  - rewrite (cum_zeros norm s (s + k)) by (done || lia). lia.
Qed.
Lemma emits_last norm n st R s p0 :
  nc_emits norm n st R (s, 1, p0) -> st = (s, 1, p0) \/ p0 = false.
Proof.
  intros H. remember (s, 1, p0) as st'. induction H as [|st f st1 fs st2 Hst _ IH]; [by left|]. right. subst.
  destruct (IH eq_refl) as [->|]; [|done]. inversion Hst as [s1 rem Hs Hr Hc Ha E1 E2|]; [|done].
  destruct (Z.eqb_spec (zat norm s1) 0); [lia|done].
Qed.
Lemma emits_end norm n tl P s p0 :
  norm_ok norm n tl -> nc_emits norm n (0, 2 ^ tl + 1, false) P (s, 1, p0) -> 5 <= tl ->
  p0 = false /\ cum norm s = 2 ^ tl.
Proof.
  intros Hok Hem Htl. pose proof (nok_max _ _ _ Hok). pose proof (pow2_le 5 tl).
  pose proof (emits_cum _ _ _ _ _ Hem ltac:(lia)) as E. cbn [fst snd] in E. rewrite cum_0 in E. split; [|lia].
  destruct (emits_last _ _ _ _ _ _ Hem) as [E1|?]; [|done]. by injection E1.
Qed.
Lemma cum_full norm s i n :
  0 <= s <= i -> i < n <= zlen norm -> cum norm n = cum norm s -> zat norm i = 0.
Proof.
  intros Hs Hn E. pose proof (cum_mono norm s i ltac:(lia) ltac:(lia)). pose proof (cum_mono norm (i + 1) n ltac:(lia) ltac:(lia)).
  rewrite cum_S in * by lia. lia.
Qed.

(** ** Properties *)

(** What [norm0] becomes when the header of [norm] is read into it, with room for
    the symbols up to [maxSV']. *)
Definition reads_back (norm norm0 : list Z) (maxSV maxSV' tl sz : Z) (r : NCount) : Prop :=
  nco_tableLog r = tl /\ nco_size r = sz /\ 0 <= nco_maxSV r <= maxSV /\ zlen (nco_norm r) = zlen norm0 /\
  (forall i, 0 <= i <= maxSV' -> zat (nco_norm r) i = if i <=? maxSV then zat norm i else 0) /\
  (forall i, nco_maxSV r < i <= maxSV -> zat norm i = 0).

Lemma ncount_reads_back buf norm maxSV tl :
  norm_ok norm (maxSV + 1) tl -> tl <= 12 -> 0 <= maxSV <= 255 -> bytes_ok buf ->
  (FSE_NCountWriteBound maxSV tl <= zlen buf -> ((maxSV + 1) * (tl + 3) + 4) / 8 + 3 <= zlen buf) ->
  wp (FSE_writeNCount buf norm maxSV tl)
    (fun '(h, sz) => zlen h = zlen buf /\ bytes_ok h /\ 0 < sz <= Z.min (zlen buf) (((maxSV + 1) * (tl + 3) + 4) / 8 + 1) /\
       forall rest norm0 maxSV', bytes_ok rest -> maxSV <= maxSV' <= 255 -> maxSV' < zlen norm0 ->
         exists r, FSE_readNCount norm0 maxSV' (zsub h 0 sz ++ rest) = Ok r /\
           reads_back norm norm0 maxSV maxSV' tl sz r)
    (fun e => e = dstSize_tooSmall /\ zlen buf < FSE_NCountWriteBound maxSV tl).
Proof.
  intros Hok Htl Hm Hbuf Hroom. pose proof (nok_tl _ _ _ Hok) as Htl5. pose proof (zlen_nonneg buf) as Hl0.
  unfold FSE_writeNCount. change FSE_MIN_TABLELOG with 5. change FSE_MAX_TABLELOG with 12.
  wp_step; [lia|]. wp_step; [lia|].
  assert (forall safe, safe = false /\ zlen buf < FSE_NCountWriteBound maxSV tl \/ safe = true /\ ((maxSV + 1) * (tl + 3) + 4) / 8 + 3 <= zlen buf ->
    wp (FSE_writeNCount_generic buf (zlen buf) norm maxSV tl safe)
      (fun '(h, sz) => zlen h = zlen buf /\ ncount_header norm (maxSV + 1) tl h sz)
      (fun e => e = dstSize_tooSmall /\ zlen buf < FSE_NCountWriteBound maxSV tl)) as Hgen.
  { intros safe Hs. replace maxSV with (maxSV + 1 - 1) at 1 by lia.
    eapply wp_mono; [apply (generic_writes norm (maxSV + 1) tl (zlen buf) safe Hok); try done; try lia| |].
    - intros ->. by destruct Hs as [[? _]|[_ ?]].
    - done.
    - intros e [-> ->]. destruct Hs as [[_ ?]|[? _]]; done. }
  eapply wp_mono with (Q := fun '(h, sz) => zlen h = zlen buf /\ ncount_header norm (maxSV + 1) tl h sz)
    (E := fun e => e = dstSize_tooSmall /\ zlen buf < FSE_NCountWriteBound maxSV tl); [| |done].
  { wp_step; apply Hgen; [lia|]. right. split; [done|]. apply Hroom. lia. }
  intros [h sz] (Hlh & P & sE & p0 & Hem & Esz & Hsz & Hbh & Hval). split; [done|]. split; [done|]. split; [lia|].
  intros rest norm0 maxSV' Hrest Hm' Hn0.
  assert (p0 = false /\ cum norm sE = 2 ^ tl) as [-> Hcum] by (eapply emits_end; [exact Hok|exact Hem|lia]).
  pose proof (stack_bits_nonneg P (emits_widths _ _ _ _ _ Hem)) as HbP.
  pose proof (stack_val_range P (emits_widths _ _ _ _ _ Hem)) as HvP.
  pose proof (zlen_nonneg rest). assert (zlen (zsub h 0 sz) = sz) as Hlz by (apply zlen_zsub; lia).
  destruct (readNCount_reads norm (maxSV + 1) tl (zsub h 0 sz ++ rest) maxSV' norm0 P sE sz)
    as (r & E & Ht & Hsr & HmS & HsE & Hl & Hread & Hzero); try done; try lia; auto with zlist.
  - rewrite zlen_app. lia.
  - rewrite le_val_app, Hlz, Hval.
    assert (2 ^ (8 * sz) = 2 ^ (4 + stack_bits P) * 2 ^ (8 * sz - (4 + stack_bits P))) as -> by (rewrite <- pow2_add by zdm; f_equal; lia).
    rewrite <- Z.mul_assoc, (Z.mul_comm (2 ^ (4 + stack_bits P))), Z.mod_add by (pose proof (pow2_pos (4 + stack_bits P)); lia).
    apply Z.mod_small. rewrite pow2_add by lia. lia.
  - exists r. split; [done|]. split; [done|]. split; [done|]. split; [lia|]. split; [done|].
    assert (forall i, sE <= i <= maxSV -> zat norm i = 0) as Hz.
    { intros i Hi. pose proof (nok_max _ _ _ Hok). eapply (cum_full norm sE i (maxSV + 1)); [lia|lia|]. by rewrite (nok_sum _ _ _ Hok). }
    split; [|intros i Hi; apply Hz; lia]. intros i Hi. destruct (Z.leb_spec i maxSV); [|apply Hzero; lia].
    destruct (Z.ltb_spec i sE); [apply Hread; lia|]. rewrite Hzero, Hz by lia. done.
Qed.

(** C21: the header of a table is read back. For every normalised distribution, in
    a buffer too small for the bound on the size (and then the end is tested) or
    of at least [FSE_NCOUNTBOUND] bytes, the writer either succeeds or, in the
    first case only, reports that the buffer is too small; and the reader, in front
    of any bytes, gives back the size of the table, the size of the header and the
    counts, with zeros for the symbols that are not described. *)
Theorem FSE_ncount_roundtrip buf norm maxSV tl :
  norm_ok norm (maxSV + 1) tl -> tl <= 12 -> 0 <= maxSV <= 255 -> bytes_ok buf ->
  zlen buf < FSE_NCountWriteBound maxSV tl \/ FSE_NCOUNTBOUND <= zlen buf ->
  wp (FSE_writeNCount buf norm maxSV tl)
    (fun '(h, sz) => zlen h = zlen buf /\ bytes_ok h /\ 0 < sz <= zlen buf /\
       forall rest norm0 maxSV', bytes_ok rest -> maxSV <= maxSV' <= 255 -> maxSV' < zlen norm0 ->
         exists r, FSE_readNCount norm0 maxSV' (zsub h 0 sz ++ rest) = Ok r /\
           reads_back norm norm0 maxSV maxSV' tl sz r)
    (fun e => e = dstSize_tooSmall /\ zlen buf < FSE_NCountWriteBound maxSV tl).
Proof.
  intros Hok Htl Hm Hbuf Hroom. pose proof (nok_tl _ _ _ Hok).
  eapply wp_mono; [apply ncount_reads_back; try done| |done].
  2: { intros [h sz] (? & ? & ? & ?). split_and!; try done; lia. }
  intros Hle. destruct Hroom as [?|Hr]; [lia|]. change FSE_NCOUNTBOUND with 512 in Hr.
  assert ((maxSV + 1) * (tl + 3) <= 256 * 15) by (apply Z.mul_le_mono_nonneg; lia). zdm.
Qed.

Lemma FSE_ncount_roundtrip_witness :
  norm_ok [7; 12; -1; 40; 0; 4] 6 6 /\
  wp (FSE_writeNCount (zfill 512 0) [7; 12; -1; 40; 0; 4] 5 6)
    (fun '(h, sz) => zlen h = 512 /\ bytes_ok h /\ 0 < sz <= 512 /\
       forall rest norm0 maxSV', bytes_ok rest -> 5 <= maxSV' <= 255 -> maxSV' < zlen norm0 ->
         exists r, FSE_readNCount norm0 maxSV' (zsub h 0 sz ++ rest) = Ok r /\
           reads_back [7; 12; -1; 40; 0; 4] norm0 5 maxSV' 6 sz r)
    (fun e => e = dstSize_tooSmall /\ 512 < FSE_NCountWriteBound 5 6).
Proof.
  assert (norm_ok [7; 12; -1; 40; 0; 4] 6 6) as Hok.
  { split; [lia|vm_compute; split; congruence|lia| |vm_compute; reflexivity].
    intros s Hs. apply (zat_Forall (fun x => -1 <= x) [7; 12; -1; 40; 0; 4]); [repeat constructor; lia|exact Hs]. }
  split; [exact Hok|].
  apply (FSE_ncount_roundtrip (zfill 512 0) [7; 12; -1; 40; 0; 4] 5 6 Hok); [lia|lia|bytes_dec|].
  right. vm_compute. congruence.
Defined.

(** A distribution of 40 symbols over 64 states. *)
Definition wide_norm : list Z :=
  [0; 1; 0; 1; 0; 1; 0; 1; 0; 1; 0; 2; 0; 4; 0; 8; 0; 1; 0; 1; 0; 1; 0; 1; 0; 1; 0; 1; 0; 1; 0; 1; 0; 1; 0; 1; 0; 1; 0; 34].

(** The bound on the size of a header is one byte short of what the writer
    touches. In a buffer of exactly [FSE_NCountWriteBound] bytes the end is not
    tested, and for this distribution the last flush writes past the end; in the
    same situation with one byte less, where the end is tested, the writer reports
    [dstSize_tooSmall], and with one byte more it succeeds. *)
Theorem FSE_NCountWriteBound_short :
  norm_ok wide_norm 40 6 /\
  FSE_writeNCount (zfill (FSE_NCountWriteBound 39 6) 0) wide_norm 39 6 = Stuck /\
  FSE_writeNCount (zfill (FSE_NCountWriteBound 39 6 - 1) 0) wide_norm 39 6 = Err dstSize_tooSmall /\
  exists h, FSE_writeNCount (zfill (FSE_NCountWriteBound 39 6 + 1) 0) wide_norm 39 6
            = Ok (h, FSE_NCountWriteBound 39 6).
Proof.
  split.
  - split; [lia|vm_compute; split; congruence|lia| |vm_compute; reflexivity].
    intros s Hs. apply (zat_Forall (fun x => -1 <= x) wide_norm); [unfold wide_norm; repeat constructor; lia|exact Hs].
  - split; [vm_compute; reflexivity|]. split; [vm_compute; reflexivity|]. eexists. vm_compute. reflexivity.
Qed.
