(* ===== verification/HufWeights.v ===== *)
(** Compressing the weights of a Huffman tree (compress/huf_compress.c,
    [HUF_compressWeights]): the histogram, the normalisation, the header, the
    encoding table and the encoding loop, one after the other; and the decoder of
    common/fse_decompress.c on what they give. *)

From S2P Require Import Prelude Errors Outcome Bits Mem BitStream FseTable FseSpread FseSymbols FseBuild FseBuildC FseCodec FseStream FseSafe FseEncode FseRoundtrip FseNCount HufStats Hist FseNormalize FseWriteNCount FseNCountRoundtrip.

(** ** Definitions *)

Definition FSE_CTABLE_SIZE_U32 (maxTableLog maxSymbolValue : Z) : Z :=
  1 + Z.shiftl 1 (maxTableLog - 1) + (maxSymbolValue + 1) * 2.
Definition MAX_FSE_TABLELOG_FOR_HUFF_HEADER : Z := 6.

(** The part of a workspace from the first aligned address on; none when it is
    too small for the alignment. *)
Definition HUF_alignUpWorkspace (workspace workspaceSize align : Z) : option Z * Z :=
  let mask := align - 1 in
  let rem := workspace .& mask in
  let add := u64 (align - rem) .& mask in
  let aligned := workspace + add in
  if workspaceSize >=? add then (Some aligned, workspaceSize - add) else (None, 0).

(** The workspace of [HUF_compressWeights]: its address and size, and what its
    memory holds where the encoding table, the arrays of its builder, the
    histogram and the normalised counts are put. *)
Record HUF_CompressWeightsWksp := mkCWWksp {
  cw_addr : Z;
  cw_size : Z;
  cw_stateTable : list Z;
  cw_symbolTT : list FSE_symbolCompressionTransform;
  cw_cumul : list Z;
  cw_tableSymbol : list Z;
  cw_spread : list Z;
  cw_count : list Z;
  cw_norm : list Z;
}.

(** [sizeof(scratchBuffer)] and [sizeof(HUF_CompressWeightsWksp)]. *)
Definition HUF_scratchBuffer_size : Z :=
  FSE_BUILD_CTABLE_WORKSPACE_SIZE HUF_TABLELOG_MAX MAX_FSE_TABLELOG_FOR_HUFF_HEADER.
Definition HUF_CompressWeightsWksp_size : Z :=
  4 * ((4 * FSE_CTABLE_SIZE_U32 MAX_FSE_TABLELOG_FOR_HUFF_HEADER HUF_TABLELOG_MAX
        + HUF_scratchBuffer_size + 4 * (HUF_TABLELOG_MAX + 1) + 2 * (HUF_TABLELOG_MAX + 1) + 3) / 4).

(** The destination after the call, and the size of the compressed weights: 0
    when they do not compress, 1 when they are all the same. *)
Definition HUF_compressWeights (dst weightTable : list Z) (wksp : HUF_CompressWeightsWksp)
  : result (list Z * Z) :=
  let dstSize := zlen dst in
  let wtSize := zlen weightTable in
  let '(_, workspaceSize) := HUF_alignUpWorkspace (cw_addr wksp) (cw_size wksp) 4 in
  ERROR_IF workspaceSize <? HUF_CompressWeightsWksp_size THEN GENERIC ;;
  if wtSize <=? 1 then Ok (dst, 0)
  else
    (* Scan input and build symbol stats *)
    let* h := HIST_count_simple (cw_count wksp) HUF_TABLELOG_MAX weightTable in
    let maxSymbolValue := h_maxSymbolValue h in
    let maxCount := h_largest h in
    if maxCount =? wtSize then Ok (dst, 1)
    else if maxCount =? 1 then Ok (dst, 0)
    else
      let* tableLog := FSE_optimalTableLog MAX_FSE_TABLELOG_FOR_HUFF_HEADER wtSize maxSymbolValue in
      let* '(norm, _) :=
        FSE_normalizeCount (cw_norm wksp) tableLog (h_count h) wtSize maxSymbolValue false in
      (* Write table description header *)
      let* '(dst, hSize) := FSE_writeNCount dst norm maxSymbolValue tableLog in
      let op := hSize in
      (* Compress *)
      let tableSize := 2 ^ tableLog in
      let* ct := FSE_buildCTable_wksp (zsub (cw_stateTable wksp) 0 tableSize)
        (zsub (cw_symbolTT wksp) 0 (maxSymbolValue + 1)) norm maxSymbolValue tableLog
        (zsub (cw_cumul wksp) 0 (maxSymbolValue + 2)) (zsub (cw_tableSymbol wksp) 0 tableSize)
        (zsub (cw_spread wksp) 0 (tableSize + 8)) HUF_scratchBuffer_size in
      let* '(out, cSize) := FSE_compress_usingCTable (zsub dst op (dstSize - op)) weightTable ct in
      let dst := zpatch dst op out in
      if cSize =? 0 then Ok (dst, 0) else Ok (dst, op + cSize).

(** ** Lemmas *)

(** *** The tables depend on the counts of the alphabet only *)

Lemma filter_ext_in {A} (P Q : A -> Prop) `{!forall x, Decision (P x)} `{!forall x, Decision (Q x)} l :
  Forall (fun x => P x <-> Q x) l -> filter P l = filter Q l.
Proof.
  induction 1 as [|x l Hx _ IH]; [done|]. destruct (decide (P x)).
  - rewrite !filter_cons_True by tauto. by rewrite IH.
  - rewrite !filter_cons_False by tauto. done.
Qed.

Section ext.
Context (norm norm' : list Z) (n tl : Z).
Hypothesis Hok : norm_ok norm n tl.
Hypothesis Hn : n <= zlen norm'.
Hypothesis Heq : forall i, 0 <= i < n -> zat norm i = zat norm' i.

Lemma take_norm_ext : take (Z.to_nat n) norm = take (Z.to_nat n) norm'.
Proof.
  pose proof (nok_max _ _ _ Hok). apply zat_ext; unfold zlen; rewrite !length_take; unfold zlen in *; [lia|].
  intros i Hi. unfold zat. rewrite !lookup_total_take_lt by lia. rewrite <- (Nat2Z.id (Z.to_nat i)). apply Heq. lia.
Qed.

Lemma norm_ok_ext : norm_ok norm' n tl.
Proof.
  destruct Hok as [H1 H2 H3 H4 H5]. split; try done; [lia| |].
  - intros s Hs. rewrite <- Heq by done. by apply H4.
  - unfold cum in *. by rewrite <- take_norm_ext.
Qed.

Lemma state_symbols_ext : state_symbols norm n tl = state_symbols norm' n tl.
Proof.
  unfold state_symbols. assert (lows norm n = lows norm' n) as ->.
  { unfold lows. apply filter_ext_in, Forall_forall. intros i Hi. apply elem_of_seqZ in Hi. by rewrite Heq by lia. }
  unfold syms_upto. by rewrite take_norm_ext.
Qed.

Lemma dtable_of_ext : dtable_of norm n tl = dtable_of norm' n tl.
Proof.
  unfold dtable_of. f_equal.
  - f_equal. unfold no_large. apply eq_true_iff_eq. rewrite !forallb_forall.
    split; intros H i Hi; specialize (H i Hi); apply list_elem_of_In, elem_of_seqZ in Hi; rewrite <- H; f_equal; [symmetry|]; apply Heq; lia.
  - apply map_ext_in. intros u Hu. apply list_elem_of_In, elem_of_seqZ in Hu. unfold dentry, rank. rewrite <- state_symbols_ext.
    rewrite <- Heq by (apply (state_symbol_range norm n tl Hok); lia). done.
Qed.

End ext.

(** *** What is written is decoded *)

Lemma zsub_app_r {A} (l k : list A) : zsub (l ++ k) (zlen l) (zlen k) = k.
Proof. unfold zsub, zlen. rewrite !Nat2Z.id, drop_app_length. apply firstn_all. Qed.

(** The bytes [bs] decode to the symbols [src]. *)
Definition fse_decodes (src bs : list Z) : Prop :=
  forall out w, zlen src <= zlen out -> bytes_ok out -> wksp_ok w ->
  HUF_READ_STATS_WORKSPACE_SIZE <= wk_size w ->
  exists out', FSE_decompress_wksp out bs 6 w = Ok (out', zlen src) /\
    zlen out' = zlen out /\ bytes_ok out' /\ take (length src) out' = src.

(** The workspace is enough for the tables of 32 states, even though it is sized
    for weights up to 11. *)
Lemma wksp_size_5 maxSV : 0 <= maxSV <= 12 -> FSE_DECOMPRESS_WKSP_SIZE 5 maxSV <= HUF_READ_STATS_WORKSPACE_SIZE.
Proof.
  intros Hm. apply Z.leb_le. apply (forallb_range (fun m => FSE_DECOMPRESS_WKSP_SIZE 5 m <=? HUF_READ_STATS_WORKSPACE_SIZE) 0 13); [|lia].
  vm_compute. reflexivity.
Qed.

Lemma wksp_size_room tl maxSV wk :
  5 <= tl -> 0 <= maxSV -> FSE_DECOMPRESS_WKSP_SIZE tl maxSV <= wk ->
  FSE_DecompressWksp_size <= wk /\
  FSE_BUILD_DTABLE_WKSP_SIZE tl maxSV <= wk - (FSE_DecompressWksp_size + FSE_DTABLE_SIZE tl).
Proof.
  intros Ht Hm. unfold FSE_DECOMPRESS_WKSP_SIZE, FSE_DECOMPRESS_WKSP_SIZE_U32, FSE_DTABLE_SIZE, FSE_DTABLE_SIZE_U32,
    FSE_BUILD_DTABLE_WKSP_SIZE_U32, FSE_DecompressWksp_size. change FSE_MAX_SYMBOL_VALUE with 255. rewrite Z.shiftl_1_l.
  change ((255 + 1) / 2) with 128. pose proof (pow2_pos tl ltac:(lia)). set (B := FSE_BUILD_DTABLE_WKSP_SIZE tl maxSV).
  assert (0 <= B) by (unfold B, FSE_BUILD_DTABLE_WKSP_SIZE; lia).
  assert (B <= 4 * ((B + 4 - 1) / 4)) by zdm. lia.
Qed.

Section decodes.
Context (norm : list Z) (maxSV tl : Z) (src : list Z) (ct : FSE_CTable).
Hypothesis Hok : norm_ok norm (maxSV + 1) tl.
Hypothesis Htl : tl = 5.
Hypothesis Hm : 0 <= maxSV <= 12.
Hypothesis Hlast : zat norm maxSV <> 0.
Hypothesis Hfull : forall s, 0 <= s < maxSV + 1 -> zat norm s < 2 ^ tl.
Hypothesis Hsrc : codable norm (maxSV + 1) src.
Hypothesis Hlen : 2 < zlen src.
Hypothesis Hct : ctable_ok norm (maxSV + 1) tl ct.

Lemma decodes (H W8 : list Z) :
  bytes_ok H -> bytes_ok W8 -> 0 < zlen W8 -> zlen H + zlen W8 < 2 ^ 26 ->
  (forall norm0, 255 < zlen norm0 -> exists r, FSE_readNCount norm0 255 (H ++ W8) = Ok r /\
     reads_back norm norm0 maxSV 255 tl (zlen H) r) ->
  le_val W8 = (final_bits norm tl ct src).1 + 2 ^ (final_bits norm tl ct src).2 ->
  8 * (zlen W8 - 1) <= (final_bits norm tl ct src).2 < 8 * zlen W8 ->
  fse_decodes src (H ++ W8).
Proof.
  intros HbH HbW HW0 Hsz Hread HvW HsW out w Hout Hbo Hwk Hsize.
  pose proof (decompress_wksp_ok out (H ++ W8) 6 w) as Hsafe.
  specialize (Hsafe ltac:(by apply bytes_ok_app) ltac:(rewrite zlen_app; lia) Hbo Hwk).
  destruct Hwk as (Hw1 & Hw2 & Hw3 & Hw4). pose proof (tl_range _ _ _ Hok) as Htl5.
  destruct (Hread (wk_ncount w) ltac:(lia)) as (r & Er & Ertl & Ersz & Erm & Erl & Erz & Er0).
  assert (nco_maxSV r = maxSV) as Em.
  { destruct (Z.eq_dec (nco_maxSV r) maxSV); [done|]. exfalso. apply Hlast, Er0. lia. }
  assert (forall i, 0 <= i < maxSV + 1 -> zat norm i = zat (nco_norm r) i) as Hz.
  { intros i Hi. rewrite Erz by lia. by rewrite (proj2 (Z.leb_le i maxSV)) by lia. }
  assert (maxSV + 1 <= zlen (nco_norm r)) as Hln by lia.
  pose proof (norm_ok_ext norm (nco_norm r) (maxSV + 1) tl Hok Hln Hz) as Hok'.
  pose proof (wksp_size_5 maxSV Hm) as Hmono. rewrite <- Htl in Hmono.
  assert (2 ^ 5 <= 2 ^ tl <= 2 ^ 6) as HT by (split; apply pow2_le; lia).
  assert (FSE_decompress_wksp out (H ++ W8) 6 w
    = FSE_decompress_usingDTable_generic out W8 (dtable_of norm (maxSV + 1) tl)
        (negb (dt_fastMode (dtable_of norm (maxSV + 1) tl) =? 0))) as E.
  { unfold FSE_decompress_wksp, RETURN_ERROR_IF. change FSE_MAX_SYMBOL_VALUE with 255. rewrite Er. cbn [bind].
    rewrite Ertl, Em, Ersz.
    destruct (wksp_size_room tl maxSV (wk_size w)) as [R1 R2]; [lia..|].
    rewrite (proj2 (Z.ltb_ge _ _)) by exact R1. rewrite Z.gtb_ltb, (proj2 (Z.ltb_ge 6 tl)) by lia.
    rewrite Z.gtb_ltb, (proj2 (Z.ltb_ge (wk_size w) _)) by lia. rewrite zlen_app.
    replace (zlen H + zlen W8 - zlen H) with (zlen W8) by lia. rewrite zsub_app_r.
    pose proof (buildDTable_ok (nco_norm r) (maxSV + 1) tl Hok') as Hb. replace (maxSV + 1 - 1) with maxSV in Hb by lia.
    rewrite Hb by (rewrite ?zlen_zsub; lia).
    cbn [bind]. by rewrite (dtable_of_ext norm (nco_norm r) (maxSV + 1) tl Hok Hln Hz). }
  rewrite E in Hsafe |- *.
  destruct (wp_no_errors_Ok _ _ (decompress_ok norm (maxSV + 1) tl ct
    (negb (dt_fastMode (dtable_of norm (maxSV + 1) tl) =? 0)) src W8 (zlen out)
    Hok Hct ltac:(lia) ltac:(unfold dtable_of; cbn [dt_fastMode]; by destruct (no_large _ _ _))
    Hfull Hsrc Hlen HbW ltac:(pose proof (zlen_nonneg H); lia) Hout out eq_refl HvW HsW)) as ([out' k] & Ed & -> & Hres).
  exists out'. rewrite Ed in Hsafe |- *. destruct Hsafe as (? & _ & ?). by split_and!.
Qed.

End decodes.

(** *** The compressor of weights *)

Lemma zlen_cons {A} (x : A) l : zlen (x :: l) = 1 + zlen l.
Proof. unfold zlen. cbn [length]. lia. Qed.

(** Aligning a workspace on four bytes. *)
Lemma align4_spec a size :
  0 < (HUF_alignUpWorkspace a size 4).2 ->
  exists al, HUF_alignUpWorkspace a size 4 = (Some al, (HUF_alignUpWorkspace a size 4).2) /\ al mod 4 = 0 /\
    0 <= al - a < 4 /\ (HUF_alignUpWorkspace a size 4).2 = size - (al - a).
Proof.
  unfold HUF_alignUpWorkspace. change (4 - 1) with (2 ^ 2 - 1). rewrite !land_mask by lia. change (2 ^ 2) with 4.
  pose proof (Z.mod_pos_bound a 4 ltac:(lia)) as Ha. rewrite u64_small by lia. set (add := (4 - a mod 4) mod 4).
  destruct (size >=? add); cbn [fst snd]; [|lia]. intros _. exists (a + add). split; [done|].
  assert ((a + add) mod 4 = 0 /\ 0 <= add < 4) as [? ?] by (unfold add; zdm). split; [done|]. lia.
Qed.

Lemma align4_id a size : a mod 4 = 0 -> 0 <= size -> HUF_alignUpWorkspace a size 4 = (Some a, size).
Proof.
  intros Ha Hs. unfold HUF_alignUpWorkspace. change (4 - 1) with (2 ^ 2 - 1). rewrite !land_mask by lia. change (2 ^ 2) with 4.
  rewrite Ha. change (u64 (4 - 0) mod 4) with 0. rewrite Z.geb_leb, (proj2 (Z.leb_le 0 size)) by lia. f_equal; [f_equal|]; lia.
Qed.

(** The arrays of the workspace are large enough. *)
Definition cww_arrays (w : HUF_CompressWeightsWksp) : Prop :=
  64 <= zlen (cw_stateTable w) /\ 13 <= zlen (cw_symbolTT w) /\ 14 <= zlen (cw_cumul w) /\
  64 <= zlen (cw_tableSymbol w) /\ 72 <= zlen (cw_spread w) /\
  13 <= zlen (cw_count w) /\ 13 <= zlen (cw_norm w).
(** A workspace of the size it claims. *)
Definition cww_ok (w : HUF_CompressWeightsWksp) : Prop :=
  HUF_CompressWeightsWksp_size <= (HUF_alignUpWorkspace (cw_addr w) (cw_size w) 4).2 /\ cww_arrays w.

Lemma optimalTableLog_weights srcSize maxSV :
  1 < srcSize < 2 ^ 32 -> 0 < maxSV <= 12 ->
  exists tl, FSE_optimalTableLog MAX_FSE_TABLELOG_FOR_HUFF_HEADER srcSize maxSV = Ok tl /\ 5 <= tl <= 6 /\
    (5 <= srcSize <= 255 -> tl = 5) /\
    Z.min (Z.log2 srcSize + 1) (Z.log2 maxSV + 2) <= tl.
Proof.
  intros Hs Hm. unfold FSE_optimalTableLog, FSE_optimalTableLog_internal, defined_if.
  rewrite (u32_small (srcSize - 1)), (proj2 (Z.eqb_neq (srcSize - 1) 0)) by lia. cbn [negb].
  rewrite minTableLog_ok by lia. cbn [bind].
  assert (Z.log2 maxSV <= 3) by (apply (Z.log2_le_mono maxSV 12); lia).
  change MAX_FSE_TABLELOG_FOR_HUFF_HEADER with 6. change FSE_MIN_TABLELOG with 5. change FSE_MAX_TABLELOG with 12. cbn [Z.eqb].
  set (m := Z.min _ _). assert (m <= 5) as Hm5 by (unfold m; lia).
  eexists. split; [done|]. set (t2 := if _ <? 6 then _ else 6).
  assert (t2 <= 6) by (unfold t2; destruct (Z.ltb_spec (u32 (ZSTD_highbit32 (srcSize - 1) - 2)) 6); lia).
  set (t3 := if m >? t2 then m else t2).
  assert (m <= t3 <= 6) by (unfold t3; destruct (Z.gtb_spec m t2); lia).
  set (t4 := if t3 <? 5 then 5 else t3). assert (5 <= t4 <= 6 /\ m <= t4) by (unfold t4; destruct (Z.ltb_spec t3 5); lia).
  rewrite Z.gtb_ltb, (proj2 (Z.ltb_ge 12 t4)) by lia. split; [lia|]. split; [|lia]. intros Hsz.
  assert (t2 <= 5) as Ht2; [|unfold t4, t3; destruct (Z.gtb_spec m t2); [destruct (Z.ltb_spec m 5)|destruct (Z.ltb_spec t2 5)]; lia].
  unfold t2. rewrite highbit32_spec by lia.
  assert (2 <= Z.log2 (srcSize - 1) <= 7) by (split; [apply (Z.log2_le_mono 4)|apply (Z.log2_le_mono _ 254)]; lia).
  rewrite u32_small by lia. destruct (Z.ltb_spec (Z.log2 (srcSize - 1) - 2) 6); lia.
Qed.

(** The counts of a source make up a histogram of it. *)
Lemma zsumf_indicator x n : 0 <= x -> 0 <= n -> zsumf (fun s => b2z (x =? s)) n = b2z (x <? n).
Proof.
  intros Hx Hn. revert n Hn. apply natlike_ind.
  - rewrite zsumf_0. by rewrite (proj2 (Z.ltb_ge x 0)) by lia.
  - intros k Hk IH. rewrite <- Z.add_1_r, zsumf_S, IH by lia.
    destruct (Z.ltb_spec x k), (Z.eqb_spec x k), (Z.ltb_spec x (k + 1)); simpl b2z; lia.
Qed.

Lemma zsumf_occ src n : 0 <= n -> Forall (fun s => 0 <= s < n) src -> zsumf (fun s => occ s src) n = zlen src.
Proof.
  intros Hn HF. induction HF as [|x l Hx _ IH].
  - exact (zsumf_const 0 n Hn).
  - rewrite (zsumf_ext _ (fun s => b2z (x =? s) + occ s l)) by (first [lia|intros; apply occ_cons]).
    rewrite zsumf_add, zsumf_indicator, IH, (proj2 (Z.ltb_lt x n)) by lia. unfold zlen. simpl. lia.
Qed.

Lemma hist_of_histogram count0 top src :
  bytes_ok src -> 0 <= top < zlen count0 -> Forall (fun s => s <= top) src -> src <> [] ->
  histogram_ok (hist_of count0 top src) (last_of src) (zlen src).
Proof.
  intros Hb Ht HF Hne. destruct (last_of_range src Hb Hne) as [Hl Hocc].
  assert (last_of src <= top) as Hlt.
  { apply (proj1 (Forall_forall _ _) HF). by apply occ_pos. }
  split; [rewrite zlen_hist_of; lia|]. split.
  - intros i Hi. rewrite zat_hist_of, (proj2 (Z.leb_le i top)) by lia. apply occ_nonneg.
  - rewrite <- (zsumf_occ src (last_of src + 1)); [|lia|].
    + apply zsumf_ext; [lia|]. intros i Hi. rewrite zat_hist_of by lia. by rewrite (proj2 (Z.leb_le i top)) by lia.
    + apply Forall_forall. intros x Hx. pose proof (proj1 (Forall_forall _ _) Hb x Hx) as [? _].
      pose proof (fold_max_ge src x Hx). unfold last_of. lia.
Qed.

(** Weights that are all in range. *)
Definition weights_le (l : list Z) : Prop := Forall (fun w => 0 <= w <= HUF_TABLELOG_MAX) l.

Lemma weights_bytes l : weights_le l -> bytes_ok l.
Proof. intros HF. eapply Forall_impl; [exact HF|]. intros x Hx. cbn beta in Hx. change HUF_TABLELOG_MAX with 12 in Hx. unfold is_byte. lia. Qed.

(** A source that is neither made of one symbol nor of symbols that are all
    different. *)
Lemma largest_bounds src :
  bytes_ok src -> src <> [] -> largest_of src <> zlen src ->
  (forall s, 0 <= s < 256 -> occ s src < zlen src) /\ 1 <= largest_of src < zlen src /\ 1 <= last_of src.
Proof.
  intros Hb Hne Hl. destruct (last_of_range src Hb Hne) as [Hr Hocc].
  assert (forall s, 0 <= s < 256 -> occ s src <= largest_of src) as Hub.
  { intros s Hs. apply fold_max_ge. rewrite map_fmap. apply list_elem_of_fmap. exists s. split; [done|]. apply elem_of_seqZ. lia. }
  assert (largest_of src <= zlen src) as Hle.
  { destruct (fold_max_in (map (fun s => occ s src) (seqZ 0 256))) as [E|Hin]; fold (largest_of src) in *.
    - rewrite E. apply zlen_nonneg.
    - rewrite map_fmap in Hin. apply list_elem_of_fmap in Hin as (s & -> & _). apply occ_le_len. }
  pose proof (Hub (last_of src) Hr). split; [intros s Hs; specialize (Hub s Hs); lia|]. split; [lia|].
  destruct (Z.le_gt_cases 1 (last_of src)); [done|]. exfalso.
  assert (zsumf (fun s => occ s src) 1 = zlen src) as E.
  { apply zsumf_occ; [lia|]. apply Forall_forall. intros x Hx. pose proof (proj1 (Forall_forall _ _) Hb x Hx) as [? _].
    pose proof (fold_max_ge src x Hx). unfold last_of in *. lia. }
  change 1 with (0 + 1) in E. rewrite zsumf_S, zsumf_0 in E by lia. specialize (Hub 0 ltac:(lia)). lia.
Qed.

Lemma zsumf_ge_two f n s s' :
  0 <= s < n -> 0 <= s' < n -> s <> s' -> (forall i, 0 <= i < n -> 0 <= f i) -> f s + f s' <= zsumf f n.
Proof.
  assert (forall s s', 0 <= s < s' -> s' < n -> (forall i, 0 <= i < n -> 0 <= f i) -> f s + f s' <= zsumf f n) as Hlt.
  { clear s s'. intros a b Ha Hb Hf. pose proof (zsumf_mono f (b + 1) n ltac:(lia) Hf) as Hm. rewrite zsumf_S in Hm by lia.
    pose proof (zsumf_ge_one f b a ltac:(lia)) as Ho. specialize (Ho ltac:(intros; apply Hf; lia)). lia. }
  intros Hs Hs' Hne Hf. destruct (Z.lt_ge_cases s s'); [by apply Hlt; try lia|].
  rewrite Z.add_comm. apply Hlt; done || lia.
Qed.

Lemma occ_other s l : occ s l < zlen l -> exists t, t ∈ l /\ t <> s.
Proof.
  induction l as [|x l IH]; [by rewrite occ_nil|]. rewrite occ_cons, zlen_cons. cbn [b2z]. destruct (Z.eqb_spec x s) as [->|]; intros H.
  - destruct IH as (t & Ht & Hne); [cbn [b2z] in H; lia|]. exists t. split; [by constructor|done].
  - exists x. split; [constructor|done].
Qed.

(** Normalised counts code the source that they come from. *)
Lemma normalized_codes norm maxSV tl src :
  norm_ok norm (maxSV + 1) tl -> 0 <= maxSV -> Forall (fun s => 0 <= s <= maxSV) src ->
  (forall s, 0 <= s <= maxSV -> occ s src < zlen src) ->
  (forall s, 0 <= s <= maxSV -> (occ s src = 0 <-> zat norm s = 0) /\ 0 <= zat norm s) ->
  codable norm (maxSV + 1) src /\ (forall s, 0 <= s < maxSV + 1 -> zat norm s < 2 ^ tl).
Proof.
  intros Hok Hm HF Hlt Hnz.
  assert (forall s, s ∈ src -> 0 <= s <= maxSV /\ zat norm s <> 0) as Hin.
  { intros s Hs. pose proof (proj1 (Forall_forall _ _) HF s Hs) as Hr. cbn beta in Hr. split; [done|].
    intros E. apply (proj1 (Hnz s Hr)) in E. pose proof (proj2 (occ_pos s src) Hs). lia. }
  split.
  - apply Forall_forall. intros s Hs. destruct (Hin s Hs). split; [lia|done].
  - intros s Hs. pose proof (nok_max _ _ _ Hok). destruct (occ_other s src (Hlt s ltac:(lia))) as (s' & Hs' & Hne).
    destruct (Hin s' Hs') as [Hr Hn']. pose proof (nok_sum _ _ _ Hok) as Hsum. rewrite cum_zsumf in Hsum by lia.
    pose proof (zsumf_ge_two (fun i => Z.abs (zat norm i)) (maxSV + 1) s s' Hs ltac:(lia) ltac:(done) ltac:(lia)) as H2.
    cbn beta in H2. destruct (Hnz s' Hr). destruct (Hnz s ltac:(lia)). lia.
Qed.

Lemma writeBound_weights maxSV tl : 0 < maxSV <= 12 -> 5 <= tl <= 6 -> FSE_NCountWriteBound maxSV tl <= 13.
Proof.
  intros Hm Htl. unfold FSE_NCountWriteBound. assert (0 <= (maxSV + 1) * tl <= 13 * 6) as Hx by (split; [lia|apply Z.mul_le_mono_nonneg; lia]).
  rewrite (u32_small (maxSV + 1)) by lia. set (x := (maxSV + 1) * tl) in *.
  rewrite (u32_small x), (u32_small (x + 4 + 2)), u32_small by zdm. destruct (Z.eqb_spec maxSV 0); cbn [negb]; [lia|zdm].
Qed.

(** Compression into what is left of a destination. *)
Lemma compress_rest norm maxSV1 tl ct buf src :
  norm_ok norm maxSV1 tl -> tl <= 6 -> ctable_ok norm maxSV1 tl ct -> codable norm maxSV1 src ->
  2 < zlen src -> bytes_ok buf -> zlen buf < 2 ^ 32 ->
  exists mem sz, FSE_compress_usingCTable buf src ct = Ok (mem, sz) /\ zlen mem = zlen buf /\ bytes_ok mem /\
    (sz = 0 \/ 0 < sz <= zlen buf /\ 8 * (sz - 1) <= (final_bits norm tl ct src).2 < 8 * sz /\
       le_val (zsub mem 0 sz) = (final_bits norm tl ct src).1 + 2 ^ (final_bits norm tl ct src).2).
Proof.
  intros Hok Htl Hct Hsrc Hlen Hb Hsz. pose proof (tl_range _ _ _ Hok). unfold FSE_compress_usingCTable. cbv zeta.
  destruct (Z.leb_spec (zlen buf) 8) as [Hsmall|Hbig].
  - exists buf, 0. unfold FSE_compress_usingCTable_generic. cbv zeta. rewrite (proj2 (Z.leb_gt (zlen src) 2)) by lia.
    unfold BIT_initCStream, RETURN_ERROR_IF, containerSize. rewrite (proj2 (Z.leb_le (zlen buf) 8)) by lia.
    split_and!; auto.
  - destruct (compress_ok norm maxSV1 tl ct Hok Hct ltac:(lia) src buf Hsrc Hlen Hbig (zlen buf >=? FSE_BLOCKBOUND (zlen src)) Hsz)
      as (mem & sz & E & Hl & Hbm & Hres).
    { unfold FSE_BLOCKBOUND. rewrite Z.shiftr_div_pow2 by lia. intros Hf. bools.
      assert (tl * zlen src <= 6 * zlen src) by (apply Z.mul_le_mono_nonneg_r; lia).
      assert (0 <= zlen src / 2 ^ 7) by (apply Z.div_pos; lia). lia. }
    exists mem, sz. rewrite E. split_and!; try done; [by apply Hbm|]. destruct Hres as [[? _]|(? & ? & ?)]; [by left|right].
    split_and!; try done; lia.
Qed.

(** A destination of at least 32 bytes holds the headers that are written without
    a test of the end. *)
Definition hdr_room (dst : list Z) : Prop := 32 <= zlen dst < 2 ^ 26.

Lemma compressWeights_ok dst wt w :
  weights_le wt -> 2 <= zlen wt <= 255 -> bytes_ok dst -> hdr_room dst -> cww_ok w ->
  wp (HUF_compressWeights dst wt w)
    (fun '(dst', n) => zlen dst' = zlen dst /\ bytes_ok dst' /\ 0 <= n <= zlen dst /\
       (1 < n -> 5 <= zlen wt -> fse_decodes wt (zsub dst' 0 n))) no_errors.
Proof.
  intros HF Hlen Hbd Hroom (Ha & Hw1 & Hw2 & Hw3 & Hw4 & Hw5 & Hw6 & Hw7).
  pose proof (weights_bytes wt HF) as Hb. unfold hdr_room in Hroom.
  assert (wt <> []) as Hne by (intros ->; unfold zlen in *; simpl in *; lia).
  destruct (last_of_range wt Hb Hne) as [Hl0 Hlocc].
  assert (Forall (fun s => s <= 12) wt) as HF12 by (eapply Forall_impl; [exact HF|intros x Hx; cbn beta in Hx; change HUF_TABLELOG_MAX with 12 in Hx; lia]).
  assert (last_of wt <= 12) as Hlm by (apply (proj1 (Forall_forall _ _) HF12), occ_pos; done).
  unfold HUF_compressWeights. cbv zeta.
  destruct (HUF_alignUpWorkspace _ _ _) as [al wsz]. cbn [snd] in Ha. wp_step; [lia|].
  wp_step; [lia|]. change HUF_TABLELOG_MAX with 12.
  rewrite count_simple_ok by (done || lia). cbn [bind hist_spec h_maxSymbolValue h_largest h_count].
  wp_step; [wp_step; split_and!; try done; lia|]. wp_step; [wp_step; split_and!; try done; lia|].
  pose proof (hist_of_histogram (cw_count w) 12 wt Hb ltac:(lia) HF12 Hne) as Hhist.
  destruct (largest_bounds wt Hb Hne Hc1) as (Hlt & Hlg & Hmax).
  set (maxSV := last_of wt) in *. set (count := hist_of (cw_count w) 12 wt) in *.
  assert (forall s, 0 <= s <= maxSV -> zat count s = occ s wt) as Hcount.
  { intros s Hs. unfold count. rewrite zat_hist_of by lia. by rewrite (proj2 (Z.leb_le s 12)) by lia. }
  destruct (optimalTableLog_weights (zlen wt) maxSV) as (tl & -> & Htl & Htl5' & Hmin); [lia|lia|]. cbn [bind].
  wp_step. eapply wp_mono; [apply (normalize_correct (cw_norm w) tl count (zlen wt) maxSV false Hhist); lia| |done].
  intros [norm r] (Hln & [[(s & Hs & E) _]|(_ & _ & Hok & Hnz)]); cbn [fst snd] in *.
  { exfalso. rewrite Hcount in E by done. specialize (Hlt s ltac:(lia)). lia. }
  pose proof (nok_tl _ _ _ Hok) as Htl5.
  assert (2 ^ 5 <= 2 ^ tl <= 2 ^ 6) as HT by (split; apply pow2_le; lia).
  assert (Forall (fun s => 0 <= s <= maxSV) wt) as HFm.
  { apply Forall_forall. intros x Hx. pose proof (proj1 (Forall_forall _ _) Hb x Hx) as [? _]. pose proof (fold_max_ge wt x Hx).
    unfold maxSV, last_of. lia. }
  destruct (normalized_codes norm maxSV tl wt Hok ltac:(lia) HFm) as [Hcod Hfull].
  { intros s Hs. apply Hlt. lia. } { intros s Hs. destruct (Hnz s Hs) as [H1 H2]. rewrite Hcount in H1 by done. split; [done|by apply H2]. }
  assert (zat norm maxSV <> 0) as Hlast.
  { intros E. destruct (Hnz maxSV ltac:(lia)) as [[_ H1] _]. specialize (H1 E). rewrite Hcount in H1; lia. }
  wp_step. eapply wp_mono; [apply ncount_reads_back; [exact Hok|lia|lia|exact Hbd|]| |].
  { intros _. assert ((maxSV + 1) * (tl + 3) <= 13 * 9) by (apply Z.mul_le_mono_nonneg; lia). zdm. }
  2: { intros e [_ Hs]. pose proof (writeBound_weights maxSV tl ltac:(lia) Htl). lia. }
  intros [h sz] (Hlh & Hbh & Hsz & Hread).
  pose proof (buildCTable_ok norm (maxSV + 1) tl Hok) as Hbuild. replace (maxSV + 1 - 1) with maxSV in Hbuild by lia.
  wp_step. eapply wp_mono; [apply Hbuild; rewrite ?zlen_zsub; try lia| |done].
  { unfold HUF_scratchBuffer_size, FSE_BUILD_CTABLE_WORKSPACE_SIZE. change HUF_TABLELOG_MAX with 12. change MAX_FSE_TABLELOG_FOR_HUFF_HEADER with 6.
    assert ((maxSV + 2 + 2 ^ tl) / 2 <= (12 + 2 + 2 ^ 6) / 2) by (apply Z.div_le_mono; lia). lia. }
  intros ct Hct. cbn beta.
  destruct (compress_rest norm (maxSV + 1) tl ct (zsub h sz (zlen dst - sz)) wt Hok ltac:(lia) Hct Hcod)
    as (mem & csz & -> & Hlm' & Hbm & Hres).
  { lia. } { by apply bytes_ok_zsub. } { rewrite zlen_zsub by lia. lia. }
  cbn [bind]. rewrite zlen_zsub in Hlm', Hres by lia.
  assert (zlen (zpatch h sz mem) = zlen dst) as Hlp by (rewrite zlen_zpatch; lia).
  assert (bytes_ok (zpatch h sz mem)) as Hbp by (by apply bytes_ok_zpatch).
  wp_step; wp_step; (split; [done|]); (split; [done|]); [split; [lia|]; intros; lia|].
  destruct Hres as [?|(Hcs & Hbits & Hval)]; [lia|]. split; [lia|]. intros _ H5.
  rewrite zsub_split by lia. rewrite zsub_zpatch_before by lia.
  replace (zsub (zpatch h sz mem) (0 + sz) csz) with (zsub mem 0 csz).
  2: { rewrite Z.add_0_l, zsub_zpatch_prefix by lia. done. }
  assert (zlen (zsub h 0 sz) = sz) as Hlz by (apply zlen_zsub; lia).
  assert (zlen (zsub mem 0 csz) = csz) as Hlc by (apply zlen_zsub; lia).
  apply (decodes norm maxSV tl wt ct); try done; try lia.
  - by apply bytes_ok_zsub.
  - by apply bytes_ok_zsub.
  - intros norm0 Hn0. rewrite Hlz. apply Hread; [by apply bytes_ok_zsub|lia|lia].
Qed.
