(* ===== verification/HufTree.v ===== *)
(** The description of a Huffman tree (compress/huf_compress.c): the elements of
    the encoding table, [HUF_writeCTable_wksp] and what [HUF_readStats] reads
    back. *)

From S2P Require Import Prelude Errors Outcome Bits Mem FseTable FseSpread FseSymbols FseBuild HufStats Hist FseNormalize HufWeights.

(** ** Definitions *)

Definition HUF_SYMBOLVALUE_MAX : Z := 255.
Definition HUF_TABLELOG_DEFAULT : Z := 11.
Definition HUF_TABLELOG_ABSOLUTEMAX : Z := 12.

(** [HUF_CElt]: the number of bits in the low byte, the code in the high bits. *)
Definition HUF_getNbBits (elt : Z) : Z := elt .& 0xFF.
Definition HUF_getNbBitsFast (elt : Z) : Z := elt.
Definition HUF_getValue (elt : Z) : Z := elt .& u64 (Z.lnot 0xFF).
Definition HUF_getValueFast (elt : Z) : Z := elt.
Definition HUF_setNbBits (nbBits : Z) : Z := nbBits.
Definition HUF_setValue (elt value : Z) : result Z :=
  let nbBits := HUF_getNbBits elt in
  if nbBits >? 0 then
    REQUIRE nbBits <=? 64 ;;
    Ok (elt .| u64 (Z.shiftl value (64 - nbBits)))
  else Ok elt.

(** An encoding table: the header in its first word, then one element per
    symbol. *)
Record HUF_CTable := mkCTable {
  hct_tableLog : Z;
  hct_maxSymbolValue : Z;
  hct_elts : list Z;
}.

Definition HUF_readCTableHeader (ctable : HUF_CTable) : Z * Z :=
  (hct_tableLog ctable, hct_maxSymbolValue ctable).
Definition HUF_writeCTableHeader (ctable : HUF_CTable) (tableLog maxSymbolValue : Z) : HUF_CTable :=
  mkCTable (u8 tableLog) (u8 maxSymbolValue) (hct_elts ctable).

(** The workspace of [HUF_writeCTable_wksp]. *)
Record HUF_WriteCTableWksp := mkWCWksp {
  wc_addr : Z;
  wc_size : Z;
  wc_wksp : HUF_CompressWeightsWksp;
  wc_bitsToWeight : list Z;
  wc_huffWeight : list Z;
}.

Definition HUF_WriteCTableWksp_size : Z :=
  4 * ((HUF_CompressWeightsWksp_size + (HUF_TABLELOG_MAX + 1) + HUF_SYMBOLVALUE_MAX + 3) / 4).

(** [&wksp->wksp, sizeof(wksp->wksp)]. *)
Definition cw_at (addr : Z) (w : HUF_CompressWeightsWksp) : HUF_CompressWeightsWksp :=
  mkCWWksp addr HUF_CompressWeightsWksp_size (cw_stateTable w) (cw_symbolTT w) (cw_cumul w)
    (cw_tableSymbol w) (cw_spread w) (cw_count w) (cw_norm w).

(** The conversion table from numbers of bits to weights. *)
Definition HUF_bitsToWeight (bitsToWeight : list Z) (huffLog : Z) : result (list Z) :=
  let* bitsToWeight := wr bitsToWeight 0 0 in
  for_range 1 (huffLog + 1) (fun n bitsToWeight => wr bitsToWeight n (u8 (huffLog + 1 - n))) bitsToWeight.

(** Weights on 4 bits. *)
Definition HUF_writeRawWeights (dst huffWeight : list Z) (maxSymbolValue : Z) : result (list Z) :=
  for_step 0 maxSymbolValue 2 (fun n dst =>
    let* w0 := rd huffWeight n in
    let* w1 := rd huffWeight (n + 1) in
    wr dst (n / 2 + 1) (u8 (Z.shiftl w0 4 + w1))) dst.

(** The destination after the call, and the size of the description. *)
Definition HUF_writeCTable_wksp (dst : list Z) (CTable : HUF_CTable) (maxSymbolValue huffLog : Z)
    (workspace : HUF_WriteCTableWksp) : result (list Z * Z) :=
  let ct := hct_elts CTable in
  let maxDstSize := zlen dst in
  let '(wksp, workspaceSize) := HUF_alignUpWorkspace (wc_addr workspace) (wc_size workspace) 4 in
  ERROR_IF workspaceSize <? HUF_WriteCTableWksp_size THEN GENERIC ;;
  ERROR_IF maxSymbolValue >? HUF_SYMBOLVALUE_MAX THEN maxSymbolValue_tooLarge ;;
  (* convert to weight *)
  let* bitsToWeight := HUF_bitsToWeight (wc_bitsToWeight workspace) huffLog in
  let* huffWeight :=
    for_range 0 maxSymbolValue (fun n huffWeight =>
      let* e := rd ct n in
      let* w := rd bitsToWeight (HUF_getNbBits e) in
      wr huffWeight n w) (wc_huffWeight workspace) in
  (* attempt weights compression by FSE *)
  ERROR_IF maxDstSize <? 1 THEN dstSize_tooSmall ;;
  let* '(out, hSize) :=
    HUF_compressWeights (zsub dst 1 (maxDstSize - 1)) (zsub huffWeight 0 maxSymbolValue)
      (cw_at (default 0 wksp) (wc_wksp workspace)) in
  let dst := zpatch dst 1 out in
  if (hSize >? 1) && (hSize <? maxSymbolValue / 2) then
    let* dst := wr dst 0 (u8 hSize) in
    Ok (dst, hSize + 1)
  else
    (* write raw values as 4-bits (max : 15) *)
    ERROR_IF maxSymbolValue >? 256 - 128 THEN GENERIC ;;
    ERROR_IF (maxSymbolValue + 1) / 2 + 1 >? maxDstSize THEN dstSize_tooSmall ;;
    let* dst := wr dst 0 (u8 (128 + (maxSymbolValue - 1))) in
    let* huffWeight := wr huffWeight maxSymbolValue 0 in
    let* dst := HUF_writeRawWeights dst huffWeight maxSymbolValue in
    Ok (dst, (maxSymbolValue + 1) / 2 + 1).

(** *** Specification *)

(** The weight of a symbol coded on [nb] bits, 0 for an absent symbol. *)
Definition weight_of (huffLog nb : Z) : Z := if nb =? 0 then 0 else huffLog + 1 - nb.
Definition tree_weights (CTable : HUF_CTable) (maxSymbolValue huffLog : Z) : list Z :=
  map (fun n => weight_of huffLog (HUF_getNbBits (zat (hct_elts CTable) n))) (seqZ 0 (maxSymbolValue + 1)).

(** A complete prefix code of depth [L]: Kraft's sum is one and some code has the
    full length. *)
Definition complete (L : Z) (ws : list Z) : Prop :=
  1 <= L <= 12 /\ Forall (fun w => 0 <= w <= L) ws /\ weights_sum ws = 2 ^ L /\ 1 ∈ ws.

(** ** Lemmas *)

(** *** The reader, given the weights that are written *)

Lemma weight_val_pos w : 1 <= w -> weight_val w = 2 ^ (w - 1).
Proof.
  intros Hw. unfold weight_val. replace w with (w - 1 + 1) at 1 by lia.
  rewrite pow2_S, Z.mul_comm, Z.div_mul by lia. done.
Qed.

(** The number of weights 1 of a complete code is even. *)
Lemma occ_1_parity L ws :
  Forall (fun w => 0 <= w <= L) ws -> Z.even (occ 1 ws) = Z.even (weights_sum ws).
Proof.
  induction 1 as [|w l Hw _ IH]; [done|]. rewrite occ_cons, Z.even_add, IH.
  change (weights_sum (w :: l)) with (weight_val w + weights_sum l). rewrite Z.even_add. f_equal.
  destruct (Z.eqb_spec w 1) as [->|]; [done|]. destruct (Z.eq_dec w 0) as [->|]; [done|].
  rewrite weight_val_pos by lia. replace (w - 1) with (w - 2 + 1) by lia. rewrite pow2_S by lia.
  by rewrite Z.even_mul.
Qed.

Lemma complete_ones L ws : complete L ws -> 2 <= occ 1 ws /\ Z.even (occ 1 ws) = true.
Proof.
  intros (HL & HF & Hs & Hin). pose proof (occ_1_parity L ws HF) as E.
  assert (Z.even (weights_sum ws) = true) as Ev.
  { rewrite Hs. replace L with (L - 1 + 1) by lia. rewrite pow2_S by lia. by rewrite Z.even_mul. }
  rewrite Ev in E. split; [|done]. apply occ_pos in Hin. destruct (Z.eq_dec (occ 1 ws) 1) as [E1|]; [|lia].
  by rewrite E1 in E.
Qed.

(** What the reader returns for the weights [ws]. *)
Definition stats_of (hw0 rk0 ws : list Z) (L sz : Z) (r : HUF_stats) : Prop :=
  hs_size r = sz /\ hs_nbSymbols r = zlen ws /\ hs_tableLog r = L /\
  zlen (hs_huffWeight r) = zlen hw0 /\ zlen (hs_rankStats r) = zlen rk0 /\
  take (length ws) (hs_huffWeight r) = ws /\
  (forall i, 0 <= i < 13 -> zat (hs_rankStats r) i = occ i ws).

Lemma last_reads hw rk ws wl L iSize :
  complete L (ws ++ [wl]) -> 1 <= wl -> zlen ws < zlen hw -> zlen ws <= 255 -> take (length ws) hw = ws ->
  13 <= zlen rk -> (forall i, 0 <= i < 13 -> zat rk i = occ i ws) ->
  exists r, HUF_readStats_last hw rk (weights_sum ws) (zlen ws) iSize = Ok r /\
    stats_of hw rk (ws ++ [wl]) L (iSize + 1) r.
Proof.
  intros Hc Hwl Hlen H255 Htake Hrk Hocc. destruct (complete_ones _ _ Hc) as [Hones Heven].
  destruct Hc as (HL & HF & Hsum & _). apply Forall_app in HF as [HF HFl]. apply Forall_cons in HFl as [Hwl' _].
  rewrite weights_sum_snoc, weight_val_pos in Hsum by lia. set (total := weights_sum ws) in *.
  assert (2 ^ L = 2 * 2 ^ (L - 1)) as EL by (rewrite <- pow2_S by lia; f_equal; lia).
  pose proof (pow2_le (wl - 1) (L - 1) ltac:(lia)) as Hle. pose proof (pow2_pos (wl - 1) ltac:(lia)).
  pose proof (pow2_le L 12 ltac:(lia)) as HL12.
  assert (Z.log2 total = L - 1) as Hlog.
  { apply Z.log2_unique; [lia|]. replace (Z.succ (L - 1)) with L by lia. lia. }
  pose proof (occ_le_len wl ws) as Hol. pose proof (occ_nonneg wl ws).
  unfold HUF_readStats_last, RETURN_ERROR_IF. cbv zeta. rewrite (proj2 (Z.eqb_neq total 0)) by lia.
  rewrite (highbit32_spec total), Hlog by lia. replace (L - 1 + 1) with L by lia. change HUF_TABLELOG_MAX with 12.
  rewrite Z.gtb_ltb, (proj2 (Z.ltb_ge 12 L)) by lia. rewrite !Z.shiftl_1_l.
  replace (2 ^ L - total) with (2 ^ (wl - 1)) by lia. rewrite (u32_small (2 ^ (wl - 1))) by lia.
  rewrite highbit32_spec, Z.log2_pow2, (u32_small (2 ^ (wl - 1))) by lia.
  replace (wl - 1 + 1) with wl by lia. rewrite Z.eqb_refl. cbn [negb]. pose proof (zlen_nonneg ws).
  rewrite wr_ok by lia. cbn [bind]. rewrite rd_ok by lia. cbn [bind]. rewrite wr_ok by lia. cbn [bind].
  assert (forall i, 0 <= i < 13 -> zat (zupd rk wl (u32 (zat rk wl + 1))) i = occ i (ws ++ [wl])) as Hocc'.
  { intros i Hi. rewrite occ_app, occ_cons, occ_nil, zat_zupd by lia. rewrite (Z.eqb_sym wl i).
    destruct (Z.eqb_spec i wl) as [->|]; cbn [b2z]; rewrite Hocc by lia; [rewrite u32_small|]; lia. }
  rewrite rd_ok by (rewrite zlen_zupd; lia). cbn [bind]. rewrite Hocc' by lia.
  rewrite (proj2 (Z.ltb_ge _ 2)), land_1, Heven by lia. cbn [orb negb].
  eexists. split; [done|]. unfold stats_of. cbn [hs_size hs_nbSymbols hs_tableLog hs_huffWeight hs_rankStats].
  rewrite !zlen_zupd, zlen_app. split_and!; try done.
  rewrite length_app. cbn [length]. rewrite u8_small by lia.
  replace (length ws + 1)%nat with (Z.to_nat (zlen ws + 1)) by (unfold zlen; lia).
  rewrite take_zS, zat_zupd_eq by (rewrite ?zlen_zupd; lia). f_equal.
  unfold zupd. rewrite take_insert_ge by lia. unfold zlen. by rewrite Nat2Z.id.
Qed.

(** The two ways of reading the weights. *)
Lemma collect_reads hw rk0 ws :
  bytes_ok hw -> take (length ws) hw = ws -> zlen ws <= zlen hw -> zlen ws <= 255 -> 13 <= zlen rk0 ->
  Forall (fun w => 0 <= w <= 12) ws ->
  exists rk, HUF_readStats_collect hw (zpatch rk0 0 (zfill (HUF_TABLELOG_MAX + 1) 0)) (zlen ws)
      = Ok (rk, weights_sum ws) /\ zlen rk = zlen rk0 /\ (forall i, 0 <= i < 13 -> zat rk i = occ i ws).
Proof.
  intros Hb Htake Hle H255 Hrk HF. change (HUF_TABLELOG_MAX + 1) with 13.
  assert (zlen (zpatch rk0 0 (zfill 13 0)) = zlen rk0) as Hl by (apply zlen_zpatch; rewrite ?zlen_zfill; lia).
  pose proof (zlen_nonneg ws).
  assert (take (Z.to_nat (zlen ws)) hw = ws) as Ht by (unfold zlen; by rewrite Nat2Z.id).
  pose proof (collect_ok hw (zpatch rk0 0 (zfill 13 0)) (zlen ws) Hb ltac:(lia) H255 ltac:(lia)) as Hc.
  rewrite Ht in Hc. specialize (Hc ltac:(intros i Hi; rewrite zat_cleared, (proj2 (Z.ltb_lt i 13)) by lia; done)).
  destruct (HUF_readStats_collect _ _ _) as [[rk total]|e|]; cbn [wp] in Hc; [|exfalso; apply Hc|done].
  - destruct Hc as (Hlr & _ & -> & _ & Hocc). exists rk. split; [done|]. split; [lia|done].
  - eapply Forall_impl; [exact HF|]. intros w Hw. cbn beta in Hw. lia.
Qed.

Lemma raw_writes dst hw m :
  bytes_ok dst -> 0 <= m -> m < zlen hw -> (m + 1) / 2 + 1 <= zlen dst ->
  (forall i, 0 <= i <= m -> 0 <= zat hw i <= 15) ->
  exists dst', HUF_writeRawWeights dst hw m = Ok dst' /\ zlen dst' = zlen dst /\ bytes_ok dst' /\
    zat dst' 0 = zat dst 0 /\
    (forall k, 0 <= k < (m + 1) / 2 -> zat dst' (1 + k) = zat hw (2 * k) * 16 + zat hw (2 * k + 1)).
Proof.
  intros Hb Hm Hl Hd Hw. unfold HUF_writeRawWeights, for_step. replace ((m - 0 + 2 - 1) / 2) with ((m + 1) / 2) by (f_equal; lia).
  match goal with |- exists dst', ?c = _ /\ _ => assert (wp c (fun dst' => zlen dst' = zlen dst /\ bytes_ok dst' /\
    zat dst' 0 = zat dst 0 /\ (forall k, 0 <= k < (m + 1) / 2 -> zat dst' (1 + k) = zat hw (2 * k) * 16 + zat hw (2 * k + 1))) no_errors) as Hwp end.
  2: { destruct (wp_no_errors_Ok _ _ Hwp) as (d & E & ?). by exists d. }
  apply (wp_for (fun n d => zlen d = zlen dst /\ bytes_ok d /\ zat d 0 = zat dst 0 /\
    (forall k, 0 <= k < n -> zat d (1 + k) = zat hw (2 * k) * 16 + zat hw (2 * k + 1)))); [zdm| | |done].
  - split_and!; try done. intros; lia.
  - intros n d Hn (Hld & Hbd & H0 & Hk). assert (0 <= 2 * n /\ 2 * n + 1 <= m) as Hnm by zdm.
    replace (0 + n * 2) with (2 * n) by lia. replace (2 * n / 2 + 1) with (1 + n) by (rewrite Z.mul_comm, Z.div_mul by lia; lia).
    wp_step. wp_step; [lia|]. wp_step. wp_step; [lia|]. pose proof (Hw (2 * n) ltac:(lia)). pose proof (Hw (2 * n + 1) ltac:(lia)).
    rewrite Z.shiftl_mul_pow2, u8_small by lia. change (2 ^ 4) with 16.
    wp_step; [lia|]. rewrite zlen_zupd. split; [done|]. split; [apply Forall_zupd; [done|unfold is_byte; lia]|].
    split; [by rewrite zat_zupd_ne by lia|]. intros k Hk'. rewrite zat_zupd by lia.
    destruct (Z.eqb_spec (1 + k) (1 + n)); [by replace k with n by lia|]. apply Hk. lia.
Qed.

Lemma raw_reads hw src m (W : Z -> Z) :
  bytes_ok hw -> bytes_ok src -> 0 < m < zlen hw -> (m + 1) / 2 + 1 <= zlen src ->
  (forall i, 0 <= i <= m -> 0 <= W i <= 15) ->
  (forall k, 0 <= k < (m + 1) / 2 -> zat src (1 + k) = W (2 * k) * 16 + W (2 * k + 1)) ->
  exists hw', HUF_readStats_raw hw src m = Ok hw' /\ zlen hw' = zlen hw /\ bytes_ok hw' /\
    (forall i, 0 <= i < m -> zat hw' i = W i).
Proof.
  intros Hb Hbs Hm Hl HW Hsrc. destruct (raw_ok hw src m Hb Hbs Hm Hl) as (hw' & E & Hl' & Hb').
  exists hw'. split_and!; try done. revert E. unfold HUF_readStats_raw, for_step.
  replace ((m - 0 + 2 - 1) / 2) with ((m + 1) / 2) by (f_equal; lia). apply (wp_inv_Ok _ (fun hw' => forall i, 0 <= i < m -> zat hw' i = W i) no_errors).
  apply (wp_for (fun n d => zlen d = zlen hw /\ forall i, 0 <= i < 2 * n -> zat d i = W i)); [zdm| | |].
  - split; [done|]. intros; lia.
  - intros n d Hn [Hld Hd]. assert (0 <= 2 * n /\ 2 * n + 1 <= m) as Hnm by zdm.
    replace (0 + n * 2) with (2 * n) by lia. replace (1 + 2 * n / 2) with (1 + n) by (rewrite Z.mul_comm, Z.div_mul by lia; lia).
    specialize (Hsrc n Hn). pose proof (HW (2 * n) ltac:(lia)) as H0. pose proof (HW (2 * n + 1) ltac:(lia)) as H1.
    wp_step. wp_step; [lia|]. rewrite Hsrc. wp_step. wp_step; [lia|]. wp_step. wp_step; [lia|]. rewrite Hsrc.
    rewrite Z.shiftr_div_pow2 by lia. change 15 with (2 ^ 4 - 1). rewrite land_mask by lia. change (2 ^ 4) with 16.
    rewrite (Z.add_comm (W (2 * n) * 16)), Z.div_add, Z.mod_add, Z.div_small, Z.mod_small by lia.
    wp_step; [rewrite zlen_zupd; lia|]. rewrite !zlen_zupd. split; [done|]. intros i Hi.
    rewrite !zat_zupd by (rewrite ?zlen_zupd; lia).
    destruct (Z.eqb_spec i (2 * n + 1)) as [->|]; [done|]. destruct (Z.eqb_spec i (2 * n)) as [->|]; [lia|]. apply Hd. lia.
  - intros d [_ Hd] i Hi. apply Hd. zdm.
Qed.

(** The end of [HUF_readStats], once the weights are in the table. *)
Lemma readStats_end hw hw0 rk0 ws wl L iSize :
  complete L (ws ++ [wl]) -> 1 <= wl -> bytes_ok hw -> zlen hw = zlen hw0 -> zlen ws < zlen hw <= 256 ->
  take (length ws) hw = ws -> 13 <= zlen rk0 ->
  exists r,
    (let* rankStats := memcpy_at rk0 0 (zfill (HUF_TABLELOG_MAX + 1) 0) in
     let* '(rankStats, weightTotal) := HUF_readStats_collect hw rankStats (zlen ws) in
     HUF_readStats_last hw rankStats weightTotal (zlen ws) iSize) = Ok r /\
    stats_of hw0 rk0 (ws ++ [wl]) L (iSize + 1) r.
Proof.
  intros Hc Hwl Hb Hl Hlen Htake Hrk.
  rewrite memcpy_at_ok by (change (HUF_TABLELOG_MAX + 1) with 13; rewrite ?zlen_zfill; lia). cbn [bind].
  assert (Forall (fun w => 0 <= w <= 12) ws) as HF.
  { destruct Hc as (HL & HF & _). apply Forall_app in HF as [HF _]. eapply Forall_impl; [exact HF|]. intros x Hx. cbn beta in Hx. lia. }
  destruct (collect_reads hw rk0 ws Hb Htake ltac:(lia) ltac:(lia) Hrk HF) as (rk & -> & Hlr & Hocc). cbn [bind].
  destruct (last_reads hw rk ws wl L iSize Hc Hwl ltac:(lia) ltac:(lia) Htake ltac:(lia) Hocc) as (r & -> & Hr).
  exists r. split; [done|]. unfold stats_of in *. by rewrite <- Hl, <- Hlr.
Qed.

Section read.
Context (hw rk ws : list Z) (wl L : Z) (wk : FSE_wksp).
Hypothesis Hc : complete L (ws ++ [wl]).
Hypothesis Hwl : 1 <= wl.
Hypothesis Hbw : bytes_ok hw.
Hypothesis Hlen : 1 <= zlen ws < zlen hw.
Hypothesis H256 : zlen hw <= 256.
Hypothesis Hrk : 13 <= zlen rk.

Lemma readStats_raw_form src :
  bytes_ok src -> zlen ws <= 128 -> (zlen ws + 1) / 2 + 1 <= zlen src -> zat src 0 = 127 + zlen ws ->
  (forall k, 0 <= k < (zlen ws + 1) / 2 -> zat src (1 + k) = zat (ws ++ [0]) (2 * k) * 16 + zat (ws ++ [0]) (2 * k + 1)) ->
  exists r, HUF_readStats hw rk src wk = Ok r /\ stats_of hw rk (ws ++ [wl]) L ((zlen ws + 1) / 2 + 1) r.
Proof.
  intros Hb Hm Hl H0 Hk. unfold HUF_readStats, RETURN_ERROR_IF. cbv zeta. assert (0 <= (zlen ws + 1) / 2) by zdm.
  rewrite (proj2 (Z.eqb_neq (zlen src) 0)), rd_ok by lia. cbn [bind]. rewrite H0.
  rewrite (proj2 (Z.geb_le _ 128)) by lia. replace (127 + zlen ws - 127) with (zlen ws) by lia.
  rewrite Z.gtb_ltb, (proj2 (Z.ltb_ge (zlen src) _)) by lia. rewrite Z.geb_leb, (proj2 (Z.leb_gt (zlen hw) _)) by lia.
  assert (forall i, 0 <= i <= zlen ws -> 0 <= zat (ws ++ [0]) i <= 15) as HW.
  { intros i Hi. apply (zat_Forall (fun x => 0 <= x <= 15)); [|rewrite zlen_app; change (zlen [0]) with 1; lia].
    destruct Hc as (HL & HF & _). apply Forall_app in HF as [HF _]. apply Forall_app. split; [|by repeat constructor].
    eapply Forall_impl; [exact HF|]. intros x Hx. cbn beta in Hx. lia. }
  destruct (raw_reads hw src (zlen ws) (zat (ws ++ [0])) Hbw Hb ltac:(lia) Hl HW Hk) as (hw' & -> & Hl' & Hb' & Hz). cbn [bind].
  destruct (readStats_end hw' hw rk ws wl L ((zlen ws + 1) / 2) Hc Hwl Hb' Hl') as (r & -> & Hr); [lia| |done|by exists r].
  apply zat_ext; unfold zlen; rewrite length_take; unfold zlen in *; [lia|]. intros i Hi.
  unfold zat at 1. rewrite lookup_total_take_lt by lia. fold (zat hw' i). rewrite Hz by lia. apply zat_app_l. unfold zlen. lia.
Qed.

Lemma readStats_fse_form src hSize :
  bytes_ok src -> 0 < hSize < 128 -> hSize + 1 <= zlen src -> zat src 0 = hSize ->
  fse_decodes ws (zsub src 1 hSize) -> wksp_ok wk -> HUF_READ_STATS_WORKSPACE_SIZE <= wk_size wk ->
  exists r, HUF_readStats hw rk src wk = Ok r /\ stats_of hw rk (ws ++ [wl]) L (hSize + 1) r.
Proof.
  intros Hb Hh Hl H0 Hdec Hwk Hsz. unfold HUF_readStats, RETURN_ERROR_IF. cbv zeta.
  rewrite (proj2 (Z.eqb_neq (zlen src) 0)), rd_ok by lia. cbn [bind]. rewrite H0.
  rewrite Z.geb_leb, (proj2 (Z.leb_gt 128 hSize)) by lia. rewrite Z.gtb_ltb, (proj2 (Z.ltb_ge (zlen src) _)) by lia.
  destruct (Hdec (zsub hw 0 (zlen hw - 1)) wk) as (out & -> & Hlo & Hbo & Htk); [rewrite zlen_zsub; lia|by apply bytes_ok_zsub|done|done|].
  cbn [bind]. rewrite zlen_zsub in Hlo by lia.
  destruct (readStats_end (zpatch hw 0 out) hw rk ws wl L hSize Hc Hwl) as (r & -> & Hr); try done; [|by rewrite zlen_zpatch by lia|rewrite zlen_zpatch by lia; lia| |by exists r].
  { by apply bytes_ok_zpatch. }
  pose proof Hlen as Hws. unfold zlen in Hws, Hlo. change (take (length ws) (out ++ drop (length out) hw) = ws).
  by rewrite take_app_le by lia.
Qed.

End read.

(** *** The writer *)

Lemma bitsToWeight_ok b2w L :
  1 <= L <= 12 -> 13 <= zlen b2w ->
  exists t, HUF_bitsToWeight b2w L = Ok t /\ zlen t = zlen b2w /\ (forall nb, 0 <= nb <= L -> zat t nb = weight_of L nb).
Proof.
  intros HL Hl. unfold HUF_bitsToWeight. rewrite wr_ok by lia. cbn [bind].
  match goal with |- exists t, ?c = _ /\ _ => destruct (wp_no_errors_Ok c (fun t => zlen t = zlen b2w /\
    (forall nb, 0 <= nb <= L -> zat t nb = weight_of L nb))) as (t & E & Ht); [|by exists t] end.
  apply (wp_for (fun n t => zlen t = zlen b2w /\ forall nb, 0 <= nb < n -> zat t nb = weight_of L nb)); [lia| | |].
  - split; [apply zlen_zupd|]. intros nb Hn. replace nb with 0 by lia. by rewrite zat_zupd_eq by lia.
  - intros n t Hn [Hlt Ht]. wp_step; [lia|]. split; [by rewrite zlen_zupd|]. intros nb Hnb. rewrite zat_zupd by lia.
    destruct (Z.eqb_spec nb n) as [->|]; [|apply Ht; lia]. unfold weight_of. rewrite u8_small by lia.
    by rewrite (proj2 (Z.eqb_neq n 0)) by lia.
  - intros t [Hlt Ht]. split; [done|]. intros nb Hnb. apply Ht. lia.
Qed.

Lemma convert_ok ct b2w hw m L :
  0 <= m <= zlen ct -> m <= zlen hw -> L + 1 <= zlen b2w ->
  (forall n, 0 <= n < m -> 0 <= HUF_getNbBits (zat ct n) <= L) ->
  (forall nb, 0 <= nb <= L -> zat b2w nb = weight_of L nb) ->
  exists t, for_range 0 m (fun n huffWeight =>
      let* e := rd ct n in
      let* w := rd b2w (HUF_getNbBits e) in
      wr huffWeight n w) hw = Ok t /\ zlen t = zlen hw /\
    (forall n, 0 <= n < m -> zat t n = weight_of L (HUF_getNbBits (zat ct n))).
Proof.
  intros Hm Hh Hb Hnb Hw.
  match goal with |- exists t, ?c = _ /\ _ => destruct (wp_no_errors_Ok c (fun t => zlen t = zlen hw /\
    (forall n, 0 <= n < m -> zat t n = weight_of L (HUF_getNbBits (zat ct n))))) as (t & E & Ht); [|by exists t] end.
  apply (wp_for (fun k t => zlen t = zlen hw /\ forall n, 0 <= n < k -> zat t n = weight_of L (HUF_getNbBits (zat ct n)))); [lia| | |done].
  - split; [done|]. intros; lia.
  - intros k t Hk [Hlt Ht]. specialize (Hnb k Hk). wp_step. wp_step; [lia|]. wp_step. wp_step; [lia|]. wp_step; [lia|].
    split; [by rewrite zlen_zupd|]. intros n Hn. rewrite zat_zupd by lia. destruct (Z.eqb_spec n k) as [->|]; [by apply Hw|apply Ht; lia].
Qed.

(** A workspace of the size it claims. *)
Definition wcw_ok (w : HUF_WriteCTableWksp) : Prop :=
  HUF_WriteCTableWksp_size <= (HUF_alignUpWorkspace (wc_addr w) (wc_size w) 4).2 /\
  cww_arrays (wc_wksp w) /\
  13 <= zlen (wc_bitsToWeight w) /\ 255 <= zlen (wc_huffWeight w).

(** The bytes [bs] describe the tree of weights [ws] and depth [L], in front of
    any bytes. *)
Definition tree_described (ws : list Z) (L : Z) (bs : list Z) : Prop :=
  forall rest hw rk wk, bytes_ok rest -> zlen ws <= zlen hw <= 256 -> bytes_ok hw -> 13 <= zlen rk -> wksp_ok wk ->
  HUF_READ_STATS_WORKSPACE_SIZE <= wk_size wk ->
  exists r, HUF_readStats hw rk (bs ++ rest) wk = Ok r /\ stats_of hw rk ws L (zlen bs) r.

(** The numbers of bits of a table, for the symbols up to [m]. *)
Record lengths_ok (CTable : HUF_CTable) (m L : Z) : Prop := {
  lo_m : 1 <= m <= 255;
  lo_elts : m < zlen (hct_elts CTable);
  lo_bits : forall n, 0 <= n <= m -> 0 <= HUF_getNbBits (zat (hct_elts CTable) n) <= L;
  lo_last : 1 <= HUF_getNbBits (zat (hct_elts CTable) m);
  lo_complete : complete L (tree_weights CTable m L);
}.

Section described.
Context (CTable : HUF_CTable) (m L : Z) (ws : list Z).
Hypothesis Hlo : lengths_ok CTable m L.
Hypothesis Hlen : zlen ws = m.
Hypothesis Hws : forall n, 0 <= n < m -> zat ws n = weight_of L (HUF_getNbBits (zat (hct_elts CTable) n)).

Let wl := weight_of L (HUF_getNbBits (zat (hct_elts CTable) m)).

Lemma tree_weights_split : tree_weights CTable m L = ws ++ [wl].
Proof.
  pose proof (lo_m _ _ _ Hlo). unfold tree_weights. apply zat_ext.
  - rewrite zlen_map_seqZ, zlen_app by lia. change (zlen [wl]) with 1. lia.
  - rewrite zlen_map_seqZ by lia. intros i Hi. rewrite zat_map_seqZ by lia. destruct (Z.ltb_spec i m).
    + rewrite zat_app_l by lia. symmetry. apply Hws. lia.
    + rewrite zat_app_r by lia. rewrite Hlen. replace i with m by lia. by rewrite Z.sub_diag.
Qed.

Lemma split_complete : complete L (ws ++ [wl]) /\ 1 <= wl.
Proof.
  rewrite <- tree_weights_split. split; [apply Hlo|]. pose proof (lo_last _ _ _ Hlo). pose proof (lo_bits _ _ _ Hlo m).
  pose proof (lo_m _ _ _ Hlo). unfold wl, weight_of. rewrite (proj2 (Z.eqb_neq _ 0)) by lia. lia.
Qed.

Lemma split_weights : Forall (fun w => 0 <= w <= L) ws.
Proof. destruct split_complete as [(_ & HF & _) _]. by apply Forall_app in HF as [HF _]. Qed.

Lemma described_fse out hSize dst :
  bytes_ok out -> 0 < hSize < 128 -> hSize <= zlen out -> fse_decodes ws (zsub out 0 hSize) ->
  zlen dst = zlen out + 1 -> tree_described (tree_weights CTable m L) L (zsub (zupd (zpatch dst 1 out) 0 (u8 hSize)) 0 (hSize + 1)).
Proof.
  intros Hb Hh Ho Hdec Hd. rewrite tree_weights_split. destruct split_complete as [Hc Hwl].
  assert (zsub (zupd (zpatch dst 1 out) 0 (u8 hSize)) 0 (hSize + 1) = hSize :: zsub out 0 hSize) as ->.
  { assert (zlen (zupd (zpatch dst 1 out) 0 (u8 hSize)) = zlen dst) as Hl by (rewrite zlen_zupd, zlen_zpatch; lia).
    apply zat_ext; [rewrite zlen_zsub, zlen_cons, zlen_zsub by lia; lia|]. rewrite zlen_zsub by lia. intros i Hi.
    rewrite zat_zsub by lia. rewrite zat_zupd by (rewrite ?zlen_zpatch by lia; lia). destruct (Z.eqb_spec (0 + i) 0).
    - replace i with 0 by lia. rewrite u8_small by lia. done.
    - rewrite zat_cons_S, zat_zsub, zat_zpatch by lia. rewrite (proj2 (Z.leb_le 1 _)), (proj2 (Z.ltb_lt (0 + i) _)) by lia.
      cbn [andb]. by replace (0 + i - 1) with (0 + (i - 1)) by lia. }
  intros rest hw rk wk Hbr Hhw Hbw Hrk Hwk Hsz. pose proof (lo_m _ _ _ Hlo). pose proof (zlen_nonneg rest).
  rewrite zlen_app in Hhw. change (zlen [wl]) with 1 in Hhw. rewrite zlen_cons, zlen_zsub by lia.
  set (src := (hSize :: zsub out 0 hSize) ++ rest).
  assert (bytes_ok src) as Hbs.
  { apply bytes_ok_app; [|done]. constructor; [unfold is_byte; lia|by apply bytes_ok_zsub]. }
  assert (zlen src = 1 + hSize + zlen rest) as Hls by (unfold src; rewrite zlen_app, zlen_cons, zlen_zsub; lia).
  assert (zsub src 1 hSize = zsub out 0 hSize) as Hsub.
  { unfold src. apply zat_ext; rewrite !zlen_zsub by (rewrite ?zlen_app, ?zlen_cons, ?zlen_zsub by lia; lia); [done|]. intros i Hi.
    rewrite zat_zsub, zat_app_l, zat_cons_S by (rewrite ?zlen_cons, ?zlen_zsub by lia; lia). by replace (1 + i - 1) with (0 + i) by lia. }
  destruct (readStats_fse_form hw rk ws wl L wk Hc Hwl Hbw ltac:(lia) ltac:(lia) Hrk src hSize Hbs Hh ltac:(lia) eq_refl)
    as (r & E & Hr); [by rewrite Hsub|exact Hwk|exact Hsz|].
  exists r. split; [exact E|]. by rewrite Z.add_comm.
Qed.

Lemma described_raw dst :
  bytes_ok dst -> m <= 128 -> (m + 1) / 2 + 1 <= zlen dst -> zat dst 0 = 127 + m ->
  (forall k, 0 <= k < (m + 1) / 2 -> zat dst (1 + k) = zat (ws ++ [0]) (2 * k) * 16 + zat (ws ++ [0]) (2 * k + 1)) ->
  tree_described (tree_weights CTable m L) L (zsub dst 0 ((m + 1) / 2 + 1)).
Proof.
  intros Hb Hm Hd H0 Hk. rewrite tree_weights_split. destruct split_complete as [Hc Hwl].
  intros rest hw rk wk Hbr Hhw Hbw Hrk Hwk Hsz. pose proof (lo_m _ _ _ Hlo). pose proof (zlen_nonneg rest).
  rewrite zlen_app in Hhw. change (zlen [wl]) with 1 in Hhw. assert (0 <= (m + 1) / 2) by zdm. rewrite zlen_zsub by lia.
  rewrite <- Hlen in *. apply readStats_raw_form; try done; try lia.
  - apply bytes_ok_app; [by apply bytes_ok_zsub|done].
  - rewrite zlen_app, zlen_zsub by lia. lia.
  - rewrite zat_app_l, zat_zsub by (rewrite ?zlen_zsub by lia; lia). done.
  - intros k Hk'. rewrite zat_app_l, zat_zsub by (rewrite ?zlen_zsub by lia; lia). by apply Hk.
Qed.

End described.

Lemma writeCTable_describes dst CTable m L w :
  lengths_ok CTable m L -> bytes_ok dst -> 33 <= zlen dst < 2 ^ 26 -> wcw_ok w ->
  wp (HUF_writeCTable_wksp dst CTable m L w)
    (fun '(dst', sz) => zlen dst' = zlen dst /\ bytes_ok dst' /\ 0 < sz <= zlen dst /\
       tree_described (tree_weights CTable m L) L (zsub dst' 0 sz))
    (fun e => e = GENERIC /\ 128 < m \/ e = dstSize_tooSmall /\ zlen dst < (m + 1) / 2 + 1).
Proof.
  intros Hlo Hb Hd (Hal & Harr & Hb2w & Hhw). destruct (lo_complete _ _ _ Hlo) as (HL & _).
  pose proof (lo_m _ _ _ Hlo) as Hm. pose proof (lo_elts _ _ _ Hlo) as He. unfold HUF_writeCTable_wksp. cbv zeta.
  assert (HUF_CompressWeightsWksp_size = 480) as Es by (vm_compute; done).
  assert (HUF_WriteCTableWksp_size = 748) as Es' by (vm_compute; done).
  destruct (align4_spec (wc_addr w) (wc_size w)) as (al & -> & Hal4 & _); [lia|]. cbv iota zeta.
  wp_step; [lia|]. wp_step; [change HUF_SYMBOLVALUE_MAX with 255 in *; lia|].
  destruct (bitsToWeight_ok (wc_bitsToWeight w) L HL Hb2w) as (b2w & -> & Hlb & Hzb). cbn [bind].
  destruct (convert_ok (hct_elts CTable) b2w (wc_huffWeight w) m L) as (hw & -> & Hlh & Hzh); [lia|lia|lia| |exact Hzb|].
  { intros n Hn. apply (lo_bits _ _ _ Hlo). lia. }
  cbn [bind]. wp_step; [lia|]. change (default 0 (Some al)) with al.
  set (ws := zsub hw 0 m). assert (zlen ws = m) as Hlw by (apply zlen_zsub; lia).
  assert (forall n, 0 <= n < m -> zat ws n = weight_of L (HUF_getNbBits (zat (hct_elts CTable) n))) as Hzw.
  { intros n Hn. unfold ws. rewrite zat_zsub, Z.add_0_l by lia. by apply Hzh. }
  pose proof (split_weights CTable m L ws Hlo Hlw Hzw) as Hle.
  assert (weights_le ws) as Hle12 by (eapply Forall_impl; [exact Hle|intros x Hx; cbn beta in Hx |- *; change HUF_TABLELOG_MAX with 12; lia]).
  assert (zlen (zsub dst 1 (zlen dst - 1)) = zlen dst - 1) as Hlz by (apply zlen_zsub; lia).
  apply wp_bind. eapply (wp_mono _ (fun '(out, n) => zlen out = zlen dst - 1 /\ bytes_ok out /\ 0 <= n <= zlen dst - 1 /\
    (1 < n -> 5 <= m -> fse_decodes ws (zsub out 0 n))) _ no_errors); [| |done].
  { destruct (Z.eq_dec m 1) as [->|Hm1].
    - unfold HUF_compressWeights. cbn [cw_addr cw_size cw_at]. rewrite align4_id by (rewrite ?Es; lia). cbv zeta iota.
      wp_step; [lia|]. rewrite (proj2 (Z.leb_le (zlen ws) 1)) by lia. wp_step.
      split; [done|]. split; [by apply bytes_ok_zsub|]. split; lia.
    - pose proof (compressWeights_ok (zsub dst 1 (zlen dst - 1)) ws (cw_at al (wc_wksp w)) Hle12 ltac:(lia)
        ltac:(by apply bytes_ok_zsub)) as Hcomp. rewrite Hlz, Hlw in Hcomp. apply Hcomp.
      + unfold hdr_room. lia.
      + split; [|exact Harr]. cbn [cw_addr cw_size cw_at]. rewrite align4_id by (rewrite ?Es; lia). cbn [snd]. lia. }
  intros [out hSize] (Hlo' & Hbo & Hh & Hdec).
  assert (zlen (zpatch dst 1 out) = zlen dst) as Hlp by (apply zlen_zpatch; lia).
  assert (bytes_ok (zpatch dst 1 out)) as Hbp by (by apply bytes_ok_zpatch).
  wp_step.
  - assert (m / 2 <= 127) by zdm. wp_step. wp_step; [lia|]. wp_step. rewrite zlen_zupd.
    split; [lia|]. split; [apply Forall_zupd; [done|apply u8_range]|]. split; [lia|].
    apply (described_fse CTable m L ws Hlo Hlw Hzw); try done; try lia. apply Hdec; [lia|]. assert (m / 2 < 3 \/ 5 <= m) by zdm. lia.
  - wp_step; [left; split; [done|lia]|]. wp_step; [right; split; [done|lia]|].
    wp_step. wp_step; [lia|]. wp_step. wp_step; [lia|]. assert (0 <= (m + 1) / 2) by zdm.
    assert (forall i, 0 <= i <= m -> zat (zupd hw m 0) i = zat (ws ++ [0]) i) as Hz.
    { intros i Hi. rewrite zat_zupd by lia. destruct (Z.eqb_spec i m) as [->|].
      - rewrite zat_app_r, Hlw, Z.sub_diag by lia. done.
      - rewrite zat_app_l by lia. unfold ws. by rewrite zat_zsub, Z.add_0_l by lia. }
    assert (forall i, 0 <= i <= m -> 0 <= zat (ws ++ [0]) i <= 15) as Hr.
    { intros i Hi. apply (zat_Forall (fun x => 0 <= x <= 15)); [|rewrite zlen_app; change (zlen [0]) with 1; lia].
      apply Forall_app. split; [|by repeat constructor]. eapply Forall_impl; [exact Hle|]. intros x Hx. cbn beta in Hx. lia. }
    destruct (raw_writes (zupd (zpatch dst 1 out) 0 (u8 (128 + (m - 1)))) (zupd hw m 0) m) as (dst' & -> & Hld & Hbd & H0 & Hk).
    { apply Forall_zupd; [done|apply u8_range]. } { lia. } { rewrite zlen_zupd. lia. } { rewrite zlen_zupd. lia. }
    { intros i Hi. rewrite Hz by done. by apply Hr. }
    rewrite zlen_zupd in Hld. rewrite zat_zupd_eq, u8_small in H0 by lia.
    cbn [bind]. wp_step. split; [lia|]. split; [done|]. split; [lia|].
    apply (described_raw CTable m L ws Hlo Hlw Hzw); try done; try lia.
    intros k Hk'. rewrite Hk, !Hz by zdm. done.
Qed.

(** ** Properties *)

(** C23: the description of a tree is read back. For every encoding table whose
    numbers of bits make up a complete prefix code, [HUF_writeCTable_wksp] either
    fails with an error that its arguments decide, or writes, compressed by FSE or
    on 4 bits per weight, a description from which [HUF_readStats], in front of
    any bytes and whatever its memory held, gives back the weights of all the
    symbols, the last one included, their statistics, the depth of the tree and
    the size of the description. *)
Theorem HUF_tree_roundtrip dst CTable m L w :
  lengths_ok CTable m L -> bytes_ok dst -> 33 <= zlen dst < 2 ^ 26 -> wcw_ok w ->
  wp (HUF_writeCTable_wksp dst CTable m L w)
    (fun '(dst', sz) => zlen dst' = zlen dst /\ bytes_ok dst' /\ 0 < sz <= zlen dst /\
       forall rest hw rk wk, bytes_ok rest -> m < zlen hw <= 256 -> bytes_ok hw -> 13 <= zlen rk -> wksp_ok wk ->
         HUF_READ_STATS_WORKSPACE_SIZE <= wk_size wk ->
         exists r, HUF_readStats hw rk (zsub dst' 0 sz ++ rest) wk = Ok r /\
           stats_of hw rk (tree_weights CTable m L) L sz r)
    (fun e => e = GENERIC /\ 128 < m \/ e = dstSize_tooSmall /\ zlen dst < (m + 1) / 2 + 1).
Proof.
  intros Hlo Hb Hd Hw. pose proof (lo_m _ _ _ Hlo). eapply wp_mono; [by apply writeCTable_describes| |done].
  intros [dst' sz] (Hl & Hb' & Hsz & Hdesc). split_and!; try done; [lia..|].
  intros rest hw rk wk Hbr Hhw Hbw Hrk Hwk Hs.
  destruct (Hdesc rest hw rk wk Hbr) as (r & E & Hr); try done.
  - unfold tree_weights. rewrite zlen_map_seqZ by lia. lia.
  - exists r. split; [done|]. rewrite zlen_zsub in Hr by lia. done.
Qed.

(** Workspaces of the sizes that the callers reserve. *)
Definition sample_cwwksp : HUF_CompressWeightsWksp :=
  mkCWWksp 0 0 (zfill 64 0) (zfill 13 (mkSymbolTT 0 0)) (zfill 14 0) (zfill 64 0) (zfill 72 0) (zfill 13 0) (zfill 13 0).
Definition sample_wcwksp : HUF_WriteCTableWksp := mkWCWksp 4096 748 sample_cwwksp (zfill 13 0) (zfill 255 0).

Lemma sample_wcwksp_ok : wcw_ok sample_wcwksp.
Proof. vm_compute. repeat split; congruence. Qed.

(** Decide that a table holds a complete code. *)
Definition lengths_okb (CTable : HUF_CTable) (m L : Z) : bool :=
  (1 <=? m) && (m <=? 255) && (m <? zlen (hct_elts CTable)) &&
  forallb (fun n => (0 <=? HUF_getNbBits (zat (hct_elts CTable) n)) && (HUF_getNbBits (zat (hct_elts CTable) n) <=? L)) (seqZ 0 (m + 1)) &&
  (1 <=? HUF_getNbBits (zat (hct_elts CTable) m)) && (1 <=? L) && (L <=? 12) &&
  forallb (fun w => (0 <=? w) && (w <=? L)) (tree_weights CTable m L) &&
  (weights_sum (tree_weights CTable m L) =? 2 ^ L) && bool_decide (1 ∈ tree_weights CTable m L).

Lemma lengths_okb_spec CTable m L : lengths_okb CTable m L = true -> lengths_ok CTable m L.
Proof.
  unfold lengths_okb. intros H. rewrite !andb_true_iff, !Z.leb_le, Z.ltb_lt, Z.eqb_eq, bool_decide_eq_true in H.
  destruct H as (((((((((? & ?) & ?) & Hb) & ?) & ?) & ?) & Hw) & ?) & ?).
  rewrite forallb_forall in Hb, Hw. split; [lia|done| |done|].
  - intros n Hn. specialize (Hb n ltac:(apply list_elem_of_In, elem_of_seqZ; lia)). bools. lia.
  - split; [lia|]. split; [|done]. apply Forall_forall. intros x Hx. apply list_elem_of_In, Hw in Hx. bools. lia.
Qed.

Lemma HUF_tree_roundtrip_witness :
  lengths_ok (mkCTable 3 4 [1; 0; 2; 3; 3]) 4 3 /\
  wp (HUF_writeCTable_wksp (zfill 40 9) (mkCTable 3 4 [1; 0; 2; 3; 3]) 4 3 sample_wcwksp)
    (fun '(dst', sz) => zlen dst' = 40 /\ bytes_ok dst' /\ 0 < sz <= 40 /\
       forall rest hw rk wk, bytes_ok rest -> 4 < zlen hw <= 256 -> bytes_ok hw -> 13 <= zlen rk -> wksp_ok wk ->
         HUF_READ_STATS_WORKSPACE_SIZE <= wk_size wk ->
         exists r, HUF_readStats hw rk (zsub dst' 0 sz ++ rest) wk = Ok r /\ stats_of hw rk [3; 0; 2; 1; 1] 3 sz r)
    (fun e => e = GENERIC /\ 128 < 4 \/ e = dstSize_tooSmall /\ 40 < (4 + 1) / 2 + 1).
Proof.
  assert (lengths_ok (mkCTable 3 4 [1; 0; 2; 3; 3]) 4 3) as Hlo by (apply lengths_okb_spec; vm_compute; reflexivity).
  split; [exact Hlo|].
  apply (HUF_tree_roundtrip (zfill 40 9) (mkCTable 3 4 [1; 0; 2; 3; 3]) 4 3 sample_wcwksp Hlo);
    [bytes_dec|vm_compute; split; [congruence|reflexivity]|exact sample_wcwksp_ok].
Defined.
