(* ===== verification/HufCode.v ===== *)
(** Canonical Huffman codes (compress/huf_compress.c): the values that
    [HUF_readCTable] and [HUF_buildCTableFromTree] give to the symbols, and their
    reading as consecutive intervals of the decoding table. *)

From S2P Require Import Prelude Errors Outcome Bits Mem FseTable FseSpread FseSymbols FseBuild HufStats Hist FseNormalize HufWeights HufTree.

(** ** Definitions *)

(** The starting value of the codes of every length: [min] goes from the longest
    codes to the shortest. *)
Definition HUF_valPerRank (valPerRank nbPerRank : list Z) (maxNbBits : Z) : result (list Z) :=
  let* '(valPerRank, _) :=
    for_range 0 maxNbBits (fun k '(valPerRank, min) =>
      let n := maxNbBits - k in
      let* valPerRank := wr valPerRank n min in
      let* c := rd nbPerRank n in
      Ok (valPerRank, Z.shiftr (u16 (min + c)) 1)) (valPerRank, 0) in
  Ok valPerRank.

(** Values within a rank, in the order of the symbols. *)
Definition HUF_assignValues (ct valPerRank : list Z) (alphabetSize : Z) : result (list Z) :=
  let* '(ct, _) :=
    for_range 0 alphabetSize (fun n '(ct, valPerRank) =>
      let* e := rd ct n in
      let nb := HUF_getNbBits e in
      let* v := rd valPerRank nb in
      let* valPerRank := wr valPerRank nb (u16 (v + 1)) in
      let* e := HUF_setValue e v in
      let* ct := wr ct n e in
      Ok (ct, valPerRank)) (ct, valPerRank) in
  Ok ct.

(** [nbPerRank[..]++], over the elements of a table. *)
Definition HUF_countBits (ct nbPerRank : list Z) (nbSymbols : Z) : result (list Z) :=
  for_range 0 nbSymbols (fun n nbPerRank =>
    let* e := rd ct n in
    let* c := rd nbPerRank (HUF_getNbBits e) in
    wr nbPerRank (HUF_getNbBits e) (u16 (c + 1))) nbPerRank.

(** The first index of every rank; the values are not used afterwards. *)
Definition HUF_rankStarts (rankVal : list Z) (tableLog : Z) : result (list Z) :=
  let* '(rankVal, _) :=
    for_range 1 (tableLog + 1) (fun n '(rankVal, nextRankStart) =>
      let curr := nextRankStart in
      let* c := rd rankVal n in
      let nextRankStart := u32 (nextRankStart + u32 (Z.shiftl c (n - 1))) in
      let* rankVal := wr rankVal n curr in
      Ok (rankVal, nextRankStart)) (rankVal, 0) in
  Ok rankVal.

(** [HUF_setNbBits(ct + n, (BYTE)(tableLog + 1 - w) & -(w != 0))]. *)
Definition HUF_fillNbBits (ct huffWeight : list Z) (tableLog nbSymbols : Z) : result (list Z) :=
  for_range 0 nbSymbols (fun n ct =>
    let* w := rd huffWeight n in
    wr ct n (HUF_setNbBits (u8 (tableLog + 1 - w) .& (- b2z (negb (w =? 0)))))) ct.

(** What [HUF_readCTable] returns: the table, [*maxSymbolValuePtr],
    [*hasZeroWeights] and the bytes read. *)
Record HUF_read := mkRead {
  hr_CTable : HUF_CTable;
  hr_maxSymbolValue : Z;
  hr_hasZeroWeights : bool;
  hr_size : Z;
}.

(** [huffWeight], [rankVal] and [wksp] are what the memory holds at first. *)
Definition HUF_readCTable (CTable : HUF_CTable) (maxSymbolValue : Z) (src : list Z)
    (huffWeight rankVal : list Z) (wksp : FSE_wksp) : result HUF_read :=
  (* get symbol weights *)
  let* r := HUF_readStats huffWeight rankVal src wksp in
  let tableLog := hs_tableLog r in
  let nbSymbols := hs_nbSymbols r in
  let* r0 := rd (hs_rankStats r) 0 in
  let hasZeroWeights := r0 >? 0 in
  (* check result *)
  ERROR_IF tableLog >? HUF_TABLELOG_MAX THEN tableLog_tooLarge ;;
  ERROR_IF nbSymbols >? u32 (maxSymbolValue + 1) THEN maxSymbolValue_tooSmall ;;
  let maxSymbolValue := nbSymbols - 1 in
  let CTable := HUF_writeCTableHeader CTable tableLog maxSymbolValue in
  (* Prepare base value per rank *)
  let* _ := HUF_rankStarts (hs_rankStats r) tableLog in
  (* fill nbBits *)
  let* ct := HUF_fillNbBits (hct_elts CTable) (hs_huffWeight r) tableLog nbSymbols in
  (* fill val *)
  let* nbPerRank := HUF_countBits ct (zfill (HUF_TABLELOG_MAX + 2) 0) nbSymbols in
  let* valPerRank := wr (zfill (HUF_TABLELOG_MAX + 2) 0) (tableLog + 1) 0 in
  let* valPerRank := HUF_valPerRank valPerRank nbPerRank tableLog in
  let* ct := HUF_assignValues ct valPerRank nbSymbols in
  Ok (mkRead (mkCTable (hct_tableLog CTable) (hct_maxSymbolValue CTable) ct)
        maxSymbolValue hasZeroWeights (hs_size r)).

Definition HUF_getNbBitsFromCTable (CTable : HUF_CTable) (symbolValue : Z) : result Z :=
  if symbolValue >? (HUF_readCTableHeader CTable).2 then Ok 0
  else let* e := rd (hct_elts CTable) symbolValue in Ok (HUF_getNbBits e).

(** A node of the tree, as [HUF_sort] and [HUF_buildTree] leave it. *)
Record nodeElt := mkNode {
  nd_count : Z;
  nd_parent : Z;
  nd_byte : Z;
  nd_nbBits : Z;
}.
#[global] Instance nodeElt_inhabited : Inhabited nodeElt := populate (mkNode 0 0 0 0).

Definition HUF_buildCTableFromTree (CTable : HUF_CTable) (huffNode : list nodeElt)
    (nonNullRank maxSymbolValue maxNbBits : Z) : result HUF_CTable :=
  let alphabetSize := maxSymbolValue + 1 in
  let* nbPerRank :=
    for_range 0 (nonNullRank + 1) (fun n nbPerRank =>
      let* nd := rd huffNode n in
      let* c := rd nbPerRank (nd_nbBits nd) in
      wr nbPerRank (nd_nbBits nd) (u16 (c + 1))) (zfill (HUF_TABLELOG_MAX + 1) 0) in
  (* determine starting value per rank *)
  let* valPerRank := HUF_valPerRank (zfill (HUF_TABLELOG_MAX + 1) 0) nbPerRank maxNbBits in
  let* ct :=
    for_range 0 alphabetSize (fun n ct =>
      let* nd := rd huffNode n in
      wr ct (nd_byte nd) (HUF_setNbBits (nd_nbBits nd))) (hct_elts CTable) in
  let* ct := HUF_assignValues ct valPerRank alphabetSize in
  Ok (HUF_writeCTableHeader (mkCTable (hct_tableLog CTable) (hct_maxSymbolValue CTable) ct)
        maxNbBits maxSymbolValue).

(** *** Specification: the place of a symbol in the decoding table *)

(** The entries of the symbols of weight below [w], and the first entry of the
    symbol [s], which has [weight_val w] of them. *)
Definition hbase (ws : list Z) (w : Z) : Z := zsumf (fun v => occ v ws * weight_val v) w.
Definition hpos (ws : list Z) (s : Z) : Z :=
  let w := zat ws s in
  hbase ws w + occ w (take (Z.to_nat s) ws) * weight_val w.

(** The element of the encoding table. *)
Definition code_val (ws : list Z) (s : Z) : Z := hpos ws s / weight_val (zat ws s).
Definition elt_of (ws : list Z) (L s : Z) : Z :=
  let w := zat ws s in
  if w =? 0 then 0 else code_val ws s * 2 ^ (64 - (L + 1 - w)) + (L + 1 - w).

(** Kraft's equality. The longest codes of a table that has been rescaled may be
    shorter than its depth. *)
Definition kraft (L : Z) (ws : list Z) : Prop :=
  1 <= L <= 12 /\ Forall (fun w => 0 <= w <= L) ws /\ weights_sum ws = 2 ^ L.

(** The number of bits of a symbol of weight [w]. *)
Definition bits_of (L w : Z) : Z := if w =? 0 then 0 else L + 1 - w.

Definition codes_ok (ws : list Z) (L : Z) (elts : list Z) : Prop :=
  zlen ws <= zlen elts /\ forall s, 0 <= s < zlen ws -> zat elts s = elt_of ws L s.

(** ** Lemmas *)

Lemma weight_val_0 : weight_val 0 = 0.
Proof. done. Qed.

Lemma zsumf_scale f c n : 0 <= n -> zsumf (fun i => f i * c) n = zsumf f n * c.
Proof.
  revert n. apply natlike_ind; [by rewrite !zsumf_0|].
  intros k Hk IH. rewrite <- Z.add_1_r, !zsumf_S, IH by lia. lia.
Qed.

Lemma weights_sum_zsumf ws n :
  0 <= n -> Forall (fun w => 0 <= w < n) ws -> weights_sum ws = zsumf (fun v => occ v ws * weight_val v) n.
Proof.
  intros Hn. induction 1 as [|w l Hw _ IH].
  - rewrite (zsumf_ext _ (fun _ => 0)) by (first [lia | intros; by rewrite occ_nil]).
    rewrite zsumf_const by lia. done.
  - change (weights_sum (w :: l)) with (weight_val w + weights_sum l). rewrite IH.
    rewrite (zsumf_ext (fun v => occ v (w :: l) * weight_val v)
               (fun v => b2z (w =? v) * weight_val w + occ v l * weight_val v)).
    + rewrite zsumf_add, zsumf_scale, zsumf_indicator, (proj2 (Z.ltb_lt w n)) by lia. simpl b2z. lia.
    + lia.
    + intros i Hi. rewrite occ_cons. destruct (Z.eqb_spec w i) as [->|]; simpl b2z; lia.
Qed.

Lemma complete_kraft L ws : complete L ws -> kraft L ws.
Proof. by intros (? & ? & ? & _). Qed.

Section canonical.
Context (ws : list Z) (L : Z).
Hypothesis Hc : kraft L ws.

Lemma cn_L : 1 <= L <= 12.
Proof. apply Hc. Qed.
Lemma cn_range s : 0 <= s < zlen ws -> 0 <= zat ws s <= L.
Proof. intros Hs. destruct Hc as (_ & HF & _). by apply (zat_Forall (fun w => 0 <= w <= L) ws). Qed.

Lemma hbase_total : hbase ws (L + 1) = 2 ^ L.
Proof.
  destruct Hc as (HL & HF & <-). symmetry. apply weights_sum_zsumf; [lia|].
  eapply Forall_impl; [exact HF|]. intros x Hx. cbn beta in Hx. lia.
Qed.

Lemma hbase_nonneg_term v : 0 <= v -> 0 <= occ v ws * weight_val v.
Proof.
  intros Hv. apply Z.mul_nonneg_nonneg; [apply occ_nonneg|]. destruct (Z.eq_dec v 0) as [->|]; [done|].
  rewrite weight_val_pos by lia. apply Z.pow_nonneg. lia.
Qed.

Lemma hbase_mono a b : 0 <= a <= b -> hbase ws a <= hbase ws b.
Proof. intros H. apply zsumf_mono; [lia|]. intros i Hi. apply hbase_nonneg_term. lia. Qed.
Lemma hbase_le w : 0 <= w <= L + 1 -> 0 <= hbase ws w <= 2 ^ L.
Proof.
  intros Hw. split; [|rewrite <- hbase_total; apply hbase_mono; lia].
  apply zsumf_nonneg; [lia|]. intros i Hi. apply hbase_nonneg_term. lia.
Qed.
Lemma hbase_S w : 0 <= w -> hbase ws (w + 1) = hbase ws w + occ w ws * weight_val w.
Proof. intros. unfold hbase. by rewrite zsumf_S. Qed.
Lemma hbase_1 : hbase ws 1 = 0.
Proof. change 1 with (0 + 1). rewrite hbase_S by lia. unfold hbase. rewrite zsumf_0, weight_val_0. lia. Qed.

(** The symbols of every weight start at a multiple of their size. *)
Lemma hbase_divide w : 1 <= w <= L + 1 -> (2 ^ (w - 1) | hbase ws w).
Proof.
  intros Hw. pose proof cn_L.
  assert (forall k : nat, 1 <= L + 1 - Z.of_nat k -> (2 ^ (L - Z.of_nat k) | hbase ws (L + 1 - Z.of_nat k))) as Hg.
  2: { specialize (Hg (Z.to_nat (L + 1 - w)) ltac:(lia)). rewrite Z2Nat.id in Hg by lia.
       replace (L - (L + 1 - w)) with (w - 1) in Hg by lia. by replace (L + 1 - (L + 1 - w)) with w in Hg by lia. }
  induction k as [|k IH]; intros Hk.
  - rewrite !Z.sub_0_r, hbase_total. apply Z.divide_refl.
  - set (v := L + 1 - Z.of_nat (S k)) in *. replace (L - Z.of_nat (S k)) with (v - 1) by lia.
    replace (L + 1 - Z.of_nat k) with (v + 1) in IH by lia. replace (L - Z.of_nat k) with v in IH by lia.
    specialize (IH ltac:(lia)). rewrite hbase_S, weight_val_pos in IH by lia.
    assert (2 ^ v = 2 * 2 ^ (v - 1)) as E by (rewrite <- pow2_S by lia; f_equal; lia).
    apply (Z.divide_add_cancel_r _ (occ v ws * 2 ^ (v - 1))); [by apply Z.divide_factor_r|].
    rewrite Z.add_comm. eapply Z.divide_trans; [|exact IH]. rewrite E. apply Z.divide_factor_r.
Qed.

(** The interval of a symbol. *)
Lemma hpos_range s :
  0 <= s < zlen ws -> 1 <= zat ws s ->
  hbase ws (zat ws s) <= hpos ws s /\ hpos ws s + weight_val (zat ws s) <= hbase ws (zat ws s + 1).
Proof.
  intros Hs Hw. unfold hpos. cbv zeta. rewrite hbase_S by lia. set (w := zat ws s) in *.
  assert (occ w (take (Z.to_nat s) ws) + 1 <= occ w ws) as Ho.
  { rewrite <- (firstn_all ws) at 2. replace (length ws) with (Z.to_nat (zlen ws)) by (unfold zlen; lia).
    pose proof (occ_take_mono w ws (s + 1) (zlen ws) ltac:(lia)) as Hm. rewrite take_zS, occ_app, occ_cons, occ_nil in Hm by lia.
    fold w in Hm. rewrite Z.eqb_refl in Hm. simpl b2z in Hm. lia. }
  pose proof (occ_nonneg w (take (Z.to_nat s) ws)). rewrite weight_val_pos by lia. pose proof (pow2_pos (w - 1) ltac:(lia)). nia.
Qed.

Lemma hpos_bounds s :
  0 <= s < zlen ws -> 1 <= zat ws s -> 0 <= hpos ws s /\ hpos ws s + weight_val (zat ws s) <= 2 ^ L.
Proof.
  intros Hs Hw. destruct (hpos_range s Hs Hw) as [H1 H2]. pose proof (cn_range s Hs).
  assert (0 <= hbase ws (zat ws s)) by (apply hbase_le; lia).
  assert (hbase ws (zat ws s + 1) <= 2 ^ L) by (apply hbase_le; lia). lia.
Qed.

Lemma code_val_spec s :
  0 <= s < zlen ws -> 1 <= zat ws s ->
  code_val ws s * weight_val (zat ws s) = hpos ws s /\ 0 <= code_val ws s < 2 ^ (L + 1 - zat ws s) /\
  code_val ws s = hbase ws (zat ws s) / 2 ^ (zat ws s - 1) + occ (zat ws s) (take (Z.to_nat s) ws).
Proof.
  intros Hs Hw. pose proof (cn_range s Hs) as Hr. set (w := zat ws s) in *.
  destruct (hbase_divide w ltac:(lia)) as [q Hq]. pose proof (pow2_pos (w - 1) ltac:(lia)) as Hp.
  assert (hpos ws s = (q + occ w (take (Z.to_nat s) ws)) * 2 ^ (w - 1)) as E.
  { unfold hpos. fold w. cbv zeta. rewrite weight_val_pos, Hq by lia. lia. }
  destruct (hpos_bounds s Hs Hw) as [H0 H1]. fold w in H1. unfold code_val. fold w. rewrite weight_val_pos in * by lia.
  rewrite E, Hq, !Z.div_mul by lia. split; [done|]. split; [|done]. rewrite E in H0, H1.
  assert (2 ^ L = 2 ^ (L + 1 - w) * 2 ^ (w - 1)) as EL by (rewrite <- pow2_add by lia; f_equal; lia). nia.
Qed.

End canonical.

(** *** The elements *)

Lemma getNbBits_mod e : HUF_getNbBits e = e mod 2 ^ 8.
Proof. unfold HUF_getNbBits. change 0xFF with (2 ^ 8 - 1). by rewrite land_mask by lia. Qed.
Lemma getNbBits_small nb : 0 <= nb < 256 -> HUF_getNbBits nb = nb.
Proof. intros. rewrite getNbBits_mod. by apply Z.mod_small. Qed.

Lemma elt_bounds nb v : 0 <= nb <= 56 -> 0 <= v < 2 ^ nb -> 0 <= v * 2 ^ (64 - nb) <= 2 ^ 64 - 2 ^ (64 - nb).
Proof.
  intros Hnb Hv. replace (2 ^ 64) with (2 ^ nb * 2 ^ (64 - nb)) by (rewrite <- pow2_add by lia; f_equal; lia).
  pose proof (pow2_pos (64 - nb) ltac:(lia)). nia.
Qed.

Lemma getNbBits_elt nb v : 0 <= nb <= 56 -> 0 <= v -> HUF_getNbBits (v * 2 ^ (64 - nb) + nb) = nb.
Proof.
  intros Hnb Hv. rewrite getNbBits_mod. replace (2 ^ (64 - nb)) with (2 ^ (56 - nb) * 2 ^ 8) by (rewrite <- pow2_add by lia; f_equal; lia).
  rewrite Z.mul_assoc, Z.add_comm, Z.mod_add by lia. apply Z.mod_small. lia.
Qed.

Lemma setValue_ok nb v : 1 <= nb <= 12 -> 0 <= v < 2 ^ nb -> HUF_setValue nb v = Ok (v * 2 ^ (64 - nb) + nb).
Proof.
  intros Hnb Hv. unfold HUF_setValue. cbv zeta. rewrite getNbBits_small, Z.gtb_ltb, (proj2 (Z.ltb_lt 0 nb)) by lia.
  unfold defined_if. rewrite (proj2 (Z.leb_le nb 64)) by lia. pose proof (elt_bounds nb v ltac:(lia) Hv).
  pose proof (pow2_pos (64 - nb) ltac:(lia)). pose proof (pow2_le 52 (64 - nb) ltac:(lia)).
  rewrite u64_small by (rewrite Z.shiftl_mul_pow2 by lia; lia). rewrite lor_shiftl_add by lia. f_equal. lia.
Qed.

Lemma setValue_zero v : HUF_setValue 0 v = Ok 0.
Proof. done. Qed.

(** Counting, in an array of 16-bit words. *)

Lemma count_loop_ok {A} `{!Inhabited A} (f : A -> Z) l p0 n :
  0 <= n <= zlen l -> n < 2 ^ 16 -> (forall k, 0 <= k < n -> 0 <= f (zat l k) < zlen p0) ->
  (forall nb, 0 <= nb < zlen p0 -> zat p0 nb = 0) ->
  exists p, for_range 0 n (fun k p =>
      let* x := rd l k in
      let* c := rd p (f x) in
      wr p (f x) (u16 (c + 1))) p0 = Ok p /\ zlen p = zlen p0 /\
    (forall nb, 0 <= nb < zlen p0 -> zat p nb = occ nb (map f (take (Z.to_nat n) l))).
Proof.
  intros Hn H16 Hf Hz. match goal with |- exists t, ?c = _ /\ _ => destruct (wp_no_errors_Ok c (fun p => zlen p = zlen p0 /\
    (forall nb, 0 <= nb < zlen p0 -> zat p nb = occ nb (map f (take (Z.to_nat n) l))))) as (t & E & Ht); [|by exists t] end.
  apply (wp_for (fun k p => zlen p = zlen p0 /\
    (forall nb, 0 <= nb < zlen p0 -> zat p nb = occ nb (map f (take (Z.to_nat k) l))))); [lia| | |done].
  - split; [done|]. intros nb Hnb. rewrite Hz by done. done.
  - intros k p Hk [Hl Hp]. specialize (Hf k Hk). wp_step. wp_step; [lia|]. wp_step. wp_step; [lia|]. wp_step; [lia|].
    rewrite zlen_zupd. split; [done|]. intros nb Hnb. rewrite take_zS, map_app, occ_app, zat_zupd by lia. cbn [map].
    rewrite occ_cons, occ_nil, Z.eqb_sym. destruct (Z.eqb_spec (f (zat l k)) nb) as [<-|]; simpl b2z; rewrite Hp by lia; [|lia].
    rewrite u16_small; [lia|]. pose proof (occ_nonneg (f (zat l k)) (map f (take (Z.to_nat k) l))).
    pose proof (occ_le_len (f (zat l k)) (map f (take (Z.to_nat k) l))) as Ho.
    unfold zlen in Ho, Hn. rewrite length_map, length_take in Ho. lia.
Qed.

(** *** Values *)

Section values.
Context (ws : list Z) (L : Z).
Hypothesis Hc : kraft L ws.
Hypothesis Hn : zlen ws <= 256.

(** The counts of the lengths. *)
Definition counts_ok (nbPerRank : list Z) : Prop :=
  L + 1 <= zlen nbPerRank /\ forall nb, 1 <= nb <= L -> zat nbPerRank nb = occ (L + 1 - nb) ws.

(** The starting values, when [k] lengths are done. *)
Lemma valPerRank_ok vpr npr :
  counts_ok npr -> L + 1 <= zlen vpr ->
  exists vpr', HUF_valPerRank vpr npr L = Ok vpr' /\ zlen vpr' = zlen vpr /\ zat vpr' 0 = zat vpr 0 /\
    (forall nb, 1 <= nb <= L -> zat vpr' nb = hbase ws (L + 1 - nb) / 2 ^ (L - nb)).
Proof.
  intros [Hl Hz] Hv. pose proof (cn_L ws L Hc) as HL.
  match goal with |- exists t, ?c = _ /\ _ => destruct (wp_no_errors_Ok c (fun vpr' => zlen vpr' = zlen vpr /\ zat vpr' 0 = zat vpr 0 /\
    (forall nb, 1 <= nb <= L -> zat vpr' nb = hbase ws (L + 1 - nb) / 2 ^ (L - nb)))) as (t & E & Ht); [|by exists t] end.
  unfold HUF_valPerRank. wp_step.
  apply (wp_for (fun k '(vpr', min) => zlen vpr' = zlen vpr /\ zat vpr' 0 = zat vpr 0 /\ min = hbase ws (k + 1) / 2 ^ k /\
    (forall nb, L - k < nb <= L -> zat vpr' nb = hbase ws (L + 1 - nb) / 2 ^ (L - nb)))); [lia| | |].
  - split_and!; try done; [by rewrite hbase_1|]. intros; lia.
  - intros k [v min] Hk (Hlv & H0 & -> & Hv'). cbv zeta. wp_step. wp_step; [lia|]. wp_step. wp_step; [lia|].
    rewrite Hz by lia. replace (L + 1 - (L - k)) with (k + 1) by lia. wp_step.
    destruct (hbase_divide ws L Hc (k + 1) ltac:(lia)) as [q Hq]. replace (k + 1 - 1) with k in Hq by lia.
    pose proof (pow2_pos k ltac:(lia)) as Hp. pose proof (hbase_S ws (k + 1) ltac:(lia)) as HS.
    rewrite weight_val_pos in HS by lia. replace (k + 1 - 1) with k in HS by lia. pose proof (occ_nonneg (k + 1) ws).
    assert (hbase ws (k + 1 + 1) = (q + occ (k + 1) ws) * 2 ^ k) as E by lia.
    pose proof (hbase_le ws L Hc (k + 1 + 1) ltac:(lia)) as Hle. pose proof (pow2_le L 12 ltac:(lia)) as H12.
    pose proof (hbase_le ws L Hc (k + 1) ltac:(lia)) as Hle1.
    rewrite Hq, Z.div_mul by lia. assert (0 <= q) by nia. assert (q + occ (k + 1) ws <= 2 ^ L) by nia.
    rewrite u16_small by lia. split_and!; [by rewrite zlen_zupd|by rewrite zat_zupd_ne by lia| |].
    + rewrite Z.shiftr_div_pow2 by lia. replace (k + 1) with (1 + k) at 3 by lia. rewrite pow2_add, E by lia.
      rewrite (Z.mul_comm (2 ^ 1)), <- Z.div_div, Z.div_mul by lia. done.
    + intros nb Hnb. rewrite zat_zupd by lia. destruct (Z.eqb_spec nb (L - k)) as [->|]; [|apply Hv'; lia].
      replace (L + 1 - (L - k)) with (k + 1) by lia. replace (L - (L - k)) with k by lia. by rewrite Hq, Z.div_mul by lia.
  - intros [v min] (Hlv & H0 & _ & Hv'). wp_step. split_and!; try done. intros nb Hnb. apply Hv'. lia.
Qed.

(** Values within a rank: the elements up to [k] have got theirs. *)
Lemma assignValues_ok ct vpr n :
  n = zlen ws -> n <= zlen ct -> L + 1 <= zlen vpr ->
  (forall s, 0 <= s < n -> zat ct s = bits_of L (zat ws s)) ->
  (forall nb, 1 <= nb <= L -> zat vpr nb = hbase ws (L + 1 - nb) / 2 ^ (L - nb)) ->
  exists ct', HUF_assignValues ct vpr n = Ok ct' /\ zlen ct' = zlen ct /\
    (forall s, 0 <= s < n -> zat ct' s = elt_of ws L s) /\ (forall s, n <= s -> zat ct' s = zat ct s).
Proof.
  intros -> Hl Hlv Hct Hv. pose proof (cn_L ws L Hc) as HL. pose proof (zlen_nonneg ws).
  match goal with |- exists t, ?c = _ /\ _ => destruct (wp_no_errors_Ok c (fun ct' => zlen ct' = zlen ct /\
    (forall s, 0 <= s < zlen ws -> zat ct' s = elt_of ws L s) /\ (forall s, zlen ws <= s -> zat ct' s = zat ct s))) as (t & E & Ht); [|by exists t] end.
  unfold HUF_assignValues. wp_step.
  apply (wp_for (fun k '(ct', vpr') => zlen ct' = zlen ct /\ zlen vpr' = zlen vpr /\
    (forall s, 0 <= s < k -> zat ct' s = elt_of ws L s) /\ (forall s, k <= s -> zat ct' s = zat ct s) /\
    (forall nb, 1 <= nb <= L -> zat vpr' nb = hbase ws (L + 1 - nb) / 2 ^ (L - nb) + occ (L + 1 - nb) (take (Z.to_nat k) ws)))); [lia| | |].
  - split_and!; try done; [intros; lia|]. intros nb Hnb. rewrite Hv by done. change (take (Z.to_nat 0) ws) with (@nil Z). rewrite occ_nil. lia.
  - intros k [c v] Hk (Hlc & Hlv' & Hdone & Hrest & Hval). wp_step. wp_step; [lia|]. rewrite Hrest, Hct by lia.
    pose proof (cn_range ws L Hc k Hk) as Hr. set (w := zat ws k) in *.
    assert (0 <= bits_of L w <= L) as Hb by (unfold bits_of; destruct (Z.eqb_spec w 0); lia).
    rewrite getNbBits_small by lia. wp_step. wp_step; [lia|]. wp_step. wp_step; [lia|]. wp_step.
    assert (HUF_setValue (bits_of L w) (zat v (bits_of L w)) = Ok (elt_of ws L k)) as ->.
    { unfold elt_of. fold w. cbv zeta. unfold bits_of. destruct (Z.eqb_spec w 0) as [->|]; [apply setValue_zero|].
      destruct (code_val_spec ws L Hc k Hk) as (_ & Hcv & Ecv); fold w; [lia|]. fold w in Hcv, Ecv.
      rewrite Hval by lia. replace (L + 1 - (L + 1 - w)) with w by lia. replace (L - (L + 1 - w)) with (w - 1) by lia.
      rewrite <- Ecv. apply setValue_ok; lia. }
    wp_step. wp_step. wp_step; [lia|]. wp_step. rewrite !zlen_zupd. split_and!; try done.
    + intros s Hs. rewrite zat_zupd by lia. destruct (Z.eqb_spec s k) as [->|]; [done|]. apply Hdone. lia.
    + intros s Hs. rewrite zat_zupd_ne by lia. apply Hrest. lia.
    + intros nb Hnb. rewrite occ_take_S by lia. fold w. rewrite zat_zupd by lia.
      assert (bits_of L w = nb <-> w = L + 1 - nb) as Hiff by (unfold bits_of; destruct (Z.eqb_spec w 0); lia).
      destruct (Z.eqb_spec nb (bits_of L w)) as [->|Hne].
      * rewrite (proj2 (Z.eqb_eq w _)) by (by apply Hiff). simpl b2z. rewrite Hval by lia.
        set (x := hbase ws _ / _ + _). assert (0 <= x < 2 ^ 12) as Hx; [|rewrite u16_small by lia; lia].
        destruct (code_val_spec ws L Hc k Hk) as (_ & Hcv & Ecv); fold w; [lia|]. fold w in Hcv, Ecv.
        pose proof (pow2_le (L + 1 - w) 12 ltac:(lia)). subst x.
        replace (L - bits_of L w) with (w - 1) by (unfold bits_of; destruct (Z.eqb_spec w 0); lia).
        replace (L + 1 - bits_of L w) with w by lia. lia.
      * rewrite (proj2 (Z.eqb_neq w _)) by (intros E; apply Hne; symmetry; by apply Hiff). simpl b2z. rewrite Hval by lia. lia.
  - intros [c v] (Hlc & _ & Hdone & Hrest & _). by wp_step.
Qed.

(** The counts of the lengths. *)
Lemma occ_bits_of nb : 1 <= nb <= L -> occ nb (map (bits_of L) ws) = occ (L + 1 - nb) ws.
Proof.
  intros Hnb. pose proof (cn_L ws L Hc) as HL. destruct Hc as (_ & HF & _). clear -HF Hnb.
  induction HF as [|w l Hw _ IH]; [done|]. rewrite map_cons, !occ_cons, IH. f_equal. unfold bits_of.
  destruct (Z.eqb_spec w 0), (Z.eqb_spec w (L + 1 - nb)); first [lia | by rewrite (proj2 (Z.eqb_neq _ _)) by lia | by rewrite (proj2 (Z.eqb_eq _ _)) by lia].
Qed.

Lemma countBits_ok ct npr n :
  n = zlen ws -> n <= zlen ct -> L + 1 <= zlen npr -> (forall nb, 0 <= nb < zlen npr -> zat npr nb = 0) ->
  (forall s, 0 <= s < n -> zat ct s = bits_of L (zat ws s)) ->
  exists npr', HUF_countBits ct npr n = Ok npr' /\ counts_ok npr'.
Proof.
  intros -> Hl Hlp Hz Hct. pose proof (cn_L ws L Hc) as HL. pose proof (zlen_nonneg ws).
  assert (forall s, 0 <= s < zlen ws -> HUF_getNbBits (zat ct s) = bits_of L (zat ws s) /\ 0 <= bits_of L (zat ws s) <= L) as Hnb.
  { intros s Hs. pose proof (cn_range ws L Hc s Hs). rewrite Hct by done. rewrite getNbBits_small;
      unfold bits_of; destruct (Z.eqb_spec (zat ws s) 0); lia. }
  destruct (count_loop_ok HUF_getNbBits ct npr (zlen ws)) as (p & E & Hlp' & Hp); [lia|lia| |done|].
  { intros k Hk. destruct (Hnb k Hk). lia. }
  exists p. split; [exact E|]. split; [lia|]. intros nb Hnb'. rewrite Hp, <- occ_bits_of by lia. f_equal. symmetry.
  apply zat_ext; unfold zlen in *; rewrite !length_map; [rewrite length_take; lia|]. intros i Hi.
  rewrite !zat_map by (unfold zlen; rewrite ?length_take; lia). unfold zat at 2. rewrite lookup_total_take_lt by lia.
  symmetry. apply Hnb. unfold zlen. lia.
Qed.

End values.

(** *** Reading a table *)

Lemma stats_complete hw0 rk0 n r :
  stats_ok hw0 rk0 n r -> complete (hs_tableLog r) (take (Z.to_nat (hs_nbSymbols r)) (hs_huffWeight r)).
Proof.
  intros (_ & _ & HL & _ & _ & HF & Hsum & Hocc & H1 & _). split; [done|]. split; [done|]. split; [done|].
  rewrite Hocc in H1 by lia. apply occ_pos. lia.
Qed.

Lemma rankStarts_ok rk L :
  0 <= L < zlen rk -> exists rk', HUF_rankStarts rk L = Ok rk' /\ zlen rk' = zlen rk.
Proof.
  intros HL. match goal with |- exists t, ?c = _ /\ _ => destruct (wp_no_errors_Ok c (fun rk' => zlen rk' = zlen rk)) as (t & E & Ht); [|by exists t] end.
  unfold HUF_rankStarts. wp_step. apply (wp_for (fun _ '(rk', _) => zlen rk' = zlen rk)); [lia|done| |].
  - intros n [rk' start] Hn Hl. cbv zeta. wp_step. wp_step; [lia|]. wp_step. wp_step; [lia|]. wp_step. by rewrite zlen_zupd.
  - intros [rk' start] Hl. by wp_step.
Qed.

Lemma nbBits_mask L w : 0 <= w <= L -> L <= 12 -> HUF_setNbBits (u8 (L + 1 - w) .& (- b2z (negb (w =? 0)))) = bits_of L w.
Proof.
  intros Hw HL. unfold HUF_setNbBits, bits_of. destruct (Z.eqb_spec w 0); cbn [negb b2z].
  - apply Z.land_0_r.
  - rewrite u8_small by lia. change (- (1)) with (-1). apply Z.land_m1_r.
Qed.

Lemma fillNbBits_ok ct hw L n :
  0 <= n <= zlen ct -> n <= zlen hw -> L <= 12 -> (forall s, 0 <= s < n -> 0 <= zat hw s <= L) ->
  exists ct', HUF_fillNbBits ct hw L n = Ok ct' /\ zlen ct' = zlen ct /\
    (forall s, 0 <= s < n -> zat ct' s = bits_of L (zat hw s)) /\ (forall s, n <= s -> zat ct' s = zat ct s).
Proof.
  intros Hn Hh HL Hw. match goal with |- exists t, ?c = _ /\ _ => destruct (wp_no_errors_Ok c (fun ct' => zlen ct' = zlen ct /\
    (forall s, 0 <= s < n -> zat ct' s = bits_of L (zat hw s)) /\ (forall s, n <= s -> zat ct' s = zat ct s))) as (t & E & Ht); [|by exists t] end.
  unfold HUF_fillNbBits. apply (wp_for (fun k ct' => zlen ct' = zlen ct /\
    (forall s, 0 <= s < k -> zat ct' s = bits_of L (zat hw s)) /\ (forall s, k <= s -> zat ct' s = zat ct s))); [lia| | |done].
  - split_and!; try done. intros; lia.
  - intros k c Hk (Hl & Hd & Hr). wp_step. wp_step; [lia|]. wp_step; [lia|]. rewrite zlen_zupd. split; [done|].
    rewrite nbBits_mask by (try apply Hw; lia). split; intros s Hs; rewrite zat_zupd by lia.
    + destruct (Z.eqb_spec s k) as [->|]; [done|]. apply Hd. lia.
    + destruct (Z.eqb_spec s k); [lia|]. apply Hr. lia.
Qed.

Definition read_table_ok (ws : list Z) (L : Z) (CTable : HUF_CTable) (r : HUF_read) : Prop :=
  hct_tableLog (hr_CTable r) = L /\ hct_maxSymbolValue (hr_CTable r) = zlen ws - 1 /\
  hr_maxSymbolValue r = zlen ws - 1 /\ hr_hasZeroWeights r = bool_decide (0 ∈ ws) /\
  zlen (hct_elts (hr_CTable r)) = zlen (hct_elts CTable) /\
  codes_ok ws L (hct_elts (hr_CTable r)) /\
  (forall s, zlen ws <= s -> zat (hct_elts (hr_CTable r)) s = zat (hct_elts CTable) s).

(** The table of the weights that are read. *)
Lemma readCTable_body CTable maxSV src hw rk wk rs :
  HUF_readStats hw rk src wk = Ok rs ->
  let ws := take (Z.to_nat (hs_nbSymbols rs)) (hs_huffWeight rs) in
  zlen ws = hs_nbSymbols rs -> 1 <= zlen ws <= 256 -> kraft (hs_tableLog rs) ws ->
  13 <= zlen (hs_rankStats rs) -> zat (hs_rankStats rs) 0 = occ 0 ws ->
  0 <= maxSV < zlen (hct_elts CTable) -> maxSV <= 255 ->
  wp (HUF_readCTable CTable maxSV src hw rk wk)
    (fun r => zlen ws <= maxSV + 1 /\ hr_size r = hs_size rs /\ read_table_ok ws (hs_tableLog rs) CTable r)
    (fun e => e = maxSymbolValue_tooSmall /\ maxSV + 1 < zlen ws).
Proof.
  intros Hrd ws Hnb Hlen Hc Hrk H0 Hm Hm255. pose proof (cn_L _ _ Hc) as HL. set (L := hs_tableLog rs) in *.
  unfold HUF_readCTable. rewrite Hrd. cbn [bind]. cbv zeta. fold L. rewrite <- Hnb.
  wp_step. wp_step; [lia|]. change HUF_TABLELOG_MAX with 12. wp_step; [lia|].
  rewrite u32_small by lia. wp_step; [split; [done|lia]|].
  destruct (rankStarts_ok (hs_rankStats rs) L) as (rk' & -> & _); [lia|]. cbn [bind].
  assert (zlen ws <= zlen (hs_huffWeight rs)) as Hlh by (unfold ws, zlen; rewrite length_take; lia).
  assert (forall s, 0 <= s < zlen ws -> zat (hs_huffWeight rs) s = zat ws s) as Hws.
  { intros s Hs. unfold ws, zat. rewrite lookup_total_take_lt by lia. done. }
  destruct (fillNbBits_ok (hct_elts CTable) (hs_huffWeight rs) L (zlen ws)) as (ct & E & Hlc & Hct & Hrest); [lia|lia|lia| |].
  { intros s Hs. rewrite Hws by done. by apply cn_range. }
  unfold HUF_writeCTableHeader at 1. cbn [hct_elts]. rewrite E. cbn [bind].
  assert (forall s, 0 <= s < zlen ws -> zat ct s = bits_of L (zat ws s)) as Hct' by (intros; by rewrite Hct, Hws).
  change (12 + 2) with 14.
  destruct (countBits_ok ws L Hc ltac:(lia) ct (zfill 14 0) (zlen ws)) as (npr & -> & Hnpr);
    [done|lia|rewrite zlen_zfill; lia|rewrite zlen_zfill by lia; intros nb Hnb'; apply zat_zfill; lia|done|]. cbn [bind].
  rewrite wr_ok by (rewrite zlen_zfill; lia). cbn [bind].
  destruct (valPerRank_ok ws L Hc (zupd (zfill 14 0) (L + 1) 0) npr Hnpr) as (vpr & -> & Hlv & _ & Hv);
    [rewrite zlen_zupd, zlen_zfill; lia|]. rewrite zlen_zupd, zlen_zfill in Hlv by lia. cbn [bind].
  destruct (assignValues_ok ws L Hc ct vpr (zlen ws)) as (ct' & -> & Hlc' & Hd & Hr); [done|lia|lia|done|done|].
  cbn [bind]. wp_step. split; [lia|]. cbn [hr_size]. split; [done|]. unfold read_table_ok, HUF_writeCTableHeader.
  cbn [hr_CTable hct_tableLog hct_maxSymbolValue hr_maxSymbolValue hr_hasZeroWeights hct_elts].
  rewrite !u8_small by lia. split_and!; try done; try lia.
  - rewrite H0, Z.gtb_ltb. pose proof (occ_pos 0 ws) as Ho. case_bool_decide; [apply Z.ltb_lt; tauto|apply Z.ltb_ge, Z.nlt_ge; tauto].
  - split; [lia|done].
  - intros s Hs. by rewrite Hr, Hrest.
Qed.

(** *** Building a table from the tree *)

(** The nodes of a Huffman tree, sorted: each symbol once, the symbols that have a
    code first. *)
Record nodes_ok (nodes : list nodeElt) (nonNullRank : Z) (L : Z) (ws : list Z) : Prop := {
  no_len : zlen ws <= zlen nodes;
  no_rank : 0 <= nonNullRank < zlen ws;
  no_bytes : map nd_byte (take (length ws) nodes) ≡ₚ seqZ 0 (zlen ws);
  no_bits : forall n, 0 <= n < zlen ws -> nd_nbBits (zat nodes n) = bits_of L (zat ws (nd_byte (zat nodes n)));
  no_null : forall n, nonNullRank < n < zlen ws -> nd_nbBits (zat nodes n) = 0;
}.

Section tree.
Context (nodes : list nodeElt) (rank L : Z) (ws : list Z).
Hypothesis Hno : nodes_ok nodes rank L ws.
Hypothesis Hc : kraft L ws.

Lemma node_byte n : 0 <= n < zlen ws -> 0 <= nd_byte (zat nodes n) < zlen ws.
Proof.
  intros Hn. pose proof (no_len _ _ _ _ Hno). assert (nd_byte (zat nodes n) ∈ seqZ 0 (zlen ws)) as Hin.
  { rewrite <- (no_bytes _ _ _ _ Hno). apply list_elem_of_fmap. exists (zat nodes n). split; [done|].
    apply list_elem_of_lookup. exists (Z.to_nat n). unfold zlen, zat in *. rewrite lookup_take_lt by lia. apply list_lookup_lookup_total_lt. lia. }
  apply elem_of_seqZ in Hin. lia.
Qed.

Lemma map_lookup_seqZ l : map (zat l) (seqZ 0 (zlen l)) = (l : list Z).
Proof.
  pose proof (zlen_nonneg l). apply zat_ext; rewrite zlen_map_seqZ by lia; [done|]. intros i Hi. by rewrite zat_map_seqZ by lia.
Qed.

Lemma node_lengths : map nd_nbBits (take (length ws) nodes) ≡ₚ map (bits_of L) ws.
Proof.
  rewrite <- (map_lookup_seqZ ws) at 2. rewrite map_map. rewrite <- (no_bytes _ _ _ _ Hno), map_map.
  apply Permutation_refl', map_ext_in. intros x Hx. apply list_elem_of_In, list_elem_of_lookup in Hx as (i & Hi).
  apply lookup_take_Some in Hi as [Hi Hlt]. rewrite <- (list_lookup_total_correct _ _ _ Hi).
  pose proof (no_bits _ _ _ _ Hno (Z.of_nat i)) as Hb. unfold zat in Hb at 1. unfold zat in Hb at 2. rewrite Nat2Z.id in Hb. apply Hb.
  unfold zlen. lia.
Qed.

(** The symbols without a code do not count. *)
Lemma occ_rank nb : 1 <= nb -> occ nb (map nd_nbBits (take (Z.to_nat (rank + 1)) nodes)) = occ nb (map (bits_of L) ws).
Proof.
  intros Hnb. rewrite <- (occ_perm nb _ _ node_lengths). destruct (no_rank _ _ _ _ Hno) as [H0 H1].
  pose proof (no_len _ _ _ _ Hno) as Hl.
  rewrite <- (take_drop (Z.to_nat (rank + 1)) (take (length ws) nodes)), map_app, occ_app, take_take.
  replace (Z.to_nat (rank + 1) `min` length ws)%nat with (Z.to_nat (rank + 1)) by (unfold zlen in *; lia).
  rewrite (occ_out nb (map nd_nbBits (drop _ _)) (fun x => x = 0)); [lia| |lia].
  apply Forall_map, Forall_forall. intros x Hx. apply list_elem_of_lookup in Hx as (i & Hi).
  rewrite lookup_drop in Hi. apply lookup_take_Some in Hi as [Hi Hlt]. cbn beta.
  rewrite <- (list_lookup_total_correct _ _ _ Hi).
  pose proof (no_null _ _ _ _ Hno (Z.of_nat (Z.to_nat (rank + 1) + i))) as Hz. unfold zat in Hz. rewrite Nat2Z.id in Hz.
  apply Hz. unfold zlen. lia.
Qed.

Lemma node_of s : 0 <= s < zlen ws -> exists n, 0 <= n < zlen ws /\ s = nd_byte (zat nodes n).
Proof.
  intros Hs. assert (s ∈ map nd_byte (take (length ws) nodes)) as Hin by (rewrite (no_bytes _ _ _ _ Hno); apply elem_of_seqZ; lia).
  apply list_elem_of_fmap in Hin as (x & -> & Hx). apply list_elem_of_lookup in Hx as (i & Hi).
  apply lookup_take_Some in Hi as [Hi Hlt]. exists (Z.of_nat i). split; [unfold zlen; lia|].
  unfold zat. by rewrite Nat2Z.id, (list_lookup_total_correct _ _ _ Hi).
Qed.

(** The lengths, in the order of the symbols. *)
Lemma push_ok ct :
  zlen ws <= zlen ct ->
  exists ct', for_range 0 (zlen ws) (fun n ct =>
      let* nd := rd nodes n in
      wr ct (nd_byte nd) (HUF_setNbBits (nd_nbBits nd))) ct = Ok ct' /\ zlen ct' = zlen ct /\
    (forall s, 0 <= s < zlen ws -> zat ct' s = bits_of L (zat ws s)) /\ (forall s, zlen ws <= s -> zat ct' s = zat ct s).
Proof.
  intros Hct. pose proof (no_len _ _ _ _ Hno) as Hl. pose proof (zlen_nonneg ws).
  match goal with |- exists t, ?c = _ /\ _ => destruct (wp_no_errors_Ok c (fun ct' => zlen ct' = zlen ct /\
    (forall n, 0 <= n < zlen ws -> zat ct' (nd_byte (zat nodes n)) = bits_of L (zat ws (nd_byte (zat nodes n)))) /\
    (forall s, zlen ws <= s -> zat ct' s = zat ct s))) as (t & E & Hlt & Hb & Hr) end.
  - apply (wp_for (fun k ct' => zlen ct' = zlen ct /\
      (forall n, 0 <= n < k -> zat ct' (nd_byte (zat nodes n)) = bits_of L (zat ws (nd_byte (zat nodes n)))) /\
      (forall s, zlen ws <= s -> zat ct' s = zat ct s))); [lia| | |done].
    + split_and!; try done. intros; lia.
    + intros k c Hk (Hlc & Hd & Hr). pose proof (node_byte k Hk). wp_step. wp_step; [lia|]. wp_step; [lia|].
      unfold HUF_setNbBits. rewrite zlen_zupd. split; [done|]. split.
      * intros n Hn. pose proof (node_byte n ltac:(lia)). rewrite zat_zupd by lia.
        destruct (Z.eqb_spec (nd_byte (zat nodes n)) (nd_byte (zat nodes k))) as [->|]; [by apply (no_bits _ _ _ _ Hno)|].
        apply Hd. destruct (Z.eq_dec n k) as [->|]; [done|lia].
      * intros s Hs. rewrite zat_zupd_ne by lia. by apply Hr.
  - exists ct'. split; [done|]. split; [done|]. split; [|done]. intros s Hs.
    destruct (node_of s Hs) as (n & Hn & ->). by apply Hb.
Qed.

Lemma buildCTableFromTree_ok CTable :
  zlen ws <= 256 -> zlen ws <= zlen (hct_elts CTable) ->
  exists CTable', HUF_buildCTableFromTree CTable nodes rank (zlen ws - 1) L = Ok CTable' /\
    hct_tableLog CTable' = L /\ hct_maxSymbolValue CTable' = zlen ws - 1 /\
    zlen (hct_elts CTable') = zlen (hct_elts CTable) /\ codes_ok ws L (hct_elts CTable').
Proof.
  intros H256 Hl. pose proof (cn_L _ _ Hc) as HL. pose proof (no_len _ _ _ _ Hno) as Hnl. destruct (no_rank _ _ _ _ Hno) as [Hr0 Hr1].
  unfold HUF_buildCTableFromTree. cbv zeta. replace (zlen ws - 1 + 1) with (zlen ws) by lia. change (HUF_TABLELOG_MAX + 1) with 13.
  destruct (count_loop_ok nd_nbBits nodes (zfill 13 0) (rank + 1)) as (npr & -> & Hln & Hz); [lia|lia| | |].
  { intros k Hk. rewrite zlen_zfill, (no_bits _ _ _ _ Hno) by lia.
    pose proof (cn_range ws L Hc _ (node_byte k ltac:(lia))). unfold bits_of. destruct (Z.eqb_spec (zat ws (nd_byte (zat nodes k))) 0); lia. }
  { rewrite zlen_zfill by lia. intros; apply zat_zfill; lia. }
  rewrite zlen_zfill in Hln, Hz by lia. cbn [bind].
  assert (counts_ok ws L npr) as Hnpr.
  { split; [lia|]. intros nb Hnb. rewrite Hz, occ_rank by lia.
    apply (occ_bits_of ws L Hc nb Hnb). }
  destruct (valPerRank_ok ws L Hc (zfill 13 0) npr Hnpr) as (vpr & -> & Hlv & _ & Hv); [rewrite zlen_zfill; lia|].
  rewrite zlen_zfill in Hlv by lia. cbn [bind].
  destruct (push_ok (hct_elts CTable) Hl) as (ct & -> & Hlc & Hct & _). cbn [bind].
  destruct (assignValues_ok ws L Hc ct vpr (zlen ws)) as (ct' & -> & Hlc' & Hd & _); [done|lia|lia|done|done|].
  cbn [bind]. eexists. split; [done|]. unfold HUF_writeCTableHeader. cbn [hct_tableLog hct_maxSymbolValue hct_elts].
  rewrite !u8_small by lia. split_and!; try done; [lia|]. split; [lia|done].
Qed.

End tree.

(** The lengths of a canonical table are those of the weights. *)
Lemma codes_ok_lengths CTable ws L :
  kraft L ws -> codes_ok ws L (hct_elts CTable) ->
  (forall s, 0 <= s < zlen ws -> HUF_getNbBits (zat (hct_elts CTable) s) = bits_of L (zat ws s)) /\
  tree_weights CTable (zlen ws - 1) L = ws.
Proof.
  intros Hc [Hl He]. pose proof (cn_L _ _ Hc). pose proof (zlen_nonneg ws).
  assert (forall s, 0 <= s < zlen ws -> HUF_getNbBits (zat (hct_elts CTable) s) = bits_of L (zat ws s)) as Hb.
  { intros s Hs. rewrite He by done. unfold elt_of, bits_of. cbv zeta. pose proof (cn_range ws L Hc s Hs).
    destruct (Z.eqb_spec (zat ws s) 0); [done|]. destruct (code_val_spec ws L Hc s Hs) as (_ & ? & _); [lia|].
    apply getNbBits_elt; lia. }
  split; [done|]. unfold tree_weights. replace (zlen ws - 1 + 1) with (zlen ws) by lia. apply zat_ext; rewrite zlen_map_seqZ by lia; [done|].
  intros i Hi. rewrite zat_map_seqZ, Hb by lia. pose proof (cn_range ws L Hc i Hi). unfold weight_of, bits_of.
  destruct (Z.eqb_spec (zat ws i) 0) as [->|]; [done|]. rewrite (proj2 (Z.eqb_neq _ 0)) by lia. lia.
Qed.

(** The table made of a tree, and its description. *)
Lemma tree_table_described nodes rank L ws CTable dst w :
  nodes_ok nodes rank L ws -> complete L ws -> 2 <= zlen ws <= 256 -> 1 <= zat ws (zlen ws - 1) ->
  zlen ws <= zlen (hct_elts CTable) -> bytes_ok dst -> 33 <= zlen dst < 2 ^ 26 -> wcw_ok w ->
  exists CT, HUF_buildCTableFromTree CTable nodes rank (zlen ws - 1) L = Ok CT /\
    hct_tableLog CT = L /\ hct_maxSymbolValue CT = zlen ws - 1 /\ codes_ok ws L (hct_elts CT) /\
  wp (HUF_writeCTable_wksp dst CT (zlen ws - 1) L w)
    (fun '(dst', sz) => zlen dst' = zlen dst /\ bytes_ok dst' /\ 0 < sz <= zlen dst /\ tree_described ws L (zsub dst' 0 sz))
    (fun e => e = GENERIC /\ 129 < zlen ws \/ e = dstSize_tooSmall /\ zlen dst < zlen ws / 2 + 1).
Proof.
  intros Hno Hcc Hn Hlast Hl Hb Hd Hw. pose proof (complete_kraft _ _ Hcc) as Hc.
  destruct (buildCTableFromTree_ok nodes rank L ws Hno Hc CTable ltac:(lia) Hl) as (CT & -> & HtL & HtM & Hle & Hcodes).
  exists CT. split; [done|]. split; [done|]. split; [done|]. split; [done|].
  destruct (codes_ok_lengths CT ws L Hc Hcodes) as [Hbits Htw]. pose proof (cn_L _ _ Hc) as HL.
  assert (lengths_ok CT (zlen ws - 1) L) as Hlo.
  { split; [lia|lia| | |by rewrite Htw].
    - intros n Hn'. rewrite Hbits by lia. pose proof (cn_range ws L Hc n ltac:(lia)). unfold bits_of. destruct (Z.eqb_spec (zat ws n) 0); lia.
    - rewrite Hbits by lia. pose proof (cn_range ws L Hc (zlen ws - 1) ltac:(lia)). unfold bits_of. rewrite (proj2 (Z.eqb_neq _ 0)) by lia. lia. }
  eapply wp_mono; [apply (writeCTable_describes dst CT (zlen ws - 1) L w Hlo Hb Hd Hw)| |].
  - intros [dst' sz]. by rewrite Htw.
  - intros e [[-> ?]|[-> Hlt]]; [left; split; [done|lia]|right; split; [done|]]. by replace (zlen ws - 1 + 1) with (zlen ws) in Hlt by lia.
Qed.

(** ** Properties *)

(** C24: any encoding table read from bytes is a canonical prefix code. On
    arbitrary input, with any contents of its local arrays, [HUF_readCTable] ends
    within its buffers; what it accepts are the weights of a complete code of
    depth at most 12 for at most [maxSymbolValue + 1] symbols, and the element of
    every symbol holds its length and its canonical code: the symbols of a weight
    take consecutive codes in the order of the alphabet, after all the symbols
    with a smaller weight, so that the codes cut the decoding table into disjoint
    intervals. *)
Theorem HUF_readCTable_canonical CTable maxSV src hw rk wk :
  bytes_ok src -> zlen src < 2 ^ 26 -> bytes_ok hw -> zlen hw = 256 -> 13 <= zlen rk -> wksp_ok wk ->
  0 <= maxSV <= 255 -> maxSV < zlen (hct_elts CTable) ->
  wp (HUF_readCTable CTable maxSV src hw rk wk)
    (fun r => exists L ws, complete L ws /\ 1 <= zlen ws <= maxSV + 1 /\ 1 <= hr_size r <= zlen src /\
       read_table_ok ws L CTable r /\
       forall s, 0 <= s < zlen ws -> 1 <= zat ws s ->
         hbase ws (zat ws s) <= hpos ws s /\ hpos ws s + weight_val (zat ws s) <= hbase ws (zat ws s + 1) <= 2 ^ L)
    any_error.
Proof.
  intros Hb Hl Hbw Hw Hrk Hwk Hm He. pose proof (readStats_ok hw rk src wk Hbw Hb Hl ltac:(lia) Hrk Hwk) as Hs.
  destruct (HUF_readStats hw rk src wk) as [rs|e|] eqn:E; [|by unfold HUF_readCTable; rewrite E|done]. cbn [wp] in Hs.
  pose proof (stats_complete _ _ _ _ Hs) as Hcc. pose proof (complete_kraft _ _ Hcc) as Hc. destruct Hs as (Hsz & Hnb & HL & Hlw & Hlr & _ & _ & Hocc & _).
  assert (zlen (take (Z.to_nat (hs_nbSymbols rs)) (hs_huffWeight rs)) = hs_nbSymbols rs) as Hlen.
  { unfold zlen in *. rewrite length_take. lia. }
  eapply wp_mono; [apply (readCTable_body CTable maxSV src hw rk wk rs E); try done; try lia| |done].
  - rewrite Hocc by lia. done.
  - intros r (Hle & Hr & Ht). eexists _, _. split; [exact Hcc|]. split; [lia|]. split; [lia|]. split; [exact Ht|].
    intros s Hss Hw1. pose proof (cn_range _ _ Hc s Hss). destruct (hpos_range _ s Hss Hw1). split; [done|]. split; [done|].
    apply (hbase_le _ _ Hc). lia.
Qed.

Lemma HUF_readCTable_canonical_witness :
  wp (HUF_readCTable (mkCTable 0 0 (zfill 256 0)) 255 [129; 17; 32; 0] (zfill 256 0) (zfill 13 0) sample_wksp)
    (fun r => exists L ws, complete L ws /\ 1 <= zlen ws <= 256 /\ 1 <= hr_size r <= 4 /\
       read_table_ok ws L (mkCTable 0 0 (zfill 256 0)) r /\
       forall s, 0 <= s < zlen ws -> 1 <= zat ws s ->
         hbase ws (zat ws s) <= hpos ws s /\ hpos ws s + weight_val (zat ws s) <= hbase ws (zat ws s + 1) <= 2 ^ L)
    any_error /\
  exists r, HUF_readCTable (mkCTable 0 0 (zfill 256 0)) 255 [129; 17; 32; 0] (zfill 256 0) (zfill 13 0) sample_wksp = Ok r /\
    take 3 (hct_elts (hr_CTable r)) = [2; 2 ^ 62 + 2; 2 ^ 63 + 1].
Proof.
  split.
  - apply (HUF_readCTable_canonical (mkCTable 0 0 (zfill 256 0)) 255 [129; 17; 32; 0] (zfill 256 0) (zfill 13 0) sample_wksp);
      [bytes_dec|vm_compute; reflexivity|bytes_dec|vm_compute; reflexivity|vm_compute; congruence| |vm_compute; split; congruence|vm_compute; reflexivity].
    vm_compute. repeat split; congruence.
  - eexists. split; [vm_compute; reflexivity|]. reflexivity.
Defined.

(** C22: encoder and decoder agree on the codes. The table that
    [HUF_buildCTableFromTree] makes of a Huffman tree is described by
    [HUF_writeCTable_wksp] in such a way that [HUF_readCTable], in front of any
    bytes, rebuilds from the description the same number of bits and the same
    code for every symbol. *)
Theorem HUF_CTable_roundtrip nodes rank L ws CTable dst w :
  nodes_ok nodes rank L ws -> complete L ws -> 2 <= zlen ws <= 256 -> 1 <= zat ws (zlen ws - 1) ->
  zlen ws <= zlen (hct_elts CTable) -> bytes_ok dst -> 33 <= zlen dst < 2 ^ 26 -> wcw_ok w ->
  exists CT, HUF_buildCTableFromTree CTable nodes rank (zlen ws - 1) L = Ok CT /\
  wp (HUF_writeCTable_wksp dst CT (zlen ws - 1) L w)
    (fun '(dst', sz) =>
       forall rest hw rk wk CTable1 maxSV, bytes_ok rest -> bytes_ok hw -> zlen hw = 256 -> 13 <= zlen rk -> wksp_ok wk ->
         HUF_READ_STATS_WORKSPACE_SIZE <= wk_size wk ->
         zlen ws - 1 <= maxSV <= 255 -> maxSV < zlen (hct_elts CTable1) ->
         exists r, HUF_readCTable CTable1 maxSV (zsub dst' 0 sz ++ rest) hw rk wk = Ok r /\
           hr_size r = sz /\ hct_tableLog (hr_CTable r) = hct_tableLog CT /\
           hct_maxSymbolValue (hr_CTable r) = hct_maxSymbolValue CT /\
           forall s, 0 <= s < zlen ws -> zat (hct_elts (hr_CTable r)) s = zat (hct_elts CT) s)
    (fun e => e = GENERIC /\ 129 < zlen ws \/ e = dstSize_tooSmall /\ zlen dst < zlen ws / 2 + 1).
Proof.
  intros Hno Hcc Hn Hlast Hl Hb Hd Hw. pose proof (complete_kraft _ _ Hcc) as Hc. pose proof (cn_L _ _ Hc) as HL.
  destruct (tree_table_described nodes rank L ws CTable dst w Hno Hcc Hn Hlast Hl Hb Hd Hw) as (CT & -> & HtL & HtM & Hcodes & Hwr).
  exists CT. split; [done|]. eapply wp_mono; [exact Hwr| |done].
  intros [dst' sz] (Hl' & Hb' & Hsz & Hdesc) rest hw rk wk CT1 maxSV Hbr Hbw Hhw Hrk Hwk Hsz' Hm He.
  destruct (Hdesc rest hw rk wk Hbr ltac:(lia) Hbw Hrk Hwk Hsz') as (rs & E & Hs1 & Hs2 & Hs3 & Hs4 & Hs5 & Hs6 & Hs7).
  rewrite zlen_zsub in Hs1 by lia.
  assert (take (Z.to_nat (hs_nbSymbols rs)) (hs_huffWeight rs) = ws) as Htake.
  { rewrite Hs2. unfold zlen. by rewrite Nat2Z.id. }
  pose proof (readCTable_body CT1 maxSV _ hw rk wk rs E) as Hrd. cbv zeta in Hrd. rewrite Htake, Hs3 in Hrd.
  specialize (Hrd ltac:(lia) ltac:(lia) Hc ltac:(lia) (Hs7 0 ltac:(lia)) ltac:(lia) ltac:(lia)).
  destruct (HUF_readCTable _ _ _ _ _ _) as [r|e|]; cbn [wp] in Hrd; [|lia|done].
  destruct Hrd as (_ & Hr1 & Ht1 & Ht2 & _ & _ & _ & [_ Ht3] & _). exists r. split; [done|].
  split; [lia|]. split; [lia|]. split; [lia|]. intros s Hs. rewrite Ht3 by done. symmetry. by apply Hcodes.
Qed.

Definition sample_nodes : list nodeElt := [mkNode 9 5 0 1; mkNode 4 6 2 2; mkNode 2 7 3 3; mkNode 1 7 4 3; mkNode 0 0 1 0].

Lemma sample_nodes_ok : nodes_ok sample_nodes 3 3 [3; 0; 2; 1; 1].
Proof.
  split; [vm_compute; congruence|vm_compute; split; congruence| | |].
  - apply (bool_decide_unpack (map nd_byte (take 5 sample_nodes) ≡ₚ seqZ 0 5)). vm_compute. exact I.
  - intros n Hn. change (zlen _) with 5 in Hn.
    assert (n = 0 \/ n = 1 \/ n = 2 \/ n = 3 \/ n = 4) as [->|[->|[->|[->| ->]]]] by lia; reflexivity.
  - intros n Hn. change (zlen _) with 5 in Hn. by replace n with 4 by lia.
Qed.

Lemma HUF_CTable_roundtrip_witness :
  exists CT, HUF_buildCTableFromTree (mkCTable 0 0 (zfill 256 0)) sample_nodes 3 4 3 = Ok CT /\
  wp (HUF_writeCTable_wksp (zfill 40 9) CT 4 3 sample_wcwksp)
    (fun '(dst', sz) =>
       forall rest hw rk wk CTable1 maxSV, bytes_ok rest -> bytes_ok hw -> zlen hw = 256 -> 13 <= zlen rk -> wksp_ok wk ->
         HUF_READ_STATS_WORKSPACE_SIZE <= wk_size wk ->
         4 <= maxSV <= 255 -> maxSV < zlen (hct_elts CTable1) ->
         exists r, HUF_readCTable CTable1 maxSV (zsub dst' 0 sz ++ rest) hw rk wk = Ok r /\
           hr_size r = sz /\ hct_tableLog (hr_CTable r) = hct_tableLog CT /\
           hct_maxSymbolValue (hr_CTable r) = hct_maxSymbolValue CT /\
           forall s, 0 <= s < 5 -> zat (hct_elts (hr_CTable r)) s = zat (hct_elts CT) s)
    (fun e => e = GENERIC /\ 129 < 5 \/ e = dstSize_tooSmall /\ 40 < 5 / 2 + 1).
Proof.
  apply (HUF_CTable_roundtrip sample_nodes 3 3 [3; 0; 2; 1; 1] (mkCTable 0 0 (zfill 256 0)) (zfill 40 9) sample_wcwksp sample_nodes_ok).
  - split; [lia|]. split; [apply (bool_decide_unpack (Forall (fun w => 0 <= w <= 3) [3; 0; 2; 1; 1])); vm_compute; exact I|].
    split; [reflexivity|]. apply (bool_decide_unpack (1 ∈ [3; 0; 2; 1; 1])). vm_compute. exact I.
  - change (zlen _) with 5. lia.
  - vm_compute. congruence.
  - vm_compute. congruence.
  - bytes_dec.
  - vm_compute. split; [congruence|reflexivity].
  - exact sample_wcwksp_ok.
Defined.
