(* ===== verification/HufEncode.v ===== *)
(** The Huffman encoder (compress/huf_compress.c): the bit stream of its own, with
    two containers filled from the top, the unrolled encoding loop and the single
    and four-stream bodies. *)

From S2P Require Import Prelude Errors Outcome Bits Mem BitStream FseTable FseSpread FseSymbols FseBuild HufStats Hist FseNormalize HufWeights HufTree HufCode.

(** ** Definitions *)

Definition HUF_BITS_IN_CONTAINER : Z := 8 * 8.

(** [bitContainer[0]], [bitContainer[1]], [bitPos[0]], [bitPos[1]]; pointers are
    offsets in the destination. *)
Record HUF_CStream_t := mkHCStream {
  hc_bitContainer0 : Z;
  hc_bitContainer1 : Z;
  hc_bitPos0 : Z;
  hc_bitPos1 : Z;
  hc_startPtr : Z;
  hc_ptr : Z;
  hc_endPtr : Z;
}.

Definition HUF_initCStream (startPtr dstCapacity : Z) : result HUF_CStream_t :=
  let bitC := mkHCStream 0 0 0 0 startPtr startPtr (startPtr + dstCapacity - 8) in
  ERROR_IF dstCapacity <=? 8 THEN dstSize_tooSmall ;;
  Ok bitC.

(** One container after [HUF_addBits]. *)
Definition HUF_addBits_at (bitContainer bitPos elt : Z) (kFast : bool) : result (Z * Z) :=
  REQUIRE HUF_getNbBits elt <? HUF_BITS_IN_CONTAINER ;;
  let bitContainer := Z.shiftr bitContainer (HUF_getNbBits elt) in
  let bitContainer := bitContainer .| (if kFast then HUF_getValueFast elt else HUF_getValue elt) in
  let bitPos := u64 (bitPos + HUF_getNbBitsFast elt) in
  Ok (bitContainer, bitPos).

Definition HUF_addBits (bitC : HUF_CStream_t) (elt idx : Z) (kFast : bool) : result HUF_CStream_t :=
  if idx =? 0 then
    let* '(c, p) := HUF_addBits_at (hc_bitContainer0 bitC) (hc_bitPos0 bitC) elt kFast in
    Ok (mkHCStream c (hc_bitContainer1 bitC) p (hc_bitPos1 bitC)
          (hc_startPtr bitC) (hc_ptr bitC) (hc_endPtr bitC))
  else
    let* '(c, p) := HUF_addBits_at (hc_bitContainer1 bitC) (hc_bitPos1 bitC) elt kFast in
    Ok (mkHCStream (hc_bitContainer0 bitC) c (hc_bitPos0 bitC) p
          (hc_startPtr bitC) (hc_ptr bitC) (hc_endPtr bitC)).

Definition HUF_zeroIndex1 (bitC : HUF_CStream_t) : HUF_CStream_t :=
  mkHCStream (hc_bitContainer0 bitC) 0 (hc_bitPos0 bitC) 0
    (hc_startPtr bitC) (hc_ptr bitC) (hc_endPtr bitC).

Definition HUF_mergeIndex1 (bitC : HUF_CStream_t) : result HUF_CStream_t :=
  REQUIRE (hc_bitPos1 bitC .& 0xFF) <? HUF_BITS_IN_CONTAINER ;;
  let c := Z.shiftr (hc_bitContainer0 bitC) (hc_bitPos1 bitC .& 0xFF) in
  let c := c .| hc_bitContainer1 bitC in
  let p := u64 (hc_bitPos0 bitC + hc_bitPos1 bitC) in
  Ok (mkHCStream c (hc_bitContainer1 bitC) p (hc_bitPos1 bitC)
        (hc_startPtr bitC) (hc_ptr bitC) (hc_endPtr bitC)).

Definition HUF_flushBits (mem : list Z) (bitC : HUF_CStream_t) (kFast : bool)
  : result (list Z * HUF_CStream_t) :=
  let nbBits := hc_bitPos0 bitC .& 0xFF in
  let nbBytes := Z.shiftr nbBits 3 in
  (* a shift by the width is undefined *)
  REQUIRE (0 <? nbBits) && (nbBits <=? HUF_BITS_IN_CONTAINER) ;;
  let bitContainer := Z.shiftr (hc_bitContainer0 bitC) (HUF_BITS_IN_CONTAINER - nbBits) in
  let bitPos := hc_bitPos0 bitC .& 7 in
  let* mem := writeLEST mem (hc_ptr bitC) bitContainer in
  let ptr := hc_ptr bitC + nbBytes in
  let ptr := if negb kFast && (ptr >? hc_endPtr bitC) then hc_endPtr bitC else ptr in
  Ok (mem, mkHCStream (hc_bitContainer0 bitC) (hc_bitContainer1 bitC) bitPos (hc_bitPos1 bitC)
             (hc_startPtr bitC) ptr (hc_endPtr bitC)).

Definition HUF_endMark : result Z :=
  let endMark := HUF_setNbBits 1 in
  HUF_setValue endMark 1.

(** The size of the stream, 0 when it did not fit. *)
Definition HUF_closeCStream (mem : list Z) (bitC : HUF_CStream_t) : result (list Z * Z) :=
  let* endMark := HUF_endMark in
  let* bitC := HUF_addBits bitC endMark 0 false in
  let* '(mem, bitC) := HUF_flushBits mem bitC false in
  let nbBits := hc_bitPos0 bitC .& 0xFF in
  if hc_ptr bitC >=? hc_endPtr bitC then Ok (mem, 0)
  else Ok (mem, hc_ptr bitC - hc_startPtr bitC + b2z (nbBits >? 0)).

Definition HUF_encodeSymbol (bitCPtr : HUF_CStream_t) (symbol : Z) (ct : list Z) (idx : Z) (fast : bool)
  : result HUF_CStream_t :=
  let* elt := rd ct symbol in
  HUF_addBits bitCPtr elt idx fast.

(** [kUnroll] symbols below [n], the last of them with [kLastFast]. *)
Definition HUF_encodeUnrolled (bitC : HUF_CStream_t) (ip ct : list Z) (n idx kUnroll : Z) (kLastFast : bool)
  : result HUF_CStream_t :=
  let* bitC :=
    for_range 1 kUnroll (fun u bitC =>
      let* symbol := rd ip (n - u) in
      HUF_encodeSymbol bitC symbol ct idx true) bitC in
  let* symbol := rd ip (n - kUnroll) in
  HUF_encodeSymbol bitC symbol ct idx kLastFast.

Definition HUF_compress1X_usingCTable_internal_body_loop (mem : list Z) (bitC : HUF_CStream_t) (ip ct : list Z)
    (kUnroll : Z) (kFastFlush kLastFast : bool) : result (list Z * HUF_CStream_t) :=
  (* Join to kUnroll *)
  let n := s32 (zlen ip) in
  let rem := n mod kUnroll in
  let* '(mem, bitC) :=
    (if rem >? 0 then
       let* bitC :=
         for_range 0 rem (fun k bitC =>
           let* symbol := rd ip (n - k - 1) in
           HUF_encodeSymbol bitC symbol ct 0 false) bitC in
       HUF_flushBits mem bitC kFastFlush
     else Ok (mem, bitC)) in
  let n := n - rem in
  (* Join to 2 * kUnroll *)
  let* '(mem, bitC, n) :=
    (if negb (n mod (2 * kUnroll) =? 0) then
       let* bitC := HUF_encodeUnrolled bitC ip ct n 0 kUnroll kLastFast in
       let* '(mem, bitC) := HUF_flushBits mem bitC kFastFlush in
       Ok (mem, bitC, n - kUnroll)
     else Ok (mem, bitC, n)) in
  let* '(mem, bitC, _) :=
    while_ (length ip) (fun '(_, _, n) => n >? 0) (fun '(mem, bitC, n) =>
      (* Encode kUnroll symbols into the bitstream @ index 0. *)
      let* bitC := HUF_encodeUnrolled bitC ip ct n 0 kUnroll kLastFast in
      let* '(mem, bitC) := HUF_flushBits mem bitC kFastFlush in
      (* Encode kUnroll symbols into the bitstream @ index 1. *)
      let bitC := HUF_zeroIndex1 bitC in
      let* bitC := HUF_encodeUnrolled bitC ip ct (n - kUnroll) 1 kUnroll kLastFast in
      (* Merge bitstream @ index 1 into the bitstream @ index 0 *)
      let* bitC := HUF_mergeIndex1 bitC in
      let* '(mem, bitC) := HUF_flushBits mem bitC kFastFlush in
      Ok (mem, bitC, n - 2 * kUnroll)) (mem, bitC, n) in
  Ok (mem, bitC).

Definition HUF_tightCompressBound (srcSize tableLog : Z) : Z :=
  u64 (Z.shiftr (u64 (srcSize * tableLog)) 3 + 8).

(** The [switch] of a 64-bit target: [kUnroll] and [kLastFast]. *)
Definition HUF_unroll (tableLog : Z) : Z * bool :=
  if tableLog =? 11 then (5, false)
  else if tableLog =? 10 then (5, true)
  else if tableLog =? 9 then (6, false)
  else if tableLog =? 8 then (7, false)
  else if tableLog =? 7 then (8, false)
  else (9, true).

(** The destination after the call, and the size of the stream; 0 when it does
    not fit. *)
Definition HUF_compress1X_usingCTable (dst src : list Z) (CTable : HUF_CTable) : result (list Z * Z) :=
  let dstSize := zlen dst in
  let srcSize := zlen src in
  let tableLog := (HUF_readCTableHeader CTable).1 in
  let ct := hct_elts CTable in
  if dstSize <? 8 then Ok (dst, 0)
  else
    match HUF_initCStream 0 dstSize with
    | Err _ => Ok (dst, 0)
    | Stuck => Stuck
    | Ok bitC =>
        let* '(mem, bitC) :=
          (if (dstSize <? HUF_tightCompressBound srcSize tableLog) || (tableLog >? 11) then
             HUF_compress1X_usingCTable_internal_body_loop dst bitC src ct 4 false false
           else
             let '(kUnroll, kLastFast) := HUF_unroll tableLog in
             HUF_compress1X_usingCTable_internal_body_loop dst bitC src ct kUnroll true kLastFast) in
        HUF_closeCStream mem bitC
    end.

(** One of the four streams: written at [op], its size put at [jump] of the jump
    table (the last one has none). None: does not compress. *)
Definition HUF_compress4X_stream (dst segment : list Z) (op : Z) (jump : option Z) (CTable : HUF_CTable)
  : result (list Z * option Z) :=
  let* '(out, cSize) := HUF_compress1X_usingCTable (zsub dst op (zlen dst - op)) segment CTable in
  let dst := zpatch dst op out in
  if (cSize =? 0) || (cSize >? 65535) then Ok (dst, None)
  else
    let* dst := (match jump with Some p => writeLE16 dst p (u16 cSize) | None => Ok dst end) in
    Ok (dst, Some (op + cSize)).

Definition HUF_compress4X_usingCTable (dst src : list Z) (CTable : HUF_CTable) : result (list Z * Z) :=
  let dstSize := zlen dst in
  let srcSize := zlen src in
  let segmentSize := (srcSize + 3) / 4 in
  if dstSize <? 6 + 1 + 1 + 1 + 8 then Ok (dst, 0)
  else if srcSize <? 12 then Ok (dst, 0)
  else
    let op := 6 in
    let ip := 0 in
    let* '(dst, o) := HUF_compress4X_stream dst (zsub src ip segmentSize) op (Some 0) CTable in
    match o with None => Ok (dst, 0) | Some op =>
    let ip := ip + segmentSize in
    let* '(dst, o) := HUF_compress4X_stream dst (zsub src ip segmentSize) op (Some 2) CTable in
    match o with None => Ok (dst, 0) | Some op =>
    let ip := ip + segmentSize in
    let* '(dst, o) := HUF_compress4X_stream dst (zsub src ip segmentSize) op (Some 4) CTable in
    match o with None => Ok (dst, 0) | Some op =>
    let ip := ip + segmentSize in
    let* '(dst, o) := HUF_compress4X_stream dst (zsub src ip (srcSize - ip)) op None CTable in
    match o with None => Ok (dst, 0) | Some op =>
    Ok (dst, op) end end end end.

(** Whether the four streams or the single one are used. *)
Inductive HUF_nbStreams_e := HUF_singleStream | HUF_fourStreams.

(** [ostart] is the offset of [op] from the start of the block; the destination is
    what follows [op]. *)
Definition HUF_compressCTable_internal (dst : list Z) (op : Z) (src : list Z)
    (nbStreams : HUF_nbStreams_e) (CTable : HUF_CTable) : result (list Z * Z) :=
  let srcSize := zlen src in
  let* '(dst, cSize) :=
    (let room := zsub dst op (zlen dst - op) in
     let* '(out, cSize) :=
       match nbStreams with
       | HUF_singleStream => HUF_compress1X_usingCTable room src CTable
       | HUF_fourStreams => HUF_compress4X_usingCTable room src CTable
       end in
     Ok (zpatch dst op out, cSize)) in
  if cSize =? 0 then Ok (dst, 0)
  else
    let op := op + cSize in
    if op >=? u64 (srcSize - 1) then Ok (dst, 0)
    else Ok (dst, op).

(** *** Other operations on encoding tables *)

Definition HUF_estimateCompressedSize (CTable : HUF_CTable) (count : list Z) (maxSymbolValue : Z) : result Z :=
  let* nbBits :=
    for_range 0 (maxSymbolValue + 1) (fun s nbBits =>
      let* e := rd (hct_elts CTable) s in
      let* c := rd count s in
      Ok (u64 (nbBits + u64 (HUF_getNbBits e * c)))) 0 in
  Ok (Z.shiftr nbBits 3).

Definition HUF_validateCTable (CTable : HUF_CTable) (count : list Z) (maxSymbolValue : Z) : result bool :=
  if (HUF_readCTableHeader CTable).2 <? maxSymbolValue then Ok false
  else
    let* bad :=
      for_range 0 (maxSymbolValue + 1) (fun s bad =>
        let* c := rd count s in
        let* e := rd (hct_elts CTable) s in
        Ok (bad || (negb (c =? 0) && (HUF_getNbBits e =? 0)))) false in
    Ok (negb bad).

Definition HUF_CTABLEBOUND : Z := 129.
Definition HUF_BLOCKBOUND (size : Z) : Z := size + Z.shiftr size 8 + 8.
Definition HUF_COMPRESSBOUND (size : Z) : Z := HUF_CTABLEBOUND + HUF_BLOCKBOUND size.
Definition HUF_compressBound (size : Z) : Z := u64 (HUF_COMPRESSBOUND size).

Definition HUF_cardinality (count : list Z) (maxSymbolValue : Z) : result Z :=
  for_range 0 (maxSymbolValue + 1) (fun i cardinality =>
    let* c := rd count i in
    Ok (if negb (c =? 0) then u32 (cardinality + 1) else cardinality)) 0.
Definition HUF_minTableLog (symbolCardinality : Z) : Z := ZSTD_highbit32 symbolCardinality + 1.

(** ** Lemmas *)

(** *** Containers filled from the top *)

(** Adding at the top: the bits that were there move down, under the new ones. *)
Lemma top_add c v d n nb :
  0 <= n -> 0 <= nb -> n + nb <= 64 -> 0 <= v < 2 ^ nb -> 0 <= c < 2 ^ 64 -> 0 <= d < 2 ^ (64 - n - nb) ->
  (Z.shiftr c nb .| (v * 2 ^ (64 - nb) + d)) / 2 ^ (64 - (n + nb)) = c / 2 ^ (64 - n) + 2 ^ n * v /\
  0 <= Z.shiftr c nb .| (v * 2 ^ (64 - nb) + d) < 2 ^ 64.
Proof.
  intros Hn Hnb Hle Hv Hc Hd. pose proof (pow2_le (64 - n - nb) (64 - nb) ltac:(lia)) as Hp.
  replace (v * 2 ^ (64 - nb) + d) with (d .| Z.shiftl v (64 - nb)) by (rewrite lor_shiftl_add by lia; lia).
  split.
  - rewrite <- !Z.shiftr_div_pow2, !Z.shiftr_lor, Z.shiftr_shiftr by lia.
    replace (nb + (64 - (n + nb))) with (64 - n) by lia.
    rewrite (Z.shiftr_div_pow2 d), (Z.div_small d) by (replace (64 - (n + nb)) with (64 - n - nb) by lia; lia).
    rewrite Z.lor_0_l, Z.shiftr_shiftl_l by lia. replace (64 - nb - (64 - (n + nb))) with n by lia.
    rewrite lor_shiftl_add; [lia|lia|]. rewrite Z.shiftr_div_pow2 by lia. split; [apply Z.div_pos; [lia|apply pow2_pos; lia]|].
    apply Z.div_lt_upper_bound; [apply pow2_pos; lia|]. rewrite <- pow2_add by lia. replace (64 - n + n) with 64 by lia. lia.
  - assert (forall i, 64 <= i -> Z.testbit (Z.shiftr c nb .| (d .| Z.shiftl v (64 - nb))) i = false) as Hb.
    { intros i Hi. rewrite !Z.lor_spec, Z.shiftr_spec, Z.shiftl_spec by lia.
      rewrite (testbit_high c 64), (testbit_high v nb) by lia. rewrite (testbit_high d (64 - nb)) by lia. done. }
    assert (0 <= Z.shiftr c nb .| (d .| Z.shiftl v (64 - nb))) as H0.
    { rewrite !Z.lor_nonneg, Z.shiftr_nonneg, Z.shiftl_nonneg. lia. }
    split; [done|]. set (x := Z.shiftr c nb .| _) in *. destruct (Z.eq_dec x 0) as [->|Hx]; [lia|].
    apply Z.log2_lt_pow2; [lia|]. apply Z.nle_gt. intros Hl. pose proof (Z.bit_log2 x ltac:(lia)) as Hb'. by rewrite Hb in Hb'.
Qed.

Lemma lor_lt_pow2 a b D : 0 <= D -> 0 <= a < 2 ^ D -> 0 <= b < 2 ^ D -> a .| b < 2 ^ D.
Proof.
  intros HD Ha Hb. destruct (Z.eq_dec (a .| b) 0) as [->|Hx]; [lia|].
  assert (0 <= a .| b) by (apply Z.lor_nonneg; lia). apply Z.log2_lt_pow2; [lia|]. apply Z.nle_gt. intros Hl.
  pose proof (Z.bit_log2 (a .| b) ltac:(lia)) as Hbit. rewrite Z.lor_spec, (testbit_high a D), (testbit_high b D) in Hbit by lia. done.
Qed.

(** A container whose top [n] bits are [V], the first one lowest. *)
Record cont (c pos V n : Z) : Prop := {
  ct_range : 0 <= c < 2 ^ 64;
  ct_pos : 0 <= pos < 2 ^ 64;
  ct_bits : pos mod 2 ^ 8 = n;
  ct_max : n <= 64;
  ct_top : c / 2 ^ (64 - n) = V;
}.

Lemma cont_nonneg c pos V n : cont c pos V n -> 0 <= n.
Proof. intros [_ _ <- _ _]. apply Z.mod_pos_bound. lia. Qed.

Lemma cont_V c pos V n : cont c pos V n -> 0 <= V < 2 ^ n.
Proof.
  intros H. pose proof (cont_nonneg _ _ _ _ H). destruct H as [Hc _ _ Hn <-].
  split; [apply Z.div_pos; [lia|apply pow2_pos; lia]|].
  apply Z.div_lt_upper_bound; [apply pow2_pos; lia|]. rewrite <- pow2_add by lia. replace (64 - n + n) with 64 by lia. lia.
Qed.

(** The bits below, in a container that is to be merged. *)
Definition dirt (c n : Z) : Z := c mod 2 ^ (64 - n).

(** An element of the encoding table. *)
Definition elt_is (e nb v : Z) : Prop := 1 <= nb <= 12 /\ 0 <= v < 2 ^ nb /\ e = v * 2 ^ (64 - nb) + nb.

Lemma elt_is_range e nb v : elt_is e nb v -> 0 <= e < 2 ^ 64 /\ e mod 2 ^ 8 = nb /\ HUF_getNbBits e = nb /\ HUF_getValue e = v * 2 ^ (64 - nb).
Proof.
  intros (Hnb & Hv & ->). pose proof (elt_bounds nb v ltac:(lia) Hv). pose proof (pow2_le 52 (64 - nb) ltac:(lia)).
  pose proof (getNbBits_elt nb v ltac:(lia) ltac:(lia)) as E. split; [lia|]. split; [by rewrite <- getNbBits_mod|]. split; [done|].
  unfold HUF_getValue. change (u64 (Z.lnot 255)) with (Z.shiftl (Z.ones 56) 8).
  replace (2 ^ (64 - nb)) with (2 ^ (56 - nb) * 2 ^ 8) by (rewrite <- pow2_add by lia; f_equal; lia).
  apply Z.bits_inj'. intros i Hi. rewrite Z.land_spec, Z.shiftl_spec by lia. rewrite Z.mul_assoc.
  destruct (Z.ltb_spec i 8).
  - rewrite (Z.testbit_neg_r _ (i - 8)) by lia. rewrite andb_false_r. rewrite <- Z.shiftl_mul_pow2 by lia. by rewrite Z.shiftl_spec_low by lia.
  - rewrite Z.add_comm. rewrite <- (lor_shiftl_add nb (v * 2 ^ (56 - nb)) 8) by lia.
    rewrite Z.lor_spec, (testbit_high nb 8), orb_false_l by lia. rewrite <- (Z.shiftl_mul_pow2 (v * _)) by lia.
    destruct (Z.ltb_spec i 64).
    + rewrite Z.ones_spec_low by lia. apply andb_true_r.
    + rewrite Z.ones_spec_high by lia. rewrite andb_false_r, Z.shiftl_spec by lia. symmetry. apply (testbit_high _ 56); [|lia].
      replace (2 ^ 56) with (2 ^ nb * 2 ^ (56 - nb)) by (rewrite <- pow2_add by lia; f_equal; lia). pose proof (pow2_pos (56 - nb) ltac:(lia)). nia.
Qed.

(** [D] bits hold the lengths: they are the noise of a fast addition. *)
Lemma addBits_at c pos V n e nb v D kFast :
  cont c pos V n -> elt_is e nb v -> nb < 2 ^ D -> 0 <= D ->
  n + nb + (if (kFast : bool) then D else 0) <= 64 ->
  exists c' pos', HUF_addBits_at c pos e kFast = Ok (c', pos') /\ cont c' pos' (V + 2 ^ n * v) (n + nb) /\
    (dirt c n < 2 ^ D -> kFast = true -> dirt c' (n + nb) < 2 ^ D) /\
    (forall m, 0 <= m -> dirt c n * 2 ^ (n + m) < 2 ^ 64 -> kFast = false -> dirt c' (n + nb) * 2 ^ (n + nb + m) < 2 ^ 64).
Proof.
  intros Hct He HD HD0 Hle. pose proof (cont_nonneg _ _ _ _ Hct) as Hn. destruct Hct as [Hc Hp Hb Hm HV].
  destruct (elt_is_range e nb v He) as (Hr & Hmod & Hnb & Hval). destruct He as (Hnb12 & Hv & Ee).
  unfold HUF_addBits_at. cbv zeta. rewrite Hnb, Hval. unfold defined_if. rewrite (proj2 (Z.ltb_lt nb _)) by (unfold HUF_BITS_IN_CONTAINER; lia).
  unfold HUF_getNbBitsFast, HUF_getValueFast.
  set (d := if kFast then nb else 0).
  assert ((if kFast then e else v * 2 ^ (64 - nb)) = v * 2 ^ (64 - nb) + d) as -> by (unfold d; destruct kFast; lia).
  assert (0 <= d < 2 ^ (64 - n - nb)) as Hd.
  { unfold d. destruct kFast; [|pose proof (pow2_pos (64 - n - nb) ltac:(lia)); lia].
    pose proof (pow2_le D (64 - n - nb) ltac:(lia)). lia. }
  destruct (top_add c v d n nb) as [Etop Hrange]; [lia|lia|destruct kFast; lia|lia|lia|lia|].
  set (c' := Z.shiftr c nb .| _) in *. assert (n + nb <= 64) as Hle64 by (destruct kFast; lia).
  do 2 eexists. split; [done|]. split.
  - split; [done|apply u64_range| |lia|by rewrite Etop, HV].
    unfold u64. change (2 ^ 64) with (2 ^ 8 * 2 ^ 56). rewrite Z.rem_mul_r by lia.
    rewrite (Z.mul_comm (2 ^ 8)), Z.mod_add, Z.mod_mod by lia. rewrite Z.add_mod, Hb, Hmod by lia. apply Z.mod_small. lia.
  - assert (dirt c' (n + nb) = Z.shiftr (dirt c n) nb .| d) as Edirt.
    { unfold dirt. subst c'. replace (v * 2 ^ (64 - nb) + d) with (d .| Z.shiftl v (64 - nb))
        by (rewrite lor_shiftl_add by (pose proof (pow2_le (64 - n - nb) (64 - nb) ltac:(lia)); lia); lia).
      apply Z.bits_inj'. intros i Hi. destruct (Z.ltb_spec i (64 - (n + nb))).
      - rewrite Z.mod_pow2_bits_low, !Z.lor_spec, !Z.shiftr_spec, Z.shiftl_spec_low by lia.
        rewrite Z.mod_pow2_bits_low by lia. by rewrite orb_false_r.
      - rewrite Z.mod_pow2_bits_high, Z.lor_spec, Z.shiftr_spec, Z.mod_pow2_bits_high by lia.
        symmetry. rewrite (testbit_high d (64 - n - nb)) by lia. done. }
    pose proof (Z.mod_pos_bound c (2 ^ (64 - n)) ltac:(apply pow2_pos; lia)) as Hdc. fold (dirt c n) in Hdc.
    rewrite Edirt. split.
    + intros HdD Hk. unfold d. rewrite Hk. apply lor_lt_pow2; [lia| |lia]. rewrite Z.shiftr_div_pow2 by lia.
      split; [apply Z.div_pos; [lia|apply pow2_pos; lia]|]. apply Z.div_lt_upper_bound; [apply pow2_pos; lia|].
      pose proof (pow2_pos nb ltac:(lia)). nia.
    + intros m Hm0 Hlt Hk. unfold d. rewrite Hk, Z.lor_0_r, Z.shiftr_div_pow2 by lia.
      replace (n + nb + m) with (nb + (n + m)) by lia. rewrite (pow2_add nb) by lia.
      pose proof (Z.mul_div_le (dirt c n) (2 ^ nb) ltac:(apply pow2_pos; lia)). pose proof (pow2_pos (n + m) ltac:(lia)). nia.
Qed.

(** *** The stream *)

(** Pointers and first container of a stream over [s], [e]. *)
Record hwf (s e : Z) (mem : list Z) (b : HUF_CStream_t) (V n0 : Z) : Prop := {
  hw_start : hc_startPtr b = s;
  hw_end : hc_endPtr b = e;
  hw_ptr : 0 <= s <= hc_ptr b /\ hc_ptr b <= e;
  hw_mem : e + 8 <= zlen mem;
  hw_cont : cont (hc_bitContainer0 b) (hc_bitPos0 b) V n0;
}.

(** Either the stream holds [acc] on [n] bits, the last [n0] of them in the first
    container, or it overflowed: it is stuck at its end, and the bits do not fit. *)
Definition hrep (s e : Z) (mem : list Z) (b : HUF_CStream_t) (acc n n0 : Z) : Prop :=
  exists V, hwf s e mem b V n0 /\ n0 <= n /\
  (le_val (zsub mem s (hc_ptr b - s)) + 2 ^ (8 * (hc_ptr b - s)) * V = acc /\ 8 * (hc_ptr b - s) + n0 = n \/
   hc_ptr b = e /\ 8 * (e - s) + 8 <= n).

(** The second container, with room for [m] bits under its own. *)
Definition second (b : HUF_CStream_t) (V n1 : Z) : Prop := cont (hc_bitContainer1 b) (hc_bitPos1 b) V n1.

Ltac hcs :=
  cbn [hc_bitContainer0 hc_bitContainer1 hc_bitPos0 hc_bitPos1 hc_startPtr hc_ptr hc_endPtr] in *.

Lemma hrep_nonneg s e mem b acc n n0 : hrep s e mem b acc n n0 -> 0 <= n0 <= n.
Proof. intros (V & [_ _ _ _ H] & Hle & _). split; [by eapply cont_nonneg|done]. Qed.

Lemma cont_0 : cont 0 0 0 0.
Proof. split; done || lia. Qed.

Lemma initCStream_ok mem cap :
  0 <= cap <= zlen mem -> 8 < cap -> exists b, HUF_initCStream 0 cap = Ok b /\ hrep 0 (cap - 8) mem b 0 0 0.
Proof.
  intros Hc H8. unfold HUF_initCStream, RETURN_ERROR_IF. rewrite (proj2 (Z.leb_gt cap 8)) by lia.
  eexists. split; [done|]. exists 0. split; [|split; [lia|left]].
  - split; hcs; try lia. exact cont_0.
  - hcs. rewrite zsub_0. split; [done|lia].
Qed.

Lemma addBits_0 s e mem b acc n n0 elt nb v D kFast :
  hrep s e mem b acc n n0 -> elt_is elt nb v -> nb < 2 ^ D -> 0 <= D -> n0 + nb + (if (kFast : bool) then D else 0) <= 64 ->
  exists b', HUF_addBits b elt 0 kFast = Ok b' /\ hrep s e mem b' (acc + 2 ^ n * v) (n + nb) (n0 + nb).
Proof.
  intros (V & [Hs He Hp Hm Hc] & Hle & Hr) Helt HD HD0 Hroom. pose proof (cont_nonneg _ _ _ _ Hc) as Hn0.
  destruct (addBits_at _ _ _ _ elt nb v D kFast Hc Helt HD HD0 Hroom) as (c' & p' & E & Hc' & _).
  unfold HUF_addBits. cbn [Z.eqb]. rewrite E. cbn [bind]. eexists. split; [done|]. destruct Helt as (Hnb & _ & _).
  exists (V + 2 ^ n0 * v). split; [by split; hcs|]. split; [lia|]. hcs. destruct Hr as [[<- Hn]|[? ?]]; [left|right; lia].
  split; [|lia]. replace n with (8 * (hc_ptr b - s) + n0) by lia. rewrite pow2_add by lia. lia.
Qed.

Lemma addBits_1 s e mem b acc n n0 V n1 elt nb v D kFast :
  hrep s e mem b acc n n0 -> second b V n1 -> elt_is elt nb v -> nb < 2 ^ D -> 0 <= D -> n1 + nb + (if (kFast : bool) then D else 0) <= 64 ->
  exists b', HUF_addBits b elt 1 kFast = Ok b' /\ hrep s e mem b' acc n n0 /\ second b' (V + 2 ^ n1 * v) (n1 + nb) /\
    (dirt (hc_bitContainer1 b) n1 < 2 ^ D -> kFast = true -> dirt (hc_bitContainer1 b') (n1 + nb) < 2 ^ D) /\
    (forall m, 0 <= m -> dirt (hc_bitContainer1 b) n1 * 2 ^ (n1 + m) < 2 ^ 64 -> kFast = false ->
       dirt (hc_bitContainer1 b') (n1 + nb) * 2 ^ (n1 + nb + m) < 2 ^ 64).
Proof.
  intros (V0 & [Hs He Hp Hm Hc] & Hle & Hr) H1 Helt HD HD0 Hroom.
  destruct (addBits_at _ _ _ _ elt nb v D kFast H1 Helt HD HD0 Hroom) as (c' & p' & E & Hc' & Hd).
  unfold HUF_addBits. cbn [Z.eqb]. rewrite E. cbn [bind]. eexists. split; [done|].
  split; [exists V0; split; [by split; hcs|]; by hcs|]. by hcs.
Qed.

Lemma land_255 x : x .& 0xFF = x mod 2 ^ 8.
Proof. change 0xFF with (2 ^ 8 - 1). by rewrite land_mask by lia. Qed.

Lemma mergeIndex1_ok s e mem b acc n n0 V n1 :
  hrep s e mem b acc n n0 -> second b V n1 -> n1 < 64 -> n0 + n1 <= 64 ->
  dirt (hc_bitContainer1 b) n1 * 2 ^ (n1 + n0) < 2 ^ 64 ->
  exists b', HUF_mergeIndex1 b = Ok b' /\ hrep s e mem b' (acc + 2 ^ n * V) (n + n1) (n0 + n1).
Proof.
  intros (V0 & [Hs He Hp Hm Hc] & Hle & Hr) H1 Hn1 Hsum Hd. pose proof (cont_nonneg _ _ _ _ Hc) as Hn0.
  pose proof (cont_nonneg _ _ _ _ H1) as Hn1'. pose proof (cont_V _ _ _ _ H1) as HV. destruct H1 as [Hc1 Hp1 Hb1 _ Ht1].
  unfold HUF_mergeIndex1. rewrite land_255, Hb1. unfold defined_if. rewrite (proj2 (Z.ltb_lt n1 _)) by (unfold HUF_BITS_IN_CONTAINER; lia).
  eexists. split; [done|]. destruct Hc as [Hc0 Hp0 Hb0 Hm0 Ht0].
  assert (hc_bitContainer1 b = V * 2 ^ (64 - n1) + dirt (hc_bitContainer1 b) n1) as Ec.
  { unfold dirt. rewrite <- Ht1, Z.mul_comm. apply Z.div_mod. apply Z.pow_nonzero; lia. }
  assert (0 <= dirt (hc_bitContainer1 b) n1 < 2 ^ (64 - n0 - n1)) as Hdr.
  { split; [apply Z.mod_pos_bound, pow2_pos; lia|]. assert (2 ^ 64 = 2 ^ (64 - n0 - n1) * 2 ^ (n1 + n0)) as E64 by (rewrite <- pow2_add by lia; f_equal; lia).
    rewrite E64 in Hd. pose proof (pow2_pos (n1 + n0) ltac:(lia)). nia. }
  destruct (top_add (hc_bitContainer0 b) V (dirt (hc_bitContainer1 b) n1) n0 n1) as [Etop Hrange]; [lia..|].
  rewrite <- Ec in Etop, Hrange.
  exists (V0 + 2 ^ n0 * V). split; [split; hcs; try done; split|].
  - done.
  - apply u64_range.
  - unfold u64. change (2 ^ 64) with (2 ^ 8 * 2 ^ 56). rewrite Z.rem_mul_r by lia.
    rewrite (Z.mul_comm (2 ^ 8)), Z.mod_add, Z.mod_mod by lia. rewrite Z.add_mod, Hb0, Hb1 by lia. apply Z.mod_small. lia.
  - lia.
  - by rewrite Etop, Ht0.
  - split; [lia|]. hcs. destruct Hr as [[<- Hn]|[? ?]]; [left|right; lia].
    split; [|lia]. replace n with (8 * (hc_ptr b - s) + n0) by lia. rewrite pow2_add by lia. lia.
Qed.

Lemma flushBits_ok s e mem b acc n n0 kFast :
  hrep s e mem b acc n n0 -> 1 <= n0 -> ((kFast : bool) = true -> n < 8 * (e - s) + 8) ->
  exists mem' b', HUF_flushBits mem b kFast = Ok (mem', b') /\ hrep s e mem' b' acc n (n0 mod 8) /\
    zlen mem' = zlen mem /\ (bytes_ok mem -> bytes_ok mem') /\
    (forall V, hwf s e mem' b' V (n0 mod 8) -> hc_ptr b' < e -> 1 <= n0 mod 8 -> zat mem' (hc_ptr b') = V).
Proof.
  intros (V & [Hs He Hp Hm Hc] & Hle & Hr) Hn0 Hfast. pose proof (cont_V _ _ _ _ Hc) as HV. destruct Hc as [Hc0 Hp0 Hb0 Hm0 Ht0].
  unfold HUF_flushBits. rewrite land_255, Hb0. cbv zeta. unfold defined_if, HUF_BITS_IN_CONTAINER.
  rewrite (proj2 (Z.ltb_lt 0 n0)), (proj2 (Z.leb_le n0 (8 * 8))) by lia. cbn [andb].
  change (8 * 8) with 64. rewrite (Z.shiftr_div_pow2 _ (64 - n0)), Ht0 by lia.
  pose proof (pow2_le n0 64 ltac:(lia)) as H64. unfold writeLEST, MEM_writeLEST. cbn [negb]. rewrite writeLE64_spec by lia. cbn [bind].
  rewrite (Z.shiftr_div_pow2 n0 3) by lia. change (2 ^ 3) with 8. set (k := n0 / 8). set (m := n0 mod 8).
  assert (0 <= m < 8 /\ n0 = 8 * k + m /\ 0 <= k <= 8) as (Hm8 & En0 & Hk) by (unfold k, m; zdm).
  assert (zlen (le_bytes 8 V) = 8) as Hl8 by apply zlen_le_bytes.
  change 7 with (2 ^ 3 - 1). rewrite land_mask by lia.
  assert (hc_bitPos0 b mod 2 ^ 3 = m) as Em.
  { unfold m. rewrite <- Hb0. change 8 with (2 ^ 3) at 2. change (2 ^ 8) with (2 ^ 3 * 2 ^ 5).
    rewrite Z.rem_mul_r, (Z.mul_comm (2 ^ 3)), Z.mod_add, Z.mod_mod by lia. done. }
  rewrite Em. set (V' := V / 2 ^ (8 * k)).
  assert (cont (hc_bitContainer0 b) m V' m) as Hc'.
  { split; [done|lia|apply Z.mod_small; lia|lia|]. unfold V'. rewrite <- Ht0, Z.div_div by (first [apply Z.pow_nonzero; lia|apply pow2_pos; lia]).
    rewrite <- pow2_add by lia. do 2 f_equal. lia. }
  set (ptr' := if negb kFast && (hc_ptr b + k >? hc_endPtr b) then hc_endPtr b else hc_ptr b + k).
  assert (ptr' = hc_ptr b + k /\ hc_ptr b + k <= e \/ ptr' = e /\ e < hc_ptr b + k) as Hptr'.
  { unfold ptr'. rewrite He, Z.gtb_ltb. destruct (Z.ltb_spec e (hc_ptr b + k)), kFast; cbn [negb andb]; first [by right | left; lia]. }
  do 2 eexists. split; [done|]. split; [|split; [by rewrite zlen_zpatch by lia|split; [intros; apply bytes_ok_zpatch; [done|apply le_bytes_ok]|]]].
  - exists V'. split; [split; hcs; rewrite ?zlen_zpatch by lia; first [done | lia | exact Hc']|]. split; [lia|]. hcs.
    destruct Hptr' as [[-> Hend]|[-> Hend]]; [|right; split; [done|]; destruct Hr as [[_ Hn]|[_ ?]]; lia].
    destruct Hr as [[<- Hn]|[? ?]]; [left|right; lia]. split; [|lia].
    replace (hc_ptr b + k - s) with (hc_ptr b - s + k) by lia.
    rewrite (le_val_extend mem s (hc_ptr b) V k 8) by lia.
    replace (8 * (hc_ptr b - s + k)) with (8 * (hc_ptr b - s) + 8 * k) by lia. rewrite pow2_add by lia.
    pose proof (Z.div_mod V (2 ^ (8 * k)) ltac:(apply Z.pow_nonzero; lia)) as E.
    rewrite <- Z.add_assoc, <- Z.mul_assoc, <- Z.mul_add_distr_l. do 2 f_equal. unfold V'. lia.
  - hcs. intros V2 H2 Hlt Hm1. destruct Hptr' as [[-> Hend]|[-> Hend]]; [|lia].
    assert (V2 = V') as ->.
    { destruct H2 as [_ _ _ _ [_ _ _ _ <-]]. hcs. by destruct Hc' as [_ _ _ _ <-]. }
    rewrite zat_zpatch by lia. rewrite (proj2 (Z.leb_le _ _)), (proj2 (Z.ltb_lt _ _)) by lia. cbn [andb].
    replace (hc_ptr b + k - hc_ptr b) with k by lia.
    rewrite <- byte_of_le_val by (first [apply le_bytes_ok|lia]). rewrite le_val_le_bytes. change (8 * Z.of_nat 8) with 64.
    rewrite (Z.mod_small V), Z.shiftr_div_pow2 by lia. fold V'. apply Z.mod_small.
    pose proof (cont_V _ _ _ _ Hc'). pose proof (pow2_le m 8 ltac:(lia)). lia.
Qed.

Lemma closeCStream_ok s e mem b acc n n0 :
  hrep s e mem b acc n n0 -> n0 <= 63 ->
  exists mem' sz, HUF_closeCStream mem b = Ok (mem', sz) /\ zlen mem' = zlen mem /\ (bytes_ok mem -> bytes_ok mem') /\
    (sz = 0 /\ 8 * (e - s) <= n + 1 \/
     0 < sz /\ s + sz <= e /\ 8 * (sz - 1) <= n < 8 * sz /\ le_val (zsub mem' s sz) = acc + 2 ^ n).
Proof.
  intros Hr Hn0. pose proof (hrep_nonneg _ _ _ _ _ _ _ Hr). unfold HUF_closeCStream.
  change HUF_endMark with (Ok (2 ^ 63 + 1)). cbn [bind].
  destruct (addBits_0 s e mem b acc n n0 (2 ^ 63 + 1) 1 1 4 false Hr) as (b1 & -> & Hr1); [split; lia|lia|lia|lia|]. cbn [bind].
  destruct (flushBits_ok s e mem b1 _ _ _ false Hr1) as (mem' & b2 & -> & Hr2 & Hl & Hok & Hz); [lia|done|]. cbn [bind].
  set (m := (n0 + 1) mod 8) in *. assert (0 <= m < 8) by (unfold m; zdm).
  destruct Hr2 as (V & Hw & Hle & Hr2). specialize (Hz V Hw). pose proof Hw as [Hs He Hp Hm Hc]. pose proof (cont_V _ _ _ _ Hc) as HV.
  rewrite land_255, (ct_bits _ _ _ _ Hc), He, Hs.
  destruct (Z.geb_spec (hc_ptr b2) e); do 2 eexists; (split; [done|]); (split; [done|]); (split; [exact Hok|]).
  - left. split; [done|]. destruct Hr2 as [(_ & ?)|[_ ?]]; lia.
  - right. destruct Hr2 as [(Hv & Hn)|[? _]]; [|lia].
    destruct (Z.gtb_spec m 0); cbn [b2z].
    + split_and!; try lia. rewrite zsub_split by lia. replace (s + (hc_ptr b2 - s)) with (hc_ptr b2) by lia.
      rewrite (zsub_cons mem' (hc_ptr b2) 1), Hz by lia. change (1 - 1) with 0. rewrite zsub_0, le_val_app, zlen_zsub by lia.
      change (le_val [V]) with (V + 256 * 0). lia.
    + replace m with 0 in * by lia. change (2 ^ 0) with 1 in HV. replace V with 0 in * by lia. rewrite Z.add_0_r. split_and!; lia.
Qed.

(** *** The loop *)

Lemma drop_zS {A} `{!Inhabited A} (l : list A) n :
  0 <= n < zlen l -> drop (Z.to_nat n) l = zat l n :: drop (Z.to_nat (n + 1)) l.
Proof.
  unfold zlen. intros Hn. replace (Z.to_nat (n + 1)) with (S (Z.to_nat n)) by lia.
  apply drop_S. unfold zat. apply list_lookup_lookup_total_lt. lia.
Qed.

(** The fields of the symbols of [src], the last symbol pushed first. *)
Definition sym_fields (fld : Z -> Z * Z) (src : list Z) : list (Z * Z) := reverse (map fld src).

Section loop.
Context (ip ct : list Z) (fld : Z -> Z * Z) (L D : Z).
Hypothesis HL : 1 <= L <= 12.
Hypothesis HD : L < 2 ^ D.
Hypothesis HD0 : 0 <= D.
Hypothesis Hip : Forall (fun x => 0 <= x < zlen ct /\ elt_is (zat ct x) (fld x).2 (fld x).1 /\ (fld x).2 <= L) ip.

(** The stack once the symbols from [n] on are pushed. *)
Definition SV (n : Z) : Z := stack_val (sym_fields fld (drop (Z.to_nat n) ip)).
Definition SB (n : Z) : Z := stack_bits (sym_fields fld (drop (Z.to_nat n) ip)).

Lemma sym_at i : 0 <= i < zlen ip -> 0 <= zat ip i < zlen ct /\ elt_is (zat ct (zat ip i)) (fld (zat ip i)).2 (fld (zat ip i)).1 /\ (fld (zat ip i)).2 <= L.
Proof. intros Hi. by apply (zat_Forall (fun x => 0 <= x < zlen ct /\ elt_is (zat ct x) (fld x).2 (fld x).1 /\ (fld x).2 <= L)). Qed.

Lemma fields_nonneg n : widths_nonneg (sym_fields fld (drop n ip)).
Proof.
  unfold widths_nonneg, sym_fields. apply Forall_reverse, Forall_map. apply Forall_drop. eapply Forall_impl; [exact Hip|].
  intros x (_ & (? & _) & _). cbn. lia.
Qed.

Lemma SV_S n : 0 <= n < zlen ip ->
  SV n = SV (n + 1) + 2 ^ SB (n + 1) * (fld (zat ip n)).1 /\ SB n = SB (n + 1) + (fld (zat ip n)).2.
Proof.
  intros Hn. unfold SV, SB, sym_fields. rewrite (drop_zS ip n), map_cons, reverse_cons by lia.
  pose proof (fields_nonneg (Z.to_nat (n + 1))) as Hw. unfold sym_fields in Hw. destruct (sym_at n Hn) as (_ & (Hnb & Hv & _) & _).
  destruct (fld (zat ip n)) as [v nb]. cbn [fst snd] in *. rewrite stack_val_snoc, stack_bits_snoc by done.
  by rewrite (Z.mod_small v) by lia.
Qed.

Lemma SV_end : SV (zlen ip) = 0 /\ SB (zlen ip) = 0.
Proof. unfold SV, SB, zlen. rewrite Nat2Z.id, drop_all. done. Qed.

Lemma SB_range n k : 0 <= k -> 0 <= n - k -> n <= zlen ip -> k <= SB (n - k) - SB n <= k * L.
Proof.
  intros Hk Hn Hl. revert Hn.
  apply (between_ind (fun k => 0 <= n - k -> k <= SB (n - k) - SB n <= k * L) 0 k); [done|rewrite Z.sub_0_r; lia|].
  intros j Hj IH Hn. destruct (SV_S (n - (j + 1))) as [_ E]; [lia|]. destruct (sym_at (n - (j + 1))) as (_ & (Hnb & _) & HLn); [lia|].
  replace (n - (j + 1) + 1) with (n - j) in E by lia. lia.
Qed.

Lemma SB_nonneg n : 0 <= SB n.
Proof. apply stack_bits_nonneg, fields_nonneg. Qed.

(** The room that the unrolled code needs: the bits left by a flush, the symbols
    and the noise of the fast additions. *)
Definition room_ok (kUnroll : Z) (kLastFast : bool) : Prop :=
  1 <= kUnroll /\ 7 + (kUnroll - 1) * L + D <= 64 /\ 7 + kUnroll * L + (if kLastFast then D else 0) <= 64.

Section unrolled.
Context (s e : Z) (k : Z) (kLastFast : bool).
Hypothesis Hroom : room_ok k kLastFast.

Lemma encodeUnrolled_0 mem b n n0 :
  hrep s e mem b (SV n) (SB n) n0 -> n0 <= 7 -> k <= n <= zlen ip ->
  exists b', HUF_encodeUnrolled b ip ct n 0 k kLastFast = Ok b' /\
    hrep s e mem b' (SV (n - k)) (SB (n - k)) (n0 + SB (n - k) - SB n).
Proof.
  intros Hr Hn0 Hn. destruct Hroom as (Hk & Hr1 & Hr2). unfold HUF_encodeUnrolled.
  match goal with |- exists b', bind ?c _ = _ /\ _ => destruct (wp_no_errors_Ok c (fun b' =>
    hrep s e mem b' (SV (n - (k - 1))) (SB (n - (k - 1))) (n0 + SB (n - (k - 1)) - SB n))) as (b1 & -> & Hb1) end.
  { apply (wp_for (fun u b' => hrep s e mem b' (SV (n - (u - 1))) (SB (n - (u - 1))) (n0 + SB (n - (u - 1)) - SB n))); [lia| | |done].
    - replace (n - (1 - 1)) with n by lia. by replace (n0 + SB n - SB n) with n0 by lia.
    - intros u b' Hu Hb'. destruct (sym_at (n - u)) as (Hx & Helt & HLn); [lia|]. destruct (SV_S (n - u)) as [EV EB]; [lia|].
      replace (n - u + 1) with (n - (u - 1)) in EV, EB by lia. pose proof (SB_range n (u - 1) ltac:(lia) ltac:(lia) ltac:(lia)) as HSB.
      wp_step. wp_step; [lia|]. unfold HUF_encodeSymbol. wp_step. wp_step; [lia|].
      destruct (addBits_0 s e mem b' _ _ _ (zat ct (zat ip (n - u))) _ _ D true Hb' Helt) as (b2 & -> & Hb2); [lia|lia|nia|].
      cbn [wp]. replace (n - (u + 1 - 1)) with (n - u) by lia. rewrite EV, EB.
      replace (n0 + (SB (n - (u - 1)) + (fld (zat ip (n - u))).2) - SB n) with (n0 + SB (n - (u - 1)) - SB n + (fld (zat ip (n - u))).2) by lia.
      exact Hb2. }
  cbn [bind]. rewrite rd_ok by lia. cbn [bind]. unfold HUF_encodeSymbol. destruct (sym_at (n - k)) as (Hx & Helt & HLn); [lia|].
  rewrite rd_ok by lia. cbn [bind]. destruct (SV_S (n - k)) as [EV EB]; [lia|].
  replace (n - k + 1) with (n - (k - 1)) in EV, EB by lia. pose proof (SB_range n (k - 1) ltac:(lia) ltac:(lia) ltac:(lia)) as HSB.
  destruct (addBits_0 s e mem b1 _ _ _ (zat ct (zat ip (n - k))) _ _ D kLastFast Hb1 Helt) as (b2 & -> & Hb2); [lia|lia|destruct kLastFast; nia|].
  exists b2. split; [done|]. rewrite EV, EB.
  replace (n0 + (SB (n - (k - 1)) + (fld (zat ip (n - k))).2) - SB n) with (n0 + SB (n - (k - 1)) - SB n + (fld (zat ip (n - k))).2) by lia.
  exact Hb2.
Qed.

(** The second container, filled with the symbols from [n] down to [m]. *)
Definition second_ok (b : HUF_CStream_t) (n m : Z) : Prop :=
  exists V, second b V (SB m - SB n) /\ SV m = SV n + 2 ^ SB n * V.

Lemma second_ok_push mem b acc w n0 n i kFast :
  hrep s e mem b acc w n0 -> second_ok b n (i + 1) -> 0 <= i < n -> n <= zlen ip ->
  (n - i - 1) * L + L + (if (kFast : bool) then D else 0) <= 64 ->
  exists b', HUF_encodeSymbol b (zat ip i) ct 1 kFast = Ok b' /\ hrep s e mem b' acc w n0 /\ second_ok b' n i /\
    (dirt (hc_bitContainer1 b) (SB (i + 1) - SB n) < 2 ^ D -> kFast = true -> dirt (hc_bitContainer1 b') (SB i - SB n) < 2 ^ D) /\
    (dirt (hc_bitContainer1 b) (SB (i + 1) - SB n) * 2 ^ (SB (i + 1) - SB n + 7) < 2 ^ 64 -> kFast = false ->
      dirt (hc_bitContainer1 b') (SB i - SB n) * 2 ^ (SB i - SB n + 7) < 2 ^ 64).
Proof.
  intros Hr (V & HV & EV) Hi Hn Hro. destruct (sym_at i) as (Hx & Helt & HLn); [lia|]. destruct (SV_S i) as [E1 E2]; [lia|].
  pose proof (SB_range n (n - i - 1) ltac:(lia) ltac:(lia) ltac:(lia)) as HSB. replace (n - (n - i - 1)) with (i + 1) in HSB by lia.
  unfold HUF_encodeSymbol. rewrite rd_ok by lia. cbn [bind].
  destruct (addBits_1 s e mem b acc w n0 V _ (zat ct (zat ip i)) _ _ D kFast Hr HV Helt) as (b' & -> & Hr' & H1 & Hd1 & Hd2);
    [lia|lia|destruct kFast; nia|].
  replace (SB (i + 1) - SB n + (fld (zat ip i)).2) with (SB i - SB n) in * by lia.
  exists b'. split; [done|]. split; [done|]. split; [|split; [done|intros; apply Hd2; done || lia]].
  exists (V + 2 ^ (SB (i + 1) - SB n) * (fld (zat ip i)).1). split; [done|]. rewrite E1, EV.
  pose proof (SB_nonneg n). replace (2 ^ SB (i + 1)) with (2 ^ SB n * 2 ^ (SB (i + 1) - SB n)) by (rewrite <- pow2_add by lia; f_equal; lia). lia.
Qed.

Lemma encodeUnrolled_1 mem b acc w n0 n :
  hrep s e mem b acc w n0 -> k <= n <= zlen ip ->
  exists b', HUF_encodeUnrolled (HUF_zeroIndex1 b) ip ct n 1 k kLastFast = Ok b' /\
    hrep s e mem b' acc w n0 /\ second_ok b' n (n - k) /\
    dirt (hc_bitContainer1 b') (SB (n - k) - SB n) * 2 ^ (SB (n - k) - SB n + 7) < 2 ^ 64.
Proof.
  intros Hr Hn. destruct Hroom as (Hk & Hr1 & Hr2). unfold HUF_encodeUnrolled. pose proof (pow2_pos D HD0).
  match goal with |- exists b', bind ?c _ = _ /\ _ => destruct (wp_no_errors_Ok c (fun b' =>
    hrep s e mem b' acc w n0 /\ second_ok b' n (n - k + 1) /\ dirt (hc_bitContainer1 b') (SB (n - k + 1) - SB n) < 2 ^ D)) as (b1 & -> & Hb1 & Hs1 & Hd1) end.
  { apply (wp_for (fun u b' => hrep s e mem b' acc w n0 /\ second_ok b' n (n - u + 1) /\ dirt (hc_bitContainer1 b') (SB (n - u + 1) - SB n) < 2 ^ D)); [lia| | |done].
    - replace (n - 1 + 1) with n by lia. rewrite Z.sub_diag. split; [|split].
      + destruct Hr as (V & [? ? ? ? ?] & ?). exists V. split; [by split; hcs|]. done.
      + exists 0. rewrite Z.sub_diag. split; [exact cont_0|lia].
      + unfold dirt. hcs. rewrite Z.mod_0_l by (apply Z.pow_nonzero; lia). lia.
    - intros u b' Hu (Hb' & Hs' & Hd'). destruct (second_ok_push mem b' acc w n0 n (n - u) true Hb' Hs') as (b2 & E & Hb2 & Hs2 & Hd2 & _); [lia|lia|nia|].
      wp_step. wp_step; [lia|]. rewrite E. cbn [wp]. replace (n - (u + 1) + 1) with (n - u) by lia. split; [done|]. split; [done|]. by apply Hd2. }
  cbn [bind]. rewrite rd_ok by lia. cbn [bind]. pose proof (SB_range n k ltac:(lia) ltac:(lia) ltac:(lia)) as HSk.
  pose proof (SB_range n (k - 1) ltac:(lia) ltac:(lia) ltac:(lia)) as HSk1. replace (n - (k - 1)) with (n - k + 1) in HSk1 by lia.
  destruct (second_ok_push mem b1 acc w n0 n (n - k) kLastFast Hb1 Hs1) as (b2 & E & Hb2 & Hs2 & Hd2 & Hd3); [lia|lia|destruct kLastFast; nia|].
  rewrite E. exists b2. split; [done|]. split; [done|]. split; [done|].
  assert (forall c w d, dirt c w < 2 ^ D -> 0 <= w -> w + 7 + D <= d -> d <= 64 -> dirt c w * 2 ^ (w + 7) < 2 ^ 64) as Hdirt.
  { intros c w' d H1 H2 H3 H4. pose proof (pow2_le (D + (w' + 7)) 64 ltac:(lia)) as Hp. rewrite pow2_add in Hp by lia.
    pose proof (pow2_pos (w' + 7) ltac:(lia)). nia. }
  destruct kLastFast eqn:Elast.
  - apply (Hdirt _ _ 64); [by apply Hd2|lia|nia|lia].
  - apply Hd3; [|done]. apply (Hdirt _ _ 64); [done|lia|nia|lia].
Qed.

End unrolled.

Section body.
Context (s e : Z) (k : Z) (kFastFlush kLastFast : bool).
Hypothesis Hroom : room_ok k kLastFast.
Hypothesis Hfast : kFastFlush = true -> SB 0 < 8 * (e - s) + 8.
Hypothesis H31 : zlen ip < 2 ^ 31.

(** The state between two flushes. *)
Definition flushed (mem0 mem : list Z) (b : HUF_CStream_t) (n : Z) : Prop :=
  zlen mem = zlen mem0 /\ (bytes_ok mem0 -> bytes_ok mem) /\ exists n0, n0 <= 7 /\ hrep s e mem b (SV n) (SB n) n0.

Lemma hflush_ok mem0 mem b n n0 :
  zlen mem = zlen mem0 -> (bytes_ok mem0 -> bytes_ok mem) -> hrep s e mem b (SV n) (SB n) n0 -> 1 <= n0 -> 0 <= n <= zlen ip ->
  exists mem' b', HUF_flushBits mem b kFastFlush = Ok (mem', b') /\ flushed mem0 mem' b' n.
Proof.
  intros Hl Hb Hr Hn0 Hn. pose proof (SB_range n n ltac:(lia) ltac:(lia) ltac:(lia)) as HS. rewrite Z.sub_diag in HS.
  destruct (flushBits_ok s e mem b _ _ n0 kFastFlush Hr Hn0) as (mem' & b' & E & Hr' & Hl' & Hb' & _).
  { intros Hk. specialize (Hfast Hk). lia. }
  exists mem', b'. split; [done|]. split; [congruence|]. split; [auto|]. eexists. split; [|exact Hr']. zdm.
Qed.

Lemma unrolled_flush mem0 mem b n :
  flushed mem0 mem b n -> k <= n <= zlen ip ->
  exists b1 mem' b', HUF_encodeUnrolled b ip ct n 0 k kLastFast = Ok b1 /\
    HUF_flushBits mem b1 kFastFlush = Ok (mem', b') /\ flushed mem0 mem' b' (n - k).
Proof.
  intros (Hl & Hb & n0 & Hn0 & Hr) Hn. pose proof (hrep_nonneg _ _ _ _ _ _ _ Hr). destruct Hroom as (Hk & _).
  destruct (encodeUnrolled_0 s e k kLastFast Hroom mem b n n0 Hr Hn0 Hn) as (b1 & E & Hr1).
  pose proof (SB_range n k ltac:(lia) ltac:(lia) ltac:(lia)).
  destruct (hflush_ok mem0 mem b1 (n - k) _ Hl Hb Hr1) as (mem' & b' & E' & Hf); [lia|lia|]. exists b1, mem', b'. done.
Qed.

(** The second half of an iteration. *)
Lemma second_flush mem0 mem b n :
  flushed mem0 mem b n -> k <= n <= zlen ip ->
  exists b1 b2 mem' b', HUF_encodeUnrolled (HUF_zeroIndex1 b) ip ct n 1 k kLastFast = Ok b1 /\
    HUF_mergeIndex1 b1 = Ok b2 /\ HUF_flushBits mem b2 kFastFlush = Ok (mem', b') /\ flushed mem0 mem' b' (n - k).
Proof.
  intros (Hl & Hb & n0 & Hn0 & Hr) Hn. pose proof (hrep_nonneg _ _ _ _ _ _ _ Hr) as Hnn. pose proof Hroom as (Hk & _ & Hro).
  destruct (encodeUnrolled_1 s e k kLastFast Hroom mem b _ _ n0 n Hr Hn) as (b1 & E & Hr1 & (V & HV & EV) & Hd).
  pose proof (SB_range n k ltac:(lia) ltac:(lia) ltac:(lia)) as HS.
  destruct (mergeIndex1_ok s e mem b1 _ _ n0 V _ Hr1 HV) as (b2 & E2 & Hr2).
  - destruct kLastFast; lia.
  - destruct kLastFast; lia.
  - pose proof (pow2_le (SB (n - k) - SB n + n0) (SB (n - k) - SB n + 7) ltac:(lia)).
    assert (0 <= dirt (hc_bitContainer1 b1) (SB (n - k) - SB n)); [|nia].
    apply Z.mod_pos_bound, pow2_pos. destruct kLastFast; lia.
  - rewrite <- EV in Hr2. replace (SB n + (SB (n - k) - SB n)) with (SB (n - k)) in Hr2 by lia.
    destruct (hflush_ok mem0 mem b2 (n - k) _ Hl Hb Hr2) as (mem' & b' & E' & Hf); [lia|lia|]. exists b1, b2, mem', b'. done.
Qed.

Lemma rem_loop mem b r :
  hrep s e mem b 0 0 0 -> 0 <= r < k -> r <= zlen ip ->
  exists b', for_range 0 r (fun j bitC =>
      let* symbol := rd ip (zlen ip - j - 1) in
      HUF_encodeSymbol bitC symbol ct 0 false) b = Ok b' /\
    hrep s e mem b' (SV (zlen ip - r)) (SB (zlen ip - r)) (SB (zlen ip - r)).
Proof.
  intros Hr Hrk Hrl. destruct SV_end as [E1 E2]. pose proof Hroom as (Hk & Hro & _).
  match goal with |- exists b', ?c = _ /\ _ => apply (wp_no_errors_Ok c) end.
  apply (wp_for (fun j b' => hrep s e mem b' (SV (zlen ip - j)) (SB (zlen ip - j)) (SB (zlen ip - j)))); [lia| | |done].
  - rewrite Z.sub_0_r, E1, E2. done.
  - intros j b' Hj Hb'. destruct (sym_at (zlen ip - j - 1)) as (Hx & Helt & HLn); [lia|]. destruct (SV_S (zlen ip - j - 1)) as [EV EB]; [lia|].
    replace (zlen ip - j - 1 + 1) with (zlen ip - j) in EV, EB by lia. pose proof (SB_range (zlen ip) j ltac:(lia) ltac:(lia) ltac:(lia)) as HSB.
    wp_step. wp_step; [lia|]. unfold HUF_encodeSymbol. wp_step. wp_step; [lia|].
    destruct (addBits_0 s e mem b' _ _ _ (zat ct (zat ip (zlen ip - j - 1))) _ _ D false Hb' Helt) as (b2 & -> & Hb2); [lia|lia|nia|].
    cbn [wp]. replace (zlen ip - (j + 1)) with (zlen ip - j - 1) by lia. by rewrite EV, EB.
Qed.

Lemma body_loop_ok mem b :
  hrep s e mem b 0 0 0 ->
  exists mem' b', HUF_compress1X_usingCTable_internal_body_loop mem b ip ct k kFastFlush kLastFast = Ok (mem', b') /\
    flushed mem mem' b' 0.
Proof.
  intros Hr. pose proof Hroom as (Hk & _). pose proof (zlen_nonneg ip) as HN. destruct SV_end as [E1 E2].
  unfold HUF_compress1X_usingCTable_internal_body_loop. rewrite s32_small by lia.
  set (N := zlen ip) in *. set (r := N mod k). assert (0 <= r < k) as Hrk by (apply Z.mod_pos_bound; lia).
  assert (r <= N) as HrN by (apply Z.mod_le; lia).
  assert (exists mem1 b1, (if r >? 0 then
       let* bitC := for_range 0 r (fun j bitC =>
           let* symbol := rd ip (N - j - 1) in
           HUF_encodeSymbol bitC symbol ct 0 false) b in
       HUF_flushBits mem bitC kFastFlush
     else Ok (mem, b)) = Ok (mem1, b1) /\ flushed mem mem1 b1 (N - r)) as (mem1 & b1 & -> & Hf1).
  { destruct (Z.gtb_spec r 0).
    - destruct (rem_loop mem b r Hr Hrk HrN) as (b1 & E & Hb1). fold N in E, Hb1. rewrite E. cbn [bind].
      pose proof (SB_range N r ltac:(lia) ltac:(lia) ltac:(lia)) as HS. rewrite E2 in HS.
      apply (hflush_ok mem mem b1 (N - r) _ eq_refl ltac:(done) Hb1); lia.
    - exists mem, b. split; [done|]. replace (N - r) with N by lia. split; [done|]. split; [done|]. exists 0.
      rewrite E1, E2. split; [lia|done]. }
  cbn [bind]. assert (exists q, N - r = k * q /\ 0 <= q) as (q & Hq & Hq0).
  { exists (N / k). split; [|apply Z.div_pos; lia]. unfold r. rewrite Z.mod_eq by lia. lia. }
  assert (exists mem2 b2 q2, (if negb ((N - r) mod (2 * k) =? 0) then
       let* bitC := HUF_encodeUnrolled b1 ip ct (N - r) 0 k kLastFast in
       let* '(mem, bitC) := HUF_flushBits mem1 bitC kFastFlush in
       Ok (mem, bitC, N - r - k)
     else Ok (mem1, b1, N - r)) = Ok (mem2, b2, 2 * k * q2) /\ 0 <= q2 /\ 2 * k * q2 <= N /\ flushed mem mem2 b2 (2 * k * q2)) as (mem2 & b2 & q2 & -> & Hq2 & Hq2N & Hf2).
  { assert ((N - r) mod (2 * k) = k * (q mod 2)) as ->.
    { rewrite Hq, (Z.mul_comm 2 k). by rewrite Z.mul_mod_distr_l by lia. }
    pose proof (Z.div_mod q 2 ltac:(lia)) as Edm. pose proof (Z.mod_pos_bound q 2 ltac:(lia)) as Hm2.
    destruct (Z.eqb_spec (k * (q mod 2)) 0) as [E|E]; cbn [negb].
    - assert (q mod 2 = 0) as E0 by nia. exists mem1, b1, (q / 2).
      replace (2 * k * (q / 2)) with (N - r) by nia. split; [done|]. split; [apply Z.div_pos; lia|]. split; [lia|done].
    - assert (q mod 2 = 1) as E0 by (assert (q mod 2 <> 0) by (intros Ez; rewrite Ez in E; lia); lia).
      assert (0 <= q / 2) by (apply Z.div_pos; lia).
      destruct (unrolled_flush mem mem1 b1 (N - r) Hf1) as (b' & mem2 & b2 & -> & Ef & Hf2); [nia|]. cbn [bind]. rewrite Ef. cbn [bind].
      exists mem2, b2, (q / 2). replace (2 * k * (q / 2)) with (N - r - k) by nia. split; [done|]. split; [done|]. split; [lia|done]. }
  cbn [bind].
  match goal with |- exists mem' b', bind ?c _ = _ /\ _ => assert (wp c (fun '(mem', b', n) => n = 0 /\ flushed mem mem' b' 0) no_errors) as Hw end.
  { apply (wp_while (fun '(m, b', n) => exists j, n = 2 * k * j /\ 0 <= j /\ n <= N /\ flushed mem m b' n) (fun '(_, _, n) => n)).
    - exists q2. done.
    - unfold N, zlen in Hq2N. lia.
    - intros [[m b'] n] (j & -> & Hj & HjN & Hf) Hc. rewrite Z.gtb_ltb in Hc. bools. split; [done|].
      assert (1 <= j) as Hj1 by nia.
      destruct (unrolled_flush mem m b' (2 * k * j) Hf) as (b3 & m3 & b4 & -> & E3 & Hf3); [nia|]. cbn [bind]. rewrite E3. cbn [bind].
      destruct (second_flush mem m3 b4 (2 * k * j - k) Hf3) as (b5 & b6 & m7 & b7 & -> & E6 & E7 & Hf7); [nia|]. cbn [bind]. rewrite E6. cbn [bind]. rewrite E7. cbn [bind wp].
      split; [|lia]. exists (j - 1). split; [lia|]. split; [lia|]. split; [lia|].
      by replace (2 * k * j - 2 * k) with (2 * k * j - k - k) by lia.
    - intros [[m b'] n] (j & -> & Hj & HjN & Hf) Hc. rewrite Z.gtb_ltb in Hc. bools. assert (2 * k * j = 0) as E by nia. by rewrite E in *. }
  apply wp_no_errors_Ok in Hw as ([[m' b'] n'] & -> & -> & Hf). cbn [bind]. exists m', b'. done.
Qed.

End body.

End loop.

(** *** One stream *)

Section stream.
Context (ws : list Z) (L : Z) (CTable : HUF_CTable).
Hypothesis Hc : kraft L ws.
Hypothesis Hcodes : codes_ok ws L (hct_elts CTable).
Hypothesis HtL : hct_tableLog CTable = L.

(** The field of a symbol: its code and its length. *)
Definition sym_field (x : Z) : Z * Z := (code_val ws x, L + 1 - zat ws x).

(** The symbols of a source have codes. *)
Definition coded (src : list Z) : Prop := Forall (fun x => 0 <= x < zlen ws /\ 1 <= zat ws x) src.

Lemma coded_elts src :
  coded src -> Forall (fun x => 0 <= x < zlen (hct_elts CTable) /\
    elt_is (zat (hct_elts CTable) x) (sym_field x).2 (sym_field x).1 /\ (sym_field x).2 <= L) src.
Proof.
  intros H. pose proof (cn_L _ _ Hc). eapply Forall_impl; [exact H|]. intros x [Hx Hw]. destruct Hcodes as [Hl He].
  pose proof (cn_range ws L Hc x Hx). destruct (code_val_spec ws L Hc x Hx Hw) as (_ & Hcv & _). cbn [sym_field fst snd].
  split; [lia|]. split; [|lia]. split; [lia|]. split; [lia|]. rewrite He by done. unfold elt_of. cbv zeta.
  by rewrite (proj2 (Z.eqb_neq _ 0)) by lia.
Qed.

(** What a stream holds, and its size in bits. *)
Definition stream_val (src : list Z) : Z := stack_val (sym_fields sym_field src).
Definition stream_bits (src : list Z) : Z := stack_bits (sym_fields sym_field src).

(** The bytes of a stream: its bits and the end mark. *)
Definition stream_bytes (src bs : list Z) : Prop :=
  8 * (zlen bs - 1) <= stream_bits src < 8 * zlen bs /\ le_val bs = stream_val src + 2 ^ stream_bits src.

Lemma stream_bits_le src : coded src -> zlen src <= stream_bits src <= zlen src * L.
Proof.
  intros H. pose proof (cn_L _ _ Hc). pose proof (zlen_nonneg src).
  pose proof (SB_range src (hct_elts CTable) sym_field L 0 ltac:(lia) (coded_elts src H) (zlen src) (zlen src) ltac:(lia) ltac:(lia) ltac:(lia)) as HS.
  rewrite (proj2 (SV_end src sym_field)), Z.sub_diag in HS. unfold SB in HS. change (drop (Z.to_nat 0) src) with src in HS.
  unfold stream_bits. lia.
Qed.

Lemma compress1X_ok dst src :
  coded src -> zlen src < 2 ^ 31 ->
  exists dst' sz, HUF_compress1X_usingCTable dst src CTable = Ok (dst', sz) /\ zlen dst' = zlen dst /\
    (bytes_ok dst -> bytes_ok dst') /\
    (sz = 0 /\ 8 * (zlen dst - 8) <= stream_bits src + 1 \/
     0 < sz <= zlen dst - 8 /\ stream_bytes src (zsub dst' 0 sz)).
Proof.
  intros Hsrc H31. pose proof (cn_L _ _ Hc) as HL. pose proof (zlen_nonneg src) as HN. pose proof (zlen_nonneg dst) as Hd.
  pose proof (stream_bits_le src Hsrc) as Hbits. unfold HUF_compress1X_usingCTable, HUF_readCTableHeader. cbv zeta. cbn [fst]. rewrite HtL.
  destruct (Z.ltb_spec (zlen dst) 8).
  { exists dst, 0. split; [done|]. split; [done|]. split; [done|]. left. lia. }
  destruct (Z.eq_dec (zlen dst) 8) as [E8|].
  { rewrite E8. exists dst, 0. split; [done|]. split; [done|]. split; [done|]. left. lia. }
  destruct (initCStream_ok dst (zlen dst)) as (b & -> & Hb); [lia|lia|].
  pose proof (coded_elts src Hsrc) as Helts.
  assert (exists kU kF kL D, (if (zlen dst <? HUF_tightCompressBound (zlen src) L) || (L >? 11) then
       HUF_compress1X_usingCTable_internal_body_loop dst b src (hct_elts CTable) 4 false false
     else let '(kUnroll, kLastFast) := HUF_unroll L in
       HUF_compress1X_usingCTable_internal_body_loop dst b src (hct_elts CTable) kUnroll true kLastFast)
     = HUF_compress1X_usingCTable_internal_body_loop dst b src (hct_elts CTable) kU kF kL /\
     L < 2 ^ D /\ 0 <= D /\ room_ok L D kU kL /\ (kF = true -> stream_bits src < 8 * (zlen dst - 8 - 0) + 8)) as (kU & kF & kL & D & -> & HD & HD0 & Hroom & Hfast).
  { unfold HUF_tightCompressBound. rewrite (u64_small (zlen src * L)) by nia. rewrite Z.shiftr_div_pow2 by lia. change (2 ^ 3) with 8.
    assert (0 <= zlen src * L <= 12 * 2 ^ 31) as HNL by nia. assert (0 <= zlen src * L / 8 <= 2 ^ 33) as HNL8 by (split; [apply Z.div_pos; lia|apply Z.div_le_upper_bound; lia]).
    rewrite u64_small by lia. rewrite Z.gtb_ltb. unfold room_ok.
    destruct (Z.ltb_spec (zlen dst) (zlen src * L / 8 + 8)) as [Ht|Ht]; cbn [orb].
    { exists 4, false, false, 4. split; [done|]. split; [lia|]. split; [lia|]. split; [cbn; lia|done]. }
    destruct (Z.ltb_spec 11 L); [exists 4, false, false, 4; split; [done|]; split; [lia|]; split; [lia|]; split; [lia|done]|].
    assert (stream_bits src < 8 * (zlen dst - 8 - 0) + 8) as Hlast by zdm.
    assert (L = 11 \/ L = 10 \/ L = 9 \/ L = 8 \/ L = 7 \/ 1 <= L <= 6) as HLc by lia.
    destruct HLc as [->|[->|[->|[->|[->|HL6]]]]]; unfold HUF_unroll; cbn [Z.eqb Pos.eqb].
    - exists 5, true, false, 4. split; [done|]. split; [lia|]. split; [lia|]. split; [cbn; lia|done].
    - exists 5, true, true, 4. split; [done|]. split; [lia|]. split; [lia|]. split; [cbn; lia|done].
    - exists 6, true, false, 4. split; [done|]. split; [lia|]. split; [lia|]. split; [cbn; lia|done].
    - exists 7, true, false, 4. split; [done|]. split; [lia|]. split; [lia|]. split; [cbn; lia|done].
    - exists 8, true, false, 4. split; [done|]. split; [lia|]. split; [lia|]. split; [cbn; lia|done].
    - rewrite !(proj2 (Z.eqb_neq L _)) by lia. exists 9, true, true, 3. split; [done|]. split; [lia|]. split; [lia|]. split; [cbn; lia|done]. }
  destruct (body_loop_ok src (hct_elts CTable) sym_field L D HL HD HD0 Helts 0 (zlen dst - 8) kU kF kL Hroom Hfast H31 dst b Hb)
    as (mem & b' & -> & Hl & Hbm & n0 & Hn0 & Hr). cbn [bind].
  destruct (closeCStream_ok _ _ _ _ _ _ _ Hr) as (mem' & sz & -> & Hl' & Hb' & Hsz); [lia|].
  exists mem', sz. split; [done|]. split; [lia|]. split; [auto|]. change (SB src sym_field 0) with (stream_bits src) in Hsz.
  change (SV src sym_field 0) with (stream_val src) in Hsz. destruct Hsz as [[-> ?]|(? & ? & ? & ?)]; [left; split; [done|lia]|right].
  split; [lia|]. unfold stream_bytes. rewrite zlen_zsub by lia. done.
Qed.

End stream.
