(* ===== verification/HufDTable.v ===== *)
(** Huffman decoding tables with one symbol per entry
    (decompress/huf_decompress.c, [HUF_readDTableX1_wksp]). *)

From S2P Require Import Prelude Errors Outcome Bits Mem FseTable FseSpread FseSymbols FseBuild HufStats Hist FseNormalize HufWeights HufTree HufCode.

(** ** Definitions *)

Definition HUF_DECODER_FAST_TABLELOG : Z := 11.
(** In words of 32 bits. *)
Definition HUF_DTABLE_SIZE (maxTableLog : Z) : Z := 1 + Z.shiftl 1 maxTableLog.

(** [DTableDesc]: the first word of a table. *)
Record DTableDesc := mkDesc {
  maxTableLog : Z;
  tableType : Z;
  dtd_tableLog : Z;
  reserved : Z;
}.

(** A decoding table: its description and the memory that follows, in bytes. *)
Record HUF_DTable := mkHDTable {
  hdt_desc : DTableDesc;
  hdt_mem : list Z;
}.

Definition HUF_getDTableDesc (table : HUF_DTable) : DTableDesc := hdt_desc table.

(** [HUF_DEltX1] is a byte for the number of bits and one for the symbol. *)
Definition DEltX1_nbBits (dt : list Z) (i : Z) : result Z := rd dt (2 * i).
Definition DEltX1_byte (dt : list Z) (i : Z) : result Z := rd dt (2 * i + 1).
Definition DEltX1_set (dt : list Z) (i nbBits byte : Z) : result (list Z) :=
  let* dt := wr dt (2 * i) nbBits in
  wr dt (2 * i + 1) byte.

Definition HUF_rescaleStats (huffWeight rankVal : list Z) (nbSymbols tableLog targetTableLog : Z)
  : result (list Z * list Z * Z) :=
  if tableLog >? targetTableLog then Ok (huffWeight, rankVal, tableLog)
  else
    let* '(huffWeight, rankVal) :=
      (if tableLog <? targetTableLog then
         let scale := targetTableLog - tableLog in
         (* Increase the weight for all non-zero probability symbols by scale. *)
         let* huffWeight :=
           for_range 0 nbSymbols (fun s huffWeight =>
             let* w := rd huffWeight s in
             wr huffWeight s (u8 (w + u8 (if w =? 0 then 0 else scale)))) huffWeight in
         (* Update rankVal to reflect the new weights. *)
         let* rankVal :=
           for_range 0 (targetTableLog - scale) (fun k rankVal =>
             let s := targetTableLog - k in
             let* c := rd rankVal (s - scale) in
             wr rankVal s c) rankVal in
         let* rankVal :=
           for_range 0 scale (fun k rankVal => wr rankVal (scale - k) 0) rankVal in
         Ok (huffWeight, rankVal)
       else Ok (huffWeight, rankVal)) in
    Ok (huffWeight, rankVal, targetTableLog).

(** The workspace: its size, and what its memory holds at first. *)
Record HUF_ReadDTableX1_Workspace := mkRDWksp {
  rw_size : Z;
  rw_rankVal : list Z;
  rw_rankStart : list Z;
  rw_statsWksp : FSE_wksp;
  rw_symbols : list Z;
  rw_huffWeight : list Z;
}.

Definition HUF_ReadDTableX1_Workspace_size : Z :=
  4 * (HUF_TABLELOG_ABSOLUTEMAX + 1) + 4 * (HUF_TABLELOG_ABSOLUTEMAX + 1)
  + HUF_READ_STATS_WORKSPACE_SIZE + (HUF_SYMBOLVALUE_MAX + 1) + (HUF_SYMBOLVALUE_MAX + 1).

(** The first place of every rank among the sorted symbols. *)
Definition X1_rankStart (rankVal rankStart : list Z) (tableLog : Z) : result (list Z) :=
  let* '(rankStart, _) :=
    for_range 0 (tableLog + 1) (fun n '(rankStart, nextRankStart) =>
      let curr := nextRankStart in
      let* c := rd rankVal n in
      let nextRankStart := u32 (nextRankStart + c) in
      let* rankStart := wr rankStart n curr in
      Ok (rankStart, nextRankStart)) (rankStart, 0) in
  Ok rankStart.

(** [symbols[rankStart[huffWeight[n]]++] = n]. *)
Definition X1_place (huffWeight : list Z) (n : Z) (st : list Z * list Z) : result (list Z * list Z) :=
  let '(symbols, rankStart) := st in
  let* w := rd huffWeight n in
  let* r := rd rankStart w in
  let* rankStart := wr rankStart w (u32 (r + 1)) in
  let* symbols := wr symbols r (u8 n) in
  Ok (symbols, rankStart).

(** The symbols in the order of their weights, four at a time. *)
Definition X1_sort (huffWeight symbols rankStart : list Z) (nbSymbols : Z) : result (list Z) :=
  let unroll := 4 in
  let nLimit := nbSymbols - unroll + 1 in
  let* '(n, st) :=
    while_ (Z.to_nat nbSymbols) (fun '(n, _) => n <? nLimit) (fun '(n, st) =>
      let* st := for_range 0 unroll (fun u st => X1_place huffWeight (n + u) st) st in
      Ok (n + unroll, st)) (0, (symbols, rankStart)) in
  let* '(symbols, _) := for_range n nbSymbols (fun n st => X1_place huffWeight n st) st in
  Ok symbols.

Section target.
Context (MEM_isLittleEndian : bool).

(** Four entries in a word. *)
Definition HUF_DEltX1_set4 (symbol nbBits : Z) : Z :=
  let D4 := if MEM_isLittleEndian then Z.shiftl symbol 8 + nbBits else symbol + Z.shiftl nbBits 8 in
  u64 (D4 * 0x0001000100010001).

(** The entries of one symbol, by the length of its interval. *)
Definition X1_fill_symbol (dt : list Z) (uStart length symbol nbBits : Z) : result (list Z) :=
  if length =? 1 then DEltX1_set dt uStart nbBits symbol
  else if length =? 2 then
    let* dt := DEltX1_set dt (uStart + 0) nbBits symbol in
    DEltX1_set dt (uStart + 1) nbBits symbol
  else
    let D4 := HUF_DEltX1_set4 symbol nbBits in
    if length =? 4 then MEM_write64 MEM_isLittleEndian dt (2 * uStart) D4
    else if length =? 8 then
      let* dt := MEM_write64 MEM_isLittleEndian dt (2 * uStart) D4 in
      MEM_write64 MEM_isLittleEndian dt (2 * (uStart + 4)) D4
    else
      for_step 0 length 16 (fun u dt =>
        let* dt := MEM_write64 MEM_isLittleEndian dt (2 * (uStart + u + 0)) D4 in
        let* dt := MEM_write64 MEM_isLittleEndian dt (2 * (uStart + u + 4)) D4 in
        let* dt := MEM_write64 MEM_isLittleEndian dt (2 * (uStart + u + 8)) D4 in
        MEM_write64 MEM_isLittleEndian dt (2 * (uStart + u + 12)) D4) dt.

(** All the entries, weight after weight. *)
Definition X1_fill (dt symbols rankVal : list Z) (tableLog : Z) : result (list Z) :=
  let* symbol := rd rankVal 0 in
  let* '(dt, _, _) :=
    for_range 1 (tableLog + 1) (fun w '(dt, symbol, rankStart) =>
      let* symbolCount := rd rankVal w in
      let length := Z.shiftr (Z.shiftl 1 w) 1 in
      let nbBits := u8 (tableLog + 1 - w) in
      let* '(dt, _) :=
        for_range 0 symbolCount (fun s '(dt, uStart) =>
          let* sym := rd symbols (symbol + s) in
          let* dt := X1_fill_symbol dt uStart length sym nbBits in
          Ok (dt, uStart + length)) (dt, rankStart) in
      Ok (dt, symbol + symbolCount, rankStart + symbolCount * length)) (dt, symbol, 0) in
  Ok dt.

(** The table and the size of the description of the tree. *)
Definition HUF_readDTableX1_wksp (DTable : HUF_DTable) (src : list Z) (wksp : HUF_ReadDTableX1_Workspace)
  : result (HUF_DTable * Z) :=
  ERROR_IF HUF_ReadDTableX1_Workspace_size >? rw_size wksp THEN tableLog_tooLarge ;;
  let* r := HUF_readStats (rw_huffWeight wksp) (rw_rankVal wksp) src (rw_statsWksp wksp) in
  let iSize := hs_size r in
  let nbSymbols := hs_nbSymbols r in
  (* Table header *)
  let dtd := HUF_getDTableDesc DTable in
  let maxLog := maxTableLog dtd + 1 in
  let targetTableLog := Z.min maxLog HUF_DECODER_FAST_TABLELOG in
  let* '(huffWeight, rankVal, tableLog) :=
    HUF_rescaleStats (hs_huffWeight r) (hs_rankStats r) nbSymbols (hs_tableLog r) targetTableLog in
  ERROR_IF tableLog >? maxTableLog dtd + 1 THEN tableLog_tooLarge ;;
  let dtd := mkDesc (maxTableLog dtd) 0 (u8 tableLog) (reserved dtd) in
  (* Compute symbols and rankStart given rankVal *)
  let* rankStart := X1_rankStart rankVal (rw_rankStart wksp) tableLog in
  let* symbols := X1_sort huffWeight (rw_symbols wksp) rankStart nbSymbols in
  (* fill DTable *)
  let* dt := X1_fill (hdt_mem DTable) symbols rankVal tableLog in
  Ok (mkHDTable dtd dt, iSize).

End target.

(** *** Specification *)

(** The entry [i]: the number of bits and the symbol. *)
Definition entry (dt : list Z) (i : Z) : Z * Z := (zat dt (2 * i), zat dt (2 * i + 1)).

(** The symbol [x] has the entry [i]. *)
Definition at_entry (ws : list Z) (x i : Z) : Prop :=
  0 <= x < zlen ws /\ 1 <= zat ws x /\ hpos ws x <= i < hpos ws x + weight_val (zat ws x).

(** A table of depth [L] for the weights [ws]. *)
Definition dtableX1 (ws : list Z) (L : Z) (DTable : HUF_DTable) : Prop :=
  dtd_tableLog (hdt_desc DTable) = L /\ 2 * 2 ^ L <= zlen (hdt_mem DTable) /\
  forall x i, at_entry ws x i -> entry (hdt_mem DTable) i = (L + 1 - zat ws x, x).

(** The weights after [HUF_rescaleStats]. *)
Definition rescaled (scale : Z) (ws : list Z) : list Z := map (fun w => if w =? 0 then 0 else w + scale) ws.

(** ** Lemmas *)

(** *** The intervals cut the table *)

Section intervals.
Context (ws : list Z) (L : Z).
Hypothesis Hc : kraft L ws.

Lemma at_entry_range x i : at_entry ws x i -> 0 <= i < 2 ^ L.
Proof. intros (Hx & Hw & Hi). destruct (hpos_bounds ws L Hc x Hx Hw). lia. Qed.

Lemma at_entry_unique x y i : at_entry ws x i -> at_entry ws y i -> x = y.
Proof.
  intros (Hx & Hwx & Hix) (Hy & Hwy & Hiy).
  destruct (hpos_range ws x Hx Hwx) as [Hx1 Hx2]. destruct (hpos_range ws y Hy Hwy) as [Hy1 Hy2].
  destruct (Z.lt_trichotomy (zat ws x) (zat ws y)) as [Hlt|[E|Hlt]].
  - assert (hbase ws (zat ws x + 1) <= hbase ws (zat ws y)) by (apply hbase_mono; lia). lia.
  - unfold hpos in Hix, Hiy. cbv zeta in *. rewrite <- E in *. apply (occ_inj ws x y); [lia|lia|done|].
    rewrite <- E. assert (0 < 2 ^ (zat ws x - 1)) by (apply pow2_pos; lia). rewrite weight_val_pos in * by lia. nia.
  - assert (hbase ws (zat ws y + 1) <= hbase ws (zat ws x)) by (apply hbase_mono; lia). lia.
Qed.

Lemma at_entry_cover i : 0 <= i < 2 ^ L -> exists x, at_entry ws x i.
Proof.
  intros Hi. pose proof (cn_L _ _ Hc) as HL.
  assert (forall M, 1 <= M -> i < hbase ws M -> exists w, 1 <= w < M /\ hbase ws w <= i < hbase ws (w + 1)) as Hw.
  { intros M HM. apply (between_ind (fun M => i < hbase ws M -> exists w, 1 <= w < M /\ hbase ws w <= i < hbase ws (w + 1)) 1 M); [done| |].
    - rewrite hbase_1. lia.
    - intros k Hk IH Hlt. destruct (Z.ltb_spec i (hbase ws k)) as [H|H].
      + destruct (IH H) as (w & Hw & Hiw). exists w. lia.
      + exists k. lia. }
  destruct (Hw (L + 1)) as (w & Hw1 & Hiw); [lia|rewrite hbase_total by done; lia|].
  pose proof (pow2_pos (w - 1) ltac:(lia)) as Hp. rewrite hbase_S, weight_val_pos in Hiw by lia.
  set (k := (i - hbase ws w) / 2 ^ (w - 1)).
  pose proof (Z.div_mod (i - hbase ws w) (2 ^ (w - 1)) ltac:(lia)) as E. fold k in E.
  pose proof (Z.mod_pos_bound (i - hbase ws w) (2 ^ (w - 1)) Hp).
  assert (0 <= k < occ w ws) as Hk by (split; [apply Z.div_pos; lia|apply Z.div_lt_upper_bound; lia]).
  destruct (occ_find w ws k Hk) as (x & Hx & Ex & Ho). exists x. unfold at_entry, hpos. cbv zeta. rewrite Ex, Ho, weight_val_pos by lia.
  split; [lia|]. split; [lia|]. nia.
Qed.

End intervals.

(** *** Rescaling *)

Lemma zlen_rescaled scale ws : zlen (rescaled scale ws) = zlen ws.
Proof. unfold rescaled, zlen. by rewrite length_map. Qed.

Lemma zat_rescaled scale ws x : 0 <= x < zlen ws -> zat (rescaled scale ws) x = if zat ws x =? 0 then 0 else zat ws x + scale.
Proof. intros Hx. unfold rescaled. by rewrite zat_map by done. Qed.

Lemma rescaled_0 ws : rescaled 0 ws = ws.
Proof.
  unfold rescaled. rewrite <- (map_id ws) at 2. apply map_ext. intros w. destruct (Z.eqb_spec w 0); lia.
Qed.

Lemma occ_rescaled scale ws v :
  0 <= scale -> Forall (fun w => 0 <= w) ws ->
  occ v (rescaled scale ws) = if v =? 0 then occ 0 ws else if v <=? scale then 0 else occ (v - scale) ws.
Proof.
  intros Hs HF. induction HF as [|w l Hw _ IH]; [by destruct (v =? 0), (v <=? scale)|].
  change (rescaled scale (w :: l)) with ((if w =? 0 then 0 else w + scale) :: rescaled scale l). rewrite occ_cons, IH.
  destruct (Z.eqb_spec v 0) as [->|].
  - rewrite occ_cons. f_equal. destruct (Z.eqb_spec w 0); [done|]. by rewrite (proj2 (Z.eqb_neq _ 0)) by lia.
  - destruct (Z.leb_spec v scale).
    + rewrite (proj2 (Z.eqb_neq _ v)); [done|]. destruct (Z.eqb_spec w 0); lia.
    + rewrite occ_cons. f_equal. f_equal. destruct (Z.eqb_spec w 0), (Z.eqb_spec w (v - scale)); first [lia | apply Z.eqb_eq; lia | apply Z.eqb_neq; lia].
Qed.

Lemma take_rescaled scale ws n : take n (rescaled scale ws) = rescaled scale (take n ws).
Proof. unfold rescaled. apply firstn_map. Qed.

Section rescale.
Context (ws : list Z) (L scale : Z).
Hypothesis Hc : kraft L ws.
Hypothesis Hs : 0 <= scale.

Lemma weights_nonneg n : Forall (fun w => 0 <= w) (take n ws).
Proof. destruct Hc as (_ & HF & _). apply Forall_take. eapply Forall_impl; [exact HF|]. intros w Hw. cbn beta in Hw. lia. Qed.

Lemma hbase_rescaled w : 1 <= w -> hbase (rescaled scale ws) (w + scale) = hbase ws w * 2 ^ scale.
Proof.
  intros Hw. pose proof (weights_nonneg (length ws)) as HF. rewrite firstn_all in HF.
  apply (between_ind (fun w => hbase (rescaled scale ws) (w + scale) = hbase ws w * 2 ^ scale) 1 w); [done| |].
  - rewrite hbase_1. unfold hbase. rewrite (zsumf_ext _ (fun _ => 0)); [rewrite zsumf_const by lia; lia|lia|].
    intros i Hi. rewrite occ_rescaled by done. destruct (Z.eqb_spec i 0) as [->|]; [rewrite weight_val_0; lia|].
    rewrite (proj2 (Z.leb_le i scale)) by lia. lia.
  - intros k Hk IH. replace (k + 1 + scale) with (k + scale + 1) by lia. rewrite !hbase_S, IH, occ_rescaled by (done || lia).
    rewrite (proj2 (Z.eqb_neq _ 0)), (proj2 (Z.leb_gt _ scale)) by lia. replace (k + scale - scale) with k by lia.
    rewrite !weight_val_pos by lia. replace (k + scale - 1) with (k - 1 + scale) by lia. rewrite pow2_add by lia. lia.
Qed.

Lemma kraft_rescaled : L + scale <= 12 -> kraft (L + scale) (rescaled scale ws).
Proof.
  intros H12. destruct Hc as (HL & HF & Hsum). split; [lia|].
  assert (Forall (fun w => 0 <= w <= L + scale) (rescaled scale ws)) as HF'.
  { unfold rescaled. apply Forall_map. eapply Forall_impl; [exact HF|]. intros w Hw. cbn beta in *. destruct (Z.eqb_spec w 0); lia. }
  split; [done|]. rewrite (weights_sum_zsumf _ (L + scale + 1)); [|lia|eapply Forall_impl; [exact HF'|]; intros w Hw; cbn beta in *; lia].
  fold (hbase (rescaled scale ws) (L + scale + 1)). replace (L + scale + 1) with (L + 1 + scale) by lia.
  rewrite hbase_rescaled, (hbase_total ws L Hc) by lia. rewrite pow2_add by lia. done.
Qed.

Lemma hpos_rescaled x : 0 <= x < zlen ws -> 1 <= zat ws x -> hpos (rescaled scale ws) x = hpos ws x * 2 ^ scale.
Proof.
  intros Hx Hw. unfold hpos. cbv zeta. rewrite zat_rescaled, (proj2 (Z.eqb_neq _ 0)), take_rescaled by lia.
  rewrite hbase_rescaled, occ_rescaled by (first [lia|apply weights_nonneg]).
  rewrite (proj2 (Z.eqb_neq _ 0)), (proj2 (Z.leb_gt _ scale)) by lia. replace (zat ws x + scale - scale) with (zat ws x) by lia.
  rewrite !weight_val_pos by lia. replace (zat ws x + scale - 1) with (zat ws x - 1 + scale) by lia. rewrite pow2_add by lia. lia.
Qed.

End rescale.

Lemma rescaleStats_ok hw rk ws L target :
  kraft L ws -> 1 <= target <= 12 -> zlen ws <= zlen hw -> 13 <= zlen rk -> zlen ws <= 256 ->
  (forall x, 0 <= x < zlen ws -> zat hw x = zat ws x) -> (forall i, 0 <= i <= L -> zat rk i = occ i ws) ->
  exists hw' rk' L', HUF_rescaleStats hw rk (zlen ws) L target = Ok (hw', rk', L') /\
    L' = Z.max L target /\ zlen hw' = zlen hw /\ zlen rk' = zlen rk /\
    (forall x, 0 <= x < zlen ws -> zat hw' x = zat (rescaled (L' - L) ws) x) /\
    (forall i, 0 <= i <= L' -> zat rk' i = occ i (rescaled (L' - L) ws)).
Proof.
  intros Hc Ht Hh Hr Hn Hw Ho. pose proof (cn_L _ _ Hc) as HL. unfold HUF_rescaleStats. rewrite Z.gtb_ltb.
  pose proof (zlen_nonneg ws). destruct (Z.ltb_spec target L).
  { exists hw, rk, L. rewrite Z.sub_diag, rescaled_0. split_and!; first [done | lia]. }
  destruct (Z.ltb_spec L target).
  2: { cbn [bind]. exists hw, rk, target. replace (target - L) with 0 by lia. rewrite rescaled_0.
    split_and!; first [done | lia | intros; apply Ho; lia]. }
  set (scale := target - L). assert (1 <= scale) by lia. cbv zeta.
  match goal with |- exists _ _ _, bind ?c _ = _ /\ _ => assert (wp c (fun '(hw', rk') => zlen hw' = zlen hw /\ zlen rk' = zlen rk /\
    (forall x, 0 <= x < zlen ws -> zat hw' x = zat (rescaled scale ws) x) /\
    (forall i, 0 <= i <= target -> zat rk' i = occ i (rescaled scale ws))) no_errors) as Hwp end.
  2: { apply wp_no_errors_Ok in Hwp as ([hw' rk'] & -> & ? & ? & ? & ?). cbn [bind]. exists hw', rk', target.
       split; [done|]. split; [lia|]. fold scale. done. }
  wp_step. apply (wp_for (fun k hw' => zlen hw' = zlen hw /\ (forall x, 0 <= x < k -> zat hw' x = zat (rescaled scale ws) x) /\
      (forall x, k <= x < zlen ws -> zat hw' x = zat ws x))); [lia| | |].
  - split; [done|]. split; [intros; lia|done].
  - intros k h Hk (Hl & Hd & Hrest). pose proof (cn_range ws L Hc k Hk) as Hwk. wp_step. wp_step; [lia|]. rewrite Hrest by lia. wp_step; [lia|].
    rewrite zlen_zupd. split; [done|]. split; intros x Hx; rewrite zat_zupd by lia; destruct (Z.eqb_spec x k) as [->|]; try lia.
    + rewrite zat_rescaled by lia. destruct (Z.eqb_spec (zat ws k) 0) as [->|]; [done|]. rewrite (u8_small scale), u8_small by lia. done.
    + apply Hd. lia.
    + apply Hrest. lia.
  - intros hw' (Hlh & Hdh & _). wp_step.
    apply (wp_for (fun k r => zlen r = zlen rk /\ (forall i, target - k < i <= target -> zat r i = zat rk (i - scale)) /\
      (forall i, 0 <= i <= target - k -> zat r i = zat rk i))); [lia| | |].
    + split; [done|]. split; [intros; lia|done].
    + intros k r Hk (Hl & Hd & Hrest). cbv zeta. wp_step. wp_step; [lia|]. rewrite Hrest by lia. wp_step; [lia|].
      rewrite zlen_zupd. split; [done|]. split; intros i Hi; rewrite zat_zupd by lia; destruct (Z.eqb_spec i (target - k)) as [->|]; try lia.
      * apply Hd. lia. * apply Hrest. lia.
    + intros r (Hl & Hd & Hrest). wp_step.
      apply (wp_for (fun k r' => zlen r' = zlen rk /\ (forall i, scale - k < i <= scale -> zat r' i = 0) /\
        (forall i, 0 <= i <= target -> ~ (scale - k < i <= scale) -> zat r' i = zat r i))); [lia| | |].
      * split; [done|]. split; [intros; lia|done].
      * intros k r' Hk (Hl' & Hz & Hsame). wp_step; [lia|]. rewrite zlen_zupd. split; [done|].
        split; intros i Hi; [|intros Hi2]; rewrite zat_zupd by lia; destruct (Z.eqb_spec i (scale - k)) as [->|]; try lia.
        -- apply Hz. lia. -- apply Hsame; lia.
      * intros r' (Hl' & Hz & Hsame). wp_step. split; [lia|]. split; [lia|]. split; [done|].
        intros i Hi. rewrite occ_rescaled; [|lia|].
        2: { destruct Hc as (_ & HF & _). eapply Forall_impl; [exact HF|]. intros w Hw'. cbn beta in Hw'. lia. }
        destruct (Z.eqb_spec i 0) as [->|].
        -- rewrite Hsame, Hrest, Ho by lia. done.
        -- destruct (Z.leb_spec i scale); [rewrite Hz by lia; done|]. rewrite Hsame, Hd, Ho by lia. done.
Qed.

(** *** The symbols by weight *)

(** The first place of the symbols of weight [w], and the place of a symbol. *)
Definition rbase (ws : list Z) (w : Z) : Z := zsumf (fun v => occ v ws) w.
Definition rpos (ws : list Z) (x : Z) : Z := rbase ws (zat ws x) + occ (zat ws x) (take (Z.to_nat x) ws).

Section sort.
Context (ws : list Z) (L : Z).
Hypothesis HF : Forall (fun w => 0 <= w <= L) ws.
Hypothesis HL : 1 <= L <= 12.
Hypothesis Hn : zlen ws <= 256.

Lemma rbase_S w : 0 <= w -> rbase ws (w + 1) = rbase ws w + occ w ws.
Proof. intros. unfold rbase. by rewrite zsumf_S. Qed.
Lemma rbase_mono a b : 0 <= a <= b -> rbase ws a <= rbase ws b.
Proof. intros H. apply zsumf_mono; [lia|]. intros. apply occ_nonneg. Qed.
Lemma rbase_range w : 0 <= w <= L + 1 -> 0 <= rbase ws w <= zlen ws.
Proof.
  intros Hw. rewrite <- (zsumf_occ ws (L + 1)); [|lia|eapply Forall_impl; [exact HF|]; intros x Hx; cbn beta in *; lia].
  split; [apply zsumf_nonneg; [lia|]; intros; apply occ_nonneg|]. by apply rbase_mono.
Qed.

Lemma weight_at x : 0 <= x < zlen ws -> 0 <= zat ws x <= L.
Proof. intros Hx. by apply (zat_Forall (fun w => 0 <= w <= L) ws). Qed.

Lemma rpos_range x : 0 <= x < zlen ws -> rbase ws (zat ws x) <= rpos ws x < rbase ws (zat ws x + 1).
Proof.
  intros Hx. pose proof (weight_at x Hx). unfold rpos. rewrite rbase_S by lia. pose proof (occ_take_lt ws x Hx).
  pose proof (occ_nonneg (zat ws x) (take (Z.to_nat x) ws)). lia.
Qed.

Lemma rpos_bounds x : 0 <= x < zlen ws -> 0 <= rpos ws x < zlen ws.
Proof.
  intros Hx. pose proof (weight_at x Hx). pose proof (rpos_range x Hx).
  assert (0 <= rbase ws (zat ws x)) by (apply rbase_range; lia).
  assert (rbase ws (zat ws x + 1) <= zlen ws) by (apply rbase_range; lia). lia.
Qed.

Lemma rpos_inj x y : 0 <= x < zlen ws -> 0 <= y < zlen ws -> rpos ws x = rpos ws y -> x = y.
Proof.
  intros Hx Hy E. pose proof (rpos_range x Hx). pose proof (rpos_range y Hy). pose proof (weight_at x Hx). pose proof (weight_at y Hy).
  destruct (Z.lt_trichotomy (zat ws x) (zat ws y)) as [Hlt|[Ew|Hlt]].
  - assert (rbase ws (zat ws x + 1) <= rbase ws (zat ws y)) by (apply rbase_mono; lia). lia.
  - apply (occ_inj ws x y); try done. unfold rpos in E. rewrite Ew in *. lia.
  - assert (rbase ws (zat ws y + 1) <= rbase ws (zat ws x)) by (apply rbase_mono; lia). lia.
Qed.

Lemma rankStart_ok rk rs :
  L < zlen rk -> L < zlen rs -> (forall i, 0 <= i <= L -> zat rk i = occ i ws) ->
  exists rs', X1_rankStart rk rs L = Ok rs' /\ zlen rs' = zlen rs /\ (forall w, 0 <= w <= L -> zat rs' w = rbase ws w).
Proof.
  intros Hr Hrs Ho. match goal with |- exists t, ?c = _ /\ _ => apply (wp_no_errors_Ok c) end. unfold X1_rankStart. wp_step.
  apply (wp_for (fun n '(rs', next) => zlen rs' = zlen rs /\ next = rbase ws n /\ (forall w, 0 <= w < n -> zat rs' w = rbase ws w))); [lia| | |].
  - split; [done|]. split; [done|]. intros; lia.
  - intros n [r next] Hk (Hl & -> & Hd). cbv zeta. wp_step. wp_step; [lia|]. rewrite Ho by lia. wp_step. wp_step; [lia|]. wp_step.
    rewrite zlen_zupd. split; [done|]. assert (0 <= rbase ws (n + 1) <= zlen ws) by (apply rbase_range; lia).
    rewrite <- rbase_S, u32_small by lia. split; [done|]. intros w Hw. rewrite zat_zupd by lia.
    destruct (Z.eqb_spec w n) as [->|]; [done|]. apply Hd. lia.
  - intros [r next] (Hl & _ & Hd). wp_step. split; [done|]. intros w Hw. apply Hd. lia.
Qed.

(** The symbols below [n] are placed. *)
Definition placed (sy0 rs0 : list Z) (n : Z) (st : list Z * list Z) : Prop :=
  zlen st.1 = zlen sy0 /\ zlen st.2 = zlen rs0 /\
  (forall w, 0 <= w <= L -> zat st.2 w = rbase ws w + occ w (take (Z.to_nat n) ws)) /\
  (forall x, 0 <= x < n -> zat st.1 (rpos ws x) = x).

Lemma place_ok hw sy0 rs0 n st :
  (forall x, 0 <= x < zlen ws -> zat hw x = zat ws x) -> zlen ws <= zlen hw -> zlen ws <= zlen sy0 -> L < zlen rs0 ->
  placed sy0 rs0 n st -> 0 <= n < zlen ws -> wp (X1_place hw n st) (placed sy0 rs0 (n + 1)) no_errors.
Proof.
  destruct st as [sy rs]. intros Hhw Hlh Hls Hlr (H1 & H2 & H3 & H4) Hk. cbn [fst snd] in *. unfold X1_place.
  pose proof (weight_at n Hk) as Hw. pose proof (rpos_bounds n Hk) as Hp.
  wp_step. wp_step; [lia|]. rewrite Hhw by done. wp_step. wp_step; [lia|]. rewrite H3 by lia. fold (rpos ws n).
  wp_step. wp_step; [lia|]. wp_step. wp_step; [lia|]. wp_step. unfold placed. cbn [fst snd]. rewrite !zlen_zupd.
  split; [done|]. split; [done|]. rewrite u32_small, u8_small by lia. split.
  - intros w Hw'. rewrite occ_take_S, zat_zupd, Z.eqb_sym by lia. destruct (Z.eqb_spec (zat ws n) w) as [<-|]; simpl b2z.
    + unfold rpos. lia.
    + rewrite H3 by lia. lia.
  - intros x Hx. pose proof (rpos_bounds x ltac:(lia)). rewrite zat_zupd by lia. destruct (Z.eqb_spec (rpos ws x) (rpos ws n)) as [E|Hne].
    + apply rpos_inj in E; lia.
    + apply H4. destruct (Z.eq_dec x n) as [->|]; [done|lia].
Qed.

Lemma sort_ok hw sy rs :
  (forall x, 0 <= x < zlen ws -> zat hw x = zat ws x) -> zlen ws <= zlen hw -> zlen ws <= zlen sy -> L < zlen rs ->
  (forall w, 0 <= w <= L -> zat rs w = rbase ws w) ->
  exists sy', X1_sort hw sy rs (zlen ws) = Ok sy' /\ zlen sy' = zlen sy /\ (forall x, 0 <= x < zlen ws -> zat sy' (rpos ws x) = x).
Proof.
  intros Hhw Hlh Hls Hlr Hr. pose proof (zlen_nonneg ws).
  match goal with |- exists t, ?c = _ /\ _ => apply (wp_no_errors_Ok c) end. unfold X1_sort. cbv zeta. wp_step.
  apply (wp_while (fun '(n, st) => 0 <= n <= zlen ws /\ placed sy rs n st) (fun '(n, _) => zlen ws - n)).
  - split; [lia|]. split; [done|]. split; [done|]. split; [|intros; lia]. intros w Hw. cbn [snd]. rewrite Hr by done.
    change (take (Z.to_nat 0) ws) with (@nil Z). rewrite occ_nil. lia.
  - lia.
  - intros [n st] [Hk Hp] Hlt. bools. split; [lia|]. wp_step.
    apply (wp_for (fun u st => placed sy rs (n + u) st)); [lia|by rewrite Z.add_0_r| |].
    + intros u st' Hu Hp'. rewrite Z.add_assoc. by apply place_ok; try lia.
    + intros st' Hp'. wp_step. split; [|lia]. split; [lia|done].
  - intros [n st] [Hk Hp] _. wp_step.
    apply (wp_for (fun k st => placed sy rs k st)); [lia|done| |].
    + intros u st' Hu Hp'. by apply place_ok; try lia.
    + intros [sy' rs'] (H1 & _ & _ & H4). wp_step. done.
Qed.

End sort.

(** *** The entries *)

(** [n] entries from [u] on are set. *)
Definition filled (dt dt' : list Z) (u n nb x : Z) : Prop :=
  zlen dt' = zlen dt /\
  forall i, 0 <= i -> entry dt' i = if (u <=? i) && (i <? u + n) then (nb, x) else entry dt i.

Lemma filled_app dt dt1 dt2 u n m nb x :
  0 <= n -> 0 <= m -> filled dt dt1 u n nb x -> filled dt1 dt2 (u + n) m nb x -> filled dt dt2 u (n + m) nb x.
Proof.
  intros Hn Hm [L1 H1] [L2 H2]. split; [congruence|]. intros i Hi. rewrite H2, H1 by done.
  destruct (Z.leb_spec (u + n) i), (Z.ltb_spec i (u + n + m)), (Z.leb_spec u i), (Z.ltb_spec i (u + n)), (Z.ltb_spec i (u + (n + m))); cbn [andb]; done || lia.
Qed.

Lemma filled_0 dt u nb x : filled dt dt u 0 nb x.
Proof.
  split; [done|]. intros i Hi. destruct (Z.leb_spec u i), (Z.ltb_spec i (u + 0)); cbn [andb]; done || lia.
Qed.

Lemma set_filled dt u nb x :
  0 <= u -> 2 * (u + 1) <= zlen dt -> exists dt', DEltX1_set dt u nb x = Ok dt' /\ filled dt dt' u 1 nb x.
Proof.
  intros Hu Hl. unfold DEltX1_set. rewrite wr_ok by lia. cbn [bind]. rewrite wr_ok by (rewrite zlen_zupd; lia).
  eexists. split; [done|]. split; [by rewrite !zlen_zupd|]. intros i Hi. unfold entry. rewrite !zat_zupd by (rewrite ?zlen_zupd; lia).
  destruct (Z.leb_spec u i), (Z.ltb_spec i (u + 1)); cbn [andb];
    destruct (Z.eqb_spec (2 * i) (2 * u)), (Z.eqb_spec (2 * i) (2 * u + 1)), (Z.eqb_spec (2 * i + 1) (2 * u)), (Z.eqb_spec (2 * i + 1) (2 * u + 1)); done || lia.
Qed.

Lemma set4_bytes le x nb :
  0 <= x < 256 -> 0 <= nb < 256 -> native_bytes le 8 (HUF_DEltX1_set4 le x nb) = [nb; x; nb; x; nb; x; nb; x].
Proof.
  intros Hx Hnb. unfold native_bytes, HUF_DEltX1_set4, be_bytes. rewrite !Z.shiftl_mul_pow2 by lia. change (2 ^ 8) with 256.
  change 0x0001000100010001 with (1 + 2 ^ 16 + 2 ^ 32 + 2 ^ 48). destruct le.
  - rewrite u64_small by lia.
    replace ((x * 256 + nb) * (1 + 2 ^ 16 + 2 ^ 32 + 2 ^ 48)) with (le_val [nb; x; nb; x; nb; x; nb; x]) by (unfold le_val; lia).
    apply (le_bytes_le_val [nb; x; nb; x; nb; x; nb; x]). repeat constructor; unfold is_byte; lia.
  - rewrite u64_small by lia.
    replace ((x + nb * 256) * (1 + 2 ^ 16 + 2 ^ 32 + 2 ^ 48)) with (le_val [x; nb; x; nb; x; nb; x; nb]) by (unfold le_val; lia).
    assert (le_bytes 8 (le_val [x; nb; x; nb; x; nb; x; nb]) = [x; nb; x; nb; x; nb; x; nb]) as ->; [|done].
    apply (le_bytes_le_val [x; nb; x; nb; x; nb; x; nb]). repeat constructor; unfold is_byte; lia.
Qed.

Lemma write4_filled le dt u nb x :
  0 <= x < 256 -> 0 <= nb < 256 -> 0 <= u -> 2 * (u + 4) <= zlen dt ->
  exists dt', MEM_write64 le dt (2 * u) (HUF_DEltX1_set4 le x nb) = Ok dt' /\ filled dt dt' u 4 nb x.
Proof.
  intros Hx Hnb Hu Hl. unfold MEM_write64. rewrite set4_bytes by lia. assert (zlen [nb; x; nb; x; nb; x; nb; x] = 8) as E8 by done.
  rewrite memcpy_at_ok by lia. eexists. split; [done|]. split; [apply zlen_zpatch; lia|].
  intros i Hi. unfold entry. rewrite !zat_zpatch, E8 by lia.
  destruct (Z.leb_spec u i); cbn [andb].
  - rewrite (proj2 (Z.leb_le (2 * u) _)), (proj2 (Z.leb_le (2 * u) (2 * i + 1))) by lia. cbn [andb].
    destruct (Z.ltb_spec i (u + 4)).
    + rewrite (proj2 (Z.ltb_lt (2 * i) _)), (proj2 (Z.ltb_lt (2 * i + 1) _)) by lia.
      assert (i - u = 0 \/ i - u = 1 \/ i - u = 2 \/ i - u = 3) as Hcase by lia.
      replace (2 * i - 2 * u) with (2 * (i - u)) by lia. replace (2 * i + 1 - 2 * u) with (2 * (i - u) + 1) by lia.
      by destruct Hcase as [->|[->|[->| ->]]].
    + rewrite (proj2 (Z.ltb_ge (2 * i) _)), (proj2 (Z.ltb_ge (2 * i + 1) _)) by lia. done.
  - rewrite (proj2 (Z.leb_gt (2 * u) (2 * i))) by lia. cbn [andb]. rewrite (proj2 (Z.leb_gt (2 * u) (2 * i + 1))) by lia. done.
Qed.

Lemma fill_symbol_ok le dt u w x nb :
  1 <= w <= 12 -> 0 <= x < 256 -> 0 <= nb < 256 -> 0 <= u -> 2 * (u + 2 ^ (w - 1)) <= zlen dt ->
  exists dt', X1_fill_symbol le dt u (2 ^ (w - 1)) x nb = Ok dt' /\ filled dt dt' u (2 ^ (w - 1)) nb x.
Proof.
  intros Hw Hx Hnb Hu Hl. unfold X1_fill_symbol.
  assert (w = 1 \/ w = 2 \/ w = 3 \/ w = 4 \/ 5 <= w) as [->|[->|[->|[->|Hw5]]]] by lia.
  - change (2 ^ (1 - 1)) with 1 in *. cbn [Z.eqb Pos.eqb]. by apply set_filled.
  - change (2 ^ (2 - 1)) with 2 in *. cbn [Z.eqb Pos.eqb]. rewrite Z.add_0_r.
    destruct (set_filled dt u nb x) as (d1 & -> & F1); [lia|lia|]. cbn [bind]. pose proof (proj1 F1).
    destruct (set_filled d1 (u + 1) nb x) as (d2 & -> & F2); [lia|lia|]. exists d2. split; [done|]. apply (filled_app dt d1 d2 u 1 1); done || lia.
  - change (2 ^ (3 - 1)) with 4 in *. cbn [Z.eqb Pos.eqb]. by apply write4_filled.
  - change (2 ^ (4 - 1)) with 8 in *. cbn [Z.eqb Pos.eqb].
    destruct (write4_filled le dt u nb x) as (d1 & -> & F1); [lia..|]. cbn [bind]. pose proof (proj1 F1).
    destruct (write4_filled le d1 (u + 4) nb x) as (d2 & -> & F2); [lia..|]. exists d2. split; [done|]. apply (filled_app dt d1 d2 u 4 4); done || lia.
  - replace (w - 1) with (4 + (w - 5)) in * by lia. rewrite pow2_add in * by lia. change (2 ^ 4) with 16 in *.
    set (q := 2 ^ (w - 5)) in *. assert (1 <= q) by (pose proof (pow2_pos (w - 5) ltac:(lia)); unfold q; lia).
    rewrite !(proj2 (Z.eqb_neq _ _)) by lia. unfold for_step. replace ((16 * q - 0 + 16 - 1) / 16) with q by zdm.
    match goal with |- exists t, ?c = _ /\ _ => apply (wp_no_errors_Ok c) end.
    apply (wp_for (fun k d => filled dt d u (16 * k) nb x)); [lia|rewrite Z.mul_0_r; apply filled_0| |done].
    intros k d Hk F. pose proof (proj1 F). replace (0 + k * 16) with (16 * k) by lia. rewrite Z.add_0_r.
    destruct (write4_filled le d (u + 16 * k) nb x) as (d1 & -> & F1); [lia..|]. cbn [bind]. pose proof (proj1 F1).
    destruct (write4_filled le d1 (u + 16 * k + 4) nb x) as (d2 & -> & F2); [lia..|]. cbn [bind]. pose proof (proj1 F2).
    destruct (write4_filled le d2 (u + 16 * k + 8) nb x) as (d3 & -> & F3); [lia..|]. cbn [bind]. pose proof (proj1 F3).
    destruct (write4_filled le d3 (u + 16 * k + 12) nb x) as (d4 & -> & F4); [lia..|]. cbn [wp].
    replace (16 * (k + 1)) with (16 * k + (4 + (4 + (4 + 4)))) by lia.
    apply (filled_app dt d d4); [lia|lia|exact F|]. apply (filled_app d d1 d4); [lia|lia|exact F1|].
    apply (filled_app d1 d2 d4); [lia|lia|exact F2|]. apply (filled_app d2 d3 d4); [lia|lia| |].
    + by replace (u + 16 * k + 4 + 4) with (u + 16 * k + 8) by lia.
    + by replace (u + 16 * k + 4 + 4 + 4) with (u + 16 * k + 12) by lia.
Qed.

Section fill.
Context (le : bool) (ws : list Z) (L : Z) (sy rk : list Z).
Hypothesis Hc : kraft L ws.
Hypothesis Hn : zlen ws <= 256.
Hypothesis Hls : zlen ws <= zlen sy.
Hypothesis Hlr : L < zlen rk.
Hypothesis Hsy : forall x, 0 <= x < zlen ws -> zat sy (rpos ws x) = x.
Hypothesis Hrk : forall i, 0 <= i <= L -> zat rk i = occ i ws.

(** The entries below [u] are right. *)
Definition filled_below (dt : list Z) (u : Z) : Prop :=
  forall x i, at_entry ws x i -> i < u -> entry dt i = (L + 1 - zat ws x, x).

Lemma fill_next dt w s :
  1 <= w <= L -> 0 <= s < occ w ws -> 2 * 2 ^ L <= zlen dt -> filled_below dt (hbase ws w + s * 2 ^ (w - 1)) ->
  exists dt', (let* sym := rd sy (rbase ws w + s) in
      let* dt := X1_fill_symbol le dt (hbase ws w + s * 2 ^ (w - 1)) (2 ^ (w - 1)) sym (u8 (L + 1 - w)) in
      Ok (dt, hbase ws w + s * 2 ^ (w - 1) + 2 ^ (w - 1))) = Ok (dt', hbase ws w + (s + 1) * 2 ^ (w - 1)) /\
    zlen dt' = zlen dt /\ filled_below dt' (hbase ws w + (s + 1) * 2 ^ (w - 1)).
Proof.
  intros Hw Hs Hl Hb. pose proof (cn_L _ _ Hc) as HL. pose proof Hc as (_ & HF & _).
  destruct (occ_find w ws s Hs) as (x & Hx & Ex & Ho).
  assert (rpos ws x = rbase ws w + s) as Er by (unfold rpos; by rewrite Ex, Ho).
  pose proof (rpos_bounds ws L HF HL x Hx) as Hp. rewrite Er in Hp. rewrite rd_ok by lia. cbn [bind]. rewrite <- Er, Hsy by done.
  assert (hpos ws x = hbase ws w + s * 2 ^ (w - 1)) as Eh by (unfold hpos; cbv zeta; by rewrite Ex, Ho, weight_val_pos by lia).
  destruct (hpos_bounds ws L Hc x Hx) as [H0 H1]; [lia|]. rewrite Ex, weight_val_pos in H1 by lia. rewrite <- Eh in *.
  destruct (fill_symbol_ok le dt (hpos ws x) w x (u8 (L + 1 - w))) as (dt' & -> & F1 & F2); [lia|lia|apply u8_range|lia|lia|].
  cbn [bind]. exists dt'. replace (hbase ws w + (s + 1) * 2 ^ (w - 1)) with (hpos ws x + 2 ^ (w - 1)) by lia.
  split; [done|]. split; [done|]. intros y i Hy Hi. destruct (at_entry_range ws L Hc y i Hy) as [Hi0 _].
  rewrite F2 by done. rewrite u8_small by lia. destruct (Z.leb_spec (hpos ws x) i); cbn [andb].
  - rewrite (proj2 (Z.ltb_lt _ _)) by lia. assert (x = y) as <-; [|by rewrite Ex].
    apply (at_entry_unique ws x y i); [|done]. split; [done|]. split; [lia|]. rewrite Ex, weight_val_pos by lia. lia.
  - by apply Hb.
Qed.

Lemma fill_ok dt :
  2 * 2 ^ L <= zlen dt ->
  exists dt', X1_fill le dt sy rk L = Ok dt' /\ zlen dt' = zlen dt /\
    (forall x i, at_entry ws x i -> entry dt' i = (L + 1 - zat ws x, x)).
Proof.
  intros Hl. pose proof (cn_L _ _ Hc) as HL. match goal with |- exists t, ?c = _ /\ _ => apply (wp_no_errors_Ok c) end.
  unfold X1_fill. rewrite rd_ok, Hrk by lia. cbn [bind]. wp_step.
  apply (wp_for (fun w '(d, symbol, rs) => zlen d = zlen dt /\ symbol = rbase ws w /\ rs = hbase ws w /\ filled_below d (hbase ws w))); [lia| | |].
  - split; [done|]. change 1 with (0 + 1). rewrite rbase_S by lia. unfold rbase at 1. rewrite zsumf_0.
    change (0 + 1) with 1. rewrite hbase_1. split; [lia|]. split; [done|].
    intros x i Hx Hi. destruct (at_entry_range ws L Hc x i Hx). lia.
  - intros w [[d symbol] rs] Hw (Hd & -> & -> & Hb). wp_step. wp_step; [lia|]. rewrite Hrk by lia. cbv zeta.
    rewrite Z.shiftl_1_l, Z.shiftr_div_pow2 by lia.
    assert (2 ^ w / 2 ^ 1 = 2 ^ (w - 1)) as Elen.
    { replace w with (w - 1 + 1) at 1 by lia. rewrite pow2_S, Z.mul_comm by lia. by rewrite Z.div_mul by lia. }
    rewrite Elen. wp_step. pose proof (occ_nonneg w ws).
    apply (wp_for (fun s '(d', u) => zlen d' = zlen dt /\ u = hbase ws w + s * 2 ^ (w - 1) /\ filled_below d' u)); [lia| | |].
    + rewrite Z.mul_0_l, Z.add_0_r. done.
    + intros s [d' u] Hs (Hd' & -> & Hb'). destruct (fill_next d' w s) as (d2 & -> & Hd2 & Hb2); [lia|done|lia|done|]. cbn [wp].
      split; [lia|]. done.
    + intros [d' u] (Hd' & -> & Hb'). wp_step. rewrite rbase_S, hbase_S, weight_val_pos by lia. done.
  - intros [[d symbol] rs] (Hd & _ & _ & Hb). wp_step. split; [done|]. intros x i Hx. apply Hb; [done|].
    rewrite (hbase_total ws L Hc). by destruct (at_entry_range ws L Hc x i Hx).
Qed.

End fill.

(** *** Reading a table *)

(** A workspace of the size it claims. *)
Definition rdw_ok (w : HUF_ReadDTableX1_Workspace) : Prop :=
  HUF_ReadDTableX1_Workspace_size <= rw_size w /\ zlen (rw_rankVal w) = 13 /\ zlen (rw_rankStart w) = 13 /\
  wksp_ok (rw_statsWksp w) /\ HUF_READ_STATS_WORKSPACE_SIZE <= wk_size (rw_statsWksp w) /\
  zlen (rw_symbols w) = 256 /\ zlen (rw_huffWeight w) = 256 /\ bytes_ok (rw_huffWeight w).

(** A table whose memory has the size its description claims. *)
Definition DTable_ok (DTable : HUF_DTable) : Prop :=
  0 <= maxTableLog (hdt_desc DTable) <= 12 /\ zlen (hdt_mem DTable) = 4 * 2 ^ maxTableLog (hdt_desc DTable).

(** The depth chosen for a tree of depth [L]. *)
Definition X1_depth (DTable : HUF_DTable) (L : Z) : Z :=
  Z.max L (Z.min (maxTableLog (hdt_desc DTable) + 1) HUF_DECODER_FAST_TABLELOG).

Lemma readDTableX1_body le DTable src w rs :
  rdw_ok w -> DTable_ok DTable ->
  HUF_readStats (rw_huffWeight w) (rw_rankVal w) src (rw_statsWksp w) = Ok rs ->
  let ws := take (Z.to_nat (hs_nbSymbols rs)) (hs_huffWeight rs) in
  let L := hs_tableLog rs in
  let L' := X1_depth DTable L in
  zlen ws = hs_nbSymbols rs -> 1 <= zlen ws <= 256 -> kraft L ws ->
  zlen (hs_rankStats rs) = 13 -> (forall i, 0 <= i < 13 -> zat (hs_rankStats rs) i = occ i ws) ->
  wp (HUF_readDTableX1_wksp le DTable src w)
    (fun '(DTable', iSize) => L <= maxTableLog (hdt_desc DTable) + 1 /\ iSize = hs_size rs /\
       maxTableLog (hdt_desc DTable') = maxTableLog (hdt_desc DTable) /\ tableType (hdt_desc DTable') = 0 /\
       zlen (hdt_mem DTable') = zlen (hdt_mem DTable) /\
       kraft L' (rescaled (L' - L) ws) /\ dtableX1 (rescaled (L' - L) ws) L' DTable')
    (fun e => e = tableLog_tooLarge /\ maxTableLog (hdt_desc DTable) + 1 < L).
Proof.
  intros (Hsz & Hrv & Hrst & _ & _ & Hsy & Hhw & _) [Hmax Hmem] Hrd ws L L' Hnb Hlen Hc Hlr Hocc.
  pose proof (cn_L _ _ Hc) as HL. unfold HUF_readDTableX1_wksp, HUF_getDTableDesc. wp_step; [lia|]. rewrite Hrd. cbn [bind]. cbv zeta.
  assert (zlen ws <= zlen (hs_huffWeight rs)) as Hlh by (unfold ws, zlen; rewrite length_take; lia).
  set (target := Z.min (maxTableLog (hdt_desc DTable) + 1) HUF_DECODER_FAST_TABLELOG).
  assert (1 <= target <= 11) as Ht by (unfold target, HUF_DECODER_FAST_TABLELOG; lia). rewrite <- Hnb. fold L.
  destruct (rescaleStats_ok (hs_huffWeight rs) (hs_rankStats rs) ws L target Hc) as (hw & rk & L1 & -> & EL & Hl1 & Hl2 & Hw & Ho); [lia..| | |].
  { intros x Hx. unfold ws, zat. rewrite lookup_total_take_lt by lia. done. }
  { intros i Hi. apply Hocc. lia. }
  assert (L1 = L') as -> by done. cbn [bind]. clear EL.
  assert (L <= L' <= 12 /\ target <= L') as HL' by (unfold L', X1_depth; fold target; unfold HUF_DECODER_FAST_TABLELOG; lia).
  wp_step; [split; [done|]; unfold L', X1_depth in *; fold target in Hc0; unfold target in *; lia|].
  pose proof (kraft_rescaled ws L (L' - L) Hc ltac:(lia) ltac:(lia)) as Hc'. replace (L + (L' - L)) with L' in Hc' by lia.
  set (ws' := rescaled (L' - L) ws) in *. assert (zlen ws' = zlen ws) as Hlw by apply zlen_rescaled.
  pose proof Hc' as (HL12 & HF' & _).
  destruct (rankStart_ok ws' L' HF' HL12 ltac:(lia) rk (rw_rankStart w)) as (rst & -> & Hlst & Hst); [lia|lia|done|]. cbn [bind].
  destruct (sort_ok ws' L' HF' HL12 ltac:(lia) hw (rw_symbols w) rst) as (sy & E & Hlsy & Hpos); [by rewrite Hlw|lia|lia|lia|done|].
  rewrite Hlw in E, Hpos. rewrite E. cbn [bind].
  assert (2 * 2 ^ L' <= zlen (hdt_mem DTable)) as Hroom.
  { rewrite Hmem. replace 4 with (2 * 2 ^ 1) by lia. rewrite <- Z.mul_assoc, <- pow2_add by lia.
    pose proof (pow2_le L' (1 + maxTableLog (hdt_desc DTable)) ltac:(lia)). lia. }
  destruct (fill_ok le ws' L' sy rk Hc') with (dt := hdt_mem DTable) as (dt & -> & Hld & Hent); [lia|lia|lia|by rewrite Hlw|done|done|].
  cbn [bind]. wp_step. cbn [hdt_desc hdt_mem maxTableLog tableType dtd_tableLog].
  split; [unfold L', X1_depth in *; lia|]. split; [done|]. split; [done|]. split; [done|]. split; [done|]. split; [done|].
  split; [cbn; by rewrite u8_small by lia|]. split; [cbn [hdt_mem]; lia|]. done.
Qed.
