(* ===== verification/HufDecode.v ===== *)
(** The Huffman decoder with one symbol per entry (decompress/huf_decompress.c):
    symbols, streams, and the single-stream body. *)

From S2P Require Import Prelude Errors Outcome Bits Mem BitStream FseTable FseSpread FseSymbols FseBuild FseSafe HufStats Hist FseNormalize HufWeights HufTree HufCode HufEncode HufDTable.

(** ** Definitions *)

Definition HUF_decodeSymbolX1 (Dstream : BIT_DStream_t) (dt : list Z) (dtLog : Z) : result (Z * BIT_DStream_t) :=
  let val := BIT_lookBitsFast Dstream dtLog in
  let* c := DEltX1_byte dt val in
  let* nb := DEltX1_nbBits dt val in
  Ok (c, BIT_skipBits Dstream nb).

(** [*ptr++ = HUF_decodeSymbolX1(DStreamPtr, dt, dtLog)]; on a 64-bit target the
    three macros are the same. *)
Definition HUF_DECODE_SYMBOLX1_0 (dt : list Z) (dtLog : Z) (st : list Z * Z * BIT_DStream_t)
  : result (list Z * Z * BIT_DStream_t) :=
  let '(dst, ptr, D) := st in
  let* '(c, D) := HUF_decodeSymbolX1 D dt dtLog in
  let* dst := wr dst ptr c in
  Ok (dst, ptr + 1, D).
Definition HUF_DECODE_SYMBOLX1_1 := HUF_DECODE_SYMBOLX1_0.
Definition HUF_DECODE_SYMBOLX1_2 := HUF_DECODE_SYMBOLX1_0.

(** [src] holds the bytes of the stream. The destination, the stream and the
    number of symbols after the call. *)
Definition HUF_decodeStreamX1 (src dst : list Z) (p : Z) (bitD : BIT_DStream_t) (pEnd : Z) (dt : list Z) (dtLog : Z)
  : result (list Z * BIT_DStream_t * Z) :=
  let pStart := p in
  (* up to 4 symbols at a time *)
  let* '(dst, p, bitD) :=
    (if pEnd - p >? 3 then
       loop_ (Z.to_nat (pEnd - p) + 1) (fun '(dst, p, bitD) =>
         let* '(st, bitD) := BIT_reloadDStream src bitD in
         if bool_decide (st = BIT_DStream_unfinished) && (p <? pEnd - 3) then
           let* s := HUF_DECODE_SYMBOLX1_2 dt dtLog (dst, p, bitD) in
           let* s := HUF_DECODE_SYMBOLX1_1 dt dtLog s in
           let* s := HUF_DECODE_SYMBOLX1_2 dt dtLog s in
           let* s := HUF_DECODE_SYMBOLX1_0 dt dtLog s in
           Ok (Continue s)
         else Ok (Break (dst, p, bitD))) (dst, p, bitD)
     else
       let* '(_, bitD) := BIT_reloadDStream src bitD in
       Ok (dst, p, bitD)) in
  (* no more data to retrieve from bitstream, no need to reload *)
  let* '(dst, p, bitD) :=
    while_ (Z.to_nat (pEnd - p)) (fun '(_, p, _) => p <? pEnd) (HUF_DECODE_SYMBOLX1_0 dt dtLog) (dst, p, bitD) in
  Ok (dst, bitD, pEnd - pStart).

(** The destination and its size. *)
Definition HUF_decompress1X1_usingDTable_internal_body (dst cSrc : list Z) (DTable : HUF_DTable) : result (list Z * Z) :=
  let op := 0 in
  let oend := op + zlen dst in
  let dt := hdt_mem DTable in
  let dtd := HUF_getDTableDesc DTable in
  let dtLog := dtd_tableLog dtd in
  let* bitD := BIT_initDStream cSrc in
  let* '(dst, bitD, _) := HUF_decodeStreamX1 cSrc dst op bitD oend dt dtLog in
  ERROR_IF negb (BIT_endOfDStream bitD) THEN corruption_detected ;;
  Ok (dst, zlen dst).

(** *** Specification *)

(** What is left of a stream: the symbols [xs], the next one on top. *)
Definition decodes_to (fld : Z -> Z * Z) (src : list Z) (d : BIT_DStream_t) (xs : list Z) : Prop :=
  let r := stack_bits (sym_fields fld xs) in
  drep src d r /\ le_val src mod 2 ^ r = stack_val (sym_fields fld xs).

(** A table the decoder can run on. *)
Definition dtable_safe (dt : list Z) (L : Z) : Prop :=
  1 <= L <= 12 /\ 2 * 2 ^ L <= zlen dt /\
  forall i, 0 <= i < 2 ^ L -> 1 <= (entry dt i).1 <= 12 /\ 0 <= (entry dt i).2 < 256.

(** ** Lemmas *)

Lemma dtableX1_safe ws L DTable :
  kraft L ws -> zlen ws <= 256 -> dtableX1 ws L DTable -> dtable_safe (hdt_mem DTable) L.
Proof.
  intros Hc Hn (_ & Hl & He). pose proof (cn_L _ _ Hc). split; [done|]. split; [done|]. intros i Hi.
  destruct (at_entry_cover ws L Hc i Hi) as (x & Hx). rewrite (He x i Hx). destruct Hx as (Hx & Hw & _).
  pose proof (cn_range ws L Hc x Hx). cbn [fst snd]. lia.
Qed.

Lemma lookBitsFast_range d nb : 1 <= nb < 32 -> 0 <= BIT_lookBitsFast d nb < 2 ^ nb.
Proof.
  intros Hnb. destruct (readBitsFast_any d nb Hnb) as (v & E & Hv). unfold BIT_readBitsFast in E. by simplify_eq.
Qed.

Lemma decodeSymbol_entry d dt L :
  dtable_safe dt L ->
  exists i, 0 <= i < 2 ^ L /\ i = BIT_lookBitsFast d L /\
    HUF_decodeSymbolX1 d dt L = Ok ((entry dt i).2, BIT_skipBits d (entry dt i).1).
Proof.
  intros (HL & Hl & He). pose proof (lookBitsFast_range d L ltac:(lia)) as Hr. eexists. split; [exact Hr|]. split; [done|].
  unfold HUF_decodeSymbolX1, DEltX1_byte, DEltX1_nbBits. cbv zeta. rewrite rd_ok by lia. cbn [bind]. rewrite rd_ok by lia. done.
Qed.

(** *** Safety *)

Section safe.
Context (src dt : list Z) (L : Z).
Hypothesis Hsafe : dtable_safe dt L.
Hypothesis Hsrc : bytes_ok src.

(** A write position in the destination, with a stream in use. *)
Definition sstate (dst0 : list Z) (lo hi over : Z) (st : list Z * Z * BIT_DStream_t) : Prop :=
  let '(dst, p, d) := st in
  zlen dst = zlen dst0 /\ lo <= p <= hi /\ dlive src d over /\ (bytes_ok dst0 -> bytes_ok dst) /\
  (forall i, 0 <= i -> ~ (lo <= i < hi) -> zat dst i = zat dst0 i).

Lemma decode_safe dst0 lo hi over st :
  0 <= lo -> hi <= zlen dst0 -> 0 <= over < 2 ^ 31 -> sstate dst0 lo hi over st -> st.1.2 < hi ->
  wp (HUF_DECODE_SYMBOLX1_0 dt L st) (fun st' => sstate dst0 lo hi (over + 12) st' /\ st'.1.2 = st.1.2 + 1) no_errors.
Proof.
  destruct st as [[dst p] d]. intros Hlo Hhi Ho (Hl & Hp & Hd & Hb & Hsame) Hlt. cbn [fst snd] in *.
  destruct (decodeSymbol_entry d dt L Hsafe) as (i & Hi & _ & E). destruct Hsafe as (HL & _ & He). destruct (He i Hi) as [Hnb Hby].
  unfold HUF_DECODE_SYMBOLX1_0. rewrite E. cbn [bind]. wp_step. wp_step; [lia|]. wp_step. split; [|done]. unfold sstate. rewrite zlen_zupd.
  split; [done|]. split; [lia|]. split; [apply skip_live; [done|lia|lia]|]. split; [intros; apply Forall_zupd; [by apply Hb|unfold is_byte; lia]|].
  intros j Hj Hout. rewrite zat_zupd_ne by lia. by apply Hsame.
Qed.

Lemma sstate_mono dst0 lo hi over over' st : over <= over' -> sstate dst0 lo hi over st -> sstate dst0 lo hi over' st.
Proof.
  destruct st as [[dst p] d]. intros Ho (Hl & Hp & Hd & Hb & Hsame). split; [done|]. split; [done|]. split; [|done].
  destruct Hd as [Hd|Hd]; [by left|right; lia].
Qed.

Lemma decodeStream_safe dst p d pEnd over :
  0 <= p <= pEnd -> pEnd <= zlen dst -> zlen dst < 2 ^ 27 -> 0 <= over <= 2 ^ 20 -> dlive src d over ->
  wp (HUF_decodeStreamX1 src dst p d pEnd dt L)
    (fun '(dst', d', n) => n = pEnd - p /\ zlen dst' = zlen dst /\ (bytes_ok dst -> bytes_ok dst') /\
       (forall i, 0 <= i -> ~ (p <= i < pEnd) -> zat dst' i = zat dst i))
    no_errors.
Proof.
  intros Hp Hend H27 Hover Hd. unfold HUF_decodeStreamX1. cbv zeta. set (O := 2 ^ 20 + 48).
  wp_step. apply (wp_mono _ (fun st => sstate dst p pEnd O st) _ no_errors); [|intros [[dst1 p1] d1] H1|done].
  - rewrite Z.gtb_ltb. destruct (Z.ltb_spec 3 (pEnd - p)).
    + apply (wp_loop (sstate dst p pEnd O) (fun st => pEnd - st.1.2)).
      * split; [done|]. split; [lia|]. split; [|done]. destruct Hd as [Hd|Hd]; [by left|right; unfold O; lia].
      * cbn [fst snd]. lia.
      * intros [[dst1 p1] d1] (Hl1 & Hp1 & Hd1 & Hb1 & Hs1).
        destruct (reload_live src d1 O Hsrc Hd1 ltac:(unfold O; lia)) as (st & d2 & -> & Hd2 & Hno & Hun). cbn [bind].
        destruct (bool_decide_reflect (st = BIT_DStream_unfinished)) as [->|]; cbn [andb]; [|by wp_step].
        destruct (Z.ltb_spec p1 (pEnd - 3)); [|by wp_step].
        destruct (Hno ltac:(done)) as (r & Hr).
        assert (sstate dst p pEnd 0 (dst1, p1, d2)) as HS0 by (split; [done|]; split; [done|]; split; [left; by exists r|done]).
        wp_step. eapply wp_mono; [apply (decode_safe dst p pEnd 0 _ ltac:(lia) Hend ltac:(lia) HS0); cbn [fst snd]; lia| |done].
        intros st1 [H1 E1]. cbn [fst snd] in E1.
        wp_step. eapply wp_mono; [apply (decode_safe dst p pEnd (0 + 12) st1 ltac:(lia) Hend ltac:(lia) H1); lia| |done].
        intros st2 [H2 E2]. wp_step. eapply wp_mono; [apply (decode_safe dst p pEnd (0 + 12 + 12) st2 ltac:(lia) Hend ltac:(lia) H2); lia| |done].
        intros st3 [H3 E3]. wp_step. eapply wp_mono; [apply (decode_safe dst p pEnd (0 + 12 + 12 + 12) st3 ltac:(lia) Hend ltac:(lia) H3); lia| |done].
        intros st4 [H4 E4]. wp_step. split; [|cbn [fst snd]; destruct st4 as [[? ?] ?]; destruct H4 as (_ & ? & _); cbn [fst snd] in *; lia].
        eapply sstate_mono; [|exact H4]. unfold O; lia.
    + assert (dlive src d O) as HdO by (destruct Hd as [Hd|Hd]; [by left|right; unfold O; lia]).
      destruct (reload_live src d O Hsrc HdO ltac:(unfold O; lia)) as (st & d2 & -> & Hd2 & _). cbn [bind]. wp_step. split; [done|]. split; [lia|]. done.
  - pose proof H1 as (Hl1 & Hp1 & Hd1 & Hb1 & Hs1). wp_step.
    apply (wp_while (fun st => sstate dst p pEnd (O + 12 * (st.1.2 - p1)) st /\ p1 <= st.1.2) (fun st => pEnd - st.1.2)).
    + cbn [fst snd]. split; [|lia]. eapply sstate_mono; [|exact H1]. lia.
    + cbn [fst snd]. lia.
    + intros [[dst2 p2] d2] [H2 Hge] Hc. bools. cbn [fst snd] in *. split; [lia|]. pose proof H2 as (_ & Hp2 & _).
      eapply wp_mono; [apply (decode_safe dst p pEnd (O + 12 * (p2 - p1)) (dst2, p2, d2) ltac:(lia) Hend ltac:(unfold O; lia) H2); cbn [fst snd]; lia| |done].
      intros st' [H' E']. cbn [fst snd] in *. rewrite E'. split; [split; [|lia]|lia]. eapply sstate_mono; [|exact H']. lia.
    + intros [[dst2 p2] d2] [(Hl2 & Hp2 & Hd2 & Hb2 & Hs2) Hge] Hc. wp_step. done.
Qed.

End safe.

Lemma decompress1X1_safe dst cSrc DTable :
  dtable_safe (hdt_mem DTable) (dtd_tableLog (hdt_desc DTable)) -> bytes_ok cSrc -> zlen cSrc < 2 ^ 32 -> zlen dst < 2 ^ 27 ->
  wp (HUF_decompress1X1_usingDTable_internal_body dst cSrc DTable)
    (fun '(dst', n) => n = zlen dst /\ zlen dst' = zlen dst /\ (bytes_ok dst -> bytes_ok dst')) any_error.
Proof.
  intros Hs Hb Hl Hd. unfold HUF_decompress1X1_usingDTable_internal_body, HUF_getDTableDesc. cbv zeta. wp_step.
  apply initDStream_wp; [done|done|]. intros d _ Hr. wp_step. pose proof (zlen_nonneg dst).
  eapply wp_mono; [apply (decodeStream_safe cSrc _ _ Hs Hb dst 0 d (0 + zlen dst) 0); [lia|lia|done|lia|by left; eexists]| |done].
  intros [[dst' d'] n] (_ & Hl' & Hb' & _). wp_step; [done|]. wp_step. split; [lia|]. done.
Qed.

(** *** The symbols of a stream *)

Lemma skip_drep src d r nb :
  drep src d r -> 0 <= nb < 64 -> nb <= davail d -> drep src (BIT_skipBits d nb) (r - nb) /\ davail (BIT_skipBits d nb) = davail d - nb.
Proof.
  intros Hd Hnb Hav. destruct (readBits_refines src d r nb Hd Hnb Hav) as (d' & E & Hd' & Ha & _).
  unfold BIT_readBits in E. destruct (BIT_lookBits d nb); simplify_eq/=. done.
Qed.

(** The index looked up starts with the bits on top, whatever pads them. *)
Lemma lookBitsFast_prefix src d r nb L S v :
  drep src d r -> 1 <= nb <= L -> L <= 12 -> nb <= davail d ->
  le_val src mod 2 ^ r = S + 2 ^ (r - nb) * v -> 0 <= S < 2 ^ (r - nb) -> 0 <= v ->
  v * 2 ^ (L - nb) <= BIT_lookBitsFast d L < (v + 1) * 2 ^ (L - nb).
Proof.
  intros (p & Hp & _ & _ & Hp0 & _ & Hc & Hk & Hr & Hr8) Hnb HL Hav HM HS Hv. unfold davail in Hav.
  set (k := d_bitsConsumed d) in *. unfold BIT_lookBitsFast, containerSize. change (8 * 8 - 1) with 63.
  rewrite (u32_small (63 + 1 - L)), !land_63 by lia. fold k. rewrite Z.shiftl_mul_pow2, Z.shiftr_div_pow2 by lia.
  assert (u64 (d_bitContainer d * 2 ^ k) = (le_val src mod 2 ^ r) / 2 ^ (8 * p) * 2 ^ k) as ->.
  { unfold u64. replace (2 ^ 64) with (2 ^ (64 - k) * 2 ^ k) by (rewrite <- pow2_add by lia; f_equal; lia).
    rewrite Z.mul_mod_distr_r by (apply Z.pow_nonzero; lia). f_equal. rewrite Hc.
    apply Z.bits_inj'. intros i Hi. rewrite Z.div_pow2_bits by lia. destruct (Z.ltb_spec i (64 - k)).
    - rewrite !Z.mod_pow2_bits_low by lia. by rewrite Z.div_pow2_bits by lia.
    - by rewrite !Z.mod_pow2_bits_high by lia. }
  rewrite HM. set (Q := (S + 2 ^ (r - nb) * v) / 2 ^ (8 * p)).
  assert (v * 2 ^ (r - nb - 8 * p) <= Q /\ Q + 1 <= (v + 1) * 2 ^ (r - nb - 8 * p)) as [HQ1 HQ2].
  { assert (2 ^ (r - nb) = 2 ^ (8 * p) * 2 ^ (r - nb - 8 * p)) as E by (rewrite <- pow2_add by lia; f_equal; lia).
    pose proof (pow2_pos (8 * p) ltac:(lia)) as Hpos. unfold Q. split.
    - apply Z.div_le_lower_bound; [lia|]. rewrite E. lia.
    - assert ((S + 2 ^ (r - nb) * v) / 2 ^ (8 * p) < (v + 1) * 2 ^ (r - nb - 8 * p)); [|lia].
      apply Z.div_lt_upper_bound; [lia|]. rewrite E in *. lia. }
  assert (2 ^ (64 - nb) = 2 ^ (r - nb - 8 * p) * 2 ^ k) as E1 by (rewrite <- pow2_add by lia; f_equal; lia).
  assert (2 ^ (64 - nb) = 2 ^ (L - nb) * 2 ^ (63 + 1 - L)) as E2 by (rewrite <- pow2_add by lia; f_equal; lia).
  pose proof (pow2_pos k ltac:(lia)). pose proof (pow2_pos (63 + 1 - L) ltac:(lia)). rewrite E1 in E2. split.
  - apply Z.div_le_lower_bound; [lia|]. nia.
  - apply Z.div_lt_upper_bound; [lia|]. nia.
Qed.

Section correct.
Context (ws : list Z) (L : Z) (DTable : HUF_DTable) (src : list Z).
Hypothesis Hc : kraft L ws.
Hypothesis Hn : zlen ws <= 256.
Hypothesis Hdt : dtableX1 ws L DTable.
Hypothesis Hsrc : bytes_ok src.

Notation fld := (sym_field ws L).
Notation dt := (hdt_mem DTable).

Lemma coded_cons x xs : coded ws (x :: xs) -> (0 <= x < zlen ws /\ 1 <= zat ws x) /\ coded ws xs.
Proof. intros H. by apply Forall_cons in H. Qed.

Lemma coded_field x : 0 <= x < zlen ws -> 1 <= zat ws x -> 1 <= (fld x).2 <= L /\ 0 <= (fld x).1 < 2 ^ (fld x).2.
Proof.
  intros Hx Hw. pose proof (cn_range ws L Hc x Hx). destruct (code_val_spec ws L Hc x Hx Hw) as (_ & ? & _). cbn [sym_field fst snd]. lia.
Qed.

Lemma coded_widths xs : coded ws xs -> widths_nonneg (sym_fields fld xs).
Proof.
  intros H. unfold widths_nonneg, sym_fields. apply Forall_reverse, Forall_map. eapply Forall_impl; [exact H|].
  intros x [Hx Hw]. cbn beta. pose proof (coded_field x Hx Hw). lia.
Qed.

(** Enough bits are in the window for [m] symbols, or for all that are left. *)
Definition ready (m : Z) (d : BIT_DStream_t) (xs : list Z) : Prop :=
  12 * m <= davail d \/ stack_bits (sym_fields fld xs) <= davail d.

Lemma decodeSymbol_ok d x xs m :
  coded ws (x :: xs) -> decodes_to fld src d (x :: xs) -> ready (m + 1) d (x :: xs) -> 0 <= m ->
  exists d', HUF_decodeSymbolX1 d dt L = Ok (x, d') /\ decodes_to fld src d' xs /\ ready m d' xs.
Proof.
  intros Hco [Hd HM] Hre Hm. apply coded_cons in Hco as [[Hx Hw] Hco]. destruct (coded_field x Hx Hw) as [Hnb Hv].
  pose proof (coded_widths xs Hco) as Hwd. pose proof (stack_bits_nonneg _ Hwd) as Hb0. pose proof (stack_val_range _ Hwd) as HS.
  pose proof (cn_L _ _ Hc) as HL. pose proof (cn_range ws L Hc x Hx) as Hr.
  unfold ready in *. unfold sym_fields in *. rewrite map_cons, reverse_cons in *.
  destruct (fld x) as [v nb] eqn:Ef. cbn [fst snd] in *.
  rewrite stack_bits_snoc, stack_val_snoc, (Z.mod_small v) in * by (done || lia).
  set (B := stack_bits (reverse (map fld xs))) in *. set (V := stack_val (reverse (map fld xs))) in *.
  assert (nb <= davail d) as Hav by lia.
  pose proof (lookBitsFast_prefix src d (B + nb) nb L V v Hd ltac:(lia) ltac:(lia) Hav) as Hi.
  replace (B + nb - nb) with B in Hi by lia. specialize (Hi ltac:(lia) HS ltac:(lia)).
  set (i := BIT_lookBitsFast d L) in *.
  assert (at_entry ws x i) as Hat.
  { split; [done|]. split; [done|]. destruct (code_val_spec ws L Hc x Hx Hw) as (Ecv & _). unfold sym_field in Ef. injection Ef as Ev Enb.
    rewrite weight_val_pos in * by lia. replace (zat ws x - 1) with (L - nb) in * by lia. rewrite Ev in Ecv. lia. }
  destruct (decodeSymbol_entry d dt L) as (i' & _ & -> & E); [exact (dtableX1_safe ws L DTable Hc Hn Hdt)|]. fold i in E.
  destruct Hdt as (_ & _ & He). rewrite (He x i Hat) in E. cbn [fst snd] in E.
  assert (L + 1 - zat ws x = nb) as Enb by (unfold sym_field in Ef; by injection Ef). rewrite Enb in E.
  destruct (skip_drep src d (B + nb) nb Hd ltac:(lia) Hav) as [Hd' Ha']. replace (B + nb - nb) with B in Hd' by lia.
  exists (BIT_skipBits d nb). split; [done|]. split.
  - unfold decodes_to, sym_fields. fold B V. split; [done|]. pose proof (pow2_pos B Hb0).
    apply (f_equal (fun z => z mod 2 ^ B)) in HM. rewrite pow2_add in HM by lia.
    rewrite Z.rem_mul_r, (Z.mul_comm (2 ^ B) (_ mod _)), Z.mod_add, Z.mod_mod in HM by (try apply Z.pow_nonzero; lia).
    rewrite HM, Z.mul_comm, Z.mod_add by lia. by apply Z.mod_small.
  - fold B. rewrite Ha'. lia.
Qed.

(** The first [k] symbols of [all] are written from [lo] on. *)
Definition written (dst0 : list Z) (lo : Z) (all : list Z) (k : Z) (dst : list Z) : Prop :=
  zlen dst = zlen dst0 /\ (forall i, 0 <= i < k -> zat dst (lo + i) = zat all i) /\
  (forall i, 0 <= i -> ~ (lo <= i < lo + zlen all) -> zat dst i = zat dst0 i).

Definition rstate (dst0 : list Z) (lo : Z) (all : list Z) (k m : Z) (st : list Z * Z * BIT_DStream_t) : Prop :=
  let '(dst, p, d) := st in
  p = lo + k /\ 0 <= k <= zlen all /\ written dst0 lo all k dst /\
  decodes_to fld src d (drop (Z.to_nat k) all) /\ ready m d (drop (Z.to_nat k) all).

Lemma written_S dst0 lo all k dst :
  0 <= lo -> lo + zlen all <= zlen dst0 -> 0 <= k < zlen all -> written dst0 lo all k dst ->
  written dst0 lo all (k + 1) (zupd dst (lo + k) (zat all k)).
Proof.
  intros Hlo Hhi Hk (Hl & Hd & Hs). split; [by rewrite zlen_zupd|]. split.
  - intros i Hi. rewrite zat_zupd by lia. destruct (Z.eqb_spec (lo + i) (lo + k)) as [E|]; [by replace i with k by lia|]. apply Hd. lia.
  - intros i Hi Hout. rewrite zat_zupd_ne by lia. by apply Hs.
Qed.

Lemma decode_ok dst0 lo all k m st :
  coded ws all -> 0 <= lo -> lo + zlen all <= zlen dst0 -> k < zlen all -> 0 <= m ->
  rstate dst0 lo all k (m + 1) st -> wp (HUF_DECODE_SYMBOLX1_0 dt L st) (rstate dst0 lo all (k + 1) m) no_errors.
Proof.
  destruct st as [[dst p] d]. intros Hco Hlo Hhi Hlt Hm (-> & Hk & Hw & Hd & Hre). rewrite (drop_zS all k) in Hd, Hre by lia.
  destruct (decodeSymbol_ok d (zat all k) (drop (Z.to_nat (k + 1)) all) m) as (d' & E & Hd' & Hre'); [|done..|].
  { unfold coded. rewrite <- (drop_zS all k) by lia. by apply Forall_drop. }
  unfold HUF_DECODE_SYMBOLX1_0. rewrite E. cbn [bind]. wp_step. wp_step; [destruct Hw; lia|]. wp_step.
  split; [lia|]. split; [lia|]. split; [apply written_S; first [done | lia]|done].
Qed.

(** After a reload the window is full, or holds all that is left. *)
Lemma reload_ready d xs :
  coded ws xs -> decodes_to fld src d xs ->
  exists st d', BIT_reloadDStream src d = Ok (st, d') /\ decodes_to fld src d' xs /\
    (st = BIT_DStream_unfinished -> 57 <= davail d') /\ (st <> BIT_DStream_unfinished -> stack_bits (sym_fields fld xs) <= davail d').
Proof.
  intros Hco [Hd HM]. destruct (reload_refines src d _ Hsrc Hd) as (st & d' & E & Hd' & Hwin & _ & Hov & _ & Hun).
  exists st, d'. split; [done|]. split; [done|]. split; [intros H; specialize (Hun H); unfold davail; lia|].
  intros Hne. assert (d_ptr d' = PtrSrc 0) as Hp0.
  { destruct Hd as (p & Hp & Hst & Hli & Hp0 & Hp8 & _). revert E. unfold BIT_reloadDStream, BIT_reloadDStream_internal. rewrite Hp, Hst.
    destruct (d_bitsConsumed d >? containerSize * 8); [by intros [= <- _]|].
    destruct (p >=? d_limitPtr d); [destruct (readLEST src _); [|done..]; by intros [= <- _]|].
    destruct (Z.eqb_spec p 0) as [->|].
    - destruct (_ <? _); by intros [= _ <-].
    - destruct (Z.ltb_spec (p - Z.shiftr (d_bitsConsumed d) 3) 0); [|destruct (readLEST src _); [|done..]; by intros [= <- _]].
      destruct (readLEST src _); [|done..]. intros [= _ <-]. cbs. f_equal. lia. }
  destruct Hd' as (p & Hp & _ & _ & _ & _ & _ & _ & Hr & _). rewrite Hp0 in Hp. injection Hp as <-. unfold davail. lia.
Qed.

Lemma ready_all m d xs : 57 <= davail d -> m <= 4 -> ready m d xs.
Proof. intros. left. lia. Qed.

Lemma decodeStream_ok dst p d pEnd xs :
  coded ws xs -> 0 <= p -> pEnd = p + zlen xs -> pEnd <= zlen dst -> decodes_to fld src d xs ->
  exists dst' d', HUF_decodeStreamX1 src dst p d pEnd dt L = Ok (dst', d', zlen xs) /\
    written dst p xs (zlen xs) dst' /\ drep src d' 0.
Proof.
  intros Hco Hp -> Hend Hd. pose proof (zlen_nonneg xs) as Hx. set (N := zlen xs) in *.
  assert (wp (HUF_decodeStreamX1 src dst p d (p + N) dt L) (fun '(dst', d', n) => n = N /\ written dst p xs N dst' /\ drep src d' 0) no_errors) as Hw.
  2: { apply wp_no_errors_Ok in Hw as ([[dst' d'] n] & -> & -> & ?). eauto. }
  assert (rstate dst p xs 0 0 (dst, p, d)) as H0.
  { split; [lia|]. split; [lia|]. split; [split; [done|]; split; [intros; lia|done]|]. split; [done|].
    left. pose proof (drep_consumed _ _ _ (proj1 Hd)). unfold davail. lia. }
  unfold HUF_decodeStreamX1. cbv zeta. wp_step.
  apply (wp_mono _ (fun st => exists k, rstate dst p xs k (N - k) st) _ no_errors); [|intros [[dst1 p1] d1] (k1 & H1)|done].
  - rewrite Z.gtb_ltb. destruct (Z.ltb_spec 3 (p + N - p)) as [H3|H3].
    + apply (wp_loop (fun st => exists k, rstate dst p xs k 0 st) (fun st => p + N - st.1.2)); [by exists 0|cbn [fst snd]; lia|].
      intros [[dst1 p1] d1] (k & -> & Hk & Hwr & Hd1 & _). fold N in Hk.
      destruct (reload_ready d1 _ (Forall_drop _ (Z.to_nat k) _ Hco) Hd1) as (st & d2 & -> & Hd2 & Hun & Hno). cbn [bind].
      destruct (bool_decide_reflect (st = BIT_DStream_unfinished)) as [->|Hne]; cbn [andb].
      2: { wp_step. exists k. split; [done|]. split; [done|]. split; [done|]. split; [done|]. right. by apply Hno. }
      specialize (Hun eq_refl). destruct (Z.ltb_spec (p + k) (p + N - 3)) as [Hroom|Hroom].
      2: { wp_step. exists k. split; [done|]. split; [done|]. split; [done|]. split; [done|]. apply ready_all; [done|lia]. }
      assert (rstate dst p xs k (3 + 1) (dst1, p + k, d2)) as H4 by (split; [done|]; split; [done|]; split; [done|]; split; [done|]; apply ready_all; [done|lia]).
      wp_step. eapply wp_mono; [apply (decode_ok dst p xs k 3 _ Hco Hp ltac:(fold N; lia) ltac:(fold N; lia) ltac:(lia) H4)| |done]. intros s1 H5.
      wp_step. eapply wp_mono; [apply (decode_ok dst p xs (k + 1) 2 _ Hco Hp ltac:(fold N; lia) ltac:(fold N; lia) ltac:(lia) H5)| |done]. intros s2 H6.
      wp_step. eapply wp_mono; [apply (decode_ok dst p xs (k + 1 + 1) 1 _ Hco Hp ltac:(fold N; lia) ltac:(fold N; lia) ltac:(lia) H6)| |done]. intros s3 H7.
      wp_step. eapply wp_mono; [apply (decode_ok dst p xs (k + 1 + 1 + 1) 0 _ Hco Hp ltac:(fold N; lia) ltac:(fold N; lia) ltac:(lia) H7)| |done]. intros s4 H8.
      wp_step. split; [by eexists|]. destruct s4 as [[dst4 p4] d4]. destruct H8 as (-> & ? & _). cbn [fst snd]. unfold N in *; lia.
    + destruct (reload_ready d xs Hco Hd) as (st & d2 & -> & Hd2 & Hun & Hno). cbn [bind]. wp_step. exists 0.
      destruct H0 as (_ & Hk & Hwr & _ & _). split; [lia|]. split; [done|]. split; [done|]. split; [done|].
      destruct (decide (st = BIT_DStream_unfinished)) as [E|E]; [apply ready_all; [by apply Hun|lia]|right; by apply Hno].
  - pose proof H1 as (-> & Hk1 & _). fold N in Hk1. wp_step.
    apply (wp_while (fun st => exists k, rstate dst p xs k (N - k) st) (fun st => p + N - st.1.2)); [by exists k1|cbn [fst snd]; lia| |].
    + intros [[dst2 p2] d2] (k & H2) Hlt. bools. cbn [fst snd] in *. pose proof H2 as (-> & Hk & _). fold N in Hk. split; [lia|].
      replace (N - k) with (N - (k + 1) + 1) in H2 by lia.
      eapply wp_mono; [apply (decode_ok dst p xs k (N - (k + 1)) _ Hco Hp ltac:(fold N; lia) ltac:(fold N; lia) ltac:(lia) H2)| |done].
      intros [[dst3 p3] d3] H3. split; [by eexists|]. destruct H3 as (-> & ? & _). cbn [fst snd]. lia.
    + intros [[dst2 p2] d2] (k & -> & Hk & Hwr & Hd2 & _) Hlt. bools. fold N in Hk. assert (k = N) as -> by lia. wp_step. split; [lia|]. split; [done|].
      destruct Hd2 as [Hd2 _]. unfold N, zlen in Hd2. by rewrite Nat2Z.id, drop_all in Hd2.
Qed.

(** A stream written by the encoder is ready to be decoded. *)
Lemma initDStream_stream xs :
  coded ws xs -> stream_bytes ws L xs src -> 0 < zlen src < 2 ^ 32 ->
  exists d, BIT_initDStream src = Ok d /\ decodes_to fld src d xs /\ (56 <= davail d \/ stream_bits ws L xs <= davail d).
Proof.
  intros Hco [Hsz Hval] Hl. pose proof (coded_widths xs Hco) as Hwd. pose proof (stack_bits_nonneg _ Hwd) as Hb0. pose proof (stack_val_range _ Hwd) as HS.
  change (stack_bits (sym_fields fld xs)) with (stream_bits ws L xs) in *. change (stack_val (sym_fields fld xs)) with (stream_val ws L xs) in *.
  set (B := stream_bits ws L xs) in *. set (V := stream_val ws L xs) in *.
  assert (Z.log2 (le_val src) = B) as Hlog by (apply Z.log2_unique; [lia|]; rewrite Hval, Z.pow_succ_r by lia; lia).
  assert (zat src (zlen src - 1) <> 0) as Hz.
  { intros Hz. pose proof (zsub_cut src (zlen src - 1) ltac:(lia)) as E. replace (zlen src - (zlen src - 1)) with 1 in E by lia.
    rewrite (zsub_cons src (zlen src - 1)), zsub_0, Hz in E by lia. apply (f_equal le_val) in E. rewrite le_val_app in E.
    change (le_val [0]) with 0 in E. pose proof (le_val_range _ (bytes_ok_zsub src 0 (zlen src - 1) Hsrc)) as Hlv.
    rewrite zlen_zsub in Hlv by lia. pose proof (pow2_le (8 * (zlen src - 1)) B ltac:(lia)). lia. }
  destruct (initDStream_refines src Hsrc Hl Hz) as (d & E & Hd). rewrite Hlog in Hd. exists d. split; [done|]. split.
  - split; [done|]. change (stack_bits (sym_fields fld xs)) with B. change (stack_val (sym_fields fld xs)) with V.
    rewrite Hval. rewrite <- (Z.mul_1_l (2 ^ B)) at 1. rewrite Z.mod_add by (apply Z.pow_nonzero; lia). by apply Z.mod_small.
  - destruct Hd as (p & Hp & _ & _ & Hp0 & [->|Hp8] & _ & Hcon & Hr & _); unfold davail; [right; lia|left].
    assert (p = zlen src - 8) as ->; [|lia]. revert E. unfold BIT_initDStream, RETURN_ERROR_IF, containerSize.
    destruct (_ <? 1); [done|]. destruct (Z.geb_spec (zlen src) 8).
    + destruct (readLEST src _); [|done..]. cbn [bind]. destruct (rd src _); [|done..]. cbn [bind]. destruct (_ =? 0); [done|].
      intros [= <-]. cbs. by injection Hp.
    + lia.
Qed.

End correct.
