(* ===== verification/HufFour.v ===== *)
(** Four Huffman streams (compress/huf_compress.c, decompress/huf_decompress.c):
    the interleaved decoder, and the round trips of the coder. *)

From S2P Require Import Prelude Errors Outcome Bits Mem BitStream FseTable FseSpread FseSymbols FseBuild FseSafe HufStats Hist FseNormalize HufWeights HufTree HufCode HufEncode HufDTable HufDecode.

(** ** Definitions *)

#[global] Instance BIT_DStream_inhabited : Inhabited BIT_DStream_t := populate (mkDStream 0 0 (PtrSrc 0) 0 0).

(** [op1] to [op4] and [bitD1] to [bitD4], with the destination they share. *)
Record HUF_lanes := mkLanes {
  ln_dst : list Z;
  ln_op : list Z;
  ln_bitD : list BIT_DStream_t;
}.

(** One symbol of stream [j]. *)
Definition X1_lane (dt : list Z) (dtLog j : Z) (s : HUF_lanes) : result HUF_lanes :=
  let* op := rd (ln_op s) j in
  let* D := rd (ln_bitD s) j in
  let* '(dst, op, D) := HUF_DECODE_SYMBOLX1_2 dt dtLog (ln_dst s, op, D) in
  let* ops := wr (ln_op s) j op in
  let* Ds := wr (ln_bitD s) j D in
  Ok (mkLanes dst ops Ds).

(** One symbol of each stream. *)
Definition X1_round (dt : list Z) (dtLog : Z) (s : HUF_lanes) : result HUF_lanes :=
  for_range 0 4 (X1_lane dt dtLog) s.

(** [endSignal &= BIT_reloadDStreamFast(&bitDj) == BIT_DStream_unfinished], for
    the four streams; [srcs] are their bytes. *)
Definition X1_reloads (srcs : list (list Z)) (s : HUF_lanes) (endSignal : bool) : result (HUF_lanes * bool) :=
  for_range 0 4 (fun j '(s, endSignal) =>
    let* src := rd srcs j in
    let* D := rd (ln_bitD s) j in
    let* '(st, D) := BIT_reloadDStreamFast src D in
    let* Ds := wr (ln_bitD s) j D in
    Ok (mkLanes (ln_dst s) (ln_op s) Ds, endSignal && bool_decide (st = BIT_DStream_unfinished))) (s, endSignal).

(** Up to 16 symbols per loop. *)
Definition X1_loop (srcs : list (list Z)) (dt : list Z) (dtLog oend : Z) (s : HUF_lanes) : result HUF_lanes :=
  let olimit := oend - 3 in
  let* op4 := rd (ln_op s) 3 in
  if oend - op4 >=? 8 then
    let* '(s, _) :=
      while_ (Z.to_nat oend) (fun '(s, endSignal) => endSignal && (zat (ln_op s) 3 <? olimit)) (fun '(s, endSignal) =>
        let* s := X1_round dt dtLog s in
        let* s := X1_round dt dtLog s in
        let* s := X1_round dt dtLog s in
        let* s := X1_round dt dtLog s in
        X1_reloads srcs s endSignal) (s, true) in
    Ok s
  else Ok s.

(** The streams one by one; [ends] is where each of them stops. *)
Definition X1_finish (srcs : list (list Z)) (dt : list Z) (dtLog : Z) (ends : list Z) (s : HUF_lanes) : result HUF_lanes :=
  for_range 0 4 (fun j s =>
    let* src := rd srcs j in
    let* op := rd (ln_op s) j in
    let* D := rd (ln_bitD s) j in
    let* e := rd ends j in
    let* '(dst, D, _) := HUF_decodeStreamX1 src (ln_dst s) op D e dt dtLog in
    let* Ds := wr (ln_bitD s) j D in
    Ok (mkLanes dst (ln_op s) Ds)) s.

(** The destination and its size. *)
Definition HUF_decompress4X1_usingDTable_internal_body (dst cSrc : list Z) (DTable : HUF_DTable) : result (list Z * Z) :=
  let cSrcSize := zlen cSrc in
  let dstSize := zlen dst in
  (* Check *)
  ERROR_IF cSrcSize <? 10 THEN corruption_detected ;;
  ERROR_IF dstSize <? 6 THEN corruption_detected ;;
  let oend := dstSize in
  let dt := hdt_mem DTable in
  (* Init *)
  let* length1 := readLE16 cSrc 0 in
  let* length2 := readLE16 cSrc 2 in
  let* length3 := readLE16 cSrc 4 in
  let length4 := u64 (cSrcSize - (length1 + length2 + length3 + 6)) in
  let istart1 := 6 in
  let istart2 := istart1 + length1 in
  let istart3 := istart2 + length2 in
  let istart4 := istart3 + length3 in
  let segmentSize := (dstSize + 3) / 4 in
  let opStart2 := segmentSize in
  let opStart3 := opStart2 + segmentSize in
  let opStart4 := opStart3 + segmentSize in
  let dtLog := dtd_tableLog (HUF_getDTableDesc DTable) in
  ERROR_IF length4 >? cSrcSize THEN corruption_detected ;;
  ERROR_IF opStart4 >? oend THEN corruption_detected ;;
  let src1 := zsub cSrc istart1 length1 in
  let src2 := zsub cSrc istart2 length2 in
  let src3 := zsub cSrc istart3 length3 in
  let src4 := zsub cSrc istart4 length4 in
  let* bitD1 := BIT_initDStream src1 in
  let* bitD2 := BIT_initDStream src2 in
  let* bitD3 := BIT_initDStream src3 in
  let* bitD4 := BIT_initDStream src4 in
  let srcs := [src1; src2; src3; src4] in
  let* s := X1_loop srcs dt dtLog oend (mkLanes dst [0; opStart2; opStart3; opStart4] [bitD1; bitD2; bitD3; bitD4]) in
  (* check corruption *)
  ERROR_IF zat (ln_op s) 0 >? opStart2 THEN corruption_detected ;;
  ERROR_IF zat (ln_op s) 1 >? opStart3 THEN corruption_detected ;;
  ERROR_IF zat (ln_op s) 2 >? opStart4 THEN corruption_detected ;;
  (* finish bitStreams one by one *)
  let* s := X1_finish srcs dt dtLog [opStart2; opStart3; opStart4; oend] s in
  (* check *)
  let endCheck := forallb BIT_endOfDStream (ln_bitD s) in
  ERROR_IF negb endCheck THEN corruption_detected ;;
  Ok (ln_dst s, dstSize).

(** *** Tables and streams together *)

(** A build with HUF_FORCE_DECOMPRESS_X1; no BMI2 nor fast loops in the flags. *)
Definition HUF_decompress1X_usingDTable (dst cSrc : list Z) (DTable : HUF_DTable) : result (list Z * Z) :=
  HUF_decompress1X1_usingDTable_internal_body dst cSrc DTable.
Definition HUF_decompress4X_usingDTable (dst cSrc : list Z) (DTable : HUF_DTable) : result (list Z * Z) :=
  HUF_decompress4X1_usingDTable_internal_body dst cSrc DTable.

Section context.
Context (MEM_isLittleEndian : bool).

(** The table, the destination and its size. *)
Definition HUF_decompress1X1_DCtx_wksp (dctx : HUF_DTable) (dst cSrc : list Z) (workSpace : HUF_ReadDTableX1_Workspace)
  : result (HUF_DTable * list Z * Z) :=
  let* '(dctx, hSize) := HUF_readDTableX1_wksp MEM_isLittleEndian dctx cSrc workSpace in
  ERROR_IF hSize >=? zlen cSrc THEN srcSize_wrong ;;
  let ip := zsub cSrc hSize (zlen cSrc - hSize) in
  let* '(dst, n) := HUF_decompress1X_usingDTable dst ip dctx in
  Ok (dctx, dst, n).

Definition HUF_decompress4X1_DCtx_wksp (dctx : HUF_DTable) (dst cSrc : list Z) (workSpace : HUF_ReadDTableX1_Workspace)
  : result (HUF_DTable * list Z * Z) :=
  let* '(dctx, hSize) := HUF_readDTableX1_wksp MEM_isLittleEndian dctx cSrc workSpace in
  ERROR_IF hSize >=? zlen cSrc THEN srcSize_wrong ;;
  let ip := zsub cSrc hSize (zlen cSrc - hSize) in
  let* '(dst, n) := HUF_decompress4X_usingDTable dst ip dctx in
  Ok (dctx, dst, n).

(** Not compressed, one byte repeated, or one stream. *)
Definition HUF_decompress1X_DCtx_wksp (dctx : HUF_DTable) (dst cSrc : list Z) (workSpace : HUF_ReadDTableX1_Workspace)
  : result (HUF_DTable * list Z * Z) :=
  (* validation checks *)
  ERROR_IF zlen dst =? 0 THEN dstSize_tooSmall ;;
  ERROR_IF zlen cSrc >? zlen dst THEN corruption_detected ;;
  if zlen cSrc =? zlen dst then
    let* dst := memcpy_at dst 0 cSrc in
    Ok (dctx, dst, zlen dst)
  else if zlen cSrc =? 1 then
    let* b := rd cSrc 0 in
    let* dst := memcpy_at dst 0 (zfill (zlen dst) b) in
    Ok (dctx, dst, zlen dst)
  else HUF_decompress1X1_DCtx_wksp dctx dst cSrc workSpace.

Definition HUF_decompress4X_hufOnly_wksp (dctx : HUF_DTable) (dst cSrc : list Z) (workSpace : HUF_ReadDTableX1_Workspace)
  : result (HUF_DTable * list Z * Z) :=
  (* validation checks *)
  ERROR_IF zlen dst =? 0 THEN dstSize_tooSmall ;;
  ERROR_IF zlen cSrc =? 0 THEN corruption_detected ;;
  HUF_decompress4X1_DCtx_wksp dctx dst cSrc workSpace.

End context.

(** ** Lemmas *)

(** The four streams share the destination: stream [j] goes from [j * seg]. *)
Section lanes.
Context (N : Z).
Hypothesis HN : 6 <= N < 2 ^ 27.
Definition seg : Z := (N + 3) / 4.
Definition lane_end (j : Z) : Z := if j =? 3 then N else (j + 1) * seg.

Lemma seg_facts : 2 <= seg /\ 3 * seg <= N /\ N <= 4 * seg.
Proof. unfold seg. zdm. Qed.

Lemma four_cases j : 0 <= j < 4 -> j = 0 \/ j = 1 \/ j = 2 \/ j = 3.
Proof. lia. Qed.

(** What holds of each of four values. *)
Lemma four_forall {A} `{!Inhabited A} (Q : Z -> A -> Prop) a b c d :
  Q 0 a -> Q 1 b -> Q 2 c -> Q 3 d -> forall j, 0 <= j < 4 -> Q j (zat [a; b; c; d] j).
Proof. intros H0 H1 H2 H3 j Hj. by destruct (four_cases j Hj) as [->|[->|[->| ->]]]. Qed.

Lemma lane_end_range j : 0 <= j < 4 -> j * seg <= lane_end j <= N.
Proof.
  intros Hj. pose proof seg_facts. unfold lane_end. destruct (four_cases j Hj) as [->|[->|[->| ->]]]; cbn [Z.eqb Pos.eqb]; lia.
Qed.

Lemma lane_disjoint i j : 0 <= i < 4 -> 0 <= j < 4 -> i <> j -> lane_end i <= j * seg \/ lane_end j <= i * seg.
Proof.
  intros Hi Hj Hne. pose proof seg_facts. unfold lane_end.
  destruct (four_cases i Hi) as [->|[->|[->| ->]]], (four_cases j Hj) as [->|[->|[->| ->]]]; cbn [Z.eqb Pos.eqb]; lia.
Qed.

(** A lane ends at the next one, and the last one is not longer than the others. *)
Lemma lane_size j : 0 <= j < 4 -> N - 3 * seg <= lane_end j - j * seg <= seg.
Proof.
  intros Hj. pose proof seg_facts. unfold lane_end. destruct (four_cases j Hj) as [->|[->|[->| ->]]]; cbn [Z.eqb Pos.eqb]; lia.
Qed.

End lanes.

(** Reloading inside the source. *)
Lemma reloadFast_drep src d r :
  bytes_ok src -> drep src d r ->
  exists st d', BIT_reloadDStreamFast src d = Ok (st, d') /\ drep src d' r /\
    (st = BIT_DStream_unfinished -> d_bitsConsumed d' <= 7) /\ (st <> BIT_DStream_unfinished -> d' = d).
Proof.
  intros Hb Hd. pose proof Hd as (p & Hp & Hst & Hli & Hp0 & Hp8 & Hc & Hcon & Hr & Hr8).
  unfold BIT_reloadDStreamFast. rewrite Hp, Hli. destruct (Z.ltb_spec p 8); [by do 2 eexists|].
  unfold BIT_reloadDStream_internal. rewrite (Z.shiftr_div_pow2 _ 3) by lia. change 7 with (2 ^ 3 - 1) at 1. rewrite land_mask by lia. change (2 ^ 3) with 8.
  rewrite readLEST_window by (first [done|zdm]). cbn [bind]. do 2 eexists. split; [done|]. split; [|split; [intros _; cbs; zdm|done]].
  exists (p - d_bitsConsumed d / 8). cbs. split_and!; try done; zdm.
Qed.

(** *** Safety *)

(** A stream in the main loop: it has used at most [c] bits of its window, or it
    is at the start of its source. *)
Definition fast_state (src : list Z) (d : BIT_DStream_t) (c : Z) : Prop :=
  (exists r, drep src d r) /\ d_bitsConsumed d <= c \/
  d_ptr d = PtrSrc 0 /\ d_limitPtr d = 8 /\ dlive src d c.

Lemma fast_state_live src d c : 0 <= c -> fast_state src d c -> dlive src d c.
Proof. intros Hc [[H _]|(_ & _ & H)]; [by left|done]. Qed.

Lemma fast_state_mono src d c c' : c <= c' -> fast_state src d c -> fast_state src d c'.
Proof.
  intros Hc [[H1 H2]|(H1 & H2 & H3)]; [left; split; [done|lia]|right; split; [done|]; split; [done|]].
  destruct H3 as [?|?]; [by left|right; lia].
Qed.

Lemma fast_state_skip src d c nb : 0 <= nb <= 12 -> 0 <= c <= 52 -> fast_state src d c -> fast_state src (BIT_skipBits d nb) (c + 12).
Proof.
  intros Hnb Hc [[[r Hd] Hcon]|(H1 & H2 & H3)].
  - left. pose proof (drep_consumed _ _ _ Hd). destruct (skip_drep src d r nb Hd) as [Hd' Ha]; [lia|unfold davail; lia|]. split; [by eexists|].
    unfold davail in Ha. lia.
  - right. split; [done|]. split; [done|]. apply skip_live; [done|lia|done].
Qed.

Lemma fast_state_reload src d c :
  bytes_ok src -> 0 <= c -> fast_state src d c ->
  exists st d', BIT_reloadDStreamFast src d = Ok (st, d') /\ fast_state src d' c /\ (st = BIT_DStream_unfinished -> fast_state src d' 8).
Proof.
  intros Hb Hc [[[r Hd] Hcon]|(H1 & H2 & H3)].
  - destruct (reloadFast_drep src d r Hb Hd) as (st & d' & E & Hd' & Hun & Hno). exists st, d'. split; [done|].
    assert (st = BIT_DStream_unfinished -> fast_state src d' 8) as H8 by (intros Hs; left; split; [by eexists|]; specialize (Hun Hs); lia).
    split; [|done]. destruct (decide (st = BIT_DStream_unfinished)) as [Es|Es].
    + specialize (Hun Es). destruct (Z.leb_spec 8 c); [eapply fast_state_mono; [|by apply H8]; lia|].
      left. split; [by eexists|]. pose proof (drep_consumed _ _ _ Hd). pose proof (drep_consumed _ _ _ Hd') as Hc'.
      destruct (Z.leb_spec (d_bitsConsumed d') c); [done|].
      destruct Hd as (p & Hp & _ & Hli & Hp0 & _ & _ & _ & Hr & _). destruct Hd' as (p' & Hp' & _ & _ & _ & _ & _ & _ & Hr' & _).
      revert E. unfold BIT_reloadDStreamFast, BIT_reloadDStream_internal. rewrite Hp, Hli. destruct (p <? 8); [by intros [= <- _]|].
      destruct (readLEST src _); [|done..]. cbn [bind]. intros [= _ <-]. cbs. injection Hp' as Hp'.
      rewrite land_7 in *. zdm.
    + rewrite (Hno Es). left. split; [by eexists|lia].
  - unfold BIT_reloadDStreamFast. rewrite H1, H2. cbn [Z.ltb Z.compare]. do 2 eexists. split; [done|]. split; [by right|done].
Qed.

Lemma init_fast src : bytes_ok src -> zlen src < 2 ^ 32 -> wp (BIT_initDStream src) (fun d => fast_state src d 8) any_error.
Proof.
  intros Hb Hl. destruct (initDStream_errors src Hb Hl) as [E0 E1]. pose proof (zlen_nonneg src).
  destruct (Z.eqb_spec (zlen src) 0) as [E|]; [by rewrite E0|].
  destruct (Z.eqb_spec (zat src (zlen src - 1)) 0) as [E|Hz]; [by rewrite E1 by lia|].
  destruct (initDStream_refines src Hb) as (d & -> & Hd); [lia|done|]. destruct (end_mark src Hb ltac:(lia) Hz) as [Hlog Hh]. cbn [wp].
  pose proof Hd as (p & Hp & _ & Hli & Hp0 & [->|Hp8] & _ & Hcon & Hr & _).
  - right. split; [done|]. split; [done|]. left. by eexists.
  - left. split; [by eexists|]. lia.
Qed.

(** *** The interleaved loop, lane by lane *)

Section interleave.
Context (N : Z) (srcs : list (list Z)) (dt : list Z) (L : Z).
Hypothesis HN : 6 <= N < 2 ^ 27.
Hypothesis Hsrcs : zlen srcs = 4.

Notation seg := (seg N).
Notation lane_end := (lane_end N).

(** What is known of a lane that has decoded [k] symbols and can decode [r] more
    without a reload. *)
Context (P : Z -> Z -> Z -> list Z -> BIT_DStream_t -> Prop).

(** The destination changes outside lane [j]. *)
Definition same_lane (j : Z) (dst dst' : list Z) : Prop :=
  zlen dst' = zlen dst /\ (bytes_ok dst -> bytes_ok dst') /\ forall i, j * seg <= i < lane_end j -> zat dst' i = zat dst i.

Hypothesis Hframe : forall r k j dst dst' d, 0 <= j < 4 -> P r k j dst d -> same_lane j dst dst' -> P r k j dst' d.
Hypothesis Hweak : forall k j dst d, P 4 k j dst d -> P 0 k j dst d.
Hypothesis Hdecode : forall r k j dst d, 0 <= j < 4 -> 0 <= r <= 3 -> 0 <= k -> j * seg + k < lane_end j -> P (r + 1) k j dst d ->
  wp (HUF_DECODE_SYMBOLX1_2 dt L (dst, j * seg + k, d))
    (fun '(dst', op', d') => op' = j * seg + (k + 1) /\ P r (k + 1) j dst' d' /\
       exists x, is_byte x /\ dst' = zupd dst (j * seg + k) x) no_errors.
Hypothesis Hreload : forall k j dst d, 0 <= j < 4 -> P 0 k j dst d ->
  exists st d', BIT_reloadDStreamFast (zat srcs j) d = Ok (st, d') /\ P 0 k j dst d' /\
    (st = BIT_DStream_unfinished -> P 4 k j dst d').

Definition lanes_len (s : HUF_lanes) : Prop := zlen (ln_op s) = 4 /\ zlen (ln_bitD s) = 4 /\ zlen (ln_dst s) = N.
Definition lane_is (r k j : Z) (s : HUF_lanes) : Prop := zat (ln_op s) j = j * seg + k /\ P r k j (ln_dst s) (zat (ln_bitD s) j).
Definition lanes_are (r k : Z) (s : HUF_lanes) : Prop := lanes_len s /\ forall j, 0 <= j < 4 -> lane_is r k j s.

Lemma same_lane_zupd i j dst q x : 0 <= i < 4 -> 0 <= j < 4 -> i <> j -> i * seg <= q < lane_end i -> is_byte x -> same_lane j dst (zupd dst q x).
Proof.
  intros Hi Hj Hne Hq Hx. pose proof (lane_disjoint N HN i j Hi Hj Hne) as Hd. pose proof (seg_facts N HN).
  split; [apply zlen_zupd|]. split; [intros; by apply Forall_zupd|]. intros m Hm. apply zat_zupd_ne; lia.
Qed.

Lemma round_ok r k s :
  0 <= r <= 3 -> 0 <= k -> 3 * seg + k < N -> lanes_are (r + 1) k s -> wp (X1_round dt L s) (lanes_are r (k + 1)) no_errors.
Proof.
  intros Hr Hk Hroom [Hl Hs]. pose proof (seg_facts N HN). unfold X1_round.
  apply (wp_for (fun i s => lanes_len s /\ (forall j, 0 <= j < i -> lane_is r (k + 1) j s) /\ (forall j, i <= j < 4 -> lane_is (r + 1) k j s))); [lia| | |].
  - split; [done|]. split; [intros; lia|done].
  - intros i s1 Hi ((Hl1 & Hl2 & Hl3) & Hdone & Hrest). destruct (Hrest i ltac:(lia)) as [Hop HP].
    pose proof (lane_size N HN i Hi) as Hsz. unfold X1_lane. wp_step. wp_step; [lia|]. wp_step. wp_step; [lia|]. rewrite Hop.
    wp_step. eapply wp_mono; [apply (Hdecode r k i); try done; lia| |done]. intros [[dst' op'] d'] (-> & HP' & x & Hx & ->).
    wp_step. wp_step; [lia|]. wp_step. wp_step; [lia|]. wp_step. unfold lanes_len, lane_is. cbn [ln_op ln_bitD ln_dst]. rewrite !zlen_zupd.
    split; [done|]. split.
    + intros j Hj. destruct (Z.eq_dec j i) as [->|Hne]; [by rewrite !zat_zupd_eq by lia|]. rewrite !zat_zupd_ne by lia.
      destruct (Hdone j ltac:(lia)) as [Ho Hp]. split; [done|]. eapply Hframe; [lia|exact Hp|]. apply (same_lane_zupd i); try done; lia.
    + intros j Hj. rewrite !zat_zupd_ne by lia. destruct (Hrest j ltac:(lia)) as [Ho Hp]. split; [done|].
      eapply Hframe; [lia|exact Hp|]. apply (same_lane_zupd i); try done; lia.
  - intros s1 (H1 & H2 & _). split; [done|]. intros j Hj. by apply H2.
Qed.

Lemma reloads_ok k s e :
  lanes_are 0 k s -> wp (X1_reloads srcs s e) (fun '(s', e') => lanes_are 0 k s' /\ (e' = true -> lanes_are 4 k s')) no_errors.
Proof.
  intros [Hl Hs]. unfold X1_reloads.
  apply (wp_for (fun i '(s', e') => lanes_len s' /\ (forall j, 0 <= j < 4 -> lane_is 0 k j s') /\ (e' = true -> forall j, 0 <= j < i -> lane_is 4 k j s'))); [lia| | |].
  - split; [done|]. split; [done|]. intros _ j Hj. lia.
  - intros i [s1 e1] Hi ((Hl1 & Hl2 & Hl3) & Hall & Hdone). destruct (Hall i Hi) as [Hop HP].
    wp_step. wp_step; [lia|]. wp_step. wp_step; [lia|]. destruct (Hreload k i _ _ Hi HP) as (st & d' & -> & HP0 & HP4). cbn [bind].
    wp_step. wp_step; [lia|]. wp_step. unfold lanes_len, lane_is. cbn [ln_op ln_bitD ln_dst]. rewrite !zlen_zupd. split; [done|]. split.
    + intros j Hj. destruct (Hall j Hj). rewrite zat_zupd by lia. destruct (Z.eqb_spec j i) as [->|]; done.
    + intros He j Hj. apply andb_true_iff in He as [-> He]. apply bool_decide_eq_true in He. rewrite zat_zupd by lia.
      destruct (Z.eqb_spec j i) as [->|]; [split; [done|by apply HP4]|]. apply (Hdone eq_refl j). lia.
  - intros [s' e'] (H1 & H2 & H3). split; [split; done|]. intros He. split; [done|]. by apply H3.
Qed.

Lemma loop_ok s : lanes_are 4 0 s -> wp (X1_loop srcs dt L N s) (fun s' => exists k, 0 <= k /\ 3 * seg + k <= N /\ lanes_are 0 k s') no_errors.
Proof.
  intros Hs. pose proof (seg_facts N HN). pose proof Hs as [(Hl1 & Hl2 & Hl3) Hall]. destruct (Hall 3 ltac:(lia)) as [Hop _].
  assert (lanes_are 0 0 s) as H0 by (split; [done|]; intros j Hj; destruct (Hall j Hj); split; [done|by apply Hweak]).
  unfold X1_loop. cbv zeta. wp_step. wp_step; [lia|]. rewrite Hop, Z.geb_leb. destruct (Z.leb_spec 8 (N - (3 * seg + 0))).
  2: { wp_step. exists 0. split; [lia|]. split; [lia|done]. }
  wp_step. apply (wp_while (fun '(s, e) => exists k, 0 <= k /\ 3 * seg + k <= N /\ lanes_are 0 k s /\ (e = true -> lanes_are 4 k s))
    (fun '(s, _) => N - zat (ln_op s) 3)).
  - exists 0. split; [lia|]. split; [lia|]. done.
  - rewrite Hop. lia.
  - intros [s1 e1] (k & Hk & Hk2 & _ & H4) Hcond. apply andb_true_iff in Hcond as [-> Hlt]. apply Z.ltb_lt in Hlt.
    specialize (H4 eq_refl). destruct (proj2 H4 3 ltac:(lia)) as [Hop1 _]. rewrite Hop1 in *. split; [lia|].
    wp_step. eapply wp_mono; [apply (round_ok 3 k s1); [lia..|exact H4]| |done]. intros s2 H5.
    wp_step. eapply wp_mono; [apply (round_ok 2 (k + 1) s2); [lia..|exact H5]| |done]. intros s3 H6.
    wp_step. eapply wp_mono; [apply (round_ok 1 (k + 1 + 1) s3); [lia..|exact H6]| |done]. intros s4 H7.
    wp_step. eapply wp_mono; [apply (round_ok 0 (k + 1 + 1 + 1) s4); [lia..|exact H7]| |done]. intros s5 H8.
    eapply wp_mono; [apply (reloads_ok _ s5 true H8)| |done]. intros [s6 e6] [H9 H10].
    destruct (proj2 H9 3 ltac:(lia)) as [Hop6 _]. split; [|lia]. eexists. split; [|split; [|split; [exact H9|exact H10]]]; lia.
  - intros [s1 e1] (k & Hk & Hk2 & HP & _) _. wp_step. by exists k.
Qed.

(** Finishing the streams one by one. *)
Context (F : Z -> list Z -> BIT_DStream_t -> Prop) (ends : list Z).
Hypothesis Hends : zlen ends = 4 /\ forall j, 0 <= j < 4 -> zat ends j = lane_end j.
Hypothesis HframeF : forall j dst dst' d, 0 <= j < 4 -> F j dst d -> same_lane j dst dst' -> F j dst' d.
Hypothesis Hfinish : forall k j dst d, 0 <= j < 4 -> 0 <= k -> j * seg + k <= lane_end j -> P 0 k j dst d ->
  wp (HUF_decodeStreamX1 (zat srcs j) dst (j * seg + k) d (lane_end j) dt L)
    (fun '(dst', d', _) => F j dst' d' /\ (bytes_ok dst -> bytes_ok dst') /\ zlen dst' = zlen dst /\
       forall i, 0 <= i -> ~ (j * seg + k <= i < lane_end j) -> zat dst' i = zat dst i) no_errors.

Lemma finish_lanes_ok k s :
  0 <= k -> 3 * seg + k <= N -> lanes_are 0 k s ->
  wp (X1_finish srcs dt L ends s) (fun s' => lanes_len s' /\ forall j, 0 <= j < 4 -> F j (ln_dst s') (zat (ln_bitD s') j)) no_errors.
Proof.
  intros Hk Hk2 [Hl Hs]. pose proof (seg_facts N HN). destruct Hends as [He1 He2]. unfold X1_finish.
  apply (wp_for (fun i s => lanes_len s /\ (forall j, 0 <= j < i -> F j (ln_dst s) (zat (ln_bitD s) j)) /\ (forall j, i <= j < 4 -> lane_is 0 k j s))); [lia| | |].
  - split; [done|]. split; [intros; lia|done].
  - intros i s1 Hi ((Hl1 & Hl2 & Hl3) & Hdone & Hrest). destruct (Hrest i ltac:(lia)) as [Hop HP]. pose proof (lane_size N HN i Hi) as Hsz.
    wp_step. wp_step; [lia|]. wp_step. wp_step; [lia|]. wp_step. wp_step; [lia|]. wp_step. wp_step; [lia|]. rewrite Hop, He2 by done.
    wp_step. eapply wp_mono; [apply (Hfinish k i); try done; lia| |done]. intros [[dst' d'] n] (HF & Hb & Hlen' & Hsame).
    wp_step. wp_step; [lia|]. wp_step. unfold lanes_len, lane_is. cbn [ln_op ln_bitD ln_dst]. rewrite zlen_zupd. split; [lia|].
    assert (forall j, 0 <= j < 4 -> j <> i -> same_lane j (ln_dst s1) dst') as Hsl.
    { intros j Hj Hne. split; [done|]. split; [done|]. intros m Hm. pose proof (lane_disjoint N HN i j Hi Hj ltac:(lia)). apply Hsame; lia. }
    split.
    + intros j Hj. rewrite zat_zupd by lia. destruct (Z.eqb_spec j i) as [->|]; [done|]. eapply HframeF; [lia|apply Hdone; lia|apply Hsl; lia].
    + intros j Hj. rewrite zat_zupd_ne by lia. destruct (Hrest j ltac:(lia)) as [Ho Hp]. split; [done|]. eapply Hframe; [lia|exact Hp|apply Hsl; lia].
  - intros s1 (H1 & H2 & _). split; [done|]. intros j Hj. by apply H2.
Qed.

(** The loop, the checks after it and the ends of the streams. *)
Lemma run_ok {A} s (K : HUF_lanes -> result A) Q E :
  ends = [seg; seg + seg; seg + seg + seg; N] -> lanes_are 4 0 s ->
  (forall s', lanes_len s' -> (forall j, 0 <= j < 4 -> F j (ln_dst s') (zat (ln_bitD s') j)) -> wp (K s') Q E) ->
  wp (let* s := X1_loop srcs dt L N s in
      ERROR_IF zat (ln_op s) 0 >? seg THEN corruption_detected ;;
      ERROR_IF zat (ln_op s) 1 >? seg + seg THEN corruption_detected ;;
      ERROR_IF zat (ln_op s) 2 >? seg + seg + seg THEN corruption_detected ;;
      let* s := X1_finish srcs dt L [seg; seg + seg; seg + seg + seg; N] s in K s) Q E.
Proof.
  intros <- Hs HK. pose proof (seg_facts N HN). wp_step. eapply wp_mono; [by apply loop_ok| |done].
  intros s1 (k & Hk & Hk2 & H1). pose proof H1 as [Hl Hall].
  destruct (Hall 0 ltac:(lia)) as [E0 _], (Hall 1 ltac:(lia)) as [E1 _], (Hall 2 ltac:(lia)) as [E2 _]. rewrite E0, E1, E2.
  wp_step; [lia|]. wp_step; [lia|]. wp_step; [lia|]. wp_step. eapply wp_mono; [by apply (finish_lanes_ok k)| |done].
  intros s2 [H2 H3]. by apply HK.
Qed.

End interleave.

(** *** Any bytes *)

Section safe4.
Context (dst0 : list Z) (srcs : list (list Z)) (dt : list Z) (L : Z).
Hypothesis HN : 6 <= zlen dst0 < 2 ^ 27.
Hypothesis Hsrcs : zlen srcs = 4.
Hypothesis Hb : forall j, 0 <= j < 4 -> bytes_ok (zat srcs j).
Hypothesis Hsafe : dtable_safe dt L.

Definition out_ok (dst : list Z) : Prop := zlen dst = zlen dst0 /\ (bytes_ok dst0 -> bytes_ok dst).
Definition lane_safe (r k j : Z) (dst : list Z) (d : BIT_DStream_t) : Prop :=
  0 <= r <= 4 /\ out_ok dst /\ fast_state (zat srcs j) d (8 + 12 * (4 - r)).

Lemma lane_safe_frame r k j dst dst' d : 0 <= j < 4 -> lane_safe r k j dst d -> same_lane (zlen dst0) j dst dst' -> lane_safe r k j dst' d.
Proof. intros Hj (Hr & (Hl & Hby) & Hf) (Hl' & Hby' & _). split; [done|]. split; [|done]. split; [lia|auto]. Qed.

Lemma lane_safe_decode r k j dst d :
  0 <= j < 4 -> 0 <= r <= 3 -> 0 <= k -> j * seg (zlen dst0) + k < lane_end (zlen dst0) j -> lane_safe (r + 1) k j dst d ->
  wp (HUF_DECODE_SYMBOLX1_2 dt L (dst, j * seg (zlen dst0) + k, d))
    (fun '(dst', op', d') => op' = j * seg (zlen dst0) + (k + 1) /\ lane_safe r (k + 1) j dst' d' /\
       exists x, is_byte x /\ dst' = zupd dst (j * seg (zlen dst0) + k) x) no_errors.
Proof.
  intros Hj Hr Hk Hroom (_ & (Hl & Hby) & Hf). pose proof (lane_end_range _ HN j Hj). pose proof (seg_facts _ HN).
  destruct (decodeSymbol_entry d dt L Hsafe) as (i & Hi & _ & E). destruct Hsafe as (_ & _ & He). destruct (He i Hi) as [Hnb Hx].
  unfold HUF_DECODE_SYMBOLX1_2, HUF_DECODE_SYMBOLX1_0. rewrite E. cbn [bind]. wp_step. wp_step; [nia|]. wp_step. split; [lia|]. split.
  - split; [lia|]. split; [split; [by rewrite zlen_zupd|intros Hby0; apply Forall_zupd; [by apply Hby|unfold is_byte; lia]]|].
    replace (8 + 12 * (4 - r)) with (8 + 12 * (4 - (r + 1)) + 12) by lia. apply fast_state_skip; [lia|lia|done].
  - eexists. split; [|done]. unfold is_byte. lia.
Qed.

Lemma lane_safe_reload k j dst d :
  0 <= j < 4 -> lane_safe 0 k j dst d ->
  exists st d', BIT_reloadDStreamFast (zat srcs j) d = Ok (st, d') /\ lane_safe 0 k j dst d' /\
    (st = BIT_DStream_unfinished -> lane_safe 4 k j dst d').
Proof.
  intros Hj (_ & Ho & Hf). destruct (fast_state_reload _ d (8 + 12 * (4 - 0)) (Hb j Hj) ltac:(lia) Hf) as (st & d' & E & H1 & H2).
  exists st, d'. split; [done|]. split; [split; [lia|done]|]. intros Hs. split; [lia|]. split; [done|]. by apply H2.
Qed.

Lemma lane_safe_finish k j dst d :
  0 <= j < 4 -> 0 <= k -> j * seg (zlen dst0) + k <= lane_end (zlen dst0) j -> lane_safe 0 k j dst d ->
  wp (HUF_decodeStreamX1 (zat srcs j) dst (j * seg (zlen dst0) + k) d (lane_end (zlen dst0) j) dt L)
    (fun '(dst', d', _) => out_ok dst' /\ (bytes_ok dst -> bytes_ok dst') /\ zlen dst' = zlen dst /\
       forall i, 0 <= i -> ~ (j * seg (zlen dst0) + k <= i < lane_end (zlen dst0) j) -> zat dst' i = zat dst i) no_errors.
Proof.
  intros Hj Hk Hroom (_ & (Hl & Hby) & Hf). pose proof (lane_end_range _ HN j Hj). pose proof (seg_facts _ HN).
  eapply wp_mono; [apply (decodeStream_safe (zat srcs j) dt L Hsafe (Hb j Hj) dst _ d _ (8 + 12 * (4 - 0))); [nia|lia|lia|lia|]| |done].
  - by apply fast_state_live.
  - intros [[dst' d'] n] (_ & Hl' & Hby' & Hs). split; [split; [lia|auto]|]. split; [done|]. split; done.
Qed.

End safe4.

(** What the jump table says, when it is accepted. *)
Lemma length4_ok n l : 0 <= n < 2 ^ 32 -> 0 <= l < 2 ^ 18 -> u64 (n - l) <= n -> l <= n /\ u64 (n - l) = n - l.
Proof.
  intros Hn Hl H. destruct (Z.leb_spec l n); [by rewrite u64_small by lia|].
  assert (u64 (n - l) = n - l + 2 ^ 64) as E; [|lia].
  unfold u64. rewrite <- (Z.mod_add _ 1) by lia. apply Z.mod_small. lia.
Qed.

Lemma readLE16_range l p : bytes_ok l -> 0 <= p -> p + 2 <= zlen l -> exists v, readLE16 l p = Ok v /\ 0 <= v < 2 ^ 16.
Proof.
  intros Hb Hp Hl. rewrite readLE16_spec by done. eexists. split; [done|].
  pose proof (le_val_range _ (bytes_ok_zsub l p 2 Hb)) as H. by rewrite zlen_zsub in H by lia.
Qed.

Lemma decompress4X1_safe dst cSrc DTable :
  dtable_safe (hdt_mem DTable) (dtd_tableLog (hdt_desc DTable)) -> bytes_ok cSrc -> zlen cSrc < 2 ^ 32 -> zlen dst < 2 ^ 27 ->
  wp (HUF_decompress4X1_usingDTable_internal_body dst cSrc DTable)
    (fun '(dst', n) => n = zlen dst /\ zlen dst' = zlen dst /\ (bytes_ok dst -> bytes_ok dst')) any_error.
Proof.
  intros Hs Hb Hl Hd. unfold HUF_decompress4X1_usingDTable_internal_body, HUF_getDTableDesc. cbv zeta.
  wp_step; [done|]. wp_step; [done|]. pose proof (zlen_nonneg cSrc).
  destruct (readLE16_range cSrc 0 Hb) as (l1 & -> & H1); [lia|lia|]. destruct (readLE16_range cSrc 2 Hb) as (l2 & -> & H2); [lia|lia|].
  destruct (readLE16_range cSrc 4 Hb) as (l3 & -> & H3); [lia|lia|]. cbn [bind].
  wp_step; [done|]. destruct (length4_ok (zlen cSrc) (l1 + l2 + l3 + 6)) as [Hsum E4]; [lia|lia|lia|]. rewrite E4 in *.
  wp_step; [done|].
  set (srcs := [zsub cSrc 6 l1; zsub cSrc (6 + l1) l2; zsub cSrc (6 + l1 + l2) l3; zsub cSrc (6 + l1 + l2 + l3) (zlen cSrc - (l1 + l2 + l3 + 6))]).
  assert (forall p n, 0 <= p -> 0 <= n -> p + n <= zlen cSrc -> wp (BIT_initDStream (zsub cSrc p n)) (fun d => fast_state (zsub cSrc p n) d 8) any_error) as Hinit.
  { intros p n Hp Hn Hpn. apply init_fast; [by apply bytes_ok_zsub|rewrite zlen_zsub by lia; lia]. }
  wp_step. eapply wp_mono; [apply Hinit; lia| |done]. intros d1 F1.
  wp_step. eapply wp_mono; [apply Hinit; lia| |done]. intros d2 F2.
  wp_step. eapply wp_mono; [apply Hinit; lia| |done]. intros d3 F3.
  wp_step. eapply wp_mono; [apply Hinit; lia| |done]. intros d4 F4.
  assert (6 <= zlen dst < 2 ^ 27) as HN by lia.
  assert (forall j, 0 <= j < 4 -> bytes_ok (zat srcs j)) as Hbs.
  { intros j Hj. destruct (four_cases j Hj) as [->|[->|[->| ->]]]; by apply bytes_ok_zsub. }
  apply (run_ok (zlen dst) srcs (hdt_mem DTable) _ HN eq_refl (lane_safe dst srcs)) with
    (F := fun _ dst' _ => out_ok dst dst') (ends := [seg (zlen dst); seg (zlen dst) + seg (zlen dst); seg (zlen dst) + seg (zlen dst) + seg (zlen dst); zlen dst]).
  - intros. by eapply lane_safe_frame.
  - intros * (_ & Ho & Hf). split; [lia|]. split; [done|]. eapply fast_state_mono; [|exact Hf]. lia.
  - intros. by apply lane_safe_decode.
  - intros. by apply lane_safe_reload.
  - split; [done|]. apply (four_forall (fun j e => e = lane_end (zlen dst) j)); unfold lane_end; cbn [Z.eqb Pos.eqb]; lia.
  - intros j d' d'' d _ [Ho1 Ho2] (Hl' & Hb' & _). split; [lia|auto].
  - intros. by apply lane_safe_finish with (srcs := srcs).
  - done.
  - split; [done|]. intros j Hj. unfold lane_is. cbn [ln_op ln_bitD ln_dst]. split.
    + apply (four_forall (fun j op => op = j * seg (zlen dst) + 0)); [| | | |done]; unfold seg; lia.
    + split; [lia|]. split; [done|]. apply (four_forall (fun j d => fast_state (zat srcs j) d (8 + 12 * (4 - 4)))); done.
  - intros s' Hl' HF. wp_step; [done|]. wp_step. destruct (HF 0 ltac:(lia)) as [Ho1 Ho2]. done.
Qed.
