(* ===== verification/HufRoundtrip.v ===== *)
(** Round trips of the Huffman coder: the four streams of [HUF_compress4X_usingCTable]
    and what the decoders make of them. *)

From S2P Require Import Prelude Errors Outcome Bits Mem BitStream FseTable FseSpread FseSymbols FseBuild FseSafe HufStats Hist FseNormalize HufWeights HufTree HufCode HufEncode HufDTable HufDecode HufFour.

(** ** Lemmas *)

(** *** The four streams, encoded *)

Section encode4.
Context (ws : list Z) (L : Z) (CTable : HUF_CTable).
Hypothesis Hc : kraft L ws.
Hypothesis Hcodes : codes_ok ws L (hct_elts CTable).
Hypothesis HtL : hct_tableLog CTable = L.

(** A stream of [n] bytes at [op], with its entry of the jump table. *)
Definition stream_at (segment dst : list Z) (op n : Z) (jump : option Z) : Prop :=
  0 < n < 2 ^ 16 /\ op + n <= zlen dst /\ stream_bytes ws L segment (zsub dst op n) /\
  forall p, jump = Some p -> zsub dst p 2 = le_bytes 2 n.

Lemma compress4X_stream_ok dst segment op jump :
  coded ws segment -> zlen segment <= 2 ^ 15 -> 0 <= op <= zlen dst ->
  (forall p, jump = Some p -> 0 <= p /\ p + 2 <= op) ->
  exists dst' o, HUF_compress4X_stream dst segment op jump CTable = Ok (dst', o) /\
    zlen dst' = zlen dst /\ (bytes_ok dst -> bytes_ok dst') /\
    (forall i, 0 <= i < op -> (forall p, jump = Some p -> ~ (p <= i < p + 2)) -> zat dst' i = zat dst i) /\
    (o = None /\ 8 * (zlen dst - op - 8) <= zlen segment * L + 1 \/
     exists n, o = Some (op + n) /\ 8 * (n - 1) <= zlen segment * L /\ stream_at segment dst' op n jump).
Proof.
  intros Hseg Hlen Hop Hjump. pose proof (cn_L _ _ Hc) as HL. pose proof (zlen_nonneg segment).
  pose proof (stream_bits_le ws L CTable Hc Hcodes segment Hseg) as Hbits.
  destruct (compress1X_ok ws L CTable Hc Hcodes HtL (zsub dst op (zlen dst - op)) segment Hseg) as (out & sz & E & Hlo & Hbo & Hsz); [lia|].
  rewrite zlen_zsub in Hlo by lia. unfold HUF_compress4X_stream. rewrite E. cbn [bind]. cbv zeta.
  set (d1 := zpatch dst op out). assert (zlen d1 = zlen dst) as Hl1 by (apply zlen_zpatch; lia).
  assert (bytes_ok dst -> bytes_ok d1) as Hb1 by (intros Hb; apply bytes_ok_zpatch; [done|by apply Hbo, bytes_ok_zsub]).
  assert (forall i, 0 <= i < op -> zat d1 i = zat dst i) as Hbefore.
  { intros i Hi. unfold d1. rewrite zat_zpatch by lia. by rewrite (proj2 (Z.leb_gt op i)) by lia. }
  assert (forall n, 0 <= n <= zlen dst - op -> zsub d1 op n = zsub out 0 n) as Hout.
  { intros n Hn. apply zat_ext; rewrite !zlen_zsub by lia; [done|]. intros i Hi. rewrite !zat_zsub by lia. unfold d1.
    rewrite zat_zpatch by lia. rewrite (proj2 (Z.leb_le op _)), (proj2 (Z.ltb_lt (op + i) _)) by lia. cbn [andb]. f_equal. lia. }
  destruct Hsz as [[-> Hfull]|[Hsz Hst]].
  { cbn [Z.eqb orb]. exists d1, None. split; [done|]. split; [done|]. split; [done|]. split; [intros; by apply Hbefore|]. left. split; [done|].
    rewrite zlen_zsub in Hfull by lia. lia. }
  rewrite zlen_zsub in Hsz by lia. assert (8 * (sz - 1) <= zlen segment * L) as Hszb by (destruct Hst as [Hst _]; rewrite zlen_zsub in Hst by lia; lia).
  assert (zlen segment * L <= 2 ^ 15 * 12) by (apply Z.mul_le_mono_nonneg; lia).
  rewrite (proj2 (Z.eqb_neq sz 0)), Z.gtb_ltb, (proj2 (Z.ltb_ge 65535 sz)) by lia. cbn [orb].
  assert (stream_bytes ws L segment (zsub d1 op sz)) as Hst1 by (by rewrite Hout by lia).
  destruct jump as [p|].
  2: { cbn [bind]. exists d1, (Some (op + sz)). split; [done|]. split; [done|]. split; [done|]. split; [intros; by apply Hbefore|].
       right. exists sz. split; [done|]. split; [done|]. split; [lia|]. split; [lia|]. split; [done|]. intros p [=]. }
  destruct (Hjump p eq_refl) as [Hp0 Hp2]. rewrite writeLE16_spec by (rewrite ?Hl1; first [lia|unfold u16; zdm]). cbn [bind].
  rewrite (u16_small sz) by lia. set (d2 := zpatch d1 p (le_bytes 2 sz)).
  assert (zlen (le_bytes 2 sz) = 2) as H2 by apply zlen_le_bytes.
  exists d2, (Some (op + sz)). split; [done|]. unfold d2. rewrite zlen_zpatch by lia. split; [done|].
  split; [intros Hb; apply bytes_ok_zpatch; [auto|apply le_bytes_ok]|]. split.
  - intros i Hi Hout'. specialize (Hout' p eq_refl). rewrite zat_zpatch, H2 by lia.
    replace ((p <=? i) && (i <? p + 2)) with false by (symmetry; apply andb_false_iff; rewrite Z.leb_gt, Z.ltb_ge; lia). by apply Hbefore.
  - right. exists sz. split; [done|]. split; [done|]. split; [lia|]. rewrite zlen_zpatch by lia. split; [lia|]. split.
    + replace (zsub (zpatch d1 p (le_bytes 2 sz)) op sz) with (zsub d1 op sz); [done|].
      apply zat_ext; rewrite !zlen_zsub by (rewrite ?zlen_zpatch; lia); [done|]. intros i Hi. rewrite !zat_zsub by (rewrite ?zlen_zpatch; lia).
      rewrite zat_zpatch, H2 by lia. replace ((p <=? op + i) && (op + i <? p + 2)) with false; [done|].
      symmetry. apply andb_false_iff. rewrite Z.leb_gt, Z.ltb_ge. lia.
    + intros q [= <-]. rewrite <- H2 at 1. apply zsub_zpatch; lia.
Qed.

Lemma zsub_same {A} `{!Inhabited A} (l k : list A) a n :
  0 <= a -> 0 <= n -> a + n <= zlen l -> zlen k = zlen l -> (forall i, a <= i < a + n -> zat k i = zat l i) -> zsub k a n = zsub l a n.
Proof.
  intros Ha Hn Hl Hk H. apply zat_ext; rewrite !zlen_zsub by lia; [done|]. intros i Hi. rewrite !zat_zsub by lia. apply H. lia.
Qed.

(** Later streams and their jump entries leave a stream as it is. *)
Lemma stream_at_frame segment d d' op n q jump p :
  stream_at segment d op n (Some q) -> zlen d' = zlen d -> 0 <= q -> q + 2 <= op -> op + n <= p ->
  (forall r, jump = Some r -> q + 2 <= r /\ r + 2 <= op) ->
  (forall i, 0 <= i < p -> (forall r, jump = Some r -> ~ (r <= i < r + 2)) -> zat d' i = zat d i) ->
  stream_at segment d' op n (Some q).
Proof.
  intros (Hn & Hl & Hst & Hj) Hlen Hq0 Hq Hp Hr Hsame. split; [done|]. split; [lia|]. split.
  - rewrite (zsub_same d d') by first [lia | intros i Hi; apply Hsame; [lia|intros r Er; specialize (Hr r Er); lia]]. done.
  - intros r [= <-]. rewrite (zsub_same d d') by first [lia | intros i Hi; apply Hsame; [lia|intros r Er; specialize (Hr r Er); lia]]. by apply Hj.
Qed.

(** The segment of lane [j]. *)
Definition lane_src (src : list Z) (j : Z) : list Z := zsub src (j * seg (zlen src)) (lane_end (zlen src) j - j * seg (zlen src)).

Lemma lane_src_facts src j :
  coded ws src -> 6 <= zlen src <= 2 ^ 17 -> 0 <= j < 4 -> coded ws (lane_src src j) /\ zlen (lane_src src j) = lane_end (zlen src) j - j * seg (zlen src) /\ zlen (lane_src src j) <= 2 ^ 15.
Proof.
  intros Hco Hl Hj. pose proof (lane_end_range (zlen src) ltac:(lia) j Hj). pose proof (lane_size (zlen src) ltac:(lia) j Hj). pose proof (seg_facts (zlen src) ltac:(lia)).
  assert (zlen (lane_src src j) = lane_end (zlen src) j - j * seg (zlen src)) as E by (apply zlen_zsub; nia).
  split; [|split; [done|unfold seg in *; zdm]]. unfold coded, lane_src, zsub. by apply Forall_take, Forall_drop.
Qed.

(** The streams, one after the other. *)
Definition streams4 (src dst : list Z) (sz : Z) : Prop :=
  exists n0 n1 n2 n3, sz = 6 + n0 + n1 + n2 + n3 /\
    stream_at (lane_src src 0) dst 6 n0 (Some 0) /\ stream_at (lane_src src 1) dst (6 + n0) n1 (Some 2) /\
    stream_at (lane_src src 2) dst (6 + n0 + n1) n2 (Some 4) /\ stream_at (lane_src src 3) dst (6 + n0 + n1 + n2) n3 None.

Lemma compress4X_ok dst src :
  coded ws src -> zlen src <= 2 ^ 17 ->
  exists dst' sz, HUF_compress4X_usingCTable dst src CTable = Ok (dst', sz) /\ zlen dst' = zlen dst /\ (bytes_ok dst -> bytes_ok dst') /\
    (sz = 0 /\ (zlen src < 12 \/ zlen dst < zlen src * L / 8 + 24) \/ 12 <= zlen src /\ 0 < sz <= zlen dst /\ streams4 src dst' sz).
Proof.
  intros Hco Hl. pose proof (cn_L _ _ Hc) as HL. pose proof (zlen_nonneg src). unfold HUF_compress4X_usingCTable. cbv zeta.
  assert (0 <= zlen src * L / 8) as Hb0 by (apply Z.div_pos; nia).
  destruct (Z.ltb_spec (zlen dst) (6 + 1 + 1 + 1 + 8)); [exists dst, 0; split; [done|]; split; [done|]; split; [done|]; left; split; [done|lia]|].
  destruct (Z.ltb_spec (zlen src) 12); [exists dst, 0; split; [done|]; split; [done|]; split; [done|]; left; split; [done|lia]|].
  pose proof (seg_facts (zlen src) ltac:(lia)) as (Hs2 & Hs3 & Hs4).
  assert (forall j, 0 <= j < 4 -> zlen (lane_src src j) = lane_end (zlen src) j - j * seg (zlen src)) as Hll by (intros j Hj; apply lane_src_facts; done || lia).
  pose proof (Hll 0 ltac:(lia)) as E0. pose proof (Hll 1 ltac:(lia)) as E1. pose proof (Hll 2 ltac:(lia)) as E2. pose proof (Hll 3 ltac:(lia)) as E3.
  unfold lane_end in E0, E1, E2, E3. cbn [Z.eqb Pos.eqb] in E0, E1, E2, E3.
  assert (forall j, 0 <= j < 4 -> coded ws (lane_src src j) /\ zlen (lane_src src j) <= 2 ^ 15) as Hlf by (intros j Hj; split; apply lane_src_facts; done || lia).
  assert (zsub src 0 ((zlen src + 3) / 4) = lane_src src 0) as -> by (unfold lane_src, lane_end, seg; cbn [Z.eqb Pos.eqb]; f_equal; lia).
  assert (zsub src (0 + (zlen src + 3) / 4) ((zlen src + 3) / 4) = lane_src src 1) as -> by (unfold lane_src, lane_end, seg; cbn [Z.eqb Pos.eqb]; f_equal; lia).
  assert (zsub src (0 + (zlen src + 3) / 4 + (zlen src + 3) / 4) ((zlen src + 3) / 4) = lane_src src 2) as -> by (unfold lane_src, lane_end, seg; cbn [Z.eqb Pos.eqb]; f_equal; lia).
  replace (0 + (zlen src + 3) / 4 + (zlen src + 3) / 4 + (zlen src + 3) / 4) with (3 * seg (zlen src)) by (unfold seg; lia).
  change (zsub src (3 * seg (zlen src)) (zlen src - 3 * seg (zlen src))) with (lane_src src 3).
  assert (zlen (lane_src src 0) * L + zlen (lane_src src 1) * L + zlen (lane_src src 2) * L + zlen (lane_src src 3) * L = zlen src * L) as Etot by nia.
  assert (forall j, 0 <= zlen (lane_src src j) * L) as Hpos by (intros j; pose proof (zlen_nonneg (lane_src src j)); nia).
  pose proof (Hpos 0) as P0. pose proof (Hpos 1) as P1. pose proof (Hpos 2) as P2. pose proof (Hpos 3) as P3.
  assert (forall k, 8 * (zlen dst - k - 8) <= zlen src * L + 1 + 24 -> k <= 6 -> zlen dst < zlen src * L / 8 + 24) as Hfull by (intros; zdm).
  destruct (compress4X_stream_ok dst (lane_src src 0) 6 (Some 0)) as (d0 & o & -> & Hl0 & Hb0' & Hs0 & Hr0); [by apply Hlf|by apply Hlf|lia|intros p [= <-]; lia|].
  destruct Hr0 as [[-> Hf]|(n0 & -> & Hn0 & Hst0)]; cbn [bind].
  { exists d0, 0. split; [done|]. split; [done|]. split; [done|]. left. split; [done|]. right. apply (Hfull 6); lia. }
  pose proof Hst0 as (? & ? & _).
  destruct (compress4X_stream_ok d0 (lane_src src 1) (6 + n0) (Some 2)) as (d1 & o & -> & Hl1 & Hb1 & Hs1 & Hr1); [by apply Hlf|by apply Hlf|lia|intros p [= <-]; lia|].
  destruct Hr1 as [[-> Hf]|(n1 & -> & Hn1 & Hst1)]; cbn [bind].
  { exists d1, 0. split; [done|]. split; [lia|]. split; [auto|]. left. split; [done|]. right. apply (Hfull 6); lia. }
  pose proof Hst1 as (? & ? & _).
  destruct (compress4X_stream_ok d1 (lane_src src 2) (6 + n0 + n1) (Some 4)) as (d2 & o & -> & Hl2 & Hb2 & Hs2' & Hr2); [by apply Hlf|by apply Hlf|lia|intros p [= <-]; lia|].
  destruct Hr2 as [[-> Hf]|(n2 & -> & Hn2 & Hst2)]; cbn [bind].
  { exists d2, 0. split; [done|]. split; [lia|]. split; [auto|]. left. split; [done|]. right. apply (Hfull 6); lia. }
  pose proof Hst2 as (? & ? & _).
  destruct (compress4X_stream_ok d2 (lane_src src 3) (6 + n0 + n1 + n2) None) as (d3 & o & -> & Hl3 & Hb3 & Hs3' & Hr3); [by apply Hlf|by apply Hlf|lia|intros p [=]|].
  destruct Hr3 as [[-> Hf]|(n3 & -> & Hn3 & Hst3)]; cbn [bind].
  { exists d3, 0. split; [done|]. split; [lia|]. split; [auto|]. left. split; [done|]. right. apply (Hfull 6); lia. }
  pose proof Hst3 as (? & ? & _). exists d3, (6 + n0 + n1 + n2 + n3). split; [done|]. split; [lia|]. split; [auto|]. right. split; [lia|]. split; [lia|].
  exists n0, n1, n2, n3. split; [done|]. split; [|split; [|split; [|done]]].
  - eapply (stream_at_frame _ d2 _ _ _ _ None); [|exact Hl3|lia|lia| |done|exact Hs3']; [|lia].
    eapply (stream_at_frame _ d1 _ _ _ _ (Some 4)); [|exact Hl2|lia|lia| | |exact Hs2']; [|lia|intros r [= <-]; lia].
    eapply (stream_at_frame _ d0 _ _ _ _ (Some 2)); [exact Hst0|exact Hl1|lia|lia| | |exact Hs1]; [lia|intros r [= <-]; lia].
  - eapply (stream_at_frame _ d2 _ _ _ _ None); [|exact Hl3|lia|lia| |done|exact Hs3']; [|lia].
    eapply (stream_at_frame _ d1 _ _ _ _ (Some 4)); [exact Hst1|exact Hl2|lia|lia| | |exact Hs2']; [lia|intros r [= <-]; lia].
  - eapply (stream_at_frame _ d2 _ _ _ _ None); [exact Hst2|exact Hl3|lia|lia| |done|exact Hs3']; lia.
Qed.

End encode4.

(** *** The four streams, decoded *)

Lemma ready_mono ws L m m' d xs : m' <= m -> ready ws L m d xs -> ready ws L m' d xs.
Proof. intros Hm [H|H]; [left; lia|by right]. Qed.

Lemma ready_0 ws L fld src d xs : decodes_to fld src d xs -> ready ws L 0 d xs.
Proof. intros [Hd _]. left. pose proof (drep_consumed _ _ _ Hd). unfold davail. lia. Qed.

Section decode4.
Context (ws : list Z) (L : Z) (DTable : HUF_DTable) (src dst0 : list Z) (srcs : list (list Z)).
Hypothesis Hc : kraft L ws.
Hypothesis Hn : zlen ws <= 256.
Hypothesis Hdt : dtableX1 ws L DTable.
Hypothesis Hco : coded ws src.
Hypothesis HN : 6 <= zlen src <= 2 ^ 17.
Hypothesis Hsrcs : zlen srcs = 4.
Hypothesis Hb : forall j, 0 <= j < 4 -> bytes_ok (zat srcs j).

Notation N := (zlen src).
Notation fld := (sym_field ws L).
Notation rest j k := (drop (Z.to_nat k) (lane_src src j)).

(** The first [k] symbols of lane [j] are in place. *)
Definition lane_done (k j : Z) (dst : list Z) : Prop :=
  zlen dst = N /\ forall i, 0 <= i < k -> zat dst (j * seg N + i) = zat (lane_src src j) i.
Definition lane_ok (r k j : Z) (dst : list Z) (d : BIT_DStream_t) : Prop :=
  0 <= r <= 4 /\ 0 <= k <= zlen (lane_src src j) /\ lane_done k j dst /\
  decodes_to fld (zat srcs j) d (rest j k) /\ ready ws L r d (rest j k).

Lemma lane_facts j : 0 <= j < 4 ->
  coded ws (lane_src src j) /\ zlen (lane_src src j) = lane_end N j - j * seg N /\ 0 <= j * seg N /\ lane_end N j <= N.
Proof.
  intros Hj. destruct (lane_src_facts ws src j Hco HN Hj) as (H1 & H2 & _). pose proof (seg_facts N ltac:(lia)).
  pose proof (lane_end_range N ltac:(lia) j Hj). split; [done|]. split; [done|]. nia.
Qed.

Lemma lane_done_frame k j dst dst' :
  0 <= j < 4 -> k <= zlen (lane_src src j) -> lane_done k j dst -> same_lane N j dst dst' -> lane_done k j dst'.
Proof.
  intros Hj Hk [Hl H] (Hl' & _ & Hs). destruct (lane_facts j Hj) as (_ & E & _). split; [lia|]. intros i Hi. rewrite Hs by lia. by apply H.
Qed.

Lemma lane_ok_frame r k j dst dst' d : 0 <= j < 4 -> lane_ok r k j dst d -> same_lane N j dst dst' -> lane_ok r k j dst' d.
Proof. intros Hj (Hr & Hk & Hdn & Hrest) Hs. split; [done|]. split; [done|]. split; [|done]. eapply lane_done_frame; done || lia. Qed.

Lemma lane_ok_decode r k j dst d :
  0 <= j < 4 -> 0 <= r <= 3 -> 0 <= k -> j * seg N + k < lane_end N j -> lane_ok (r + 1) k j dst d ->
  wp (HUF_DECODE_SYMBOLX1_2 (hdt_mem DTable) L (dst, j * seg N + k, d))
    (fun '(dst', op', d') => op' = j * seg N + (k + 1) /\ lane_ok r (k + 1) j dst' d' /\
       exists x, is_byte x /\ dst' = zupd dst (j * seg N + k) x) no_errors.
Proof.
  intros Hj Hr Hk Hroom (_ & Hk' & [Hl Hdn] & Hd & Hre). destruct (lane_facts j Hj) as (Hcl & E & H0 & H1).
  set (x := zat (lane_src src j) k). rewrite (drop_zS (lane_src src j) k) in Hd, Hre by lia. fold x in Hd, Hre.
  assert (coded ws (x :: rest j (k + 1))) as Hcx.
  { unfold x. rewrite <- (drop_zS (lane_src src j) k) by lia. unfold coded. by apply Forall_drop. }
  destruct (decodeSymbol_ok ws L DTable (zat srcs j) Hc Hn Hdt d x (rest j (k + 1)) r Hcx Hd Hre) as (d' & Ed & Hd' & Hre'); [lia|].
  apply coded_cons in Hcx as [[Hx _] _]. unfold HUF_DECODE_SYMBOLX1_2, HUF_DECODE_SYMBOLX1_0. rewrite Ed. cbn [bind].
  wp_step. wp_step; [lia|]. wp_step. split; [lia|]. split; [|exists x; split; [unfold is_byte; lia|done]].
  split; [lia|]. split; [lia|]. split; [|done]. split; [by rewrite zlen_zupd|]. intros i Hi. rewrite zat_zupd by lia.
  destruct (Z.eqb_spec (j * seg N + i) (j * seg N + k)); [by replace i with k by lia|]. apply Hdn. lia.
Qed.

Lemma lane_ok_reload k j dst d :
  0 <= j < 4 -> lane_ok 0 k j dst d ->
  exists st d', BIT_reloadDStreamFast (zat srcs j) d = Ok (st, d') /\ lane_ok 0 k j dst d' /\
    (st = BIT_DStream_unfinished -> lane_ok 4 k j dst d').
Proof.
  intros Hj (_ & Hk & Hdn & [Hd HM] & _). destruct (reloadFast_drep _ d _ (Hb j Hj) Hd) as (st & d' & E & Hd' & Hun & _).
  assert (decodes_to fld (zat srcs j) d' (rest j k)) as HD by done.
  exists st, d'. split; [done|]. split; [|intros Es; specialize (Hun Es)]; (split; [lia|]); (split; [done|]); (split; [done|]); (split; [done|]).
  - by eapply ready_0.
  - left. unfold davail. lia.
Qed.

(** A lane that is full, and its stream used up. *)
Definition lane_full (j : Z) (dst : list Z) (d : BIT_DStream_t) : Prop :=
  lane_done (zlen (lane_src src j)) j dst /\ drep (zat srcs j) d 0.

Lemma lane_ok_finish k j dst d :
  0 <= j < 4 -> 0 <= k -> j * seg N + k <= lane_end N j -> lane_ok 0 k j dst d ->
  wp (HUF_decodeStreamX1 (zat srcs j) dst (j * seg N + k) d (lane_end N j) (hdt_mem DTable) L)
    (fun '(dst', d', _) => lane_full j dst' d' /\ (bytes_ok dst -> bytes_ok dst') /\ zlen dst' = zlen dst /\
       forall i, 0 <= i -> ~ (j * seg N + k <= i < lane_end N j) -> zat dst' i = zat dst i) no_errors.
Proof.
  intros Hj Hk Hroom (_ & Hk' & [Hl Hdn] & Hd & _). destruct (lane_facts j Hj) as (Hcl & E & H0 & H1).
  assert (zlen (rest j k) = lane_end N j - (j * seg N + k)) as Er by (unfold zlen in *; rewrite length_drop; lia).
  destruct (decodeStream_ok ws L DTable (zat srcs j) Hc Hn Hdt (Hb j Hj) dst (j * seg N + k) d (lane_end N j) (rest j k))
    as (dst' & d' & Eq & (Hl' & Hw1 & Hw2) & Hd0); [by apply Forall_drop|lia|lia|lia|done|].
  pose proof (decodeStream_safe (zat srcs j) (hdt_mem DTable) L (dtableX1_safe ws L DTable Hc Hn Hdt) (Hb j Hj) dst (j * seg N + k) d (lane_end N j) 0) as Hsafe.
  rewrite Eq in *. cbn [wp] in *. destruct Hsafe as (_ & _ & Hby & Hs); [lia|lia|lia|lia|left; by eexists; apply Hd|].
  split; [|done]. split; [|done]. split; [lia|]. intros i Hi. destruct (Z.ltb_spec i k) as [Hik|Hik].
  - rewrite Hs by lia. apply Hdn. lia.
  - replace (j * seg N + i) with (j * seg N + k + (i - k)) by lia. rewrite Hw1 by lia. unfold zat.
    rewrite lookup_total_drop. f_equal. lia.
Qed.

End decode4.

Lemma lane_cover N i : 6 <= N < 2 ^ 27 -> 0 <= i < N -> exists j, 0 <= j < 4 /\ j * seg N <= i < lane_end N j.
Proof.
  intros HN Hi. pose proof (seg_facts N HN). unfold lane_end.
  destruct (Z.ltb_spec i (seg N)); [exists 0; cbn; lia|]. destruct (Z.ltb_spec i (2 * seg N)); [exists 1; cbn; lia|].
  destruct (Z.ltb_spec i (3 * seg N)); [exists 2; cbn; lia|]. exists 3. cbn. lia.
Qed.

Lemma stream_at_size ws L segment c op n p :
  bytes_ok c -> 0 <= p -> p + 2 <= zlen c -> stream_at ws L segment c op n (Some p) -> readLE16 c p = Ok n.
Proof.
  intros Hb Hp Hl (Hn & _ & _ & Hj). rewrite readLE16_spec by done. rewrite (Hj p eq_refl), le_val_le_bytes. f_equal. apply Z.mod_small. lia.
Qed.

Lemma decompress4X1_ok ws L DTable src dst c :
  kraft L ws -> zlen ws <= 256 -> dtableX1 ws L DTable -> coded ws src -> 6 <= zlen src <= 2 ^ 17 ->
  bytes_ok c -> zlen c < 2 ^ 32 -> zlen dst = zlen src -> streams4 ws L src c (zlen c) ->
  HUF_decompress4X1_usingDTable_internal_body dst c DTable = Ok (src, zlen src).
Proof.
  intros Hc Hn Hdt Hco HN Hb Hl Hdst (n0 & n1 & n2 & n3 & Esz & S0 & S1 & S2 & S3).
  pose proof S0 as (R0 & Q0 & B0 & _). pose proof S1 as (R1 & Q1 & B1 & _). pose proof S2 as (R2 & Q2 & B2 & _). pose proof S3 as (R3 & Q3 & B3 & _).
  assert (wp (HUF_decompress4X1_usingDTable_internal_body dst c DTable) (fun r => r = (src, zlen src)) no_errors) as Hw.
  2: { apply wp_no_errors_Ok in Hw as (r & -> & ->). done. }
  pose proof (seg_facts (zlen src) ltac:(lia)) as (Hs2 & Hs3 & Hs4).
  unfold HUF_decompress4X1_usingDTable_internal_body, HUF_getDTableDesc. cbv zeta. rewrite Hdst.
  wp_step; [lia|]. wp_step; [lia|]. rewrite (stream_at_size ws L _ c _ n0 0 Hb ltac:(lia) ltac:(lia) S0), (stream_at_size ws L _ c _ n1 2 Hb ltac:(lia) ltac:(lia) S1),
    (stream_at_size ws L _ c _ n2 4 Hb ltac:(lia) ltac:(lia) S2). cbn [bind].
  rewrite (u64_small (zlen c - _)) by lia. wp_step; [lia|]. wp_step; [unfold seg in *; lia|].
  replace (zlen c - (n0 + n1 + n2 + 6)) with n3 by lia.
  set (srcs := [zsub c 6 n0; zsub c (6 + n0) n1; zsub c (6 + n0 + n1) n2; zsub c (6 + n0 + n1 + n2) n3]).
  assert (forall j, 0 <= j < 4 -> bytes_ok (zat srcs j)) as Hbs by (apply (four_forall (fun _ => bytes_ok)); by apply bytes_ok_zsub).
  assert (forall j p n, 0 <= j < 4 -> 0 <= p -> 0 < n -> p + n <= zlen c -> stream_bytes ws L (lane_src src j) (zsub c p n) ->
    wp (BIT_initDStream (zsub c p n)) (fun d => lane_ok ws L src srcs 4 0 j dst d \/ zat srcs j <> zsub c p n) no_errors) as Hinit.
  { intros j p n Hj Hp Hnn Hpn Hst. destruct (initDStream_stream ws L (zsub c p n) Hc (bytes_ok_zsub _ _ _ Hb) (lane_src src j)) as (d & -> & Hd & Hr).
    - by apply lane_src_facts.
    - done.
    - rewrite zlen_zsub by lia. lia.
    - cbn [wp]. destruct (decide (zat srcs j = zsub c p n)) as [E|E]; [left|by right]. split; [lia|].
      split; [pose proof (zlen_nonneg (lane_src src j)); lia|]. split; [split; [done|intros i Hi; lia]|]. rewrite E. split; [done|].
      destruct Hr as [Hr|Hr]; [left; lia|by right]. }
  wp_step. eapply wp_mono; [apply (Hinit 0); done || lia| |done]. intros d0 [F0|[]]; [|done].
  wp_step. eapply wp_mono; [apply (Hinit 1); done || lia| |done]. intros d1 [F1|[]]; [|done].
  wp_step. eapply wp_mono; [apply (Hinit 2); done || lia| |done]. intros d2 [F2|[]]; [|done].
  wp_step. eapply wp_mono; [apply (Hinit 3); done || lia| |done]. intros d3 [F3|[]]; [|done].
  destruct Hdt as (EL & Hlt & Hent). rewrite EL. assert (dtableX1 ws L DTable) as Hdt by done.
  apply (run_ok (zlen src) srcs (hdt_mem DTable) L ltac:(lia) eq_refl (lane_ok ws L src srcs)) with
    (F := lane_full src srcs) (ends := [seg (zlen src); seg (zlen src) + seg (zlen src); seg (zlen src) + seg (zlen src) + seg (zlen src); zlen src]).
  - intros. by eapply lane_ok_frame.
  - intros k j d' d (_ & H1 & H2 & H3 & _). split; [lia|]. split; [done|]. split; [done|]. split; [done|]. by eapply ready_0.
  - intros. by apply (lane_ok_decode ws L DTable src srcs).
  - intros. by apply (lane_ok_reload ws L src srcs).
  - split; [done|]. apply (four_forall (fun j e => e = lane_end (zlen src) j)); unfold lane_end; cbn [Z.eqb Pos.eqb]; lia.
  - intros j d' d'' d Hj [Hf Hz] Hsame. split; [|done]. by eapply (lane_done_frame ws).
  - intros. by apply (lane_ok_finish ws L DTable src srcs).
  - done.
  - split; [done|]. intros j Hj. unfold lane_is. cbn [ln_op ln_bitD ln_dst]. split.
    + apply (four_forall (fun j op => op = j * seg (zlen src) + 0)); [| | | |done]; unfold seg; lia.
    + apply (four_forall (fun j d => lane_ok ws L src srcs 4 0 j dst d)); done.
  - intros s (_ & Hlb & Hld) HF. assert (forallb BIT_endOfDStream (ln_bitD s) = true) as ->.
    + apply forallb_forall. intros d Hd. apply list_elem_of_In, list_elem_of_lookup in Hd as [i Hi]. pose proof (lookup_lt_Some _ _ _ Hi).
      apply (drep_0_end (zat srcs (Z.of_nat i))). destruct (HF (Z.of_nat i)) as [_ Hz]; [unfold zlen in *; lia|].
      assert (zat (ln_bitD s) (Z.of_nat i) = d) as <-; [|done]. unfold zat. rewrite Nat2Z.id. by apply list_lookup_total_correct.
    + wp_step; [done|]. wp_step. f_equal. apply zat_ext; [done|]. intros i Hi. rewrite Hld in Hi. destruct (lane_cover (zlen src) i ltac:(lia) Hi) as (j & Hj & Hij).
      destruct (HF j Hj) as [[_ Hd] _]. destruct (lane_facts ws src Hco HN j Hj) as (_ & E & H0 & _).
      specialize (Hd (i - j * seg (zlen src)) ltac:(lia)). replace (j * seg (zlen src) + (i - j * seg (zlen src))) with i in Hd by lia. rewrite Hd.
      unfold lane_src. rewrite zat_zsub by lia. f_equal. lia.
Qed.

(** *** From the encoder's depth to the decoder's *)

Section transfer.
Context (ws : list Z) (L s : Z).
Hypothesis Hc : kraft L ws.
Hypothesis Hs : 0 <= s.

Lemma sym_field_rescaled x : 0 <= x < zlen ws -> 1 <= zat ws x -> sym_field (rescaled s ws) (L + s) x = sym_field ws L x.
Proof.
  intros Hx Hw. unfold sym_field, code_val. rewrite (hpos_rescaled ws L s Hc Hs x Hx Hw), zat_rescaled by done.
  rewrite (proj2 (Z.eqb_neq (zat ws x) 0)) by lia. rewrite !weight_val_pos by lia. f_equal; [|lia].
  replace (zat ws x + s - 1) with (zat ws x - 1 + s) by lia. rewrite pow2_add by lia.
  apply Z.div_mul_cancel_r; apply Z.pow_nonzero; lia.
Qed.

Lemma coded_rescaled xs : coded ws xs -> coded (rescaled s ws) xs.
Proof.
  intros H. unfold coded. eapply Forall_impl; [exact H|]. intros x [Hx Hw]. rewrite zlen_rescaled, zat_rescaled by done.
  rewrite (proj2 (Z.eqb_neq (zat ws x) 0)) by lia. lia.
Qed.

Lemma sym_fields_rescaled xs : coded ws xs -> sym_fields (sym_field (rescaled s ws) (L + s)) xs = sym_fields (sym_field ws L) xs.
Proof.
  intros H. unfold sym_fields. f_equal. apply map_ext_in. intros x Hx. unfold coded in H. rewrite Forall_forall in H.
  apply list_elem_of_In in Hx. destruct (H x Hx). by apply sym_field_rescaled.
Qed.

Lemma stream_bytes_rescaled xs bs : coded ws xs -> stream_bytes ws L xs bs -> stream_bytes (rescaled s ws) (L + s) xs bs.
Proof. intros H. unfold stream_bytes, stream_val, stream_bits. by rewrite sym_fields_rescaled. Qed.

Lemma streams4_rescaled src c sz :
  coded ws src -> 6 <= zlen src <= 2 ^ 17 -> streams4 ws L src c sz -> streams4 (rescaled s ws) (L + s) src c sz.
Proof.
  intros Hco HN (n0 & n1 & n2 & n3 & E & S0 & S1 & S2 & S3).
  assert (forall j op n p, 0 <= j < 4 -> stream_at ws L (lane_src src j) c op n p -> stream_at (rescaled s ws) (L + s) (lane_src src j) c op n p) as Hst.
  { intros j op n p Hj (H1 & H2 & H3 & H4). split; [done|]. split; [done|]. split; [|done]. apply stream_bytes_rescaled; [|done]. by apply lane_src_facts. }
  exists n0, n1, n2, n3. split; [done|]. split_and!; apply Hst; done || lia.
Qed.

End transfer.

Lemma zsub_zsub {A} `{!Inhabited A} (l : list A) sz a n : 0 <= a -> 0 <= n -> a + n <= sz -> sz <= zlen l -> zsub (zsub l 0 sz) a n = zsub l a n.
Proof.
  intros Ha Hn Hs Hl. apply zat_ext; rewrite !zlen_zsub by (rewrite ?zlen_zsub; lia); [done|]. intros i Hi.
  by rewrite !zat_zsub by lia.
Qed.

Lemma streams4_cut ws L src c sz : sz <= zlen c -> streams4 ws L src c sz -> streams4 ws L src (zsub c 0 sz) sz.
Proof.
  intros Hsz (n0 & n1 & n2 & n3 & E & S0 & S1 & S2 & S3).
  pose proof S0 as (? & _). pose proof S1 as (? & _). pose proof S2 as (? & _). pose proof S3 as (? & _).
  assert (forall seg op n p, 0 < n -> 6 <= op -> op + n <= sz -> (forall q, p = Some q -> 0 <= q <= 4) -> stream_at ws L seg c op n p -> stream_at ws L seg (zsub c 0 sz) op n p) as Hst.
  { intros g op n p Hn Hop Hle Hp (J1 & J2 & J3 & J4). split; [done|]. rewrite zlen_zsub by lia. split; [done|]. rewrite zsub_zsub by lia. split; [done|].
    intros q Eq. specialize (Hp q Eq). rewrite zsub_zsub by lia. by apply J4. }
  exists n0, n1, n2, n3. split; [done|]. split_and!; apply Hst; try done; try lia; try (intros q [= <-]; lia); intros q [=].
Qed.

(** *** One stream *)

Lemma decompress1X1_ok ws L DTable src dst c :
  kraft L ws -> zlen ws <= 256 -> dtableX1 ws L DTable -> coded ws src -> bytes_ok c -> 0 < zlen c < 2 ^ 32 ->
  zlen dst = zlen src -> stream_bytes ws L src c ->
  HUF_decompress1X1_usingDTable_internal_body dst c DTable = Ok (src, zlen src).
Proof.
  intros Hc Hn Hdt Hco Hb Hl Hdst Hst. unfold HUF_decompress1X1_usingDTable_internal_body, HUF_getDTableDesc. cbv zeta.
  destruct (initDStream_stream ws L c Hc Hb src Hco Hst Hl) as (d & -> & Hd & _). cbn [bind].
  pose proof Hdt as (EL & _). rewrite EL. pose proof (zlen_nonneg src).
  destruct (decodeStream_ok ws L DTable c Hc Hn Hdt Hb dst 0 d (0 + zlen dst) src Hco) as (dst' & d' & -> & (Hld & Hw & _) & Hd0); [lia|lia|lia|done|].
  cbn [bind]. rewrite (drep_0_end _ _ Hd0). unfold RETURN_ERROR_IF. cbn [negb].
  assert (dst' = src) as ->; [|done]. apply zat_ext; [lia|]. intros i Hi. apply Hw. lia.
Qed.

(** *** The table of a description *)

Lemma dtable_described le ws L bs rest DTable wd :
  tree_described ws L bs -> kraft L ws -> 1 <= zlen ws <= 256 -> bytes_ok rest -> rdw_ok wd -> DTable_ok DTable ->
  L <= maxTableLog (hdt_desc DTable) + 1 ->
  exists DTable' s, HUF_readDTableX1_wksp le DTable (bs ++ rest) wd = Ok (DTable', zlen bs) /\
    0 <= s /\ kraft (L + s) (rescaled s ws) /\ dtableX1 (rescaled s ws) (L + s) DTable'.
Proof.
  intros Hdesc Hc Hn Hbr Hwd Hdt HL. pose proof Hwd as (_ & Hrv & _ & Hwk & Hwks & _ & Hlw & Hbw).
  destruct (Hdesc rest (rw_huffWeight wd) (rw_rankVal wd) (rw_statsWksp wd) Hbr) as (rs & E & Hs1 & Hs2 & Hs3 & Hs4 & Hs5 & Hs6 & Hs7); try done; [lia|lia|].
  assert (take (Z.to_nat (hs_nbSymbols rs)) (hs_huffWeight rs) = ws) as Htake.
  { rewrite Hs2. unfold zlen. by rewrite Nat2Z.id. }
  pose proof (readDTableX1_body le DTable (bs ++ rest) wd rs Hwd Hdt E) as Hrd. cbv zeta in Hrd. rewrite Htake, Hs3 in Hrd.
  specialize (Hrd ltac:(lia) ltac:(lia) Hc ltac:(lia) Hs7).
  destruct (HUF_readDTableX1_wksp _ _ _ _) as [[DT' iSize]|e|]; cbn [wp] in Hrd; [|lia|done].
  destruct Hrd as (_ & -> & _ & _ & _ & Hk & Hd). exists DT', (X1_depth DTable L - L).
  replace (L + (X1_depth DTable L - L)) with (X1_depth DTable L) by lia. rewrite Hs1. split; [done|]. split; [unfold X1_depth; lia|]. done.
Qed.

(** Any description. *)
Lemma readDTableX1_any le DTable src wd :
  DTable_ok DTable -> rdw_ok wd -> bytes_ok src -> zlen src < 2 ^ 26 ->
  wp (HUF_readDTableX1_wksp le DTable src wd)
    (fun '(DTable', iSize) => 1 <= iSize <= zlen src /\ maxTableLog (hdt_desc DTable') = maxTableLog (hdt_desc DTable) /\ DTable_ok DTable' /\
       exists L ws, kraft L ws /\ 1 <= zlen ws <= 256 /\ L <= maxTableLog (hdt_desc DTable) + 1 /\ dtableX1 ws L DTable')
    any_error.
Proof.
  intros Hdt Hwd Hb Hl. pose proof Hwd as (Hsz & Hrv & _ & Hwk & _ & _ & Hlw & Hbw).
  pose proof (readStats_ok (rw_huffWeight wd) (rw_rankVal wd) src (rw_statsWksp wd) Hbw Hb Hl ltac:(lia) ltac:(lia) Hwk) as Hs.
  destruct (HUF_readStats _ _ _ _) as [rs|e|] eqn:E.
  - cbn [wp] in Hs. pose proof (complete_kraft _ _ (stats_complete _ _ _ _ Hs)) as Hc. destruct Hs as (Hsz' & Hnb & HL & Hlw' & Hlr & _ & _ & Hocc & _).
    assert (zlen (take (Z.to_nat (hs_nbSymbols rs)) (hs_huffWeight rs)) = hs_nbSymbols rs) as Hlen by (unfold zlen in *; rewrite length_take; lia).
    eapply wp_mono; [apply (readDTableX1_body le DTable src wd rs Hwd Hdt E Hlen); try done; lia| |done].
    intros [DT' iSize] (HLm & -> & Hm & _ & Hlm & Hk & Hd). cbv zeta in *. split; [lia|]. split; [done|]. split; [destruct Hdt; split; rewrite Hm; [done|lia]|].
    eexists _, _. split; [exact Hk|]. split; [rewrite zlen_rescaled; lia|]. split; [|exact Hd]. destruct Hdt as [Hmr _].
    unfold X1_depth, HUF_DECODER_FAST_TABLELOG. lia.
  - unfold HUF_readDTableX1_wksp. wp_step; [lia|]. by rewrite E.
  - done.
Qed.

Lemma decompressX1_DCtx_any le DTable dst cSrc wd f :
  (forall dst c DT, dtable_safe (hdt_mem DT) (dtd_tableLog (hdt_desc DT)) -> bytes_ok c -> zlen c < 2 ^ 32 -> zlen dst < 2 ^ 27 ->
     wp (f dst c DT) (fun '(dst', n) => n = zlen dst /\ zlen dst' = zlen dst /\ (bytes_ok dst -> bytes_ok dst')) any_error) ->
  DTable_ok DTable -> rdw_ok wd -> bytes_ok cSrc -> zlen cSrc < 2 ^ 26 -> zlen dst < 2 ^ 27 ->
  wp (let* '(dctx, hSize) := HUF_readDTableX1_wksp le DTable cSrc wd in
      ERROR_IF hSize >=? zlen cSrc THEN srcSize_wrong ;;
      let ip := zsub cSrc hSize (zlen cSrc - hSize) in
      let* '(dst, n) := f dst ip dctx in
      Ok (dctx, dst, n))
    (fun '(DT', dst', n) => n = zlen dst /\ zlen dst' = zlen dst /\ (bytes_ok dst -> bytes_ok dst') /\
       (DTable_ok DT' /\ maxTableLog (hdt_desc DT') = maxTableLog (hdt_desc DTable)) /\
       dtable_safe (hdt_mem DT') (dtd_tableLog (hdt_desc DT'))) any_error.
Proof.
  intros Hf Hdt Hwd Hb Hl Hd. wp_step. eapply wp_mono; [by apply readDTableX1_any| |done].
  intros [DT' iSize] (Hsz & Hm & Hdt' & L & ws & Hc & Hn & _ & Hx). wp_step; [done|]. cbv zeta.
  assert (dtable_safe (hdt_mem DT') (dtd_tableLog (hdt_desc DT'))) by (pose proof Hx as (-> & _); apply (dtableX1_safe ws); [done|lia|done]).
  wp_step. eapply wp_mono; [apply Hf; [done|by apply bytes_ok_zsub|rewrite zlen_zsub by lia; lia|done]| |done].
  intros [dst' n] (-> & ? & ?). wp_step. done.
Qed.

(** ** Properties *)

(** C16: Huffman compression round trips, from the tree to the bytes. For every
    Huffman tree with a complete code, every source coded by it, and a
    destination with the room that its length and the depth ask for: the table
    that [HUF_buildCTableFromTree] makes, its description by
    [HUF_writeCTable_wksp], and the stream of [HUF_compress1X_usingCTable], or
    the jump table and the four streams of [HUF_compress4X_usingCTable], are
    decoded by [HUF_decompress1X1_DCtx_wksp] and [HUF_decompress4X1_DCtx_wksp],
    whatever their tables and workspaces held, into the source, and the decoders
    see that their streams end exactly there. *)
Theorem HUF_roundtrip le nodes rank L ws CTable tdst w src dst DTable wd out :
  nodes_ok nodes rank L ws -> complete L ws -> 2 <= zlen ws <= 256 -> 1 <= zat ws (zlen ws - 1) ->
  zlen ws <= zlen (hct_elts CTable) -> bytes_ok tdst -> 33 <= zlen tdst < 2 ^ 26 -> wcw_ok w ->
  coded ws src -> zlen src <= 2 ^ 17 -> bytes_ok dst -> zlen src * L / 8 + 24 <= zlen dst < 2 ^ 26 ->
  rdw_ok wd -> DTable_ok DTable -> L <= maxTableLog (hdt_desc DTable) + 1 -> zlen out = zlen src ->
  exists CT, HUF_buildCTableFromTree CTable nodes rank (zlen ws - 1) L = Ok CT /\
  wp (HUF_writeCTable_wksp tdst CT (zlen ws - 1) L w)
    (fun '(hdr, hsz) =>
       (exists dst1 sz DT, HUF_compress1X_usingCTable dst src CT = Ok (dst1, sz) /\ 0 < sz <= zlen dst /\
          HUF_decompress1X1_DCtx_wksp le DTable out (zsub hdr 0 hsz ++ zsub dst1 0 sz) wd = Ok (DT, src, zlen src)) /\
       (12 <= zlen src -> exists dst4 sz DT, HUF_compress4X_usingCTable dst src CT = Ok (dst4, sz) /\ 0 < sz <= zlen dst /\
          HUF_decompress4X1_DCtx_wksp le DTable out (zsub hdr 0 hsz ++ zsub dst4 0 sz) wd = Ok (DT, src, zlen src)))
    (fun e => e = GENERIC /\ 129 < zlen ws \/ e = dstSize_tooSmall /\ zlen tdst < zlen ws / 2 + 1).
Proof.
  intros Hno Hcc Hn Hlast Hle Hbt Hlt Hw Hco Hsrc Hbd Hld Hwd Hdt HLm Hout.
  pose proof (complete_kraft _ _ Hcc) as Hc. pose proof (cn_L _ _ Hc) as HL. pose proof (zlen_nonneg src).
  destruct (tree_table_described nodes rank L ws CTable tdst w Hno Hcc Hn Hlast Hle Hbt Hlt Hw) as (CT & -> & HtL & _ & Hcodes & Hwr).
  exists CT. split; [done|]. eapply wp_mono; [exact Hwr| |done]. intros [hdr hsz] (Hlh & Hbh & Hhsz & Hdesc).
  assert (zlen (zsub hdr 0 hsz) = hsz) as Hh by (apply zlen_zsub; lia).
  assert (forall f buf sz, 0 < sz <= zlen buf -> bytes_ok buf ->
    (forall DT s, 0 <= s -> kraft (L + s) (rescaled s ws) -> dtableX1 (rescaled s ws) (L + s) DT -> f out (zsub buf 0 sz) DT = Ok (src, zlen src)) ->
    exists DT, (let* '(dctx, hSize) := HUF_readDTableX1_wksp le DTable (zsub hdr 0 hsz ++ zsub buf 0 sz) wd in
      ERROR_IF hSize >=? zlen (zsub hdr 0 hsz ++ zsub buf 0 sz) THEN srcSize_wrong ;;
      let ip := zsub (zsub hdr 0 hsz ++ zsub buf 0 sz) hSize (zlen (zsub hdr 0 hsz ++ zsub buf 0 sz) - hSize) in
      let* '(dst, n) := f out ip dctx in Ok (dctx, dst, n)) = Ok (DT, src, zlen src)) as Hrun.
  { intros f buf sz Hsz Hbuf Hf. destruct (dtable_described le ws L (zsub hdr 0 hsz) (zsub buf 0 sz) DTable wd) as (DT & s & -> & Hs & Hk & Hx);
      [done|done|lia|by apply bytes_ok_zsub|done..|].
    cbn [bind]. rewrite Hh, zlen_app, Hh, zlen_zsub by lia. unfold RETURN_ERROR_IF. rewrite Z.geb_leb, (proj2 (Z.leb_gt _ _)) by lia. cbn [bind]. cbv zeta.
    replace (hsz + sz - hsz) with sz by lia. pose proof (zsub_app_r (zsub hdr 0 hsz) (zsub buf 0 sz)) as Er. rewrite Hh, zlen_zsub in Er by lia. rewrite Er, (Hf DT s) by done.
    by exists DT. }
  split.
  - destruct (compress1X_ok ws L CT Hc Hcodes HtL dst src Hco) as (d1 & sz & E & Hl1 & Hb1 & Hsz); [lia|].
    destruct Hsz as [[-> Hfull]|[Hsz Hst]]; [pose proof (stream_bits_le ws L CT Hc Hcodes src Hco); zdm|].
    destruct (Hrun HUF_decompress1X_usingDTable d1 sz) as (DT & Ed); [lia|by apply Hb1| |].
    { intros DT s Hs Hk Hx. apply (decompress1X1_ok (rescaled s ws) (L + s)); try done; [by rewrite zlen_rescaled; lia|by apply coded_rescaled|by apply bytes_ok_zsub, Hb1| |by apply stream_bytes_rescaled].
      rewrite zlen_zsub by lia. lia. }
    exists d1, sz, DT. split; [done|]. split; [lia|exact Ed].
  - intros H12. destruct (compress4X_ok ws L CT Hc Hcodes HtL dst src Hco Hsrc) as (d4 & sz & E & Hl4 & Hb4 & Hsz).
    destruct Hsz as [[-> Hfull]|(_ & Hsz & Hst)]; [lia|].
    destruct (Hrun HUF_decompress4X_usingDTable d4 sz) as (DT & Ed); [lia|by apply Hb4| |].
    { intros DT s Hs Hk Hx. assert (zlen (zsub d4 0 sz) = sz) as Hz by (apply zlen_zsub; lia).
      apply (decompress4X1_ok (rescaled s ws) (L + s)); try done; [by rewrite zlen_rescaled; lia|by apply coded_rescaled|lia|by apply bytes_ok_zsub, Hb4|lia|].
      rewrite Hz. apply streams4_cut; [lia|]. apply streams4_rescaled; done || lia. }
    exists d4, sz, DT. split; [done|]. split; [lia|exact Ed].
Qed.

(** Workspaces, a table, and a source for the sample tree. *)
Definition sample_rdwksp : HUF_ReadDTableX1_Workspace :=
  mkRDWksp 20000 (zfill 13 7) (zfill 13 7) sample_wksp (zfill 256 7) (zfill 256 7).
Definition sample_DTable : HUF_DTable := mkHDTable (mkDesc 11 0 0 0) (zfill 8192 7).
Definition sample_coded : list Z := [0; 2; 3; 4; 0; 0; 2; 0; 0; 3; 0; 4; 0; 0; 2].

Lemma sample_rdwksp_ok : rdw_ok sample_rdwksp.
Proof.
  split; [vm_compute; congruence|]. split; [reflexivity|]. split; [reflexivity|]. split; [vm_compute; repeat split; congruence|].
  split; [vm_compute; congruence|]. split; [reflexivity|]. split; [reflexivity|]. bytes_dec.
Qed.

Lemma sample_DTable_ok : DTable_ok sample_DTable.
Proof. vm_compute. repeat split; congruence. Qed.

Lemma sample_complete : complete 3 [3; 0; 2; 1; 1].
Proof.
  split; [lia|]. split; [apply (bool_decide_unpack (Forall (fun w => 0 <= w <= 3) [3; 0; 2; 1; 1])); vm_compute; exact I|].
  split; [reflexivity|]. apply (bool_decide_unpack (1 ∈ [3; 0; 2; 1; 1])). vm_compute. exact I.
Qed.

Lemma HUF_roundtrip_witness :
  exists CT, HUF_buildCTableFromTree (mkCTable 0 0 (zfill 256 0)) sample_nodes 3 4 3 = Ok CT /\
  wp (HUF_writeCTable_wksp (zfill 40 9) CT 4 3 sample_wcwksp)
    (fun '(hdr, hsz) =>
       (exists dst1 sz DT, HUF_compress1X_usingCTable (zfill 64 9) sample_coded CT = Ok (dst1, sz) /\ 0 < sz <= 64 /\
          HUF_decompress1X1_DCtx_wksp true sample_DTable (zfill 15 9) (zsub hdr 0 hsz ++ zsub dst1 0 sz) sample_rdwksp = Ok (DT, sample_coded, 15)) /\
       (12 <= 15 -> exists dst4 sz DT, HUF_compress4X_usingCTable (zfill 64 9) sample_coded CT = Ok (dst4, sz) /\ 0 < sz <= 64 /\
          HUF_decompress4X1_DCtx_wksp true sample_DTable (zfill 15 9) (zsub hdr 0 hsz ++ zsub dst4 0 sz) sample_rdwksp = Ok (DT, sample_coded, 15)))
    (fun e => e = GENERIC /\ 129 < 5 \/ e = dstSize_tooSmall /\ 40 < 5 / 2 + 1).
Proof.
  apply (HUF_roundtrip true sample_nodes 3 3 [3; 0; 2; 1; 1] (mkCTable 0 0 (zfill 256 0)) (zfill 40 9) sample_wcwksp sample_coded (zfill 64 9)
    sample_DTable sample_rdwksp (zfill 15 9) sample_nodes_ok sample_complete).
  - change (zlen _) with 5. lia.
  - vm_compute. congruence.
  - vm_compute. congruence.
  - bytes_dec.
  - vm_compute. split; [congruence|reflexivity].
  - exact sample_wcwksp_ok.
  - apply (bool_decide_unpack (Forall (fun x => 0 <= x < 5 /\ 1 <= zat [3; 0; 2; 1; 1] x) sample_coded)). vm_compute. exact I.
  - vm_compute. congruence.
  - bytes_dec.
  - vm_compute. split; [congruence|reflexivity].
  - exact sample_rdwksp_ok.
  - exact sample_DTable_ok.
  - vm_compute. congruence.
  - reflexivity.
Defined.

(** C18: a decoding table covers every lookup. On any bytes, [HUF_readDTableX1_wksp]
    fails with an error or makes a table of the depth it announces, within the
    memory of its caller, in which every index looked up falls in the interval of
    exactly one symbol of a complete code, and holds that symbol and the length of
    its code, on either byte order. *)
Theorem HUF_readDTableX1_correct le DTable src wd :
  DTable_ok DTable -> rdw_ok wd -> bytes_ok src -> zlen src < 2 ^ 26 ->
  wp (HUF_readDTableX1_wksp le DTable src wd)
    (fun '(DTable', iSize) => 1 <= iSize <= zlen src /\ DTable_ok DTable' /\
       exists L ws, kraft L ws /\ 1 <= zlen ws <= 256 /\ L <= maxTableLog (hdt_desc DTable') + 1 /\ dtd_tableLog (hdt_desc DTable') = L /\
         forall i, 0 <= i < 2 ^ L -> exists x, at_entry ws x i /\ (forall y, at_entry ws y i -> y = x) /\
           entry (hdt_mem DTable') i = (L + 1 - zat ws x, x))
    any_error.
Proof.
  intros Hdt Hwd Hb Hl. eapply wp_mono; [by apply readDTableX1_any| |done].
  intros [DT' iSize] (Hsz & Hm & Hdt' & L & ws & Hc & Hn & HL & Ht & Hlen & He). split; [done|]. split; [done|].
  exists L, ws. rewrite Hm. split_and!; try done; try lia. intros i Hi. destruct (at_entry_cover ws L Hc i Hi) as (x & Hx).
  exists x. split; [done|]. split; [|by apply He]. intros y Hy. by apply (at_entry_unique ws y x i).
Qed.

Lemma HUF_readDTableX1_correct_witness :
  wp (HUF_readDTableX1_wksp true sample_DTable [129; 17; 32; 0] sample_rdwksp)
    (fun '(DTable', iSize) => 1 <= iSize <= 4 /\ DTable_ok DTable' /\
       exists L ws, kraft L ws /\ 1 <= zlen ws <= 256 /\ L <= maxTableLog (hdt_desc DTable') + 1 /\ dtd_tableLog (hdt_desc DTable') = L /\
         forall i, 0 <= i < 2 ^ L -> exists x, at_entry ws x i /\ (forall y, at_entry ws y i -> y = x) /\
           entry (hdt_mem DTable') i = (L + 1 - zat ws x, x))
    any_error /\
  exists DT, HUF_readDTableX1_wksp true sample_DTable [129; 17; 32; 0] sample_rdwksp = Ok (DT, 2) /\
    dtd_tableLog (hdt_desc DT) = 11 /\ entry (hdt_mem DT) 0 = (2, 0) /\ entry (hdt_mem DT) 511 = (2, 0) /\
    entry (hdt_mem DT) 512 = (2, 1) /\ entry (hdt_mem DT) 2047 = (1, 2).
Proof.
  split.
  - apply (HUF_readDTableX1_correct true sample_DTable [129; 17; 32; 0] sample_rdwksp sample_DTable_ok sample_rdwksp_ok); [bytes_dec|vm_compute; reflexivity].
  - eexists. split; [vm_compute; reflexivity|]. vm_compute. repeat split.
Defined.

(** C17: the Huffman decoders are safe. On any bytes, whatever their tables and
    workspaces held, [HUF_decompress1X_DCtx_wksp] and
    [HUF_decompress4X_hufOnly_wksp] read and write inside their buffers, in the
    unrolled loops over four streams too, end, and either fail with an error or
    fill the destination they were given, leaving a table of the same size. *)
Theorem HUF_decompressX1_safe le DTable dst cSrc wd :
  DTable_ok DTable -> rdw_ok wd -> bytes_ok cSrc -> zlen cSrc < 2 ^ 26 -> zlen dst < 2 ^ 27 ->
  let Q '(DT', dst', n) := n = zlen dst /\ zlen dst' = zlen dst /\ (bytes_ok dst -> bytes_ok dst') /\ DTable_ok DT' in
  wp (HUF_decompress1X_DCtx_wksp le DTable dst cSrc wd) Q any_error /\
  wp (HUF_decompress4X_hufOnly_wksp le DTable dst cSrc wd) Q any_error.
Proof.
  intros Hdt Hwd Hb Hl Hd Q. pose proof (zlen_nonneg cSrc). pose proof (zlen_nonneg dst). split.
  - unfold HUF_decompress1X_DCtx_wksp. wp_step; [done|]. wp_step; [done|]. wp_step; [|wp_step].
    + rewrite memcpy_at_ok by lia. cbn [bind wp]. unfold Q. rewrite !zlen_zpatch by lia. split; [done|]. split; [done|]. split; [|done].
      intros Hbd. by apply bytes_ok_zpatch.
    + wp_step. wp_step; [lia|]. pose proof (bytes_ok_zat cSrc 0 Hb ltac:(lia)). assert (zlen (zfill (zlen dst) (zat cSrc 0)) = zlen dst) as Ez by (apply zlen_zfill; lia).
      rewrite memcpy_at_ok by lia. cbn [bind wp]. unfold Q. rewrite !zlen_zpatch by lia. split; [done|]. split; [done|]. split; [|done].
      intros Hbd. apply bytes_ok_zpatch; [done|]. apply Forall_replicate. done.
    + eapply wp_mono; [apply (decompressX1_DCtx_any le DTable dst cSrc wd HUF_decompress1X_usingDTable); try done; intros; by apply decompress1X1_safe|by intros [[]] (? & ? & ? & [? _] & _)|done].
  - unfold HUF_decompress4X_hufOnly_wksp. wp_step; [done|]. wp_step; [done|].
    eapply wp_mono; [apply (decompressX1_DCtx_any le DTable dst cSrc wd HUF_decompress4X_usingDTable); try done; intros; by apply decompress4X1_safe|by intros [[]] (? & ? & ? & [? _] & _)|done].
Qed.

Lemma HUF_decompressX1_safe_witness :
  let Q '(DT', dst', n) := n = 15 /\ zlen dst' = 15 /\ (bytes_ok (zfill 15 9) -> bytes_ok dst') /\ DTable_ok DT' in
  wp (HUF_decompress1X_DCtx_wksp true sample_DTable (zfill 15 9) [129; 17; 32; 0] sample_rdwksp) Q any_error /\
  wp (HUF_decompress4X_hufOnly_wksp true sample_DTable (zfill 15 9) [129; 17; 32; 0] sample_rdwksp) Q any_error.
Proof.
  apply (HUF_decompressX1_safe true sample_DTable (zfill 15 9) [129; 17; 32; 0] sample_rdwksp sample_DTable_ok sample_rdwksp_ok);
    [bytes_dec|vm_compute; reflexivity|vm_compute; reflexivity].
Defined.
