(* ===== verification/Wire.v ===== *)
(** Serialised headers: writing at the end of what has been written, and reading
    a field in the middle of a buffer. Every format of the library is proved
    with these lemmas. *)

From S2P Require Import Prelude Errors Outcome Bits Mem.

(** ** Lemmas *)

Lemma zpatch_all {A} (dst : list A) : zpatch dst 0 [] = dst.
Proof. done. Qed.

(** Writing just after a prefix extends the prefix. *)
Lemma zpatch_snoc {A} `{!Inhabited A} (dst h bs : list A) p :
  p = zlen h -> zlen h + zlen bs <= zlen dst -> zpatch (zpatch dst 0 h) p bs = zpatch dst 0 (h ++ bs).
Proof.
  intros -> Hlen. pose proof (zlen_nonneg h). pose proof (zlen_nonneg bs).
  apply zat_ext.
  - rewrite !zlen_zpatch; rewrite ?zlen_app; try rewrite zlen_zpatch; lia.
  - intros i Hi. rewrite !zlen_zpatch in Hi; rewrite ?zlen_zpatch; try lia.
    rewrite !zat_zpatch by (rewrite ?zlen_zpatch, ?zlen_app; lia). rewrite zlen_app, !Z.sub_0_r.
    destruct (Z.leb_spec (zlen h) i), (Z.leb_spec 0 i), (Z.ltb_spec i (zlen h + zlen bs)),
      (Z.ltb_spec i (0 + (zlen h + zlen bs))), (Z.ltb_spec i (0 + zlen h)); simpl; try lia; try done.
    + by rewrite zat_app_r by lia.
    + by rewrite zat_app_l by lia.
Qed.

Lemma zpatch_one {A} `{!Inhabited A} (dst : list A) p v :
  0 <= p < zlen dst -> zpatch dst p [v] = zupd dst p v.
Proof.
  intros Hp. apply zat_ext.
  - rewrite zlen_zupd, zlen_zpatch; change (zlen [v]) with 1; lia.
  - change 1 with (zlen [v]). intros i Hi. rewrite zlen_zpatch in Hi by (change (zlen [v]) with 1; lia).
    rewrite zat_zpatch by (change (zlen [v]) with 1; lia). rewrite zat_zupd by lia.
    change (zlen [v]) with 1.
    destruct (Z.leb_spec p i), (Z.ltb_spec i (p + 1)), (Z.eqb_spec i p); simpl; try lia; try done.
    replace (i - p) with 0 by lia. done.
Qed.

Lemma zsub_zpatch_0 {A} (dst h : list A) :
  zlen h <= zlen dst -> zsub (zpatch dst 0 h) 0 (zlen h) = h.
Proof. intros. pose proof (zlen_nonneg h). apply zsub_zpatch; lia. Qed.

Section emit.
Context (dst h : list Z) (p : Z).
Hypothesis Hp : p = zlen h.

Local Lemma emit_len : zlen h <= zlen dst -> zlen (zpatch dst 0 h) = zlen dst.
Proof. intros. apply zlen_zpatch; pose proof (zlen_nonneg h); lia. Qed.

Lemma emit_byte v :
  zlen h + 1 <= zlen dst -> wr (zpatch dst 0 h) p v = Ok (zpatch dst 0 (h ++ [v])).
Proof.
  intros Hl. pose proof (zlen_nonneg h). rewrite wr_ok by (rewrite emit_len; lia). f_equal.
  rewrite <- zpatch_one by (rewrite emit_len; lia). by apply zpatch_snoc.
Qed.
Lemma emit_bytes bs :
  zlen h + zlen bs <= zlen dst ->
  memcpy_at (zpatch dst 0 h) p bs = Ok (zpatch dst 0 (h ++ bs)).
Proof.
  intros Hl. pose proof (zlen_nonneg h). pose proof (zlen_nonneg bs).
  rewrite memcpy_at_ok by (rewrite ?emit_len; lia). f_equal. by apply zpatch_snoc.
Qed.
Lemma emit_LE16 v :
  0 <= v < 2 ^ 16 -> zlen h + 2 <= zlen dst ->
  writeLE16 (zpatch dst 0 h) p v = Ok (zpatch dst 0 (h ++ le_bytes 2 v)).
Proof.
  intros Hv Hl. pose proof (zlen_nonneg h). rewrite writeLE16_spec by (rewrite ?emit_len; lia). f_equal.
  apply zpatch_snoc; [done|]. rewrite zlen_le_bytes. lia.
Qed.
Lemma emit_LE24 v :
  0 <= v < 2 ^ 24 -> zlen h + 3 <= zlen dst ->
  writeLE24 (zpatch dst 0 h) p v = Ok (zpatch dst 0 (h ++ le_bytes 3 v)).
Proof.
  intros Hv Hl. pose proof (zlen_nonneg h). rewrite writeLE24_spec by (rewrite ?emit_len; lia). f_equal.
  apply zpatch_snoc; [done|]. rewrite zlen_le_bytes. lia.
Qed.
Lemma emit_LE32 v :
  0 <= v < 2 ^ 32 -> zlen h + 4 <= zlen dst ->
  writeLE32 (zpatch dst 0 h) p v = Ok (zpatch dst 0 (h ++ le_bytes 4 v)).
Proof.
  intros Hv Hl. pose proof (zlen_nonneg h). rewrite writeLE32_spec by (rewrite ?emit_len; lia). f_equal.
  apply zpatch_snoc; [done|]. rewrite zlen_le_bytes. lia.
Qed.
Lemma emit_LE64 v :
  0 <= v < 2 ^ 64 -> zlen h + 8 <= zlen dst ->
  writeLE64 (zpatch dst 0 h) p v = Ok (zpatch dst 0 (h ++ le_bytes 8 v)).
Proof.
  intros Hv Hl. pose proof (zlen_nonneg h). rewrite writeLE64_spec by (rewrite ?emit_len; lia). f_equal.
  apply zpatch_snoc; [done|]. rewrite zlen_le_bytes. lia.
Qed.
End emit.

Lemma zsub_mid {A} (a b c : list A) p n :
  p = zlen a -> n = zlen b -> zsub (a ++ b ++ c) p n = b.
Proof.
  intros -> ->. unfold zsub, zlen. rewrite !Nat2Z.id, drop_app_length. apply take_app_length.
Qed.

Section parse.
Context (a c : list Z) (p : Z).
Hypothesis Hp : p = zlen a.
Hypothesis Ha : bytes_ok a.
Hypothesis Hc : bytes_ok c.

Local Lemma parse_len (b : list Z) : 0 <= p /\ p + zlen b <= zlen (a ++ b ++ c).
Proof. rewrite !zlen_app. pose proof (zlen_nonneg a). pose proof (zlen_nonneg c). lia. Qed.
Local Lemma parse_ok (b : list Z) : bytes_ok b -> bytes_ok (a ++ b ++ c).
Proof. intros. by repeat apply bytes_ok_app. Qed.

Lemma parse_byte v : rd (a ++ [v] ++ c) p = Ok v.
Proof.
  pose proof (parse_len [v]) as [? H]. change (zlen [v]) with 1 in H. rewrite rd_ok by lia.
  f_equal. rewrite zat_app_r by lia. by replace (p - zlen a) with 0 by lia.
Qed.
Local Lemma parse_le (n : nat) v :
  0 <= v < 2 ^ (8 * Z.of_nat n) -> le_val (zsub (a ++ le_bytes n v ++ c) p (Z.of_nat n)) = v.
Proof.
  intros Hv. rewrite zsub_mid by (rewrite ?zlen_le_bytes; done).
  rewrite le_val_le_bytes. by apply Z.mod_small.
Qed.
Lemma parse_LE16 v : 0 <= v < 2 ^ 16 -> readLE16 (a ++ le_bytes 2 v ++ c) p = Ok v.
Proof.
  intros Hv. pose proof (parse_len (le_bytes 2 v)) as [? H]. rewrite zlen_le_bytes in H.
  rewrite readLE16_spec by (first [apply parse_ok, le_bytes_ok|lia]). f_equal. by apply (parse_le 2).
Qed.
Lemma parse_LE24 v : 0 <= v < 2 ^ 24 -> readLE24 (a ++ le_bytes 3 v ++ c) p = Ok v.
Proof.
  intros Hv. pose proof (parse_len (le_bytes 3 v)) as [? H]. rewrite zlen_le_bytes in H.
  rewrite readLE24_spec by (first [apply parse_ok, le_bytes_ok|lia]). f_equal. by apply (parse_le 3).
Qed.
Lemma parse_LE32 v : 0 <= v < 2 ^ 32 -> readLE32 (a ++ le_bytes 4 v ++ c) p = Ok v.
Proof.
  intros Hv. pose proof (parse_len (le_bytes 4 v)) as [? H]. rewrite zlen_le_bytes in H.
  rewrite readLE32_spec by (first [apply parse_ok, le_bytes_ok|lia]). f_equal. by apply (parse_le 4).
Qed.
Lemma parse_LE64 v : 0 <= v < 2 ^ 64 -> readLE64 (a ++ le_bytes 8 v ++ c) p = Ok v.
Proof.
  intros Hv. pose proof (parse_len (le_bytes 8 v)) as [? H]. rewrite zlen_le_bytes in H.
  rewrite readLE64_spec by (first [apply parse_ok, le_bytes_ok|lia]). f_equal. by apply (parse_le 8).
Qed.
End parse.

(** Reading from a prefix of a longer buffer. *)
Lemma zsub_app_l {A} (l k : list A) p n :
  0 <= p -> 0 <= n -> p + n <= zlen l -> zsub (l ++ k) p n = zsub l p n.
Proof.
  intros. unfold zsub, zlen in *. rewrite drop_app_le by lia. apply take_app_le.
  rewrite length_drop. lia.
Qed.
Lemma rd_app {A} `{!Inhabited A} (l k : list A) p : 0 <= p < zlen l -> rd (l ++ k) p = rd l p.
Proof.
  intros. pose proof (zlen_nonneg k). rewrite !rd_ok by (rewrite ?zlen_app; lia).
  f_equal. by apply zat_app_l.
Qed.
Section extend.
Context (l k : list Z) (p : Z).
Hypothesis Hl : bytes_ok l.
Hypothesis Hk : bytes_ok k.
Hypothesis Hp : 0 <= p.
Local Lemma extend_ok : bytes_ok (l ++ k).
Proof. by apply bytes_ok_app. Qed.
Lemma readLE16_app : p + 2 <= zlen l -> readLE16 (l ++ k) p = readLE16 l p.
Proof.
  intros. pose proof (zlen_nonneg k). pose proof extend_ok.
  rewrite !readLE16_spec by (rewrite ?zlen_app; (done || lia)). by rewrite zsub_app_l by lia.
Qed.
Lemma readLE32_app : p + 4 <= zlen l -> readLE32 (l ++ k) p = readLE32 l p.
Proof.
  intros. pose proof (zlen_nonneg k). pose proof extend_ok.
  rewrite !readLE32_spec by (rewrite ?zlen_app; (done || lia)). by rewrite zsub_app_l by lia.
Qed.
Lemma readLE64_app : p + 8 <= zlen l -> readLE64 (l ++ k) p = readLE64 l p.
Proof.
  intros. pose proof (zlen_nonneg k). pose proof extend_ok.
  rewrite !readLE64_spec by (rewrite ?zlen_app; (done || lia)). by rewrite zsub_app_l by lia.
Qed.
End extend.

(** The range of what is read. *)
Lemma wp_readLE16 mem p (Q : Z -> Prop) E :
  bytes_ok mem -> 0 <= p -> p + 2 <= zlen mem -> (forall v, 0 <= v < 2 ^ 16 -> Q v) ->
  wp (readLE16 mem p) Q E.
Proof.
  intros Hm Hp Hl HQ. rewrite readLE16_spec by done. apply HQ.
  pose proof (le_val_range _ (bytes_ok_zsub mem p 2 Hm)) as R. by rewrite zlen_zsub in R by lia.
Qed.
Lemma wp_readLE24 mem p (Q : Z -> Prop) E :
  bytes_ok mem -> 0 <= p -> p + 3 <= zlen mem -> (forall v, 0 <= v < 2 ^ 24 -> Q v) ->
  wp (readLE24 mem p) Q E.
Proof.
  intros Hm Hp Hl HQ. rewrite readLE24_spec by done. apply HQ.
  pose proof (le_val_range _ (bytes_ok_zsub mem p 3 Hm)) as R. by rewrite zlen_zsub in R by lia.
Qed.
Lemma wp_readLE32 mem p (Q : Z -> Prop) E :
  bytes_ok mem -> 0 <= p -> p + 4 <= zlen mem -> (forall v, 0 <= v < 2 ^ 32 -> Q v) ->
  wp (readLE32 mem p) Q E.
Proof.
  intros Hm Hp Hl HQ. rewrite readLE32_spec by done. apply HQ.
  pose proof (le_val_range _ (bytes_ok_zsub mem p 4 Hm)) as R. by rewrite zlen_zsub in R by lia.
Qed.
Lemma wp_readLE64 mem p (Q : Z -> Prop) E :
  bytes_ok mem -> 0 <= p -> p + 8 <= zlen mem -> (forall v, 0 <= v < 2 ^ 64 -> Q v) ->
  wp (readLE64 mem p) Q E.
Proof.
  intros Hm Hp Hl HQ. rewrite readLE64_spec by done. apply HQ.
  pose proof (le_val_range _ (bytes_ok_zsub mem p 8 Hm)) as R. by rewrite zlen_zsub in R by lia.
Qed.
