(* ===== verification/LzCopy.v ===== *)
(** The copies of the block decoder (common/zstd_internal.h,
    decompress/zstd_decompress_block.c): by 8 or 16 bytes, past the end of what is
    asked for, and with a source that overlaps the destination. *)

From S2P Require Import Prelude Errors Outcome Mem.

(** ** Definitions *)

Definition WILDCOPY_OVERLENGTH : Z := 32.
Definition WILDCOPY_VECLEN : Z := 16.

Inductive ZSTD_overlap_e := ZSTD_no_overlap | ZSTD_overlap_src_before_dst.

(** A pointer that is read: into the destination buffer, or into another one,
    which stays as it is. A pointer that is written is an index of the
    destination. *)
Inductive src_ptr :=
  | In_dst (i : Z)
  | In_buf (b : list Z) (i : Z).

Definition ptr_add (p : src_ptr) (n : Z) : src_ptr :=
  match p with In_dst i => In_dst (i + n) | In_buf b i => In_buf b (i + n) end.

(** [op - ip] is defined within one buffer. *)
Definition ptr_diff (op : Z) (ip : src_ptr) : result Z :=
  match ip with In_dst i => Ok (op - i) | In_buf _ _ => Stuck end.

(** [n] bytes at a pointer. *)
Definition load (d : list Z) (p : src_ptr) (n : Z) : result (list Z) :=
  let '(b, i) := match p with In_dst i => (d, i) | In_buf b i => (b, i) end in
  if (0 <=? i) && (i + n <=? zlen b) then Ok (zsub b i n) else Stuck.

(** [memmove]: the destination after the copy. *)
Definition memmove (d : list Z) (op : Z) (ip : src_ptr) (n : Z) : result (list Z) :=
  let* x := load d ip n in memcpy_at d op x.

(** [memcpy]: undefined when the areas overlap. *)
Definition memcpy (d : list Z) (op : Z) (ip : src_ptr) (n : Z) : result (list Z) :=
  REQUIRE match ip with In_dst i => (i + n <=? op) || (op + n <=? i) | In_buf _ _ => true end ;;
  memmove d op ip n.

Definition ZSTD_copy4 (d : list Z) (op : Z) (ip : src_ptr) : result (list Z) := memcpy d op ip 4.
Definition ZSTD_copy8 (d : list Z) (op : Z) (ip : src_ptr) : result (list Z) := memcpy d op ip 8.
Definition ZSTD_copy16 (d : list Z) (op : Z) (ip : src_ptr) : result (list Z) := memmove d op ip 16.

(** A copy in progress: the destination buffer and the two pointers. *)
Definition copying : Type := list Z * Z * src_ptr.
Definition COPY8 (s : copying) : result copying :=
  let '(d, op, ip) := s in let* d := ZSTD_copy8 d op ip in Ok (d, op + 8, ptr_add ip 8).
Definition COPY16 (s : copying) : result copying :=
  let '(d, op, ip) := s in let* d := ZSTD_copy16 d op ip in Ok (d, op + 16, ptr_add ip 16).

(** [do body while (op < oend)]. *)
Definition do_copy (oend : Z) (body : copying -> result copying) (s : copying) : result copying :=
  let* s := body s in while_ (Z.to_nat (oend - s.1.2)) (fun s => s.1.2 <? oend) body s.

Definition ZSTD_wildcopy (d : list Z) (op : Z) (ip : src_ptr) (length : Z) (ovtype : ZSTD_overlap_e) : result (list Z) :=
  let oend := op + length in
  let long := let* d := ZSTD_copy16 d op ip in
    if 16 >=? length then Ok d
    else let* '(d, _, _) := do_copy oend (fun s => let* s := COPY16 s in COPY16 s) (d, op + 16, ptr_add ip 16) in Ok d in
  match ovtype with
  | ZSTD_no_overlap => long
  | ZSTD_overlap_src_before_dst =>
      let* diff := ptr_diff op ip in
      if diff <? WILDCOPY_VECLEN then let* '(d, _, _) := do_copy oend COPY8 (d, op, ip) in Ok d else long
  end.

(** [*op = *ip]. *)
Definition copy1 (d : list Z) (op : Z) (ip : src_ptr) : result (list Z) :=
  let* x := load d ip 1 in wr d op (zat x 0).
(** [while (op < oend) *op++ = *ip++]. *)
Definition copy_bytes (oend : Z) (d : list Z) (op : Z) (ip : src_ptr) : result (list Z) :=
  let* '(d, _, _) := while_ (Z.to_nat (oend - op)) (fun s : copying => s.1.2 <? oend)
    (fun '(d, op, ip) => let* d := copy1 d op ip in Ok (d, op + 1, ptr_add ip 1)) (d, op, ip) in
  Ok d.

Definition dec32table : list Z := [0; 1; 2; 1; 4; 4; 4; 4].
Definition dec64table : list Z := [8; 8; 8; 7; 8; 9; 10; 11].

Definition ZSTD_overlapCopy8 (d : list Z) (op : Z) (ip : src_ptr) (offset : Z) : result copying :=
  if offset <? 8 then
    let* sub2 := rd dec64table offset in
    let* d := copy1 d (op + 0) (ptr_add ip 0) in
    let* d := copy1 d (op + 1) (ptr_add ip 1) in
    let* d := copy1 d (op + 2) (ptr_add ip 2) in
    let* d := copy1 d (op + 3) (ptr_add ip 3) in
    let* dec32 := rd dec32table offset in
    let ip := ptr_add ip dec32 in
    let* d := ZSTD_copy4 d (op + 4) ip in
    let ip := ptr_add ip (- sub2) in
    Ok (d, op + 8, ptr_add ip 8)
  else
    let* d := ZSTD_copy8 d op ip in
    Ok (d, op + 8, ptr_add ip 8).

Definition ZSTD_safecopy (d : list Z) (op oend_w : Z) (ip : src_ptr) (length : Z) (ovtype : ZSTD_overlap_e) : result (list Z) :=
  let oend := op + length in
  if length <? 8 then copy_bytes oend d op ip
  else
    let* '(d, op, ip, length) :=
      match ovtype with
      | ZSTD_overlap_src_before_dst =>
          let* diff := ptr_diff op ip in
          let* '(d, op, ip) := ZSTD_overlapCopy8 d op ip diff in
          Ok (d, op, ip, length - 8)
      | ZSTD_no_overlap => Ok (d, op, ip, length)
      end in
    if oend <=? oend_w then ZSTD_wildcopy d op ip length ovtype
    else
      let* '(d, op, ip) :=
        (if op <=? oend_w then
           let* d := ZSTD_wildcopy d op ip (oend_w - op) ovtype in
           Ok (d, op + (oend_w - op), ptr_add ip (oend_w - op))
         else Ok (d, op, ip)) in
      copy_bytes oend d op ip.

Definition ZSTD_safecopyDstBeforeSrc (d : list Z) (op : Z) (ip : src_ptr) (length : Z) : result (list Z) :=
  let* diff := ptr_diff op ip in
  let oend := op + length in
  if (length <? 8) || (diff >? -8) then copy_bytes oend d op ip
  else
    let* '(d, op, ip) :=
      (if (op <=? oend - WILDCOPY_OVERLENGTH) && (diff <? - WILDCOPY_VECLEN) then
         let n := oend - WILDCOPY_OVERLENGTH - op in
         let* d := ZSTD_wildcopy d op ip n ZSTD_no_overlap in
         Ok (d, op + n, ptr_add ip n)
       else Ok (d, op, ip)) in
    copy_bytes oend d op ip.

(** *** What a copy does *)

Definition ptr_at (d : list Z) (p : src_ptr) (j : Z) : Z :=
  match p with In_dst i => zat d (i + j) | In_buf b i => zat b (i + j) end.
Definition ptr_bytes (p : src_ptr) : Prop := match p with In_dst _ => True | In_buf b _ => bytes_ok b end.

(** The two ways of copying: onto what follows the source, where a source that
    reaches into the destination is repeated, and onto what precedes it. *)
Inductive direction := Forward | Backward.

(** [d'] is [d] after a copy of [n] bytes; [w] bytes may have been written. *)
Definition copied (k : direction) (d d' : list Z) (op : Z) (p : src_ptr) (n w : Z) : Prop :=
  zlen d' = zlen d /\ (bytes_ok d -> ptr_bytes p -> bytes_ok d') /\
  (forall i, 0 <= i < op \/ op + w <= i -> zat d' i = zat d i) /\
  (forall j, 0 <= j < n -> zat d' (op + j) = ptr_at (match k with Forward => d' | Backward => d end) p j).

(** [n] bytes can be read at [p] and written at [op], and within the destination
    they are at least [gap] bytes apart. *)
Definition can_copy (k : direction) (gap : Z) (d : list Z) (op : Z) (p : src_ptr) (n : Z) : Prop :=
  0 <= op /\ op + n <= zlen d /\
  match p with
  | In_dst i => 0 <= i /\ match k with Forward => i + gap <= op | Backward => op + gap <= i /\ i + n <= zlen d end
  | In_buf b i => 0 <= i /\ i + n <= zlen b
  end.

(** ** Lemmas *)

Lemma ptr_add_add p a b : ptr_add (ptr_add p a) b = ptr_add p (a + b).
Proof. destruct p; cbn; by rewrite Z.add_assoc. Qed.
Lemma ptr_add_0 p : ptr_add p 0 = p.
Proof. destruct p; cbn; by rewrite Z.add_0_r. Qed.
Lemma ptr_at_add d p a j : ptr_at d (ptr_add p a) j = ptr_at d p (a + j).
Proof. destruct p; cbn; f_equal; lia. Qed.
Lemma ptr_bytes_add p a : ptr_bytes (ptr_add p a) = ptr_bytes p.
Proof. by destruct p. Qed.

Lemma can_copy_le k g g' d op p n n' : can_copy k g d op p n -> 0 <= g' <= g -> n' <= n -> can_copy k g' d op p n'.
Proof. unfold can_copy. destruct p, k; intuition lia. Qed.

Lemma can_copy_add k g d d' op p a n :
  can_copy k g d op p (a + n) -> zlen d' = zlen d -> 0 <= a -> can_copy k g d' (op + a) (ptr_add p a) n.
Proof. unfold can_copy. intros H E Ha. rewrite E. destruct p, k; cbn; intuition lia. Qed.

Lemma copied_le k d d' op p n w n' w' : copied k d d' op p n w -> n' <= n -> w <= w' -> copied k d d' op p n' w'.
Proof. intros (H1 & H2 & H3 & H4) Hn Hw. split_and!; [done|done| |]; intros; [apply H3|apply H4]; lia. Qed.

(** Two copies in a row. *)
Lemma copied_app k g d d1 d2 op p a w1 n w :
  copied k d d1 op p a w1 -> copied k d1 d2 (op + a) (ptr_add p a) n w ->
  can_copy k g d op p 0 -> 0 <= g -> 0 <= a -> 0 <= n -> w1 <= a + w -> (k = Backward -> w1 <= a + g) ->
  copied k d d2 op p (a + n) (a + w).
Proof.
  intros (H1 & H2 & H3 & H4) (H5 & H6 & H7 & H8) (Ho & _ & Hp) Hg Ha Hn Hw Hb. rewrite ptr_bytes_add in H6. split_and!.
  - congruence.
  - auto.
  - intros i Hi. rewrite H7 by lia. apply H3. lia.
  - intros j Hj. destruct (Z.lt_ge_cases j a).
    + rewrite H7, H4 by lia. destruct p as [i|b i]; [|by destruct k]. destruct k; [|done]. cbn. symmetry. apply H7. lia.
    + replace (op + j) with (op + a + (j - a)) by lia. rewrite H8, ptr_at_add by lia.
      replace (a + (j - a)) with j by lia. destruct p as [i|b i]; [|by destruct k]. destruct k; [done|]. cbn. apply H3. specialize (Hb eq_refl). lia.
Qed.

Lemma copied_0 k d op p : copied k d d op p 0 0.
Proof. split_and!; try done. lia. Qed.

Section copies.
Context (k : direction).

Lemma memmove_ok g d op p n :
  0 <= n -> 0 <= g -> (k = Forward -> n <= g) -> can_copy k g d op p n ->
  wp (memmove d op p n) (fun d' => copied k d d' op p n n) no_errors.
Proof.
  intros Hn Hg Hk (Ho & Hon & Hp). unfold memmove, load. set (s := match p with In_dst i => (d, i) | In_buf b i => (b, i) end).
  assert (0 <= s.2 /\ s.2 + n <= zlen s.1) as [Hs1 Hs2] by (unfold s; destruct p, k; cbn; try specialize (Hk eq_refl); lia).
  rewrite (surjective_pairing s), (proj2 (Z.leb_le 0 _)), (proj2 (Z.leb_le (_ + n) _)) by lia. cbn [andb bind].
  assert (zlen (zsub s.1 s.2 n) = n) as El by (apply zlen_zsub; lia).
  apply wp_memcpy_at; [lia|lia|]. split_and!.
  - apply zlen_zpatch; lia.
  - intros Hd Hb. apply bytes_ok_zpatch; [done|]. apply bytes_ok_zsub. unfold s. by destruct p.
  - intros i Hi. rewrite zat_zpatch by lia. case_if; [lia|done].
  - intros j Hj. rewrite zat_zpatch by lia. case_if; [|lia]. rewrite zat_zsub by lia.
    replace (s.2 + (op + j - op)) with (s.2 + j) by lia. unfold s. destruct p as [i|b i], k; cbn in *; try done.
    specialize (Hk eq_refl). rewrite zat_zpatch by lia. case_if; [lia|done].
Qed.

(** A step copies [n] bytes and moves both pointers past them. *)
Definition steps (body : copying -> result copying) (gap n : Z) : Prop :=
  forall d op p, can_copy k gap d op p n ->
  wp (body (d, op, p)) (fun '(d', op', p') => copied k d d' op p n n /\ op' = op + n /\ p' = ptr_add p n) no_errors.

Lemma while_copy_ok body gap n oend fuel d op p :
  steps body gap n -> 0 <= gap -> 1 <= n -> oend - op <= Z.of_nat fuel -> op <= oend -> can_copy k gap d op p (oend - op + n - 1) ->
  wp (while_ fuel (fun s => s.1.2 <? oend) body (d, op, p))
    (fun '(d', op', p') => copied k d d' op p (oend - op) (oend - op + n - 1) /\ oend <= op' /\ op' = op + (op' - op) /\ p' = ptr_add p (op' - op)) no_errors.
Proof.
  intros Hbody Hg Hn Hf Ho Hc.
  apply (wp_while (fun '(d1, op1, p1) => exists a, 0 <= a /\ op1 = op + a /\ op1 <= oend + n - 1 /\ p1 = ptr_add p a /\ copied k d d1 op p a a)
    (fun s => oend - s.1.2)); cbn [fst snd]; [|done| |].
  - exists 0. rewrite ptr_add_0, Z.add_0_r. split_and!; try done; try lia. apply copied_0.
  - intros [[d1 op1] p1] (a & Ha & -> & Hle & -> & Hcp) Hlt. cbn [fst snd] in *. apply Z.ltb_lt in Hlt. split; [lia|].
    eapply wp_mono; [apply Hbody|intros [[d2 op2] p2] (Hcp2 & -> & ->)|done].
    + destruct Hcp as (El & _). eapply can_copy_add; [|exact El|lia]. eapply can_copy_le; [exact Hc|lia|lia].
    + cbn [fst snd]. split; [|lia]. exists (a + n). rewrite ptr_add_add. split_and!; try done; try lia.
      eapply (copied_app k 0); [exact Hcp|exact Hcp2|eapply can_copy_le; [exact Hc|lia|lia]|lia..].
  - intros [[d1 op1] p1] (a & Ha & -> & Hle & -> & Hcp) Hge. cbn [fst snd] in *. apply Z.ltb_ge in Hge.
    replace (op + a - op) with a by lia. split_and!; [eapply copied_le; [exact Hcp|lia|lia]|lia|lia|done].
Qed.

Lemma do_copy_ok body gap n oend d op p :
  steps body gap n -> 0 <= gap -> 1 <= n -> can_copy k gap d op p (Z.max n (oend - op + n - 1)) ->
  wp (do_copy oend body (d, op, p)) (fun '(d', _, _) => copied k d d' op p (Z.max n (oend - op)) (Z.max n (oend - op + n - 1))) no_errors.
Proof.
  intros Hbody Hg Hn Hc. unfold do_copy. apply wp_bind.
  eapply wp_mono; [apply Hbody; eapply can_copy_le; [exact Hc|lia|lia]|intros [[d1 op1] p1] (Hcp & -> & ->)|done]. cbn [fst snd].
  destruct (Z.le_gt_cases oend (op + n)).
  - replace (while_ _ _ _ _) with (Ok (d1, op + n, ptr_add p n)).
    + apply wp_Ok. eapply copied_le; [exact Hcp|lia|lia].
    + symmetry. destruct (Z.to_nat _); cbn; by rewrite (proj2 (Z.ltb_ge _ _)) by lia.
  - eapply wp_mono; [apply (while_copy_ok body gap n)|intros [[d2 op2] p2] (Hcp2 & _)|done]; try done; try lia.
    + destruct Hcp as (El & _). eapply can_copy_add; [|exact El|lia]. eapply can_copy_le; [exact Hc|lia|lia].
    + eapply copied_le; [eapply (copied_app k 0); [exact Hcp|exact Hcp2|eapply can_copy_le; [exact Hc|lia|lia]|lia..]|lia|lia].
Qed.

Lemma COPY16_steps : steps COPY16 16 16.
Proof.
  intros d op p Hc. unfold COPY16, ZSTD_copy16. apply wp_bind.
  eapply wp_mono; [by apply (memmove_ok 16)|intros d' Hcp; by apply wp_Ok|done].
Qed.

Lemma COPY16_twice : steps (fun s => let* s := COPY16 s in COPY16 s) 16 32.
Proof.
  intros d op p Hc. apply wp_bind. eapply wp_mono; [apply COPY16_steps; eapply can_copy_le; [exact Hc|lia|lia]| |done].
  intros [[d1 op1] p1] (Hcp & -> & ->). pose proof Hcp as (El & _).
  eapply wp_mono; [apply COPY16_steps; eapply can_copy_add; [eapply can_copy_le; [exact Hc|lia|lia]|exact El|lia]| |done].
  intros [[d2 op2] p2] (Hcp2 & -> & ->). rewrite ptr_add_add, <- Z.add_assoc. split; [|done].
  change 32 with (16 + 16). eapply (copied_app k 0); [exact Hcp|exact Hcp2|eapply can_copy_le; [exact Hc|lia|lia]|lia..].
Qed.

Lemma wildcopy_no_overlap d op p n :
  0 <= n -> can_copy k 16 d op p (n + 32) ->
  wp (ZSTD_wildcopy d op p n ZSTD_no_overlap) (fun d' => copied k d d' op p n (n + 32)) no_errors.
Proof.
  intros Hn Hc. cbn [ZSTD_wildcopy]. apply wp_bind. unfold ZSTD_copy16.
  eapply wp_mono; [apply (memmove_ok 16); [lia|lia|lia|]; eapply can_copy_le; [exact Hc|lia|lia]|intros d1 Hcp|done].
  apply wp_if; intros Hif; bools; [apply wp_Ok; eapply copied_le; [exact Hcp|lia|lia]|]. apply wp_bind. pose proof Hcp as (El & _).
  eapply wp_mono; [apply (do_copy_ok _ 16 32); [apply COPY16_twice|lia|lia|]| |done].
  - eapply can_copy_add; [eapply can_copy_le; [exact Hc|lia|lia]|exact El|lia].
  - intros [[d2 op2] p2] Hcp2. apply wp_Ok.
    eapply copied_le; [eapply (copied_app k 0); [exact Hcp|exact Hcp2|eapply can_copy_le; [exact Hc|lia|lia]|lia..]|lia|lia].
Qed.

Lemma copy1_ok gap d op p :
  0 <= gap -> (k = Forward -> 1 <= gap) -> can_copy k gap d op p 1 -> wp (copy1 d op p) (fun d' => copied k d d' op p 1 1) no_errors.
Proof.
  intros Hg0 Hg Hc. assert (wp (memmove d op p 1) (fun d' => copied k d d' op p 1 1) no_errors) as Hm.
  { by apply (memmove_ok gap); [lia| |destruct k; [auto|]|]. }
  unfold copy1, memmove in *. destruct (load d p 1) as [x| |] eqn:E; cbn [bind] in *; [|done|done].
  assert (zlen x = 1) as Ex.
  { unfold load in E. destruct p as [i|b i]; cbn in E; destruct ((0 <=? i) && _) eqn:Hb in E; simplify_eq; bools; apply zlen_zsub; lia. }
  destruct x as [|v [|]]; try (unfold zlen in Ex; cbn in Ex; lia). unfold memcpy_at in Hm. unfold wr.
  destruct Hc as (Hop & Hlen & _). rewrite (proj2 (Z.leb_le 0 _)) in * by lia.
  rewrite (proj2 (Z.leb_le (op + _) _)) in Hm by lia. rewrite (proj2 (Z.ltb_lt op _)) by lia.
  cbn [andb wp] in *. replace (zupd d op (zat [v] 0)) with (zpatch d op [v]); [exact Hm|].
  apply zat_ext; [rewrite zlen_zupd, zlen_zpatch; lia|]. intros j Hj. rewrite zlen_zpatch in Hj by lia. rewrite zat_zpatch, zat_zupd by lia.
  rewrite Ex. destruct (Z.eqb_spec j op) as [->|]; case_if; try lia; try done. by rewrite Z.sub_diag.
Qed.

Lemma copy_bytes_ok gap d op p oend :
  0 <= gap -> (k = Forward -> 1 <= gap) -> op <= oend -> can_copy k gap d op p (oend - op) ->
  wp (copy_bytes oend d op p) (fun d' => copied k d d' op p (oend - op) (oend - op)) no_errors.
Proof.
  intros Hg0 Hg Ho Hc. unfold copy_bytes. apply wp_bind.
  eapply wp_mono; [apply (while_copy_ok _ gap 1)|intros [[d1 op1] p1] (Hcp & _)|done]; try lia.
  - intros d1 op1 p1 Hc1. apply wp_bind. eapply wp_mono; [by apply (copy1_ok gap)|intros d2 Hcp; apply wp_Ok; split; [exact Hcp|done]|done].
  - eapply can_copy_le; [exact Hc|lia|lia].
  - apply wp_Ok. eapply copied_le; [exact Hcp|lia|lia].
Qed.

End copies.

(** *** Overlapping copies *)

Lemma memcpy_ok d op p n :
  0 <= n -> can_copy Forward n d op p n -> wp (memcpy d op p n) (fun d' => copied Forward d d' op p n n) no_errors.
Proof.
  intros Hn Hc. apply wp_defined_if; [|by apply (memmove_ok Forward n)].
  destruct p as [i|b i]; [|done]. destruct Hc as (_ & _ & _ & H). by rewrite (proj2 (Z.leb_le _ _)).
Qed.

Lemma COPY8_steps : steps Forward COPY8 8 8.
Proof.
  intros d op p Hc. unfold COPY8, ZSTD_copy8. apply wp_bind.
  eapply wp_mono; [by apply memcpy_ok|intros d' Hcp; by apply wp_Ok|done].
Qed.

Lemma wildcopy_overlap d op i n :
  0 <= n -> can_copy Forward 8 d op (In_dst i) (n + 32) ->
  wp (ZSTD_wildcopy d op (In_dst i) n ZSTD_overlap_src_before_dst) (fun d' => copied Forward d d' op (In_dst i) n (n + 32)) no_errors.
Proof.
  intros Hn Hc. cbn [ZSTD_wildcopy ptr_diff bind]. apply wp_if; intros Hif; unfold WILDCOPY_VECLEN in Hif; bools.
  - apply wp_bind. eapply wp_mono; [apply (do_copy_ok Forward _ 8 8); [apply COPY8_steps|lia|lia|]| |done].
    + eapply can_copy_le; [exact Hc|lia|lia].
    + intros [[d1 op1] p1] Hcp. apply wp_Ok. eapply copied_le; [exact Hcp|lia|lia].
  - apply (wildcopy_no_overlap Forward); [done|]. destruct Hc as (? & ? & ? & ?). split_and!; cbn in *; lia.
Qed.

(** A run that repeats at distance [m * off], once it is long enough, repeats at
    distance [off]. *)
Lemma repeat_period (d : list Z) op off m n :
  1 <= off -> 1 <= m -> m * off <= off + 7 ->
  (forall j, 0 <= j < 8 -> zat d (op + j) = zat d (op + j - off)) ->
  (forall j, 0 <= j < n -> zat d (op + 8 + j) = zat d (op + 8 + j - m * off)) ->
  forall j, 0 <= j < 8 + n -> zat d (op + j) = zat d (op + j - off).
Proof.
  intros Ho Hm HD H0 H1 j. induction (Z.lt_wf 0 j) as [j _ IH]. intros Hj.
  destruct (Z.lt_ge_cases j 8); [apply H0; lia|]. replace j with (8 + (j - 8)) at 1 by lia.
  rewrite Z.add_assoc, H1 by lia. replace (op + 8 + (j - 8) - m * off) with (op + j - m * off) by lia.
  assert (forall a, 0 <= a -> a + 1 <= m -> zat d (op + j - (a + 1) * off) = zat d (op + j - off)) as Hch.
  { apply (natlike_ind (fun a => a + 1 <= m -> zat d (op + j - (a + 1) * off) = zat d (op + j - off))); [intros; f_equal; lia|]. intros a Ha IHa Hle. rewrite <- IHa by lia.
    replace (op + j - (Z.succ a + 1) * off) with (op + (j - (a + 1) * off) - off) by lia.
    replace (op + j - (a + 1) * off) with (op + (j - (a + 1) * off)) by lia. symmetry. apply IH; nia. }
  replace m with (m - 1 + 1) by lia. apply Hch; lia.
Qed.

Lemma copied_4 k d d1 d2 op p a : copied k d d1 op p a a -> copied k d1 d2 (op + a) (ptr_add p a) 1 1 ->
  can_copy k 0 d op p 0 -> 0 <= a -> copied k d d2 op p (a + 1) (a + 1).
Proof. intros H1 H2 Hc Ha. eapply (copied_app k 0); [exact H1|exact H2|exact Hc|lia..]. Qed.

(** The first four bytes, one by one. *)
Lemma copy1_4_ok {A} d op i (f : list Z -> result A) Q :
  can_copy Forward 1 d op (In_dst i) 4 ->
  (forall d4, copied Forward d d4 op (In_dst i) 4 4 -> wp (f d4) Q no_errors) ->
  wp (let* d := copy1 d (op + 0) (ptr_add (In_dst i) 0) in let* d := copy1 d (op + 1) (ptr_add (In_dst i) 1) in
      let* d := copy1 d (op + 2) (ptr_add (In_dst i) 2) in let* d := copy1 d (op + 3) (ptr_add (In_dst i) 3) in f d) Q no_errors.
Proof.
  intros Hc Hf.
  assert (forall a d0 (g : list Z -> result A), 0 <= a -> a < 4 -> copied Forward d d0 op (In_dst i) a a ->
    (forall d1, copied Forward d d1 op (In_dst i) (a + 1) (a + 1) -> wp (g d1) Q no_errors) ->
    wp (let* d := copy1 d0 (op + a) (ptr_add (In_dst i) a) in g d) Q no_errors) as Hstep.
  { intros a d0 g Ha Ha4 Hcp Hg. apply wp_bind. eapply wp_mono; [apply (copy1_ok Forward 1); [lia|lia|]| |done].
    - destruct Hcp as (El & _). eapply can_copy_add; [eapply can_copy_le; [exact Hc|lia|lia]|exact El|lia].
    - intros d1 Hcp1. apply Hg. eapply copied_4; [exact Hcp|exact Hcp1| |lia]. eapply can_copy_le; [exact Hc|lia|lia]. }
  apply Hstep; [lia|lia|apply copied_0|intros d1 H1]. apply Hstep; [lia|lia|exact H1|intros d2 H2].
  apply Hstep; [lia|lia|exact H2|intros d3 H3]. apply Hstep; [lia|lia|exact H3|]. exact Hf.
Qed.

(** The tables keep the period of a copy at a distance of less than 8. *)
Lemma overlap_tables off :
  1 <= off < 8 -> exists m dec sub, zat dec32table off = dec /\ zat dec64table off = sub /\ 0 <= dec <= off /\ 1 <= m /\
    dec - sub = off - m * off /\ 8 <= m * off <= off + 7 /\
    forall g : Z -> Z, (forall t, 0 <= t < 4 -> g t = g (t - off)) -> (forall t, 0 <= t < 4 -> g (4 + t) = g (dec + t - off)) ->
      forall t, 4 <= t < 8 -> g t = g (t - off).
Proof.
  intros Ho. exists (zat [0; 8; 4; 3; 2; 2; 2; 2] off). eexists _, _. split; [reflexivity|]. split; [reflexivity|].
  assert (off = 1 \/ off = 2 \/ off = 3 \/ off = 4 \/ off = 5 \/ off = 6 \/ off = 7) as [->|[->|[->|[->|[->|[->| ->]]]]]] by lia;
    (split; [vm_compute; split; discriminate|]; split; [vm_compute; discriminate|]; split; [reflexivity|];
     split; [vm_compute; split; discriminate|]; intros g H1 H2 t Ht;
     match type of H2 with context [zat dec32table ?k] => let v := eval vm_compute in (zat dec32table k) in change (zat dec32table k) with v in H2 end;
     pose proof (H1 0 ltac:(lia)); pose proof (H1 1 ltac:(lia)); pose proof (H1 2 ltac:(lia)); pose proof (H1 3 ltac:(lia));
     pose proof (H2 0 ltac:(lia)); pose proof (H2 1 ltac:(lia)); pose proof (H2 2 ltac:(lia)); pose proof (H2 3 ltac:(lia)); clear H1 H2;
     assert (t = 4 \/ t = 5 \/ t = 6 \/ t = 7) as [->|[->|[->| ->]]] by lia; vm_compute in *; congruence).
Qed.

Lemma overlapCopy8_ok d op i :
  can_copy Forward 1 d op (In_dst i) 8 ->
  wp (ZSTD_overlapCopy8 d op (In_dst i) (op - i)) (fun '(d', op', p') =>
    copied Forward d d' op (In_dst i) 8 8 /\ op' = op + 8 /\
    exists m, p' = In_dst (op' - m * (op - i)) /\ 1 <= m /\ 8 <= m * (op - i) <= op - i + 7) no_errors.
Proof.
  intros Hc. pose proof Hc as (H0 & H1 & H2 & H3). set (off := op - i) in *. unfold ZSTD_overlapCopy8.
  apply wp_if; intros Hif; bools.
  - destruct (overlap_tables off ltac:(lia)) as (m & dec & sub & E1 & E2 & Hd & Hm & Hds & HD & Hpat).
    apply wp_bind, wp_rd; [change (zlen dec64table) with 8; lia|]. apply copy1_4_ok; [eapply can_copy_le; [exact Hc|lia|lia]|].
    intros d4 Hcp. pose proof Hcp as (El & _). apply wp_bind, wp_rd; [change (zlen dec32table) with 8; lia|]. rewrite E1, E2.
    apply wp_bind. eapply wp_mono; [apply memcpy_ok; [lia|]|intros d5 Hcp5|done].
    { split_and!; cbn; lia. }
    apply wp_Ok. rewrite !ptr_add_add. split; [|split; [done|exists m; cbn; split_and!; [f_equal; lia|lia..]]].
    destruct Hcp as (_ & Hb & Ho & Hv), Hcp5 as (El5 & Hb5 & Ho5 & Hv5). split_and!; [congruence|auto| |].
    + intros j Hj. rewrite Ho5 by lia. apply Ho. lia.
    + assert (forall t, 0 <= t < 4 -> zat d5 (op + t) = zat d5 (op + (t - off))) as Hlow.
      { intros t Ht. rewrite Ho5, (Ho5 (op + (t - off))) by lia. rewrite Hv by lia. cbn. f_equal. lia. }
      intros j Hj. cbn. replace (i + j) with (op + (j - off)) by lia. destruct (Z.lt_ge_cases j 4); [apply Hlow; lia|].
      apply (Hpat (fun t => zat d5 (op + t))); [done| |lia]. intros t Ht. cbn in Hv5. rewrite Z.add_assoc, Hv5 by lia. f_equal. lia.
  - apply wp_bind. eapply wp_mono; [apply memcpy_ok; [lia|]; split_and!; cbn; lia|intros d1 Hcp|done].
    apply wp_Ok. split; [done|]. split; [done|]. exists 1. cbn. split_and!; [f_equal; lia|lia..].
Qed.

Lemma copied_spread d d1 d2 op i m n w :
  copied Forward d d1 op (In_dst i) 8 8 -> copied Forward d1 d2 (op + 8) (In_dst (op + 8 - m * (op - i))) n w ->
  1 <= m -> m * (op - i) <= op - i + 7 -> 0 <= i < op -> 0 <= n -> 0 <= w -> copied Forward d d2 op (In_dst i) (8 + n) (8 + w).
Proof.
  intros (H1 & H2 & H3 & H4) (H5 & H6 & H7 & H8) Hm HD Hi Hn Hw. split_and!; [congruence|auto| |].
  - intros j Hj. rewrite H7 by lia. apply H3. lia.
  - intros j Hj. cbn. replace (i + j) with (op + j - (op - i)) by lia. apply (repeat_period d2 op (op - i) m n); [lia|lia|done| | |done].
    + intros t Ht. rewrite H7, (H7 (op + t - (op - i))) by lia. rewrite H4 by lia. cbn. f_equal. lia.
    + intros t Ht. rewrite H8 by lia. cbn. f_equal. lia.
Qed.

(** The end of [ZSTD_safecopy]. *)
Lemma safecopy_tail g ov d op oend_w p len :
  1 <= g -> 0 <= len -> can_copy Forward g d op p 0 -> op + len <= zlen d -> oend_w + 32 <= zlen d ->
  match p with In_buf b i => i + len + 32 <= zlen b | _ => True end ->
  (forall n, 0 <= n -> can_copy Forward g d op p (n + 32) -> wp (ZSTD_wildcopy d op p n ov) (fun d' => copied Forward d d' op p n (n + 32)) no_errors) ->
  wp (if op + len <=? oend_w then ZSTD_wildcopy d op p len ov
      else
        let* '(d, op', ip) :=
          (if op <=? oend_w then
             let* d := ZSTD_wildcopy d op p (oend_w - op) ov in
             Ok (d, op + (oend_w - op), ptr_add p (oend_w - op))
           else Ok (d, op, p)) in
        copy_bytes (op + len) d op' ip) (fun d' => copied Forward d d' op p len (Z.max len (oend_w + 32 - op))) no_errors.
Proof.
  intros Hg Hl Hc Hd Hw Hp Hwild.
  assert (forall n, n + op <= zlen d -> n <= len + 32 -> can_copy Forward g d op p n) as Hcan.
  { intros n H1 H2. unfold can_copy in *. destruct p; intuition lia. }
  apply wp_if; intros Hif; bools.
  - eapply wp_mono; [apply Hwild; [lia|apply Hcan; lia]|intros d1 Hcp|done]. eapply copied_le; [exact Hcp|lia|lia].
  - apply wp_bind. case_if.
    + apply wp_bind. eapply wp_mono; [apply Hwild; [lia|apply Hcan; lia]|intros d1 Hcp|done]. apply wp_Ok. pose proof Hcp as (El & _).
      eapply wp_mono; [apply (copy_bytes_ok Forward g); [lia|done|lia|]|intros d2 Hcp2|done].
      * eapply can_copy_add; [apply Hcan; lia|exact El|lia].
      * eapply copied_le; [eapply (copied_app Forward g); [exact Hcp|eapply (copied_le _ _ _ _ _ _ _ _ (Z.max (op + len - oend_w) 32)); [exact Hcp2|reflexivity|lia]|done|lia|lia|lia|lia|done]|lia|lia].
    + apply wp_Ok. eapply wp_mono; [apply (copy_bytes_ok Forward g); [lia|done|lia|apply Hcan; lia]|intros d2 Hcp2|done].
      eapply copied_le; [exact Hcp2|lia|lia].
Qed.

Lemma safecopy_lit d op oend_w b i len :
  0 <= op -> 0 <= len -> op + len <= zlen d -> oend_w + 32 <= zlen d -> 0 <= i -> i + len + 32 <= zlen b ->
  wp (ZSTD_safecopy d op oend_w (In_buf b i) len ZSTD_no_overlap)
    (fun d' => copied Forward d d' op (In_buf b i) len (Z.max len (oend_w + 32 - op))) no_errors.
Proof.
  intros Ho Hl Hd Hw Hi Hb. unfold ZSTD_safecopy. apply wp_if; intros Hif; bools.
  - eapply wp_mono; [apply (copy_bytes_ok Forward 1); [lia|done|lia|split_and!; cbn; lia]|intros d1 Hcp|done].
    eapply copied_le; [exact Hcp|lia|lia].
  - cbn [bind]. apply (safecopy_tail 16); try done; [split_and!; cbn; lia|]. intros n Hn Hc. by apply (wildcopy_no_overlap Forward).
Qed.

(** From a source after all that is written. *)
Lemma safecopy_after d op oend_w i len :
  0 <= op -> 0 <= len -> op + len <= i -> oend_w + 32 <= i -> i + len + 32 <= zlen d ->
  wp (ZSTD_safecopy d op oend_w (In_dst i) len ZSTD_no_overlap)
    (fun d' => copied Backward d d' op (In_dst i) len (Z.max len (oend_w + 32 - op))) no_errors.
Proof.
  intros Ho Hl Hi Hw Hb. unfold ZSTD_safecopy.
  assert (forall n, n <= len + 32 -> can_copy Backward (i - op) d op (In_dst i) n) as Hc by (intros; split_and!; cbn; lia).
  assert (wp (copy_bytes (op + len) d op (In_dst i)) (fun d' => copied Backward d d' op (In_dst i) len (Z.max len (oend_w + 32 - op))) no_errors) as Hbytes.
  { eapply wp_mono; [apply (copy_bytes_ok Backward (i - op)); [lia|done|lia|apply Hc; lia]|intros d1 Hcp|done]. eapply copied_le; [exact Hcp|lia|lia]. }
  apply wp_if; intros Hif; bools; [exact Hbytes|]. cbn [bind]. apply wp_if; intros Hif2; bools.
  - eapply wp_mono; [apply (wildcopy_no_overlap Backward); [lia|apply (can_copy_le _ (i - op) 16 _ _ _ (len + 32)); [apply Hc; lia|lia|lia]]|intros d1 Hcp|done].
    eapply copied_le; [exact Hcp|lia|lia].
  - apply wp_bind. case_if; [|by apply wp_Ok]. apply wp_bind.
    eapply wp_mono; [apply (wildcopy_no_overlap Backward); [lia|apply (can_copy_le _ (i - op) 16 _ _ _ (len + 32)); [apply Hc; lia|lia|lia]]|intros d1 Hcp|done].
    apply wp_Ok. pose proof Hcp as (El & _).
    eapply wp_mono; [apply (copy_bytes_ok Backward (i - op)); [lia|done|lia|]|intros d2 Hcp2|done].
    + eapply can_copy_add; [apply Hc; lia|exact El|lia].
    + eapply copied_le; [eapply (copied_app Backward (i - op)); [exact Hcp|eapply (copied_le _ _ _ _ _ _ _ _ (Z.max (op + len - oend_w) 32)); [exact Hcp2|reflexivity|lia]|apply Hc; lia|lia|lia|lia|lia|intros _; lia]|lia|lia].
Qed.

Lemma safecopy_match d op oend_w i len :
  0 <= i < op -> 0 <= len -> op + len <= zlen d -> oend_w + 32 <= zlen d ->
  wp (ZSTD_safecopy d op oend_w (In_dst i) len ZSTD_overlap_src_before_dst)
    (fun d' => copied Forward d d' op (In_dst i) len (Z.max len (oend_w + 32 - op))) no_errors.
Proof.
  intros Hi Hl Hd Hw. unfold ZSTD_safecopy. apply wp_if; intros Hif; bools.
  - eapply wp_mono; [apply (copy_bytes_ok Forward 1); [lia|done|lia|split_and!; cbn; lia]|intros d1 Hcp|done].
    eapply copied_le; [exact Hcp|lia|lia].
  - cbn [ptr_diff bind]. apply wp_bind, wp_bind. eapply wp_mono; [apply overlapCopy8_ok; split_and!; cbn; lia| |done].
    intros [[d1 op1] p1] (Hcp & -> & m & -> & Hm & HD). apply wp_Ok. pose proof Hcp as (El & _).
    replace (op + len) with (op + 8 + (len - 8)) by lia.
    eapply wp_mono; [apply (safecopy_tail 8); [lia|lia|split_and!; cbn; lia|lia|lia|done|]|intros d2 Hcp2|done].
    + intros n Hn Hc. by apply wildcopy_overlap.
    + eapply copied_le; [eapply copied_spread; [exact Hcp|exact Hcp2|lia..]|lia|lia].
Qed.

(** With less than 17 or at least 32 bytes between the areas. *)
Lemma safecopyDstBeforeSrc_ok d op i len :
  0 <= op <= i -> 0 <= len -> i + len <= zlen d -> i - op <= 16 \/ 32 <= i - op ->
  wp (ZSTD_safecopyDstBeforeSrc d op (In_dst i) len) (fun d' => copied Backward d d' op (In_dst i) len len) no_errors.
Proof.
  intros Ho Hl Hd Hgap. unfold ZSTD_safecopyDstBeforeSrc. cbn [ptr_diff bind]. unfold WILDCOPY_OVERLENGTH, WILDCOPY_VECLEN.
  assert (forall n, n <= len -> can_copy Backward (i - op) d op (In_dst i) n) as Hc by (intros; split_and!; cbn; lia).
  assert (wp (copy_bytes (op + len) d op (In_dst i)) (fun d' => copied Backward d d' op (In_dst i) len len) no_errors) as Hbytes.
  { eapply wp_mono; [apply (copy_bytes_ok Backward (i - op)); [lia|done|lia|apply Hc; lia]|intros d1 Hcp|done]. eapply copied_le; [exact Hcp|lia|lia]. }
  apply wp_if; intros Hif; [done|]. apply wp_bind. case_if; [|by apply wp_Ok].
  apply wp_bind. eapply wp_mono; [apply (wildcopy_no_overlap Backward); [lia|apply (can_copy_le _ (i - op) 16 _ _ _ len); [apply Hc; lia|lia|lia]]|intros d1 Hcp|done].
  apply wp_Ok. pose proof Hcp as (El & _). set (n := op + len - 32 - op) in *.
  eapply wp_mono; [apply (copy_bytes_ok Backward (i - op)); [lia|done|lia|]|intros d2 Hcp2|done].
  - eapply can_copy_add; [apply Hc; lia|exact El|lia].
  - eapply copied_le; [eapply (copied_app Backward (i - op)); [exact Hcp|exact Hcp2|apply Hc; lia|lia|lia|lia|lia|intros _; lia]|lia|lia].
Qed.
