(* ===== verification/ExecSequence.v ===== *)
(** The execution of a sequence (decompress/zstd_decompress_block.c): its literals
    and its match are copied to the output. *)

From S2P Require Import Prelude Errors Outcome Mem LzCopy.

(** ** Definitions *)

Record seq_t := mkSeq {
  litLength : Z;
  matchLength : Z;
  offset : Z;
}.

(** The index of a pointer in its buffer. *)
Definition ptr_ix (p : src_ptr) : Z := match p with In_dst i => i | In_buf _ i => i end.

(** "offset beyond prefix": a match that begins in the previous segment, which ends at
    [dictEnd]. What is left to copy of it, from the start of the prefix, if it
    does not end there. *)
Definition exec_extDict (d : list Z) (oLitEnd : Z) (sequence : seq_t) (prefixStart virtualStart : Z) (dictEnd : src_ptr)
  : result (list Z + list Z * Z * Z * Z) :=
  let match_ := oLitEnd - offset sequence in
  if offset sequence >? u64 (oLitEnd - prefixStart) then
    ERROR_IF offset sequence >? u64 (oLitEnd - virtualStart) THEN corruption_detected ;;
    let m := ptr_add dictEnd (match_ - prefixStart) in
    if ptr_ix m + matchLength sequence <=? ptr_ix dictEnd then
      let* d := memmove d oLitEnd m (matchLength sequence) in
      Ok (inl d)
    else
      (* span extDict & currentPrefixSegment *)
      let length1 := ptr_ix dictEnd - ptr_ix m in
      let* d := memmove d oLitEnd m length1 in
      Ok (inr (d, oLitEnd + length1, u64 (matchLength sequence - length1), prefixStart))
  else Ok (inr (d, oLitEnd, matchLength sequence, match_)).

(** The functions return the size of the sequence, the output and the advanced
    [*litPtr]. [litLimit] is an index of the buffer of the literals. *)
Definition ZSTD_execSequenceEnd (d : list Z) (op oend : Z) (sequence : seq_t) (litPtr : src_ptr) (litLimit : Z)
    (prefixStart virtualStart : Z) (dictEnd : src_ptr) : result (Z * list Z * src_ptr) :=
  let oLitEnd := op + litLength sequence in
  let sequenceLength := u64 (litLength sequence + matchLength sequence) in
  let iLitEnd := ptr_add litPtr (litLength sequence) in
  let oend_w := oend - WILDCOPY_OVERLENGTH in
  ERROR_IF sequenceLength >? u64 (oend - op) THEN dstSize_tooSmall ;;
  ERROR_IF litLength sequence >? u64 (litLimit - ptr_ix litPtr) THEN corruption_detected ;;
  (* copy literals *)
  let* d := ZSTD_safecopy d op oend_w litPtr (litLength sequence) ZSTD_no_overlap in
  (* copy Match *)
  let* r := exec_extDict d oLitEnd sequence prefixStart virtualStart dictEnd in
  match r with
  | inl d => Ok (sequenceLength, d, iLitEnd)
  | inr (d, op, matchLength, match_) =>
      let* d := ZSTD_safecopy d op oend_w (In_dst match_) matchLength ZSTD_overlap_src_before_dst in
      Ok (sequenceLength, d, iLitEnd)
  end.

Definition ZSTD_execSequenceEndSplitLitBuffer (d : list Z) (op oend oend_w : Z) (sequence : seq_t) (litPtr : src_ptr)
    (litLimit : Z) (prefixStart virtualStart : Z) (dictEnd : src_ptr) : result (Z * list Z * src_ptr) :=
  let oLitEnd := op + litLength sequence in
  let sequenceLength := u64 (litLength sequence + matchLength sequence) in
  let iLitEnd := ptr_add litPtr (litLength sequence) in
  ERROR_IF sequenceLength >? u64 (oend - op) THEN dstSize_tooSmall ;;
  ERROR_IF litLength sequence >? u64 (litLimit - ptr_ix litPtr) THEN corruption_detected ;;
  (* copy literals *)
  let* ahead := ptr_diff op litPtr in
  ERROR_IF (ahead >? 0) && (ahead <? litLength sequence) THEN dstSize_tooSmall ;;
  let* d := ZSTD_safecopyDstBeforeSrc d op litPtr (litLength sequence) in
  (* copy Match *)
  let* r := exec_extDict d oLitEnd sequence prefixStart virtualStart dictEnd in
  match r with
  | inl d => Ok (sequenceLength, d, iLitEnd)
  | inr (d, op, matchLength, match_) =>
      let* d := ZSTD_safecopy d op oend_w (In_dst match_) matchLength ZSTD_overlap_src_before_dst in
      Ok (sequenceLength, d, iLitEnd)
  end.

(** What [ZSTD_execSequence] and [ZSTD_execSequenceSplitLitBuffer] do far from the
    end of the output. *)
Definition exec_fast (d : list Z) (op : Z) (sequence : seq_t) (litPtr : src_ptr)
    (prefixStart virtualStart : Z) (dictEnd : src_ptr) : result (Z * list Z * src_ptr) :=
  let oLitEnd := op + litLength sequence in
  let sequenceLength := u64 (litLength sequence + matchLength sequence) in
  let iLitEnd := ptr_add litPtr (litLength sequence) in
  (* Copy Literals *)
  let* d := ZSTD_copy16 d op litPtr in
  let* d := (if litLength sequence >? 16
             then ZSTD_wildcopy d (op + 16) (ptr_add litPtr 16) (litLength sequence - 16) ZSTD_no_overlap
             else Ok d) in
  (* Copy Match *)
  let* r := exec_extDict d oLitEnd sequence prefixStart virtualStart dictEnd in
  match r with
  | inl d => Ok (sequenceLength, d, iLitEnd)
  | inr (d, op, matchLength, match_) =>
      if offset sequence >=? WILDCOPY_VECLEN then
        let* d := ZSTD_wildcopy d op (In_dst match_) matchLength ZSTD_no_overlap in
        Ok (sequenceLength, d, iLitEnd)
      else
        (* Copy 8 bytes and spread the offset to be >= 8. *)
        let* '(d, op, match_) := ZSTD_overlapCopy8 d op (In_dst match_) (offset sequence) in
        let* d := (if matchLength >? 8 then ZSTD_wildcopy d op match_ (matchLength - 8) ZSTD_overlap_src_before_dst
                   else Ok d) in
        Ok (sequenceLength, d, iLitEnd)
  end.

Definition ZSTD_execSequence (d : list Z) (op oend : Z) (sequence : seq_t) (litPtr : src_ptr) (litLimit : Z)
    (prefixStart virtualStart : Z) (dictEnd : src_ptr) : result (Z * list Z * src_ptr) :=
  let sequenceLength := u64 (litLength sequence + matchLength sequence) in
  let oMatchEnd := op + sequenceLength in
  let oend_w := oend - WILDCOPY_OVERLENGTH in
  let iLitEnd := ptr_add litPtr (litLength sequence) in
  if (ptr_ix iLitEnd >? litLimit) || (oMatchEnd >? oend_w) then
    ZSTD_execSequenceEnd d op oend sequence litPtr litLimit prefixStart virtualStart dictEnd
  else exec_fast d op sequence litPtr prefixStart virtualStart dictEnd.

Definition ZSTD_execSequenceSplitLitBuffer (d : list Z) (op oend oend_w : Z) (sequence : seq_t) (litPtr : src_ptr)
    (litLimit : Z) (prefixStart virtualStart : Z) (dictEnd : src_ptr) : result (Z * list Z * src_ptr) :=
  let sequenceLength := u64 (litLength sequence + matchLength sequence) in
  let oMatchEnd := op + sequenceLength in
  let iLitEnd := ptr_add litPtr (litLength sequence) in
  if (ptr_ix iLitEnd >? litLimit) || (oMatchEnd >? oend_w) then
    ZSTD_execSequenceEndSplitLitBuffer d op oend oend_w sequence litPtr litLimit prefixStart virtualStart dictEnd
  else exec_fast d op sequence litPtr prefixStart virtualStart dictEnd.

(** *** What a sequence means *)

(** The byte at index [i] of the history: the prefix, with the dictionary right
    before it. *)
Definition hist_at (prefixStart : Z) (dict d : list Z) (i : Z) : Z :=
  if i <? prefixStart then zat dict (zlen dict + (i - prefixStart)) else zat d i.

(** [d'] is [d] after a sequence: its literals follow [op], then the bytes of the
    match, each equal to the one [offset] before; nothing before [op] or after
    [oend] has changed. *)
Definition seq_executed (d d' : list Z) (op oend : Z) (s : seq_t) (litPtr : src_ptr) (prefixStart : Z) (dict : list Z) : Prop :=
  zlen d' = zlen d /\ (bytes_ok d -> ptr_bytes litPtr -> bytes_ok dict -> bytes_ok d') /\
  (forall i, 0 <= i < op \/ oend <= i -> zat d' i = zat d i) /\
  (forall j, 0 <= j < litLength s -> zat d' (op + j) = ptr_at d litPtr j) /\
  (forall j, 0 <= j < matchLength s ->
     zat d' (op + litLength s + j) = hist_at prefixStart dict d' (op + litLength s + j - offset s)).

(** The same on the history itself: the last [off] bytes, repeated. *)
Fixpoint lz_match (h : list Z) (off : Z) (n : nat) : list Z :=
  match n with
  | O => h
  | S n => lz_match (h ++ [zat h (zlen h - off)]) off n
  end.
Definition lz_sequence (h lits : list Z) (s : seq_t) : list Z :=
  lz_match (h ++ lits) (offset s) (Z.to_nat (matchLength s)).

(** The history before index [op]. *)
Definition history (prefixStart : Z) (dict d : list Z) (op : Z) : list Z := dict ++ zsub d prefixStart (op - prefixStart).

(** The buffer of a pointer and [n] bytes at it. *)
Definition ptr_buf (d : list Z) (p : src_ptr) : list Z := match p with In_dst _ => d | In_buf b _ => b end.
Definition ptr_sub (d : list Z) (p : src_ptr) (n : Z) : list Z := zsub (ptr_buf d p) (ptr_ix p) n.

(** The literals up to [litLimit] are in another buffer or after the output, with
    room for the copies to read past their end. *)
Definition lit_room (d : list Z) (oend : Z) (lit : src_ptr) (litLimit : Z) : Prop :=
  0 <= ptr_ix lit <= litLimit /\ litLimit + WILDCOPY_OVERLENGTH <= zlen (ptr_buf d lit) /\ zlen (ptr_buf d lit) < 2 ^ 62 /\
  match lit with In_dst i => oend <= i | In_buf _ _ => True end.

(** The tests of the code, in their order. *)
Definition seq_error (op oend : Z) (s : seq_t) (litPtr : src_ptr) (litLimit virtualStart : Z) : option ZSTD_ErrorCode :=
  if litLength s + matchLength s >? oend - op then Some dstSize_tooSmall
  else if litLength s >? litLimit - ptr_ix litPtr then Some corruption_detected
  else if offset s >? op + litLength s - virtualStart then Some corruption_detected
  else None.

Definition seq_ok (s : seq_t) : Prop := 0 <= litLength s < 2 ^ 32 /\ 1 <= matchLength s < 2 ^ 32 /\ 1 <= offset s < 2 ^ 64.

(** ** Lemmas *)

(** *** The match *)

(** [d'] is [d] after [ml] bytes of a match at distance [off]. *)
Definition match_done (ps : Z) (dict d d' : list Z) (o off ml w : Z) : Prop :=
  zlen d' = zlen d /\ (bytes_ok d -> bytes_ok dict -> bytes_ok d') /\
  (forall i, 0 <= i < o \/ o + w <= i -> zat d' i = zat d i) /\
  (forall j, 0 <= j < ml -> zat d' (o + j) = hist_at ps dict d' (o + j - off)).

Lemma match_done_0 ps dict d o off : match_done ps dict d d o off 0 0.
Proof. split_and!; try done. lia. Qed.

Lemma match_done_le ps dict d d' o off ml w w' : match_done ps dict d d' o off ml w -> w <= w' -> match_done ps dict d d' o off ml w'.
Proof. intros (H1 & H2 & H3 & H4) Hw. split_and!; try done. intros; apply H3; lia. Qed.

Lemma hist_at_ext ps dict d d' i : (ps <= i -> zat d i = zat d' i) -> hist_at ps dict d i = hist_at ps dict d' i.
Proof. intros H. unfold hist_at. destruct (Z.ltb_spec i ps); [done|by apply H]. Qed.

Lemma match_done_app ps dict d d1 d2 o off a n w :
  match_done ps dict d d1 o off a a -> copied Forward d1 d2 (o + a) (In_dst (o + a - off)) n w ->
  0 <= ps <= o + a - off -> 0 <= o -> 1 <= off -> 0 <= a -> 0 <= w -> match_done ps dict d d2 o off (a + n) (a + w).
Proof.
  intros (H1 & H2 & H3 & H4) (H5 & H6 & H7 & H8) Hps Ho Hoff Ha Hw. split_and!.
  - congruence.
  - intros. apply H6; [auto|done].
  - intros i Hi. rewrite H7 by lia. apply H3. lia.
  - intros j Hj. destruct (Z.lt_ge_cases j a).
    + rewrite H7, H4 by lia. apply hist_at_ext. intros. symmetry. apply H7. lia.
    + replace (o + j) with (o + a + (j - a)) by lia. rewrite H8 by lia. unfold hist_at. destruct (Z.ltb_spec (o + a + (j - a) - off) ps); [lia|].
      cbn. f_equal. lia.
Qed.

Section exec.
Context (dict : list Z) (ps vs : Z).
Hypothesis Hps : 0 <= ps.
Hypothesis Hvs : vs = ps - zlen dict.
Let dictEnd := In_buf dict (zlen dict).

(** Some bytes of the match, from the dictionary. *)
Lemma dict_copy d o off a :
  0 <= a -> ps <= o -> o + a <= zlen d -> vs <= o - off -> o - off + a <= ps ->
  wp (memmove d o (ptr_add dictEnd (o - off - ps)) a) (fun d' => match_done ps dict d d' o off a a) no_errors.
Proof.
  intros Ha Ho Hd Hv Hp. eapply wp_mono; [apply (memmove_ok Forward a); [done|done|done|]| |done].
  - unfold dictEnd. split_and!; cbn; lia.
  - intros d' (H1 & H2 & H3 & H4). split_and!; [done|auto|done|]. intros j Hj. rewrite H4 by done. cbn. unfold hist_at.
    rewrite (proj2 (Z.ltb_lt _ _)) by lia. f_equal. lia.
Qed.

Lemma exec_extDict_ok d o s :
  seq_ok s -> ps <= o < 2 ^ 62 -> zlen dict < 2 ^ 62 -> o + matchLength s <= zlen d -> offset s <= o - vs ->
  wp (exec_extDict d o s ps vs dictEnd) (fun r =>
    match r with
    | inl d' => match_done ps dict d d' o (offset s) (matchLength s) (matchLength s)
    | inr (d1, op1, ml1, m1) => exists a, 0 <= a < matchLength s /\ op1 = o + a /\ ml1 = matchLength s - a /\ m1 = op1 - offset s /\
        ps <= m1 /\ match_done ps dict d d1 o (offset s) a a
    end) no_errors.
Proof.
  intros (Hl & Hm & Hoff) Ho Hdict Hd Hv. pose proof (zlen_nonneg dict). unfold exec_extDict. rewrite !u64_small by lia.
  apply wp_if; intros Hif; bools.
  - apply wp_error_if; intros Hif2; bools; [lia|]. apply wp_if; intros Hif3; unfold dictEnd in Hif3; cbn [ptr_add ptr_ix] in Hif3; bools.
    + apply wp_bind. eapply wp_mono; [apply dict_copy; lia|intros d' Hd'; exact Hd'|done].
    + apply wp_bind. eapply wp_mono; [apply dict_copy; unfold dictEnd; cbn; lia|intros d' Hd'; apply wp_Ok|done].
      unfold dictEnd in *. cbn [ptr_add ptr_ix] in *. exists (zlen dict - (zlen dict + (o - offset s - ps))).
      rewrite u64_small by lia. split_and!; [lia..|done].
  - apply wp_Ok. exists 0. split_and!; try lia. apply match_done_0.
Qed.

Lemma lits_then_match k d d1 d2 op oend s lit w1 w :
  copied k d d1 op lit (litLength s) w1 -> match_done ps dict d1 d2 (op + litLength s) (offset s) (matchLength s) w ->
  match lit with In_dst _ => k = Backward | _ => True end ->
  seq_ok s -> 0 <= op -> op + w1 <= oend -> op + litLength s + w <= oend -> op + litLength s <= oend -> seq_executed d d2 op oend s lit ps dict.
Proof.
  intros (H1 & H2 & H3 & H4) (H5 & H6 & H7 & H8) Hk (Hl & Hm & Hoff) Ho Hw1 Hw Ho2. split_and!.
  - congruence.
  - auto.
  - intros i Hi. rewrite H7 by lia. apply H3. lia.
  - intros j Hj. rewrite H7, H4 by lia. destruct lit; [by rewrite Hk|done].
  - done.
Qed.

Lemma exec_extDict_err d o s :
  ps <= o < 2 ^ 62 -> zlen dict < 2 ^ 62 -> offset s > o - vs -> exec_extDict d o s ps vs dictEnd = Err corruption_detected.
Proof.
  intros Ho Hd Hoff. pose proof (zlen_nonneg dict). unfold exec_extDict, RETURN_ERROR_IF. rewrite !u64_small by lia.
  by rewrite !(proj2 (Z.gtb_lt _ _)) by lia.
Qed.

(** The match near the end of the output, once the literals are there. *)
Lemma end_match_ok k d d1 op oend oend_w s lit w1 :
  copied k d d1 op lit (litLength s) w1 -> match lit with In_dst _ => k = Backward | _ => True end ->
  seq_ok s -> ps <= op -> oend < 2 ^ 61 -> zlen dict < 2 ^ 61 -> op + litLength s + matchLength s <= zlen d -> oend_w + 32 <= zlen d ->
  op + litLength s + matchLength s <= oend -> oend_w + 32 <= oend -> op + w1 <= oend ->
  offset s <= op + litLength s - vs ->
  wp (let* r := exec_extDict d1 (op + litLength s) s ps vs dictEnd in
      match r with
      | inl d => Ok (litLength s + matchLength s, d, ptr_add lit (litLength s))
      | inr (d, op, matchLength', match_) =>
          let* d := ZSTD_safecopy d op oend_w (In_dst match_) matchLength' ZSTD_overlap_src_before_dst in
          Ok (litLength s + matchLength s, d, ptr_add lit (litLength s))
      end) (fun '(n, d', lit') =>
    n = litLength s + matchLength s /\ lit' = ptr_add lit (litLength s) /\ seq_executed d d' op oend s lit ps dict) no_errors.
Proof.
  intros Hlc Hk Hs Hop H61 Hdict Hd Hw Hoend Hwo Hw1 Hv. pose proof Hs as (Hl & Hm & Hoff). pose proof Hlc as (E1 & _). apply wp_bind.
  eapply wp_mono; [apply exec_extDict_ok; [done|lia..]| |done]. intros [d2|[[[d2 op2] ml2] m2]].
  - intros Hmd. apply wp_Ok. split; [done|]. split; [done|]. eapply lits_then_match; [exact Hlc|exact Hmd|done|done|lia..].
  - intros (a & Ha & -> & -> & -> & Hpm & Hmd). apply wp_bind. pose proof Hmd as (E2 & _).
    eapply wp_mono; [apply safecopy_match; lia| |done]. intros d3 Hcp. apply wp_Ok. split; [done|]. split; [done|].
    pose proof (match_done_app _ _ _ _ _ _ _ _ _ _ Hmd Hcp ltac:(lia) ltac:(lia) ltac:(lia) ltac:(lia) ltac:(lia)) as Hmd3.
    replace (a + (matchLength s - a)) with (matchLength s) in Hmd3 by lia.
    eapply lits_then_match; [exact Hlc|exact Hmd3|done|done|lia..].
Qed.

Lemma seq_ok_len s : seq_ok s -> u64 (litLength s + matchLength s) = litLength s + matchLength s.
Proof. intros (H1 & H2 & _). apply u64_small. lia. Qed.

(** *** Far from the end of the output *)

Lemma fast_lits k d op p ll :
  0 <= ll -> can_copy k 16 d op p (ll + 32) ->
  exists d1, copied k d d1 op p ll (ll + 32) /\ forall A (f : list Z -> result A),
    (let* d := ZSTD_copy16 d op p in
     let* d := (if ll >? 16 then ZSTD_wildcopy d (op + 16) (ptr_add p 16) (ll - 16) ZSTD_no_overlap else Ok d) in f d) = f d1.
Proof.
  intros Hl Hc. assert (wp (ZSTD_copy16 d op p) (fun d' => copied k d d' op p 16 16) no_errors) as H1.
  { apply (memmove_ok k 16); [lia|lia|lia|]. eapply can_copy_le; [exact Hc|lia|lia]. }
  destruct (ZSTD_copy16 d op p) as [d1| |]; [|done|done]. cbn [wp bind] in *. destruct (Z.gtb_spec ll 16); [|by exists d1; split; [eapply copied_le; [exact H1|lia|lia]|]].
  pose proof H1 as (E1 & _).
  assert (wp (ZSTD_wildcopy d1 (op + 16) (ptr_add p 16) (ll - 16) ZSTD_no_overlap)
    (fun d' => copied k d1 d' (op + 16) (ptr_add p 16) (ll - 16) (ll - 16 + 32)) no_errors) as H2.
  { apply wildcopy_no_overlap; [lia|]. eapply can_copy_add; [eapply can_copy_le; [exact Hc|lia|lia]|exact E1|lia]. }
  destruct (ZSTD_wildcopy _ _ _ _ _) as [d2| |]; [|done|done]. exists d2. split; [|done]. cbn [wp] in H2.
  eapply copied_le; [eapply (copied_app k 16); [exact H1|exact H2|eapply can_copy_le; [exact Hc|lia|lia]|lia..]|lia|lia].
Qed.

(** The match, from the prefix. *)
Lemma fast_match d op off ml (f : list Z -> result (Z * list Z * src_ptr)) Q :
  1 <= off <= op -> 0 <= ml -> op + ml + 32 <= zlen d ->
  (forall d1, copied Forward d d1 op (In_dst (op - off)) ml (ml + 32) -> wp (f d1) Q no_errors) ->
  wp (if off >=? WILDCOPY_VECLEN then let* d := ZSTD_wildcopy d op (In_dst (op - off)) ml ZSTD_no_overlap in f d
      else
        let* '(d, op, match_) := ZSTD_overlapCopy8 d op (In_dst (op - off)) off in
        let* d := (if ml >? 8 then ZSTD_wildcopy d op match_ (ml - 8) ZSTD_overlap_src_before_dst else Ok d) in f d) Q no_errors.
Proof.
  intros Ho Hm Hd Hf. unfold WILDCOPY_VECLEN. apply wp_if; intros Hif; bools.
  - apply wp_bind. eapply wp_mono; [apply (wildcopy_no_overlap Forward); [lia|split_and!; cbn; lia]|exact Hf|done].
  - apply wp_bind. replace off with (op - (op - off)) at 2 by lia.
    eapply wp_mono; [apply overlapCopy8_ok; split_and!; cbn; lia| |done]. intros [[d1 op1] p1] (Hcp & -> & m & -> & Hm1 & HD).
    apply wp_bind. replace (op - (op - off)) with off in * by lia. pose proof Hcp as (E1 & _). apply wp_if; intros Hif2; bools.
    + eapply wp_mono; [apply wildcopy_overlap; [lia|split_and!; cbn; lia]| |done]. intros d2 Hcp2. apply Hf.
      replace (m * off) with (m * (op - (op - off))) in Hcp2 by lia.
      eapply copied_le; [eapply copied_spread; [exact Hcp|exact Hcp2|lia..]|lia|lia].
    + apply wp_Ok, Hf. eapply copied_le; [exact Hcp|lia|lia].
Qed.

(** [exec_fast], for literals in another buffer or further in the destination. *)
Lemma exec_fast_ok k d op oend s lit :
  seq_ok s -> ps <= op -> oend <= zlen d -> oend < 2 ^ 61 -> zlen dict < 2 ^ 61 ->
  op + litLength s + matchLength s + 32 <= oend -> can_copy k 16 d op lit (litLength s + 32) ->
  match lit with In_dst _ => k = Backward | _ => True end ->
  if offset s >? op + litLength s - vs then exec_fast d op s lit ps vs dictEnd = Err corruption_detected
  else wp (exec_fast d op s lit ps vs dictEnd) (fun '(n, d', lit') =>
    n = litLength s + matchLength s /\ lit' = ptr_add lit (litLength s) /\ seq_executed d d' op oend s lit ps dict) no_errors.
Proof.
  intros Hs Hop Hd H61 Hdict Hroom Hc Hk. pose proof (seq_ok_len _ Hs) as El. pose proof Hs as (Hl & Hm & Hoff). pose proof (zlen_nonneg dict).
  destruct (fast_lits k d op lit (litLength s) ltac:(lia) Hc) as (d1 & Hlc & Hbind). pose proof Hlc as (E1 & _).
  unfold exec_fast. rewrite Hbind, El. clear Hbind. destruct (Z.gtb_spec (offset s) (op + litLength s - vs)).
  - rewrite exec_extDict_err by lia. done.
  - apply wp_bind. eapply wp_mono; [apply exec_extDict_ok; [done|lia..]| |done].
    intros [d2|[[[d2 op2] ml2] m2]].
    + intros Hmd. apply wp_Ok. split; [done|]. split; [done|]. eapply lits_then_match; [exact Hlc|exact Hmd|done|done|lia..].
    + intros (a & Ha & -> & -> & -> & Hpm & Hmd). pose proof Hmd as (E2 & _). apply fast_match; [lia..|]. intros d3 Hcp.
      apply wp_Ok. split; [done|]. split; [done|].
      pose proof (match_done_app _ _ _ _ _ _ _ _ _ _ Hmd Hcp ltac:(lia) ltac:(lia) ltac:(lia) ltac:(lia) ltac:(lia)) as Hmd3.
      replace (a + (matchLength s - a)) with (matchLength s) in Hmd3 by lia.
      eapply lits_then_match; [exact Hlc|exact Hmd3|done|done|lia..].
Qed.

Section nosplit.
Context (op oend : Z) (s : seq_t) (d : list Z) (lit : src_ptr) (litLimit : Z).
Hypothesis Hs : seq_ok s.
Hypothesis Hop : ps <= op <= oend.
Hypothesis Hd : oend <= zlen d.
Hypothesis Hlit : lit_room d oend lit litLimit.
Hypothesis Hsize : oend < 2 ^ 61 /\ zlen dict < 2 ^ 61.

Definition exec_post (r : Z * list Z * src_ptr) : Prop :=
  let '(n, d', lit') := r in
  n = litLength s + matchLength s /\ lit' = ptr_add lit (litLength s) /\ seq_executed d d' op oend s lit ps dict.

Let k := match lit with In_dst _ => Backward | In_buf _ _ => Forward end.

Lemma safecopy_lits :
  0 <= litLength s -> op + litLength s <= oend -> ptr_ix lit + litLength s <= litLimit ->
  wp (ZSTD_safecopy d op (oend - 32) lit (litLength s) ZSTD_no_overlap)
    (fun d' => copied k d d' op lit (litLength s) (Z.max (litLength s) (oend - op))) no_errors.
Proof.
  intros Hl Ho Hi. destruct Hlit as (H1 & H2 & H3 & H4). unfold WILDCOPY_OVERLENGTH in *. replace (oend - op) with (oend - 32 + 32 - op) by lia.
  unfold k. destruct lit as [i|b i]; cbn [ptr_ix ptr_buf] in *; [apply safecopy_after|apply safecopy_lit]; lia.
Qed.

Lemma execSequenceEnd_ok :
  match seq_error op oend s lit litLimit vs with
  | Some e => ZSTD_execSequenceEnd d op oend s lit litLimit ps vs dictEnd = Err e
  | None => wp (ZSTD_execSequenceEnd d op oend s lit litLimit ps vs dictEnd) exec_post no_errors
  end.
Proof.
  pose proof (seq_ok_len _ Hs) as El. pose proof Hs as (Hl & Hm & Hoff). pose proof Hlit as (H1 & H2 & H3 & H4). unfold WILDCOPY_OVERLENGTH in *.
  unfold seq_error, ZSTD_execSequenceEnd, RETURN_ERROR_IF. rewrite El, !u64_small by lia.
  destruct (Z.gtb_spec (litLength s + matchLength s) (oend - op)); [done|].
  destruct (Z.gtb_spec (litLength s) (litLimit - ptr_ix lit)); [done|].
  pose proof (safecopy_lits ltac:(lia) ltac:(lia) ltac:(lia)) as Hlc.
  unfold WILDCOPY_OVERLENGTH. destruct (ZSTD_safecopy d op _ _ _ _) as [d1| |]; [|done|done]. cbn [wp bind] in *.
  destruct (Z.gtb_spec (offset s) (op + litLength s - vs)).
  - by rewrite exec_extDict_err by lia.
  - eapply (end_match_ok k); [exact Hlc|unfold k; by destruct lit|done|lia..].
Qed.

Lemma execSequence_ok :
  match seq_error op oend s lit litLimit vs with
  | Some e => ZSTD_execSequence d op oend s lit litLimit ps vs dictEnd = Err e
  | None => wp (ZSTD_execSequence d op oend s lit litLimit ps vs dictEnd) exec_post no_errors
  end.
Proof.
  pose proof execSequenceEnd_ok as Hend. pose proof (seq_ok_len _ Hs) as El. pose proof Hs as (Hl & Hm & Hoff). pose proof Hlit as (H1 & H2 & H3 & H4).
  unfold ZSTD_execSequence, WILDCOPY_OVERLENGTH in *. rewrite El. replace (ptr_ix (ptr_add lit (litLength s))) with (ptr_ix lit + litLength s) by (by destruct lit).
  destruct (Z.gtb_spec (ptr_ix lit + litLength s) litLimit); [done|]. destruct (Z.gtb_spec (op + (litLength s + matchLength s)) (oend - 32)); [done|]. cbn [orb].
  assert (can_copy k 16 d op lit (litLength s + 32)) as Hc by (unfold k; destruct lit as [i|b i]; cbn in *; split_and!; cbn; lia).
  pose proof (exec_fast_ok k d op oend s lit Hs ltac:(lia) Hd ltac:(lia) ltac:(lia) ltac:(lia) Hc ltac:(unfold k; by destruct lit)) as Hfast.
  unfold seq_error. destruct (Z.gtb_spec (litLength s + matchLength s) (oend - op)); [lia|].
  destruct (Z.gtb_spec (litLength s) (litLimit - ptr_ix lit)); [lia|]. destruct (offset s >? _); [done|exact Hfast].
Qed.
End nosplit.

(** *** Literals in the output buffer *)

(** [oend_w] is as [ZSTD_decompressSequences_bodySplitLitBuffer] computes it. *)
Lemma execSequenceSplit_ok d op oend s i litLimit :
  seq_ok s -> ps <= op <= oend -> oend <= zlen d -> zlen d < 2 ^ 61 -> zlen dict < 2 ^ 61 ->
  op <= i -> i + litLength s <= litLimit -> litLimit + WILDCOPY_OVERLENGTH <= zlen d -> litLimit <= oend -> i - op <= 16 \/ 32 <= i - op ->
  let oend_w := i + litLength s - WILDCOPY_OVERLENGTH in
  match seq_error op oend s (In_dst i) litLimit vs with
  | Some e => ZSTD_execSequenceSplitLitBuffer d op oend oend_w s (In_dst i) litLimit ps vs dictEnd = Err e
  | None => wp (ZSTD_execSequenceSplitLitBuffer d op oend oend_w s (In_dst i) litLimit ps vs dictEnd) (fun '(n, d', lit') =>
      n = litLength s + matchLength s /\ lit' = In_dst (i + litLength s) /\
      seq_executed d d' op (Z.max (op + litLength s + matchLength s) (i + litLength s)) s (In_dst i) ps dict) no_errors
  end.
Proof.
  intros Hs Hop Hd H61 Hdict Hi Hlim Hroom Hlo Hgap oend_w. pose proof (seq_ok_len _ Hs) as El. pose proof Hs as (Hl & Hm & Hoff). unfold WILDCOPY_OVERLENGTH in *.
  unfold ZSTD_execSequenceSplitLitBuffer. cbn [ptr_add ptr_ix]. rewrite El. unfold seq_error. cbn [ptr_ix].
  destruct (Z.gtb_spec (i + litLength s) litLimit); [lia|]. destruct (Z.gtb_spec (litLength s) (litLimit - i)); [lia|]. cbn [orb].
  destruct (Z.gtb_spec (op + (litLength s + matchLength s)) oend_w) as [Hfar|Hfast].
  - unfold ZSTD_execSequenceEndSplitLitBuffer. cbn [ptr_ix ptr_diff bind]. rewrite El, !u64_small by lia. unfold RETURN_ERROR_IF.
    destruct (Z.gtb_spec (litLength s + matchLength s) (oend - op)); [done|].
    destruct (Z.gtb_spec (litLength s) (litLimit - i)); [lia|]. destruct (Z.gtb_spec (op - i) 0); [lia|]. cbn [andb].
    pose proof (safecopyDstBeforeSrc_ok d op i (litLength s) ltac:(lia) ltac:(lia) ltac:(lia) Hgap) as Hlc.
    destruct (ZSTD_safecopyDstBeforeSrc d op _ _) as [d1| |]; [|done|done]. cbn [wp bind] in *.
    destruct (Z.gtb_spec (offset s) (op + litLength s - vs)); [by rewrite exec_extDict_err by lia|].
    by eapply (end_match_ok Backward); [exact Hlc|done|done|lia..].
  - destruct (Z.gtb_spec (litLength s + matchLength s) (oend - op)).
    { exfalso. lia. }
    pose proof (exec_fast_ok Backward d op (op + litLength s + matchLength s + 32) s (In_dst i) Hs ltac:(lia) ltac:(lia) ltac:(lia) ltac:(lia) ltac:(lia)
      ltac:(split_and!; cbn; lia) eq_refl) as Hf. destruct (offset s >? _); [done|]. eapply wp_mono; [exact Hf| |done].
    intros [[n d'] lit'] (-> & -> & He). split; [done|]. split; [done|]. destruct He as (He1 & He2 & He3 & He4 & He5). split_and!; try done.
    intros j Hj. apply He3. lia.
Qed.

(** *** On the history *)

Lemma lz_match_unique off n h r :
  zlen r = zlen h + Z.of_nat n -> (forall i, 0 <= i < zlen h -> zat r i = zat h i) ->
  (forall i, zlen h <= i < zlen r -> zat r i = zat r (i - off)) -> 1 <= off <= zlen h -> lz_match h off n = r.
Proof.
  revert h. induction n as [|n IH]; intros h El Hh Hr Hoff; cbn [lz_match].
  - apply zat_ext; [lia|]. intros i Hi. symmetry. by apply Hh.
  - assert (zlen (h ++ [zat h (zlen h - off)]) = zlen h + 1) as E1 by (rewrite zlen_app; done). apply IH; rewrite ?E1; [lia| |intros; apply Hr; lia|lia].
    intros i Hi. destruct (Z.eq_dec i (zlen h)) as [->|].
    + rewrite zat_app_r by (change (zlen [zat h (zlen h - off)]) with 1; lia). rewrite Z.sub_diag. cbn. rewrite Hr by lia. apply Hh. lia.
    + rewrite zat_app_l by lia. apply Hh. lia.
Qed.

Lemma zlen_history d op : ps <= op <= zlen d -> zlen (history ps dict d op) = zlen dict + (op - ps).
Proof. intros H. unfold history. rewrite zlen_app, zlen_zsub; lia. Qed.

Lemma history_at d op i : ps <= op <= zlen d -> 0 <= i < zlen dict + (op - ps) -> zat (history ps dict d op) i = hist_at ps dict d (i - zlen dict + ps).
Proof.
  intros H Hi. unfold history, hist_at. destruct (Z.ltb_spec (i - zlen dict + ps) ps).
  - rewrite zat_app_l by lia. f_equal. lia.
  - rewrite zat_app_r, zat_zsub by lia. f_equal. lia.
Qed.

Lemma seq_executed_history d d' op oend s lit :
  seq_executed d d' op oend s lit ps dict -> seq_ok s -> ps <= op -> op + litLength s + matchLength s <= zlen d -> offset s <= op + litLength s - vs ->
  history ps dict d' (op + litLength s + matchLength s) =
  lz_sequence (history ps dict d op) (map (fun j => ptr_at d lit (Z.of_nat j)) (seq 0 (Z.to_nat (litLength s)))) s.
Proof.
  intros (El & _ & Ho & Hlit & Hm) (Hl & Hml & Hoff) Hop Hd Hv. pose proof (zlen_nonneg dict). symmetry. apply lz_match_unique.
  - rewrite zlen_app, !zlen_history by lia. unfold zlen at 3. rewrite length_map, length_seq. lia.
  - intros i Hi. rewrite zlen_app, zlen_history in Hi by lia. unfold zlen at 2 in Hi. rewrite length_map, length_seq in Hi. rewrite history_at by lia.
    destruct (Z.lt_ge_cases i (zlen dict + (op - ps))).
    + rewrite zat_app_l, history_at by (rewrite ?zlen_history; lia). apply hist_at_ext. intros. apply Ho. lia.
    + rewrite zat_app_r by (rewrite zlen_history; lia). rewrite zlen_history by lia. unfold hist_at. rewrite (proj2 (Z.ltb_ge _ _)) by lia.
      replace (i - zlen dict + ps) with (op + (i - (zlen dict + (op - ps)))) by lia. rewrite Hlit by lia.
      unfold zat at 1. rewrite (list_lookup_total_correct _ _ (ptr_at d lit (i - (zlen dict + (op - ps))))); [done|].
      rewrite list_lookup_fmap, lookup_seq_lt by lia. cbn. do 2 f_equal. lia.
  - intros i Hi. rewrite zlen_app, !zlen_history in Hi by lia. unfold zlen at 2 in Hi. rewrite length_map, length_seq in Hi. rewrite !history_at by lia.
    unfold hist_at at 1. rewrite (proj2 (Z.ltb_ge _ _)) by lia.
    replace (i - zlen dict + ps) with (op + litLength s + (i - zlen dict + ps - (op + litLength s))) at 1 by lia. rewrite Hm by lia. f_equal. lia.
  - rewrite zlen_app, zlen_history by lia. unfold zlen at 2. rewrite length_map, length_seq. lia.
Qed.
End exec.

Lemma ptr_sub_map d p n :
  0 <= ptr_ix p -> 0 <= n -> ptr_ix p + n <= zlen (ptr_buf d p) -> map (fun j => ptr_at d p (Z.of_nat j)) (seq 0 (Z.to_nat n)) = ptr_sub d p n.
Proof.
  intros H1 H2 H3. unfold ptr_sub. apply zat_ext.
  - unfold zlen at 1. rewrite length_map, length_seq, zlen_zsub; lia.
  - intros i Hi. unfold zlen in Hi. rewrite length_map, length_seq in Hi. rewrite zat_zsub by lia.
    unfold zat at 1. rewrite (list_lookup_total_correct _ _ (ptr_at d p i)); [by destruct p|].
    rewrite list_lookup_fmap, lookup_seq_lt by lia. cbn. do 2 f_equal. lia.
Qed.

(** On the history. *)
Lemma execSequence_history dict ps op oend s lit litLimit d :
  0 <= ps <= op -> op <= oend -> oend <= zlen d -> oend < 2 ^ 61 -> zlen dict < 2 ^ 61 -> lit_room d oend lit litLimit -> seq_ok s ->
  let r := ZSTD_execSequence d op oend s lit litLimit ps (ps - zlen dict) (In_buf dict (zlen dict)) in
  let n := litLength s + matchLength s in
  match seq_error op oend s lit litLimit (ps - zlen dict) with
  | Some e => r = Err e
  | None => exists d', r = Ok (n, d', ptr_add lit (litLength s)) /\ op + n <= oend /\ ptr_ix lit + litLength s <= litLimit /\
      zlen d' = zlen d /\ (forall i, 0 <= i < op \/ oend <= i -> zat d' i = zat d i) /\
      (bytes_ok d -> ptr_bytes lit -> bytes_ok dict -> bytes_ok d') /\
      history ps dict d' (op + n) = lz_sequence (history ps dict d op) (ptr_sub d lit (litLength s)) s
  end.
Proof.
  intros Hps Hop Hd H61 Hdict Hlit Hs r n. pose proof Hs as (Hl & Hm & Hoff).
  pose proof (execSequence_ok dict ps (ps - zlen dict) ltac:(lia) eq_refl op oend s d lit litLimit Hs ltac:(lia) Hd Hlit ltac:(lia)) as H.
  destruct Hlit as (Hl1 & Hl2 & Hl3 & _). unfold WILDCOPY_OVERLENGTH in *.
  fold r in H. destruct (seq_error _ _ _ _ _ _) eqn:He; [done|]. unfold seq_error in He.
  destruct (Z.gtb_spec (litLength s + matchLength s) (oend - op)); [done|]. destruct (Z.gtb_spec (litLength s) (litLimit - ptr_ix lit)); [done|].
  destruct (Z.gtb_spec (offset s) (op + litLength s - (ps - zlen dict))); [done|]. clear He.
  destruct r as [[[n' d'] lit']| |]; [|done|done]. destruct H as (-> & -> & Hex). exists d'. pose proof Hex as (E1 & E2 & E3 & _).
  split; [done|]. split; [lia|]. split; [lia|]. split; [done|]. split; [done|]. split; [done|].
  rewrite <- (ptr_sub_map d lit (litLength s)) by lia. unfold n. rewrite Z.add_assoc.
  eapply seq_executed_history; [lia|reflexivity|exact Hex|done|lia..].
Qed.

(** ** Properties *)

(** C13: executing a sequence is LZ77 on the history. Whatever its lengths and its
    offset, [ZSTD_execSequence] fails with the error of the first test that the
    sequence does not pass (the output is too small, not enough literals, an
    offset before the dictionary), or appends its literals to the history and then
    the bytes of its match one by one, each a copy of the one [offset] before. This
    holds for the copies of 8, 16 and 32 bytes that it makes, with sources that
    overlap the output or begin in the dictionary and end in the output, and
    nothing is read outside the buffers or written before [op] or after [oend]. *)
Theorem ZSTD_execSequence_correct dict ps op oend s lit litLimit d :
  0 <= ps <= op -> op <= oend -> oend <= zlen d -> oend < 2 ^ 61 -> zlen dict < 2 ^ 61 -> lit_room d oend lit litLimit -> seq_ok s ->
  let r := ZSTD_execSequence d op oend s lit litLimit ps (ps - zlen dict) (In_buf dict (zlen dict)) in
  let n := litLength s + matchLength s in
  match seq_error op oend s lit litLimit (ps - zlen dict) with
  | Some e => r = Err e
  | None => exists d', r = Ok (n, d', ptr_add lit (litLength s)) /\ op + n <= oend /\ ptr_ix lit + litLength s <= litLimit /\
      zlen d' = zlen d /\ (forall i, 0 <= i < op \/ oend <= i -> zat d' i = zat d i) /\
      (bytes_ok d -> ptr_bytes lit -> bytes_ok dict -> bytes_ok d') /\
      history ps dict d' (op + n) = lz_sequence (history ps dict d op) (ptr_sub d lit (litLength s)) s
  end.
Proof. intros. by apply execSequence_history. Qed.

Lemma ZSTD_execSequence_correct_witness :
  let s := mkSeq 2 7 4 in let lit := In_buf ([7; 8] ++ zfill 40 0) 0 in
  let r := ZSTD_execSequence (zfill 50 0) 0 50 s lit 2 0 (-3) (In_buf [1; 2; 3] 3) in
  match seq_error 0 50 s lit 2 (-3) with
  | Some e => r = Err e
  | None => exists d', r = Ok (9, d', ptr_add lit 2) /\ 0 + 9 <= 50 /\ 0 + 2 <= 2 /\
      zlen d' = 50 /\ (forall i, 0 <= i < 0 \/ 50 <= i -> zat d' i = zat (zfill 50 0) i) /\
      (bytes_ok (zfill 50 0) -> ptr_bytes lit -> bytes_ok [1; 2; 3] -> bytes_ok d') /\
      history 0 [1; 2; 3] d' (0 + 9) = lz_sequence (history 0 [1; 2; 3] (zfill 50 0) 0) (ptr_sub (zfill 50 0) lit 2) s
  end /\ lz_sequence [1; 2; 3] [7; 8] s = [1; 2; 3; 7; 8; 2; 3; 7; 8; 2; 3; 7].
Proof.
  split; [|reflexivity].
  apply (ZSTD_execSequence_correct [1; 2; 3] 0 0 50 (mkSeq 2 7 4) (In_buf ([7; 8] ++ zfill 40 0) 0) 2 (zfill 50 0));
    vm_compute; repeat split; congruence.
Defined.

(** [ZSTD_safecopyDstBeforeSrc] does not copy what it is asked to when the source is
    17 to 31 bytes after the destination: its wild copy, which writes up to 31 bytes
    more than it was asked for, overwrites the bytes still to be read. *)
Theorem safecopyDstBeforeSrc_clobbers :
  exists d d', ZSTD_safecopyDstBeforeSrc d 0 (In_dst 17) 49 = Ok d' /\ zsub d' 0 49 <> zsub d 17 49.
Proof.
  exists (map Z.of_nat (seq 0 100)). eexists. split; [vm_compute; reflexivity|]. vm_compute. congruence.
Qed.
