(* ===== verification/SeqTables.v ===== *)
(** The decoding tables of sequences (decompress/zstd_decompress_block.c,
    decompress/zstd_decompress_internal.h, common/zstd_internal.h): default tables,
    tables built from counts, and the header that describes them. *)

From S2P Require Import Prelude Errors Outcome Bits Mem FseTable FseSpread FseSymbols FseBuild FseNCount HufStats.

(** ** Definitions *)

Inductive SymbolEncodingType_e := set_basic | set_rle | set_compressed | set_repeat.
(** The cast of a number of two bits. *)
Definition SymbolEncodingType_of (z : Z) : SymbolEncodingType_e :=
  match z with 0 => set_basic | 1 => set_rle | 2 => set_compressed | _ => set_repeat end.

Definition LONGNBSEQ : Z := 0x7F00.
Definition MIN_SEQUENCES_SIZE : Z := 1.
Definition MINMATCH : Z := 3.
Definition MaxML : Z := 52.
Definition MaxLL : Z := 35.
Definition DefaultMaxOff : Z := 28.
Definition MaxOff : Z := 31.
Definition MaxSeq : Z := Z.max MaxLL MaxML.
Definition MLFSELog : Z := 9.
Definition LLFSELog : Z := 9.
Definition OffFSELog : Z := 8.
Definition MaxFSELog : Z := Z.max (Z.max MLFSELog LLFSELog) OffFSELog.
Definition LL_DEFAULTNORMLOG : Z := 6.
Definition ML_DEFAULTNORMLOG : Z := 6.
Definition OF_DEFAULTNORMLOG : Z := 5.

Definition LL_bits : list Z :=
  [0; 0; 0; 0; 0; 0; 0; 0; 0; 0; 0; 0; 0; 0; 0; 0;
   1; 1; 1; 1; 2; 2; 3; 3; 4; 6; 7; 8; 9; 10; 11; 12;
   13; 14; 15; 16].
Definition LL_defaultNorm : list Z :=
  [4; 3; 2; 2; 2; 2; 2; 2; 2; 2; 2; 2; 2; 1; 1; 1;
   2; 2; 2; 2; 2; 2; 2; 2; 2; 3; 2; 1; 1; 1; 1; 1;
   -1; -1; -1; -1].
Definition ML_bits : list Z :=
  [0; 0; 0; 0; 0; 0; 0; 0; 0; 0; 0; 0; 0; 0; 0; 0;
   0; 0; 0; 0; 0; 0; 0; 0; 0; 0; 0; 0; 0; 0; 0; 0;
   1; 1; 1; 1; 2; 2; 3; 3; 4; 4; 5; 7; 8; 9; 10; 11;
   12; 13; 14; 15; 16].
Definition ML_defaultNorm : list Z :=
  [1; 4; 3; 2; 2; 2; 2; 2; 2; 1; 1; 1; 1; 1; 1; 1;
   1; 1; 1; 1; 1; 1; 1; 1; 1; 1; 1; 1; 1; 1; 1; 1;
   1; 1; 1; 1; 1; 1; 1; 1; 1; 1; 1; 1; 1; 1; -1; -1;
   -1; -1; -1; -1; -1].
Definition OF_defaultNorm : list Z :=
  [1; 1; 1; 1; 1; 1; 2; 2; 2; 1; 1; 1; 1; 1; 1; 1;
   1; 1; 1; 1; 1; 1; 1; 1; -1; -1; -1; -1; -1].
Definition LL_base : list Z :=
  [0; 1; 2; 3; 4; 5; 6; 7; 8; 9; 10; 11; 12; 13; 14; 15;
   16; 18; 20; 22; 24; 28; 32; 40; 48; 64; 0x80; 0x100; 0x200; 0x400; 0x800; 0x1000;
   0x2000; 0x4000; 0x8000; 0x10000].
Definition OF_base : list Z :=
  [0; 1; 1; 5; 0xD; 0x1D; 0x3D; 0x7D; 0xFD; 0x1FD; 0x3FD; 0x7FD; 0xFFD; 0x1FFD; 0x3FFD; 0x7FFD;
   0xFFFD; 0x1FFFD; 0x3FFFD; 0x7FFFD; 0xFFFFD; 0x1FFFFD; 0x3FFFFD; 0x7FFFFD; 0xFFFFFD; 0x1FFFFFD; 0x3FFFFFD; 0x7FFFFFD; 0xFFFFFFD; 0x1FFFFFFD; 0x3FFFFFFD; 0x7FFFFFFD].
Definition OF_bits : list Z :=
  [0; 1; 2; 3; 4; 5; 6; 7; 8; 9; 10; 11; 12; 13; 14; 15;
   16; 17; 18; 19; 20; 21; 22; 23; 24; 25; 26; 27; 28; 29; 30; 31].
Definition ML_base : list Z :=
  [3; 4; 5; 6; 7; 8; 9; 10; 11; 12; 13; 14; 15; 16; 17; 18;
   19; 20; 21; 22; 23; 24; 25; 26; 27; 28; 29; 30; 31; 32; 33; 34;
   35; 37; 39; 41; 43; 47; 51; 59; 67; 83; 99; 0x83; 0x103; 0x203; 0x403; 0x803;
   0x1003; 0x2003; 0x4003; 0x8003; 0x10003].

Record ZSTD_seqSymbol := mkSym {
  sq_nextState : Z;
  sq_nbAdditionalBits : Z;
  sq_nbBits : Z;
  sq_baseValue : Z;
}.
#[global] Instance ZSTD_seqSymbol_inhabited : Inhabited ZSTD_seqSymbol := populate (mkSym 0 0 0 0).

(** A table: [ZSTD_seqSymbol_header], which takes the place of the first cell, and
    the cells after it. *)
Record ZSTD_seqTable := mkSeqTable {
  st_fastMode : Z;
  st_tableLog : Z;
  st_cells : list ZSTD_seqSymbol;
}.

(** The cells of these tables are written out in the code. Their first one is
    [{1, 1, 1, tableLog}]; on a little-endian machine this is a [fastMode] of
    0x01010001, which nothing reads. *)
Definition LL_defaultDTable : ZSTD_seqTable := mkSeqTable 0x01010001 6
  [mkSym 0 0 4 0; mkSym 16 0 4 0; mkSym 32 0 5 1; mkSym 0 0 5 3; mkSym 0 0 5 4;
   mkSym 0 0 5 6; mkSym 0 0 5 7; mkSym 0 0 5 9; mkSym 0 0 5 10; mkSym 0 0 5 12;
   mkSym 0 0 6 14; mkSym 0 1 5 16; mkSym 0 1 5 20; mkSym 0 1 5 22; mkSym 0 2 5 28;
   mkSym 0 3 5 32; mkSym 0 4 5 48; mkSym 32 6 5 64; mkSym 0 7 5 128; mkSym 0 8 6 256;
   mkSym 0 10 6 1024; mkSym 0 12 6 4096; mkSym 32 0 4 0; mkSym 0 0 4 1; mkSym 0 0 5 2;
   mkSym 32 0 5 4; mkSym 0 0 5 5; mkSym 32 0 5 7; mkSym 0 0 5 8; mkSym 32 0 5 10;
   mkSym 0 0 5 11; mkSym 0 0 6 13; mkSym 32 1 5 16; mkSym 0 1 5 18; mkSym 32 1 5 22;
   mkSym 0 2 5 24; mkSym 32 3 5 32; mkSym 0 3 5 40; mkSym 0 6 4 64; mkSym 16 6 4 64;
   mkSym 32 7 5 128; mkSym 0 9 6 512; mkSym 0 11 6 2048; mkSym 48 0 4 0; mkSym 16 0 4 1;
   mkSym 32 0 5 2; mkSym 32 0 5 3; mkSym 32 0 5 5; mkSym 32 0 5 6; mkSym 32 0 5 8;
   mkSym 32 0 5 9; mkSym 32 0 5 11; mkSym 32 0 5 12; mkSym 0 0 6 15; mkSym 32 1 5 18;
   mkSym 32 1 5 20; mkSym 32 2 5 24; mkSym 32 2 5 28; mkSym 32 3 5 40; mkSym 32 4 5 48;
   mkSym 0 16 6 65536; mkSym 0 15 6 32768; mkSym 0 14 6 16384; mkSym 0 13 6 8192].

Definition OF_defaultDTable : ZSTD_seqTable := mkSeqTable 0x01010001 5
  [mkSym 0 0 5 0; mkSym 0 6 4 61; mkSym 0 9 5 509; mkSym 0 15 5 32765; mkSym 0 21 5 2097149;
   mkSym 0 3 5 5; mkSym 0 7 4 125; mkSym 0 12 5 4093; mkSym 0 18 5 262141; mkSym 0 23 5 8388605;
   mkSym 0 5 5 29; mkSym 0 8 4 253; mkSym 0 14 5 16381; mkSym 0 20 5 1048573; mkSym 0 2 5 1;
   mkSym 16 7 4 125; mkSym 0 11 5 2045; mkSym 0 17 5 131069; mkSym 0 22 5 4194301; mkSym 0 4 5 13;
   mkSym 16 8 4 253; mkSym 0 13 5 8189; mkSym 0 19 5 524285; mkSym 0 1 5 1; mkSym 16 6 4 61;
   mkSym 0 10 5 1021; mkSym 0 16 5 65533; mkSym 0 28 5 268435453; mkSym 0 27 5 134217725; mkSym 0 26 5 67108861;
   mkSym 0 25 5 33554429; mkSym 0 24 5 16777213].

Definition ML_defaultDTable : ZSTD_seqTable := mkSeqTable 0x01010001 6
  [mkSym 0 0 6 3; mkSym 0 0 4 4; mkSym 32 0 5 5; mkSym 0 0 5 6; mkSym 0 0 5 8;
   mkSym 0 0 5 9; mkSym 0 0 5 11; mkSym 0 0 6 13; mkSym 0 0 6 16; mkSym 0 0 6 19;
   mkSym 0 0 6 22; mkSym 0 0 6 25; mkSym 0 0 6 28; mkSym 0 0 6 31; mkSym 0 0 6 34;
   mkSym 0 1 6 37; mkSym 0 1 6 41; mkSym 0 2 6 47; mkSym 0 3 6 59; mkSym 0 4 6 83;
   mkSym 0 7 6 131; mkSym 0 9 6 515; mkSym 16 0 4 4; mkSym 0 0 4 5; mkSym 32 0 5 6;
   mkSym 0 0 5 7; mkSym 32 0 5 9; mkSym 0 0 5 10; mkSym 0 0 6 12; mkSym 0 0 6 15;
   mkSym 0 0 6 18; mkSym 0 0 6 21; mkSym 0 0 6 24; mkSym 0 0 6 27; mkSym 0 0 6 30;
   mkSym 0 0 6 33; mkSym 0 1 6 35; mkSym 0 1 6 39; mkSym 0 2 6 43; mkSym 0 3 6 51;
   mkSym 0 4 6 67; mkSym 0 5 6 99; mkSym 0 8 6 259; mkSym 32 0 4 4; mkSym 48 0 4 4;
   mkSym 16 0 4 5; mkSym 32 0 5 7; mkSym 32 0 5 8; mkSym 32 0 5 10; mkSym 32 0 5 11;
   mkSym 0 0 6 14; mkSym 0 0 6 17; mkSym 0 0 6 20; mkSym 0 0 6 23; mkSym 0 0 6 26;
   mkSym 0 0 6 29; mkSym 0 0 6 32; mkSym 0 16 6 65539; mkSym 0 15 6 32771; mkSym 0 14 6 16387;
   mkSym 0 13 6 8195; mkSym 0 12 6 4099; mkSym 0 11 6 2051; mkSym 0 10 6 1027].

Definition ZSTD_buildSeqTable_rle (baseValue nbAddBits : Z) : ZSTD_seqTable :=
  mkSeqTable 0 0 [mkSym 0 nbAddBits 0 baseValue].

(** [table] holds the initial content of the cells, [symbolNext] and [spread] that
    of the workspace. *)
Definition ZSTD_buildFSETable_body (table : list ZSTD_seqSymbol) (normalizedCounter : list Z) (maxSymbolValue : Z)
    (baseValue nbAdditionalBits : list Z) (tableLog : Z) (symbolNext spread : list Z) : result ZSTD_seqTable :=
  let maxSV1 := maxSymbolValue + 1 in
  let tableSize := u32 (Z.shiftl 1 tableLog) in
  (* Init, lay down lowprob symbols *)
  let largeLimit := s16 (Z.shiftl 1 (tableLog - 1)) in
  let* '(syms, symbolNext, highThreshold, fastMode) :=
    for_range 0 maxSV1 (fun s '(syms, symbolNext, highThreshold, fastMode) =>
      let* n := rd normalizedCounter s in
      if n =? -1 then
        let* syms := wr syms highThreshold s in
        let* symbolNext := wr symbolNext s 1 in
        Ok (syms, symbolNext, u32 (highThreshold - 1), fastMode)
      else
        let fastMode := if n >=? largeLimit then 0 else fastMode in
        let* symbolNext := wr symbolNext s (u16 n) in
        Ok (syms, symbolNext, highThreshold, fastMode))
      (map sq_baseValue table, symbolNext, tableSize - 1, 1) in
  (* Spread symbols *)
  let step := FSE_TABLESTEP tableSize in
  let* '(syms, _) :=
    (if highThreshold =? tableSize - 1 then
       let* spread := FSE_layDown spread normalizedCounter maxSV1 in
       FSE_spreadFast syms spread tableSize step
     else FSE_spreadSlow syms normalizedCounter maxSV1 tableSize step highThreshold) in
  (* Build Decoding table *)
  let* '(table, _) :=
    for_range 0 tableSize (fun u '(table, symbolNext) =>
      let* symbol := rd syms u in
      let* nextState := rd symbolNext symbol in
      let* symbolNext := wr symbolNext symbol (u16 (nextState + 1)) in
      REQUIRE negb (nextState =? 0) ;;
      let nbBits := u8 (tableLog - ZSTD_highbit32 nextState) in
      let newState := u16 (Z.shiftl nextState nbBits - tableSize) in
      let* nbAdd := rd nbAdditionalBits symbol in
      let* base := rd baseValue symbol in
      let* table := wr table u (mkSym newState nbAdd nbBits base) in
      Ok (table, symbolNext)) (table, symbolNext) in
  Ok (mkSeqTable fastMode tableLog table).

(** The workspace of [ZSTD_buildFSETable]: 53 counters and 520 bytes. *)
Definition seq_wksp : Type := list Z * list Z.
Definition seq_wksp_ok (w : seq_wksp) : Prop := zlen w.1 = MaxSeq + 1 /\ zlen w.2 = 2 ^ MaxFSELog + 8.

(** On the cells of a table that has room for more, and on the part of the
    workspace that is used. *)
Definition ZSTD_buildFSETable (space : list ZSTD_seqSymbol) (normalizedCounter : list Z) (maxSymbolValue : Z)
    (baseValue nbAdditionalBits : list Z) (tableLog : Z) (wksp : seq_wksp) : result ZSTD_seqTable :=
  let tableSize := 2 ^ tableLog in
  REQUIRE (tableSize <=? zlen space) && (tableSize + 8 <=? zlen wksp.2) ;;
  ZSTD_buildFSETable_body (zsub space 0 tableSize) normalizedCounter maxSymbolValue baseValue nbAdditionalBits tableLog
    wksp.1 (zsub wksp.2 0 (tableSize + 8)).

(** The number of bytes read and [*DTablePtr]. A table that is repeated is the one
    of the last block or dictionary that had one. [norm] is the initial content
    of the array of counts. *)
Definition ZSTD_buildSeqTable (space : list ZSTD_seqSymbol) (DTablePtr : ZSTD_seqTable) (type : SymbolEncodingType_e)
    (max maxLog : Z) (src : list Z) (baseValue nbAdditionalBits : list Z) (defaultTable : ZSTD_seqTable)
    (flagRepeatTable : Z) (norm : list Z) (wksp : seq_wksp) : result (Z * ZSTD_seqTable) :=
  match type with
  | set_rle =>
      ERROR_IF zlen src =? 0 THEN srcSize_wrong ;;
      let* symbol := rd src 0 in
      ERROR_IF symbol >? max THEN corruption_detected ;;
      let* baseline := rd baseValue symbol in
      let* nbBits := rd nbAdditionalBits symbol in
      Ok (1, ZSTD_buildSeqTable_rle baseline nbBits)
  | set_basic => Ok (0, defaultTable)
  | set_repeat =>
      ERROR_IF flagRepeatTable =? 0 THEN corruption_detected ;;
      Ok (0, DTablePtr)
  | set_compressed =>
      match FSE_readNCount norm max src with
      | Stuck => Stuck
      | Err _ => Err corruption_detected
      | Ok r =>
          ERROR_IF nco_tableLog r >? maxLog THEN corruption_detected ;;
          let* table := ZSTD_buildFSETable space (nco_norm r) (nco_maxSV r) baseValue nbAdditionalBits (nco_tableLog r) wksp in
          Ok (nco_size r, table)
      end
  end.

(** The fields of the context that hold the tables of sequences. *)
Record seq_tables := mkSeqTables {
  LLTptr : ZSTD_seqTable;
  OFTptr : ZSTD_seqTable;
  MLTptr : ZSTD_seqTable;
  fseEntropy : Z;
}.

(** [RETURN_ERROR_IF(ZSTD_isError(hSize), corruption_detected)]. *)
Definition or_corrupted {A} (m : result A) : result A :=
  match m with Err _ => Err corruption_detected | m => m end.

(** What the space of the tables, the array of counts and the workspace hold. *)
Record seq_scratch := mkScratch {
  sc_LLTable : list ZSTD_seqSymbol;
  sc_OFTable : list ZSTD_seqSymbol;
  sc_MLTable : list ZSTD_seqSymbol;
  sc_norm : list Z;
  sc_wksp : seq_wksp;
}.
Definition seq_scratch_ok (w : seq_scratch) : Prop :=
  zlen (sc_LLTable w) = 2 ^ LLFSELog /\ zlen (sc_OFTable w) = 2 ^ OffFSELog /\ zlen (sc_MLTable w) = 2 ^ MLFSELog /\
  zlen (sc_norm w) = MaxSeq + 1 /\ seq_wksp_ok (sc_wksp w).

(** The number of bytes read, [*nbSeqPtr] and the tables. [w1], [w2] and [w3] are what
    the scratch memory holds before each table is built. *)
Definition ZSTD_decodeSeqHeaders (tables : seq_tables) (src : list Z) (w1 w2 w3 : seq_scratch) : result (Z * Z * seq_tables) :=
  let iend := zlen src in
  ERROR_IF zlen src <? MIN_SEQUENCES_SIZE THEN srcSize_wrong ;;
  (* SeqHead *)
  let* nbSeq := rd src 0 in
  let* '(nbSeq, ip) :=
    (if nbSeq >? 0x7F then
       if nbSeq =? 0xFF then
         ERROR_IF 1 + 2 >? iend THEN srcSize_wrong ;;
         let* n := MEM_readLE16 true src 1 in
         Ok (n + LONGNBSEQ, 3)
       else
         ERROR_IF 1 >=? iend THEN srcSize_wrong ;;
         let* b := rd src 1 in
         Ok (Z.shiftl (nbSeq - 0x80) 8 + b, 2)
     else Ok (nbSeq, 1)) in
  if nbSeq =? 0 then
    ERROR_IF negb (ip =? iend) THEN corruption_detected ;;
    Ok (ip, nbSeq, tables)
  else
    (* FSE table descriptors *)
    ERROR_IF ip + 1 >? iend THEN srcSize_wrong ;;
    let* b := rd src ip in
    ERROR_IF negb (b .& 3 =? 0) THEN corruption_detected ;;
    let LLtype := SymbolEncodingType_of (Z.shiftr b 6) in
    let OFtype := SymbolEncodingType_of (Z.shiftr b 4 .& 3) in
    let MLtype := SymbolEncodingType_of (Z.shiftr b 2 .& 3) in
    let ip := ip + 1 in
    (* Build DTables *)
    let* '(llhSize, LLT) := or_corrupted (ZSTD_buildSeqTable (sc_LLTable w1) (LLTptr tables) LLtype MaxLL LLFSELog
      (zsub src ip (iend - ip)) LL_base LL_bits LL_defaultDTable (fseEntropy tables) (sc_norm w1) (sc_wksp w1)) in
    let ip := ip + llhSize in
    let* '(ofhSize, OFT) := or_corrupted (ZSTD_buildSeqTable (sc_OFTable w2) (OFTptr tables) OFtype MaxOff OffFSELog
      (zsub src ip (iend - ip)) OF_base OF_bits OF_defaultDTable (fseEntropy tables) (sc_norm w2) (sc_wksp w2)) in
    let ip := ip + ofhSize in
    let* '(mlhSize, MLT) := or_corrupted (ZSTD_buildSeqTable (sc_MLTable w3) (MLTptr tables) MLtype MaxML MLFSELog
      (zsub src ip (iend - ip)) ML_base ML_bits ML_defaultDTable (fseEntropy tables) (sc_norm w3) (sc_wksp w3)) in
    let ip := ip + mlhSize in
    Ok (ip, nbSeq, mkSeqTables LLT OFT MLT (fseEntropy tables)).

(** A table that decodes codes with the given bases and numbers of bits. *)
Record seqTable_wf (base bits : list Z) (max maxLog : Z) (t : ZSTD_seqTable) : Prop := {
  sw_log : 0 <= st_tableLog t <= maxLog;
  sw_len : zlen (st_cells t) = 2 ^ st_tableLog t;
  sw_cell : forall u, 0 <= u < 2 ^ st_tableLog t -> let c := zat (st_cells t) u in
    0 <= sq_nbBits c <= st_tableLog t /\ 0 <= sq_nextState c /\ sq_nextState c + 2 ^ sq_nbBits c <= 2 ^ st_tableLog t /\
    exists s, 0 <= s <= max /\ sq_baseValue c = zat base s /\ sq_nbAdditionalBits c = zat bits s;
}.

Definition seq_tables_wf (t : seq_tables) : Prop :=
  seqTable_wf LL_base LL_bits MaxLL LLFSELog (LLTptr t) /\ seqTable_wf OF_base OF_bits MaxOff OffFSELog (OFTptr t) /\
  seqTable_wf ML_base ML_bits MaxML MLFSELog (MLTptr t).

(** The table of normalised counts. *)
Definition seq_cell (base bits : list Z) (e : FSE_decode_t) : ZSTD_seqSymbol :=
  mkSym (newState e) (zat bits (symbol e)) (nbBits e) (zat base (symbol e)).
Definition seq_table_of (norm : list Z) (maxSV1 tl : Z) (base bits : list Z) : ZSTD_seqTable :=
  mkSeqTable (b2z (no_large norm maxSV1 tl)) tl (map (seq_cell base bits) (dt_table (dtable_of norm maxSV1 tl))).

(** ** Lemmas *)

Lemma for_range_sim {T U} (R : Z -> T -> U -> Prop) lo hi (f : Z -> T -> result T) (g : Z -> U -> result U) s t r :
  lo <= hi -> R lo s t ->
  (forall i s t s', lo <= i < hi -> R i s t -> f i s = Ok s' -> exists t', g i t = Ok t' /\ R (i + 1) s' t') ->
  for_range lo hi f s = Ok r -> exists r', for_range lo hi g t = Ok r' /\ R hi r r'.
Proof.
  intros Hle HR Hstep. unfold for_range.
  assert (forall n i s t, lo <= i -> i + Z.of_nat n = hi -> R i s t -> for_ n i f s = Ok r -> exists r', for_ n i g t = Ok r' /\ R hi r r') as Hgen.
  { induction n as [|n IH]; intros i s0 t0 Hi Hn HR0 E; cbn [for_] in *.
    - injection E as <-. exists t0. split; [done|]. by replace hi with i by lia.
    - destruct (f i s0) as [s1| |] eqn:E1; cbn [bind] in E; try discriminate.
      destruct (Hstep i s0 t0 s1) as (t1 & E2 & HR1); [lia|done|done|]. rewrite E2. cbn [bind]. apply (IH (i + 1) s1 t1); [lia|lia|done|done]. }
  apply Hgen; [lia|lia|done].
Qed.

Section build.
Context (norm : list Z) (maxSV1 tl : Z) (base bits : list Z).
Hypothesis Hok : norm_ok norm maxSV1 tl.
Hypothesis Htl : tl <= 12.
Hypothesis Hbase : maxSV1 <= zlen base /\ maxSV1 <= zlen bits.

Lemma seq_table_wf max maxLog : maxSV1 <= max + 1 -> tl <= maxLog -> seqTable_wf base bits max maxLog (seq_table_of norm maxSV1 tl base bits).
Proof.
  intros Hmax Hml. pose proof (tl_range norm maxSV1 tl Hok) as Hr. pose proof (T_bounds norm maxSV1 tl Hok) as HT.
  split; cbn [st_tableLog st_cells seq_table_of]; [lia|unfold zlen; rewrite length_map; by apply zlen_map_seqZ; lia|].
  intros u Hu. cbv zeta. unfold dtable_of. cbn [dt_table]. rewrite map_map, zat_map_seqZ by done.
  pose proof (dentry_bounds norm maxSV1 tl Hok u Hu) as Hd. cbv zeta in Hd. unfold seq_cell. cbn [sq_nbBits sq_nextState sq_baseValue sq_nbAdditionalBits].
  split; [lia|]. split; [lia|]. split; [lia|]. exists (symbol (dentry norm maxSV1 tl u)). split_and!; [lia|lia|done|done].
Qed.

Lemma seq_decoding table symbolNext :
  zlen table = 2 ^ tl -> maxSV1 <= zlen symbolNext -> (forall i, 0 <= i < maxSV1 -> zat symbolNext i = Z.abs (zat norm i)) ->
  wp (for_range 0 (2 ^ tl) (fun u '(table, symbolNext) =>
      let* symbol := rd (state_symbols norm maxSV1 tl) u in
      let* nextState := rd symbolNext symbol in
      let* symbolNext := wr symbolNext symbol (u16 (nextState + 1)) in
      REQUIRE negb (nextState =? 0) ;;
      let* nbAdd := rd bits symbol in
      let* b := rd base symbol in
      let* table := wr table u (mkSym (u16 (Z.shiftl nextState (u8 (tl - ZSTD_highbit32 nextState)) - 2 ^ tl)) nbAdd
        (u8 (tl - ZSTD_highbit32 nextState)) b) in
      Ok (table, symbolNext)) (table, symbolNext))
    (fun '(table, _) => table = map (seq_cell base bits) (dt_table (dtable_of norm maxSV1 tl))) no_errors.
Proof.
  intros Ht Hsn Hn. pose proof (T_bounds norm maxSV1 tl Hok) as HT.
  pose proof (build_decoding norm maxSV1 tl Hok (zfill (2 ^ tl) (mkDecode 0 0 0)) symbolNext Htl ltac:(apply zlen_zfill; lia) Hsn Hn) as Hwp.
  destruct (wp_no_errors_Ok _ _ Hwp) as ([tab sn'] & E & Etab). cbn in Etab. clear Hwp.
  set (R := fun u (p : list FSE_decode_t * list Z) (q : list ZSTD_seqSymbol * list Z) => let '(tf, sf) := p in let '(tz, sz) := q in sz = sf /\ zlen tf = 2 ^ tl /\ zlen tz = 2 ^ tl /\
      forall i, 0 <= i < u -> zat tz i = seq_cell base bits (zat tf i)).
  match goal with |- wp (for_range _ _ ?g ?t) _ _ => assert (exists r', for_range 0 (2 ^ tl) g t = Ok r' /\ R (2 ^ tl) (tab, sn') r') as ([tz sz] & -> & HR) end.
  { eapply for_range_sim; [lia| | |exact E]; [split_and!; [done|apply zlen_zfill; lia|done|lia]|].
    intros u [tf sf] [tz sz] [tf' sf'] Hu (-> & H1 & H2 & H3) E1.
    pose proof (state_symbol_range norm maxSV1 tl Hok u Hu) as Hs. rewrite rd_ok in * by (rewrite zlen_state_symbols; done).
    set (sy := zat (state_symbols norm maxSV1 tl) u) in *. cbn [bind] in *. destruct (rd sf sy) as [x| |]; cbn [bind] in *; try discriminate.
    destruct (wr sf sy _) as [sn2| |]; cbn [bind] in *; try discriminate. destruct (negb (x =? 0)); cbn [defined_if] in *; [|discriminate].
    cbv zeta in *. rewrite wr_ok in E1 by lia. cbn [bind] in E1. injection E1 as <- <-. rewrite !rd_ok by lia. cbn [bind]. rewrite wr_ok by lia. cbn [bind].
    eexists. split; [done|]. split_and!; [done|by rewrite zlen_zupd..|]. intros i Hi. rewrite !zat_zupd by lia.
    destruct (Z.eqb_spec i u); [done|]. apply H3. lia. }
  destruct HR as (_ & H1 & H2 & H3). cbn. unfold dtable_of. cbn [dt_table]. rewrite <- Etab. apply zat_ext.
  - unfold zlen at 2. rewrite length_map. fold (zlen tab). lia.
  - intros i Hi. rewrite H3 by lia. unfold zat. rewrite !list_lookup_total_alt, list_lookup_fmap.
    destruct (lookup_lt_is_Some_2 tab (Z.to_nat i)) as [e He]; [unfold zlen in *; lia|]. by rewrite He.
Qed.

Lemma buildFSETable_ok space wksp :
  2 ^ tl <= zlen space -> maxSV1 <= zlen wksp.1 -> 2 ^ tl + 8 <= zlen wksp.2 ->
  ZSTD_buildFSETable space norm (maxSV1 - 1) base bits tl wksp = Ok (seq_table_of norm maxSV1 tl base bits).
Proof.
  intros Hsp Hsn Hw. pose proof (T_bounds norm maxSV1 tl Hok) as HT. pose proof (tl_range norm maxSV1 tl Hok) as Hr.
  unfold ZSTD_buildFSETable. rewrite !(proj2 (Z.leb_le _ _)) by lia. cbn [andb defined_if].
  assert (wp (ZSTD_buildFSETable_body (zsub space 0 (2 ^ tl)) norm (maxSV1 - 1) base bits tl wksp.1 (zsub wksp.2 0 (2 ^ tl + 8)))
    (fun d => d = seq_table_of norm maxSV1 tl base bits) no_errors) as Hwp.
  2: { by destruct (wp_no_errors_Ok _ _ Hwp) as (d & -> & ->). }
  assert (zlen (zsub space 0 (2 ^ tl)) = 2 ^ tl) as Ez by (apply zlen_zsub; lia). set (table := zsub space 0 (2 ^ tl)) in *.
  assert (zlen (map sq_baseValue table) = 2 ^ tl) as Em by (unfold zlen; rewrite length_map; exact Ez).
  assert (zlen (zsub wksp.2 0 (2 ^ tl + 8)) = 2 ^ tl + 8) as Esp by (apply zlen_zsub; lia).
  unfold ZSTD_buildFSETable_body. cbv zeta. replace (u32 (Z.shiftl 1 tl)) with (2 ^ tl) by (rewrite Z.shiftl_1_l, u32_small; lia).
  replace (maxSV1 - 1 + 1) with maxSV1 by lia. pose proof (low_count_range norm maxSV1 tl Hok) as Hlc.
  wp_step. eapply wp_mono; [by apply dtable_init| |done].
  intros [[[syms sn] high] fm] (-> & Hlsn & Hsnx & -> & ->). rewrite (high_eq norm maxSV1 tl Hok). wp_step.
  assert (wp (let* '(table0, _) := for_range 0 (2 ^ tl) (fun u '(table, symbolNext) =>
      let* symbol := rd (state_symbols norm maxSV1 tl) u in
      let* nextState := rd symbolNext symbol in
      let* symbolNext := wr symbolNext symbol (u16 (nextState + 1)) in
      REQUIRE negb (nextState =? 0) ;;
      let* nbAdd := rd bits symbol in
      let* b := rd base symbol in
      let* table := wr table u (mkSym (u16 (Z.shiftl nextState (u8 (tl - ZSTD_highbit32 nextState)) - 2 ^ tl)) nbAdd
        (u8 (tl - ZSTD_highbit32 nextState)) b) in
      Ok (table, symbolNext)) (table, sn) in
    Ok (mkSeqTable (b2z (no_large norm maxSV1 tl)) tl table0)) (fun d => d = seq_table_of norm maxSV1 tl base bits) no_errors) as Hbuild.
  { wp_step. eapply wp_mono; [by apply seq_decoding| |done]. intros [tab sn'] ->. by wp_step. }
  destruct (Z.eqb_spec (low_count norm maxSV1) 0) as [E0|E0].
  - eapply (wp_mono _ (fun r => r = (state_symbols norm maxSV1 tl, 0))); [|intros ? ->; exact Hbuild|done].
    pose proof (spread_fast_phase norm maxSV1 tl Hok _ _ Ok (fun r => r = (state_symbols norm maxSV1 tl, 0)) no_errors Em Esp E0 eq_refl) as Hf.
    destruct (FSE_layDown _ _ _) as [sp| |]; cbn [bind] in *; [|done|done]. by destruct (FSE_spreadFast _ _ _ _).
  - rewrite (spread_slow_phase norm maxSV1 tl Hok) by done. exact Hbuild.
Qed.
End build.

(** *** The default tables *)

Lemma norm_ok_dec norm maxSV1 tl :
  (5 <=? tl) && (tl <=? 15) && (0 <=? maxSV1) && (maxSV1 <=? zlen norm) && (maxSV1 <=? 256) &&
  forallb (fun s => -1 <=? zat norm s) (seqZ 0 maxSV1) && (cum norm maxSV1 =? 2 ^ tl) = true -> norm_ok norm maxSV1 tl.
Proof.
  intros H. apply andb_true_iff in H as [H H7]. apply andb_true_iff in H as [H H6]. bools. split; try lia.
  intros s Hs. rewrite forallb_forall in H6. apply Z.leb_le, H6, list_elem_of_In, elem_of_seqZ. lia.
Qed.

Lemma default_norms_ok : norm_ok LL_defaultNorm 36 6 /\ norm_ok OF_defaultNorm 29 5 /\ norm_ok ML_defaultNorm 53 6.
Proof. split_and!; apply norm_ok_dec; vm_compute; reflexivity. Qed.

Lemma default_cells :
  st_cells LL_defaultDTable = st_cells (seq_table_of LL_defaultNorm 36 6 LL_base LL_bits) /\
  st_cells OF_defaultDTable = st_cells (seq_table_of OF_defaultNorm 29 5 OF_base OF_bits) /\
  st_cells ML_defaultDTable = st_cells (seq_table_of ML_defaultNorm 53 6 ML_base ML_bits).
Proof. split_and!; vm_compute; reflexivity. Qed.

Lemma built_as norm maxSV1 tl base bits space wksp maxSV log def :
  norm_ok norm maxSV1 tl -> tl <= 6 -> maxSV1 <= zlen base /\ maxSV1 <= zlen bits -> 64 <= zlen space -> maxSV1 <= zlen wksp.1 -> 72 <= zlen wksp.2 ->
  maxSV = maxSV1 - 1 -> log = tl -> st_tableLog def = tl -> st_cells def = st_cells (seq_table_of norm maxSV1 tl base bits) ->
  exists t, ZSTD_buildFSETable space norm maxSV base bits log wksp = Ok t /\ st_cells t = st_cells def /\ st_tableLog t = st_tableLog def.
Proof.
  intros Hok Htl Hb Hsp Hw1 Hw2 -> -> -> ->. pose proof (pow2_le tl 6). pose proof (tl_range _ _ _ Hok). eexists.
  split; [apply buildFSETable_ok; first [done|lia]|]. split; reflexivity.
Qed.

Lemma seqTable_wf_same base bits max maxLog t t' n :
  seqTable_wf base bits max maxLog t -> st_tableLog t = n -> st_tableLog t' = n -> st_cells t' = st_cells t -> seqTable_wf base bits max maxLog t'.
Proof. intros [H1 H2 H3] E1 E1' E2. rewrite <- E1' in E1. split; rewrite <- ?E1, ?E2; done. Qed.

Lemma default_tables_wf : seq_tables_wf (mkSeqTables LL_defaultDTable OF_defaultDTable ML_defaultDTable 0).
Proof.
  destruct default_norms_ok as (H1 & H2 & H3), default_cells as (E1 & E2 & E3).
  pose proof (seq_table_wf LL_defaultNorm 36 6 LL_base LL_bits H1 MaxLL LLFSELog ltac:(done) ltac:(done)) as W1.
  pose proof (seq_table_wf OF_defaultNorm 29 5 OF_base OF_bits H2 MaxOff OffFSELog ltac:(done) ltac:(done)) as W2.
  pose proof (seq_table_wf ML_defaultNorm 53 6 ML_base ML_bits H3 MaxML MLFSELog ltac:(done) ltac:(done)) as W3.
  split_and!; cbn [LLTptr OFTptr MLTptr]; [exact (seqTable_wf_same _ _ _ _ _ LL_defaultDTable 6 W1 eq_refl eq_refl E1)|exact (seqTable_wf_same _ _ _ _ _ OF_defaultDTable 5 W2 eq_refl eq_refl E2)|
    exact (seqTable_wf_same _ _ _ _ _ ML_defaultDTable 6 W3 eq_refl eq_refl E3)].
Qed.

(** *** The headers *)

Lemma buildSeqTable_ok space ptr type max maxLog src base bits def flag norm wksp :
  bytes_ok src -> zlen src < 2 ^ 26 -> 0 <= max <= MaxSeq -> 0 <= maxLog <= 9 -> 2 ^ maxLog <= zlen space -> zlen norm = MaxSeq + 1 ->
  seq_wksp_ok wksp -> zlen base = max + 1 -> zlen bits = max + 1 -> seqTable_wf base bits max maxLog def ->
  (flag <> 0 -> seqTable_wf base bits max maxLog ptr) ->
  wp (ZSTD_buildSeqTable space ptr type max maxLog src base bits def flag norm wksp)
    (fun '(n, t) => 0 <= n <= zlen src /\ seqTable_wf base bits max maxLog t) any_error.
Proof.
  intros Hb Hl Hmax Hml Hsp Hn [Hw1 Hw2] Hbase Hbits Hdef Hptr. pose proof (zlen_nonneg src). change MaxSeq with 52 in *. change MaxFSELog with 9 in *.
  destruct type; cbn [ZSTD_buildSeqTable].
  - apply wp_Ok. split; [lia|done].
  - wp_step; [done|]. wp_step. wp_step; [lia|]. pose proof (bytes_ok_zat src 0 Hb ltac:(lia)). wp_step; [done|]. wp_step. wp_step; [lia|].
    wp_step. wp_step; [lia|]. wp_step. split; [lia|]. split; cbn; [lia|done|]. intros u Hu. change (2 ^ 0) with 1 in *. assert (u = 0) as -> by lia. cbv zeta. rewrite zat_cons_0. cbn.
    split_and!; try lia. exists (zat src 0). split_and!; done || lia.
  - pose proof (readNCount_ok norm max src Hb Hl ltac:(lia) ltac:(lia)) as Hr.
    destruct (FSE_readNCount norm max src) as [r|e|]; [|done|done]. cbn [wp] in Hr. destruct Hr as (Hsz & Hms & Htl & Hln & Hok).
    wp_step; [done|]. destruct Hok as [Hok|[? _]]; [|lia]. wp_step. replace (nco_maxSV r) with (nco_maxSV r + 1 - 1) by lia.
    assert (2 ^ nco_tableLog r <= 2 ^ maxLog) by (apply pow2_le; lia). assert (2 ^ maxLog <= 2 ^ 9) by (apply pow2_le; lia).
    rewrite buildFSETable_ok; [|done|lia|lia|lia|lia|lia]. cbn [wp]. split; [lia|]. apply seq_table_wf; [done|lia|lia].
  - wp_step; [done|]. wp_step. split; [lia|]. by apply Hptr.
Qed.

Lemma or_corrupted_wp {A} (m : result A) (Q : A -> Prop) : wp m Q any_error -> wp (or_corrupted m) Q any_error.
Proof. by destruct m. Qed.

Lemma le2_range src p : bytes_ok src -> 0 <= p -> p + 2 <= zlen src -> wp (MEM_readLE16 true src p) (fun v => 0 <= v < 2 ^ 16) any_error.
Proof.
  intros Hb Hp Hl. rewrite readLE16_spec by done. cbn [wp]. pose proof (le_val_range _ (bytes_ok_zsub src p 2 Hb)) as Hr.
  rewrite zlen_zsub in Hr by lia. exact Hr.
Qed.

(** The tables after a header, and before it if one is to be repeated. *)
Lemma decodeSeqHeaders_ok tables src w1 w2 w3 :
  bytes_ok src -> zlen src < 2 ^ 26 -> seq_scratch_ok w1 -> seq_scratch_ok w2 -> seq_scratch_ok w3 ->
  (fseEntropy tables <> 0 -> seq_tables_wf tables) ->
  wp (ZSTD_decodeSeqHeaders tables src w1 w2 w3) (fun '(n, nbSeq, tables') =>
    1 <= n <= zlen src /\ 0 <= nbSeq < 2 ^ 16 + LONGNBSEQ /\ fseEntropy tables' = fseEntropy tables /\
    (nbSeq = 0 -> n = zlen src /\ tables' = tables) /\ (nbSeq <> 0 -> seq_tables_wf tables')) any_error.
Proof.
  intros Hb Hl Hw1 Hw2 Hw3 Ht. pose proof (zlen_nonneg src). unfold ZSTD_decodeSeqHeaders. change MIN_SEQUENCES_SIZE with 1. unfold LONGNBSEQ.
  wp_step; [done|]. wp_step. wp_step; [lia|]. pose proof (bytes_ok_zat src 0 Hb ltac:(lia)).
  wp_step. eapply (wp_mono _ (fun '(nb, ip) => 0 <= nb < 2 ^ 16 + 0x7F00 /\ 1 <= ip <= zlen src) _ any_error).
  { wp_step; [|wp_step; lia]. wp_step; wp_step; try done.
    - wp_step. eapply wp_mono; [apply le2_range; [done|lia|lia]|intros v Hv; cbv beta in Hv; wp_step; lia|done].
    - wp_step. wp_step; [lia|]. pose proof (bytes_ok_zat src 1 Hb ltac:(lia)). wp_step. rewrite Z.shiftl_mul_pow2 by lia. lia. }
  2: done.
  intros [nb ip] [Hnb Hip]. wp_step.
  - wp_step; [done|]. wp_step. bools. split_and!; done || lia.
  - wp_step; [done|]. wp_step. wp_step; [lia|]. wp_step; [done|]. cbv zeta.
    assert (forall i, 0 <= i <= zlen src -> bytes_ok (zsub src i (zlen src - i)) /\ zlen (zsub src i (zlen src - i)) = zlen src - i) as Hsub.
    { intros i Hi. split; [by apply bytes_ok_zsub|apply zlen_zsub; lia]. }
    destruct default_tables_wf as (Hd1 & Hd2 & Hd3). cbn [LLTptr OFTptr MLTptr] in *.
    destruct Hw1 as (Hs1 & _ & _ & Hn1 & Hk1), Hw2 as (_ & Hs2 & _ & Hn2 & Hk2), Hw3 as (_ & _ & Hs3 & Hn3 & Hk3).
    wp_step. destruct (Hsub (ip + 1) ltac:(lia)) as [Hb1 E1].
    eapply wp_mono; [apply or_corrupted_wp, buildSeqTable_ok; try done; try lia; intros Hf; by apply (Ht Hf)| |done].
    intros [n1 t1] [Hr1 Ht1]. rewrite E1 in Hr1. wp_step. destruct (Hsub (ip + 1 + n1) ltac:(lia)) as [Hb2 E2].
    eapply wp_mono; [apply or_corrupted_wp, buildSeqTable_ok; try done; try lia; intros Hf; by apply (Ht Hf)| |done].
    intros [n2 t2] [Hr2 Ht2]. rewrite E2 in Hr2. wp_step. destruct (Hsub (ip + 1 + n1 + n2) ltac:(lia)) as [Hb3 E3].
    eapply wp_mono; [apply or_corrupted_wp, buildSeqTable_ok; try done; try lia; intros Hf; by apply (Ht Hf)| |done].
    intros [n3 t3] [Hr3 Ht3]. rewrite E3 in Hr3. wp_step. cbn [fseEntropy]. split_and!; try lia; try done.
Qed.

(** ** Properties *)

(** C15: the default tables are written correctly. [ZSTD_buildFSETable] builds, from
    the default counts of the format, tables with exactly the cells of
    [LL_defaultDTable], [OF_defaultDTable] and [ML_defaultDTable], whatever its
    space and its workspace hold. *)
Theorem default_tables_are_built space wksp :
  64 <= zlen space -> seq_wksp_ok wksp ->
  (exists t, ZSTD_buildFSETable space LL_defaultNorm MaxLL LL_base LL_bits LL_DEFAULTNORMLOG wksp = Ok t /\
     st_cells t = st_cells LL_defaultDTable /\ st_tableLog t = st_tableLog LL_defaultDTable) /\
  (exists t, ZSTD_buildFSETable space OF_defaultNorm DefaultMaxOff OF_base OF_bits OF_DEFAULTNORMLOG wksp = Ok t /\
     st_cells t = st_cells OF_defaultDTable /\ st_tableLog t = st_tableLog OF_defaultDTable) /\
  (exists t, ZSTD_buildFSETable space ML_defaultNorm MaxML ML_base ML_bits ML_DEFAULTNORMLOG wksp = Ok t /\
     st_cells t = st_cells ML_defaultDTable /\ st_tableLog t = st_tableLog ML_defaultDTable).
Proof.
  intros Hsp [Hw1 Hw2]. change (zlen wksp.1 = 53) in Hw1. change (zlen wksp.2 = 520) in Hw2.
  assert ((36 <= zlen LL_base /\ 36 <= zlen LL_bits) /\ (29 <= zlen OF_base /\ 29 <= zlen OF_bits) /\ (53 <= zlen ML_base /\ 53 <= zlen ML_bits))
    as (B1 & B2 & B3) by done.
  assert (36 <= zlen wksp.1 /\ 29 <= zlen wksp.1 /\ 53 <= zlen wksp.1 /\ 72 <= zlen wksp.2) as (W1 & W2 & W3 & W) by lia.
  assert (5 <= 6 /\ 6 <= 6) as [L5 L6] by lia. destruct default_norms_ok as (H1 & H2 & H3). destruct default_cells as (E1 & E2 & E3).
  refine (conj _ (conj _ _)).
  - exact (built_as _ _ _ LL_base LL_bits space wksp MaxLL LL_DEFAULTNORMLOG LL_defaultDTable H1 L6 B1 Hsp W1 W eq_refl eq_refl eq_refl E1).
  - exact (built_as _ _ _ OF_base OF_bits space wksp DefaultMaxOff OF_DEFAULTNORMLOG OF_defaultDTable H2 L5 B2 Hsp W2 W eq_refl eq_refl eq_refl E2).
  - exact (built_as _ _ _ ML_base ML_bits space wksp MaxML ML_DEFAULTNORMLOG ML_defaultDTable H3 L6 B3 Hsp W3 W eq_refl eq_refl eq_refl E3).
Qed.

Lemma default_tables_are_built_witness :
  exists t, ZSTD_buildFSETable (zfill 64 (mkSym 1 2 3 4)) OF_defaultNorm DefaultMaxOff OF_base OF_bits OF_DEFAULTNORMLOG (zfill 53 9, zfill 520 7) = Ok t /\
    st_cells t = st_cells OF_defaultDTable /\ st_tableLog t = 5.
Proof.
  apply (default_tables_are_built (zfill 64 (mkSym 1 2 3 4)) (zfill 53 9, zfill 520 7)); vm_compute; repeat split; congruence.
Defined.

(** C14: the header of the sequences section is read safely. Whatever the bytes,
    [ZSTD_decodeSeqHeaders] returns an error or the number of sequences, fewer than
    2^16 + 0x7F00, the bytes it has read, no more than there are, and tables on which
    the decoder can run: every cell leads to a state of its table and names a
    code of the format. A table that is repeated is only used if there is one. *)
Theorem ZSTD_decodeSeqHeaders_safe tables src w1 w2 w3 :
  bytes_ok src -> zlen src < 2 ^ 26 -> seq_scratch_ok w1 -> seq_scratch_ok w2 -> seq_scratch_ok w3 ->
  (fseEntropy tables <> 0 -> seq_tables_wf tables) ->
  wp (ZSTD_decodeSeqHeaders tables src w1 w2 w3) (fun '(n, nbSeq, tables') =>
    1 <= n <= zlen src /\ 0 <= nbSeq < 2 ^ 16 + LONGNBSEQ /\ fseEntropy tables' = fseEntropy tables /\
    (nbSeq = 0 -> n = zlen src /\ tables' = tables) /\ (nbSeq <> 0 -> seq_tables_wf tables')) any_error.
Proof. intros. by apply decodeSeqHeaders_ok. Qed.

Definition sample_scratch : seq_scratch :=
  mkScratch (zfill 512 (mkSym 0 0 0 0)) (zfill 256 (mkSym 0 0 0 0)) (zfill 512 (mkSym 0 0 0 0)) (zfill 53 0) (zfill 53 0, zfill 520 0).

Lemma ZSTD_decodeSeqHeaders_safe_witness :
  let tables := mkSeqTables LL_defaultDTable OF_defaultDTable ML_defaultDTable 0 in
  ZSTD_decodeSeqHeaders tables [2; 0x40; 5] sample_scratch sample_scratch sample_scratch
    = Ok (3, 2, mkSeqTables (ZSTD_buildSeqTable_rle 5 0) OF_defaultDTable ML_defaultDTable 0) /\
  seq_tables_wf (mkSeqTables (ZSTD_buildSeqTable_rle 5 0) OF_defaultDTable ML_defaultDTable 0).
Proof.
  assert (ZSTD_decodeSeqHeaders (mkSeqTables LL_defaultDTable OF_defaultDTable ML_defaultDTable 0) [2; 0x40; 5] sample_scratch sample_scratch sample_scratch
    = Ok (3, 2, mkSeqTables (ZSTD_buildSeqTable_rle 5 0) OF_defaultDTable ML_defaultDTable 0)) as E by (vm_compute; reflexivity).
  split; [exact E|]. assert (seq_scratch_ok sample_scratch) as Hw by (vm_compute; repeat split; congruence).
  pose proof (ZSTD_decodeSeqHeaders_safe (mkSeqTables LL_defaultDTable OF_defaultDTable ML_defaultDTable 0) [2; 0x40; 5]
    sample_scratch sample_scratch sample_scratch ltac:(bytes_dec) ltac:(reflexivity) Hw Hw Hw (fun _ => default_tables_wf)) as H.
  rewrite E in H. cbn [wp] in H. destruct H as (_ & _ & _ & _ & H). apply H. discriminate.
Defined.
