(* ===== verification/SeqDecode.v ===== *)
(** The decoding of the sequences of a block (decompress/zstd_decompress_block.c):
    their three states, their repeated offsets, and the loop that executes them. *)

From S2P Require Import Prelude Errors Outcome Bits Mem BitStream FseTable FseBuild FseSafe LzCopy ExecSequence SeqTables.

(** ** Definitions *)

Record ZSTD_fseState := mkFseState {
  fs_state : Z;
  fs_table : list ZSTD_seqSymbol;
}.
Record seqState_t := mkSeqState {
  ss_DStream : BIT_DStream_t;
  ss_stateLL : ZSTD_fseState;
  ss_stateOffb : ZSTD_fseState;
  ss_stateML : ZSTD_fseState;
  ss_prevOffset : list Z;
}.

Definition STREAM_ACCUMULATOR_MIN : Z := 57.

(** [src] is the buffer of the bit stream. *)
Definition ZSTD_initFseState (src : list Z) (bitD : BIT_DStream_t) (dt : ZSTD_seqTable) : result (ZSTD_fseState * BIT_DStream_t) :=
  let* '(state, bitD) := BIT_readBits bitD (st_tableLog dt) in
  let* '(_, bitD) := BIT_reloadDStream src bitD in
  Ok (mkFseState state (st_cells dt), bitD).

Definition ZSTD_updateFseStateWithDInfo (st : ZSTD_fseState) (bitD : BIT_DStream_t) (nextState nbBits : Z)
  : result (ZSTD_fseState * BIT_DStream_t) :=
  let* '(lowBits, bitD) := BIT_readBits bitD nbBits in
  Ok (mkFseState (nextState + lowBits) (fs_table st), bitD).

(** The offset of a sequence and the offsets that can be repeated after it. *)
Definition decode_offset (bitD : BIT_DStream_t) (prevOffset : list Z) (ofBase ofBits llBase : Z)
  : result (Z * list Z * BIT_DStream_t) :=
  if ofBits >? 1 then
    let* '(v, bitD) := BIT_readBitsFast bitD ofBits in
    let offset := u64 (ofBase + v) in
    let* p1 := rd prevOffset 1 in
    let* prevOffset := wr prevOffset 2 p1 in
    let* p0 := rd prevOffset 0 in
    let* prevOffset := wr prevOffset 1 p0 in
    let* prevOffset := wr prevOffset 0 offset in
    Ok (offset, prevOffset, bitD)
  else
    let ll0 := b2z (llBase =? 0) in
    if ofBits =? 0 then
      let* offset := rd prevOffset ll0 in
      let* other := rd prevOffset (b2z (ll0 =? 0)) in
      let* prevOffset := wr prevOffset 1 other in
      let* prevOffset := wr prevOffset 0 offset in
      Ok (offset, prevOffset, bitD)
    else
      let* '(v, bitD) := BIT_readBitsFast bitD 1 in
      let offset := u64 (ofBase + ll0 + v) in
      let* p0 := rd prevOffset 0 in
      let* temp := (if offset =? 3 then Ok (u64 (p0 - 1)) else rd prevOffset offset) in
      let temp := u64 (temp - b2z (temp =? 0)) in
      let* p1 := rd prevOffset 1 in
      let* prevOffset := (if negb (offset =? 1) then wr prevOffset 2 p1 else Ok prevOffset) in
      let* prevOffset := wr prevOffset 1 p0 in
      let* prevOffset := wr prevOffset 0 temp in
      Ok (temp, prevOffset, bitD).

(** With 64-bit words. *)
Definition ZSTD_decodeSequence (src : list Z) (seqState : seqState_t) (isLastSeq : bool) : result (seq_t * seqState_t) :=
  let* llDInfo := rd (fs_table (ss_stateLL seqState)) (fs_state (ss_stateLL seqState)) in
  let* mlDInfo := rd (fs_table (ss_stateML seqState)) (fs_state (ss_stateML seqState)) in
  let* ofDInfo := rd (fs_table (ss_stateOffb seqState)) (fs_state (ss_stateOffb seqState)) in
  let llBits := sq_nbAdditionalBits llDInfo in
  let mlBits := sq_nbAdditionalBits mlDInfo in
  let ofBits := sq_nbAdditionalBits ofDInfo in
  let totalBits := u8 (llBits + mlBits + ofBits) in
  (* sequence *)
  let* '(offset, prevOffset, bitD) :=
    decode_offset (ss_DStream seqState) (ss_prevOffset seqState) (sq_baseValue ofDInfo) ofBits (sq_baseValue llDInfo) in
  let* '(matchLength, bitD) :=
    (if mlBits >? 0 then
       let* '(v, bitD) := BIT_readBitsFast bitD mlBits in Ok (u64 (sq_baseValue mlDInfo + v), bitD)
     else Ok (sq_baseValue mlDInfo, bitD)) in
  let* bitD :=
    (if totalBits >=? STREAM_ACCUMULATOR_MIN - (LLFSELog + MLFSELog + OffFSELog) then
       let* '(_, bitD) := BIT_reloadDStream src bitD in Ok bitD
     else Ok bitD) in
  let* '(litLength, bitD) :=
    (if llBits >? 0 then
       let* '(v, bitD) := BIT_readBitsFast bitD llBits in Ok (u64 (sq_baseValue llDInfo + v), bitD)
     else Ok (sq_baseValue llDInfo, bitD)) in
  let seq := mkSeq litLength matchLength offset in
  if negb isLastSeq then
    (* don't update FSE state for last Sequence *)
    let* '(stateLL, bitD) :=
      ZSTD_updateFseStateWithDInfo (ss_stateLL seqState) bitD (sq_nextState llDInfo) (sq_nbBits llDInfo) in
    let* '(stateML, bitD) :=
      ZSTD_updateFseStateWithDInfo (ss_stateML seqState) bitD (sq_nextState mlDInfo) (sq_nbBits mlDInfo) in
    let* '(stateOffb, bitD) :=
      ZSTD_updateFseStateWithDInfo (ss_stateOffb seqState) bitD (sq_nextState ofDInfo) (sq_nbBits ofDInfo) in
    let* '(_, bitD) := BIT_reloadDStream src bitD in
    Ok (seq, mkSeqState bitD stateLL stateOffb stateML prevOffset)
  else
    Ok (seq, mkSeqState bitD (ss_stateLL seqState) (ss_stateOffb seqState) (ss_stateML seqState) prevOffset).

(** The start of the functions that decompress sequences. *)
Definition init_seqState (src : list Z) (tables : seq_tables) (rep : list Z) : result seqState_t :=
  let* DStream := or_corrupted (BIT_initDStream src) in
  let* '(stateLL, DStream) := ZSTD_initFseState src DStream (LLTptr tables) in
  let* '(stateOffb, DStream) := ZSTD_initFseState src DStream (OFTptr tables) in
  let* '(stateML, DStream) := ZSTD_initFseState src DStream (MLTptr tables) in
  Ok (mkSeqState DStream stateLL stateOffb stateML rep).

(** The last literals, copied with [memcpy] or [memmove]. *)
Definition last_literals (copy : list Z -> Z -> src_ptr -> Z -> result (list Z)) (d : list Z) (op oend : Z)
    (litPtr : src_ptr) (litEnd : Z) : result (list Z * Z) :=
  let lastLLSize := litEnd - ptr_ix litPtr in
  ERROR_IF lastLLSize >? oend - op THEN dstSize_tooSmall ;;
  let* d := copy d op litPtr lastLLSize in
  Ok (d, op + lastLLSize).

(** The output, the size written and [dctx->entropy.rep]. [litPtr] and [litEnd] are the
    literals, [ostart] to [oend] the output in [d]. *)
Definition ZSTD_decompressSequences_body (d : list Z) (ostart oend : Z) (litPtr : src_ptr) (litEnd : Z)
    (prefixStart virtualStart : Z) (dictEnd : src_ptr) (tables : seq_tables) (rep : list Z) (src : list Z) (nbSeq : Z)
  : result (list Z * Z * list Z) :=
  let* '(d, op, litPtr, rep) :=
    (if negb (nbSeq =? 0) then
       let* seqState := init_seqState src tables rep in
       let* '(d, op, litPtr, seqState, _) :=
         while_ (Z.to_nat nbSeq) (fun '(_, _, _, _, nbSeq) => negb (nbSeq =? 0)) (fun '(d, op, litPtr, seqState, nbSeq) =>
           let* '(sequence, seqState) := ZSTD_decodeSequence src seqState (nbSeq =? 1) in
           let* '(oneSeqSize, d, litPtr) :=
             ZSTD_execSequence d op oend sequence litPtr litEnd prefixStart virtualStart dictEnd in
           Ok (d, op + oneSeqSize, litPtr, seqState, nbSeq - 1)) (d, ostart, litPtr, seqState, nbSeq) in
       (* check if reached exact end *)
       ERROR_IF negb (BIT_endOfDStream (ss_DStream seqState)) THEN corruption_detected ;;
       (* save reps for next block *)
       Ok (d, op, litPtr, map u32 (ss_prevOffset seqState))
     else Ok (d, ostart, litPtr, rep)) in
  (* last literal segment *)
  let* '(d, op) := last_literals memcpy d op oend litPtr litEnd in
  Ok (d, op - ostart, rep).

(** *** What a block means *)

(** The sequences of a block. *)
Fixpoint decode_sequences (src : list Z) (st : seqState_t) (n : nat) : result (list seq_t * seqState_t) :=
  match n with
  | O => Ok ([], st)
  | S n =>
      let* '(s, st) := ZSTD_decodeSequence src st (bool_decide (n = O)) in
      let* '(seqs, st) := decode_sequences src st n in
      Ok (s :: seqs, st)
  end.

(** The sequences, the offsets for the next block, and whether the bits end with them. *)
Definition decode_block (src : list Z) (tables : seq_tables) (rep : list Z) (nbSeq : Z) : result (list seq_t * list Z * bool) :=
  if nbSeq =? 0 then Ok ([], rep, true)
  else
    let* st := init_seqState src tables rep in
    let* '(seqs, st) := decode_sequences src st (Z.to_nat nbSeq) in
    Ok (seqs, map u32 (ss_prevOffset st), BIT_endOfDStream (ss_DStream st)).

(** The sequences on a history, with literals and room left in the output. *)
Fixpoint lz_exec (h lits : list Z) (room : Z) (seqs : list seq_t) : result (list Z * list Z * Z) :=
  match seqs with
  | [] => Ok (h, lits, room)
  | s :: seqs =>
      ERROR_IF litLength s + matchLength s >? room THEN dstSize_tooSmall ;;
      ERROR_IF litLength s >? zlen lits THEN corruption_detected ;;
      ERROR_IF offset s >? zlen h + litLength s THEN corruption_detected ;;
      lz_exec (lz_sequence h (zsub lits 0 (litLength s)) s)
        (zsub lits (litLength s) (zlen lits - litLength s)) (room - litLength s - matchLength s) seqs
  end.

Definition lz_block (h lits : list Z) (room : Z) (seqs : list seq_t) (ended : bool) : result (list Z) :=
  let* '(h, lits, room) := lz_exec h lits room seqs in
  ERROR_IF negb ended THEN corruption_detected ;;
  ERROR_IF zlen lits >? room THEN dstSize_tooSmall ;;
  Ok (h ++ lits).

Definition prev_ok (prev : list Z) : Prop := zlen prev = 3 /\ Forall (fun x => 1 <= x < 2 ^ 64) prev.
Definition prev_small (prev : list Z) : Prop := Forall (fun x => x < 2 ^ 32) prev.

Definition on_seqTable (t : ZSTD_seqTable) (st : ZSTD_fseState) : Prop :=
  fs_table st = st_cells t /\ 0 <= fs_state st < 2 ^ st_tableLog t.

Record seqState_ok (src : list Z) (tables : seq_tables) (over : Z) (st : seqState_t) : Prop := {
  so_stream : dlive src (ss_DStream st) over;
  so_LL : on_seqTable (LLTptr tables) (ss_stateLL st);
  so_OF : on_seqTable (OFTptr tables) (ss_stateOffb st);
  so_ML : on_seqTable (MLTptr tables) (ss_stateML st);
  so_prev : prev_ok (ss_prevOffset st);
}.

(** ** Lemmas *)

Lemma LL_code s : 0 <= s <= MaxLL -> 0 <= zat LL_bits s <= 16 /\ 0 <= zat LL_base s <= 65536.
Proof.
  intros Hs. assert ((0 <=? zat LL_bits s) && (zat LL_bits s <=? 16) && (0 <=? zat LL_base s) && (zat LL_base s <=? 65536) = true) as H; [|bools; lia].
  revert s Hs. intros s Hs. apply (forallb_range (fun s => (0 <=? zat LL_bits s) && (zat LL_bits s <=? 16) && (0 <=? zat LL_base s) && (zat LL_base s <=? 65536)) 0 36);
    [vm_compute; reflexivity|change MaxLL with 35 in Hs; lia].
Qed.
Lemma ML_code s : 0 <= s <= MaxML -> 0 <= zat ML_bits s <= 16 /\ 3 <= zat ML_base s <= 65539.
Proof.
  intros Hs. assert ((0 <=? zat ML_bits s) && (zat ML_bits s <=? 16) && (3 <=? zat ML_base s) && (zat ML_base s <=? 65539) = true) as H; [|bools; lia].
  apply (forallb_range (fun s => (0 <=? zat ML_bits s) && (zat ML_bits s <=? 16) && (3 <=? zat ML_base s) && (zat ML_base s <=? 65539)) 0 53);
    [vm_compute; reflexivity|change MaxML with 52 in Hs; lia].
Qed.
Lemma OF_code s : 0 <= s <= MaxOff -> zat OF_bits s = s /\ (zat OF_base s = if s =? 0 then 0 else if s =? 1 then 1 else 2 ^ s - 3).
Proof.
  intros Hs. assert ((zat OF_bits s =? s) && (zat OF_base s =? if s =? 0 then 0 else if s =? 1 then 1 else 2 ^ s - 3) = true) as H; [|bools; lia].
  apply (forallb_range (fun s => (zat OF_bits s =? s) && (zat OF_base s =? if s =? 0 then 0 else if s =? 1 then 1 else 2 ^ s - 3)) 0 32);
    [vm_compute; reflexivity|change MaxOff with 31 in Hs; lia].
Qed.

Lemma skip_live_by src d over nb n :
  dlive src d over -> 0 <= over < 2 ^ 31 -> 0 <= nb <= n -> n < 64 -> dlive src (BIT_skipBits d nb) (over + n).
Proof.
  intros Hd Ho Hnb Hn. pose proof (dlive_consumed _ _ _ (proj1 Ho) Hd) as Hc.
  destruct (Z.leb_spec (d_bitsConsumed d + nb) 64) as [Hle|Hgt].
  - destruct Hd as [[r Hd]|Hd]; [|lia]. left.
    destruct (readBits_refines src d r nb Hd) as (d' & E & Hd' & _); [lia|unfold davail; lia|].
    exists (r - nb). unfold BIT_readBits in E. destruct (BIT_lookBits d nb); simplify_eq/=. done.
  - right. unfold BIT_skipBits. cbn [d_bitsConsumed]. rewrite u32_small by lia. lia.
Qed.

Lemma dlive_le src d over over' : dlive src d over -> over <= over' -> dlive src d over'.
Proof. intros [H|H] Hle; [by left|right; lia]. Qed.

Lemma prev_list prev : prev_ok prev -> exists a b c, prev = [a; b; c] /\ 1 <= a < 2 ^ 64 /\ 1 <= b < 2 ^ 64 /\ 1 <= c < 2 ^ 64.
Proof.
  intros [Hl Hf]. destruct prev as [|a [|b [|c [|]]]]; unfold zlen in Hl; cbn in Hl; try lia.
  rewrite !Forall_cons in Hf. exists a, b, c. tauto.
Qed.

Lemma prev_ok_3 a b c : 1 <= a < 2 ^ 64 -> 1 <= b < 2 ^ 64 -> 1 <= c < 2 ^ 64 -> prev_ok [a; b; c].
Proof. intros. split; [done|]. repeat constructor; lia. Qed.
Lemma prev_small_3 a b c : prev_small [a; b; c] <-> a < 2 ^ 32 /\ b < 2 ^ 32 /\ c < 2 ^ 32.
Proof. unfold prev_small. rewrite !Forall_cons, Forall_nil. tauto. Qed.

Lemma decode_offset_ok src d over prev s llBase :
  dlive src d over -> 0 <= over < 2 ^ 30 -> prev_ok prev -> 0 <= s <= MaxOff ->
  exists off prev' d', decode_offset d prev (zat OF_base s) (zat OF_bits s) llBase = Ok (off, prev', d') /\
    1 <= off < 2 ^ 64 /\ prev_ok prev' /\ dlive src d' (over + 31) /\ (prev_small prev -> off < 2 ^ 62 -> prev_small prev').
Proof.
  intros Hd Ho Hp Hs. destruct (prev_list _ Hp) as (a & b & c & -> & Ha & Hb & Hc). destruct (OF_code s Hs) as [-> Ebase].
  change MaxOff with 31 in Hs. unfold decode_offset. destruct (Z.gtb_spec s 1).
  - assert (zat OF_base s = 2 ^ s - 3) as -> by (rewrite Ebase; destruct (Z.eqb_spec s 0), (Z.eqb_spec s 1); lia).
    destruct (readBitsFast_any d s) as (v & -> & Hv); [lia|]. cbn [bind]. pose proof (pow2_le 2 s ltac:(lia)). pose proof (pow2_le s 31 ltac:(lia)).
    rewrite u64_small by lia. exists (2 ^ s - 3 + v), [2 ^ s - 3 + v; a; b], (BIT_skipBits d s). split; [reflexivity|]. split; [lia|]. split; [apply prev_ok_3; lia|].
    split; [apply skip_live_by; lia || done|]. intros Hsm ?. apply prev_small_3 in Hsm. apply prev_small_3. lia.
  - destruct (Z.eqb_spec s 0) as [->|Hs0].
    + assert (dlive src d (over + 31)) as Hd' by (eapply dlive_le; [exact Hd|lia]).
      destruct (llBase =? 0); [exists b, [b; a; c], d|exists a, [a; b; c], d]; (split; [reflexivity|]); rewrite !prev_small_3;
        (split; [lia|]); (split; [apply prev_ok_3; lia|]); (split; [done|]); lia.
    + assert (s = 1) as -> by lia. rewrite Ebase. cbn [Z.eqb Pos.eqb]. destruct (readBitsFast_any d 1) as (v & -> & Hv); [lia|]. cbn [bind].
      assert (v = 0 \/ v = 1) as Hv2 by lia. clear Hv.
      assert (forall x, 1 <= x < 2 ^ 64 -> u64 (x - b2z (x =? 0)) = x) as E0.
      { intros x Hx. rewrite (proj2 (Z.eqb_neq x 0)) by lia. cbn [b2z]. rewrite Z.sub_0_r. apply u64_small; lia. }
      set (t3 := u64 (u64 (a - 1) - b2z (u64 (a - 1) =? 0))).
      assert (t3 = 2 ^ 64 - 1 \/ t3 = a - 1 /\ 1 <= t3) as Ht3.
      { unfold t3. rewrite (u64_small (a - 1)) by lia. destruct (Z.eqb_spec (a - 1) 0) as [->|]; cbn [b2z].
        - by left.
        - right. rewrite u64_small; lia. }
      assert (dlive src (BIT_skipBits d 1) (over + 31)) as Hd' by (apply skip_live_by; lia || done).
      assert (forall off, 1 <= off <= 3 -> exists prev',
        (let* p0 := rd [a; b; c] 0 in
         let* temp := (if off =? 3 then Ok (u64 (p0 - 1)) else rd [a; b; c] off) in
         let temp := u64 (temp - b2z (temp =? 0)) in
         let* p1 := rd [a; b; c] 1 in
         let* prevOffset := (if negb (off =? 1) then wr [a; b; c] 2 p1 else Ok [a; b; c]) in
         let* prevOffset := wr prevOffset 1 p0 in
         let* prevOffset := wr prevOffset 0 temp in
         Ok (temp, prevOffset, BIT_skipBits d 1)) = Ok (hd 0 prev', prev', BIT_skipBits d 1) /\
        1 <= hd 0 prev' < 2 ^ 64 /\ prev_ok prev' /\ (prev_small [a; b; c] -> hd 0 prev' < 2 ^ 62 -> prev_small prev')) as Hrep.
      { intros off Hoff. assert (off = 1 \/ off = 2 \/ off = 3) as [->|[->| ->]] by lia.
        - exists [b; a; c]. split; [cbn [hd]; rewrite <- (E0 b Hb) at 2 3; reflexivity|]. cbn [hd]. split; [lia|]. split; [apply prev_ok_3; lia|]. rewrite !prev_small_3. lia.
        - exists [c; a; b]. split; [cbn [hd]; rewrite <- (E0 c Hc) at 2 3; reflexivity|]. cbn [hd]. split; [lia|]. split; [apply prev_ok_3; lia|]. rewrite !prev_small_3. lia.
        - exists [t3; a; b]. split; [done|]. cbn [hd]. split; [lia|]. split; [apply prev_ok_3; lia|]. rewrite !prev_small_3. lia. }
      destruct (Hrep (u64 (1 + b2z (llBase =? 0) + v))) as (prev' & E & H1 & H2 & H3).
      { destruct (llBase =? 0), Hv2 as [->| ->]; vm_compute; split; congruence. }
      exists (hd 0 prev'), prev', (BIT_skipBits d 1). split; [exact E|]. done.
Qed.

(** *** A sequence *)

Lemma updateFseState_ok base bits max maxLog t st d :
  seqTable_wf base bits max maxLog t -> maxLog <= 9 -> on_seqTable t st -> let c := zat (st_cells t) (fs_state st) in
  exists st', ZSTD_updateFseStateWithDInfo st d (sq_nextState c) (sq_nbBits c) = Ok (st', BIT_skipBits d (sq_nbBits c)) /\
    on_seqTable t st' /\ 0 <= sq_nbBits c <= 9.
Proof.
  intros [H1 H2 H3] Hml [E Hst] c. destruct (H3 (fs_state st) Hst) as (Hn & Hx & Hlt & _). fold c in Hn, Hx, Hlt.
  unfold ZSTD_updateFseStateWithDInfo. destruct (readBits_any d (sq_nbBits c)) as (v & -> & Hv); [lia|]. cbn [bind].
  eexists. split; [done|]. split; [|lia]. split; cbn [fs_table fs_state]; [exact E|lia].
Qed.

(** Bits added to the base of a code. *)
Lemma add_bits_ok src d over base nb :
  dlive src d over -> 0 <= over < 2 ^ 30 -> 0 <= nb <= 16 -> 0 <= base < 2 ^ 20 ->
  exists v d', (if nb >? 0 then let* '(v, bitD) := BIT_readBitsFast d nb in Ok (u64 (base + v), bitD) else Ok (base, d)) = Ok (v, d') /\
    base <= v < 2 ^ 21 /\ dlive src d' (over + 16).
Proof.
  intros Hd Ho Hnb Hb. destruct (Z.gtb_spec nb 0).
  - destruct (readBitsFast_any d nb) as (v & -> & Hv); [lia|]. cbn [bind]. pose proof (pow2_le nb 16 ltac:(lia)).
    rewrite u64_small by lia. exists (base + v), (BIT_skipBits d nb). split; [done|]. split; [lia|]. apply skip_live_by; lia || done.
  - exists base, d. split; [done|]. split; [lia|]. eapply dlive_le; [exact Hd|lia].
Qed.

Lemma reload_if_ok src d over (c : bool) :
  bytes_ok src -> dlive src d over -> 0 <= over ->
  exists d', (if c then let* '(_, bitD) := BIT_reloadDStream src d in Ok bitD else Ok d) = Ok d' /\ dlive src d' over.
Proof.
  intros Hb Hd Ho. destruct c; [|eauto]. destruct (reload_live src d over Hb Hd Ho) as (s & d' & -> & Hd' & _). eauto.
Qed.

Lemma decodeSequence_ok src tables over st isLast :
  bytes_ok src -> seq_tables_wf tables -> seqState_ok src tables over st -> 0 <= over < 2 ^ 29 ->
  exists s st', ZSTD_decodeSequence src st isLast = Ok (s, st') /\ seq_ok s /\ seqState_ok src tables (over + 100) st' /\
    (prev_small (ss_prevOffset st) -> offset s < 2 ^ 62 -> prev_small (ss_prevOffset st')).
Proof.
  intros Hb (HLL & HOF & HML) [Hd [ELL HsLL] [EOF HsOF] [EML HsML] Hp] Ho. unfold ZSTD_decodeSequence. rewrite ELL, EOF, EML.
  rewrite !rd_ok by (rewrite ?(sw_len _ _ _ _ _ HLL), ?(sw_len _ _ _ _ _ HOF), ?(sw_len _ _ _ _ _ HML); done). cbn [bind].
  set (cl := zat (st_cells (LLTptr tables)) _). set (cm := zat (st_cells (MLTptr tables)) _). set (co := zat (st_cells (OFTptr tables)) _).
  destruct (sw_cell _ _ _ _ _ HLL _ HsLL) as (_ & _ & _ & sl & Hsl & Ebl & Eal). fold cl in Ebl, Eal.
  destruct (sw_cell _ _ _ _ _ HML _ HsML) as (_ & _ & _ & sm & Hsm & Ebm & Eam). fold cm in Ebm, Eam.
  destruct (sw_cell _ _ _ _ _ HOF _ HsOF) as (_ & _ & _ & so & Hso & Ebo & Eao). fold co in Ebo, Eao.
  destruct (LL_code sl Hsl) as [Hl1 Hl2], (ML_code sm Hsm) as [Hm1 Hm2]. cbv zeta.
  destruct (decode_offset_ok src (ss_DStream st) over (ss_prevOffset st) so (sq_baseValue cl) Hd ltac:(lia) Hp Hso)
    as (off & prev' & d1 & E & Hoff & Hp' & Hd1 & Hsmall). rewrite Ebo, Eao, E. clear E. cbn [bind].
  destruct (add_bits_ok src d1 (over + 31) (sq_baseValue cm) (sq_nbAdditionalBits cm) Hd1) as (ml & d2 & E & Hml & Hd2); [lia..|].
  rewrite E. clear E. cbn [bind].
  destruct (reload_if_ok src d2 (over + 31 + 16) (u8 (sq_nbAdditionalBits cl + sq_nbAdditionalBits cm + zat OF_bits so)
    >=? STREAM_ACCUMULATOR_MIN - (LLFSELog + MLFSELog + OffFSELog)) Hb Hd2) as (d3 & E & Hd3); [lia|]. rewrite E. clear E. cbn [bind].
  destruct (add_bits_ok src d3 (over + 31 + 16) (sq_baseValue cl) (sq_nbAdditionalBits cl) Hd3) as (ll & d4 & E & Hll & Hd4); [lia..|].
  rewrite E. clear E. cbn [bind].
  assert (seq_ok (mkSeq ll ml off)) as Hseq by (split_and!; cbn; lia). destruct isLast; cbn [negb].
  - do 2 eexists. split; [done|]. split; [exact Hseq|]. split; [|exact Hsmall]. split; cbn; try done. eapply dlive_le; [exact Hd4|lia].
  - destruct (updateFseState_ok _ _ _ _ _ (ss_stateLL st) d4 HLL ltac:(done) (conj ELL HsLL)) as (st1 & E1 & Hst1 & Hn1). fold cl in E1, Hn1. rewrite E1. cbn [bind].
    pose proof (skip_live_by src d4 _ _ 9 Hd4 ltac:(lia) Hn1 ltac:(lia)) as Hd5.
    destruct (updateFseState_ok _ _ _ _ _ (ss_stateML st) (BIT_skipBits d4 (sq_nbBits cl)) HML ltac:(done) (conj EML HsML)) as (st2 & E2 & Hst2 & Hn2). fold cm in E2, Hn2. rewrite E2. cbn [bind].
    pose proof (skip_live_by src _ _ _ 9 Hd5 ltac:(lia) Hn2 ltac:(lia)) as Hd6.
    destruct (updateFseState_ok _ _ _ _ _ (ss_stateOffb st) (BIT_skipBits (BIT_skipBits d4 (sq_nbBits cl)) (sq_nbBits cm)) HOF ltac:(done) (conj EOF HsOF)) as (st3 & E3 & Hst3 & Hn3). fold co in E3, Hn3. rewrite E3. cbn [bind].
    pose proof (skip_live_by src _ _ _ 9 Hd6 ltac:(lia) Hn3 ltac:(lia)) as Hd7.
    destruct (reload_live _ _ _ Hb Hd7 ltac:(lia)) as (rs & d8 & -> & Hd8 & _). cbn [bind].
    do 2 eexists. split; [done|]. split; [exact Hseq|]. split; [|exact Hsmall]. split; cbn; try done. eapply dlive_le; [exact Hd8|lia].
Qed.

(** *** The sequences of a block *)

Lemma initFseState_ok base bits max maxLog t src d over :
  bytes_ok src -> seqTable_wf base bits max maxLog t -> maxLog <= 9 -> dlive src d over -> 0 <= over < 1000 ->
  exists st d', ZSTD_initFseState src d t = Ok (st, d') /\ on_seqTable t st /\ dlive src d' (over + 12).
Proof.
  intros Hb [H1 H2 H3] Hml Hd Ho. unfold ZSTD_initFseState. destruct (readBits_any d (st_tableLog t)) as (v & -> & Hv); [lia|]. cbn [bind].
  destruct (reload_live src (BIT_skipBits d (st_tableLog t)) (over + 12) Hb) as (rs & d' & -> & Hd' & _); [apply skip_live; lia || done|lia|].
  cbn [bind]. do 2 eexists. split; [done|]. split; [|done]. split; cbn [fs_table fs_state]; [reflexivity|lia].
Qed.

Lemma init_seqState_ok src tables rep :
  bytes_ok src -> zlen src < 2 ^ 32 -> seq_tables_wf tables -> prev_ok rep ->
  wp (init_seqState src tables rep) (fun st => seqState_ok src tables 100 st /\ ss_prevOffset st = rep) any_error.
Proof.
  intros Hb Hl (HLL & HOF & HML) Hp. unfold init_seqState. wp_step. apply or_corrupted_wp, initDStream_wp; [done|done|]. intros d0 _ Hd0.
  destruct (initFseState_ok _ _ _ _ _ src d0 0 Hb HLL ltac:(done)) as (s1 & d1 & -> & Hs1 & Hd1); [by left; eauto|lia|]. cbn [bind].
  destruct (initFseState_ok _ _ _ _ _ src d1 _ Hb HOF ltac:(done) Hd1) as (s2 & d2 & -> & Hs2 & Hd2); [lia|]. cbn [bind].
  destruct (initFseState_ok _ _ _ _ _ src d2 _ Hb HML ltac:(done) Hd2) as (s3 & d3 & -> & Hs3 & Hd3); [lia|]. cbn [bind].
  wp_step. split; [|done]. split; cbn; try done. eapply dlive_le; [exact Hd3|lia].
Qed.

Lemma decode_sequences_ok src tables n over st :
  bytes_ok src -> seq_tables_wf tables -> seqState_ok src tables over st -> 0 <= over -> over + 100 * Z.of_nat n < 2 ^ 29 ->
  exists seqs st', decode_sequences src st n = Ok (seqs, st') /\ Forall seq_ok seqs /\ seqState_ok src tables (over + 100 * Z.of_nat n) st' /\
    length seqs = n.
Proof.
  intros Hb Ht. revert over st. induction n as [|n IH]; intros over st Hst Ho Hn; cbn [decode_sequences].
  - exists [], st. rewrite Z.add_0_r. done.
  - destruct (decodeSequence_ok src tables over st (bool_decide (n = O)) Hb Ht Hst ltac:(lia)) as (s & st1 & -> & Hs & Hst1 & _). cbn [bind].
    destruct (IH _ st1 Hst1 ltac:(lia) ltac:(lia)) as (seqs & st' & -> & Hseqs & Hst' & El). cbn [bind].
    exists (s :: seqs), st'. split; [done|]. split; [by constructor|]. split; [|cbn; by rewrite El].
    by replace (over + 100 * Z.of_nat (S n)) with (over + 100 + 100 * Z.of_nat n) by lia.
Qed.

Lemma ptr_sub_same d d' p n :
  (match p with In_dst i => zlen d' = zlen d /\ forall j, i <= j -> zat d' j = zat d j | In_buf _ _ => True end) -> 0 <= ptr_ix p -> 0 <= n ->
  ptr_ix p + n <= zlen (ptr_buf d p) -> ptr_sub d' p n = ptr_sub d p n.
Proof.
  destruct p as [i|b i]; [|done]. intros [El H] Hi Hn Hl. cbn in *. unfold ptr_sub. cbn. apply zat_ext; [rewrite !zlen_zsub; lia|].
  intros j Hj. rewrite zlen_zsub in Hj by lia. rewrite !zat_zsub by lia. apply H. lia.
Qed.

Lemma ptr_sub_add d p k n :
  0 <= k <= n -> 0 <= ptr_ix p -> ptr_ix p + n <= zlen (ptr_buf d p) -> ptr_sub d (ptr_add p k) (n - k) = zsub (ptr_sub d p n) k (n - k).
Proof.
  intros Hk Hp Hl. unfold ptr_sub. assert (ptr_buf d (ptr_add p k) = ptr_buf d p /\ ptr_ix (ptr_add p k) = ptr_ix p + k) as [-> ->] by (by destruct p).
  apply zat_ext; rewrite !zlen_zsub by (rewrite ?zlen_zsub; lia); [done|]. intros j Hj. rewrite !zat_zsub by (rewrite ?zlen_zsub; lia). f_equal. lia.
Qed.

Lemma ptr_sub_take d p k n :
  0 <= k <= n -> 0 <= ptr_ix p -> ptr_ix p + n <= zlen (ptr_buf d p) -> zsub (ptr_sub d p n) 0 k = ptr_sub d p k.
Proof.
  intros Hk Hp Hl. unfold ptr_sub.
  apply zat_ext; rewrite !zlen_zsub by (rewrite ?zlen_zsub; lia); [done|]. intros j Hj. rewrite !zat_zsub by (rewrite ?zlen_zsub; lia). done.
Qed.

Lemma zlen_ptr_sub d p n : 0 <= ptr_ix p -> 0 <= n -> ptr_ix p + n <= zlen (ptr_buf d p) -> zlen (ptr_sub d p n) = n.
Proof. intros. unfold ptr_sub. by apply zlen_zsub. Qed.

Section body.
Context (dict src : list Z) (tables : seq_tables) (ps oend litEnd : Z) (n0 : nat).
Hypothesis Hsrc : bytes_ok src.
Hypothesis Htables : seq_tables_wf tables.
Hypothesis Hps : 0 <= ps.
Hypothesis Hsize : oend < 2 ^ 60 /\ zlen dict < 2 ^ 60.

(** The state of the loop before some sequences. *)
Record loop_ok (d : list Z) (op : Z) (lit : src_ptr) (st : seqState_t) (over : Z) : Prop := {
  lo_op : ps <= op <= oend;
  lo_oend : oend <= zlen d;
  lo_lit : lit_room d oend lit litEnd;
  lo_st : seqState_ok src tables over st;
  lo_over : 0 <= over;
}.

(** What is outside the output has not changed. *)
Definition outside (d d' : list Z) (op : Z) : Prop :=
  zlen d' = zlen d /\ forall i, 0 <= i < op \/ oend <= i -> zat d' i = zat d i.

Lemma lit_room_outside d d' op lit : outside d d' op -> lit_room d oend lit litEnd -> lit_room d' oend lit litEnd.
Proof. intros [El _] (H1 & H2 & H3 & H4). destruct lit; (split; [exact H1|]); cbn [ptr_buf] in *; rewrite ?El; done. Qed.

Lemma lit_room_add d lit k : lit_room d oend lit litEnd -> 0 <= k -> ptr_ix lit + k <= litEnd -> lit_room d oend (ptr_add lit k) litEnd.
Proof. intros (H1 & H2 & H3 & H4) Hk Hl. destruct lit; cbn in *; split_and!; cbn; lia. Qed.

Lemma lits_outside d d' op lit n :
  outside d d' op -> lit_room d oend lit litEnd -> 0 <= n -> ptr_ix lit + n <= litEnd -> ptr_sub d' lit n = ptr_sub d lit n.
Proof.
  intros [El Ho] (H1 & H2 & H3 & H4) Hn Hl. unfold WILDCOPY_OVERLENGTH in H2. apply ptr_sub_same; [|lia..].
  destruct lit; [|done]. split; [done|]. intros. apply Ho. lia.
Qed.

Definition exec_loop (n : nat) (d : list Z) (op : Z) (lit : src_ptr) (st : seqState_t) :=
  while_ n (fun '(_, _, _, _, nbSeq) => negb (nbSeq =? 0)) (fun '(d, op, litPtr, seqState, nbSeq) =>
    let* '(sequence, seqState) := ZSTD_decodeSequence src seqState (nbSeq =? 1) in
    let* '(oneSeqSize, d, litPtr) :=
      ZSTD_execSequence d op oend sequence litPtr litEnd ps (ps - zlen dict) (In_buf dict (zlen dict)) in
    Ok (d, op + oneSeqSize, litPtr, seqState, nbSeq - 1)) (d, op, lit, st, Z.of_nat n).

Lemma exec_loop_ok n d op lit st over :
  loop_ok d op lit st over -> over + 100 * Z.of_nat n < 2 ^ 29 ->
  match (let* '(seqs, st') := decode_sequences src st n in
         let* '(h, lits, room) := lz_exec (history ps dict d op) (ptr_sub d lit (litEnd - ptr_ix lit)) (oend - op) seqs in
         Ok (h, lits, room, st')) with
  | Ok (h, lits, room, st') => exists d' lit',
      exec_loop n d op lit st = Ok (d', oend - room, lit', st', 0) /\ outside d d' op /\
      (bytes_ok d -> ptr_bytes lit -> bytes_ok dict -> bytes_ok d' /\ ptr_bytes lit') /\
      history ps dict d' (oend - room) = h /\ ptr_sub d' lit' (litEnd - ptr_ix lit') = lits /\ op <= oend - room /\
      loop_ok d' (oend - room) lit' st' (over + 100 * Z.of_nat n) /\
      (prev_small (ss_prevOffset st) -> prev_small (ss_prevOffset st')) /\ (exists a, 0 <= a /\ lit' = ptr_add lit a)
  | Err e => exec_loop n d op lit st = Err e
  | Stuck => False
  end.
Proof.
  revert d op lit st over. induction n as [|n IH]; intros d op lit st over [Hop Hd Hlit Hst Ho] Hn.
  - cbn [decode_sequences lz_exec bind]. exists d, lit. replace (oend - (oend - op)) with op by lia. rewrite Z.add_0_r.
    split; [done|]. split_and!; try done; try lia. exists 0. by rewrite ptr_add_0.
  - cbn [decode_sequences]. unfold exec_loop. cbn [while_]. rewrite (proj2 (Z.eqb_neq _ _)) by lia. cbn [negb].
    replace (Z.of_nat (S n) =? 1) with (bool_decide (n = O)) by (by destruct n; [|rewrite bool_decide_false, (proj2 (Z.eqb_neq _ _)) by lia]).
    destruct (decodeSequence_ok src tables over st (bool_decide (n = O)) Hsrc Htables Hst ltac:(lia)) as (s & st1 & -> & Hs & Hst1 & Hsm). cbn [bind].
    destruct (decode_sequences_ok src tables n _ st1 Hsrc Htables Hst1 ltac:(lia) ltac:(lia)) as (seqs & st' & Eseqs & _). rewrite Eseqs. cbn [bind lz_exec].
    pose proof (execSequence_history dict ps op oend s lit litEnd d ltac:(lia) ltac:(lia) Hd ltac:(lia) ltac:(lia) Hlit Hs) as Hex. cbv zeta in Hex.
    pose proof Hlit as (Hl1 & Hl2 & _). unfold WILDCOPY_OVERLENGTH in Hl2. pose proof Hs as (Hsl & Hsm1 & Hso).
    rewrite zlen_history, zlen_ptr_sub by lia. unfold seq_error in Hex. unfold RETURN_ERROR_IF at 1 2 3.
    replace (op + litLength s - (ps - zlen dict)) with (zlen dict + (op - ps) + litLength s) in Hex by lia.
    destruct (litLength s + matchLength s >? oend - op); [by rewrite Hex|].
    destruct (litLength s >? litEnd - ptr_ix lit); [by rewrite Hex|].
    destruct (Z.gtb_spec (offset s) (zlen dict + (op - ps) + litLength s)); [by rewrite Hex|].
    destruct Hex as (d1 & -> & Hr1 & Hr2 & El & Hout & Hby & Hh). cbn [bind].
    assert (outside d d1 op) as Hod by (by split).
    assert (loop_ok d1 (op + (litLength s + matchLength s)) (ptr_add lit (litLength s)) st1 (over + 100)) as Hlo.
    { split; [lia|lia|apply lit_room_add; [by eapply lit_room_outside|lia..]|done|lia]. }
    specialize (IH d1 (op + (litLength s + matchLength s)) (ptr_add lit (litLength s)) st1 (over + 100) Hlo ltac:(lia)). rewrite Eseqs in IH. cbn [bind] in IH.
    replace (Z.of_nat (S n) - 1) with (Z.of_nat n) by lia. fold (exec_loop n d1 (op + (litLength s + matchLength s)) (ptr_add lit (litLength s)) st1).
    assert (ptr_ix (ptr_add lit (litLength s)) = ptr_ix lit + litLength s) as Eix by (by destruct lit). rewrite Eix in IH.
    rewrite Hh in IH. rewrite ptr_sub_take by lia.
    rewrite <- ptr_sub_add by lia. replace (litEnd - ptr_ix lit - litLength s) with (litEnd - (ptr_ix lit + litLength s)) by lia.
    rewrite (lits_outside d d1 op) in IH by (rewrite ?Eix; first [done|lia|by apply lit_room_add; [|lia..]]).
    replace (oend - (op + (litLength s + matchLength s))) with (oend - op - litLength s - matchLength s) in IH by lia.
    destruct (lz_exec _ _ _ seqs) as [[[h lits] room]|e|]; [|done|done]. cbn [bind] in *.
    destruct IH as (d' & lit' & E & [El' Ho'] & Hb' & Hh' & Hli & Hopr & Hlo' & Hps' & a & Ha & ->). exists d', (ptr_add (ptr_add lit (litLength s)) a). split; [exact E|].
    split; [split; [congruence|]; intros i Hi; rewrite Ho', Hout by lia; done|].
    split; [intros; apply Hb'; [auto|by rewrite ptr_bytes_add|done]|]. split; [done|]. split; [done|]. split; [lia|].
    split; [by replace (over + 100 * Z.of_nat (S n)) with (over + 100 + 100 * Z.of_nat n) by lia|]. split; [intros; apply Hps', Hsm; [done|lia]|].
    exists (litLength s + a). rewrite ptr_add_add. split; [destruct Hs; lia|done].
Qed.

Lemma history_app d d' op lit n :
  ps <= op -> copied Backward d d' op lit n n -> 0 <= n -> op + n <= zlen d -> 0 <= ptr_ix lit -> ptr_ix lit + n <= zlen (ptr_buf d lit) ->
  history ps dict d' (op + n) = history ps dict d op ++ ptr_sub d lit n.
Proof.
  intros Hop (El & _ & Ho & Hc) Hn Hd Hi Hl. pose proof (zlen_nonneg dict). apply zat_ext.
  - rewrite zlen_app, !zlen_history, zlen_ptr_sub by lia. lia.
  - intros i Hr. rewrite zlen_history in Hr by lia. rewrite history_at by lia. destruct (Z.lt_ge_cases i (zlen dict + (op - ps))).
    + rewrite zat_app_l, history_at by (rewrite ?zlen_history; lia). apply hist_at_ext. intros. apply Ho. lia.
    + rewrite zat_app_r by (rewrite zlen_history; lia). rewrite zlen_history by lia. unfold hist_at. rewrite (proj2 (Z.ltb_ge _ _)) by lia.
      replace (i - zlen dict + ps) with (op + (i - (zlen dict + (op - ps)))) by lia. rewrite Hc by lia. unfold ptr_sub. rewrite zat_zsub by lia. by destruct lit.
Qed.

Lemma last_literals_ok d op lit :
  ps <= op <= oend -> oend <= zlen d -> lit_room d oend lit litEnd -> let n := litEnd - ptr_ix lit in
  if n >? oend - op then last_literals memcpy d op oend lit litEnd = Err dstSize_tooSmall
  else exists d', last_literals memcpy d op oend lit litEnd = Ok (d', op + n) /\ outside d d' op /\
    (bytes_ok d -> ptr_bytes lit -> bytes_ok d') /\ history ps dict d' (op + n) = history ps dict d op ++ ptr_sub d lit n.
Proof.
  intros Hop Hd (H1 & H2 & H3 & H4) n. unfold last_literals, RETURN_ERROR_IF. fold n. destruct (Z.gtb_spec n (oend - op)); [done|].
  unfold WILDCOPY_OVERLENGTH in H2. assert (0 <= n) by lia.
  assert (memcpy d op lit n = memmove d op lit n) as ->.
  { unfold memcpy. destruct lit as [i|b i]; [|done]. cbn in n, H4. destruct (Z.leb_spec (op + n) i); [by rewrite orb_true_r|lia]. }
  assert (exists d', memmove d op lit n = Ok d' /\ copied Backward d d' op lit n n) as (d' & -> & Hc).
  { apply wp_no_errors_Ok. destruct lit as [i|b i]; cbn [ptr_ix ptr_buf] in *.
    - apply (memmove_ok Backward 0); [lia|lia|done|]. split_and!; lia.
    - eapply wp_mono; [apply (memmove_ok Forward n); [lia|lia|lia|split_and!; cbn; lia]| |done]. intros d' (E1 & E2 & E3 & E4). split_and!; done. }
  cbn [bind]. exists d'. split; [done|]. pose proof Hc as (E1 & E2 & E3 & E4). split; [split; [done|intros; apply E3; lia]|]. split; [done|].
  apply history_app; try done; lia.
Qed.
End body.

(** What [ZSTD_decompressSequences_body] is for. *)
Definition block_spec (h lits : list Z) (room : Z) (tables : seq_tables) (rep src : list Z) (nbSeq : Z) : result (list Z * list Z) :=
  let* '(seqs, rep, ended) := decode_block src tables rep nbSeq in
  let* h := lz_block h lits room seqs ended in
  Ok (h, rep).

Lemma rep_ok_u32 rep : prev_ok rep -> prev_small rep -> map u32 rep = rep.
Proof.
  intros Hp Hs. destruct (prev_list _ Hp) as (a & b & c & -> & Ha & Hb & Hc). apply prev_small_3 in Hs. cbn. by rewrite !u32_small by lia.
Qed.

Section whole.
Context (dict src : list Z) (tables : seq_tables) (ps ostart oend litEnd : Z) (lit : src_ptr) (d rep : list Z) (nbSeq : Z).
Hypothesis Hsrc : bytes_ok src /\ zlen src < 2 ^ 32.
Hypothesis Hn : 0 <= nbSeq < 2 ^ 20.
Hypothesis Htables : nbSeq <> 0 -> seq_tables_wf tables.
Hypothesis Hrep : prev_ok rep /\ prev_small rep.
Hypothesis Hdst : 0 <= ps <= ostart /\ ostart <= oend /\ oend <= zlen d.
Hypothesis Hlit : lit_room d oend lit litEnd.
Hypothesis Hsize : oend < 2 ^ 60 /\ zlen dict < 2 ^ 60.

Lemma decompressSequences_body_ok :
  let r := ZSTD_decompressSequences_body d ostart oend lit litEnd ps (ps - zlen dict) (In_buf dict (zlen dict)) tables rep src nbSeq in
  match block_spec (history ps dict d ostart) (ptr_sub d lit (litEnd - ptr_ix lit)) (oend - ostart) tables rep src nbSeq with
  | Ok (h, rep') => exists d' n, r = Ok (d', n, rep') /\ 0 <= n <= oend - ostart /\ outside oend d d' ostart /\
      (bytes_ok d -> ptr_bytes lit -> bytes_ok dict -> bytes_ok d') /\ history ps dict d' (ostart + n) = h /\ prev_ok rep' /\ prev_small rep'
  | Err e => r = Err e
  | Stuck => False
  end.
Proof.
  cbv zeta. unfold ZSTD_decompressSequences_body, block_spec, decode_block. destruct Hlit as (Hl1 & Hl2 & Hl3 & Hl4). unfold WILDCOPY_OVERLENGTH in Hl2.
  assert (forall d1 op1 lit1 rep1, ostart <= op1 <= oend -> outside oend d d1 ostart -> lit_room d1 oend lit1 litEnd ->
    (bytes_ok d -> ptr_bytes lit -> bytes_ok dict -> bytes_ok d1 /\ ptr_bytes lit1) -> prev_ok rep1 /\ prev_small rep1 ->
    match (let* h := (ERROR_IF zlen (ptr_sub d1 lit1 (litEnd - ptr_ix lit1)) >? oend - op1 THEN dstSize_tooSmall ;;
             Ok (history ps dict d1 op1 ++ ptr_sub d1 lit1 (litEnd - ptr_ix lit1))) in Ok (h, rep1)) with
    | Ok (h, rep') => exists d' n, (let* '(d, op) := last_literals memcpy d1 op1 oend lit1 litEnd in Ok (d, op - ostart, rep1)) = Ok (d', n, rep') /\
        0 <= n <= oend - ostart /\ outside oend d d' ostart /\
        (bytes_ok d -> ptr_bytes lit -> bytes_ok dict -> bytes_ok d') /\ history ps dict d' (ostart + n) = h /\ prev_ok rep' /\ prev_small rep'
    | Err e => (let* '(d, op) := last_literals memcpy d1 op1 oend lit1 litEnd in Ok (d, op - ostart, rep1)) = Err e
    | Stuck => False
    end) as Hlast.
  { intros d1 op1 lit1 rep1 Hop1 [El1 Ho1] Hlit1 Hb1 Hrep1. pose proof Hlit1 as (G1 & G2 & _). unfold WILDCOPY_OVERLENGTH in G2.
    pose proof (last_literals_ok dict ps oend litEnd ltac:(lia) d1 op1 lit1 ltac:(lia) ltac:(lia) Hlit1) as H. cbv zeta in H.
    rewrite zlen_ptr_sub by lia. unfold RETURN_ERROR_IF. destruct (Z.gtb_spec (litEnd - ptr_ix lit1) (oend - op1)); [by rewrite H|].
    destruct H as (d' & -> & [El' Ho'] & Hb' & Hh). cbn [bind]. do 2 eexists. split; [done|]. split; [lia|].
    split; [split; [congruence|intros; rewrite Ho' by lia; apply Ho1; lia]|]. split; [intros; by apply Hb'; apply Hb1|].
    split; [|done]. by replace (ostart + _) with (op1 + (litEnd - ptr_ix lit1)) by lia. }
  destruct (Z.eqb_spec nbSeq 0) as [->|Hnz]; cbn [negb bind].
  - unfold lz_block. cbn [lz_exec bind negb]. unfold RETURN_ERROR_IF at 1. apply Hlast; try done; lia.
  - pose proof (init_seqState_ok src tables rep ltac:(tauto) ltac:(tauto) (Htables Hnz) ltac:(tauto)) as Hi.
    destruct (init_seqState src tables rep) as [st|e|]; [|done|done]. cbn [bind]. destruct Hi as [Hst Ep].
    pose proof (exec_loop_ok dict src tables ps oend litEnd ltac:(tauto) (Htables Hnz) ltac:(lia) Hsize (Z.to_nat nbSeq) d ostart lit st 100
      ltac:(split; first [done|lia]) ltac:(lia)) as H.
    unfold exec_loop in H. rewrite Z2Nat.id in H by lia.
    destruct (decode_sequences src st (Z.to_nat nbSeq)) as [[seqs st']|e|]; [|by rewrite H|done]. cbn [bind] in *. unfold lz_block.
    destruct (lz_exec _ _ _ seqs) as [[[h lits] room]|e|]; [|by rewrite H|done]. cbn [bind] in *.
    destruct H as (d1 & lit1 & -> & Ho & Hb & <- & <- & Hr & [Hop1 Hd1 Hlit1 Hst1 _] & Hsm & _). cbn [bind].
    rewrite Ep in Hsm. destruct Hst1. rewrite rep_ok_u32 by (first [done|apply Hsm; tauto]).
    pose proof (Hlast d1 (oend - room) lit1 (ss_prevOffset st') ltac:(lia) Ho Hlit1 Hb ltac:(split; [done|apply Hsm; tauto])) as H.
    replace (oend - (oend - room)) with room in H by lia. unfold RETURN_ERROR_IF at 1 3. destruct (negb (BIT_endOfDStream _)); [done|exact H].
Qed.
End whole.

(** ** Properties *)

(** C12: the sequences section of a block means what the format says. Whatever the
    bytes of its bit stream, [ZSTD_decompressSequences_body] regenerates exactly
    the history that its sequences, executed one by one on literals and history,
    describe, and leaves the repeated offsets of the next block valid; or it fails
    with the error of the first sequence that cannot be executed, of a bit stream that is not
    used up, or of literals that do not fit. It always ends, reads nothing outside its
    buffers and writes nothing outside [ostart, oend). *)
Theorem ZSTD_decompressSequences_correct dict src tables ps ostart oend litEnd lit d rep nbSeq :
  bytes_ok src /\ zlen src < 2 ^ 32 -> 0 <= nbSeq < 2 ^ 20 -> (nbSeq <> 0 -> seq_tables_wf tables) ->
  prev_ok rep /\ prev_small rep -> 0 <= ps <= ostart /\ ostart <= oend /\ oend <= zlen d -> lit_room d oend lit litEnd ->
  oend < 2 ^ 60 /\ zlen dict < 2 ^ 60 ->
  let r := ZSTD_decompressSequences_body d ostart oend lit litEnd ps (ps - zlen dict) (In_buf dict (zlen dict)) tables rep src nbSeq in
  match block_spec (history ps dict d ostart) (ptr_sub d lit (litEnd - ptr_ix lit)) (oend - ostart) tables rep src nbSeq with
  | Ok (h, rep') => exists d' n, r = Ok (d', n, rep') /\ 0 <= n <= oend - ostart /\ outside oend d d' ostart /\
      (bytes_ok d -> ptr_bytes lit -> bytes_ok dict -> bytes_ok d') /\ history ps dict d' (ostart + n) = h /\ prev_ok rep' /\ prev_small rep'
  | Err e => r = Err e
  | Stuck => False
  end.
Proof. intros. by apply decompressSequences_body_ok. Qed.

Lemma ZSTD_decompressSequences_correct_witness :
  let tables := mkSeqTables LL_defaultDTable OF_defaultDTable ML_defaultDTable 0 in
  let lit := In_buf ([97; 98; 99; 100; 101] ++ zfill 32 0) 0 in
  block_spec [1; 2] [97; 98; 99; 100; 101] 20 tables [1; 4; 8] [0x0D; 0x6E; 0x08] 1
    = Ok ([1; 2; 97; 98; 99; 98; 99; 98; 99; 98; 99; 100; 101], [2; 1; 4]) /\
  exists d' n, ZSTD_decompressSequences_body (zfill 20 0) 0 20 lit 5 0 (-2) (In_buf [1; 2] 2) tables [1; 4; 8] [0x0D; 0x6E; 0x08] 1
      = Ok (d', n, [2; 1; 4]) /\
    history 0 [1; 2] d' (0 + n) = [1; 2; 97; 98; 99; 98; 99; 98; 99; 98; 99; 100; 101].
Proof.
  assert (block_spec [1; 2] [97; 98; 99; 100; 101] 20 (mkSeqTables LL_defaultDTable OF_defaultDTable ML_defaultDTable 0) [1; 4; 8] [0x0D; 0x6E; 0x08] 1
    = Ok ([1; 2; 97; 98; 99; 98; 99; 98; 99; 98; 99; 100; 101], [2; 1; 4])) as E by (vm_compute; reflexivity).
  split; [exact E|].
  pose proof (ZSTD_decompressSequences_correct [1; 2] [0x0D; 0x6E; 0x08] (mkSeqTables LL_defaultDTable OF_defaultDTable ML_defaultDTable 0)
    0 0 20 5 (In_buf ([97; 98; 99; 100; 101] ++ zfill 32 0) 0) (zfill 20 0) [1; 4; 8] 1) as H.
  assert (bytes_ok [0x0D; 0x6E; 0x08] /\ zlen [0x0D; 0x6E; 0x08] < 2 ^ 32) as H1 by (split; [bytes_dec|reflexivity]).
  specialize (H H1 ltac:(lia) (fun _ => default_tables_wf)). clear H1.
  assert (prev_ok [1; 4; 8] /\ prev_small [1; 4; 8]) as H1 by (split; [apply prev_ok_3; lia|apply prev_small_3; lia]). specialize (H H1). clear H1.
  assert (lit_room (zfill 20 0) 20 (In_buf ([97; 98; 99; 100; 101] ++ zfill 32 0) 0) 5) as H1 by (vm_compute; repeat split; congruence).
  specialize (H ltac:(vm_compute; repeat split; congruence) H1 ltac:(vm_compute; repeat split; congruence)). cbv zeta in H.
  change (history 0 [1; 2] (zfill 20 0) 0) with [1; 2] in H. change (ptr_sub _ _ _) with [97; 98; 99; 100; 101] in H. change (20 - 0) with 20 in H.
  rewrite E in H. destruct H as (d' & n & Hr & _ & _ & _ & Hh & _). exists d', n. split; [exact Hr|exact Hh].
Defined.
