(* ===== verification/BitStack.v ===== *)
(** A bit stream as a stack of fields: what [BIT_addBits] pushes, the readers pop. *)

From S2P Require Import Prelude Errors Outcome Bits Mem BitStream FseSafe.

(** ** Definitions *)

(** The stream that is written holds the fields [fs], the last one on top. *)
Definition pushed (mem : list Z) (c : BIT_CStream_t) (fs : list (Z * Z)) : Prop :=
  widths_ok fs /\ crep mem c (stack_val fs) (stack_bits fs).

(** The stream that is read has the fields [fs] left, and at least [w] of their
    bits in its container. *)
Definition popped (src : list Z) (d : BIT_DStream_t) (w : Z) (fs : list (Z * Z)) : Prop :=
  widths_ok fs /\ drep src d (stack_bits fs) /\ le_val src mod 2 ^ stack_bits fs = stack_val fs /\
  Z.min w (stack_bits fs) <= davail d.

(** ** Lemmas *)

Lemma widths_ok_snoc fs v nb : widths_ok (fs ++ [(v, nb)]) <-> widths_ok fs /\ 0 <= nb < 32.
Proof. unfold widths_ok. by rewrite Forall_app, Forall_singleton. Qed.

Lemma pushed_nil mem c : crep mem c 0 0 -> pushed mem c [].
Proof. intros H. by split; [constructor|]. Qed.

Lemma bpush_ok mem c fs v nb :
  pushed mem c fs -> 0 <= nb < 32 -> c_bitPos c + nb < 64 ->
  exists c', BIT_addBits c v nb = Ok c' /\ pushed mem c' (fs ++ [(v, nb)]) /\
    c_bitPos c' = c_bitPos c + nb /\ c_startPtr c' = c_startPtr c /\ c_endPtr c' = c_endPtr c.
Proof.
  intros [Hw Hc] Hnb Hp. destruct (addBits_refines mem c _ _ v nb Hc Hnb Hp) as (c' & -> & Hc' & Hp' & Hs & He & _).
  exists c'. split; [done|]. split; [|done]. split; [by apply widths_ok_snoc|].
  by rewrite stack_val_snoc, stack_bits_snoc by (by apply widths_ok_nonneg).
Qed.

Lemma flush_pushed mem c fs :
  pushed mem c fs ->
  exists mem' c', BIT_flushBits mem c = Ok (mem', c') /\ pushed mem' c' fs /\ 0 <= c_bitPos c' <= 7 /\
    c_startPtr c' = c_startPtr c /\ c_endPtr c' = c_endPtr c /\ zlen mem' = zlen mem /\ (bytes_ok mem -> bytes_ok mem').
Proof.
  intros [Hw Hc]. destruct (flush_refines mem c _ _ Hc) as (m & c' & -> & Hc' & Hp & Hs & He & Hl & _ & Hb).
  exists m, c'. split; [done|]. split; [done|]. split; [|done]. rewrite Hp. pose proof (Z.mod_pos_bound (c_bitPos c) 8). lia.
Qed.

(** Closing the stream and opening it again. *)
Lemma close_pushed mem c fs :
  pushed mem c fs -> c_bitPos c < 63 ->
  exists mem' sz, BIT_closeCStream mem c = Ok (mem', sz) /\ zlen mem' = zlen mem /\ (bytes_ok mem -> bytes_ok mem') /\
    (sz = 0 /\ 8 * (c_endPtr c - c_startPtr c) <= stack_bits fs + 1 \/
     0 < sz /\ c_startPtr c + sz <= c_endPtr c /\ 8 * (sz - 1) <= stack_bits fs < 8 * sz /\
     le_val (zsub mem' (c_startPtr c) sz) = stack_val fs + 2 ^ stack_bits fs).
Proof.
  intros [Hw Hc] Hp. destruct (close_refines mem c _ _ Hc Hp) as (m & sz & -> & Hl & Hsz & Hb). by exists m, sz.
Qed.

Lemma open_pushed src fs :
  bytes_ok src -> zlen src < 2 ^ 32 -> widths_ok fs -> 8 * (zlen src - 1) <= stack_bits fs < 8 * zlen src ->
  le_val src = stack_val fs + 2 ^ stack_bits fs ->
  exists d, BIT_initDStream src = Ok d /\ popped src d 56 fs.
Proof.
  intros Hb Hl Hw Hbits HW.
  pose proof (stack_val_range fs (widths_ok_nonneg fs Hw)) as Hv. pose proof (stack_bits_nonneg fs (widths_ok_nonneg fs Hw)) as Hn0.
  destruct (initDStream_refines src) as (d & -> & Hd); [done|lia| |].
  { intros Hz. rewrite (zsub_cut src (zlen src - 1)) in HW by lia. replace (zlen src - (zlen src - 1)) with 1 in HW by lia.
    rewrite (zsub_cons src (zlen src - 1)), zsub_0, Hz, le_val_app in HW by lia. change (le_val [0]) with 0 in HW.
    pose proof (le_val_range _ (bytes_ok_zsub src 0 (zlen src - 1) Hb)) as Hlv. rewrite zlen_zsub in Hlv by lia.
    pose proof (pow2_le (8 * (zlen src - 1)) (stack_bits fs)). lia. }
  exists d. split; [done|]. rewrite HW in Hd.
  assert (Z.log2 (stack_val fs + 2 ^ stack_bits fs) = stack_bits fs) as Hlog.
  { apply Z.log2_unique; [lia|]. rewrite Z.pow_succ_r by lia. lia. }
  rewrite Hlog in Hd. split; [done|]. split; [done|]. split.
  - rewrite HW, <- (Z.mul_1_l (2 ^ _)) at 1. rewrite Z.mod_add by (apply Z.pow_nonzero; lia). by apply Z.mod_small.
  - destruct Hd as (p & _ & _ & _ & ? & [->|?] & _ & ? & ? & ?); unfold davail; lia.
Qed.

Lemma pop_ok src d w fs v nb :
  popped src d w (fs ++ [(v, nb)]) -> nb <= w ->
  BIT_readBits d nb = Ok (v mod 2 ^ nb, BIT_skipBits d nb) /\ popped src (BIT_skipBits d nb) (w - nb) fs.
Proof.
  intros (Hw & Hd & HW & Hav) Hnw. apply widths_ok_snoc in Hw as [Hw Hnb]. pose proof (widths_ok_nonneg fs Hw) as Hwn.
  rewrite stack_bits_snoc in *. rewrite stack_val_snoc in HW by done.
  pose proof (stack_val_range fs Hwn) as Hv. pose proof (stack_bits_nonneg fs Hwn) as Hn.
  destruct (readBits_refines src d _ nb Hd) as (d' & E & Hd' & Ha & _); [lia|lia|].
  destruct (readBits_any d nb) as (v' & E' & _); [lia|]. rewrite E in E'. injection E' as <- ->.
  replace (stack_bits fs + nb - nb) with (stack_bits fs) in * by lia.
  pose proof (pow2_pos (stack_bits fs) Hn) as Hpos. pose proof (pow2_pos nb ltac:(lia)) as Hposn.
  pose proof (Z.mod_pos_bound v (2 ^ nb) ltac:(lia)) as Hvr.
  assert (le_val src mod 2 ^ stack_bits fs = stack_val fs) as HW1.
  { apply (f_equal (fun x => x mod 2 ^ stack_bits fs)) in HW. rewrite pow2_add, Z.rem_mul_r in HW by lia.
    rewrite (Z.mul_comm (2 ^ _)), Z.mod_add, Z.mod_mod in HW by lia.
    rewrite (Z.mul_comm (2 ^ _)), Z.mod_add, (Z.mod_small (stack_val fs)) in HW by lia. done. }
  split.
  - rewrite E. do 2 f_equal. rewrite pow2_add, Z.rem_mul_r, HW1 in HW by lia. nia.
  - split; [done|]. split; [done|]. split; [done|]. rewrite Ha. lia.
Qed.

Lemma popFast_ok src d w fs v nb :
  popped src d w (fs ++ [(v, nb)]) -> 1 <= nb <= w ->
  BIT_readBitsFast d nb = Ok (v mod 2 ^ nb, BIT_skipBits d nb) /\ popped src (BIT_skipBits d nb) (w - nb) fs.
Proof.
  intros Hp Hnw. destruct (pop_ok src d w fs v nb Hp) as [E H]; [lia|]. split; [|done]. rewrite <- E.
  destruct Hp as (Hw & Hd & _ & Hav). apply widths_ok_snoc in Hw as [Hw Hnb]. rewrite stack_bits_snoc in Hav, Hd.
  pose proof (stack_bits_nonneg fs (widths_ok_nonneg fs Hw)). apply (readBitsFast_eq src d (stack_bits fs + nb)); [done|lia|lia].
Qed.

Lemma popped_weaken src d w w' fs : popped src d w fs -> w' <= w -> popped src d w' fs.
Proof. intros (H1 & H2 & H3 & H4) Hle. split_and!; try done. lia. Qed.

(** An empty field. *)
Lemma popped_0 src d w fs v : popped src d w (fs ++ [(v, 0)]) -> popped src d w fs.
Proof.
  intros (Hw & Hd & HW & Hav). apply widths_ok_snoc in Hw as [Hw _]. rewrite stack_bits_snoc in *.
  rewrite stack_val_snoc in HW by (by apply widths_ok_nonneg). change (2 ^ 0) with 1 in HW. rewrite Z.mod_1_r, Z.mul_0_r, !Z.add_0_r in *.
  split_and!; done.
Qed.

Lemma reload_popped src d w fs :
  bytes_ok src -> popped src d w fs -> exists st d', BIT_reloadDStream src d = Ok (st, d') /\ popped src d' 57 fs.
Proof.
  intros Hb (Hw & Hd & HW & Hav). destruct (reload_refines src d _ Hb Hd) as (st & d' & -> & Hd' & Ha & _).
  exists st, d'. split; [done|]. split_and!; try done. by apply (davail_min src).
Qed.

Lemma popped_end src d w : popped src d w [] -> BIT_endOfDStream d = true.
Proof. intros (_ & Hd & _). by apply (drep_0_end src). Qed.
