(* ===== verification/SeqCodec.v ===== *)
(** What the encoder and the decoder of sequences need of their tables: an
    interface, implemented by the tables made of counts and by those of a single
    symbol. *)

From S2P Require Import Prelude Errors Outcome Bits Mem BitStream FseTable FseSpread FseSymbols FseBuild FseBuildC FseCodec FseEncode BitStack SeqTables.

(** ** Definitions *)

(** The cell of a table that stands for a symbol. *)
Definition cell_of (base bits : list Z) (t : ZSTD_seqTable) (u s : Z) : Prop :=
  sq_baseValue (zat (st_cells t) u) = zat base s /\ sq_nbAdditionalBits (zat (st_cells t) u) = zat bits s.

(** [ct] encodes the symbols of [can] in a way that [t] decodes: states of the
    encoder correspond to cells, an encoding step puts out what a decoding step
    takes, and flushing a state puts out its cell. *)
Class SeqCodec (base bits : list Z) (t : ZSTD_seqTable) (ct : FSE_CTable) (can : Z -> Prop) := {
  sc_rel : FSE_CState_t -> Z -> Prop;
  sc_log : 0 <= st_tableLog t <= 9;
  sc_len : zlen (st_cells t) = 2 ^ st_tableLog t;
  sc_range : forall st u, sc_rel st u -> 0 <= u < 2 ^ st_tableLog t;
  sc_init : forall s, can s ->
    exists st u, FSE_initCState2 ct s = Ok st /\ sc_rel st u /\ cell_of base bits t u s;
  sc_encode : forall mem c acc n st u s, can s -> sc_rel st u -> crep mem c acc n -> c_bitPos c + st_tableLog t < 64 ->
    exists c' st' u' v, let cell := zat (st_cells t) u' in
      FSE_encodeSymbol c st s = Ok (c', st') /\ sc_rel st' u' /\ cell_of base bits t u' s /\
      0 <= sq_nbBits cell <= st_tableLog t /\ 0 <= v < 2 ^ sq_nbBits cell /\ sq_nextState cell + v = u /\
      crep mem c' (acc + 2 ^ n * v) (n + sq_nbBits cell) /\ c_bitPos c' = c_bitPos c + sq_nbBits cell /\
      c_startPtr c' = c_startPtr c /\ c_endPtr c' = c_endPtr c;
  sc_flush : forall mem c acc n st u, sc_rel st u -> crep mem c acc n -> 0 <= c_bitPos c <= 7 ->
    exists mem' c', FSE_flushCState mem c st = Ok (mem', c') /\
      crep mem' c' (acc + 2 ^ n * u) (n + st_tableLog t) /\ 0 <= c_bitPos c' <= 7 /\
      c_startPtr c' = c_startPtr c /\ c_endPtr c' = c_endPtr c /\ zlen mem' = zlen mem /\ (bytes_ok mem -> bytes_ok mem');
}.

(** ** Lemmas *)

(** *** Tables made of counts *)

Section fse.
Context (norm : list Z) (maxSV1 tl : Z) (base bits : list Z) (t : ZSTD_seqTable) (ct : FSE_CTable).
Hypothesis Hok : norm_ok norm maxSV1 tl.
Hypothesis Htl9 : tl <= 9.
Hypothesis Hct : ctable_ok norm maxSV1 tl ct.
Hypothesis Hcells : st_cells t = st_cells (seq_table_of norm maxSV1 tl base bits).
Hypothesis Hlog : st_tableLog t = tl.

Definition fse_can (s : Z) : Prop := 0 <= s < maxSV1 /\ zat norm s <> 0.
Definition fse_rel (st : FSE_CState_t) (u : Z) : Prop := on_table tl ct st (2 ^ tl + u) /\ 0 <= u < 2 ^ tl.

Lemma fse_cell u : 0 <= u < 2 ^ tl -> zat (st_cells t) u = seq_cell base bits (dentry norm maxSV1 tl u).
Proof.
  intros Hu. rewrite Hcells. unfold seq_table_of, dtable_of. cbn [st_cells dt_table]. rewrite map_map. by rewrite zat_map_seqZ.
Qed.

Lemma fse_codec : SeqCodec base bits t ct fse_can.
Proof.
  pose proof (tl_range norm maxSV1 tl Hok) as Htl. pose proof (T_bounds norm maxSV1 tl Hok) as HT.
  assert (2 ^ (tl + 1) = 2 * 2 ^ tl) as HS by (rewrite pow2_S by lia; done).
  refine {| sc_rel := fse_rel |}.
  - lia.
  - rewrite Hcells, Hlog. unfold seq_table_of, dtable_of. cbn [st_cells dt_table]. rewrite map_map. apply zlen_map_seqZ. lia.
  - intros st u [_ Hu]. by rewrite Hlog.
  - intros s [Hs Hn]. destruct (initCState2_spec norm maxSV1 tl ct Hok Hct s ltac:(lia) Hs Hn) as (st & u & E & Hst & Ev & Hu & Hsym & _).
    exists st, u. split; [done|]. split; [split; [by rewrite <- Ev|done]|]. split; rewrite fse_cell by done; unfold seq_cell; cbn [sq_baseValue sq_nbAdditionalBits]; by rewrite Hsym.
  - intros mem c acc n st u s [Hs Hn] [Hst Hu] Hc Hp. rewrite Hlog in Hp. cbv zeta.
    destruct (enc_state_spec norm maxSV1 tl ct Hok Hct s (2 ^ tl + u) Hs Hn ltac:(lia)) as (_ & u' & Hu' & Est & Ed).
    destruct (encodeSymbol_refines norm maxSV1 tl ct Hok Hct mem c acc n st s (2 ^ tl + u) Hs Hn ltac:(lia) Hst Hc Hp) as (c' & st' & E & Hst' & Hc' & Hp' & Hs' & He' & _).
    destruct (enc_nb_spec norm maxSV1 tl Hok (Z.abs (zat norm s)) (2 ^ tl + u)) as (Hnb & Hx & _).
    { pose proof (abs_norm_le norm maxSV1 tl Hok s Hs). lia. } { lia. }
    set (nb := enc_nb tl (Z.abs (zat norm s)) (2 ^ tl + u)) in *. pose proof (pow2_pos nb ltac:(lia)) as Hpn.
    pose proof (Z.mod_pos_bound (2 ^ tl + u) (2 ^ nb) Hpn). pose proof (Z.div_mod (2 ^ tl + u) (2 ^ nb) ltac:(lia)) as Hdm.
    exists c', st', u', ((2 ^ tl + u) mod 2 ^ nb). unfold cell_of. rewrite !fse_cell, Ed, Hlog by done. unfold seq_cell. cbn [sq_nbBits sq_nextState sq_baseValue sq_nbAdditionalBits newState symbol nbBits].
    split; [done|]. split; [split; [by rewrite <- Est|done]|]. split; [done|]. split; [done|]. split; [done|]. split; [lia|]. done.
  - intros mem c acc n st u [Hst Hu] Hc Hp. rewrite Hlog.
    destruct (flushCState_refines norm maxSV1 tl ct Hok ltac:(lia) mem c acc n st (2 ^ tl + u) Hc Hp Hst) as (m & c' & E & Hc' & Hp' & Hs' & He' & Hl' & Hb').
    exists m, c'. split; [done|]. split; [|done].
    replace ((2 ^ tl + u) mod 2 ^ tl) with u in Hc'; [done|]. rewrite Z.add_comm, <- (Z.mul_1_l (2 ^ tl)) at 1. rewrite Z.mod_add, Z.mod_small by lia. done.
Qed.
End fse.

(** *** Tables of one symbol *)

Section rle.
Context (base bits stateTable : list Z) (symbolTT : list FSE_symbolCompressionTransform) (s : Z) (ct : FSE_CTable).
Hypothesis Hs : 0 <= s < 2 ^ 16.
Hypothesis Hct : FSE_buildCTable_rle stateTable symbolTT s = Ok ct.

Lemma rle_codec : SeqCodec base bits (ZSTD_buildSeqTable_rle (zat base s) (zat bits s)) ct (fun x => x = s).
Proof.
  unfold FSE_buildCTable_rle in Hct.
  destruct (wr stateTable 0 0) as [s1| |] eqn:E1; cbn [bind] in Hct; try discriminate.
  destruct (wr s1 1 0) as [s2| |] eqn:E2; cbn [bind] in Hct; try discriminate.
  destruct (wr symbolTT s (mkSymbolTT 0 0)) as [tt| |] eqn:E3; cbn [bind] in Hct; try discriminate. injection Hct as <-.
  assert (rd s2 0 = Ok 0 /\ rd tt s = Ok (mkSymbolTT 0 0)) as [Hr0 Hrs].
  { unfold wr in E1, E2, E3. destruct (Z.ltb_spec 1 (zlen s1)); [|done]. cbn in E2. injection E2 as <-.
    destruct (Z.ltb_spec 0 (zlen stateTable)); [|done]. cbn in E1. injection E1 as <-.
    rewrite (proj2 (Z.leb_le 0 s)) in E3 by lia. destruct (Z.ltb_spec s (zlen symbolTT)); [|done]. cbn in E3. injection E3 as <-.
    rewrite zlen_zupd in *. split; rewrite rd_ok by (rewrite ?zlen_zupd; lia); rewrite !zat_zupd by (rewrite ?zlen_zupd; lia).
    - done.
    - by rewrite Z.eqb_refl. }
  refine {| sc_rel := fun st u => st = mkCState 0 s2 tt 0 /\ u = 0 |}; unfold cell_of; cbn [st_tableLog ZSTD_buildSeqTable_rle].
  - lia.
  - done.
  - intros st u [_ ->]. done.
  - intros x ->. exists (mkCState 0 s2 tt 0), 0. unfold FSE_initCState2, FSE_initCState. cbn [ct_symbolTT ct_stateTable ct_tableLog cs_symbolTT cs_stateTable cs_stateLog].
    rewrite Hrs. cbn [bind deltaNbBits deltaFindState]. change (rd s2 _) with (rd s2 0). rewrite Hr0. done.
  - intros mem c acc n st u x -> [-> ->] Hc Hp. cbv zeta. unfold FSE_encodeSymbol. cbn [cs_symbolTT cs_stateTable cs_stateLog cs_value].
    rewrite Hrs. cbn [bind deltaNbBits deltaFindState]. change (u32 (Z.shiftr (0 + 0) 16)) with 0.
    assert (c_bitPos c < 64) as Hlt by (destruct Hc as [[] _]; lia).
    destruct (addBits_refines mem c acc n 0 0 Hc) as (c' & -> & Hc' & Hp' & Hs' & He' & _); [lia|lia|]. cbn [bind]. change (rd s2 _) with (rd s2 0). rewrite Hr0. cbn [bind].
    exists c', (mkCState 0 s2 tt 0), 0, 0. cbn. rewrite Hp'. change (0 mod 2 ^ 0) with 0 in Hc'. split_and!; try done; lia.
  - intros mem c acc n st u [-> ->] Hc Hp. unfold FSE_flushCState. cbn [cs_value cs_stateLog].
    destruct (addBits_refines mem c acc n 0 0 Hc) as (c1 & -> & Hc1 & Hp1 & Hs1 & He1 & _); [lia|lia|]. cbn [bind]. change (0 mod 2 ^ 0) with 0 in Hc1.
    destruct (flush_refines _ _ _ _ Hc1) as (mem2 & c2 & -> & Hc2 & Hp2 & Hs2 & He2 & Hl2 & _ & Hb2).
    exists mem2, c2. split_and!; try done; try congruence; rewrite Hp2; zdm.
Qed.
End rle.

(** *** On the stack of fields *)

Section stack.
Context {base bits : list Z} {t : ZSTD_seqTable} {ct : FSE_CTable} {can : Z -> Prop} {H : SeqCodec base bits t ct can}.

Lemma encode_pushed mem c fs st u s :
  can s -> sc_rel st u -> pushed mem c fs -> c_bitPos c + st_tableLog t < 64 ->
  exists c' st' u' v, let cell := zat (st_cells t) u' in
    FSE_encodeSymbol c st s = Ok (c', st') /\ sc_rel st' u' /\ cell_of base bits t u' s /\
    0 <= sq_nbBits cell <= st_tableLog t /\ 0 <= v < 2 ^ sq_nbBits cell /\ sq_nextState cell + v = u /\
    pushed mem c' (fs ++ [(v, sq_nbBits cell)]) /\ c_bitPos c' = c_bitPos c + sq_nbBits cell /\
    c_startPtr c' = c_startPtr c /\ c_endPtr c' = c_endPtr c.
Proof.
  intros Hs Hr [Hw Hc] Hp. destruct (sc_encode mem c _ _ st u s Hs Hr Hc Hp) as (c' & st' & u' & v & E & Hr' & Hcell & Hnb & Hv & Hu & Hc' & Hrest).
  pose proof sc_log. exists c', st', u', v. cbv zeta. split_and!; try done; try lia; try apply Hrest.
  split; [apply widths_ok_snoc; split; [done|lia]|].
  rewrite stack_val_snoc, stack_bits_snoc by (by apply widths_ok_nonneg). by rewrite (Z.mod_small v).
Qed.

Lemma flush_state_pushed mem c fs st u :
  sc_rel st u -> pushed mem c fs -> 0 <= c_bitPos c <= 7 ->
  exists mem' c', FSE_flushCState mem c st = Ok (mem', c') /\ pushed mem' c' (fs ++ [(u, st_tableLog t)]) /\ 0 <= c_bitPos c' <= 7 /\
    c_startPtr c' = c_startPtr c /\ c_endPtr c' = c_endPtr c /\ zlen mem' = zlen mem /\ (bytes_ok mem -> bytes_ok mem').
Proof.
  intros Hr [Hw Hc] Hp. destruct (sc_flush mem c _ _ st u Hr Hc Hp) as (m & c' & E & Hc' & Hrest). pose proof sc_log. pose proof (sc_range _ _ Hr).
  exists m, c'. split; [done|]. split; [|done]. split; [apply widths_ok_snoc; split; [done|lia]|].
  rewrite stack_val_snoc, stack_bits_snoc by (by apply widths_ok_nonneg). by rewrite (Z.mod_small u).
Qed.
End stack.
