(* ===== verification/SeqEncode.v ===== *)
(** The encoding of the sequences of a block (compress/zstd_compress_internal.h,
    compress/zstd_compress.c, compress/zstd_compress_sequences.c): their store, their
    codes, the repeated offsets and the bit stream. *)

From S2P Require Import Prelude Errors Outcome Bits Mem BitStream FseTable FseCodec FseSafe FseEncode BitStack SeqTables SeqCodec ExecSequence.

(** ** Definitions *)

Record SeqDef := mkSeqDef {
  offBase : Z;
  sd_litLength : Z;
  mlBase : Z;
}.
#[global] Instance SeqDef_inhabited : Inhabited SeqDef := populate (mkSeqDef 0 0 0).

Inductive ZSTD_longLengthType_e := ZSTD_llt_none | ZSTD_llt_literalLength | ZSTD_llt_matchLength.

(** The store of a block: the sequences and the literals that it holds, and the
    memory of the codes. *)
Record SeqStore_t := mkSeqStore {
  sequences : list SeqDef;
  lits : list Z;
  llCode : list Z;
  ofCode : list Z;
  mlCode : list Z;
  longLengthType : ZSTD_longLengthType_e;
  longLengthPos : Z;
}.

Definition ZSTD_REP_NUM : Z := 3.

(** [seq] is the index of a sequence; the lengths of literals and match. *)
Definition ZSTD_getSequenceLength (seqStore : SeqStore_t) (seq : Z) : Z * Z :=
  let s := zat (sequences seqStore) seq in
  let long := longLengthPos seqStore =? seq in
  (sd_litLength s + (if long then match longLengthType seqStore with ZSTD_llt_literalLength => 0x10000 | _ => 0 end else 0),
   mlBase s + MINMATCH + (if long then match longLengthType seqStore with ZSTD_llt_matchLength => 0x10000 | _ => 0 end else 0)).

Definition OFFBASE_IS_OFFSET (o : Z) : bool := o >? ZSTD_REP_NUM.
Definition OFFBASE_TO_OFFSET (o : Z) : Z := u32 (o - ZSTD_REP_NUM).
Definition OFFBASE_TO_REPCODE (o : Z) : Z := o.

Definition ZSTD_updateRep (rep : list Z) (offBase ll0 : Z) : result (list Z) :=
  let* r0 := rd rep 0 in
  let* r1 := rd rep 1 in
  let* r2 := rd rep 2 in
  if OFFBASE_IS_OFFSET offBase then Ok [OFFBASE_TO_OFFSET offBase; r0; r1]
  else
    let repCode := u32 (OFFBASE_TO_REPCODE offBase - 1 + ll0) in
    if repCode >? 0 then
      let* currentOffset := (if repCode =? ZSTD_REP_NUM then Ok (u32 (r0 - 1)) else rd rep repCode) in
      Ok [currentOffset; r0; if repCode >=? 2 then r1 else r2]
    else Ok rep.

Definition LL_Code : list Z :=
  [0; 1; 2; 3; 4; 5; 6; 7; 8; 9; 10; 11; 12; 13; 14; 15;
   16; 16; 17; 17; 18; 18; 19; 19; 20; 20; 20; 20; 21; 21; 21; 21;
   22; 22; 22; 22; 22; 22; 22; 22; 23; 23; 23; 23; 23; 23; 23; 23;
   24; 24; 24; 24; 24; 24; 24; 24; 24; 24; 24; 24; 24; 24; 24; 24].
Definition ZSTD_LLcode (litLength : Z) : result Z :=
  if litLength >? 63 then Ok (u32 (ZSTD_highbit32 litLength + 19)) else rd LL_Code litLength.

Definition ML_Code : list Z :=
  [0; 1; 2; 3; 4; 5; 6; 7; 8; 9; 10; 11; 12; 13; 14; 15;
   16; 17; 18; 19; 20; 21; 22; 23; 24; 25; 26; 27; 28; 29; 30; 31;
   32; 32; 33; 33; 34; 34; 35; 35; 36; 36; 36; 36; 37; 37; 37; 37;
   38; 38; 38; 38; 38; 38; 38; 38; 39; 39; 39; 39; 39; 39; 39; 39;
   40; 40; 40; 40; 40; 40; 40; 40; 40; 40; 40; 40; 40; 40; 40; 40;
   41; 41; 41; 41; 41; 41; 41; 41; 41; 41; 41; 41; 41; 41; 41; 41;
   42; 42; 42; 42; 42; 42; 42; 42; 42; 42; 42; 42; 42; 42; 42; 42;
   42; 42; 42; 42; 42; 42; 42; 42; 42; 42; 42; 42; 42; 42; 42; 42].
Definition ZSTD_MLcode (mlBase : Z) : result Z :=
  if mlBase >? 127 then Ok (u32 (ZSTD_highbit32 mlBase + 36)) else rd ML_Code mlBase.

(** The store with its codes; [longOffsets] is 0 with 64-bit words. *)
Definition ZSTD_seqToCodes (seqStorePtr : SeqStore_t) : result (SeqStore_t * bool) :=
  let sequences := sequences seqStorePtr in
  let nbSeq := zlen sequences in
  let* '(llCodeTable, ofCodeTable, mlCodeTable) :=
    for_range 0 nbSeq (fun u '(llCodeTable, ofCodeTable, mlCodeTable) =>
      let* s := rd sequences u in
      let ofCode := ZSTD_highbit32 (offBase s) in
      let* llc := ZSTD_LLcode (sd_litLength s) in
      let* llCodeTable := wr llCodeTable u (u8 llc) in
      let* ofCodeTable := wr ofCodeTable u (u8 ofCode) in
      let* mlc := ZSTD_MLcode (mlBase s) in
      let* mlCodeTable := wr mlCodeTable u (u8 mlc) in
      Ok (llCodeTable, ofCodeTable, mlCodeTable)) (llCode seqStorePtr, ofCode seqStorePtr, mlCode seqStorePtr) in
  let* llCodeTable := match longLengthType seqStorePtr with
    | ZSTD_llt_literalLength => wr llCodeTable (longLengthPos seqStorePtr) MaxLL
    | _ => Ok llCodeTable
    end in
  let* mlCodeTable := match longLengthType seqStorePtr with
    | ZSTD_llt_matchLength => wr mlCodeTable (longLengthPos seqStorePtr) MaxML
    | _ => Ok mlCodeTable
    end in
  Ok (mkSeqStore sequences (lits seqStorePtr) llCodeTable ofCodeTable mlCodeTable
        (longLengthType seqStorePtr) (longLengthPos seqStorePtr), false).

Definition STREAM_ACCUMULATOR_MIN_64 : Z := 57.

(** The bits of an offset. *)
Definition put_offset (mem : list Z) (blockStream : BIT_CStream_t) (offBase ofBits : Z) (longOffsets : bool)
  : result (list Z * BIT_CStream_t) :=
  if longOffsets then
    let extraBits := u32 (ofBits - Z.min ofBits (STREAM_ACCUMULATOR_MIN_64 - 1)) in
    let* '(mem, blockStream) :=
      (if negb (extraBits =? 0) then
         let* blockStream := BIT_addBits blockStream offBase extraBits in
         BIT_flushBits mem blockStream
       else Ok (mem, blockStream)) in
    let* blockStream := BIT_addBits blockStream (Z.shiftr offBase extraBits) (ofBits - extraBits) in
    Ok (mem, blockStream)
  else
    let* blockStream := BIT_addBits blockStream offBase ofBits in
    Ok (mem, blockStream).

(** The destination, the stream, the three states (match length, offset, literals
    length) and the index of the next sequence. *)
Definition encoding : Type := list Z * BIT_CStream_t * FSE_CState_t * FSE_CState_t * FSE_CState_t * Z.

(** With 64-bit words. *)
Definition encode_first (mem : list Z) (blockStream : BIT_CStream_t) (CTable_MatchLength : FSE_CTable) (mlCodeTable : list Z)
    (CTable_OffsetBits : FSE_CTable) (ofCodeTable : list Z) (CTable_LitLength : FSE_CTable) (llCodeTable : list Z)
    (sequences : list SeqDef) (longOffsets : bool) : result encoding :=
  let nbSeq := zlen sequences in
  let* mlc := rd mlCodeTable (nbSeq - 1) in
  let* stateMatchLength := FSE_initCState2 CTable_MatchLength mlc in
  let* ofc := rd ofCodeTable (nbSeq - 1) in
  let* stateOffsetBits := FSE_initCState2 CTable_OffsetBits ofc in
  let* llc := rd llCodeTable (nbSeq - 1) in
  let* stateLitLength := FSE_initCState2 CTable_LitLength llc in
  let* s := rd sequences (nbSeq - 1) in
  let* llBits := rd LL_bits llc in
  let* blockStream := BIT_addBits blockStream (sd_litLength s) llBits in
  let* mlBits := rd ML_bits mlc in
  let* blockStream := BIT_addBits blockStream (mlBase s) mlBits in
  let* '(mem, blockStream) := put_offset mem blockStream (offBase s) ofc longOffsets in
  let* '(mem, blockStream) := BIT_flushBits mem blockStream in
  Ok (mem, blockStream, stateMatchLength, stateOffsetBits, stateLitLength, u64 (nbSeq - 2)).

(** One turn of the loop. *)
Definition encode_next (mlCodeTable ofCodeTable llCodeTable : list Z) (sequences : list SeqDef) (longOffsets : bool) (e : encoding)
  : result encoding :=
  let '(mem, blockStream, stateMatchLength, stateOffsetBits, stateLitLength, n) := e in
  let* llCode := rd llCodeTable n in
  let* ofCode := rd ofCodeTable n in
  let* mlCode := rd mlCodeTable n in
  let* llBits := rd LL_bits llCode in
  let ofBits := ofCode in
  let* mlBits := rd ML_bits mlCode in
  let* s := rd sequences n in
  let* '(blockStream, stateOffsetBits) := FSE_encodeSymbol blockStream stateOffsetBits ofCode in
  let* '(blockStream, stateMatchLength) := FSE_encodeSymbol blockStream stateMatchLength mlCode in
  let* '(blockStream, stateLitLength) := FSE_encodeSymbol blockStream stateLitLength llCode in
  let* '(mem, blockStream) :=
    (if ofBits + mlBits + llBits >=? 64 - 7 - (LLFSELog + MLFSELog + OffFSELog) then BIT_flushBits mem blockStream
     else Ok (mem, blockStream)) in
  let* blockStream := BIT_addBits blockStream (sd_litLength s) llBits in
  let* blockStream := BIT_addBits blockStream (mlBase s) mlBits in
  let* '(mem, blockStream) :=
    (if ofBits + mlBits + llBits >? 56 then BIT_flushBits mem blockStream else Ok (mem, blockStream)) in
  let* '(mem, blockStream) := put_offset mem blockStream (offBase s) ofBits longOffsets in
  let* '(mem, blockStream) := BIT_flushBits mem blockStream in
  Ok (mem, blockStream, stateMatchLength, stateOffsetBits, stateLitLength, u64 (n - 1)).

(** The destination and the size of the stream. The loop stops when its counter
    wraps around. *)
Definition ZSTD_encodeSequences_body (dst : list Z) (CTable_MatchLength : FSE_CTable) (mlCodeTable : list Z)
    (CTable_OffsetBits : FSE_CTable) (ofCodeTable : list Z) (CTable_LitLength : FSE_CTable) (llCodeTable : list Z)
    (sequences : list SeqDef) (longOffsets : bool) : result (list Z * Z) :=
  let nbSeq := zlen sequences in
  let* blockStream := match BIT_initCStream 0 (zlen dst) with Err _ => Err dstSize_tooSmall | r => r end in
  (* first symbols *)
  let* e := encode_first dst blockStream CTable_MatchLength mlCodeTable CTable_OffsetBits ofCodeTable
    CTable_LitLength llCodeTable sequences longOffsets in
  let* '(mem, blockStream, stateMatchLength, stateOffsetBits, stateLitLength, _) :=
    while_ (length sequences) (fun e : encoding => e.2 <? nbSeq)
      (encode_next mlCodeTable ofCodeTable llCodeTable sequences longOffsets) e in
  let* '(mem, blockStream) := FSE_flushCState mem blockStream stateMatchLength in
  let* '(mem, blockStream) := FSE_flushCState mem blockStream stateOffsetBits in
  let* '(mem, blockStream) := FSE_flushCState mem blockStream stateLitLength in
  let* '(mem, streamSize) := BIT_closeCStream mem blockStream in
  ERROR_IF streamSize =? 0 THEN dstSize_tooSmall ;;
  Ok (mem, streamSize).

(** *** What is written *)

(** A sequence with its codes. *)
Record zseq := mkZSeq {
  z_def : SeqDef;
  z_ll : Z;
  z_of : Z;
  z_ml : Z;
}.
#[global] Instance zseq_inhabited : Inhabited zseq := populate (mkZSeq inhabitant 0 0 0).

Definition z_fields (z : zseq) : list (Z * Z) :=
  [(sd_litLength (z_def z), zat LL_bits (z_ll z)); (mlBase (z_def z), zat ML_bits (z_ml z)); (offBase (z_def z), z_of z)].

(** The tables of the three codes, for the decoder and the encoder. *)
Record seq_codecs := mkCodecs {
  k_tables : seq_tables;
  k_ctLL : FSE_CTable;
  k_ctOF : FSE_CTable;
  k_ctML : FSE_CTable;
  k_canLL : Z -> Prop;
  k_canOF : Z -> Prop;
  k_canML : Z -> Prop;
  k_LL : SeqCodec LL_base LL_bits (LLTptr k_tables) k_ctLL k_canLL;
  k_OF : SeqCodec OF_base OF_bits (OFTptr k_tables) k_ctOF k_canOF;
  k_ML : SeqCodec ML_base ML_bits (MLTptr k_tables) k_ctML k_canML;
  k_OFlog : st_tableLog (OFTptr k_tables) <= OffFSELog;
}.
#[export] Existing Instance k_LL.
#[export] Existing Instance k_OF.
#[export] Existing Instance k_ML.

Section seq_coded.
Context (k : seq_codecs).

Let cLL u := zat (st_cells (LLTptr (k_tables k))) u.
Let cOF u := zat (st_cells (OFTptr (k_tables k))) u.
Let cML u := zat (st_cells (MLTptr (k_tables k))) u.

(** The states stand for the codes of a sequence. *)
Definition in_table (t : ZSTD_seqTable) (u : Z) : Prop := 0 <= u < 2 ^ st_tableLog t.
Definition z_cells (z : zseq) (uLL uOF uML : Z) : Prop :=
  (in_table (LLTptr (k_tables k)) uLL /\ cell_of LL_base LL_bits (LLTptr (k_tables k)) uLL (z_ll z)) /\
  (in_table (OFTptr (k_tables k)) uOF /\ cell_of OF_base OF_bits (OFTptr (k_tables k)) uOF (z_of z)) /\
  (in_table (MLTptr (k_tables k)) uML /\ cell_of ML_base ML_bits (MLTptr (k_tables k)) uML (z_ml z)).

Definition z_ok (z : zseq) : Prop :=
  0 <= z_ll z <= MaxLL /\ 0 <= z_of z <= MaxOff /\ 0 <= z_ml z <= MaxML /\ k_canLL k (z_ll z) /\ k_canOF k (z_of z) /\ k_canML k (z_ml z).

(** The fields of some sequences on the stream, and the states a decoder must be
    in to read them. *)
Inductive seq_coded : list zseq -> list (Z * Z) -> Z -> Z -> Z -> Prop :=
  | seq_coded_last z uLL uOF uML : z_ok z -> z_cells z uLL uOF uML -> seq_coded [z] (z_fields z) uLL uOF uML
  | seq_coded_cons z zs fs uLL uOF uML vLL vOF vML :
      seq_coded zs fs (sq_nextState (cLL uLL) + vLL) (sq_nextState (cOF uOF) + vOF) (sq_nextState (cML uML) + vML) ->
      z_ok z -> z_cells z uLL uOF uML ->
      0 <= sq_nbBits (cLL uLL) <= 9 /\ 0 <= vLL < 2 ^ sq_nbBits (cLL uLL) ->
      0 <= sq_nbBits (cOF uOF) <= 9 /\ 0 <= vOF < 2 ^ sq_nbBits (cOF uOF) ->
      0 <= sq_nbBits (cML uML) <= 9 /\ 0 <= vML < 2 ^ sq_nbBits (cML uML) ->
      seq_coded (z :: zs) (fs ++ [(vOF, sq_nbBits (cOF uOF)); (vML, sq_nbBits (cML uML)); (vLL, sq_nbBits (cLL uLL))] ++ z_fields z) uLL uOF uML.
End seq_coded.

(** The memory of the codes holds those of [zs]. *)
Record codes_in (mlCodeTable ofCodeTable llCodeTable : list Z) (seqs : list SeqDef) (zs : list zseq) : Prop := {
  ci_seqs : seqs = map z_def zs;
  ci_ml : zlen zs <= zlen mlCodeTable /\ forall i, 0 <= i < zlen zs -> zat mlCodeTable i = z_ml (zat zs i);
  ci_of : zlen zs <= zlen ofCodeTable /\ forall i, 0 <= i < zlen zs -> zat ofCodeTable i = z_of (zat zs i);
  ci_ll : zlen zs <= zlen llCodeTable /\ forall i, 0 <= i < zlen zs -> zat llCodeTable i = z_ll (zat zs i);
}.

(** ** Lemmas *)

Lemma LL_bits_range s : 0 <= s <= MaxLL -> 0 <= zat LL_bits s <= 16.
Proof.
  intros Hs. assert ((0 <=? zat LL_bits s) && (zat LL_bits s <=? 16) = true); [|bools; lia].
  apply (forallb_range (fun s => (0 <=? zat LL_bits s) && (zat LL_bits s <=? 16)) 0 36); [vm_compute; reflexivity|change MaxLL with 35 in Hs; lia].
Qed.
Lemma ML_bits_range s : 0 <= s <= MaxML -> 0 <= zat ML_bits s <= 16.
Proof.
  intros Hs. assert ((0 <=? zat ML_bits s) && (zat ML_bits s <=? 16) = true); [|bools; lia].
  apply (forallb_range (fun s => (0 <=? zat ML_bits s) && (zat ML_bits s <=? 16)) 0 53); [vm_compute; reflexivity|change MaxML with 52 in Hs; lia].
Qed.

Lemma put_offset_ok mem c fs v nb long :
  pushed mem c fs -> 0 <= nb < 32 -> c_bitPos c + nb < 64 ->
  exists c', put_offset mem c v nb long = Ok (mem, c') /\ pushed mem c' (fs ++ [(v, nb)]) /\
    c_bitPos c' = c_bitPos c + nb /\ c_startPtr c' = c_startPtr c /\ c_endPtr c' = c_endPtr c.
Proof.
  intros Hp Hnb Hlt. destruct (bpush_ok mem c fs v nb Hp Hnb Hlt) as (c' & E & H). exists c'. split; [|done]. unfold put_offset.
  destruct long; [|by rewrite E]. change (STREAM_ACCUMULATOR_MIN_64 - 1) with 56. rewrite Z.min_l, Z.sub_diag by lia. change (u32 0) with 0.
  cbn [negb Z.eqb bind]. by rewrite Z.shiftr_0_r, Z.sub_0_r, E.
Qed.

Lemma flush_if_pushed (b : bool) mem c fs :
  pushed mem c fs -> 0 <= c_bitPos c ->
  exists mem' c', (if b then BIT_flushBits mem c else Ok (mem, c)) = Ok (mem', c') /\ pushed mem' c' fs /\
    0 <= c_bitPos c' <= (if b then 7 else c_bitPos c) /\
    c_startPtr c' = c_startPtr c /\ c_endPtr c' = c_endPtr c /\ zlen mem' = zlen mem /\ (bytes_ok mem -> bytes_ok mem').
Proof.
  intros Hp H0. destruct b; [destruct (flush_pushed mem c fs Hp) as (m & c' & -> & H & H1 & H2); by exists m, c'|].
  exists mem, c. split_and!; done || lia.
Qed.

Section encode.
Context (k : seq_codecs) (zs : list zseq) (mlT ofT llT dst : list Z) (long : bool).
Hypothesis Hz : Forall (z_ok k) zs.
Hypothesis Hn : 1 <= zlen zs < 2 ^ 32.
Hypothesis Hin : codes_in mlT ofT llT (map z_def zs) zs.

Lemma z_ok_zat i : 0 <= i < zlen zs -> z_ok k (zat zs i).
Proof. intros Hi. exact (zat_Forall _ _ _ Hz Hi). Qed.

Definition enc_at (i : Z) (e : encoding) : Prop :=
  let '(mem, c, stML, stOF, stLL, n) := e in
  0 <= i < zlen zs /\ n = u64 (i - 1) /\
  (exists fs uLL uOF uML, seq_coded k (drop (Z.to_nat i) zs) fs uLL uOF uML /\ pushed mem c fs /\
     sc_rel (SeqCodec := k_LL k) stLL uLL /\ sc_rel (SeqCodec := k_OF k) stOF uOF /\ sc_rel (SeqCodec := k_ML k) stML uML) /\
  0 <= c_bitPos c <= 7 /\ c_startPtr c = 0 /\ c_endPtr c = zlen dst - 8 /\ zlen mem = zlen dst /\ (bytes_ok dst -> bytes_ok mem).

Lemma zlen_map_def : zlen (map z_def zs) = zlen zs.
Proof. unfold zlen. by rewrite length_map. Qed.

Lemma encode_first_ok c :
  crep dst c 0 0 -> c_startPtr c = 0 -> c_endPtr c = zlen dst - 8 -> c_bitPos c = 0 ->
  exists e, encode_first dst c (k_ctML k) mlT (k_ctOF k) ofT (k_ctLL k) llT (map z_def zs) long = Ok e /\ enc_at (zlen zs - 1) e.
Proof.
  intros Hc Hs He Hp. destruct Hin as [_ [Hlm Hm] [Hlo Ho] [Hll Hl]]. unfold encode_first. rewrite zlen_map_def.
  rewrite !rd_ok by lia. cbn [bind]. set (z := zat zs (zlen zs - 1)). rewrite Hm, Ho, Hl by lia. fold z.
  destruct (z_ok_zat (zlen zs - 1) ltac:(lia)) as (Rl & Ro & Rm & Cl & Co & Cm). fold z in Rl, Ro, Rm, Cl, Co, Cm.
  destruct (sc_init (SeqCodec := k_ML k) _ Cm) as (stML & uML & -> & HrM & HcM). cbn [bind].
  destruct (sc_init (SeqCodec := k_OF k) _ Co) as (stOF & uOF & -> & HrO & HcO). cbn [bind].
  destruct (sc_init (SeqCodec := k_LL k) _ Cl) as (stLL & uLL & -> & HrL & HcL). cbn [bind].
  rewrite rd_ok by (rewrite zlen_map_def; lia). cbn [bind]. rewrite zat_map by lia. fold z.
  pose proof (LL_bits_range _ Rl). pose proof (ML_bits_range _ Rm).
  rewrite rd_ok by (change (zlen LL_bits) with 36; change MaxLL with 35 in Rl; lia). cbn [bind].
  destruct (bpush_ok dst c [] (sd_litLength (z_def z)) (zat LL_bits (z_ll z)) (pushed_nil _ _ Hc)) as (c1 & -> & P1 & B1 & S1 & E1); [lia|lia|]. cbn [bind].
  rewrite rd_ok by (change (zlen ML_bits) with 53; change MaxML with 52 in Rm; lia). cbn [bind].
  destruct (bpush_ok dst c1 _ (mlBase (z_def z)) (zat ML_bits (z_ml z)) P1) as (c2 & -> & P2 & B2 & S2 & E2); [lia|lia|]. cbn [bind].
  change MaxOff with 31 in Ro.
  destruct (put_offset_ok dst c2 _ (offBase (z_def z)) (z_of z) long P2) as (c3 & -> & P3 & B3 & S3 & E3); [lia|lia|]. cbn [bind].
  destruct (flush_pushed dst c3 _ P3) as (m & c4 & -> & P4 & B4 & S4 & E4 & L4 & Y4). cbn [bind].
  eexists. split; [done|]. unfold enc_at. split; [lia|]. split; [f_equal; lia|]. split; [|split; [done|]; split_and!; congruence || done].
  exists (z_fields z), uLL, uOF, uML. split; [|done].
  rewrite (drop_zat zs (zlen zs - 1)) by lia. rewrite drop_ge by (unfold zlen; lia). fold z. apply (seq_coded_last k z uLL uOF uML (conj Rl (conj Ro (conj Rm (conj Cl (conj Co Cm)))))).
  exact (conj (conj (sc_range _ _ HrL) HcL) (conj (conj (sc_range _ _ HrO) HcO) (conj (sc_range _ _ HrM) HcM))).
Qed.

Lemma encode_next_ok i e :
  enc_at i e -> 1 <= i -> exists e', encode_next mlT ofT llT (map z_def zs) long e = Ok e' /\ enc_at (i - 1) e'.
Proof.
  destruct e as [[[[[mem c] stML] stOF] stLL] n].
  intros (Hi & -> & (fs & uLL & uOF & uML & Hcd & P & HrL & HrO & HrM) & Hp & Hs & He & Hlm & Hb) Hi1.
  destruct Hin as [_ [Hlml Hm] [Hlo Ho] [Hll Hl]]. unfold encode_next. rewrite u64_small by lia.
  rewrite !rd_ok by lia. cbn [bind]. set (z := zat zs (i - 1)). rewrite Hm, Ho, Hl by lia. fold z.
  destruct (z_ok_zat (i - 1) ltac:(lia)) as (Rl & Ro & Rm & Cl & Co & Cm). fold z in Rl, Ro, Rm, Cl, Co, Cm.
  pose proof (LL_bits_range _ Rl). pose proof (ML_bits_range _ Rm).
  rewrite rd_ok by (change (zlen LL_bits) with 36; change MaxLL with 35 in Rl; lia). cbn [bind].
  rewrite rd_ok by (change (zlen ML_bits) with 53; change MaxML with 52 in Rm; lia). cbn [bind].
  rewrite rd_ok by (rewrite zlen_map_def; lia). cbn [bind]. rewrite zat_map by lia. fold z. change MaxOff with 31 in Ro.
  pose proof (sc_log (SeqCodec := k_LL k)). pose proof (sc_log (SeqCodec := k_OF k)). pose proof (sc_log (SeqCodec := k_ML k)).
  pose proof (k_OFlog k) as Ho8. change OffFSELog with 8 in Ho8.
  destruct (encode_pushed (H := k_OF k) mem c fs stOF uOF _ Co HrO P ltac:(lia)) as (c1 & stOF' & uOF' & vOF & -> & HrO' & HcO & NO & VO & EO & P1 & B1 & S1 & E1). cbn [bind].
  destruct (encode_pushed (H := k_ML k) mem c1 _ stML uML _ Cm HrM P1 ltac:(lia)) as (c2 & stML' & uML' & vML & -> & HrM' & HcM & NM & VM & EM & P2 & B2 & S2 & E2). cbn [bind].
  destruct (encode_pushed (H := k_LL k) mem c2 _ stLL uLL _ Cl HrL P2 ltac:(lia)) as (c3 & stLL' & uLL' & vLL & -> & HrL' & HcL & NL & VL & EL & P3 & B3 & S3 & E3). cbn [bind].
  change (64 - 7 - (LLFSELog + MLFSELog + OffFSELog)) with 31.
  destruct (flush_if_pushed (z_of z + zat ML_bits (z_ml z) + zat LL_bits (z_ll z) >=? 31) mem c3 _ P3 ltac:(lia)) as (m4 & c4 & -> & P4 & B4 & S4 & E4 & L4 & Y4). cbn [bind].
  assert (c_bitPos c4 + (if z_of z + zat ML_bits (z_ml z) + zat LL_bits (z_ll z) >? 56 then 32 else z_of z + zat ML_bits (z_ml z) + zat LL_bits (z_ll z)) <= 63
    /\ c_bitPos c4 + zat LL_bits (z_ll z) + zat ML_bits (z_ml z) <= 63) as [Hroom Hroom2].
  { revert B4. destruct (Z.geb_spec (z_of z + zat ML_bits (z_ml z) + zat LL_bits (z_ll z)) 31), (Z.gtb_spec (z_of z + zat ML_bits (z_ml z) + zat LL_bits (z_ll z)) 56); lia. }
  destruct (bpush_ok m4 c4 _ (sd_litLength (z_def z)) (zat LL_bits (z_ll z)) P4) as (c5 & -> & P5 & B5 & S5 & E5); [lia|lia|]. cbn [bind].
  destruct (bpush_ok m4 c5 _ (mlBase (z_def z)) (zat ML_bits (z_ml z)) P5) as (c6 & -> & P6 & B6 & S6 & E6); [lia|lia|]. cbn [bind].
  destruct (flush_if_pushed (z_of z + zat ML_bits (z_ml z) + zat LL_bits (z_ll z) >? 56) m4 c6 _ P6 ltac:(lia)) as (m7 & c7 & -> & P7 & B7 & S7 & E7 & L7 & Y7). cbn [bind].
  destruct (put_offset_ok m7 c7 _ (offBase (z_def z)) (z_of z) long P7) as (c8 & -> & P8 & B8 & S8 & E8); [lia|revert B7 Hroom; destruct (_ >? 56); lia|]. cbn [bind].
  destruct (flush_pushed m7 c8 _ P8) as (m9 & c9 & -> & P9 & B9 & S9 & E9 & L9 & Y9). cbn [bind].
  eexists. split; [done|]. unfold enc_at. split; [lia|]. split; [f_equal; lia|]. split; [|split; [done|]; split_and!; try congruence; auto].
  rewrite <- !app_assoc in P9. cbn [app] in P9.
  exists (fs ++ [(vOF, sq_nbBits (zat (st_cells (OFTptr (k_tables k))) uOF')); (vML, sq_nbBits (zat (st_cells (MLTptr (k_tables k))) uML'));
    (vLL, sq_nbBits (zat (st_cells (LLTptr (k_tables k))) uLL'))] ++ z_fields z), uLL', uOF', uML'.
  split; [|done]. rewrite (drop_zat zs (i - 1)) by lia. fold z. replace (i - 1 + 1) with i by lia.
  apply seq_coded_cons; [by rewrite EL, EO, EM|exact (conj Rl (conj Ro (conj Rm (conj Cl (conj Co Cm)))))|exact (conj (conj (sc_range _ _ HrL') HcL) (conj (conj (sc_range _ _ HrO') HcO) (conj (sc_range _ _ HrM') HcM)))|split; [lia|done]..].
Qed.

Lemma encode_loop_ok n fuel e :
  enc_at (Z.of_nat n) e -> (n <= fuel)%nat ->
  exists e', while_ fuel (fun e : encoding => e.2 <? zlen zs) (encode_next mlT ofT llT (map z_def zs) long) e = Ok e' /\ enc_at 0 e'.
Proof.
  revert fuel e. induction n as [|n IH]; intros fuel e He Hf; destruct e as [[[[[mem c] stML] stOF] stLL] m]; pose proof He as (Hr & Em & _).
  - exists (mem, c, stML, stOF, stLL, m). split; [|done]. change (u64 (Z.of_nat 0 - 1)) with (2 ^ 64 - 1) in Em.
    destruct fuel; cbn [while_ snd]; by rewrite (proj2 (Z.ltb_ge _ _)) by lia.
  - destruct fuel as [|fuel]; [lia|]. cbn [while_ snd]. rewrite u64_small in Em by lia. rewrite (proj2 (Z.ltb_lt m (zlen zs))) by lia.
    destruct (encode_next_ok _ _ He ltac:(lia)) as (e' & -> & He'). cbn [bind]. apply IH; [|lia]. by replace (Z.of_nat n) with (Z.of_nat (S n) - 1) by lia.
Qed.

(** The fields on the stream when it is closed. *)
Lemma encodeSequences_ok :
  8 < zlen dst < 2 ^ 32 ->
  exists fs uLL uOF uML mem sz,
    seq_coded k zs fs uLL uOF uML /\ widths_ok fs /\
    0 <= uLL < 2 ^ st_tableLog (LLTptr (k_tables k)) /\ 0 <= uOF < 2 ^ st_tableLog (OFTptr (k_tables k)) /\
    0 <= uML < 2 ^ st_tableLog (MLTptr (k_tables k)) /\
    let all := fs ++ [(uML, st_tableLog (MLTptr (k_tables k))); (uOF, st_tableLog (OFTptr (k_tables k))); (uLL, st_tableLog (LLTptr (k_tables k)))] in
    zlen mem = zlen dst /\ (bytes_ok dst -> bytes_ok mem) /\
    (ZSTD_encodeSequences_body dst (k_ctML k) mlT (k_ctOF k) ofT (k_ctLL k) llT (map z_def zs) long = Err dstSize_tooSmall /\
       8 * (zlen dst - 8) <= stack_bits all + 1 \/
     ZSTD_encodeSequences_body dst (k_ctML k) mlT (k_ctOF k) ofT (k_ctLL k) llT (map z_def zs) long = Ok (mem, sz) /\
       0 < sz <= zlen dst - 8 /\ 8 * (sz - 1) <= stack_bits all < 8 * sz /\ widths_ok all /\
       le_val (zsub mem 0 sz) = stack_val all + 2 ^ stack_bits all).
Proof.
  intros Hd. unfold ZSTD_encodeSequences_body. rewrite zlen_map_def.
  destruct (BIT_initCStream_spec dst 0 (zlen dst)) as (c & -> & Hc & Hs & He & Hp); [lia..|]. cbn [bind].
  destruct (encode_first_ok c Hc Hs ltac:(lia) Hp) as (e1 & -> & He1). cbn [bind].
  assert (length (map z_def zs) = length zs) as -> by apply length_map.
  destruct (encode_loop_ok (length zs - 1) (length zs) e1) as (e2 & -> & He2); [|lia|].
  { unfold zlen in He1. by replace (Z.of_nat (length zs - 1)) with (Z.of_nat (length zs) - 1) by (unfold zlen in Hn; lia). }
  destruct e2 as [[[[[mem c1] stML] stOF] stLL] n2]. destruct He2 as (_ & _ & (fs & uLL & uOF & uML & Hcd & P & HrL & HrO & HrM) & Hp1 & Hs1 & He1' & Hl1 & Hb1).
  change (drop (Z.to_nat 0) zs) with zs in Hcd. cbn [bind].
  destruct (flush_state_pushed (H := k_ML k) mem c1 fs stML uML HrM P Hp1) as (m2 & c2 & -> & P2 & B2 & S2 & E2 & L2 & Y2). cbn [bind].
  destruct (flush_state_pushed (H := k_OF k) m2 c2 _ stOF uOF HrO P2 B2) as (m3 & c3 & -> & P3 & B3 & S3 & E3 & L3 & Y3). cbn [bind].
  destruct (flush_state_pushed (H := k_LL k) m3 c3 _ stLL uLL HrL P3 B3) as (m4 & c4 & -> & P4 & B4 & S4 & E4 & L4 & Y4). cbn [bind].
  rewrite <- !app_assoc in P4. cbn [app] in P4.
  destruct (close_pushed m4 c4 _ P4 ltac:(lia)) as (m5 & sz & -> & L5 & Y5 & Hsz). cbn [bind].
  exists fs, uLL, uOF, uML, m5, sz. split; [done|]. split; [apply P|]. split; [by apply (sc_range _ _ HrL)|]. split; [by apply (sc_range _ _ HrO)|]. split; [by apply (sc_range _ _ HrM)|].
  cbv zeta. split; [congruence|]. split; [intros Hbd; by apply Y5, Y4, Y3, Y2, Hb1|]. assert (c_startPtr c4 = 0 /\ c_endPtr c4 = zlen dst - 8) as [Ec Ec'] by (split; congruence).
  rewrite Ec, Ec' in Hsz. unfold RETURN_ERROR_IF. destruct Hsz as [[-> Hsz]|(Hsz & Hend & Hbits & Hval)]; [left|right].
  - split; [done|lia].
  - rewrite (proj2 (Z.eqb_neq sz 0)) by lia. split; [done|]. split; [lia|]. split; [done|]. split; [exact (proj1 P4)|]. done.
Qed.
End encode.
