(* ===== verification/SeqRoundtrip.v ===== *)
(** Decoding the sequences of a block undoes encoding them. *)

From S2P Require Import Prelude Errors Outcome Bits Mem BitStream FseTable FseBuild FseCodec FseSafe BitStack LzCopy ExecSequence SeqTables SeqDecode SeqCodec SeqEncode.

(** ** Definitions *)

(** The lengths that the codes of a sequence and its bits stand for. *)
Definition z_litLength (z : zseq) : Z := zat LL_base (z_ll z) + sd_litLength (z_def z) mod 2 ^ zat LL_bits (z_ll z).
Definition z_matchLength (z : zseq) : Z := zat ML_base (z_ml z) + mlBase (z_def z) mod 2 ^ zat ML_bits (z_ml z).
Definition z_meaning (z : zseq) : Z * Z * Z := (z_litLength z, z_matchLength z, offBase (z_def z)).

(** The sequences, once repeated offsets are replaced: the offset is the first one
    after the update. *)
Fixpoint resolve (rep : list Z) (l : list (Z * Z * Z)) : result (list seq_t * list Z) :=
  match l with
  | [] => Ok ([], rep)
  | (ll, ml, offBase) :: l =>
      let* rep := ZSTD_updateRep rep offBase (b2z (ll =? 0)) in
      let* '(seqs, rep') := resolve rep l in
      Ok (mkSeq ll ml (zat rep 0) :: seqs, rep')
  end.

(** A code of the offset. *)
Definition z_off_ok (z : zseq) : Prop := 1 <= offBase (z_def z) < 2 ^ 32 /\ z_of z = ZSTD_highbit32 (offBase (z_def z)).

(** ** Lemmas *)

Lemma popped_bits src d w fs : popped src d w fs -> widths_ok fs.
Proof. by intros [H _]. Qed.

Lemma updateRep_repcode a b c ob (ll0 : bool) :
  1 <= ob <= 3 -> ZSTD_updateRep [a; b; c] ob (b2z ll0) =
  Ok (if ob + b2z ll0 =? 1 then [a; b; c] else if ob + b2z ll0 =? 2 then [b; a; c]
      else if ob + b2z ll0 =? 3 then [c; a; b] else [u32 (a - 1); a; b]).
Proof. intros Hob. assert (ob = 1 \/ ob = 2 \/ ob = 3) as [->|[->| ->]] by lia; by destruct ll0. Qed.

Lemma updateRep_offset a b c ob ll0 : 3 < ob < 2 ^ 32 -> ZSTD_updateRep [a; b; c] ob ll0 = Ok [ob - 3; a; b].
Proof.
  intros Hob. unfold ZSTD_updateRep, OFFBASE_IS_OFFSET, OFFBASE_TO_OFFSET, ZSTD_REP_NUM. cbn -[Z.gtb u32 Z.sub].
  rewrite (proj2 (Z.gtb_lt _ _)) by lia. by rewrite u32_small by lia.
Qed.

(** Both sides update the repeated offsets in the same way. *)
Lemma decode_offset_pop src d w fs prev z rep' llBase ll :
  popped src d w (fs ++ [(offBase (z_def z), z_of z)]) -> z_of z <= w -> z_off_ok z -> prev_ok prev -> prev_small prev ->
  (llBase =? 0) = (ll =? 0) -> ZSTD_updateRep prev (offBase (z_def z)) (b2z (ll =? 0)) = Ok rep' -> 1 <= zat rep' 0 ->
  exists d', decode_offset d prev (zat OF_base (z_of z)) (zat OF_bits (z_of z)) llBase = Ok (zat rep' 0, rep', d') /\
    popped src d' (w - z_of z) fs /\ prev_ok rep' /\ prev_small rep'.
Proof.
  intros Hpop Hw [Ho Hof] Hp Hsm Hll Hup Hpos. destruct (prev_list _ Hp) as (a & b & c & -> & Ha & Hb & Hc). apply prev_small_3 in Hsm.
  pose proof (popped_bits _ _ _ _ Hpop) as Hwid. apply widths_ok_snoc in Hwid as [_ Hof32].
  assert (2 ^ z_of z <= offBase (z_def z) < 2 * 2 ^ z_of z) as Hlog.
  { rewrite Hof, highbit32_spec by lia. pose proof (Z.log2_spec (offBase (z_def z)) ltac:(lia)) as H. rewrite Z.pow_succ_r in H by apply Z.log2_nonneg. lia. }
  destruct (OF_code (z_of z)) as [Ebits Ebase]; [change MaxOff with 31; lia|]. rewrite Ebits. unfold decode_offset. rewrite Hll. clear Hll llBase.
  set (ob := offBase (z_def z)) in *. destruct (Z.gtb_spec (z_of z) 1) as [Hgt|Hle].
  - destruct (popFast_ok src d w fs ob (z_of z) Hpop ltac:(lia)) as [-> Hpop']. cbn [bind].
    pose proof (pow2_le 2 (z_of z) ltac:(lia)). pose proof (pow2_le (z_of z) 31 ltac:(lia)). rewrite updateRep_offset in Hup by lia. injection Hup as <-.
    assert (zat OF_base (z_of z) + ob mod 2 ^ z_of z = ob - 3) as E.
    { rewrite Ebase. destruct (Z.eqb_spec (z_of z) 0); [lia|]. destruct (Z.eqb_spec (z_of z) 1); [lia|].
      rewrite <- (Z.mod_unique ob (2 ^ z_of z) 1 (ob - 2 ^ z_of z)) by lia. lia. }
    rewrite E, u64_small by lia. exists (BIT_skipBits d (z_of z)). split; [reflexivity|]. split; [done|].
    change (zat [ob - 3; a; b] 0) with (ob - 3) in Hpos. split; [apply prev_ok_3; lia|apply prev_small_3; lia].
  - assert (1 <= ob <= 3) as Hob by (assert (z_of z = 0 \/ z_of z = 1) as [E|E] by lia; rewrite E in Hlog; lia).
    rewrite updateRep_repcode in Hup by done. injection Hup as <-. destruct (Z.eqb_spec (z_of z) 0) as [E|E].
    + rewrite E in *. assert (ob = 1) as Eob by lia. rewrite Eob in *. apply popped_0 in Hpop. rewrite Z.sub_0_r. exists d.
      destruct (ll =? 0); cbn [b2z] in *; (split; [reflexivity|]); (split; [done|]); (split; [apply prev_ok_3; lia|apply prev_small_3; lia]).
    + assert (z_of z = 1) as E1 by lia. rewrite E1 in *. destruct (popFast_ok src d w fs ob 1 Hpop ltac:(lia)) as [-> Hpop']. cbn [bind]. rewrite Ebase. cbn [Z.eqb Pos.eqb].
      assert (forall x, 1 <= x < 2 ^ 64 -> u64 (x - b2z (x =? 0)) = x) as E0.
      { intros x Hx. rewrite (proj2 (Z.eqb_neq x 0)) by lia. cbn [b2z]. rewrite Z.sub_0_r. apply u64_small. lia. }
      exists (BIT_skipBits d 1). assert (u64 (a - 1) = a - 1) as E2 by (apply u64_small; lia). rewrite (u32_small (a - 1)) in * by lia.
      assert (ob = 2 \/ ob = 3) as [Eob|Eob] by lia; rewrite Eob in *; destruct (ll =? 0); cbn [b2z] in *.
      * split; [transitivity (Ok (u64 (c - b2z (c =? 0)), [u64 (c - b2z (c =? 0)); a; b], BIT_skipBits d 1)); [reflexivity|by rewrite E0]|].
        split; [done|]. split; [apply prev_ok_3; lia|apply prev_small_3; lia].
      * split; [transitivity (Ok (u64 (b - b2z (b =? 0)), [u64 (b - b2z (b =? 0)); a; c], BIT_skipBits d 1)); [reflexivity|by rewrite E0]|].
        split; [done|]. split; [apply prev_ok_3; lia|apply prev_small_3; lia].
      * change (1 <= a - 1) in Hpos. split; [transitivity (Ok (u64 (u64 (a - 1) - b2z (u64 (a - 1) =? 0)), [u64 (u64 (a - 1) - b2z (u64 (a - 1) =? 0)); a; b], BIT_skipBits d 1)); [reflexivity|]|].
        { rewrite E2, E0 by lia. reflexivity. }
        split; [done|]. split; [apply prev_ok_3; lia|apply prev_small_3; lia].
      * split; [transitivity (Ok (u64 (c - b2z (c =? 0)), [u64 (c - b2z (c =? 0)); a; b], BIT_skipBits d 1)); [reflexivity|by rewrite E0]|].
        split; [done|]. split; [apply prev_ok_3; lia|apply prev_small_3; lia].
Qed.

Lemma add_bits_pop src d w fs base v nb :
  popped src d w (fs ++ [(v, nb)]) -> nb <= w -> 0 <= base < 2 ^ 20 ->
  exists d', (if nb >? 0 then let* '(v, bitD) := BIT_readBitsFast d nb in Ok (u64 (base + v), bitD) else Ok (base, d))
      = Ok (base + v mod 2 ^ nb, d') /\ popped src d' (w - nb) fs.
Proof.
  intros Hp Hw Hb. pose proof (popped_bits _ _ _ _ Hp) as Hwid. apply widths_ok_snoc in Hwid as [_ Hnb]. destruct (Z.gtb_spec nb 0).
  - destruct (popFast_ok src d w fs v nb Hp ltac:(lia)) as [-> Hp']. cbn [bind]. exists (BIT_skipBits d nb). split; [|done].
    pose proof (Z.mod_pos_bound v (2 ^ nb) ltac:(apply pow2_pos; lia)). pose proof (pow2_le nb 31 ltac:(lia)). by rewrite u64_small by lia.
  - assert (nb = 0) as -> by lia. apply popped_0 in Hp. exists d. rewrite Z.mod_1_r, Z.add_0_r, Z.sub_0_r. done.
Qed.

Lemma update_state_pop src d w fs st c v u :
  popped src d w (fs ++ [(v, sq_nbBits c)]) -> sq_nbBits c <= w -> 0 <= v < 2 ^ sq_nbBits c -> sq_nextState c + v = u ->
  ZSTD_updateFseStateWithDInfo st d (sq_nextState c) (sq_nbBits c) = Ok (mkFseState u (fs_table st), BIT_skipBits d (sq_nbBits c)) /\
  popped src (BIT_skipBits d (sq_nbBits c)) (w - sq_nbBits c) fs.
Proof.
  intros Hp Hw Hv <-. destruct (pop_ok _ _ _ _ _ _ Hp Hw) as [E Hp']. unfold ZSTD_updateFseStateWithDInfo. rewrite E. cbn [bind].
  by rewrite (Z.mod_small v).
Qed.

Section decode.
Context (k : seq_codecs) (src : list Z).
Hypothesis Hsrc : bytes_ok src.

(** The decoder is about to read [fs] from the states [uLL], [uOF] and [uML]. *)
Definition at_states (st : seqState_t) (w : Z) (fs : list (Z * Z)) (uLL uOF uML : Z) (prev : list Z) : Prop :=
  popped src (ss_DStream st) w fs /\ ss_stateLL st = mkFseState uLL (st_cells (LLTptr (k_tables k))) /\
  ss_stateOffb st = mkFseState uOF (st_cells (OFTptr (k_tables k))) /\ ss_stateML st = mkFseState uML (st_cells (MLTptr (k_tables k))) /\
  ss_prevOffset st = prev /\ prev_ok prev /\ prev_small prev.

Lemma decode_fields st fs z uLL uOF uML prev rep' isLast :
  at_states st 57 (fs ++ z_fields z) uLL uOF uML prev -> z_ok k z -> z_cells k z uLL uOF uML -> z_off_ok z ->
  ZSTD_updateRep prev (offBase (z_def z)) (b2z (z_litLength z =? 0)) = Ok rep' -> 1 <= zat rep' 0 ->
  exists d, popped src d 27 fs /\ prev_ok rep' /\ prev_small rep' /\
    let cLL := zat (st_cells (LLTptr (k_tables k))) uLL in
    let cOF := zat (st_cells (OFTptr (k_tables k))) uOF in
    let cML := zat (st_cells (MLTptr (k_tables k))) uML in
    ZSTD_decodeSequence src st isLast =
    (let seq := mkSeq (z_litLength z) (z_matchLength z) (zat rep' 0) in
     if negb isLast then
       let* '(stateLL, bitD) := ZSTD_updateFseStateWithDInfo (ss_stateLL st) d (sq_nextState cLL) (sq_nbBits cLL) in
       let* '(stateML, bitD) := ZSTD_updateFseStateWithDInfo (ss_stateML st) bitD (sq_nextState cML) (sq_nbBits cML) in
       let* '(stateOffb, bitD) := ZSTD_updateFseStateWithDInfo (ss_stateOffb st) bitD (sq_nextState cOF) (sq_nbBits cOF) in
       let* '(_, bitD) := BIT_reloadDStream src bitD in
       Ok (seq, mkSeqState bitD stateLL stateOffb stateML rep')
     else Ok (seq, mkSeqState d (ss_stateLL st) (ss_stateOffb st) (ss_stateML st) rep')).
Proof.
  intros (Hp & ELL & EOF & EML & Eprev & Hpo & Hps) (Rl & Ro & Rm & _) ((Hul & Bl & Al) & (Huo & Bo & Ao) & (Hum & Bm & Am)) Hof Hup Hpos.
  pose proof (sc_len (SeqCodec := k_LL k)) as LL. pose proof (sc_len (SeqCodec := k_OF k)) as LO. pose proof (sc_len (SeqCodec := k_ML k)) as LM.
  destruct (LL_code _ Rl) as [Hl1 Hl2], (ML_code _ Rm) as [Hm1 Hm2]. unfold in_table in *. unfold ZSTD_decodeSequence. rewrite ELL, EOF, EML.
  cbn [fs_table fs_state]. rewrite !rd_ok by lia. cbn [bind]. cbv zeta.
  set (cl := zat (st_cells (LLTptr (k_tables k))) uLL) in *. set (cm := zat (st_cells (MLTptr (k_tables k))) uML) in *. set (co := zat (st_cells (OFTptr (k_tables k))) uOF) in *.
  unfold z_fields in Hp.
  replace (fs ++ [(sd_litLength (z_def z), zat LL_bits (z_ll z)); (mlBase (z_def z), zat ML_bits (z_ml z)); (offBase (z_def z), z_of z)])
    with (((fs ++ [(sd_litLength (z_def z), zat LL_bits (z_ll z))]) ++ [(mlBase (z_def z), zat ML_bits (z_ml z))]) ++ [(offBase (z_def z), z_of z)]) in Hp
    by (by rewrite <- !app_assoc).
  change MaxOff with 31 in Ro. rewrite Bo, Ao, Bl, Al, Bm, Am, Eprev.
  assert ((zat LL_base (z_ll z) =? 0) = (z_litLength z =? 0)) as Ell0.
  { unfold z_litLength. pose proof (Z.mod_pos_bound (sd_litLength (z_def z)) (2 ^ zat LL_bits (z_ll z)) ltac:(apply pow2_pos; lia)).
    destruct (Z.eqb_spec (zat LL_base (z_ll z)) 0) as [E|]; [|symmetry; apply Z.eqb_neq; lia].
    assert (z_ll z = 0) as ->; [|change (zat LL_bits 0) with 0; by rewrite Z.mod_1_r].
    destruct (Z.eq_dec (z_ll z) 0); [done|]. exfalso. revert E. assert (negb (zat LL_base (z_ll z) =? 0) = true) as H0; [|bools; lia].
    apply (forallb_range (fun s => negb (zat LL_base s =? 0)) 1 36); [vm_compute; reflexivity|change MaxLL with 35 in Rl; lia]. }
  destruct (decode_offset_pop src _ 57 _ prev z rep' (zat LL_base (z_ll z)) (z_litLength z) Hp ltac:(lia) Hof Hpo Hps Ell0 Hup Hpos) as (d1 & E1 & Hp1 & Hpo' & Hps').
  rewrite E1. cbn [bind].
  destruct (add_bits_pop src d1 _ _ (zat ML_base (z_ml z)) _ _ Hp1) as (d2 & E2 & Hp2); [lia|lia|]. rewrite E2. cbn [bind].
  destruct (OF_code (z_of z)) as [Eob _]; [change MaxOff with 31; lia|]. rewrite Eob. rewrite u8_small by lia.
  change (STREAM_ACCUMULATOR_MIN - (LLFSELog + MLFSELog + OffFSELog)) with 31.
  assert (exists d3, (if zat LL_bits (z_ll z) + zat ML_bits (z_ml z) + z_of z >=? 31
      then let* '(_, bitD) := BIT_reloadDStream src d2 in Ok bitD else Ok d2) = Ok d3 /\
    popped src d3 (27 + zat LL_bits (z_ll z)) (fs ++ [(sd_litLength (z_def z), zat LL_bits (z_ll z))])) as (d3 & -> & Hp3).
  { destruct (Z.geb_spec (zat LL_bits (z_ll z) + zat ML_bits (z_ml z) + z_of z) 31).
    - destruct (reload_popped _ _ _ _ Hsrc Hp2) as (s & d3 & -> & Hp3). cbn [bind]. exists d3. split; [done|]. eapply popped_weaken; [exact Hp3|lia].
    - exists d2. split; [done|]. eapply popped_weaken; [exact Hp2|lia]. }
  cbn [bind]. destruct (add_bits_pop src d3 _ _ (zat LL_base (z_ll z)) _ _ Hp3) as (d4 & E4 & Hp4); [lia|lia|]. rewrite E4. cbn [bind].
  exists d4. split; [eapply popped_weaken; [exact Hp4|lia]|]. split; [done|]. split; [done|]. done.
Qed.

Lemma decode_coded zs fs uLL uOF uML :
  seq_coded k zs fs uLL uOF uML -> forall st prev seqs rep',
  at_states st 57 fs uLL uOF uML prev -> Forall z_off_ok zs -> resolve prev (map z_meaning zs) = Ok (seqs, rep') ->
  Forall (fun s => 1 <= offset s) seqs ->
  exists st', decode_sequences src st (length zs) = Ok (seqs, st') /\ ss_prevOffset st' = rep' /\ prev_ok rep' /\ prev_small rep' /\
    BIT_endOfDStream (ss_DStream st') = true.
Proof.
  induction 1 as [z uLL uOF uML Hz Hc|z zs fs uLL uOF uML vLL vOF vML Hcd IH Hz Hc HL HO HM]; intros st prev seqs rep' Hst Hoff Hres Hpos.
  - cbn [map z_meaning resolve] in Hres. apply Forall_cons in Hoff as [Hof _].
    destruct (ZSTD_updateRep prev _ _) as [rep| |] eqn:Hup; cbn [bind] in Hres; try discriminate. injection Hres as <- <-. apply Forall_cons in Hpos as [Hpos _].
    destruct (decode_fields st [] z uLL uOF uML prev rep true Hst Hz Hc Hof Hup Hpos) as (d & Hd & Hpo & Hps & E). cbn [length decode_sequences].
    rewrite bool_decide_eq_true_2, E by done. cbn [bind negb]. eexists. split; [done|]. cbn [ss_prevOffset ss_DStream]. split_and!; try done. by apply (popped_end src _ 27).
  - cbn [map z_meaning resolve] in Hres. apply Forall_cons in Hoff as [Hof Hoff].
    destruct (ZSTD_updateRep prev _ _) as [rep| |] eqn:Hup; cbn [bind] in Hres; try discriminate.
    destruct (resolve rep _) as [[seqs0 rep0]| |] eqn:Hres0; cbn [bind] in Hres; try discriminate. injection Hres as <- <-. apply Forall_cons in Hpos as [Hpos1 Hpos].
    assert (length zs <> O) as Hne by (by destruct Hcd).
    pose proof Hst as (_ & EsL & EsO & EsM & _).
    replace (fs ++ [(vOF, sq_nbBits (zat (st_cells (OFTptr (k_tables k))) uOF)); (vML, sq_nbBits (zat (st_cells (MLTptr (k_tables k))) uML)); (vLL, sq_nbBits (zat (st_cells (LLTptr (k_tables k))) uLL))] ++ z_fields z)
      with ((((fs ++ [(vOF, sq_nbBits (zat (st_cells (OFTptr (k_tables k))) uOF))]) ++ [(vML, sq_nbBits (zat (st_cells (MLTptr (k_tables k))) uML))]) ++ [(vLL, sq_nbBits (zat (st_cells (LLTptr (k_tables k))) uLL))]) ++ z_fields z) in Hst
      by (by rewrite <- !app_assoc).
    destruct (decode_fields st _ z uLL uOF uML prev rep false Hst Hz Hc Hof Hup Hpos1) as (d & Hd & Hpo & Hps & E). cbn [length decode_sequences].
    rewrite bool_decide_eq_false_2 by done. cbv zeta in E. rewrite E. clear E. cbn [negb]. rewrite EsL, EsO, EsM.
    destruct (update_state_pop src d 27 _ (mkFseState uLL (st_cells (LLTptr (k_tables k)))) _ vLL _ Hd ltac:(lia) ltac:(lia) eq_refl) as [-> Hd1]. cbn [bind fs_table].
    destruct (update_state_pop src _ _ _ (mkFseState uML (st_cells (MLTptr (k_tables k)))) _ vML _ Hd1 ltac:(lia) ltac:(lia) eq_refl) as [-> Hd2]. cbn [bind fs_table].
    destruct (update_state_pop src _ _ _ (mkFseState uOF (st_cells (OFTptr (k_tables k)))) _ vOF _ Hd2 ltac:(lia) ltac:(lia) eq_refl) as [-> Hd3]. cbn [bind fs_table].
    destruct (reload_popped _ _ _ _ Hsrc Hd3) as (s & d4 & -> & Hd4). cbn [bind].
    destruct (IH (mkSeqState d4 (mkFseState (sq_nextState (zat (st_cells (LLTptr (k_tables k))) uLL) + vLL) (st_cells (LLTptr (k_tables k))))
      (mkFseState (sq_nextState (zat (st_cells (OFTptr (k_tables k))) uOF) + vOF) (st_cells (OFTptr (k_tables k))))
      (mkFseState (sq_nextState (zat (st_cells (MLTptr (k_tables k))) uML) + vML) (st_cells (MLTptr (k_tables k)))) rep) rep seqs0 rep0) as (st' & -> & Erep & Hend);
      [by split_and!|done|done|done|]. cbn [bind]. by exists st'.
Qed.

Lemma initFseState_pop base bits t ct can d w fs u :
  SeqCodec base bits t ct can -> popped src d w (fs ++ [(u, st_tableLog t)]) -> 9 <= w -> 0 <= u < 2 ^ st_tableLog t ->
  exists d', ZSTD_initFseState src d t = Ok (mkFseState u (st_cells t), d') /\ popped src d' 57 fs.
Proof.
  intros Hk Hp Hw Hu. pose proof (sc_log (SeqCodec := Hk)). unfold ZSTD_initFseState. destruct (pop_ok _ _ _ _ _ _ Hp ltac:(lia)) as [-> Hp']. cbn [bind].
  destruct (reload_popped _ _ _ _ Hsrc Hp') as (s & d' & -> & Hd'). cbn [bind]. rewrite Z.mod_small by done. by exists d'.
Qed.

Lemma init_seqState_pop fs uLL uOF uML rep :
  let all := fs ++ [(uML, st_tableLog (MLTptr (k_tables k))); (uOF, st_tableLog (OFTptr (k_tables k))); (uLL, st_tableLog (LLTptr (k_tables k)))] in
  zlen src < 2 ^ 32 -> widths_ok all -> 8 * (zlen src - 1) <= stack_bits all < 8 * zlen src -> le_val src = stack_val all + 2 ^ stack_bits all ->
  0 <= uLL < 2 ^ st_tableLog (LLTptr (k_tables k)) -> 0 <= uOF < 2 ^ st_tableLog (OFTptr (k_tables k)) ->
  0 <= uML < 2 ^ st_tableLog (MLTptr (k_tables k)) -> prev_ok rep -> prev_small rep ->
  exists st, init_seqState src (k_tables k) rep = Ok st /\ at_states st 57 fs uLL uOF uML rep.
Proof.
  intros all Hl Hw Hbits Hval HuL HuO HuM Hpo Hps. unfold init_seqState.
  destruct (open_pushed src all Hsrc Hl Hw Hbits Hval) as (d & -> & Hd). cbn [or_corrupted bind]. unfold all in Hd.
  replace (fs ++ [(uML, st_tableLog (MLTptr (k_tables k))); (uOF, st_tableLog (OFTptr (k_tables k))); (uLL, st_tableLog (LLTptr (k_tables k)))])
    with (((fs ++ [(uML, st_tableLog (MLTptr (k_tables k)))]) ++ [(uOF, st_tableLog (OFTptr (k_tables k)))]) ++ [(uLL, st_tableLog (LLTptr (k_tables k)))]) in Hd
    by (by rewrite <- !app_assoc).
  destruct (initFseState_pop _ _ _ _ _ d _ _ uLL (k_LL k) Hd) as (d1 & -> & Hd1); [lia|done|]. cbn [bind].
  destruct (initFseState_pop _ _ _ _ _ d1 _ _ uOF (k_OF k) Hd1) as (d2 & -> & Hd2); [lia|done|]. cbn [bind].
  destruct (initFseState_pop _ _ _ _ _ d2 _ _ uML (k_ML k) Hd2) as (d3 & -> & Hd3); [lia|done|]. cbn [bind].
  eexists. split; [done|]. by split_and!.
Qed.
End decode.

Lemma sequences_roundtrip k zs mlT ofT llT dst long rep seqs rep' :
  Forall (z_ok k) zs -> Forall z_off_ok zs -> 1 <= zlen zs < 2 ^ 31 -> codes_in mlT ofT llT (map z_def zs) zs ->
  8 < zlen dst < 2 ^ 32 -> bytes_ok dst -> prev_ok rep -> prev_small rep ->
  resolve rep (map z_meaning zs) = Ok (seqs, rep') -> Forall (fun s => 1 <= offset s) seqs ->
  match ZSTD_encodeSequences_body dst (k_ctML k) mlT (k_ctOF k) ofT (k_ctLL k) llT (map z_def zs) long with
  | Ok (mem, sz) => 0 < sz <= zlen dst - 8 /\ zlen mem = zlen dst /\ bytes_ok mem /\
      decode_block (zsub mem 0 sz) (k_tables k) rep (zlen zs) = Ok (seqs, rep', true)
  | Err e => e = dstSize_tooSmall
  | Stuck => False
  end.
Proof.
  intros Hz Hoff Hn Hin Hd Hb Hpo Hps Hres Hpos.
  destruct (encodeSequences_ok k zs mlT ofT llT dst long Hz ltac:(lia) Hin Hd) as (fs & uLL & uOF & uML & mem & sz & Hcd & _ & HuL & HuO & HuM & Hl & Hbm & [[-> _]|(-> & Hsz & Hbits & Hw & Hval)]); [done|].
  split; [done|]. split; [done|]. specialize (Hbm Hb). split; [done|].
  assert (zlen (zsub mem 0 sz) = sz) as Esz by (apply zlen_zsub; lia). pose proof (bytes_ok_zsub mem 0 sz Hbm) as Hbs.
  unfold decode_block. rewrite (proj2 (Z.eqb_neq (zlen zs) 0)) by lia.
  destruct (init_seqState_pop k (zsub mem 0 sz) Hbs fs uLL uOF uML rep) as (st & -> & Hst); rewrite ?Esz; try done; [lia|]. cbn [bind].
  destruct (decode_coded k (zsub mem 0 sz) Hbs zs fs uLL uOF uML Hcd st rep seqs rep' Hst Hoff Hres Hpos) as (st' & E & Erep & Hpo' & Hps' & Hend).
  replace (Z.to_nat (zlen zs)) with (length zs) by (unfold zlen; lia). rewrite E. cbn [bind]. by rewrite Erep, Hend, rep_ok_u32.
Qed.

(** *** The codes of a store *)

(** A store that the match finders can make: 16-bit lengths and 32-bit offsets,
    and room for the codes. *)
Record store_ok (s : SeqStore_t) : Prop := {
  st_nb : 1 <= zlen (sequences s) < 2 ^ 31;
  st_defs : Forall (fun d => 0 <= sd_litLength d < 2 ^ 16 /\ 0 <= mlBase d < 2 ^ 16 /\ 1 <= offBase d < 2 ^ 32) (sequences s);
  st_codes : zlen (sequences s) <= zlen (llCode s) /\ zlen (sequences s) <= zlen (ofCode s) /\ zlen (sequences s) <= zlen (mlCode s);
  st_long : longLengthType s <> ZSTD_llt_none -> 0 <= longLengthPos s < zlen (sequences s);
}.

(** The lengths and the offset of a sequence of the store. *)
Definition store_meaning (s : SeqStore_t) : list (Z * Z * Z) :=
  map (fun i => let '(ll, ml) := ZSTD_getSequenceLength s i in (ll, ml, offBase (zat (sequences s) i))) (seqZ 0 (zlen (sequences s))).

(** Sequence [i] with its codes. *)
Definition zseq_at (s : SeqStore_t) (i : Z) : zseq :=
  mkZSeq (zat (sequences s) i) (zat (llCode s) i) (zat (ofCode s) i) (zat (mlCode s) i).
Definition zseqs (s : SeqStore_t) : list zseq := map (zseq_at s) (seqZ 0 (zlen (sequences s))).

Definition ll_code_ok (l c : Z) : Prop := 0 <= c <= MaxLL /\ zat LL_base c + l mod 2 ^ zat LL_bits c = l.
Definition ml_code_ok (m c : Z) : Prop := 0 <= c <= MaxML /\ zat ML_base c + m mod 2 ^ zat ML_bits c = m + MINMATCH.

Lemma high_code l h : 0 <= h -> 2 ^ h <= l < 2 ^ (h + 1) -> 2 ^ h + l mod 2 ^ h = l.
Proof. intros Hh Hl. rewrite pow2_S in Hl by done. rewrite <- (Z.mod_unique l (2 ^ h) 1 (l - 2 ^ h)) by lia. lia. Qed.

Lemma LLcode_ok l : 0 <= l < 2 ^ 16 -> exists c, ZSTD_LLcode l = Ok c /\ ll_code_ok l c.
Proof.
  intros Hl. unfold ZSTD_LLcode, ll_code_ok. change MaxLL with 35. destruct (Z.gtb_spec l 63).
  - rewrite highbit32_spec by lia. set (h := Z.log2 l). assert (6 <= h <= 15) as Hh.
    { split; [change 6 with (Z.log2 64); apply Z.log2_le_mono; lia|]. assert (h < 16) by (apply Z.log2_lt_pow2; lia). lia. }
    rewrite u32_small by lia. exists (h + 19). split; [done|]. split; [lia|].
    assert ((zat LL_base (h + 19) =? 2 ^ h) && (zat LL_bits (h + 19) =? h) = true) as Htab.
    { apply (forallb_range (fun h => (zat LL_base (h + 19) =? 2 ^ h) && (zat LL_bits (h + 19) =? h)) 6 16); [vm_compute; reflexivity|lia]. }
    bools. rewrite H0, H1. apply high_code; [lia|]. pose proof (Z.log2_spec l ltac:(lia)) as Hs. rewrite <- Z.add_1_r in Hs. exact Hs.
  - rewrite rd_ok by (change (zlen LL_Code) with 64; lia). eexists. split; [done|].
    assert ((0 <=? zat LL_Code l) && (zat LL_Code l <=? 35) && (zat LL_base (zat LL_Code l) + l mod 2 ^ zat LL_bits (zat LL_Code l) =? l) = true) as Htab.
    { apply (forallb_range (fun l => (0 <=? zat LL_Code l) && (zat LL_Code l <=? 35) && (zat LL_base (zat LL_Code l) + l mod 2 ^ zat LL_bits (zat LL_Code l) =? l)) 0 64); [vm_compute; reflexivity|lia]. }
    bools. lia.
Qed.

Lemma MLcode_ok m : 0 <= m < 2 ^ 16 -> exists c, ZSTD_MLcode m = Ok c /\ ml_code_ok m c.
Proof.
  intros Hm. unfold ZSTD_MLcode, ml_code_ok. change MaxML with 52. change MINMATCH with 3. destruct (Z.gtb_spec m 127).
  - rewrite highbit32_spec by lia. set (h := Z.log2 m). assert (7 <= h <= 15) as Hh.
    { split; [change 7 with (Z.log2 128); apply Z.log2_le_mono; lia|]. assert (h < 16) by (apply Z.log2_lt_pow2; lia). lia. }
    rewrite u32_small by lia. exists (h + 36). split; [done|]. split; [lia|].
    assert ((zat ML_base (h + 36) =? 2 ^ h + 3) && (zat ML_bits (h + 36) =? h) = true) as Htab.
    { apply (forallb_range (fun h => (zat ML_base (h + 36) =? 2 ^ h + 3) && (zat ML_bits (h + 36) =? h)) 7 16); [vm_compute; reflexivity|lia]. }
    bools. rewrite H0, H1. rewrite <- (high_code m h) at 2; [lia|lia|]. pose proof (Z.log2_spec m ltac:(lia)) as Hs. rewrite <- Z.add_1_r in Hs. exact Hs.
  - rewrite rd_ok by (change (zlen ML_Code) with 128; lia). eexists. split; [done|].
    assert ((0 <=? zat ML_Code m) && (zat ML_Code m <=? 52) && (zat ML_base (zat ML_Code m) + m mod 2 ^ zat ML_bits (zat ML_Code m) =? m + 3) = true) as Htab.
    { apply (forallb_range (fun m => (0 <=? zat ML_Code m) && (zat ML_Code m <=? 52) && (zat ML_base (zat ML_Code m) + m mod 2 ^ zat ML_bits (zat ML_Code m) =? m + 3)) 0 128); [vm_compute; reflexivity|lia]. }
    bools. lia.
Qed.

Lemma seqToCodes_ok s :
  store_ok s ->
  exists s', ZSTD_seqToCodes s = Ok (s', false) /\ sequences s' = sequences s /\
    codes_in (mlCode s') (ofCode s') (llCode s') (sequences s') (zseqs s') /\ Forall z_off_ok (zseqs s') /\
    map z_meaning (zseqs s') = store_meaning s /\
    Forall (fun z => 0 <= z_ll z <= MaxLL /\ 0 <= z_of z <= MaxOff /\ 0 <= z_ml z <= MaxML) (zseqs s').
Proof.
  intros [Hn Hdefs (Hl1 & Hl2 & Hl3) Hlong]. unfold ZSTD_seqToCodes. cbv zeta.
  pose (R := fun i '((l, o, m) : list Z * list Z * list Z) => zlen l = zlen (llCode s) /\ zlen o = zlen (ofCode s) /\ zlen m = zlen (mlCode s) /\
    forall j, 0 <= j < i -> ll_code_ok (sd_litLength (zat (sequences s) j)) (zat l j) /\ ml_code_ok (mlBase (zat (sequences s) j)) (zat m j) /\
      zat o j = ZSTD_highbit32 (offBase (zat (sequences s) j))).
  match goal with |- context [for_range _ _ ?f ?x] => assert (wp (for_range 0 (zlen (sequences s)) f x) (R (zlen (sequences s))) no_errors) as Hwp end.
  { apply (wp_for R); [lia|split_and!; [done..|lia]| |done]. intros i [[l o] m] Hi (E1 & E2 & E3 & Hj).
    pose proof (zat_Forall _ _ i Hdefs ltac:(lia)) as Hd. cbv beta in Hd. set (d := zat (sequences s) i) in *.
    wp_step. wp_step; [lia|]. fold d. destruct (LLcode_ok (sd_litLength d)) as (lc & -> & Hlc); [lia|]. cbn [bind].
    wp_step. wp_step; [lia|]. wp_step. wp_step; [lia|]. destruct (MLcode_ok (mlBase d)) as (mc & -> & Hmc); [lia|]. cbn [bind]. wp_step. wp_step; [lia|]. wp_step.
    unfold R. rewrite !zlen_zupd. split; [done|]. split; [done|]. split; [done|]. intros j Hj'. rewrite !zat_zupd by lia.
    pose proof (highbit32_bounds (offBase d) ltac:(lia)) as [Hb _]. destruct (Z.eqb_spec j i) as [->|]; [|apply Hj; lia]. fold d.
    destruct Hlc as [Hlc1 Hlc2], Hmc as [Hmc1 Hmc2]. change MaxLL with 35 in *. change MaxML with 52 in *. unfold ll_code_ok, ml_code_ok.
    change MaxLL with 35. change MaxML with 52. rewrite !u8_small by lia. split; [done|]. split; [done|]. done. }
  destruct (wp_no_errors_Ok _ _ Hwp) as ([[l o] m] & -> & E1 & E2 & E3 & Hj). clear Hwp. cbn [bind].
  assert (exists l', match longLengthType s with ZSTD_llt_literalLength => wr l (longLengthPos s) MaxLL | _ => Ok l end = Ok l' /\ zlen l' = zlen l /\
    forall j, 0 <= j < zlen (sequences s) -> 0 <= zat l' j <= MaxLL /\
      zat LL_base (zat l' j) + sd_litLength (zat (sequences s) j) mod 2 ^ zat LL_bits (zat l' j) = (ZSTD_getSequenceLength s j).1) as (l' & -> & El' & Hl').
  { unfold ZSTD_getSequenceLength. cbn [fst]. destruct (longLengthType s) eqn:Et.
    - exists l. split; [done|]. split; [done|]. intros j Hr. destruct (Hj j Hr) as ([? ?] & _). destruct (_ =? _); lia.
    - rewrite wr_ok by (specialize (Hlong ltac:(done)); lia). eexists. split; [done|]. rewrite zlen_zupd. split; [done|]. intros j Hr.
      specialize (Hlong ltac:(done)). rewrite zat_zupd by lia. rewrite (Z.eqb_sym (longLengthPos s)). destruct (Z.eqb_spec j (longLengthPos s)) as [->|]; [|destruct (Hj j Hr) as ([? ?] & _); lia].
      pose proof (zat_Forall _ _ _ Hdefs Hlong) as Hd. cbv beta in Hd. change (zat LL_base MaxLL) with 65536. change (zat LL_bits MaxLL) with 16. change MaxLL with 35.
      rewrite Z.mod_small by lia. lia.
    - exists l. split; [done|]. split; [done|]. intros j Hr. destruct (Hj j Hr) as ([? ?] & _). destruct (_ =? _); lia. }
  cbn [bind].
  assert (exists m', match longLengthType s with ZSTD_llt_matchLength => wr m (longLengthPos s) MaxML | _ => Ok m end = Ok m' /\ zlen m' = zlen m /\
    forall j, 0 <= j < zlen (sequences s) -> 0 <= zat m' j <= MaxML /\
      zat ML_base (zat m' j) + mlBase (zat (sequences s) j) mod 2 ^ zat ML_bits (zat m' j) = (ZSTD_getSequenceLength s j).2) as (m' & -> & Em' & Hm').
  { unfold ZSTD_getSequenceLength. cbn [snd]. destruct (longLengthType s) eqn:Et.
    - exists m. split; [done|]. split; [done|]. intros j Hr. destruct (Hj j Hr) as (_ & [? ?] & _). destruct (_ =? _); lia.
    - exists m. split; [done|]. split; [done|]. intros j Hr. destruct (Hj j Hr) as (_ & [? ?] & _). destruct (_ =? _); lia.
    - rewrite wr_ok by (specialize (Hlong ltac:(done)); lia). eexists. split; [done|]. rewrite zlen_zupd. split; [done|]. intros j Hr.
      specialize (Hlong ltac:(done)). rewrite zat_zupd by lia. rewrite (Z.eqb_sym (longLengthPos s)). destruct (Z.eqb_spec j (longLengthPos s)) as [->|]; [|destruct (Hj j Hr) as (_ & [? ?] & _); lia].
      pose proof (zat_Forall _ _ _ Hdefs Hlong) as Hd. cbv beta in Hd. change (zat ML_base MaxML) with 65539. change (zat ML_bits MaxML) with 16. change MaxML with 52. change MINMATCH with 3.
      rewrite Z.mod_small by lia. lia. }
  cbn [bind]. eexists. split; [reflexivity|]. split; [done|]. cbn [mlCode ofCode llCode sequences].
  set (s' := mkSeqStore _ _ _ _ _ _ _). assert (zlen (zseqs s') = zlen (sequences s)) as Ez by (apply zlen_map_seqZ; lia).
  assert (forall i, 0 <= i < zlen (sequences s) -> zat (zseqs s') i = zseq_at s' i) as Eat by (intros i Hi; by apply zat_map_seqZ).
  split; [|split; [|split]].
  - split.
    + unfold zseqs. rewrite map_map. cbn [z_def zseq_at]. change (sequences s') with (sequences s).
      apply zat_ext; [by rewrite zlen_map_seqZ by lia|]. intros i Hi. by rewrite zat_map_seqZ.
    + rewrite Ez. split; [lia|]. intros i Hi. by rewrite Eat.
    + rewrite Ez. split; [lia|]. intros i Hi. by rewrite Eat.
    + rewrite Ez. split; [lia|]. intros i Hi. by rewrite Eat.
  - unfold zseqs. apply Forall_map, Forall_seqZ. intros i Hi. change (sequences s') with (sequences s) in Hi. pose proof (zat_Forall _ _ i Hdefs ltac:(lia)) as Hd. cbv beta in Hd.
    split; cbn [z_def z_of zseq_at]; change (sequences s') with (sequences s); [lia|apply (Hj i ltac:(lia))].
  - unfold zseqs, store_meaning. rewrite map_map. apply map_ext_in. intros i Hi. apply list_elem_of_In, elem_of_seqZ in Hi. change (sequences s') with (sequences s) in Hi.
    unfold z_meaning, z_litLength, z_matchLength, zseq_at. cbn [z_def z_ll z_of z_ml llCode mlCode ofCode sequences s'].
    rewrite (proj2 (Hl' i ltac:(lia))), (proj2 (Hm' i ltac:(lia))). by destruct (ZSTD_getSequenceLength s i).
  - unfold zseqs. apply Forall_map, Forall_seqZ. intros i Hi. change (sequences s') with (sequences s) in Hi. cbn.
    split; [apply (Hl' i ltac:(lia))|]. split; [|apply (Hm' i ltac:(lia))]. rewrite (proj2 (proj2 (Hj i ltac:(lia)))).
    pose proof (zat_Forall _ _ i Hdefs ltac:(lia)) as Hd. cbv beta in Hd. change MaxOff with 31. rewrite highbit32_spec by lia.
    split; [apply Z.log2_nonneg|]. assert (Z.log2 (offBase (zat (sequences s) i)) < 32) by (apply Z.log2_lt_pow2; lia). lia.
Qed.
