(* ===== verification/SeqSelect.v ===== *)
(** The choice of the tables of a block (compress/zstd_compress_sequences.c): what
    each kind of table costs, in bits, and [ZSTD_selectEncodingType]. *)

From S2P Require Import Prelude Errors Outcome Bits FseTable FseSymbols FseBuildC FseCodec FseStream FseNormalize FseWriteNCount FseNCountRoundtrip SeqTables.

(** ** Definitions *)

Definition kInverseProbabilityLog256 : list Z :=
  [0; 2048; 1792; 1642; 1536; 1453; 1386; 1329; 1280; 1236; 1197; 1162;
   1130; 1100; 1073; 1047; 1024; 1001; 980; 960; 941; 923; 906; 889;
   874; 859; 844; 830; 817; 804; 791; 779; 768; 756; 745; 734;
   724; 714; 704; 694; 685; 676; 667; 658; 650; 642; 633; 626;
   618; 610; 603; 595; 588; 581; 574; 567; 561; 554; 548; 542;
   535; 529; 523; 517; 512; 506; 500; 495; 489; 484; 478; 473;
   468; 463; 458; 453; 448; 443; 438; 434; 429; 424; 420; 415;
   411; 407; 402; 398; 394; 390; 386; 382; 377; 373; 370; 366;
   362; 358; 354; 350; 347; 343; 339; 336; 332; 329; 325; 322;
   318; 315; 311; 308; 305; 302; 298; 295; 292; 289; 286; 282;
   279; 276; 273; 270; 267; 264; 261; 258; 256; 253; 250; 247;
   244; 241; 239; 236; 233; 230; 228; 225; 222; 220; 217; 215;
   212; 209; 207; 204; 202; 199; 197; 194; 192; 190; 187; 185;
   182; 180; 178; 175; 173; 171; 168; 166; 164; 162; 159; 157;
   155; 153; 151; 149; 146; 144; 142; 140; 138; 136; 134; 132;
   130; 128; 126; 123; 121; 119; 117; 115; 114; 112; 110; 108;
   106; 104; 102; 100; 98; 96; 94; 93; 91; 89; 87; 85;
   83; 82; 80; 78; 76; 74; 73; 71; 69; 67; 66; 64;
   62; 61; 59; 57; 55; 54; 52; 50; 49; 47; 46; 44;
   42; 41; 39; 37; 36; 34; 33; 31; 30; 28; 26; 25;
   23; 22; 20; 19; 17; 16; 14; 13; 11; 10; 8; 7;
   5; 4; 2; 1].

Inductive FSE_repeat := FSE_repeat_none | FSE_repeat_check | FSE_repeat_valid.
#[global] Instance FSE_repeat_eq_dec : EqDecision FSE_repeat.
Proof. solve_decision. Defined.

(** [ZSTD_strategy] is a number from [ZSTD_fast], 1, to [ZSTD_btultra2], 9. *)
Definition ZSTD_lazy : Z := 4.

Definition ZSTD_getFSEMaxSymbolValue (ctable : FSE_CTable) : Z := u16 (ct_maxSymbolValue ctable).

Definition ZSTD_useLowProbCount (nbSeq : Z) : bool := nbSeq >=? 2048.

(** [norm] and [wksp] are arrays on the stack, of indeterminate content. *)
Definition ZSTD_NCountCost (count : list Z) (max nbSeq FSELog : Z) (norm wksp : list Z) : result Z :=
  let* tableLog := FSE_optimalTableLog FSELog nbSeq max in
  let* '(norm, _) := FSE_normalizeCount norm tableLog count nbSeq max (ZSTD_useLowProbCount nbSeq) in
  let* '(_, size) := FSE_writeNCount wksp norm max tableLog in
  Ok size.

(** The division is one of [size_t]. *)
Definition ZSTD_entropyCost (count : list Z) (max total : Z) : result Z :=
  REQUIRE negb (total =? 0) ;;
  let* cost := for_range 0 (max + 1) (fun s cost =>
    let* c := rd count s in
    let norm := u32 (u32 (256 * c) / total) in
    let norm := if negb (c =? 0) && (norm =? 0) then 1 else norm in
    let* k := rd kInverseProbabilityLog256 norm in
    Ok (u32 (cost + u32 (c * k)))) 0 in
  Ok (Z.shiftr cost 8).

Definition ZSTD_fseBitCost (ctable : FSE_CTable) (count : list Z) (max : Z) : result Z :=
  let kAccuracyLog := 8 in
  ERROR_IF ZSTD_getFSEMaxSymbolValue ctable <? max THEN GENERIC ;;
  let* cost := for_range 0 (max + 1) (fun s cost =>
    let tableLog := ct_tableLog ctable in
    let badCost := u32 (Z.shiftl (tableLog + 1) kAccuracyLog) in
    let* bitCost := FSE_bitCost (ct_symbolTT ctable) tableLog s kAccuracyLog in
    let* c := rd count s in
    if c =? 0 then Ok cost
    else
      ERROR_IF bitCost >=? badCost THEN GENERIC ;;
      Ok (u64 (cost + u64 (c * bitCost)))) 0 in
  Ok (Z.shiftr cost kAccuracyLog).

Definition ZSTD_crossEntropyCost (norm : list Z) (accuracyLog : Z) (count : list Z) (max : Z) : result Z :=
  let shift := u32 (8 - accuracyLog) in
  let* cost := for_range 0 (max + 1) (fun s cost =>
    let* n := rd norm s in
    let normAcc := if negb (n =? -1) then u32 n else 1 in
    let norm256 := u32 (Z.shiftl normAcc shift) in
    let* k := rd kInverseProbabilityLog256 norm256 in
    let* c := rd count s in
    Ok (u64 (cost + u32 (c * k)))) 0 in
  Ok (Z.shiftr cost 8).

(** A cost that is an error is the largest number. *)
Definition as_size_t (m : result Z) : result Z :=
  match to_size m with Some n => Ok n | None => Stuck end.

(** [*repeatMode] and the returned value. [norm] and [wksp] are those of
    [ZSTD_NCountCost]. *)
Definition ZSTD_selectEncodingType (repeatMode : FSE_repeat) (count : list Z) (max mostFrequent nbSeq FSELog : Z)
    (prevCTable : FSE_CTable) (defaultNorm : list Z) (defaultNormLog : Z) (isDefaultAllowed : bool) (strategy : Z)
    (norm wksp : list Z) : result (FSE_repeat * SymbolEncodingType_e) :=
  if mostFrequent =? nbSeq then
    if isDefaultAllowed && (nbSeq <=? 2) then Ok (FSE_repeat_none, set_basic)
    else Ok (FSE_repeat_none, set_rle)
  else if strategy <? ZSTD_lazy then
    let staticFse_nbSeq_max := 1000 in
    let mult := u64 (10 - strategy) in
    let baseLog := 3 in
    let dynamicFse_nbSeq_min := Z.shiftr (u64 (Z.shiftl 1 defaultNormLog * mult)) baseLog in
    if isDefaultAllowed && bool_decide (repeatMode = FSE_repeat_valid) && (nbSeq <? staticFse_nbSeq_max) then Ok (repeatMode, set_repeat)
    else if isDefaultAllowed && ((nbSeq <? dynamicFse_nbSeq_min) || (mostFrequent <? Z.shiftr nbSeq (defaultNormLog - 1))) then
      Ok (FSE_repeat_none, set_basic)
    else Ok (FSE_repeat_check, set_compressed)
  else
    let* basicCost := (if isDefaultAllowed then as_size_t (ZSTD_crossEntropyCost defaultNorm defaultNormLog count max)
                       else Ok (ERROR GENERIC)) in
    let* repeatCost := (if negb (bool_decide (repeatMode = FSE_repeat_none)) then as_size_t (ZSTD_fseBitCost prevCTable count max)
                        else Ok (ERROR GENERIC)) in
    let* NCountCost := as_size_t (ZSTD_NCountCost count max nbSeq FSELog norm wksp) in
    let* entropyCost := ZSTD_entropyCost count max nbSeq in
    let compressedCost := u64 (Z.shiftl NCountCost 3 + entropyCost) in
    if (basicCost <=? repeatCost) && (basicCost <=? compressedCost) then Ok (FSE_repeat_none, set_basic)
    else if repeatCost <=? compressedCost then Ok (repeatMode, set_repeat)
    else Ok (FSE_repeat_check, set_compressed).

(** ** Lemmas *)

Lemma optimalTableLog_le maxTableLog srcSize maxSV :
  1 < srcSize < 2 ^ 32 -> 0 < maxSV <= 255 -> 5 <= maxTableLog <= 12 -> Z.log2 maxSV + 2 <= maxTableLog ->
  exists tl, FSE_optimalTableLog maxTableLog srcSize maxSV = Ok tl /\ 5 <= tl <= maxTableLog /\
    Z.min (Z.log2 srcSize + 1) (Z.log2 maxSV + 2) <= tl.
Proof.
  intros Hs Hm Ht Hlog. unfold FSE_optimalTableLog, FSE_optimalTableLog_internal, defined_if.
  rewrite (u32_small (srcSize - 1)), (proj2 (Z.eqb_neq (srcSize - 1) 0)) by lia. cbn [negb].
  rewrite minTableLog_ok by lia. cbn [bind].
  change FSE_MIN_TABLELOG with 5. change FSE_MAX_TABLELOG with 12. rewrite (proj2 (Z.eqb_neq maxTableLog 0)) by lia.
  set (m := Z.min _ _). eexists. split; [done|]. set (t2 := if _ <? maxTableLog then _ else _).
  assert (t2 <= maxTableLog) by (unfold t2; case_if; lia).
  set (t3 := if m >? t2 then m else t2). assert (m <= t3 <= maxTableLog) by (unfold t3; case_if; lia).
  set (t4 := if t3 <? 5 then 5 else t3). assert (5 <= t4 <= maxTableLog /\ m <= t4) by (unfold t4; case_if; lia).
  rewrite Z.gtb_ltb, (proj2 (Z.ltb_ge 12 t4)) by lia. lia.
Qed.

Lemma writeBound_small maxSV tl : 0 < maxSV <= 52 -> 5 <= tl <= 9 -> FSE_NCountWriteBound maxSV tl <= 512.
Proof.
  intros Hm Htl. unfold FSE_NCountWriteBound. assert (0 <= (maxSV + 1) * tl <= 53 * 9) as Hx by (split; [lia|apply Z.mul_le_mono_nonneg; lia]).
  rewrite (u32_small (maxSV + 1)) by lia. set (x := (maxSV + 1) * tl) in *.
  rewrite (u32_small x), (u32_small (x + 4 + 2)), u32_small by zdm. destruct (Z.eqb_spec maxSV 0); cbn [negb]; [lia|zdm].
Qed.

(** What is known of the counts of a block: [total] codes up to [max], and not
    all of them the same. *)
Definition block_counts_ok (count : list Z) (max total : Z) : Prop :=
  histogram_ok count max total /\ 1 <= max <= MaxSeq /\ 1 < total < 2 ^ 17 /\ forall s, 0 <= s <= max -> 0 <= zat count s < total.

Lemma NCountCost_ok count max total FSELog norm wksp :
  block_counts_ok count max total -> 5 <= FSELog <= 9 -> Z.log2 max + 2 <= FSELog -> zlen norm = MaxSeq + 1 -> zlen wksp = FSE_NCOUNTBOUND -> bytes_ok wksp ->
  wp (ZSTD_NCountCost count max total FSELog norm wksp) (fun n => 0 <= n <= 512) no_errors.
Proof.
  intros (Hh & Hm & Ht & Hc) HL Hlog Hn Hw Hb. change MaxSeq with 52 in *. change FSE_NCOUNTBOUND with 512 in *. unfold ZSTD_NCountCost.
  destruct (optimalTableLog_le FSELog total max) as (tl & -> & Htl & Hmin); [lia..|]. cbn [bind]. wp_step.
  eapply wp_mono; [apply (normalize_correct norm tl count total max _ Hh); lia| |done].
  intros [norm' r] (Hln & [[(s & Hs & E) _]|(_ & _ & Hok & _)]); [specialize (Hc s Hs); lia|]. cbn [fst] in *. wp_step.
  eapply wp_mono; [apply ncount_reads_back; [exact Hok|lia|lia|done|]| |].
  - intros _. assert ((max + 1) * (tl + 3) <= 53 * 12) by (apply Z.mul_le_mono_nonneg; lia). zdm.
  - intros [h sz] (_ & _ & Hsz & _). wp_step. lia.
  - intros e [_ He]. pose proof (writeBound_small max tl ltac:(lia) ltac:(lia)). lia.
Qed.

Lemma kInverse_range i : 0 <= i < 256 -> 0 <= zat kInverseProbabilityLog256 i <= 2048.
Proof.
  intros Hi. assert ((0 <=? zat kInverseProbabilityLog256 i) && (zat kInverseProbabilityLog256 i <=? 2048) = true); [|bools; lia].
  apply (forallb_range (fun i => (0 <=? zat kInverseProbabilityLog256 i) && (zat kInverseProbabilityLog256 i <=? 2048)) 0 256); [vm_compute; reflexivity|lia].
Qed.

Lemma shiftr8_range x n : 0 <= x < 2 ^ n -> 8 <= n -> 0 <= Z.shiftr x 8 < 2 ^ (n - 8).
Proof.
  intros Hx Hn. rewrite Z.shiftr_div_pow2 by lia. split; [apply Z.div_pos; lia|]. apply Z.div_lt_upper_bound; [lia|].
  replace (2 ^ 8 * 2 ^ (n - 8)) with (2 ^ n); [lia|]. rewrite <- pow2_add by lia. f_equal. lia.
Qed.

Lemma entropyCost_ok count max total :
  block_counts_ok count max total -> wp (ZSTD_entropyCost count max total) (fun n => 0 <= n < 2 ^ 24) no_errors.
Proof.
  intros ((Hl & _) & Hm & Ht & Hc). unfold ZSTD_entropyCost. rewrite (proj2 (Z.eqb_neq total 0)) by lia. wp_step; [done|]. wp_step.
  apply (wp_for (fun _ cost => 0 <= cost < 2 ^ 32)); [lia|lia| |].
  - intros s cost Hs Hcost. specialize (Hc s ltac:(lia)). wp_step. wp_step; [lia|]. rewrite (u32_small (256 * _)) by lia.
    assert (0 <= 256 * zat count s / total < 256) as Hq by (split; [apply Z.div_pos; lia|apply Z.div_lt_upper_bound; lia]).
    rewrite (u32_small (_ / total)) by lia. wp_step.
    assert (0 <= (if negb (zat count s =? 0) && (256 * zat count s / total =? 0) then 1 else 256 * zat count s / total) < 256) as Hr by (case_if; lia).
    wp_step; [change (zlen kInverseProbabilityLog256) with 256; lia|]. wp_step. apply u32_range.
  - intros cost Hcost. wp_step. by apply (shiftr8_range cost 32).
Qed.

Lemma crossEntropyCost_ok norm tl count max total :
  block_counts_ok count max total -> 5 <= tl <= 6 -> max < zlen norm -> (forall s, 0 <= s <= max -> -1 <= zat norm s < 2 ^ tl) ->
  wp (ZSTD_crossEntropyCost norm tl count max) (fun n => 0 <= n < 2 ^ 56) no_errors.
Proof.
  intros ((Hl & _) & Hm & Ht & Hc) Htl Hn Hnorm. unfold ZSTD_crossEntropyCost. rewrite (u32_small (8 - tl)) by lia. wp_step.
  apply (wp_for (fun _ cost => 0 <= cost < 2 ^ 64)); [lia|lia| |].
  - intros s cost Hs Hcost. specialize (Hc s ltac:(lia)). specialize (Hnorm s ltac:(lia)). assert (2 ^ 5 <= 2 ^ tl <= 2 ^ 6) by (split; apply pow2_le; lia).
    wp_step. wp_step; [lia|]. set (a := if negb _ then _ else _).
    assert (0 <= a < 2 ^ tl) as Ha by (unfold a; destruct (Z.eqb_spec (zat norm s) (-1)); cbn [negb]; [|rewrite u32_small]; lia).
    assert (0 <= Z.shiftl a (8 - tl) < 256) as Hr.
    { rewrite Z.shiftl_mul_pow2 by lia. pose proof (pow2_pos (8 - tl)). split; [nia|]. change 256 with (2 ^ 8). replace 8 with (tl + (8 - tl)) at 2 by lia.
      rewrite pow2_add by lia. apply Z.mul_lt_mono_pos_r; lia. }
    rewrite (u32_small (Z.shiftl _ _)) by lia. wp_step. wp_step; [change (zlen kInverseProbabilityLog256) with 256; lia|].
    wp_step. wp_step; [lia|]. wp_step. apply u64_range.
  - intros cost Hcost. wp_step. by apply (shiftr8_range cost 64).
Qed.

(** *** The cost of a table *)

Section bit_cost.
Context (norm : list Z) (maxSV1 tl : Z) (ct : FSE_CTable).
Hypothesis Hok : norm_ok norm maxSV1 tl.
Hypothesis Htl9 : tl <= 9.
Hypothesis Hct : ctable_ok norm maxSV1 tl ct.

(** The cost when [deltaNbBits] is [m * 2 ^ 16 - x]. *)
Lemma bitCost_delta s m x :
  0 <= s < maxSV1 -> deltaNbBits (zat (ct_symbolTT ct) s) = m * 2 ^ 16 - x -> 1 <= m <= 10 -> 2 ^ tl <= x <= 2 ^ (tl + 1) ->
  exists b, FSE_bitCost (ct_symbolTT ct) tl s 8 = Ok b /\ (m - 1) * 256 <= b <= m * 256 /\ (x = 2 ^ tl -> b = m * 256).
Proof.
  intros Hs E Hm Hx. pose proof (nok_tl _ _ _ Hok). assert (2 ^ 5 <= 2 ^ tl <= 2 ^ 9) by (split; apply pow2_le; lia). rewrite pow2_S in Hx by lia.
  unfold FSE_bitCost. rewrite rd_ok by (pose proof (cto_lenTT _ _ _ _ Hct); lia). cbn [bind]. cbv zeta. rewrite E. change (u32 (Z.shiftl 1 8)) with 256.
  replace (Z.shiftr (m * 2 ^ 16 - x) 16) with (m - 1) by (rewrite Z.shiftr_div_pow2 by lia; zdm).
  replace (m - 1 + 1) with m by lia. rewrite Z.shiftl_1_l. rewrite (u32_small (2 ^ tl)) by lia. rewrite (Z.shiftl_mul_pow2 m) by lia. rewrite (u32_small (m * 2 ^ 16)) by lia.
  rewrite (u32_small (m * 2 ^ 16 - x + 2 ^ tl)) by lia. replace (m * 2 ^ 16 - (m * 2 ^ 16 - x + 2 ^ tl)) with (x - 2 ^ tl) by lia.
  rewrite (u32_small (x - 2 ^ tl)) by lia. rewrite (Z.shiftl_mul_pow2 _ 8), (u32_small (m * 256)), (u32_small ((x - 2 ^ tl) * 2 ^ 8)) by lia.
  rewrite Z.shiftr_div_pow2 by lia. set (q := (x - 2 ^ tl) * 2 ^ 8 / 2 ^ tl).
  assert (0 <= q <= 256) as Hq.
  { unfold q. split; [apply Z.div_pos; lia|]. apply Z.div_le_upper_bound; lia. }
  rewrite u32_small by lia. eexists. split; [done|]. split; [lia|]. intros ->.
  unfold q. rewrite Z.sub_diag, Z.mul_0_l, Z.div_0_l by lia. lia.
Qed.

Lemma bitCost_ok s :
  0 <= s < maxSV1 ->
  exists b, FSE_bitCost (ct_symbolTT ct) tl s 8 = Ok b /\ 0 <= b <= (tl + 1) * 256 /\ (b < (tl + 1) * 256 <-> zat norm s <> 0).
Proof.
  intros Hs. pose proof (nok_tl _ _ _ Hok). assert (2 ^ 5 <= 2 ^ tl <= 2 ^ 9) by (split; apply pow2_le; lia).
  pose proof (abs_norm_le norm maxSV1 tl Hok s Hs) as Hw. pose proof (cto_nb _ _ _ _ Hct s Hs) as E. unfold delta_nb in E.
  pose proof (pow2_S tl ltac:(lia)) as HS. set (w := Z.abs (zat norm s)) in *. assert (w = 0 <-> zat norm s = 0) as Hz by (unfold w; lia).
  destruct (Z.eqb_spec w 0) as [E0|Hw0].
  - destruct (bitCost_delta s (tl + 1) (2 ^ tl) Hs E) as (b & -> & Hb & Hbe); [lia|lia|]. specialize (Hbe eq_refl). exists b. split; [done|]. lia.
  - destruct (Z.eqb_spec w 1) as [E1|Hw1].
    + destruct (bitCost_delta s tl (2 ^ tl) Hs E) as (b & -> & Hb & _); [lia|lia|]. exists b. split; [done|]. lia.
    + set (h := Z.log2 (w - 1)) in *. assert (0 <= h) as Hh by apply Z.log2_nonneg.
      pose proof (Z.log2_spec (w - 1) ltac:(lia)) as Hl. fold h in Hl. rewrite <- Z.add_1_r in Hl.
      assert (h < tl) by (apply Z.log2_lt_pow2; lia).
      assert (2 ^ h * 2 ^ (tl - h) = 2 ^ tl) as Hp by (rewrite <- pow2_add by lia; f_equal; lia).
      assert (2 ^ (h + 1) * 2 ^ (tl - h) = 2 ^ (tl + 1)) as Hp' by (rewrite <- pow2_add by lia; f_equal; lia).
      pose proof (pow2_pos (tl - h) ltac:(lia)).
      destruct (bitCost_delta s (tl - h) (w * 2 ^ (tl - h)) Hs E) as (b & -> & Hb & _); [lia| |exists b; split; [done|]; lia].
      rewrite <- Hp, <- Hp'. split; apply Z.mul_le_mono_nonneg_r; lia.
Qed.

Lemma fseBitCost_ok count max total :
  block_counts_ok count max total ->
  wp (ZSTD_fseBitCost ct count max)
    (fun n => 0 <= n < 2 ^ 56 /\ forall s, 0 <= s <= max -> zat count s <> 0 -> 0 <= s < maxSV1 /\ zat norm s <> 0) (fun e => e = GENERIC).
Proof.
  intros ((Hl & _) & Hm & Ht & Hc). change MaxSeq with 52 in Hm. pose proof (nok_tl _ _ _ Hok). pose proof (nok_max256 _ _ _ Hok). pose proof (nok_max _ _ _ Hok).
  unfold ZSTD_fseBitCost, ZSTD_getFSEMaxSymbolValue. rewrite (cto_max _ _ _ _ Hct), (cto_log _ _ _ _ Hct). wp_step; [done|].
  assert (max < maxSV1).
  { destruct (Z.eq_dec maxSV1 0) as [E|]; [|rewrite u16_small in Hc0 by lia; lia].
    pose proof (nok_sum _ _ _ Hok) as Hsum. rewrite E, cum_0 in Hsum. pose proof (pow2_pos tl). lia. }
  wp_step. apply (wp_for (fun i cost => 0 <= cost < 2 ^ 64 /\ forall s, 0 <= s < i -> zat count s <> 0 -> 0 <= s < maxSV1 /\ zat norm s <> 0)).
  - lia.
  - split; [lia|]. intros; lia.
  - intros i cost Hi [Hcost Hall]. cbv zeta. destruct (bitCost_ok i ltac:(lia)) as (b & -> & Hb & Hbn). cbn [bind].
    wp_step. wp_step; [lia|]. rewrite u32_small by (rewrite Z.shiftl_mul_pow2 by lia; lia).
    wp_step.
    + wp_step. split; [done|]. intros s Hs Hne. apply Hall; [|done]. destruct (Z.eq_dec s i) as [->|]; [done|lia].
    + wp_step; [done|]. wp_step. split; [apply u64_range|]. rewrite Z.shiftl_mul_pow2 in Hc2 by lia.
      intros s Hs Hne. destruct (Z.eq_dec s i) as [->|]; [split; [lia|apply Hbn; lia]|apply Hall; [lia|done]].
  - intros cost [Hcost Hall]. wp_step. split; [by apply (shiftr8_range cost 64)|]. intros s Hs. apply Hall. lia.
Qed.
End bit_cost.

(** *** The choice *)

Lemma wp_as_size_t (m : result Z) (Q : Z -> Prop) (E : ZSTD_ErrorCode -> Prop) :
  wp m Q E -> wp (as_size_t m) (fun n => (m = Ok n /\ Q n) \/ exists e, m = Err e /\ E e /\ n = ERROR e) no_errors.
Proof. destruct m as [n|e|]; cbn; [by left|intros HE; right; by exists e|done]. Qed.

(** What a previous table can be used for. *)
Definition repeat_ok (m : FSE_repeat) (ct : FSE_CTable) : Prop :=
  m <> FSE_repeat_none -> exists norm maxSV1 tl, norm_ok norm maxSV1 tl /\ tl <= 9 /\ ctable_ok norm maxSV1 tl ct.

Lemma selectEncodingType_ok m count max mostFrequent total FSELog prev dnorm dlog allowed strategy norm wksp :
  (mostFrequent <> total -> block_counts_ok count max total) ->
  5 <= FSELog <= 9 -> Z.log2 max + 2 <= FSELog -> zlen norm = MaxSeq + 1 -> zlen wksp = FSE_NCOUNTBOUND -> bytes_ok wksp ->
  5 <= dlog <= 6 -> (allowed = true -> max < zlen dnorm /\ forall s, 0 <= s <= max -> -1 <= zat dnorm s < 2 ^ dlog) ->
  repeat_ok m prev ->
  wp (ZSTD_selectEncodingType m count max mostFrequent total FSELog prev dnorm dlog allowed strategy norm wksp)
    (fun '(m', type) => match type with
       | set_basic => allowed = true /\ m' = FSE_repeat_none
       | set_rle => mostFrequent = total /\ m' = FSE_repeat_none
       | set_compressed => mostFrequent <> total /\ m' = FSE_repeat_check
       | set_repeat => mostFrequent <> total /\ m' = m /\ m <> FSE_repeat_none /\
           (m = FSE_repeat_valid \/ exists n, ZSTD_fseBitCost prev count max = Ok n)
       end) no_errors.
Proof.
  intros Hcounts HL Hlog Hn Hw Hb Hdl Hd Hm. unfold ZSTD_selectEncodingType. cbv zeta.
  wp_step; [wp_step; wp_step; bools; done|]. specialize (Hcounts ltac:(lia)). wp_step.
  - wp_step; [wp_step; bools; case_bool_decide; [|done]; split_and!; [done|done|congruence|by left]|].
    wp_step; wp_step; done.
  - wp_step. apply (wp_mono _ (fun b => (allowed = true /\ 0 <= b < 2 ^ 56) \/ (allowed = false /\ b = 2 ^ 64 - 1)) _ no_errors).
    { wp_step; [|wp_step; by right]. destruct (Hd ltac:(done)) as [Hd1 Hd2].
      eapply wp_mono; [apply wp_as_size_t, (crossEntropyCost_ok dnorm dlog count max total Hcounts Hdl Hd1 Hd2)| |done].
      intros b [[_ Hbr]|(e & _ & [] & _)]. by left. }
    2: done.
    intros bc Hbc. wp_step.
    apply (wp_mono _ (fun r => (m <> FSE_repeat_none /\ 0 <= r < 2 ^ 56 /\ exists n, ZSTD_fseBitCost prev count max = Ok n) \/ r = 2 ^ 64 - 1) _ no_errors).
    { wp_step; [|wp_step; by right]. case_bool_decide; [done|]. destruct (Hm ltac:(done)) as (nm & sv & tl & Hok & Htl & Hct).
      eapply wp_mono; [apply wp_as_size_t, (fseBitCost_ok nm sv tl prev Hok Htl Hct count max total Hcounts)| |done].
      intros r [[E [Hr _]]|(e & _ & -> & ->)]; [left; split; [done|]; split; [done|by exists r]|by right]. }
    2: done.
    intros rc Hrc. wp_step.
    eapply wp_mono; [apply wp_as_size_t, (NCountCost_ok count max total FSELog norm wksp Hcounts HL Hlog Hn Hw Hb)| |done].
    intros nc [[_ Hnc]|(e & _ & [] & _)]. wp_step. eapply wp_mono; [apply (entropyCost_ok count max total Hcounts)| |done].
    intros ec Hec. cbv beta in Hec, Hnc. cbv beta zeta. rewrite (Z.shiftl_mul_pow2 nc) by lia. rewrite u64_small by lia.
    wp_step; [wp_step; split; [|done]; destruct Hbc as [[? _]|[_ ->]]; [done|bools; lia]|].
    wp_step; wp_step; [|split; [lia|done]]. destruct Hrc as [(Hne & _ & Hex)| -> ]; [|bools; lia]. split; [lia|]. split; [done|]. split; [done|by right].
Qed.
