(* ===== verification/SeqBuildC.v ===== *)
(** The encoding tables of a block (compress/zstd_compress_sequences.c):
    [ZSTD_buildCTable] writes the description of a table, from which the decoder
    builds the table that goes with it. *)

From S2P Require Import Prelude Errors Outcome Bits Mem FseTable FseSpread FseSymbols FseBuild FseBuildC FseStream FseNCount HufStats Hist FseNormalize FseWriteNCount FseNCountRoundtrip HufWeights SeqTables SeqCodec SeqSelect.

(** ** Definitions *)

(** What the space of a table and the workspace hold before it is built; the
    histogram is in [tw_count], the workspace of the histogram and of the builder
    overlap. *)
Record table_wksp := mkTW {
  tw_stateTable : list Z;
  tw_symbolTT : list FSE_symbolCompressionTransform;
  tw_count : list Z;
  tw_hist : HIST_wksp;
  tw_norm : list Z;
  tw_cumul : list Z;
  tw_tableSymbol : list Z;
  tw_spread : list Z;
  tw_size : Z;
  tw_costNorm : list Z;
  tw_costBuf : list Z;
}.

(** [FSE_buildCTable_wksp] on the parts of the memory that it uses. *)
Definition build_CTable (w : table_wksp) (norm : list Z) (maxSymbolValue tableLog wkspSize : Z) : result FSE_CTable :=
  let tableSize := 2 ^ tableLog in
  FSE_buildCTable_wksp (zsub (tw_stateTable w) 0 tableSize) (zsub (tw_symbolTT w) 0 (maxSymbolValue + 1)) norm maxSymbolValue tableLog
    (zsub (tw_cumul w) 0 (maxSymbolValue + 2)) (zsub (tw_tableSymbol w) 0 tableSize) (zsub (tw_spread w) 0 (tableSize + 8)) wkspSize.

(** The destination, the size of the description and [nextCTable]. *)
Definition ZSTD_buildCTable (dst : list Z) (FSELog : Z) (type : SymbolEncodingType_e) (count : list Z) (max : Z)
    (codeTable : list Z) (nbSeq : Z) (defaultNorm : list Z) (defaultNormLog defaultMax : Z) (prevCTable : FSE_CTable)
    (w : table_wksp) : result (list Z * Z * FSE_CTable) :=
  match type with
  | set_rle =>
      let* nextCTable := FSE_buildCTable_rle (tw_stateTable w) (tw_symbolTT w) (u8 max) in
      ERROR_IF zlen dst =? 0 THEN dstSize_tooSmall ;;
      let* c := rd codeTable 0 in
      let* dst := wr dst 0 c in
      Ok (dst, 1, nextCTable)
  | set_repeat => Ok (dst, 0, prevCTable)
  | set_basic =>
      let* nextCTable := build_CTable w defaultNorm defaultMax defaultNormLog (tw_size w) in
      Ok (dst, 0, nextCTable)
  | set_compressed =>
      let nbSeq_1 := nbSeq in
      let* tableLog := FSE_optimalTableLog FSELog nbSeq max in
      let* last := rd codeTable (nbSeq - 1) in
      let* n := rd count last in
      let* '(count, nbSeq_1) :=
        (if n >? 1 then let* count := wr count last (u32 (n - 1)) in Ok (count, u64 (nbSeq_1 - 1)) else Ok (count, nbSeq_1)) in
      let* '(norm, _) := FSE_normalizeCount (tw_norm w) tableLog count nbSeq_1 max (ZSTD_useLowProbCount nbSeq_1) in
      let* '(dst, NCountSize) := FSE_writeNCount dst norm max tableLog in
      let* nextCTable := build_CTable w norm max tableLog (FSE_BUILD_CTABLE_WORKSPACE_SIZE MaxSeq MaxFSELog) in
      Ok (dst, NCountSize, nextCTable)
  end.

(** A workspace for a table of at most [2 ^ maxLog] states and codes up to [max]. *)
Definition HUF_WORKSPACE_SIZE : Z := Z.shiftl 8 10 + 512.
Record table_wksp_ok (max maxLog : Z) (w : table_wksp) : Prop := {
  two_state : 2 ^ maxLog <= zlen (tw_stateTable w);
  two_symbolTT : max + 1 <= zlen (tw_symbolTT w);
  two_count : zlen (tw_count w) = MaxSeq + 1;
  two_hist : hist_wksp_ok (tw_hist w) /\ (hw_addr (tw_hist w) .& 3) = 0 /\ HIST_WKSP_SIZE <= hw_size (tw_hist w);
  two_norm : zlen (tw_norm w) = MaxSeq + 1;
  two_cumul : MaxSeq + 2 <= zlen (tw_cumul w);
  two_tableSymbol : 2 ^ MaxFSELog <= zlen (tw_tableSymbol w);
  two_spread : 2 ^ MaxFSELog + 8 <= zlen (tw_spread w);
  two_size : HUF_WORKSPACE_SIZE <= tw_size w;
  two_costNorm : zlen (tw_costNorm w) = MaxSeq + 1;
  two_costBuf : zlen (tw_costBuf w) = FSE_NCOUNTBOUND /\ bytes_ok (tw_costBuf w);
}.

(** What the format fixes for each of the three codes. *)
Record kind_ok (base bits : list Z) (max maxLog : Z) (def : ZSTD_seqTable) (dnorm : list Z) (dlog dmax : Z) : Prop := {
  kd_base : zlen base = max + 1 /\ zlen bits = max + 1;
  kd_max : 31 <= max <= MaxSeq;
  kd_log : 8 <= maxLog <= 9;
  kd_dmax : 0 <= dmax <= max;
  kd_dlog : 5 <= dlog <= 6;
  kd_dnorm : norm_ok dnorm (dmax + 1) dlog;
  kd_dcounts : forall s, 0 <= s <= dmax -> -1 <= zat dnorm s < 2 ^ dlog /\ zat dnorm s <> 0;
  kd_def : st_cells def = st_cells (seq_table_of dnorm (dmax + 1) dlog base bits) /\ st_tableLog def = dlog;
}.

(** A table that may be used again, and the one of the decoder. [usable] holds the
    codes that can occur. *)
Definition linked (base bits : list Z) (maxLog : Z) (usable : Z -> Prop) (m : FSE_repeat) (t : ZSTD_seqTable) (ct : FSE_CTable) : Prop :=
  m <> FSE_repeat_none -> exists norm maxSV1 tl, norm_ok norm maxSV1 tl /\ tl <= maxLog /\ ctable_ok norm maxSV1 tl ct /\
    st_cells t = st_cells (seq_table_of norm maxSV1 tl base bits) /\ st_tableLog t = tl /\
    (m = FSE_repeat_valid -> forall s, usable s -> fse_can norm maxSV1 s).

(** ** Lemmas *)

Lemma linked_repeat_ok base bits maxLog usable m t ct : maxLog <= 9 -> linked base bits maxLog usable m t ct -> repeat_ok m ct.
Proof. intros Hl H Hm. destruct (H Hm) as (norm & sv & tl & ? & ? & ? & _). exists norm, sv, tl. split_and!; done || lia. Qed.

Lemma countFast_ok le count0 top src w :
  bytes_ok src -> zlen src < 2 ^ 32 -> 0 <= top < 256 -> top < zlen count0 -> last_of src <= top ->
  hist_wksp_ok w -> (hw_addr w .& 3) = 0 -> HIST_WKSP_SIZE <= hw_size w ->
  HIST_countFast_wksp le count0 top src w = Ok (hist_spec count0 top src).
Proof.
  intros Hb Hlen Ht Hc Hl Hw Ha Hs. unfold hist_wksp_ok in Hw. change HIST_WKSP_SIZE with 4096 in Hs.
  unfold HIST_countFast_wksp, RETURN_ERROR_IF. destruct (Z.ltb_spec (zlen src) 1500); [by apply count_simple_ok|].
  rewrite Ha. change HIST_WKSP_SIZE with 4096. rewrite (proj2 (Z.ltb_ge (hw_size w) 4096)) by lia. cbn [Z.eqb negb].
  by rewrite (parallel_ok le src (zlen (hw_data w)) Hb Hlen) by lia.
Qed.

Lemma bytes_ok_zupd l i v : bytes_ok l -> is_byte v -> bytes_ok (zupd l i v).
Proof. intros Hl Hv. by apply Forall_insert. Qed.

Lemma occ_full s l : occ s l = zlen l -> Forall (fun x => x = s) l.
Proof.
  induction l as [|x l IH]; [constructor|]. rewrite occ_cons. pose proof (occ_le_len s l). unfold zlen in *. cbn [length].
  destruct (Z.eqb_spec x s); cbn [b2z]; [|lia]. intros E. constructor; [done|]. apply IH. lia.
Qed.

(** A source of one symbol. *)
Lemma largest_full src : bytes_ok src -> src <> [] -> largest_of src = zlen src -> Forall (fun x => x = last_of src) src.
Proof.
  intros Hb Hne E. assert (exists s, occ s src = zlen src) as [s Hs].
  { destruct (fold_max_in (map (fun s => occ s src) (seqZ 0 256))) as [E0|Hin]; fold (largest_of src) in *.
    - destruct src; [done|]. rewrite E in E0. discriminate E0.
    - rewrite map_fmap in Hin. apply list_elem_of_fmap in Hin as (s & Es & _). exists s. congruence. }
  apply occ_full in Hs. destruct (last_of_range src Hb Hne) as [_ Ho]. apply occ_pos in Ho.
  pose proof (proj1 (Forall_forall _ _) Hs _ Ho) as El. cbv beta in El. by rewrite El.
Qed.

(** The histogram of the codes of a block. *)
Lemma block_counts count0 top src :
  bytes_ok src -> Forall (fun s => s <= top) src -> 0 <= top <= MaxSeq -> zlen count0 = MaxSeq + 1 -> 1 <= zlen src < 2 ^ 17 ->
  largest_of src <> zlen src -> block_counts_ok (hist_of count0 top src) (last_of src) (zlen src).
Proof.
  intros Hb HF Ht Hc Hl Hne. change MaxSeq with 52 in *. assert (src <> []) as Hn by (intros ->; done).
  destruct (largest_bounds src Hb Hn Hne) as (Hlt & Hlg & Hlast). destruct (last_of_range src Hb Hn) as [Hr Ho].
  assert (last_of src <= top) as Hle by (apply (proj1 (Forall_forall _ _) HF), occ_pos; done).
  split; [apply hist_of_histogram; done || lia|]. split; [change MaxSeq with 52; lia|]. split; [lia|].
  intros s Hs. rewrite zat_hist_of by lia. rewrite (proj2 (Z.leb_le s top)) by lia. pose proof (occ_nonneg s src). split; [done|]. apply Hlt. lia.
Qed.

(** One code less. *)
Lemma block_counts_dec count max total c :
  block_counts_ok count max total -> 0 <= c <= max -> 1 < zat count c -> block_counts_ok (zupd count c (zat count c - 1)) max (total - 1).
Proof.
  intros ((Hl & Hpos & Hsum) & Hm & Ht & Hc) Hcr Hk.
  assert (zsumf (zat (zupd count c (zat count c - 1))) (max + 1) = total - 1) as Hs'.
  { rewrite (zsumf_zupd (fun v _ => v)) by lia. change (zsumf (fun i => zat count i) (max + 1)) with (zsumf (zat count) (max + 1)). lia. }
  assert (forall s, 0 <= s <= max -> s <> c -> zat count s + zat count c <= total) as Htwo.
  { intros s Hs Hne. assert (zsumf (zat (zupd count c 0)) (max + 1) = total - zat count c) as Hz.
    { rewrite (zsumf_zupd (fun v _ => v)) by lia. change (zsumf (fun i => zat count i) (max + 1)) with (zsumf (zat count) (max + 1)). lia. }
    pose proof (zsumf_ge_one (zat (zupd count c 0)) (max + 1) s ltac:(lia)) as Hg. rewrite zat_zupd_ne in Hg by lia.
    cut (zat count s <= total - zat count c); [lia|]. rewrite <- Hz. apply Hg. intros i Hi. rewrite zat_zupd by lia. case_if; [lia|]. apply Hpos. lia. }
  split; [split; [by rewrite zlen_zupd|]; split; [|done]|split; [done|split]].
  - intros i Hi. rewrite zat_zupd by lia. case_if; [lia|]. by apply Hpos.
  - pose proof (Hc c Hcr). lia.
  - intros s Hs. pose proof (Hc s Hs). rewrite zat_zupd by lia. case_if; [subst; lia|]. specialize (Htwo s Hs ltac:(done)). lia.
Qed.

(** The last code is the first one that the encoder meets: it takes no room on the
    stream and is not counted, unless it is the only one of its kind. *)
Lemma counts_last codes count max :
  block_counts_ok count max (zlen codes) -> Forall (fun c => 0 <= c <= max /\ zat count c <> 0) codes -> 1 <= zlen codes ->
  exists count' total,
    (forall A (k : list Z * Z -> result A), (let* last := rd codes (zlen codes - 1) in
      let* n := rd count last in
      let* p := (if n >? 1 then let* count := wr count last (u32 (n - 1)) in Ok (count, u64 (zlen codes - 1)) else Ok (count, zlen codes)) in k p) = k (count', total)) /\
    block_counts_ok count' max total /\ (forall s, 0 <= s <= max -> zat count' s = 0 -> zat count s = 0) /\ total <= zlen codes.
Proof.
  intros Hcounts Hin Hlen. pose proof Hcounts as ((Hl & _) & _ & Ht & Hc). set (c := zat codes (zlen codes - 1)).
  destruct (zat_Forall _ _ (zlen codes - 1) Hin ltac:(lia)) as [Hcr Hc0]. fold c in Hcr, Hc0. pose proof (Hc c Hcr).
  destruct (Z.gtb_spec (zat count c) 1) as [Hg|Hg].
  - exists (zupd count c (zat count c - 1)), (zlen codes - 1). split; [|split; [by apply block_counts_dec|split; [|lia]]].
    + intros A k. rewrite rd_ok by lia. cbn [bind]. fold c. rewrite rd_ok by lia. cbn [bind]. rewrite Z.gtb_ltb, (proj2 (Z.ltb_lt _ _)) by lia.
      rewrite wr_ok by lia. cbn [bind]. by rewrite u32_small, u64_small by lia.
    + intros s Hs. rewrite zat_zupd by lia. case_if; [lia|done].
  - exists count, (zlen codes). split; [|split; [done|split; [done|lia]]].
    intros A k. rewrite rd_ok by lia. cbn [bind]. fold c. rewrite rd_ok by lia. cbn [bind]. rewrite Z.gtb_ltb, (proj2 (Z.ltb_ge _ _)) by lia. done.
Qed.

Section kind.
Context (base bits : list Z) (max maxLog : Z) (def : ZSTD_seqTable) (dnorm : list Z) (dlog dmax : Z).
Hypothesis Hk : kind_ok base bits max maxLog def dnorm dlog dmax.

Lemma build_CTable_ok w norm m tl size :
  table_wksp_ok max maxLog w -> norm_ok norm (m + 1) tl -> tl <= maxLog -> 0 <= m <= max ->
  FSE_BUILD_CTABLE_WORKSPACE_SIZE MaxSeq MaxFSELog <= size ->
  wp (build_CTable w norm m tl size) (ctable_ok norm (m + 1) tl) no_errors.
Proof.
  intros Hw Hok Htl Hm Hs. pose proof (kd_log _ _ _ _ _ _ _ _ Hk). pose proof (kd_max _ _ _ _ _ _ _ _ Hk) as Hmx. change MaxSeq with 52 in *.
  pose proof (nok_tl _ _ _ Hok). assert (2 ^ 5 <= 2 ^ tl <= 2 ^ maxLog) by (split; apply pow2_le; lia). assert (2 ^ maxLog <= 2 ^ 9) by (apply pow2_le; lia).
  destruct Hw as [Hw1 Hw2 _ _ _ Hw3 Hw4 Hw5 _ _ _]. change MaxSeq with 52 in *. change MaxFSELog with 9 in *.
  unfold build_CTable. replace m with (m + 1 - 1) at 2 by lia. apply buildCTable_ok; rewrite ?zlen_zsub; try lia; [done|].
  etransitivity; [|exact Hs]. unfold FSE_BUILD_CTABLE_WORKSPACE_SIZE. assert ((m + 1 - 1 + 2 + 2 ^ tl) / 2 <= (52 + 2 + 2 ^ 9) / 2) by (apply Z.div_le_mono; lia). lia.
Qed.

(** The decoder, after the description, has the table [t]. *)
Definition described (ptr : ZSTD_seqTable) (flag : Z) (type : SymbolEncodingType_e) (dst : list Z) (n : Z) (t : ZSTD_seqTable) : Prop :=
  forall rest space norm0 wksp, bytes_ok rest -> 2 ^ maxLog <= zlen space -> zlen norm0 = MaxSeq + 1 -> seq_wksp_ok wksp ->
    ZSTD_buildSeqTable space ptr type max maxLog (zsub dst 0 n ++ rest) base bits def flag norm0 wksp = Ok (n, t).

(** A table that goes with an encoding table and is good for [codes]. *)
Definition table_for (codes : list Z) (t : ZSTD_seqTable) (ct : FSE_CTable) : Prop :=
  st_tableLog t <= maxLog /\ exists can (_ : SeqCodec base bits t ct can), Forall can codes.

Lemma fse_table_for codes norm n tl t ct :
  norm_ok norm n tl -> tl <= maxLog -> ctable_ok norm n tl ct -> st_cells t = st_cells (seq_table_of norm n tl base bits) -> st_tableLog t = tl ->
  Forall (fse_can norm n) codes -> table_for codes t ct.
Proof.
  intros Hok Htl Hct Hc Hl HF. pose proof (kd_log _ _ _ _ _ _ _ _ Hk). split; [lia|].
  exists (fse_can norm n). by exists (fse_codec norm n tl base bits t ct Hok ltac:(lia) Hct Hc Hl).
Qed.

(** *** The description of new counts *)

Lemma describes_counts norm m tl dst :
  norm_ok norm (m + 1) tl -> tl <= maxLog -> 1 <= m <= max -> zat norm m <> 0 -> bytes_ok dst -> 84 <= zlen dst ->
  wp (FSE_writeNCount dst norm m tl)
    (fun '(dst', n) => zlen dst' = zlen dst /\ bytes_ok dst' /\ 0 <= n <= 81 /\
       forall ptr flag, described ptr flag set_compressed dst' n (seq_table_of norm (m + 1) tl base bits)) no_errors.
Proof.
  intros Hok Htl Hm Hlast Hb Hd. pose proof (kd_log _ _ _ _ _ _ _ _ Hk). pose proof (kd_max _ _ _ _ _ _ _ _ Hk) as Hmx. change MaxSeq with 52 in *.
  pose proof (nok_tl _ _ _ Hok). pose proof (kd_base _ _ _ _ _ _ _ _ Hk).
  assert ((m + 1) * (tl + 3) <= 53 * 12) as Hprod by (apply Z.mul_le_mono_nonneg; lia).
  assert (((m + 1) * (tl + 3) + 4) / 8 <= 80) by (apply (Z.div_le_mono _ (53 * 12 + 4) 8); lia).
  eapply wp_mono; [apply ncount_reads_back; [exact Hok|lia|lia|done|lia]| |].
  2: { intros e [_ He]. assert (FSE_NCountWriteBound m tl <= 84); [|lia]. unfold FSE_NCountWriteBound.
       assert (0 <= (m + 1) * tl <= 53 * 9) as Hx by (split; [lia|apply Z.mul_le_mono_nonneg; lia]). rewrite (u32_small (m + 1)) by lia. set (x := (m + 1) * tl) in *.
       rewrite (u32_small x), (u32_small (x + 4 + 2)), u32_small by zdm. rewrite (proj2 (Z.eqb_neq m 0)) by lia. cbn [negb]. zdm. }
  intros [h sz] (Hlh & Hbh & Hsz & Hread). split; [done|]. split; [done|]. split; [lia|].
  intros ptr flag rest space norm0 wksp Hbr Hsp Hn0 [Hw1 Hw2]. change MaxSeq with 52 in *. change MaxFSELog with 9 in *. cbn [ZSTD_buildSeqTable].
  destruct (Hread rest norm0 max Hbr ltac:(lia) ltac:(lia)) as (r & -> & Ertl & Ersz & Erm & Erl & Erz & Er0).
  assert (nco_maxSV r = m) as Em.
  { destruct (Z.eq_dec (nco_maxSV r) m); [done|]. exfalso. apply Hlast, Er0. lia. }
  rewrite Ertl, Em, Ersz. unfold RETURN_ERROR_IF. rewrite Z.gtb_ltb, (proj2 (Z.ltb_ge maxLog tl)) by lia.
  assert (forall i, 0 <= i < m + 1 -> zat norm i = zat (nco_norm r) i) as Hz.
  { intros i Hi. rewrite Erz by lia. by rewrite (proj2 (Z.leb_le i m)) by lia. }
  assert (m + 1 <= zlen (nco_norm r)) as Hln by lia.
  pose proof (norm_ok_ext norm (nco_norm r) (m + 1) tl Hok Hln Hz) as Hok'.
  assert (2 ^ tl <= 2 ^ maxLog) by (apply pow2_le; lia). assert (2 ^ maxLog <= 2 ^ 9) by (apply pow2_le; lia).
  replace m with (m + 1 - 1) at 1 by lia. rewrite buildFSETable_ok; [|done|lia|lia|lia|lia|lia]. cbn [bind].
  f_equal. f_equal. unfold seq_table_of. rewrite <- (dtable_of_ext norm (nco_norm r) (m + 1) tl Hok Hln Hz). f_equal.
  pose proof (dtable_of_ext norm (nco_norm r) (m + 1) tl Hok Hln Hz) as E. unfold dtable_of in E. injection E as E _.
  by destruct (no_large norm (m + 1) tl), (no_large (nco_norm r) (m + 1) tl).
Qed.

(** *** Every kind of table *)

Lemma counted_codes codes count0 :
  bytes_ok codes -> Forall (fun c => c <= max) codes -> codes <> [] -> zlen count0 = MaxSeq + 1 ->
  Forall (fun c => 0 <= c <= last_of codes /\ zat (hist_of count0 max codes) c <> 0) codes /\ 0 <= last_of codes <= max /\
  zat (hist_of count0 max codes) (last_of codes) <> 0.
Proof.
  intros Hb HF Hne Hl. pose proof (kd_max _ _ _ _ _ _ _ _ Hk) as Hmx. change MaxSeq with 52 in *. destruct (last_of_range codes Hb Hne) as [Hr Ho].
  assert (last_of codes <= max) as Hle by (apply (proj1 (Forall_forall _ _) HF), occ_pos; done).
  assert (forall c, c ∈ codes -> 0 <= c <= last_of codes /\ zat (hist_of count0 max codes) c <> 0) as Hin.
  { intros c Hc. pose proof (proj1 (Forall_forall _ _) Hb c Hc) as [H0 _]. pose proof (fold_max_ge codes c Hc) as H1. fold (last_of codes) in H1. split; [done|].
    rewrite zat_hist_of by lia. rewrite (proj2 (Z.leb_le c max)) by lia. pose proof (proj2 (occ_pos c codes) Hc). lia. }
  split; [by apply Forall_forall|]. split; [lia|]. apply Hin, occ_pos, Ho.
Qed.

Lemma default_for codes : Forall (fun c => 0 <= c <= dmax) codes -> forall w,
  table_wksp_ok max maxLog w ->
  wp (build_CTable w dnorm dmax dlog (tw_size w)) (fun ct => table_for codes def ct) no_errors.
Proof.
  intros HF w Hw. destruct (kd_def _ _ _ _ _ _ _ _ Hk) as [Hc Hl]. pose proof (kd_log _ _ _ _ _ _ _ _ Hk). pose proof (kd_dlog _ _ _ _ _ _ _ _ Hk).
  pose proof (kd_dmax _ _ _ _ _ _ _ _ Hk). pose proof (two_size _ _ _ Hw).
  eapply wp_mono; [apply (build_CTable_ok w dnorm dmax dlog _ Hw (kd_dnorm _ _ _ _ _ _ _ _ Hk)); [lia|lia|]| |done].
  { etransitivity; [|eassumption]. by apply Z.leb_le. }
  intros ct Hct. eapply fse_table_for; [apply (kd_dnorm _ _ _ _ _ _ _ _ Hk)|lia|exact Hct|exact Hc|exact Hl|].
  eapply Forall_impl; [exact HF|]. intros c Hcr. cbv beta in Hcr. split; [lia|]. by apply (kd_dcounts _ _ _ _ _ _ _ _ Hk).
Qed.

(** What the choice of a kind of table guarantees. *)
Definition choice_ok (codes count : list Z) (m m' : FSE_repeat) (type : SymbolEncodingType_e) (prev : FSE_CTable) : Prop :=
  match type with
  | set_basic => last_of codes <= dmax /\ m' = FSE_repeat_none
  | set_rle => largest_of codes = zlen codes /\ m' = FSE_repeat_none
  | set_compressed => largest_of codes <> zlen codes /\ m' = FSE_repeat_check
  | set_repeat => largest_of codes <> zlen codes /\ m' = m /\ m <> FSE_repeat_none /\
      (m = FSE_repeat_valid \/ exists n, ZSTD_fseBitCost prev count (last_of codes) = Ok n)
  end.

Lemma buildCTable_correct dst type m m' codes prev w ptr flag usable :
  table_wksp_ok max maxLog w -> bytes_ok dst -> 84 <= zlen dst ->
  bytes_ok codes -> Forall (fun c => c <= max /\ usable c) codes -> 1 <= zlen codes < 2 ^ 17 ->
  linked base bits maxLog usable m ptr prev -> (m <> FSE_repeat_none -> flag <> 0) ->
  let count := hist_of (tw_count w) max codes in
  choice_ok codes count m m' type prev ->
  wp (ZSTD_buildCTable dst maxLog type count (last_of codes) codes (zlen codes) dnorm dlog dmax prev w)
    (fun '(dst', n, ct) => zlen dst' = zlen dst /\ bytes_ok dst' /\ 0 <= n <= 81 /\
       exists t, table_for codes t ct /\ linked base bits maxLog usable m' t ct /\ described ptr flag type dst' n t) no_errors.
Proof.
  intros Hw Hb Hd Hbc HFu Hlen Hlink Hflag count Hch. pose proof (kd_log _ _ _ _ _ _ _ _ Hk). pose proof (kd_max _ _ _ _ _ _ _ _ Hk) as Hmx.
  pose proof (kd_base _ _ _ _ _ _ _ _ Hk). change MaxSeq with 52 in Hmx. assert (codes <> []) as Hne by (intros ->; change (zlen []) with 0 in Hlen; lia).
  assert (Forall (fun c => c <= max) codes) as HF by (eapply Forall_impl; [exact HFu|]; cbv beta; tauto).
  assert (Forall usable codes) as Hus by (eapply Forall_impl; [exact HFu|]; cbv beta; tauto).
  destruct (counted_codes codes (tw_count w) Hbc HF Hne (two_count _ _ _ Hw)) as (Hin & Hlast & Hlast0). fold count in Hin, Hlast0.
  destruct type; cbn [ZSTD_buildCTable choice_ok] in *.
  - destruct Hch as [Hle ->]. wp_step. eapply wp_mono; [apply (default_for codes)| |done].
    { eapply Forall_impl; [exact Hin|]. intros c Hc. cbv beta in Hc. lia. } { exact Hw. }
    intros ct Hct. wp_step. split; [done|]. split; [done|]. split; [lia|]. exists def. split; [done|]. split; [by intros []|].
    intros rest space norm0 wksp _ _ _ _. done.
  - destruct Hch as [Hfull ->]. pose proof (largest_full codes Hbc Hne Hfull) as Hall. set (s := last_of codes) in *.
    rewrite u8_small by (change (2 ^ 8) with 256; lia). assert (2 ^ 8 <= 2 ^ maxLog) by (apply pow2_le; lia).
    pose proof (two_state _ _ _ Hw). pose proof (two_symbolTT _ _ _ Hw).
    assert (exists ct, FSE_buildCTable_rle (tw_stateTable w) (tw_symbolTT w) s = Ok ct) as [ct Ect].
    { unfold FSE_buildCTable_rle. rewrite wr_ok by lia. cbn [bind]. rewrite wr_ok by (rewrite ?zlen_zupd; lia). cbn [bind]. rewrite wr_ok by lia. by eexists. }
    rewrite Ect. cbn [bind]. wp_step; [lia|]. wp_step. wp_step; [lia|].
    assert (zat codes 0 = s) as -> by (apply (zat_Forall _ _ 0 Hall); lia).
    wp_step. wp_step; [lia|]. wp_step. rewrite zlen_zupd. split; [done|]. split; [apply bytes_ok_zupd; [done|unfold is_byte; lia]|]. split; [lia|].
    exists (ZSTD_buildSeqTable_rle (zat base s) (zat bits s)). split; [|split; [by intros []|]].
    + split; [cbn; lia|]. exists (fun x => x = s). by exists (rle_codec base bits (tw_stateTable w) (tw_symbolTT w) s ct ltac:(lia) Ect).
    + intros rest space norm0 wksp Hr _ _ _. assert (zsub (zupd dst 0 s) 0 1 = [s]) as ->.
      { destruct dst as [|x l]; [change (zlen []) with 0 in *; lia|]. done. }
      cbn [app ZSTD_buildSeqTable]. pose proof (zlen_nonneg rest). assert (zlen (s :: rest) = zlen rest + 1) as El by (unfold zlen; cbn [length]; lia).
      unfold RETURN_ERROR_IF. rewrite El, (proj2 (Z.eqb_neq (zlen rest + 1) 0)) by lia. rewrite rd_ok by lia. cbn [bind]. rewrite zat_cons_0.
      rewrite Z.gtb_ltb, (proj2 (Z.ltb_ge max s)) by lia. rewrite !rd_ok by lia. done.
  - assert (largest_of codes <> zlen codes) as Hnf by apply Hch.
    pose proof (block_counts (tw_count w) max codes Hbc HF ltac:(change MaxSeq with 52; lia) (two_count _ _ _ Hw) Hlen Hnf) as Hcounts. fold count in Hcounts.
    destruct Hch as [_ ->]. destruct (counts_last codes count (last_of codes) Hcounts Hin ltac:(lia)) as (count' & total & Hdec & Hcounts' & Hsame & Htot).
    destruct Hcounts as (_ & Hm & Ht0 & _). change MaxSeq with 52 in Hm. assert (Z.log2 (last_of codes) <= 5) by (apply (Z.log2_le_mono _ 52); lia).
    destruct (optimalTableLog_le maxLog (zlen codes) (last_of codes)) as (tl & -> & Htl & Hmin); [lia..|]. cbn [bind]. rewrite Hdec.
    pose proof Hcounts' as (Hh & _ & Ht & Hc'). pose proof (two_norm _ _ _ Hw) as Hn. change MaxSeq with 52 in Hn.
    assert (Z.log2 total <= Z.log2 (zlen codes)) by (apply Z.log2_le_mono; lia).
    wp_step. eapply wp_mono; [apply (normalize_correct (tw_norm w) tl count' total (last_of codes) _ Hh); lia| |done].
    intros [norm r] (Hln & [[(s & Hs & E) _]|(_ & _ & Hok & Hnz)]); [specialize (Hc' s Hs); lia|]. cbn [fst snd] in *.
    assert (forall s, 0 <= s <= last_of codes -> zat count s <> 0 -> zat norm s <> 0) as Hnz'.
    { intros s Hs Hs1 Hs2. apply Hs1, Hsame; [done|]. by apply (Hnz s Hs). }
    wp_step. eapply wp_mono; [apply (describes_counts norm (last_of codes) tl dst Hok); try done; try lia; apply Hnz'; [lia|done]| |done].
    intros [dst' n] (Hl' & Hb' & Hn' & Hdesc). wp_step.
    eapply wp_mono; [apply (build_CTable_ok w norm (last_of codes) tl _ Hw Hok); lia| |done].
    intros ct Hct. wp_step. split; [done|]. split; [done|]. split; [done|]. exists (seq_table_of norm (last_of codes + 1) tl base bits).
    split; [|split; [|apply Hdesc]].
    + eapply fse_table_for; [exact Hok|lia|exact Hct|done|done|]. eapply Forall_impl; [exact Hin|]. intros c [Hcr Hc0]. cbv beta. split; [lia|by apply Hnz'].
    + intros _. exists norm, (last_of codes + 1), tl. split_and!; done || lia.
  - destruct Hch as (Hnf & -> & Hm & Hcan). destruct (Hlink Hm) as (norm & sv & tl & Hok & Htl & Hct & Hc & Hl & Hv).
    pose proof (block_counts (tw_count w) max codes Hbc HF ltac:(change MaxSeq with 52; lia) (two_count _ _ _ Hw) Hlen Hnf) as Hcounts. fold count in Hcounts.
    wp_step. split; [done|]. split; [done|]. split; [lia|]. exists ptr. split; [|split; [exact Hlink|]].
    + eapply fse_table_for; [exact Hok|done|exact Hct|exact Hc|exact Hl|]. destruct Hcan as [E|[n En]].
      * eapply Forall_impl; [exact Hus|]. by apply Hv.
      * pose proof (fseBitCost_ok norm sv tl prev Hok ltac:(lia) Hct count (last_of codes) (zlen codes) Hcounts) as Hcost. rewrite En in Hcost. destruct Hcost as [_ Hcost].
        eapply Forall_impl; [exact Hin|]. intros c [Hcr Hc0]. by apply Hcost.
    + intros rest space norm0 wksp _ _ _ _. cbn [ZSTD_buildSeqTable]. unfold RETURN_ERROR_IF. by rewrite (proj2 (Z.eqb_neq flag 0)) by auto.
Qed.
End kind.
