(* ===== verification/SeqSection.v ===== *)
(** The sequences section of a block (compress/zstd_compress.c): the choice of the
    three tables, the header, the tables' descriptions and the stream of bits; and
    its decoding, which gives back the sequences of the store. *)

From S2P Require Import Prelude Errors Outcome Bits Mem FseTable FseSymbols FseBuildC FseStream FseCodec HufStats Hist Wire LzCopy ExecSequence SeqTables SeqDecode SeqCodec SeqEncode SeqRoundtrip SeqSelect SeqBuildC.

(** ** Definitions *)

Record ZSTD_fseCTables_t := mkFseCTables {
  offcodeCTable : FSE_CTable;
  matchlengthCTable : FSE_CTable;
  litlengthCTable : FSE_CTable;
  offcode_repeatMode : FSE_repeat;
  matchlength_repeatMode : FSE_repeat;
  litlength_repeatMode : FSE_repeat;
}.

Record ZSTD_symbolEncodingTypeStats_t := mkStats {
  LLtype : SymbolEncodingType_e;
  Offtype : SymbolEncodingType_e;
  MLtype : SymbolEncodingType_e;
  stats_size : Z;
  lastCountSize : Z;
  longOffsets : bool;
}.

(** The numbers of [SymbolEncodingType_e]. *)
Definition SymbolEncodingType_to (t : SymbolEncodingType_e) : Z :=
  match t with set_basic => 0 | set_rle => 1 | set_compressed => 2 | set_repeat => 3 end.

(** The table of one of the three codes: the histogram of [codes], the choice, and
    the table and its description at the start of [dst]. [allowed] is the policy on
    the default table, from the highest code. The destination, the size of the
    description, the kind of table, the repeat mode and the table. *)
Definition table_stats (dst codes : list Z) (topCode FSELog : Z) (prevMode : FSE_repeat) (prevCTable : FSE_CTable)
    (defaultNorm : list Z) (defaultNormLog defaultMax : Z) (allowed : Z -> bool) (strategy : Z) (w : table_wksp)
  : result (list Z * Z * SymbolEncodingType_e * FSE_repeat * FSE_CTable) :=
  let nbSeq := zlen codes in
  let* h := HIST_countFast_wksp true (tw_count w) topCode codes (tw_hist w) in
  let max := h_maxSymbolValue h in
  let mostFrequent := h_largest h in
  let* '(repeatMode, type) := ZSTD_selectEncodingType prevMode (h_count h) max mostFrequent nbSeq FSELog prevCTable
    defaultNorm defaultNormLog (allowed max) strategy (tw_costNorm w) (tw_costBuf w) in
  let* '(dst, countSize, CTable) := ZSTD_buildCTable dst FSELog type (h_count h) max codes nbSeq
    defaultNorm defaultNormLog defaultMax prevCTable w in
  Ok (dst, countSize, type, repeatMode, CTable).

(** The store with its codes, the destination, the statistics and [nextEntropy]. *)
Definition ZSTD_buildSequencesStatistics (seqStorePtr : SeqStore_t) (nbSeq : Z) (prevEntropy : ZSTD_fseCTables_t)
    (dst : list Z) (strategy : Z) (w1 w2 w3 : table_wksp)
  : result (SeqStore_t * list Z * ZSTD_symbolEncodingTypeStats_t * ZSTD_fseCTables_t) :=
  let oend := zlen dst in
  let lastSize type countSize old := match type with set_compressed => countSize | _ => old end in
  (* convert length/distances into codes *)
  let* '(seqStorePtr, longOffsets) := ZSTD_seqToCodes seqStorePtr in
  (* build CTable for Literal Lengths *)
  let* '(dst, countSize, LLtype, llMode, llTable) := table_stats dst (zsub (llCode seqStorePtr) 0 nbSeq) MaxLL LLFSELog
    (litlength_repeatMode prevEntropy) (litlengthCTable prevEntropy) LL_defaultNorm LL_DEFAULTNORMLOG MaxLL
    (fun _ => true) strategy w1 in
  let last := lastSize LLtype countSize 0 in
  let op := countSize in
  (* build CTable for Offsets *)
  let* '(out, countSize, Offtype, ofMode, ofTable) := table_stats (zsub dst op (oend - op)) (zsub (ofCode seqStorePtr) 0 nbSeq) MaxOff OffFSELog
    (offcode_repeatMode prevEntropy) (offcodeCTable prevEntropy) OF_defaultNorm OF_DEFAULTNORMLOG DefaultMaxOff
    (fun max => max <=? DefaultMaxOff) strategy w2 in
  let dst := zpatch dst op out in
  let last := lastSize Offtype countSize last in
  let op := op + countSize in
  (* build CTable for MatchLengths *)
  let* '(out, countSize, MLtype, mlMode, mlTable) := table_stats (zsub dst op (oend - op)) (zsub (mlCode seqStorePtr) 0 nbSeq) MaxML MLFSELog
    (matchlength_repeatMode prevEntropy) (matchlengthCTable prevEntropy) ML_defaultNorm ML_DEFAULTNORMLOG MaxML
    (fun _ => true) strategy w3 in
  let dst := zpatch dst op out in
  let last := lastSize MLtype countSize last in
  let op := op + countSize in
  Ok (seqStorePtr, dst, mkStats LLtype Offtype MLtype op last longOffsets,
      mkFseCTables ofTable mlTable llTable ofMode mlMode llMode).

(** The number of sequences; the position after it. *)
Definition put_nbSeq (dst : list Z) (nbSeq : Z) : result (list Z * Z) :=
  if nbSeq <? 128 then
    let* dst := wr dst 0 (u8 nbSeq) in Ok (dst, 1)
  else if nbSeq <? LONGNBSEQ then
    let* dst := wr dst 0 (u8 (Z.shiftr nbSeq 8 + 0x80)) in
    let* dst := wr dst 1 (u8 nbSeq) in Ok (dst, 2)
  else
    let* dst := wr dst 0 0xFF in
    let* dst := writeLE16 dst 1 (u16 (nbSeq - LONGNBSEQ)) in Ok (dst, 3).

(** The part of [ZSTD_entropyCompressSeqStore_internal] after the literals: [dst] is
    what they leave. The destination, the size of the section, 0 when the block
    must not be compressed, and [nextEntropy->fse]. *)
Definition compress_sequences (dst : list Z) (seqStorePtr : SeqStore_t) (prevEntropy : ZSTD_fseCTables_t) (strategy : Z)
    (w1 w2 w3 : table_wksp) : result (list Z * Z * ZSTD_fseCTables_t) :=
  let oend := zlen dst in
  let nbSeq := zlen (sequences seqStorePtr) in
  (* Sequences Header *)
  ERROR_IF oend <? 3 + 1 THEN dstSize_tooSmall ;;
  let* '(dst, op) := put_nbSeq dst nbSeq in
  if nbSeq =? 0 then Ok (dst, op, prevEntropy)
  else
    let seqHead := op in
    let op := op + 1 in
    (* build stats for sequences *)
    let* '(seqStorePtr, out, stats, nextEntropy) :=
      ZSTD_buildSequencesStatistics seqStorePtr nbSeq prevEntropy (zsub dst op (oend - op)) strategy w1 w2 w3 in
    let dst := zpatch dst op out in
    let* dst := wr dst seqHead (u8 (Z.shiftl (SymbolEncodingType_to (LLtype stats)) 6 +
      Z.shiftl (SymbolEncodingType_to (Offtype stats)) 4 + Z.shiftl (SymbolEncodingType_to (MLtype stats)) 2)) in
    let op := op + stats_size stats in
    let* '(out, bitstreamSize) := ZSTD_encodeSequences_body (zsub dst op (oend - op))
      (matchlengthCTable nextEntropy) (mlCode seqStorePtr) (offcodeCTable nextEntropy) (ofCode seqStorePtr)
      (litlengthCTable nextEntropy) (llCode seqStorePtr) (sequences seqStorePtr) (longOffsets stats) in
    let dst := zpatch dst op out in
    let op := op + bitstreamSize in
    if negb (lastCountSize stats =? 0) && (lastCountSize stats + bitstreamSize <? 4) then Ok (dst, 0, nextEntropy)
    else Ok (dst, op, nextEntropy).

(** The tables that the next block may use again, on both sides. [usable] says which
    codes of literals lengths, offsets and match lengths can occur. *)
Record entropy_linked (uLL uOF uML : Z -> Prop) (e : ZSTD_fseCTables_t) (t : seq_tables) : Prop := {
  el_LL : linked LL_base LL_bits LLFSELog uLL (litlength_repeatMode e) (LLTptr t) (litlengthCTable e);
  el_OF : linked OF_base OF_bits OffFSELog uOF (offcode_repeatMode e) (OFTptr t) (offcodeCTable e);
  el_ML : linked ML_base ML_bits MLFSELog uML (matchlength_repeatMode e) (MLTptr t) (matchlengthCTable e);
  el_flag : litlength_repeatMode e <> FSE_repeat_none \/ offcode_repeatMode e <> FSE_repeat_none \/ matchlength_repeatMode e <> FSE_repeat_none ->
    fseEntropy t <> 0;
}.

(** The bytes of the number of sequences. *)
Definition nb_bytes (nbSeq : Z) : list Z :=
  if nbSeq <? 128 then [nbSeq]
  else if nbSeq <? LONGNBSEQ then [Z.shiftr nbSeq 8 + 0x80; u8 nbSeq]
  else 0xFF :: le_bytes 2 (nbSeq - LONGNBSEQ).

(** ** Lemmas *)

Lemma kind_ok_dec base bits max maxLog def dnorm dlog dmax :
  (zlen base =? max + 1) && (zlen bits =? max + 1) && (31 <=? max) && (max <=? 52) && (8 <=? maxLog) && (maxLog <=? 9) &&
  (0 <=? dmax) && (dmax <=? max) && (5 <=? dlog) && (dlog <=? 6) && (st_tableLog def =? dlog) = true ->
  forallb (fun s => (-1 <=? zat dnorm s) && (zat dnorm s <? 2 ^ dlog) && negb (zat dnorm s =? 0)) (seqZ 0 (dmax + 1)) = true ->
  norm_ok dnorm (dmax + 1) dlog -> st_cells def = st_cells (seq_table_of dnorm (dmax + 1) dlog base bits) ->
  kind_ok base bits max maxLog def dnorm dlog dmax.
Proof.
  intros H Hc Hn Hd. bools. split; try done; try (change MaxSeq with 52; lia).
  intros s Hs. rewrite forallb_forall in Hc. specialize (Hc s ltac:(apply list_elem_of_In, elem_of_seqZ; lia)). bools. lia.
Qed.

Lemma LL_kind : kind_ok LL_base LL_bits MaxLL LLFSELog LL_defaultDTable LL_defaultNorm LL_DEFAULTNORMLOG MaxLL.
Proof. apply kind_ok_dec; [vm_compute; reflexivity..|apply default_norms_ok|apply default_cells]. Qed.
Lemma OF_kind : kind_ok OF_base OF_bits MaxOff OffFSELog OF_defaultDTable OF_defaultNorm OF_DEFAULTNORMLOG DefaultMaxOff.
Proof. apply kind_ok_dec; [vm_compute; reflexivity..|apply default_norms_ok|apply default_cells]. Qed.
Lemma ML_kind : kind_ok ML_base ML_bits MaxML MLFSELog ML_defaultDTable ML_defaultNorm ML_DEFAULTNORMLOG MaxML.
Proof. apply kind_ok_dec; [vm_compute; reflexivity..|apply default_norms_ok|apply default_cells]. Qed.

(** *** One table *)

Section kind.
Context (base bits : list Z) (max maxLog : Z) (def : ZSTD_seqTable) (dnorm : list Z) (dlog dmax : Z).
Hypothesis Hk : kind_ok base bits max maxLog def dnorm dlog dmax.

Lemma table_stats_ok dst codes m prev allowed strategy w ptr flag usable :
  table_wksp_ok max maxLog w -> bytes_ok dst -> 84 <= zlen dst -> bytes_ok codes -> Forall (fun c => c <= max /\ usable c) codes ->
  1 <= zlen codes < 2 ^ 17 -> (forall c, 0 <= c <= max -> allowed c = true -> c <= dmax) ->
  linked base bits maxLog usable m ptr prev -> (m <> FSE_repeat_none -> flag <> 0) ->
  wp (table_stats dst codes max maxLog m prev dnorm dlog dmax allowed strategy w)
    (fun '(dst', n, type, m', ct) => zlen dst' = zlen dst /\ bytes_ok dst' /\ 0 <= n <= 81 /\
       exists t, table_for base bits maxLog codes t ct /\ linked base bits maxLog usable m' t ct /\
         (m' <> FSE_repeat_none -> type = set_repeat /\ m <> FSE_repeat_none \/ type = set_compressed) /\
         described base bits max maxLog def ptr flag type dst' n t) no_errors.
Proof.
  intros Hw Hb Hd Hbc HFu Hlen Hall Hlink Hflag. unfold table_stats. cbv zeta.
  destruct (two_hist _ _ _ Hw) as (Hw1 & Hw2 & Hw3). pose proof (two_count _ _ _ Hw) as Hc.
  pose proof (kd_max _ _ _ _ _ _ _ _ Hk) as Hmx. pose proof (kd_log _ _ _ _ _ _ _ _ Hk). change MaxSeq with 52 in *.
  assert (codes <> []) as Hne by (intros ->; change (zlen []) with 0 in Hlen; lia).
  assert (Forall (fun c => c <= max) codes) as HF by (eapply Forall_impl; [exact HFu|]; cbv beta; tauto).
  destruct (counted_codes _ _ _ _ _ _ _ _ Hk codes (tw_count w) Hbc HF Hne (two_count _ _ _ Hw)) as (_ & Hlast & _).
  rewrite countFast_ok by (done || lia). cbn [bind hist_spec h_maxSymbolValue h_largest h_count].
  assert (Z.log2 (last_of codes) <= 5) by (apply (Z.log2_le_mono _ 52); lia).
  destruct (two_costBuf _ _ _ Hw) as [Hcb1 Hcb2]. pose proof (kd_dnorm _ _ _ _ _ _ _ _ Hk) as Hdn. pose proof (nok_max _ _ _ Hdn).
  wp_step. eapply wp_mono; [apply (selectEncodingType_ok m (hist_of (tw_count w) max codes) (last_of codes) (largest_of codes) (zlen codes) maxLog prev dnorm dlog)| |done].
  - intros Hnf. apply block_counts; try done; change MaxSeq with 52; lia.
  - lia.
  - lia.
  - apply (two_costNorm _ _ _ Hw).
  - exact Hcb1.
  - exact Hcb2.
  - apply (kd_dlog _ _ _ _ _ _ _ _ Hk).
  - intros Ha. specialize (Hall _ Hlast Ha). split; [lia|]. intros s Hs. apply (kd_dcounts _ _ _ _ _ _ _ _ Hk). lia.
  - eapply linked_repeat_ok; [|exact Hlink]. lia.
  - intros [m' type] Hch. wp_step.
    eapply wp_mono; [apply (buildCTable_correct _ _ _ _ _ _ _ _ Hk dst type m m' codes prev w ptr flag usable Hw Hb Hd Hbc HFu Hlen Hlink Hflag)| |done].
    { destruct type; cbn [choice_ok]; try exact Hch. destruct Hch as [Ha ->]. split; [by apply Hall|done]. }
    intros [[dst' n] ct] (Hl & Hb' & Hn & t & Ht & Hlk & Hdesc). wp_step. split; [done|]. split; [done|]. split; [done|].
    exists t. split; [done|]. split; [done|]. split; [|done]. intros Hm'. destruct type; [by destruct Hch as [_ ->]|by destruct Hch as [_ ->]|by right|left; split; [done|apply Hch]].
Qed.
End kind.

(** *** The three tables *)

(** A part of the section that describes a table. *)
Definition part_of (base bits : list Z) (max maxLog : Z) (def ptr : ZSTD_seqTable) (flag : Z) (type : SymbolEncodingType_e) (p : list Z) (t : ZSTD_seqTable) : Prop :=
  bytes_ok p /\ zlen p <= 81 /\
  forall rest space norm0 wksp, bytes_ok rest -> 2 ^ maxLog <= zlen space -> zlen norm0 = MaxSeq + 1 -> seq_wksp_ok wksp ->
    ZSTD_buildSeqTable space ptr type max maxLog (p ++ rest) base bits def flag norm0 wksp = Ok (zlen p, t).

Lemma described_part base bits max maxLog def ptr flag type dst n t :
  described base bits max maxLog def ptr flag type dst n t -> bytes_ok dst -> 0 <= n <= 81 -> n <= zlen dst ->
  part_of base bits max maxLog def ptr flag type (zsub dst 0 n) t.
Proof.
  intros H Hb Hn Hl. split; [by apply bytes_ok_zsub|]. rewrite zlen_zsub by lia. split; [lia|]. exact H.
Qed.

Lemma zsub_zpatch_head {A} (dst src : list A) i n :
  0 <= i -> 0 <= n <= zlen src -> i + zlen src <= zlen dst -> zsub (zpatch dst i src) i n = zsub src 0 n.
Proof. intros. by rewrite zsub_zpatch_prefix. Qed.

(** What the statistics of a store with codes [s] promise. *)
Record seqstats_ok (uLL uOF uML : Z -> Prop) (s : SeqStore_t) (ptrs : seq_tables) (dst : list Z) (st : ZSTD_symbolEncodingTypeStats_t)
    (next : ZSTD_fseCTables_t) (p1 p2 p3 : list Z) (t1 t2 t3 : ZSTD_seqTable) : Prop := {
  so_long : longOffsets st = false;
  so_size : stats_size st = zlen (p1 ++ p2 ++ p3);
  so_bytes : zsub dst 0 (stats_size st) = p1 ++ p2 ++ p3;
  so_part1 : part_of LL_base LL_bits MaxLL LLFSELog LL_defaultDTable (LLTptr ptrs) (fseEntropy ptrs) (LLtype st) p1 t1;
  so_part2 : part_of OF_base OF_bits MaxOff OffFSELog OF_defaultDTable (OFTptr ptrs) (fseEntropy ptrs) (Offtype st) p2 t2;
  so_part3 : part_of ML_base ML_bits MaxML MLFSELog ML_defaultDTable (MLTptr ptrs) (fseEntropy ptrs) (MLtype st) p3 t3;
  so_for1 : table_for LL_base LL_bits LLFSELog (zsub (llCode s) 0 (zlen (sequences s))) t1 (litlengthCTable next);
  so_for2 : table_for OF_base OF_bits OffFSELog (zsub (ofCode s) 0 (zlen (sequences s))) t2 (offcodeCTable next);
  so_for3 : table_for ML_base ML_bits MLFSELog (zsub (mlCode s) 0 (zlen (sequences s))) t3 (matchlengthCTable next);
  so_linked : forall e, e <> 0 -> entropy_linked uLL uOF uML next (mkSeqTables t1 t2 t3 e);
}.

(** Codes of a block: in range, and usable. *)
Definition block_codes (max : Z) (usable : Z -> Prop) (codes : list Z) : Prop :=
  bytes_ok codes /\ Forall (fun c => c <= max /\ usable c) codes.

Lemma statistics_ok uLL uOF uML s s' prev ptrs dst strategy w1 w2 w3 :
  ZSTD_seqToCodes s = Ok (s', false) -> sequences s' = sequences s ->
  let n := zlen (sequences s) in
  1 <= n < 2 ^ 17 -> n <= zlen (llCode s') -> n <= zlen (ofCode s') -> n <= zlen (mlCode s') ->
  block_codes MaxLL uLL (zsub (llCode s') 0 n) -> block_codes MaxOff uOF (zsub (ofCode s') 0 n) -> block_codes MaxML uML (zsub (mlCode s') 0 n) ->
  entropy_linked uLL uOF uML prev ptrs ->
  table_wksp_ok MaxLL LLFSELog w1 -> table_wksp_ok MaxOff OffFSELog w2 -> table_wksp_ok MaxML MLFSELog w3 ->
  bytes_ok dst -> 252 <= zlen dst ->
  wp (ZSTD_buildSequencesStatistics s n prev dst strategy w1 w2 w3)
    (fun '(s2, dst', st, next) => s2 = s' /\ zlen dst' = zlen dst /\ bytes_ok dst' /\
       exists p1 p2 p3 t1 t2 t3, seqstats_ok uLL uOF uML s' ptrs dst' st next p1 p2 p3 t1 t2 t3) no_errors.
Proof.
  intros Es Eseq n Hn Hl1 Hl2 Hl3 [Hb1 Hc1] [Hb2 Hc2] [Hb3 Hc3] [HL HO HM Hflag] Hw1 Hw2 Hw3 Hbd Hld.
  unfold ZSTD_buildSequencesStatistics. cbv zeta. rewrite Es. cbn [bind]. set (L := zlen dst) in *.
  wp_step. eapply wp_mono; [apply (table_stats_ok _ _ _ _ _ _ _ _ LL_kind dst _ _ _ (fun _ => true) strategy w1 (LLTptr ptrs) (fseEntropy ptrs) uLL Hw1 Hbd); try done; rewrite ?zlen_zsub; try lia| |done].
  { intros Hm. apply Hflag. by left. }
  intros [[[[dst1 n1] ty1] m1] ct1] (El1 & Hbd1 & Hn1 & t1 & Hf1 & Hk1 & Hm1 & Hd1). fold L in El1.
  assert (bytes_ok (zsub dst1 n1 (L - n1)) /\ zlen (zsub dst1 n1 (L - n1)) = L - n1) as [Hbs1 Els1] by (split; [by apply bytes_ok_zsub|apply zlen_zsub; lia]).
  wp_step. eapply wp_mono; [apply (table_stats_ok _ _ _ _ _ _ _ _ OF_kind _ _ _ _ (fun max => max <=? DefaultMaxOff) strategy w2 (OFTptr ptrs) (fseEntropy ptrs) uOF Hw2 Hbs1); try done; rewrite ?zlen_zsub; try lia| |done].
  { intros Hm. apply Hflag. by right; left. }
  intros [[[[out2 n2] ty2] m2] ct2] (El2 & Hbd2 & Hn2 & t2 & Hf2 & Hk2 & Hm2 & Hd2). rewrite Els1 in El2.
  set (dst2 := zpatch dst1 n1 out2). assert (zlen dst2 = L) as Eld2 by (unfold dst2; rewrite zlen_zpatch; lia).
  assert (bytes_ok dst2) as Hbdst2 by (by apply bytes_ok_zpatch).
  assert (bytes_ok (zsub dst2 (n1 + n2) (L - (n1 + n2))) /\ zlen (zsub dst2 (n1 + n2) (L - (n1 + n2))) = L - (n1 + n2)) as [Hbs2 Els2] by (split; [by apply bytes_ok_zsub|apply zlen_zsub; lia]).
  wp_step. eapply wp_mono; [apply (table_stats_ok _ _ _ _ _ _ _ _ ML_kind _ _ _ _ (fun _ => true) strategy w3 (MLTptr ptrs) (fseEntropy ptrs) uML Hw3 Hbs2); try done; rewrite ?zlen_zsub; try lia| |done].
  { intros Hm. apply Hflag. by right; right. }
  intros [[[[out3 n3] ty3] m3] ct3] (El3 & Hbd3 & Hn3 & t3 & Hf3 & Hk3 & Hm3 & Hd3). rewrite Els2 in El3.
  wp_step. split; [done|]. split; [rewrite zlen_zpatch; lia|]. split; [by apply bytes_ok_zpatch|].
  pose proof (described_part _ _ _ _ _ _ _ _ _ _ _ Hd1 Hbd1 Hn1 ltac:(lia)) as P1.
  pose proof (described_part _ _ _ _ _ _ _ _ _ _ _ Hd2 Hbd2 Hn2 ltac:(lia)) as P2.
  pose proof (described_part _ _ _ _ _ _ _ _ _ _ _ Hd3 Hbd3 Hn3 ltac:(lia)) as P3.
  exists (zsub dst1 0 n1), (zsub out2 0 n2), (zsub out3 0 n3), t1, t2, t3.
  split; cbn [longOffsets stats_size LLtype Offtype MLtype litlengthCTable offcodeCTable matchlengthCTable];
    rewrite ?Eseq; try assumption; try done.
  - rewrite !zlen_app, !zlen_zsub by lia. lia.
  - rewrite <- Z.add_assoc, zsub_split, zsub_split by lia. rewrite Z.add_0_l. f_equal; [|f_equal].
    + rewrite zsub_zpatch_before by lia. unfold dst2. by rewrite zsub_zpatch_before by lia.
    + rewrite zsub_zpatch_before by lia. unfold dst2. by rewrite zsub_zpatch_head by lia.
    + by rewrite zsub_zpatch_head by lia.
Qed.

(** *** The header *)

Lemma nb_bytes_ok nb : 0 <= nb < 2 ^ 16 + LONGNBSEQ -> bytes_ok (nb_bytes nb) /\ 1 <= zlen (nb_bytes nb) <= 3.
Proof.
  unfold nb_bytes, LONGNBSEQ. intros Hnb. destruct (Z.ltb_spec nb 128); [|destruct (Z.ltb_spec nb 0x7F00)].
  - split; [repeat constructor; unfold is_byte; lia|change (zlen [nb]) with 1; lia].
  - split; [|change (zlen [Z.shiftr nb 8 + 0x80; u8 nb]) with 2; lia]. rewrite Z.shiftr_div_pow2 by lia. repeat constructor; unfold is_byte; unfold u8; zdm.
  - split; [|change (zlen (255 :: le_bytes 2 (nb - 0x7F00))) with 3; lia]. constructor; [unfold is_byte; lia|apply le_bytes_ok].
Qed.

Lemma put_nbSeq_ok dst nb : 4 <= zlen dst -> 0 <= nb < 2 ^ 16 + LONGNBSEQ ->
  put_nbSeq dst nb = Ok (zpatch dst 0 (nb_bytes nb), zlen (nb_bytes nb)).
Proof.
  intros Hl Hnb. unfold put_nbSeq, nb_bytes, LONGNBSEQ in *.
  destruct (Z.ltb_spec nb 128) as [H1|H1]; [|destruct (Z.ltb_spec nb 0x7F00) as [H2|H2]].
  - rewrite u8_small by lia. pose proof (emit_byte dst [] 0 eq_refl nb) as E. rewrite zpatch_all in E. rewrite E by (change (zlen []) with 0; lia). done.
  - rewrite Z.shiftr_div_pow2 by lia. rewrite (u8_small (_ + _)) by zdm.
    pose proof (emit_byte dst [] 0 eq_refl (nb / 2 ^ 8 + 128)) as E. rewrite zpatch_all in E. rewrite E by (change (zlen []) with 0; lia). cbn [bind app].
    rewrite (emit_byte dst [nb / 2 ^ 8 + 128] 1 eq_refl) by (change (zlen [nb / 2 ^ 8 + 128]) with 1; lia). done.
  - rewrite u16_small by lia. pose proof (emit_byte dst [] 0 eq_refl 255) as E. rewrite zpatch_all in E. rewrite E by (change (zlen []) with 0; lia). cbn [bind app].
    rewrite (emit_LE16 dst [255] 1 eq_refl) by first [lia|change (zlen [255]) with 1; lia]. done.
Qed.

Lemma type_roundtrip t : SymbolEncodingType_of (SymbolEncodingType_to t) = t.
Proof. by destruct t. Qed.

(** The byte of the three kinds. *)
Definition head_byte (t1 t2 t3 : SymbolEncodingType_e) : Z :=
  u8 (Z.shiftl (SymbolEncodingType_to t1) 6 + Z.shiftl (SymbolEncodingType_to t2) 4 + Z.shiftl (SymbolEncodingType_to t3) 2).

Lemma head_byte_reads t1 t2 t3 :
  0 <= head_byte t1 t2 t3 < 256 /\ (head_byte t1 t2 t3 .& 3) = 0 /\ SymbolEncodingType_of (Z.shiftr (head_byte t1 t2 t3) 6) = t1 /\
  SymbolEncodingType_of (Z.shiftr (head_byte t1 t2 t3) 4 .& 3) = t2 /\ SymbolEncodingType_of (Z.shiftr (head_byte t1 t2 t3) 2 .& 3) = t3.
Proof. destruct t1, t2, t3; vm_compute; intuition congruence. Qed.

Lemma zsub_after {A} (l k : list A) p n : p = zlen l -> n = zlen (l ++ k) - p -> zsub (l ++ k) p n = k.
Proof. intros -> ->. rewrite zlen_app. replace (zlen l + zlen k - zlen l) with (zlen k) by lia. unfold zsub, zlen. rewrite !Nat2Z.id, drop_app_length. apply firstn_all. Qed.

(** The start of [ZSTD_decodeSeqHeaders]. *)
Lemma read_nbSeq nb hd body {A} (k : Z * Z -> result A) :
  1 <= nb < 2 ^ 16 + LONGNBSEQ -> bytes_ok body -> 0 <= hd < 256 ->
  let src := nb_bytes nb ++ [hd] ++ body in
  (let* nbSeq := rd src 0 in
   let* p := (if nbSeq >? 0x7F then
       if nbSeq =? 0xFF then
         ERROR_IF 1 + 2 >? zlen src THEN srcSize_wrong ;;
         let* n := MEM_readLE16 true src 1 in
         Ok (n + LONGNBSEQ, 3)
       else
         ERROR_IF 1 >=? zlen src THEN srcSize_wrong ;;
         let* b := rd src 1 in
         Ok (Z.shiftl (nbSeq - 0x80) 8 + b, 2)
     else Ok (nbSeq, 1)) in k p) = k (nb, zlen (nb_bytes nb)).
Proof.
  intros Hnb Hbb Hh src. assert (zlen src = zlen (nb_bytes nb) + 1 + zlen body) as Els by (unfold src; rewrite !zlen_app; change (zlen [hd]) with 1; lia).
  pose proof (zlen_nonneg body). revert Els. unfold src, nb_bytes, LONGNBSEQ, RETURN_ERROR_IF in *. intros Els. clear src.
  destruct (Z.ltb_spec nb 128) as [L1|L1]; [|destruct (Z.ltb_spec nb 0x7F00) as [L2|L2]].
  - change ([nb] ++ [hd] ++ body) with ([] ++ [nb] ++ ([hd] ++ body)). rewrite parse_byte by done. cbn [bind].
    rewrite Z.gtb_ltb, (proj2 (Z.ltb_ge 127 nb)) by lia. done.
  - set (a := Z.shiftr nb 8 + 128) in *. assert (128 <= a < 255) as Ha by (unfold a; rewrite Z.shiftr_div_pow2 by lia; zdm).
    change ([a; u8 nb] ++ [hd] ++ body) with ([] ++ [a] ++ ([u8 nb] ++ [hd] ++ body)) at 1. rewrite parse_byte by done. cbn [bind].
    rewrite Z.gtb_ltb, (proj2 (Z.ltb_lt 127 a)) by lia. rewrite (proj2 (Z.eqb_neq a 255)) by lia.
    rewrite Z.geb_leb, (proj2 (Z.leb_gt _ _)) by (change (zlen [a; u8 nb]) with 2 in *; lia).
    change ([a; u8 nb] ++ [hd] ++ body) with ([a] ++ [u8 nb] ++ ([hd] ++ body)). rewrite parse_byte by done. cbn [bind].
    do 2 f_equal. unfold a. rewrite Z.shiftr_div_pow2, Z.shiftl_mul_pow2 by lia. unfold u8. zdm.
  - set (v := nb - 32512) in *. change ((255 :: le_bytes 2 v) ++ [hd] ++ body) with ([] ++ [255] ++ (le_bytes 2 v ++ [hd] ++ body)) at 1. rewrite parse_byte by done. cbn [bind].
    change (255 >? 127) with true. change (255 =? 255) with true. cbn iota. rewrite Z.gtb_ltb, (proj2 (Z.ltb_ge _ _)) by (change (zlen (255 :: le_bytes 2 v)) with 3 in *; lia).
    change ((255 :: le_bytes 2 v) ++ [hd] ++ body) with ([255] ++ le_bytes 2 v ++ ([hd] ++ body)).
    rewrite parse_LE16; [|done|repeat constructor; unfold is_byte; lia|apply bytes_ok_app; [repeat constructor; unfold is_byte; lia|done]|unfold v; lia]. cbn [bind].
    change (zlen (255 :: le_bytes 2 v)) with 3. do 2 f_equal. unfold v. lia.
Qed.

(** The decoder reads the tables back. *)
Lemma decodeSeqHeaders_reads nb ty1 ty2 ty3 p1 p2 p3 t1 t2 t3 rest tables w1 w2 w3 :
  1 <= nb < 2 ^ 16 + LONGNBSEQ ->
  part_of LL_base LL_bits MaxLL LLFSELog LL_defaultDTable (LLTptr tables) (fseEntropy tables) ty1 p1 t1 ->
  part_of OF_base OF_bits MaxOff OffFSELog OF_defaultDTable (OFTptr tables) (fseEntropy tables) ty2 p2 t2 ->
  part_of ML_base ML_bits MaxML MLFSELog ML_defaultDTable (MLTptr tables) (fseEntropy tables) ty3 p3 t3 ->
  bytes_ok rest -> seq_scratch_ok w1 -> seq_scratch_ok w2 -> seq_scratch_ok w3 ->
  ZSTD_decodeSeqHeaders tables (nb_bytes nb ++ [head_byte ty1 ty2 ty3] ++ p1 ++ p2 ++ p3 ++ rest) w1 w2 w3
  = Ok (zlen (nb_bytes nb) + 1 + zlen p1 + zlen p2 + zlen p3, nb, mkSeqTables t1 t2 t3 (fseEntropy tables)).
Proof.
  intros Hnb (Hb1 & _ & H1) (Hb2 & _ & H2) (Hb3 & _ & H3) Hr Hw1 Hw2 Hw3.
  destruct (nb_bytes_ok nb ltac:(lia)) as [Hbn Hln]. destruct (head_byte_reads ty1 ty2 ty3) as (Hh & Hres & E1 & E2 & E3).
  set (hd := head_byte ty1 ty2 ty3) in *. set (body := p1 ++ p2 ++ p3 ++ rest). set (src := nb_bytes nb ++ [hd] ++ body).
  pose proof (zlen_nonneg p1). pose proof (zlen_nonneg p2). pose proof (zlen_nonneg p3). pose proof (zlen_nonneg rest).
  assert (bytes_ok body) as Hbb by (unfold body; by repeat apply bytes_ok_app).
  assert (zlen body = zlen p1 + zlen p2 + zlen p3 + zlen rest) as Elb by (unfold body; rewrite !zlen_app; lia).
  assert (zlen src = zlen (nb_bytes nb) + 1 + zlen body) as Els by (unfold src; rewrite !zlen_app; change (zlen [hd]) with 1; lia).
  unfold ZSTD_decodeSeqHeaders. cbv zeta. unfold RETURN_ERROR_IF. change MIN_SEQUENCES_SIZE with 1. rewrite (proj2 (Z.ltb_ge _ _)) by lia.
  unfold src at 1 2 3 4 5. rewrite read_nbSeq by (done || lia). fold src.
  cbn beta iota. rewrite (proj2 (Z.eqb_neq nb 0)) by lia.
  rewrite Z.gtb_ltb, (proj2 (Z.ltb_ge _ _)) by lia.
  set (k := zlen (nb_bytes nb)) in *. assert (rd src k = Ok hd) as -> by (unfold src; by apply parse_byte). cbn [bind].
  rewrite Hres. cbn [Z.eqb negb]. rewrite E1, E2, E3.
  assert (zsub src (k + 1) (zlen src - (k + 1)) = p1 ++ p2 ++ p3 ++ rest) as ->.
  { replace src with ((nb_bytes nb ++ [hd]) ++ body) by (unfold src; by rewrite <- app_assoc). apply zsub_after; [|done].
    rewrite zlen_app. done. }
  destruct Hw1 as (Hs1 & _ & _ & Hn1 & Hk1), Hw2 as (_ & Hs2 & _ & Hn2 & Hk2), Hw3 as (_ & _ & Hs3 & Hn3 & Hk3).
  rewrite H1 by (try done; try lia; by repeat apply bytes_ok_app). cbn [or_corrupted bind].
  assert (zsub src (k + 1 + zlen p1) (zlen src - (k + 1 + zlen p1)) = p2 ++ p3 ++ rest) as ->.
  { replace src with ((nb_bytes nb ++ [hd] ++ p1) ++ p2 ++ p3 ++ rest) by (unfold src, body; by rewrite <- !app_assoc). apply zsub_after; [|done].
    rewrite !zlen_app. change (zlen [hd]) with 1. fold k. lia. }
  rewrite H2 by (try done; try lia; by repeat apply bytes_ok_app). cbn [or_corrupted bind].
  assert (zsub src (k + 1 + zlen p1 + zlen p2) (zlen src - (k + 1 + zlen p1 + zlen p2)) = p3 ++ rest) as ->.
  { replace src with ((nb_bytes nb ++ [hd] ++ p1 ++ p2) ++ p3 ++ rest) by (unfold src, body; by rewrite <- !app_assoc). apply zsub_after; [|done].
    rewrite !zlen_app. change (zlen [hd]) with 1. fold k. lia. }
  rewrite H3 by (try done; lia). cbn [or_corrupted bind]. do 2 f_equal.
Qed.

(** *** The section *)

(** The codes of a store, if it is one the match finders can make, are usable. *)
Definition codes_usable (uLL uOF uML : Z -> Prop) (s : SeqStore_t) : Prop :=
  forall s', ZSTD_seqToCodes s = Ok (s', false) -> let n := zlen (sequences s) in
    Forall uLL (zsub (llCode s') 0 n) /\ Forall uOF (zsub (ofCode s') 0 n) /\ Forall uML (zsub (mlCode s') 0 n).

Definition with_flag (t : seq_tables) (e : Z) : seq_tables := mkSeqTables (LLTptr t) (OFTptr t) (MLTptr t) e.

Lemma Forall_zsub_0 (P : Z -> Prop) l n : 0 <= n <= zlen l -> (Forall P (zsub l 0 n) <-> forall i, 0 <= i < n -> P (zat l i)).
Proof.
  intros Hn. change (zsub l 0 n) with (take (Z.to_nat n) l). unfold zlen in Hn. rewrite Forall_lookup. split; intros H.
  - intros i Hi. destruct (lookup_lt_is_Some_2 l (Z.to_nat i)) as [x Hx]; [lia|]. unfold zat. rewrite list_lookup_total_alt, Hx.
    apply (H (Z.to_nat i)). by rewrite lookup_take_lt by lia.
  - intros i x Hx. apply lookup_take_Some in Hx as [Hx Hi]. specialize (H (Z.of_nat i) ltac:(lia)). unfold zat in H.
    by rewrite Nat2Z.id, list_lookup_total_alt, Hx in H.
Qed.

(** The codes in the memory of a store, for each of its columns. *)
Lemma column_codes s (P : Z -> Prop) (f : zseq -> Z) (col : list Z) :
  zlen (zseqs s) <= zlen col -> (forall i, 0 <= i < zlen (zseqs s) -> zat col i = f (zat (zseqs s) i)) ->
  (Forall P (zsub col 0 (zlen (zseqs s))) <-> Forall (fun z => P (f z)) (zseqs s)).
Proof.
  intros Hl Hat. pose proof (zlen_nonneg (zseqs s)) as Hn0. rewrite Forall_zsub_0 by lia. split; intros H.
  - apply Forall_lookup. intros i z Hz. pose proof (lookup_lt_Some _ _ _ Hz). specialize (H (Z.of_nat i) ltac:(unfold zlen; lia)).
    rewrite Hat in H by (unfold zlen; lia). unfold zat in H. by rewrite Nat2Z.id, list_lookup_total_alt, Hz in H.
  - intros i Hi. rewrite Hat by done. by apply (zat_Forall _ _ i H).
Qed.

Lemma codes_columns uLL uOF uML s s' :
  codes_in (mlCode s') (ofCode s') (llCode s') (sequences s') (zseqs s') -> sequences s' = sequences s ->
  Forall (fun z => 0 <= z_ll z <= MaxLL /\ 0 <= z_of z <= MaxOff /\ 0 <= z_ml z <= MaxML) (zseqs s') ->
  codes_usable uLL uOF uML s -> ZSTD_seqToCodes s = Ok (s', false) ->
  let n := zlen (sequences s) in
  zlen (zseqs s') = n /\ n <= zlen (llCode s') /\ n <= zlen (ofCode s') /\ n <= zlen (mlCode s') /\
  block_codes MaxLL uLL (zsub (llCode s') 0 n) /\ block_codes MaxOff uOF (zsub (ofCode s') 0 n) /\ block_codes MaxML uML (zsub (mlCode s') 0 n).
Proof.
  intros [Hs [Hl1 Hm] [Hl2 Ho] [Hl3 Hl]] Es Hr Hu Ec n. destruct (Hu s' Ec) as (U1 & U2 & U3). fold n in U1, U2, U3.
  assert (zlen (zseqs s') = n) as En by (unfold n; rewrite <- Es, Hs at 1; unfold zlen; by rewrite length_map). rewrite En in *.
  rewrite <- En in Hl, Ho, Hm, U1, U2, U3 |- *.
  assert (forall max usable (f : zseq -> Z) col, max <= 52 -> zlen (zseqs s') <= zlen col -> (forall i, 0 <= i < zlen (zseqs s') -> zat col i = f (zat (zseqs s') i)) ->
    Forall (fun z => 0 <= f z <= max) (zseqs s') -> Forall usable (zsub col 0 (zlen (zseqs s'))) -> block_codes max usable (zsub col 0 (zlen (zseqs s')))) as Hcol.
  { intros max usable f col Hmx Hlc Hat Hf Huse. apply (column_codes s' (fun c => 0 <= c <= max) f col Hlc Hat) in Hf. split.
    - eapply Forall_impl; [exact Hf|]. intros c Hc. cbv beta in Hc. unfold is_byte. lia.
    - apply Forall_and. split; [|done]. eapply Forall_impl; [exact Hf|]. intros c Hc. cbv beta in Hc. lia. }
  change MaxLL with 35 in *. change MaxML with 52 in *. change MaxOff with 31 in *.
  split_and!; try lia.
  - apply (Hcol 35 uLL z_ll); [lia|lia|exact Hl| |exact U1]. eapply Forall_impl; [exact Hr|]. cbv beta. tauto.
  - apply (Hcol 31 uOF z_of); [lia|lia|exact Ho| |exact U2]. eapply Forall_impl; [exact Hr|]. cbv beta. tauto.
  - apply (Hcol 52 uML z_ml); [lia|lia|exact Hm| |exact U3]. eapply Forall_impl; [exact Hr|]. cbv beta. tauto.
Qed.

Lemma tables_codecs s t1 t2 t3 e next :
  let n := zlen (zseqs s) in
  table_for LL_base LL_bits LLFSELog (zsub (llCode s) 0 n) t1 (litlengthCTable next) ->
  table_for OF_base OF_bits OffFSELog (zsub (ofCode s) 0 n) t2 (offcodeCTable next) ->
  table_for ML_base ML_bits MLFSELog (zsub (mlCode s) 0 n) t3 (matchlengthCTable next) ->
  codes_in (mlCode s) (ofCode s) (llCode s) (sequences s) (zseqs s) ->
  Forall (fun z => 0 <= z_ll z <= MaxLL /\ 0 <= z_of z <= MaxOff /\ 0 <= z_ml z <= MaxML) (zseqs s) ->
  exists k, k_tables k = mkSeqTables t1 t2 t3 e /\ k_ctLL k = litlengthCTable next /\ k_ctOF k = offcodeCTable next /\
    k_ctML k = matchlengthCTable next /\ Forall (z_ok k) (zseqs s).
Proof.
  intros n (_ & can1 & K1 & F1) (Hlog & can2 & K2 & F2) (_ & can3 & K3 & F3) [_ [Hl1 Hm] [Hl2 Ho] [Hl3 Hl]] Hr.
  exists (mkCodecs (mkSeqTables t1 t2 t3 e) (litlengthCTable next) (offcodeCTable next) (matchlengthCTable next) can1 can2 can3 K1 K2 K3 Hlog).
  split_and!; try done. cbn. apply (column_codes s can1 z_ll _ Hl3 Hl) in F1. apply (column_codes s can2 z_of _ Hl2 Ho) in F2. apply (column_codes s can3 z_ml _ Hl1 Hm) in F3.
  rewrite Forall_forall in *. intros z Hz. specialize (Hr z Hz). specialize (F1 z Hz). specialize (F2 z Hz). specialize (F3 z Hz). cbv beta in *.
  unfold z_ok. cbn. split_and!; try done; apply Hr.
Qed.

(** What the decoder gets from the first [sz] bytes of [mem]. *)
Definition section_decodes (mem : list Z) (sz nbSeq : Z) (tables : seq_tables) (rep : list Z) (seqs : list seq_t) (rep' : list Z)
    (P : seq_tables -> Prop) : Prop :=
  forall w1 w2 w3, seq_scratch_ok w1 -> seq_scratch_ok w2 -> seq_scratch_ok w3 ->
  exists ip tables', ZSTD_decodeSeqHeaders tables (zsub mem 0 sz) w1 w2 w3 = Ok (ip, nbSeq, tables') /\ 0 <= ip <= sz /\
    decode_block (zsub mem ip (sz - ip)) tables' rep nbSeq = Ok (seqs, rep', true) /\ P tables'.

Lemma empty_section s prev tables strategy w1 w2 w3 dst rep seqs rep' uLL uOF uML :
  sequences s = [] -> entropy_linked uLL uOF uML prev tables -> bytes_ok dst -> 4 <= zlen dst ->
  resolve rep (store_meaning s) = Ok (seqs, rep') ->
  exists mem, compress_sequences dst s prev strategy w1 w2 w3 = Ok (mem, 1, prev) /\ zlen mem = zlen dst /\ bytes_ok mem /\
    section_decodes mem 1 0 tables rep seqs rep' (fun t => forall e, e <> 0 -> entropy_linked uLL uOF uML prev (with_flag t e)).
Proof.
  intros Es [HL HO HM _] Hb Hd Hres. unfold store_meaning in Hres. rewrite Es in Hres. injection Hres as <- <-.
  unfold compress_sequences. cbv zeta. rewrite Es. change (zlen []) with 0. unfold RETURN_ERROR_IF. rewrite (proj2 (Z.ltb_ge _ _)) by lia.
  rewrite put_nbSeq_ok by (done || unfold LONGNBSEQ; lia). change (nb_bytes 0) with [0]. change (zlen [0]) with 1. cbn [bind Z.eqb].
  assert (zlen (zpatch dst 0 [0]) = zlen dst) as El by (rewrite zlen_zpatch; change (zlen [0]) with 1; lia).
  eexists. split; [done|]. split; [done|]. split; [apply bytes_ok_zpatch; [done|repeat constructor; unfold is_byte; lia]|].
  intros v1 v2 v3 _ _ _. exists 1, tables. split; [|split; [lia|split; [done|intros e He; by split]]].
  assert (zsub (zpatch dst 0 [0]) 0 1 = [0]) as -> by (apply (zsub_zpatch_0 dst [0]); change (zlen [0]) with 1; lia). done.
Qed.

(** Where the parts are. *)
Lemma section_layout (dst h : list Z) (hd : Z) (out body bits : list Z) (m bs : Z) :
  let k := zlen h in let L := zlen dst in
  k + 1 + m + bs <= L -> 0 <= m -> 0 <= bs <= zlen bits -> zlen out = L - (k + 1) -> zlen bits = L - (k + 1 + m) ->
  zsub out 0 m = body ->
  zsub (zpatch (zupd (zpatch (zpatch dst 0 h) (k + 1) out) k hd) (k + 1 + m) bits) 0 (k + 1 + m + bs) = h ++ [hd] ++ body ++ zsub bits 0 bs.
Proof.
  intros k L Hl Hm Hb Eo Eb <-. pose proof (zlen_nonneg h). set (d1 := zpatch dst 0 h). assert (zlen d1 = L) as E1 by (unfold d1; rewrite zlen_zpatch; lia).
  set (d2 := zpatch d1 (k + 1) out). assert (zlen d2 = L) as E2 by (unfold d2; rewrite zlen_zpatch; lia).
  set (d3 := zupd d2 k hd). assert (zlen d3 = L) as E3 by (unfold d3; by rewrite zlen_zupd).
  replace (k + 1 + m + bs) with (k + (1 + (m + bs))) by lia. rewrite !zsub_split by lia. rewrite !Z.add_0_l. f_equal; [|f_equal; [|f_equal]].
  - rewrite zsub_zpatch_before by lia. unfold d3. rewrite <- zpatch_one by lia. rewrite zsub_zpatch_before by (change (zlen [hd]) with 1; lia).
    unfold d2. rewrite zsub_zpatch_before by lia. apply zsub_zpatch_0. lia.
  - rewrite zsub_zpatch_before by lia. unfold d3. rewrite <- zpatch_one by lia. apply (zsub_zpatch d2 [hd]); change (zlen [hd]) with 1; lia.
  - rewrite zsub_zpatch_before by lia. unfold d3, zsub, zupd. rewrite drop_insert_lt by lia. fold (zsub d2 (k + 1) m). unfold d2. by rewrite zsub_zpatch_head by lia.
  - by rewrite zsub_zpatch_head by lia.
Qed.

Lemma nonempty_section s prev tables strategy w1 w2 w3 dst rep seqs rep' uLL uOF uML :
  store_ok s -> zlen (sequences s) < 2 ^ 16 + LONGNBSEQ -> codes_usable uLL uOF uML s -> entropy_linked uLL uOF uML prev tables ->
  table_wksp_ok MaxLL LLFSELog w1 -> table_wksp_ok MaxOff OffFSELog w2 -> table_wksp_ok MaxML MLFSELog w3 ->
  bytes_ok dst -> 260 <= zlen dst < 2 ^ 32 -> prev_ok rep -> prev_small rep ->
  resolve rep (store_meaning s) = Ok (seqs, rep') -> Forall (fun q => 1 <= offset q) seqs ->
  wp (compress_sequences dst s prev strategy w1 w2 w3)
    (fun '(mem, sz, next) => zlen mem = zlen dst /\ bytes_ok mem /\ (sz = 0 \/ 0 < sz <= zlen dst /\
      section_decodes mem sz (zlen (sequences s)) tables rep seqs rep' (fun t => forall e, e <> 0 -> entropy_linked uLL uOF uML next (with_flag t e))))
    (fun e => e = dstSize_tooSmall).
Proof.
  intros Hs Hnb Hu Hlk Hw1 Hw2 Hw3 Hb Hd Hpo Hps Hres Hpos. pose proof (st_nb _ Hs) as Hn. unfold LONGNBSEQ in Hnb.
  destruct (seqToCodes_ok s Hs) as (s' & Ec & Es & Hin & Hoff & Hmean & Hr).
  destruct (codes_columns uLL uOF uML s s' Hin Es Hr Hu Ec) as (Ez & Hl1 & Hl2 & Hl3 & C1 & C2 & C3).
  set (n := zlen (sequences s)) in *. set (L := zlen dst) in *.
  unfold compress_sequences. cbv zeta. fold n L. wp_step; [lia|]. destruct (nb_bytes_ok n ltac:(unfold LONGNBSEQ; lia)) as [Hbn Hln].
  rewrite put_nbSeq_ok by (unfold LONGNBSEQ; lia). cbn [bind]. rewrite (proj2 (Z.eqb_neq n 0)) by lia.
  set (h := nb_bytes n) in *. set (k := zlen h) in *. set (d1 := zpatch dst 0 h).
  assert (zlen d1 = L) as E1 by (unfold d1; rewrite zlen_zpatch; lia). assert (bytes_ok d1) as B1 by (by apply bytes_ok_zpatch).
  wp_step. eapply wp_mono; [apply (statistics_ok uLL uOF uML s s' prev tables (zsub d1 (k + 1) (L - (k + 1))) strategy w1 w2 w3 Ec Es); try done; rewrite ?zlen_zsub; try lia; by apply bytes_ok_zsub| |done].
  intros [[[s2 out] st] next] (-> & Elo & Bo & p1 & p2 & p3 & t1 & t2 & t3 & Hst). rewrite zlen_zsub in Elo by lia.
  pose proof (so_part1 _ _ _ _ _ _ _ _ _ _ _ _ _ _ Hst) as P1. pose proof (so_part2 _ _ _ _ _ _ _ _ _ _ _ _ _ _ Hst) as P2.
  pose proof (so_part3 _ _ _ _ _ _ _ _ _ _ _ _ _ _ Hst) as P3. pose proof (so_size _ _ _ _ _ _ _ _ _ _ _ _ _ _ Hst) as Hsz. rewrite !zlen_app in Hsz.
  pose proof (proj1 (proj2 P1)). pose proof (proj1 (proj2 P2)). pose proof (proj1 (proj2 P3)).
  pose proof (zlen_nonneg p1). pose proof (zlen_nonneg p2). pose proof (zlen_nonneg p3).
  set (d2 := zpatch d1 (k + 1) out). assert (zlen d2 = L) as E2 by (unfold d2; rewrite zlen_zpatch; lia). assert (bytes_ok d2) as B2 by (by apply bytes_ok_zpatch).
  wp_step. wp_step; [lia|]. fold (head_byte (LLtype st) (Offtype st) (MLtype st)). set (hd := head_byte _ _ _).
  assert (0 <= hd < 256) as Hhd by apply head_byte_reads.
  set (d3 := zupd d2 k hd). assert (zlen d3 = L) as E3 by (unfold d3; by rewrite zlen_zupd). assert (bytes_ok d3) as B3 by (apply bytes_ok_zupd; [done|exact Hhd]).
  set (m := stats_size st) in *. set (op := k + 1 + m).
  destruct (tables_codecs s' t1 t2 t3 (fseEntropy tables) next) as (kk & Ek & Ek1 & Ek2 & Ek3 & Hzok); try done.
  { rewrite Ez. unfold n. rewrite <- Es. apply (so_for1 _ _ _ _ _ _ _ _ _ _ _ _ _ _ Hst). }
  { rewrite Ez. unfold n. rewrite <- Es. apply (so_for2 _ _ _ _ _ _ _ _ _ _ _ _ _ _ Hst). }
  { rewrite Ez. unfold n. rewrite <- Es. apply (so_for3 _ _ _ _ _ _ _ _ _ _ _ _ _ _ Hst). }
  rewrite <- Ek1, <- Ek2, <- Ek3, (ci_seqs _ _ _ _ _ Hin). rewrite <- Hmean in Hres. rewrite (ci_seqs _ _ _ _ _ Hin) in Hin.
  pose proof (sequences_roundtrip kk (zseqs s') (mlCode s') (ofCode s') (llCode s') (zsub d3 op (L - op)) (longOffsets st) rep seqs rep' Hzok Hoff ltac:(lia) Hin) as Hrt.
  assert (zlen (zsub d3 op (L - op)) = L - op) as E4 by (unfold op; rewrite zlen_zsub; lia). rewrite E4 in Hrt.
  specialize (Hrt ltac:(unfold op; lia) ltac:(by apply bytes_ok_zsub) Hpo Hps Hres Hpos).
  destruct (ZSTD_encodeSequences_body _ _ _ _ _ _ _ _ _) as [[bits bs]|e|]; [|exact Hrt|done]. cbn [bind].
  destruct Hrt as (Hbs & Elb & Bb & Hdec). assert (zlen (zpatch d3 op bits) = L) as E5 by (unfold op in *; rewrite zlen_zpatch; lia).
  assert (bytes_ok (zpatch d3 op bits)) as B5 by (by apply bytes_ok_zpatch).
  wp_step; wp_step; (split; [done|]); (split; [done|]); [by left|right; split; [unfold op in *; lia|]].
  assert (zsub (zpatch d3 op bits) 0 (op + bs) = h ++ [hd] ++ p1 ++ p2 ++ p3 ++ zsub bits 0 bs) as Elay.
  { unfold op. replace (p1 ++ p2 ++ p3 ++ zsub bits 0 bs) with ((p1 ++ p2 ++ p3) ++ zsub bits 0 bs) by (by rewrite <- !app_assoc).
    apply (section_layout dst h hd out (p1 ++ p2 ++ p3) bits m bs); fold k d1 L; try lia; apply (so_bytes _ _ _ _ _ _ _ _ _ _ _ _ _ _ Hst). }
  intros v1 v2 v3 Hv1 Hv2 Hv3. exists op, (mkSeqTables t1 t2 t3 (fseEntropy tables)).
  rewrite Elay. split; [|split; [unfold op in *; lia|split]].
  - unfold h, hd. rewrite (decodeSeqHeaders_reads n _ _ _ p1 p2 p3 t1 t2 t3) by (done || (unfold LONGNBSEQ; lia) || by apply bytes_ok_zsub).
    unfold op, k, h. do 3 f_equal. lia.
  - replace (op + bs - op) with bs by lia. rewrite zsub_zpatch_head by (unfold op in *; lia). rewrite <- Ek, <- Ez. exact Hdec.
  - intros e He. apply (so_linked _ _ _ _ _ _ _ _ _ _ _ _ _ _ Hst e He).
Qed.

(** ** Properties *)

(** C10: the sequences section is decoded to the sequences of the store. For every store
    that the match finders can make, every strategy and every state of the tables
    kept from the block before, in a destination of at least 260 bytes, the encoder
    chooses tables that hold all the codes, and either finds no room for the bits,
    or gives up on the block (a size of 0), or writes a section from which the
    decoder rebuilds the three tables, reads the sequences with their repeated
    offsets replaced, and ends exactly with the bits; and the tables that both sides
    keep go together again for the next block. *)
Theorem sequences_section_roundtrip s prev tables strategy w1 w2 w3 dst rep seqs rep' uLL uOF uML :
  (sequences s = [] \/ store_ok s) -> zlen (sequences s) < 2 ^ 16 + LONGNBSEQ -> codes_usable uLL uOF uML s ->
  entropy_linked uLL uOF uML prev tables ->
  table_wksp_ok MaxLL LLFSELog w1 -> table_wksp_ok MaxOff OffFSELog w2 -> table_wksp_ok MaxML MLFSELog w3 ->
  bytes_ok dst -> 260 <= zlen dst < 2 ^ 32 -> prev_ok rep -> prev_small rep ->
  resolve rep (store_meaning s) = Ok (seqs, rep') -> Forall (fun q => 1 <= offset q) seqs ->
  wp (compress_sequences dst s prev strategy w1 w2 w3)
    (fun '(mem, sz, next) => zlen mem = zlen dst /\ bytes_ok mem /\ (sz = 0 \/ 0 < sz <= zlen dst /\
      section_decodes mem sz (zlen (sequences s)) tables rep seqs rep'
        (fun t => forall e, e <> 0 -> entropy_linked uLL uOF uML next (with_flag t e))))
    (fun e => e = dstSize_tooSmall).
Proof.
  intros [Es|Hs] Hn Hu Hlk Hw1 Hw2 Hw3 Hb Hd Hpo Hps Hres Hpos.
  - destruct (empty_section s prev tables strategy w1 w2 w3 dst rep seqs rep' uLL uOF uML Es Hlk Hb ltac:(lia) Hres) as (mem & -> & Hl & Hbm & Hdec).
    cbn [wp]. split; [done|]. split; [done|]. right. rewrite Es. split; [lia|exact Hdec].
  - by apply nonempty_section.
Qed.

Definition sample_table_wksp : table_wksp :=
  mkTW (zfill 512 7) (zfill 53 (mkSymbolTT 1 1)) (zfill 53 9) (mkHWksp 4096 4096 (zfill 1024 3)) (zfill 53 5)
    (zfill 55 1) (zfill 512 2) (zfill 520 4) 9000 (zfill 53 5) (zfill 512 0).

Definition sample_store : SeqStore_t :=
  mkSeqStore [mkSeqDef 11 5 2; mkSeqDef 1 3 40; mkSeqDef 700 0 9; mkSeqDef 3 0 200; mkSeqDef 11 70 2] []
    (zfill 8 0) (zfill 8 0) (zfill 8 0) ZSTD_llt_matchLength 1.

Definition no_entropy : ZSTD_fseCTables_t :=
  let ct := mkCTable 0 0 [] [] in mkFseCTables ct ct ct FSE_repeat_none FSE_repeat_none FSE_repeat_none.

Lemma sample_table_wksp_ok max maxLog : max <= 52 -> maxLog <= 9 -> table_wksp_ok max maxLog sample_table_wksp.
Proof.
  intros Hm Hl. assert (2 ^ maxLog <= 2 ^ 9) by (destruct (Z.lt_ge_cases maxLog 0); [rewrite Z.pow_neg_r by done; lia|apply pow2_le; lia]).
  split; try (split_and!; [done..|bytes_dec]); try (split_and!; vm_compute; congruence); try done; cbn; change (zlen (zfill 512 7)) with 512; change (zlen (zfill 53 (mkSymbolTT 1 1))) with 53; lia.
Qed.

Lemma sequences_section_roundtrip_witness :
  wp (compress_sequences (zfill 300 0) sample_store no_entropy 3 sample_table_wksp sample_table_wksp sample_table_wksp)
    (fun '(mem, sz, next) => zlen mem = 300 /\ bytes_ok mem /\ (sz = 0 \/ 0 < sz <= 300 /\
      section_decodes mem sz 5 (mkSeqTables LL_defaultDTable OF_defaultDTable ML_defaultDTable 0) [1; 4; 8]
        [mkSeq 5 5 8; mkSeq 3 65579 8; mkSeq 0 12 697; mkSeq 0 203 696; mkSeq 70 5 8] [8; 696; 697]
        (fun t => forall e, e <> 0 -> entropy_linked (fun _ => True) (fun _ => True) (fun _ => True) next (with_flag t e))))
    (fun e => e = dstSize_tooSmall).
Proof.
  apply (sequences_section_roundtrip sample_store no_entropy).
  - right. split; [vm_compute; split; congruence| |vm_compute; split_and!; congruence|intros _; vm_compute; split; congruence].
    repeat (constructor; [cbn; lia|]). constructor.
  - vm_compute; reflexivity.
  - intros s' _. split_and!; by apply Forall_true.
  - split; [intros []; done..|intros [[]|[[]|[]]]; done].
  - by apply sample_table_wksp_ok.
  - by apply sample_table_wksp_ok.
  - by apply sample_table_wksp_ok.
  - bytes_dec.
  - vm_compute; split; congruence.
  - split; [done|]. repeat (constructor; [lia|]). constructor.
  - repeat (constructor; [lia|]). constructor.
  - vm_compute; reflexivity.
  - repeat (constructor; [cbn; lia|]). constructor.
Defined.

(** C11: the kind of table that is chosen can hold the codes. Whatever the strategy and
    the costs, for codes that are counted: one symbol for all only when they are all
    the same; the default table only where the caller allows it; the table of the
    block before only when it may be used again and is declared valid or gives a
    state to every code; and whenever a table is not kept, its mode is reset. *)
Theorem ZSTD_selectEncodingType_sound base bits max maxLog def dnorm dlog dmax codes count0 m prev norm sv tl allowed strategy cnorm cbuf :
  kind_ok base bits max maxLog def dnorm dlog dmax -> bytes_ok codes -> Forall (fun c => c <= max) codes -> 1 <= zlen codes < 2 ^ 17 ->
  zlen count0 = MaxSeq + 1 -> (allowed = true -> last_of codes <= dmax) ->
  (m <> FSE_repeat_none -> norm_ok norm sv tl /\ tl <= maxLog /\ ctable_ok norm sv tl prev) ->
  zlen cnorm = MaxSeq + 1 -> zlen cbuf = FSE_NCOUNTBOUND -> bytes_ok cbuf ->
  wp (ZSTD_selectEncodingType m (hist_of count0 max codes) (last_of codes) (largest_of codes) (zlen codes) maxLog prev dnorm dlog allowed strategy cnorm cbuf)
    (fun '(m', type) => match type with
       | set_rle => Forall (fun c => c = last_of codes) codes /\ m' = FSE_repeat_none
       | set_basic => allowed = true /\ Forall (fse_can dnorm (dmax + 1)) codes /\ m' = FSE_repeat_none
       | set_repeat => m' = m /\ m <> FSE_repeat_none /\ (m = FSE_repeat_valid \/ Forall (fse_can norm sv) codes)
       | set_compressed => m' = FSE_repeat_check
       end) no_errors.
Proof.
  intros Hk Hbc HF Hlen Hc0 Hall Hm Hcn Hcb Hbb. pose proof (kd_max _ _ _ _ _ _ _ _ Hk) as Hmx. pose proof (kd_log _ _ _ _ _ _ _ _ Hk).
  change MaxSeq with 52 in *. assert (codes <> []) as Hne by (intros ->; change (zlen []) with 0 in Hlen; lia).
  destruct (counted_codes _ _ _ _ _ _ _ _ Hk codes count0 Hbc HF Hne Hc0) as (Hin & Hlast & _).
  assert (Z.log2 (last_of codes) <= 5) by (apply (Z.log2_le_mono _ 52); lia).
  assert (largest_of codes <> zlen codes -> block_counts_ok (hist_of count0 max codes) (last_of codes) (zlen codes)) as Hcounts.
  { intros Hnf. apply block_counts; try done; change MaxSeq with 52; lia. }
  pose proof (nok_max _ _ _ (kd_dnorm _ _ _ _ _ _ _ _ Hk)).
  eapply wp_mono; [apply (selectEncodingType_ok m (hist_of count0 max codes) (last_of codes) (largest_of codes) (zlen codes) maxLog prev dnorm dlog allowed strategy cnorm cbuf Hcounts); try done; try lia| |done].
  - apply (kd_dlog _ _ _ _ _ _ _ _ Hk).
  - intros Ha. specialize (Hall Ha). split; [lia|]. intros s Hs. apply (kd_dcounts _ _ _ _ _ _ _ _ Hk). lia.
  - intros Hm0. destruct (Hm Hm0) as (? & ? & ?). exists norm, sv, tl. split_and!; done || lia.
  - intros [m' type] Hch. destruct type.
    + destruct Hch as [Ha ->]. split; [done|]. split; [|done]. specialize (Hall Ha). eapply Forall_impl; [exact Hin|]. intros c [Hc _].
      split; [lia|]. apply (kd_dcounts _ _ _ _ _ _ _ _ Hk). lia.
    + destruct Hch as [Hfull ->]. split; [by apply largest_full|done].
    + by destruct Hch as [_ ->].
    + destruct Hch as (Hnf & -> & Hm0 & Hcan). split; [done|]. split; [done|]. destruct Hcan as [?|[n En]]; [by left|right].
      destruct (Hm Hm0) as (Hok & Htl & Hct).
      pose proof (fseBitCost_ok norm sv tl prev Hok ltac:(lia) Hct _ _ _ (Hcounts Hnf)) as Hcost. rewrite En in Hcost. destruct Hcost as [_ Hcost].
      eapply Forall_impl; [exact Hin|]. intros c [Hcr Hcz]. by apply Hcost.
Qed.

(** A table of the block before, made from the default counts. *)
Definition sample_prev : FSE_CTable :=
  match build_CTable sample_table_wksp LL_defaultNorm MaxLL LL_DEFAULTNORMLOG 9000 with Ok ct => ct | _ => mkCTable 0 0 [] [] end.

Lemma sample_prev_ok : ctable_ok LL_defaultNorm 36 6 sample_prev.
Proof.
  destruct (wp_no_errors_Ok _ _ (build_CTable_ok _ _ _ _ _ _ _ _ LL_kind sample_table_wksp LL_defaultNorm 35 6 9000 (sample_table_wksp_ok MaxLL LLFSELog ltac:(by apply Z.leb_le) ltac:(by apply Z.leb_le))
    (proj1 default_norms_ok) ltac:(done) ltac:(done) ltac:(by apply Z.leb_le))) as (ct & E & H).
  unfold sample_prev. change MaxLL with 35. change LL_DEFAULTNORMLOG with 6. by rewrite E.
Qed.

Lemma ZSTD_selectEncodingType_sound_witness :
  wp (ZSTD_selectEncodingType FSE_repeat_check (hist_of (zfill 53 9) 35 [1; 2; 2; 3; 9]) 9 2 5 9 sample_prev LL_defaultNorm 6 true 5 (zfill 53 0) (zfill 512 0))
    (fun '(m', type) => match type with
       | set_rle => Forall (fun c => c = 9) [1; 2; 2; 3; 9] /\ m' = FSE_repeat_none
       | set_basic => true = true /\ Forall (fse_can LL_defaultNorm 36) [1; 2; 2; 3; 9] /\ m' = FSE_repeat_none
       | set_repeat => m' = FSE_repeat_check /\ FSE_repeat_check <> FSE_repeat_none /\
           (FSE_repeat_check = FSE_repeat_valid \/ Forall (fse_can LL_defaultNorm 36) [1; 2; 2; 3; 9])
       | set_compressed => m' = FSE_repeat_check
       end) no_errors.
Proof.
  apply (ZSTD_selectEncodingType_sound LL_base LL_bits 35 9 LL_defaultDTable LL_defaultNorm 6 35 [1; 2; 2; 3; 9] (zfill 53 9) FSE_repeat_check sample_prev LL_defaultNorm 36 6).
  - exact LL_kind.
  - bytes_dec.
  - repeat (constructor; [lia|]). constructor.
  - vm_compute; split; congruence.
  - done.
  - intros _. by apply Z.leb_le.
  - intros _. split; [apply default_norms_ok|]. split; [lia|exact sample_prev_ok].
  - done.
  - done.
  - bytes_dec.
Defined.
