(* ===== verification/Frame.v ===== *)
(** The frame format (decompress/zstd_decompress.c, compress/zstd_compress.c):
    frame headers, skippable frames, block headers, and walking over a sequence
    of frames without decompressing it. *)

From S2P Require Import Prelude Errors Outcome Bits Mem.

(** ** Definitions *)

Definition ZSTD_MAGICNUMBER : Z := 0xFD2FB528.
Definition ZSTD_MAGIC_SKIPPABLE_START : Z := 0x184D2A50.
Definition ZSTD_MAGIC_SKIPPABLE_MASK : Z := 0xFFFFFFF0.
Definition ZSTD_BLOCKSIZE_MAX : Z := 131072.
Definition ZSTD_CONTENTSIZE_UNKNOWN : Z := 2 ^ 64 - 1.
Definition ZSTD_CONTENTSIZE_ERROR : Z := 2 ^ 64 - 2.
Definition ZSTD_FRAMEIDSIZE : Z := 4.
Definition ZSTD_SKIPPABLEHEADERSIZE : Z := 8.
Definition ZSTD_FRAMEHEADERSIZE_MAX : Z := 18.
Definition ZSTD_WINDOWLOG_ABSOLUTEMIN : Z := 10.
Definition ZSTD_WINDOWLOG_MAX : Z := 31.
Definition ZSTD_blockHeaderSize : Z := 3.
Definition ZSTD_fcs_fieldSize : list Z := [0; 2; 4; 8].
Definition ZSTD_did_fieldSize : list Z := [0; 1; 2; 4].

Inductive ZSTD_format_e := ZSTD_f_zstd1 | ZSTD_f_zstd1_magicless.
#[global] Instance ZSTD_format_e_eq_dec : EqDecision ZSTD_format_e.
Proof. solve_decision. Defined.

Inductive ZSTD_FrameType_e := ZSTD_frame | ZSTD_skippableFrame.
#[global] Instance ZSTD_FrameType_e_eq_dec : EqDecision ZSTD_FrameType_e.
Proof. solve_decision. Defined.

Record ZSTD_FrameHeader := mkFrameHeader {
  frameContentSize : Z;
  windowSize : Z;
  blockSizeMax : Z;
  frameType : ZSTD_FrameType_e;
  headerSize : Z;
  dictID : Z;
  checksumFlag : Z;
}.

(** What [ZSTD_getFrameHeader] says: the header (0 in the code), or the number
    of bytes it needs. *)
Inductive header_status :=
| Filled (zfh : ZSTD_FrameHeader)
| Wanted (n : Z).

(** [ZSTD_FRAMEHEADERSIZE_PREFIX] and [ZSTD_startingInputLength]. *)
Definition ZSTD_startingInputLength (format : ZSTD_format_e) : Z :=
  if decide (format = ZSTD_f_zstd1) then 5 else 1.

Definition is_skippable_magic (magic : Z) : bool :=
  (magic .& ZSTD_MAGIC_SKIPPABLE_MASK) =? ZSTD_MAGIC_SKIPPABLE_START.

Definition ZSTD_isFrame (buffer : list Z) : result bool :=
  if zlen buffer <? ZSTD_FRAMEIDSIZE then Ok false
  else
    let* magic := readLE32 buffer 0 in
    if magic =? ZSTD_MAGICNUMBER then Ok true
    else if is_skippable_magic magic then Ok true
    else Ok false.

Definition ZSTD_isSkippableFrame (buffer : list Z) : result bool :=
  if zlen buffer <? ZSTD_FRAMEIDSIZE then Ok false
  else
    let* magic := readLE32 buffer 0 in
    if is_skippable_magic magic then Ok true else Ok false.

Definition ZSTD_frameHeaderSize_internal (src : list Z) (format : ZSTD_format_e) : result Z :=
  let minInputSize := ZSTD_startingInputLength format in
  ERROR_IF zlen src <? minInputSize THEN Errors.srcSize_wrong ;;
  let* fhd := rd src (minInputSize - 1) in
  let dictID := fhd .& 3 in
  let singleSegment := Z.shiftr fhd 5 .& 1 in
  let fcsId := Z.shiftr fhd 6 in
  let* did := rd ZSTD_did_fieldSize dictID in
  let* fcs := rd ZSTD_fcs_fieldSize fcsId in
  Ok (minInputSize + b2z (singleSegment =? 0) + did + fcs
      + b2z (negb (singleSegment =? 0) && (fcsId =? 0))).

Definition ZSTD_frameHeaderSize (src : list Z) : result Z :=
  ZSTD_frameHeaderSize_internal src ZSTD_f_zstd1.

(** A source shorter than the prefix is checked against the magic numbers. *)
Definition check_prefix (src : list Z) (format : ZSTD_format_e) : result unit :=
  if (zlen src >? 0) && bool_decide (format <> ZSTD_f_zstd1_magicless) then
    let toCopy := Z.min 4 (zlen src) in
    let* hbuf := writeLE32 (zfill 4 0) 0 ZSTD_MAGICNUMBER in
    let* hbuf := memcpy_at hbuf 0 (zsub src 0 toCopy) in
    let* m := readLE32 hbuf 0 in
    if negb (m =? ZSTD_MAGICNUMBER) then
      let* hbuf := writeLE32 hbuf 0 ZSTD_MAGIC_SKIPPABLE_START in
      let* hbuf := memcpy_at hbuf 0 (zsub src 0 toCopy) in
      let* m := readLE32 hbuf 0 in
      ERROR_IF negb (is_skippable_magic m) THEN prefix_unknown ;;
      Ok tt
    else Ok tt
  else Ok tt.

(** The fields after the descriptor. *)
Definition header_dictID (src : list Z) (pos dictIDSizeCode : Z) : result (Z * Z) :=
  if dictIDSizeCode =? 0 then Ok (0, pos)
  else if dictIDSizeCode =? 1 then let* d := rd src pos in Ok (d, pos + 1)
  else if dictIDSizeCode =? 2 then let* d := readLE16 src pos in Ok (d, pos + 2)
  else let* d := readLE32 src pos in Ok (d, pos + 4).

Definition header_contentSize (src : list Z) (pos fcsID singleSegment : Z) : result Z :=
  if fcsID =? 0 then
    (if negb (singleSegment =? 0) then rd src pos else Ok ZSTD_CONTENTSIZE_UNKNOWN)
  else if fcsID =? 1 then let* v := readLE16 src pos in Ok (v + 256)
  else if fcsID =? 2 then readLE32 src pos
  else readLE64 src pos.

Definition header_window (src : list Z) (pos singleSegment : Z) : result (Z * Z) :=
  if singleSegment =? 0 then
    let* wlByte := rd src pos in
    let windowLog := Z.shiftr wlByte 3 + ZSTD_WINDOWLOG_ABSOLUTEMIN in
    ERROR_IF windowLog >? ZSTD_WINDOWLOG_MAX THEN frameParameter_windowTooLarge ;;
    let windowSize := u64 (Z.shiftl 1 windowLog) in
    Ok (u64 (windowSize + Z.shiftr windowSize 3 * (wlByte .& 7)), pos + 1)
  else Ok (0, pos).

Definition ZSTD_getFrameHeader_advanced (src : list Z) (format : ZSTD_format_e)
  : result header_status :=
  let minInputSize := ZSTD_startingInputLength format in
  let srcSize := zlen src in
  if srcSize <? minInputSize then
    let* _u := check_prefix src format in
    Ok (Wanted minInputSize)
  else
  let* magic := (if bool_decide (format <> ZSTD_f_zstd1_magicless) then readLE32 src 0
                 else Ok ZSTD_MAGICNUMBER) in
  if bool_decide (format <> ZSTD_f_zstd1_magicless) && negb (magic =? ZSTD_MAGICNUMBER) then
    if is_skippable_magic magic then
      if srcSize <? ZSTD_SKIPPABLEHEADERSIZE then Ok (Wanted ZSTD_SKIPPABLEHEADERSIZE)
      else
        let* fcs := readLE32 src ZSTD_FRAMEIDSIZE in
        Ok (Filled (mkFrameHeader fcs 0 0 ZSTD_skippableFrame ZSTD_SKIPPABLEHEADERSIZE
                      (u32 (magic - ZSTD_MAGIC_SKIPPABLE_START)) 0))
    else Err prefix_unknown
  else
  (* ensure there is enough srcSize to fully read/decode frame header *)
  let* fhsize := ZSTD_frameHeaderSize_internal src format in
  if srcSize <? fhsize then Ok (Wanted fhsize)
  else
  let* fhdByte := rd src (minInputSize - 1) in
  let pos := minInputSize in
  let dictIDSizeCode := fhdByte .& 3 in
  let checksumFlag := Z.shiftr fhdByte 2 .& 1 in
  let singleSegment := Z.shiftr fhdByte 5 .& 1 in
  let fcsID := Z.shiftr fhdByte 6 in
  ERROR_IF negb (fhdByte .& 0x08 =? 0) THEN frameParameter_unsupported ;;
  let* '(windowSize, pos) := header_window src pos singleSegment in
  let* '(dictID, pos) := header_dictID src pos dictIDSizeCode in
  let* frameContentSize := header_contentSize src pos fcsID singleSegment in
  let windowSize := if negb (singleSegment =? 0) then frameContentSize else windowSize in
  Ok (Filled (mkFrameHeader frameContentSize windowSize
                (u32 (Z.min windowSize ZSTD_BLOCKSIZE_MAX)) ZSTD_frame fhsize dictID checksumFlag)).

Definition ZSTD_getFrameHeader (src : list Z) : result header_status :=
  ZSTD_getFrameHeader_advanced src ZSTD_f_zstd1.

(** A caller that only looks at the [size_t]: errors become codes. *)
Definition observe_size (m : result Z) : result Z :=
  match m with
  | Err e => Ok (ERROR e)
  | r => r
  end.

Definition ZSTD_getFrameContentSize (src : list Z) : result Z :=
  match ZSTD_getFrameHeader src with
  | Stuck => Stuck
  | Err _ | Ok (Wanted _) => Ok ZSTD_CONTENTSIZE_ERROR
  | Ok (Filled zfh) =>
      if decide (frameType zfh = ZSTD_skippableFrame) then Ok 0
      else Ok (frameContentSize zfh)
  end.

Definition ZSTD_getDecompressedSize (src : list Z) : result Z :=
  let* ret := ZSTD_getFrameContentSize src in
  Ok (if ret >=? ZSTD_CONTENTSIZE_ERROR then 0 else ret).

(** *** Skippable frames *)

Definition readSkippableFrameSize (src : list Z) : result Z :=
  ERROR_IF zlen src <? ZSTD_SKIPPABLEHEADERSIZE THEN Errors.srcSize_wrong ;;
  let* sizeU32 := readLE32 src ZSTD_FRAMEIDSIZE in
  ERROR_IF u32 (sizeU32 + ZSTD_SKIPPABLEHEADERSIZE) <? sizeU32 THEN frameParameter_unsupported ;;
  let skippableSize := ZSTD_SKIPPABLEHEADERSIZE + sizeU32 in
  ERROR_IF skippableSize >? zlen src THEN Errors.srcSize_wrong ;;
  Ok skippableSize.

(** The destination, the size of the content, the magic variant. *)
Definition ZSTD_readSkippableFrame (dst src : list Z) : result (list Z * Z * Z) :=
  ERROR_IF zlen src <? ZSTD_SKIPPABLEHEADERSIZE THEN Errors.srcSize_wrong ;;
  let* magicNumber := readLE32 src 0 in
  let* skippableFrameSize := observe_size (readSkippableFrameSize src) in
  let skippableContentSize := u64 (skippableFrameSize - ZSTD_SKIPPABLEHEADERSIZE) in
  let* skippable := ZSTD_isSkippableFrame src in
  ERROR_IF negb skippable THEN frameParameter_unsupported ;;
  ERROR_IF (skippableFrameSize <? ZSTD_SKIPPABLEHEADERSIZE) || (skippableFrameSize >? zlen src)
    THEN Errors.srcSize_wrong ;;
  ERROR_IF skippableContentSize >? zlen dst THEN dstSize_tooSmall ;;
  let* dst := memcpy_at dst 0 (zsub src ZSTD_SKIPPABLEHEADERSIZE skippableContentSize) in
  Ok (dst, skippableContentSize, u32 (magicNumber - ZSTD_MAGIC_SKIPPABLE_START)).

Definition ZSTD_writeSkippableFrame (dst src : list Z) (magicVariant : Z) : result (list Z * Z) :=
  let srcSize := zlen src in
  ERROR_IF zlen dst <? u64 (srcSize + ZSTD_SKIPPABLEHEADERSIZE) THEN dstSize_tooSmall ;;
  ERROR_IF srcSize >? 0xFFFFFFFF THEN Errors.srcSize_wrong ;;
  ERROR_IF magicVariant >? 15 THEN parameter_outOfBound ;;
  let* dst := writeLE32 dst 0 (u32 (ZSTD_MAGIC_SKIPPABLE_START + magicVariant)) in
  let* dst := writeLE32 dst 4 (u32 srcSize) in
  let* dst := memcpy_at dst 8 src in
  Ok (dst, srcSize + ZSTD_SKIPPABLEHEADERSIZE).

(** *** Blocks *)

Inductive blockType_e := bt_raw | bt_rle | bt_compressed | bt_reserved.
#[global] Instance blockType_e_eq_dec : EqDecision blockType_e.
Proof. solve_decision. Defined.

Definition blockType_of (n : Z) : blockType_e :=
  if n =? 0 then bt_raw else if n =? 1 then bt_rle
  else if n =? 2 then bt_compressed else bt_reserved.
Definition blockType_code (b : blockType_e) : Z :=
  match b with bt_raw => 0 | bt_rle => 1 | bt_compressed => 2 | bt_reserved => 3 end.

Record blockProperties_t := mkBlockProperties {
  blockType : blockType_e;
  lastBlock : Z;
  origSize : Z;
}.

Definition ZSTD_getcBlockSize (src : list Z) : result (Z * blockProperties_t) :=
  ERROR_IF zlen src <? ZSTD_blockHeaderSize THEN Errors.srcSize_wrong ;;
  let* cBlockHeader := readLE24 src 0 in
  let cSize := Z.shiftr cBlockHeader 3 in
  let bp := mkBlockProperties (blockType_of (Z.shiftr cBlockHeader 1 .& 3)) (cBlockHeader .& 1) cSize in
  if decide (blockType bp = bt_rle) then Ok (1, bp)
  else
    ERROR_IF bool_decide (blockType bp = bt_reserved) THEN corruption_detected ;;
    Ok (cSize, bp).

(** [ZSTD_noCompressBlock]. *)
Definition ZSTD_noCompressBlock (dst src : list Z) (lastBlock : Z) : result (list Z * Z) :=
  let srcSize := zlen src in
  let cBlockHeader24 := u32 (lastBlock + Z.shiftl (blockType_code bt_raw) 1 + u32 (Z.shiftl srcSize 3)) in
  ERROR_IF srcSize + ZSTD_blockHeaderSize >? zlen dst THEN dstSize_tooSmall ;;
  let* dst := writeLE24 dst 0 cBlockHeader24 in
  let* dst := memcpy_at dst ZSTD_blockHeaderSize src in
  Ok (dst, ZSTD_blockHeaderSize + srcSize).

Definition ZSTD_rleCompressBlock (dst : list Z) (src srcSize lastBlock : Z) : result (list Z * Z) :=
  let cBlockHeader := u32 (lastBlock + Z.shiftl (blockType_code bt_rle) 1 + u32 (Z.shiftl srcSize 3)) in
  ERROR_IF zlen dst <? 4 THEN dstSize_tooSmall ;;
  let* dst := writeLE24 dst 0 cBlockHeader in
  let* dst := wr dst 3 src in
  Ok (dst, 4).

Definition ZSTD_writeLastEmptyBlock (dst : list Z) : result (list Z * Z) :=
  ERROR_IF zlen dst <? ZSTD_blockHeaderSize THEN dstSize_tooSmall ;;
  let cBlockHeader24 := 1 + Z.shiftl (blockType_code bt_raw) 1 in
  let* dst := writeLE24 dst 0 cBlockHeader24 in
  Ok (dst, ZSTD_blockHeaderSize).

(** [ZSTD_copyRawBlock] and [ZSTD_setRleBlock], into the start of [dst], a null
    pointer if [dst_null]. *)
Definition ZSTD_copyRawBlock (dst_null : bool) (dst src : list Z) : result (list Z * Z) :=
  ERROR_IF zlen src >? zlen dst THEN dstSize_tooSmall ;;
  if dst_null then (if zlen src =? 0 then Ok (dst, 0) else Err dstBuffer_null) else
  let* dst := memcpy_at dst 0 src in
  Ok (dst, zlen src).

Definition ZSTD_setRleBlock (dst_null : bool) (dst : list Z) (b regenSize : Z) : result (list Z * Z) :=
  ERROR_IF regenSize >? zlen dst THEN dstSize_tooSmall ;;
  if dst_null then (if regenSize =? 0 then Ok (dst, 0) else Err dstBuffer_null) else
  let* dst := memcpy_at dst 0 (zfill regenSize b) in
  Ok (dst, regenSize).

(** *** Walking over frames *)

(** [compressedSize] is a [size_t] that may be an error code. *)
Record ZSTD_frameSizeInfo := mkFrameSizeInfo {
  nbBlocks : Z;
  compressedSize : Z;
  decompressedBound : Z;
}.

Definition ZSTD_errorFrameSizeInfo (e : ZSTD_ErrorCode) : ZSTD_frameSizeInfo :=
  mkFrameSizeInfo 0 (ERROR e) ZSTD_CONTENTSIZE_ERROR.

(** The loop over the blocks: the position and the number of blocks. *)
Definition iterate_blocks (src : list Z) (ip : Z) : result (Z * Z) :=
  loop_ (S (length src)) (fun '(ip, nbBlocks) =>
    let remainingSize := zlen src - ip in
    let* '(cBlockSize, bp) := ZSTD_getcBlockSize (zsub src ip remainingSize) in
    ERROR_IF ZSTD_blockHeaderSize + cBlockSize >? remainingSize THEN Errors.srcSize_wrong ;;
    let ip := ip + (ZSTD_blockHeaderSize + cBlockSize) in
    let nbBlocks := nbBlocks + 1 in
    if negb (lastBlock bp =? 0) then Ok (Break (ip, nbBlocks))
    else Ok (Continue (ip, nbBlocks))) (ip, 0).

(** The branch of a frame that is not skippable; an error makes the whole
    information an error. *)
Definition frameSizeInfo_frame (src : list Z) (format : ZSTD_format_e) : result ZSTD_frameSizeInfo :=
  let* st := ZSTD_getFrameHeader_advanced src format in
  match st with
  | Wanted _ => Err Errors.srcSize_wrong
  | Filled zfh =>
      let* '(ip, nbBlocks) := iterate_blocks src (headerSize zfh) in
      let remainingSize := zlen src - ip in
      ERROR_IF negb (checksumFlag zfh =? 0) && (remainingSize <? 4) THEN Errors.srcSize_wrong ;;
      let ip := if negb (checksumFlag zfh =? 0) then ip + 4 else ip in
      Ok (mkFrameSizeInfo nbBlocks ip
            (if negb (frameContentSize zfh =? ZSTD_CONTENTSIZE_UNKNOWN) then frameContentSize zfh
             else u64 (nbBlocks * blockSizeMax zfh)))
  end.

Definition ZSTD_findFrameSizeInfo (src : list Z) (format : ZSTD_format_e)
  : result ZSTD_frameSizeInfo :=
  let* skippable :=
    (if bool_decide (format = ZSTD_f_zstd1) && (zlen src >=? ZSTD_SKIPPABLEHEADERSIZE) then
       let* magic := readLE32 src 0 in Ok (is_skippable_magic magic)
     else Ok false) in
  if skippable then
    let* compressedSize := observe_size (readSkippableFrameSize src) in
    Ok (mkFrameSizeInfo 0 compressedSize 0)
  else
    match frameSizeInfo_frame src format with
    | Err e => Ok (ZSTD_errorFrameSizeInfo e)
    | r => r
    end.

Definition ZSTD_findFrameCompressedSize (src : list Z) : result Z :=
  let* info := ZSTD_findFrameSizeInfo src ZSTD_f_zstd1 in
  Ok (compressedSize info).

Definition ZSTD_decompressBound (src : list Z) : result Z :=
  loop_ (S (length src)) (fun '(src, bound) =>
    if zlen src >? 0 then
      let* info := ZSTD_findFrameSizeInfo src ZSTD_f_zstd1 in
      if ERR_isError (compressedSize info) || (decompressedBound info =? ZSTD_CONTENTSIZE_ERROR)
      then Ok (Break ZSTD_CONTENTSIZE_ERROR)
      else
        REQUIRE compressedSize info <=? zlen src ;;
        Ok (Continue (drop (Z.to_nat (compressedSize info)) src,
                      u64 (bound + decompressedBound info)))
    else Ok (Break bound)) (src, 0).

Definition ZSTD_findDecompressedSize (src : list Z) : result Z :=
  loop_ (S (length src)) (fun '(src, totalDstSize) =>
    if zlen src >=? ZSTD_startingInputLength ZSTD_f_zstd1 then
      let* magicNumber := readLE32 src 0 in
      if is_skippable_magic magicNumber then
        let* skippableSize := observe_size (readSkippableFrameSize src) in
        if ERR_isError skippableSize then Ok (Break ZSTD_CONTENTSIZE_ERROR)
        else
          REQUIRE skippableSize <=? zlen src ;;
          Ok (Continue (drop (Z.to_nat skippableSize) src, totalDstSize))
      else
        let* fcs := ZSTD_getFrameContentSize src in
        if fcs >=? ZSTD_CONTENTSIZE_ERROR then Ok (Break fcs)
        else if u64 (totalDstSize + fcs) <? totalDstSize then Ok (Break ZSTD_CONTENTSIZE_ERROR)
        else
          let totalDstSize := u64 (totalDstSize + fcs) in
          let* frameSrcSize := ZSTD_findFrameCompressedSize src in
          if ERR_isError frameSrcSize then Ok (Break ZSTD_CONTENTSIZE_ERROR)
          else
            REQUIRE frameSrcSize <=? zlen src ;;
            Ok (Continue (drop (Z.to_nat frameSrcSize) src, totalDstSize))
    else if negb (zlen src =? 0) then Ok (Break ZSTD_CONTENTSIZE_ERROR)
    else Ok (Break totalDstSize)) (src, 0).

Definition ZSTD_decompressionMargin (src : list Z) : result Z :=
  let* '(margin, maxBlockSize) :=
    loop_ (S (length src)) (fun '(src, margin, maxBlockSize) =>
      if zlen src >? 0 then
        let* info := ZSTD_findFrameSizeInfo src ZSTD_f_zstd1 in
        let* st := ZSTD_getFrameHeader src in
        ERROR_IF ERR_isError (compressedSize info)
                 || (decompressedBound info =? ZSTD_CONTENTSIZE_ERROR) THEN corruption_detected ;;
        match st with
        | Wanted _ => Stuck
        | Filled zfh =>
            let '(margin, maxBlockSize) :=
              if decide (frameType zfh = ZSTD_frame) then
                (u64 (margin + headerSize zfh + (if negb (checksumFlag zfh =? 0) then 4 else 0)
                      + 3 * nbBlocks info), Z.max maxBlockSize (blockSizeMax zfh))
              else (u64 (margin + compressedSize info), maxBlockSize) in
            REQUIRE compressedSize info <=? zlen src ;;
            Ok (Continue (drop (Z.to_nat (compressedSize info)) src, margin, maxBlockSize))
        end
      else Ok (Break (margin, maxBlockSize))) (src, 0, 0) in
  Ok (u64 (margin + maxBlockSize)).

(** *** Writing a frame header *)

Record ZSTD_frameParameters := mkFrameParams {
  contentSizeFlag : bool;
  fp_checksumFlag : bool;
  noDictIDFlag : bool;
}.

(** [ZSTD_writeFrameHeader], of the parameters it reads: the format, the frame
    parameters and [windowLog]. *)
Definition ZSTD_writeFrameHeader (dst : list Z) (format : ZSTD_format_e)
    (fParams : ZSTD_frameParameters) (windowLog pledgedSrcSize dictID : Z) : result (list Z * Z) :=
  let dictIDSizeCodeLength := b2z (dictID >? 0) + b2z (dictID >=? 256) + b2z (dictID >=? 65536) in
  let dictIDSizeCode := if noDictIDFlag fParams then 0 else dictIDSizeCodeLength in
  let checksumFlag := b2z (fp_checksumFlag fParams) in
  let windowSize := u32 (Z.shiftl 1 windowLog) in
  let singleSegment := b2z (contentSizeFlag fParams && (windowSize >=? pledgedSrcSize)) in
  let windowLogByte := u8 (Z.shiftl (u32 (windowLog - ZSTD_WINDOWLOG_ABSOLUTEMIN)) 3) in
  let fcsCode :=
    if contentSizeFlag fParams then
      b2z (pledgedSrcSize >=? 256) + b2z (pledgedSrcSize >=? 65536 + 256)
      + b2z (pledgedSrcSize >=? 0xFFFFFFFF)
    else 0 in
  let frameHeaderDescriptionByte :=
    u8 (dictIDSizeCode + Z.shiftl checksumFlag 2 + Z.shiftl singleSegment 5 + Z.shiftl fcsCode 6) in
  ERROR_IF zlen dst <? ZSTD_FRAMEHEADERSIZE_MAX THEN dstSize_tooSmall ;;
  let* '(dst, pos) :=
    (if decide (format = ZSTD_f_zstd1) then
       let* dst := writeLE32 dst 0 ZSTD_MAGICNUMBER in Ok (dst, 4)
     else Ok (dst, 0)) in
  let* dst := wr dst pos frameHeaderDescriptionByte in
  let pos := pos + 1 in
  let* '(dst, pos) :=
    (if singleSegment =? 0 then let* dst := wr dst pos windowLogByte in Ok (dst, pos + 1)
     else Ok (dst, pos)) in
  let* '(dst, pos) :=
    (if dictIDSizeCode =? 0 then Ok (dst, pos)
     else if dictIDSizeCode =? 1 then let* dst := wr dst pos (u8 dictID) in Ok (dst, pos + 1)
     else if dictIDSizeCode =? 2 then
       let* dst := writeLE16 dst pos (u16 dictID) in Ok (dst, pos + 2)
     else let* dst := writeLE32 dst pos dictID in Ok (dst, pos + 4)) in
  let* '(dst, pos) :=
    (if fcsCode =? 0 then
       if negb (singleSegment =? 0) then
         let* dst := wr dst pos (u8 pledgedSrcSize) in Ok (dst, pos + 1)
       else Ok (dst, pos)
     else if fcsCode =? 1 then
       let* dst := writeLE16 dst pos (u16 (pledgedSrcSize - 256)) in Ok (dst, pos + 2)
     else if fcsCode =? 2 then
       let* dst := writeLE32 dst pos (u32 pledgedSrcSize) in Ok (dst, pos + 4)
     else let* dst := writeLE64 dst pos (u64 pledgedSrcSize) in Ok (dst, pos + 8)) in
  Ok (dst, pos).
