(* ===== verification/MatchBase.v ===== *)
(** What the match finders share (compress/zstd_compress_internal.h): the window, the length
    of a match, the hashes of the next bytes, and the store of sequences while it is
    filled. *)

From S2P Require Import Prelude Errors Outcome Bits Mem Wire FseTable FseBuild LzCopy ExecSequence SeqTables SeqDecode SeqEncode SeqRoundtrip Frame.

(** ** Definitions *)

(** *** The match state *)

(** [ZSTD_compressionParameters]; the strategy is a number. *)
Record ZSTD_compressionParameters := mkCParams {
  cp_windowLog : Z;
  cp_chainLog : Z;
  cp_hashLog : Z;
  cp_searchLog : Z;
  cp_minMatch : Z;
  cp_targetLength : Z;
  cp_strategy : Z;
}.

(** The fields of [ZSTD_MatchState_t] that the finders without dictionary use. Indices are
    relative to [window.base]. *)
Record ZSTD_MatchState_t := mkMatchState {
  ms_dictLimit : Z;
  ms_loadedDictEnd : Z;
  ms_hashTable : list Z;
  ms_chainTable : list Z;
  ms_cParams : ZSTD_compressionParameters;
}.
Definition set_hashTable (ms : ZSTD_MatchState_t) (t : list Z) : ZSTD_MatchState_t :=
  mkMatchState (ms_dictLimit ms) (ms_loadedDictEnd ms) t (ms_chainTable ms) (ms_cParams ms).
Definition set_tables (ms : ZSTD_MatchState_t) (t c : list Z) : ZSTD_MatchState_t :=
  mkMatchState (ms_dictLimit ms) (ms_loadedDictEnd ms) t c (ms_cParams ms).

Definition ZSTD_getLowestPrefixIndex (ms : ZSTD_MatchState_t) (curr windowLog : Z) : Z :=
  let maxDistance := u32 (Z.shiftl 1 windowLog) in
  let lowestValid := ms_dictLimit ms in
  let withinWindow := if u32 (curr - lowestValid) >? maxDistance then u32 (curr - maxDistance) else lowestValid in
  let isDictionary := negb (ms_loadedDictEnd ms =? 0) in
  if isDictionary then lowestValid else withinWindow.

Definition HASH_READ_SIZE : Z := 8.
Definition kSearchStrength : Z := 8.

(** *** Reading the window *)

(** The window holds [src] from the index [lo] on; what is before is not read. *)
Section window.
Context (MEM_isLittleEndian : bool) (src : list Z) (lo : Z).

Definition win8 (p : Z) : result Z := rd src (p - lo).
Definition win16 (p : Z) : result Z := MEM_read16 MEM_isLittleEndian src (p - lo).
Definition win32 (p : Z) : result Z := MEM_read32 MEM_isLittleEndian src (p - lo).
Definition winST (p : Z) : result Z := MEM_readST MEM_isLittleEndian true src (p - lo).
Definition winLE32 (p : Z) : result Z := MEM_readLE32 MEM_isLittleEndian src (p - lo).
Definition winLE64 (p : Z) : result Z := MEM_readLE64 MEM_isLittleEndian src (p - lo).

Definition same8 (p m : Z) : result bool := let* a := win8 p in let* b := win8 m in Ok (a =? b).
Definition same16 (p m : Z) : result bool := let* b := win16 m in let* a := win16 p in Ok (b =? a).
Definition same32 (p m : Z) : result bool := let* b := win32 m in let* a := win32 p in Ok (b =? a).

(** The last bytes, fewer than 8, from [pIn] on: 4, 2 and 1 at a time. *)
Definition count_tail (pIn pMatch pInLimit : Z) : result Z :=
  let* c4 := (if pIn <? pInLimit - 3 then same32 pIn pMatch else Ok false) in
  let '(pIn, pMatch) := if c4 : bool then (pIn + 4, pMatch + 4) else (pIn, pMatch) in
  let* c2 := (if pIn <? pInLimit - 1 then same16 pIn pMatch else Ok false) in
  let '(pIn, pMatch) := if c2 : bool then (pIn + 2, pMatch + 2) else (pIn, pMatch) in
  let* c1 := (if pIn <? pInLimit then same8 pMatch pIn else Ok false) in
  Ok (if c1 : bool then pIn + 1 else pIn).

(** A word of both, and how many bytes are the same if not all. *)
Definition count_word (pIn pMatch : Z) : result (option Z) :=
  let* a := winST pMatch in
  let* b := winST pIn in
  let diff := Z.lxor a b in
  Ok (if diff =? 0 then None else Some (ZSTD_NbCommonBytes MEM_isLittleEndian true diff)).

Definition ZSTD_count (pIn pMatch pInLimit : Z) : result Z :=
  let pStart := pIn in
  let pInLoopLimit := pInLimit - 7 in
  let* r := loop_ (S (Z.to_nat (pInLimit - pIn))) (fun '(pIn, pMatch) =>
    if pIn <? pInLoopLimit then
      let* c := count_word pIn pMatch in
      match c with
      | None => Ok (Continue (pIn + 8, pMatch + 8))
      | Some n => Ok (Break (inl (pIn + n)))
      end
    else Ok (Break (inr (pIn, pMatch)))) (pIn, pMatch) in
  match r with
  | inl pIn => Ok (pIn - pStart)
  | inr (pIn, pMatch) => let* pIn := count_tail pIn pMatch pInLimit in Ok (pIn - pStart)
  end.

(** The length of a match backwards, down to the anchor and the start of the prefix: the position, the
    match and the length. *)
Definition count_back (ip match_ anchor lowest mLength : Z) : result (Z * Z * Z) :=
  loop_ (S (Z.to_nat (ip - anchor))) (fun '(ip, match_, mLength) =>
    if (ip >? anchor) && (match_ >? lowest) then
      let* c := same8 (ip - 1) (match_ - 1) in
      Ok (if c then Continue (ip - 1, match_ - 1, mLength + 1) else Break (ip, match_, mLength))
    else Ok (Break (ip, match_, mLength))) (ip, match_, mLength).

(** *** Hashes *)

Definition prime4bytes : Z := 2654435761.
Definition prime5bytes : Z := 889523592379.
Definition prime6bytes : Z := 227718039650203.
Definition prime7bytes : Z := 58295818150454627.
Definition prime8bytes : Z := 0xCF1BBCDCB7A56463.

Definition ZSTD_hash4 (u h s : Z) : Z := Z.shiftr (Z.lxor (u32 (u * prime4bytes)) s) (32 - h).
Definition ZSTD_hash5 (u h s : Z) : Z := Z.shiftr (Z.lxor (u64 (u64 (Z.shiftl u (64 - 40)) * prime5bytes)) s) (64 - h).
Definition ZSTD_hash6 (u h s : Z) : Z := Z.shiftr (Z.lxor (u64 (u64 (Z.shiftl u (64 - 48)) * prime6bytes)) s) (64 - h).
Definition ZSTD_hash7 (u h s : Z) : Z := Z.shiftr (Z.lxor (u64 (u64 (Z.shiftl u (64 - 56)) * prime7bytes)) s) (64 - h).
Definition ZSTD_hash8 (u h s : Z) : Z := Z.shiftr (Z.lxor (u64 (u * prime8bytes)) s) (64 - h).
Definition ZSTD_hash4Ptr (p h : Z) : result Z := let* u := winLE32 p in Ok (ZSTD_hash4 u h 0).
Definition ZSTD_hash5Ptr (p h : Z) : result Z := let* u := winLE64 p in Ok (ZSTD_hash5 u h 0).
Definition ZSTD_hash6Ptr (p h : Z) : result Z := let* u := winLE64 p in Ok (ZSTD_hash6 u h 0).
Definition ZSTD_hash7Ptr (p h : Z) : result Z := let* u := winLE64 p in Ok (ZSTD_hash7 u h 0).
Definition ZSTD_hash8Ptr (p h : Z) : result Z := let* u := winLE64 p in Ok (ZSTD_hash8 u h 0).

Definition ZSTD_hashPtr (p hBits mls : Z) : result Z :=
  if mls =? 5 then ZSTD_hash5Ptr p hBits
  else if mls =? 6 then ZSTD_hash6Ptr p hBits
  else if mls =? 7 then ZSTD_hash7Ptr p hBits
  else if mls =? 8 then ZSTD_hash8Ptr p hBits
  else ZSTD_hash4Ptr p hBits.

(** *** The store *)

(** The store while it is filled: the sequences, of which there is room for [maxNbSeq], the memory
    of the literals, of which the first [sw_lit] are stored, and the long length. *)
Record seq_writer := mkWriter {
  sw_sequences : list SeqDef;
  sw_maxNbSeq : Z;
  sw_litStart : list Z;
  sw_lit : Z;
  sw_longLengthType : ZSTD_longLengthType_e;
  sw_longLengthPos : Z;
}.

Definition ZSTD_resetSeqStore (w : seq_writer) : seq_writer :=
  mkWriter [] (sw_maxNbSeq w) (sw_litStart w) 0 ZSTD_llt_none (sw_longLengthPos w).

Definition set_lit (w : seq_writer) (litStart : list Z) (lit : Z) : seq_writer :=
  mkWriter (sw_sequences w) (sw_maxNbSeq w) litStart lit (sw_longLengthType w) (sw_longLengthPos w).

Definition ZSTD_storeSeqOnly (w : seq_writer) (litLength offBase matchLength : Z) : result seq_writer :=
  let n := zlen (sw_sequences w) in
  REQUIRE n <? sw_maxNbSeq w ;;
  let '(type, pos) :=
    if litLength >? 0xFFFF then (ZSTD_llt_literalLength, u32 n) else (sw_longLengthType w, sw_longLengthPos w) in
  let mlBase := u64 (matchLength - MINMATCH) in
  let '(type, pos) := if mlBase >? 0xFFFF then (ZSTD_llt_matchLength, u32 n) else (type, pos) in
  Ok (mkWriter (sw_sequences w ++ [mkSeqDef offBase (u16 litLength) (u16 mlBase)]) (sw_maxNbSeq w) (sw_litStart w) (sw_lit w) type pos).

Definition REPCODE1_TO_OFFBASE : Z := 1.
Definition OFFSET_TO_OFFBASE (o : Z) : Z := u32 (o + ZSTD_REP_NUM).

Definition win_ptr (p : Z) : src_ptr := In_buf src (p - lo).

Definition ZSTD_safecopyLiterals (d : list Z) (op ip iend ilimit_w : Z) : result (list Z) :=
  let* '(d, op, ip) :=
    (if ip <=? ilimit_w then
       let* d := ZSTD_wildcopy d op (win_ptr ip) (ilimit_w - ip) ZSTD_no_overlap in
       Ok (d, op + (ilimit_w - ip), ilimit_w)
     else Ok (d, op, ip)) in
  copy_bytes (op + (iend - ip)) d op (win_ptr ip).

Definition ZSTD_storeSeq (w : seq_writer) (litLength literals litLimit offBase matchLength : Z) : result seq_writer :=
  let litLimit_w := litLimit - WILDCOPY_OVERLENGTH in
  let litEnd := literals + litLength in
  let* d :=
    (if litEnd <=? litLimit_w then
       (* Common case we can use wildcopy *)
       let* d := ZSTD_copy16 (sw_litStart w) (sw_lit w) (win_ptr literals) in
       if litLength >? 16 then ZSTD_wildcopy d (sw_lit w + 16) (win_ptr (literals + 16)) (litLength - 16) ZSTD_no_overlap else Ok d
     else ZSTD_safecopyLiterals (sw_litStart w) (sw_lit w) literals litEnd litLimit_w) in
  ZSTD_storeSeqOnly (set_lit w d (sw_lit w + litLength)) litLength offBase matchLength.

Definition ZSTD_storeLastLiterals (w : seq_writer) (anchor lastLLSize : Z) : result seq_writer :=
  let* d := memcpy (sw_litStart w) (sw_lit w) (win_ptr anchor) lastLLSize in
  Ok (set_lit w d (sw_lit w + lastLLSize)).
End window.

(** The store that is handed to the encoder of sequences, with the memory of its codes. *)
Definition store_of (w : seq_writer) (llCode ofCode mlCode : list Z) : SeqStore_t :=
  mkSeqStore (sw_sequences w) (zsub (sw_litStart w) 0 (sw_lit w)) llCode ofCode mlCode (sw_longLengthType w) (sw_longLengthPos w).

(** ** Lemmas *)

(** *** The first byte that differs *)

Lemma lxor_split u u' v w s :
  0 <= s -> 0 <= u < 2 ^ s -> 0 <= u' < 2 ^ s -> Z.lxor (u + 2 ^ s * v) (u' + 2 ^ s * w) = Z.lxor u u' + 2 ^ s * Z.lxor v w.
Proof.
  intros Hs Hu Hu'. assert (forall x y, 0 <= x < 2 ^ s -> x + 2 ^ s * y = Z.lor x (Z.shiftl y s)) as E.
  { intros x y Hx. rewrite lor_shiftl_add by lia. lia. }
  assert (0 <= Z.lxor u u' < 2 ^ s) as Hx.
  { split; [by apply Z.lxor_nonneg; split; lia|]. destruct (Z.eq_dec (Z.lxor u u') 0) as [->|Hne]; [by apply pow2_pos|].
    assert (0 <= Z.lxor u u') by (apply Z.lxor_nonneg; split; lia). apply Z.log2_lt_pow2; [lia|].
    destruct (Z.eq_dec s 0) as [->|]; [assert (u = 0 /\ u' = 0) as [-> ->] by (cbn in *; lia); done|].
    eapply Z.le_lt_trans; [by apply Z.log2_lxor; lia|]. apply Z.max_lub_lt.
    - destruct (Z.eq_dec u 0) as [->|]; [cbn; lia|]. apply Z.log2_lt_pow2; lia.
    - destruct (Z.eq_dec u' 0) as [->|]; [cbn; lia|]. apply Z.log2_lt_pow2; lia. }
  rewrite !E by done. apply Z.bits_inj'. intros i Hi. rewrite Z.lxor_spec, !Z.lor_spec, Z.lxor_spec, !Z.shiftl_spec, Z.lxor_spec by done.
  destruct (Z.ltb_spec i s).
  - rewrite !(Z.testbit_neg_r _ (i - s)) by lia. by rewrite !orb_false_r.
  - rewrite !(testbit_high _ s i) by lia. done.
Qed.

Lemma first_difference (a b : list Z) :
  length a = length b -> a <> b -> exists c x y a' b', a = c ++ x :: a' /\ b = c ++ y :: b' /\ x <> y.
Proof.
  revert b. induction a as [|x a IH]; intros [|y b] Hl Hne; try done. destruct (decide (x = y)) as [->|Hxy].
  - destruct (IH b) as (c & x' & y' & a' & b' & -> & -> & H'); [by injection Hl|congruence|]. by exists (y :: c), x', y', a', b'.
  - by exists [], x, y, a, b.
Qed.

Lemma byte_lxor x y : is_byte x -> is_byte y -> x <> y -> 0 < Z.lxor x y < 2 ^ 8.
Proof.
  intros Hx Hy Hne. unfold is_byte in *. assert (0 <= Z.lxor x y) by (apply Z.lxor_nonneg; split; lia).
  assert (Z.lxor x y <> 0) by (by intros E%Z.lxor_eq). split; [lia|]. apply Z.log2_lt_pow2; [lia|].
  eapply Z.le_lt_trans; [apply Z.log2_lxor; lia|]. apply Z.max_lub_lt.
  - destruct (Z.eq_dec x 0) as [->|]; [done|]. apply Z.log2_lt_pow2; lia.
  - destruct (Z.eq_dec y 0) as [->|]; [done|]. apply Z.log2_lt_pow2; lia.
Qed.

Lemma NbCommonBytes_le c x y A B :
  bytes_ok c -> is_byte x -> is_byte y -> x <> y -> zlen c < 8 ->
  0 <= le_val c + 2 ^ (8 * zlen c) * (x + 256 * A) < 2 ^ 64 -> 0 <= le_val c + 2 ^ (8 * zlen c) * (y + 256 * B) < 2 ^ 64 ->
  ZSTD_NbCommonBytes true true (Z.lxor (le_val c + 2 ^ (8 * zlen c) * (x + 256 * A)) (le_val c + 2 ^ (8 * zlen c) * (y + 256 * B))) = zlen c.
Proof.
  intros Hc Hx Hy Hne Hl HA HB. pose proof (zlen_nonneg c). pose proof (le_val_range c Hc). set (s := 8 * zlen c) in *.
  rewrite lxor_split, Z.lxor_nilpotent by lia. rewrite Z.add_0_l. pose proof (byte_lxor x y Hx Hy Hne) as Hxy.
  change 256 with (2 ^ 8). rewrite lxor_split by (unfold is_byte in *; lia). set (z := Z.lxor A B). set (v := 2 ^ s * _).
  assert (0 < v < 2 ^ 64) as Hv.
  { assert (v = Z.lxor (le_val c + 2 ^ s * (x + 256 * A)) (le_val c + 2 ^ s * (y + 256 * B))) as E.
    { rewrite lxor_split, Z.lxor_nilpotent, Z.add_0_l by lia. unfold v. change 256 with (2 ^ 8). by rewrite lxor_split by (unfold is_byte in *; lia). }
    assert (v <> 0) as Hv0.
    { unfold v. pose proof (pow2_pos s ltac:(lia)). intros E0. apply Z.mul_eq_0 in E0 as [E0|E0]; [lia|].
      assert ((Z.lxor x y + 2 ^ 8 * z) mod 2 ^ 8 = Z.lxor x y) as Em by (rewrite Z.mul_comm, Z.mod_add, Z.mod_small; lia). rewrite E0 in Em. change (0 mod 2 ^ 8) with 0 in Em. lia. }
    assert (0 <= v) by (rewrite E; apply Z.lxor_nonneg; split; lia). split; [lia|]. apply Z.log2_lt_pow2; [lia|]. rewrite E.
    eapply Z.le_lt_trans; [apply Z.log2_lxor; lia|]. apply Z.max_lub_lt; match goal with |- Z.log2 ?t < _ => destruct (Z.eq_dec t 0) as [->|]; [done|apply Z.log2_lt_pow2; lia] end. }
  unfold ZSTD_NbCommonBytes. destruct (ctz64_spec v Hv) as (Hk & Ht & Hf). set (k := ZSTD_countTrailingZeros64 v) in *.
  assert (s <= k) as Hsk.
  { destruct (Z.lt_ge_cases k s) as [Hlt|]; [|done]. assert (Z.testbit v k = false) as Ef; [|by rewrite Ef in Ht].
    unfold v. rewrite Z.mul_comm, <- Z.shiftl_mul_pow2, Z.shiftl_spec_low by lia. done. }
  assert (k < s + 8) as Hk8.
  { destruct (Z.lt_ge_cases k (s + 8)) as [|Hge]; [done|]. exfalso. assert (Z.lxor x y = 0) as E0; [|lia].
    apply Z.bits_inj'. intros i Hi. rewrite Z.bits_0. destruct (Z.ltb_spec i 8).
    - rewrite <- (Hf (s + i)) by lia. unfold v. rewrite (Z.mul_comm (2 ^ s)), <- Z.shiftl_mul_pow2, Z.shiftl_spec by lia. replace (s + i - s) with i by lia.
      rewrite (Z.mul_comm (2 ^ 8)), <- lor_shiftl_add by lia. rewrite Z.lor_spec, (Z.shiftl_spec_low z 8 i) by lia. by rewrite orb_false_r.
    - apply (testbit_high _ 8); lia. }
  rewrite Z.shiftr_div_pow2 by lia. unfold s in *. zdm.
Qed.

Lemma NbCommonBytes_be a b x y C t :
  bytes_ok a -> bytes_ok b -> zlen a = t -> zlen b = t -> t < 8 -> is_byte x -> is_byte y -> x <> y ->
  ZSTD_NbCommonBytes false true (Z.lxor (le_val a + 2 ^ (8 * t) * (x + 256 * C)) (le_val b + 2 ^ (8 * t) * (y + 256 * C))) = 7 - t.
Proof.
  intros Ha Hb Ea Eb Ht Hx Hy Hne. pose proof (zlen_nonneg a). pose proof (le_val_range a Ha) as Hva. pose proof (le_val_range b Hb) as Hvb. rewrite Ea in Hva. rewrite Eb in Hvb.
  rewrite lxor_split by lia. pose proof (byte_lxor x y Hx Hy Hne) as Hxy.
  change 256 with (2 ^ 8). rewrite lxor_split, Z.lxor_nilpotent, Z.mul_0_r, Z.add_0_r by (unfold is_byte in *; lia).
  set (u := Z.lxor (le_val a) (le_val b)). set (v := Z.lxor x y) in *.
  assert (0 <= u < 2 ^ (8 * t)) as Hu.
  { split; [apply Z.lxor_nonneg; split; lia|]. destruct (Z.eq_dec u 0) as [->|Hu0]; [apply pow2_pos; lia|].
    assert (0 <= u) by (apply Z.lxor_nonneg; split; lia). apply Z.log2_lt_pow2; [lia|]. destruct (Z.eq_dec t 0) as [->|]; [assert (le_val a = 0 /\ le_val b = 0) as [E1 E2] by (cbn in *; lia); unfold u in Hu0; by rewrite E1, E2 in Hu0|].
    eapply Z.le_lt_trans; [apply Z.log2_lxor; lia|].
    apply Z.max_lub_lt; match goal with |- Z.log2 ?t < _ => destruct (Z.eq_dec t 0) as [->|]; [cbn; lia|apply Z.log2_lt_pow2; lia] end. }
  assert (0 <= Z.log2 v < 8) as Hlv by (split; [apply Z.log2_nonneg|apply Z.log2_lt_pow2; lia]). set (e := Z.log2 v) in *.
  pose proof (Z.log2_spec v ltac:(lia)) as Hv. fold e in Hv. rewrite <- Z.add_1_r in Hv. pose proof (pow2_pos (8 * t) ltac:(lia)).
  assert (Z.log2 (u + 2 ^ (8 * t) * v) = 8 * t + e) as El.
  { apply Z.log2_unique; [lia|]. rewrite <- Z.add_1_r, <- Z.add_assoc, !pow2_add by lia. split; [nia|]. rewrite pow2_add in Hv by lia. nia. }
  assert (0 < u + 2 ^ (8 * t) * v < 2 ^ 64) as Hr.
  { split; [nia|]. apply Z.log2_lt_pow2; [nia|]. lia. }
  unfold ZSTD_NbCommonBytes. rewrite clz64_spec, El by done. rewrite Z.shiftr_div_pow2 by lia. zdm.
Qed.

(** The number of bytes that two words have in common. *)
Lemma common_bytes le a b :
  bytes_ok a -> bytes_ok b -> zlen a = 8 -> zlen b = 8 -> a <> b ->
  let n := ZSTD_NbCommonBytes le true (Z.lxor (native_val le a) (native_val le b)) in
  0 <= n < 8 /\ zsub a 0 n = zsub b 0 n /\ zat a n <> zat b n.
Proof.
  intros Ha Hb Hla Hlb Hne n. destruct (first_difference a b) as (c & x & y & a' & b' & -> & -> & Hxy); [unfold zlen in *; lia|done|].
  apply Forall_app in Ha as [Hc Ha]. apply Forall_app in Hb as [_ Hb]. apply Forall_cons in Ha as [Hx Ha]. apply Forall_cons in Hb as [Hy Hb].
  rewrite zlen_app in Hla, Hlb. assert (zlen (x :: a') = 1 + zlen a' /\ zlen (y :: b') = 1 + zlen b') as [E1 E2] by (unfold zlen; cbn; lia).
  pose proof (zlen_nonneg c). pose proof (zlen_nonneg a').
  assert (n = zlen c) as ->.
  { unfold n. destruct le.
    - unfold native_val.
      assert (forall x a', bytes_ok (c ++ x :: a') -> zlen (c ++ x :: a') = 8 -> 0 <= le_val c + 2 ^ (8 * zlen c) * (x + 256 * le_val a') < 2 ^ 64) as Hr.
      { intros x0 a0 Hx0 E0. pose proof (le_val_range _ Hx0) as Hr. rewrite E0, le_val_app in Hr. exact Hr. }
      rewrite !le_val_app. cbn [le_val]. apply NbCommonBytes_le; try done; [lia| |]; apply Hr; rewrite ?zlen_app; try lia; apply Forall_app; (split; [done|]); by apply Forall_cons.
    - unfold native_val, be_val. rewrite !reverse_app, !reverse_cons, <- !app_assoc, !le_val_app. cbn [app le_val].
      assert (zlen (reverse a') = zlen a' /\ zlen (reverse b') = zlen a') as [E3 E4] by (unfold zlen in *; rewrite !length_reverse; lia).
      assert (forall z, le_val [z] = z) as E5 by (intros z; change (z + 256 * 0 = z); lia). rewrite E3, E4, !E5. rewrite NbCommonBytes_be; try done; try (by apply bytes_ok_reverse); lia. }
  split; [lia|]. split.
  - transitivity c; [|symmetry]; apply (zsub_mid [] c); done.
  - by rewrite !zat_app_r, Z.sub_diag, !zat_cons_0 by lia.
Qed.

(** *** Reads of the window *)

Section window.
Context (le : bool) (src : list Z) (lo : Z).
Hypothesis Hsrc : bytes_ok src.
Notation hi := (lo + zlen src).
Notation win8 := (win8 src lo).
Notation win32 := (win32 le src lo).

(** The byte at an index. *)
Definition wat (p : Z) : Z := zat src (p - lo).
Definition agree (p m n : Z) : Prop := forall j, 0 <= j < n -> wat (p + j) = wat (m + j).

Lemma wat_byte p : lo <= p < hi -> is_byte (wat p).
Proof. intros Hp. apply bytes_ok_zat; [done|lia]. Qed.

Lemma agree_0 p m : agree p m 0.
Proof. intros j Hj. lia. Qed.
Lemma agree_app p m a b : 0 <= a -> agree p m a -> agree (p + a) (m + a) b -> agree p m (a + b).
Proof.
  intros Ha H1 H2 j Hj. destruct (Z.ltb_spec j a); [apply H1; lia|]. replace (p + j) with (p + a + (j - a)) by lia. replace (m + j) with (m + a + (j - a)) by lia. apply H2. lia.
Qed.
Lemma agree_le p m a b : agree p m a -> b <= a -> agree p m b.
Proof. intros H Hb j Hj. apply H. lia. Qed.

Lemma native_val_inj a b : bytes_ok a -> bytes_ok b -> zlen a = zlen b -> native_val le a = native_val le b -> a = b.
Proof.
  intros Ha Hb Hl E. unfold zlen in Hl. unfold native_val, be_val in E. destruct le; [apply le_val_inj; done || lia|].
  apply (inj reverse). apply le_val_inj; try by apply bytes_ok_reverse. rewrite !length_reverse. lia. done.
Qed.

Lemma zsub_agree p m n : lo <= p -> lo <= m -> 0 <= n -> p + n <= hi -> m + n <= hi ->
  zsub src (p - lo) n = zsub src (m - lo) n <-> agree p m n.
Proof.
  intros Hp Hm Hn Hp' Hm'. unfold agree, wat. split.
  - intros E j Hj. replace (p + j - lo) with (p - lo + j) by lia. replace (m + j - lo) with (m - lo + j) by lia.
    rewrite <- (zat_zsub src (p - lo) n j), <- (zat_zsub src (m - lo) n j) by lia. by rewrite E.
  - intros H. apply zat_ext; [rewrite !zlen_zsub; lia|]. intros j Hj. rewrite zlen_zsub in Hj by lia. rewrite !zat_zsub by lia.
    replace (p - lo + j) with (p + j - lo) by lia. replace (m - lo + j) with (m + j - lo) by lia. apply H. lia.
Qed.

Lemma native_eqb p m n : lo <= p -> lo <= m -> 0 <= n -> p + n <= hi -> m + n <= hi ->
  (native_val le (zsub src (m - lo) n) =? native_val le (zsub src (p - lo) n)) = true <-> agree p m n.
Proof.
  intros. rewrite Z.eqb_eq, <- zsub_agree by lia. split; [|by intros ->]. intros E. symmetry.
  apply native_val_inj; [by apply bytes_ok_zsub|by apply bytes_ok_zsub|rewrite !zlen_zsub; lia|done].
Qed.

(** A test of [n] bytes. *)
Definition tests (r : result bool) (p m n : Z) : Prop := exists c, r = Ok c /\ (c = true <-> agree p m n).

Lemma same8_ok p m : lo <= p < hi -> lo <= m < hi -> tests (same8 src lo m p) p m 1.
Proof.
  intros Hp Hm. unfold same8, MatchBase.win8. rewrite !rd_ok by lia. cbn [bind]. eexists. split; [done|]. rewrite Z.eqb_eq. unfold agree, wat. split.
  - intros E j Hj. replace j with 0 by lia. rewrite !Z.add_0_r. done.
  - intros H. specialize (H 0 ltac:(lia)). rewrite !Z.add_0_r in H. done.
Qed.
Lemma same16_ok p m : lo <= p -> lo <= m -> p + 2 <= hi -> m + 2 <= hi -> tests (same16 le src lo p m) p m 2.
Proof. intros. unfold same16, win16, MEM_read16. rewrite !rd_bytes_ok by lia. cbn [bind]. eexists. split; [done|]. by apply native_eqb. Qed.
Lemma same32_ok p m : lo <= p -> lo <= m -> p + 4 <= hi -> m + 4 <= hi -> tests (same32 le src lo p m) p m 4.
Proof. intros. unfold same32, MatchBase.win32, MEM_read32. rewrite !rd_bytes_ok by lia. cbn [bind]. eexists. split; [done|]. by apply native_eqb. Qed.

(** *** The length of a match *)

Definition match_length (p m lim n : Z) : Prop := 0 <= n <= lim - p /\ agree p m n /\ (p + n < lim -> wat (p + n) <> wat (m + n)).

Lemma match_length_add p m lim a n : 0 <= a -> agree p m a -> match_length (p + a) (m + a) lim n -> match_length p m lim (a + n).
Proof.
  intros Ha H (H1 & H2 & H3). split; [lia|]. split; [by apply agree_app|]. rewrite !Z.add_assoc. exact H3.
Qed.

Lemma count_back_ok ip m anchor lowest n :
  lo <= lowest -> lo <= anchor <= ip -> m < ip -> 0 <= n -> ip + n <= hi -> agree ip m n ->
  wp (count_back src lo ip m anchor lowest n) (fun '(ip', m', n') => 0 <= ip - ip' <= ip - anchor /\ m' = m - (ip - ip') /\ n' = n + (ip - ip') /\
    (m <= ip - 1 -> lowest <= m -> lowest <= m') /\ agree ip' m' n') no_errors.
Proof.
  intros Hlow Han Hm Hn Hhi Ha. unfold count_back.
  apply (wp_loop (fun '(ip', m', n') => 0 <= ip - ip' <= ip - anchor /\ m' = m - (ip - ip') /\ n' = n + (ip - ip') /\
    (m <= ip - 1 -> lowest <= m -> lowest <= m') /\ agree ip' m' n') (fun '(ip', _, _) => ip' - anchor)).
  - split; [lia|]. split; [lia|]. split; [lia|]. by split.
  - lia.
  - intros [[ip' m'] n'] Hinv. pose proof Hinv as (H1 & H2 & H3 & H4 & H5). destruct (Z.gtb_spec ip' anchor); cbn [andb]; [|wp_step; exact Hinv].
    destruct (Z.gtb_spec m' lowest); [|wp_step; exact Hinv].
    destruct (same8_ok (m' - 1) (ip' - 1)) as (c & E & Hc); [lia|lia|]. rewrite E. cbn [bind]. destruct c; wp_step; [|exact Hinv].
    split; [|lia]. split; [lia|]. split; [lia|]. split; [lia|]. split; [lia|].
    replace (n' + 1) with (1 + n') by lia. apply agree_app; [lia|intros j Hj; symmetry; by apply Hc|]. by replace (ip' - 1 + 1) with ip' by lia; replace (m' - 1 + 1) with m' by lia.
Qed.

Lemma count_tail_ok p m lim :
  lo <= m < p -> p <= lim -> lim <= hi -> lim - p < 8 ->
  wp (count_tail le src lo p m lim) (fun p' => match_length p m lim (p' - p)) no_errors.
Proof.
  intros Hm Hp Hlim Hl. unfold count_tail.
  assert (exists c, (if p <? lim - 3 then same32 le src lo p m else Ok false) = Ok c /\ (c = true -> p + 4 <= lim /\ agree p m 4) /\ (c = false -> lim - p < 4 \/ ~ agree p m 4)) as (c4 & -> & H4 & H4').
  { destruct (Z.ltb_spec p (lim - 3)); [|exists false; split; [done|split; [done|intros _; left; lia]]].
    destruct (same32_ok p m) as (c & E & Hc); [lia..|]. exists c. split; [exact E|]. split; [intros Ec; split; [lia|by apply Hc]|]. intros -> . right. intros Ha. by apply Hc in Ha. }
  cbn [bind].
  set (k4 := if c4 then 4 else 0). assert ((if c4 then (p + 4, m + 4) else (p, m)) = (p + k4, m + k4)) as -> by (unfold k4; destruct c4; by rewrite ?Z.add_0_r).
  assert (agree p m k4 /\ p + k4 <= lim /\ 0 <= k4) as (A4 & L4 & K4) by (unfold k4; destruct c4; [destruct (H4 eq_refl); split_and!; done || lia|split_and!; [apply agree_0|lia|lia]]).
  assert (exists c, (if p + k4 <? lim - 1 then same16 le src lo (p + k4) (m + k4) else Ok false) = Ok c /\ (c = true -> p + k4 + 2 <= lim /\ agree (p + k4) (m + k4) 2) /\
    (c = false -> lim - (p + k4) < 2 \/ ~ agree (p + k4) (m + k4) 2)) as (c2 & -> & H2 & H2').
  { destruct (Z.ltb_spec (p + k4) (lim - 1)); [|exists false; split; [done|split; [done|intros _; left; lia]]].
    destruct (same16_ok (p + k4) (m + k4)) as (c & E & Hc); [lia..|]. exists c. split; [exact E|]. split; [intros Ec; split; [lia|by apply Hc]|]. intros -> . right. intros Ha. by apply Hc in Ha. }
  cbn [bind].
  set (k2 := if c2 then 2 else 0). assert ((if c2 then (p + k4 + 2, m + k4 + 2) else (p + k4, m + k4)) = (p + (k4 + k2), m + (k4 + k2))) as -> by (unfold k2; destruct c2; f_equal; lia).
  assert (agree p m (k4 + k2) /\ p + (k4 + k2) <= lim /\ 0 <= k2) as (A2 & L2 & K2).
  { unfold k2. destruct c2; [destruct (H2 eq_refl); split_and!; [by apply agree_app|lia|lia]|]. split_and!; [by rewrite Z.add_0_r|lia|lia]. }
  set (k := k4 + k2) in *.
  assert (exists c, (if p + k <? lim then same8 src lo (m + k) (p + k) else Ok false) = Ok c /\ (c = true -> p + k + 1 <= lim /\ agree (p + k) (m + k) 1) /\
    (c = false -> p + k = lim \/ ~ agree (p + k) (m + k) 1)) as (c1 & -> & H1 & H1').
  { destruct (Z.ltb_spec (p + k) lim); [|exists false; split; [done|split; [done|intros _; left; lia]]].
    destruct (same8_ok (p + k) (m + k)) as (c & E & Hc); [lia..|]. exists c. split; [exact E|]. split; [intros Ec; split; [lia|by apply Hc]|]. intros -> . right. intros Ha. by apply Hc in Ha. }
  cbn [bind wp].
  assert (forall n, 0 <= n -> p + k + n < lim -> (~ agree (p + k) (m + k) (n + 1)) -> agree (p + k) (m + k) n -> wat (p + (k + n)) <> wat (m + (k + n))) as Hdiff.
  { intros n Hn _ Hna Ha E. apply Hna. intros j Hj. destruct (Z.eq_dec j n) as [->|]; [by rewrite <- !Z.add_assoc|apply Ha; lia]. }
  destruct c1.
  - destruct (H1 eq_refl) as [HL HA]. replace (p + k + 1 - p) with (k + 1) by lia. split; [lia|]. split; [apply agree_app; done || lia|].
    (* all the bytes that remain have been compared *)
    intros Hlt Ee. assert (agree (p + k) (m + k) 2) as Hag.
    { intros j Hj. destruct (Z.eq_dec j 0) as [->|]; [apply HA; lia|]. assert (j = 1) as -> by lia. by rewrite <- !Z.add_assoc. }
    destruct c2; cbn [k2] in *.
    + destruct c4; unfold k, k4, k2 in *; [lia|]. destruct (H4' eq_refl) as [|Hn4]; [lia|]. apply Hn4. replace 4 with (2 + 2) by lia. apply agree_app; [lia|exact (proj2 (H2 eq_refl)) || (rewrite <- (Z.add_0_r p), <- (Z.add_0_r m); apply H2; done)|]. by rewrite !Z.add_0_l in Hag.
    + destruct (H2' eq_refl) as [|Hn2]; [lia|]. apply Hn2. unfold k, k2 in Hag. by rewrite !Z.add_0_r in Hag.
  - replace (p + k - p) with k by lia. split; [lia|]. split; [done|]. intros Hlt. destruct (H1' eq_refl) as [|Hn1]; [lia|].
    rewrite <- (Z.add_0_r k). apply Hdiff; [lia|lia|exact Hn1|apply agree_0].
Qed.

Lemma count_word_ok p m :
  lo <= m < p -> p + 8 <= hi ->
  exists c, count_word le src lo p m = Ok c /\
    match c with None => agree p m 8 | Some n => 0 <= n < 8 /\ agree p m n /\ wat (p + n) <> wat (m + n) end.
Proof.
  intros Hm Hp. unfold count_word, winST, MEM_readST, MEM_read64. rewrite !rd_bytes_ok by lia. cbn [bind].
  set (a := zsub src (m - lo) 8). set (b := zsub src (p - lo) 8).
  assert (zlen a = 8 /\ zlen b = 8 /\ bytes_ok a /\ bytes_ok b) as (La & Lb & Ba & Bb) by (split_and!; [apply zlen_zsub; lia|apply zlen_zsub; lia|by apply bytes_ok_zsub|by apply bytes_ok_zsub]).
  eexists. split; [done|]. destruct (Z.eqb_spec (Z.lxor (native_val le a) (native_val le b)) 0) as [E|E].
  - apply Z.lxor_eq in E. apply native_val_inj in E; [|done|done|congruence]. apply zsub_agree; try lia. by symmetry.
  - assert (a <> b) as Hne by (intros Eab; by rewrite Eab, Z.lxor_nilpotent in E).
    destruct (common_bytes le a b Ba Bb La Lb Hne) as (Hn & Es & Ed). set (n := ZSTD_NbCommonBytes _ _ _) in *. split; [lia|].
    assert (forall j, 0 <= j < 8 -> zat a j = wat (m + j) /\ zat b j = wat (p + j)) as Hw.
    { intros j Hj. unfold a, b, wat. rewrite !zat_zsub by lia. split; f_equal; lia. }
    split.
    + intros j Hj. destruct (Hw j ltac:(lia)) as [E1 E2]. rewrite <- E1, <- E2, <- (zat_zsub a 0 n j), <- (zat_zsub b 0 n j) by lia. by rewrite Es.
    + destruct (Hw n ltac:(lia)) as [E1 E2]. rewrite <- E1, <- E2. congruence.
Qed.

Lemma count_ok p m lim :
  lo <= m < p -> p <= lim -> lim <= hi -> wp (ZSTD_count le src lo p m lim) (match_length p m lim) no_errors.
Proof.
  intros Hm Hp Hlim. unfold ZSTD_count. cbv zeta. apply wp_bind.
  eapply wp_mono; [apply (wp_loop (fun s => exists n, 0 <= n /\ s = (p + n, m + n) /\ p + n <= lim /\ agree p m n) (fun s => lim - s.1)
    _ _ _ (fun r => match r with inl q => match_length p m lim (q - p) | inr (q, q') => exists n, 0 <= n /\ q = p + n /\ q' = m + n /\ q <= lim /\ lim - q < 8 /\ agree p m n end))| |done].
  - exists 0. rewrite !Z.add_0_r. split; [lia|]. split; [done|]. split; [lia|apply agree_0].
  - cbn. lia.
  - intros [q q'] (n & Hn & [= -> ->] & Hl & Ha). destruct (Z.ltb_spec (p + n) (lim - 7)).
    + destruct (count_word_ok (p + n) (m + n)) as (c & -> & Hc); [lia|lia|]. cbn [bind]. destruct c as [k|]; wp_step.
      * destruct Hc as (Hk & Hak & Hd). replace (p + n + k - p) with (n + k) by lia. apply match_length_add; [lia|done|]. split; [lia|]. by split.
      * split; [|cbn; lia]. exists (n + 8). split; [lia|]. split; [f_equal; lia|]. split; [lia|]. by apply agree_app.
    + wp_step. exists n. split_and!; done || lia.
  - intros [q|[q q']]; [intros H; wp_step; done|]. intros (n & Hn & -> & -> & Hl & Hl8 & Ha).
    apply wp_bind. eapply wp_mono; [apply count_tail_ok; lia| |done]. intros q Hq. cbv beta. wp_step.
    replace (q - p) with (n + (q - (p + n))) by lia. by apply match_length_add.
Qed.
End window.

(** *** Hashes *)

Lemma shiftr_hash v w h : 0 <= v < 2 ^ w -> 0 <= h <= w -> 0 <= Z.shiftr v (w - h) < 2 ^ h.
Proof.
  intros Hv Hh. rewrite Z.shiftr_div_pow2 by lia. pose proof (pow2_pos (w - h) ltac:(lia)). pose proof (pow2_pos h ltac:(lia)).
  split; [apply Z.div_pos; lia|]. apply Z.div_lt_upper_bound; [lia|]. rewrite <- pow2_add by lia. replace (w - h + h) with w by lia. lia.
Qed.

Lemma hashPtr_ok le src lo p h mls :
  bytes_ok src -> lo <= p -> p + 8 <= lo + zlen src -> 0 <= h <= 32 ->
  wp (ZSTD_hashPtr le src lo p h mls) (fun v => 0 <= v < 2 ^ h) no_errors.
Proof.
  intros Hb Hp Hp8 Hh. assert (forall f, (forall u, 0 <= f u < 2 ^ h) -> wp (let* u := winLE64 le src lo p in Ok (f u)) (fun v => 0 <= v < 2 ^ h) no_errors) as H64.
  { intros f Hf. unfold winLE64. rewrite readLE64_spec by (done || lia). apply Hf. }
  assert (forall x, 0 <= Z.shiftr (Z.lxor (u64 x) 0) (64 - h) < 2 ^ h) as H5 by (intros x; rewrite Z.lxor_0_r; apply shiftr_hash; [apply u64_range|lia]).
  assert (forall x, 0 <= Z.shiftr (Z.lxor (u32 x) 0) (32 - h) < 2 ^ h) as H4 by (intros x; rewrite Z.lxor_0_r; apply shiftr_hash; [apply u32_range|lia]).
  unfold ZSTD_hashPtr, ZSTD_hash5Ptr, ZSTD_hash6Ptr, ZSTD_hash7Ptr, ZSTD_hash8Ptr, ZSTD_hash4Ptr.
  repeat match goal with |- wp (if ?b then _ else _) _ _ => destruct b end; try (apply H64; intros; apply H5).
  unfold winLE32. rewrite readLE32_spec by (done || lia). apply H4.
Qed.

(** *** The store *)

(** A sequence: its lengths and its offset, as the store means them. *)
Notation triple := (Z * Z * Z)%type (only parsing).
Definition def_of (x : triple) : SeqDef := let '(ll, ml, ob) := x in mkSeqDef ob (u16 ll) (u16 (ml - MINMATCH)).
Definition triple_ok (x : triple) : Prop := let '(ll, ml, ob) := x in 0 <= ll /\ MINMATCH <= ml /\ 1 <= ob < 2 ^ 32.
Definition short (x : triple) : Prop := let '(ll, ml, _) := x in ll <= 0xFFFF /\ ml - MINMATCH <= 0xFFFF.
Definition span (x : triple) : Z := let '(ll, ml, _) := x in ll + ml.
Definition spans (l : list triple) : Z := zsum (map span l).

(** Which sequence is long, if any. *)
Definition long_at (w : seq_writer) (l : list triple) : Prop :=
  match sw_longLengthType w with
  | ZSTD_llt_none => Forall short l
  | type => 0 <= sw_longLengthPos w < zlen l /\
      forall i, 0 <= i < zlen l -> let '(ll, ml, ob) := zat l i in
        if i =? sw_longLengthPos w then
          match type with ZSTD_llt_literalLength => ll > 0xFFFF /\ ml - MINMATCH <= 0xFFFF | _ => ll <= 0xFFFF /\ ml - MINMATCH > 0xFFFF end
        else short (ll, ml, ob)
  end.

(** The writer has stored the sequences [l] and the literals [L]. *)
Record written (w : seq_writer) (l : list triple) (L : list Z) : Prop := {
  wn_sequences : sw_sequences w = map def_of l;
  wn_ok : Forall triple_ok l;
  wn_long : long_at w l;
  wn_span : spans l <= ZSTD_BLOCKSIZE_MAX;
  wn_lit : 0 <= sw_lit w /\ sw_lit w + WILDCOPY_OVERLENGTH <= zlen (sw_litStart w);
  wn_lits : zsub (sw_litStart w) 0 (sw_lit w) = L;
  wn_bytes : bytes_ok (sw_litStart w);
}.

Lemma spans_snoc l x : spans (l ++ [x]) = spans l + span x.
Proof. unfold spans. rewrite map_app, zsum_app. cbn. lia. Qed.
Lemma spans_len l : Forall triple_ok l -> MINMATCH * zlen l <= spans l.
Proof.
  unfold spans. induction 1 as [|[[ll ml] ob] l (H1 & H2 & _) _ IH]; [done|]. unfold zlen in *. cbn [map length]. cbn [zsum foldr span] in *. change MINMATCH with 3 in *. unfold zsum in IH. lia.
Qed.
Lemma span_le l i : Forall triple_ok l -> 0 <= i < zlen l -> span (zat l i) <= spans l.
Proof.
  intros Hl Hi. unfold spans. assert (span (zat l i) = zat (map span l) i) as -> by (symmetry; by apply zat_map).
  apply zsum_zat_le; [|unfold zlen in *; by rewrite length_map]. apply Forall_map. eapply Forall_impl; [exact Hl|]. intros [[ll ml] ob] (H1 & H2 & _). cbn. change MINMATCH with 3 in *. lia.
Qed.

Lemma long_at_snoc w l x (type : ZSTD_longLengthType_e) pos seqs maxNbSeq d lit :
  Forall triple_ok (l ++ [x]) -> spans (l ++ [x]) <= ZSTD_BLOCKSIZE_MAX -> long_at w l ->
  let '(ll, ml, _) := x in
  (let '(type, pos) := if ll >? 0xFFFF then (ZSTD_llt_literalLength, u32 (zlen l)) else (sw_longLengthType w, sw_longLengthPos w) in
   if u64 (ml - MINMATCH) >? 0xFFFF then (ZSTD_llt_matchLength, u32 (zlen l)) else (type, pos)) = (type, pos) ->
  long_at (mkWriter seqs maxNbSeq d lit type pos) (l ++ [x]).
Proof.
  intros Hok Hsp Hlong. destruct x as [[ll ml] ob]. pose proof (spans_len _ Hok) as Hlen. apply Forall_app in Hok as [Hok Hx]. apply Forall_cons in Hx as [(Hll & Hml & _) _].
  rewrite spans_snoc in Hsp. cbn [span] in Hsp. change ZSTD_BLOCKSIZE_MAX with 131072 in Hsp. change MINMATCH with 3 in *. rewrite spans_snoc, zlen_app in Hlen. cbn [span] in Hlen. change (zlen [_]) with 1 in Hlen.
  pose proof (zlen_nonneg l). pose proof (spans_len l Hok) as Hlen0. change MINMATCH with 3 in Hlen0. rewrite u32_small by lia. rewrite u64_small by lia.
  assert (zlen (l ++ [(ll, ml, ob)]) = zlen l + 1) as El by (by rewrite zlen_app).
  assert (zat (l ++ [(ll, ml, ob)]) (zlen l) = (ll, ml, ob)) as Elast by (by rewrite zat_app_r, Z.sub_diag by lia).
  assert (sw_longLengthType w <> ZSTD_llt_none -> 65536 <= spans l) as Hone.
  { intros Hne. unfold long_at in Hlong. destruct (sw_longLengthType w); [done| |]; destruct Hlong as [Hp Hl]; specialize (Hl _ Hp); pose proof (span_le l _ Hok Hp) as Hs;
      destruct (zat l (sw_longLengthPos w)) as [[ll1 ml1] ob1] eqn:E1; rewrite Z.eqb_refl in Hl; cbn [span] in Hs; change MINMATCH with 3 in *;
      pose proof (zat_Forall _ _ _ Hok Hp) as Ht; rewrite E1 in Ht; unfold triple_ok in Ht; change MINMATCH with 3 in *; lia. }
  assert (spans l + ll + ml <= 131072) as Hsum by lia.
  assert (forall ty p, ty <> ZSTD_llt_none -> sw_longLengthType w = ZSTD_llt_none -> p = zlen l ->
    match ty with ZSTD_llt_literalLength => ll > 65535 /\ ml - 3 <= 65535 | _ => ll <= 65535 /\ ml - 3 > 65535 end ->
    long_at (mkWriter seqs maxNbSeq d lit ty p) (l ++ [(ll, ml, ob)])) as Hnew.
  { intros ty p Hty Ew -> Hty'. unfold long_at in Hlong |- *. rewrite Ew in Hlong. cbn [sw_longLengthType sw_longLengthPos].
    assert (0 <= zlen l < zlen (l ++ [(ll, ml, ob)]) /\ forall i, 0 <= i < zlen (l ++ [(ll, ml, ob)]) -> let '(ll, ml, ob) := zat (l ++ [(ll, ml, ob)]) i in
      if i =? zlen l then match ty with ZSTD_llt_literalLength => ll > 65535 /\ ml - 3 <= 65535 | _ => ll <= 65535 /\ ml - 3 > 65535 end else short (ll, ml, ob)) as Hgoal; [|by destruct ty].
    split; [lia|]. intros i Hi. destruct (Z.eqb_spec i (zlen l)) as [->|Hne].
    - rewrite Elast. exact Hty'.
    - rewrite zat_app_l by lia. pose proof (zat_Forall _ _ i Hlong ltac:(lia)) as Hs. by destruct (zat l i) as [[? ?] ?]. }
  destruct (Z.gtb_spec ll 65535), (Z.gtb_spec (ml - 3) 65535); intros [= <- <-]; [lia| | |].
  - apply Hnew; try done; destruct (sw_longLengthType w); try done; lia || (specialize (Hone ltac:(done)); lia).
  - apply Hnew; try done; destruct (sw_longLengthType w); try done; lia || (specialize (Hone ltac:(done)); lia).
  - unfold long_at in Hlong |- *. cbn [sw_longLengthType sw_longLengthPos]. rewrite El.
    destruct (sw_longLengthType w); [apply Forall_app; split; [done|]; constructor; [split; change MINMATCH with 3; lia|done]| |];
      destruct Hlong as [Hp Hl]; (split; [lia|]); intros i Hi; (destruct (Z.eq_dec i (zlen l)) as [->|];
        [rewrite Elast; destruct (Z.eqb_spec (zlen l) (sw_longLengthPos w)); [lia|]; split; change MINMATCH with 3; lia|rewrite zat_app_l by lia; apply Hl; lia]).
Qed.

(** Storing literals: the memory before and after. *)
Lemma lits_stored b d d' lit p n w :
  copied Forward d d' lit (In_buf b p) n w -> 0 <= lit -> 0 <= n -> lit + n <= zlen d -> 0 <= p -> p + n <= zlen b ->
  zsub d' 0 (lit + n) = zsub d 0 lit ++ zsub b p n.
Proof.
  intros (El & _ & Hout & Hin) Hl Hn Hd Hp Hb. rewrite zsub_split by lia. f_equal; apply zat_ext.
  - rewrite !zlen_zsub; lia.
  - intros i Hi. rewrite zlen_zsub in Hi by lia. rewrite !zat_zsub by lia. apply Hout. lia.
  - rewrite !zlen_zsub; lia.
  - intros i Hi. rewrite zlen_zsub in Hi by lia. rewrite !zat_zsub by lia. by apply Hin.
Qed.

Section storing.
Context (src : list Z) (lo : Z).
Hypothesis Hsrc : bytes_ok src.
Notation hi := (lo + zlen src).

Lemma copy_lits d lit litLength literals litLimit :
  0 <= lit -> 0 <= litLength -> lo <= literals -> literals + litLength <= litLimit -> litLimit <= hi ->
  lit + litLength + WILDCOPY_OVERLENGTH <= zlen d ->
  wp (if literals + litLength <=? litLimit - WILDCOPY_OVERLENGTH then
        let* d := ZSTD_copy16 d lit (win_ptr src lo literals) in
        if litLength >? 16 then ZSTD_wildcopy d (lit + 16) (win_ptr src lo (literals + 16)) (litLength - 16) ZSTD_no_overlap else Ok d
      else ZSTD_safecopyLiterals src lo d lit literals (literals + litLength) (litLimit - WILDCOPY_OVERLENGTH))
    (fun d' => copied Forward d d' lit (win_ptr src lo literals) litLength (litLength + WILDCOPY_OVERLENGTH)) no_errors.
Proof.
  intros Hlit Hll Hlo Hle Hhi Hd. change WILDCOPY_OVERLENGTH with 32 in *. unfold win_ptr.
  destruct (Z.leb_spec (literals + litLength) (litLimit - 32)).
  - apply wp_bind. unfold ZSTD_copy16. eapply wp_mono; [apply (memmove_ok Forward 16); [lia|lia|lia|split; [lia|split; [lia|cbn; lia]]]| |done].
    intros d1 Hc1. pose proof Hc1 as (El1 & _). destruct (Z.gtb_spec litLength 16); [|wp_step; eapply copied_le; [exact Hc1|lia|lia]].
    eapply wp_mono; [apply (wildcopy_no_overlap Forward); [lia|split; [lia|split; [lia|cbn; lia]]]| |done].
    intros d2 Hc2. replace litLength with (16 + (litLength - 16)) by lia. eapply copied_le; [eapply (copied_app Forward 16 d d1 d2 lit _ 16 16 (litLength - 16) (litLength - 16 + 32)); try done; try lia|lia|lia].
    + cbn. replace (literals - lo + 16) with (literals + 16 - lo) by lia. exact Hc2.
    + split; [lia|split; [lia|cbn; lia]].
  - unfold ZSTD_safecopyLiterals, win_ptr. set (k := if literals <=? litLimit - 32 then litLimit - 32 - literals else 0).
    assert (0 <= k <= litLength) as Hk by (unfold k; destruct (Z.leb_spec literals (litLimit - 32)); lia).
    apply wp_bind. apply (wp_mono _ (fun '(d1, op, ip) => op = lit + k /\ ip = literals + k /\ copied Forward d d1 lit (In_buf src (literals - lo)) k (k + 32)) _ no_errors); [| |done].
    { unfold k. destruct (Z.leb_spec literals (litLimit - 32)).
      - apply wp_bind. eapply wp_mono; [apply (wildcopy_no_overlap Forward); [lia|split; [lia|split; [lia|cbn; lia]]]| |done]. intros d1 Hc1. wp_step. split_and!; [lia|lia|exact Hc1].
      - wp_step. rewrite !Z.add_0_r. split_and!; [done|done|]. eapply copied_le; [apply copied_0|lia|lia]. }
    intros [[d1 op] ip] (-> & -> & Hc1). pose proof Hc1 as (El1 & _).
    eapply wp_mono; [apply (copy_bytes_ok Forward 1); [lia|lia|lia|split; [lia|split; [lia|cbn; lia]]]| |done].
    intros d2 Hc2. replace (lit + k + (literals + litLength - (literals + k)) - (lit + k)) with (litLength - k) in Hc2 by lia.
    replace litLength with (k + (litLength - k)) at 1 by lia. eapply copied_le; [eapply (copied_app Forward 16 d d1 d2 lit _ k (k + 32) (litLength - k) (litLength - k + 32)); try done; try lia|lia|lia].
    + cbn. replace (literals - lo + k) with (literals + k - lo) by lia. eapply copied_le; [exact Hc2|lia|lia].
    + split; [lia|split; [lia|cbn; lia]].
Qed.

Lemma storeSeq_ok w l L litLength literals litLimit offBase matchLength :
  written w l L -> lo <= literals -> literals + litLength <= litLimit -> litLimit <= hi ->
  triple_ok (litLength, matchLength, offBase) -> spans l + litLength + matchLength <= ZSTD_BLOCKSIZE_MAX -> zlen l < sw_maxNbSeq w ->
  sw_lit w + litLength + WILDCOPY_OVERLENGTH <= zlen (sw_litStart w) ->
  exists w', ZSTD_storeSeq src lo w litLength literals litLimit offBase matchLength = Ok w' /\
    written w' (l ++ [(litLength, matchLength, offBase)]) (L ++ zsub src (literals - lo) litLength) /\
    sw_maxNbSeq w' = sw_maxNbSeq w /\ zlen (sw_litStart w') = zlen (sw_litStart w) /\ sw_lit w' = sw_lit w + litLength.
Proof.
  intros [Hs Hok Hlong Hsp Hlit HL Hb] Hlo Hle Hhi Htr Hspan Hmax Hroom. pose proof Htr as (Hll & Hml & Hob).
  pose proof (copy_lits (sw_litStart w) (sw_lit w) litLength literals litLimit ltac:(lia) Hll Hlo Hle Hhi Hroom) as Hwp.
  apply wp_no_errors_Ok in Hwp as (d & Ed & Hc). unfold ZSTD_storeSeq. cbv zeta. rewrite Ed. cbn [bind].
  unfold ZSTD_storeSeqOnly. cbn [set_lit sw_sequences sw_maxNbSeq sw_litStart sw_lit sw_longLengthType sw_longLengthPos].
  assert (zlen (sw_sequences w) = zlen l) as En by (rewrite Hs; unfold zlen; by rewrite length_map). rewrite En. rewrite (proj2 (Z.ltb_lt _ _) Hmax). cbn [defined_if].
  destruct (if litLength >? 65535 then (ZSTD_llt_literalLength, u32 (zlen l)) else (sw_longLengthType w, sw_longLengthPos w)) as [ty0 pos0] eqn:E0. cbv zeta.
  destruct (if u64 (matchLength - MINMATCH) >? 65535 then (ZSTD_llt_matchLength, u32 (zlen l)) else (ty0, pos0)) as [ty pos] eqn:E1.
  eexists. split; [done|]. split; [|split; [done|split; [apply Hc|done]]].
  assert (zlen d = zlen (sw_litStart w)) as El by apply Hc.
  assert (Forall triple_ok (l ++ [(litLength, matchLength, offBase)])) as Hok' by (apply Forall_app; by split; [|constructor]).
  assert (spans (l ++ [(litLength, matchLength, offBase)]) <= ZSTD_BLOCKSIZE_MAX) as Hsp' by (rewrite spans_snoc; cbn [span]; lia).
  split; cbn [sw_sequences sw_maxNbSeq sw_litStart sw_lit]; try done.
  - rewrite Hs, map_app. cbn [map def_of]. do 2 f_equal. f_equal. pose proof (spans_len l Hok). pose proof (zlen_nonneg l).
    change MINMATCH with 3 in *. change ZSTD_BLOCKSIZE_MAX with 131072 in *. rewrite u64_small by lia. done.
  - apply (long_at_snoc w l (litLength, matchLength, offBase)); [done|done|done|]. rewrite E0. exact E1.
  - lia.
  - rewrite <- HL. change WILDCOPY_OVERLENGTH with 32 in *. apply (lits_stored _ _ _ _ _ _ _ Hc); lia.
  - apply Hc; [done|exact Hsrc].
Qed.

Lemma storeLastLiterals_ok w l L anchor n :
  written w l L -> lo <= anchor -> 0 <= n -> anchor + n <= hi -> sw_lit w + n + WILDCOPY_OVERLENGTH <= zlen (sw_litStart w) ->
  exists w', ZSTD_storeLastLiterals src lo w anchor n = Ok w' /\ written w' l (L ++ zsub src (anchor - lo) n) /\ sw_maxNbSeq w' = sw_maxNbSeq w /\
    zlen (sw_litStart w') = zlen (sw_litStart w).
Proof.
  intros [Hs Hok Hlong Hsp Hlit HL Hb] Hlo Hn Hhi Hroom. change WILDCOPY_OVERLENGTH with 32 in *. unfold ZSTD_storeLastLiterals, win_ptr.
  pose proof (memcpy_ok (sw_litStart w) (sw_lit w) (In_buf src (anchor - lo)) n Hn ltac:(split; [lia|split; [lia|cbn; lia]])) as Hwp.
  apply wp_no_errors_Ok in Hwp as (d & -> & Hc). cbn [bind]. assert (zlen d = zlen (sw_litStart w)) as El by apply Hc.
  eexists. split; [done|]. split; [|by split].
  split; cbn [set_lit sw_sequences sw_maxNbSeq sw_litStart sw_lit]; try done.
  - change WILDCOPY_OVERLENGTH with 32. lia.
  - rewrite <- HL. apply (lits_stored _ _ _ _ _ _ _ Hc); lia.
  - apply Hc; [done|exact Hsrc].
Qed.
End storing.

(** What the encoder of sequences is given. *)
Lemma written_meaning w l L llCode ofCode mlCode :
  written w l L -> store_meaning (store_of w llCode ofCode mlCode) = l.
Proof.
  intros [Hs Hok Hlong Hsp _ _ _]. unfold store_meaning. cbn [store_of sequences].
  assert (zlen (sw_sequences w) = zlen l) as En by (rewrite Hs; unfold zlen; by rewrite length_map). rewrite En.
  apply zat_ext; [rewrite zlen_map_seqZ by apply zlen_nonneg; done|]. intros i Hi. rewrite zlen_map_seqZ in Hi by apply zlen_nonneg. rewrite zat_map_seqZ by done.
  unfold ZSTD_getSequenceLength. cbn [store_of sequences longLengthPos longLengthType]. rewrite Hs. rewrite zat_map by done.
  pose proof (zat_Forall _ _ i Hok Hi) as Ht. pose proof (span_le l i Hok Hi) as Hspan. destruct (zat l i) as [[ll ml] ob] eqn:Ei. destruct Ht as (Hll & Hml & _). cbn [span] in Hspan.
  cbn [def_of sd_litLength mlBase offBase]. change MINMATCH with 3 in *. change ZSTD_BLOCKSIZE_MAX with 131072 in Hsp.
  assert (u16 ll = if ll >? 65535 then ll - 65536 else ll) as -> by (destruct (Z.gtb_spec ll 65535); [unfold u16; zdm|apply u16_small; lia]).
  assert (u16 (ml - 3) = if ml - 3 >? 65535 then ml - 3 - 65536 else ml - 3) as -> by (destruct (Z.gtb_spec (ml - 3) 65535); [unfold u16; zdm|apply u16_small; lia]).
  unfold long_at in Hlong. rewrite (Z.eqb_sym (sw_longLengthPos w) i). change MINMATCH with 3 in Hlong.
  assert (forall a b c : Z, a = ll -> b = ml -> (a, b, c) = (ll, ml, c)) as Heq by (by intros ? ? ? -> ->).
  destruct (sw_longLengthType w).
  - pose proof (zat_Forall _ _ i Hlong Hi) as Hsh. rewrite Ei in Hsh. destruct Hsh as [H1 H2]. change MINMATCH with 3 in H2. destruct (Z.gtb_spec ll 65535), (Z.gtb_spec (ml - 3) 65535); try lia. apply Heq; destruct (i =? sw_longLengthPos w); lia.
  - destruct Hlong as [Hp Hl]. specialize (Hl i Hi). rewrite Ei in Hl. destruct (i =? sw_longLengthPos w); [|destruct Hl as [H1 H2]; change MINMATCH with 3 in H2];
      destruct (Z.gtb_spec ll 65535), (Z.gtb_spec (ml - 3) 65535); try lia; apply Heq; lia.
  - destruct Hlong as [Hp Hl]. specialize (Hl i Hi). rewrite Ei in Hl. destruct (i =? sw_longLengthPos w); [|destruct Hl as [H1 H2]; change MINMATCH with 3 in H2];
      destruct (Z.gtb_spec ll 65535), (Z.gtb_spec (ml - 3) 65535); try lia; apply Heq; lia.
Qed.

Lemma written_store_ok w l L c1 c2 c3 :
  written w l L -> l <> [] -> zlen l <= zlen c1 -> zlen l <= zlen c2 -> zlen l <= zlen c3 ->
  store_ok (store_of w c1 c2 c3).
Proof.
  intros [Hs Hok Hlong Hsp _ _ _] Hne H1 H2 H3. pose proof (spans_len l Hok) as Hlen. change MINMATCH with 3 in Hlen. change ZSTD_BLOCKSIZE_MAX with 131072 in Hsp.
  assert (zlen (sw_sequences w) = zlen l) as En by (rewrite Hs; unfold zlen; by rewrite length_map).
  assert (1 <= zlen l) by (destruct l; [done|unfold zlen; cbn; lia]).
  split; cbn [store_of sequences llCode ofCode mlCode longLengthType longLengthPos]; rewrite ?En.
  - lia.
  - rewrite Hs. apply Forall_map. eapply Forall_impl; [exact Hok|]. intros [[ll ml] ob] (_ & _ & Hob). cbn [def_of sd_litLength mlBase offBase].
    pose proof (u16_range ll). pose proof (u16_range (ml - MINMATCH)). split; [done|]. split; [done|]. exact Hob.
  - by split_and!.
  - intros Hty. unfold long_at in Hlong. destruct (sw_longLengthType w); [done|apply Hlong|apply Hlong].
Qed.
