(* ===== verification/MatchParse.v ===== *)
(** The parse of a block: the sequences stored so far, with the repeated offsets that the
    decoder has after them, regenerate the block up to the anchor. This is what every
    match finder keeps true. *)

From S2P Require Import Prelude Errors Outcome Bits Mem Wire LzCopy ExecSequence SeqTables SeqDecode SeqEncode SeqRoundtrip Frame MatchBase.

Section parse.
Context (src : list Z) (lo : Z) (pre : list Z) (istart iend minMatch : Z) (rep0 : list Z) (w0 : seq_writer).
Notation hi := (lo + zlen src).

(** The history up to an index: what the decoder has before the window, and the window. *)
Definition upto (p : Z) : list Z := pre ++ zsub src 0 (p - lo).

(** The memory of the store is large enough for the block. *)
Record store_fits (w : seq_writer) : Prop := {
  sf_seq : iend - istart < minMatch * (sw_maxNbSeq w + 1);
  sf_lit : iend - istart + WILDCOPY_OVERLENGTH <= zlen (sw_litStart w);
}.
Definition store_same (w : seq_writer) : Prop := sw_maxNbSeq w = sw_maxNbSeq w0 /\ zlen (sw_litStart w) = zlen (sw_litStart w0).

(** The sequences [l] and the literals [L] regenerate the block up to [anchor] and leave the repeated
    offsets [rep]. *)
Record parsed (w : seq_writer) (l : list (Z * Z * Z)) (L rep : list Z) (anchor : Z) : Prop := {
  pd_written : written w l L;
  pd_seqs : exists seqs, resolve rep0 l = Ok (seqs, rep) /\ Forall (fun q => 1 <= offset q) seqs /\
    forall room, anchor - istart <= room -> lz_exec (upto istart) L room seqs = Ok (upto anchor, [], room - (anchor - istart));
  pd_span : spans l = anchor - istart;
  pd_min : Forall (fun x => minMatch <= x.1.2) l;
  pd_lit : sw_lit w <= anchor - istart;
  pd_anchor : istart <= anchor <= iend;
  pd_same : store_same w;
}.

Hypothesis Hsrc : bytes_ok src.
Hypothesis Hblock : lo <= istart /\ istart <= iend /\ iend <= hi /\ iend - istart <= ZSTD_BLOCKSIZE_MAX.
Hypothesis Hmin : MINMATCH <= minMatch.
Hypothesis Hfits : store_fits w0.

(** ** Lemmas *)

Lemma resolve_app r l1 l2 seqs1 r1 seqs2 r2 :
  resolve r l1 = Ok (seqs1, r1) -> resolve r1 l2 = Ok (seqs2, r2) -> resolve r (l1 ++ l2) = Ok (seqs1 ++ seqs2, r2).
Proof.
  revert r seqs1. induction l1 as [|[[ll ml] ob] l1 IH]; intros r seqs1; cbn [resolve app]; [by intros [= <- <-]|].
  destruct (ZSTD_updateRep r ob (b2z (ll =? 0))) as [r'|e|]; cbn [bind]; [|done|done].
  destruct (resolve r' l1) as [[s r'']|e|] eqn:E; cbn [bind]; [|done|done]. intros [= <- <-] H2. by rewrite (IH _ _ E H2).
Qed.

Lemma lz_exec_app h L L' room s1 s2 h1 L1 room1 :
  lz_exec h L room s1 = Ok (h1, L1, room1) -> lz_exec h (L ++ L') room (s1 ++ s2) = lz_exec h1 (L1 ++ L') room1 s2.
Proof.
  revert h L room. induction s1 as [|s s1 IH]; intros h L room; cbn [lz_exec app]; [by intros [= <- <- <-]|].
  unfold RETURN_ERROR_IF. destruct (Z.gtb_spec (litLength s + matchLength s) room); [done|]. destruct (Z.gtb_spec (litLength s) (zlen L)) as [|Hll]; [done|].
  destruct (Z.gtb_spec (litLength s) (zlen (L ++ L'))); [rewrite zlen_app in *; pose proof (zlen_nonneg L'); lia|].
  destruct (Z.gtb_spec (offset s) (zlen h + litLength s)); [done|]. intros E.
  destruct (Z.lt_ge_cases (litLength s) 0) as [Hneg|Hpos].
  - assert (forall X : list Z, zsub X 0 (litLength s) = []) as E1 by (intros; unfold zsub; by replace (Z.to_nat (litLength s)) with 0%nat by lia).
    rewrite E1 in *. assert (forall X : list Z, zsub X (litLength s) (zlen X - litLength s) = X) as E2.
    { intros X. unfold zsub. replace (Z.to_nat (litLength s)) with 0%nat by lia. cbn [drop]. rewrite drop_0. apply take_ge. unfold zlen in *. lia. }
    rewrite E2 in *. by apply IH.
  - assert (zsub (L ++ L') 0 (litLength s) = zsub L 0 (litLength s)) as ->.
    { unfold zsub. cbn [Z.to_nat drop]. rewrite !drop_0. apply take_app_le. unfold zlen in *. lia. }
    assert (zsub (L ++ L') (litLength s) (zlen (L ++ L') - litLength s) = zsub L (litLength s) (zlen L - litLength s) ++ L') as ->; [|by apply IH].
    unfold zsub. rewrite drop_app_le by (unfold zlen in *; lia). rewrite !take_ge; [done|rewrite length_drop|rewrite length_app, length_drop]; rewrite ?zlen_app in *; unfold zlen in *; lia.
Qed.

(** A match is its bytes. *)
Lemma upto_match p m n :
  lo <= m < p -> 0 <= Z.of_nat n -> p + Z.of_nat n <= hi -> agree src lo p m (Z.of_nat n) ->
  lz_match (upto p) (p - m) n = upto (p + Z.of_nat n).
Proof.
  revert p m. induction n as [|n IH]; intros p m Hm _ Hp Ha; [cbn; by rewrite Z.add_0_r|]. cbn [lz_match].
  assert (upto p ++ [zat (upto p) (zlen (upto p) - (p - m))] = upto (p + 1)) as ->.
  { unfold upto. assert (zlen (zsub src 0 (p - lo)) = p - lo) as El by (apply zlen_zsub; lia). pose proof (zlen_nonneg pre).
    rewrite zlen_app, El, zat_app_r by lia. replace (zlen pre + (p - lo) - (p - m) - zlen pre) with (m - lo) by lia. rewrite zat_zsub by lia.
    rewrite <- app_assoc. f_equal. replace (p + 1 - lo) with ((p - lo) + 1) by lia. rewrite zsub_split by lia. f_equal.
    rewrite zsub_cons by lia. rewrite Z.sub_diag, zsub_0. f_equal. specialize (Ha 0 ltac:(lia)). unfold wat in Ha. rewrite !Z.add_0_r in Ha. rewrite !Z.add_0_l. congruence. }
  replace (p - m) with (p + 1 - (m + 1)) by lia. rewrite IH; [f_equal; lia|lia|lia|lia|].
  intros j Hj. rewrite <- !Z.add_assoc. apply Ha. lia.
Qed.

Lemma upto_literals p n : lo <= p -> 0 <= n -> p + n <= hi -> upto p ++ zsub src (p - lo) n = upto (p + n).
Proof. intros. unfold upto. rewrite <- app_assoc. f_equal. replace (p + n - lo) with ((p - lo) + n) by lia. by rewrite zsub_split by lia. Qed.

Lemma zlen_upto p : lo <= p <= hi -> zlen (upto p) = zlen pre + (p - lo).
Proof. intros. unfold upto. rewrite zlen_app, zlen_zsub by lia. done. Qed.

Lemma min_count l : Forall (fun x => minMatch <= x.1.2) l -> Forall triple_ok l -> minMatch * zlen l <= spans l.
Proof.
  unfold spans. induction l as [|[[ll ml] ob] l IH]; intros H1 H2; [change (zlen []) with 0; cbn; lia|]. apply Forall_cons in H1 as [H1 H1']. apply Forall_cons in H2 as [(H2 & _) H2'].
  specialize (IH H1' H2'). unfold zlen in *. cbn [map length span zsum foldr] in *. cbn in H1. unfold zsum in IH. lia.
Qed.

(** A sequence is stored: [ll] literals from the anchor on, and a match of [ml] bytes at [ip]. *)
Lemma parsed_store w l L rep anchor ip off ml offBase rep' :
  parsed w l L rep anchor -> anchor <= ip -> 1 <= off -> lo <= ip - off -> minMatch <= ml -> ip + ml <= iend ->
  agree src lo ip (ip - off) ml -> 1 <= offBase < 2 ^ 32 ->
  ZSTD_updateRep rep offBase (b2z (ip - anchor =? 0)) = Ok rep' -> zat rep' 0 = off ->
  exists w' L', ZSTD_storeSeq src lo w (ip - anchor) anchor iend offBase ml = Ok w' /\
    parsed w' (l ++ [(ip - anchor, ml, offBase)]) L' rep' (ip + ml).
Proof.
  destruct Hfits as [Hf1 Hf2]. intros [Hw (seqs & Eres & Hoffs & Hex) Hsp Hmn Hlit Han [Hs1 Hs2]] Hip Hoff Hlow Hml Hend Hag Hob Hupd Hz. change WILDCOPY_OVERLENGTH with 32 in *.
  pose proof (min_count l Hmn (wn_ok _ _ _ Hw)) as Hcnt. pose proof (zlen_nonneg l). change MINMATCH with 3 in *.
  destruct (storeSeq_ok src lo Hsrc w l L (ip - anchor) anchor iend offBase ml Hw) as (w' & E & Hw' & Emax & El & Elit).
  - lia.
  - lia.
  - lia.
  - split; [lia|]. split; [change MINMATCH with 3; lia|done].
  - lia.
  - nia.
  - change WILDCOPY_OVERLENGTH with 32. lia.
  - exists w', (L ++ zsub src (anchor - lo) (ip - anchor)). split; [exact E|].
    split; [exact Hw'| |rewrite spans_snoc; cbn [span]; lia|apply Forall_app; split; [done|by constructor]|lia|lia|split; congruence].
    exists (seqs ++ [mkSeq (ip - anchor) ml off]). split; [|split].
    + eapply resolve_app; [exact Eres|]. cbn [resolve]. rewrite Hupd. cbn [bind]. by rewrite Hz.
    + apply Forall_app. split; [done|]. by constructor.
    + intros room Hroom. rewrite (lz_exec_app _ _ _ _ _ _ _ _ _ (Hex room ltac:(lia))). cbn [app lz_exec litLength matchLength offset].
      assert (zlen (zsub src (anchor - lo) (ip - anchor)) = ip - anchor) as Ell by (apply zlen_zsub; lia). unfold RETURN_ERROR_IF. rewrite Ell, zlen_upto by lia. pose proof (zlen_nonneg pre).
      destruct (Z.gtb_spec (ip - anchor + ml) (room - (anchor - istart))); [lia|]. destruct (Z.gtb_spec (ip - anchor) (ip - anchor)); [lia|].
      destruct (Z.gtb_spec off (zlen pre + (anchor - lo) + (ip - anchor))); [lia|]. unfold lz_sequence. cbn [offset matchLength].
      assert (forall X : list Z, zlen X = ip - anchor -> zsub X 0 (ip - anchor) = X) as Hall by (intros X <-; apply zsub_all). rewrite Hall, Z.sub_diag, zsub_0 by done. rewrite upto_literals by lia. replace (anchor + (ip - anchor)) with ip by lia.
      pose proof (upto_match ip (ip - off) (Z.to_nat ml)) as Hm. rewrite Z2Nat.id in Hm by lia. replace (ip - (ip - off)) with off in Hm by lia.
      rewrite Hm by (done || lia). do 2 f_equal. lia.
Qed.

(** The end of the block: what is left are literals. *)
Lemma parsed_last w l L rep anchor :
  parsed w l L rep anchor ->
  exists w' L' seqs, ZSTD_storeLastLiterals src lo w anchor (iend - anchor) = Ok w' /\ written w' l L' /\ store_same w' /\
    resolve rep0 l = Ok (seqs, rep) /\ Forall (fun q => 1 <= offset q) seqs /\ spans l + (iend - anchor) = iend - istart /\
    zlen L' <= iend - istart /\
    forall room, iend - istart <= room -> lz_block (upto istart) L' room seqs true = Ok (upto iend).
Proof.
  destruct Hfits as [Hf1 Hf2]. intros [Hw (seqs & Eres & Hoffs & Hex) Hsp Hmn Hlit Han [Hs1 Hs2]]. change WILDCOPY_OVERLENGTH with 32 in *.
  destruct (storeLastLiterals_ok src lo Hsrc w l L anchor (iend - anchor) Hw) as (w' & E & Hw' & Em & El); [lia|lia|lia|change WILDCOPY_OVERLENGTH with 32; lia|].
  exists w', (L ++ zsub src (anchor - lo) (iend - anchor)), seqs. split; [exact E|]. split; [exact Hw'|]. split; [split; congruence|]. split; [exact Eres|]. split; [done|]. split; [lia|].
  assert (zlen (zsub src (anchor - lo) (iend - anchor)) = iend - anchor) as Ell by (apply zlen_zsub; lia).
  split.
  { rewrite zlen_app, Ell. pose proof (wn_lits _ _ _ Hw) as HL. pose proof (wn_lit _ _ _ Hw). rewrite <- HL. rewrite zlen_zsub by (change WILDCOPY_OVERLENGTH with 32 in *; lia). lia. }
  intros room Hroom. unfold lz_block. pose proof (lz_exec_app _ L (zsub src (anchor - lo) (iend - anchor)) room seqs [] _ _ _ (Hex room ltac:(lia))) as Hx. rewrite app_nil_r in Hx.
  rewrite Hx. cbn [app lz_exec bind negb]. unfold RETURN_ERROR_IF. rewrite Ell.
  destruct (Z.gtb_spec (iend - anchor) (room - (anchor - istart))); [lia|]. rewrite upto_literals by lia. do 2 f_equal. lia.
Qed.

(** Nothing is stored yet. *)
Lemma parsed_nil :
  sw_sequences w0 = [] -> sw_lit w0 = 0 -> sw_longLengthType w0 = ZSTD_llt_none -> bytes_ok (sw_litStart w0) -> parsed w0 [] [] rep0 istart.
Proof.
  destruct Hfits as [_ Hf]. intros Es El Et Hb. split.
  - split; [done|done|unfold long_at; by rewrite Et|cbn; change ZSTD_BLOCKSIZE_MAX with 131072; lia|rewrite El; lia|by rewrite El|done].
  - exists []. split; [done|]. split; [done|]. intros room _. cbn [lz_exec]. do 3 f_equal. lia.
  - cbn. lia.
  - done.
  - lia.
  - lia.
  - done.
Qed.
End parse.
