(* ===== verification/MatchFinder.v ===== *)
(** The interface of a match finder: what the block compressor relies on. A finder
    implements it with its own tables; what is stored for a block is proved from the
    interface alone. *)

From S2P Require Import Prelude Errors Outcome Bits Mem Wire LzCopy ExecSequence SeqTables SeqDecode SeqEncode SeqRoundtrip Frame MatchBase MatchParse.

(** ** Definitions *)

(** [ZSTD_BlockCompressor_f]: from the window [src] at [lo], the match state, the store, the repeated
    offsets and the block, the size of the last literals and what is changed. *)
Definition ZSTD_BlockCompressor_f : Type :=
  list Z -> Z -> ZSTD_MatchState_t -> seq_writer -> list Z -> Z -> Z -> result (Z * list Z * ZSTD_MatchState_t * seq_writer).

(** The sequences and the literals of a block, without long distance matching or external
    sequences. *)
Definition store_block (blockCompressor : ZSTD_BlockCompressor_f) (src : list Z) (lo : Z) (ms : ZSTD_MatchState_t) (seqStore : seq_writer) (rep : list Z)
    (istart srcSize : Z) : result (list Z * ZSTD_MatchState_t * seq_writer) :=
  let seqStore := ZSTD_resetSeqStore seqStore in
  let* '(lastLLSize, rep, ms, seqStore) := blockCompressor src lo ms seqStore rep istart srcSize in
  let lastLiterals := istart + srcSize - lastLLSize in
  let* seqStore := ZSTD_storeLastLiterals src lo seqStore lastLiterals lastLLSize in
  Ok (rep, ms, seqStore).

(** ** Specification *)

(** A block of the window. *)
Record in_window (src : list Z) (lo istart size : Z) : Prop := {
  iw_bytes : bytes_ok src;
  iw_start : 0 <= lo <= istart;
  iw_size : 0 <= size <= ZSTD_BLOCKSIZE_MAX;
  iw_end : istart + size <= lo + zlen src;
  iw_index : istart + size < 2 ^ 32 - 3;
}.

(** The repeated offsets of the encoder and those of the decoder: the finders that do not use the
    third one do not keep it. *)
Definition reps_agree (rep r : list Z) : Prop :=
  exists a b c d, rep = [a; b; c] /\ r = [a; b; d] /\ 1 <= a < 2 ^ 32 /\ 1 <= b < 2 ^ 32 /\ 1 <= d < 2 ^ 32.

Definition store_empty (w : seq_writer) : Prop :=
  sw_sequences w = [] /\ sw_lit w = 0 /\ sw_longLengthType w = ZSTD_llt_none /\ bytes_ok (sw_litStart w).

(** [ms_ok lo b ms]: the state is that of a window at [lo], searched up to [b]. *)
Class MatchFinder (find : ZSTD_BlockCompressor_f) (ms_ok : Z -> Z -> ZSTD_MatchState_t -> Prop) (minMatch : Z) := {
  mf_min : MINMATCH <= minMatch;
  mf_find : forall src lo pre ms w rep r istart size,
    in_window src lo istart size -> ms_ok lo istart ms -> reps_agree rep r -> store_empty w -> store_fits istart (istart + size) minMatch w ->
    wp (find src lo ms w rep istart size) (fun '(lastLLSize, rep', ms', w') =>
      ms_ok lo (istart + size) ms' /\
      exists l L r', parsed src lo pre istart (istart + size) minMatch r w w' l L r' (istart + size - lastLLSize) /\ reps_agree rep' r') no_errors;
}.

(** What the store of a block means to the decoder: it takes the history [h] and the repeated
    offsets [r] to [h'] and [r']. *)
Definition store_describes (s : SeqStore_t) (r h h' r' : list Z) (size : Z) : Prop :=
  exists seqs, resolve r (store_meaning s) = Ok (seqs, r') /\ Forall (fun q => 1 <= offset q) seqs /\ zlen (lits s) <= size /\ bytes_ok (lits s) /\
    forall room, size <= room -> lz_block h (lits s) room seqs true = Ok h'.

(** ** Lemmas *)

Section interface.
Context {find : ZSTD_BlockCompressor_f} {ms_ok : Z -> Z -> ZSTD_MatchState_t -> Prop} {minMatch : Z} {F : MatchFinder find ms_ok minMatch}.

Lemma store_block_ok src lo pre ms w rep r istart size :
  in_window src lo istart size -> ms_ok lo istart ms -> reps_agree rep r -> bytes_ok (sw_litStart w) -> store_fits istart (istart + size) minMatch w ->
  wp (store_block find src lo ms w rep istart size) (fun '(rep', ms', w') =>
    ms_ok lo (istart + size) ms' /\ MINMATCH * zlen (sw_sequences w') <= size /\ store_same w w' /\ bytes_ok (sw_litStart w') /\
    exists r', reps_agree rep' r' /\ forall llCode ofCode mlCode, let s := store_of w' llCode ofCode mlCode in
      store_describes s r (upto src lo pre istart) (upto src lo pre (istart + size)) r' size /\
      (sequences s = [] \/ (zlen (sequences s) <= zlen llCode /\ zlen (sequences s) <= zlen ofCode /\ zlen (sequences s) <= zlen mlCode -> store_ok s))) no_errors.
Proof.
  intros Hin Hms Hr Hb Hf. pose proof Hin as [Hsrc Hst Hsz He Hi]. pose proof mf_min as Hmin. unfold store_block. apply wp_bind.
  eapply wp_mono; [apply (mf_find src lo pre ms (ZSTD_resetSeqStore w) rep r); [done|done|done|by split_and!|by destruct Hf]| |done].
  intros [[[last rep'] ms'] w'] (Hms' & l & L & r' & Hp & Hr'). pose proof (pd_anchor _ _ _ _ _ _ _ _ _ _ _ _ _ Hp) as Han.
  destruct (parsed_last src lo pre istart (istart + size) minMatch r (ZSTD_resetSeqStore w) Hsrc ltac:(lia) ltac:(by destruct Hf) w' l L r' _ Hp) as (w2 & L2 & seqs & Es & Hw2 & Hm2 & Eres & Hoffs & Hsp & HL2 & Hex).
  replace (istart + size - (istart + size - last)) with last in Es by lia. rewrite Es. cbn [bind]. wp_step.
  assert (zlen (sw_sequences w2) = zlen l) as En by (rewrite (wn_sequences _ _ _ Hw2); unfold zlen; by rewrite length_map).
  pose proof (spans_len l (wn_ok _ _ _ Hw2)) as Hlen. change MINMATCH with 3 in Hlen. pose proof (zlen_nonneg l).
  split; [done|]. split; [change MINMATCH with 3; lia|]. split; [exact Hm2|]. split; [apply (wn_bytes _ _ _ Hw2)|]. exists r'. split; [done|]. intros llCode ofCode mlCode. split.
  - exists seqs. rewrite (written_meaning _ _ _ _ _ _ Hw2). split; [done|]. split; [done|].
    cbn [store_of lits]. rewrite (wn_lits _ _ _ Hw2). split; [lia|]. split; [|intros room Hroom; apply Hex; lia].
    rewrite <- (wn_lits _ _ _ Hw2). apply bytes_ok_zsub, (wn_bytes _ _ _ Hw2).
  - destruct (decide (l = [])) as [->|Hne]; [left; cbn [store_of sequences]; by rewrite (wn_sequences _ _ _ Hw2)|]. right.
    cbn [store_of sequences]. rewrite En. intros (? & ? & ?). by apply (written_store_ok w2 l L2).
Qed.
End interface.

(** *** The tables and the repeated offsets of the finders *)

(** The hash table: its entries are before an index. *)
Definition tab_ok (hlog : Z) (t : list Z) (b : Z) : Prop := zlen t = 2 ^ hlog /\ Forall (fun e => 0 <= e < b) t.

Lemma tab_le hlog t b b' : tab_ok hlog t b -> b <= b' -> tab_ok hlog t b'.
Proof. intros [H1 H2] Hb. split; [done|]. eapply Forall_impl; [exact H2|]. cbn. lia. Qed.

Lemma tab_rd hlog t b h : tab_ok hlog t b -> 0 <= h < 2 ^ hlog -> exists e, rd t h = Ok e /\ 0 <= e < b.
Proof. intros [H1 H2] Hh. exists (zat t h). rewrite rd_ok by lia. split; [done|]. apply (zat_Forall _ _ h H2). lia. Qed.

Lemma tab_wr hlog t b h v : tab_ok hlog t b -> 0 <= h < 2 ^ hlog -> 0 <= v < b -> exists t', wr t h v = Ok t' /\ tab_ok hlog t' b.
Proof.
  intros [H1 H2] Hh Hv. exists (zupd t h v). rewrite wr_ok by lia. split; [done|]. split; [by rewrite zlen_zupd|]. by apply Forall_zupd.
Qed.

(** The repeated offsets of the decoder, from those of the finder, in which those out of the
    window are 0 and saved. *)
Definition reps_as (saved1 saved2 rep1 rep2 : Z) (r : list Z) : Prop :=
  exists r0 r1 r2, r = [r0; r1; r2] /\ 1 <= r0 < 2 ^ 32 /\ 1 <= r1 < 2 ^ 32 /\ 1 <= r2 < 2 ^ 32 /\
    r0 = (if rep1 =? 0 then saved1 else rep1) /\
    r1 = (if rep2 =? 0 then if negb (saved1 =? 0) && negb (rep1 =? 0) then saved1 else saved2 else rep2).

Lemma reps_new s1 s2 rep1 rep2 r off ll0 :
  reps_as s1 s2 rep1 rep2 r -> 0 <= rep1 -> 1 <= off < 2 ^ 32 - 3 ->
  exists r', ZSTD_updateRep r (OFFSET_TO_OFFBASE off) ll0 = Ok r' /\ zat r' 0 = off /\ reps_as s1 s2 off rep1 r'.
Proof.
  intros (r0 & r1 & r2 & -> & H0 & H1 & H2 & E0 & E1) Hr Hoff. unfold OFFSET_TO_OFFBASE, ZSTD_updateRep, OFFBASE_IS_OFFSET, OFFBASE_TO_OFFSET, ZSTD_REP_NUM.
  rewrite u32_small by lia. destruct (Z.gtb_spec (off + 3) 3); [|lia]. replace (off + 3 - 3) with off by lia. rewrite u32_small by lia.
  cbn. exists [off; r0; r1]. split; [done|]. split; [done|]. exists off, r0, r1. split; [done|]. split; [lia|]. split; [lia|]. split; [lia|].
  destruct (Z.eqb_spec off 0); [lia|]. split; [done|]. destruct (Z.eqb_spec rep1 0); [|done].
  destruct (Z.eqb_spec s1 0); [lia|done].
Qed.

Lemma reps_same s1 s2 rep1 rep2 r :
  reps_as s1 s2 rep1 rep2 r -> rep1 <> 0 -> ZSTD_updateRep r REPCODE1_TO_OFFBASE (b2z false) = Ok r /\ zat r 0 = rep1.
Proof.
  intros (r0 & r1 & r2 & -> & H0 & H1 & H2 & E0 & E1) Hr. destruct (Z.eqb_spec rep1 0); [done|]. split; [reflexivity|exact E0].
Qed.

Lemma reps_swap s1 s2 rep1 rep2 r :
  reps_as s1 s2 rep1 rep2 r -> rep1 <> 0 -> rep2 <> 0 ->
  exists r', ZSTD_updateRep r REPCODE1_TO_OFFBASE (b2z true) = Ok r' /\ zat r' 0 = rep2 /\ reps_as s1 s2 rep2 rep1 r'.
Proof.
  intros (r0 & r1 & r2 & -> & H0 & H1 & H2 & E0 & E1) Hr1 Hr2. destruct (Z.eqb_spec rep1 0); [done|]. destruct (Z.eqb_spec rep2 0); [done|]. subst r0 r1.
  exists [rep2; rep1; r2]. split; [reflexivity|]. split; [done|]. exists rep2, rep1, r2. split; [done|]. split; [lia|]. split; [lia|]. split; [lia|].
  destruct (Z.eqb_spec rep1 0), (Z.eqb_spec rep2 0); done.
Qed.

Lemma reps_final s1 s2 rep1 rep2 r :
  reps_as s1 s2 rep1 rep2 r ->
  zat r 0 = (if negb (rep1 =? 0) then rep1 else s1) /\
  zat r 1 = (if negb (rep2 =? 0) then rep2 else if negb (s1 =? 0) && negb (rep1 =? 0) then s1 else s2).
Proof.
  intros (r0 & r1 & r2 & -> & _ & _ & _ & E0 & E1). change (zat [r0; r1; r2] 0) with r0. change (zat [r0; r1; r2] 1) with r1.
  rewrite E0, E1. by destruct (rep1 =? 0), (rep2 =? 0).
Qed.

Lemma lowest_index ms curr windowLog :
  0 <= ms_dictLimit ms <= curr -> curr < 2 ^ 32 -> 0 <= windowLog <= 31 ->
  ms_dictLimit ms <= ZSTD_getLowestPrefixIndex ms curr windowLog <= curr.
Proof.
  intros Hd Hc Hw. unfold ZSTD_getLowestPrefixIndex. cbv zeta. destruct (negb _); [lia|]. rewrite Z.shiftl_mul_pow2, Z.mul_1_l by lia.
  pose proof (pow2_le windowLog 31 ltac:(lia)). pose proof (pow2_pos windowLog ltac:(lia)). rewrite (u32_small (2 ^ windowLog)) by lia. rewrite (u32_small (curr - ms_dictLimit ms)) by lia.
  destruct (Z.gtb_spec (curr - ms_dictLimit ms) (2 ^ windowLog)); [|lia]. rewrite u32_small by lia. lia.
Qed.

(** Offsets out of the window are saved and replaced by 0. *)
Lemma reps_start a b c maxRep :
  0 <= maxRep < 2 ^ 32 -> 1 <= a < 2 ^ 32 -> 1 <= b < 2 ^ 32 -> 1 <= c < 2 ^ 32 ->
  exists s1 s2 r1 r2,
    (if b >? maxRep then (b, 0) else (0, b)) = (s2, r2) /\ (if a >? maxRep then (a, 0) else (0, a)) = (s1, r1) /\
    0 <= r1 <= maxRep /\ 0 <= r2 <= maxRep /\ reps_as s1 s2 r1 r2 [a; b; c].
Proof.
  intros Hm Ha Hb Hc.
  destruct (Z.gtb_spec b maxRep), (Z.gtb_spec a maxRep); eexists _, _, _, _; (split; [reflexivity|]; split; [reflexivity|]; split; [lia|]; split; [lia|]);
    exists a, b, c; (split; [done|]; split; [lia|]; split; [lia|]; split; [lia|]); cbn [Z.eqb negb andb]; rewrite ?andb_false_r;
    destruct (Z.eqb_spec a 0), (Z.eqb_spec b 0); cbn [negb andb]; lia || done.
Qed.

Section reading.
Context (le : bool) (src : list Z) (lo iend : Z).
Hypothesis Hsrc : bytes_ok src.
Hypothesis Hend : iend <= lo + zlen src.
Notation agree := (agree src lo).

Lemma hash_ok hlog mls (Hlog : 0 <= hlog <= 32) p : lo <= p -> p <= iend - HASH_READ_SIZE -> exists h, ZSTD_hashPtr le src lo p hlog mls = Ok h /\ 0 <= h < 2 ^ hlog.
Proof.
  intros Hp Hl. unfold HASH_READ_SIZE in Hl. pose proof (hashPtr_ok le src lo p hlog mls Hsrc Hp ltac:(lia) ltac:(lia)) as H. by apply wp_no_errors_Ok in H.
Qed.

(** [n] bytes agree, and the rest of the match is counted. *)
Lemma count_match p m n :
  lo <= m < p -> 0 <= n -> p + n <= iend -> agree p m n ->
  exists k, ZSTD_count le src lo (p + n) (m + n) iend = Ok k /\ 0 <= k /\ p + (n + k) <= iend /\ agree p m (n + k).
Proof.
  intros Hm Hn Hp Ha. pose proof (count_ok le src lo Hsrc (p + n) (m + n) iend ltac:(lia) ltac:(lia) ltac:(lia)) as H.
  apply wp_no_errors_Ok in H as (k & E & Hk & Hak & _). exists k. split; [done|]. split; [lia|]. split; [lia|]. by apply agree_app.
Qed.

End reading.
