(* ===== verification/MatchFast.v ===== *)
(** The fast match finder without dictionary (compress/zstd_fast.c). A pointer is its index
    from [window.base]. *)

From S2P Require Import Prelude Errors Outcome Bits Mem Wire LzCopy ExecSequence SeqTables SeqDecode SeqEncode SeqRoundtrip Frame MatchBase MatchParse MatchFinder.

(** ** Definitions *)

(** What the search ends with: the limit is reached; a match at [ip0] with the first repeated
    offset; or a candidate of the table at [ip0]. *)
Inductive fast_outcome :=
| Fast_cleanup
| Fast_match (ip0 match0 mLength current0 : Z)
| Fast_offset (ip0 matchIdx current0 : Z).

(** The positions, the hashes and the candidate of the search. *)
Record fast_search := mkSearch {
  fs_ip0 : Z;
  fs_ip1 : Z;
  fs_ip2 : Z;
  fs_ip3 : Z;
  fs_hash0 : Z;
  fs_hash1 : Z;
  fs_matchIdx : Z;
  fs_step : Z;
  fs_nextStep : Z;
  fs_table : list Z;
}.

(** Between two searches. *)
Record fast_block_state := mkFast {
  ff_ip0 : Z;
  ff_anchor : Z;
  ff_rep1 : Z;
  ff_rep2 : Z;
  ff_table : list Z;
  ff_store : seq_writer;
}.

Definition kStepIncr : Z := Z.shiftl 1 (kSearchStrength - 1).

Section fast.
Context (MEM_isLittleEndian : bool) (src : list Z) (lo : Z).
Notation win32 := (win32 MEM_isLittleEndian src lo).
Notation hashPtr := (ZSTD_hashPtr MEM_isLittleEndian src lo).
Notation count := (ZSTD_count MEM_isLittleEndian src lo).

Definition match_dummy : list Z := [0x12; 0x34; 0x56; 0x78].

Definition ZSTD_match4Found_cmov (currentPtr matchIdx idxLowLimit : Z) : result bool :=
  let* a := win32 currentPtr in
  let* b := (if matchIdx >=? idxLowLimit then win32 matchIdx else MEM_read32 MEM_isLittleEndian match_dummy 0) in
  if negb (a =? b) then Ok false else Ok (matchIdx >=? idxLowLimit).

Definition ZSTD_match4Found_branch (currentPtr matchIdx idxLowLimit : Z) : result bool :=
  let* mval := (if matchIdx >=? idxLowLimit then win32 matchIdx else let* v := win32 currentPtr in Ok (Z.lxor v 1)) in
  let* v := win32 currentPtr in
  Ok (v =? mval).

Section search.
Context (hlog mls stepSize prefixStartIndex iend : Z) (useCmov : bool).
Notation ilimit := (iend - HASH_READ_SIZE).

Definition matchFound : Z -> Z -> Z -> result bool := if useCmov then ZSTD_match4Found_cmov else ZSTD_match4Found_branch.

(** The body of the search: two positions, [ip0] and [ip1], and the repeated offset at [ip2]. *)
Definition fast_body (rep_offset1 : Z) (s : fast_search) : result (flow fast_search (fast_outcome * list Z)) :=
  let '(mkSearch ip0 ip1 ip2 ip3 hash0 hash1 matchIdx step nextStep hashTable) := s in
  (* load repcode match for ip[2] *)
  let* rval := win32 (ip2 - rep_offset1) in
  (* write back hash table entry *)
  let current0 := u32 ip0 in
  let* hashTable := wr hashTable hash0 current0 in
  (* check repcode at ip[2] *)
  let* v2 := win32 ip2 in
  if (v2 =? rval) && (rep_offset1 >? 0) then
    let ip0 := ip2 in
    let match0 := ip0 - rep_offset1 in
    let* c := same8 src lo (ip0 - 1) (match0 - 1) in
    let mLength := b2z c in
    let* hashTable := wr hashTable hash1 (u32 ip1) in
    Ok (Break (Fast_match (ip0 - mLength) (match0 - mLength) (mLength + 4) current0, hashTable))
  else
    let* found := matchFound ip0 matchIdx prefixStartIndex in
    if found : bool then
      let* hashTable := wr hashTable hash1 (u32 ip1) in
      Ok (Break (Fast_offset ip0 matchIdx current0, hashTable))
    else
      (* lookup ip[1], hash ip[2], advance to next positions *)
      let* matchIdx := rd hashTable hash1 in
      let hash0 := hash1 in
      let* hash1 := hashPtr ip2 hlog mls in
      let ip0 := ip1 in
      let ip1 := ip2 in
      let ip2 := ip3 in
      (* write back hash table entry *)
      let current0 := u32 ip0 in
      let* hashTable := wr hashTable hash0 current0 in
      let* found := matchFound ip0 matchIdx prefixStartIndex in
      if found : bool then
        let* hashTable := (if step <=? 4 then wr hashTable hash1 (u32 ip1) else Ok hashTable) in
        Ok (Break (Fast_offset ip0 matchIdx current0, hashTable))
      else
        let* matchIdx := rd hashTable hash1 in
        let hash0 := hash1 in
        let* hash1 := hashPtr ip2 hlog mls in
        let ip0 := ip1 in
        let ip1 := ip2 in
        let ip2 := ip0 + step in
        let ip3 := ip1 + step in
        (* calculate step *)
        let '(step, nextStep) := if ip2 >=? nextStep then (step + 1, nextStep + kStepIncr) else (step, nextStep) in
        if ip3 <? ilimit then Ok (Continue (mkSearch ip0 ip1 ip2 ip3 hash0 hash1 matchIdx step nextStep hashTable))
        else Ok (Break (Fast_cleanup, hashTable)).

(** From [_start] on. *)
Definition fast_start (rep_offset1 ip0 : Z) (hashTable : list Z) : result (fast_outcome * list Z) :=
  let step := stepSize in
  let nextStep := ip0 + kStepIncr in
  let ip1 := ip0 + 1 in
  let ip2 := ip0 + step in
  let ip3 := ip2 + 1 in
  if ip3 >=? ilimit then Ok (Fast_cleanup, hashTable)
  else
    let* hash0 := hashPtr ip0 hlog mls in
    let* hash1 := hashPtr ip1 hlog mls in
    let* matchIdx := rd hashTable hash0 in
    loop_ (S (Z.to_nat (ilimit - ip0))) (fast_body rep_offset1) (mkSearch ip0 ip1 ip2 ip3 hash0 hash1 matchIdx step nextStep hashTable).

(** Immediate repeated offsets after a match. *)
Definition fast_repcodes (s : fast_block_state) : result fast_block_state :=
  loop_ (S (Z.to_nat (iend - ff_ip0 s))) (fun s =>
    let '(mkFast ip0 anchor rep_offset1 rep_offset2 hashTable store) := s in
    let* same := (if ip0 <=? ilimit then same32 MEM_isLittleEndian src lo ip0 (ip0 - rep_offset2) else Ok false) in
    if same : bool then
      (* store sequence *)
      let* n := count (ip0 + 4) (ip0 + 4 - rep_offset2) iend in
      let rLength := n + 4 in
      let* h := hashPtr ip0 hlog mls in
      let* hashTable := wr hashTable h (u32 ip0) in
      let ip0 := ip0 + rLength in
      let* store := ZSTD_storeSeq src lo store 0 anchor iend REPCODE1_TO_OFFBASE rLength in
      Ok (Continue (mkFast ip0 ip0 rep_offset2 rep_offset1 hashTable store))
    else Ok (Break s)) s.

(** From [_match] on: the sequence is stored, and the table filled. *)
Definition fast_match (s : fast_block_state) (match0 offcode mLength current0 : Z) : result fast_block_state :=
  let '(mkFast ip0 anchor rep_offset1 rep_offset2 hashTable store) := s in
  (* Count the forward length. *)
  let* n := count (ip0 + mLength) (match0 + mLength) iend in
  let mLength := mLength + n in
  let* store := ZSTD_storeSeq src lo store (ip0 - anchor) anchor iend offcode mLength in
  let ip0 := ip0 + mLength in
  let anchor := ip0 in
  (* Fill table and check for immediate repcode. *)
  if ip0 <=? ilimit then
    let* h := hashPtr (current0 + 2) hlog mls in
    let* hashTable := wr hashTable h (u32 (current0 + 2)) in
    let* h := hashPtr (ip0 - 2) hlog mls in
    let* hashTable := wr hashTable h (u32 (ip0 - 2)) in
    let s := mkFast ip0 anchor rep_offset1 rep_offset2 hashTable store in
    if rep_offset2 >? 0 then fast_repcodes s else Ok s
  else Ok (mkFast ip0 anchor rep_offset1 rep_offset2 hashTable store).

(** From [_offset] on. *)
Definition fast_offset (s : fast_block_state) (matchIdx current0 : Z) : result fast_block_state :=
  let '(mkFast ip0 anchor rep_offset1 rep_offset2 hashTable store) := s in
  (* Compute the offset code. *)
  let rep_offset2 := rep_offset1 in
  let rep_offset1 := u32 (ip0 - matchIdx) in
  let offcode := OFFSET_TO_OFFBASE rep_offset1 in
  (* Count the backwards match length. *)
  let* '(ip0, match0, mLength) := count_back src lo ip0 matchIdx anchor prefixStartIndex 4 in
  fast_match (mkFast ip0 anchor rep_offset1 rep_offset2 hashTable store) match0 offcode mLength current0.

(** A search and its match. *)
Definition fast_step (s : fast_block_state) : result (flow fast_block_state fast_block_state) :=
  let '(mkFast ip0 anchor rep_offset1 rep_offset2 hashTable store) := s in
  let* '(outcome, hashTable) := fast_start rep_offset1 ip0 hashTable in
  match outcome with
  | Fast_cleanup => Ok (Break (mkFast ip0 anchor rep_offset1 rep_offset2 hashTable store))
  | Fast_match ip0 match0 mLength current0 =>
      let* s := fast_match (mkFast ip0 anchor rep_offset1 rep_offset2 hashTable store) match0 REPCODE1_TO_OFFBASE mLength current0 in
      Ok (Continue s)
  | Fast_offset ip0 matchIdx current0 =>
      let* s := fast_offset (mkFast ip0 anchor rep_offset1 rep_offset2 hashTable store) matchIdx current0 in
      Ok (Continue s)
  end.
End search.

(** The size of the last literals, the repeated offsets, the match state and the store. *)
Definition ZSTD_compressBlock_fast_noDict_generic (ms : ZSTD_MatchState_t) (seqStore : seq_writer) (rep : list Z) (istart srcSize mls : Z) (useCmov : bool)
  : result (Z * list Z * ZSTD_MatchState_t * seq_writer) :=
  let cParams := ms_cParams ms in
  let hashTable := ms_hashTable ms in
  let hlog := cp_hashLog cParams in
  let stepSize := cp_targetLength cParams + b2z (cp_targetLength cParams =? 0) + 1 in
  let endIndex := u32 (istart + srcSize) in
  let prefixStartIndex := ZSTD_getLowestPrefixIndex ms endIndex (cp_windowLog cParams) in
  let iend := istart + srcSize in
  let* rep_offset1 := rd rep 0 in
  let* rep_offset2 := rd rep 1 in
  let ip0 := istart + b2z (istart =? prefixStartIndex) in
  let curr := u32 ip0 in
  let windowLow := ZSTD_getLowestPrefixIndex ms curr (cp_windowLog cParams) in
  let maxRep := u32 (curr - windowLow) in
  let '(offsetSaved2, rep_offset2) := if rep_offset2 >? maxRep then (rep_offset2, 0) else (0, rep_offset2) in
  let '(offsetSaved1, rep_offset1) := if rep_offset1 >? maxRep then (rep_offset1, 0) else (0, rep_offset1) in
  let* s := loop_ (S (Z.to_nat srcSize)) (fast_step hlog mls stepSize prefixStartIndex iend useCmov)
    (mkFast ip0 istart rep_offset1 rep_offset2 hashTable seqStore) in
  let rep_offset1 := ff_rep1 s in
  let rep_offset2 := ff_rep2 s in
  let offsetSaved2 := if negb (offsetSaved1 =? 0) && negb (rep_offset1 =? 0) then offsetSaved1 else offsetSaved2 in
  (* save reps for next block *)
  let* rep := wr rep 0 (if negb (rep_offset1 =? 0) then rep_offset1 else offsetSaved1) in
  let* rep := wr rep 1 (if negb (rep_offset2 =? 0) then rep_offset2 else offsetSaved2) in
  Ok (iend - ff_anchor s, rep, set_hashTable ms (ff_table s), ff_store s).

Definition ZSTD_compressBlock_fast (ms : ZSTD_MatchState_t) (seqStore : seq_writer) (rep : list Z) (istart srcSize : Z)
  : result (Z * list Z * ZSTD_MatchState_t * seq_writer) :=
  let mml := cp_minMatch (ms_cParams ms) in
  let useCmov := cp_windowLog (ms_cParams ms) <? 19 in
  let mls := if mml =? 5 then 5 else if mml =? 6 then 6 else if mml =? 7 then 7 else 4 in
  ZSTD_compressBlock_fast_noDict_generic ms seqStore rep istart srcSize mls useCmov.
End fast.

(** ** Lemmas *)

Section finder.
Context (le : bool) (src : list Z) (lo hlog mls stepSize low iend : Z) (useCmov : bool).
Hypothesis Hsrc : bytes_ok src.
Hypothesis Hlo : 0 <= lo <= low.
Hypothesis Hend : iend <= lo + zlen src /\ iend < 2 ^ 32 - 3.
Hypothesis Hlog : 0 <= hlog <= 32.
Hypothesis Hstep : 2 <= stepSize.
Notation ilimit := (iend - HASH_READ_SIZE).
Notation tab_ok := (tab_ok hlog).
Notation agree := (agree src lo).

Lemma matchFound_ok p idx : lo <= p -> p + 4 <= iend -> 0 <= idx < p ->
  exists b, matchFound le src lo useCmov p idx low = Ok b /\ (b = true -> low <= idx /\ agree p idx 4).
Proof.
  intros Hp Hp4 Hidx. assert (win32 le src lo p = Ok (native_val le (zsub src (p - lo) 4))) as Ep by (unfold win32, MEM_read32; rewrite rd_bytes_ok by lia; done).
  assert (forall q, low <= q < p -> win32 le src lo q = Ok (native_val le (zsub src (q - lo) 4))) as Eq by (intros; unfold win32, MEM_read32; rewrite rd_bytes_ok by lia; done).
  unfold matchFound. destruct useCmov.
  - unfold ZSTD_match4Found_cmov. rewrite Ep. cbn [bind]. destruct (Z.geb_spec idx low).
    + rewrite Eq by lia. cbn [bind]. match goal with |- context [negb ?x] => exists x; split; [by destruct x|] end.
      intros Heq. split; [lia|]. apply (native_eqb le src lo Hsrc); lia.
    + unfold MEM_read32. rewrite rd_bytes_ok by (done || (change (zlen match_dummy) with 4; lia)). cbn [bind]. exists false. split; [by destruct (negb _)|done].
  - unfold ZSTD_match4Found_branch. destruct (Z.geb_spec idx low).
    + rewrite Eq by lia. cbn [bind]. rewrite Ep. cbn [bind]. eexists. split; [done|]. intros Heq. split; [lia|]. apply (native_eqb le src lo Hsrc); lia.
    + rewrite Ep. cbn [bind]. exists false. split; [|done]. f_equal. apply Z.eqb_neq. intros E. apply (f_equal (Z.lxor (native_val le (zsub src (p - lo) 4)))) in E.
      rewrite <- Z.lxor_assoc, Z.lxor_nilpotent, Z.lxor_0_l in E. done.
Qed.

Notation hash_at := (hash_ok le src lo iend Hsrc (proj1 Hend) hlog mls Hlog).

Lemma u32_ix p : 0 <= p <= iend -> u32 p = p.
Proof. intros. apply u32_small. lia. Qed.

(** What a search may end with, from [anchor] on. *)
Definition outcome_ok (anchor ip0 rep1 : Z) (r : fast_outcome * list Z) : Prop :=
  match r.1 with
  | Fast_cleanup => tab_ok r.2 iend
  | Fast_match p m n cur => anchor < p /\ ip0 <= p /\ m = p - rep1 /\ 1 <= rep1 /\ lo <= m /\ 4 <= n /\ p + n <= iend /\ agree p m n /\ lo <= cur /\ cur + 2 < p + n /\ tab_ok r.2 (p + n)
  | Fast_offset p idx cur => anchor <= p /\ ip0 <= p /\ low <= idx < p /\ p + 4 <= iend /\ agree p idx 4 /\ cur = p /\ tab_ok r.2 (p + 4)
  end.

(** At each turn of the search. *)
Record search_ok (ip_0 rep1 : Z) (s : fast_search) : Prop := {
  so_ip0 : lo <= ip_0 <= fs_ip0 s;
  so_ip1 : fs_ip1 s = fs_ip0 s + 1;
  so_ip2 : fs_ip0 s + 2 <= fs_ip2 s <= fs_ip0 s + fs_step s;
  so_ip3 : fs_ip3 s = fs_ip2 s + 1 /\ fs_ip3 s < ilimit;
  so_rep : 0 <= rep1 <= fs_ip0 s - lo;
  so_hash : 0 <= fs_hash0 s < 2 ^ hlog /\ 0 <= fs_hash1 s < 2 ^ hlog;
  so_idx : 0 <= fs_matchIdx s < fs_ip0 s;
  so_table : tab_ok (fs_table s) (fs_ip0 s);
}.

Lemma fast_body_ok anchor ip_0 rep1 s :
  anchor <= ip_0 -> search_ok ip_0 rep1 s ->
  wp (fast_body le src lo hlog mls low iend useCmov rep1 s) (fun r =>
    match r with
    | Continue s' => search_ok ip_0 rep1 s' /\ fs_ip0 s < fs_ip0 s'
    | Break o => outcome_ok anchor ip_0 rep1 o
    end) no_errors.
Proof.
  intros Han [H0 H1 H2 [H3 H3'] H4 [H5 H5'] H6 H7]. destruct s as [ip0 ip1 ip2 ip3 hash0 hash1 matchIdx step nextStep tb]. cbn [fs_ip0 fs_ip1 fs_ip2 fs_ip3 fs_hash0 fs_hash1 fs_matchIdx fs_step fs_nextStep fs_table] in *.
  subst ip1 ip3. unfold HASH_READ_SIZE in *. unfold fast_body.
  assert (forall q, lo <= q -> q + 4 <= iend -> win32 le src lo q = Ok (native_val le (zsub src (q - lo) 4))) as Ew by (intros; unfold win32, MEM_read32; rewrite rd_bytes_ok by lia; done).
  rewrite !Ew by lia. cbn [bind]. rewrite u32_ix by lia.
  destruct (tab_wr hlog tb (ip0 + 1) hash0 ip0) as (t1 & E1 & T1); [eapply tab_le; [done|lia]|done|lia|]. rewrite E1. cbn [bind].
  destruct ((native_val le (zsub src (ip2 - lo) 4) =? native_val le (zsub src (ip2 - rep1 - lo) 4)) && (rep1 >? 0)) eqn:Erep.
  - (* the repeated offset *)
    apply andb_true_iff in Erep as [Erep Hrep]. apply Z.gtb_lt in Hrep.
    rewrite Z.eqb_sym in Erep. apply (native_eqb le src lo Hsrc) in Erep; [|lia..].
    destruct (same8_ok src lo (ip2 - rep1 - 1) (ip2 - 1)) as (c & Ec & Hc); [lia|lia|]. rewrite Ec. cbn [bind]. rewrite u32_ix by lia.
    destruct (tab_wr hlog t1 (ip0 + 2) hash1 (ip0 + 1)) as (t2 & E2 & T2); [eapply tab_le; [done|lia]|done|lia|]. rewrite E2. cbn [bind wp]. unfold outcome_ok; cbn [fst snd].
    assert (0 <= b2z c <= 1) as Hcb by (by destruct c). split; [lia|]. split; [lia|]. split; [lia|]. split; [lia|]. split; [lia|]. split; [lia|]. split; [lia|]. split; [|split; [lia|split; [lia|eapply tab_le; [done|lia]]]].
    destruct c; cbn [b2z]; [|by rewrite !Z.sub_0_r]. apply (agree_app src lo _ _ 1 4); [lia| |].
    + intros j Hj. symmetry. by apply (proj1 Hc).
    + replace (ip2 - 1 + 1) with ip2 by lia. by replace (ip2 - rep1 - 1 + 1) with (ip2 - rep1) by lia.
  - destruct (matchFound_ok ip0 matchIdx) as (b & Eb & Hb); [lia|lia|lia|]. rewrite Eb. cbn [bind]. destruct b.
    { destruct (Hb eq_refl) as [Hb1 Hb2]. rewrite u32_ix by lia. destruct (tab_wr hlog t1 (ip0 + 4) hash1 (ip0 + 1)) as (t2 & E2 & T2); [eapply tab_le; [done|lia]|done|lia|].
      rewrite E2. cbn [bind wp]. unfold outcome_ok; cbn [fst snd]. split_and!; done || lia. }
    destruct (tab_rd hlog t1 _ hash1 T1 H5') as (e1 & R1 & Re1). rewrite R1. cbn [bind].
    destruct (hash_at ip2) as (h2 & Eh2 & Hh2); [lia|unfold HASH_READ_SIZE; lia|]. rewrite Eh2. cbn [bind]. rewrite u32_ix by lia.
    destruct (tab_wr hlog t1 (ip0 + 2) hash1 (ip0 + 1)) as (t2 & E2 & T2); [eapply tab_le; [done|lia]|done|lia|]. rewrite E2. cbn [bind].
    destruct (matchFound_ok (ip0 + 1) e1) as (b & Eb' & Hb'); [lia|lia|lia|]. rewrite Eb'. cbn [bind]. destruct b.
    { destruct (Hb' eq_refl) as [Hb1 Hb2]. rewrite u32_ix by lia. destruct (Z.leb_spec step 4).
      - destruct (tab_wr hlog t2 (ip0 + 5) h2 ip2) as (t3 & E3 & T3); [eapply tab_le; [done|lia]|done|lia|]. rewrite E3. cbn [bind wp]. unfold outcome_ok; cbn [fst snd].
        replace (ip0 + 1 + 4) with (ip0 + 5) by lia. split_and!; done || lia.
      - cbn [bind wp]. unfold outcome_ok; cbn [fst snd]. split_and!; try done; try lia. eapply tab_le; [done|lia]. }
    destruct (tab_rd hlog t2 _ h2 T2 Hh2) as (e2 & R2 & Re2). rewrite R2. cbn [bind].
    destruct (hash_at (ip2 + 1)) as (h3 & Eh3 & Hh3); [lia|unfold HASH_READ_SIZE; lia|]. rewrite Eh3. cbn [bind].
    assert (exists step' next', (if ip2 + step >=? nextStep then (step + 1, nextStep + kStepIncr) else (step, nextStep)) = (step', next') /\ step <= step') as (step' & next' & -> & Hst').
    { destruct (ip2 + step >=? nextStep); eexists _, _; (split; [done|lia]). }
    destruct (Z.ltb_spec (ip2 + 1 + step) (iend - HASH_READ_SIZE)).
    + cbn [wp]. split; [|cbn; lia]. split; cbn; try lia. eapply tab_le; [done|lia].
    + cbn [wp]. unfold outcome_ok; cbn. eapply tab_le; [done|lia].
Qed.

Lemma fast_start_ok anchor rep1 ip0 tb :
  lo <= ip0 -> anchor <= ip0 <= anchor + 1 -> anchor <= iend -> 0 <= rep1 <= ip0 - lo -> tab_ok tb anchor ->
  wp (fast_start le src lo hlog mls stepSize low iend useCmov rep1 ip0 tb) (outcome_ok anchor ip0 rep1) no_errors.
Proof.
  intros Hip Han Hae Hr Ht. unfold fast_start. cbv zeta. destruct (Z.geb_spec (ip0 + stepSize + 1) ilimit) as [Hg|Hg].
  - cbn [wp]. eapply tab_le; [done|lia].
  - unfold HASH_READ_SIZE in *. destruct (hash_at ip0) as (h0 & E0 & Hh0); [lia|unfold HASH_READ_SIZE; lia|]. destruct (hash_at (ip0 + 1)) as (h1 & E1 & Hh1); [lia|unfold HASH_READ_SIZE; lia|].
    rewrite E0. cbn [bind]. rewrite E1. cbn [bind]. destruct (tab_rd hlog tb _ h0 Ht Hh0) as (e & R & Re). rewrite R. cbn [bind].
    apply (wp_loop (search_ok ip0 rep1) (fun s => ilimit - fs_ip0 s)).
    + split; cbn; unfold HASH_READ_SIZE; try lia. eapply tab_le; [done|lia].
    + cbn. unfold HASH_READ_SIZE. lia.
    + intros s Hs. eapply wp_mono; [apply (fast_body_ok anchor ip0 rep1); [lia|done]| |done]. intros [s'|o]; [|done]. intros [Hs' Hlt]. split; [done|].
      pose proof (so_ip3 _ _ _ Hs'). pose proof (so_ip2 _ _ _ Hs'). lia.
Qed.
End finder.

Section block.
Context (le : bool) (src : list Z) (lo : Z) (pre : list Z) (istart iend : Z) (rep0 : list Z) (w0 : seq_writer) (saved1 saved2 hlog mls stepSize low : Z) (useCmov : bool).
Hypothesis Hsrc : bytes_ok src.
Hypothesis Hlo : 0 <= lo <= low.
Hypothesis Hend : iend <= lo + zlen src /\ iend < 2 ^ 32 - 3.
Hypothesis Hlog : 0 <= hlog <= 32.
Hypothesis Hstep : 2 <= stepSize.
Hypothesis Hblock : lo <= istart /\ istart <= iend /\ iend - istart <= ZSTD_BLOCKSIZE_MAX.
Notation ilimit := (iend - HASH_READ_SIZE).
Notation tab_ok := (tab_ok hlog).
Notation agree := (agree src lo).
Notation parsed := (parsed src lo pre istart iend 4 rep0 w0).
Hypothesis Hfits : store_fits istart iend 4 w0.

Notation hash_at := (hash_ok le src lo iend Hsrc (proj1 Hend) hlog mls Hlog).
Notation count_at := (count_match le src lo iend Hsrc (proj1 Hend)).

(** Between two searches: the block is parsed up to the anchor. *)
Record fast_ok (s : fast_block_state) : Prop := {
  fo_parsed : exists l L r, parsed (ff_store s) l L r (ff_anchor s) /\ reps_as saved1 saved2 (ff_rep1 s) (ff_rep2 s) r;
  fo_table : tab_ok (ff_table s) (ff_anchor s);
  fo_ip0 : ff_anchor s <= ff_ip0 s <= ff_anchor s + 1;
  fo_anchor : istart <= ff_anchor s <= iend;
  fo_rep1 : 0 <= ff_rep1 s <= ff_ip0 s - lo;
  fo_rep2 : 0 <= ff_rep2 s <= ff_ip0 s - lo;
}.

Lemma fast_repcodes_ok s :
  fast_ok s -> ff_ip0 s = ff_anchor s -> ff_rep1 s <> 0 -> ff_rep2 s <> 0 ->
  wp (fast_repcodes le src lo hlog mls iend s) (fun s' => fast_ok s' /\ ff_ip0 s' = ff_anchor s' /\ ff_ip0 s <= ff_ip0 s') no_errors.
Proof.
  intros Hs Hip Hr1 Hr2. unfold fast_repcodes.
  apply (wp_loop (fun s' => fast_ok s' /\ ff_ip0 s' = ff_anchor s' /\ ff_ip0 s <= ff_ip0 s' /\ ff_rep1 s' <> 0 /\ ff_rep2 s' <> 0) (fun s' => iend - ff_ip0 s')).
  { by split_and!. }
  { destruct Hs. lia. }
  clear Hr1 Hr2. intros [ip0 anchor rep1 rep2 tb store] ([(l & L & r & Hp & Hr) Ht Hi Ha H1 H2] & Eip & Hle & Hr1 & Hr2). cbn [ff_ip0 ff_anchor ff_rep1 ff_rep2 ff_table ff_store] in *. subst ip0.
  assert (fast_ok (mkFast anchor anchor rep1 rep2 tb store)) as Hsame by (split; cbn; try done; by exists l, L, r).
  destruct (Z.leb_spec anchor ilimit) as [Hlim|Hlim]; [|cbn [bind]; wp_step; by split_and!].
  unfold HASH_READ_SIZE in Hlim. destruct (same32_ok le src lo Hsrc anchor (anchor - rep2)) as (c & Ec & Hc); [lia..|]. rewrite Ec. cbn [bind].
  destruct c; [|wp_step; by split_and!]. apply proj1 in Hc. specialize (Hc eq_refl).
  destruct (count_at anchor (anchor - rep2) 4) as (k & Ek & Hk & Hkl & Hka); [lia|lia|lia|done|].
  replace (anchor + 4 - rep2) with (anchor - rep2 + 4) by lia. rewrite Ek. cbn [bind].
  destruct (hash_at anchor) as (h & Eh & Hh); [lia|unfold HASH_READ_SIZE; lia|]. rewrite Eh. cbn [bind].
  rewrite (u32_small anchor) by lia. destruct (tab_wr hlog tb (anchor + (k + 4)) h anchor) as (t' & Et & Ht'); [eapply tab_le; [done|lia]|done|lia|]. rewrite Et. cbn [bind].
  destruct (reps_swap _ _ _ _ _ Hr Hr1 Hr2) as (r' & Eu & Ez & Hr').
  destruct (parsed_store src lo pre istart iend 4 rep0 w0 Hsrc ltac:(lia) ltac:(done) Hfits store l L r anchor anchor rep2 (k + 4) REPCODE1_TO_OFFBASE r') as (w' & L' & Es & Hp'); try done; try lia.
  { by replace (k + 4) with (4 + k) by lia. }
  { by rewrite Z.sub_diag. }
  rewrite Z.sub_diag in Es. rewrite Es. cbn [bind]. wp_step. cbn [ff_ip0 ff_rep1 ff_rep2 ff_anchor ff_table ff_store].
  split; [|lia]. split; [|split; [done|split; [lia|done]]]. split; cbn [ff_ip0 ff_rep1 ff_rep2 ff_anchor ff_table ff_store]; try done; try lia.
  exists (l ++ [(0, k + 4, REPCODE1_TO_OFFBASE)]), L', r'. split; [|done]. by rewrite Z.sub_diag in Hp'.
Qed.

Lemma fast_match_ok s m ob n cur l L r r' :
  parsed (ff_store s) l L r (ff_anchor s) -> istart <= ff_anchor s <= ff_ip0 s ->
  lo <= m < ff_ip0 s -> 4 <= n -> ff_ip0 s + n <= iend -> agree (ff_ip0 s) m n -> 1 <= ob < 2 ^ 32 ->
  ZSTD_updateRep r ob (b2z (ff_ip0 s - ff_anchor s =? 0)) = Ok r' -> zat r' 0 = ff_ip0 s - m ->
  reps_as saved1 saved2 (ff_rep1 s) (ff_rep2 s) r' -> 1 <= ff_rep1 s <= ff_ip0 s + n - lo -> 0 <= ff_rep2 s <= ff_ip0 s + n - lo ->
  lo <= cur -> cur + 2 < ff_ip0 s + n -> tab_ok (ff_table s) (ff_ip0 s + n) ->
  wp (fast_match le src lo hlog mls iend s m ob n cur) (fun s' => fast_ok s' /\ ff_ip0 s + n <= ff_ip0 s' /\ ff_ip0 s' = ff_anchor s') no_errors.
Proof.
  destruct s as [ip0 anchor rep1 rep2 tb store]. cbn [ff_ip0 ff_rep1 ff_rep2 ff_anchor ff_table ff_store]. intros Hp Han Hm Hn Hpn Ha Hob Eu Ez Hr H1 H2 Hc Hc2 Ht.
  unfold fast_match. destruct (count_at ip0 m n) as (k & Ek & Hk & Hkl & Hka); [lia|lia|lia|done|]. rewrite Ek. cbn [bind].
  destruct (parsed_store src lo pre istart iend 4 rep0 w0 Hsrc ltac:(lia) ltac:(done) Hfits store l L r anchor ip0 (ip0 - m) (n + k) ob r') as (w' & L' & Es & Hp'); try done; try lia.
  { by replace (ip0 - (ip0 - m)) with m by lia. }
  rewrite Es. cbn [bind]. set (ip1 := ip0 + (n + k)) in *.
  assert (forall t, tab_ok t ip1 -> fast_ok (mkFast ip1 ip1 rep1 rep2 t w')) as Hok.
  { intros t Htt. split; cbn [ff_ip0 ff_rep1 ff_rep2 ff_anchor ff_table ff_store]; try done; try lia. by exists (l ++ [(ip0 - anchor, n + k, ob)]), L', r'. }
  assert (tab_ok tb ip1) as Ht1 by (eapply tab_le; [done|lia]).
  destruct (Z.leb_spec ip1 ilimit) as [Hlim|Hlim]; [|wp_step; split; [by apply Hok|cbn; lia]]. unfold HASH_READ_SIZE in Hlim.
  destruct (hash_at (cur + 2)) as (h1 & Eh1 & Hh1); [lia|unfold HASH_READ_SIZE; lia|]. rewrite Eh1. cbn [bind].
  rewrite (u32_small (cur + 2)) by lia. destruct (tab_wr hlog tb ip1 h1 (cur + 2)) as (t1 & E1 & T1); [done|done|lia|]. rewrite E1. cbn [bind].
  destruct (hash_at (ip1 - 2)) as (h2 & Eh2 & Hh2); [lia|unfold HASH_READ_SIZE; lia|]. rewrite Eh2. cbn [bind].
  rewrite (u32_small (ip1 - 2)) by lia. destruct (tab_wr hlog t1 ip1 h2 (ip1 - 2)) as (t2 & E2 & T2); [done|done|lia|]. rewrite E2. cbn [bind].
  destruct (Z.gtb_spec rep2 0); [|wp_step; split; [by apply Hok|cbn; lia]].
  eapply wp_mono; [apply fast_repcodes_ok; [by apply Hok|done|cbn; lia|cbn; lia]| |done].
  intros s' (Hs' & Eip & Hge). cbn in Hge. split; [done|]. split; [lia|done].
Qed.

Lemma fast_step_ok s :
  fast_ok s ->
  wp (fast_step le src lo hlog mls stepSize low iend useCmov s) (fun f =>
    match f with
    | Continue s' => fast_ok s' /\ ff_ip0 s < ff_ip0 s' <= iend
    | Break s' => (exists l L r, parsed (ff_store s') l L r (ff_anchor s') /\ reps_as saved1 saved2 (ff_rep1 s') (ff_rep2 s') r) /\
        tab_ok (ff_table s') iend
    end) no_errors.
Proof.
  intros [(l & L & r & Hp & Hr) Ht Hi Ha H1 H2]. destruct s as [ip0 anchor rep1 rep2 tb store]. cbn [ff_ip0 ff_rep1 ff_rep2 ff_anchor ff_table ff_store] in *.
  unfold fast_step. apply wp_bind. eapply wp_mono; [apply (fast_start_ok le src lo hlog mls stepSize low iend useCmov Hsrc Hlo Hend Hlog Hstep anchor); done || lia| |done].
  intros [o tb'] Ho. destruct o as [|p m n cur|p idx cur]; unfold outcome_ok in Ho; cbn [fst snd] in Ho.
  - wp_step. cbn [ff_ip0 ff_rep1 ff_rep2 ff_anchor ff_table ff_store]. split; [by exists l, L, r|done].
  - destruct Ho as (O1 & O2 & -> & O4 & O5 & O6 & O7 & O8 & O9 & O10 & O11). apply wp_bind.
    destruct (reps_same _ _ _ _ _ Hr ltac:(lia)) as [Eu Ez].
    eapply wp_mono; [eapply (fast_match_ok (mkFast p anchor rep1 rep2 tb' store) (p - rep1) REPCODE1_TO_OFFBASE n cur l L r r)| |done]; cbn [ff_ip0 ff_rep1 ff_rep2 ff_anchor ff_table ff_store]; try done; try lia.
    + rewrite (proj2 (Z.eqb_neq _ 0)) by lia. exact Eu.
    + intros s' (Hs' & Hge & Eip). wp_step. split; [done|]. pose proof (fo_anchor _ Hs'). cbn in Hge |- *. lia.
  - destruct Ho as (O1 & O2 & O3 & O4 & O5 & -> & O7). unfold fast_offset. apply wp_bind. apply wp_bind.
    eapply wp_mono; [apply (count_back_ok src lo p idx anchor low 4); done || lia| |done].
    intros [[p' m'] n'] (B1 & -> & -> & B4 & B5). rewrite u32_small by lia.
    destruct (reps_new _ _ _ _ r (p - idx) (b2z (p' - anchor =? 0)) Hr ltac:(lia) ltac:(lia)) as (r' & Eu & Ez & Hr').
    eapply wp_mono; [eapply (fast_match_ok (mkFast p' anchor (p - idx) rep1 tb' store) (idx - (p - p')) (OFFSET_TO_OFFBASE (p - idx)) (4 + (p - p')) p l L r r')| |done];
      cbn [ff_ip0 ff_rep1 ff_rep2 ff_anchor ff_table ff_store]; try done; try lia.
    + unfold OFFSET_TO_OFFBASE, ZSTD_REP_NUM. rewrite u32_small; lia.
    + by replace (p' + (4 + (p - p'))) with (p + 4) by lia.
    + intros s' (Hs' & Hge & Eip). wp_step. split; [done|]. pose proof (fo_anchor _ Hs'). cbn in Hge |- *. lia.
Qed.
End block.

(** *** A block *)

(** The state of the fast finder: the window begins at [lo], and the entries of the table are before [b]. *)
Definition fast_ms_ok (lo b : Z) (ms : ZSTD_MatchState_t) : Prop :=
  let p := ms_cParams ms in
  ms_dictLimit ms = lo /\ tab_ok (cp_hashLog p) (ms_hashTable ms) b /\ 1 <= cp_hashLog p <= 32 /\ 0 <= cp_windowLog p <= 31 /\ 0 <= cp_targetLength p.

Lemma fast_generic_ok le src lo pre ms w rep r istart size mls useCmov :
  in_window src lo istart size -> fast_ms_ok lo istart ms -> reps_agree rep r -> store_empty w -> store_fits istart (istart + size) 4 w ->
  wp (ZSTD_compressBlock_fast_noDict_generic le src lo ms w rep istart size mls useCmov) (fun '(lastLLSize, rep', ms', w') =>
    fast_ms_ok lo (istart + size) ms' /\
    exists l L r', parsed src lo pre istart (istart + size) 4 r w w' l L r' (istart + size - lastLLSize) /\ reps_agree rep' r') no_errors.
Proof.
  intros [Hsrc Hst Hsz He Hi] (Hdl & Htab & Hhl & Hwl & Htl) (a & b & c & d & -> & -> & Ha & Hb & Hd) (Es & El & Et & Hbl) Hf. change ZSTD_BLOCKSIZE_MAX with 131072 in Hsz.
  unfold ZSTD_compressBlock_fast_noDict_generic. cbv zeta. set (p := ms_cParams ms) in *. set (iend := istart + size) in *.
  rewrite (u32_small iend) by lia. pose proof (lowest_index ms iend (cp_windowLog p) ltac:(lia) ltac:(lia) Hwl) as Hlow. rewrite Hdl in Hlow. set (low := ZSTD_getLowestPrefixIndex ms iend _) in *.
  change (rd [a; b; c] 0) with (Ok a). change (rd [a; b; c] 1) with (Ok b). cbn [bind].
  set (ip0 := istart + b2z (istart =? low)). assert (istart <= ip0 <= istart + 1) as Hip by (unfold ip0; destruct (istart =? low); cbn; lia).
  rewrite (u32_small ip0) by lia. pose proof (lowest_index ms ip0 (cp_windowLog p) ltac:(lia) ltac:(lia) Hwl) as Hwlow. rewrite Hdl in Hwlow. set (windowLow := ZSTD_getLowestPrefixIndex ms ip0 _) in *.
  rewrite (u32_small (ip0 - windowLow)) by lia.
  destruct (reps_start a b d (ip0 - windowLow) ltac:(lia) Ha Hb Hd) as (s1 & s2 & r1 & r2 & -> & -> & Hr1 & Hr2 & Hreps).
  set (stepSize := cp_targetLength p + b2z (cp_targetLength p =? 0) + 1). assert (2 <= stepSize) as Hstep by (unfold stepSize; destruct (Z.eqb_spec (cp_targetLength p) 0); cbn; lia).
  assert (iend - istart = size) as Esz by (unfold iend; lia).
  apply wp_bind. eapply wp_mono; [apply (wp_loop (fast_ok src lo pre istart iend [a; b; d] w s1 s2 (cp_hashLog p)) (fun s => Z.max 0 (iend - ff_ip0 s))
    _ _ _ (fun s' => (exists l L r, parsed src lo pre istart iend 4 [a; b; d] w (ff_store s') l L r (ff_anchor s') /\ reps_as s1 s2 (ff_rep1 s') (ff_rep2 s') r) /\
        tab_ok (cp_hashLog p) (ff_table s') iend))| |done].
  - split; cbn [ff_ip0 ff_rep1 ff_rep2 ff_anchor ff_table ff_store]; try done; try lia. exists [], [], [a; b; d]. split; [|done]. apply parsed_nil; try done. change ZSTD_BLOCKSIZE_MAX with 131072. lia.
  - cbn. lia.
  - intros s Hs. eapply wp_mono; [eapply (fast_step_ok le src lo pre istart iend [a; b; d] w s1 s2 (cp_hashLog p) mls stepSize low useCmov); done || lia || (change ZSTD_BLOCKSIZE_MAX with 131072; lia)| |done].
    intros [s'|s']; [|done]. intros [Hs' Hlt]. split; [done|]. lia.
  - intros s ((l & L & r & Hp & Hr) & Ht'). destruct (reps_final _ _ _ _ _ Hr) as [F0 F1]. rewrite <- F0, <- F1.
    change (wr [a; b; c] 0 (zat r 0)) with (Ok [zat r 0; b; c]). cbn [bind]. change (wr [zat r 0; b; c] 1 (zat r 1)) with (Ok [zat r 0; zat r 1; c]). cbn [bind]. wp_step.
    split.
    + split; [done|]. split; [exact Ht'|]. done.
    + exists l, L, r. replace (iend - (iend - ff_anchor s)) with (ff_anchor s) by lia. split; [exact Hp|].
      destruct Hr as (r0 & r1' & r2' & -> & ? & ? & ? & _). by exists r0, r1', c, r2'.
Qed.

#[global] Instance fast_finder le : MatchFinder (ZSTD_compressBlock_fast le) fast_ms_ok 4.
Proof. split; [done|]. intros. by apply fast_generic_ok. Qed.
