(* ===== verification/MatchDFast.v ===== *)
(** The double fast match finder without dictionary (compress/zstd_double_fast.c): a table
    for matches of 8 bytes and one for short ones. A pointer is its index from [window.base]. *)

From S2P Require Import Prelude Errors Outcome Bits Mem Wire LzCopy ExecSequence SeqTables SeqDecode SeqEncode SeqRoundtrip Frame MatchBase MatchParse MatchFinder.

(** ** Definitions *)

(** What the search ends with: the limit is reached; a match at [ip] with the first repeated offset;
    or a match at [ip] with its length and offset, and what is left of the search: the long hash
    of [ip1] and the step. *)
Inductive dfast_outcome :=
| DFast_cleanup
| DFast_repcode (ip mLength curr : Z)
| DFast_found (ip mLength offset curr ip1 hl1 step : Z).

(** The search between two positions; [hashLong] and [hashSmall] are the tables. *)
Record dfast_search := mkDSearch {
  ds_ip : Z;
  ds_ip1 : Z;
  ds_hl0 : Z;
  ds_idxl0 : Z;
  ds_step : Z;
  ds_nextStep : Z;
  ds_long : list Z;
  ds_small : list Z;
}.

(** Between two searches. *)
Record dfast_state := mkDFast {
  df_ip : Z;
  df_anchor : Z;
  df_rep1 : Z;
  df_rep2 : Z;
  df_long : list Z;
  df_small : list Z;
  df_store : seq_writer;
}.

Definition dfast_kStepIncr : Z := Z.shiftl 1 kSearchStrength.

Section dfast.
Context (MEM_isLittleEndian : bool) (src : list Z) (lo : Z).
Notation win32 := (win32 MEM_isLittleEndian src lo).
Notation hashPtr := (ZSTD_hashPtr MEM_isLittleEndian src lo).
Notation count := (ZSTD_count MEM_isLittleEndian src lo).

Definition win64 (p : Z) : result Z := MEM_read64 MEM_isLittleEndian src (p - lo).

Definition dummy : list Z := [0x12; 0x34; 0x56; 0x78; 0x9a; 0xbc; 0xde; 0xf0; 0xe2; 0xb4].

(** [ZSTD_selectAddr]: the candidate, or the dummy bytes when it is below the limit ([None]). *)
Definition ZSTD_selectAddr (index lowLimit : Z) : option Z := if index >=? lowLimit then Some index else None.

Definition safe32 (p : option Z) : result Z := match p with Some p => win32 p | None => MEM_read32 MEM_isLittleEndian dummy 0 end.
Definition safe64 (p : option Z) : result Z := match p with Some p => win64 p | None => MEM_read64 MEM_isLittleEndian dummy 0 end.

Section search.
Context (hBitsL hBitsS mls prefixLowest iend : Z).
Notation ilimit := (iend - HASH_READ_SIZE).

(** From [_search_next_long] on: a longer match at the next position, and the catch up. *)
Definition dfast_next_long (anchor ip matchs0 ip1 idxl1 : Z) : result (Z * Z * Z) :=
  let* n := count (ip + 4) (matchs0 + 4) iend in
  let mLength := n + 4 in
  let offset := u32 (ip - matchs0) in
  (* check long match at +1 position *)
  let* c := (if idxl1 >? prefixLowest then let* a := win64 idxl1 in let* b := win64 ip1 in Ok (a =? b) else Ok false) in
  let* '(ip, mLength, offset, matchs0) :=
    (if c : bool then
       let* n := count (ip1 + 8) (idxl1 + 8) iend in
       let l1len := n + 8 in
       if l1len >? mLength then Ok (ip1, l1len, u32 (ip1 - idxl1), idxl1) else Ok (ip, mLength, offset, matchs0)
     else Ok (ip, mLength, offset, matchs0)) in
  let* '(ip, _, mLength) := count_back src lo ip matchs0 anchor prefixLowest mLength in
  Ok (ip, mLength, offset).

(** The body of the search. *)
Definition dfast_body (anchor offset_1 : Z) (s : dfast_search) : result (flow dfast_search (dfast_outcome * list Z * list Z)) :=
  let '(mkDSearch ip ip1 hl0 idxl0 step nextStep hashLong hashSmall) := s in
  let* hs0 := hashPtr ip hBitsS mls in
  let* idxs0 := rd hashSmall hs0 in
  let curr := u32 ip in
  (* update hash tables *)
  let* hashSmall := wr hashSmall hs0 curr in
  let* hashLong := wr hashLong hl0 curr in
  (* check noDict repcode *)
  let* c := same32 MEM_isLittleEndian src lo (ip + 1) (ip + 1 - offset_1) in
  if (offset_1 >? 0) && c then
    let* n := count (ip + 1 + 4) (ip + 1 + 4 - offset_1) iend in
    Ok (Break (DFast_repcode (ip + 1) (n + 4) curr, hashLong, hashSmall))
  else
    let* hl1 := hashPtr ip1 hBitsL 8 in
    (* check prefix long match *)
    let matchl0_safe := ZSTD_selectAddr idxl0 prefixLowest in
    let* a := safe64 matchl0_safe in
    let* b := win64 ip in
    if (a =? b) && bool_decide (matchl0_safe = Some idxl0) then
      let* n := count (ip + 8) (idxl0 + 8) iend in
      let offset := u32 (ip - idxl0) in
      let* '(ip, _, mLength) := count_back src lo ip idxl0 anchor prefixLowest (n + 8) in
      Ok (Break (DFast_found ip mLength offset curr ip1 hl1 step, hashLong, hashSmall))
    else
      let* idxl1 := rd hashLong hl1 in
      (* check prefix short match *)
      let matchs0_safe := ZSTD_selectAddr idxs0 prefixLowest in
      let* a := safe32 matchs0_safe in
      let* b := win32 ip in
      if (a =? b) && bool_decide (matchs0_safe = Some idxs0) then
        let* '(ip, mLength, offset) := dfast_next_long anchor ip idxs0 ip1 idxl1 in
        Ok (Break (DFast_found ip mLength offset curr ip1 hl1 step, hashLong, hashSmall))
      else
        let '(step, nextStep) := if ip1 >=? nextStep then (step + 1, nextStep + dfast_kStepIncr) else (step, nextStep) in
        let ip := ip1 in
        let ip1 := ip1 + step in
        if ip1 <=? ilimit then Ok (Continue (mkDSearch ip ip1 hl1 idxl1 step nextStep hashLong hashSmall))
        else Ok (Break (DFast_cleanup, hashLong, hashSmall)).

(** A search, from the beginning of the outer loop on. *)
Definition dfast_start (anchor offset_1 ip : Z) (hashLong hashSmall : list Z) : result (dfast_outcome * list Z * list Z) :=
  let step := 1 in
  let nextStep := ip + dfast_kStepIncr in
  let ip1 := ip + step in
  if ip1 >? ilimit then Ok (DFast_cleanup, hashLong, hashSmall)
  else
    let* hl0 := hashPtr ip hBitsL 8 in
    let* idxl0 := rd hashLong hl0 in
    loop_ (S (Z.to_nat (ilimit - ip))) (dfast_body anchor offset_1) (mkDSearch ip ip1 hl0 idxl0 step nextStep hashLong hashSmall).

(** Immediate repeated offsets after a match. *)
Definition dfast_repcodes (s : dfast_state) : result dfast_state :=
  loop_ (S (Z.to_nat (iend - df_ip s))) (fun s =>
    let '(mkDFast ip anchor offset_1 offset_2 hashLong hashSmall store) := s in
    let* same := (if ip <=? ilimit then let* c := same32 MEM_isLittleEndian src lo ip (ip - offset_2) in Ok ((offset_2 >? 0) && c) else Ok false) in
    if same : bool then
      (* store sequence *)
      let* n := count (ip + 4) (ip + 4 - offset_2) iend in
      let rLength := n + 4 in
      let* h := hashPtr ip hBitsS mls in
      let* hashSmall := wr hashSmall h (u32 ip) in
      let* h := hashPtr ip hBitsL 8 in
      let* hashLong := wr hashLong h (u32 ip) in
      let* store := ZSTD_storeSeq src lo store 0 anchor iend REPCODE1_TO_OFFBASE rLength in
      Ok (Continue (mkDFast (ip + rLength) (ip + rLength) offset_2 offset_1 hashLong hashSmall store))
    else Ok (Break s)) s.

(** From [_match_stored] on. *)
Definition dfast_match_stored (s : dfast_state) (mLength curr : Z) : result dfast_state :=
  let '(mkDFast ip anchor offset_1 offset_2 hashLong hashSmall store) := s in
  let ip := ip + mLength in
  let anchor := ip in
  if ip <=? ilimit then
    (* Complementary insertion *)
    let indexToInsert := u32 (curr + 2) in
    let* h := hashPtr indexToInsert hBitsL 8 in
    let* hashLong := wr hashLong h indexToInsert in
    let* h := hashPtr (ip - 2) hBitsL 8 in
    let* hashLong := wr hashLong h (u32 (ip - 2)) in
    let* h := hashPtr indexToInsert hBitsS mls in
    let* hashSmall := wr hashSmall h indexToInsert in
    let* h := hashPtr (ip - 1) hBitsS mls in
    let* hashSmall := wr hashSmall h (u32 (ip - 1)) in
    (* check immediate repcode *)
    dfast_repcodes (mkDFast ip anchor offset_1 offset_2 hashLong hashSmall store)
  else Ok (mkDFast ip anchor offset_1 offset_2 hashLong hashSmall store).

(** From [_match_found] on. *)
Definition dfast_match_found (s : dfast_state) (mLength offset curr ip1 hl1 step : Z) : result dfast_state :=
  let '(mkDFast ip anchor offset_1 offset_2 hashLong hashSmall store) := s in
  let offset_2 := offset_1 in
  let offset_1 := offset in
  let* hashLong := (if step <? 4 then wr hashLong hl1 (u32 ip1) else Ok hashLong) in
  let* store := ZSTD_storeSeq src lo store (ip - anchor) anchor iend (OFFSET_TO_OFFBASE offset) mLength in
  dfast_match_stored (mkDFast ip anchor offset_1 offset_2 hashLong hashSmall store) mLength curr.

(** A search and its match. *)
Definition dfast_step (s : dfast_state) : result (flow dfast_state dfast_state) :=
  let '(mkDFast ip anchor offset_1 offset_2 hashLong hashSmall store) := s in
  let* '(outcome, hashLong, hashSmall) := dfast_start anchor offset_1 ip hashLong hashSmall in
  match outcome with
  | DFast_cleanup => Ok (Break (mkDFast ip anchor offset_1 offset_2 hashLong hashSmall store))
  | DFast_repcode ip mLength curr =>
      let* store := ZSTD_storeSeq src lo store (ip - anchor) anchor iend REPCODE1_TO_OFFBASE mLength in
      let* s := dfast_match_stored (mkDFast ip anchor offset_1 offset_2 hashLong hashSmall store) mLength curr in
      Ok (Continue s)
  | DFast_found ip mLength offset curr ip1 hl1 step =>
      let* s := dfast_match_found (mkDFast ip anchor offset_1 offset_2 hashLong hashSmall store) mLength offset curr ip1 hl1 step in
      Ok (Continue s)
  end.
End search.

(** The size of the last literals, the repeated offsets, the match state and the store. *)
Definition ZSTD_compressBlock_doubleFast_noDict_generic (ms : ZSTD_MatchState_t) (seqStore : seq_writer) (rep : list Z) (istart srcSize mls : Z)
  : result (Z * list Z * ZSTD_MatchState_t * seq_writer) :=
  let cParams := ms_cParams ms in
  let hashLong := ms_hashTable ms in
  let hBitsL := cp_hashLog cParams in
  let hashSmall := ms_chainTable ms in
  let hBitsS := cp_chainLog cParams in
  let endIndex := u32 (istart + srcSize) in
  let prefixLowestIndex := ZSTD_getLowestPrefixIndex ms endIndex (cp_windowLog cParams) in
  let iend := istart + srcSize in
  let* offset_1 := rd rep 0 in
  let* offset_2 := rd rep 1 in
  let ip := istart + b2z (istart - prefixLowestIndex =? 0) in
  let current := u32 ip in
  let windowLow := ZSTD_getLowestPrefixIndex ms current (cp_windowLog cParams) in
  let maxRep := u32 (current - windowLow) in
  let '(offsetSaved2, offset_2) := if offset_2 >? maxRep then (offset_2, 0) else (0, offset_2) in
  let '(offsetSaved1, offset_1) := if offset_1 >? maxRep then (offset_1, 0) else (0, offset_1) in
  let* s := loop_ (S (Z.to_nat srcSize)) (dfast_step hBitsL hBitsS mls prefixLowestIndex iend)
    (mkDFast ip istart offset_1 offset_2 hashLong hashSmall seqStore) in
  let offset_1 := df_rep1 s in
  let offset_2 := df_rep2 s in
  let offsetSaved2 := if negb (offsetSaved1 =? 0) && negb (offset_1 =? 0) then offsetSaved1 else offsetSaved2 in
  (* save reps for next block *)
  let* rep := wr rep 0 (if negb (offset_1 =? 0) then offset_1 else offsetSaved1) in
  let* rep := wr rep 1 (if negb (offset_2 =? 0) then offset_2 else offsetSaved2) in
  Ok (iend - df_anchor s, rep, set_tables ms (df_long s) (df_small s), df_store s).

Definition ZSTD_compressBlock_doubleFast (ms : ZSTD_MatchState_t) (seqStore : seq_writer) (rep : list Z) (istart srcSize : Z)
  : result (Z * list Z * ZSTD_MatchState_t * seq_writer) :=
  let mls := cp_minMatch (ms_cParams ms) in
  let mls := if mls =? 5 then 5 else if mls =? 6 then 6 else if mls =? 7 then 7 else 4 in
  ZSTD_compressBlock_doubleFast_noDict_generic ms seqStore rep istart srcSize mls.
End dfast.

(** ** Lemmas *)

Section finder.
Context (le : bool) (src : list Z) (lo hBitsL hBitsS mls low iend : Z).
Hypothesis Hsrc : bytes_ok src.
Hypothesis Hlo : 0 <= lo <= low.
Hypothesis Hend : iend <= lo + zlen src /\ iend < 2 ^ 32 - 3.
Hypothesis HlogL : 0 <= hBitsL <= 32.
Hypothesis HlogS : 0 <= hBitsS <= 32.
Notation ilimit := (iend - HASH_READ_SIZE).
Notation agree := (agree src lo).
Notation hashL := (hash_ok le src lo iend Hsrc (proj1 Hend) hBitsL 8 HlogL).
Notation hashS := (hash_ok le src lo iend Hsrc (proj1 Hend) hBitsS mls HlogS).
Notation count_at := (count_match le src lo iend Hsrc (proj1 Hend)).

Definition tables_ok (long small : list Z) (b : Z) : Prop := tab_ok hBitsL long b /\ tab_ok hBitsS small b.

Lemma tables_le long small b b' : tables_ok long small b -> b <= b' -> tables_ok long small b'.
Proof. intros [H1 H2] Hb. split; by eapply tab_le. Qed.

(** The count as the code adds it up. *)
Lemma count_after p m n :
  lo <= m < p -> 0 <= n -> p + n <= iend -> agree p m n ->
  exists k, ZSTD_count le src lo (p + n) (m + n) iend = Ok k /\ 0 <= k /\ p + (k + n) <= iend /\ agree p m (k + n).
Proof.
  intros H1 H2 H3 H4. destruct (count_at p m n H1 H2 H3 H4) as (k & E & Hk & Hl & Ha). exists k. rewrite (Z.add_comm k n). by split_and!.
Qed.

Lemma safe32_ok p idx :
  lo <= p -> p + 4 <= iend -> 0 <= idx < p ->
  exists a b, safe32 le src lo (ZSTD_selectAddr idx low) = Ok a /\ MatchBase.win32 le src lo p = Ok b /\
    ((a =? b) && bool_decide (ZSTD_selectAddr idx low = Some idx) = true -> low <= idx /\ agree p idx 4).
Proof.
  intros Hp Hp4 Hidx. unfold ZSTD_selectAddr, safe32, MatchBase.win32, MEM_read32. rewrite (rd_bytes_ok src (p - lo)) by lia. destruct (Z.geb_spec idx low).
  - rewrite rd_bytes_ok by lia. cbn [bind]. do 2 eexists. split; [done|]. split; [done|]. intros [E _]%andb_true_iff. split; [lia|]. apply (native_eqb le src lo Hsrc) in E; [done|lia..].
  - rewrite rd_bytes_ok by (vm_compute; intuition congruence). cbn [bind]. do 2 eexists. split; [done|]. split; [done|]. by rewrite andb_false_r.
Qed.

Lemma safe64_ok p idx :
  lo <= p -> p + 8 <= iend -> 0 <= idx < p ->
  exists a b, safe64 le src lo (ZSTD_selectAddr idx low) = Ok a /\ win64 le src lo p = Ok b /\
    ((a =? b) && bool_decide (ZSTD_selectAddr idx low = Some idx) = true -> low <= idx /\ agree p idx 8).
Proof.
  intros Hp Hp4 Hidx. unfold ZSTD_selectAddr, safe64, win64, MEM_read64. rewrite (rd_bytes_ok src (p - lo)) by lia. destruct (Z.geb_spec idx low).
  - rewrite rd_bytes_ok by lia. cbn [bind]. do 2 eexists. split; [done|]. split; [done|]. intros [E _]%andb_true_iff. split; [lia|]. apply (native_eqb le src lo Hsrc) in E; [done|lia..].
  - rewrite rd_bytes_ok by (vm_compute; intuition congruence). cbn [bind]. do 2 eexists. split; [done|]. split; [done|]. by rewrite andb_false_r.
Qed.

(** A match at [p] with an offset, after the anchor. *)
Record found_at (anchor p n off : Z) : Prop := {
  fa_anchor : anchor <= p;
  fa_offset : 1 <= off /\ lo <= p - off;
  fa_length : 4 <= n /\ p + n <= iend;
  fa_agree : agree p (p - off) n;
}.

(** The catch up keeps the match. *)
Lemma found_back anchor p idx n :
  lo <= anchor <= p -> low <= idx < p -> 4 <= n -> p + n <= iend -> agree p idx n ->
  exists p' m' n', count_back src lo p idx anchor low n = Ok (p', m', n') /\ p' + n' = p + n /\ p' <= p /\ found_at anchor p' n' (p - idx).
Proof.
  intros Han Hidx Hn Hp Ha. pose proof (count_back_ok src lo p idx anchor low n ltac:(lia) ltac:(lia) ltac:(lia) ltac:(lia) ltac:(lia) Ha) as H.
  apply wp_no_errors_Ok in H as ([[p' m'] n'] & E & B1 & -> & -> & B4 & B5). do 3 eexists. split; [exact E|]. split; [lia|]. split; [lia|].
  split; [lia|lia|lia|]. by replace (p' - (p - idx)) with (idx - (p - p')) by lia.
Qed.

Lemma next_long_ok anchor ip idxs0 ip1 idxl1 :
  lo <= anchor <= ip -> low <= idxs0 < ip -> agree ip idxs0 4 -> ip < ip1 -> ip1 <= ilimit -> 0 <= idxl1 < ip1 ->
  exists p n off, dfast_next_long le src lo low iend anchor ip idxs0 ip1 idxl1 = Ok (p, n, off) /\ ip + 4 <= p + n /\ found_at anchor p n off.
Proof.
  unfold HASH_READ_SIZE. intros Han Hidx Ha H1 Hl Hl1. unfold dfast_next_long.
  destruct (count_after ip idxs0 4) as (k & -> & Hk & Hkl & Hka); [lia|lia|lia|done|]. cbn [bind]. rewrite (u32_small (ip - idxs0)) by lia.
  assert (exists c, (if idxl1 >? low then let* a := win64 le src lo idxl1 in let* b := win64 le src lo ip1 in Ok (a =? b) else Ok false) = Ok c /\ (c = true -> low < idxl1 /\ agree ip1 idxl1 8)) as (c & -> & Hc).
  { destruct (Z.gtb_spec idxl1 low); [|by exists false]. unfold win64, MEM_read64. rewrite !rd_bytes_ok by lia. cbn [bind]. eexists. split; [done|].
    intros E. split; [done|]. apply (native_eqb le src lo Hsrc) in E; [done|lia..]. }
  cbn [bind]. destruct (found_back anchor ip idxs0 (k + 4)) as (p & m & n & Eb & Hb & Hbp & Hf); [lia|lia|lia|lia|done|].
  destruct c; [|cbn [bind]; rewrite Eb; cbn [bind]; exists p, n, (ip - idxs0); split_and!; done || lia].
  destruct (Hc eq_refl) as [Hc1 Hc2]. destruct (count_after ip1 idxl1 8) as (k1 & -> & Hk1 & Hkl1 & Hka1); [lia|lia|lia|done|]. cbn [bind].
  destruct (Z.gtb_spec (k1 + 8) (k + 4)); cbn [bind].
  - rewrite u32_small by lia. destruct (found_back anchor ip1 idxl1 (k1 + 8)) as (p1 & m1 & n1 & -> & Hb1 & Hbp1 & Hf1); [lia|lia|lia|lia|done|].
    cbn [bind]. exists p1, n1, (ip1 - idxl1). split_and!; done || lia.
  - rewrite Eb. cbn [bind]. exists p, n, (ip - idxs0). split_and!; done || lia.
Qed.

(** What a search may end with, from [anchor] on. *)
Definition doutcome_ok (anchor ip0 rep1 : Z) (r : dfast_outcome * list Z * list Z) : Prop :=
  match r.1.1 with
  | DFast_cleanup => tables_ok r.1.2 r.2 iend
  | DFast_repcode p n cur => anchor < p /\ 1 <= rep1 /\ found_at anchor p n rep1 /\ lo <= cur /\ ip0 < p + n /\ cur + 4 <= p + n /\ tables_ok r.1.2 r.2 (p + n)
  | DFast_found p n off cur ip1 hl1 step => found_at anchor p n off /\ lo <= cur /\ ip0 < p + n /\ cur + 4 <= p + n /\ ip1 = cur + step /\ 1 <= step /\
      0 <= hl1 < 2 ^ hBitsL /\ tables_ok r.1.2 r.2 (p + n)
  end.

(** At each turn of the search. *)
Record dsearch_ok (ip_0 rep1 : Z) (s : dfast_search) : Prop := {
  do_ip : lo <= ip_0 <= ds_ip s;
  do_step : 1 <= ds_step s;
  do_ip1 : ds_ip1 s = ds_ip s + ds_step s /\ ds_ip1 s <= ilimit;
  do_rep : 0 <= rep1 <= ds_ip s - lo;
  do_hash : 0 <= ds_hl0 s < 2 ^ hBitsL;
  do_idx : 0 <= ds_idxl0 s < ds_ip s;
  do_tables : tables_ok (ds_long s) (ds_small s) (ds_ip s);
}.

Lemma dfast_body_ok anchor ip_0 rep1 s :
  lo <= anchor <= ip_0 -> dsearch_ok ip_0 rep1 s ->
  wp (dfast_body le src lo hBitsL hBitsS mls low iend anchor rep1 s) (fun r =>
    match r with
    | Continue s' => dsearch_ok ip_0 rep1 s' /\ ds_ip s < ds_ip s'
    | Break o => doutcome_ok anchor ip_0 rep1 o
    end) no_errors.
Proof.
  intros Han [H0 H1 [H2 H3] H4 H5 H6 [T1 T2]]. destruct s as [ip ip1 hl0 idxl0 step nextStep tl ts]. cbn [ds_ip ds_ip1 ds_hl0 ds_idxl0 ds_step ds_nextStep ds_long ds_small] in *.
  subst ip1. unfold HASH_READ_SIZE in *. unfold dfast_body.
  destruct (hashS ip) as (hs0 & -> & Hhs); [lia|unfold HASH_READ_SIZE; lia|]. cbn [bind].
  destruct (tab_rd hBitsS ts _ hs0 T2 Hhs) as (idxs0 & -> & Hidxs). cbn [bind]. rewrite (u32_small ip) by lia.
  destruct (tab_wr hBitsS ts (ip + 1) hs0 ip) as (ts1 & -> & S1); [eapply tab_le; [done|lia]|done|lia|]. cbn [bind].
  destruct (tab_wr hBitsL tl (ip + 1) hl0 ip) as (tl1 & -> & L1); [eapply tab_le; [done|lia]|done|lia|]. cbn [bind].
  assert (forall b, ip + 1 <= b -> tables_ok tl1 ts1 b) as Htabs by (intros b Hb; split; eapply tab_le; done || lia).
  destruct (same32_ok le src lo Hsrc (ip + 1) (ip + 1 - rep1)) as (c & -> & Hc); [lia..|]. cbn [bind].
  destruct ((rep1 >? 0) && c) eqn:Erep.
  { apply andb_true_iff in Erep as [Hrep ->]. apply Z.gtb_lt in Hrep. apply proj1 in Hc. specialize (Hc eq_refl).
    replace (ip + 1 + 4 - rep1) with (ip + 1 - rep1 + 4) by lia. destruct (count_after (ip + 1) (ip + 1 - rep1) 4) as (k & -> & Hk & Hkl & Hka); [lia|lia|lia|done|].
    cbn [bind wp]. unfold doutcome_ok; cbn [fst snd]. split; [lia|]. split; [lia|]. split; [split; lia || done|]. split; [lia|]. split; [lia|]. split; [lia|apply Htabs; lia]. }
  destruct (hashL (ip + step)) as (hl1 & -> & Hhl1); [lia|unfold HASH_READ_SIZE; lia|]. cbn [bind].
  destruct (safe64_ok ip idxl0) as (a & b & -> & -> & Hab); [lia|lia|lia|]. cbn [bind].
  destruct ((a =? b) && _) eqn:Elong.
  { destruct (Hab eq_refl) as [Hi Ha]. destruct (count_after ip idxl0 8) as (k & -> & Hk & Hkl & Hka); [lia|lia|lia|done|]. cbn [bind]. rewrite (u32_small (ip - idxl0)) by lia.
    destruct (found_back anchor ip idxl0 (k + 8)) as (p & m & n & -> & Hb & Hbp & Hf); [lia|lia|lia|lia|done|]. cbn [bind wp]. unfold doutcome_ok; cbn [fst snd].
    split; [done|]. split; [lia|]. split; [lia|]. split; [lia|]. split; [lia|]. split; [lia|]. split; [done|apply Htabs; lia]. }
  clear Hab Elong a b. destruct (tab_rd hBitsL tl1 _ hl1 L1 Hhl1) as (idxl1 & -> & Hidxl1). cbn [bind].
  destruct (safe32_ok ip idxs0) as (a & b & -> & -> & Hab); [lia|lia|lia|]. cbn [bind].
  destruct ((a =? b) && _) eqn:Eshort.
  { destruct (Hab eq_refl) as [Hi Ha]. destruct (next_long_ok anchor ip idxs0 (ip + step) idxl1) as (p & n & off & -> & Hp & Hf); [lia|lia|done|lia|unfold HASH_READ_SIZE; lia|lia|].
    cbn [bind wp]. unfold doutcome_ok; cbn [fst snd]. split; [done|]. split; [lia|]. split; [lia|]. split; [lia|]. split; [lia|]. split; [lia|]. split; [done|apply Htabs; lia]. }
  assert (exists step' next', (if ip + step >=? nextStep then (step + 1, nextStep + dfast_kStepIncr) else (step, nextStep)) = (step', next') /\ step <= step') as (step' & next' & -> & Hst').
  { destruct (ip + step >=? nextStep); eexists _, _; (split; [done|lia]). }
  destruct (Z.leb_spec (ip + step + step') (iend - HASH_READ_SIZE)); cbn [wp].
  - split; [|cbn; lia]. split; cbn; try lia; apply Htabs; lia.
  - unfold doutcome_ok; cbn. apply Htabs. lia.
Qed.

Lemma dfast_start_ok anchor rep1 ip tl ts :
  lo <= anchor -> anchor <= ip <= anchor + 1 -> anchor <= iend -> 0 <= rep1 <= ip - lo -> tables_ok tl ts anchor ->
  wp (dfast_start le src lo hBitsL hBitsS mls low iend anchor rep1 ip tl ts) (doutcome_ok anchor ip rep1) no_errors.
Proof.
  intros Hla Hip Hae Hr Ht. unfold dfast_start. cbv zeta. destruct (Z.gtb_spec (ip + 1) ilimit) as [Hg|Hg].
  - cbn [wp]. unfold doutcome_ok; cbn. by eapply tables_le.
  - unfold HASH_READ_SIZE in *. destruct (hashL ip) as (h0 & -> & Hh0); [lia|unfold HASH_READ_SIZE; lia|]. cbn [bind].
    destruct (tab_rd hBitsL tl _ h0 (proj1 Ht) Hh0) as (e & -> & Re). cbn [bind].
    apply (wp_loop (dsearch_ok ip rep1) (fun s => ilimit - ds_ip s)).
    + split; cbn; unfold HASH_READ_SIZE; try lia. eapply tables_le; [done|lia].
    + cbn. unfold HASH_READ_SIZE. lia.
    + intros s Hs. eapply wp_mono; [apply (dfast_body_ok anchor ip rep1); [lia|done]| |done]. intros [s'|o]; [|done]. intros [Hs' Hlt]. split; [done|].
      pose proof (do_ip1 _ _ _ Hs'). pose proof (do_step _ _ _ Hs'). lia.
Qed.
End finder.

Section block.
Context (le : bool) (src : list Z) (lo : Z) (pre : list Z) (istart iend : Z) (rep0 : list Z) (w0 : seq_writer) (saved1 saved2 hBitsL hBitsS mls low : Z).
Hypothesis Hsrc : bytes_ok src.
Hypothesis Hlo : 0 <= lo <= low.
Hypothesis Hend : iend <= lo + zlen src /\ iend < 2 ^ 32 - 3.
Hypothesis HlogL : 0 <= hBitsL <= 32.
Hypothesis HlogS : 0 <= hBitsS <= 32.
Hypothesis Hblock : lo <= istart /\ istart <= iend /\ iend - istart <= ZSTD_BLOCKSIZE_MAX.
Notation ilimit := (iend - HASH_READ_SIZE).
Notation agree := (agree src lo).
Notation parsed := (parsed src lo pre istart iend 4 rep0 w0).
Notation hashL := (hash_ok le src lo iend Hsrc (proj1 Hend) hBitsL 8 HlogL).
Notation hashS := (hash_ok le src lo iend Hsrc (proj1 Hend) hBitsS mls HlogS).
Notation tables_ok := (tables_ok hBitsL hBitsS).
Hypothesis Hfits : store_fits istart iend 4 w0.

(** Between two searches: the block is parsed up to the anchor. *)
Record dfast_ok (s : dfast_state) : Prop := {
  dk_parsed : exists l L r, parsed (df_store s) l L r (df_anchor s) /\ reps_as saved1 saved2 (df_rep1 s) (df_rep2 s) r;
  dk_tables : tables_ok (df_long s) (df_small s) (df_anchor s);
  dk_ip : df_anchor s <= df_ip s <= df_anchor s + 1;
  dk_anchor : istart <= df_anchor s <= iend;
  dk_rep1 : 0 <= df_rep1 s <= df_ip s - lo;
  dk_rep2 : 0 <= df_rep2 s <= df_ip s - lo;
}.

(** A position is written in one of the tables. *)
Lemma long_wr long small b h v : tables_ok long small b -> 0 <= h < 2 ^ hBitsL -> 0 <= v < b -> exists long', wr long h v = Ok long' /\ tables_ok long' small b.
Proof. intros [H1 H2] Hh Hv. destruct (tab_wr hBitsL long b h v H1 Hh Hv) as (t & E & Ht). exists t. by split. Qed.
Lemma small_wr long small b h v : tables_ok long small b -> 0 <= h < 2 ^ hBitsS -> 0 <= v < b -> exists small', wr small h v = Ok small' /\ tables_ok long small' b.
Proof. intros [H1 H2] Hh Hv. destruct (tab_wr hBitsS small b h v H2 Hh Hv) as (t & E & Ht). exists t. by split. Qed.

Lemma dfast_repcodes_ok s :
  dfast_ok s -> df_ip s = df_anchor s -> df_rep1 s <> 0 ->
  wp (dfast_repcodes le src lo hBitsL hBitsS mls iend s) (fun s' => dfast_ok s' /\ df_ip s' = df_anchor s' /\ df_ip s <= df_ip s') no_errors.
Proof.
  intros Hs Hip Hr1. unfold dfast_repcodes.
  apply (wp_loop (fun s' => dfast_ok s' /\ df_ip s' = df_anchor s' /\ df_ip s <= df_ip s' /\ df_rep1 s' <> 0) (fun s' => iend - df_ip s')).
  { by split_and!. }
  { destruct Hs. lia. }
  clear Hr1. intros [ip anchor rep1 rep2 tl ts store] ([(l & L & r & Hp & Hr) Ht Hi Ha H1 H2] & Eip & Hle & Hr1). cbn [df_ip df_anchor df_rep1 df_rep2 df_long df_small df_store] in *. subst ip.
  assert (dfast_ok (mkDFast anchor anchor rep1 rep2 tl ts store)) as Hsame by (split; cbn; try done; by exists l, L, r).
  destruct (Z.leb_spec anchor ilimit) as [Hlim|Hlim]; [|cbn [bind]; wp_step; by split_and!].
  unfold HASH_READ_SIZE in Hlim. destruct (same32_ok le src lo Hsrc anchor (anchor - rep2)) as (c & -> & Hc); [lia..|]. cbn [bind].
  destruct ((rep2 >? 0) && c) eqn:Erep; [|wp_step; by split_and!].
  apply andb_true_iff in Erep as [Hrep ->]. apply Z.gtb_lt in Hrep. apply proj1 in Hc. specialize (Hc eq_refl).
  replace (anchor + 4 - rep2) with (anchor - rep2 + 4) by lia. destruct (count_after le src lo iend Hsrc Hend anchor (anchor - rep2) 4) as (k & -> & Hk & Hkl & Hka); [lia|lia|lia|done|]. cbn [bind].
  rewrite (u32_small anchor) by lia. assert (tables_ok tl ts (anchor + (k + 4))) as Ht1 by (eapply tables_le; [done|lia]).
  destruct (hashS anchor) as (h & -> & Hh); [lia|unfold HASH_READ_SIZE; lia|]. cbn [bind]. destruct (small_wr tl ts _ h anchor Ht1 Hh ltac:(lia)) as (ts' & -> & Ht2). cbn [bind].
  destruct (hashL anchor) as (h' & -> & Hh'); [lia|unfold HASH_READ_SIZE; lia|]. cbn [bind]. destruct (long_wr tl ts' _ h' anchor Ht2 Hh' ltac:(lia)) as (tl' & -> & Ht3). cbn [bind].
  destruct (reps_swap _ _ _ _ _ Hr Hr1 ltac:(lia)) as (r' & Eu & Ez & Hr').
  destruct (parsed_store src lo pre istart iend 4 rep0 w0 Hsrc ltac:(lia) ltac:(done) Hfits store l L r anchor anchor rep2 (k + 4) REPCODE1_TO_OFFBASE r') as (w' & L' & Es & Hp'); try done; try lia.
  { by rewrite Z.sub_diag. }
  rewrite Z.sub_diag in Es. rewrite Es. cbn [bind]. wp_step. cbn [df_ip df_rep1 df_rep2 df_anchor df_long df_small df_store].
  split; [|lia]. split; [|split; [done|split; [lia|lia]]]. split; cbn [df_ip df_rep1 df_rep2 df_anchor df_long df_small df_store]; try done; try lia.
  exists (l ++ [(0, k + 4, REPCODE1_TO_OFFBASE)]), L', r'. split; [|done]. by rewrite Z.sub_diag in Hp'.
Qed.

(** A match stored at [ip - n], and the positions of it that are inserted. *)
Lemma dfast_match_stored_ok s n cur l L r :
  parsed (df_store s) l L r (df_ip s + n) -> reps_as saved1 saved2 (df_rep1 s) (df_rep2 s) r ->
  istart <= df_ip s -> 4 <= n -> df_ip s + n <= iend -> 1 <= df_rep1 s <= df_ip s + n - lo -> 0 <= df_rep2 s <= df_ip s + n - lo ->
  lo <= cur -> cur + 4 <= df_ip s + n -> tables_ok (df_long s) (df_small s) (df_ip s + n) ->
  wp (dfast_match_stored le src lo hBitsL hBitsS mls iend s n cur) (fun s' => dfast_ok s' /\ df_ip s + n <= df_ip s' /\ df_ip s' = df_anchor s') no_errors.
Proof.
  destruct s as [ip anchor rep1 rep2 tl ts store]. cbn [df_ip df_rep1 df_rep2 df_anchor df_long df_small df_store]. intros Hp Hr Hi Hn Hpn H1 H2 Hc Hc4 Ht.
  unfold dfast_match_stored. cbv zeta. set (ip1 := ip + n) in *.
  assert (forall tl ts, tables_ok tl ts ip1 -> dfast_ok (mkDFast ip1 ip1 rep1 rep2 tl ts store)) as Hok.
  { intros tl' ts' Htt. split; cbn [df_ip df_rep1 df_rep2 df_anchor df_long df_small df_store]; try done; try lia. by exists l, L, r. }
  destruct (Z.leb_spec ip1 ilimit) as [Hlim|Hlim]; [|wp_step; split; [by apply Hok|cbn; lia]]. unfold HASH_READ_SIZE in Hlim.
  rewrite (u32_small (cur + 2)), (u32_small (ip1 - 2)), (u32_small (ip1 - 1)) by lia.
  destruct (hashL (cur + 2)) as (h1 & -> & Hh1); [lia|unfold HASH_READ_SIZE; lia|]. cbn [bind]. destruct (long_wr tl ts _ h1 (cur + 2) Ht Hh1 ltac:(lia)) as (t1 & -> & T1). cbn [bind].
  destruct (hashL (ip1 - 2)) as (h2 & -> & Hh2); [lia|unfold HASH_READ_SIZE; lia|]. cbn [bind]. destruct (long_wr t1 ts _ h2 (ip1 - 2) T1 Hh2 ltac:(lia)) as (t2 & -> & T2). cbn [bind].
  destruct (hashS (cur + 2)) as (h3 & -> & Hh3); [lia|unfold HASH_READ_SIZE; lia|]. cbn [bind]. destruct (small_wr t2 ts _ h3 (cur + 2) T2 Hh3 ltac:(lia)) as (t3 & -> & T3). cbn [bind].
  destruct (hashS (ip1 - 1)) as (h4 & -> & Hh4); [lia|unfold HASH_READ_SIZE; lia|]. cbn [bind]. destruct (small_wr t2 t3 _ h4 (ip1 - 1) T3 Hh4 ltac:(lia)) as (t4 & -> & T4). cbn [bind].
  eapply wp_mono; [apply dfast_repcodes_ok; [by apply Hok|done|cbn; lia]| |done].
  intros s' (Hs' & Eip & Hge). cbn in Hge. split; [done|]. split; [lia|done].
Qed.

Lemma dfast_step_ok s :
  dfast_ok s ->
  wp (dfast_step le src lo hBitsL hBitsS mls low iend s) (fun f =>
    match f with
    | Continue s' => dfast_ok s' /\ df_ip s < df_ip s' <= iend
    | Break s' => (exists l L r, parsed (df_store s') l L r (df_anchor s') /\ reps_as saved1 saved2 (df_rep1 s') (df_rep2 s') r) /\
        tables_ok (df_long s') (df_small s') iend
    end) no_errors.
Proof.
  intros [(l & L & r & Hp & Hr) Ht Hi Ha H1 H2]. destruct s as [ip anchor rep1 rep2 tl ts store]. cbn [df_ip df_rep1 df_rep2 df_anchor df_long df_small df_store] in *.
  unfold dfast_step. apply wp_bind. eapply wp_mono; [apply (dfast_start_ok le src lo hBitsL hBitsS mls low iend Hsrc Hlo Hend HlogL HlogS anchor rep1 ip tl ts); done || lia| |done].
  intros [[o tl'] ts'] Ho. destruct o as [|p n cur|p n off cur ip1 hl1 step]; unfold doutcome_ok in Ho; cbn [fst snd] in Ho.
  - wp_step. cbn [df_ip df_rep1 df_rep2 df_anchor df_long df_small df_store]. split; [by exists l, L, r|done].
  - destruct Ho as (O1 & O2 & [F1 F2 F3 F4] & O4 & O5 & O6 & O7). destruct (reps_same _ _ _ _ _ Hr ltac:(lia)) as [Eu Ez].
    destruct (parsed_store src lo pre istart iend 4 rep0 w0 Hsrc ltac:(lia) ltac:(done) Hfits store l L r anchor p rep1 n REPCODE1_TO_OFFBASE r) as (w' & L' & Es & Hp'); try done; try lia.
    { by rewrite (proj2 (Z.eqb_neq _ 0)) by lia. }
    rewrite Es. cbn [bind]. apply wp_bind.
    eapply wp_mono; [eapply (dfast_match_stored_ok (mkDFast p anchor rep1 rep2 tl' ts' w') n cur)| |done]; cbn [df_ip df_rep1 df_rep2 df_anchor df_long df_small df_store]; try done; try lia.
    intros s' (Hs' & Hge & Eip). wp_step. split; [done|]. pose proof (dk_anchor _ Hs'). cbn in Hge |- *. lia.
  - destruct Ho as ([F1 F2 F3 F4] & O2 & O3 & O4 & -> & O6 & O7 & O8). unfold dfast_match_found. apply wp_bind.
    assert (exists tl2, (if step <? 4 then wr tl' hl1 (u32 (cur + step)) else Ok tl') = Ok tl2 /\ tables_ok tl2 ts' (p + n)) as (tl2 & -> & T2).
    { destruct (Z.ltb_spec step 4); [|by exists tl']. rewrite u32_small by lia. apply long_wr; [done|done|lia]. }
    cbn [bind]. destruct (reps_new _ _ _ _ r off (b2z (p - anchor =? 0)) Hr ltac:(lia) ltac:(lia)) as (r' & Eu & Ez & Hr').
    destruct (parsed_store src lo pre istart iend 4 rep0 w0 Hsrc ltac:(lia) ltac:(done) Hfits store l L r anchor p off n (OFFSET_TO_OFFBASE off) r') as (w' & L' & Es & Hp'); try done; try lia.
    { unfold OFFSET_TO_OFFBASE, ZSTD_REP_NUM. rewrite u32_small; lia. }
    rewrite Es. cbn [bind].
    eapply wp_mono; [eapply (dfast_match_stored_ok (mkDFast p anchor off rep1 tl2 ts' w') n cur)| |done]; cbn [df_ip df_rep1 df_rep2 df_anchor df_long df_small df_store]; try done; try lia.
    intros s' (Hs' & Hge & Eip). wp_step. split; [done|]. pose proof (dk_anchor _ Hs'). cbn in Hge |- *. lia.
Qed.
End block.

(** *** A block *)

(** The state of the double fast finder: the window begins at [lo], and the entries of both tables
    are before [b]. *)
Definition dfast_ms_ok (lo b : Z) (ms : ZSTD_MatchState_t) : Prop :=
  let p := ms_cParams ms in
  ms_dictLimit ms = lo /\ tables_ok (cp_hashLog p) (cp_chainLog p) (ms_hashTable ms) (ms_chainTable ms) b /\
  1 <= cp_hashLog p <= 32 /\ 1 <= cp_chainLog p <= 32 /\ 0 <= cp_windowLog p <= 31.

Lemma dfast_generic_ok le src lo pre ms w rep r istart size mls :
  in_window src lo istart size -> dfast_ms_ok lo istart ms -> reps_agree rep r -> store_empty w -> store_fits istart (istart + size) 4 w ->
  wp (ZSTD_compressBlock_doubleFast_noDict_generic le src lo ms w rep istart size mls) (fun '(lastLLSize, rep', ms', w') =>
    dfast_ms_ok lo (istart + size) ms' /\
    exists l L r', parsed src lo pre istart (istart + size) 4 r w w' l L r' (istart + size - lastLLSize) /\ reps_agree rep' r') no_errors.
Proof.
  intros [Hsrc Hst Hsz He Hi] (Hdl & Htab & Hhl & Hcl & Hwl) (a & b & c & d & -> & -> & Ha & Hb & Hd) (Es & El & Et & Hbl) Hf. change ZSTD_BLOCKSIZE_MAX with 131072 in Hsz.
  unfold ZSTD_compressBlock_doubleFast_noDict_generic. cbv zeta. set (p := ms_cParams ms) in *. set (iend := istart + size) in *.
  rewrite (u32_small iend) by lia. pose proof (lowest_index ms iend (cp_windowLog p) ltac:(lia) ltac:(lia) Hwl) as Hlow. rewrite Hdl in Hlow. set (low := ZSTD_getLowestPrefixIndex ms iend _) in *.
  change (rd [a; b; c] 0) with (Ok a). change (rd [a; b; c] 1) with (Ok b). cbn [bind].
  set (ip := istart + b2z (istart - low =? 0)). assert (istart <= ip <= istart + 1) as Hip by (unfold ip; destruct (istart - low =? 0); cbn; lia).
  rewrite (u32_small ip) by lia. pose proof (lowest_index ms ip (cp_windowLog p) ltac:(lia) ltac:(lia) Hwl) as Hwlow. rewrite Hdl in Hwlow. set (windowLow := ZSTD_getLowestPrefixIndex ms ip _) in *.
  rewrite (u32_small (ip - windowLow)) by lia.
  destruct (reps_start a b d (ip - windowLow) ltac:(lia) Ha Hb Hd) as (s1 & s2 & r1 & r2 & -> & -> & Hr1 & Hr2 & Hreps).
  assert (iend - istart = size) as Esz by (unfold iend; lia).
  apply wp_bind. eapply wp_mono; [apply (wp_loop (dfast_ok src lo pre istart iend [a; b; d] w s1 s2 (cp_hashLog p) (cp_chainLog p)) (fun s => Z.max 0 (iend - df_ip s))
    _ _ _ (fun s' => (exists l L r, parsed src lo pre istart iend 4 [a; b; d] w (df_store s') l L r (df_anchor s') /\ reps_as s1 s2 (df_rep1 s') (df_rep2 s') r) /\
        tables_ok (cp_hashLog p) (cp_chainLog p) (df_long s') (df_small s') iend))| |done].
  - split; cbn [df_ip df_rep1 df_rep2 df_anchor df_long df_small df_store]; try done; try lia. exists [], [], [a; b; d]. split; [|done]. apply parsed_nil; try done. change ZSTD_BLOCKSIZE_MAX with 131072. lia.
  - cbn. lia.
  - intros s Hs. eapply wp_mono; [eapply (dfast_step_ok le src lo pre istart iend [a; b; d] w s1 s2 (cp_hashLog p) (cp_chainLog p) mls low); done || lia || (change ZSTD_BLOCKSIZE_MAX with 131072; lia)| |done].
    intros [s'|s']; [|done]. intros [Hs' Hlt]. split; [done|]. lia.
  - intros s ((l & L & r & Hp & Hr) & Ht'). destruct (reps_final _ _ _ _ _ Hr) as [F0 F1]. rewrite <- F0, <- F1.
    change (wr [a; b; c] 0 (zat r 0)) with (Ok [zat r 0; b; c]). cbn [bind]. change (wr [zat r 0; b; c] 1 (zat r 1)) with (Ok [zat r 0; zat r 1; c]). cbn [bind]. wp_step.
    split.
    + split; [done|]. split; [exact Ht'|]. done.
    + exists l, L, r. replace (iend - (iend - df_anchor s)) with (df_anchor s) by lia. split; [exact Hp|].
      destruct Hr as (r0 & r1' & r2' & -> & ? & ? & ? & _). by exists r0, r1', c, r2'.
Qed.

#[global] Instance dfast_finder le : MatchFinder (ZSTD_compressBlock_doubleFast le) dfast_ms_ok 4.
Proof. split; [done|]. intros. by apply dfast_generic_ok. Qed.
