(* ===== verification/MatchBlock.v ===== *)
(** The store of a block that the fast and the double fast match finders fill: for both, what
    the interface [MatchFinder] gives to the block compressor. *)

From S2P Require Import Prelude Errors Outcome Bits Mem Wire LzCopy ExecSequence SeqTables SeqDecode SeqEncode SeqRoundtrip Frame MatchBase MatchParse MatchFinder MatchFast MatchDFast.

(** ** Definitions *)

(** The finders, with what they expect of their state: the window begins at [lo] and their tables
    hold indices below [b]. *)
Definition finders (le : bool) : list (ZSTD_BlockCompressor_f * (Z -> Z -> ZSTD_MatchState_t -> Prop)) :=
  [(ZSTD_compressBlock_fast le, fast_ms_ok); (ZSTD_compressBlock_doubleFast le, dfast_ms_ok)].

(** ** Properties *)

(** C9: the match finders are correct. The fast and the double fast finders, on any block of
    the window, with any tables whose entries are indices before the block, any
    repeated offsets and a store that has room for a block, read and write inside
    their buffers and end; the sequences and the literals that are then in the store,
    with the repeated offsets of the decoder, regenerate the block after what comes
    before it, whatever that is; both sides keep the same two repeated offsets; and
    the tables are ready for the next block. *)
Theorem store_block_regenerates le find ms_ok src lo pre ms w rep r istart size :
  In (find, ms_ok) (finders le) ->
  in_window src lo istart size -> ms_ok lo istart ms -> reps_agree rep r -> bytes_ok (sw_litStart w) -> store_fits istart (istart + size) 4 w ->
  wp (store_block find src lo ms w rep istart size) (fun '(rep', ms', w') =>
    ms_ok lo (istart + size) ms' /\ store_same w w' /\ MINMATCH * zlen (sw_sequences w') <= size /\
    exists r', reps_agree rep' r' /\ forall llCode ofCode mlCode,
      store_describes (store_of w' llCode ofCode mlCode) r (pre ++ zsub src 0 (istart - lo)) (pre ++ zsub src 0 (istart + size - lo)) r' size) no_errors.
Proof.
  intros Hf Hin Hms Hr Hb Hfit. destruct Hf as [[= <- <-]|[[= <- <-]|[]]].
  all: eapply wp_mono; [by eapply (store_block_ok src lo pre)| |done].
  all: intros [[rep' ms'] w'] (H1 & H2 & H3 & H4 & r' & H5 & H6).
  all: split; [done|]; split; [done|]; split; [done|]; exists r'; split; [done|]; intros c1 c2 c3; apply H6.
Qed.

Definition sample_text : list Z :=
  [97; 98; 99; 100; 101; 102; 103; 104; 105; 106; 97; 98; 99; 100; 101; 102; 103; 104; 105; 106; 120; 97; 98; 99; 100; 101; 102; 103; 104; 105; 106;
   121; 121; 121; 121; 121; 121; 121; 121; 121; 121; 121; 121; 121; 97; 98; 99; 100; 101; 102; 1; 2; 3; 4; 5; 6; 7; 8].
Definition sample_ms : ZSTD_MatchState_t := mkMatchState 2 0 (zfill 64 0) (zfill 64 0) (mkCParams 10 6 6 1 4 0 1).
Definition sample_writer : seq_writer := mkWriter [] 40 (zfill 200 0) 0 ZSTD_llt_none 0.

Lemma sample_in_window : in_window sample_text 2 2 58.
Proof. split; [bytes_dec|lia|vm_compute; intuition congruence|vm_compute; congruence|lia]. Qed.
Lemma sample_tab b : 1 <= b -> tab_ok 6 (zfill 64 0) b.
Proof. intros. split; [done|]. apply Forall_replicate. lia. Qed.

(** The block of the double fast finder has three sequences, the last with the second repeated
    offset. *)
Lemma store_block_regenerates_witness :
  (exists r', store_describes (mkSeqStore [mkSeqDef 13 10 7; mkSeqDef 14 1 7; mkSeqDef 4 1 9]
     [97; 98; 99; 100; 101; 102; 103; 104; 105; 106; 120; 121; 97; 98; 99; 100; 101; 102; 1; 2; 3; 4; 5; 6; 7; 8] [] [] [] ZSTD_llt_none 0)
     [1; 4; 8] [5; 6] ([5; 6] ++ sample_text) r' 58) /\
  wp (store_block (ZSTD_compressBlock_fast true) sample_text 2 sample_ms sample_writer [1; 4; 8] 2 58) (fun '(_, ms', _) => fast_ms_ok 2 60 ms') no_errors.
Proof.
  assert (reps_agree [1; 4; 8] [1; 4; 8]) as Hr by (exists 1, 4, 8, 8; split_and!; done || lia).
  assert (store_fits 2 (2 + 58) 4 sample_writer) as Hf by (split; vm_compute; congruence).
  split.
  - pose proof (store_block_regenerates true (ZSTD_compressBlock_doubleFast true) dfast_ms_ok sample_text 2 [5; 6] sample_ms sample_writer [1; 4; 8] [1; 4; 8] 2 58
      (or_intror (or_introl eq_refl)) sample_in_window ltac:(split_and!; done || lia || (split; apply sample_tab; lia)) Hr ltac:(bytes_dec) Hf) as H.
    apply wp_no_errors_Ok in H as ([[rep' ms'] w'] & E & _ & _ & _ & r' & _ & H). exists r'. specialize (H [] [] []).
    assert (store_of w' [] [] [] = mkSeqStore [mkSeqDef 13 10 7; mkSeqDef 14 1 7; mkSeqDef 4 1 9]
     [97; 98; 99; 100; 101; 102; 103; 104; 105; 106; 120; 121; 97; 98; 99; 100; 101; 102; 1; 2; 3; 4; 5; 6; 7; 8] [] [] [] ZSTD_llt_none 0) as Es.
    { vm_compute in E. injection E as _ _ <-. vm_compute. reflexivity. }
    rewrite Es in H. exact H.
  - eapply wp_mono; [apply (store_block_regenerates true (ZSTD_compressBlock_fast true) fast_ms_ok sample_text 2 [] sample_ms sample_writer [1; 4; 8] [1; 4; 8] 2 58
      (or_introl eq_refl) sample_in_window ltac:(split_and!; done || lia || (apply sample_tab; lia)) Hr ltac:(bytes_dec) Hf)| |done].
    intros [[rep' ms'] w'] (H & _). exact H.
Defined.
