(* ===== verification/SplitLit.v ===== *)
(** The execution of sequences whose literals are split between the end of the output
    and another buffer (decompress/zstd_decompress_block.c). *)

From S2P Require Import Prelude Errors Outcome Bits Mem BitStream FseTable FseBuild FseSafe LzCopy ExecSequence Wire SeqTables SeqDecode.

(** ** Definitions *)

(** The state of the first loop: the output, [op], [litPtr], the state of the streams
    and the sequences left. *)
Notation split_state := (list Z * Z * Z * seqState_t * Z)%type.

Section body.
Context (src : list Z) (oend litBufferEnd : Z) (prefixStart virtualStart : Z) (dictEnd : src_ptr).

(** A sequence whose literals are all in the output; the loop stops at one that
    goes past [litBufferEnd]. *)
Definition split_step (s : split_state) : result (flow split_state (split_state * seq_t)) :=
  let '(d, op, litPtr, seqState, nbSeq) := s in
  if nbSeq =? 0 then Ok (Break (d, op, litPtr, seqState, nbSeq, mkSeq 0 0 0))
  else
    let* '(sequence, seqState) := ZSTD_decodeSequence src seqState (nbSeq =? 1) in
    if litPtr + litLength sequence >? litBufferEnd then Ok (Break (d, op, litPtr, seqState, nbSeq, sequence))
    else
      let* '(oneSeqSize, d, lit) :=
        ZSTD_execSequenceSplitLitBuffer d op oend (litPtr + litLength sequence - WILDCOPY_OVERLENGTH) sequence (In_dst litPtr) litBufferEnd
          prefixStart virtualStart dictEnd in
      Ok (Continue (d, op + oneSeqSize, ptr_ix lit, seqState, nbSeq - 1)).

(** That sequence: the remainder is copied over from [dst], the other literals are in
    [litExtraBuffer]. *)
Definition split_sequence (litExtraBuffer : list Z) (extraSize : Z) (d : list Z) (op litPtr : Z) (sequence : seq_t)
  : result (list Z * Z * src_ptr) :=
  let leftoverLit := litBufferEnd - litPtr in
  let* '(d, op, sequence) :=
    (if negb (leftoverLit =? 0) then
       ERROR_IF leftoverLit >? oend - op THEN dstSize_tooSmall ;;
       let* d := ZSTD_safecopyDstBeforeSrc d op (In_dst litPtr) leftoverLit in
       Ok (d, op + leftoverLit, mkSeq (litLength sequence - leftoverLit) (matchLength sequence) (offset sequence))
     else Ok (d, op, sequence)) in
  let* '(oneSeqSize, d, lit) :=
    ZSTD_execSequence d op oend sequence (In_buf litExtraBuffer 0) extraSize prefixStart virtualStart dictEnd in
  Ok (d, op + oneSeqSize, lit).

(** The sequences whose literals are all in [litExtraBuffer]. *)
Definition split_rest (litEnd : Z) (d : list Z) (op : Z) (litPtr : src_ptr) (seqState : seqState_t) (nbSeq : Z)
  : result (list Z * Z * src_ptr * seqState_t * Z) :=
  while_ (Z.to_nat nbSeq) (fun '(_, _, _, _, nbSeq) => negb (nbSeq =? 0)) (fun '(d, op, litPtr, seqState, nbSeq) =>
    let* '(sequence, seqState) := ZSTD_decodeSequence src seqState (nbSeq =? 1) in
    let* '(oneSeqSize, d, litPtr) :=
      ZSTD_execSequence d op oend sequence litPtr litEnd prefixStart virtualStart dictEnd in
    Ok (d, op + oneSeqSize, litPtr, seqState, nbSeq - 1)) (d, op, litPtr, seqState, nbSeq).

(** The end of the block. [litPtr] is in [dst] if the split has not been reached. *)
Definition split_last (litExtraBuffer : list Z) (extraSize : Z) (d : list Z) (op : Z) (litPtr : src_ptr) (litEnd : Z) (split : bool)
  : result (list Z * Z) :=
  let* '(d, op, litPtr, litEnd) :=
    (if split then
       let* '(d, op) := last_literals memmove d op oend litPtr litEnd in
       Ok (d, op, In_buf litExtraBuffer 0, extraSize)
     else Ok (d, op, litPtr, litEnd)) in
  (* copy last literals from internal buffer *)
  last_literals memcpy d op oend litPtr litEnd.

(** The literals are those from [litPtr] to [litBufferEnd] in the output, then the
    first [extraSize] bytes of [litExtraBuffer]. The output, the size written and
    [dctx->entropy.rep]. *)
Definition ZSTD_decompressSequences_bodySplitLitBuffer (d : list Z) (ostart litPtr : Z) (litExtraBuffer : list Z) (extraSize : Z)
    (tables : seq_tables) (rep : list Z) (nbSeq : Z) : result (list Z * Z * list Z) :=
  let* '(d, op, litPtr, litEnd, split, rep) :=
    (if negb (nbSeq =? 0) then
       let* seqState := init_seqState src tables rep in
       (* decompress without overrunning litPtr begins *)
       let* '(d, op, litPtr, seqState, nbSeq, sequence) :=
         loop_ (S (Z.to_nat nbSeq)) split_step (d, ostart, litPtr, seqState, nbSeq) in
       let* '(d, op, litPtr, litEnd, split, nbSeq) :=
         (if nbSeq >? 0 then
            let* '(d, op, lit) := split_sequence litExtraBuffer extraSize d op litPtr sequence in
            Ok (d, op, lit, extraSize, false, nbSeq - 1)
          else Ok (d, op, In_dst litPtr, litBufferEnd, true, nbSeq)) in
       (* there is remaining lit from extra buffer *)
       let* '(d, op, litPtr, seqState, nbSeq) := split_rest litEnd d op litPtr seqState nbSeq in
       (* check if reached exact end *)
       ERROR_IF negb (nbSeq =? 0) THEN corruption_detected ;;
       ERROR_IF negb (BIT_endOfDStream (ss_DStream seqState)) THEN corruption_detected ;;
       (* save reps for next block *)
       Ok (d, op, litPtr, litEnd, split, map u32 (ss_prevOffset seqState))
     else Ok (d, ostart, In_dst litPtr, litBufferEnd, true, rep)) in
  (* last literal segment *)
  let* '(d, op) := split_last litExtraBuffer extraSize d op litPtr litEnd split in
  Ok (d, op - ostart, rep).
End body.

(** ** Lemmas *)

(** *** One sequence, whatever the distance to its literals *)

(** [d'] is [d] after bytes were written between [op] and [oend]. *)
Definition scribbled (oend : Z) (d d' : list Z) (op : Z) : Prop := outside oend d d' op /\ (bytes_ok d -> bytes_ok d').

Lemma scribbled_trans oend d d1 d2 op op1 : scribbled oend d d1 op -> scribbled oend d1 d2 op1 -> op <= op1 -> scribbled oend d d2 op.
Proof.
  intros [[E1 H1] B1] [[E2 H2] B2] Hle. split; [|auto]. split; [congruence|]. intros i Hi. rewrite H2 by lia. by apply H1.
Qed.

Lemma copied_scribbled k oend d d' op p n w : copied k d d' op p n w -> ptr_bytes p -> op + w <= oend -> scribbled oend d d' op.
Proof. intros (E & Hb & Ho & _) Hp Hw. split; [split; [done|]; intros i Hi; apply Ho; lia|auto]. Qed.

Lemma safecopyDstBeforeSrc_safe d op i len :
  0 <= op -> 0 <= i -> 0 <= len -> op + len <= zlen d -> i + len <= zlen d ->
  wp (ZSTD_safecopyDstBeforeSrc d op (In_dst i) len) (fun d' => scribbled (op + len) d d' op) no_errors.
Proof.
  intros Ho Hi Hl Hd Hi2.
  assert (forall d1 op1 i1, zlen d1 = zlen d -> op <= op1 <= op + len -> i1 - op1 = i - op ->
    wp (copy_bytes (op + len) d1 op1 (In_dst i1)) (fun d' => scribbled (op + len) d1 d' op1) no_errors) as Hbytes.
  { intros d1 op1 i1 E1 Hop1 Hi1. destruct (Z.le_gt_cases op i).
    - eapply wp_mono; [apply (copy_bytes_ok Backward 0); [lia|done|lia|split_and!; cbn; lia]|intros d' Hcp; eapply copied_scribbled; [exact Hcp|done|lia]|done].
    - eapply wp_mono; [apply (copy_bytes_ok Forward 1); [lia|lia|lia|split_and!; cbn; lia]|intros d' Hcp; eapply copied_scribbled; [exact Hcp|done|lia]|done]. }
  unfold ZSTD_safecopyDstBeforeSrc, WILDCOPY_OVERLENGTH, WILDCOPY_VECLEN. cbn [ptr_diff bind]. apply wp_if; intros Hif; [by apply Hbytes; lia|]. bools.
  apply wp_bind. case_if.
  - apply wp_bind. eapply wp_mono; [apply (wildcopy_no_overlap Backward); [lia|split_and!; cbn; lia]|intros d1 Hcp|done].
    pose proof (copied_scribbled _ (op + len) _ _ _ _ _ _ Hcp I ltac:(lia)) as Hs. apply wp_Ok. pose proof Hcp as (E1 & _).
    eapply wp_mono; [apply Hbytes; cbn; lia|intros d2 Hs2|done]. eapply scribbled_trans; [exact Hs|exact Hs2|lia].
  - apply wp_Ok. by apply Hbytes; lia.
Qed.

Lemma execSequenceSplit_safe dict ps d op oend s i litLimit :
  0 <= ps <= op -> op <= oend -> oend <= zlen d -> zlen d < 2 ^ 60 -> zlen dict < 2 ^ 60 -> seq_ok s ->
  0 <= i -> i + litLength s <= litLimit -> litLimit + WILDCOPY_OVERLENGTH <= oend ->
  wp (ZSTD_execSequenceSplitLitBuffer d op oend (i + litLength s - WILDCOPY_OVERLENGTH) s (In_dst i) litLimit ps (ps - zlen dict) (In_buf dict (zlen dict)))
    (fun '(n, d', lit') => n = litLength s + matchLength s /\ op + n <= oend /\ lit' = In_dst (i + litLength s) /\
       offset s <= op + litLength s - (ps - zlen dict) /\ outside oend d d' op /\ (bytes_ok d -> bytes_ok dict -> bytes_ok d')) any_error.
Proof.
  intros Hps Hop Hd H60 Hdict Hs Hi Hlim Hroom. pose proof (seq_ok_len _ Hs) as El. pose proof Hs as (Hl & Hm & Hoff). unfold WILDCOPY_OVERLENGTH in *.
  destruct (Z.le_gt_cases (op + (litLength s + matchLength s)) (i + litLength s - 32)) as [Hfast|Hend].
  - pose proof (execSequenceSplit_ok dict ps (ps - zlen dict) ltac:(lia) eq_refl d op oend s i litLimit Hs ltac:(lia) Hd ltac:(lia) ltac:(lia) ltac:(lia) Hlim
      ltac:(unfold WILDCOPY_OVERLENGTH; lia) ltac:(lia) ltac:(lia)) as H. cbv zeta in H. unfold WILDCOPY_OVERLENGTH in H.
    destruct (seq_error _ _ _ _ _ _) eqn:Ee; [by rewrite H|]. eapply wp_mono; [exact H| |done]. intros [[n d'] lit'] (-> & -> & E1 & E2 & E3 & _).
    split; [done|]. split; [lia|]. split; [done|]. split.
    { unfold seq_error in Ee. destruct (_ >? _); [done|]. destruct (_ >? _); [done|]. destruct (Z.gtb_spec (offset s) (op + litLength s - (ps - zlen dict))); done. } split; [|intros; by apply E2]. split; [done|]. intros j Hj. apply E3. lia.
  - unfold ZSTD_execSequenceSplitLitBuffer, ZSTD_execSequenceEndSplitLitBuffer. cbn [ptr_add ptr_ix ptr_diff bind]. rewrite El.
    rewrite (proj2 (Z.gtb_lt (op + _) _)) by lia. rewrite orb_true_r. rewrite !u64_small by lia.
    wp_step; [done|]. wp_step; [done|]. wp_step; [done|]. wp_step.
    eapply wp_mono; [apply safecopyDstBeforeSrc_safe; lia| |done]. intros d1 [[E1 Ho] Hb1].
    destruct (Z.gtb_spec (offset s) (op + litLength s - (ps - zlen dict))).
    { rewrite (exec_extDict_err dict ps (ps - zlen dict) ltac:(lia) eq_refl) by lia. done. }
    set (lit := In_buf (zsub d1 op (litLength s)) 0).
    assert (copied Forward d d1 op lit (litLength s) (litLength s)) as Hcp.
    { split; [done|]. split; [intros; by apply Hb1|]. split; [intros j Hj; apply Ho; lia|].
      intros j Hj. unfold lit. cbn [ptr_at]. rewrite zat_zsub by lia. f_equal; lia. }
    pose proof (end_match_ok dict ps (ps - zlen dict) ltac:(lia) eq_refl Forward d d1 op oend (i + litLength s - 32) s lit (litLength s) Hcp I Hs
      ltac:(lia) ltac:(lia) ltac:(lia) ltac:(lia) ltac:(lia) ltac:(lia) ltac:(lia) ltac:(lia) ltac:(lia)) as Hend_.
    assert (forall d' lit', seq_executed d d' op oend s lit ps dict -> lit' = In_dst (i + litLength s) ->
      (fun '(n, d', lit') => n = litLength s + matchLength s /\ op + n <= oend /\ lit' = In_dst (i + litLength s) /\
         offset s <= op + litLength s - (ps - zlen dict) /\ outside oend d d' op /\ (bytes_ok d -> bytes_ok dict -> bytes_ok d')) (litLength s + matchLength s, d', lit')) as Hfin.
    { intros d' lit' (E2 & Hb2 & Ho2 & _) ->. split; [done|]. split; [lia|]. split; [done|]. split; [lia|]. split; [done|].
      intros Hbd Hbdict. apply Hb2; [done| |done]. apply bytes_ok_zsub. auto. }
    destruct (exec_extDict _ _ _ _ _ _) as [[d2|[[[d2 op2] ml2] m2]]|e|]; cbn [bind wp] in *; [| |done|done].
    + destruct Hend_ as (_ & _ & Hex). by apply Hfin.
    + destruct (ZSTD_safecopy _ _ _ _ _ _) as [d3|e|]; cbn [bind wp] in *; [|done|done]. destruct Hend_ as (_ & _ & Hex). by apply Hfin.
Qed.

(** *** The loops *)

Lemma loop_unfold {T R} fuel (body : T -> result (flow T R)) s :
  loop_ (S fuel) body s = let* f := body s in match f with Continue s' => loop_ fuel body s' | Break r => Ok r end.
Proof. reflexivity. Qed.

Section split.
Context (dict src : list Z) (tables : seq_tables) (ps oend lend : Z).
Hypothesis Hsrc : bytes_ok src.
Hypothesis Htables : seq_tables_wf tables.
Hypothesis Hps : 0 <= ps.
Hypothesis Hsize : oend < 2 ^ 59 /\ zlen dict < 2 ^ 59.
Hypothesis Hroom : lend + WILDCOPY_OVERLENGTH <= oend.

Notation vs := (ps - zlen dict).
Notation dictEnd := (In_buf dict (zlen dict)).
Notation step := (split_step src oend lend ps vs dictEnd).

(** A state of the loop. *)
Record split_ok (d : list Z) (op i : Z) (st : seqState_t) (over : Z) : Prop := {
  sk_op : ps <= op <= oend;
  sk_oend : oend <= zlen d /\ zlen d < 2 ^ 60;
  sk_lit : 0 <= i <= lend;
  sk_st : seqState_ok src tables over st;
  sk_over : 0 <= over;
}.

Lemma seqState_ok_le over over' st : seqState_ok src tables over st -> over <= over' -> seqState_ok src tables over' st.
Proof. intros [H1 H2 H3 H4 H5] Hle. split; try done. by eapply dlive_le. Qed.

Lemma outside_le d d' op op' : outside oend d d' op' -> op <= op' -> outside oend d d' op.
Proof. intros [E H] Hle. split; [done|]. intros i Hi. apply H. lia. Qed.

Lemma outside_after d d1 d2 op op1 : outside oend d d1 op -> outside oend d1 d2 op1 -> op <= op1 -> outside oend d d2 op.
Proof. intros [E1 H1] [E2 H2] Hle. split; [congruence|]. intros i Hi. rewrite H2 by lia. by apply H1. Qed.

(** What the loop leaves: all the sequences, or one whose literals are not all in the output. *)
Definition split_left (d : list Z) (op : Z) (st : seqState_t) (over n : Z) (r : split_state * seq_t) : Prop :=
  let '(d', op', i', st', m, s) := r in
  outside oend d d' op /\ (bytes_ok d -> bytes_ok dict -> bytes_ok d') /\ op <= op' /\ 0 <= m <= n /\ split_ok d' op' i' st' (over + 100 * n) /\
  (m = 0 -> prev_small (ss_prevOffset st) -> prev_small (ss_prevOffset st')) /\
  (0 < m -> seq_ok s /\ lend < i' + litLength s /\
     (prev_small (ss_prevOffset st) -> offset s < 2 ^ 62 -> prev_small (ss_prevOffset st'))).

Lemma split_loop_safe n d op i st over :
  split_ok d op i st over -> over + 100 * Z.of_nat n < 2 ^ 29 ->
  wp (loop_ (S n) step (d, op, i, st, Z.of_nat n)) (split_left d op st over (Z.of_nat n)) any_error.
Proof.
  revert d op i st over. induction n as [|n IH]; intros d op i st over Hok Hn; pose proof Hok as [Hop [Hd H60] Hi Hst Ho]; rewrite loop_unfold; unfold split_step at 1.
  - cbn [Z.of_nat Z.eqb bind]. cbn [wp]. split; [by split|]. split; [done|]. split; [lia|]. split; [lia|]. split; [by rewrite Z.add_0_r|]. split; [done|lia].
  - rewrite (proj2 (Z.eqb_neq _ _)) by lia. set (last := _ =? 1).
    destruct (decodeSequence_ok src tables over st last Hsrc Htables Hst ltac:(lia)) as (s & st1 & -> & Hs & Hst1 & Hsm). cbn [bind].
    destruct (Z.gtb_spec (i + litLength s) lend); cbn [bind].
    + cbn [wp]. split; [by split|]. split; [done|]. split; [lia|]. split; [lia|]. split; [split; [done|done|lia| |lia]; eapply seqState_ok_le; [exact Hst1|lia]|].
      split; [lia|]. done.
    + pose proof (execSequenceSplit_safe dict ps d op oend s i lend ltac:(lia) ltac:(lia) Hd ltac:(lia) ltac:(lia) Hs ltac:(lia) ltac:(lia) Hroom) as Hex.
      destruct (ZSTD_execSequenceSplitLitBuffer _ _ _ _ _ _ _ _ _ _) as [[[k d1] lit]|e|]; cbn [bind wp] in *; [|done|done].
      destruct Hex as (-> & Hfit & -> & Hoff & Hout & Hb). cbn [ptr_ix]. pose proof Hs as (Hl & Hm & _). pose proof Hout as [E1 _].
      replace (Z.of_nat (S n) - 1) with (Z.of_nat n) by lia.
      assert (split_ok d1 (op + (litLength s + matchLength s)) (i + litLength s) st1 (over + 100)) as Hok1 by (split; [lia|lia|lia|done|lia]).
      eapply wp_mono; [apply (IH _ _ _ _ _ Hok1); lia| |done]. intros [[[[[d2 op2] i2] st2] m] s2] (Ho2 & Hb2 & Hle & Hmr & Hok2 & Hz & Hp).
      split; [eapply outside_after; [exact Hout|exact Ho2|lia]|]. split; [auto|]. split; [lia|]. split; [lia|].
      split; [by replace (over + 100 * Z.of_nat (S n)) with (over + 100 + 100 * Z.of_nat n) by lia|].
      assert (prev_small (ss_prevOffset st) -> prev_small (ss_prevOffset st1)) as Hps1 by (intros; apply Hsm; [done|lia]).
      split; [auto|]. intros Hm0. destruct (Hp Hm0) as (? & ? & ?). auto.
Qed.

(** *** A block that fits *)

Lemma lz_exec_slack h lits room seqs h' lits' room' :
  Forall seq_ok seqs -> lz_exec h lits room seqs = Ok (h', lits', room') -> zlen lits' <= room' -> zlen lits <= room.
Proof.
  intros HF. revert h lits room. induction HF as [|s seqs Hs _ IH]; intros h lits room E Hle; cbn [lz_exec] in E; [by simplify_eq|].
  unfold RETURN_ERROR_IF in E. destruct (Z.gtb_spec (litLength s + matchLength s) room); [done|]. destruct (Z.gtb_spec (litLength s) (zlen lits)); [done|].
  destruct (_ >? _); [done|]. destruct Hs as (Hl & Hm & _). apply IH in E; [|done]. rewrite zlen_zsub in E by lia. lia.
Qed.

(** The literals that are left: those of the output, then [tail]. *)
Context (tail : list Z).
Hypothesis Htail : 64 <= zlen tail < 2 ^ 32.
Definition split_lits (d : list Z) (i : Z) : list Z := zsub d i (lend - i) ++ tail.

(** What the sequences that are left do. *)
Definition split_run (d : list Z) (op i : Z) (seqs : list seq_t) (h lits : list Z) (room : Z) : Prop :=
  lz_exec (history ps dict d op) (split_lits d i) (lend + 32 - op) seqs = Ok (h, lits, room) /\ zlen lits <= room.

Lemma zlen_split_lits d i : 0 <= i <= lend -> lend <= zlen d -> zlen (split_lits d i) = lend - i + zlen tail.
Proof. intros. unfold split_lits. rewrite zlen_app, zlen_zsub by lia. done. Qed.

Lemma split_lits_take d i k : 0 <= i -> 0 <= k -> i + k <= lend -> lend <= zlen d -> zsub (split_lits d i) 0 k = zsub d i k.
Proof.
  intros. unfold split_lits. rewrite zsub_app_l by (rewrite ?zlen_zsub; lia). apply zat_ext; rewrite ?zlen_zsub by (rewrite ?zlen_zsub by lia; lia); [done|].
  intros j Hj. rewrite !zat_zsub by lia. f_equal; lia.
Qed.

Lemma split_lits_drop d i k : 0 <= i -> 0 <= k -> i + k <= lend -> lend <= zlen d ->
  zsub (split_lits d i) k (zlen (split_lits d i) - k) = split_lits d (i + k).
Proof.
  intros. rewrite zlen_split_lits by lia. apply zat_ext; [rewrite zlen_split_lits, zlen_zsub by (rewrite ?zlen_split_lits; lia); lia|].
  intros j Hj. rewrite zlen_zsub in Hj by (rewrite ?zlen_split_lits; lia). rewrite zat_zsub by lia. unfold split_lits.
  destruct (Z.lt_ge_cases j (lend - (i + k))).
  - rewrite !zat_app_l by (rewrite zlen_zsub; lia). rewrite !zat_zsub by lia. f_equal; lia.
  - rewrite !zat_app_r by (rewrite zlen_zsub; lia). f_equal. rewrite !zlen_zsub by lia. lia.
Qed.

Lemma split_lits_same d d' i : zlen d' = zlen d -> (forall j, i <= j -> zat d' j = zat d j) -> 0 <= i <= lend -> lend <= zlen d -> split_lits d' i = split_lits d i.
Proof.
  intros E H Hi Hl. unfold split_lits. f_equal. apply zat_ext; [rewrite !zlen_zsub; lia|]. intros j Hj. rewrite zlen_zsub in Hj by lia.
  rewrite !zat_zsub by lia. apply H. lia.
Qed.

Lemma split_exec_ok d op i s seqs h lits room :
  ps <= op <= oend -> oend <= zlen d -> zlen d < 2 ^ 60 -> 0 <= i -> i + litLength s <= lend -> seq_ok s -> Forall seq_ok seqs ->
  split_run d op i (s :: seqs) h lits room ->
  exists d', ZSTD_execSequenceSplitLitBuffer d op oend (i + litLength s - WILDCOPY_OVERLENGTH) s (In_dst i) lend ps vs dictEnd =
      Ok (litLength s + matchLength s, d', In_dst (i + litLength s)) /\
    zlen d' = zlen d /\ op + (litLength s + matchLength s) <= oend /\ split_run d' (op + (litLength s + matchLength s)) (i + litLength s) seqs h lits room.
Proof.
  intros Hop Hd H60 Hi Hlim Hs HF [Hrun Hle]. pose proof Hs as (Hl & Hm & Hoff). unfold WILDCOPY_OVERLENGTH in *.
  cbn [lz_exec] in Hrun. unfold RETURN_ERROR_IF in Hrun. destruct (Z.gtb_spec (litLength s + matchLength s) (lend + 32 - op)); [done|].
  destruct (Z.gtb_spec (litLength s) (zlen (split_lits d i))); [done|].
  destruct (Z.gtb_spec (offset s) (zlen (history ps dict d op) + litLength s)); [done|]. rewrite zlen_history in * by lia.
  pose proof (zlen_split_lits d i ltac:(lia) ltac:(lia)) as El.
  pose proof (lz_exec_slack _ _ _ _ _ _ _ HF Hrun Hle) as Hslack. rewrite zlen_zsub in Hslack by lia.
  pose proof (execSequenceSplit_ok dict ps vs Hps eq_refl d op oend s i lend Hs ltac:(lia) Hd ltac:(lia) ltac:(lia) ltac:(lia) Hlim
    ltac:(unfold WILDCOPY_OVERLENGTH; lia) ltac:(lia) ltac:(lia)) as Hex. cbv zeta in Hex. unfold WILDCOPY_OVERLENGTH in Hex.
  unfold seq_error in Hex. destruct (Z.gtb_spec (litLength s + matchLength s) (oend - op)); [lia|]. cbn [ptr_ix] in Hex.
  destruct (Z.gtb_spec (litLength s) (lend - i)); [lia|]. destruct (Z.gtb_spec (offset s) (op + litLength s - vs)); [lia|].
  destruct (wp_no_errors_Ok _ _ Hex) as ([[k d'] lit'] & -> & -> & -> & Hse). exists d'. split; [done|].
  replace (Z.max _ _) with (i + litLength s) in Hse by lia. pose proof Hse as (E1 & _ & Ho & _). split; [done|]. split; [lia|]. split; [|done].
  rewrite Z.add_assoc. rewrite (seq_executed_history dict ps vs Hps eq_refl d d' op _ s (In_dst i) Hse Hs) by lia.
  rewrite ptr_sub_map by (cbn; lia). rewrite <- Hrun. f_equal; [| |lia].
  - f_equal. symmetry. apply split_lits_take; lia.
  - rewrite split_lits_drop by lia. apply split_lits_same; [done| |lia|lia]. intros j Hj. apply Ho. lia.
Qed.

(** The sequences before the split. *)
Lemma split_loop_ok n d op i st over seqs st' h lits room :
  split_ok d op i st over -> over + 100 * Z.of_nat n < 2 ^ 29 ->
  decode_sequences src st n = Ok (seqs, st') -> split_run d op i seqs h lits room ->
  wp (loop_ (S n) step (d, op, i, st, Z.of_nat n)) (fun '(d', op', i', st1, m, s) =>
    (m = 0 /\ st1 = st' /\ split_run d' op' i' [] h lits room) \/
    (exists k seqs1, m = Z.of_nat (S k) /\ decode_sequences src st1 k = Ok (seqs1, st') /\ lend < i' + litLength s /\
       split_run d' op' i' (s :: seqs1) h lits room)) no_errors.
Proof.
  revert d op i st over seqs. induction n as [|n IH]; intros d op i st over seqs Hok Hn Hdec Hrun; pose proof Hok as [Hop [Hd H60] Hi Hst Ho]; rewrite loop_unfold; unfold split_step at 1.
  - cbn [Z.of_nat Z.eqb bind wp]. cbn [decode_sequences] in Hdec. simplify_eq. by left.
  - rewrite (proj2 (Z.eqb_neq _ _)) by lia. cbn [decode_sequences] in Hdec.
    replace (Z.of_nat (S n) =? 1) with (bool_decide (n = O)) by (by destruct n; [|rewrite bool_decide_false, (proj2 (Z.eqb_neq _ _)) by lia]).
    destruct (decodeSequence_ok src tables over st (bool_decide (n = O)) Hsrc Htables Hst ltac:(lia)) as (s & st1 & Es & Hs & Hst1 & Hsm).
    rewrite Es in *. cbn [bind] in *.
    destruct (decode_sequences_ok src tables n _ st1 Hsrc Htables Hst1 ltac:(lia) ltac:(lia)) as (seqs1 & st2 & Eseqs & HF & _). rewrite Eseqs in Hdec. cbn [bind] in Hdec. simplify_eq.
    destruct (Z.gtb_spec (i + litLength s) lend); cbn [bind].
    + cbn [wp]. right. exists n, seqs1. done.
    + destruct (split_exec_ok d op i s seqs1 h lits room ltac:(lia) Hd H60 ltac:(lia) ltac:(lia) Hs HF Hrun) as (d1 & -> & E1 & Hfit & Hrun1).
      cbn [bind ptr_ix]. replace (Z.of_nat (S n) - 1) with (Z.of_nat n) by lia. pose proof Hs as (Hl & Hm & _).
      eapply (IH _ _ _ _ (over + 100)); [split; [lia|lia|lia|done|lia]|lia|exact Eseqs|exact Hrun1].
Qed.
End split.

(** *** After the split *)

Lemma lz_exec_room h lits room seqs h' lits' room' e :
  0 <= e -> lz_exec h lits room seqs = Ok (h', lits', room') -> lz_exec h lits (room + e) seqs = Ok (h', lits', room' + e).
Proof.
  intros He. revert h lits room. induction seqs as [|s seqs IH]; intros h lits room; cbn [lz_exec]; [intros [= -> -> ->]; done|].
  unfold RETURN_ERROR_IF. destruct (Z.gtb_spec (litLength s + matchLength s) room); [done|].
  destruct (Z.gtb_spec (litLength s + matchLength s) (room + e)); [lia|]. destruct (_ >? _); [done|]. destruct (_ >? _); [done|].
  intros E. replace (room + e - litLength s - matchLength s) with (room - litLength s - matchLength s + e) by lia. by apply IH.
Qed.

Lemma patched_outside d oend op i b : 0 <= op <= i -> i + zlen b <= oend -> oend <= zlen d -> outside oend d (zpatch d i b) op.
Proof.
  intros. pose proof (zlen_nonneg b). split; [apply zlen_zpatch; lia|]. intros j Hj. destruct (Z.lt_ge_cases j (zlen d)).
  - rewrite zat_zpatch by lia. destruct (Z.leb_spec i j), (Z.ltb_spec j (i + zlen b)); cbn [andb]; try done. lia.
  - unfold zat. rewrite !list_lookup_total_alt, !lookup_ge_None_2; [done|unfold zlen in *; lia|].
    pose proof (zlen_zpatch d b i ltac:(lia) ltac:(lia)). unfold zlen in *. lia.
Qed.

Section tail.
Context (dict src : list Z) (tables : seq_tables) (ps oend lend X : Z) (extra : list Z).
Hypothesis Hsrc : bytes_ok src.
Hypothesis Htables : seq_tables_wf tables.
Hypothesis Hps : 0 <= ps.
Hypothesis Hsize : oend < 2 ^ 59 /\ zlen dict < 2 ^ 59.
Hypothesis Hroom : lend + WILDCOPY_OVERLENGTH <= oend.
Hypothesis HX : 64 <= X /\ X + WILDCOPY_OVERLENGTH <= zlen extra /\ zlen extra < 2 ^ 31.

Notation vs := (ps - zlen dict).
Notation dictEnd := (In_buf dict (zlen dict)).
Notation lits_tail := (zsub extra 0 X).
Notation split_seq := (split_sequence oend lend ps vs dictEnd extra X).

Lemma extra_room d k : 0 <= k <= X -> lit_room d oend (In_buf extra k) X.
Proof. intros Hk. unfold lit_room, WILDCOPY_OVERLENGTH in *. cbn. lia. Qed.

(** Its literals from the output, whatever the distance, then the rest. *)
Lemma split_sequence_safe d op i s :
  ps <= op <= oend -> oend <= zlen d -> zlen d < 2 ^ 60 -> 0 <= i <= lend -> lend < i + litLength s -> seq_ok s ->
  wp (split_seq d op i s) (fun '(d', op', lit') =>
    outside oend d d' op /\ (bytes_ok d -> bytes_ok extra -> bytes_ok dict -> bytes_ok d') /\ op <= op' <= oend /\
    (exists k, 0 <= k <= X /\ lit' = In_buf extra k) /\ offset s < 2 ^ 62) any_error.
Proof.
  intros Hop Hd H60 Hi Hlit Hs. pose proof Hs as (Hl & Hm & Hoff). unfold WILDCOPY_OVERLENGTH in *. unfold split_sequence. cbv zeta.
  assert (forall d1 op1 s1, seq_ok s1 -> outside oend d d1 op -> (bytes_ok d -> bytes_ok d1) -> op <= op1 <= oend -> offset s1 = offset s ->
    wp (let* '(oneSeqSize, d, lit) := ZSTD_execSequence d1 op1 oend s1 (In_buf extra 0) X ps vs dictEnd in Ok (d, op1 + oneSeqSize, lit))
      (fun '(d', op', lit') => outside oend d d' op /\ (bytes_ok d -> bytes_ok extra -> bytes_ok dict -> bytes_ok d') /\ op <= op' <= oend /\
        (exists k, 0 <= k <= X /\ lit' = In_buf extra k) /\ offset s < 2 ^ 62) any_error) as Hexec.
  { intros d1 op1 s1 Hs1 [E1 Ho1] Hb1 Hop1 Eo. pose proof Hs1 as (Hl1 & Hm1 & _).
    pose proof (execSequence_history dict ps op1 oend s1 (In_buf extra 0) X d1 ltac:(lia) ltac:(lia) ltac:(lia) ltac:(lia) ltac:(lia) (extra_room d1 0 ltac:(lia)) Hs1) as Hex.
    cbv zeta in Hex. destruct (seq_error _ _ _ _ _ _) eqn:Ee; [by rewrite Hex|]. destruct Hex as (d2 & -> & Hf & Hx & E2 & Ho2 & Hb2 & _). cbn [bind wp ptr_ix] in *.
    split; [split; [congruence|]; intros j Hj; rewrite Ho2 by lia; by apply Ho1|]. split; [intros; apply Hb2; auto|]. split; [lia|].
    split; [eexists; split; [|reflexivity]; lia|]. unfold seq_error in Ee. destruct (_ >? _); [done|]. destruct (_ >? _); [done|].
    destruct (Z.gtb_spec (offset s1) (op1 + litLength s1 - vs)); [done|]. lia. }
  destruct (Z.eqb_spec (lend - i) 0); cbn [negb].
  - cbn [bind]. apply Hexec; [done|by split|done|lia|done].
  - wp_step. wp_step; [done|]. wp_step. eapply wp_mono; [apply safecopyDstBeforeSrc_safe; lia| |done]. intros d1 [[E1 Ho1] Hb1]. wp_step.
    apply Hexec; [split_and!; cbn; lia|split; [done|]; intros j Hj; apply Ho1; lia|done|lia|done].
Qed.

Lemma split_sequence_ok d op i s seqs h lits room :
  ps <= op <= oend -> oend <= zlen d -> zlen d < 2 ^ 60 -> 0 <= i <= lend -> lend < i + litLength s -> seq_ok s -> Forall seq_ok seqs ->
  split_run dict ps lend lits_tail d op i (s :: seqs) h lits room ->
  wp (split_seq d op i s) (fun '(d', op', lit') => zlen d' = zlen d /\ op' = op + (litLength s + matchLength s) /\ op' <= oend /\
    exists k, 0 <= k <= X /\ lit' = In_buf extra k /\
      lz_exec (history ps dict d' op') (zsub extra k (X - k)) (lend + 32 - op') seqs = Ok (h, lits, room)) no_errors.
Proof.
  intros Hop Hd H60 Hi Hlit Hs HF [Hrun Hle]. pose proof Hs as (Hl & Hm & Hoff). unfold WILDCOPY_OVERLENGTH in *.
  assert (zlen lits_tail = X) as Et by (apply zlen_zsub; lia).
  cbn [lz_exec] in Hrun. unfold RETURN_ERROR_IF in Hrun. destruct (Z.gtb_spec (litLength s + matchLength s) (lend + 32 - op)); [done|].
  destruct (Z.gtb_spec (litLength s) (zlen (split_lits lend lits_tail d i))); [done|].
  destruct (Z.gtb_spec (offset s) (zlen (history ps dict d op) + litLength s)); [done|]. rewrite zlen_history in * by lia.
  pose proof (zlen_split_lits lend lits_tail d i ltac:(lia) ltac:(lia)) as El. rewrite Et in El.
  pose proof (lz_exec_slack _ _ _ _ _ _ _ HF Hrun Hle) as Hslack. rewrite zlen_zsub in Hslack by lia.
  set (left := lend - i) in *. set (ll := litLength s - left) in *.
  assert (zsub (split_lits lend lits_tail d i) 0 (litLength s) = zsub d i left ++ zsub extra 0 ll) as Etake.
  { unfold split_lits. fold left. replace (litLength s) with (left + ll) by lia. rewrite zsub_split by lia.
    assert (zlen (zsub d i left) = left) as Ez by (apply zlen_zsub; lia). f_equal.
    - rewrite zsub_app_l by lia. rewrite <- Ez at 2. apply zsub_all.
    - apply zat_ext; [rewrite !zlen_zsub; rewrite ?zlen_app; lia|]. intros j Hj. rewrite zlen_zsub in Hj by (rewrite ?zlen_app; lia).
      rewrite zat_zsub, zat_app_r, !zat_zsub by lia. f_equal; lia. }
  assert (zsub (split_lits lend lits_tail d i) (litLength s) (zlen (split_lits lend lits_tail d i) - litLength s) = zsub extra ll (X - ll)) as Edrop.
  { apply zat_ext; [rewrite !zlen_zsub; lia|]. intros j Hj. rewrite zlen_zsub in Hj by lia. rewrite zat_zsub by lia. unfold split_lits.
    rewrite zat_app_r by (rewrite zlen_zsub; lia). rewrite zlen_zsub by lia. rewrite !zat_zsub by lia. f_equal; lia. }
  rewrite Etake, Edrop in Hrun. clear Etake Edrop.
  assert (forall d1, zlen d1 = zlen d -> history ps dict d1 (op + left) = history ps dict d op ++ zsub d i left ->
    wp (let* '(oneSeqSize, d, lit) := ZSTD_execSequence d1 (op + left) oend (mkSeq ll (matchLength s) (offset s)) (In_buf extra 0) X ps vs dictEnd in
        Ok (d, op + left + oneSeqSize, lit)) (fun '(d', op', lit') => zlen d' = zlen d /\ op' = op + (litLength s + matchLength s) /\ op' <= oend /\
      exists k, 0 <= k <= X /\ lit' = In_buf extra k /\
        lz_exec (history ps dict d' op') (zsub extra k (X - k)) (lend + 32 - op') seqs = Ok (h, lits, room)) no_errors) as Hexec.
  { intros d1 E1 Hh1.
    pose proof (execSequence_history dict ps (op + left) oend (mkSeq ll (matchLength s) (offset s)) (In_buf extra 0) X d1 ltac:(lia) ltac:(lia) ltac:(lia) ltac:(lia) ltac:(lia)
      (extra_room d1 0 ltac:(lia)) ltac:(split_and!; cbn; lia)) as Hex. cbv zeta in Hex. unfold seq_error in Hex. cbn [litLength matchLength offset ptr_ix ptr_add] in Hex.
    destruct (Z.gtb_spec (ll + matchLength s) (oend - (op + left))); [lia|]. destruct (Z.gtb_spec ll (X - 0)); [lia|].
    destruct (Z.gtb_spec (offset s) (op + left + ll - vs)); [lia|]. destruct Hex as (d2 & -> & _ & _ & E2 & _ & _ & Hh2). cbn [bind wp].
    split; [congruence|]. split; [lia|]. split; [lia|]. exists ll. split; [lia|]. split; [done|]. rewrite <- Hrun. f_equal; [|lia].
    rewrite Hh2, Hh1. unfold lz_sequence, ptr_sub. cbn [offset matchLength ptr_buf ptr_ix]. by rewrite <- app_assoc. }
  unfold split_sequence. fold left. cbv zeta. destruct (Z.eqb_spec left 0) as [E0|E0]; cbn [negb].
  - cbn [bind]. pose proof (Hexec d eq_refl) as Hd0. replace (op + left) with op in Hd0 by lia.
    replace (mkSeq ll (matchLength s) (offset s)) with s in Hd0 by (destruct s; unfold ll; cbn in *; f_equal; lia).
    apply Hd0. rewrite E0, zsub_0, app_nil_r. done.
  - unfold RETURN_ERROR_IF. destruct (Z.gtb_spec left (oend - op)); [lia|]. wp_step. wp_step.
    eapply wp_mono; [apply safecopyDstBeforeSrc_ok; lia| |done]. intros d1 Hcp. wp_step. pose proof Hcp as (E1 & _).
    apply Hexec; [done|]. rewrite (history_app dict ps ltac:(lia) d d1 op (In_dst i) left ltac:(lia) Hcp ltac:(lia) ltac:(lia)) by (cbn; lia). done.
Qed.
End tail.

(** *** The whole block *)

Lemma memmove_safe d op i n : 0 <= op -> 0 <= i -> 0 <= n -> op + n <= zlen d -> i + n <= zlen d ->
  wp (memmove d op (In_dst i) n) (fun d' => scribbled (op + n) d d' op) no_errors.
Proof.
  intros Ho Hi Hn H1 H2. unfold memmove, load. rewrite (proj2 (Z.leb_le 0 i)), (proj2 (Z.leb_le (i + n) _)) by lia. cbn [andb bind].
  assert (zlen (zsub d i n) = n) as El by (apply zlen_zsub; lia). apply wp_memcpy_at; [lia|lia|].
  split; [apply patched_outside; lia|]. intros Hb. apply bytes_ok_zpatch; [done|]. by apply bytes_ok_zsub.
Qed.

Section whole.
Context (dict src : list Z) (tables : seq_tables) (ps oend lend X : Z) (extra : list Z).
Hypothesis Hsrc : bytes_ok src /\ zlen src < 2 ^ 32.
Hypothesis Hps : 0 <= ps.
Hypothesis Hsize : oend < 2 ^ 59 /\ zlen dict < 2 ^ 59.
Hypothesis Hroom : lend + WILDCOPY_OVERLENGTH <= oend.
Hypothesis HX : 64 <= X /\ X + WILDCOPY_OVERLENGTH <= zlen extra /\ zlen extra < 2 ^ 31.

Notation vs := (ps - zlen dict).
Notation dictEnd := (In_buf dict (zlen dict)).
Notation lits_tail := (zsub extra 0 X).

(** Where the literals that are left can be. *)
Definition left_at (d : list Z) (lit : src_ptr) (litEnd : Z) (split : bool) : Prop :=
  if split then exists i, lit = In_dst i /\ 0 <= i <= lend /\ litEnd = lend
  else exists k, lit = In_buf extra k /\ 0 <= k <= X /\ litEnd = X.

Lemma last_extra d op k :
  ps <= op <= oend -> oend <= zlen d -> 0 <= k <= X ->
  wp (last_literals memcpy d op oend (In_buf extra k) X) (fun '(d', op') =>
    op <= op' <= oend /\ outside oend d d' op /\ (bytes_ok d -> bytes_ok extra -> bytes_ok d') /\
    history ps dict d' op' = history ps dict d op ++ zsub extra k (X - k)) (fun e => oend - op < X - k).
Proof.
  intros Hop Hd Hk. unfold WILDCOPY_OVERLENGTH in *.
  pose proof (last_literals_ok dict ps oend X ltac:(lia) d op (In_buf extra k) Hop Hd (extra_room oend X extra HX d k Hk)) as H.
  cbv zeta in H. cbn [ptr_ix] in H. destruct (Z.gtb_spec (X - k) (oend - op)); [by rewrite H|].
  destruct H as (d' & -> & Ho & Hb & Hh). cbn [wp]. split; [lia|]. split; [done|]. split; [by intros; apply Hb|exact Hh].
Qed.

Lemma split_last_safe d op lit litEnd split :
  ps <= op <= oend -> oend <= zlen d -> zlen d < 2 ^ 60 -> left_at d lit litEnd split ->
  wp (split_last oend extra X d op lit litEnd split) (fun '(d', op') =>
    op <= op' <= oend /\ outside oend d d' op /\ (bytes_ok d -> bytes_ok extra -> bytes_ok d')) any_error.
Proof.
  intros Hop Hd H60 Hl. unfold WILDCOPY_OVERLENGTH in *. unfold split_last. destruct split.
  - destruct Hl as (i & -> & Hi & ->). wp_step. unfold last_literals at 1. cbn [ptr_ix]. wp_step. wp_step; [done|]. wp_step.
    eapply wp_mono; [apply memmove_safe; lia| |done]. intros d1 [[E1 Ho1] Hb1]. wp_step. wp_step.
    eapply wp_mono; [apply last_extra; lia| |done]. intros [d2 op2] (Hr & [E2 Ho2] & Hb2 & _). split; [lia|]. split; [|auto].
    split; [congruence|]. intros j Hj. rewrite Ho2 by lia. apply Ho1. lia.
  - destruct Hl as (k & -> & Hk & ->). cbn [bind]. eapply wp_mono; [by apply last_extra| |done]. intros [d2 op2] (Hr & Ho & Hb & _). done.
Qed.

Lemma split_last_ok d op lit litEnd split lits :
  ps <= op <= oend -> oend <= zlen d -> zlen d < 2 ^ 60 -> left_at d lit litEnd split ->
  lits = (if split then split_lits lend lits_tail d (ptr_ix lit) else zsub extra (ptr_ix lit) (X - ptr_ix lit)) -> zlen lits <= lend + 32 - op ->
  wp (split_last oend extra X d op lit litEnd split) (fun '(d', op') => history ps dict d' op' = history ps dict d op ++ lits) no_errors.
Proof.
  intros Hop Hd H60 Hl -> Hfit. unfold WILDCOPY_OVERLENGTH in *. assert (zlen lits_tail = X) as Et by (apply zlen_zsub; lia). unfold split_last. destruct split.
  - destruct Hl as (i & -> & Hi & ->). cbn [ptr_ix] in *. rewrite zlen_split_lits, Et in Hfit by lia.
    unfold last_literals at 1, RETURN_ERROR_IF. cbn [ptr_ix]. destruct (Z.gtb_spec (lend - i) (oend - op)); [lia|]. do 3 wp_step.
    eapply wp_mono; [apply (memmove_ok Backward 0); [lia|lia|done|split_and!; cbn; lia]| |done]. intros d1 Hcp. cbv beta in Hcp. pose proof Hcp as (E1 & _). wp_step. wp_step.
    eapply wp_mono; [apply last_extra; lia| |intros e He; cbv beta in He; lia]. intros [d2 op2] (_ & _ & _ & ->).
    rewrite (history_app dict ps ltac:(lia) d d1 op (In_dst i) (lend - i) ltac:(lia) Hcp ltac:(lia) ltac:(lia)) by (cbn; lia).
    rewrite <- app_assoc. f_equal. unfold split_lits, ptr_sub. cbn [ptr_buf ptr_ix]. by rewrite Z.sub_0_r.
  - destruct Hl as (k & -> & Hk & ->). cbn [bind ptr_ix] in *. rewrite zlen_zsub in Hfit by lia.
    eapply wp_mono; [by apply last_extra| |intros e He; cbv beta in He; lia]. intros [d2 op2] (_ & _ & _ & ->). done.
Qed.

Notation body d ostart i rep n := (ZSTD_decompressSequences_bodySplitLitBuffer src oend lend ps vs dictEnd d ostart i extra X tables rep n).

Lemma split_rest_loop litEnd n d op lit st :
  split_rest src oend ps vs dictEnd litEnd d op lit st (Z.of_nat n) = exec_loop dict src ps oend litEnd n d op lit st.
Proof. unfold split_rest, exec_loop. by rewrite Nat2Z.id. Qed.

Lemma split_rest_done litEnd d op lit st : split_rest src oend ps vs dictEnd litEnd d op lit st 0 = Ok (d, op, lit, st, 0).
Proof. reflexivity. Qed.

(** The sequences in [litExtraBuffer], on any bits. *)
Lemma split_rest_safe (Htables : seq_tables_wf tables) n d op k st over :
  ps <= op <= oend -> oend <= zlen d -> 0 <= k <= X -> seqState_ok src tables over st -> 0 <= over -> over + 100 * Z.of_nat n < 2 ^ 29 ->
  wp (split_rest src oend ps vs dictEnd X d op (In_buf extra k) st (Z.of_nat n)) (fun '(d', op', lit', st', m) =>
    m = 0 /\ op <= op' <= oend /\ outside oend d d' op /\ (bytes_ok d -> bytes_ok extra -> bytes_ok dict -> bytes_ok d') /\
    left_at d' lit' X false /\ prev_ok (ss_prevOffset st') /\ (prev_small (ss_prevOffset st) -> prev_small (ss_prevOffset st'))) any_error.
Proof.
  intros Hop Hd Hk Hst Ho Hn. rewrite split_rest_loop. unfold WILDCOPY_OVERLENGTH in *.
  pose proof (exec_loop_ok dict src tables ps oend X ltac:(tauto) Htables Hps ltac:(lia) n d op (In_buf extra k) st over
    ltac:(split; [lia|done|apply (extra_room oend X extra HX d k Hk)|done|done]) Hn) as H.
  destruct (let* '(seqs, st') := decode_sequences src st n in _) as [[[[h lits] room] st']|e|]; [|by rewrite H|done].
  destruct H as (d' & lit' & -> & Hout & Hb & _ & _ & Hr & [Hop' _ Hlr Hst' _] & Hsm & a & Ha & ->). cbn [wp].
  split; [done|]. split; [lia|]. split; [done|]. split; [intros; by apply Hb|]. split; [|split; [by destruct Hst'|done]].
  destruct Hlr as (Hl1 & _). cbn in Hl1. exists (k + a). split; [done|]. split; [lia|done].
Qed.

Lemma split_rest_ok (Htables : seq_tables_wf tables) n d op k st over seqs st' h lits room :
  ps <= op <= oend -> oend <= zlen d -> 0 <= k <= X -> seqState_ok src tables over st -> 0 <= over -> over + 100 * Z.of_nat n < 2 ^ 29 ->
  decode_sequences src st n = Ok (seqs, st') -> lz_exec (history ps dict d op) (zsub extra k (X - k)) (lend + 32 - op) seqs = Ok (h, lits, room) ->
  wp (split_rest src oend ps vs dictEnd X d op (In_buf extra k) st (Z.of_nat n)) (fun '(d', op', lit', st1, m) =>
    m = 0 /\ st1 = st' /\ ps <= op' <= oend /\ zlen d' = zlen d /\ op' = lend + 32 - room /\ left_at d' lit' X false /\
    history ps dict d' op' = h /\ lits = zsub extra (ptr_ix lit') (X - ptr_ix lit')) no_errors.
Proof.
  intros Hop Hd Hk Hst Ho Hn Hdec Hrun. rewrite split_rest_loop. unfold WILDCOPY_OVERLENGTH in *.
  pose proof (exec_loop_ok dict src tables ps oend X ltac:(tauto) Htables Hps ltac:(lia) n d op (In_buf extra k) st over
    ltac:(split; [lia|done|apply (extra_room oend X extra HX d k Hk)|done|done]) Hn) as H.
  apply (lz_exec_room _ _ _ _ _ _ _ (oend - (lend + 32)) ltac:(lia)) in Hrun. replace (lend + 32 - op + (oend - (lend + 32))) with (oend - op) in Hrun by lia.
  rewrite Hdec in H. cbn [bind ptr_ix] in H. unfold ptr_sub at 1 in H. cbn [ptr_buf ptr_ix] in H. rewrite Hrun in H. cbn [bind] in H.
  destruct H as (d' & lit' & -> & [E1 _] & _ & Hh & Hli & Hr & [Hop' _ Hlr Hst' _] & _ & a & Ha & ->). cbn [wp].
  destruct Hlr as (Hl1 & _). cbn [ptr_add ptr_ix] in *. split; [done|]. split; [done|]. split; [lia|]. split; [done|]. split; [lia|].
  split; [exists (k + a); split; [done|]; split; [lia|done]|]. split; [exact Hh|]. rewrite <- Hli. reflexivity.
Qed.

Lemma split_body_safe d ostart i rep n :
  ps <= ostart <= oend -> oend <= zlen d -> zlen d < 2 ^ 60 -> 0 <= i <= lend -> 0 <= n < 2 ^ 20 -> (n <> 0 -> seq_tables_wf tables) ->
  prev_ok rep /\ prev_small rep ->
  wp (body d ostart i rep n) (fun '(d', k, rep') => 0 <= k <= oend - ostart /\ outside oend d d' ostart /\
    (bytes_ok d -> bytes_ok extra -> bytes_ok dict -> bytes_ok d') /\ prev_ok rep' /\ prev_small rep') any_error.
Proof.
  intros Hop Hd H60 Hi Hn Ht [Hpo Hpsm]. unfold ZSTD_decompressSequences_bodySplitLitBuffer.
  assert (forall d1 op1 lit litEnd split rep1, ostart <= op1 <= oend -> outside oend d d1 ostart -> (bytes_ok d -> bytes_ok extra -> bytes_ok dict -> bytes_ok d1) ->
    left_at d1 lit litEnd split -> prev_ok rep1 /\ prev_small rep1 ->
    wp (let* '(d, op) := split_last oend extra X d1 op1 lit litEnd split in Ok (d, op - ostart, rep1))
      (fun '(d', k, rep') => 0 <= k <= oend - ostart /\ outside oend d d' ostart /\
        (bytes_ok d -> bytes_ok extra -> bytes_ok dict -> bytes_ok d') /\ prev_ok rep' /\ prev_small rep') any_error) as Hlast.
  { intros d1 op1 lit litEnd split rep1 Hop1 [E1 Ho1] Hb1 Hl1 Hrep1. wp_step.
    eapply wp_mono; [apply split_last_safe; [lia|lia|lia|done]| |done]. intros [d2 op2] (Hr & [E2 Ho2] & Hb2). wp_step.
    split; [lia|]. split; [|split; [auto|done]]. split; [congruence|]. intros j Hj. rewrite Ho2 by lia. by apply Ho1. }
  destruct (Z.eqb_spec n 0) as [->|Hnz]; cbn [negb bind].
  - apply Hlast; [lia|by split|done| |done]. exists i. done.
  - specialize (Ht Hnz). do 2 wp_step. eapply wp_mono; [by apply init_seqState_ok; [tauto|tauto|..]| |done]. intros st [Hst Ep].
    rewrite <- (Z2Nat.id n) at 2 by lia. set (N := Z.to_nat n). wp_step.
    eapply wp_mono; [apply (split_loop_safe dict src tables ps oend lend ltac:(tauto) Ht Hps ltac:(lia) Hroom N d ostart i st 100); [split; try done; lia|lia]| |done].
    intros [[[[[d1 op1] i1] st1] m] s] (Ho1 & Hb1 & Hle1 & Hm & [Hop1 [Hd1 _] Hi1 Hst1 _] & Hz & Hp). rewrite Ep in Hz, Hp.
    destruct (Z.gtb_spec m 0) as [Hm0|Hm0].
    + destruct (Hp Hm0) as (Hs & Hll & Hsm). do 2 wp_step.
      pose proof Ho1 as [E1 _].
      eapply wp_mono; [apply (split_sequence_safe dict ps oend lend X extra Hps ltac:(lia) Hroom HX d1 op1 i1 s); first [done|lia]| |done].
      intros [[d2 op2] lit2] (Ho2 & Hb2 & Hle2 & (k & Hk & ->) & Hoff). wp_step. wp_step. pose proof Ho2 as [E2 _].
      rewrite <- (Z2Nat.id (m - 1)) by lia.
      eapply wp_mono; [apply (split_rest_safe Ht (Z.to_nat (m - 1)) d2 op2 k st1 (100 + 100 * Z.of_nat N)); first [done|lia]| |done].
      intros [[[[d3 op3] lit3] st3] m3] (-> & Hle3 & Ho3 & Hb3 & Hl3 & Hpo3 & Hps3). cbn [negb Z.eqb]. wp_step; [done|]. wp_step; [done|]. wp_step.
      rewrite rep_ok_u32 by (first [done|apply Hps3, Hsm; done]).
      apply Hlast; [lia| |auto 8|done|split; [done|by apply Hps3, Hsm]].
      apply (outside_after oend d d1 d3 ostart op1); [done| |lia]. apply (outside_after oend d1 d2 d3 op1 op2); [done|done|lia].
    + assert (m = 0) as -> by lia. wp_step. wp_step. wp_step. rewrite split_rest_done. cbn [wp negb Z.eqb]. wp_step; [done|]. wp_step; [done|]. wp_step.
      destruct Hst1. rewrite rep_ok_u32 by (first [done|by apply Hz]).
      apply Hlast; [lia|done|auto|exists i1; done|split; [done|by apply Hz]].
Qed.

Lemma split_body_ok d ostart i rep n h rep' :
  ps <= ostart <= oend -> oend <= zlen d -> zlen d < 2 ^ 60 -> 0 <= i <= lend -> 0 <= n < 2 ^ 20 -> (n <> 0 -> seq_tables_wf tables) ->
  prev_ok rep -> block_spec (history ps dict d ostart) (split_lits lend lits_tail d i) (lend + 32 - ostart) tables rep src n = Ok (h, rep') ->
  wp (body d ostart i rep n) (fun '(d', k, rep1) => history ps dict d' (ostart + k) = h /\ rep1 = rep') no_errors.
Proof.
  intros Hop Hd H60 Hi Hn Ht Hpo. unfold ZSTD_decompressSequences_bodySplitLitBuffer, block_spec, decode_block, lz_block.
  assert (forall d1 op1 lit litEnd split (rep1 lits : list Z), ps <= op1 <= oend -> zlen d1 = zlen d -> left_at d1 lit litEnd split ->
    lits = (if split then split_lits lend lits_tail d1 (ptr_ix lit) else zsub extra (ptr_ix lit) (X - ptr_ix lit)) -> zlen lits <= lend + 32 - op1 ->
    wp (let* '(d, op) := split_last oend extra X d1 op1 lit litEnd split in Ok (d, op - ostart, rep1))
      (fun '(d', k, rep2) => history ps dict d' (ostart + k) = history ps dict d1 op1 ++ lits /\ rep2 = rep1) no_errors) as Hlast.
  { intros d1 op1 lit litEnd split rep1 lits Hop1 E1 Hl1 Hli Hfit. wp_step.
    eapply wp_mono; [apply (split_last_ok d1 op1 lit litEnd split lits); first [done|lia]| |done]. intros [d2 op2] Hh. wp_step.
    split; [|done]. by replace (ostart + (op2 - ostart)) with op2 by lia. }
  destruct (Z.eqb_spec n 0) as [->|Hnz]; cbn [negb bind lz_exec].
  - unfold RETURN_ERROR_IF. destruct (Z.gtb_spec (zlen (split_lits lend lits_tail d i)) (lend + 32 - ostart)); [done|]. cbn [bind]. intros [= <- <-].
    apply (Hlast d ostart (In_dst i) lend true); [lia|done|exists i; done|done|done].
  - specialize (Ht Hnz). pose proof (init_seqState_ok src tables rep ltac:(tauto) ltac:(tauto) Ht Hpo) as Hini.
    destruct (init_seqState src tables rep) as [st|e|]; cbn [bind wp] in *; [|done|done]. destruct Hini as [Hst Ep]. set (N := Z.to_nat n).
    destruct (decode_sequences src st N) as [[seqs st']|e|] eqn:Edec; cbn [bind]; [|done|done].
    destruct (lz_exec _ _ _ seqs) as [[[h0 lits] room]|e|] eqn:Ex; cbn [bind]; [|done|done]. unfold RETURN_ERROR_IF at 1 2.
    destruct (BIT_endOfDStream (ss_DStream st')) eqn:Eend; cbn [negb bind]; [|done]. destruct (Z.gtb_spec (zlen lits) room) as [|Hfit]; [done|]. cbn [bind]. intros [= <- <-].
    rewrite <- (Z2Nat.id n) at 1 by lia. fold N. do 2 wp_step.
    assert (split_ok src tables ps oend lend d ostart i st 100) as Hok0 by (split; try done; lia).
    destruct (wp_no_errors_Ok _ _ (split_loop_ok dict src tables ps oend lend ltac:(tauto) Ht Hps ltac:(lia) Hroom lits_tail ltac:(rewrite zlen_zsub; unfold WILDCOPY_OVERLENGTH in *; lia)
      N d ostart i st 100 seqs st' h0 lits room Hok0 ltac:(lia) Edec (conj Ex Hfit))) as ([[[[[d1 op1] i1] st1] m] s] & El & Hleft).
    pose proof (wp_inv_Ok _ _ _ _ (split_loop_safe dict src tables ps oend lend ltac:(tauto) Ht Hps ltac:(lia) Hroom N d ostart i st 100 Hok0 ltac:(lia)) El)
      as ([E1 _] & _ & _ & Hm & [Hop1 [Hd1 H60'] Hi1 Hst1 _] & _ & Hp).
    rewrite El. apply wp_Ok. destruct Hleft as [(-> & -> & [Ex1 Hfit1])|(k & seqs1 & -> & Edec1 & Hll & Hrun1)].
    + cbn [lz_exec] in Ex1. injection Ex1 as <- <- <-. cbn [Z.gtb Z.compare]. do 3 wp_step. rewrite split_rest_done. wp_step. cbn [negb Z.eqb]. unfold RETURN_ERROR_IF. rewrite Eend. cbn [negb]. wp_step.
      apply (Hlast d1 op1 (In_dst i1) lend true); [lia|done|exists i1; done|done|done].
    + destruct (Hp ltac:(lia)) as (Hs & _ & _). rewrite (proj2 (Z.gtb_lt _ _)) by lia.
      destruct (decode_sequences_ok src tables k _ st1 ltac:(tauto) Ht Hst1 ltac:(lia) ltac:(lia)) as (seqs2 & st2 & E2 & HF & _).
      rewrite Edec1 in E2. injection E2 as <- <-. do 2 wp_step.
      eapply wp_mono; [apply (split_sequence_ok dict ps oend lend X extra Hps ltac:(lia) Hroom HX d1 op1 i1 s seqs1 h0 lits room); first [done|lia]| |done].
      intros [[d2 op2] lit2] (E2 & -> & Hop2 & kk & Hk & -> & Hrun2). wp_step. wp_step. replace (Z.of_nat (S k) - 1) with (Z.of_nat k) by lia.
      pose proof Hs as (Hls & Hms & _).
      eapply wp_mono; [apply (split_rest_ok Ht k d2 _ kk st1 (100 + 100 * Z.of_nat N) seqs1 st' h0 lits room); first [done|lia]| |done].
      intros [[[[d3 op3] lit3] st3] m3] (-> & -> & Hop3 & E3 & -> & Hl3 & <- & Hli). cbn [negb Z.eqb]. unfold RETURN_ERROR_IF. rewrite Eend. cbn [negb]. wp_step.
      apply (Hlast d3 _ lit3 X false); [lia|congruence|done|done|lia].
Qed.
End whole.
