(* ===== verification/LitDecode.v ===== *)
(** The literals section of a compressed block (decompress/zstd_decompress_block.c,
    decompress/zstd_decompress_internal.h): where the literals are put, and
    their decoding. *)

From S2P Require Import Prelude Errors Outcome Bits Mem BitStream HufStats HufCode HufDTable HufDecode HufFour HufRoundtrip LzCopy ExecSequence SeqTables SeqDecode SplitLit Frame.

(** ** Definitions *)

Definition MIN_CBLOCK_SIZE : Z := 1 + 1.
Definition MIN_LITERALS_FOR_4_STREAMS : Z := 6.

Definition ZSTD_HUFFDTABLE_CAPACITY_LOG : Z := 12.
Definition ZSTD_DECODER_INTERNAL_BUFFER : Z := Z.shiftl 1 16.
Definition ZSTD_LBMIN : Z := 64.
Definition ZSTD_LBMAX : Z := Z.shiftl 128 10.
Definition BOUNDED (min val max : Z) : Z := Z.max min (Z.min val max).
Definition ZSTD_LITBUFFEREXTRASIZE : Z := BOUNDED ZSTD_LBMIN ZSTD_DECODER_INTERNAL_BUFFER ZSTD_LBMAX.

Inductive ZSTD_litLocation_e := ZSTD_not_in_dst | ZSTD_in_dst | ZSTD_split.
#[global] Instance ZSTD_litLocation_eq_dec : EqDecision ZSTD_litLocation_e.
Proof. solve_decision. Defined.

Inductive streaming_operation := not_streaming | is_streaming.
#[global] Instance streaming_operation_eq_dec : EqDecision streaming_operation.
Proof. solve_decision. Defined.

(** A pointer to literals: into the output buffer, [litExtraBuffer] or the block. *)
Inductive lit_ptr := Lit_dst (i : Z) | Lit_extra (i : Z) | Lit_src (i : Z).
Definition lit_add (p : lit_ptr) (n : Z) : lit_ptr :=
  match p with Lit_dst i => Lit_dst (i + n) | Lit_extra i => Lit_extra (i + n) | Lit_src i => Lit_src (i + n) end.
Definition lit_ix (p : lit_ptr) : Z := match p with Lit_dst i | Lit_extra i | Lit_src i => i end.

(** [HUFptr]: the table of the context, or the one of a dictionary. *)
Inductive HUF_ptr := own_hufTable | dict_hufTable (t : HUF_DTable).

(** The fields of [ZSTD_DCtx] that the literals of a block need. [lc_litBufferEnd] is an
    index of the buffer that [litBuffer] (or [litPtr], for literals that stay in
    the block) points into. *)
Record lit_DCtx := mkLitDCtx {
  lc_isFrameDecompression : bool;
  lc_blockSizeMax : Z;
  lc_hufTable : HUF_DTable;
  lc_HUFptr : HUF_ptr;
  lc_litEntropy : bool;
  lc_litExtraBuffer : list Z;
  lc_litBuffer : lit_ptr;
  lc_litBufferEnd : Z;
  lc_litBufferLocation : ZSTD_litLocation_e;
  lc_litPtr : lit_ptr;
  lc_litSize : Z;
}.

Definition HUFptr_table (lc : lit_DCtx) : HUF_DTable :=
  match lc_HUFptr lc with own_hufTable => lc_hufTable lc | dict_hufTable t => t end.

(** Assignments to the fields. *)
Definition set_huf (lc : lit_DCtx) (t : HUF_DTable) (p : HUF_ptr) (e : bool) : lit_DCtx :=
  mkLitDCtx (lc_isFrameDecompression lc) (lc_blockSizeMax lc) t p e (lc_litExtraBuffer lc)
    (lc_litBuffer lc) (lc_litBufferEnd lc) (lc_litBufferLocation lc) (lc_litPtr lc) (lc_litSize lc).
Definition set_extra (lc : lit_DCtx) (b : list Z) : lit_DCtx :=
  mkLitDCtx (lc_isFrameDecompression lc) (lc_blockSizeMax lc) (lc_hufTable lc) (lc_HUFptr lc) (lc_litEntropy lc) b
    (lc_litBuffer lc) (lc_litBufferEnd lc) (lc_litBufferLocation lc) (lc_litPtr lc) (lc_litSize lc).
Definition set_buffer (lc : lit_DCtx) (b : lit_ptr) (e : Z) (l : ZSTD_litLocation_e) : lit_DCtx :=
  mkLitDCtx (lc_isFrameDecompression lc) (lc_blockSizeMax lc) (lc_hufTable lc) (lc_HUFptr lc) (lc_litEntropy lc) (lc_litExtraBuffer lc)
    b e l (lc_litPtr lc) (lc_litSize lc).
Definition set_lits (lc : lit_DCtx) (p : lit_ptr) (n : Z) : lit_DCtx :=
  mkLitDCtx (lc_isFrameDecompression lc) (lc_blockSizeMax lc) (lc_hufTable lc) (lc_HUFptr lc) (lc_litEntropy lc) (lc_litExtraBuffer lc)
    (lc_litBuffer lc) (lc_litBufferEnd lc) (lc_litBufferLocation lc) p n.

(** [n] bytes at a pointer, and a copy to it, [d] being the output buffer. *)
Definition lit_load (d : list Z) (lc : lit_DCtx) (p : lit_ptr) (n : Z) : result (list Z) :=
  match p with
  | Lit_dst i => rd_bytes d i n
  | Lit_extra i => rd_bytes (lc_litExtraBuffer lc) i n
  | Lit_src _ => Stuck
  end.
Definition lit_store (d : list Z) (lc : lit_DCtx) (p : lit_ptr) (bytes : list Z) : result (list Z * lit_DCtx) :=
  match p with
  | Lit_dst i => let* d := memcpy_at d i bytes in Ok (d, lc)
  | Lit_extra i => let* b := memcpy_at (lc_litExtraBuffer lc) i bytes in Ok (d, set_extra lc b)
  | Lit_src _ => Stuck
  end.

Definition ZSTD_blockSizeMax (lc : lit_DCtx) : Z :=
  if lc_isFrameDecompression lc then lc_blockSizeMax lc else ZSTD_BLOCKSIZE_MAX.

(** [dst] is an index of the output buffer. *)
Definition ZSTD_allocateLiteralsBuffer (lc : lit_DCtx) (dst dstCapacity litSize : Z) (streaming : streaming_operation)
    (expectedWriteSize : Z) (splitImmediately : bool) : lit_DCtx :=
  let blockSizeMax := ZSTD_blockSizeMax lc in
  if bool_decide (streaming = not_streaming) &&
     (dstCapacity >? blockSizeMax + WILDCOPY_OVERLENGTH + litSize + WILDCOPY_OVERLENGTH) then
    let litBuffer := dst + blockSizeMax + WILDCOPY_OVERLENGTH in
    set_buffer lc (Lit_dst litBuffer) (litBuffer + litSize) ZSTD_in_dst
  else if litSize <=? ZSTD_LITBUFFEREXTRASIZE then
    set_buffer lc (Lit_extra 0) litSize ZSTD_not_in_dst
  else if splitImmediately then
    (* won't fit in litExtraBuffer, so it will be split between end of dst and extra buffer *)
    let litBuffer := dst + expectedWriteSize - litSize + ZSTD_LITBUFFEREXTRASIZE - WILDCOPY_OVERLENGTH in
    set_buffer lc (Lit_dst litBuffer) (litBuffer + litSize - ZSTD_LITBUFFEREXTRASIZE) ZSTD_split
  else
    (* initially this will be stored entirely in dst during huffman decoding *)
    set_buffer lc (Lit_dst (dst + expectedWriteSize - litSize)) (dst + expectedWriteSize) ZSTD_split.

(** The header of compressed literals: its size, the size of the literals
    and that of their streams. *)
Definition huf_lit_header (src : list Z) (lhlCode : Z) : result (Z * Z * Z) :=
  let* lhc := MEM_readLE32 true src 0 in
  match lhlCode with
  | 2 => Ok (4, Z.land (Z.shiftr lhc 4) 0x3FFF, Z.shiftr lhc 18)
  | 3 => let* b := rd src 4 in Ok (5, Z.land (Z.shiftr lhc 4) 0x3FFFF, Z.shiftr lhc 22 + Z.shiftl b 10)
  | _ => Ok (3, Z.land (Z.shiftr lhc 4) 0x3FF, Z.land (Z.shiftr lhc 14) 0x3FF)
  end.

(** The header of literals that are not compressed, followed by [more] bytes, and
    the size of the literals. The caller has tested that there are two bytes. *)
Definition lit_header (src : list Z) (lhlCode more : Z) : result (Z * Z) :=
  match lhlCode with
  | 1 =>
      ERROR_IF zlen src <? 2 + more THEN corruption_detected ;;
      let* v := MEM_readLE16 true src 0 in Ok (2, Z.shiftr v 4)
  | 3 =>
      ERROR_IF zlen src <? 3 + more THEN corruption_detected ;;
      let* v := MEM_readLE24 true src 0 in Ok (3, Z.shiftr v 4)
  | _ => let* b := rd src 0 in Ok (1, Z.shiftr b 3)
  end.

Section decode.
Context (MEM_isLittleEndian : bool).

(** The Huffman streams, with the table of the last block or with a new one: the
    table of the context and the literals, over what the buffer held. *)
Definition huf_literals (lc : lit_DCtx) (litEncType : SymbolEncodingType_e) (singleStream : bool) (litBuffer cSrc : list Z)
    (workspace : HUF_ReadDTableX1_Workspace) : result (HUF_DTable * list Z) :=
  match litEncType with
  | set_repeat =>
      let* '(lits, _) :=
        (if singleStream then HUF_decompress1X_usingDTable litBuffer cSrc (HUFptr_table lc)
         else HUF_decompress4X_usingDTable litBuffer cSrc (HUFptr_table lc)) in
      Ok (lc_hufTable lc, lits)
  | _ =>
      let* '(hufTable, lits, _) :=
        (if singleStream then HUF_decompress1X1_DCtx_wksp MEM_isLittleEndian (lc_hufTable lc) litBuffer cSrc workspace
         else HUF_decompress4X_hufOnly_wksp MEM_isLittleEndian (lc_hufTable lc) litBuffer cSrc workspace) in
      Ok (hufTable, lits)
  end.

(** The literals decoded at the end of the output are moved so that their last
    part is in [litExtraBuffer] and the rest before it. *)
Definition split_literals (d : list Z) (lc : lit_DCtx) (litSize : Z) : result (list Z * lit_DCtx) :=
  let litBuffer := lc_litBuffer lc in
  let litBufferEnd := lc_litBufferEnd lc in
  let* tail := rd_bytes d (litBufferEnd - ZSTD_LITBUFFEREXTRASIZE) ZSTD_LITBUFFEREXTRASIZE in
  let* '(d, lc) := lit_store d lc (Lit_extra 0) tail in
  let* head := lit_load d lc litBuffer (litSize - ZSTD_LITBUFFEREXTRASIZE) in
  let* '(d, lc) := lit_store d lc (lit_add litBuffer (ZSTD_LITBUFFEREXTRASIZE - WILDCOPY_OVERLENGTH)) head in
  Ok (d, set_buffer lc (lit_add litBuffer (ZSTD_LITBUFFEREXTRASIZE - WILDCOPY_OVERLENGTH)) (litBufferEnd - WILDCOPY_OVERLENGTH)
           (lc_litBufferLocation lc)).

(** The number of bytes read, the context and the output buffer. [dst] is a null
    pointer if [dst_null]. [workspace] is what the workspace of the context holds.
    A failure of the Huffman decoder is reported here before the literals are
    moved, which cannot fail. *)
Definition ZSTD_decodeLiteralsBlock (d : list Z) (lc : lit_DCtx) (src : list Z) (dst_null : bool) (dst dstCapacity : Z)
    (streaming : streaming_operation) (workspace : HUF_ReadDTableX1_Workspace) : result (Z * lit_DCtx * list Z) :=
  let srcSize := zlen src in
  ERROR_IF srcSize <? MIN_CBLOCK_SIZE THEN corruption_detected ;;
  let* istart0 := rd src 0 in
  let litEncType := SymbolEncodingType_of (Z.land istart0 3) in
  let lhlCode := Z.land (Z.shiftr istart0 2) 3 in
  let blockSizeMax := ZSTD_blockSizeMax lc in
  let expectedWriteSize := Z.min blockSizeMax dstCapacity in
  match litEncType with
  | set_repeat | set_compressed =>
      ERROR_IF (match litEncType with set_repeat => true | _ => false end) && negb (lc_litEntropy lc) THEN dictionary_corrupted ;;
      ERROR_IF srcSize <? 5 THEN corruption_detected ;;
      let singleStream := lhlCode =? 0 in
      let* '(lhSize, litSize, litCSize) := huf_lit_header src lhlCode in
      ERROR_IF (litSize >? 0) && dst_null THEN dstSize_tooSmall ;;
      ERROR_IF litSize >? blockSizeMax THEN corruption_detected ;;
      ERROR_IF negb singleStream && (litSize <? MIN_LITERALS_FOR_4_STREAMS) THEN literals_headerWrong ;;
      ERROR_IF litCSize + lhSize >? srcSize THEN corruption_detected ;;
      ERROR_IF expectedWriteSize <? litSize THEN dstSize_tooSmall ;;
      let lc := ZSTD_allocateLiteralsBuffer lc dst dstCapacity litSize streaming expectedWriteSize false in
      let* buf := lit_load d lc (lc_litBuffer lc) litSize in
      let* '(hufTable, lits) :=
        or_corrupted (huf_literals lc litEncType singleStream buf (zsub src lhSize litCSize) workspace) in
      let* '(d, lc) := lit_store d lc (lc_litBuffer lc) lits in
      let* '(d, lc) :=
        (if bool_decide (lc_litBufferLocation lc = ZSTD_split) then split_literals d lc litSize else Ok (d, lc)) in
      let lc := set_lits lc (lc_litBuffer lc) litSize in
      let HUFptr := match litEncType with set_compressed => own_hufTable | _ => lc_HUFptr lc end in
      let lc := set_huf lc hufTable HUFptr true in
      Ok (litCSize + lhSize, lc, d)
  | set_basic =>
      let* '(lhSize, litSize) := lit_header src lhlCode 0 in
      ERROR_IF (litSize >? 0) && dst_null THEN dstSize_tooSmall ;;
      ERROR_IF litSize >? blockSizeMax THEN corruption_detected ;;
      ERROR_IF expectedWriteSize <? litSize THEN dstSize_tooSmall ;;
      let lc := ZSTD_allocateLiteralsBuffer lc dst dstCapacity litSize streaming expectedWriteSize true in
      if lhSize + litSize + WILDCOPY_OVERLENGTH >? srcSize then
        (* risk reading beyond src buffer with wildcopy *)
        ERROR_IF litSize + lhSize >? srcSize THEN corruption_detected ;;
        let* '(d, lc) :=
          (if bool_decide (lc_litBufferLocation lc = ZSTD_split) then
             let* head := rd_bytes src lhSize (litSize - ZSTD_LITBUFFEREXTRASIZE) in
             let* '(d, lc) := lit_store d lc (lc_litBuffer lc) head in
             let* tail := rd_bytes src (lhSize + litSize - ZSTD_LITBUFFEREXTRASIZE) ZSTD_LITBUFFEREXTRASIZE in
             lit_store d lc (Lit_extra 0) tail
           else
             let* lits := rd_bytes src lhSize litSize in
             lit_store d lc (lc_litBuffer lc) lits) in
        Ok (lhSize + litSize, set_lits lc (lc_litBuffer lc) litSize, d)
      else
        (* direct reference into compressed stream *)
        let lc := set_lits lc (Lit_src lhSize) litSize in
        let lc := set_buffer lc (lc_litBuffer lc) (lhSize + litSize) ZSTD_not_in_dst in
        Ok (lhSize + litSize, lc, d)
  | set_rle =>
      let* '(lhSize, litSize) := lit_header src lhlCode 1 in
      ERROR_IF (litSize >? 0) && dst_null THEN dstSize_tooSmall ;;
      ERROR_IF litSize >? blockSizeMax THEN corruption_detected ;;
      ERROR_IF expectedWriteSize <? litSize THEN dstSize_tooSmall ;;
      let lc := ZSTD_allocateLiteralsBuffer lc dst dstCapacity litSize streaming expectedWriteSize true in
      let* b := rd src lhSize in
      let* '(d, lc) :=
        (if bool_decide (lc_litBufferLocation lc = ZSTD_split) then
           let* '(d, lc) := lit_store d lc (lc_litBuffer lc) (zfill (litSize - ZSTD_LITBUFFEREXTRASIZE) b) in
           lit_store d lc (Lit_extra 0) (zfill ZSTD_LITBUFFEREXTRASIZE b)
         else lit_store d lc (lc_litBuffer lc) (zfill litSize b)) in
      Ok (lhSize + 1, set_lits lc (lc_litBuffer lc) litSize, d)
  end.

(** *** What a literals section means *)

(** The bytes of the section, the literals, and what the context keeps of the
    Huffman tables: no buffer is allocated. [old n] is what the destination of
    [n] Huffman symbols holds, and [room] what a block can regenerate. *)
Definition literals_spec (lc : lit_DCtx) (src : list Z) (dst_null : bool) (room : Z) (old : Z -> list Z)
    (workspace : HUF_ReadDTableX1_Workspace) : result (Z * list Z * (HUF_DTable * HUF_ptr * bool)) :=
  let kept := (lc_hufTable lc, lc_HUFptr lc, lc_litEntropy lc) in
  let fits n (m : result (Z * list Z * (HUF_DTable * HUF_ptr * bool))) :=
    ERROR_IF (n >? 0) && dst_null THEN dstSize_tooSmall ;;
    ERROR_IF n >? ZSTD_blockSizeMax lc THEN corruption_detected ;; m in
  ERROR_IF zlen src <? 2 THEN corruption_detected ;;
  let lhlCode := Z.land (Z.shiftr (zat src 0) 2) 3 in
  let type := SymbolEncodingType_of (Z.land (zat src 0) 3) in
  match type with
  | set_basic =>
      let* '(lhSize, n) := lit_header src lhlCode 0 in
      fits n (ERROR_IF room <? n THEN dstSize_tooSmall ;;
        ERROR_IF n + lhSize >? zlen src THEN corruption_detected ;;
        Ok (lhSize + n, zsub src lhSize n, kept))
  | set_rle =>
      let* '(lhSize, n) := lit_header src lhlCode 1 in
      fits n (ERROR_IF room <? n THEN dstSize_tooSmall ;;
        Ok (lhSize + 1, zfill n (zat src lhSize), kept))
  | set_compressed | set_repeat =>
      ERROR_IF (match type with set_repeat => true | _ => false end) && negb (lc_litEntropy lc) THEN dictionary_corrupted ;;
      ERROR_IF zlen src <? 5 THEN corruption_detected ;;
      let* '(lhSize, n, cSize) := huf_lit_header src lhlCode in
      fits n (ERROR_IF negb (lhlCode =? 0) && (n <? MIN_LITERALS_FOR_4_STREAMS) THEN literals_headerWrong ;;
        ERROR_IF cSize + lhSize >? zlen src THEN corruption_detected ;;
        ERROR_IF room <? n THEN dstSize_tooSmall ;;
        let* '(hufTable, lits) := or_corrupted (huf_literals lc type (lhlCode =? 0) (old n) (zsub src lhSize cSize) workspace) in
        Ok (cSize + lhSize, lits, (hufTable, match type with set_compressed => own_hufTable | _ => lc_HUFptr lc end, true)))
  end.

End decode.

(** The pointer that the execution of sequences reads. *)
Definition lit_src_ptr (lc : lit_DCtx) (src : list Z) (p : lit_ptr) : src_ptr :=
  match p with Lit_dst i => In_dst i | Lit_extra i => In_buf (lc_litExtraBuffer lc) i | Lit_src i => In_buf src i end.

(** Where the output of the block ends. *)
Definition lit_oend (lc : lit_DCtx) (dst dstCapacity : Z) : Z :=
  if bool_decide (lc_litBufferLocation lc = ZSTD_not_in_dst) then dst + dstCapacity else lit_ix (lc_litBuffer lc).

(** The literals are where the execution of sequences looks for them: in one
    piece, or split between the output and [litExtraBuffer]. *)
Definition lits_placed (d : list Z) (lc : lit_DCtx) (src : list Z) (dst dstCapacity : Z) (lits : list Z) : Prop :=
  lc_litSize lc = zlen lits /\
  let room := Z.min (ZSTD_blockSizeMax lc) dstCapacity in
  match lc_litBufferLocation lc with
  | ZSTD_split => exists p,
      lc_litPtr lc = Lit_dst p /\ ZSTD_LITBUFFEREXTRASIZE < zlen lits <= room /\
      lc_litBufferEnd lc = p + (zlen lits - ZSTD_LITBUFFEREXTRASIZE) /\ lc_litBufferEnd lc + WILDCOPY_OVERLENGTH = dst + room /\
      zsub d p (zlen lits - ZSTD_LITBUFFEREXTRASIZE) ++ zsub (lc_litExtraBuffer lc) 0 ZSTD_LITBUFFEREXTRASIZE = lits
  | _ =>
      let lit := lit_src_ptr lc src (lc_litPtr lc) in
      dst + room <= lit_oend lc dst dstCapacity <= dst + dstCapacity /\
      lit_room d (lit_oend lc dst dstCapacity) lit (lit_ix (lc_litPtr lc) + zlen lits) /\ ptr_sub d lit (zlen lits) = lits
  end.

(** The table of the context has the size that was allocated for it. *)
Definition hufTable_ok (t : HUF_DTable) : Prop := DTable_ok t /\ maxTableLog (hdt_desc t) = ZSTD_HUFFDTABLE_CAPACITY_LOG.

(** What holds of a context between blocks. *)
Record lit_DCtx_ok (lc : lit_DCtx) : Prop := {
  lo_max : 0 <= ZSTD_blockSizeMax lc <= ZSTD_BLOCKSIZE_MAX;
  lo_table : hufTable_ok (lc_hufTable lc);
  lo_entropy : lc_litEntropy lc = true -> dtable_safe (hdt_mem (HUFptr_table lc)) (dtd_tableLog (hdt_desc (HUFptr_table lc)));
  lo_extra : zlen (lc_litExtraBuffer lc) = ZSTD_LITBUFFEREXTRASIZE + WILDCOPY_OVERLENGTH /\ bytes_ok (lc_litExtraBuffer lc);
}.

(** ** Lemmas *)

Lemma lit_extra_size : ZSTD_LITBUFFEREXTRASIZE = 65536.
Proof. reflexivity. Qed.

(** *** Headers *)

Lemma lit_header_ok src lhlCode more :
  bytes_ok src -> 2 <= zlen src -> 0 <= more <= 1 ->
  wp (lit_header src lhlCode more) (fun '(lhSize, n) => 1 <= lhSize <= 3 /\ lhSize + more <= zlen src /\ 0 <= n) any_error.
Proof.
  intros Hb Hl Hm. unfold lit_header.
  assert (wp (let* b := rd src 0 in Ok (1, Z.shiftr b 3)) (fun '(lhSize, n) => 1 <= lhSize <= 3 /\ lhSize + more <= zlen src /\ 0 <= n) any_error) as Hd.
  { wp_step. wp_step; [lia|]. wp_step. pose proof (bytes_ok_zat src 0 Hb ltac:(lia)). rewrite Z.shiftr_div_pow2 by lia. split; [lia|]. split; [lia|zdm]. }
  destruct lhlCode as [|[[p|p|]|p|]|]; try exact Hd.
  - wp_step; [done|]. rewrite readLE24_spec by (first [done|lia]). cbn [bind wp].
    pose proof (le_val_range (zsub src 0 3) (bytes_ok_zsub _ _ _ Hb)). rewrite Z.shiftr_div_pow2 by lia. split; [lia|]. split; [lia|zdm].
  - wp_step; [done|]. rewrite readLE16_spec by (first [done|lia]). cbn [bind wp].
    pose proof (le_val_range (zsub src 0 2) (bytes_ok_zsub _ _ _ Hb)). rewrite Z.shiftr_div_pow2 by lia. split; [lia|]. split; [lia|zdm].
Qed.

Lemma land_nonneg x m : 0 <= m -> 0 <= Z.land x m.
Proof. intros. apply Z.land_nonneg. by right. Qed.

Lemma huf_lit_header_ok src lhlCode :
  bytes_ok src -> 5 <= zlen src ->
  wp (huf_lit_header src lhlCode) (fun '(lhSize, n, cSize) => 3 <= lhSize <= 5 /\ 0 <= n /\ 0 <= cSize) no_errors.
Proof.
  intros Hb Hl. unfold huf_lit_header. rewrite readLE32_spec by (first [done|lia]). cbn [bind].
  pose proof (le_val_range (zsub src 0 4) (bytes_ok_zsub _ _ _ Hb)) as Hv. rewrite zlen_zsub in Hv by lia. set (v := le_val _) in *.
  assert (forall k, 0 <= k -> 0 <= Z.shiftr v k) as Hs by (intros; rewrite Z.shiftr_nonneg; lia).
  destruct lhlCode as [|[[p|p|]|[p|p|]|]|]; cbn [wp]; try (split; [lia|]; split; apply land_nonneg; lia).
  - wp_step. wp_step; [lia|]. wp_step. pose proof (bytes_ok_zat src 4 Hb ltac:(lia)). split; [lia|]. split; [apply land_nonneg; lia|].
    rewrite (Z.shiftl_mul_pow2 _ 10) by lia. specialize (Hs 22 ltac:(lia)). lia.
  - split; [lia|]. split; [apply land_nonneg; lia|]. apply Hs. lia.
Qed.

(** *** Where the literals go *)

(** The buffer chosen for [n] literals. *)
Definition allocated (lc : lit_DCtx) (dst cap n : Z) (split : bool) (b : lit_ptr) (e : Z) (loc : ZSTD_litLocation_e) : Prop :=
  let bsm := ZSTD_blockSizeMax lc in
  match loc with
  | ZSTD_in_dst => b = Lit_dst (dst + bsm + 32) /\ bsm + 32 + n + 32 < cap
  | ZSTD_not_in_dst => b = Lit_extra 0 /\ n <= 65536
  | ZSTD_split => 65536 < n /\
      if split then b = Lit_dst (dst + Z.min bsm cap - n + 65504) /\ e = dst + Z.min bsm cap - 32
      else b = Lit_dst (dst + Z.min bsm cap - n) /\ e = dst + Z.min bsm cap
  end.

Lemma allocate_ok lc dst cap n streaming split :
  exists b e loc, ZSTD_allocateLiteralsBuffer lc dst cap n streaming (Z.min (ZSTD_blockSizeMax lc) cap) split = set_buffer lc b e loc /\
    allocated lc dst cap n split b e loc.
Proof.
  unfold ZSTD_allocateLiteralsBuffer, allocated, WILDCOPY_OVERLENGTH. rewrite lit_extra_size.
  destruct (bool_decide _ && _) eqn:E1; [|destruct (Z.leb_spec n 65536); [|destruct split]]; do 3 eexists; (split; [reflexivity|]); cbn beta iota; bools; split_and?; try lia; try done; try (f_equal; lia).
Qed.

(** The output buffer and [litExtraBuffer] after literals are stored. *)
Definition stored (d d' : list Z) (lc : lit_DCtx) (x : list Z) (dst cap : Z) : Prop :=
  outside (dst + cap) d d' dst /\ (bytes_ok d -> bytes_ok d') /\ zlen x = zlen (lc_litExtraBuffer lc) /\ bytes_ok x.

Lemma set_extra_same lc : set_extra lc (lc_litExtraBuffer lc) = lc.
Proof. by destruct lc. Qed.

Lemma outside_trans oend d d1 d2 op : outside oend d d1 op -> outside oend d1 d2 op -> outside oend d d2 op.
Proof. intros [E1 H1] [E2 H2]. split; [congruence|]. intros i Hi. by rewrite H2, H1. Qed.

Lemma outside_refl oend d op : outside oend d d op.
Proof. by split. Qed.

Section place.
Context (d src : list Z) (lc : lit_DCtx) (dst cap : Z).
Hypothesis Hok : lit_DCtx_ok lc.
Hypothesis Hdst : 0 <= dst /\ 0 <= cap /\ dst + cap <= zlen d /\ zlen d < 2 ^ 62.

Notation bsm := (ZSTD_blockSizeMax lc).
Notation room := (Z.min bsm cap).

Lemma store_whole b e loc n split lits :
  allocated lc dst cap n split b e loc -> loc <> ZSTD_split -> zlen lits = n -> n <= room -> bytes_ok lits ->
  exists d' x, lit_store d (set_buffer lc b e loc) b lits = Ok (d', set_extra (set_buffer lc b e loc) x) /\
    stored d d' lc x dst cap /\ lits_placed d' (set_lits (set_extra (set_buffer lc b e loc) x) b n) src dst cap lits.
Proof.
  intros Ha Hloc Hn Hroom Hb. pose proof Hok as [Hm _ _ [Hx Hxb]]. rewrite lit_extra_size in Hx. unfold WILDCOPY_OVERLENGTH in Hx. pose proof (zlen_nonneg lits).
  unfold allocated in Ha. cbv zeta in Ha. destruct loc; [|destruct Ha as [-> Ha]|done].
  - destruct Ha as [-> Ha]. cbn [lit_store set_buffer lc_litExtraBuffer]. rewrite memcpy_at_ok by lia. cbn [bind]. do 2 eexists. split; [reflexivity|].
    assert (zlen (zpatch (lc_litExtraBuffer lc) 0 lits) = zlen (lc_litExtraBuffer lc)) as Ez by (apply zlen_zpatch; lia).
    split; [split; [apply outside_refl|]; split; [done|]; split; [done|by apply bytes_ok_zpatch]|].
    unfold lits_placed, lit_oend, lit_room, WILDCOPY_OVERLENGTH. change (ZSTD_blockSizeMax (set_lits _ _ _)) with bsm. rewrite bool_decide_true by done. cbn -[Z.min Z.add]. split; [done|].
    split; [lia|]. rewrite Ez. split; [|unfold ptr_sub; cbn; apply zsub_zpatch; lia]. split_and!; done || lia.
  - cbn [lit_store]. rewrite memcpy_at_ok by lia. cbn [bind]. exists (zpatch d (dst + bsm + 32) lits), (lc_litExtraBuffer lc).
    change (lc_litExtraBuffer lc) with (lc_litExtraBuffer (set_buffer lc (Lit_dst (dst + bsm + 32)) e ZSTD_in_dst)). rewrite set_extra_same. split; [done|].
    assert (zlen (zpatch d (dst + bsm + 32) lits) = zlen d) as Ez by (apply zlen_zpatch; lia).
    split; [split; [apply patched_outside; lia|]; split; [intros; by apply bytes_ok_zpatch|done]|].
    unfold lits_placed, lit_oend, lit_room, WILDCOPY_OVERLENGTH. change (ZSTD_blockSizeMax (set_lits _ _ _)) with bsm. rewrite bool_decide_false by done. cbn -[Z.min Z.add]. split; [done|].
    split; [lia|]. rewrite Ez. split; [|unfold ptr_sub; cbn; apply zsub_zpatch; lia]. split_and!; done || lia.
Qed.

(** The two parts of the literals, stored one after the other. *)
Lemma store_split p e lits :
  65536 < zlen lits <= room -> p = dst + room - zlen lits + 65504 -> e = dst + room - 32 -> bytes_ok lits ->
  let lc1 := set_buffer lc (Lit_dst p) e ZSTD_split in
  let head := zsub lits 0 (zlen lits - 65536) in
  let tail := zsub lits (zlen lits - 65536) 65536 in
  exists d' x, (let* '(d, lc) := lit_store d lc1 (Lit_dst p) head in lit_store d lc (Lit_extra 0) tail) = Ok (d', set_extra lc1 x) /\
    stored d d' lc x dst cap /\ lits_placed d' (set_lits (set_extra lc1 x) (Lit_dst p) (zlen lits)) src dst cap lits.
Proof.
  intros Hn Hp He Hb lc1 head tail. pose proof Hok as [Hm _ _ [Hx Hxb]]. rewrite lit_extra_size in Hx. unfold WILDCOPY_OVERLENGTH in Hx.
  assert (zlen head = zlen lits - 65536) as Eh by (apply zlen_zsub; lia). assert (zlen tail = 65536) as Et by (apply zlen_zsub; lia).
  assert (head ++ tail = lits) as Happ.
  { unfold head, tail. rewrite <- zsub_split by lia. replace (zlen lits - 65536 + 65536) with (zlen lits) by lia. apply zsub_all. }
  assert (bytes_ok head) as Hbh by by apply bytes_ok_zsub. assert (bytes_ok tail) as Hbt by by apply bytes_ok_zsub. clearbody head tail.
  cbn [lit_store]. rewrite memcpy_at_ok by lia. cbn [bind lc1 set_buffer lc_litExtraBuffer]. rewrite memcpy_at_ok by lia. cbn [bind].
  do 2 eexists. split; [reflexivity|]. split.
  - split; [apply patched_outside; lia|]. split; [intros; by apply bytes_ok_zpatch|].
    split; [apply zlen_zpatch; lia|]. by apply bytes_ok_zpatch.
  - unfold lits_placed. rewrite lit_extra_size. unfold WILDCOPY_OVERLENGTH. change (ZSTD_blockSizeMax (set_lits _ _ _)) with bsm. cbn -[Z.min Z.add]. split; [done|].
    exists p. split; [done|]. split; [lia|]. split; [lia|]. split; [lia|].
    transitivity (head ++ tail); [|exact Happ]. f_equal; [rewrite <- Eh|rewrite <- Et]; apply zsub_zpatch; lia.
Qed.

(** Literals decoded at the end of the output, then moved. *)
Lemma store_then_split q e lits :
  65536 < zlen lits <= room -> q = dst + room - zlen lits -> e = dst + room -> bytes_ok lits ->
  let lc1 := set_buffer lc (Lit_dst q) e ZSTD_split in
  exists d' x, (let* '(d, lc) := lit_store d lc1 (Lit_dst q) lits in split_literals d lc (zlen lits)) =
      Ok (d', set_buffer (set_extra lc1 x) (Lit_dst (q + 65504)) (e - 32) ZSTD_split) /\
    stored d d' lc x dst cap /\
    lits_placed d' (set_lits (set_buffer (set_extra lc1 x) (Lit_dst (q + 65504)) (e - 32) ZSTD_split) (Lit_dst (q + 65504)) (zlen lits)) src dst cap lits.
Proof.
  intros Hn Hq He Hb lc1. pose proof Hok as [Hm _ _ [Hx Hxb]]. rewrite lit_extra_size in Hx. unfold WILDCOPY_OVERLENGTH in Hx.
  cbn [lit_store]. rewrite memcpy_at_ok by lia. cbn [bind]. unfold split_literals. rewrite !lit_extra_size. cbn [lc1 set_buffer lc_litBuffer lc_litBufferEnd].
  set (d1 := zpatch d q lits). assert (zlen d1 = zlen d) as E1 by (apply zlen_zpatch; lia).
  assert (zsub d1 q (zlen lits) = lits) as Hd1 by (apply zsub_zpatch; lia).
  rewrite rd_bytes_ok by lia. cbn [bind lit_store lit_load lit_add]. change (lc_litExtraBuffer lc1) with (lc_litExtraBuffer lc).
  rewrite memcpy_at_ok by (rewrite ?zlen_zsub by lia; lia). cbn [bind].
  rewrite rd_bytes_ok by lia. cbn [bind lit_store]. rewrite memcpy_at_ok by (rewrite ?zlen_zsub by lia; unfold WILDCOPY_OVERLENGTH; lia). cbn [bind].
  replace (65536 - WILDCOPY_OVERLENGTH) with 65504 by done. change WILDCOPY_OVERLENGTH with 32.
  set (head := zsub d1 q (zlen lits - 65536)). set (tail := zsub d1 (e - 65536) 65536).
  assert (zlen head = zlen lits - 65536) as Eh by (apply zlen_zsub; lia). assert (zlen tail = 65536) as Et by (apply zlen_zsub; lia).
  assert (head ++ tail = lits) as Happ.
  { transitivity (zsub d1 q (zlen lits - 65536 + 65536)); [|rewrite <- Hd1 at 2; f_equal; lia].
    rewrite zsub_split by lia. unfold head, tail. do 2 f_equal. lia. }
  assert (bytes_ok head /\ bytes_ok tail) as [Hbh Hbt] by (rewrite <- Happ in Hb; by apply Forall_app in Hb). clearbody head tail.
  do 2 eexists. split; [reflexivity|]. split.
  - split; [eapply outside_trans; apply patched_outside; lia|]. split; [intros; apply bytes_ok_zpatch; [by apply bytes_ok_zpatch|done]|].
    cbn [lc_litExtraBuffer]. split; [apply zlen_zpatch; lia|]. by apply bytes_ok_zpatch.
  - unfold lits_placed. rewrite lit_extra_size. unfold WILDCOPY_OVERLENGTH. change (ZSTD_blockSizeMax (set_lits _ _ _)) with bsm. cbn -[Z.min Z.add]. split; [done|].
    exists (q + 65504). split; [done|]. split; [lia|]. split; [lia|]. split; [lia|].
    transitivity (head ++ tail); [|exact Happ]. f_equal; [rewrite <- Eh|rewrite <- Et]; apply zsub_zpatch; lia.
Qed.
End place.

Lemma zsub_in {A} `{!Inhabited A} (l : list A) i n j m : 0 <= i -> 0 <= j -> 0 <= m -> j + m <= n -> i + n <= zlen l -> zsub (zsub l i n) j m = zsub l (i + j) m.
Proof.
  intros. apply zat_ext; [rewrite !zlen_zsub; rewrite ?zlen_zsub; lia|]. intros k Hk. rewrite zlen_zsub in Hk by (rewrite ?zlen_zsub by lia; lia).
  rewrite !zat_zsub by lia. f_equal. lia.
Qed.

(** *** The Huffman streams *)

Lemma huf_literals_ok le lc type single buf cSrc ws :
  hufTable_ok (lc_hufTable lc) -> rdw_ok ws -> bytes_ok cSrc -> zlen cSrc < 2 ^ 26 -> bytes_ok buf -> zlen buf < 2 ^ 27 ->
  (type = set_repeat -> dtable_safe (hdt_mem (HUFptr_table lc)) (dtd_tableLog (hdt_desc (HUFptr_table lc)))) ->
  wp (huf_literals le lc type single buf cSrc ws)
    (fun '(t, lits) => zlen lits = zlen buf /\ bytes_ok lits /\ hufTable_ok t /\
       (type = set_repeat -> t = lc_hufTable lc) /\ (type <> set_repeat -> dtable_safe (hdt_mem t) (dtd_tableLog (hdt_desc t)))) any_error.
Proof.
  intros Ht Hw Hc Hcl Hb Hbl Hs. pose proof Ht as [Ht1 _].
  assert (type <> set_repeat -> wp (let* '(hufTable, lits, _) :=
        (if single then HUF_decompress1X1_DCtx_wksp le (lc_hufTable lc) buf cSrc ws
         else HUF_decompress4X_hufOnly_wksp le (lc_hufTable lc) buf cSrc ws) in
      Ok (hufTable, lits)) (fun '(t, lits) => zlen lits = zlen buf /\ bytes_ok lits /\ hufTable_ok t /\
       (type = set_repeat -> t = lc_hufTable lc) /\ (type <> set_repeat -> dtable_safe (hdt_mem t) (dtd_tableLog (hdt_desc t)))) any_error) as Hnew.
  { intros Hne. wp_step. eapply (wp_mono _ (fun '(DT', dst', n) => n = zlen buf /\ zlen dst' = zlen buf /\ (bytes_ok buf -> bytes_ok dst') /\
       (DTable_ok DT' /\ maxTableLog (hdt_desc DT') = maxTableLog (hdt_desc (lc_hufTable lc))) /\
       dtable_safe (hdt_mem DT') (dtd_tableLog (hdt_desc DT'))) _ any_error); [|intros [[t' l'] n'] (_ & ? & ? & [? ?] & ?); wp_step; split_and!; auto; [split; [done|by destruct Ht as [_ <-]]|done]|done].
    destruct single.
    - apply (decompressX1_DCtx_any le (lc_hufTable lc) buf cSrc ws HUF_decompress1X_usingDTable); try done. intros. by apply decompress1X1_safe.
    - unfold HUF_decompress4X_hufOnly_wksp. wp_step; [done|]. wp_step; [done|].
      apply (decompressX1_DCtx_any le (lc_hufTable lc) buf cSrc ws HUF_decompress4X_usingDTable); try done. intros. by apply decompress4X1_safe. }
  unfold huf_literals. destruct type; try by apply Hnew.
  wp_step. eapply (wp_mono _ (fun '(dst', n) => n = zlen buf /\ zlen dst' = zlen buf /\ (bytes_ok buf -> bytes_ok dst')) _ any_error); [|intros [l' n'] (_ & ? & ?); wp_step; split_and!; auto; done|done].
  destruct single; [apply decompress1X1_safe|apply decompress4X1_safe]; auto; lia.
Qed.

(** *** The section *)

Section section_.
Context (le : bool) (d src : list Z) (lc : lit_DCtx) (dst cap : Z) (dst_null : bool) (streaming : streaming_operation) (ws : HUF_ReadDTableX1_Workspace).
Hypothesis Hok : lit_DCtx_ok lc.
Hypothesis Hdst : 0 <= dst /\ 0 <= cap /\ dst + cap <= zlen d /\ zlen d < 2 ^ 62.
Hypothesis Hd : bytes_ok d.
Hypothesis Hsrc : bytes_ok src /\ zlen src < 2 ^ 26.
Hypothesis Hws : rdw_ok ws.

Notation bsm := (ZSTD_blockSizeMax lc).
Notation room := (Z.min bsm cap).

(** What the buffer for [n] Huffman symbols holds. *)
Definition old_literals (n : Z) : list Z :=
  let lc1 := ZSTD_allocateLiteralsBuffer lc dst cap n streaming room false in
  match lit_load d lc1 (lc_litBuffer lc1) n with Ok l => l | _ => [] end.

(** What a decoded section leaves. *)
Definition section_done (r : result (Z * lit_DCtx * list Z)) (n : Z) (lits : list Z) (huf : HUF_DTable * HUF_ptr * bool) : Prop :=
  exists lc' d', r = Ok (n, lc', d') /\ 1 <= n <= zlen src /\ zlen lits <= room /\ bytes_ok lits /\
    outside (dst + cap) d d' dst /\ bytes_ok d' /\ lits_placed d' lc' src dst cap lits /\ lit_DCtx_ok lc' /\
    (lc_hufTable lc', lc_HUFptr lc', lc_litEntropy lc') = huf /\
    lc_isFrameDecompression lc' = lc_isFrameDecompression lc /\ lc_blockSizeMax lc' = lc_blockSizeMax lc.

Lemma old_literals_ok n : 0 <= n <= room ->
  let lc1 := ZSTD_allocateLiteralsBuffer lc dst cap n streaming room false in
  lit_load d lc1 (lc_litBuffer lc1) n = Ok (old_literals n) /\ zlen (old_literals n) = n /\ bytes_ok (old_literals n).
Proof.
  intros Hn lc1. unfold old_literals. fold lc1. pose proof Hok as [Hm _ _ [Hx Hxb]]. rewrite lit_extra_size in Hx. unfold WILDCOPY_OVERLENGTH in Hx.
  destruct (allocate_ok lc dst cap n streaming false) as (b & e & loc & E & Ha). unfold lc1. rewrite E. cbn [set_buffer lc_litBuffer].
  unfold allocated in Ha. cbv zeta in Ha. destruct loc; [destruct Ha as [-> Ha]|destruct Ha as [-> Ha]|destruct Ha as (Ha & -> & _)]; cbn [lit_load set_buffer lc_litExtraBuffer];
    rewrite rd_bytes_ok by lia; (split; [done|]; split; [apply zlen_zsub; lia|by apply bytes_ok_zsub]).
Qed.

Lemma kept_ok lc' : lit_DCtx_ok lc -> lc_isFrameDecompression lc' = lc_isFrameDecompression lc -> lc_blockSizeMax lc' = lc_blockSizeMax lc ->
  zlen (lc_litExtraBuffer lc') = zlen (lc_litExtraBuffer lc) -> bytes_ok (lc_litExtraBuffer lc') -> hufTable_ok (lc_hufTable lc') ->
  (lc_litEntropy lc' = true -> dtable_safe (hdt_mem (HUFptr_table lc')) (dtd_tableLog (hdt_desc (HUFptr_table lc')))) -> lit_DCtx_ok lc'.
Proof.
  intros [Hm Ht He [Hx Hxb]] E1 E2 E3 Hb Ht' He'. split; [unfold ZSTD_blockSizeMax in *; by rewrite E1, E2|done|done|split; [congruence|done]].
Qed.

Notation kept := (lc_hufTable lc, lc_HUFptr lc, lc_litEntropy lc).

Lemma kept_done b e loc x p k n d' lits :
  1 <= n <= zlen src -> zlen lits <= room -> bytes_ok lits -> stored d d' lc x dst cap ->
  lits_placed d' (set_lits (set_extra (set_buffer lc b e loc) x) p k) src dst cap lits ->
  section_done (Ok (n, set_lits (set_extra (set_buffer lc b e loc) x) p k, d')) n lits kept.
Proof.
  intros Hn Hl Hb (Ho & Hbd & Hx & Hxb) Hp. eexists _, d'. split; [reflexivity|]. split_and!; try done; [lia..|by apply Hbd|].
  pose proof Hok as [_ Ht He _]. by apply kept_ok.
Qed.

(** Literals that are stored as they are, or one byte repeated. *)
Lemma store_done n lits :
  1 <= n <= zlen src -> zlen lits <= room -> bytes_ok lits ->
  let lc1 := ZSTD_allocateLiteralsBuffer lc dst cap (zlen lits) streaming room true in
  section_done
    (let* '(d, lc) :=
       (if bool_decide (lc_litBufferLocation lc1 = ZSTD_split) then
          let* '(d, lc) := lit_store d lc1 (lc_litBuffer lc1) (zsub lits 0 (zlen lits - 65536)) in
          lit_store d lc (Lit_extra 0) (zsub lits (zlen lits - 65536) 65536)
        else lit_store d lc1 (lc_litBuffer lc1) lits) in
     Ok (n, set_lits lc (lc_litBuffer lc) (zlen lits), d)) n lits kept.
Proof.
  intros Hn Hl Hb lc1. destruct (allocate_ok lc dst cap (zlen lits) streaming true) as (b & e & loc & E & Ha). unfold lc1. rewrite E.
  change (lc_litBufferLocation (set_buffer lc b e loc)) with loc. change (lc_litBuffer (set_buffer lc b e loc)) with b. case_bool_decide as Hloc.
  - subst loc. destruct Ha as (Hbig & -> & ->).
    destruct (store_split d src lc dst cap Hok Hdst (dst + room - zlen lits + 65504) (dst + room - 32) lits ltac:(lia) eq_refl eq_refl Hb) as (d' & x & E2 & Hs & Hp).
    rewrite E2. cbn [bind]. by apply kept_done.
  - destruct (store_whole d src lc dst cap Hok Hdst b e loc (zlen lits) true lits Ha Hloc eq_refl Hl Hb) as (d' & x & E2 & Hs & Hp).
    rewrite E2. cbn [bind]. by apply kept_done.
Qed.

(** The specification and the code, after the type and the format of the sizes are read. *)
Definition agrees (spec : result (Z * list Z * (HUF_DTable * HUF_ptr * bool))) (r : result (Z * lit_DCtx * list Z)) : Prop :=
  match spec with
  | Ok (n, lits, huf) => section_done r n lits huf
  | Err e => r = Err e
  | Stuck => False
  end.

Lemma agrees_if c e m r : (c = false -> agrees m r) -> agrees (RETURN_ERROR_IF c e m) (RETURN_ERROR_IF c e r).
Proof. destruct c; cbn; auto. Qed.

Lemma split_big n split :
  lc_litBufferLocation (ZSTD_allocateLiteralsBuffer lc dst cap n streaming room split) = ZSTD_split -> 65536 < n.
Proof.
  destruct (allocate_ok lc dst cap n streaming split) as (b & e & loc & E & Ha). rewrite E. cbn. intros ->. by destruct Ha.
Qed.

Lemma raw_agrees :
  2 <= zlen src -> SymbolEncodingType_of (Z.land (zat src 0) 3) = set_basic ->
  agrees (literals_spec le lc src dst_null room old_literals ws) (ZSTD_decodeLiteralsBlock le d lc src dst_null dst cap streaming ws).
Proof.
  intros Hl Ht. unfold literals_spec, ZSTD_decodeLiteralsBlock. apply agrees_if. intros _. rewrite rd_ok by lia. cbn [bind]. rewrite Ht.
  pose proof (lit_header_ok src (Z.land (Z.shiftr (zat src 0) 2) 3) 0 ltac:(tauto) Hl ltac:(lia)) as Hh.
  destruct (lit_header _ _ _) as [[lhSize n]|e|]; [|done|done]. cbn [bind wp] in *.
  do 3 (apply agrees_if; intros ?). bools. rewrite lit_extra_size. unfold WILDCOPY_OVERLENGTH.
  destruct (Z.gtb_spec (lhSize + n + 32) (zlen src)).
  - apply agrees_if. intros ?. bools. cbn [agrees].
    assert (zlen (zsub src lhSize n) = n) as Ez by (apply zlen_zsub; lia).
    pose proof (store_done (lhSize + n) (zsub src lhSize n) ltac:(lia) ltac:(lia) ltac:(by apply bytes_ok_zsub; tauto)) as Hdone.
    cbv zeta in Hdone. rewrite Ez in Hdone. case_bool_decide.
    + assert (65536 < n) as Hbig by by eapply split_big.
      rewrite !rd_bytes_ok by lia. cbn [bind].
      rewrite !zsub_in in Hdone by lia. replace (lhSize + 0) with lhSize in Hdone by lia. replace (lhSize + (n - 65536)) with (lhSize + n - 65536) in Hdone by lia.
      destruct (lit_store d _ _ _) as [[d1 lc1]|e|]; cbn [bind] in *; done.
    + rewrite rd_bytes_ok by lia. cbn [bind]. done.
  - unfold RETURN_ERROR_IF. destruct (Z.gtb_spec (n + lhSize) (zlen src)); [lia|]. cbn [agrees].
    destruct (allocate_ok lc dst cap n streaming true) as (b & e & loc & E & Ha). rewrite E.
    assert (zlen (zsub src lhSize n) = n) as Ez by (apply zlen_zsub; lia). pose proof Hok as [Hm Htb He [Hx Hxb]].
    eexists _, d. split; [reflexivity|]. split; [lia|]. split; [lia|]. split; [by apply bytes_ok_zsub; tauto|]. split; [done|]. split; [done|]. split; [|by split; [apply kept_ok|]].
    unfold lits_placed, lit_oend, lit_room, WILDCOPY_OVERLENGTH. change (ZSTD_blockSizeMax (set_buffer _ _ _ _)) with bsm. cbn -[Z.min Z.add].
    rewrite bool_decide_true by done. rewrite Ez. unfold ptr_sub. cbn [ptr_buf ptr_ix]. split_and!; done || lia.
Qed.

Lemma rle_agrees :
  2 <= zlen src -> SymbolEncodingType_of (Z.land (zat src 0) 3) = set_rle ->
  agrees (literals_spec le lc src dst_null room old_literals ws) (ZSTD_decodeLiteralsBlock le d lc src dst_null dst cap streaming ws).
Proof.
  intros Hl Ht. unfold literals_spec, ZSTD_decodeLiteralsBlock. apply agrees_if. intros _. rewrite rd_ok by lia. cbn [bind]. rewrite Ht.
  pose proof (lit_header_ok src (Z.land (Z.shiftr (zat src 0) 2) 3) 1 ltac:(tauto) Hl ltac:(lia)) as Hh.
  destruct (lit_header _ _ _) as [[lhSize n]|e|]; [|done|done]. cbn [bind wp] in *.
  do 3 (apply agrees_if; intros ?). bools. rewrite lit_extra_size, rd_ok by lia. cbn [bind agrees]. set (b := zat src lhSize).
  assert (is_byte b) as Hbb by (apply (bytes_ok_zat src lhSize); [tauto|lia]).
  assert (zlen (zfill n b) = n) as Ez by (apply zlen_zfill; lia).
  pose proof (store_done (lhSize + 1) (zfill n b) ltac:(lia) ltac:(lia) ltac:(by apply Forall_replicate)) as Hdone.
  cbv zeta in Hdone. rewrite Ez in Hdone. case_bool_decide; [|exact Hdone].
  assert (65536 < n) as Hbig by by eapply split_big.
  assert (forall i k, 0 <= i -> 0 <= k -> i + k <= n -> zsub (zfill n b) i k = zfill k b) as Hz.
  { intros i k ? ? ?. apply zat_ext; [rewrite zlen_zsub, zlen_zfill by lia; done|]. intros j Hj. rewrite zlen_zsub in Hj by lia. rewrite zat_zsub, !zat_zfill by lia. done. }
  rewrite !Hz in Hdone by lia. destruct (lit_store d _ _ _) as [[d1 lc1]|e'|]; cbn [bind] in *; done.
Qed.

(** The literals of Huffman streams, stored and moved. *)
Lemma huf_done type n k t lits p :
  type = set_compressed \/ type = set_repeat -> 1 <= k <= zlen src -> zlen lits = n -> n <= room -> bytes_ok lits -> hufTable_ok t ->
  p = (match type with set_compressed => own_hufTable | _ => lc_HUFptr lc end) ->
  (type = set_repeat -> t = lc_hufTable lc /\ lc_litEntropy lc = true) -> (type <> set_repeat -> dtable_safe (hdt_mem t) (dtd_tableLog (hdt_desc t))) ->
  let lc1 := ZSTD_allocateLiteralsBuffer lc dst cap n streaming room false in
  section_done
    (let* '(d, lc) := lit_store d lc1 (lc_litBuffer lc1) lits in
     let* '(d, lc) := (if bool_decide (lc_litBufferLocation lc = ZSTD_split) then split_literals d lc n else Ok (d, lc)) in
     let lc := set_lits lc (lc_litBuffer lc) n in
     let HUFptr := match type with set_compressed => own_hufTable | _ => lc_HUFptr lc end in
     let lc := set_huf lc t HUFptr true in
     Ok (k, lc, d)) k lits (t, p, true).
Proof.
  intros Hty Hk Hn Hroom Hb Ht -> Hrep Hnew lc1. pose proof Hok as [Hm Htb He Hx].
  assert (forall b e loc x d', stored d d' lc x dst cap ->
    lits_placed d' (set_lits (set_extra (set_buffer lc b e loc) x) b n) src dst cap lits ->
    section_done (Ok (k, set_huf (set_lits (set_extra (set_buffer lc b e loc) x) b n) t (match type with set_compressed => own_hufTable | _ => lc_HUFptr lc end) true, d'))
      k lits (t, match type with set_compressed => own_hufTable | _ => lc_HUFptr lc end, true)) as Hfin.
  { intros b e loc x d' (Ho & Hbd & Hxl & Hxb) Hp. eexists _, d'. split; [reflexivity|]. split; [done|]. split; [lia|]. split; [done|]. split; [done|].
    split; [by apply Hbd|]. split; [exact Hp|]. split; [|done]. apply kept_ok; try done. cbn -[dtable_safe]. unfold HUFptr_table. cbn -[dtable_safe]. intros _.
    destruct Hty as [-> | ->]; [by apply Hnew|]. destruct (Hrep eq_refl) as [-> Hent]. by apply He. }
  destruct (allocate_ok lc dst cap n streaming false) as (b & e & loc & E & Ha). unfold lc1. rewrite E.
  change (lc_litBuffer (set_buffer lc b e loc)) with b. destruct (decide (loc = ZSTD_split)) as [->|Hloc].
  - destruct Ha as (Hbig & -> & ->).
    destruct (store_then_split d src lc dst cap Hok Hdst (dst + room - n) (dst + room) lits ltac:(lia) ltac:(lia) eq_refl Hb) as (d' & x & E2 & Hs & Hp).
    cbv zeta in E2. rewrite Hn in E2, Hp. cbn [lit_store] in *. destruct (memcpy_at d _ lits) as [d1|e1|]; cbn [bind] in *; [|done|done].
    rewrite bool_decide_true by done. rewrite E2. cbn [bind]. by eapply (Hfin _ _ ZSTD_split).
  - destruct (store_whole d src lc dst cap Hok Hdst b e loc n false lits Ha Hloc Hn Hroom Hb) as (d' & x & E2 & Hs & Hp).
    rewrite E2. cbn [bind]. rewrite bool_decide_false by done. cbn [bind]. by apply Hfin.
Qed.

Lemma huf_agrees type :
  2 <= zlen src -> SymbolEncodingType_of (Z.land (zat src 0) 3) = type -> type = set_compressed \/ type = set_repeat ->
  agrees (literals_spec le lc src dst_null room old_literals ws) (ZSTD_decodeLiteralsBlock le d lc src dst_null dst cap streaming ws).
Proof.
  intros Hl Ht Hty. unfold literals_spec, ZSTD_decodeLiteralsBlock. apply agrees_if. intros _. rewrite rd_ok by lia. cbn [bind]. rewrite Ht.
  set (lhlCode := Z.land (Z.shiftr (zat src 0) 2) 3).
  assert (forall p, p = (match type with set_compressed => own_hufTable | _ => lc_HUFptr lc end) ->
    (type = set_repeat -> lc_litEntropy lc = true) -> agrees
    (ERROR_IF zlen src <? 5 THEN corruption_detected ;;
      let* '(lhSize, n, cSize) := huf_lit_header src lhlCode in
      ERROR_IF (n >? 0) && dst_null THEN dstSize_tooSmall ;;
      ERROR_IF n >? bsm THEN corruption_detected ;;
      ERROR_IF negb (lhlCode =? 0) && (n <? MIN_LITERALS_FOR_4_STREAMS) THEN literals_headerWrong ;;
      ERROR_IF cSize + lhSize >? zlen src THEN corruption_detected ;;
      ERROR_IF room <? n THEN dstSize_tooSmall ;;
      let* '(hufTable, lits) := or_corrupted (huf_literals le lc type (lhlCode =? 0) (old_literals n) (zsub src lhSize cSize) ws) in
      Ok (cSize + lhSize, lits, (hufTable, p, true)))
    (ERROR_IF zlen src <? 5 THEN corruption_detected ;;
      let* '(lhSize, litSize, litCSize) := huf_lit_header src lhlCode in
      ERROR_IF (litSize >? 0) && dst_null THEN dstSize_tooSmall ;;
      ERROR_IF litSize >? bsm THEN corruption_detected ;;
      ERROR_IF negb (lhlCode =? 0) && (litSize <? MIN_LITERALS_FOR_4_STREAMS) THEN literals_headerWrong ;;
      ERROR_IF litCSize + lhSize >? zlen src THEN corruption_detected ;;
      ERROR_IF room <? litSize THEN dstSize_tooSmall ;;
      let lc1 := ZSTD_allocateLiteralsBuffer lc dst cap litSize streaming room false in
      let* buf := lit_load d lc1 (lc_litBuffer lc1) litSize in
      let* '(hufTable, lits) := or_corrupted (huf_literals le lc1 type (lhlCode =? 0) buf (zsub src lhSize litCSize) ws) in
      let* '(d, lc) := lit_store d lc1 (lc_litBuffer lc1) lits in
      let* '(d, lc) := (if bool_decide (lc_litBufferLocation lc = ZSTD_split) then split_literals d lc litSize else Ok (d, lc)) in
      let lc := set_lits lc (lc_litBuffer lc) litSize in
      let HUFptr := match type with set_compressed => own_hufTable | _ => lc_HUFptr lc end in
      let lc := set_huf lc hufTable HUFptr true in
      Ok (litCSize + lhSize, lc, d))) as Hmain.
  { intros p Hp Hent. apply agrees_if. intros ?. bools.
    pose proof (huf_lit_header_ok src lhlCode ltac:(tauto) ltac:(lia)) as Hh.
    destruct (huf_lit_header src lhlCode) as [[[lhSize n] cSize]|e|]; [|done|done]. cbn [bind wp] in *.
    do 5 (apply agrees_if; intros ?). bools. cbv zeta. destruct (old_literals_ok n ltac:(lia)) as (-> & Ho & Hob). cbn [bind].
    pose proof Hok as [Hm Htb He _]. unfold ZSTD_BLOCKSIZE_MAX in Hm.
    assert (huf_literals le (ZSTD_allocateLiteralsBuffer lc dst cap n streaming room false) type (lhlCode =? 0) (old_literals n) (zsub src lhSize cSize) ws =
      huf_literals le lc type (lhlCode =? 0) (old_literals n) (zsub src lhSize cSize) ws) as ->.
    { destruct (allocate_ok lc dst cap n streaming false) as (b & e & loc & -> & _). done. }
    pose proof (huf_literals_ok le lc type (lhlCode =? 0) (old_literals n) (zsub src lhSize cSize) ws Htb Hws ltac:(by apply bytes_ok_zsub; tauto)
      ltac:(rewrite zlen_zsub by lia; lia) Hob ltac:(lia) ltac:(intros ->; by apply He, Hent)) as Hhuf.
    destruct (huf_literals _ _ _ _ _ _ _) as [[t lits]|e|]; [|done|done]. cbn [or_corrupted bind wp] in *. destruct Hhuf as (El & Hlb & Htok & Hr & Hn).
    eapply huf_done; try done; [lia|lia|by intros ->; auto]. }
  destruct Hty as [->| ->].
  - apply agrees_if. intros _. by apply Hmain.
  - apply agrees_if. intros Hent. apply Hmain; [done|]. by destruct (lc_litEntropy lc).
Qed.

Lemma decodeLiteralsBlock_agrees :
  agrees (literals_spec le lc src dst_null room old_literals ws) (ZSTD_decodeLiteralsBlock le d lc src dst_null dst cap streaming ws).
Proof.
  destruct (Z.ltb_spec (zlen src) 2) as [Hl|Hl].
  - unfold literals_spec, ZSTD_decodeLiteralsBlock. apply agrees_if. change MIN_CBLOCK_SIZE with 2. rewrite (proj2 (Z.ltb_lt _ _)) by done. done.
  - destruct (SymbolEncodingType_of (Z.land (zat src 0) 3)) eqn:Ht; [by apply raw_agrees|by apply rle_agrees|eapply huf_agrees; eauto..].
Qed.
End section_.

(** ** Properties *)

(** C7: the literals section of a block means what the format says, wherever the
    literals are put. On any bytes, [ZSTD_decodeLiteralsBlock] fails with the
    error of the specification, or gives its literals and its size: after the
    output, in [litExtraBuffer], left in the block, or split in two at the end of the
    output. They never take more than a block may regenerate, the pointers
    it leaves have the room that the copies of sequences read and write, the output
    changes only inside the destination, and the context can take the next
    block: a Huffman table that may be used again is one that decodes safely. *)
Theorem ZSTD_decodeLiteralsBlock_correct le d src lc dst cap dst_null streaming ws :
  lit_DCtx_ok lc -> 0 <= dst /\ 0 <= cap /\ dst + cap <= zlen d /\ zlen d < 2 ^ 62 -> bytes_ok d ->
  bytes_ok src /\ zlen src < 2 ^ 26 -> rdw_ok ws ->
  let room := Z.min (ZSTD_blockSizeMax lc) cap in
  let r := ZSTD_decodeLiteralsBlock le d lc src dst_null dst cap streaming ws in
  exists old, (forall n, 0 <= n <= room -> zlen (old n) = n /\ bytes_ok (old n)) /\
    match literals_spec le lc src dst_null room old ws with
    | Ok (n, lits, huf) => exists lc' d', r = Ok (n, lc', d') /\ 1 <= n <= zlen src /\ zlen lits <= room /\ bytes_ok lits /\
        outside (dst + cap) d d' dst /\ bytes_ok d' /\ lits_placed d' lc' src dst cap lits /\ lit_DCtx_ok lc' /\
        (lc_hufTable lc', lc_HUFptr lc', lc_litEntropy lc') = huf /\
        lc_isFrameDecompression lc' = lc_isFrameDecompression lc /\ lc_blockSizeMax lc' = lc_blockSizeMax lc
    | Err e => r = Err e
    | Stuck => False
    end.
Proof.
  intros Hok Hdst Hd Hsrc Hws room r. exists (old_literals d lc dst cap streaming). split; [|by apply decodeLiteralsBlock_agrees].
  intros n Hn. by apply (old_literals_ok d lc dst cap streaming Hok Hdst Hd n Hn).
Qed.

Definition sample_hufTable : HUF_DTable := mkHDTable (mkDesc 12 0 0 12) (zfill 16384 7).
Lemma sample_hufTable_ok : hufTable_ok sample_hufTable.
Proof. split; [|reflexivity]. vm_compute. repeat split; congruence. Qed.

Definition sample_lit_DCtx : lit_DCtx :=
  mkLitDCtx true 131072 sample_hufTable own_hufTable false (zfill 65568 0) (Lit_extra 0) 0 ZSTD_not_in_dst (Lit_extra 0) 0.

Lemma sample_lit_DCtx_ok : lit_DCtx_ok sample_lit_DCtx.
Proof.
  split; [cbn; vm_compute; split; congruence|exact sample_hufTable_ok|done|]. split; [by apply zlen_zfill|]. by apply Forall_replicate.
Qed.

Lemma ZSTD_decodeLiteralsBlock_correct_witness :
  (forall old, literals_spec true sample_lit_DCtx [0x51; 7; 0] false 20 old sample_rdwksp = Ok (2, zfill 10 7, (sample_hufTable, own_hufTable, false))) /\
  exists lc' d', ZSTD_decodeLiteralsBlock true (zfill 30 1) sample_lit_DCtx [0x51; 7; 0] false 5 20 not_streaming sample_rdwksp = Ok (2, lc', d') /\
    lits_placed d' lc' [0x51; 7; 0] 5 20 (zfill 10 7).
Proof.
  assert (forall old, literals_spec true sample_lit_DCtx [0x51; 7; 0] false 20 old sample_rdwksp = Ok (2, zfill 10 7, (sample_hufTable, own_hufTable, false))) as E by (intros; reflexivity).
  split; [exact E|].
  destruct (ZSTD_decodeLiteralsBlock_correct true (zfill 30 1) [0x51; 7; 0] sample_lit_DCtx 5 20 false not_streaming sample_rdwksp sample_lit_DCtx_ok) as (old & _ & H).
  - change (zlen (zfill 30 1)) with 30. lia.
  - bytes_dec.
  - split; [bytes_dec|reflexivity].
  - exact sample_rdwksp_ok.
  - change (Z.min (ZSTD_blockSizeMax sample_lit_DCtx) 20) with 20 in H. rewrite E in H. destruct H as (lc' & d' & H1 & _ & _ & _ & _ & _ & H2 & _).
    exists lc', d'. split; [exact H1|exact H2].
Defined.
