(* ===== verification/LitEncode.v ===== *)
(** Literals that are not compressed (compress/zstd_compress_literals.c): stored as
    they are, or one byte repeated; and what the decoder reads back. *)

From S2P Require Import Prelude Errors Outcome Bits Mem Wire HufDTable SeqTables SeqSelect SeqSection SeqDecode Frame LzCopy ExecSequence LitDecode.

(** ** Definitions *)

(** [1 + (srcSize>31) + (srcSize>4095)] *)
Definition lit_flSize (srcSize : Z) : Z := u32 (1 + b2z (srcSize >? 31) + b2z (srcSize >? 4095)).

(** The header of both kinds. *)
Definition put_lit_header (ostart : list Z) (type : SymbolEncodingType_e) (flSize srcSize : Z) : result (list Z) :=
  let t := SymbolEncodingType_to type in
  match flSize with
  | 1 => wr ostart 0 (u8 (t + Z.shiftl srcSize 3))
  | 2 => MEM_writeLE16 true ostart 0 (u16 (t + Z.shiftl 1 2 + Z.shiftl srcSize 4))
  | 3 => MEM_writeLE32 true ostart 0 (u32 (t + Z.shiftl 3 2 + Z.shiftl srcSize 4))
  | _ => Stuck
  end.

(** The destination and the size of the section. *)
Definition ZSTD_noCompressLiterals (dst src : list Z) : result (list Z * Z) :=
  let srcSize := zlen src in
  let flSize := lit_flSize srcSize in
  ERROR_IF srcSize + flSize >? zlen dst THEN dstSize_tooSmall ;;
  let* dst := put_lit_header dst set_basic flSize srcSize in
  let* dst := memcpy_at dst flSize src in
  Ok (dst, srcSize + flSize).

Definition allBytesIdentical (src : list Z) : result bool :=
  REQUIRE zlen src >=? 1 ;;
  let* b := rd src 0 in
  (* for (p=1; p<srcSize; p++) if (src[p] != b) return 0; *)
  let* r := loop_ (S (Z.to_nat (zlen src))) (fun p =>
    if p <? zlen src then
      let* c := rd src p in
      if negb (c =? b) then Ok (Break false) else Ok (Continue (p + 1))
    else Ok (Break true)) 1 in
  Ok r.

Definition ZSTD_compressRleLiteralsBlock (dst src : list Z) : result (list Z * Z) :=
  let srcSize := zlen src in
  let flSize := lit_flSize srcSize in
  let* same := allBytesIdentical src in
  REQUIRE (zlen dst >=? 4) && same ;;
  let* dst := put_lit_header dst set_rle flSize srcSize in
  let* b := rd src 0 in
  let* dst := wr dst flSize b in
  Ok (dst, flSize + 1).

(** [HUF_repeat_valid] is the only mode of the Huffman table that counts. *)
Definition ZSTD_minLiteralsToCompress (strategy : Z) (huf_repeat_valid : bool) : Z :=
  let shift := Z.min (9 - strategy) 3 in
  if huf_repeat_valid then 6 else Z.shiftl 8 shift.

(** ** Lemmas *)

(** The bytes of a header. *)
Definition lit_header_bytes (type : SymbolEncodingType_e) (n : Z) : list Z :=
  let t := SymbolEncodingType_to type in
  if n <=? 31 then [t + 8 * n] else if n <=? 4095 then le_bytes 2 (t + 4 + 16 * n) else le_bytes 3 (t + 12 + 16 * n).

Lemma zlen_lit_header type n : 0 <= n -> zlen (lit_header_bytes type n) = lit_flSize n /\ 1 <= lit_flSize n <= 3.
Proof.
  intros Hn. unfold lit_header_bytes, lit_flSize. destruct (Z.leb_spec n 31), (Z.gtb_spec n 31); try lia; [|destruct (Z.leb_spec n 4095)];
    destruct (Z.gtb_spec n 4095); try lia; cbn [b2z]; split; done || (vm_compute; split; congruence).
Qed.

Lemma type_range t : 0 <= SymbolEncodingType_to t < 4.
Proof. by destruct t. Qed.

(** The header, and one more byte that is written over when it has three. *)
Lemma put_lit_header_ok dst type n :
  0 <= n < 2 ^ 20 -> lit_flSize n + b2z (n >? 4095) <= zlen dst ->
  exists junk, put_lit_header dst type (lit_flSize n) n = Ok (zpatch dst 0 (lit_header_bytes type n ++ junk)) /\
    zlen junk = b2z (n >? 4095).
Proof.
  intros Hn Hl. pose proof (type_range type) as Ht. unfold put_lit_header, lit_flSize, lit_header_bytes in *. set (t := SymbolEncodingType_to type) in *.
  destruct (Z.leb_spec n 31), (Z.gtb_spec n 31); try lia; [|destruct (Z.leb_spec n 4095)]; destruct (Z.gtb_spec n 4095); try lia; cbn [b2z] in *;
    change (u32 (1 + 0 + 0)) with 1 in *; change (u32 (1 + 1 + 0)) with 2 in *; change (u32 (1 + 1 + 1)) with 3 in *; cbn iota; rewrite (Z.shiftl_mul_pow2 n) by lia.
  - exists []. rewrite u8_small by lia. rewrite wr_ok by lia. rewrite app_nil_r. split; [|done].
    f_equal. rewrite zpatch_one by lia. f_equal. lia.
  - exists []. change (Z.shiftl 1 2) with 4. rewrite u16_small by lia. rewrite writeLE16_spec by lia. rewrite app_nil_r. split; [|done].
    do 3 f_equal. lia.
  - exists [0]. change (Z.shiftl 3 2) with 12. rewrite u32_small by lia. rewrite writeLE32_spec by lia. split; [|done].
    do 2 f_equal. replace (t + 12 + n * 2 ^ 4) with (t + 12 + 16 * n) by lia. unfold le_bytes. cbn [app]. do 4 f_equal.
    rewrite !Z.div_div by lia. rewrite Z.div_small by lia. done.
Qed.

(** What the decoder reads in front of any bytes. *)
Lemma reads_lit_header type n rest more :
  type = set_basic \/ type = set_rle -> 0 <= n < 2 ^ 20 -> bytes_ok rest -> more <= zlen rest ->
  let src := lit_header_bytes type n ++ rest in
  SymbolEncodingType_of (Z.land (zat src 0) 3) = type /\
  lit_header src (Z.land (Z.shiftr (zat src 0) 2) 3) more = Ok (lit_flSize n, n).
Proof.
  intros Hty Hn Hr Hm src. pose proof (zlen_lit_header type n ltac:(lia)) as [El _]. pose proof (zlen_nonneg rest).
  assert (zlen src = lit_flSize n + zlen rest) as Es by (unfold src; rewrite zlen_app; lia).
  assert (SymbolEncodingType_to type = 0 \/ SymbolEncodingType_to type = 1) as Ht by (destruct Hty as [->| ->]; [by left|by right]).
  assert (forall z, z mod 4 = SymbolEncodingType_to type -> SymbolEncodingType_of (Z.land z 3) = type) as Htype.
  { intros z Hz. change 3 with (2 ^ 2 - 1). rewrite land_mask by lia. change (2 ^ 2) with 4. rewrite Hz. destruct Hty as [->| ->]; done. }
  assert (forall z k, z / 4 mod 4 = k -> Z.land (Z.shiftr z 2) 3 = k) as Hcode.
  { intros z k Hz. change 3 with (2 ^ 2 - 1). rewrite land_mask by lia. rewrite Z.shiftr_div_pow2 by lia. done. }
  revert El. unfold lit_header_bytes, lit_flSize in *. unfold src in *. set (t := SymbolEncodingType_to type) in *.
  destruct (Z.leb_spec n 31), (Z.gtb_spec n 31); try lia; [|destruct (Z.leb_spec n 4095)]; destruct (Z.gtb_spec n 4095); try lia; cbn [b2z] in *;
    change (u32 (1 + 0 + 0)) with 1 in *; change (u32 (1 + 1 + 0)) with 2 in *; change (u32 (1 + 1 + 1)) with 3 in *; intros _.
  - change (zat ([t + 8 * n] ++ rest) 0) with (t + 8 * n). split; [apply Htype; zdm|]. unfold lit_header.
    assert (rd ([t + 8 * n] ++ rest) 0 = Ok (t + 8 * n)) as Er by (rewrite rd_ok by lia; done). rewrite Er. cbn [bind].
    assert (Z.shiftr (t + 8 * n) 3 = n) as -> by (rewrite Z.shiftr_div_pow2 by lia; zdm).
    assert (exists k, Z.land (Z.shiftr (t + 8 * n) 2) 3 = k /\ (k = 0 \/ k = 2)) as (k & -> & [->| ->]); [|done..].
    eexists. split; [by apply Hcode|]. zdm.
  - change (zat (le_bytes 2 (t + 4 + 16 * n) ++ rest) 0) with ((t + 4 + 16 * n) mod 256). split; [apply Htype; zdm|].
    rewrite (Hcode _ 1) by zdm. unfold lit_header, RETURN_ERROR_IF. rewrite (proj2 (Z.ltb_ge _ _)) by lia.
    pose proof (parse_LE16 [] rest 0 eq_refl ltac:(constructor) Hr (t + 4 + 16 * n) ltac:(lia)) as Ep. change ([] ++ ?x) with x in Ep. rewrite Ep. cbn [bind].
    do 2 f_equal. rewrite Z.shiftr_div_pow2 by lia. zdm.
  - change (zat (le_bytes 3 (t + 12 + 16 * n) ++ rest) 0) with ((t + 12 + 16 * n) mod 256). split; [apply Htype; zdm|].
    rewrite (Hcode _ 3) by zdm. unfold lit_header, RETURN_ERROR_IF. rewrite (proj2 (Z.ltb_ge _ _)) by lia.
    pose proof (parse_LE24 [] rest 0 eq_refl ltac:(constructor) Hr (t + 12 + 16 * n) ltac:(lia)) as Ep. change ([] ++ ?x) with x in Ep. rewrite Ep. cbn [bind].
    do 2 f_equal. rewrite Z.shiftr_div_pow2 by lia. zdm.
Qed.

Lemma zpatch_over (dst h junk bs : list Z) :
  zlen junk <= zlen bs -> zlen h + zlen bs <= zlen dst -> zpatch (zpatch dst 0 (h ++ junk)) (zlen h) bs = zpatch dst 0 (h ++ bs).
Proof.
  intros Hj Hl. pose proof (zlen_nonneg h). pose proof (zlen_nonneg bs). pose proof (zlen_nonneg junk).
  assert (zlen (zpatch dst 0 (h ++ junk)) = zlen dst) as E by (apply zlen_zpatch; rewrite ?zlen_app; lia).
  apply zat_ext; [rewrite !zlen_zpatch; rewrite ?zlen_app, ?E; lia|]. intros i Hi. rewrite zlen_zpatch in Hi by (rewrite ?E; lia).
  rewrite zat_zpatch by lia. rewrite !zat_zpatch by (rewrite ?zlen_app; lia). rewrite !zlen_app, Z.sub_0_r.
  destruct (Z.leb_spec (zlen h) i), (Z.ltb_spec i (zlen h + zlen bs)), (Z.leb_spec 0 i), (Z.ltb_spec i (0 + (zlen h + zlen junk))), (Z.ltb_spec i (0 + (zlen h + zlen bs)));
    cbn [andb]; try lia; try done; rewrite ?(zat_app_r h bs), ?(zat_app_l h bs), ?(zat_app_l h junk) by lia; done.
Qed.

(** What a section is: its first bytes are [bs]. *)
Definition section_written (dst : list Z) (r : result (list Z * Z)) (bs : list Z) : Prop :=
  exists dst', r = Ok (dst', zlen bs) /\ zlen dst' = zlen dst /\ (bytes_ok dst -> bytes_ok dst') /\ zlen bs <= zlen dst /\ zsub dst' 0 (zlen bs) = bs.

Lemma patched_section dst bs n : zlen bs <= zlen dst -> bytes_ok bs -> n = zlen bs -> section_written dst (Ok (zpatch dst 0 bs, n)) bs.
Proof.
  intros Hl Hb ->. pose proof (zlen_nonneg bs). eexists. split; [reflexivity|]. split; [apply zlen_zpatch; lia|].
  split; [intros; by apply bytes_ok_zpatch|]. split; [done|]. by apply zsub_zpatch_0.
Qed.

Lemma lit_header_bytes_ok type n : 0 <= n < 2 ^ 20 -> bytes_ok (lit_header_bytes type n).
Proof.
  intros Hn. pose proof (type_range type). unfold lit_header_bytes. destruct (Z.leb_spec n 31); [|destruct (n <=? 4095); apply le_bytes_ok].
  constructor; [|constructor]. unfold is_byte. lia.
Qed.

Lemma noCompressLiterals_ok dst src :
  bytes_ok src -> zlen src < 2 ^ 20 ->
  let bs := lit_header_bytes set_basic (zlen src) ++ src in
  if zlen bs >? zlen dst then ZSTD_noCompressLiterals dst src = Err dstSize_tooSmall
  else section_written dst (ZSTD_noCompressLiterals dst src) bs.
Proof.
  intros Hb Hl bs. pose proof (zlen_nonneg src). destruct (zlen_lit_header set_basic (zlen src) ltac:(lia)) as [Eh Hf].
  assert (zlen bs = zlen src + lit_flSize (zlen src)) as El by (unfold bs; rewrite zlen_app; lia).
  unfold ZSTD_noCompressLiterals, RETURN_ERROR_IF. rewrite El. destruct (Z.gtb_spec (zlen src + lit_flSize (zlen src)) (zlen dst)); [done|].
  assert (b2z (zlen src >? 4095) <= zlen src) as Hj by (destruct (Z.gtb_spec (zlen src) 4095); cbn [b2z]; lia).
  destruct (put_lit_header_ok dst set_basic (zlen src) ltac:(lia) ltac:(lia)) as (junk & -> & Ej). cbn [bind].
  rewrite memcpy_at_ok by (rewrite ?zlen_zpatch; rewrite ?zlen_app; lia). cbn [bind]. rewrite <- Eh at 1. rewrite zpatch_over by lia. fold bs.
  apply patched_section; [lia|apply bytes_ok_app; [apply lit_header_bytes_ok; lia|done]|lia].
Qed.

Lemma allBytesIdentical_ok src : 1 <= zlen src -> allBytesIdentical src = Ok (bool_decide (Forall (fun c => c = zat src 0) src)).
Proof.
  intros Hl. unfold allBytesIdentical, defined_if. rewrite (proj2 (Z.geb_le _ _)) by lia. rewrite rd_ok by lia. cbn [bind].
  match goal with |- (let* r := ?m in Ok r) = _ => assert (wp m (fun r => r = bool_decide (Forall (fun c => c = zat src 0) src)) no_errors) as H end.
  2: { by destruct (wp_no_errors_Ok _ _ H) as (r & -> & ->). }
  apply (wp_loop (fun p => 1 <= p <= zlen src /\ forall i, 0 <= i < p -> zat src i = zat src 0) (fun p => zlen src - p)); [split; [lia|]| lia|].
  - intros i Hi. by replace i with 0 by lia.
  - intros p [Hp Hall]. destruct (Z.ltb_spec p (zlen src)).
    + rewrite rd_ok by lia. cbn [bind]. destruct (Z.eqb_spec (zat src p) (zat src 0)) as [E|E]; cbn [negb wp].
      * split; [|lia]. split; [lia|]. intros i Hi. destruct (Z.eq_dec i p) as [->|]; [done|]. apply Hall. lia.
      * symmetry. apply bool_decide_eq_false. intros HF. apply E. apply (zat_Forall _ src p HF). lia.
    + cbn [wp]. symmetry. apply bool_decide_eq_true. apply Forall_zat. intros i Hi. apply Hall. lia.
Qed.

Lemma compressRle_ok dst src :
  bytes_ok src -> 1 <= zlen src < 2 ^ 20 -> Forall (fun c => c = zat src 0) src -> 4 <= zlen dst ->
  section_written dst (ZSTD_compressRleLiteralsBlock dst src) (lit_header_bytes set_rle (zlen src) ++ [zat src 0]).
Proof.
  intros Hb Hl Hsame Hd. destruct (zlen_lit_header set_rle (zlen src) ltac:(lia)) as [Eh Hf].
  unfold ZSTD_compressRleLiteralsBlock. rewrite allBytesIdentical_ok by lia. cbn [bind]. rewrite bool_decide_true by done. unfold defined_if.
  rewrite (proj2 (Z.geb_le _ _)) by lia. cbn [andb]. assert (b2z (zlen src >? 4095) <= 1) as Hj by (destruct (zlen src >? 4095); cbn; lia).
  destruct (put_lit_header_ok dst set_rle (zlen src) ltac:(lia) ltac:(lia)) as (junk & -> & Ej). cbn [bind]. rewrite rd_ok by lia. cbn [bind].
  pose proof (zlen_nonneg junk). rewrite wr_ok by (rewrite zlen_zpatch; rewrite ?zlen_app; lia). cbn [bind].
  rewrite <- zpatch_one by (rewrite zlen_zpatch; rewrite ?zlen_app; lia). rewrite <- Eh at 1.
  assert (zlen [zat src 0] = 1) as E1 by done. rewrite zpatch_over by lia.
  apply patched_section; [rewrite zlen_app; lia|apply bytes_ok_app; [apply lit_header_bytes_ok; lia|]|rewrite zlen_app; lia].
  constructor; [|done]. apply (bytes_ok_zat src 0 Hb). lia.
Qed.

(** *** What the decoder reads *)

(** The bytes [bs], in front of the rest of a block, are a section of [lits]; [huf] is what
    the context keeps of Huffman tables. *)
Definition lits_section (lc : lit_DCtx) (bs lits : list Z) (huf : HUF_DTable * HUF_ptr * bool) : Prop :=
  bytes_ok bs /\ forall le rest room old ws,
    bytes_ok rest -> 1 <= zlen rest -> zlen lits <= room -> room <= ZSTD_blockSizeMax lc ->
    (forall n, 0 <= n <= room -> zlen (old n) = n /\ bytes_ok (old n)) -> rdw_ok ws ->
    literals_spec le lc (bs ++ rest) false room old ws = Ok (zlen bs, lits, huf).

Notation kept lc := (lc_hufTable lc, lc_HUFptr lc, lc_litEntropy lc).

Lemma raw_section lc lits :
  bytes_ok lits -> zlen lits < 2 ^ 20 -> lits_section lc (lit_header_bytes set_basic (zlen lits) ++ lits) lits (kept lc).
Proof.
  intros Hb Hl. pose proof (zlen_nonneg lits). destruct (zlen_lit_header set_basic (zlen lits) ltac:(lia)) as [Eh Hf].
  split; [apply bytes_ok_app; [apply lit_header_bytes_ok; lia|done]|]. intros le rest room old ws Hr Hr1 Hroom Hbs _ _. rewrite <- app_assoc.
  destruct (reads_lit_header set_basic (zlen lits) (lits ++ rest) 0 ltac:(by left) ltac:(lia) ltac:(by apply bytes_ok_app) ltac:(apply zlen_nonneg)) as [Ht Eq].
  unfold literals_spec. rewrite Ht, Eq. cbn [bind]. rewrite !zlen_app, andb_false_r. unfold RETURN_ERROR_IF.
  rewrite (proj2 (Z.ltb_ge _ 2)) by lia. destruct (Z.gtb_spec (zlen lits) (ZSTD_blockSizeMax lc)); [lia|]. rewrite (proj2 (Z.ltb_ge room _)) by lia.
  destruct (Z.gtb_spec (zlen lits + lit_flSize (zlen lits)) (zlen (lit_header_bytes set_basic (zlen lits)) + (zlen lits + zlen rest))); [lia|].
  rewrite zsub_mid by lia. do 3 f_equal. lia.
Qed.

Lemma rle_section lc lits :
  bytes_ok lits -> 1 <= zlen lits < 2 ^ 20 -> Forall (fun c => c = zat lits 0) lits ->
  lits_section lc (lit_header_bytes set_rle (zlen lits) ++ [zat lits 0]) lits (kept lc).
Proof.
  intros Hb Hl Hsame. destruct (zlen_lit_header set_rle (zlen lits) ltac:(lia)) as [Eh Hf]. pose proof (bytes_ok_zat lits 0 Hb ltac:(lia)) as Hb0.
  assert (bytes_ok [zat lits 0]) as Hb1 by (by constructor). assert (zlen [zat lits 0] = 1) as E1 by done.
  split; [apply bytes_ok_app; [apply lit_header_bytes_ok; lia|done]|]. intros le rest room old ws Hr Hr1 Hroom Hbs _ _. rewrite <- app_assoc.
  destruct (reads_lit_header set_rle (zlen lits) ([zat lits 0] ++ rest) 1 ltac:(by right) ltac:(lia) ltac:(by apply bytes_ok_app) ltac:(rewrite zlen_app; lia)) as [Ht Eq].
  unfold literals_spec. rewrite Ht, Eq. cbn [bind]. rewrite !zlen_app, andb_false_r. unfold RETURN_ERROR_IF.
  rewrite (proj2 (Z.ltb_ge _ 2)) by lia. destruct (Z.gtb_spec (zlen lits) (ZSTD_blockSizeMax lc)); [lia|]. rewrite (proj2 (Z.ltb_ge room _)) by lia.
  rewrite zat_app_r by lia. replace (lit_flSize (zlen lits) - _) with 0 by lia. change (zat ([zat lits 0] ++ rest) 0) with (zat lits 0).
  assert (zfill (zlen lits) (zat lits 0) = lits) as ->; [|do 3 f_equal; lia].
  apply zat_ext; [apply zlen_zfill; lia|]. intros i Hi. rewrite zlen_zfill in Hi by lia. rewrite zat_zfill by lia. symmetry. apply (zat_Forall _ lits i Hsame). lia.
Qed.

(** Any section, decoded. *)
Lemma section_decoded le lc d dst cap streaming ws bs lits huf rest :
  lits_section lc bs lits huf -> lit_DCtx_ok lc -> 0 <= dst /\ 0 <= cap /\ dst + cap <= zlen d /\ zlen d < 2 ^ 62 -> bytes_ok d -> rdw_ok ws ->
  bytes_ok rest -> 1 <= zlen rest -> zlen (bs ++ rest) < 2 ^ 26 -> zlen lits <= Z.min (ZSTD_blockSizeMax lc) cap ->
  section_done d (bs ++ rest) lc dst cap (ZSTD_decodeLiteralsBlock le d lc (bs ++ rest) false dst cap streaming ws) (zlen bs) lits huf.
Proof.
  intros [Hb Hs] Hok Hdst Hd Hws Hr Hr1 Hl Hroom.
  pose proof (decodeLiteralsBlock_agrees le d (bs ++ rest) lc dst cap false streaming ws Hok Hdst Hd (conj (bytes_ok_app _ _ Hb Hr) Hl) Hws) as H.
  rewrite Hs in H; try done; [lia|]. intros n Hn. by apply (old_literals_ok d lc dst cap streaming Hok Hdst Hd n Hn).
Qed.

(** ** Properties *)

(** C8: literals that are not compressed round trip. Whatever their number,
    [ZSTD_noCompressLiterals] fails exactly when they do not fit with their
    header, [ZSTD_compressRleLiteralsBlock] never does, and what they write is decoded
    by [ZSTD_decodeLiteralsBlock], in front of the rest of the block, into the
    same literals, in whichever place it chooses for them. *)
Theorem uncompressed_literals_roundtrip le lc d dst cap streaming ws out src rest :
  lit_DCtx_ok lc -> 0 <= dst /\ 0 <= cap /\ dst + cap <= zlen d /\ zlen d < 2 ^ 62 -> bytes_ok d -> rdw_ok ws ->
  bytes_ok src -> zlen src <= Z.min (ZSTD_blockSizeMax lc) cap -> bytes_ok rest -> 1 <= zlen rest < 2 ^ 20 -> 4 <= zlen out ->
  let decodes r := exists out' n lc' d', r = Ok (out', n) /\ zlen out' = zlen out /\ n <= zlen out /\
    ZSTD_decodeLiteralsBlock le d lc (zsub out' 0 n ++ rest) false dst cap streaming ws = Ok (n, lc', d') /\
    lits_placed d' lc' (zsub out' 0 n ++ rest) dst cap src in
  (if zlen src + lit_flSize (zlen src) >? zlen out then ZSTD_noCompressLiterals out src = Err dstSize_tooSmall
   else decodes (ZSTD_noCompressLiterals out src)) /\
  (1 <= zlen src -> allBytesIdentical src = Ok true -> decodes (ZSTD_compressRleLiteralsBlock out src)).
Proof.
  intros Hok Hdst Hd Hws Hb Hroom Hr Hr1 Hout decodes. pose proof (lo_max _ Hok) as Hm. unfold ZSTD_BLOCKSIZE_MAX in Hm. pose proof (zlen_nonneg src).
  assert (forall r bs, section_written out r bs -> lits_section lc bs src (kept lc) -> zlen bs < 2 ^ 21 -> decodes r) as Hdec.
  { intros r bs (out' & -> & El & _ & Hfit & Ebs) Hsec Hlb.
    destruct (section_decoded le lc d dst cap streaming ws bs src _ rest Hsec Hok Hdst Hd Hws Hr ltac:(lia) ltac:(rewrite zlen_app; lia) Hroom)
      as (lc' & d' & E & _ & _ & _ & _ & _ & Hp & _).
    exists out', (zlen bs), lc', d'. rewrite Ebs. done. }
  destruct (zlen_lit_header set_basic (zlen src) ltac:(lia)) as [Eh Hf]. split.
  - pose proof (noCompressLiterals_ok out src Hb ltac:(lia)) as H1. cbv zeta in H1. rewrite zlen_app, Eh, Z.add_comm in H1.
    destruct (_ >? zlen out); [done|]. eapply Hdec; [exact H1|by apply raw_section; [|lia]|rewrite zlen_app; lia].
  - intros Hl Hall. rewrite allBytesIdentical_ok in Hall by lia. assert (Forall (fun c => c = zat src 0) src) as Hsame.
    { apply (bool_decide_eq_true (Forall (fun c => c = zat src 0) src)). congruence. }
    destruct (zlen_lit_header set_rle (zlen src) ltac:(lia)) as [Eh' _].
    eapply Hdec; [by apply compressRle_ok; [|lia| |]|by apply rle_section; [|lia|]|rewrite zlen_app, Eh'; change (zlen [zat src 0]) with 1; lia].
Qed.

Lemma uncompressed_literals_roundtrip_witness :
  let src := zfill 40 7 in
  let decodes r := exists out' n lc' d', r = Ok (out', n) /\ zlen out' = zlen (zfill 60 1) /\ n <= zlen (zfill 60 1) /\
    ZSTD_decodeLiteralsBlock true (zfill 100 1) sample_lit_DCtx (zsub out' 0 n ++ [0; 9]) false 5 90 is_streaming HufRoundtrip.sample_rdwksp = Ok (n, lc', d') /\
    lits_placed d' lc' (zsub out' 0 n ++ [0; 9]) 5 90 src in
  (if zlen src + lit_flSize (zlen src) >? zlen (zfill 60 1) then ZSTD_noCompressLiterals (zfill 60 1) src = Err dstSize_tooSmall
   else decodes (ZSTD_noCompressLiterals (zfill 60 1) src)) /\
  (1 <= zlen src -> allBytesIdentical src = Ok true -> decodes (ZSTD_compressRleLiteralsBlock (zfill 60 1) src)) /\
  zlen src + lit_flSize (zlen src) = 42 /\ allBytesIdentical src = Ok true.
Proof.
  intros src decodes.
  destruct (uncompressed_literals_roundtrip true sample_lit_DCtx (zfill 100 1) 5 90 is_streaming HufRoundtrip.sample_rdwksp (zfill 60 1) src [0; 9]) as [H1 H2].
  - exact sample_lit_DCtx_ok.
  - change (zlen (zfill 100 1)) with 100. lia.
  - bytes_dec.
  - exact HufRoundtrip.sample_rdwksp_ok.
  - bytes_dec.
  - vm_compute; congruence.
  - bytes_dec.
  - vm_compute; split; congruence.
  - vm_compute; congruence.
  - split; [exact H1|]. split; [exact H2|]. split; vm_compute; reflexivity.
Defined.
