(* ===== verification/BlockDecode.v ===== *)
(** The decoding of a compressed block (decompress/zstd_decompress_block.c): the
    literals, the header of the sequences, and their execution on one of
    the layouts of the literals. *)

From S2P Require Import Prelude Errors Outcome Bits Mem BitStream HufStats HufCode HufDTable HufDecode HufFour HufRoundtrip LzCopy ExecSequence SeqTables SeqDecode SplitLit Frame LitDecode.

(** ** Definitions *)

(** The fields of [ZSTD_DCtx] that a block needs. A pointer to a segment of output is an
    index of the output buffer, or points into another one; a null pointer is
    the start of an empty buffer. *)
Record block_DCtx := mkBlockDCtx {
  bc_lit : lit_DCtx;
  bc_tables : seq_tables;
  bc_rep : list Z;
  bc_previousDstEnd : src_ptr;
  bc_prefixStart : src_ptr;
  bc_virtualStart : Z;
  bc_dictEnd : src_ptr;
}.

(** What the workspaces of the context hold when they are used. *)
Record block_scratch := mkBlockScratch {
  bs_huf : HUF_ReadDTableX1_Workspace;
  bs_LL : seq_scratch;
  bs_OF : seq_scratch;
  bs_ML : seq_scratch;
}.

(** [dst != dctx->previousDstEnd]. *)
Definition is_dst (dst : Z) (p : src_ptr) : bool := match p with In_dst i => i =? dst | In_buf _ _ => false end.

Definition ZSTD_checkContinuity (dctx : block_DCtx) (dst dstSize : Z) : block_DCtx :=
  if negb (is_dst dst (bc_previousDstEnd dctx)) && (dstSize >? 0) then
    (* not contiguous *)
    mkBlockDCtx (bc_lit dctx) (bc_tables dctx) (bc_rep dctx) (In_dst dst) (In_dst dst)
      (dst - (ptr_ix (bc_previousDstEnd dctx) - ptr_ix (bc_prefixStart dctx))) (bc_previousDstEnd dctx)
  else dctx.

Definition set_previousDstEnd (dctx : block_DCtx) (p : Z) : block_DCtx :=
  mkBlockDCtx (bc_lit dctx) (bc_tables dctx) (bc_rep dctx) (In_dst p) (bc_prefixStart dctx) (bc_virtualStart dctx) (bc_dictEnd dctx).

Section block.
Context (MEM_isLittleEndian : bool).

(** [ZSTD_decompressSequences] and [ZSTD_decompressSequencesSplitLitBuffer], on the literals of
    the context [lc]: the output, the size written and the repeated offsets. *)
Definition ZSTD_decompressSequences (d : list Z) (dctx : block_DCtx) (lc : lit_DCtx) (tables : seq_tables) (block : list Z)
    (dst maxDstSize : Z) (src : list Z) (nbSeq : Z) : result (list Z * Z * list Z) :=
  let prefixStart := ptr_ix (bc_prefixStart dctx) in
  match lc_litBufferLocation lc with
  | ZSTD_split =>
      ZSTD_decompressSequences_bodySplitLitBuffer src (dst + maxDstSize) (lc_litBufferEnd lc) prefixStart (bc_virtualStart dctx) (bc_dictEnd dctx)
        d dst (lit_ix (lc_litPtr lc)) (lc_litExtraBuffer lc) ZSTD_LITBUFFEREXTRASIZE tables (bc_rep dctx) nbSeq
  | _ =>
      ZSTD_decompressSequences_body d dst (lit_oend lc dst maxDstSize) (lit_src_ptr lc block (lc_litPtr lc)) (lit_ix (lc_litPtr lc) + lc_litSize lc)
        prefixStart (bc_virtualStart dctx) (bc_dictEnd dctx) tables (bc_rep dctx) src nbSeq
  end.

(** The size regenerated, the context and the output buffer. A 64-bit build with
    ZSTD_FORCE_DECOMPRESS_SEQUENCES_SHORT: offsets are never long and the decoder that
    prefetches is not compiled. [dst] is not in the last megabyte of memory. *)
Definition ZSTD_decompressBlock_internal (d : list Z) (dctx : block_DCtx) (src : list Z) (dst_null : bool) (dst dstCapacity : Z)
    (streaming : streaming_operation) (w : block_scratch) : result (Z * block_DCtx * list Z) :=
  ERROR_IF zlen src >? ZSTD_blockSizeMax (bc_lit dctx) THEN srcSize_wrong ;;
  (* Decode literals section *)
  let* '(litCSize, lc, d) := ZSTD_decodeLiteralsBlock MEM_isLittleEndian d (bc_lit dctx) src dst_null dst dstCapacity streaming (bs_huf w) in
  let ip := zsub src litCSize (zlen src - litCSize) in
  (* Build Decoding Tables *)
  let* '(seqHSize, nbSeq, tables) := ZSTD_decodeSeqHeaders (bc_tables dctx) ip (bs_LL w) (bs_OF w) (bs_ML w) in
  let ip := zsub ip seqHSize (zlen ip - seqHSize) in
  ERROR_IF (dst_null || (dstCapacity =? 0)) && (nbSeq >? 0) THEN dstSize_tooSmall ;;
  let tables := mkSeqTables (LLTptr tables) (OFTptr tables) (MLTptr tables) (if negb (nbSeq =? 0) then 1 else fseEntropy tables) in
  let* '(d, n, rep) := ZSTD_decompressSequences d dctx lc tables src dst dstCapacity ip nbSeq in
  Ok (n, mkBlockDCtx lc tables rep (bc_previousDstEnd dctx) (bc_prefixStart dctx) (bc_virtualStart dctx) (bc_dictEnd dctx), d).

Definition set_isFrameDecompression (lc : lit_DCtx) (b : bool) : lit_DCtx :=
  mkLitDCtx b (lc_blockSizeMax lc) (lc_hufTable lc) (lc_HUFptr lc) (lc_litEntropy lc) (lc_litExtraBuffer lc)
    (lc_litBuffer lc) (lc_litBufferEnd lc) (lc_litBufferLocation lc) (lc_litPtr lc) (lc_litSize lc).

Definition ZSTD_decompressBlock_deprecated (d : list Z) (dctx : block_DCtx) (src : list Z) (dst_null : bool) (dst dstCapacity : Z)
    (w : block_scratch) : result (Z * block_DCtx * list Z) :=
  let dctx := mkBlockDCtx (set_isFrameDecompression (bc_lit dctx) false) (bc_tables dctx) (bc_rep dctx) (bc_previousDstEnd dctx)
                (bc_prefixStart dctx) (bc_virtualStart dctx) (bc_dictEnd dctx) in
  let dctx := ZSTD_checkContinuity dctx dst dstCapacity in
  let* '(dSize, dctx, d) := ZSTD_decompressBlock_internal d dctx src dst_null dst dstCapacity not_streaming w in
  Ok (dSize, set_previousDstEnd dctx (dst + dSize), d).

Definition ZSTD_decompressBlock := ZSTD_decompressBlock_deprecated.

End block.

(** *** What a block means *)

(** What a block does to a history: its literals, its sequences, and what is kept of
    its tables and offsets. [room] is the most it may regenerate. *)
Definition compressed_block_spec (le : bool) (lc : lit_DCtx) (tables : seq_tables) (rep h src : list Z) (dst_null : bool) (room : Z)
    (old : Z -> list Z) (w : block_scratch) : result (list Z * (HUF_DTable * HUF_ptr * bool) * seq_tables * list Z) :=
  ERROR_IF zlen src >? ZSTD_blockSizeMax lc THEN srcSize_wrong ;;
  let* '(litCSize, lits, huf) := literals_spec le lc src dst_null room old (bs_huf w) in
  let ip := zsub src litCSize (zlen src - litCSize) in
  let* '(seqHSize, nbSeq, tables) := ZSTD_decodeSeqHeaders tables ip (bs_LL w) (bs_OF w) (bs_ML w) in
  let ip := zsub ip seqHSize (zlen ip - seqHSize) in
  ERROR_IF (dst_null || (room =? 0)) && (nbSeq >? 0) THEN dstSize_tooSmall ;;
  let tables := mkSeqTables (LLTptr tables) (OFTptr tables) (MLTptr tables) (if negb (nbSeq =? 0) then 1 else fseEntropy tables) in
  let* '(h, rep) := block_spec h lits room tables rep ip nbSeq in
  Ok (h, huf, tables, rep).

(** What holds of the context between blocks: [dict] is the segment before the prefix. *)
Record block_DCtx_ok (dict : list Z) (ps : Z) (dctx : block_DCtx) : Prop := {
  bo_lit : lit_DCtx_ok (bc_lit dctx);
  bo_tables : fseEntropy (bc_tables dctx) <> 0 -> seq_tables_wf (bc_tables dctx);
  bo_rep : prev_ok (bc_rep dctx) /\ prev_small (bc_rep dctx);
  bo_prefix : bc_prefixStart dctx = In_dst ps;
  bo_virtual : bc_virtualStart dctx = ps - zlen dict;
  bo_dict : bc_dictEnd dctx = In_buf dict (zlen dict);
}.

Definition block_scratch_ok (w : block_scratch) : Prop :=
  rdw_ok (bs_huf w) /\ seq_scratch_ok (bs_LL w) /\ seq_scratch_ok (bs_OF w) /\ seq_scratch_ok (bs_ML w).

(** ** Lemmas *)

Lemma block_spec_room h lits room e tables rep src n h' rep' :
  0 <= e -> block_spec h lits room tables rep src n = Ok (h', rep') -> block_spec h lits (room + e) tables rep src n = Ok (h', rep').
Proof.
  intros He. unfold block_spec, lz_block. destruct (decode_block src tables rep n) as [[[seqs r] ended]|e'|]; cbn [bind]; [|done|done].
  destruct (lz_exec h lits room seqs) as [[[h1 l1] room1]|e'|] eqn:E; cbn [bind]; [|done|done]. rewrite (lz_exec_room _ _ _ _ _ _ _ e He E). cbn [bind].
  unfold RETURN_ERROR_IF. destruct (negb ended); [done|]. destruct (Z.gtb_spec (zlen l1) room1); [done|].
  destruct (Z.gtb_spec (zlen l1) (room1 + e)); [lia|]. done.
Qed.

Lemma ptr_ix_lit lc src p : ptr_ix (lit_src_ptr lc src p) = lit_ix p.
Proof. by destruct p. Qed.

Lemma history_outside ps dict oend d d' op : outside oend d d' op -> 0 <= ps <= op -> op <= zlen d -> history ps dict d' op = history ps dict d op.
Proof.
  intros [E H] Hp Hd. unfold history. f_equal. apply zat_ext; [rewrite !zlen_zsub; lia|]. intros i Hi. rewrite zlen_zsub in Hi by lia.
  rewrite !zat_zsub by lia. apply H. lia.
Qed.

Lemma outside_le_end oend oend' d d' op : outside oend d d' op -> oend <= oend' -> outside oend' d d' op.
Proof. intros [E H] Hle. split; [done|]. intros i Hi. apply H. lia. Qed.

Section sequences.
Context (dict : list Z) (ps : Z) (dctx : block_DCtx) (lc : lit_DCtx) (tables : seq_tables) (d block src lits : list Z) (dst cap n : Z).
Hypothesis Hdctx : block_DCtx_ok dict ps dctx.
Hypothesis Hlc : lit_DCtx_ok lc.
Hypothesis Hlits : lits_placed d lc block dst cap lits.
Hypothesis Hsrc : bytes_ok src /\ zlen src < 2 ^ 26.
Hypothesis Hblock : bytes_ok block.
Hypothesis Hd : bytes_ok d /\ bytes_ok dict.
Hypothesis Hdst : 0 <= ps <= dst /\ 0 <= cap /\ dst + cap <= zlen d /\ zlen d < 2 ^ 58 /\ zlen dict < 2 ^ 58.
Hypothesis Hn : 0 <= n < 2 ^ 20.
Hypothesis Htables : n <> 0 -> seq_tables_wf tables.

Notation r := (ZSTD_decompressSequences d dctx lc tables block dst cap src n).
Notation room := (Z.min (ZSTD_blockSizeMax lc) cap).

Definition sequences_safe (x : list Z * Z * list Z) : Prop :=
  let '(d', k, rep') := x in
  0 <= k <= cap /\ outside (dst + cap) d d' dst /\ bytes_ok d' /\ prev_ok rep' /\ prev_small rep'.

Lemma whole_sequences :
  lc_litBufferLocation lc <> ZSTD_split ->
  wp r sequences_safe any_error /\
  forall h rep', block_spec (history ps dict d dst) lits room tables (bc_rep dctx) src n = Ok (h, rep') ->
    wp r (fun '(d', k, rep1) => history ps dict d' (dst + k) = h /\ rep1 = rep') no_errors.
Proof.
  intros Hloc. pose proof Hdctx as [_ _ Hrep Hpre Hvirt Hdict]. destruct Hlits as [Esz Hl]. cbv zeta in Hl.
  assert (r = ZSTD_decompressSequences_body d dst (lit_oend lc dst cap) (lit_src_ptr lc block (lc_litPtr lc)) (lit_ix (lc_litPtr lc) + zlen lits)
    ps (ps - zlen dict) (In_buf dict (zlen dict)) tables (bc_rep dctx) src n) as ->.
  { unfold ZSTD_decompressSequences. rewrite Hpre, Hvirt, Hdict, Esz. by destruct (lc_litBufferLocation lc). }
  assert (dst + room <= lit_oend lc dst cap <= dst + cap /\
    lit_room d (lit_oend lc dst cap) (lit_src_ptr lc block (lc_litPtr lc)) (lit_ix (lc_litPtr lc) + zlen lits) /\
    ptr_sub d (lit_src_ptr lc block (lc_litPtr lc)) (zlen lits) = lits) as ([Ho1 Ho2] & Hr & Hs) by (by destruct (lc_litBufferLocation lc)).
  pose proof (lo_max _ Hlc) as Hm.
  pose proof (decompressSequences_body_ok dict src tables ps dst (lit_oend lc dst cap) (lit_ix (lc_litPtr lc) + zlen lits) (lit_src_ptr lc block (lc_litPtr lc)) d (bc_rep dctx) n
    ltac:(split; [tauto|lia]) Hn Htables Hrep ltac:(lia) Hr ltac:(lia)) as H. cbv zeta in H. rewrite ptr_ix_lit in H.
  replace (lit_ix (lc_litPtr lc) + zlen lits - lit_ix (lc_litPtr lc)) with (zlen lits) in H by lia. rewrite Hs in H.
  split.
  - destruct (block_spec _ _ _ _ _ _ _) as [[h rep']|e|]; [|by rewrite H|done]. destruct H as (d' & k & -> & Hk & Hout & Hb & _ & Hpo & Hps). cbn [wp sequences_safe].
    split; [lia|]. split; [eapply outside_le_end; [exact Hout|lia]|]. split; [|done]. apply Hb; [tauto| |tauto].
    pose proof (lo_extra _ Hlc) as [_ Hx]. by destruct (lc_litPtr lc).
  - intros h rep' Hspec. apply (block_spec_room _ _ _ (lit_oend lc dst cap - dst - room) _ _ _ _ _ _ ltac:(lia)) in Hspec.
    replace (room + (lit_oend lc dst cap - dst - room)) with (lit_oend lc dst cap - dst) in Hspec by lia. rewrite Hspec in H.
    by destruct H as (d' & k & -> & _ & _ & _ & Hh & _).
Qed.

Lemma split_sequences :
  lc_litBufferLocation lc = ZSTD_split ->
  wp r sequences_safe any_error /\
  forall h rep', block_spec (history ps dict d dst) lits room tables (bc_rep dctx) src n = Ok (h, rep') ->
    wp r (fun '(d', k, rep1) => history ps dict d' (dst + k) = h /\ rep1 = rep') no_errors.
Proof.
  intros Hloc. pose proof Hdctx as [_ _ Hrep Hpre Hvirt Hdict]. destruct Hlits as [Esz Hl]. cbv zeta in Hl. rewrite Hloc in Hl.
  destruct Hl as (p & Ep & Hbig & Eend & Eroom & Hs). pose proof (lo_max _ Hlc) as Hm. pose proof (lo_extra _ Hlc) as [Ex Hx].
  rewrite lit_extra_size in *. unfold WILDCOPY_OVERLENGTH, ZSTD_BLOCKSIZE_MAX in *.
  unfold ZSTD_decompressSequences. rewrite Hloc, Hpre, Hvirt, Hdict, Ep. cbn [ptr_ix lit_ix]. rewrite lit_extra_size.
  set (lend := lc_litBufferEnd lc) in *. set (extra := lc_litExtraBuffer lc) in *.
  assert (lits = split_lits lend (zsub extra 0 65536) d p) as El by (rewrite <- Hs; unfold split_lits; do 2 f_equal; lia).
  split.
  - eapply wp_mono; [apply (split_body_safe dict src tables ps (dst + cap) lend 65536 extra); unfold WILDCOPY_OVERLENGTH; try done; lia || (split; [tauto|lia])| |done].
    intros [[d' k] rep'] (Hk & Ho & Hb & Hpo & Hps). split; [lia|]. split; [done|]. split; [apply Hb; tauto|done].
  - intros h rep' Hspec. eapply (split_body_ok dict src tables ps (dst + cap) lend 65536 extra); unfold WILDCOPY_OVERLENGTH; try done; try lia; try (split; [tauto|lia]).
    + tauto.
    + rewrite <- El. replace (lend + 32 - dst) with room by lia. exact Hspec.
Qed.

Lemma sequences_ok :
  wp r sequences_safe any_error /\
  forall h rep', block_spec (history ps dict d dst) lits room tables (bc_rep dctx) src n = Ok (h, rep') ->
    wp r (fun '(d', k, rep1) => history ps dict d' (dst + k) = h /\ rep1 = rep') no_errors.
Proof. destruct (decide (lc_litBufferLocation lc = ZSTD_split)); [by apply split_sequences|by apply whole_sequences]. Qed.
End sequences.

Section block_.
Context (le : bool) (dict d src : list Z) (ps dst cap : Z) (dctx : block_DCtx) (dst_null : bool) (streaming : streaming_operation) (w : block_scratch).
Hypothesis Hdctx : block_DCtx_ok dict ps dctx.
Hypothesis Hd : bytes_ok d /\ bytes_ok dict.
Hypothesis Hdst : 0 <= ps <= dst /\ 0 <= cap /\ dst + cap <= zlen d /\ zlen d < 2 ^ 58 /\ zlen dict < 2 ^ 58.
Hypothesis Hsrc : bytes_ok src.
Hypothesis Hw : block_scratch_ok w.

Notation lc0 := (bc_lit dctx).
Notation room := (Z.min (ZSTD_blockSizeMax lc0) cap).
Notation r := (ZSTD_decompressBlock_internal le d dctx src dst_null dst cap streaming w).

(** What a block leaves. *)
Definition block_safe (x : Z * block_DCtx * list Z) : Prop :=
  let '(n, dctx', d') := x in
  0 <= n <= cap /\ outside (dst + cap) d d' dst /\ bytes_ok d' /\ block_DCtx_ok dict ps dctx' /\
  lc_isFrameDecompression (bc_lit dctx') = lc_isFrameDecompression lc0 /\ lc_blockSizeMax (bc_lit dctx') = lc_blockSizeMax lc0 /\
  bc_previousDstEnd dctx' = bc_previousDstEnd dctx.

(** What the specification says of it. *)
Definition block_done (h : list Z) (huf : HUF_DTable * HUF_ptr * bool) (tables : seq_tables) (rep : list Z) (x : Z * block_DCtx * list Z) : Prop :=
  let '(n, dctx', d') := x in
  history ps dict d' (dst + n) = h /\ bc_rep dctx' = rep /\ bc_tables dctx' = tables /\
  (lc_hufTable (bc_lit dctx'), lc_HUFptr (bc_lit dctx'), lc_litEntropy (bc_lit dctx')) = huf.

Lemma decompressBlock_ok :
  let old := old_literals d lc0 dst cap streaming in
  wp r block_safe any_error /\
  forall h huf tables rep, compressed_block_spec le lc0 (bc_tables dctx) (bc_rep dctx) (history ps dict d dst) src dst_null room old w = Ok (h, huf, tables, rep) ->
    wp r (block_done h huf tables rep) no_errors.
Proof.
  intros old. pose proof Hdctx as [Hlit Htab Hrep Hpre Hvirt Hdict]. destruct Hw as (Hw0 & Hw1 & Hw2 & Hw3). pose proof (lo_max _ Hlit) as Hm. unfold ZSTD_BLOCKSIZE_MAX in Hm.
  unfold ZSTD_decompressBlock_internal, compressed_block_spec. unfold RETURN_ERROR_IF at 1 3.
  destruct (Z.gtb_spec (zlen src) (ZSTD_blockSizeMax lc0)); [done|].
  pose proof (decodeLiteralsBlock_agrees le d src lc0 dst cap dst_null streaming (bs_huf w) Hlit ltac:(lia) ltac:(tauto) ltac:(split; [done|lia]) Hw0) as Hl.
  unfold agrees in Hl. fold old in Hl. destruct (literals_spec _ _ _ _ _ _ _) as [[[k lits] huf]|e|]; [|by rewrite Hl|done].
  destruct Hl as (lc & d1 & -> & Hk & Hlits & Hlb & Hout & Hd1 & Hplaced & Hlc & Ehuf & Ef & Eb). cbn [bind].
  assert (ZSTD_blockSizeMax lc = ZSTD_blockSizeMax lc0) as Ebsm by (unfold ZSTD_blockSizeMax; by rewrite Ef, Eb).
  assert (bytes_ok (zsub src k (zlen src - k)) /\ zlen (zsub src k (zlen src - k)) = zlen src - k) as [Hb1 El1] by (split; [by apply bytes_ok_zsub|apply zlen_zsub; lia]).
  set (ip := zsub src k (zlen src - k)) in *.
  pose proof (decodeSeqHeaders_ok (bc_tables dctx) ip (bs_LL w) (bs_OF w) (bs_ML w) Hb1 ltac:(lia) Hw1 Hw2 Hw3 Htab) as Hh.
  destruct (ZSTD_decodeSeqHeaders _ _ _ _ _) as [[[hs nbSeq] tables]|e|]; cbn [bind wp] in *; [|done|done].
  destruct Hh as (Hhs & Hnb & Eflag & Hz & Hnz). unfold LONGNBSEQ in Hnb.
  set (tables1 := mkSeqTables _ _ _ _). set (ip2 := zsub ip hs (zlen ip - hs)).
  assert (nbSeq <> 0 -> seq_tables_wf tables1) as Ht1 by (intros Hn; exact (Hnz Hn)).
  assert (fseEntropy tables1 <> 0 -> seq_tables_wf tables1) as Ht2.
  { unfold tables1. destruct (Z.eqb_spec nbSeq 0) as [->|]; cbn [negb fseEntropy]; [|auto]. destruct (Hz eq_refl) as [_ ->]. exact Htab. }
  pose proof Hout as [E1 _].
  destruct (sequences_ok dict ps dctx lc tables1 d1 src ip2 lits dst cap nbSeq) as [Hsafe Hspec]; try done; try tauto; try lia.
  { split; [by apply bytes_ok_zsub|]. unfold ip2. rewrite zlen_zsub; lia. }
  split.
  - wp_step; [done|]. wp_step. eapply wp_mono; [exact Hsafe| |done]. intros [[d2 n] rep] (Hn & Ho2 & Hb2 & Hpo & Hps). wp_step.
    split; [lia|]. split; [by eapply outside_trans|]. split; [done|]. split; [|done]. by split.
  - intros h huf' tables' rep'. unfold RETURN_ERROR_IF.
    destruct ((dst_null || (room =? 0)) && (nbSeq >? 0)) eqn:Ec; [done|].
    assert ((dst_null || (cap =? 0)) && (nbSeq >? 0) = false) as ->.
    { destruct (nbSeq >? 0); [|by rewrite andb_false_r]. rewrite andb_true_r in *. apply orb_false_iff in Ec as [-> Ec]. cbn. lia. }
    rewrite <- (history_outside ps dict (dst + cap) d d1 dst Hout) by lia. rewrite Ebsm in Hspec. fold tables1.
    destruct (block_spec _ _ _ _ _ _ _) as [[h1 rep1]|e|] eqn:Ebs; cbn [bind]; [|done|done]. intros [= <- <- <- <-].
    wp_step. eapply wp_mono; [by apply Hspec| |done]. intros [[d2 n] rep2] [<- ->]. wp_step. done.
Qed.
End block_.

(** ** Properties *)

(** C6: decoding a compressed block is safe. Whatever the bytes of the block, and
    whatever the workspaces held, [ZSTD_decompressBlock_internal] ends, with an error or
    with a size that fits in the destination; it reads and writes inside
    its buffers, changes the output only inside the destination, and leaves a context on
    which the next block can be decoded as safely. This holds for the three places of the
    literals, also when the output runs over the literals that are not copied yet. *)
Theorem ZSTD_decompressBlock_safe le dict d src ps dst cap dctx dst_null streaming w :
  block_DCtx_ok dict ps dctx -> bytes_ok d /\ bytes_ok dict ->
  0 <= ps <= dst /\ 0 <= cap /\ dst + cap <= zlen d /\ zlen d < 2 ^ 58 /\ zlen dict < 2 ^ 58 -> bytes_ok src -> block_scratch_ok w ->
  wp (ZSTD_decompressBlock_internal le d dctx src dst_null dst cap streaming w) (fun '(n, dctx', d') =>
    0 <= n <= cap /\ outside (dst + cap) d d' dst /\ bytes_ok d' /\ block_DCtx_ok dict ps dctx' /\
    lc_isFrameDecompression (bc_lit dctx') = lc_isFrameDecompression (bc_lit dctx) /\
    lc_blockSizeMax (bc_lit dctx') = lc_blockSizeMax (bc_lit dctx) /\ bc_previousDstEnd dctx' = bc_previousDstEnd dctx) any_error.
Proof. intros. by apply (decompressBlock_ok le dict d src ps dst cap dctx dst_null streaming w). Qed.

(** C5: a valid block is decoded to what it means. If the literals and the sequences
    of a block, executed one by one on the history, give [h] without taking more than
    a block may regenerate, then [ZSTD_decompressBlock_internal] writes the new
    bytes of [h] at [dst], wherever it has put the literals, and keeps the tables
    and the repeated offsets that the format says. *)
Theorem ZSTD_decompressBlock_correct le dict d src ps dst cap dctx dst_null streaming w :
  block_DCtx_ok dict ps dctx -> bytes_ok d /\ bytes_ok dict ->
  0 <= ps <= dst /\ 0 <= cap /\ dst + cap <= zlen d /\ zlen d < 2 ^ 58 /\ zlen dict < 2 ^ 58 -> bytes_ok src -> block_scratch_ok w ->
  let room := Z.min (ZSTD_blockSizeMax (bc_lit dctx)) cap in
  exists old, (forall n, 0 <= n <= room -> zlen (old n) = n /\ bytes_ok (old n)) /\
    forall h huf tables rep,
      compressed_block_spec le (bc_lit dctx) (bc_tables dctx) (bc_rep dctx) (history ps dict d dst) src dst_null room old w = Ok (h, huf, tables, rep) ->
      exists n dctx' d', ZSTD_decompressBlock_internal le d dctx src dst_null dst cap streaming w = Ok (n, dctx', d') /\
        history ps dict d' (dst + n) = h /\ bc_rep dctx' = rep /\ bc_tables dctx' = tables /\
        (lc_hufTable (bc_lit dctx'), lc_HUFptr (bc_lit dctx'), lc_litEntropy (bc_lit dctx')) = huf.
Proof.
  intros Hok Hd Hdst Hsrc Hw room. exists (old_literals d (bc_lit dctx) dst cap streaming). split.
  - intros n Hn. apply (old_literals_ok d (bc_lit dctx) dst cap streaming (bo_lit _ _ _ Hok) ltac:(lia) ltac:(tauto) n Hn).
  - intros h huf tables rep Hspec.
    destruct (decompressBlock_ok le dict d src ps dst cap dctx dst_null streaming w Hok Hd Hdst Hsrc Hw) as [_ H]. specialize (H h huf tables rep Hspec).
    destruct (wp_no_errors_Ok _ _ H) as ([[n dctx'] d'] & E & Hdone). by exists n, dctx', d'.
Qed.

Definition sample_block_DCtx : block_DCtx :=
  mkBlockDCtx sample_lit_DCtx (mkSeqTables LL_defaultDTable OF_defaultDTable ML_defaultDTable 0) [1; 4; 8] (In_dst 3) (In_dst 3) 1 (In_buf [1; 2] 2).
Definition sample_block_scratch : block_scratch := mkBlockScratch sample_rdwksp sample_scratch sample_scratch sample_scratch.

Lemma sample_block_DCtx_ok : block_DCtx_ok [1; 2] 3 sample_block_DCtx.
Proof.
  split; [exact sample_lit_DCtx_ok|intros _; exact default_tables_wf| |reflexivity|reflexivity|reflexivity].
  split; [apply prev_ok_3; lia|apply prev_small_3; lia].
Qed.
Lemma sample_block_scratch_ok : block_scratch_ok sample_block_scratch.
Proof. split; [exact sample_rdwksp_ok|]. split_and!; vm_compute; repeat split; congruence. Qed.

(** Five literals stored as they are, and one sequence on the default tables. *)
Definition sample_block : list Z := [0x28; 97; 98; 99; 100; 101; 1; 0; 0x0D; 0x6E; 0x08].

Lemma ZSTD_decompressBlock_safe_witness :
  wp (ZSTD_decompressBlock_internal true (zfill 40 5) sample_block_DCtx sample_block false 3 30 not_streaming sample_block_scratch) (fun '(n, dctx', d') =>
    0 <= n <= 30 /\ outside 33 (zfill 40 5) d' 3 /\ bytes_ok d' /\ block_DCtx_ok [1; 2] 3 dctx' /\
    lc_isFrameDecompression (bc_lit dctx') = true /\ lc_blockSizeMax (bc_lit dctx') = 131072 /\ bc_previousDstEnd dctx' = In_dst 3) any_error.
Proof.
  apply (ZSTD_decompressBlock_safe true [1; 2] (zfill 40 5) sample_block 3 3 30 sample_block_DCtx false not_streaming sample_block_scratch sample_block_DCtx_ok).
  - split; bytes_dec.
  - vm_compute; repeat split; congruence.
  - bytes_dec.
  - exact sample_block_scratch_ok.
Defined.

Lemma ZSTD_decompressBlock_correct_witness :
  exists n dctx' d', ZSTD_decompressBlock_internal true (zfill 40 5) sample_block_DCtx sample_block false 3 30 not_streaming sample_block_scratch = Ok (n, dctx', d') /\
    history 3 [1; 2] d' (3 + n) = [1; 2; 97; 98; 99; 98; 99; 98; 99; 98; 99; 100; 101] /\ bc_rep dctx' = [2; 1; 4].
Proof.
  destruct (ZSTD_decompressBlock_correct true [1; 2] (zfill 40 5) sample_block 3 3 30 sample_block_DCtx false not_streaming sample_block_scratch sample_block_DCtx_ok)
    as (old & _ & H).
  - split; bytes_dec.
  - vm_compute; repeat split; congruence.
  - bytes_dec.
  - exact sample_block_scratch_ok.
  - change (Z.min (ZSTD_blockSizeMax (bc_lit sample_block_DCtx)) 30) with 30 in H. change (history 3 [1; 2] (zfill 40 5) 3) with [1; 2] in H.
    assert (compressed_block_spec true (bc_lit sample_block_DCtx) (bc_tables sample_block_DCtx) (bc_rep sample_block_DCtx) [1; 2] sample_block false 30 old sample_block_scratch
      = Ok ([1; 2; 97; 98; 99; 98; 99; 98; 99; 98; 99; 100; 101], (sample_hufTable, own_hufTable, false),
            mkSeqTables LL_defaultDTable OF_defaultDTable ML_defaultDTable 1, [2; 1; 4])) as E by (vm_compute; reflexivity).
    destruct (H _ _ _ _ E) as (n & dctx' & d' & H1 & H2 & H3 & _). exists n, dctx', d'. split; [exact H1|]. split; [exact H2|exact H3].
Defined.
