(* ===== verification/FrameHeader.v ===== *)
(** Frame headers: what the writer emits the reader reads back; the reader is
    safe on any bytes, asks only for more than it was given, and does not change
    its mind when more bytes come. *)

From S2P Require Import Prelude Errors Outcome Bits Mem Wire Frame.

(** ** Definitions *)

(** The bytes of the optional fields. *)
Definition wl_bytes (singleSegment : bool) (windowLog : Z) : list Z :=
  if singleSegment then [] else [8 * (windowLog - 10)].
Definition did_bytes (code dictID : Z) : list Z :=
  if code =? 0 then [] else if code =? 1 then [dictID]
  else if code =? 2 then le_bytes 2 dictID else le_bytes 4 dictID.
Definition fcs_bytes (code : Z) (singleSegment : bool) (size : Z) : list Z :=
  if code =? 0 then (if singleSegment then [size] else [])
  else if code =? 1 then le_bytes 2 (size - 256)
  else if code =? 2 then le_bytes 4 size else le_bytes 8 size.
Definition magic_bytes (format : ZSTD_format_e) : list Z :=
  if decide (format = ZSTD_f_zstd1) then le_bytes 4 ZSTD_MAGICNUMBER else [].

(** The codes of the writer. *)
Definition did_code (noDictID : bool) (dictID : Z) : Z :=
  if noDictID then 0 else b2z (dictID >? 0) + b2z (dictID >=? 256) + b2z (dictID >=? 65536).
Definition fcs_code (contentSize : bool) (size : Z) : Z :=
  if contentSize then
    b2z (size >=? 256) + b2z (size >=? 65536 + 256) + b2z (size >=? 0xFFFFFFFF)
  else 0.
Definition single_segment (contentSize : bool) (windowLog size : Z) : bool :=
  contentSize && (2 ^ windowLog >=? size).
Definition fhd_byte (did : Z) (checksum single : bool) (fcs : Z) : Z :=
  did + 4 * b2z checksum + 32 * b2z single + 64 * fcs.

Definition header_bytes (format : ZSTD_format_e) (fp : ZSTD_frameParameters)
    (windowLog size dictID : Z) : list Z :=
  let did := did_code (noDictIDFlag fp) dictID in
  let fcs := fcs_code (contentSizeFlag fp) size in
  let ss := single_segment (contentSizeFlag fp) windowLog size in
  magic_bytes format ++ [fhd_byte did (fp_checksumFlag fp) ss fcs]
  ++ wl_bytes ss windowLog ++ did_bytes did dictID ++ fcs_bytes fcs ss size.

(** The header a reader gets back. *)
Definition header_of (format : ZSTD_format_e) (fp : ZSTD_frameParameters)
    (windowLog size dictID : Z) : ZSTD_FrameHeader :=
  let wsize := if single_segment (contentSizeFlag fp) windowLog size then size else 2 ^ windowLog in
  mkFrameHeader (if contentSizeFlag fp then size else ZSTD_CONTENTSIZE_UNKNOWN) wsize
    (Z.min wsize ZSTD_BLOCKSIZE_MAX) ZSTD_frame
    (zlen (header_bytes format fp windowLog size dictID))
    (if noDictIDFlag fp then 0 else dictID) (b2z (fp_checksumFlag fp)).

(** ** Lemmas *)

Lemma b2z_range b : 0 <= b2z b <= 1.
Proof. destruct b; cbn; lia. Qed.
Lemma b2z_eq0 b : (b2z b =? 0) = negb b.
Proof. by destruct b. Qed.

Lemma did_code_spec nd d :
  0 <= d < 2 ^ 32 ->
  did_code nd d = 0 /\ (nd = true \/ d = 0) \/
  nd = false /\ (did_code nd d = 1 /\ 0 < d < 256 \/ did_code nd d = 2 /\ 256 <= d < 65536 \/
    did_code nd d = 3 /\ 65536 <= d).
Proof.
  intros Hd. unfold did_code. destruct nd; [auto|].
  destruct (Z.gtb_spec d 0), (Z.geb_spec d 256), (Z.geb_spec d 65536); cbn; lia.
Qed.
Lemma fcs_code_spec cs s :
  0 <= s < 2 ^ 64 ->
  fcs_code cs s = 0 /\ (cs = false \/ s < 256) \/
  cs = true /\ (fcs_code cs s = 1 /\ 256 <= s < 65792 \/
    fcs_code cs s = 2 /\ 65792 <= s < 0xFFFFFFFF \/ fcs_code cs s = 3 /\ 0xFFFFFFFF <= s).
Proof.
  intros Hs. unfold fcs_code. destruct cs; [|auto].
  destruct (Z.geb_spec s 256), (Z.geb_spec s (65536 + 256)), (Z.geb_spec s 0xFFFFFFFF); cbn; lia.
Qed.

Lemma did_range nd d : 0 <= d < 2 ^ 32 -> 0 <= did_code nd d <= 3.
Proof. intros H. pose proof (did_code_spec nd d H). lia. Qed.
Lemma fcs_range cs s : 0 <= s < 2 ^ 64 -> 0 <= fcs_code cs s <= 3.
Proof. intros H. pose proof (fcs_code_spec cs s H). lia. Qed.

(** *** Writing *)

Section write.
Context (dst : list Z) (format : ZSTD_format_e) (fp : ZSTD_frameParameters) (windowLog size dictID : Z).
Hypothesis Hwl : 10 <= windowLog <= 31.
Hypothesis Hsize : 0 <= size < 2 ^ 64.
Hypothesis Hdid : 0 <= dictID < 2 ^ 32.
Hypothesis Hdst : 18 <= zlen dst.

Let did := did_code (noDictIDFlag fp) dictID.
Let fcs := fcs_code (contentSizeFlag fp) size.
Let ss := single_segment (contentSizeFlag fp) windowLog size.

Lemma fhd_range : 0 <= fhd_byte did (fp_checksumFlag fp) ss fcs < 256.
Proof.
  pose proof (did_range (noDictIDFlag fp) dictID Hdid) as H1. pose proof (fcs_range (contentSizeFlag fp) size Hsize) as H2.
  fold did in H1. fold fcs in H2. unfold fhd_byte.
  pose proof (b2z_range (fp_checksumFlag fp)). pose proof (b2z_range ss). lia.
Qed.

Lemma zlen_magic_bytes : zlen (magic_bytes format) = ZSTD_startingInputLength format - 1.
Proof. unfold magic_bytes, ZSTD_startingInputLength. by case_decide. Qed.

Lemma zlen_did_bytes c d :
  0 <= c <= 3 -> zlen (did_bytes c d) = (if c =? 0 then 0 else if c =? 1 then 1 else if c =? 2 then 2 else 4).
Proof.
  intros Hc. unfold did_bytes. destruct (c =? 0); [done|]. destruct (c =? 1); [done|].
  destruct (c =? 2); by rewrite zlen_le_bytes.
Qed.
Lemma zlen_fcs_bytes c s v :
  0 <= c <= 3 ->
  zlen (fcs_bytes c s v) = (if c =? 0 then b2z s else if c =? 1 then 2 else if c =? 2 then 4 else 8).
Proof.
  intros Hc. unfold fcs_bytes. destruct (c =? 0); [by destruct s|].
  destruct (c =? 1); [by rewrite zlen_le_bytes|]. destruct (c =? 2); by rewrite zlen_le_bytes.
Qed.
Lemma zlen_wl_bytes s w : zlen (wl_bytes s w) = b2z (negb s).
Proof. by destruct s. Qed.

Lemma zlen_header_bytes :
  zlen (header_bytes format fp windowLog size dictID)
  = ZSTD_startingInputLength format + b2z (negb ss) + zlen (did_bytes did dictID)
    + zlen (fcs_bytes fcs ss size).
Proof.
  unfold header_bytes. fold did fcs ss. rewrite !zlen_app, zlen_magic_bytes, zlen_wl_bytes.
  change (zlen [fhd_byte did (fp_checksumFlag fp) ss fcs]) with 1. lia.
Qed.

Lemma header_length : 2 <= zlen (header_bytes format fp windowLog size dictID) <= 18.
Proof.
  rewrite zlen_header_bytes, zlen_did_bytes, zlen_fcs_bytes by (by first [apply did_range|apply fcs_range]).
  pose proof (fcs_code_spec (contentSizeFlag fp) size Hsize) as Hf. fold fcs in Hf.
  unfold ZSTD_startingInputLength. pose proof (b2z_range ss). pose proof (b2z_range (negb ss)).
  assert (ss = true \/ ss = false /\ (contentSizeFlag fp = true -> 256 <= size)) as Hss.
  { unfold ss, single_segment. destruct (contentSizeFlag fp); [|by right].
    destruct (Z.geb_spec (2 ^ windowLog) size); [by left|right].
    pose proof (pow2_le 10 windowLog). split; [done|lia]. }
  destruct Hss as [E|[E Hs]]; rewrite E in *; cbn [negb b2z]; repeat case_decide; repeat case_if; try lia.
Qed.

Lemma write_ok :
  ZSTD_writeFrameHeader dst format fp windowLog size dictID
  = Ok (zpatch dst 0 (header_bytes format fp windowLog size dictID),
        zlen (header_bytes format fp windowLog size dictID)).
Proof.
  pose proof header_length as Hhl. pose proof (did_code_spec (noDictIDFlag fp) dictID Hdid) as Hd.
  pose proof (fcs_code_spec (contentSizeFlag fp) size Hsize) as Hf. pose proof fhd_range as Hfhd.
  rewrite zlen_header_bytes in Hhl.
  unfold ZSTD_writeFrameHeader. cbv zeta. fold (did_code (noDictIDFlag fp) dictID). fold did in Hd |- *.
  fold (fcs_code (contentSizeFlag fp) size). fold fcs in Hf |- *.
  assert (u32 (Z.shiftl 1 windowLog) = 2 ^ windowLog) as ->.
  { rewrite Z.shiftl_1_l. pose proof (pow2_le windowLog 31). pose proof (pow2_pos windowLog).
    apply u32_small. lia. }
  fold (single_segment (contentSizeFlag fp) windowLog size). fold ss.
  rewrite b2z_eq0. unfold RETURN_ERROR_IF, ZSTD_FRAMEHEADERSIZE_MAX, ZSTD_WINDOWLOG_ABSOLUTEMIN.
  rewrite (proj2 (Z.ltb_ge (zlen dst) 18)) by lia.
  assert (u8 (did + Z.shiftl (b2z (fp_checksumFlag fp)) 2 + Z.shiftl (b2z ss) 5 + Z.shiftl fcs 6)
    = fhd_byte did (fp_checksumFlag fp) ss fcs) as ->.
  { rewrite !Z.shiftl_mul_pow2 by lia. unfold fhd_byte in *. rewrite u8_small; lia. }
  assert (u8 (Z.shiftl (u32 (windowLog - 10)) 3) = 8 * (windowLog - 10)) as ->.
  { rewrite Z.shiftl_mul_pow2, u32_small, u8_small; lia. }
  assert ((if decide (format = ZSTD_f_zstd1)
    then let* dst0 := writeLE32 dst 0 ZSTD_MAGICNUMBER in Ok (dst0, 4) else Ok (dst, 0))
    = Ok (zpatch dst 0 (magic_bytes format), zlen (magic_bytes format))) as ->.
  { unfold magic_bytes. case_decide; [|by rewrite zpatch_all].
    rewrite writeLE32_spec by (unfold ZSTD_MAGICNUMBER; lia). done. }
  cbn [bind]. pose proof zlen_magic_bytes as Hm.
  pose proof (zlen_nonneg (did_bytes did dictID)). pose proof (zlen_nonneg (fcs_bytes fcs ss size)).
  pose proof (b2z_range (negb ss)).
  rewrite emit_byte by (done || lia). cbn [bind]. set (h1 := magic_bytes format ++ [_]).
  assert (zlen (magic_bytes format) + 1 = zlen h1) as -> by (unfold h1; by rewrite zlen_app).
  assert (zlen h1 = ZSTD_startingInputLength format) as Hh1 by (unfold h1; rewrite zlen_app; change (zlen [_]) with 1; lia).
  assert ((if negb ss then let* dst0 := wr (zpatch dst 0 h1) (zlen h1) (8 * (windowLog - 10)) in
      Ok (dst0, zlen h1 + 1) else Ok (zpatch dst 0 h1, zlen h1))
    = Ok (zpatch dst 0 (h1 ++ wl_bytes ss windowLog), zlen (h1 ++ wl_bytes ss windowLog))) as ->.
  { unfold wl_bytes. destruct ss; cbn [negb b2z] in *; [by rewrite app_nil_r|].
    rewrite emit_byte by (done || lia). by rewrite zlen_app. }
  cbn [bind]. set (h2 := h1 ++ wl_bytes ss windowLog).
  assert (zlen h2 = ZSTD_startingInputLength format + b2z (negb ss)) as Hh2.
  { unfold h2. rewrite zlen_app, zlen_wl_bytes. lia. }
  assert ((if did =? 0 then Ok (zpatch dst 0 h2, zlen h2)
     else if did =? 1 then let* dst0 := wr (zpatch dst 0 h2) (zlen h2) (u8 dictID) in Ok (dst0, zlen h2 + 1)
     else if did =? 2 then let* dst0 := writeLE16 (zpatch dst 0 h2) (zlen h2) (u16 dictID) in Ok (dst0, zlen h2 + 2)
     else let* dst0 := writeLE32 (zpatch dst 0 h2) (zlen h2) dictID in Ok (dst0, zlen h2 + 4))
    = Ok (zpatch dst 0 (h2 ++ did_bytes did dictID), zlen (h2 ++ did_bytes did dictID))) as ->.
  { rewrite zlen_app. rewrite zlen_did_bytes in * by (by apply did_range). unfold did_bytes.
    destruct Hd as [[-> _]|(_ & [[-> ?]|[[-> ?]|[-> ?]]])]; cbn [Z.eqb Z.compare Pos.compare Pos.compare_cont Pos.eqb] in *.
    - rewrite app_nil_r. f_equal. f_equal. lia.
    - rewrite u8_small by lia. by rewrite emit_byte by (done || lia).
    - rewrite u16_small by lia. by rewrite emit_LE16 by (done || lia).
    - by rewrite emit_LE32 by (done || lia). }
  cbn [bind]. set (h3 := h2 ++ did_bytes did dictID).
  assert (zlen h3 = zlen h2 + zlen (did_bytes did dictID)) as Hh3 by (unfold h3; by rewrite zlen_app).
  match goal with |- bind ?m _ = _ =>
    assert (m = Ok (zpatch dst 0 (h3 ++ fcs_bytes fcs ss size), zlen (h3 ++ fcs_bytes fcs ss size))) as -> end.
  { rewrite zlen_app. rewrite zlen_fcs_bytes in * by (by apply fcs_range). unfold fcs_bytes. rewrite negb_involutive.
    destruct Hf as [[-> Hs]|(_ & [[-> ?]|[[-> ?]|[-> ?]]])]; cbn [Z.eqb Z.compare Pos.compare Pos.compare_cont Pos.eqb] in *.
    - destruct ss eqn:Ess; cbn [b2z] in *; [|rewrite app_nil_r; f_equal; f_equal; lia].
      unfold ss, single_segment in Ess. destruct (contentSizeFlag fp); [|done].
      destruct Hs as [?|Hs]; [done|]. rewrite u8_small by lia. by rewrite emit_byte by (done || lia).
    - rewrite u16_small by lia. by rewrite emit_LE16 by (done || lia).
    - rewrite u32_small by lia. by rewrite emit_LE32 by (done || lia).
    - rewrite u64_small by lia. by rewrite emit_LE64 by (done || lia). }
  cbn [bind]. unfold header_bytes. fold did fcs ss. do 2 f_equal.
  all: unfold h3, h2, h1; by rewrite <- !app_assoc.
Qed.

End write.

(** *** Reading back *)

Lemma rd_did c :
  0 <= c <= 3 -> rd ZSTD_did_fieldSize c = Ok (if c =? 0 then 0 else if c =? 1 then 1 else if c =? 2 then 2 else 4).
Proof.
  intros. assert (c = 0 \/ c = 1 \/ c = 2 \/ c = 3) as [-> | [-> | [-> | ->]]] by lia; reflexivity.
Qed.
Lemma rd_fcs c :
  0 <= c <= 3 -> rd ZSTD_fcs_fieldSize c = Ok (if c =? 0 then 0 else if c =? 1 then 2 else if c =? 2 then 4 else 8).
Proof.
  intros. assert (c = 0 \/ c = 1 \/ c = 2 \/ c = 3) as [-> | [-> | [-> | ->]]] by lia; reflexivity.
Qed.

Lemma fhd_fields did c s fcs :
  0 <= did <= 3 -> 0 <= fcs <= 3 ->
  let b := fhd_byte did c s fcs in
  b .& 3 = did /\ Z.shiftr b 2 .& 1 = b2z c /\ Z.shiftr b 5 .& 1 = b2z s /\ Z.shiftr b 6 = fcs /\
  b .& 0x08 = 0 /\ 0 <= b < 256.
Proof.
  intros Hd Hf. assert (did = 0 \/ did = 1 \/ did = 2 \/ did = 3) as Hd' by lia.
  assert (fcs = 0 \/ fcs = 1 \/ fcs = 2 \/ fcs = 3) as Hf' by lia. clear Hd Hf.
  destruct c, s; repeat match goal with H : _ \/ _ |- _ => destruct H end; subst; cbv; repeat split; discriminate.
Qed.

Lemma wl_bytes_ok s w : 10 <= w <= 31 -> bytes_ok (wl_bytes s w).
Proof. intros. unfold wl_bytes. destruct s; [apply Forall_nil_2|]. apply Forall_singleton. unfold is_byte. lia. Qed.
Lemma did_bytes_ok c d : (c = 1 -> 0 <= d < 256) -> bytes_ok (did_bytes c d).
Proof.
  intros H. unfold did_bytes. case_if; [apply Forall_nil_2|]. case_if.
  - apply Forall_singleton. unfold is_byte. apply H. lia.
  - case_if; apply le_bytes_ok.
Qed.
Lemma fcs_bytes_ok c s v : (c = 0 -> s = true -> 0 <= v < 256) -> bytes_ok (fcs_bytes c s v).
Proof.
  intros H. unfold fcs_bytes. case_if.
  - destruct s; [|apply Forall_nil_2]. apply Forall_singleton. unfold is_byte. apply H; [lia|done].
  - repeat case_if; apply le_bytes_ok.
Qed.
Lemma magic_bytes_ok format : bytes_ok (magic_bytes format).
Proof. unfold magic_bytes. case_decide; [apply le_bytes_ok|apply Forall_nil_2]. Qed.

Section fields.
Context (a c : list Z).
Hypothesis Ha : bytes_ok a.
Hypothesis Hc : bytes_ok c.

Lemma parse_window s w :
  10 <= w <= 31 ->
  header_window (a ++ wl_bytes s w ++ c) (zlen a) (b2z s)
  = Ok (if s then 0 else 2 ^ w, zlen a + zlen (wl_bytes s w)).
Proof.
  intros Hw. unfold header_window, wl_bytes. destruct s; cbn [b2z Z.eqb].
  - by rewrite Z.add_0_r.
  - rewrite parse_byte by done. cbn [bind]. unfold RETURN_ERROR_IF, ZSTD_WINDOWLOG_ABSOLUTEMIN, ZSTD_WINDOWLOG_MAX.
    assert (Z.shiftr (8 * (w - 10)) 3 + 10 = w) as ->.
    { rewrite Z.shiftr_div_pow2 by lia. change (2 ^ 3) with 8. rewrite Z.mul_comm, Z.div_mul; lia. }
    destruct (Z.gtb_spec w 31); [lia|].
    assert (8 * (w - 10) .& 7 = 0) as ->.
    { rewrite land_7, Z.mul_comm. apply Z.mod_mul. lia. }
    rewrite Z.mul_0_r, Z.add_0_r, Z.shiftl_1_l. pose proof (pow2_le w 31). pose proof (pow2_pos w).
    by rewrite !u64_small by (rewrite ?u64_small; lia).
Qed.
Lemma parse_dictID code d :
  0 <= code <= 3 -> (code = 2 -> 0 <= d < 2 ^ 16) -> (code = 3 -> 0 <= d < 2 ^ 32) ->
  header_dictID (a ++ did_bytes code d ++ c) (zlen a) code
  = Ok (if code =? 0 then 0 else d, zlen a + zlen (did_bytes code d)).
Proof.
  intros Hcode H2 H3. rewrite zlen_did_bytes by done. unfold header_dictID, did_bytes.
  destruct (Z.eqb_spec code 0); [by rewrite Z.add_0_r|]. destruct (Z.eqb_spec code 1).
  - by rewrite parse_byte by done.
  - destruct (Z.eqb_spec code 2); [rewrite parse_LE16|rewrite parse_LE32];
      first [done | apply H2; lia | apply H3; lia].
Qed.
Lemma parse_contentSize code s v :
  0 <= code <= 3 -> (code = 1 -> 256 <= v < 65792) -> (code = 2 -> 0 <= v < 2 ^ 32) -> 0 <= v < 2 ^ 64 ->
  header_contentSize (a ++ fcs_bytes code s v ++ c) (zlen a) code (b2z s)
  = Ok (if (code =? 0) && negb s then ZSTD_CONTENTSIZE_UNKNOWN else v).
Proof.
  intros Hcode H1 H2 H3. unfold header_contentSize, fcs_bytes.
  destruct (Z.eqb_spec code 0); cbn [andb negb b2z]; [destruct s; cbn; [by apply (parse_byte a c)|done]|].
  destruct (Z.eqb_spec code 1); [|destruct (Z.eqb_spec code 2)].
  - rewrite parse_LE16 by (done || lia). cbn [bind]. f_equal. lia.
  - rewrite parse_LE32; first [done | apply H2; lia].
  - by rewrite parse_LE64.
Qed.
End fields.

Section read.
Context (format : ZSTD_format_e) (fp : ZSTD_frameParameters) (windowLog size dictID : Z) (rest : list Z).
Hypothesis Hwl : 10 <= windowLog <= 31.
Hypothesis Hsize : 0 <= size < 2 ^ 64.
Hypothesis Hdid : 0 <= dictID < 2 ^ 32.
Hypothesis Hrest : bytes_ok rest.

Let did := did_code (noDictIDFlag fp) dictID.
Let fcs := fcs_code (contentSizeFlag fp) size.
Let ss := single_segment (contentSizeFlag fp) windowLog size.
Let fhd := fhd_byte did (fp_checksumFlag fp) ss fcs.
Let tail := wl_bytes ss windowLog ++ did_bytes did dictID ++ fcs_bytes fcs ss size ++ rest.
Let src := magic_bytes format ++ [fhd] ++ tail.

Local Lemma src_eq : header_bytes format fp windowLog size dictID ++ rest = src.
Proof. unfold src, tail, header_bytes. by rewrite <- !app_assoc. Qed.
Local Lemma did_bytes_okr : bytes_ok (did_bytes did dictID).
Proof. apply did_bytes_ok. pose proof (did_code_spec (noDictIDFlag fp) dictID Hdid) as H. fold did in H. lia. Qed.
Local Lemma ss_small : ss = false -> fcs = 0 -> contentSizeFlag fp = false.
Proof.
  unfold ss, single_segment, fcs. destruct (contentSizeFlag fp) eqn:E; [|done]. intros Hs Hf.
  pose proof (fcs_code_spec true size Hsize). cbn [andb] in Hs.
  rewrite Z.geb_leb in Hs. apply Z.leb_gt in Hs. pose proof (pow2_le 10 windowLog). lia.
Qed.
Local Lemma ss_flag : ss = true -> contentSizeFlag fp = true.
Proof. unfold ss, single_segment. by destruct (contentSizeFlag fp). Qed.
Local Lemma fcs_bytes_okr : bytes_ok (fcs_bytes fcs ss size).
Proof.
  apply fcs_bytes_ok. intros H Hs. pose proof (fcs_code_spec (contentSizeFlag fp) size Hsize).
  rewrite (ss_flag Hs) in *. unfold fcs in H. rewrite (ss_flag Hs) in H. lia.
Qed.
Local Lemma tail_ok : bytes_ok tail.
Proof.
  unfold tail. repeat apply bytes_ok_app; auto using wl_bytes_ok, did_bytes_okr, fcs_bytes_okr.
Qed.

Local Lemma frameHeaderSize_read :
  ZSTD_frameHeaderSize_internal src format = Ok (zlen (header_bytes format fp windowLog size dictID)).
Proof.
  rewrite zlen_header_bytes. fold ss did fcs.
  pose proof (did_range (noDictIDFlag fp) dictID Hdid) as Hd.
  pose proof (fcs_range (contentSizeFlag fp) size Hsize) as Hf. fold did in Hd. fold fcs in Hf.
  rewrite zlen_did_bytes, zlen_fcs_bytes by done.
  unfold ZSTD_frameHeaderSize_internal, RETURN_ERROR_IF. rewrite (proj2 (Z.ltb_ge _ _)).
  2:{ unfold src. rewrite !zlen_app, zlen_magic_bytes. change (zlen [fhd]) with 1. pose proof (zlen_nonneg tail). lia. }
  rewrite <- zlen_magic_bytes. unfold src. rewrite parse_byte by (auto using magic_bytes_ok, tail_ok). cbn [bind].
  pose proof (fhd_fields did (fp_checksumFlag fp) ss fcs Hd Hf) as (E1&E2&E3&E4&_). fold fhd in E1, E2, E3, E4.
  rewrite E1, E3, E4, rd_did, rd_fcs by done. cbn [bind]. clear E1 E2 E3 E4. clearbody did fcs ss fhd src tail.
  generalize (ZSTD_startingInputLength format). intros.
  assert (did = 0 \/ did = 1 \/ did = 2 \/ did = 3) as Hd' by lia.
  assert (fcs = 0 \/ fcs = 1 \/ fcs = 2 \/ fcs = 3) as Hf' by lia.
  destruct Hd' as [-> | [-> | [-> | -> ]]], Hf' as [-> | [-> | [-> | -> ]]], ss; cbn; f_equal; lia.
Qed.

Lemma read_ok :
  ZSTD_getFrameHeader_advanced (header_bytes format fp windowLog size dictID ++ rest) format
  = Ok (Filled (header_of format fp windowLog size dictID)).
Proof.
  pose proof tail_ok as Ht. pose proof (magic_bytes_ok format) as Hm. pose proof zlen_magic_bytes as Hlm.
  assert (zlen (header_bytes format fp windowLog size dictID) <= zlen src) as Hls.
  { rewrite <- src_eq, zlen_app. pose proof (zlen_nonneg rest). lia. }
  pose proof frameHeaderSize_read as Hfh.
  assert (ZSTD_startingInputLength format <= zlen src) as Hl1.
  { unfold src. rewrite !zlen_app, zlen_magic_bytes. change (zlen [fhd]) with 1. pose proof (zlen_nonneg tail). lia. }
  assert (bytes_ok [fhd]) as Hfb by (apply Forall_singleton, (fhd_range fp windowLog size dictID Hsize Hdid)).
  rewrite src_eq. unfold ZSTD_getFrameHeader_advanced.
  rewrite (proj2 (Z.ltb_ge _ _)) by done.
  assert ((if bool_decide (format <> ZSTD_f_zstd1_magicless) then readLE32 src 0 else Ok ZSTD_MAGICNUMBER)
    = Ok ZSTD_MAGICNUMBER) as ->.
  { case_bool_decide; [|done]. unfold src. destruct format; [|done]. 
    apply (parse_LE32 [] ([fhd] ++ tail)); [done|apply Forall_nil_2|by apply bytes_ok_app|].
    unfold ZSTD_MAGICNUMBER. lia. }
  cbn [bind]. rewrite Z.eqb_refl, andb_false_r, Hfh. cbn [bind].
  rewrite (proj2 (Z.ltb_ge _ _)) by done. rewrite <- zlen_magic_bytes.
  unfold src at 1. rewrite parse_byte by done. cbn [bind].
  pose proof (did_range (noDictIDFlag fp) dictID Hdid) as Hd.
  pose proof (fcs_range (contentSizeFlag fp) size Hsize) as Hf. fold did in Hd. fold fcs in Hf.
  pose proof (fhd_fields did (fp_checksumFlag fp) ss fcs Hd Hf) as (E1&E2&E3&E4&E5&E6).
  fold fhd in E1, E2, E3, E4, E5, E6. rewrite E1, E2, E3, E4, E5. cbn [negb Z.eqb RETURN_ERROR_IF].
  set (a1 := magic_bytes format ++ [fhd]).
  assert (ZSTD_startingInputLength format = zlen a1) as -> by (unfold a1; rewrite zlen_app, Hlm; change (zlen [fhd]) with 1; lia).
  assert (bytes_ok a1) as Ha1 by (by apply bytes_ok_app).
  assert (src = a1 ++ wl_bytes ss windowLog ++ did_bytes did dictID ++ fcs_bytes fcs ss size ++ rest) as ->.
  { unfold src, a1, tail. by rewrite <- app_assoc. }
  pose proof (wl_bytes_ok ss windowLog Hwl) as Hw. pose proof did_bytes_okr as Hdb. pose proof fcs_bytes_okr as Hfcb.
  rewrite parse_window by (repeat apply bytes_ok_app; done). cbn [bind].
  set (a2 := a1 ++ wl_bytes ss windowLog). rewrite <- zlen_app. fold a2.
  rewrite (app_assoc a1). fold a2. assert (bytes_ok a2) as Ha2 by (by apply bytes_ok_app).
  pose proof (did_code_spec (noDictIDFlag fp) dictID Hdid) as Hds. fold did in Hds.
  pose proof (fcs_code_spec (contentSizeFlag fp) size Hsize) as Hfs. fold fcs in Hfs.
  rewrite parse_dictID by (first [repeat apply bytes_ok_app; done|lia]). cbn [bind].
  rewrite <- zlen_app, (app_assoc a2).
  rewrite parse_contentSize by (first [repeat apply bytes_ok_app; done|lia]). cbn [bind].
  do 2 f_equal. unfold header_of. fold ss.
  assert ((if did =? 0 then 0 else dictID) = if noDictIDFlag fp then 0 else dictID) as ->.
  { destruct (Z.eqb_spec did 0), (noDictIDFlag fp); try done; destruct Hds as [[? [?|?]]|[? ?]]; congruence || lia. }
  assert ((if (fcs =? 0) && negb ss then ZSTD_CONTENTSIZE_UNKNOWN else size)
    = if contentSizeFlag fp then size else ZSTD_CONTENTSIZE_UNKNOWN) as ->.
  { pose proof ss_small as H1. pose proof ss_flag as H2.
    destruct (Z.eqb_spec fcs 0), ss; cbn [andb negb].
    - by rewrite H2.
    - by rewrite H1.
    - by rewrite H2.
    - destruct Hfs as [[? _]|[-> _]]; done. }
  assert ((if negb (b2z ss =? 0) then if contentSizeFlag fp then size else ZSTD_CONTENTSIZE_UNKNOWN
     else if ss then 0 else 2 ^ windowLog) = if ss then size else 2 ^ windowLog) as ->.
  { pose proof ss_flag as H2. destruct ss; cbn; [by rewrite H2|done]. }
  assert (0 <= (if ss then size else 2 ^ windowLog)) by (pose proof (pow2_pos windowLog); destruct ss; lia).
  rewrite u32_small; [done|]. unfold ZSTD_BLOCKSIZE_MAX. lia.
Qed.

End read.
