(* ===== verification/FrameParse.v ===== *)
(** Reading a frame header from any bytes: the reader never leaves its buffer,
    what it asks for is more than it was given, and more bytes do not change an
    answer it has given. *)

From S2P Require Import Prelude Errors Outcome Bits Mem Wire Frame FrameHeader.

(** ** Definitions *)

(** The size of the field a code of the descriptor announces. *)
Definition did_size (c : Z) : Z := if c =? 0 then 0 else if c =? 1 then 1 else if c =? 2 then 2 else 4.
Definition fcs_size (c : Z) : Z := if c =? 0 then 0 else if c =? 1 then 2 else if c =? 2 then 4 else 8.
(** The size of a header, from its descriptor. *)
Definition fh_size (format : ZSTD_format_e) (fhd : Z) : Z :=
  ZSTD_startingInputLength format + b2z (Z.shiftr fhd 5 .& 1 =? 0) + did_size (fhd .& 3)
  + fcs_size (Z.shiftr fhd 6) + b2z (negb (Z.shiftr fhd 5 .& 1 =? 0) && (Z.shiftr fhd 6 =? 0)).

(** What a header that has been read promises. *)
Definition header_wf (len : Z) (format : ZSTD_format_e) (h : ZSTD_FrameHeader) : Prop :=
  ZSTD_startingInputLength format + 1 <= headerSize h <= 18 /\ headerSize h <= len /\
  0 <= frameContentSize h < 2 ^ 64 /\ 0 <= windowSize h < 2 ^ 64 /\
  0 <= blockSizeMax h <= ZSTD_BLOCKSIZE_MAX /\ 0 <= dictID h < 2 ^ 32 /\ 0 <= checksumFlag h <= 1 /\
  (frameType h = ZSTD_skippableFrame ->
    blockSizeMax h = 0 /\ headerSize h = 8 /\ frameContentSize h < 2 ^ 32).

Definition header_error (e : ZSTD_ErrorCode) : Prop :=
  e = prefix_unknown \/ e = frameParameter_unsupported \/ e = frameParameter_windowTooLarge.

(** A short source against a magic number: what is missing is taken from it. *)
Definition completed (src : list Z) (magic : Z) : Z :=
  le_val (src ++ drop (length src) (le_bytes 4 magic)).

Definition prefix_known (head : list Z) : bool :=
  (completed head ZSTD_MAGICNUMBER =? ZSTD_MAGICNUMBER)
  || is_skippable_magic (completed head ZSTD_MAGIC_SKIPPABLE_START).

(** ** Lemmas *)

Lemma skippable_magic_spec m :
  0 <= m < 2 ^ 32 ->
  is_skippable_magic m = (ZSTD_MAGIC_SKIPPABLE_START <=? m) && (m <? ZSTD_MAGIC_SKIPPABLE_START + 16).
Proof.
  intros Hm. unfold is_skippable_magic, ZSTD_MAGIC_SKIPPABLE_MASK, ZSTD_MAGIC_SKIPPABLE_START.
  assert (m .& 0xFFFFFFF0 = 16 * (m / 16)) as ->.
  { change 0xFFFFFFF0 with (Z.ones 28 * 2 ^ 4). rewrite <- (Z.shiftl_mul_pow2 (Z.ones 28)) by lia.
    change 16 with (2 ^ 4). rewrite <- (Z.shiftr_div_pow2 m 4), (Z.mul_comm (2 ^ 4)), <- Z.shiftl_mul_pow2 by lia.
    replace m with (m mod 2 ^ 32) at 2 by (by apply Z.mod_small). rewrite <- Z.land_ones by lia.
    apply Z.bits_inj'. intros i Hi. rewrite Z.land_spec, !Z.shiftl_spec, Z.shiftr_spec' by lia.
    rewrite Z.land_spec. replace (i - 4 + 4) with i by lia. rewrite (Z.testbit_ones_nonneg 32) by lia.
    destruct (Z.ltb_spec (i - 4) 0); cbn [negb andb].
    - rewrite (Z.testbit_neg_r _ (i - 4)) by lia. apply andb_false_r.
    - f_equal. rewrite Z.testbit_ones_nonneg by lia. destruct (Z.ltb_spec (i - 4) 28), (Z.ltb_spec i 32); lia || done. }
  destruct (Z.eqb_spec (16 * (m / 16)) 0x184D2A50), (Z.leb_spec 0x184D2A50 m), (Z.ltb_spec m (0x184D2A50 + 16));
    simpl; try done; exfalso; zdm.
Qed.

Lemma byte_fields b :
  0 <= b < 256 ->
  0 <= b .& 3 <= 3 /\ 0 <= Z.shiftr b 2 .& 1 <= 1 /\ 0 <= Z.shiftr b 5 .& 1 <= 1 /\ 0 <= Z.shiftr b 6 <= 3.
Proof.
  intros. assert (forall x, x .& 1 = x mod 2) as E1 by (intros; apply (land_mask x 1); lia).
  assert (forall x, x .& 3 = x mod 4) as E3 by (intros; apply (land_mask x 2); lia). rewrite !E1, E3.
  rewrite (Z.shiftr_div_pow2 b 6) by lia. change (2 ^ 6) with 64. zdm.
Qed.

Lemma startingInputLength_range format : 1 <= ZSTD_startingInputLength format <= 5.
Proof. unfold ZSTD_startingInputLength. case_decide; lia. Qed.

Lemma fh_size_range format b :
  0 <= b < 256 -> ZSTD_startingInputLength format + 1 <= fh_size format b <= 18.
Proof.
  intros Hb. pose proof (byte_fields b Hb) as (H1 & _ & _ & H4). unfold fh_size, did_size, fcs_size.
  pose proof (startingInputLength_range format).
  destruct (Z.eqb_spec (Z.shiftr b 5 .& 1) 0), (Z.eqb_spec (Z.shiftr b 6) 0); cbn [b2z negb andb]; repeat case_if; lia.
Qed.

Lemma frameHeaderSize_eq src format :
  bytes_ok src -> ZSTD_startingInputLength format <= zlen src ->
  ZSTD_frameHeaderSize_internal src format
  = Ok (fh_size format (zat src (ZSTD_startingInputLength format - 1))).
Proof.
  intros Hb Hl. pose proof (startingInputLength_range format). unfold ZSTD_frameHeaderSize_internal, RETURN_ERROR_IF.
  rewrite (proj2 (Z.ltb_ge _ _)) by lia. rewrite rd_ok by lia. cbn [bind].
  pose proof (byte_fields _ (bytes_ok_zat src (ZSTD_startingInputLength format - 1) Hb ltac:(lia))) as (? & _ & _ & ?).
  by rewrite rd_did, rd_fcs.
Qed.

Section fields.
Context (src : list Z) (pos : Z).
Hypothesis Hb : bytes_ok src.
Hypothesis Hpos : 0 <= pos.

Lemma header_window_wp ss :
  pos + b2z (ss =? 0) <= zlen src ->
  wp (header_window src pos ss) (fun '(w, p) => p = pos + b2z (ss =? 0) /\ 0 <= w < 2 ^ 32)
    (eq frameParameter_windowTooLarge).
Proof.
  intros Hl. unfold header_window. destruct (ss =? 0); cbn [b2z] in *; [|wp_step; lia].
  wp_step. wp_step; [lia|]. pose proof (bytes_ok_zat src pos Hb ltac:(lia)) as Hv. cbv zeta.
  set (b := zat src pos) in *. wp_step; [done|]. unfold ZSTD_WINDOWLOG_ABSOLUTEMIN, ZSTD_WINDOWLOG_MAX in *.
  wp_step. split; [done|]. rewrite Z.shiftl_1_l. set (wl := Z.shiftr b 3 + 10) in *.
  assert (10 <= wl) by (unfold wl; rewrite Z.shiftr_div_pow2 by lia; zdm).
  pose proof (pow2_le wl 31 ltac:(lia)). pose proof (pow2_pos wl ltac:(lia)).
  rewrite (u64_small (2 ^ wl)) by lia. rewrite land_7, Z.shiftr_div_pow2 by lia. change (2 ^ 3) with 8.
  assert (0 <= 2 ^ wl / 8 * (b mod 8) <= 2 ^ wl / 8 * 7).
  { pose proof (Z.div_pos (2 ^ wl) 8). pose proof (Z.mod_pos_bound b 8). nia. }
  assert (2 ^ wl / 8 * 8 <= 2 ^ wl) by zdm. rewrite u64_small; lia.
Qed.

Lemma header_dictID_wp code :
  0 <= code <= 3 -> pos + did_size code <= zlen src ->
  wp (header_dictID src pos code) (fun '(d, p) => p = pos + did_size code /\ 0 <= d < 2 ^ 32) no_errors.
Proof.
  unfold header_dictID, did_size. intros Hc Hl. repeat case_if; try done; wp_step.
  - cbn. lia.
  - wp_step; [lia|]. pose proof (bytes_ok_zat src pos Hb ltac:(lia)). cbn. lia.
  - apply wp_readLE16; [done|lia..|]. intros. cbn. lia.
  - apply wp_readLE32; [done|lia..|]. intros. cbn. lia.
Qed.

Lemma header_contentSize_wp code ss :
  0 <= code <= 3 -> pos + fcs_size code + b2z (negb (ss =? 0) && (code =? 0)) <= zlen src ->
  wp (header_contentSize src pos code ss) (fun n => 0 <= n < 2 ^ 64) no_errors.
Proof.
  unfold header_contentSize, fcs_size, ZSTD_CONTENTSIZE_UNKNOWN. intros Hc Hl.
  destruct (Z.eqb_spec code 0); [|destruct (Z.eqb_spec code 1); [|destruct (Z.eqb_spec code 2)]].
  - destruct (ss =? 0); cbn [negb andb b2z] in *; [apply wp_Ok; lia|].
    wp_step; [lia|]. pose proof (bytes_ok_zat src pos Hb ltac:(lia)). lia.
  - wp_step. rewrite andb_false_r in Hl. cbn [b2z] in Hl. apply wp_readLE16; [done|lia..|]. intros. apply wp_Ok. lia.
  - rewrite andb_false_r in Hl. cbn [b2z] in Hl. apply wp_readLE32; [done|lia..|]. intros. lia.
  - rewrite andb_false_r in Hl. cbn [b2z] in Hl. by apply wp_readLE64; [done|lia..|].
Qed.

(** The same fields of a longer source. *)
Context (ext : list Z).
Hypothesis Hext : bytes_ok ext.

Lemma header_window_app ss :
  pos + b2z (ss =? 0) <= zlen src -> header_window (src ++ ext) pos ss = header_window src pos ss.
Proof. intros Hl. unfold header_window. destruct (ss =? 0); [|done]. cbn [b2z] in Hl. by rewrite rd_app by lia. Qed.
Lemma header_dictID_app code :
  pos + did_size code <= zlen src -> header_dictID (src ++ ext) pos code = header_dictID src pos code.
Proof.
  unfold header_dictID, did_size. intros Hl. repeat case_if; try done.
  - by rewrite rd_app by lia.
  - by rewrite readLE16_app by (done || lia).
  - by rewrite readLE32_app by (done || lia).
Qed.
Lemma header_contentSize_app code ss :
  pos + fcs_size code + b2z (negb (ss =? 0) && (code =? 0)) <= zlen src ->
  header_contentSize (src ++ ext) pos code ss = header_contentSize src pos code ss.
Proof.
  unfold header_contentSize, fcs_size. intros Hl.
  destruct (Z.eqb_spec code 0); [|rewrite andb_false_r in Hl; cbn [b2z] in Hl].
  - destruct (ss =? 0); cbn [negb andb b2z] in *; [done|]. by apply rd_app; lia.
  - repeat case_if.
    + by rewrite readLE16_app by (done || lia).
    + by rewrite readLE32_app by (done || lia).
    + by rewrite readLE64_app by (done || lia).
Qed.
End fields.

(** *** The prefix *)

Section buffer.
Context (head : list Z) (m : Z).
Hypothesis Hh : bytes_ok head.
Hypothesis Hl : zlen head <= 4.
Hypothesis Hm : 0 <= m < 2 ^ 32.
Let rest := drop (length head) (le_bytes 4 m).

Lemma hbuf_len : zlen (head ++ rest) = 4.
Proof. unfold rest. rewrite zlen_app. unfold zlen in *. rewrite length_drop, length_le_bytes. lia. Qed.
Lemma hbuf_write buf : zlen buf = 4 -> writeLE32 buf 0 m = Ok (le_bytes 4 m).
Proof.
  intros Hbuf. rewrite writeLE32_spec by lia. f_equal. unfold zpatch. rewrite drop_ge; [by rewrite app_nil_r|].
  unfold zlen in Hbuf. rewrite length_le_bytes. lia.
Qed.
Lemma hbuf_memcpy : memcpy_at (le_bytes 4 m) 0 head = Ok (head ++ rest).
Proof. rewrite memcpy_at_ok by (rewrite ?zlen_le_bytes; lia). done. Qed.
Lemma hbuf_read : readLE32 (head ++ rest) 0 = Ok (completed head m).
Proof.
  pose proof hbuf_len as H4. rewrite readLE32_spec; [|apply bytes_ok_app; [done|apply Forall_drop, le_bytes_ok]|lia..].
  unfold completed. fold rest. do 2 f_equal. unfold zsub. rewrite drop_0. apply take_ge. unfold zlen in H4. lia.
Qed.
End buffer.

Lemma check_prefix_spec src format :
  bytes_ok src ->
  check_prefix src format =
    if (zlen src >? 0) && bool_decide (format <> ZSTD_f_zstd1_magicless) then
      let head := zsub src 0 (Z.min 4 (zlen src)) in
      if completed head ZSTD_MAGICNUMBER =? ZSTD_MAGICNUMBER then Ok tt
      else if is_skippable_magic (completed head ZSTD_MAGIC_SKIPPABLE_START) then Ok tt
      else Err prefix_unknown
    else Ok tt.
Proof.
  intros Hb. unfold check_prefix. destruct (_ && _) eqn:Hc; [|done]. bools. cbv zeta.
  set (head := zsub src 0 _). assert (zlen head <= 4) as Hn by (unfold head; rewrite zlen_zsub; lia).
  assert (bytes_ok head) as Hh by (by apply bytes_ok_zsub).
  rewrite hbuf_write by (done || unfold ZSTD_MAGICNUMBER; lia). cbn [bind].
  rewrite hbuf_memcpy by (done || lia). cbn [bind].
  rewrite hbuf_read by (done || unfold ZSTD_MAGICNUMBER; lia). cbn [bind].
  destruct (_ =? _); cbn [negb]; [done|].
  rewrite hbuf_write by (first [unfold ZSTD_MAGIC_SKIPPABLE_START; lia | by apply hbuf_len]). cbn [bind].
  rewrite hbuf_memcpy by (done || lia). cbn [bind].
  rewrite hbuf_read by (done || unfold ZSTD_MAGIC_SKIPPABLE_START; lia). cbn [bind]. by destruct (is_skippable_magic _).
Qed.

(** A magic number that can be completed from more bytes can be from fewer. *)
Lemma completed_prefix head e m m' :
  bytes_ok (head ++ e) -> zlen (head ++ e) <= 4 -> 0 <= m' < 2 ^ 32 ->
  completed (head ++ e) m = m' ->
  drop (length head) (le_bytes 4 m') = drop (length head) (le_bytes 4 m) ->
  completed head m = m'.
Proof.
  intros Hb Hl Hm' Hc Hd. unfold completed in *.
  assert ((head ++ e) ++ drop (length (head ++ e)) (le_bytes 4 m) = le_bytes 4 m') as E.
  { apply le_val_inj.
    - apply bytes_ok_app; [done|]. apply Forall_drop, le_bytes_ok.
    - apply le_bytes_ok.
    - rewrite length_app, length_drop, !length_le_bytes. unfold zlen in Hl. lia.
    - rewrite le_val_le_bytes, Hc. symmetry. by apply Z.mod_small. }
  rewrite <- app_assoc in E. assert (head = take (length head) (le_bytes 4 m')) as Eh.
  { rewrite <- E. by rewrite take_app_length. }
  rewrite <- Hd. rewrite Eh at 1. rewrite take_drop, le_val_le_bytes. by apply Z.mod_small.
Qed.

Lemma skippable_tail m :
  ZSTD_MAGIC_SKIPPABLE_START <= m < ZSTD_MAGIC_SKIPPABLE_START + 16 ->
  drop 1 (le_bytes 4 m) = drop 1 (le_bytes 4 ZSTD_MAGIC_SKIPPABLE_START).
Proof.
  intros Hm. pose proof (forallb_range
    (fun m => bool_decide (drop 1 (le_bytes 4 m) = drop 1 (le_bytes 4 ZSTD_MAGIC_SKIPPABLE_START)))
    ZSTD_MAGIC_SKIPPABLE_START (ZSTD_MAGIC_SKIPPABLE_START + 16) eq_refl m Hm) as H.
  by apply bool_decide_eq_true in H.
Qed.

Lemma completed_range head m : bytes_ok head -> zlen head <= 4 -> 0 <= completed head m < 2 ^ 32.
Proof.
  intros Hb Hl. unfold completed.
  pose proof (le_val_range (head ++ drop (length head) (le_bytes 4 m))) as R.
  rewrite hbuf_len in R by done. apply R. apply bytes_ok_app; [done|]. apply Forall_drop, le_bytes_ok.
Qed.

Lemma prefix_known_prefix head e :
  bytes_ok (head ++ e) -> zlen (head ++ e) <= 4 -> head <> [] ->
  prefix_known (head ++ e) = true -> prefix_known head = true.
Proof.
  intros Hb Hl Hne Hk. unfold prefix_known in *. apply orb_true_iff in Hk. apply orb_true_iff.
  destruct Hk as [Hk|Hk]; [left|right].
  - bools. apply Z.eqb_eq. apply completed_prefix with e; done.
  - pose proof (completed_range _ ZSTD_MAGIC_SKIPPABLE_START Hb Hl) as Hr.
    pose proof Hk as Hs. rewrite skippable_magic_spec in Hs by done. bools.
    rewrite (completed_prefix head e _ _ Hb Hl Hr eq_refl); [done|].
    destruct head as [|b head]; [done|]. change (length (b :: head)) with (1 + length head)%nat.
    rewrite <- !drop_drop. rewrite skippable_tail; [done|lia].
Qed.

Lemma prefix_result src format :
  bytes_ok src -> zlen src < ZSTD_startingInputLength format ->
  check_prefix src format = Ok tt \/
  check_prefix src format = Err prefix_unknown /\ format = ZSTD_f_zstd1 /\
    src <> [] /\ zlen src <= 4 /\ prefix_known src = false.
Proof.
  intros Hb Hl. rewrite check_prefix_spec by done. destruct (_ && _) eqn:Hc; [|by left].
  bools. apply bool_decide_eq_true in H0. assert (format = ZSTD_f_zstd1) as -> by (by destruct format).
  change (ZSTD_startingInputLength ZSTD_f_zstd1) with 5 in Hl. cbv zeta.
  assert (zsub src 0 (Z.min 4 (zlen src)) = src) as ->.
  { unfold zsub. rewrite drop_0. apply take_ge. unfold zlen in *. lia. }
  unfold prefix_known. destruct (_ =? _); [by left|]. destruct (is_skippable_magic _); [by left|].
  right. repeat split; try done; [by destruct src|lia].
Qed.

(** With four bytes or more the test of the prefix is the test of the magic. *)
Lemma prefix_known_read src m :
  bytes_ok src -> 4 <= zlen src -> readLE32 src 0 = Ok m ->
  (m =? ZSTD_MAGICNUMBER) || is_skippable_magic m = prefix_known (zsub src 0 4).
Proof.
  intros Hb Hl Hm. rewrite readLE32_spec in Hm by (done || lia). injection Hm as <-.
  unfold prefix_known, completed. assert (length (zsub src 0 4) = 4%nat) as ->.
  { pose proof (zlen_zsub src 0 4) as H. unfold zlen in *. lia. }
  change (drop 4 (le_bytes 4 ZSTD_MAGICNUMBER)) with (@nil Z).
  change (drop 4 (le_bytes 4 ZSTD_MAGIC_SKIPPABLE_START)) with (@nil Z). by rewrite app_nil_r.
Qed.

(** *** The whole header *)

Section header.
Context (src : list Z) (format : ZSTD_format_e).
Hypothesis Hb : bytes_ok src.

Lemma getFrameHeader_wp :
  wp (ZSTD_getFrameHeader_advanced src format)
    (fun st => match st with
               | Filled h => header_wf (zlen src) format h
               | Wanted n => zlen src < n <= 18
               end) header_error.
Proof.
  pose proof (startingInputLength_range format) as Hmin. pose proof (zlen_nonneg src).
  unfold ZSTD_getFrameHeader_advanced. cbv zeta. wp_step.
  { wp_step. destruct (prefix_result src format Hb) as [->|[-> _]]; [done|cbn; lia|by left]. }
  wp_step. eapply (wp_mono _ (fun m => 0 <= m < 2 ^ 32 /\ (format = ZSTD_f_zstd1_magicless -> m = ZSTD_MAGICNUMBER)) _ no_errors);
    [| |done].
  { case_bool_decide; [|cbn; unfold ZSTD_MAGICNUMBER; lia].
    assert (format = ZSTD_f_zstd1) as -> by (by destruct format). change (ZSTD_startingInputLength ZSTD_f_zstd1) with 5 in *.
    apply wp_readLE32; [done|lia..|]. intros. split; [done|discriminate]. }
  intros magic [Hm Hml]. apply wp_if; intros Hcm.
  { assert (format = ZSTD_f_zstd1) as -> by (by destruct format).
    change (ZSTD_startingInputLength ZSTD_f_zstd1) with 5 in *. wp_step; [|by left].
    wp_step; [unfold ZSTD_SKIPPABLEHEADERSIZE in *; cbn; lia|]. unfold ZSTD_SKIPPABLEHEADERSIZE, ZSTD_FRAMEIDSIZE in *.
    wp_step. apply wp_readLE32; [done|lia..|]. intros fcs Hfcs.
    pose proof (u32_range (magic - ZSTD_MAGIC_SKIPPABLE_START)).
    unfold header_wf, ZSTD_BLOCKSIZE_MAX. cbn -[u32 Z.pow]. change (ZSTD_startingInputLength ZSTD_f_zstd1) with 5. lia. }
  rewrite frameHeaderSize_eq by done. wp_step. cbn [wp].
  set (b := zat src (ZSTD_startingInputLength format - 1)).
  assert (is_byte b) as Hbb by (apply bytes_ok_zat; [done|lia]). pose proof (fh_size_range format b Hbb) as Hfs.
  wp_step; [cbn; lia|]. wp_step. wp_step; [lia|]. fold b. wp_step; [by right; left|].
  pose proof (byte_fields b Hbb) as (H1 & H2 & H3 & H4).
  assert (fh_size format b = ZSTD_startingInputLength format + b2z (Z.shiftr b 5 .& 1 =? 0) + did_size (b .& 3)
    + fcs_size (Z.shiftr b 6) + b2z (negb (Z.shiftr b 5 .& 1 =? 0) && (Z.shiftr b 6 =? 0))) as Efs by done.
  pose proof (b2z_range (Z.shiftr b 5 .& 1 =? 0)).
  pose proof (b2z_range (negb (Z.shiftr b 5 .& 1 =? 0) && (Z.shiftr b 6 =? 0))).
  assert (0 <= did_size (b .& 3) <= 4) by (unfold did_size; repeat case_if; lia).
  assert (0 <= fcs_size (Z.shiftr b 6) <= 8) by (unfold fcs_size; repeat case_if; lia).
  wp_step. eapply wp_mono; [apply header_window_wp; done || lia| |by intros ? <-; right; right].
  intros [w p] [-> Hw]. wp_step.
  eapply wp_mono; [apply header_dictID_wp; done || lia| |done].
  intros [d p] [-> Hd]. wp_step.
  eapply wp_mono; [apply header_contentSize_wp; done || lia| |done].
  intros n Hn. cbv beta in Hn. wp_step. unfold header_wf. cbn -[u32 Z.pow Z.min].
  set (ws := if negb _ then n else w). assert (0 <= ws < 2 ^ 64) by (unfold ws; case_if; lia).
  rewrite u32_small by (unfold ZSTD_BLOCKSIZE_MAX; lia). unfold ZSTD_BLOCKSIZE_MAX.
  split_and!; first [lia|done].
Qed.

Section app.
Context (ext : list Z).
Hypothesis Hext : bytes_ok ext.

Lemma getFrameHeader_app_long :
  ZSTD_startingInputLength format <= zlen src ->
  match ZSTD_getFrameHeader_advanced src format with
  | Ok (Wanted _) => True
  | r => ZSTD_getFrameHeader_advanced (src ++ ext) format = r
  end.
Proof.
  intros Hl. pose proof (startingInputLength_range format) as Hmin. pose proof (zlen_nonneg ext).
  assert (bytes_ok (src ++ ext)) as Hbe by (by apply bytes_ok_app).
  assert (zlen src <= zlen (src ++ ext)) as Hle by (rewrite zlen_app; lia).
  unfold ZSTD_getFrameHeader_advanced. cbv zeta.
  rewrite !(proj2 (Z.ltb_ge _ (ZSTD_startingInputLength format))) by lia.
  assert ((if bool_decide (format <> ZSTD_f_zstd1_magicless) then readLE32 (src ++ ext) 0 else Ok ZSTD_MAGICNUMBER)
    = (if bool_decide (format <> ZSTD_f_zstd1_magicless) then readLE32 src 0 else Ok ZSTD_MAGICNUMBER)) as ->.
  { case_bool_decide; [|done]. assert (format = ZSTD_f_zstd1) as E by (by destruct format). rewrite E in Hl.
    change (ZSTD_startingInputLength ZSTD_f_zstd1) with 5 in Hl. by apply readLE32_app; lia || done. }
  destruct (if bool_decide _ then _ else _) as [magic| |]; cbn [bind]; [|done..].
  destruct (_ && _).
  - destruct (is_skippable_magic magic); [|done]. unfold ZSTD_SKIPPABLEHEADERSIZE, ZSTD_FRAMEIDSIZE.
    destruct (Z.ltb_spec (zlen src) 8); [done|]. rewrite (proj2 (Z.ltb_ge _ _)) by lia.
    rewrite readLE32_app by (done || lia). by destruct (readLE32 src 4).
  - rewrite !frameHeaderSize_eq by (done || lia). rewrite zat_app_l by lia. cbn [bind].
    set (b := zat src (ZSTD_startingInputLength format - 1)).
    destruct (Z.ltb_spec (zlen src) (fh_size format b)); [done|]. rewrite (proj2 (Z.ltb_ge _ _)) by lia.
    rewrite rd_app by lia. rewrite rd_ok by lia. fold b. cbn [bind].
    unfold RETURN_ERROR_IF. destruct (negb _); [done|]. unfold fh_size in *.
    assert (is_byte b) as Hbb by (apply bytes_ok_zat; [done|lia]).
    pose proof (b2z_range (Z.shiftr b 5 .& 1 =? 0)). pose proof (byte_fields b Hbb) as (Hc & _).
    pose proof (b2z_range (negb (Z.shiftr b 5 .& 1 =? 0) && (Z.shiftr b 6 =? 0))).
    assert (0 <= did_size (b .& 3) <= 4) by (unfold did_size; repeat case_if; lia).
    assert (0 <= fcs_size (Z.shiftr b 6) <= 8) by (unfold fcs_size; repeat case_if; lia).
    rewrite header_window_app by (done || lia).
    pose proof (header_window_wp src (ZSTD_startingInputLength format) Hb ltac:(lia) (Z.shiftr b 5 .& 1) ltac:(lia)) as Hw.
    destruct (header_window src _ _) as [[w p]| |]; cbn [bind]; [|done..]. destruct Hw as [-> _].
    rewrite header_dictID_app by (done || lia).
    pose proof (header_dictID_wp src (ZSTD_startingInputLength format + b2z (Z.shiftr b 5 .& 1 =? 0)) Hb ltac:(lia) (b .& 3) Hc ltac:(lia)) as Hd.
    destruct (header_dictID src _ _) as [[d p]| |]; cbn [bind]; [|done..]. destruct Hd as [-> _].
    rewrite header_contentSize_app by (done || lia). by destruct (header_contentSize src _ _ _).
Qed.

Lemma getFrameHeader_app_short :
  zlen src < ZSTD_startingInputLength format ->
  match ZSTD_getFrameHeader_advanced src format with
  | Ok (Wanted _) => True
  | r => ZSTD_getFrameHeader_advanced (src ++ ext) format = r
  end.
Proof.
  intros Hl. unfold ZSTD_getFrameHeader_advanced at 1. cbv zeta. rewrite (proj2 (Z.ltb_lt _ _)) by done.
  destruct (prefix_result src format Hb Hl) as [->|(-> & -> & Hne & Hl4 & Hk)]; [done|]. cbn [bind].
  assert (bytes_ok (src ++ ext)) as Hbe by (by apply bytes_ok_app).
  assert (forall e, bytes_ok (src ++ e) -> zlen (src ++ e) <= 4 -> prefix_known (src ++ e) = false) as Hext'.
  { intros e He Hle. apply not_true_iff_false. intros Ht. apply prefix_known_prefix in Ht; [congruence|done..]. }
  unfold ZSTD_getFrameHeader_advanced. cbv zeta. change (ZSTD_startingInputLength ZSTD_f_zstd1) with 5 in *.
  destruct (Z.ltb_spec (zlen (src ++ ext)) 5) as [Hs5|Hs5].
  - destruct (prefix_result (src ++ ext) ZSTD_f_zstd1 Hbe Hs5) as [E|[-> _]]; [|done].
    rewrite check_prefix_spec in E by done. pose proof (zlen_nonneg ext).
    assert (0 < zlen src) by (destruct src; [done|unfold zlen; simpl; lia]).
    rewrite (proj2 (Z.gtb_lt _ 0)) in E by (rewrite zlen_app in *; lia). cbn [andb] in E.
    rewrite bool_decide_eq_true_2 in E by done. cbv zeta in E.
    assert (zsub (src ++ ext) 0 (Z.min 4 (zlen (src ++ ext))) = src ++ ext) as Ez.
    { unfold zsub. rewrite drop_0. apply take_ge. unfold zlen in *. lia. }
    rewrite Ez in E. pose proof (Hext' ext Hbe ltac:(lia)) as Hf. unfold prefix_known in Hf.
    apply orb_false_iff in Hf as [H1 H2]. rewrite H1, H2 in E. done.
  - rewrite bool_decide_eq_true_2 by done. cbn [andb].
    destruct (readLE32 (src ++ ext) 0) as [m| |] eqn:Em.
    2-3: by rewrite readLE32_spec in Em by (done || lia).
    cbn [bind]. pose proof (prefix_known_read _ m Hbe ltac:(lia) Em) as Hkn.
    assert (zsub (src ++ ext) 0 4 = src ++ zsub ext 0 (4 - zlen src)) as Ez.
    { unfold zsub. rewrite !drop_0, take_app_ge by (unfold zlen in *; lia). do 2 f_equal. unfold zlen. lia. }
    rewrite Ez, Hext' in Hkn.
    + apply orb_false_iff in Hkn as [H1 H2]. by rewrite H1, H2.
    + apply bytes_ok_app; [done|by apply bytes_ok_zsub].
    + rewrite zlen_app in *. rewrite zlen_zsub; lia.
Qed.
End app.

End header.

(** ** Properties *)

(** C26: a frame header that is written is read back. [ZSTD_writeFrameHeader]
    succeeds in any destination of 18 bytes, writes between 2 and 18 bytes and
    leaves the rest of the destination alone; reading these bytes, whatever
    follows them, gives the content size (when it was to be stored), the window
    size, the dictionary id and the checksum flag that were written, and the
    size of the header. *)
Theorem frame_header_roundtrip (dst : list Z) format fp windowLog pledgedSrcSize dictID :
  10 <= windowLog <= 31 -> 0 <= pledgedSrcSize < 2 ^ 64 -> 0 <= dictID < 2 ^ 32 -> 18 <= zlen dst ->
  exists dst' n,
    ZSTD_writeFrameHeader dst format fp windowLog pledgedSrcSize dictID = Ok (dst', n) /\
    2 <= n <= 18 /\ zlen dst' = zlen dst /\ (forall i, n <= i < zlen dst -> zat dst' i = zat dst i) /\
    forall rest, bytes_ok rest ->
      let fcs := if contentSizeFlag fp then pledgedSrcSize else ZSTD_CONTENTSIZE_UNKNOWN in
      let window :=
        if contentSizeFlag fp && (pledgedSrcSize <=? 2 ^ windowLog) then pledgedSrcSize
        else 2 ^ windowLog in
      ZSTD_getFrameHeader_advanced (zsub dst' 0 n ++ rest) format
      = Ok (Filled (mkFrameHeader fcs window (Z.min window ZSTD_BLOCKSIZE_MAX) ZSTD_frame n
              (if noDictIDFlag fp then 0 else dictID) (b2z (fp_checksumFlag fp)))).
Proof.
  intros Hwl Hs Hd Hl. pose proof (header_length format fp windowLog pledgedSrcSize dictID Hwl Hs Hd) as Hn.
  eexists _, _. split; [by apply write_ok|]. set (h := header_bytes _ _ _ _ _) in *.
  split; [done|]. split; [apply zlen_zpatch; lia|]. split.
  - intros i Hi. rewrite zat_zpatch by lia. destruct (Z.ltb_spec i (0 + zlen h)); [lia|]. by rewrite andb_false_r.
  - intros rest Hr. cbv zeta. rewrite zsub_zpatch_0 by lia. unfold h. rewrite read_ok by done.
    unfold header_of, single_segment. by rewrite Z.geb_leb.
Qed.

Lemma frame_header_roundtrip_witness :
  exists dst' n,
    ZSTD_writeFrameHeader (zfill 18 0) ZSTD_f_zstd1 (mkFrameParams true true false) 20 70000 300 = Ok (dst', n) /\
    ZSTD_getFrameHeader_advanced (zsub dst' 0 n ++ [1; 2; 3]) ZSTD_f_zstd1
    = Ok (Filled (mkFrameHeader 70000 70000 70000 ZSTD_frame n 300 1)).
Proof.
  destruct (frame_header_roundtrip (zfill 18 0) ZSTD_f_zstd1 (mkFrameParams true true false) 20 70000 300)
    as (dst' & n & H & _ & _ & _ & Hr); [lia|lia|lia|vm_compute; discriminate|].
  exists dst', n. split; [exact H|]. apply (Hr [1; 2; 3]). bytes_dec.
Defined.

(** C32: reading a frame header is safe on any bytes. The reader never reads
    outside its source; it fails only on an unknown prefix, a reserved bit or a
    window that is too large; when it asks for more input, it asks for more
    than it was given and for at most 18 bytes; a header it returns lies inside
    the source, and its fields are within the ranges of the format. *)
Theorem ZSTD_getFrameHeader_safe (src : list Z) (format : ZSTD_format_e) :
  bytes_ok src ->
  match ZSTD_getFrameHeader_advanced src format with
  | Ok (Filled h) => header_wf (zlen src) format h
  | Ok (Wanted n) => zlen src < n <= 18
  | Err e => header_error e
  | Stuck => False
  end.
Proof.
  intros Hb. pose proof (getFrameHeader_wp src format Hb) as H.
  by destruct (ZSTD_getFrameHeader_advanced src format) as [[]| |].
Qed.

Lemma ZSTD_getFrameHeader_safe_witness :
  match ZSTD_getFrameHeader_advanced [0x28; 0xB5; 0x2F; 0xFD; 0x20; 7; 1; 0; 0] ZSTD_f_zstd1 with
  | Ok (Filled h) => header_wf 9 ZSTD_f_zstd1 h
  | Ok (Wanted n) => 9 < n <= 18
  | Err e => header_error e
  | Stuck => False
  end.
Proof. apply (ZSTD_getFrameHeader_safe [0x28; 0xB5; 0x2F; 0xFD; 0x20; 7; 1; 0; 0] ZSTD_f_zstd1). bytes_dec. Defined.

(** The answer of the reader is stable. A header or an error that was
    found in some bytes is also found when more bytes follow: a streaming
    caller may feed the source piece by piece. In particular the check of a
    prefix shorter than the magic number never rejects the beginning of a
    frame that is accepted later. *)
Theorem ZSTD_getFrameHeader_stable (src ext : list Z) (format : ZSTD_format_e) :
  bytes_ok src -> bytes_ok ext ->
  match ZSTD_getFrameHeader_advanced src format with
  | Ok (Wanted _) => True
  | r => ZSTD_getFrameHeader_advanced (src ++ ext) format = r
  end.
Proof.
  intros Hb He. destruct (Z.ltb_spec (zlen src) (ZSTD_startingInputLength format)).
  - by apply getFrameHeader_app_short.
  - by apply getFrameHeader_app_long.
Qed.

Lemma ZSTD_getFrameHeader_stable_witness :
  match ZSTD_getFrameHeader_advanced [0x28; 0xB4] ZSTD_f_zstd1 with
  | Ok (Wanted _) => True
  | r => ZSTD_getFrameHeader_advanced ([0x28; 0xB4] ++ [0x2F; 0xFD; 0x20; 7]) ZSTD_f_zstd1 = r
  end.
Proof. apply (ZSTD_getFrameHeader_stable [0x28; 0xB4] [0x2F; 0xFD; 0x20; 7]); bytes_dec. Defined.
