(* ===== verification/FrameWalk.v ===== *)
(** Walking over a sequence of frames without decompressing it: block headers,
    skippable frames, the size of a frame, the bounds on what it holds. *)

From S2P Require Import Prelude Errors Outcome Bits Mem Wire Frame FrameHeader FrameParse.

(** ** Definitions *)

(** What is known of a frame that could be delimited. *)
Definition info_ok (len : Z) (i : ZSTD_frameSizeInfo) : Prop :=
  0 < compressedSize i <= len /\ 0 <= nbBlocks i <= len /\ 0 <= decompressedBound i < 2 ^ 64.
(** An error in the place of a size. *)
Definition info_error (i : ZSTD_frameSizeInfo) : Prop := ERR_isError (compressedSize i) = true.

(** The bytes of a block: its header and its payload. *)
Definition block_bytes (last : Z) (ty : blockType_e) (size : Z) (payload : list Z) : list Z :=
  le_bytes 3 (last + 2 * blockType_code ty + 8 * size) ++ payload.

(** A block as a writer emits it: content copied as it is, or a byte repeated. *)
Inductive raw_or_rle :=
| RawBlock (content : list Z)
| RleBlock (byte count : Z).

Definition block_ok (b : raw_or_rle) : Prop :=
  match b with
  | RawBlock c => bytes_ok c /\ zlen c < 2 ^ 21
  | RleBlock v n => is_byte v /\ 0 <= n < 2 ^ 21
  end.
Definition block_type (b : raw_or_rle) : blockType_e :=
  match b with RawBlock _ => bt_raw | RleBlock _ _ => bt_rle end.
Definition block_size (b : raw_or_rle) : Z :=
  match b with RawBlock c => zlen c | RleBlock _ n => n end.
Definition block_payload (b : raw_or_rle) : list Z :=
  match b with RawBlock c => c | RleBlock v _ => [v] end.
Definition block_content (b : raw_or_rle) : list Z :=
  match b with RawBlock c => c | RleBlock v n => zfill n v end.

(** The writer and the reader of one block. *)
Definition write_block (dst : list Z) (b : raw_or_rle) (last : Z) : result (list Z * Z) :=
  match b with
  | RawBlock c => ZSTD_noCompressBlock dst c last
  | RleBlock v n => ZSTD_rleCompressBlock dst v n last
  end.
Definition read_block (dst src : list Z) : result (list Z * Z) :=
  let* '(cSize, bp) := ZSTD_getcBlockSize src in
  let payload := zsub src ZSTD_blockHeaderSize cSize in
  match blockType bp with
  | bt_raw => ZSTD_copyRawBlock false dst payload
  | bt_rle => let* b := rd payload 0 in ZSTD_setRleBlock false dst b (origSize bp)
  | _ => Err corruption_detected
  end.

(** The blocks of a frame, the last one marked. *)
Fixpoint blocks_bytes (bs : list raw_or_rle) : list Z :=
  match bs with
  | [] => []
  | b :: bs' =>
      block_bytes (match bs' with [] => 1 | _ => 0 end) (block_type b) (block_size b) (block_payload b)
      ++ blocks_bytes bs'
  end.

(** ** Lemmas *)

Lemma loop_sim {T R} (b1 b2 : T -> result (flow T R)) (I : T -> Prop) (P : R -> Prop) :
  (forall s, I s -> match b1 s with
                    | Ok (Continue s') => b2 s = Ok (Continue s') /\ I s'
                    | Ok (Break r) => P r -> b2 s = Ok (Break r)
                    | _ => True
                    end) ->
  forall fuel s r, I s -> P r -> loop_ fuel b1 s = Ok r -> loop_ fuel b2 s = Ok r.
Proof.
  intros Hstep fuel. induction fuel as [|fuel IH]; intros s r HI Hr; simpl; [done|].
  specialize (Hstep s HI). destruct (b1 s) as [[s'|r']| |]; simpl; intros H; try done.
  - destruct Hstep as [-> HI']. simpl. by apply IH.
  - injection H as ->. by rewrite Hstep.
Qed.

(** *** Blocks *)

Lemma getcBlockSize_wp src :
  bytes_ok src ->
  wp (ZSTD_getcBlockSize src) (fun '(n, bp) =>
      0 <= n < 2 ^ 21 /\ 0 <= lastBlock bp <= 1 /\ blockType bp <> bt_reserved /\
      0 <= origSize bp < 2 ^ 21 /\ (blockType bp = bt_rle -> n = 1) /\
      (blockType bp <> bt_rle -> n = origSize bp))
    (fun e => e = Errors.srcSize_wrong /\ zlen src < 3 \/ e = corruption_detected).
Proof.
  intros Hb. unfold ZSTD_getcBlockSize, ZSTD_blockHeaderSize. wp_step; [auto|].
  wp_step. apply wp_readLE24; [done|lia..|]. intros v Hv. cbv zeta. cbn [blockType lastBlock origSize].
  assert (0 <= Z.shiftr v 3 < 2 ^ 21).
  { rewrite Z.shiftr_div_pow2 by lia. change (2 ^ 3) with 8.
    change (2 ^ 21) with 2097152. change (2 ^ 24) with 16777216 in Hv. zdm. }
  assert (0 <= v .& 1 <= 1).
  { assert (v .& 1 = v mod 2) as -> by (apply (land_mask v 1); lia). zdm. }
  destruct (decide _) as [E|E].
  - cbn. rewrite E. split_and!; try done; lia.
  - wp_step; [auto|]. cbn. apply bool_decide_eq_false in Hc0. split_and!; try done; lia.
Qed.

Lemma block_header_fields last t size :
  0 <= last <= 1 -> 0 <= t <= 3 -> 0 <= size < 2 ^ 21 ->
  let h := last + 2 * t + 8 * size in
  0 <= h < 2 ^ 24 /\ Z.shiftr h 3 = size /\ Z.shiftr h 1 .& 3 = t /\ h .& 1 = last.
Proof.
  intros Hl Ht Hs. cbv zeta. split; [lia|].
  assert (forall x, x .& 1 = x mod 2) as E1 by (intros; apply (land_mask x 1); lia).
  assert (forall x, x .& 3 = x mod 4) as E3 by (intros; apply (land_mask x 2); lia).
  rewrite E1, E3, !Z.shiftr_div_pow2 by lia. change (2 ^ 3) with 8. change (2 ^ 1) with 2.
  split_and!; zdm.
Qed.

Lemma getcBlockSize_block last ty size payload rest :
  0 <= last <= 1 -> 0 <= size < 2 ^ 21 -> ty <> bt_reserved -> bytes_ok payload -> bytes_ok rest ->
  ZSTD_getcBlockSize (block_bytes last ty size payload ++ rest)
  = Ok (if decide (ty = bt_rle) then 1 else size, mkBlockProperties ty last size).
Proof.
  intros Hl Hs Hty Hp Hr. unfold ZSTD_getcBlockSize, RETURN_ERROR_IF, block_bytes, ZSTD_blockHeaderSize.
  assert (0 <= blockType_code ty <= 3) as Ht by (destruct ty; cbn; lia).
  pose proof (block_header_fields last (blockType_code ty) size Hl Ht Hs) as (H0 & H1 & H2 & H3).
  set (h := last + _ + _) in *. rewrite (proj2 (Z.ltb_ge _ _)).
  2:{ rewrite !zlen_app, zlen_le_bytes. pose proof (zlen_nonneg payload). pose proof (zlen_nonneg rest). lia. }
  rewrite <- app_assoc. assert (readLE24 (le_bytes 3 h ++ payload ++ rest) 0 = Ok h) as ->.
  { apply (parse_LE24 [] (payload ++ rest)); [done|apply Forall_nil_2|by apply bytes_ok_app|done]. }
  cbn [bind].
  rewrite H1, H2, H3. cbn [blockType]. assert (blockType_of (blockType_code ty) = ty) as -> by (by destruct ty).
  case_decide; [done|]. by rewrite bool_decide_eq_false_2.
Qed.

Lemma zlen_block_bytes last ty size payload : zlen (block_bytes last ty size payload) = 3 + zlen payload.
Proof. unfold block_bytes. by rewrite zlen_app, zlen_le_bytes. Qed.
Lemma block_bytes_ok last ty size payload : bytes_ok payload -> bytes_ok (block_bytes last ty size payload).
Proof. intros. apply bytes_ok_app; [apply le_bytes_ok|done]. Qed.

Lemma iterate_blocks_wp src ip0 :
  bytes_ok src -> 0 <= ip0 <= zlen src ->
  wp (iterate_blocks src ip0) (fun '(ip, n) => ip0 < ip <= zlen src /\ 0 < n <= zlen src)
    (fun e => e = Errors.srcSize_wrong \/ e = corruption_detected).
Proof.
  intros Hb Hip. unfold iterate_blocks.
  apply (wp_loop (fun '(ip, n) => ip0 <= ip <= zlen src /\ 0 <= n <= ip) (fun '(ip, _) => zlen src - ip));
    [lia|unfold zlen in *; lia|].
  intros [ip n] [H1 H2]. cbv zeta. wp_step.
  eapply wp_mono; [apply getcBlockSize_wp; auto with zlist| |cbv beta; tauto].
  intros [c bp] (Hc & Hlb & _). wp_step; [by left|]. unfold ZSTD_blockHeaderSize in *. wp_step; wp_step; lia.
Qed.

(** *** Sizes of frames *)

Lemma readSkippableFrameSize_wp src :
  bytes_ok src ->
  wp (readSkippableFrameSize src) (fun n => 8 <= n <= zlen src /\ n < 2 ^ 32) (fun e => is_real_error e = true).
Proof.
  intros Hb. unfold readSkippableFrameSize, ZSTD_SKIPPABLEHEADERSIZE, ZSTD_FRAMEIDSIZE. wp_step; [done|].
  wp_step. apply wp_readLE32; [done|lia..|]. intros v Hv. wp_step; [done|]. cbv zeta. wp_step; [done|]. wp_step.
  unfold u32 in *. assert (v + 8 < 2 ^ 32 \/ 2 ^ 32 <= v + 8) as [?|?] by lia; [lia|].
  rewrite <- (Z.mod_unique (v + 8) (2 ^ 32) 1 (v + 8 - 2 ^ 32)) in Hc0; lia.
Qed.

Lemma observe_size_wp m (Q : Z -> Prop) (E : ZSTD_ErrorCode -> Prop) E' :
  wp m Q E -> wp (observe_size m) (fun n => Q n \/ exists e, E e /\ n = ERROR e) E'.
Proof. destruct m as [a|e|]; cbn; [by left|intros; right; by exists e|done]. Qed.

Lemma header_error_real e : header_error e -> is_real_error e = true.
Proof. by intros [->|[-> | ->]]. Qed.

(** A frame that is not skippable. *)
Lemma frameSizeInfo_frame_wp src format :
  bytes_ok src ->
  wp (frameSizeInfo_frame src format) (fun i =>
      info_ok (zlen src) i /\ exists h, ZSTD_getFrameHeader_advanced src format = Ok (Filled h) /\
        (frameContentSize h <> ZSTD_CONTENTSIZE_UNKNOWN -> decompressedBound i = frameContentSize h))
    (fun e => is_real_error e = true).
Proof.
  intros Hb. unfold frameSizeInfo_frame. pose proof (getFrameHeader_wp src format Hb) as Hh.
  destruct (ZSTD_getFrameHeader_advanced src format) as [st|e|] eqn:Eh; cbn [bind];
    [|by apply header_error_real|done].
  destruct st as [h|n]; [|done]. cbn in Hh. destruct Hh as (Hh1 & Hh2 & Hfcs & _ & _ & _).
  pose proof (startingInputLength_range format). wp_step.
  eapply wp_mono; [apply iterate_blocks_wp; [done|lia]| |by intros e [-> | ->]].
  intros [ip n] [Hip Hn]. cbv zeta. wp_step; [done|]. wp_step. unfold info_ok. cbn [compressedSize nbBlocks decompressedBound].
  split; [|exists h; split; [done|]; intros ?; by rewrite (proj2 (Z.eqb_neq _ _))].
  assert ((if negb (checksumFlag h =? 0) then ip + 4 else ip) <= zlen src).
  { destruct (negb (checksumFlag h =? 0)); [|lia]. cbn [andb] in Hc. bools. lia. }
  split; [case_if; lia|]. split; [lia|]. case_if; [lia|]. apply u64_range.
Qed.

Lemma info_ok_not_error len i : len < 2 ^ 63 -> info_ok len i -> ERR_isError (compressedSize i) = false.
Proof. intros Hl (H & _). apply ERR_isError_small. lia. Qed.

Lemma getFrameHeader_skippable src m :
  bytes_ok src -> 8 <= zlen src -> readLE32 src 0 = Ok m -> is_skippable_magic m = true ->
  exists h, ZSTD_getFrameHeader src = Ok (Filled h).
Proof.
  intros Hb Hl Hm Hs. unfold ZSTD_getFrameHeader, ZSTD_getFrameHeader_advanced. cbv zeta.
  change (ZSTD_startingInputLength ZSTD_f_zstd1) with 5. rewrite (proj2 (Z.ltb_ge _ 5)) by lia.
  rewrite bool_decide_eq_true_2 by done. rewrite Hm. cbn [bind].
  destruct (Z.eqb_spec m ZSTD_MAGICNUMBER) as [->|_]; [done|]. cbn [negb andb]. rewrite Hs.
  rewrite (proj2 (Z.ltb_ge _ _)) by (unfold ZSTD_SKIPPABLEHEADERSIZE; lia).
  rewrite readLE32_spec by (done || unfold ZSTD_FRAMEIDSIZE; lia). cbn [bind]. eauto.
Qed.

Lemma getFrameHeader_not_skippable src m h :
  readLE32 src 0 = Ok m -> is_skippable_magic m = false ->
  ZSTD_getFrameHeader src = Ok (Filled h) -> frameType h = ZSTD_frame.
Proof.
  intros Hm Hs. unfold ZSTD_getFrameHeader, ZSTD_getFrameHeader_advanced. cbv zeta.
  destruct (_ <? _); [by destruct (check_prefix _ _)|]. rewrite bool_decide_eq_true_2, Hm by done. cbn [bind]. rewrite Hs.
  destruct (_ && _); [done|]. destruct (ZSTD_frameHeaderSize_internal _ _) as [n| |]; cbn [bind]; [|done..].
  destruct (_ <? _); [done|]. destruct (rd src _) as [b| |]; cbn [bind]; [|done..].
  unfold RETURN_ERROR_IF. destruct (negb _); [done|].
  destruct (header_window _ _ _) as [[w p]| |]; cbn [bind]; [|done..].
  destruct (header_dictID _ _ _) as [[d p']| |]; cbn [bind]; [|done..].
  destruct (header_contentSize _ _ _ _) as [c| |]; cbn [bind]; [|done..]. by intros [= <-].
Qed.

Lemma findFrameSizeInfo_wp src :
  bytes_ok src -> zlen src < 2 ^ 63 ->
  wp (ZSTD_findFrameSizeInfo src ZSTD_f_zstd1) (fun i =>
      info_ok (zlen src) i /\ (exists h, ZSTD_getFrameHeader src = Ok (Filled h)) \/ info_error i) no_errors.
Proof.
  intros Hb Hl. unfold ZSTD_findFrameSizeInfo, info_error. wp_step.
  eapply (wp_mono _ (fun sk => sk = true ->
    8 <= zlen src /\ exists m, readLE32 src 0 = Ok m /\ is_skippable_magic m = true) _ no_errors); [| |done].
  { wp_step; [|by wp_step]. rewrite readLE32_spec by (unfold ZSTD_SKIPPABLEHEADERSIZE in *; done || lia).
    cbn. intros. split; [done|eauto]. }
  intros sk Hsk. destruct sk.
  - destruct (Hsk eq_refl) as (H8 & m & Hm & Hms).
    wp_step. eapply wp_mono; [apply observe_size_wp, readSkippableFrameSize_wp, Hb| |done].
    intros n [Hn|(e & He & ->)]; wp_step; cbn [compressedSize].
    + left. split; [unfold info_ok; cbn [compressedSize nbBlocks decompressedBound]; lia|].
      by eapply getFrameHeader_skippable.
    + right. by rewrite ERR_isError_ERROR.
  - pose proof (frameSizeInfo_frame_wp src ZSTD_f_zstd1 Hb) as H. unfold ZSTD_getFrameHeader.
    destruct (frameSizeInfo_frame src ZSTD_f_zstd1) as [i|e|]; cbn in *; [left; naive_solver| |done].
    right. by rewrite ERR_isError_ERROR.
Qed.

(** The walk goes on only past a frame that could be delimited. *)
Lemma drop_frame src n :
  bytes_ok src -> 0 < n <= zlen src ->
  bytes_ok (drop (Z.to_nat n) src) /\ 0 <= zlen (drop (Z.to_nat n) src) < zlen src.
Proof.
  intros Hb Hn. split; [by apply Forall_drop|]. unfold zlen in *. rewrite length_drop. lia.
Qed.

Lemma decompressBound_wp src :
  bytes_ok src -> zlen src < 2 ^ 63 ->
  wp (ZSTD_decompressBound src) (fun n => 0 <= n < 2 ^ 64) no_errors.
Proof.
  intros Hb Hl. unfold ZSTD_decompressBound.
  apply (wp_loop (fun '(s, b) => bytes_ok s /\ zlen s < 2 ^ 63 /\ 0 <= b < 2 ^ 64) (fun '(s, _) => zlen s)).
  { split_and!; (done || lia). }
  { unfold zlen. lia. }
  intros [s b] (Hs & Hsl & Hbd). wp_step; [|by wp_step].
  wp_step. eapply wp_mono; [by apply findFrameSizeInfo_wp| |done]. intros i Hi.
  wp_step; [wp_step; unfold ZSTD_CONTENTSIZE_ERROR; lia|].
  destruct Hi as [[(Hc1 & _) _]|Hi]; [|unfold info_error in Hi; congruence].
  wp_step; [apply Z.leb_le; lia|]. wp_step. pose proof (u64_range (b + decompressedBound i)).
  destruct (drop_frame s _ Hs Hc1). split_and!; (done || lia).
Qed.

Lemma getFrameContentSize_wp src :
  bytes_ok src -> wp (ZSTD_getFrameContentSize src) (fun n => 0 <= n < 2 ^ 64) no_errors.
Proof.
  intros Hb. unfold ZSTD_getFrameContentSize, ZSTD_CONTENTSIZE_ERROR, ZSTD_getFrameHeader.
  pose proof (getFrameHeader_wp src ZSTD_f_zstd1 Hb) as H.
  destruct (ZSTD_getFrameHeader_advanced _ _) as [[h|n]| |]; cbn -[Z.pow] in *; [|lia..|done].
  destruct (decide _); cbn -[Z.pow]; [lia|]. apply H.
Qed.

Lemma findFrameCompressedSize_wp src :
  bytes_ok src -> zlen src < 2 ^ 63 ->
  wp (ZSTD_findFrameCompressedSize src) (fun n => ERR_isError n = true \/ 0 < n <= zlen src) no_errors.
Proof.
  intros Hb Hl. unfold ZSTD_findFrameCompressedSize. wp_step.
  eapply wp_mono; [by apply findFrameSizeInfo_wp| |done]. intros i [[(H & _) _]|H]; wp_step; [by right|by left].
Qed.

Lemma findDecompressedSize_wp src :
  bytes_ok src -> zlen src < 2 ^ 63 ->
  wp (ZSTD_findDecompressedSize src) (fun n => 0 <= n < 2 ^ 64) no_errors.
Proof.
  intros Hb Hl. unfold ZSTD_findDecompressedSize. change (ZSTD_startingInputLength ZSTD_f_zstd1) with 5.
  apply (wp_loop (fun '(s, t) => bytes_ok s /\ zlen s < 2 ^ 63 /\ 0 <= t < 2 ^ 64) (fun '(s, _) => zlen s)).
  { split_and!; (done || lia). }
  { unfold zlen. lia. }
  assert (0 <= ZSTD_CONTENTSIZE_ERROR < 2 ^ 64) as HE by (unfold ZSTD_CONTENTSIZE_ERROR; lia).
  intros [s t] (Hs & Hsl & Ht). wp_step; [|wp_step; by wp_step].
  wp_step. apply wp_readLE32; [done|lia..|]. intros m Hm. wp_step; wp_step.
  - eapply wp_mono; [apply observe_size_wp, readSkippableFrameSize_wp, Hs| |done].
    intros n [Hn|(e & He & ->)]; [|rewrite ERR_isError_ERROR, He; by wp_step].
    wp_step; [by wp_step|]. wp_step; [apply Z.leb_le; lia|]. wp_step.
    destruct (drop_frame s n Hs ltac:(lia)). split_and!; (done || lia).
  - eapply wp_mono; [by apply getFrameContentSize_wp| |done]. intros fcs Hfcs.
    wp_step; [by wp_step|]. wp_step; [by wp_step|]. wp_step.
    eapply wp_mono; [by apply findFrameCompressedSize_wp| |done]. intros n Hn.
    wp_step; [by wp_step|]. destruct Hn as [Hn|Hn]; [congruence|].
    wp_step; [apply Z.leb_le; lia|]. wp_step. pose proof (u64_range (t + fcs)).
    destruct (drop_frame s n Hs Hn). split_and!; (done || lia).
Qed.

Lemma decompressionMargin_wp src :
  bytes_ok src -> zlen src < 2 ^ 63 ->
  wp (ZSTD_decompressionMargin src) (fun n => 0 <= n < 2 ^ 64) (fun e => is_real_error e = true).
Proof.
  intros Hb Hl. unfold ZSTD_decompressionMargin. apply wp_bind.
  apply (wp_loop (fun '(s, m, b) => bytes_ok s /\ zlen s < 2 ^ 63) (fun '(s, _, _) => zlen s)).
  { done. }
  { unfold zlen. lia. }
  intros [[s m] b] (Hs & Hsl). wp_step; [|wp_step; wp_step; apply u64_range].
  wp_step. eapply wp_mono; [by apply findFrameSizeInfo_wp| |done]. intros i Hi.
  wp_step. pose proof (getFrameHeader_wp s ZSTD_f_zstd1 Hs) as Hh. unfold ZSTD_getFrameHeader in *.
  destruct (ZSTD_getFrameHeader_advanced s ZSTD_f_zstd1) as [st|e|] eqn:E; [|by apply header_error_real|done].
  cbn [wp]. wp_step; [done|].
  destruct Hi as [[(Hc1 & _) [h Hf]]|Hi]; [|unfold info_error in Hi; congruence].
  injection Hf as ->. destruct (if decide _ then _ else _) as [m' b'].
  wp_step; [apply Z.leb_le; lia|]. wp_step. destruct (drop_frame s _ Hs Hc1). split_and!; (done || lia).
Qed.

(** Where the sizes are known they are the bound. *)
Lemma findDecompressedSize_bound src n :
  bytes_ok src -> zlen src < 2 ^ 63 -> n < ZSTD_CONTENTSIZE_ERROR ->
  ZSTD_findDecompressedSize src = Ok n -> ZSTD_decompressBound src = Ok n.
Proof.
  intros Hb Hl Hn. unfold ZSTD_findDecompressedSize, ZSTD_decompressBound.
  apply (loop_sim _ _ (fun '(s, t) => bytes_ok s /\ zlen s < 2 ^ 63 /\ 0 <= t < 2 ^ 64)
    (fun r => r < ZSTD_CONTENTSIZE_ERROR)); [|split_and!; done || lia|done].
  clear. intros [s t] (Hb & Hl & Ht). change (ZSTD_startingInputLength ZSTD_f_zstd1) with 5.
  rewrite Z.geb_leb, Z.gtb_ltb. destruct (Z.leb_spec 5 (zlen s)) as [H5|H5].
  2:{ pose proof (zlen_nonneg s). destruct (Z.eqb_spec (zlen s) 0) as [E|E]; cbn [negb]; [|lia].
      intros _. by rewrite E. }
  rewrite (proj2 (Z.ltb_lt 0 _)) by lia. rewrite readLE32_spec by (done || lia). cbn [bind].
  set (m := le_val _). assert (readLE32 s 0 = Ok m) as Em by (by rewrite readLE32_spec by (done || lia)).
  unfold ZSTD_findFrameCompressedSize, ZSTD_findFrameSizeInfo. rewrite Em. cbn [bind].
  rewrite bool_decide_eq_true_2 by done. cbn [andb]. rewrite Z.geb_leb. unfold ZSTD_SKIPPABLEHEADERSIZE.
  destruct (is_skippable_magic m) eqn:Hsk.
  - pose proof (readSkippableFrameSize_wp s Hb) as Hr.
    destruct (readSkippableFrameSize s) as [k|e|] eqn:Ek; cbn [observe_size bind]; [|cbn in Hr|done].
    2:{ rewrite ERR_isError_ERROR, Hr. lia. }
    cbn in Hr. rewrite (proj2 (Z.leb_le 8 (zlen s))) by lia. cbn [bind compressedSize decompressedBound].
    rewrite ERR_isError_small by lia. rewrite (proj2 (Z.leb_le k (zlen s))) by lia. cbn [defined_if orb].
    rewrite Z.add_0_r, u64_small by lia. split; [done|].
    destruct (drop_frame s k Hb ltac:(lia)). split_and!; done || lia.
  - assert ((if 8 <=? zlen s then Ok false else Ok false) = Ok false) as -> by (by destruct (8 <=? zlen s)).
    cbn [bind]. pose proof (frameSizeInfo_frame_wp s ZSTD_f_zstd1 Hb) as Hi.
    pose proof (getFrameContentSize_wp s Hb) as Hw.
    destruct (ZSTD_getFrameContentSize s) as [fcs| |] eqn:Efcs; cbn [bind]; [|done..].
    destruct (Z.geb_spec fcs ZSTD_CONTENTSIZE_ERROR); [lia|]. destruct (Z.ltb_spec (u64 (t + fcs)) t); [lia|].
    destruct (frameSizeInfo_frame s ZSTD_f_zstd1) as [i|e|]; cbn [bind]; cbn in Hi; [|cbn|done].
    2:{ rewrite ERR_isError_ERROR, Hi. lia. }
    destruct Hi as [Hi (h & Eh & Hd)]. rewrite (info_ok_not_error _ _ Hl Hi).
    destruct Hi as (Hc & _). rewrite (proj2 (Z.leb_le _ (zlen s))) by lia. cbn [defined_if orb].
    assert (decompressedBound i = fcs) as ->.
    { unfold ZSTD_getFrameContentSize in Efcs. unfold ZSTD_getFrameHeader in Efcs. rewrite Eh in Efcs.
      rewrite (getFrameHeader_not_skippable s m h Em Hsk Eh) in Efcs. cbn in Efcs. injection Efcs as <-.
      apply Hd. unfold ZSTD_CONTENTSIZE_ERROR, ZSTD_CONTENTSIZE_UNKNOWN in *. lia. }
    rewrite (proj2 (Z.eqb_neq _ _)) by lia. split; [done|]. pose proof (u64_range (t + fcs)).
    destruct (drop_frame s _ Hb Hc). split_and!; done || lia.
Qed.

(** *** Writing and walking over blocks *)

Lemma block_payload_ok b : block_ok b -> bytes_ok (block_payload b).
Proof. destruct b; [by intros [? _]|]. intros [? _]. by apply Forall_singleton. Qed.
Lemma block_size_range b : block_ok b -> 0 <= block_size b < 2 ^ 21.
Proof. destruct b; cbn -[Z.pow]; [|tauto]. intros [_ ?]. pose proof (zlen_nonneg content). lia. Qed.
Lemma block_payload_len b :
  zlen (block_payload b) = if decide (block_type b = bt_rle) then 1 else block_size b.
Proof. by destruct b. Qed.

Lemma write_block_ok dst b last :
  block_ok b -> 0 <= last <= 1 -> 3 + zlen (block_payload b) <= zlen dst ->
  let bs := block_bytes last (block_type b) (block_size b) (block_payload b) in
  write_block dst b last = Ok (zpatch dst 0 bs, zlen bs).
Proof.
  intros Hb Hl Hd. cbv zeta. rewrite zlen_block_bytes. pose proof (block_size_range b Hb) as Hs.
  assert (forall t, 0 <= t <= 3 -> u32 (last + Z.shiftl t 1 + u32 (Z.shiftl (block_size b) 3)) = last + 2 * t + 8 * block_size b
    /\ 0 <= last + 2 * t + 8 * block_size b < 2 ^ 24) as Hh.
  { intros t Ht. rewrite !Z.shiftl_mul_pow2 by lia. rewrite (u32_small (_ * _)) by lia. rewrite u32_small; lia. }
  destruct b as [c|v n]; cbn [write_block block_type block_size block_payload] in *.
  - destruct (Hh 0 ltac:(lia)) as [E R]. unfold ZSTD_noCompressBlock, RETURN_ERROR_IF. cbv zeta.
    cbn [blockType_code]. rewrite E. unfold ZSTD_blockHeaderSize. rewrite Z.gtb_ltb, (proj2 (Z.ltb_ge _ _)) by lia.
    rewrite writeLE24_spec by lia. cbn [bind]. rewrite emit_bytes by (rewrite zlen_le_bytes; lia). done.
  - destruct (Hh 1 ltac:(lia)) as [E R]. unfold ZSTD_rleCompressBlock, RETURN_ERROR_IF. cbv zeta.
    cbn [blockType_code]. rewrite E. change (zlen [v]) with 1 in *. rewrite (proj2 (Z.ltb_ge _ _)) by lia.
    rewrite writeLE24_spec by lia. cbn [bind]. rewrite emit_byte by (rewrite zlen_le_bytes; lia). done.
Qed.

Lemma iterate_step pre b last rest :
  block_ok b -> 0 <= last <= 1 -> bytes_ok rest ->
  let bs := block_bytes last (block_type b) (block_size b) (block_payload b) in
  let src := pre ++ bs ++ rest in
  ZSTD_getcBlockSize (zsub src (zlen pre) (zlen src - zlen pre))
  = Ok (zlen bs - 3, mkBlockProperties (block_type b) last (block_size b)) /\
  zlen pre + zlen bs <= zlen src.
Proof.
  intros Hb Hl Hr. cbv zeta. set (bs := block_bytes _ _ _ _).
  assert (zsub (pre ++ bs ++ rest) (zlen pre) (zlen (pre ++ bs ++ rest) - zlen pre) = bs ++ rest) as ->.
  { rewrite <- (app_nil_r (bs ++ rest)) at 1. apply zsub_mid; [done|]. rewrite !zlen_app. lia. }
  unfold bs at 1. rewrite getcBlockSize_block; [|done|by apply block_size_range|by destruct b|by apply block_payload_ok|done].
  unfold bs. rewrite zlen_block_bytes, block_payload_len, !zlen_app, zlen_block_bytes, block_payload_len.
  pose proof (zlen_nonneg rest). split; [|lia]. do 3 f_equal. lia.
Qed.

Lemma iterate_blocks_ok pre bs rest :
  bs <> [] -> Forall block_ok bs -> bytes_ok rest ->
  iterate_blocks (pre ++ blocks_bytes bs ++ rest) (zlen pre)
  = Ok (zlen pre + zlen (blocks_bytes bs), zlen bs).
Proof.
  intros Hne Hok Hr. unfold iterate_blocks. cbv zeta.
  assert (forall fuel k pre, (length bs <= fuel)%nat ->
    loop_ fuel (fun '(ip, nb) =>
      let* '(cBlockSize, bp) := ZSTD_getcBlockSize (zsub (pre ++ blocks_bytes bs ++ rest) ip
        (zlen (pre ++ blocks_bytes bs ++ rest) - ip)) in
      ERROR_IF ZSTD_blockHeaderSize + cBlockSize >? zlen (pre ++ blocks_bytes bs ++ rest) - ip THEN Errors.srcSize_wrong ;;
      if negb (lastBlock bp =? 0) then Ok (Break (ip + (ZSTD_blockHeaderSize + cBlockSize), nb + 1))
      else Ok (Continue (ip + (ZSTD_blockHeaderSize + cBlockSize), nb + 1))) (zlen pre, k)
    = Ok (zlen pre + zlen (blocks_bytes bs), k + zlen bs)) as Hgen.
  { clear pre. revert Hne Hok. induction bs as [|b bs IH]; intros Hne Hok fuel k pre Hf; [done|].
    destruct fuel as [|fuel]; [simpl in Hf; lia|]. inversion_clear Hok. cbn [blocks_bytes loop_].
    set (last := match bs with [] => 1 | _ => 0 end). assert (0 <= last <= 1) by (unfold last; destruct bs; lia).
    rewrite <- app_assoc.
    set (bb := block_bytes last _ _ _). set (src := pre ++ bb ++ blocks_bytes bs ++ rest).
    assert (bytes_ok (blocks_bytes bs ++ rest)) as Hr2.
    { apply bytes_ok_app; [|done]. clear -H0. induction H0; cbn [blocks_bytes]; [apply Forall_nil_2|].
      apply bytes_ok_app; [|done]. by apply block_bytes_ok, block_payload_ok. }
    destruct (iterate_step pre b last (blocks_bytes bs ++ rest) H ltac:(done) Hr2) as [Es El]. fold bb src in Es, El.
    rewrite Es. cbn [bind]. unfold RETURN_ERROR_IF, ZSTD_blockHeaderSize. cbn [lastBlock].
    rewrite Z.gtb_ltb, (proj2 (Z.ltb_ge _ _)) by lia. replace (3 + (zlen bb - 3)) with (zlen bb) by lia.
    destruct bs as [|b' bs]; cbn [last] in *.
    - subst last. cbn [Z.eqb negb bind blocks_bytes]. rewrite app_nil_r. do 2 f_equal; unfold zlen; simpl; lia.
    - subst last. cbn [Z.eqb negb bind]. rewrite <- zlen_app. unfold src. rewrite (app_assoc pre).
      rewrite IH; [|done|done|simpl in *; lia]. rewrite !zlen_app. do 2 f_equal; unfold zlen; simpl length; lia. }
  rewrite Hgen; [done|]. clear Hgen Hne. rewrite !length_app.
  assert (length bs <= length (blocks_bytes bs))%nat; [|lia].
  clear. induction bs as [|b bs IH]; cbn [blocks_bytes length]; [lia|].
  unfold block_bytes. rewrite !length_app, length_le_bytes. lia.
Qed.

Lemma blocks_bytes_ok bs : Forall block_ok bs -> bytes_ok (blocks_bytes bs).
Proof.
  induction 1; cbn [blocks_bytes]; [apply Forall_nil_2|].
  apply bytes_ok_app; [|done]. by apply block_bytes_ok, block_payload_ok.
Qed.

Lemma header_magic fp wl size did rest :
  0 <= size < 2 ^ 64 -> 0 <= did < 2 ^ 32 -> 10 <= wl <= 31 -> bytes_ok rest ->
  readLE32 (header_bytes ZSTD_f_zstd1 fp wl size did ++ rest) 0 = Ok ZSTD_MAGICNUMBER.
Proof.
  intros Hs Hd Hw Hr. unfold header_bytes. rewrite <- !app_assoc.
  apply (parse_LE32 []); [done|apply Forall_nil_2| |unfold ZSTD_MAGICNUMBER; lia].
  repeat apply bytes_ok_app.
  - by apply Forall_singleton, fhd_range.
  - by apply wl_bytes_ok.
  - apply did_bytes_ok. intros E. pose proof (did_code_spec (noDictIDFlag fp) did Hd). lia.
  - apply fcs_bytes_ok. intros E Es. unfold single_segment in Es. apply andb_true_iff in Es as [Ec _].
    pose proof (fcs_code_spec (contentSizeFlag fp) size Hs). rewrite Ec in *. lia.
  - done.
Qed.

(** ** Properties *)

(** C35: walking over frames is total. On any sequence of bytes, whatever the
    sizes it announces, [ZSTD_findFrameSizeInfo] either delimits a frame that is
    not empty and lies inside the source, or reports an error in the place of
    the size; and the functions that iterate it over the source terminate (with
    one unit of fuel per byte), never leave the source, and return a 64-bit
    size. *)
Theorem frame_walk_total (src : list Z) :
  bytes_ok src -> zlen src < 2 ^ 63 ->
  (exists i, ZSTD_findFrameSizeInfo src ZSTD_f_zstd1 = Ok i /\
    (0 < compressedSize i <= zlen src /\ 0 <= nbBlocks i <= zlen src /\ 0 <= decompressedBound i < 2 ^ 64
     \/ ERR_isError (compressedSize i) = true)) /\
  (exists n, ZSTD_decompressBound src = Ok n /\ 0 <= n < 2 ^ 64) /\
  (exists n, ZSTD_findDecompressedSize src = Ok n /\ 0 <= n < 2 ^ 64) /\
  ((exists n, ZSTD_decompressionMargin src = Ok n /\ 0 <= n < 2 ^ 64) \/
   exists e, ZSTD_decompressionMargin src = Err e /\ ERR_isError (ERROR e) = true).
Proof.
  intros Hb Hl. split_and!.
  - apply wp_no_errors_Ok. eapply wp_mono; [by apply findFrameSizeInfo_wp| |done].
    intros i [[Hi _]|Hi]; [by left|by right].
  - by apply wp_no_errors_Ok, decompressBound_wp.
  - by apply wp_no_errors_Ok, findDecompressedSize_wp.
  - pose proof (decompressionMargin_wp src Hb Hl) as H.
    destruct (ZSTD_decompressionMargin src) as [n|e|]; [left|right|done]; eexists; [done|].
    split; [done|]. by rewrite ERR_isError_ERROR.
Qed.

Lemma frame_walk_total_witness :
  exists n, ZSTD_decompressBound [0x28; 0xB5; 0x2F; 0xFD; 0x20; 2; 17; 0; 0; 7; 7] = Ok n /\ 0 <= n < 2 ^ 64.
Proof.
  apply (frame_walk_total [0x28; 0xB5; 0x2F; 0xFD; 0x20; 2; 17; 0; 0; 7; 7]); [bytes_dec|].
  vm_compute. reflexivity.
Defined.

(** When every frame of a source announces its size,
    [ZSTD_decompressBound] is not only a bound: it is the value that
    [ZSTD_findDecompressedSize] returns. *)
Theorem ZSTD_decompressBound_exact (src : list Z) (n : Z) :
  bytes_ok src -> zlen src < 2 ^ 63 ->
  ZSTD_findDecompressedSize src = Ok n -> n < ZSTD_CONTENTSIZE_ERROR ->
  ZSTD_decompressBound src = Ok n.
Proof. intros Hb Hl H Hn. by apply findDecompressedSize_bound. Qed.

Lemma ZSTD_decompressBound_exact_witness :
  ZSTD_decompressBound ([0x28; 0xB5; 0x2F; 0xFD; 0x20; 2; 17; 0; 0; 7; 7] ++
    [0x51; 0x2A; 0x4D; 0x18; 1; 0; 0; 0; 9] ++ [0x28; 0xB5; 0x2F; 0xFD; 0x20; 5; 43; 0; 0; 1]) = Ok 7.
Proof.
  apply ZSTD_decompressBound_exact; [bytes_dec|vm_compute; reflexivity..].
Defined.

(** C34: a frame is delimited exactly. A frame made of a header, of at least one
    raw or RLE block (as [ZSTD_noCompressBlock] and [ZSTD_rleCompressBlock] emit
    them) and of the checksum its header announces is delimited by
    [ZSTD_findFrameSizeInfo] at its last byte, whatever follows it: the number
    of blocks is the one that was written, and the bound on the content is its
    announced size, or the number of blocks times the maximal block size. *)
Theorem frame_delimited (format : ZSTD_format_e) fp windowLog size dictID bs checksum rest :
  10 <= windowLog <= 31 -> 0 <= size < 2 ^ 64 -> 0 <= dictID < 2 ^ 32 ->
  bs <> [] -> Forall block_ok bs -> bytes_ok checksum -> bytes_ok rest ->
  zlen checksum = (if fp_checksumFlag fp then 4 else 0) ->
  let header := header_bytes format fp windowLog size dictID in
  let frame := header ++ blocks_bytes bs ++ checksum in
  let fcs := if contentSizeFlag fp then size else ZSTD_CONTENTSIZE_UNKNOWN in
  let window := if contentSizeFlag fp && (size <=? 2 ^ windowLog) then size else 2 ^ windowLog in
  ZSTD_findFrameSizeInfo (frame ++ rest) format
  = Ok (mkFrameSizeInfo (zlen bs) (zlen frame)
          (if fcs =? ZSTD_CONTENTSIZE_UNKNOWN then u64 (zlen bs * Z.min window ZSTD_BLOCKSIZE_MAX) else fcs)).
Proof.
  intros Hwl Hs Hd Hne Hbs Hc Hr Hcl. cbv zeta.
  assert (bytes_ok (checksum ++ rest)) as Hcr by (by apply bytes_ok_app).
  assert (bytes_ok (blocks_bytes bs ++ checksum ++ rest)) as Hall by (apply bytes_ok_app; [by apply blocks_bytes_ok|done]).
  rewrite <- !app_assoc. unfold ZSTD_findFrameSizeInfo.
  match goal with |- bind ?m _ = _ => assert (m = Ok false) as -> end.
  { case_bool_decide as Hf; [|done]. subst format. cbn [andb]. rewrite header_magic by done. cbn [bind].
    by destruct (_ >=? _). }
  cbn [bind]. unfold frameSizeInfo_frame. rewrite read_ok by done. cbn [bind].
  unfold header_of. cbn [headerSize checksumFlag frameContentSize blockSizeMax]. set (h := header_bytes _ _ _ _ _).
  rewrite iterate_blocks_ok by done. cbn [bind]. cbv zeta.
  replace (zlen (h ++ blocks_bytes bs ++ checksum ++ rest) - (zlen h + zlen (blocks_bytes bs)))
    with (zlen checksum + zlen rest) by (rewrite !zlen_app; lia).
  rewrite b2z_eq0, negb_involutive, Hcl. pose proof (zlen_nonneg rest). unfold RETURN_ERROR_IF.
  assert (fp_checksumFlag fp && ((if fp_checksumFlag fp then 4 else 0) + zlen rest <? 4) = false) as ->.
  { destruct (fp_checksumFlag fp); [|done]. cbn [andb]. apply Z.ltb_ge. lia. }
  unfold single_segment. rewrite Z.geb_leb. rewrite !zlen_app, Hcl.
  assert ((if fp_checksumFlag fp then zlen h + zlen (blocks_bytes bs) + 4 else zlen h + zlen (blocks_bytes bs))
    = zlen h + (zlen (blocks_bytes bs) + if fp_checksumFlag fp then 4 else 0)) as -> by (destruct (fp_checksumFlag fp); lia).
  by destruct (_ =? ZSTD_CONTENTSIZE_UNKNOWN).
Qed.

Lemma frame_delimited_witness :
  ZSTD_findFrameSizeInfo
    ((header_bytes ZSTD_f_zstd1 (mkFrameParams true true true) 10 7 0 ++
      blocks_bytes [RawBlock [1; 2]; RleBlock 9 5] ++ [0; 1; 2; 3]) ++ [1]) ZSTD_f_zstd1
  = Ok (mkFrameSizeInfo 2 (zlen (header_bytes ZSTD_f_zstd1 (mkFrameParams true true true) 10 7 0 ++
      blocks_bytes [RawBlock [1; 2]; RleBlock 9 5] ++ [0; 1; 2; 3])) 7).
Proof.
  apply (frame_delimited ZSTD_f_zstd1 (mkFrameParams true true true) 10 7 0 [RawBlock [1; 2]; RleBlock 9 5]
    [0; 1; 2; 3] [1]); [lia|lia|lia|discriminate| |bytes_dec|bytes_dec|reflexivity].
  constructor; [split; [bytes_dec|reflexivity]|constructor; [|constructor]].
  vm_compute. repeat split; congruence.
Defined.

(** A raw or an RLE block is read back. The writer of a block succeeds when
    the block fits, and the reader of its bytes, whatever follows them,
    regenerates its content; the last-block bit is the one that was written. *)
Theorem block_roundtrip (dst out : list Z) (b : raw_or_rle) (last : Z) :
  block_ok b -> 0 <= last <= 1 -> 3 + zlen (block_payload b) <= zlen dst -> block_size b <= zlen out ->
  exists dst' n,
    write_block dst b last = Ok (dst', n) /\ n = 3 + zlen (block_payload b) /\
    forall rest, bytes_ok rest ->
      ZSTD_getcBlockSize (zsub dst' 0 n ++ rest)
      = Ok (zlen (block_payload b), mkBlockProperties (block_type b) last (block_size b)) /\
      read_block out (zsub dst' 0 n ++ rest) = Ok (zpatch out 0 (block_content b), block_size b).
Proof.
  intros Hb Hl Hd Ho. pose proof (write_block_ok dst b last Hb Hl Hd) as Hw. cbv zeta in Hw.
  pose proof (block_size_range b Hb) as Hs. pose proof (block_payload_ok b Hb) as Hp.
  assert (block_type b <> bt_reserved) as Ht by (by destruct b).
  set (bs := block_bytes _ _ _ _) in Hw. assert (zlen bs = 3 + zlen (block_payload b)) as Hbs by apply zlen_block_bytes.
  eexists _, _. split; [exact Hw|]. split; [done|]. intros rest Hr. rewrite zsub_zpatch_0 by lia.
  assert (ZSTD_getcBlockSize (bs ++ rest)
    = Ok (zlen (block_payload b), mkBlockProperties (block_type b) last (block_size b))) as Hg.
  { unfold bs. by rewrite getcBlockSize_block, block_payload_len. }
  split; [done|]. unfold read_block. rewrite Hg. cbn [bind]. unfold ZSTD_blockHeaderSize.
  assert (zsub (bs ++ rest) 3 (zlen (block_payload b)) = block_payload b) as ->.
  { unfold bs, block_bytes. rewrite <- app_assoc. apply zsub_mid; [by rewrite zlen_le_bytes|done]. }
  destruct b as [c|v n]; cbn [blockType block_type block_payload block_size origSize block_content] in *.
  - unfold ZSTD_copyRawBlock, RETURN_ERROR_IF. rewrite Z.gtb_ltb, (proj2 (Z.ltb_ge _ _)) by lia.
    rewrite memcpy_at_ok by lia. done.
  - rewrite rd_ok by (change (zlen [v]) with 1; lia). cbn [bind]. change (zat [v] 0) with v.
    unfold ZSTD_setRleBlock, RETURN_ERROR_IF. rewrite Z.gtb_ltb, (proj2 (Z.ltb_ge _ _)) by lia.
    rewrite memcpy_at_ok by (rewrite ?zlen_zfill; lia). done.
Qed.

Lemma block_roundtrip_witness :
  exists dst' n,
    write_block (zfill 10 0) (RleBlock 7 12) 1 = Ok (dst', n) /\ n = 4 /\
    read_block (zfill 16 1) (zsub dst' 0 n ++ [1; 2]) = Ok (zpatch (zfill 16 1) 0 (zfill 12 7), 12).
Proof.
  destruct (block_roundtrip (zfill 10 0) (zfill 16 1) (RleBlock 7 12) 1) as (dst' & n & H & Hn & Hr).
  - vm_compute. repeat split; congruence.
  - lia.
  - vm_compute. congruence.
  - vm_compute. congruence.
  - exists dst', n. split; [exact H|]. split; [exact Hn|]. apply (Hr [1; 2]). bytes_dec.
Defined.
