(* ===== verification/Skippable.v ===== *)
(** Skippable frames: what is written is read back, except at the very end of
    the range of sizes that the writer accepts. *)

From S2P Require Import Prelude Errors Outcome Bits Mem Wire Frame FrameHeader FrameParse FrameWalk.

(** ** Definitions *)

Definition skippable_bytes (variant : Z) (content : list Z) : list Z :=
  le_bytes 4 (ZSTD_MAGIC_SKIPPABLE_START + variant) ++ le_bytes 4 (zlen content) ++ content.

(** ** Lemmas *)

Section skippable.
Context (content : list Z) (variant : Z).
Hypothesis Hb : bytes_ok content.
Hypothesis Hlen : zlen content < 2 ^ 32.
Hypothesis Hv : 0 <= variant <= 15.

Lemma zlen_skippable : zlen (skippable_bytes variant content) = zlen content + 8.
Proof. unfold skippable_bytes. rewrite !zlen_app, !zlen_le_bytes. lia. Qed.

Lemma skippable_write dst :
  zlen content + 8 <= zlen dst ->
  ZSTD_writeSkippableFrame dst content variant
  = Ok (zpatch dst 0 (skippable_bytes variant content), zlen content + 8).
Proof.
  intros Hd. pose proof (zlen_nonneg content). unfold ZSTD_writeSkippableFrame, ZSTD_SKIPPABLEHEADERSIZE, RETURN_ERROR_IF.
  cbv zeta. rewrite u64_small by lia. rewrite !Z.gtb_ltb, !(proj2 (Z.ltb_ge _ _)) by lia.
  assert (0 <= ZSTD_MAGIC_SKIPPABLE_START + variant < 2 ^ 32) by (unfold ZSTD_MAGIC_SKIPPABLE_START; lia).
  rewrite !u32_small by lia. rewrite writeLE32_spec by lia. cbn [bind].
  rewrite emit_LE32 by (rewrite ?zlen_le_bytes; (done || lia)). cbn [bind].
  rewrite emit_bytes by (rewrite ?zlen_app, ?zlen_le_bytes; (done || lia)). cbn [bind].
  unfold skippable_bytes. by rewrite <- app_assoc.
Qed.

Section read.
Context (rest : list Z).
Hypothesis Hr : bytes_ok rest.
Let src := skippable_bytes variant content ++ rest.

Lemma skippable_src_ok : bytes_ok src /\ zlen content + 8 <= zlen src.
Proof.
  unfold src. split.
  - unfold skippable_bytes. repeat apply bytes_ok_app; done || apply le_bytes_ok.
  - rewrite zlen_app, zlen_skippable. pose proof (zlen_nonneg rest). lia.
Qed.
Lemma skippable_magic : readLE32 src 0 = Ok (ZSTD_MAGIC_SKIPPABLE_START + variant).
Proof.
  unfold src, skippable_bytes. rewrite <- !app_assoc. apply (parse_LE32 []); [done|apply Forall_nil_2| |].
  - repeat apply bytes_ok_app; done || apply le_bytes_ok.
  - unfold ZSTD_MAGIC_SKIPPABLE_START. lia.
Qed.
Lemma skippable_size_field : readLE32 src 4 = Ok (zlen content).
Proof.
  unfold src, skippable_bytes. rewrite <- !app_assoc. pose proof (zlen_nonneg content).
  apply parse_LE32; [by rewrite zlen_le_bytes|apply le_bytes_ok|by apply bytes_ok_app|lia].
Qed.
Lemma skippable_is : is_skippable_magic (ZSTD_MAGIC_SKIPPABLE_START + variant) = true.
Proof.
  rewrite skippable_magic_spec by (unfold ZSTD_MAGIC_SKIPPABLE_START; lia).
  apply andb_true_iff. split; [apply Z.leb_le|apply Z.ltb_lt]; lia.
Qed.

Lemma skippable_isSkippableFrame : ZSTD_isSkippableFrame src = Ok true.
Proof.
  destruct skippable_src_ok as [_ Hs]. pose proof (zlen_nonneg content). unfold ZSTD_isSkippableFrame, ZSTD_FRAMEIDSIZE.
  rewrite (proj2 (Z.ltb_ge _ _)) by lia. rewrite skippable_magic. cbn [bind]. by rewrite skippable_is.
Qed.

Lemma skippable_size :
  readSkippableFrameSize src
  = if zlen content <? 2 ^ 32 - 8 then Ok (zlen content + 8) else Err frameParameter_unsupported.
Proof.
  destruct skippable_src_ok as [_ Hs]. pose proof (zlen_nonneg content).
  unfold readSkippableFrameSize, ZSTD_SKIPPABLEHEADERSIZE, ZSTD_FRAMEIDSIZE, RETURN_ERROR_IF.
  rewrite (proj2 (Z.ltb_ge (zlen src) 8)) by lia. rewrite skippable_size_field. cbn [bind]. unfold u32.
  destruct (Z.ltb_spec (zlen content) (2 ^ 32 - 8)).
  - rewrite Z.mod_small by lia. rewrite (proj2 (Z.ltb_ge _ (zlen content))) by lia.
    rewrite Z.gtb_ltb, (proj2 (Z.ltb_ge _ _)) by lia. f_equal. lia.
  - rewrite <- (Z.mod_unique (zlen content + 8) (2 ^ 32) 1 (zlen content + 8 - 2 ^ 32)) by lia.
    by rewrite (proj2 (Z.ltb_lt _ _)) by lia.
Qed.

Lemma skippable_content : zsub src 8 (zlen content) = content.
Proof.
  unfold src, skippable_bytes. rewrite <- app_assoc, <- app_assoc, app_assoc.
  apply zsub_mid; [|done]. by rewrite zlen_app, !zlen_le_bytes.
Qed.

Lemma skippable_read dst :
  zlen content < 2 ^ 32 - 8 -> zlen content <= zlen dst ->
  ZSTD_readSkippableFrame dst src = Ok (zpatch dst 0 content, zlen content, variant).
Proof.
  intros Hl Hd. destruct skippable_src_ok as [_ Hs]. pose proof (zlen_nonneg content).
  unfold ZSTD_readSkippableFrame, RETURN_ERROR_IF, ZSTD_SKIPPABLEHEADERSIZE.
  rewrite (proj2 (Z.ltb_ge (zlen src) 8)) by lia. rewrite skippable_magic, skippable_size. cbn [bind].
  rewrite (proj2 (Z.ltb_lt _ (2 ^ 32 - 8))) by lia. cbn [bind observe_size].
  rewrite skippable_isSkippableFrame. cbn [bind negb]. cbv zeta. rewrite u64_small by lia.
  rewrite !Z.gtb_ltb, !(proj2 (Z.ltb_ge _ _)) by lia. cbn [orb].
  replace (zlen content + 8 - 8) with (zlen content) by lia. rewrite skippable_content.
  rewrite memcpy_at_ok by lia. cbn [bind]. rewrite u32_small by lia. do 2 f_equal. lia.
Qed.

Lemma skippable_unreadable dst :
  2 ^ 32 - 8 <= zlen content -> zlen src < 2 ^ 63 ->
  ZSTD_readSkippableFrame dst src = Err Errors.srcSize_wrong.
Proof.
  intros Hl Hsl. destruct skippable_src_ok as [_ Hs].
  unfold ZSTD_readSkippableFrame, RETURN_ERROR_IF, ZSTD_SKIPPABLEHEADERSIZE.
  rewrite (proj2 (Z.ltb_ge (zlen src) 8)) by lia. rewrite skippable_magic, skippable_size. cbn [bind].
  rewrite (proj2 (Z.ltb_ge _ (2 ^ 32 - 8))) by lia. cbn [bind observe_size].
  rewrite skippable_isSkippableFrame. cbn [bind negb].
  change (ERROR frameParameter_unsupported) with (2 ^ 64 - 14).
  rewrite (Z.gtb_ltb (2 ^ 64 - 14)), (proj2 (Z.ltb_lt (zlen src) _)) by lia. by rewrite orb_true_r.
Qed.
End read.
End skippable.

(** ** Properties *)

(** A skippable frame is read back. For a content of less than [2^32 - 8]
    bytes and one of the 16 magic variants, [ZSTD_writeSkippableFrame] succeeds
    when the frame fits; its bytes, whatever follows them, are recognised as a
    skippable frame, are delimited exactly by [ZSTD_findFrameCompressedSize],
    and [ZSTD_readSkippableFrame] gives back the content and the variant. *)
Theorem skippable_roundtrip (dst out content : list Z) (variant : Z) :
  bytes_ok content -> zlen content < 2 ^ 32 - 8 -> 0 <= variant <= 15 ->
  zlen content + 8 <= zlen dst -> zlen content <= zlen out ->
  exists dst', ZSTD_writeSkippableFrame dst content variant = Ok (dst', zlen content + 8) /\
    forall rest, bytes_ok rest ->
      let src := zsub dst' 0 (zlen content + 8) ++ rest in
      ZSTD_isSkippableFrame src = Ok true /\
      ZSTD_findFrameCompressedSize src = Ok (zlen content + 8) /\
      ZSTD_readSkippableFrame out src = Ok (zpatch out 0 content, zlen content, variant).
Proof.
  intros Hb Hl Hv Hd Ho. assert (zlen content < 2 ^ 32) as Hl2 by lia.
  eexists. split; [by apply skippable_write|]. intros rest Hr. cbv zeta.
  rewrite <- (zlen_skippable content variant), zsub_zpatch_0 by (rewrite zlen_skippable; lia).
  split; [by apply skippable_isSkippableFrame|]. split; [|by apply skippable_read].
  unfold ZSTD_findFrameCompressedSize, ZSTD_findFrameSizeInfo.
  destruct (skippable_src_ok content variant Hb rest Hr) as [_ Hs]. pose proof (zlen_nonneg content).
  rewrite bool_decide_eq_true_2 by done. rewrite Z.geb_leb, (proj2 (Z.leb_le _ _)) by (unfold ZSTD_SKIPPABLEHEADERSIZE; lia).
  cbn [andb]. rewrite skippable_magic by done. cbn [bind]. rewrite skippable_is by done.
  rewrite skippable_size, (proj2 (Z.ltb_lt _ _)) by done. cbn [observe_size bind compressedSize].
  by rewrite zlen_skippable.
Qed.

Lemma skippable_roundtrip_witness :
  exists dst', ZSTD_writeSkippableFrame (zfill 20 0) [1; 2; 3] 5 = Ok (dst', 11) /\
    ZSTD_readSkippableFrame (zfill 3 0) (zsub dst' 0 11 ++ [9]) = Ok ([1; 2; 3], 3, 5).
Proof.
  destruct (skippable_roundtrip (zfill 20 0) (zfill 3 0) [1; 2; 3] 5) as (dst' & H & Hr);
    [bytes_dec|vm_compute; congruence|lia|vm_compute; congruence|vm_compute; congruence|].
  exists dst'. split; [exact H|]. apply (Hr [9]). bytes_dec.
Defined.

(** C40: the sizes at the end of the range are written and cannot be read. For
    a content of [2^32 - 8] to [2^32 - 1] bytes, [ZSTD_writeSkippableFrame]
    accepts the content, but the size of the frame does not fit the 32 bits in
    which the readers check it: [ZSTD_findFrameCompressedSize] and
    [ZSTD_readSkippableFrame] refuse the frame that was written. *)
Theorem skippable_size_limit (dst out content : list Z) (variant : Z) :
  bytes_ok content -> 2 ^ 32 - 8 <= zlen content < 2 ^ 32 -> 0 <= variant <= 15 ->
  zlen content + 8 <= zlen dst ->
  exists dst', ZSTD_writeSkippableFrame dst content variant = Ok (dst', zlen content + 8) /\
    let src := zsub dst' 0 (zlen content + 8) in
    ZSTD_readSkippableFrame out src = Err Errors.srcSize_wrong /\
    ZSTD_findFrameCompressedSize src = Ok (ERROR frameParameter_unsupported).
Proof.
  intros Hb Hl Hv Hd. assert (zlen content < 2 ^ 32) as Hl2 by lia. pose proof (Forall_nil_2 is_byte) as Hr.
  pose proof (zlen_skippable content variant) as Hz.
  eexists. split; [by apply skippable_write|]. cbv zeta.
  rewrite <- Hz, zsub_zpatch_0 by lia. rewrite <- (app_nil_r (skippable_bytes variant content)). split.
  - apply skippable_unreadable; try done; [lia|]. rewrite app_nil_r. lia.
  - unfold ZSTD_findFrameCompressedSize, ZSTD_findFrameSizeInfo.
    rewrite bool_decide_eq_true_2 by done.
    rewrite Z.geb_leb, (proj2 (Z.leb_le _ _)) by (rewrite app_nil_r; unfold ZSTD_SKIPPABLEHEADERSIZE; lia).
    cbn [andb]. rewrite skippable_magic by done. cbn [bind]. rewrite skippable_is by done.
    rewrite skippable_size, (proj2 (Z.ltb_ge _ _)) by (done || lia). done.
Qed.

Lemma skippable_size_limit_witness :
  exists dst', ZSTD_writeSkippableFrame (zfill (2 ^ 32) 0) (zfill (2 ^ 32 - 8) 7) 0 = Ok (dst', 2 ^ 32 - 8 + 8) /\
    ZSTD_readSkippableFrame [] (zsub dst' 0 (2 ^ 32 - 8 + 8)) = Err Errors.srcSize_wrong.
Proof.
  assert (zlen (zfill (2 ^ 32 - 8) 7) = 2 ^ 32 - 8) as Hl by (apply zlen_zfill; lia).
  destruct (skippable_size_limit (zfill (2 ^ 32) 0) [] (zfill (2 ^ 32 - 8) 7) 0) as (dst' & H & Hr & _).
  - unfold zfill. apply Forall_replicate. unfold is_byte. lia.
  - rewrite Hl. lia.
  - lia.
  - rewrite Hl, zlen_zfill; lia.
  - rewrite Hl in H, Hr. exists dst'. split; [exact H|exact Hr].
Defined.
