(* ===== verification/XxHash.v ===== *)
(** XXH64 (common/xxhash.h): the one-shot hash and the streaming state machine,
    and the proof that they agree however the input is cut. The byte order of
    the target is a parameter. *)

From S2P Require Import Prelude Errors Outcome Bits Mem Wire.

(** ** Definitions *)

Section xxh64.
Context (XXH_CPU_LITTLE_ENDIAN : bool).

(** Unaligned loads; an aligned load reads the same bytes. *)
Definition XXH_read32 (mem : list Z) (p : Z) : result Z :=
  let* l := rd_bytes mem p 4 in Ok (native_val XXH_CPU_LITTLE_ENDIAN l).
Definition XXH_read64 (mem : list Z) (p : Z) : result Z :=
  let* l := rd_bytes mem p 8 in Ok (native_val XXH_CPU_LITTLE_ENDIAN l).
Definition XXH_swap32 (x : Z) : Z :=
  (u32 (Z.shiftl x 24) .& 0xff000000) .| (u32 (Z.shiftl x 8) .& 0x00ff0000) .|
  (Z.shiftr x 8 .& 0x0000ff00) .| (Z.shiftr x 24 .& 0x000000ff).
Definition XXH_swap64 (x : Z) : Z :=
  (u64 (Z.shiftl x 56) .& 0xff00000000000000) .|
  (u64 (Z.shiftl x 40) .& 0x00ff000000000000) .|
  (u64 (Z.shiftl x 24) .& 0x0000ff0000000000) .|
  (u64 (Z.shiftl x 8) .& 0x000000ff00000000) .|
  (Z.shiftr x 8 .& 0x00000000ff000000) .|
  (Z.shiftr x 24 .& 0x0000000000ff0000) .|
  (Z.shiftr x 40 .& 0x000000000000ff00) .|
  (Z.shiftr x 56 .& 0x00000000000000ff).
Definition XXH_readLE32 (mem : list Z) (p : Z) : result Z :=
  if XXH_CPU_LITTLE_ENDIAN then XXH_read32 mem p
  else let* v := XXH_read32 mem p in Ok (XXH_swap32 v).
Definition XXH_readLE64 (mem : list Z) (p : Z) : result Z :=
  if XXH_CPU_LITTLE_ENDIAN then XXH_read64 mem p
  else let* v := XXH_read64 mem p in Ok (XXH_swap64 v).
Definition XXH_readBE64 (mem : list Z) (p : Z) : result Z :=
  if XXH_CPU_LITTLE_ENDIAN then let* v := XXH_read64 mem p in Ok (XXH_swap64 v)
  else XXH_read64 mem p.

Definition XXH_rotl64 (x r : Z) : Z := u64 (Z.shiftl x r) .| Z.shiftr x (64 - r).

Definition XXH_PRIME64_1 : Z := 0x9E3779B185EBCA87.
Definition XXH_PRIME64_2 : Z := 0xC2B2AE3D27D4EB4F.
Definition XXH_PRIME64_3 : Z := 0x165667B19E3779F9.
Definition XXH_PRIME64_4 : Z := 0x85EBCA77C2B2AE63.
Definition XXH_PRIME64_5 : Z := 0x27D4EB2F165667C5.

Definition XXH64_round (acc input : Z) : Z :=
  let acc := u64 (acc + u64 (input * XXH_PRIME64_2)) in
  let acc := XXH_rotl64 acc 31 in
  u64 (acc * XXH_PRIME64_1).

Definition XXH64_mergeRound (acc val : Z) : Z :=
  let val := XXH64_round 0 val in
  let acc := Z.lxor acc val in
  u64 (u64 (acc * XXH_PRIME64_1) + XXH_PRIME64_4).

Definition XXH64_avalanche (hash : Z) : Z :=
  let hash := Z.lxor hash (Z.shiftr hash 33) in
  let hash := u64 (hash * XXH_PRIME64_2) in
  let hash := Z.lxor hash (Z.shiftr hash 29) in
  let hash := u64 (hash * XXH_PRIME64_3) in
  Z.lxor hash (Z.shiftr hash 32).

(** The steps of [XXH64_finalize] on 8, 4 and 1 bytes. *)
Definition finalize8 (hash v : Z) : Z :=
  let k1 := XXH64_round 0 v in
  let hash := Z.lxor hash k1 in
  u64 (u64 (XXH_rotl64 hash 27 * XXH_PRIME64_1) + XXH_PRIME64_4).
Definition finalize4 (hash v : Z) : Z :=
  let hash := Z.lxor hash (u64 (v * XXH_PRIME64_1)) in
  u64 (u64 (XXH_rotl64 hash 23 * XXH_PRIME64_2) + XXH_PRIME64_3).
Definition finalize1 (hash b : Z) : Z :=
  let hash := Z.lxor hash (u64 (b * XXH_PRIME64_5)) in
  u64 (XXH_rotl64 hash 11 * XXH_PRIME64_1).

(** [XXH64_finalize], from the position [ptr] of [mem]. *)
Definition XXH64_finalize (hash : Z) (mem : list Z) (ptr len : Z) : result Z :=
  let len := len .& 31 in
  let* '(hash, ptr, len) :=
    while_ 31 (fun '(_, _, len) => len >=? 8) (fun '(hash, ptr, len) =>
      let* v := XXH_readLE64 mem ptr in
      Ok (finalize8 hash v, ptr + 8, len - 8)) (hash, ptr, len) in
  let* '(hash, ptr, len) :=
    (if len >=? 4 then
       let* v := XXH_readLE32 mem ptr in Ok (finalize4 hash v, ptr + 4, len - 4)
     else Ok (hash, ptr, len)) in
  let* '(hash, _, _) :=
    while_ 31 (fun '(_, _, len) => len >? 0) (fun '(hash, ptr, len) =>
      let* b := rd mem ptr in
      Ok (finalize1 hash b, ptr + 1, len - 1)) (hash, ptr, len) in
  Ok (XXH64_avalanche hash).

(** The four lanes, and a stripe of 32 bytes. *)
Record lanes := mkLanes { v1 : Z; v2 : Z; v3 : Z; v4 : Z }.

Definition init_lanes (seed : Z) : lanes :=
  mkLanes (u64 (u64 (seed + XXH_PRIME64_1) + XXH_PRIME64_2)) (u64 (seed + XXH_PRIME64_2))
    (u64 (seed + 0)) (u64 (seed - XXH_PRIME64_1)).

Definition stripe (v : lanes) (mem : list Z) (p : Z) : result lanes :=
  let* a := XXH_readLE64 mem p in
  let* b := XXH_readLE64 mem (p + 8) in
  let* c := XXH_readLE64 mem (p + 16) in
  let* d := XXH_readLE64 mem (p + 24) in
  Ok (mkLanes (XXH64_round (v1 v) a) (XXH64_round (v2 v) b)
              (XXH64_round (v3 v) c) (XXH64_round (v4 v) d)).

Definition merge_lanes (v : lanes) : Z :=
  let h64 := u64 (u64 (u64 (XXH_rotl64 (v1 v) 1 + XXH_rotl64 (v2 v) 7)
                       + XXH_rotl64 (v3 v) 12) + XXH_rotl64 (v4 v) 18) in
  let h64 := XXH64_mergeRound h64 (v1 v) in
  let h64 := XXH64_mergeRound h64 (v2 v) in
  let h64 := XXH64_mergeRound h64 (v3 v) in
  XXH64_mergeRound h64 (v4 v).

(** [do { stripe } while (p < limit)]: the lanes and the position. *)
Definition stripes_do (input : list Z) (limit : Z) (v : lanes) (p : Z) : result (lanes * Z) :=
  loop_ (S (length input)) (fun '(v, p) =>
    let* v := stripe v input p in
    let p := p + 32 in
    if p <? limit then Ok (Continue (v, p)) else Ok (Break (v, p))) (v, p).

Definition XXH64_endian_align (input : list Z) (seed : Z) : result Z :=
  let len := zlen input in
  let* '(h64, p) :=
    (if len >=? 32 then
       let limit := len - 31 in
       let* '(v, p) := stripes_do input limit (init_lanes seed) 0 in
       Ok (merge_lanes v, p)
     else Ok (u64 (seed + XXH_PRIME64_5), 0)) in
  let h64 := u64 (h64 + len) in
  XXH64_finalize h64 input p len.

Definition XXH64 (input : list Z) (seed : Z) : result Z := XXH64_endian_align input seed.

(** *** Streaming *)

Record XXH64_state_t := mkXXH64_state {
  total_len : Z;
  xs_v : lanes;
  mem64 : list Z;
  memsize : Z;
}.

Definition XXH64_reset (seed : Z) : XXH64_state_t := mkXXH64_state 0 (init_lanes seed) (zfill 32 0) 0.

Definition XXH64_update (state : XXH64_state_t) (input : list Z) : result XXH64_state_t :=
  let len := zlen input in
  let bEnd := len in
  let total := u64 (total_len state + len) in
  if memsize state + len <? 32 then
    (* fill in tmp buffer *)
    let* mem := memcpy_at (mem64 state) (memsize state) input in
    Ok (mkXXH64_state total (xs_v state) mem (u32 (memsize state + len)))
  else
    let* '(v, mem, ms, p) :=
      (if negb (memsize state =? 0) then
         (* tmp buffer is full *)
         let* mem := memcpy_at (mem64 state) (memsize state) (zsub input 0 (32 - memsize state)) in
         let* v := stripe (xs_v state) mem 0 in
         Ok (v, mem, 0, 32 - memsize state)
       else Ok (xs_v state, mem64 state, memsize state, 0)) in
    let* '(v, p) :=
      (if p + 32 <=? bEnd then
         let limit := bEnd - 32 in
         stripes_do input (limit + 1) v p
       else Ok (v, p)) in
    if p <? bEnd then
      let* mem := memcpy_at mem 0 (zsub input p (bEnd - p)) in
      Ok (mkXXH64_state total v mem (bEnd - p))
    else Ok (mkXXH64_state total v mem ms).

Definition XXH64_digest (state : XXH64_state_t) : result Z :=
  let h64 :=
    if total_len state >=? 32 then merge_lanes (xs_v state)
    else u64 (v3 (xs_v state) + XXH_PRIME64_5) in
  let h64 := u64 (h64 + total_len state) in
  XXH64_finalize h64 (mem64 state) 0 (total_len state).

(** The canonical (big-endian) representation. *)
Definition XXH64_canonicalFromHash (hash : Z) : list Z :=
  native_bytes XXH_CPU_LITTLE_ENDIAN 8 (if XXH_CPU_LITTLE_ENDIAN then XXH_swap64 hash else hash).
Definition XXH64_hashFromCanonical (src : list Z) : result Z := XXH_readBE64 src 0.

(** A whole input given piece by piece. *)
Fixpoint XXH64_updates (state : XXH64_state_t) (chunks : list (list Z)) : result XXH64_state_t :=
  match chunks with
  | [] => Ok state
  | c :: chunks => let* state := XXH64_update state c in XXH64_updates state chunks
  end.

End xxh64.

(** *** A functional specification

    The hash as a function of the bytes: the lanes after whole stripes, then
    the remaining bytes 8, 4 and 1 at a time. *)

Definition stripe_spec (v : lanes) (l : list Z) : lanes :=
  mkLanes (XXH64_round (v1 v) (le_val (zsub l 0 8))) (XXH64_round (v2 v) (le_val (zsub l 8 8)))
          (XXH64_round (v3 v) (le_val (zsub l 16 8))) (XXH64_round (v4 v) (le_val (zsub l 24 8))).
Fixpoint lanes_of (n : nat) (v : lanes) (l : list Z) : lanes :=
  match n with
  | O => v
  | S n => lanes_of n (stripe_spec v l) (drop 32 l)
  end.
Fixpoint fin8 (fuel : nat) (h : Z) (l : list Z) : Z * list Z :=
  match fuel with
  | O => (h, l)
  | S fuel => if 8 <=? zlen l then fin8 fuel (finalize8 h (le_val (take 8 l))) (drop 8 l) else (h, l)
  end.
Definition fin4 (hl : Z * list Z) : Z * list Z :=
  if 4 <=? zlen (snd hl) then (finalize4 (fst hl) (le_val (take 4 (snd hl))), drop 4 (snd hl)) else hl.
Definition fin_spec (h : Z) (l : list Z) : Z :=
  let hl := fin4 (fin8 31 h l) in XXH64_avalanche (foldl finalize1 (fst hl) (snd hl)).
Definition xxh64_spec (d : list Z) (seed : Z) : Z :=
  let q := zlen d / 32 in
  let h := if 32 <=? zlen d then merge_lanes (lanes_of (Z.to_nat q) (init_lanes seed) d)
           else u64 (seed + XXH_PRIME64_5) in
  fin_spec (u64 (h + zlen d)) (drop (Z.to_nat (32 * q)) d).

(** What a state remembers of the bytes it has been given. *)
Record xxh_rep (seed : Z) (d : list Z) (st : XXH64_state_t) : Prop := mkRep {
  rep_total : total_len st = u64 (zlen d);
  rep_lanes : xs_v st = lanes_of (Z.to_nat (zlen d / 32)) (init_lanes seed) d;
  rep_size : memsize st = zlen d mod 32;
  rep_len : zlen (mem64 st) = 32;
  rep_bytes : bytes_ok (mem64 st);
  rep_mem : zsub (mem64 st) 0 (zlen d mod 32) = drop (Z.to_nat (32 * (zlen d / 32))) d;
}.

(** ** Lemmas *)

Lemma zsub_drop {A} (l : list A) i j n : 0 <= i -> 0 <= j -> zsub (drop (Z.to_nat i) l) j n = zsub l (i + j) n.
Proof. intros. unfold zsub. rewrite drop_drop. do 2 f_equal. lia. Qed.
Lemma zsub_take {A} (l : list A) i n m : 0 <= n <= m -> take (Z.to_nat n) (zsub l i m) = zsub l i n.
Proof. intros. unfold zsub. rewrite take_take. f_equal. lia. Qed.
Lemma drop_zsub {A} (l : list A) i n m :
  0 <= i -> 0 <= n <= m -> drop (Z.to_nat n) (zsub l i m) = zsub l (i + n) (m - n).
Proof.
  intros. unfold zsub. rewrite skipn_firstn_comm, drop_drop. f_equal; [lia|f_equal; lia].
Qed.

Section reads.
Context (le : bool).

Lemma XXH_readLE64_spec mem p :
  bytes_ok mem -> 0 <= p -> p + 8 <= zlen mem -> XXH_readLE64 le mem p = Ok (le_val (zsub mem p 8)).
Proof. intros. apply (readLE64_spec le mem p); done || lia. Qed.
Lemma XXH_readLE32_spec mem p :
  bytes_ok mem -> 0 <= p -> p + 4 <= zlen mem -> XXH_readLE32 le mem p = Ok (le_val (zsub mem p 4)).
Proof. intros. apply (readLE32_spec le mem p); done || lia. Qed.

Lemma stripe_ok v mem p :
  bytes_ok mem -> 0 <= p -> p + 32 <= zlen mem ->
  stripe le v mem p = Ok (stripe_spec v (drop (Z.to_nat p) mem)).
Proof.
  intros. unfold stripe. rewrite !XXH_readLE64_spec by (done || lia). cbn [bind].
  unfold stripe_spec. rewrite !zsub_drop by lia. by rewrite Z.add_0_r.
Qed.

Lemma finalize8_loop mem fuel h p n :
  bytes_ok mem -> 0 <= p -> 0 <= n <= Z.of_nat fuel -> p + n <= zlen mem ->
  let r := fin8 fuel h (zsub mem p n) in
  exists m, 0 <= m <= n /\ snd r = zsub mem (p + (n - m)) m /\
  while_ fuel (fun '(_, _, len) => len >=? 8) (fun '(hash, ptr, len) =>
      let* v := XXH_readLE64 le mem ptr in Ok (finalize8 hash v, ptr + 8, len - 8)) (h, p, n)
  = Ok (fst r, p + (n - m), m).
Proof.
  intros Hb. revert h p n. induction fuel as [|fuel IH]; intros h p n Hp Hn Hl; simpl.
  - exists n. assert (n = 0) as -> by lia. replace (p + (0 - 0)) with p by lia. done.
  - rewrite zlen_zsub by lia. rewrite Z.geb_leb. destruct (Z.leb_spec 8 n) as [H8|H8].
    + rewrite XXH_readLE64_spec by (done || lia). cbn [bind].
      assert (take 8 (zsub mem p n) = zsub mem p 8) as -> by (apply (zsub_take mem p 8 n); lia).
      assert (drop 8 (zsub mem p n) = zsub mem (p + 8) (n - 8)) as -> by (apply (drop_zsub mem p 8 n); lia).
      destruct (IH (finalize8 h (le_val (zsub mem p 8))) (p + 8) (n - 8)) as (m & Hm & Hs & Hw); [lia..|].
      exists m. rewrite Hw, Hs. replace (p + 8 + (n - 8 - m)) with (p + (n - m)) by lia.
      split; [lia|done].
    + exists n. replace (p + (n - n)) with p by lia. split; [lia|done].
Qed.

Lemma finalize1_loop mem fuel h p n :
  0 <= p -> 0 <= n <= Z.of_nat fuel -> p + n <= zlen mem ->
  while_ fuel (fun '(_, _, len) => len >? 0) (fun '(hash, ptr, len) =>
      let* b := rd mem ptr in Ok (finalize1 hash b, ptr + 1, len - 1)) (h, p, n)
  = Ok (foldl finalize1 h (zsub mem p n), p + n, 0).
Proof.
  revert h p n. induction fuel as [|fuel IH]; intros h p n Hp Hn Hl; simpl; rewrite Z.gtb_ltb;
    destruct (Z.ltb_spec 0 n); try lia.
  - assert (n = 0) as -> by lia. by rewrite Z.add_0_r.
  - rewrite rd_ok by lia. cbn [bind]. rewrite IH by lia. rewrite (zsub_cons mem p n) by lia. cbn [foldl].
    by replace (p + 1 + (n - 1)) with (p + n) by lia.
  - assert (n = 0) as -> by lia. by rewrite Z.add_0_r.
Qed.

Lemma finalize_ok h mem p len :
  bytes_ok mem -> 0 <= p -> p + len mod 32 <= zlen mem ->
  XXH64_finalize le h mem p len = Ok (fin_spec h (zsub mem p (len mod 32))).
Proof.
  intros Hb Hp Hl. unfold XXH64_finalize. assert (len .& 31 = len mod 32) as -> by (by apply (land_mask len 5)).
  pose proof (Z.mod_pos_bound len 32) as Hn.
  set (n := len mod 32) in *. cbv zeta.
  destruct (finalize8_loop mem 31 h p n Hb Hp ltac:(lia) Hl) as (m & Hm & Hs & ->). cbn [bind].
  unfold fin_spec, fin4. set (r := fin8 31 h (zsub mem p n)) in *. rewrite Hs, zlen_zsub by lia.
  set (q := p + (n - m)). rewrite Z.geb_leb. destruct (Z.leb_spec 4 m).
  - rewrite XXH_readLE32_spec by (done || lia). cbn [bind fst snd].
    rewrite finalize1_loop by lia. cbn [bind].
    assert (take 4 (zsub mem q m) = zsub mem q 4) as -> by (apply (zsub_take mem q 4 m); lia).
    assert (drop 4 (zsub mem q m) = zsub mem (q + 4) (m - 4)) as -> by (apply (drop_zsub mem q 4 m); lia). done.
  - cbn [bind fst snd]. rewrite finalize1_loop by lia. cbn [bind]. by rewrite Hs.
Qed.
End reads.

(** *** Stripes *)

Lemma stripe_spec_app v l k : 32 <= zlen l -> stripe_spec v (l ++ k) = stripe_spec v l.
Proof. intros. unfold stripe_spec. by rewrite !zsub_app_l by lia. Qed.
Lemma lanes_of_app n v l k : 32 * Z.of_nat n <= zlen l -> lanes_of n v (l ++ k) = lanes_of n v l.
Proof.
  revert v l. induction n as [|n IH]; intros v l Hl; cbn [lanes_of]; [done|].
  rewrite stripe_spec_app by lia. unfold zlen in Hl. rewrite drop_app_le by lia. apply IH.
  unfold zlen. rewrite length_drop. lia.
Qed.
Lemma lanes_of_add a b v l :
  lanes_of (a + b) v l = lanes_of b (lanes_of a v l) (drop (32 * a) l).
Proof.
  revert v l. induction a as [|a IH]; intros v l; cbn [lanes_of Nat.add]; [done|].
  rewrite IH, drop_drop. do 2 f_equal. lia.
Qed.

Lemma stripes_do_ok le input v p :
  bytes_ok input -> 0 <= p -> p + 32 <= zlen input ->
  let k := (zlen input - p) / 32 in
  stripes_do le input (zlen input - 31) v p
  = Ok (lanes_of (Z.to_nat k) v (drop (Z.to_nat p) input), p + 32 * k).
Proof.
  intros Hb. cbv zeta. unfold stripes_do.
  assert (forall fuel v p, 0 <= p -> p + 32 <= zlen input -> zlen input - p <= Z.of_nat fuel ->
    loop_ fuel (fun '(v, p) => let* v := stripe le v input p in
      if p + 32 <? zlen input - 31 then Ok (Continue (v, p + 32)) else Ok (Break (v, p + 32))) (v, p)
    = Ok (lanes_of (Z.to_nat ((zlen input - p) / 32)) v (drop (Z.to_nat p) input),
          p + 32 * ((zlen input - p) / 32))) as Hgen.
  { clear v p. induction fuel as [|fuel IH]; intros v p Hp Hl Hf; [lia|]. cbn [loop_].
    rewrite stripe_ok by done. cbn [bind]. set (x := zlen input - p) in *.
    destruct (Z.ltb_spec (p + 32) (zlen input - 31)).
    - cbn [bind]. rewrite IH by lia. replace (zlen input - (p + 32)) with (x - 32) by lia.
      assert (x / 32 = (x - 32) / 32 + 1) as -> by zdm.
      assert (0 <= (x - 32) / 32) by (apply Z.div_pos; lia).
      replace (Z.to_nat ((x - 32) / 32 + 1)) with (S (Z.to_nat ((x - 32) / 32))) by lia.
      cbn [lanes_of]. rewrite drop_drop. replace (Z.to_nat (p + 32)) with (Z.to_nat p + 32)%nat by lia.
      do 2 f_equal. lia.
    - cbn [bind]. assert (x / 32 = 1) as -> by (symmetry; apply (Z.div_unique x 32 1 (x - 32)); lia). done. }
  intros Hp Hl. apply Hgen; [done|done|unfold zlen; lia].
Qed.

Lemma oneshot_ok le input seed :
  bytes_ok input -> XXH64 le input seed = Ok (xxh64_spec input seed).
Proof.
  intros Hb. unfold XXH64, XXH64_endian_align, xxh64_spec. cbv zeta. pose proof (zlen_nonneg input).
  pose proof (Z.mod_pos_bound (zlen input) 32 ltac:(lia)). pose proof (Z.div_mod (zlen input) 32 ltac:(lia)) as Hd.
  assert (forall h, XXH64_finalize le h input (32 * (zlen input / 32)) (zlen input)
    = Ok (fin_spec h (drop (Z.to_nat (32 * (zlen input / 32))) input))) as Hfin.
  { intros h. rewrite finalize_ok by (done || lia). do 2 f_equal. unfold zsub. apply take_ge.
    rewrite length_drop. unfold zlen in *. lia. }
  rewrite Z.geb_leb. destruct (Z.leb_spec 32 (zlen input)) as [Hl|Hl].
  - rewrite stripes_do_ok by (done || lia). rewrite Z.sub_0_r, Z.add_0_l. cbn [bind]. rewrite drop_0. apply Hfin.
  - cbn [bind]. rewrite <- Hfin. rewrite (Z.div_small (zlen input) 32) by lia. done.
Qed.

(** *** The state machine *)

Lemma xxh_rep_reset seed : xxh_rep seed [] (XXH64_reset seed).
Proof. constructor; try done. unfold XXH64_reset. cbn [mem64]. apply Forall_replicate. unfold is_byte. lia. Qed.

Section update.
Context (le : bool) (seed : Z) (d c : list Z) (st : XXH64_state_t).
Hypothesis Hd : bytes_ok d.
Hypothesis Hc : bytes_ok c.
Hypothesis Hrep : xxh_rep seed d st.
Let q := zlen d / 32.
Let r := zlen d mod 32.

Local Lemma qr : zlen d = 32 * q + r /\ 0 <= r < 32 /\ 0 <= q.
Proof.
  pose proof (zlen_nonneg d). split; [apply Z.div_mod; lia|]. split; [by apply Z.mod_pos_bound|].
  apply Z.div_pos; lia.
Qed.
Local Lemma tail_len : zlen (drop (Z.to_nat (32 * q)) d) = r.
Proof. pose proof qr. unfold zlen in *. rewrite length_drop. lia. Qed.
Local Lemma tail_app : drop (Z.to_nat (32 * q)) (d ++ c) = drop (Z.to_nat (32 * q)) d ++ c.
Proof. pose proof qr. apply drop_app_le. unfold zlen in *. lia. Qed.
Local Lemma total_app : u64 (total_len st + zlen c) = u64 (zlen (d ++ c)).
Proof. rewrite (rep_total _ _ _ Hrep), zlen_app. unfold u64. by rewrite Z.add_mod_idemp_l by lia. Qed.

(** The input fits the buffer. *)
Lemma update_small :
  r + zlen c < 32 -> exists st', XXH64_update le st c = Ok st' /\ xxh_rep seed (d ++ c) st'.
Proof.
  intros Hl. pose proof qr. pose proof (zlen_nonneg c). unfold XXH64_update. cbv zeta.
  rewrite (rep_size _ _ _ Hrep). fold r. rewrite (proj2 (Z.ltb_lt _ _)) by done.
  pose proof (rep_len _ _ _ Hrep) as H32. rewrite memcpy_at_ok by lia. cbn [bind].
  eexists. split; [done|].
  assert (zlen (d ++ c) / 32 = q) as Eq by (rewrite zlen_app; symmetry; apply (Z.div_unique _ 32 q (r + zlen c)); lia).
  assert (zlen (d ++ c) mod 32 = r + zlen c) as Er
    by (rewrite zlen_app; symmetry; apply (Z.mod_unique _ 32 q (r + zlen c)); lia).
  constructor; cbn [total_len xs_v mem64 memsize].
  - apply total_app.
  - rewrite Eq, (rep_lanes _ _ _ Hrep), lanes_of_app; [done|]. fold q. lia.
  - rewrite Er. apply u32_small. lia.
  - rewrite zlen_zpatch; lia.
  - apply bytes_ok_zpatch; [apply (rep_bytes _ _ _ Hrep)|done].
  - rewrite Er, Eq, tail_app. rewrite zsub_split by lia.
    rewrite zsub_zpatch_before by lia. rewrite Z.add_0_l, zsub_zpatch by lia. f_equal.
    apply (rep_mem _ _ _ Hrep).
Qed.

(** The buffer is completed with the beginning of the input, when it holds
    something. *)
Let used := if r =? 0 then 0 else 32 - r.
Let q1 := if r =? 0 then q else q + 1.

Local Lemma used_spec : 0 <= used < 32 /\ zlen d + used = 32 * q1 /\ (r = 0 -> used = 0) /\ 0 <= q1.
Proof. pose proof qr. unfold used, q1. destruct (Z.eqb_spec r 0); lia. Qed.

Local Lemma first_lanes :
  32 <= r + zlen c ->
  exists mem, (if negb (memsize st =? 0) then
         let* mem := memcpy_at (mem64 st) (memsize st) (zsub c 0 (32 - memsize st)) in
         let* v := stripe le (xs_v st) mem 0 in Ok (v, mem, 0, 32 - memsize st)
       else Ok (xs_v st, mem64 st, memsize st, 0))
  = Ok (lanes_of (Z.to_nat q1) (init_lanes seed) (d ++ c), mem, 0, used) /\ zlen mem = 32 /\ bytes_ok mem.
Proof.
  intros Hl. pose proof qr. pose proof (rep_len _ _ _ Hrep) as H32. pose proof (rep_bytes _ _ _ Hrep) as Hb.
  rewrite (rep_size _ _ _ Hrep), (rep_lanes _ _ _ Hrep). fold q r. unfold used, q1.
  destruct (Z.eqb_spec r 0) as [E|E]; cbn [negb].
  - exists (mem64 st). rewrite E. split; [|done]. do 4 f_equal. rewrite lanes_of_app; [done|lia].
  - assert (zlen (zsub c 0 (32 - r)) = 32 - r) as Hz by (apply zlen_zsub; lia).
    rewrite memcpy_at_ok by lia. cbn [bind]. set (mem := zpatch _ _ _).
    assert (bytes_ok mem) as Hm by (apply bytes_ok_zpatch; [done|by apply bytes_ok_zsub]).
    assert (zlen mem = 32) as Hml by (unfold mem; rewrite zlen_zpatch; lia).
    rewrite stripe_ok by (done || lia). cbn [bind]. exists mem. split; [|done]. do 4 f_equal.
    replace (Z.to_nat (q + 1)) with (Z.to_nat q + 1)%nat by lia. rewrite lanes_of_add.
    rewrite lanes_of_app by lia. cbn [lanes_of].
    replace (32 * Z.to_nat q)%nat with (Z.to_nat (32 * q)) by lia. rewrite tail_app.
    assert (mem = drop (Z.to_nat (32 * q)) d ++ zsub c 0 (32 - r)) as ->.
    { transitivity (zsub mem 0 (r + (32 - r))); [replace (r + (32 - r)) with (zlen mem) by lia; symmetry; apply zsub_all|].
      rewrite zsub_split by lia. f_equal; unfold mem.
      - rewrite zsub_zpatch_before by lia. apply (rep_mem _ _ _ Hrep).
      - rewrite Z.add_0_l. rewrite <- Hz at 2. apply zsub_zpatch; lia. }
    rewrite (zsub_cut c (32 - r)) at 2 by lia. rewrite (app_assoc _ (zsub c 0 (32 - r))), stripe_spec_app; [done|].
    rewrite zlen_app, tail_len. lia.
Qed.

Lemma update_large :
  32 <= r + zlen c -> exists st', XXH64_update le st c = Ok st' /\ xxh_rep seed (d ++ c) st'.
Proof.
  intros Hl. pose proof qr as Hqr. pose proof used_spec as (Hu & Hdu & _ & Hq1). pose proof (zlen_nonneg c).
  unfold XXH64_update. cbv zeta. pose proof (rep_size _ _ _ Hrep) as Hms. fold r in Hms.
  assert ((memsize st + zlen c <? 32) = false) as -> by (apply Z.ltb_ge; lia).
  destruct (first_lanes Hl) as (mem & -> & Hml & Hmb). cbn [bind].
  set (k := (zlen c - used) / 32).
  assert (used <= zlen c) as Huc by (unfold used in *; destruct (r =? 0); lia).
  assert (0 <= k) by (apply Z.div_pos; lia).
  assert (zlen c - used = 32 * k + (zlen c - used) mod 32) as Hk by (apply Z.div_mod; lia).
  pose proof (Z.mod_pos_bound (zlen c - used) 32 ltac:(lia)) as Hrest. set (rest := (zlen c - used) mod 32) in *.
  assert ((if used + 32 <=? zlen c
    then stripes_do le c (zlen c - 32 + 1) (lanes_of (Z.to_nat q1) (init_lanes seed) (d ++ c)) used
    else Ok (lanes_of (Z.to_nat q1) (init_lanes seed) (d ++ c), used))
    = Ok (lanes_of (Z.to_nat (q1 + k)) (init_lanes seed) (d ++ c), used + 32 * k)) as ->.
  { replace (Z.to_nat (q1 + k)) with (Z.to_nat q1 + Z.to_nat k)%nat by lia. rewrite lanes_of_add.
    destruct (Z.leb_spec (used + 32) (zlen c)).
    - replace (zlen c - 32 + 1) with (zlen c - 31) by lia. rewrite stripes_do_ok by (done || lia). fold k.
      do 3 f_equal. replace (32 * Z.to_nat q1)%nat with (length d + Z.to_nat used)%nat by (unfold zlen in *; lia).
      by rewrite <- drop_drop, drop_app_length.
    - assert (k = 0) as -> by lia. rewrite Z.mul_0_r, Z.add_0_r. done. }
  cbn [bind]. assert (zlen (d ++ c) / 32 = q1 + k) as Eq
    by (rewrite zlen_app; symmetry; apply (Z.div_unique _ 32 _ rest); lia).
  assert (zlen (d ++ c) mod 32 = rest) as Er
    by (rewrite zlen_app; symmetry; apply (Z.mod_unique _ 32 (q1 + k) rest); lia).
  assert (drop (Z.to_nat (32 * (q1 + k))) (d ++ c) = drop (Z.to_nat (used + 32 * k)) c) as Edr.
  { replace (Z.to_nat (32 * (q1 + k))) with (length d + Z.to_nat (used + 32 * k))%nat by (unfold zlen in *; lia).
    by rewrite <- drop_drop, drop_app_length. }
  rewrite total_app. destruct (Z.ltb_spec (used + 32 * k) (zlen c)).
  - replace (zlen c - (used + 32 * k)) with rest by lia.
    assert (zlen (zsub c (used + 32 * k) rest) = rest) as Hz by (apply zlen_zsub; lia).
    rewrite memcpy_at_ok by lia. cbn [bind]. eexists. split; [done|].
    constructor; cbn [total_len xs_v mem64 memsize]; rewrite ?Eq, ?Er; try done.
    + rewrite zlen_zpatch; lia.
    + apply bytes_ok_zpatch; [done|by apply bytes_ok_zsub].
    + rewrite <- Hz at 2. rewrite zsub_zpatch by lia. rewrite Edr. unfold zsub. apply take_ge.
      rewrite length_drop. unfold zlen in *. lia.
  - assert (rest = 0) as Hr0 by lia. eexists. split; [done|].
    constructor; cbn [total_len xs_v mem64 memsize]; rewrite ?Eq, ?Er; try done; try lia.
    rewrite Hr0, zsub_0, Edr. symmetry. apply drop_ge. unfold zlen in *. lia.
Qed.

Lemma update_ok : exists st', XXH64_update le st c = Ok st' /\ xxh_rep seed (d ++ c) st'.
Proof. destruct (Z.ltb_spec (r + zlen c) 32); [by apply update_small|by apply update_large]. Qed.
End update.

Lemma updates_ok le seed chunks d st :
  bytes_ok d -> Forall bytes_ok chunks -> xxh_rep seed d st ->
  exists st', XXH64_updates le st chunks = Ok st' /\ xxh_rep seed (d ++ concat chunks) st'.
Proof.
  intros Hd Hch. revert d st Hd. induction Hch as [|c chunks Hc _ IH]; intros d st Hd Hr.
  - exists st. cbn. by rewrite app_nil_r.
  - cbn [XXH64_updates concat]. destruct (update_ok le seed d c st Hc Hr) as (st1 & -> & Hr1). cbn [bind].
    rewrite app_assoc. apply IH; [by apply bytes_ok_app|done].
Qed.

Lemma digest_ok le seed d st :
  0 <= seed < 2 ^ 64 -> zlen d < 2 ^ 64 -> xxh_rep seed d st -> XXH64_digest le st = Ok (xxh64_spec d seed).
Proof.
  intros Hs Hl [Ht Hv Hm Hml Hmb Hmem]. pose proof (zlen_nonneg d). unfold XXH64_digest, xxh64_spec. cbv zeta.
  rewrite Ht, (u64_small (zlen d)) by lia. rewrite finalize_ok; [|done|lia|rewrite Hml; pose proof (Z.mod_pos_bound (zlen d) 32); lia].
  rewrite Hmem, Z.geb_leb, Hv. destruct (Z.leb_spec 32 (zlen d)); [done|].
  rewrite (Z.div_small (zlen d) 32) by lia. change (v3 _) with (u64 (seed + 0)). by rewrite Z.add_0_r, (u64_small seed) by done.
Qed.

Lemma XXH_swap64_bytes v : 0 <= v < 2 ^ 64 -> le_bytes 8 (XXH_swap64 v) = be_bytes 8 v.
Proof. apply le_bytes_swap64. Qed.

(** ** Properties *)

(** C33: hashing by pieces is hashing at once. For every seed and however the
    input is cut into pieces (empty ones included), [XXH64_reset], an
    [XXH64_update] per piece and [XXH64_digest] are defined and give the value
    of [XXH64] on the whole input, on either byte order; and that value does
    not depend on the byte order. *)
Theorem XXH64_streaming (le le' : bool) (seed : Z) (chunks : list (list Z)) :
  0 <= seed < 2 ^ 64 -> Forall bytes_ok chunks -> zlen (concat chunks) < 2 ^ 64 ->
  exists st h,
    XXH64_updates le (XXH64_reset seed) chunks = Ok st /\
    XXH64_digest le st = Ok h /\ XXH64 le' (concat chunks) seed = Ok h.
Proof.
  intros Hs Hch Hl. destruct (updates_ok le seed chunks [] (XXH64_reset seed) (Forall_nil_2 is_byte) Hch (xxh_rep_reset seed))
    as (st & Hst & Hr). rewrite app_nil_l in Hr.
  exists st, (xxh64_spec (concat chunks) seed). split; [done|]. split; [by apply digest_ok|]. apply oneshot_ok.
  clear -Hch. induction Hch; cbn [concat]; [apply Forall_nil_2|by apply bytes_ok_app].
Qed.

Lemma XXH64_streaming_witness :
  exists st h,
    XXH64_updates true (XXH64_reset 7) [[1; 2; 3]; []; zfill 70 5; [9]] = Ok st /\
    XXH64_digest true st = Ok h /\ XXH64 false (concat [[1; 2; 3]; []; zfill 70 5; [9]]) 7 = Ok h.
Proof.
  apply (XXH64_streaming true false 7 [[1; 2; 3]; []; zfill 70 5; [9]]).
  - lia.
  - repeat (constructor; [bytes_dec|]). constructor.
  - vm_compute. reflexivity.
Defined.

(** The canonical form of a hash is its 8 bytes in big-endian order, on
    either byte order, and a machine of the other byte order reads it back. *)
Theorem XXH64_canonical_roundtrip (le le' : bool) (h : Z) :
  0 <= h < 2 ^ 64 ->
  XXH64_canonicalFromHash le h = be_bytes 8 h /\
  XXH64_hashFromCanonical le' (XXH64_canonicalFromHash le h) = Ok h.
Proof.
  intros Hh. assert (XXH64_canonicalFromHash le h = be_bytes 8 h) as E.
  { unfold XXH64_canonicalFromHash, native_bytes. destruct le; [by apply XXH_swap64_bytes|done]. }
  split; [done|]. rewrite E. assert (bytes_ok (be_bytes 8 h)) as Hb by (apply bytes_ok_reverse, le_bytes_ok).
  assert (zlen (be_bytes 8 h) = 8) as Hl by (unfold be_bytes, zlen; by rewrite length_reverse, length_le_bytes).
  assert (XXH64_hashFromCanonical le' (be_bytes 8 h) = MEM_readBE64 le' (be_bytes 8 h) 0) as -> by done.
  rewrite readBE64_spec by (done || lia). f_equal.
  assert (zsub (be_bytes 8 h) 0 8 = be_bytes 8 h) as -> by (rewrite <- (zsub_all (be_bytes 8 h)) at 2; by rewrite Hl).
  unfold be_val, be_bytes. rewrite reverse_involutive, le_val_le_bytes. by apply Z.mod_small.
Qed.

Lemma XXH64_canonical_roundtrip_witness :
  XXH64_canonicalFromHash true 0xEF46DB3751D8E999 = [0xEF; 0x46; 0xDB; 0x37; 0x51; 0xD8; 0xE9; 0x99] /\
  XXH64_hashFromCanonical false (XXH64_canonicalFromHash true 0xEF46DB3751D8E999) = Ok 0xEF46DB3751D8E999.
Proof. apply (XXH64_canonical_roundtrip true false 0xEF46DB3751D8E999). lia. Defined.
