(* ===== verification/DDict.v ===== *)
(** The set of dictionaries of a decompression context
    (decompress/zstd_decompress.c): a hash table with linear probing that maps
    dictionary ids to dictionaries, and the functions of the context that use
    it. *)

From stdpp Require Import gmap.
From S2P Require Import Prelude Errors Outcome Bits Mem Wire XxHash.

(** ** Definitions *)

(** A dictionary, of which only the id is read here; [ddict_ref] stands for the
    pointer. *)
Record ZSTD_DDict := mkDDict { ddict_dictID : Z; ddict_ref : Z }.
#[global] Instance ZSTD_DDict_eq_dec : EqDecision ZSTD_DDict.
Proof. solve_decision. Defined.

Definition ZSTD_getDictID_fromDDict (ddict : option ZSTD_DDict) : Z :=
  match ddict with
  | None => 0
  | Some d => ddict_dictID d
  end.

Definition DDICT_HASHSET_MAX_LOAD_FACTOR_COUNT_MULT : Z := 4.
Definition DDICT_HASHSET_MAX_LOAD_FACTOR_SIZE_MULT : Z := 3.
Definition DDICT_HASHSET_TABLE_BASE_SIZE : Z := 64.
Definition DDICT_HASHSET_RESIZE_FACTOR : Z := 2.

Record ZSTD_DDictHashSet := mkSet {
  ddictPtrTable : list (option ZSTD_DDict);
  ddictPtrTableSize : Z;
  ddictPtrCount : Z;
}.

Section hashset.
Context (le : bool).

Definition ZSTD_DDictHashSet_getIndex (hashSet : ZSTD_DDictHashSet) (dictID : Z) : result Z :=
  let* hash := XXH64 le (native_bytes le 4 dictID) 0 in
  Ok (hash .& (ddictPtrTableSize hashSet - 1)).

Definition ZSTD_DDictHashSet_emplaceDDict (hashSet : ZSTD_DDictHashSet) (ddict : ZSTD_DDict)
  : result ZSTD_DDictHashSet :=
  let table := ddictPtrTable hashSet in
  let dictID := ZSTD_getDictID_fromDDict (Some ddict) in
  let* idx := ZSTD_DDictHashSet_getIndex hashSet dictID in
  let idxRangeMask := ddictPtrTableSize hashSet - 1 in
  ERROR_IF ddictPtrCount hashSet =? ddictPtrTableSize hashSet THEN GENERIC ;;
  let* '(idx, present) :=
    loop_ (S (length table)) (fun idx =>
      let* slot := rd table idx in
      match slot with
      | None => Ok (Break (idx, false))
      | Some d =>
          if ZSTD_getDictID_fromDDict (Some d) =? dictID then Ok (Break (idx, true))
          else
            let idx := idx .& idxRangeMask in
            Ok (Continue (idx + 1))
      end) idx in
  let* table := wr table idx (Some ddict) in
  if present then Ok (mkSet table (ddictPtrTableSize hashSet) (ddictPtrCount hashSet))
  else Ok (mkSet table (ddictPtrTableSize hashSet) (ddictPtrCount hashSet + 1)).

(** [allocated] says whether the allocation of the new table succeeds. *)
Definition ZSTD_DDictHashSet_expand (hashSet : ZSTD_DDictHashSet) (allocated : bool)
  : result ZSTD_DDictHashSet :=
  let newTableSize := u64 (ddictPtrTableSize hashSet * DDICT_HASHSET_RESIZE_FACTOR) in
  let oldTable := ddictPtrTable hashSet in
  let oldTableSize := ddictPtrTableSize hashSet in
  ERROR_IF negb allocated THEN memory_allocation ;;
  for_range 0 oldTableSize (fun i hashSet =>
    let* slot := rd oldTable i in
    match slot with
    | Some d => ZSTD_DDictHashSet_emplaceDDict hashSet d
    | None => Ok hashSet
    end) (mkSet (zfill newTableSize None) newTableSize 0).

Definition ZSTD_DDictHashSet_getDDict (hashSet : ZSTD_DDictHashSet) (dictID : Z)
  : result (option ZSTD_DDict) :=
  let table := ddictPtrTable hashSet in
  let* idx := ZSTD_DDictHashSet_getIndex hashSet dictID in
  let idxRangeMask := ddictPtrTableSize hashSet - 1 in
  let* idx :=
    loop_ (S (length table)) (fun idx =>
      let* slot := rd table idx in
      let currDictID := ZSTD_getDictID_fromDDict slot in
      if (currDictID =? dictID) || (currDictID =? 0) then Ok (Break idx)
      else
        let idx := idx .& idxRangeMask in
        Ok (Continue (idx + 1))) idx in
  rd table idx.

Definition ZSTD_createDDictHashSet (allocated tableAllocated : bool) : option ZSTD_DDictHashSet :=
  if negb allocated then None
  else if negb tableAllocated then None
  else Some (mkSet (zfill DDICT_HASHSET_TABLE_BASE_SIZE None) DDICT_HASHSET_TABLE_BASE_SIZE 0).

(** The test of [ZSTD_DDictHashSet_addDDict]. *)
Definition overloaded (hashSet : ZSTD_DDictHashSet) : bool :=
  negb (u64 (u64 (ddictPtrCount hashSet * DDICT_HASHSET_MAX_LOAD_FACTOR_COUNT_MULT)
             / ddictPtrTableSize hashSet * DDICT_HASHSET_MAX_LOAD_FACTOR_SIZE_MULT) =? 0).

Definition ZSTD_DDictHashSet_addDDict (hashSet : ZSTD_DDictHashSet) (ddict : ZSTD_DDict)
    (allocated : bool) : result ZSTD_DDictHashSet :=
  let* hashSet :=
    (if overloaded hashSet then ZSTD_DDictHashSet_expand hashSet allocated else Ok hashSet) in
  ZSTD_DDictHashSet_emplaceDDict hashSet ddict.

(** *** The decompression context *)

Inductive ZSTD_dictUses_e := ZSTD_use_indefinitely | ZSTD_dont_use | ZSTD_use_once.

(** The fields of [ZSTD_DCtx] these functions use; [dctx_init] is
    [streamStage == zdss_init], [dctx_frameDictID] is [fParams.dictID]. *)
Record ZSTD_DCtx := mkDCtx {
  dctx_ddictLocal : option ZSTD_DDict;
  dctx_ddict : option ZSTD_DDict;
  dctx_dictID : Z;
  dctx_dictUses : ZSTD_dictUses_e;
  dctx_ddictSet : option ZSTD_DDictHashSet;
  dctx_refMultipleDDicts : bool;
  dctx_init : bool;
  dctx_frameDictID : Z;
}.

Definition ZSTD_clearDict (dctx : ZSTD_DCtx) : ZSTD_DCtx :=
  mkDCtx None None (dctx_dictID dctx) ZSTD_dont_use (dctx_ddictSet dctx)
    (dctx_refMultipleDDicts dctx) (dctx_init dctx) (dctx_frameDictID dctx).

Definition ZSTD_DCtx_selectFrameDDict (dctx : ZSTD_DCtx) : result ZSTD_DCtx :=
  match dctx_ddict dctx, dctx_ddictSet dctx with
  | Some _, Some ddictSet =>
      let* frameDDict := ZSTD_DDictHashSet_getDDict ddictSet (dctx_frameDictID dctx) in
      match frameDDict with
      | Some d =>
          let dctx := ZSTD_clearDict dctx in
          Ok (mkDCtx (dctx_ddictLocal dctx) (Some d) (dctx_frameDictID dctx) ZSTD_use_indefinitely
                (dctx_ddictSet dctx) (dctx_refMultipleDDicts dctx) (dctx_init dctx)
                (dctx_frameDictID dctx))
      | None => Ok dctx
      end
  | Some _, None => Stuck
  | None, _ => Ok dctx
  end.

(** The allocations of the set and of a larger table; the context is changed
    even where an error is returned. *)
Definition ZSTD_DCtx_refDDict (dctx : ZSTD_DCtx) (ddict : option ZSTD_DDict)
    (setAllocated tableAllocated expandAllocated : bool) : ZSTD_DCtx * result unit :=
  if negb (dctx_init dctx) then (dctx, Err stage_wrong)
  else
    let dctx := ZSTD_clearDict dctx in
    match ddict with
    | None => (dctx, Ok tt)
    | Some d =>
        let with_set s :=
          mkDCtx (dctx_ddictLocal dctx) (Some d) (dctx_dictID dctx) ZSTD_use_indefinitely s
            (dctx_refMultipleDDicts dctx) (dctx_init dctx) (dctx_frameDictID dctx) in
        if dctx_refMultipleDDicts dctx then
          let created :=
            match dctx_ddictSet dctx with
            | None => ZSTD_createDDictHashSet setAllocated tableAllocated
            | Some s => Some s
            end in
          match created with
          | None => (with_set None, Err memory_allocation)
          | Some s =>
              match ZSTD_DDictHashSet_addDDict s d expandAllocated with
              | Ok s => (with_set (Some s), Ok tt)
              | Err e => (with_set (Some s), Err e)
              | Stuck => (with_set (Some s), Stuck)
              end
          end
        else (with_set (dctx_ddictSet dctx), Ok tt)
    end.

End hashset.

(** *** Specification *)

(** Partial correctness: nothing is said of an undefined execution. *)
Definition pwp {A} (m : result A) (Q : A -> Prop) (E : ZSTD_ErrorCode -> Prop) : Prop :=
  match m with Ok a => Q a | Err e => E e | Stuck => True end.

Section refinement.
Context (le : bool).

(** The slot an id is hashed to, in a table of [n] slots. *)
Definition slot_of (n id : Z) : Z := xxh64_spec (native_bytes le 4 id) 0 .& (n - 1).

(** A slot that does not stop the search of [id]. *)
Definition other (T : list (option ZSTD_DDict)) (id j : Z) : Prop :=
  exists d, zat T j = Some d /\ ddict_dictID d <> id.

(** Every entry of the table lies after the slot of its id, and the slots in
    between hold other ids; the size is a power of two. *)
Record set_wf (s : ZSTD_DDictHashSet) : Prop := mkWf {
  wf_size : ddictPtrTableSize s = zlen (ddictPtrTable s);
  wf_pow : exists k, 0 <= k <= 40 /\ ddictPtrTableSize s = 2 ^ k;
  wf_ids : forall i d, 0 <= i < zlen (ddictPtrTable s) -> zat (ddictPtrTable s) i = Some d ->
    0 < ddict_dictID d < 2 ^ 32;
  wf_probe : forall i d, 0 <= i < zlen (ddictPtrTable s) -> zat (ddictPtrTable s) i = Some d ->
    slot_of (ddictPtrTableSize s) (ddict_dictID d) <= i /\
    forall j, slot_of (ddictPtrTableSize s) (ddict_dictID d) <= j < i ->
      other (ddictPtrTable s) (ddict_dictID d) j;
}.

(** The set implements the map [m] from ids to dictionaries. *)
Definition set_repr (s : ZSTD_DDictHashSet) (m : gmap Z ZSTD_DDict) : Prop :=
  set_wf s /\ forall id d, m !! id = Some d <->
    ddict_dictID d = id /\ exists i, 0 <= i < zlen (ddictPtrTable s) /\ zat (ddictPtrTable s) i = Some d.

(** The slots from the one of [id] to the last all hold other ids. *)
Definition run_to_end (s : ZSTD_DDictHashSet) (id : Z) : Prop :=
  forall j, slot_of (ddictPtrTableSize s) id <= j < ddictPtrTableSize s -> other (ddictPtrTable s) id j.

(** ** Lemmas *)

Lemma pwp_for {A} (I : Z -> A -> Prop) lo hi body (s : A) E :
  lo <= hi -> I lo s ->
  (forall i s, lo <= i < hi -> I i s -> pwp (body i s) (I (i + 1)) E) ->
  pwp (for_range lo hi body s) (I hi) E.
Proof.
  intros Hle H0 Hstep. unfold for_range.
  assert (forall n i s, lo <= i -> i + Z.of_nat n = hi -> I i s -> pwp (for_ n i body s) (I hi) E) as Hgen.
  { induction n as [|n IH]; intros i s0 Hi Hn HI; simpl.
    - by replace hi with i by lia.
    - specialize (Hstep i s0 ltac:(lia) HI). destruct (body i s0); simpl in *; try done. apply IH; [lia|lia|done]. }
  apply Hgen; [lia|lia|done].
Qed.

Section probing.
Context (s : ZSTD_DDictHashSet) (id : Z).
Hypothesis Hset : set_wf s.
Hypothesis Hid : 0 <= id < 2 ^ 32.
Let n := ddictPtrTableSize s.
Let T := ddictPtrTable s.

Lemma dd_slot_range : 0 <= slot_of n id < n.
Proof.
  destruct (wf_pow _ Hset) as (k & Hk & E). unfold slot_of, n. rewrite E, land_mask by lia.
  apply Z.mod_pos_bound, pow2_pos. lia.
Qed.
Lemma mask_id j : 0 <= j < n -> j .& (n - 1) = j.
Proof.
  intros Hj. destruct (wf_pow _ Hset) as (k & Hk & E). unfold n in *. rewrite E in *. rewrite land_mask by lia.
  by apply Z.mod_small.
Qed.

Lemma native_bytes_ok v : bytes_ok (native_bytes le 4 v).
Proof. unfold native_bytes, be_bytes. destruct le; [apply le_bytes_ok|apply bytes_ok_reverse, le_bytes_ok]. Qed.
Lemma getIndex_ok : ZSTD_DDictHashSet_getIndex le s id = Ok (slot_of n id).
Proof.
  unfold ZSTD_DDictHashSet_getIndex. rewrite oneshot_ok by apply native_bytes_ok. cbn [bind]. unfold slot_of, n. f_equal.
Qed.

(** Both searches stop at the first slot that is free or holds the id, and are
    undefined when there is none before the end of the table. *)
Lemma probe_ok {R} (f : Z -> result (flow Z R)) (stop : Z -> R) i fuel :
  (forall j, 0 <= j < n -> ~ other T id j -> f j = Ok (Break (stop j))) ->
  (forall j, 0 <= j < n -> other T id j -> f j = Ok (Continue (j .& (n - 1) + 1))) ->
  f n = Stuck ->
  0 <= i <= n -> n - i < Z.of_nat fuel ->
  match loop_ fuel f i with
  | Ok r => exists j, r = stop j /\ i <= j < n /\ ~ other T id j /\ forall j', i <= j' < j -> other T id j'
  | Err _ => False
  | Stuck => forall j, i <= j < n -> other T id j
  end.
Proof.
  intros Hstop Hgo Hend. revert i. induction fuel as [|fuel IH]; intros i Hi Hf; [lia|]. cbn [loop_].
  destruct (decide (i = n)) as [->|]; [rewrite Hend; cbn [bind]; intros; lia|].
  assert (other T id i \/ ~ other T id i) as [Ho|Ho].
  { unfold other. destruct (zat T i) as [d|]; [|right; by intros (? & ? & _)].
    destruct (decide (ddict_dictID d = id)); [right|left; eauto]. intros (d' & [= <-] & ?). done. }
  - rewrite Hgo by (done || lia). cbn [bind]. rewrite mask_id by lia.
    specialize (IH (i + 1) ltac:(lia) ltac:(lia)).
    destruct (loop_ fuel f (i + 1)) as [r| |]; [|done|].
    + destruct IH as (j & -> & Hj & Hno & Hall). exists j. split; [done|]. split; [lia|]. split; [done|].
      intros j' Hj'. destruct (decide (j' = i)) as [->|]; [done|]. apply Hall. lia.
    + intros j Hj. destruct (decide (j = i)) as [->|]; [done|]. apply IH. lia.
  - rewrite Hstop by (done || lia). cbn [bind]. exists i. split; [done|]. split; [lia|]. split; [done|]. intros; lia.
Qed.
End probing.

Section refine.
Context (s : ZSTD_DDictHashSet) (m : gmap Z ZSTD_DDict).
Hypothesis Hrep : set_repr s m.
Let n := ddictPtrTableSize s.
Let T := ddictPtrTable s.

Local Lemma set_repr_wf : set_wf s.
Proof. apply Hrep. Qed.
Local Lemma nT : n = zlen T.
Proof. apply (wf_size _ set_repr_wf). Qed.

(** The entry of an id, if any, is the first slot that stops its search. *)
Lemma lookup_stop id j :
  0 <= id < 2 ^ 32 -> slot_of n id <= j < n -> ~ other T id j ->
  (forall j', slot_of n id <= j' < j -> other T id j') ->
  m !! id = zat T j.
Proof.
  intros Hid Hj Hno Hall. pose proof nT as HnT. pose proof (dd_slot_range s id set_repr_wf) as Hs. fold n in Hs. destruct Hrep as [Hw Hm].
  destruct (zat T j) as [d|] eqn:E.
  - apply Hm. split; [|exists j; split; [fold T; lia|done]].
    destruct (decide (ddict_dictID d = id)); [done|]. exfalso. apply Hno. by exists d.
  - destruct (m !! id) as [d|] eqn:Em; [|done]. exfalso. apply Hm in Em as (Hd & i & Hi & Ei). fold T in Hi, Ei.
    destruct (wf_probe _ Hw i d Hi Ei) as [Hsi Hall']. fold n T in Hsi, Hall'. rewrite Hd in Hsi, Hall'.
    destruct (Z.lt_trichotomy i j) as [Hlt|[->|Hgt]].
    + destruct (Hall i ltac:(lia)) as (d' & Ed' & Hne). congruence.
    + congruence.
    + destruct (Hall' j ltac:(lia)) as (d' & Ed' & _). congruence.
Qed.

Lemma lookup_run id : run_to_end s id -> m !! id = None.
Proof.
  intros Hrun. destruct (m !! id) as [d|] eqn:Em; [|done]. exfalso. destruct Hrep as [Hw Hm].
  apply Hm in Em as (Hd & i & Hi & Ei).
  destruct (wf_probe _ Hw i d Hi Ei) as [Hsi _]. rewrite Hd in Hsi. pose proof nT as HnT.
  destruct (Hrun i) as (d' & Ed' & Hne); [unfold n, T in *; lia|]. congruence.
Qed.

Lemma getDDict_ok id :
  0 < id < 2 ^ 32 ->
  match ZSTD_DDictHashSet_getDDict le s id with
  | Ok r => r = m !! id
  | Err _ => False
  | Stuck => run_to_end s id /\ m !! id = None
  end.
Proof.
  intros Hid. unfold ZSTD_DDictHashSet_getDDict. cbv zeta. rewrite getIndex_ok. cbn [bind]. fold n T.
  pose proof (dd_slot_range s id set_repr_wf) as Hs. fold n in Hs. pose proof nT as HnT.
  match goal with |- context [loop_ ?fu ?f ?i] => pose proof (probe_ok s id set_repr_wf f (fun j => j) i fu) as Hp end.
  cbv beta in Hp. fold n T in Hp. match type of Hp with ?P -> _ => assert P as H1 end.
  { intros j Hj Hno. rewrite rd_ok by lia. cbn [bind]. destruct (zat T j) as [d|] eqn:E; cbn [ZSTD_getDictID_fromDDict].
    - destruct (Z.eqb_spec (ddict_dictID d) id) as [|Hne]; [done|]. exfalso. apply Hno. exists d. exact (conj E Hne).
    - by rewrite orb_true_r. }
  specialize (Hp H1). match type of Hp with ?P -> _ => assert P as H2 end.
  { intros j Hj (d & Ed & Hne). rewrite rd_ok by lia. cbn [bind]. rewrite Ed. cbn [ZSTD_getDictID_fromDDict].
    pose proof (wf_ids _ set_repr_wf j d) as Hi. fold T in Hi. specialize (Hi ltac:(lia) Ed).
    rewrite !(proj2 (Z.eqb_neq _ _)) by lia. done. }
  specialize (Hp H2). match type of Hp with ?P -> _ => assert P as H3 end.
  { unfold rd. rewrite (proj2 (Z.ltb_ge n _)) by lia. by rewrite andb_false_r. }
  specialize (Hp H3 ltac:(lia)). clear H1 H2 H3. specialize (Hp ltac:(unfold zlen in *; lia)).
  destruct (loop_ _ _ _) as [j| |]; cbn [bind]; [|done|by split; [|apply lookup_run]].
  destruct Hp as (j' & -> & Hj & Hno & Hall). rewrite rd_ok by lia.
  symmetry. apply lookup_stop; done || lia.
Qed.

(** Writing a dictionary where its search stops. *)
Lemma set_repr_insert d j :
  0 < ddict_dictID d < 2 ^ 32 -> slot_of n (ddict_dictID d) <= j < n -> ~ other T (ddict_dictID d) j ->
  (forall j', slot_of n (ddict_dictID d) <= j' < j -> other T (ddict_dictID d) j') ->
  forall c, set_repr (mkSet (zupd T j (Some d)) n c) (<[ddict_dictID d := d]> m).
Proof.
  intros Hid Hj Hno Hall c. pose proof nT as HnT. pose proof Hrep as [Hw Hm].
  pose proof (dd_slot_range s (ddict_dictID d) set_repr_wf) as Hs. fold n in Hs.
  assert (forall i, 0 <= i -> zat (zupd T j (Some d)) i = if i =? j then Some d else zat T i) as Hz.
  { intros i Hi. apply zat_zupd; lia. }
  assert (forall i e, 0 <= i < zlen T -> zat T i = Some e -> ddict_dictID e = ddict_dictID d -> i = j) as Huniq.
  { intros i e Hi Ei He. destruct (wf_probe _ Hw i e Hi Ei) as [Hsi Hall']. fold n T in Hsi, Hall'. rewrite He in Hsi, Hall'.
    destruct (Z.lt_trichotomy i j) as [Hlt|[->|Hgt]]; [|done|].
    - destruct (Hall i ltac:(lia)) as (d' & Ed' & Hne). congruence.
    - exfalso. apply Hno, Hall'. lia. }
  split; [constructor; cbn [ddictPtrTable ddictPtrTableSize]|].
  - by rewrite zlen_zupd.
  - apply (wf_pow _ Hw).
  - intros i e Hi. rewrite zlen_zupd in Hi. rewrite Hz by lia. destruct (Z.eqb_spec i j); [by intros [= <-]|].
    by apply (wf_ids _ Hw).
  - intros i e Hi. rewrite zlen_zupd in Hi. rewrite Hz by lia. destruct (Z.eqb_spec i j) as [->|Hne].
    + intros [= <-]. split; [lia|]. intros j' Hj'. unfold other. rewrite Hz by lia.
      rewrite (proj2 (Z.eqb_neq _ _)) by lia. by apply Hall.
    + intros Ei. destruct (wf_probe _ Hw i e Hi Ei) as [Hsi Hall']. split; [done|]. intros j' Hj'.
      pose proof (dd_slot_range s (ddict_dictID e) set_repr_wf) as Hse.
      specialize (Hall' j' Hj'). fold n in Hse, Hj'. unfold other. rewrite Hz by lia.
      destruct (Z.eqb_spec j' j) as [->|]; [|done]. exists d. split; [done|]. intros E.
      apply Hne. apply (Huniq i e Hi Ei). by symmetry.
  - intros id d'. cbn [ddictPtrTable]. rewrite lookup_insert_Some, zlen_zupd. split.
    + intros [[<- <-]|[Hne Em]].
      * split; [done|]. exists j. split; [lia|]. rewrite Hz by lia. by rewrite Z.eqb_refl.
      * apply Hm in Em as (Hd' & i & Hi & Ei). split; [done|]. exists i. split; [done|]. rewrite Hz by lia.
        destruct (Z.eqb_spec i j) as [->|]; [|done]. exfalso. apply Hno. exists d'. split; [done|congruence].
    + intros (Hd' & i & Hi & Ei). rewrite Hz in Ei by lia. destruct (Z.eqb_spec i j) as [->|Hne].
      * left. injection Ei as <-. done.
      * right. split; [|apply Hm; split; [done|by exists i]]. intros E. apply Hne.
        apply (Huniq i d' Hi Ei). congruence.
Qed.

Lemma emplaceDDict_ok d :
  0 < ddict_dictID d < 2 ^ 32 ->
  match ZSTD_DDictHashSet_emplaceDDict le s d with
  | Ok s' => set_repr s' (<[ddict_dictID d := d]> m) /\ ddictPtrTableSize s' = n /\
      ddictPtrCount s <= ddictPtrCount s' <= ddictPtrCount s + 1
  | Err e => e = GENERIC /\ ddictPtrCount s = n
  | Stuck => run_to_end s (ddict_dictID d) /\ m !! ddict_dictID d = None
  end.
Proof.
  intros Hid. unfold ZSTD_DDictHashSet_emplaceDDict. cbv zeta. cbn [ZSTD_getDictID_fromDDict].
  rewrite getIndex_ok. cbn [bind]. fold n T. set (id := ddict_dictID d) in *.
  pose proof (dd_slot_range s id set_repr_wf) as Hs. fold n in Hs. pose proof nT as HnT.
  unfold RETURN_ERROR_IF. destruct (Z.eqb_spec (ddictPtrCount s) n) as [|_]; [done|].
  match goal with |- context [loop_ ?fu ?f ?i] =>
    pose proof (probe_ok s id set_repr_wf f (fun j => (j, bool_decide (is_Some (zat T j)))) i fu) as Hp end.
  cbv beta in Hp. fold n T in Hp. match type of Hp with ?P -> _ => assert P as H1 end.
  { intros j Hj Hno. rewrite rd_ok by lia. cbn [bind]. destruct (zat T j) as [e|] eqn:E; [|done].
    destruct (Z.eqb_spec (ddict_dictID e) id) as [|Hne]; [done|]. exfalso. apply Hno. exists e. exact (conj E Hne). }
  specialize (Hp H1). match type of Hp with ?P -> _ => assert P as H2 end.
  { intros j Hj (e & Ed & Hne). rewrite rd_ok by lia. cbn [bind]. rewrite Ed. by rewrite (proj2 (Z.eqb_neq _ _)) by lia. }
  specialize (Hp H2). match type of Hp with ?P -> _ => assert P as H3 end.
  { unfold rd. rewrite (proj2 (Z.ltb_ge n _)) by lia. by rewrite andb_false_r. }
  specialize (Hp H3 ltac:(lia)). clear H1 H2 H3. specialize (Hp ltac:(unfold zlen in *; lia)).
  destruct (loop_ _ _ _) as [[j p]| |]; cbn [bind]; [|done|by split; [|apply lookup_run]].
  destruct Hp as (j' & [= -> ->] & Hj & Hno & Hall). rewrite wr_ok by lia. cbn [bind].
  destruct (bool_decide _); cbn [ddictPtrTableSize ddictPtrCount]; (split; [by apply set_repr_insert|split; [done|lia]]).
Qed.
End refine.

Lemma set_repr_empty k c :
  0 <= k <= 40 -> set_repr (mkSet (zfill (2 ^ k) None) (2 ^ k) c) ∅.
Proof.
  intros Hk. pose proof (pow2_pos k ltac:(lia)).
  assert (zlen (zfill (2 ^ k) (@None ZSTD_DDict)) = 2 ^ k) as Hl by (apply zlen_zfill; lia).
  split; [constructor; cbn [ddictPtrTable ddictPtrTableSize]|].
  - done.
  - by exists k.
  - intros i d Hi. rewrite Hl in Hi. rewrite zat_zfill by done. done.
  - intros i d Hi. rewrite Hl in Hi. rewrite zat_zfill by done. done.
  - intros id d. rewrite lookup_empty. cbn [ddictPtrTable]. rewrite Hl. split; [done|].
    intros (_ & i & Hi & Ei). rewrite zat_zfill in Ei by done. done.
Qed.

Lemma expand_ok s m allocated :
  set_repr s m -> ddictPtrTableSize s < 2 ^ 40 ->
  pwp (ZSTD_DDictHashSet_expand le s allocated)
    (fun s' => set_repr s' m /\ ddictPtrTableSize s' = 2 * ddictPtrTableSize s /\
       0 <= ddictPtrCount s' <= ddictPtrTableSize s)
    (fun e => e = memory_allocation /\ allocated = false).
Proof.
  intros [Hw Hm] Hn. set (n := ddictPtrTableSize s) in *. set (T := ddictPtrTable s) in *.
  assert (n = zlen T) as HnT by apply (wf_size _ Hw). destruct (wf_pow _ Hw) as (k & Hk & E). fold n in E.
  assert (k < 40) by (apply (Z.pow_lt_mono_r_iff 2); lia). pose proof (pow2_pos k ltac:(lia)).
  unfold ZSTD_DDictHashSet_expand, DDICT_HASHSET_RESIZE_FACTOR. cbv zeta. fold n T. unfold RETURN_ERROR_IF.
  destruct allocated; cbn [negb]; [|by split]. rewrite u64_small by lia. replace (n * 2) with (2 ^ (k + 1)) by (rewrite pow2_S; lia).
  set (I := fun i s' => ddictPtrTableSize s' = 2 * n /\ 0 <= ddictPtrCount s' <= i /\
    exists m', set_repr s' m' /\ forall id d, m' !! id = Some d <-> ddict_dictID d = id /\ exists j, 0 <= j < i /\ zat T j = Some d).
  match goal with |- pwp ?x _ _ => assert (pwp x (I n) (fun e => False)) as Hl end.
  { apply pwp_for; [lia| |].
    - split; [cbn; rewrite pow2_S by lia; lia|]. split; [cbn; lia|]. exists ∅. split; [apply set_repr_empty; lia|].
      intros id d. rewrite lookup_empty. split; [done|]. intros (_ & j & Hj & _). lia.
    - intros i s' Hi (Hsz & Hc & m' & Hr' & Hm'). rewrite rd_ok by lia. cbn [bind]. destruct (zat T i) as [d|] eqn:Ei; cbn [pwp].
      + pose proof (wf_ids _ Hw i d ltac:(fold T; lia) Ei) as Hid. pose proof (emplaceDDict_ok s' m' Hr' d Hid) as He.
        destruct (ZSTD_DDictHashSet_emplaceDDict le s' d) as [s2| |]; cbn [pwp]; [|lia|done].
        destruct He as (Hr2 & Hs2 & Hc2). split; [lia|]. split; [lia|]. eexists. split; [done|]. intros id e.
        rewrite lookup_insert_Some, Hm'. split.
        * intros [[<- <-]|(Hne & He & j & Hj & Ej)]; (split; [done|]); [exists i|exists j]; (split; [lia|done]).
        * intros (He & j & Hj & Ej). destruct (decide (j = i)) as [->|]; [left; naive_solver congruence|].
          right. split; [|split; [done|exists j; split; [lia|done]]]. intros Heq.
          assert (m !! id = Some e) as E1 by (apply Hm; split; [done|]; exists j; fold T; split; [lia|done]).
          assert (m !! id = Some d) as E2 by (apply Hm; split; [done|]; exists i; fold T; split; [lia|done]).
          rewrite E2 in E1. injection E1 as <-.
          destruct (wf_probe _ Hw i d ltac:(fold T; lia) Ei) as [Hsi Hall]. destruct (wf_probe _ Hw j d ltac:(fold T; lia) Ej) as [Hsj _].
          destruct (Hall j ltac:(lia)) as (d' & Ed' & Hne'). fold T in Ed'. congruence.
      + split; [done|]. split; [lia|]. exists m'. split; [done|]. intros id e. rewrite Hm'. split.
        * intros (He & j & Hj & Ej). split; [done|]. exists j. split; [lia|done].
        * intros (He & j & Hj & Ej). split; [done|]. exists j. split; [|done].
          destruct (decide (j = i)) as [->|]; [congruence|lia]. }
  destruct (for_range _ _ _ _) as [s'|e|]; cbn [pwp] in *; [|done|done].
  destruct Hl as (Hsz & Hc & m' & Hr' & Hm'). split; [|split; [done|lia]].
  assert (m = m') as ->; [|done]. apply map_eq. intros id. apply option_eq. intros d. rewrite Hm, Hm'. fold T. by rewrite HnT.
Qed.

Lemma overloaded_spec s :
  0 < ddictPtrTableSize s -> 0 <= ddictPtrCount s < 2 ^ 60 ->
  overloaded s = (ddictPtrTableSize s <=? 4 * ddictPtrCount s).
Proof.
  intros Hn Hc. unfold overloaded, DDICT_HASHSET_MAX_LOAD_FACTOR_COUNT_MULT, DDICT_HASHSET_MAX_LOAD_FACTOR_SIZE_MULT.
  set (n := ddictPtrTableSize s) in *. rewrite (u64_small (ddictPtrCount s * 4)) by lia.
  set (c := ddictPtrCount s * 4) in *. replace (4 * ddictPtrCount s) with c by lia.
  assert (0 <= c / n <= c) as Hq by (split; [apply Z.div_pos; lia|apply Z.div_le_upper_bound; nia]).
  rewrite u64_small by lia. destruct (Z.leb_spec n c) as [Hle|Hlt].
  - assert (1 <= c / n) by (apply Z.div_le_lower_bound; lia). rewrite (proj2 (Z.eqb_neq _ _)) by lia. done.
  - by rewrite Z.div_small by lia.
Qed.

Lemma addDDict_ok s m d allocated :
  set_repr s m -> ddictPtrTableSize s < 2 ^ 40 -> 0 <= ddictPtrCount s <= ddictPtrTableSize s ->
  0 < ddict_dictID d < 2 ^ 32 ->
  pwp (ZSTD_DDictHashSet_addDDict le s d allocated)
    (fun s' => set_repr s' (<[ddict_dictID d := d]> m) /\ 0 <= ddictPtrCount s' <= ddictPtrTableSize s' /\
       ddictPtrTableSize s' =
         if ddictPtrTableSize s <=? 4 * ddictPtrCount s then 2 * ddictPtrTableSize s else ddictPtrTableSize s)
    (fun e => e = memory_allocation /\ allocated = false).
Proof.
  intros Hr Hn Hc Hid. unfold ZSTD_DDictHashSet_addDDict.
  assert (0 < ddictPtrTableSize s) as Hpos.
  { destruct Hr as [Hw _]. destruct (wf_pow _ Hw) as (k & Hk & ->). apply pow2_pos. lia. }
  rewrite overloaded_spec by lia. destruct (Z.leb_spec (ddictPtrTableSize s) (4 * ddictPtrCount s)) as [Ho|Ho].
  - pose proof (expand_ok s m allocated Hr Hn) as He.
    destruct (ZSTD_DDictHashSet_expand le s allocated) as [s1| |]; cbn [bind pwp] in *; [|done|done].
    destruct He as (Hr1 & Hs1 & Hc1). pose proof (emplaceDDict_ok s1 m Hr1 d Hid) as H2.
    destruct (ZSTD_DDictHashSet_emplaceDDict le s1 d) as [s2| |]; cbn [pwp]; [|lia|done].
    destruct H2 as (Hr2 & Hs2 & Hc2). split; [done|]. split; lia.
  - cbn [bind]. pose proof (emplaceDDict_ok s m Hr d Hid) as H2.
    destruct (ZSTD_DDictHashSet_emplaceDDict le s d) as [s2| |]; cbn [pwp]; [|lia|done].
    destruct H2 as (Hr2 & Hs2 & Hc2). split; [done|]. split; lia.
Qed.

(** The set of a context that has just been created. *)
Definition empty_set : ZSTD_DDictHashSet :=
  mkSet (zfill DDICT_HASHSET_TABLE_BASE_SIZE None) DDICT_HASHSET_TABLE_BASE_SIZE 0.

Lemma empty_set_wf : set_wf empty_set.
Proof. apply (set_repr_empty 6 0). lia. Qed.

Lemma add_first d :
  0 <= ddict_dictID d < 2 ^ 32 ->
  ZSTD_DDictHashSet_addDDict le empty_set d true
  = Ok (mkSet (zupd (zfill 64 None) (slot_of 64 (ddict_dictID d)) (Some d)) 64 1).
Proof.
  intros Hid. pose proof (dd_slot_range empty_set (ddict_dictID d) empty_set_wf) as Hs. change (ddictPtrTableSize empty_set) with 64 in Hs.
  unfold ZSTD_DDictHashSet_addDDict. change (overloaded empty_set) with false. cbn [bind].
  unfold ZSTD_DDictHashSet_emplaceDDict. rewrite getIndex_ok. cbn [bind]. cbv zeta.
  change (ddictPtrTableSize empty_set) with 64. change (ddictPtrTable empty_set) with (zfill 64 (@None ZSTD_DDict)).
  change (ddictPtrCount empty_set =? 64) with false. cbn [RETURN_ERROR_IF].
  set (j := slot_of 64 _) in *. change (length (zfill 64 None)) with 64%nat. cbn [loop_].
  rewrite rd_ok by (rewrite zlen_zfill; lia). rewrite zat_zfill by lia. cbn [bind].
  rewrite wr_ok by (rewrite zlen_zfill; lia). done.
Qed.
(** A search that starts at the last slot, taken by another id. *)
Lemma search_past_end T d1 d2 :
  zlen T = 64 -> rd T 63 = Ok (Some d1) -> 0 < ddict_dictID d1 -> ddict_dictID d1 <> ddict_dictID d2 ->
  slot_of 64 (ddict_dictID d2) = 63 ->
  ZSTD_DDictHashSet_addDDict le (mkSet T 64 1) d2 true = Stuck /\
  ZSTD_DDictHashSet_getDDict le (mkSet T 64 1) (ddict_dictID d2) = Stuck.
Proof.
  intros Hl Hr63 Hid Hne E2. assert (rd T 64 = Stuck) as Hr64.
  { unfold rd. rewrite (proj2 (Z.ltb_ge 64 _)) by lia. by rewrite andb_false_r. }
  assert (exists k, length T = S (S k)) as [k Hk] by (exists 62%nat; unfold zlen in Hl; lia).
  assert (ZSTD_DDictHashSet_getIndex le (mkSet T 64 1) (ddict_dictID d2) = Ok 63) as Hi.
  { rewrite getIndex_ok. cbn [ddictPtrTableSize]. by rewrite E2. }
  split.
  - unfold ZSTD_DDictHashSet_addDDict. rewrite overloaded_spec by (cbn; lia).
    cbn [ddictPtrTableSize ddictPtrCount]. rewrite (proj2 (Z.leb_gt 64 _)) by lia. cbn [bind].
    unfold ZSTD_DDictHashSet_emplaceDDict. cbn [ZSTD_getDictID_fromDDict]. rewrite Hi.
    cbn [bind ddictPtrTableSize ddictPtrCount ddictPtrTable]. rewrite (proj2 (Z.eqb_neq 1 64)) by lia.
    unfold RETURN_ERROR_IF. rewrite Hk. cbn [loop_]. rewrite Hr63. cbn [bind].
    rewrite (proj2 (Z.eqb_neq _ _)) by lia. cbn [bind]. change (63 .& (64 - 1) + 1) with 64. by rewrite Hr64.
  - unfold ZSTD_DDictHashSet_getDDict. rewrite Hi. cbn [bind ddictPtrTableSize ddictPtrTable].
    rewrite Hk. cbn [loop_]. rewrite Hr63. cbn [bind ZSTD_getDictID_fromDDict].
    rewrite !(proj2 (Z.eqb_neq _ _)) by lia. cbn [bind orb]. change (63 .& (64 - 1) + 1) with 64. by rewrite Hr64.
Qed.
(** A search that meets an entry whose id is 0. *)
Lemma search_finds_raw T d id j :
  0 < zlen T -> rd T j = Ok (Some d) -> ddict_dictID d = 0 -> slot_of 64 id = j ->
  ZSTD_DDictHashSet_getDDict le (mkSet T 64 1) id = Ok (Some d).
Proof.
  intros Hl Hrd Hd Hj. assert (exists k, length T = S k) as [k Hk] by (exists (length T - 1)%nat; unfold zlen in Hl; lia).
  unfold ZSTD_DDictHashSet_getDDict. rewrite getIndex_ok. cbn [bind ddictPtrTableSize ddictPtrTable]. rewrite Hj, Hk.
  cbn [loop_]. rewrite Hrd. cbn [bind ZSTD_getDictID_fromDDict]. rewrite Hd, orb_true_r. cbn [bind]. by rewrite Hrd.
Qed.
End refinement.

(** ** Properties *)



(** The search leaves the table. The searches of the set advance with
    [idx &= mask; idx++], so that after the last slot the index is the size of
    the table and not 0. Once a dictionary hashed to the last slot is in the
    set, adding a dictionary of another id hashed to that slot, and looking such
    an id up (the id of a frame header), read past the end of the table. *)
Theorem DDictHashSet_search_leaves_table (le : bool) (d1 d2 : ZSTD_DDict) :
  0 < ddict_dictID d1 < 2 ^ 32 -> 0 < ddict_dictID d2 < 2 ^ 32 -> ddict_dictID d1 <> ddict_dictID d2 ->
  slot_of le 64 (ddict_dictID d1) = 63 -> slot_of le 64 (ddict_dictID d2) = 63 ->
  exists s1, ZSTD_DDictHashSet_addDDict le empty_set d1 true = Ok s1 /\
    ZSTD_DDictHashSet_addDDict le s1 d2 true = Stuck /\
    ZSTD_DDictHashSet_getDDict le s1 (ddict_dictID d2) = Stuck.
Proof.
  intros H1 H2 Hne E1 E2. pose proof (add_first le d1 ltac:(lia)) as Ha. rewrite E1 in Ha.
  eexists. split; [exact Ha|]. clear Ha E1.
  assert (zlen (zupd (zfill 64 None) 63 (Some d1)) = 64) as Hl by (rewrite zlen_zupd, zlen_zfill; lia).
  apply (search_past_end le _ d1 d2 Hl); [|lia|done|exact E2].
  rewrite rd_ok by lia. by rewrite zat_zupd_eq by (rewrite zlen_zfill; lia).
Qed.

Lemma DDictHashSet_search_leaves_table_witness :
  exists s1, ZSTD_DDictHashSet_addDDict true empty_set (mkDDict 3 1) true = Ok s1 /\
    ZSTD_DDictHashSet_addDDict true s1 (mkDDict 47 2) true = Stuck /\
    ZSTD_DDictHashSet_getDDict true s1 47 = Stuck.
Proof.
  apply (DDictHashSet_search_leaves_table true (mkDDict 3 1) (mkDDict 47 2));
    [cbn; lia|cbn; lia|cbn; lia|vm_compute; reflexivity|vm_compute; reflexivity].
Defined.

(** The set grows at a load of one quarter. The comment of the two
    constants says that the test of [ZSTD_DDictHashSet_addDDict] holds beyond a
    load factor of 0.75; for every count and size it holds exactly from a load
    of 0.25 on, because the factor 3 multiplies the quotient. *)
Theorem DDictHashSet_load_factor (s : ZSTD_DDictHashSet) :
  0 < ddictPtrTableSize s -> 0 <= ddictPtrCount s < 2 ^ 60 ->
  overloaded s = (ddictPtrTableSize s <=? 4 * ddictPtrCount s).
Proof. apply overloaded_spec. Qed.

Lemma DDictHashSet_load_factor_witness : overloaded (mkSet [] 64 16) = (64 <=? 4 * 16).
Proof. apply (DDictHashSet_load_factor (mkSet [] 64 16)); cbn; lia. Defined.

(** C39: a dictionary without an id is taken for the one a frame asks for. The
    lookup of the set takes the id 0 for a free slot; a raw-content dictionary
    has that id too. When such a dictionary was referenced and a frame names an
    id hashed to the same slot, [ZSTD_DCtx_selectFrameDDict] selects it and
    records the id of the frame as its id, so that the comparison of the two
    ids that follows in [ZSTD_decodeFrameHeader] accepts the frame. *)
Theorem selectFrameDDict_takes_raw_dictionary (le : bool) dctx (d : ZSTD_DDict) :
  dctx_init dctx = true -> dctx_refMultipleDDicts dctx = true -> dctx_ddictSet dctx = None ->
  ddict_dictID d = 0 -> 0 < dctx_frameDictID dctx < 2 ^ 32 ->
  slot_of le 64 (dctx_frameDictID dctx) = slot_of le 64 0 ->
  let '(dctx1, r) := ZSTD_DCtx_refDDict le dctx (Some d) true true true in
  r = Ok tt /\ exists dctx2, ZSTD_DCtx_selectFrameDDict le dctx1 = Ok dctx2 /\
    dctx_ddict dctx2 = Some d /\ dctx_dictID dctx2 = dctx_frameDictID dctx2.
Proof.
  intros Hi Hm Hs Hd Hf Hslot. unfold ZSTD_DCtx_refDDict. rewrite Hi. cbn [negb].
  unfold ZSTD_clearDict. cbn [dctx_refMultipleDDicts dctx_ddictSet dctx_init dctx_frameDictID dctx_ddictLocal dctx_dictID].
  rewrite Hm, Hs. cbn [ZSTD_createDDictHashSet negb]. pose proof (add_first le d ltac:(lia)) as Ha.
  unfold empty_set in Ha. rewrite Ha, Hd. clear Ha.
  pose proof (dd_slot_range le empty_set 0 (empty_set_wf le)) as Hr. cbn [ddictPtrTableSize empty_set] in Hr.
  unfold DDICT_HASHSET_TABLE_BASE_SIZE in Hr. set (j := slot_of le 64 0) in *. clearbody j. split; [done|].
  assert (zlen (zupd (zfill 64 None) j (Some d)) = 64) as Hl by (rewrite zlen_zupd, zlen_zfill; lia).
  assert (rd (zupd (zfill 64 None) j (Some d)) j = Ok (Some d)) as Hrd.
  { rewrite rd_ok by lia. by rewrite zat_zupd_eq by (rewrite zlen_zfill; lia). }
  unfold ZSTD_DCtx_selectFrameDDict. cbn [dctx_ddict dctx_ddictSet dctx_frameDictID].
  rewrite (search_finds_raw le (zupd (zfill 64 None) j (Some d)) d _ j ltac:(lia) Hrd Hd Hslot). cbn [bind]. eexists. split; [done|]. done.
Qed.

Lemma selectFrameDDict_takes_raw_dictionary_witness :
  let '(dctx1, r) := ZSTD_DCtx_refDDict true (mkDCtx None None 0 ZSTD_dont_use None true true 21)
    (Some (mkDDict 0 9)) true true true in
  r = Ok tt /\ exists dctx2, ZSTD_DCtx_selectFrameDDict true dctx1 = Ok dctx2 /\
    dctx_ddict dctx2 = Some (mkDDict 0 9) /\ dctx_dictID dctx2 = dctx_frameDictID dctx2.
Proof.
  apply (selectFrameDDict_takes_raw_dictionary true (mkDCtx None None 0 ZSTD_dont_use None true true 21) (mkDDict 0 9));
    [done|done|done|done|cbn; lia|vm_compute; reflexivity].
Defined.
