(* ===== verification/DCtx.v ===== *)
(** The decompression context (decompress/zstd_decompress.c, decompress/zstd_ddict.c):
    its initialisation for a frame, with a dictionary that is loaded or one that was
    digested before. *)

From S2P Require Import Prelude Errors Outcome Bits Mem FseTable FseBuild FseNCount HufStats HufCode HufDTable HufDecode HufRoundtrip Wire LzCopy ExecSequence SeqTables SeqDecode Frame LitDecode BlockDecode XxHash DDict.

(** ** Definitions *)

Definition ZSTD_MAGIC_DICTIONARY : Z := 0xEC30A437.
Definition repStartValue : list Z := [1; 4; 8].

Inductive ZSTD_dStage :=
  | ZSTDds_getFrameHeaderSize | ZSTDds_decodeFrameHeader | ZSTDds_decodeBlockHeader | ZSTDds_decompressBlock
  | ZSTDds_decompressLastBlock | ZSTDds_checkChecksum | ZSTDds_decodeSkippableHeader | ZSTDds_skipFrame.
#[global] Instance ZSTD_dStage_eq_dec : EqDecision ZSTD_dStage.
Proof. solve_decision. Defined.

(** The fields of [ZSTD_DCtx] that say how far a frame is decoded. *)
Record stage_DCtx := mkStage {
  sd_expected : Z;
  sd_stage : ZSTD_dStage;
  sd_processedCSize : Z;
  sd_decodedSize : Z;
  sd_bType : blockType_e;
  sd_rleSize : Z;
  sd_headerSize : Z;
  sd_headerBuffer : list Z;
}.

(** The fields of [ZSTD_DCtx] that decoding a frame uses: those of a block, of its
    dictionaries, of its stages and of its parameters. [fParams.blockSizeMax] is
    kept in [fd_block], [fParams.dictID] in [fd_dict] too. *)
Record frame_DCtx := mkFrameDCtx {
  fd_block : block_DCtx;
  fd_dict : ZSTD_DCtx;
  fd_stage : stage_DCtx;
  fd_format : ZSTD_format_e;
  fd_forceIgnoreChecksum : bool;
  fd_maxBlockSizeParam : Z;
  fd_fParams : ZSTD_FrameHeader;
  fd_validateChecksum : bool;
  fd_xxhState : XXH64_state_t;
}.

(** [ZSTD_entropyDTables_t]. *)
Record ZSTD_entropyDTables_t := mkEntropyD {
  ed_LLTable : ZSTD_seqTable;
  ed_OFTable : ZSTD_seqTable;
  ed_MLTable : ZSTD_seqTable;
  ed_hufTable : HUF_DTable;
  ed_rep : list Z;
}.

(** A digested dictionary: [entropyPresent] is whether there are tables. *)
Record DDict_content := mkDDictContent {
  dd_dictContent : list Z;
  dd_dictID : Z;
  dd_entropy : option ZSTD_entropyDTables_t;
}.

(** What the memory holds when a table of the dictionary is built: the array of counts,
    the cells and the workspace. *)
Record table_scratch := mkTableScratch {
  ts_nCount : list Z;
  ts_cells : list ZSTD_seqSymbol;
  ts_wksp : seq_wksp;
}.
Record dict_scratch := mkDictScratch {
  ds_huf : HUF_ReadDTableX1_Workspace;
  ds_OF : table_scratch;
  ds_ML : table_scratch;
  ds_LL : table_scratch;
}.

(** [RETURN_ERROR_IF(ZSTD_isError(x), dictionary_corrupted)]. *)
Definition or_dictionary_corrupted {A} (m : result A) : result A :=
  match m with Err _ => Err dictionary_corrupted | m => m end.

Section dict.
Context (MEM_isLittleEndian : bool).

(** One of the three tables of sequences: the size of its description and the table. *)
Definition load_table (w : table_scratch) (max maxLog : Z) (base bits : list Z) (src : list Z) : result (Z * ZSTD_seqTable) :=
  let* r := or_dictionary_corrupted (FSE_readNCount (ts_nCount w) max src) in
  ERROR_IF nco_maxSV r >? max THEN dictionary_corrupted ;;
  ERROR_IF nco_tableLog r >? maxLog THEN dictionary_corrupted ;;
  let* table := ZSTD_buildFSETable (ts_cells w) (nco_norm r) (nco_maxSV r) base bits (nco_tableLog r) (ts_wksp w) in
  Ok (nco_size r, table).

(** A build with HUF_FORCE_DECOMPRESS_X1. The tables and the size read. *)
Definition ZSTD_loadDEntropy (hufTable : HUF_DTable) (dict : list Z) (w : dict_scratch) : result (ZSTD_entropyDTables_t * Z) :=
  let dictEnd := zlen dict in
  let from p := zsub dict p (dictEnd - p) in
  ERROR_IF zlen dict <=? 8 THEN dictionary_corrupted ;;
  let dictPtr := 8 in
  let* '(hufTable, hSize) := or_dictionary_corrupted (HUF_readDTableX1_wksp MEM_isLittleEndian hufTable (from dictPtr) (ds_huf w)) in
  let dictPtr := dictPtr + hSize in
  let* '(offcodeHeaderSize, OFTable) := load_table (ds_OF w) MaxOff OffFSELog OF_base OF_bits (from dictPtr) in
  let dictPtr := dictPtr + offcodeHeaderSize in
  let* '(matchlengthHeaderSize, MLTable) := load_table (ds_ML w) MaxML MLFSELog ML_base ML_bits (from dictPtr) in
  let dictPtr := dictPtr + matchlengthHeaderSize in
  let* '(litlengthHeaderSize, LLTable) := load_table (ds_LL w) MaxLL LLFSELog LL_base LL_bits (from dictPtr) in
  let dictPtr := dictPtr + litlengthHeaderSize in
  ERROR_IF dictPtr + 12 >? dictEnd THEN dictionary_corrupted ;;
  let dictContentSize := dictEnd - (dictPtr + 12) in
  let* '(rep, dictPtr) :=
    for_range 0 3 (fun i '(reps, dictPtr) =>
      let* rep := readLE32 dict dictPtr in
      ERROR_IF (rep =? 0) || (rep >? dictContentSize) THEN dictionary_corrupted ;;
      Ok (reps ++ [rep], dictPtr + 4)) ([], dictPtr) in
  Ok (mkEntropyD LLTable OFTable MLTable hufTable rep, dictPtr).

Definition ZSTD_getDictID_fromDict (dict : list Z) : result Z :=
  if zlen dict <? 8 then Ok 0
  else
    let* magic := readLE32 dict 0 in
    if negb (magic =? ZSTD_MAGIC_DICTIONARY) then Ok 0 else readLE32 dict ZSTD_FRAMEIDSIZE.

(** *** The context at the start of a frame *)

Definition set_block (dctx : frame_DCtx) (b : block_DCtx) : frame_DCtx :=
  mkFrameDCtx b (fd_dict dctx) (fd_stage dctx) (fd_format dctx) (fd_forceIgnoreChecksum dctx) (fd_maxBlockSizeParam dctx)
    (fd_fParams dctx) (fd_validateChecksum dctx) (fd_xxhState dctx).
Definition set_stage (dctx : frame_DCtx) (s : stage_DCtx) : frame_DCtx :=
  mkFrameDCtx (fd_block dctx) (fd_dict dctx) s (fd_format dctx) (fd_forceIgnoreChecksum dctx) (fd_maxBlockSizeParam dctx)
    (fd_fParams dctx) (fd_validateChecksum dctx) (fd_xxhState dctx).
Definition set_dict (dctx : frame_DCtx) (c : ZSTD_DCtx) : frame_DCtx :=
  mkFrameDCtx (fd_block dctx) c (fd_stage dctx) (fd_format dctx) (fd_forceIgnoreChecksum dctx) (fd_maxBlockSizeParam dctx)
    (fd_fParams dctx) (fd_validateChecksum dctx) (fd_xxhState dctx).

(** [dctx->dictID = id]. *)
Definition set_dictID (c : ZSTD_DCtx) (id : Z) : ZSTD_DCtx :=
  mkDCtx (dctx_ddictLocal c) (dctx_ddict c) id (dctx_dictUses c) (dctx_ddictSet c) (dctx_refMultipleDDicts c) (dctx_init c) (dctx_frameDictID c).

(** A table whose first word is [ZSTD_HUFFDTABLE_CAPACITY_LOG * 0x1000001]. *)
Definition reset_hufTable (t : HUF_DTable) : HUF_DTable :=
  mkHDTable (mkDesc ZSTD_HUFFDTABLE_CAPACITY_LOG 0 0 ZSTD_HUFFDTABLE_CAPACITY_LOG) (hdt_mem t).

(** Null pointers are the start of an empty buffer. *)
Definition null_ptr : src_ptr := In_buf [] 0.

Definition ZSTD_decompressBegin (dctx : frame_DCtx) : frame_DCtx :=
  let b := fd_block dctx in
  let lc := bc_lit b in
  let s := fd_stage dctx in
  let lc := mkLitDCtx true (lc_blockSizeMax lc) (reset_hufTable (lc_hufTable lc)) own_hufTable false (lc_litExtraBuffer lc)
              (lc_litBuffer lc) (lc_litBufferEnd lc) (lc_litBufferLocation lc) (lc_litPtr lc) (lc_litSize lc) in
  let tables := mkSeqTables (LLTptr (bc_tables b)) (OFTptr (bc_tables b)) (MLTptr (bc_tables b)) 0 in
  let b := mkBlockDCtx lc tables repStartValue null_ptr null_ptr 0 null_ptr in
  let s := mkStage (ZSTD_startingInputLength (fd_format dctx)) ZSTDds_getFrameHeaderSize 0 0 bt_reserved (sd_rleSize s)
             (sd_headerSize s) (sd_headerBuffer s) in
  set_stage (set_dict (set_block dctx b) (set_dictID (fd_dict dctx) 0)) s.

(** The content [content] of a dictionary becomes the segment before the output. *)
Definition ZSTD_refDictContent (b : block_DCtx) (content : list Z) : block_DCtx :=
  mkBlockDCtx (bc_lit b) (bc_tables b) (bc_rep b) (In_buf content (zlen content)) (In_buf content 0)
    (0 - (ptr_ix (bc_previousDstEnd b) - ptr_ix (bc_prefixStart b))) (bc_previousDstEnd b).

(** Tables of a dictionary in the tables of the context. *)
Definition use_entropy (b : block_DCtx) (e : ZSTD_entropyDTables_t) (HUFptr : HUF_ptr) : block_DCtx :=
  let lc := bc_lit b in
  let hufTable := match HUFptr with own_hufTable => ed_hufTable e | dict_hufTable _ => lc_hufTable lc end in
  mkBlockDCtx (set_huf lc hufTable HUFptr true) (mkSeqTables (ed_LLTable e) (ed_OFTable e) (ed_MLTable e) 1)
    (ed_rep e) (bc_previousDstEnd b) (bc_prefixStart b) (bc_virtualStart b) (bc_dictEnd b).

Definition ZSTD_decompress_insertDictionary (dctx : frame_DCtx) (dict : list Z) (w : dict_scratch) : result frame_DCtx :=
  let pure_content := Ok (set_block dctx (ZSTD_refDictContent (fd_block dctx) dict)) in
  if zlen dict <? 8 then pure_content
  else
    let* magic := readLE32 dict 0 in
    if negb (magic =? ZSTD_MAGIC_DICTIONARY) then pure_content
    else
      let* dictID := readLE32 dict ZSTD_FRAMEIDSIZE in
      (* load entropy tables *)
      let* '(entropy, eSize) := or_dictionary_corrupted (ZSTD_loadDEntropy (lc_hufTable (bc_lit (fd_block dctx))) dict w) in
      let b := use_entropy (fd_block dctx) entropy own_hufTable in
      (* reference dictionary content *)
      Ok (set_dict (set_block dctx (ZSTD_refDictContent b (zsub dict eSize (zlen dict - eSize)))) (set_dictID (fd_dict dctx) dictID)).

(** No dictionary is an empty one. *)
Definition ZSTD_decompressBegin_usingDict (dctx : frame_DCtx) (dict : list Z) (w : dict_scratch) : result frame_DCtx :=
  let dctx := ZSTD_decompressBegin dctx in
  if negb (zlen dict =? 0) then or_dictionary_corrupted (ZSTD_decompress_insertDictionary dctx dict w) else Ok dctx.

(** *** Digested dictionaries *)

Inductive ZSTD_dictContentType_e := ZSTD_dct_auto | ZSTD_dct_rawContent | ZSTD_dct_fullDict.

Definition ZSTD_loadEntropy_intoDDict (hufTable : HUF_DTable) (content : list Z) (dictContentType : ZSTD_dictContentType_e)
    (w : dict_scratch) : result DDict_content :=
  let pure_content :=
    match dictContentType with
    | ZSTD_dct_fullDict => Err dictionary_corrupted
    | _ => Ok (mkDDictContent content 0 None)
    end in
  match dictContentType with
  | ZSTD_dct_rawContent => Ok (mkDDictContent content 0 None)
  | _ =>
      if zlen content <? 8 then pure_content
      else
        let* magic := readLE32 content 0 in
        if negb (magic =? ZSTD_MAGIC_DICTIONARY) then pure_content
        else
          let* dictID := readLE32 content ZSTD_FRAMEIDSIZE in
          let* '(entropy, _) := or_dictionary_corrupted (ZSTD_loadDEntropy hufTable content w) in
          Ok (mkDDictContent content dictID (Some entropy))
  end.

(** [mem] is what the memory of the Huffman table holds; [allocated] is whether a copy of the
    dictionary can be allocated, where one is made. *)
Definition ZSTD_initDDict_internal (mem dict : list Z) (dictContentType : ZSTD_dictContentType_e) (byRef allocated : bool)
    (w : dict_scratch) : result DDict_content :=
  ERROR_IF negb byRef && negb (zlen dict =? 0) && negb allocated THEN memory_allocation ;;
  ZSTD_loadEntropy_intoDDict (reset_hufTable (mkHDTable (mkDesc 0 0 0 0) mem)) dict dictContentType w.

Definition ZSTD_copyDDictParameters (dctx : frame_DCtx) (ddict : DDict_content) : frame_DCtx :=
  let content := dd_dictContent ddict in
  let b := fd_block dctx in
  let dictEnd := In_buf content (zlen content) in
  let b := mkBlockDCtx (bc_lit b) (bc_tables b) (bc_rep b) dictEnd (In_buf content 0) 0 dictEnd in
  let b :=
    match dd_entropy ddict with
    | Some e => use_entropy b e (dict_hufTable (ed_hufTable e))
    | None =>
        let t := bc_tables b in
        let lc := bc_lit b in
        mkBlockDCtx (set_huf lc (lc_hufTable lc) (lc_HUFptr lc) false) (mkSeqTables (LLTptr t) (OFTptr t) (MLTptr t) 0) (bc_rep b)
          (bc_previousDstEnd b) (bc_prefixStart b) (bc_virtualStart b) (bc_dictEnd b)
    end in
  set_dict (set_block dctx b) (set_dictID (fd_dict dctx) (dd_dictID ddict)).

Definition ZSTD_decompressBegin_usingDDict (dctx : frame_DCtx) (ddict : option DDict_content) : frame_DCtx :=
  let dctx := ZSTD_decompressBegin dctx in
  match ddict with
  | Some d => ZSTD_copyDDictParameters dctx d
  | None => dctx
  end.

End dict.

(** *** Well-formedness *)

Definition table_scratch_ok (max maxLog : Z) (w : table_scratch) : Prop :=
  zlen (ts_nCount w) = max + 1 /\ 2 ^ maxLog <= zlen (ts_cells w) /\ seq_wksp_ok (ts_wksp w).
Definition dict_scratch_ok (w : dict_scratch) : Prop :=
  rdw_ok (ds_huf w) /\ table_scratch_ok MaxOff OffFSELog (ds_OF w) /\ table_scratch_ok MaxML MLFSELog (ds_ML w) /\
  table_scratch_ok MaxLL LLFSELog (ds_LL w).

(** Tables that blocks can repeat. *)
Record entropy_ok (e : ZSTD_entropyDTables_t) : Prop := {
  eo_tables : seq_tables_wf (mkSeqTables (ed_LLTable e) (ed_OFTable e) (ed_MLTable e) 1);
  eo_huf : hufTable_ok (ed_hufTable e) /\ dtable_safe (hdt_mem (ed_hufTable e)) (dtd_tableLog (hdt_desc (ed_hufTable e)));
  eo_rep : prev_ok (ed_rep e) /\ prev_small (ed_rep e);
}.

Record DDict_ok (dd : DDict_content) : Prop := {
  do_content : bytes_ok (dd_dictContent dd);
  do_entropy : forall e, dd_entropy dd = Some e -> entropy_ok e;
}.

(** The memory that is allocated with a context. *)
Record dctx_memory (b : block_DCtx) : Prop := {
  dm_table : zlen (hdt_mem (lc_hufTable (bc_lit b))) = 4 * 2 ^ ZSTD_HUFFDTABLE_CAPACITY_LOG;
  dm_extra : zlen (lc_litExtraBuffer (bc_lit b)) = ZSTD_LITBUFFEREXTRASIZE + WILDCOPY_OVERLENGTH /\ bytes_ok (lc_litExtraBuffer (bc_lit b));
}.

(** A context that is ready for a frame: nothing is decoded yet, and [dict] is the
    segment that precedes. *)
Record begun (dict : list Z) (b : block_DCtx) : Prop := {
  bg_memory : dctx_memory b;
  bg_frame : lc_isFrameDecompression (bc_lit b) = true;
  bg_table : hufTable_ok (lc_hufTable (bc_lit b));
  bg_entropy : lc_litEntropy (bc_lit b) = true ->
    dtable_safe (hdt_mem (HUFptr_table (bc_lit b))) (dtd_tableLog (hdt_desc (HUFptr_table (bc_lit b))));
  bg_tables : fseEntropy (bc_tables b) <> 0 -> seq_tables_wf (bc_tables b);
  bg_rep : prev_ok (bc_rep b) /\ prev_small (bc_rep b);
  bg_prefix : bc_prefixStart b = In_buf dict 0;
  bg_end : bc_previousDstEnd b = In_buf dict (zlen dict);
}.

(** ** Lemmas *)

Lemma or_dictionary_corrupted_wp {A} (m : result A) (Q : A -> Prop) : wp m Q any_error -> wp (or_dictionary_corrupted m) Q any_error.
Proof. by destruct m. Qed.

Lemma load_table_ok w max maxLog base bits src :
  bytes_ok src -> zlen src < 2 ^ 26 -> 0 <= max <= MaxSeq -> 0 <= maxLog <= 9 -> table_scratch_ok max maxLog w ->
  zlen base = max + 1 -> zlen bits = max + 1 ->
  wp (load_table w max maxLog base bits src) (fun '(n, t) => 0 <= n <= zlen src /\ seqTable_wf base bits max maxLog t) any_error.
Proof.
  intros Hb Hl Hmax Hml (Hn & Hsp & Hw1 & Hw2) Hbase Hbits. change MaxSeq with 52 in *. change MaxFSELog with 9 in *. unfold load_table.
  apply wp_bind. eapply wp_mono; [apply or_dictionary_corrupted_wp, (readNCount_ok (ts_nCount w) max src); done || lia| |done].
  intros r (Hsz & Hms & Htl & Hln & Hok). wp_step; [done|]. wp_step; [done|]. destruct Hok as [Hok|[? _]]; [|lia]. wp_step.
  replace (nco_maxSV r) with (nco_maxSV r + 1 - 1) by lia.
  assert (2 ^ nco_tableLog r <= 2 ^ maxLog) by (apply pow2_le; lia). assert (2 ^ maxLog <= 2 ^ 9) by (apply pow2_le; lia).
  rewrite buildFSETable_ok; [|done|lia|lia|lia|lia|lia]. cbn [wp]. split; [lia|]. apply seq_table_wf; [done|lia|lia].
Qed.

Lemma loadDEntropy_ok le t dict w :
  hufTable_ok t -> bytes_ok dict -> zlen dict < 2 ^ 26 -> dict_scratch_ok w ->
  wp (ZSTD_loadDEntropy le t dict w) (fun '(e, n) => 8 <= n <= zlen dict /\ entropy_ok e /\ zlen (hdt_mem (ed_hufTable e)) = zlen (hdt_mem t)) any_error.
Proof.
  intros Ht Hb Hl (Hw & Hof & Hml & Hll). unfold ZSTD_loadDEntropy. cbv zeta. wp_step; [done|].
  assert (forall p, 0 <= p <= zlen dict -> bytes_ok (zsub dict p (zlen dict - p)) /\ zlen (zsub dict p (zlen dict - p)) = zlen dict - p) as Hfrom
    by (intros p Hp; split; [by apply bytes_ok_zsub|apply zlen_zsub; lia]).
  destruct (Hfrom 8 ltac:(lia)) as [Hb1 El1]. apply wp_bind.
  eapply wp_mono; [apply or_dictionary_corrupted_wp, (readDTableX1_any le t _ (ds_huf w) (proj1 Ht)); done || lia| |done].
  intros [t' hs] (Hhs & Em & Hdt' & L & ws & Hk & Hn & HL & Hd). rewrite El1 in Hhs.
  assert (zlen (hdt_mem t') = zlen (hdt_mem t)) as Emem by (destruct Ht as [[_ ->] _], Hdt' as [_ ->]; by rewrite Em).
  assert (hufTable_ok t') as Ht' by (destruct Ht as [_ Et]; split; [done|congruence]).
  assert (dtable_safe (hdt_mem t') (dtd_tableLog (hdt_desc t'))) as Hsafe by (pose proof Hd as (-> & _); by apply (dtableX1_safe ws); [|lia|]).
  destruct (Hfrom (8 + hs) ltac:(lia)) as [Hb2 El2]. apply wp_bind.
  eapply wp_mono; [apply (load_table_ok (ds_OF w) MaxOff OffFSELog OF_base OF_bits); done || lia| |done]. intros [n1 oft] [Hn1 Hoft]. rewrite El2 in Hn1.
  destruct (Hfrom (8 + hs + n1) ltac:(lia)) as [Hb3 El3]. apply wp_bind.
  eapply wp_mono; [apply (load_table_ok (ds_ML w) MaxML MLFSELog ML_base ML_bits); done || lia| |done]. intros [n2 mlt] [Hn2 Hmlt]. rewrite El3 in Hn2.
  destruct (Hfrom (8 + hs + n1 + n2) ltac:(lia)) as [Hb4 El4]. apply wp_bind.
  eapply wp_mono; [apply (load_table_ok (ds_LL w) MaxLL LLFSELog LL_base LL_bits); done || lia| |done]. intros [n3 llt] [Hn3 Hllt]. rewrite El4 in Hn3.
  wp_step; [done|]. apply wp_bind.
  apply (wp_for (fun i '(reps, p) => p = 8 + hs + n1 + n2 + n3 + 4 * i /\ zlen reps = i /\ Forall (fun x => 1 <= x < 2 ^ 32) reps)); [done| | |].
  - split; [lia|done].
  - intros i [reps p] Hi (-> & Hlr & Hr). apply wp_bind. apply wp_readLE32; [done|lia|lia|]. intros v Hv. cbv beta. wp_step; [done|]. wp_step.
    split; [lia|]. rewrite zlen_app. split; [change (zlen [v]) with 1; lia|]. apply Forall_app. split; [done|]. constructor; [lia|done].
  - intros [reps p] (-> & Hlr & Hr). wp_step. split; [lia|]. split; [|done]. split; cbn; [split_and!; done|done|].
    split; [split; [done|]|]; (eapply Forall_impl; [exact Hr|]; cbn; lia).
Qed.

(** What a frame does not change of its context. *)
Definition same_settings (dctx dctx' : frame_DCtx) : Prop :=
  fd_format dctx' = fd_format dctx /\ fd_forceIgnoreChecksum dctx' = fd_forceIgnoreChecksum dctx /\
  fd_maxBlockSizeParam dctx' = fd_maxBlockSizeParam dctx /\ dctx_refMultipleDDicts (fd_dict dctx') = dctx_refMultipleDDicts (fd_dict dctx) /\
  dctx_ddictSet (fd_dict dctx') = dctx_ddictSet (fd_dict dctx).

Lemma same_settings_trans c1 c2 c3 : same_settings c1 c2 -> same_settings c2 c3 -> same_settings c1 c3.
Proof. unfold same_settings. intuition congruence. Qed.

Lemma repStart_ok : prev_ok repStartValue /\ prev_small repStartValue.
Proof. split; [apply prev_ok_3; lia|apply prev_small_3; lia]. Qed.

Lemma decompressBegin_ok dctx :
  dctx_memory (fd_block dctx) -> begun [] (fd_block (ZSTD_decompressBegin dctx)) /\ same_settings dctx (ZSTD_decompressBegin dctx).
Proof.
  intros [Ht He]. split; [|done].
  split; [by split|done|split; [split; cbn; [unfold ZSTD_HUFFDTABLE_CAPACITY_LOG; lia|done]|done]|done|done|exact repStart_ok|done|done].
Qed.

Lemma refDictContent_ok b content : begun [] b -> begun content (ZSTD_refDictContent b content).
Proof. intros [[H1 H2] H3 H4 H5 H6 H7 H8 H9]. by split. Qed.

Lemma use_entropy_ok dict b e (own : bool) :
  begun dict b -> entropy_ok e -> zlen (hdt_mem (ed_hufTable e)) = zlen (hdt_mem (lc_hufTable (bc_lit b))) ->
  begun dict (use_entropy b e (if own then own_hufTable else dict_hufTable (ed_hufTable e))).
Proof.
  intros [[Hm1 Hm2] Hf Ht He Htab Hrep Hp Hend] [Hwf [Hdt Hsafe] Hr] Hl.
  destruct own; split; try done. split; cbn; [congruence|done].
Qed.

Lemma decompressBegin_usingDict_ok le dctx dict w :
  dctx_memory (fd_block dctx) -> bytes_ok dict -> zlen dict < 2 ^ 26 -> dict_scratch_ok w ->
  wp (ZSTD_decompressBegin_usingDict le dctx dict w) (fun dctx' =>
    exists k, 0 <= k <= zlen dict /\ begun (zsub dict k (zlen dict - k)) (fd_block dctx') /\ same_settings dctx dctx') any_error.
Proof.
  intros Hm Hb Hl Hw. destruct (decompressBegin_ok dctx Hm) as [Hbg Hs]. unfold ZSTD_decompressBegin_usingDict.
  set (dctx1 := ZSTD_decompressBegin dctx) in *. pose proof (zlen_nonneg dict) as Hn. destruct (Z.eqb_spec (zlen dict) 0) as [E0|E0]; cbn [negb].
  { wp_step. exists 0. split; [lia|]. replace (zlen dict - 0) with (zlen dict) by lia. rewrite zsub_all. split; [|done].
    by replace dict with ([] : list Z) by (destruct dict; [done|unfold zlen in E0; cbn in E0; lia]). }
  apply or_dictionary_corrupted_wp. unfold ZSTD_decompress_insertDictionary.
  assert (wp (Ok (set_block dctx1 (ZSTD_refDictContent (fd_block dctx1) dict))) (fun dctx' =>
    exists k, 0 <= k <= zlen dict /\ begun (zsub dict k (zlen dict - k)) (fd_block dctx') /\ same_settings dctx dctx') any_error) as Hpure.
  { wp_step. exists 0. split; [lia|]. replace (zlen dict - 0) with (zlen dict) by lia. rewrite zsub_all. split; [by apply refDictContent_ok|done]. }
  destruct (Z.ltb_spec (zlen dict) 8); [exact Hpure|]. apply wp_bind. apply wp_readLE32; [done|lia|lia|]. intros magic _. cbv beta.
  destruct (negb _); [exact Hpure|]. apply wp_bind. apply wp_readLE32; [done|done|unfold ZSTD_FRAMEIDSIZE; lia|]. intros id _. cbv beta.
  apply wp_bind. eapply wp_mono; [apply or_dictionary_corrupted_wp, loadDEntropy_ok; [apply Hbg|done|done|done]| |done].
  intros [e n] (Hn8 & He & Hmem). wp_step. exists n. split; [lia|]. split; [|done]. apply refDictContent_ok.
  by apply (use_entropy_ok _ _ _ true).
Qed.

Lemma copyDDictParameters_ok dctx dd :
  begun [] (fd_block dctx) -> DDict_ok dd -> begun (dd_dictContent dd) (fd_block (ZSTD_copyDDictParameters dctx dd)) /\
  same_settings dctx (ZSTD_copyDDictParameters dctx dd).
Proof.
  intros [[Hm1 Hm2] Hf Ht He Htab Hrep Hp Hend] [Hb Hd]. split; [|done]. unfold ZSTD_copyDDictParameters. destruct (dd_entropy dd) as [e|] eqn:Ee.
  - destruct (Hd e eq_refl) as [Hwf [Hdt Hsafe] Hr]. split; try done.
  - by split.
Qed.

Lemma decompressBegin_usingDDict_ok dctx ddict :
  dctx_memory (fd_block dctx) -> (forall dd, ddict = Some dd -> DDict_ok dd) ->
  begun (match ddict with Some dd => dd_dictContent dd | None => [] end) (fd_block (ZSTD_decompressBegin_usingDDict dctx ddict)) /\
  same_settings dctx (ZSTD_decompressBegin_usingDDict dctx ddict).
Proof.
  intros Hm Hdd. destruct (decompressBegin_ok dctx Hm) as [Hbg Hs]. unfold ZSTD_decompressBegin_usingDDict. destruct ddict as [dd|]; [|done].
  destruct (copyDDictParameters_ok _ dd Hbg (Hdd dd eq_refl)) as [H1 H2]. split; [done|]. by eapply same_settings_trans.
Qed.

(** A dictionary that is digested can be used. *)
Lemma digest_dict_ok le table dict w pure :
  hufTable_ok table -> bytes_ok dict -> zlen dict < 2 ^ 26 -> dict_scratch_ok w ->
  let Q dd := DDict_ok dd /\ dd_dictContent dd = dict in
  wp pure Q any_error ->
  wp (if zlen dict <? 8 then pure
      else
        let* magic := readLE32 dict 0 in
        if negb (magic =? ZSTD_MAGIC_DICTIONARY) then pure
        else
          let* dictID := readLE32 dict ZSTD_FRAMEIDSIZE in
          let* '(entropy, _) := or_dictionary_corrupted (ZSTD_loadDEntropy le table dict w) in
          Ok (mkDDictContent dict dictID (Some entropy))) Q any_error.
Proof.
  intros Ht Hb Hl Hw Q Hpure. destruct (Z.ltb_spec (zlen dict) 8); [exact Hpure|].
  apply wp_bind. apply wp_readLE32; [done|lia|lia|]. intros magic _. cbv beta. destruct (negb _); [exact Hpure|].
  apply wp_bind. apply wp_readLE32; [done|done|unfold ZSTD_FRAMEIDSIZE; lia|]. intros id _. cbv beta.
  apply wp_bind. eapply wp_mono; [apply or_dictionary_corrupted_wp, loadDEntropy_ok; done| |done].
  intros [e n] (Hn8 & He & Hmem'). wp_step. split; [|done]. split; [done|]. cbn. by intros ? [= <-].
Qed.

Lemma initDDict_ok le mem dict type byRef allocated w :
  zlen mem = 4 * 2 ^ ZSTD_HUFFDTABLE_CAPACITY_LOG -> bytes_ok dict -> zlen dict < 2 ^ 26 -> dict_scratch_ok w ->
  wp (ZSTD_initDDict_internal le mem dict type byRef allocated w) (fun dd => DDict_ok dd /\ dd_dictContent dd = dict) any_error.
Proof.
  intros Hmem Hb Hl Hw. unfold ZSTD_initDDict_internal. wp_step; [done|].
  assert (wp (Ok (mkDDictContent dict 0 None)) (fun dd => DDict_ok dd /\ dd_dictContent dd = dict) any_error) as Hpure by (wp_step; by split).
  set (table := reset_hufTable _). assert (hufTable_ok table) as Ht by (split; [split; cbn; [unfold ZSTD_HUFFDTABLE_CAPACITY_LOG; lia|done]|done]).
  unfold ZSTD_loadEntropy_intoDDict. destruct type; [by apply digest_dict_ok|exact Hpure|by apply digest_dict_ok].
Qed.

(** The output becomes the segment after the dictionary. *)
Lemma checkContinuity_ok dict b dst cap :
  begun dict b -> 0 < cap -> let b' := ZSTD_checkContinuity b dst cap in
  bc_lit b' = bc_lit b /\ bc_tables b' = bc_tables b /\ bc_rep b' = bc_rep b /\ bc_prefixStart b' = In_dst dst /\
  bc_virtualStart b' = dst - zlen dict /\ bc_dictEnd b' = In_buf dict (zlen dict).
Proof.
  intros [] Hc. unfold ZSTD_checkContinuity. rewrite bg_end0, bg_prefix0. cbn [is_dst negb andb ptr_ix]. rewrite (proj2 (Z.gtb_lt cap 0)) by lia. cbn.
  split_and!; try done. lia.
Qed.
