(* ===== verification/FrameDecode.v ===== *)
(** The decoding of frames in one call (decompress/zstd_decompress.c): the header of a
    frame, its blocks, its checksum, and the frames of an input one after another. *)

From S2P Require Import Prelude Errors Outcome Bits Mem HufCode HufDTable HufRoundtrip Wire LzCopy ExecSequence SeqTables SeqDecode SplitLit Frame FrameHeader FrameParse FrameWalk LitDecode BlockDecode XxHash DDict DCtx.

(** ** Definitions *)

(** [ZSTD_FRAMEHEADERSIZE_MIN]. *)
Definition ZSTD_FRAMEHEADERSIZE_MIN (format : ZSTD_format_e) : Z := if decide (format = ZSTD_f_zstd1) then 6 else 2.

(** [dctx->fParams = zfh]. *)
Definition set_fParams (dctx : frame_DCtx) (zfh : ZSTD_FrameHeader) : frame_DCtx :=
  let b := fd_block dctx in
  let lc := bc_lit b in
  let c := fd_dict dctx in
  let lc := mkLitDCtx (lc_isFrameDecompression lc) (blockSizeMax zfh) (lc_hufTable lc) (lc_HUFptr lc) (lc_litEntropy lc) (lc_litExtraBuffer lc)
              (lc_litBuffer lc) (lc_litBufferEnd lc) (lc_litBufferLocation lc) (lc_litPtr lc) (lc_litSize lc) in
  let b := mkBlockDCtx lc (bc_tables b) (bc_rep b) (bc_previousDstEnd b) (bc_prefixStart b) (bc_virtualStart b) (bc_dictEnd b) in
  let c := mkDCtx (dctx_ddictLocal c) (dctx_ddict c) (dctx_dictID c) (dctx_dictUses c) (dctx_ddictSet c) (dctx_refMultipleDDicts c) (dctx_init c) (dictID zfh) in
  mkFrameDCtx b c (fd_stage dctx) (fd_format dctx) (fd_forceIgnoreChecksum dctx) (fd_maxBlockSizeParam dctx) zfh
    (fd_validateChecksum dctx) (fd_xxhState dctx).

(** [dctx->fParams.blockSizeMax = MIN(dctx->fParams.blockSizeMax, dctx->maxBlockSizeParam)]. *)
Definition shrink_blockSizeMax (dctx : frame_DCtx) : frame_DCtx :=
  let zfh := fd_fParams dctx in
  if negb (fd_maxBlockSizeParam dctx =? 0) then
    set_fParams dctx (mkFrameHeader (frameContentSize zfh) (windowSize zfh) (Z.min (blockSizeMax zfh) (fd_maxBlockSizeParam dctx))
                        (frameType zfh) (headerSize zfh) (dictID zfh) (checksumFlag zfh))
  else dctx.

Definition set_checksum (dctx : frame_DCtx) (validate : bool) (st : XXH64_state_t) : frame_DCtx :=
  mkFrameDCtx (fd_block dctx) (fd_dict dctx) (fd_stage dctx) (fd_format dctx) (fd_forceIgnoreChecksum dctx) (fd_maxBlockSizeParam dctx)
    (fd_fParams dctx) validate st.

Definition add_processed (dctx : frame_DCtx) (n : Z) : frame_DCtx :=
  let s := fd_stage dctx in
  set_stage dctx (mkStage (sd_expected s) (sd_stage s) (u64 (sd_processedCSize s + n)) (sd_decodedSize s) (sd_bType s) (sd_rleSize s)
                    (sd_headerSize s) (sd_headerBuffer s)).

Section frame.
Context (MEM_isLittleEndian : bool).

Definition ZSTD_decodeFrameHeader (dctx : frame_DCtx) (src : list Z) : result frame_DCtx :=
  let* st := ZSTD_getFrameHeader_advanced src (fd_format dctx) in
  match st with
  | Wanted _ => Err Errors.srcSize_wrong
  | Filled zfh =>
      let dctx := set_fParams dctx zfh in
      (* Reference DDict requested by frame if dctx references multiple ddicts *)
      let* c :=
        (match dctx_ddictSet (fd_dict dctx) with
         | Some _ => if dctx_refMultipleDDicts (fd_dict dctx) then ZSTD_DCtx_selectFrameDDict MEM_isLittleEndian (fd_dict dctx) else Ok (fd_dict dctx)
         | None => Ok (fd_dict dctx)
         end) in
      let dctx := set_dict dctx c in
      ERROR_IF negb (dictID zfh =? 0) && negb (dctx_dictID c =? dictID zfh) THEN dictionary_wrong ;;
      let validate := negb (checksumFlag zfh =? 0) && negb (fd_forceIgnoreChecksum dctx) in
      let dctx := set_checksum dctx validate (if validate then XXH64_reset 0 else fd_xxhState dctx) in
      Ok (add_processed dctx (zlen src))
  end.

(** One block: the output, the number of bytes written and the context of blocks.
    [src] is the content of the block, [oend] the end of the output. *)
Definition decode_frame_block (d : list Z) (b : block_DCtx) (bp : blockProperties_t) (src : list Z) (dst_null : bool) (op oend : Z)
    (w : block_scratch) : result (list Z * Z * block_DCtx) :=
  match blockType bp with
  | bt_compressed =>
      let* '(n, b, d) := ZSTD_decompressBlock_internal MEM_isLittleEndian d b src dst_null op (oend - op) not_streaming w in
      Ok (d, n, b)
  | bt_raw =>
      let* '(bytes, n) := ZSTD_copyRawBlock dst_null (zsub d op (oend - op)) src in
      Ok (zpatch d op bytes, n, b)
  | bt_rle =>
      let* v := rd src 0 in
      let* '(bytes, n) := ZSTD_setRleBlock dst_null (zsub d op (oend - op)) v (origSize bp) in
      Ok (zpatch d op bytes, n, b)
  | bt_reserved => Err corruption_detected
  end.

(** One turn of the loop on the blocks; [w ip] is what the workspaces hold when the block at
    [ip] is decoded. *)
Definition frame_step (src : list Z) (dst_null : bool) (oend : Z) (w : Z -> block_scratch) (s : list Z * Z * Z * frame_DCtx)
  : result (flow (list Z * Z * Z * frame_DCtx) (list Z * Z * Z * frame_DCtx)) :=
  let '(d, op, ip, dctx) := s in
  let remainingSrcSize := zlen src - ip in
  let* '(cBlockSize, bp) := ZSTD_getcBlockSize (zsub src ip remainingSrcSize) in
  let ip := ip + ZSTD_blockHeaderSize in
  let remainingSrcSize := remainingSrcSize - ZSTD_blockHeaderSize in
  ERROR_IF cBlockSize >? remainingSrcSize THEN Errors.srcSize_wrong ;;
  let* '(d, decodedSize, b) := decode_frame_block d (fd_block dctx) bp (zsub src ip cBlockSize) dst_null op oend (w ip) in
  let dctx := set_block dctx b in
  let* xxhState :=
    (if fd_validateChecksum dctx then XXH64_update MEM_isLittleEndian (fd_xxhState dctx) (zsub d op decodedSize)
     else Ok (fd_xxhState dctx)) in
  let s := (d, op + decodedSize, ip + cBlockSize, set_checksum dctx (fd_validateChecksum dctx) xxhState) in
  if negb (lastBlock bp =? 0) then Ok (Break s) else Ok (Continue s).

(** The checksum of the content, after the last block: the position after it. *)
Definition frame_checksum (dctx : frame_DCtx) (src : list Z) (ip : Z) : result Z :=
  if negb (checksumFlag (fd_fParams dctx) =? 0) then
    ERROR_IF zlen src - ip <? 4 THEN checksum_wrong ;;
    if negb (fd_forceIgnoreChecksum dctx) then
      let* digest := XXH64_digest MEM_isLittleEndian (fd_xxhState dctx) in
      let checkCalc := u32 digest in
      let* checkRead := readLE32 src ip in
      ERROR_IF negb (checkRead =? checkCalc) THEN checksum_wrong ;;
      Ok (ip + 4)
    else Ok (ip + 4)
  else Ok ip.

(** The input is not in the output buffer. The output, the size regenerated, what is read of
    the input and the context. *)
Definition ZSTD_decompressFrame (d : list Z) (dctx : frame_DCtx) (dst_null : bool) (dst dstCapacity : Z) (src : list Z)
    (w : Z -> block_scratch) : result (list Z * Z * Z * frame_DCtx) :=
  let format := fd_format dctx in
  (* check *)
  ERROR_IF zlen src <? ZSTD_FRAMEHEADERSIZE_MIN format + ZSTD_blockHeaderSize THEN Errors.srcSize_wrong ;;
  (* Frame Header *)
  let* frameHeaderSize := ZSTD_frameHeaderSize_internal (zsub src 0 (ZSTD_startingInputLength format)) format in
  ERROR_IF zlen src <? frameHeaderSize + ZSTD_blockHeaderSize THEN Errors.srcSize_wrong ;;
  let* dctx := ZSTD_decodeFrameHeader dctx (zsub src 0 frameHeaderSize) in
  (* Shrink the blockSizeMax if enabled *)
  let dctx := shrink_blockSizeMax dctx in
  (* Loop on each block *)
  let* '(d, op, ip, dctx) := loop_ (S (length src)) (frame_step src dst_null (dst + dstCapacity) w) (d, dst, frameHeaderSize, dctx) in
  let size := frameContentSize (fd_fParams dctx) in
  ERROR_IF negb (size =? ZSTD_CONTENTSIZE_UNKNOWN) && negb (op - dst =? size) THEN corruption_detected ;;
  let* ip := frame_checksum dctx src ip in
  Ok (d, op - dst, ip, dctx).

(** The start of a frame, with a dictionary that is digested or with one that is not. *)
Definition frame_begin (dctx : frame_DCtx) (dict : list Z) (ddict : option DDict_content) (w : dict_scratch) : result frame_DCtx :=
  match ddict with
  | Some _ => Ok (ZSTD_decompressBegin_usingDDict dctx ddict)
  | None => ZSTD_decompressBegin_usingDict MEM_isLittleEndian dctx dict w
  end.

(** [ZSTD_getErrorCode(res) == ZSTD_error_prefix_unknown && moreThan1Frame == 1]. *)
Definition after_first_frame {A} (m : result A) (moreThan1Frame : bool) : result A :=
  match m with
  | Err prefix_unknown => if moreThan1Frame then Err Errors.srcSize_wrong else Err prefix_unknown
  | m => m
  end.

(** [wd n] and [w n] are what the workspaces hold when [n] bytes of the input are left. *)
Definition multi_step (dst_null : bool) (oend : Z) (dict : list Z) (ddict : option DDict_content) (wd : Z -> dict_scratch)
    (w : Z -> block_scratch) (s : list Z * Z * list Z * frame_DCtx * bool)
  : result (flow (list Z * Z * list Z * frame_DCtx * bool) (list Z * Z * list Z * frame_DCtx)) :=
  let '(d, dst, src, dctx, moreThan1Frame) := s in
  if zlen src >=? ZSTD_startingInputLength (fd_format dctx) then
    let* skippable :=
      (if bool_decide (fd_format dctx = ZSTD_f_zstd1) && (zlen src >=? 4) then
         let* magicNumber := readLE32 src 0 in Ok (is_skippable_magic magicNumber)
       else Ok false) in
    if skippable then
      (* skippable frame detected : skip it *)
      let* skippableSize := readSkippableFrameSize src in
      Ok (Continue (d, dst, drop (Z.to_nat skippableSize) src, dctx, moreThan1Frame))
    else
      let* dctx := frame_begin dctx dict ddict (wd (zlen src)) in
      let dctx := set_block dctx (ZSTD_checkContinuity (fd_block dctx) dst (oend - dst)) in
      let* '(d, res, ip, dctx) :=
        after_first_frame (ZSTD_decompressFrame d dctx dst_null dst (oend - dst) src (fun ip => w (zlen src - ip))) moreThan1Frame in
      Ok (Continue (d, dst + res, drop (Z.to_nat ip) src, dctx, true))
  else Ok (Break (d, dst, src, dctx)).

(** Legacy formats are not compiled. The output, the size regenerated and the context. *)
Definition ZSTD_decompressMultiFrame (d : list Z) (dctx : frame_DCtx) (dst_null : bool) (dst dstCapacity : Z) (src dict : list Z)
    (ddict : option DDict_content) (wd : Z -> dict_scratch) (w : Z -> block_scratch) : result (list Z * Z * frame_DCtx) :=
  let* '(d, dst', src, dctx) :=
    loop_ (S (length src)) (multi_step dst_null (dst + dstCapacity) dict ddict wd w) (d, dst, src, dctx, false) in
  ERROR_IF negb (zlen src =? 0) THEN Errors.srcSize_wrong ;;
  Ok (d, dst' - dst, dctx).

Definition ZSTD_decompress_usingDict d dctx dst_null dst dstCapacity src dict wd w :=
  ZSTD_decompressMultiFrame d dctx dst_null dst dstCapacity src dict None wd w.
Definition ZSTD_decompress_usingDDict d dctx dst_null dst dstCapacity src ddict wd w :=
  ZSTD_decompressMultiFrame d dctx dst_null dst dstCapacity src [] ddict wd w.

(** The dictionary of the context. [digested] gives the content of a [ZSTD_DDict]. *)
Definition ZSTD_getDDict (c : ZSTD_DCtx) : ZSTD_DCtx * option ZSTD_DDict :=
  match dctx_dictUses c with
  | ZSTD_dont_use => (ZSTD_clearDict c, None)
  | ZSTD_use_indefinitely => (c, dctx_ddict c)
  | ZSTD_use_once =>
      (mkDCtx (dctx_ddictLocal c) (dctx_ddict c) (dctx_dictID c) ZSTD_dont_use (dctx_ddictSet c) (dctx_refMultipleDDicts c) (dctx_init c)
         (dctx_frameDictID c), dctx_ddict c)
  end.

Definition ZSTD_decompressDCtx (digested : ZSTD_DDict -> DDict_content) d dctx dst_null dst dstCapacity src wd w :=
  let '(c, ddict) := ZSTD_getDDict (fd_dict dctx) in
  ZSTD_decompress_usingDDict d (set_dict dctx c) dst_null dst dstCapacity src (option_map digested ddict) wd w.

End frame.

(** *** What holds while a frame is decoded *)

(** [dict] is the segment before the output, which starts at [ps] and has room for [cap] bytes. *)
Record decoding (dict : list Z) (ps cap : Z) (b : block_DCtx) : Prop := {
  dc_lit : lit_DCtx_ok (bc_lit b);
  dc_tables : fseEntropy (bc_tables b) <> 0 -> seq_tables_wf (bc_tables b);
  dc_rep : prev_ok (bc_rep b) /\ prev_small (bc_rep b);
  dc_pointers : 0 < cap -> bc_prefixStart b = In_dst ps /\ bc_virtualStart b = ps - zlen dict /\ bc_dictEnd b = In_buf dict (zlen dict);
}.

(** The search of a dictionary is defined: it can leave the table of the set. *)
Definition set_searchable (le : bool) (c : ZSTD_DCtx) : Prop :=
  forall s id, dctx_ddictSet c = Some s -> dctx_refMultipleDDicts c = true -> ZSTD_DDictHashSet_getDDict le s id <> Stuck.

(** ** Lemmas *)

(** *** One block *)

(** The context [b] with the pointers of [b']. *)
Definition with_pointers (b b' : block_DCtx) : block_DCtx :=
  mkBlockDCtx (bc_lit b) (bc_tables b) (bc_rep b) (bc_previousDstEnd b') (bc_prefixStart b') (bc_virtualStart b') (bc_dictEnd b').

Lemma decoding_block dict ps cap b : decoding dict ps cap b -> 0 < cap -> block_DCtx_ok dict ps b.
Proof. intros [H1 H2 H3 H4] Hc. destruct (H4 Hc) as (? & ? & ?). by split. Qed.

Lemma block_decoding dict ps cap b : block_DCtx_ok dict ps b -> decoding dict ps cap b.
Proof. intros [H1 H2 H3 H4 H5 H6]. by split. Qed.

(** Without room the pointers of the context are not used. *)
Lemma decompressBlock_pointers le d b b' src dst_null dst streaming w Q E :
  lit_DCtx_ok (bc_lit b) -> (fseEntropy (bc_tables b) <> 0 -> seq_tables_wf (bc_tables b)) -> 0 <= dst <= zlen d -> zlen d < 2 ^ 58 ->
  bytes_ok d -> bytes_ok src -> block_scratch_ok w ->
  wp (ZSTD_decompressBlock_internal le d (with_pointers b b') src dst_null dst 0 streaming w)
    (fun '(n, b1, d1) => Q (n, with_pointers b1 b, d1)) E ->
  wp (ZSTD_decompressBlock_internal le d b src dst_null dst 0 streaming w) Q E.
Proof.
  intros Hlit Htab Hdst Hd58 Hd Hsrc (Hw0 & Hw1 & Hw2 & Hw3). pose proof (lo_max _ Hlit) as Hm. unfold ZSTD_BLOCKSIZE_MAX in Hm.
  unfold ZSTD_decompressBlock_internal. cbn [with_pointers bc_lit bc_tables bc_rep bc_previousDstEnd bc_prefixStart bc_virtualStart bc_dictEnd].
  unfold RETURN_ERROR_IF at 1 3. destruct (Z.gtb_spec (zlen src) (ZSTD_blockSizeMax (bc_lit b))); [done|].
  pose proof (decodeLiteralsBlock_agrees le d src (bc_lit b) dst 0 dst_null streaming (bs_huf w) Hlit ltac:(lia) Hd ltac:(split; [done|lia]) Hw0) as Hl.
  unfold agrees in Hl. destruct (literals_spec _ _ _ _ _ _ _) as [[[k lits] huf]|e|]; [|by rewrite Hl|done].
  destruct Hl as (lc & d1 & -> & Hk & _). cbn [bind]. set (ip := zsub src k (zlen src - k)).
  assert (bytes_ok ip /\ zlen ip = zlen src - k) as [Hb1 El1] by (split; [by apply bytes_ok_zsub|apply zlen_zsub; lia]).
  pose proof (decodeSeqHeaders_ok (bc_tables b) ip (bs_LL w) (bs_OF w) (bs_ML w) Hb1 ltac:(lia) Hw1 Hw2 Hw3 Htab) as Hh.
  destruct (ZSTD_decodeSeqHeaders _ _ _ _ _) as [[[hs nbSeq] tables]|e|]; cbn [bind wp] in *; [|done|done]. destruct Hh as (_ & Hnb & _).
  unfold RETURN_ERROR_IF. change (0 =? 0) with true. rewrite orb_true_r, andb_true_l. destruct (Z.gtb_spec nbSeq 0); [done|]. assert (nbSeq = 0) as -> by lia.
  unfold ZSTD_decompressSequences, ZSTD_decompressSequences_body, ZSTD_decompressSequences_bodySplitLitBuffer.
  cbn [with_pointers bc_lit bc_tables bc_rep bc_previousDstEnd bc_prefixStart bc_virtualStart bc_dictEnd negb Z.eqb].
  destruct (lc_litBufferLocation lc); cbn [bind].
  all: match goal with |- wp (bind ?m _) _ _ -> _ => destruct m as [[[? ?] ?]|?|]; cbn [bind wp]; try done end.
  all: by intros.
Qed.

Section blocks.
Context (le : bool) (dict : list Z) (ps cap : Z).
Hypothesis Hdict : bytes_ok dict /\ zlen dict < 2 ^ 58.
Notation oend := (ps + cap).

(** What a block keeps of its context. *)
Definition same_block (b b' : block_DCtx) : Prop :=
  lc_isFrameDecompression (bc_lit b') = lc_isFrameDecompression (bc_lit b) /\ lc_blockSizeMax (bc_lit b') = lc_blockSizeMax (bc_lit b) /\
  bc_previousDstEnd b' = bc_previousDstEnd b.

(** What a block leaves. *)
Definition block_left (d : list Z) (b : block_DCtx) (op : Z) (x : list Z * Z * block_DCtx) : Prop :=
  let '(d', n, b') := x in
  0 <= n <= oend - op /\ outside oend d d' op /\ bytes_ok d' /\ decoding dict ps cap b' /\ same_block b b'.

Lemma decompressBlock_any d b src dst_null op streaming w :
  decoding dict ps cap b -> bytes_ok d -> 0 <= ps <= op /\ op <= oend <= zlen d /\ zlen d < 2 ^ 58 -> bytes_ok src -> block_scratch_ok w ->
  wp (ZSTD_decompressBlock_internal le d b src dst_null op (oend - op) streaming w)
    (fun '(n, b', d') => block_left d b op (d', n, b')) any_error.
Proof.
  intros Hdec Hb Hdst Hsrc Hw. destruct (Z_lt_le_dec 0 cap) as [Hcap|Hcap].
  - destruct (decompressBlock_ok le dict d src ps op (oend - op) b dst_null streaming w) as [H _]; try done; [by apply (decoding_block dict ps cap)|tauto|lia|].
    eapply wp_mono; [exact H| |done]. intros [[n b'] d'] (Hn & Ho & Hb' & Hbo & Hs). replace (op + (oend - op)) with oend in Ho by lia.
    split; [done|]. split; [done|]. split; [done|]. split; [by apply block_decoding|done].
  - assert (op = oend /\ op = ps) as [E1 E2] by lia. replace (oend - op) with 0 by lia. pose proof Hdec as [H1 H2 H3 H4].
    pose (b0 := mkBlockDCtx (bc_lit b) (bc_tables b) (bc_rep b) (In_dst ps) (In_dst ps) (ps - zlen dict) (In_buf dict (zlen dict))).
    eapply (decompressBlock_pointers le d b b0); try done; [lia|lia|].
    destruct (decompressBlock_ok le dict d src ps op 0 (with_pointers b b0) dst_null streaming w) as [H _]; try done; [tauto|lia|].
    eapply wp_mono; [exact H| |done]. intros [[n b'] d'] (Hn & Ho & Hb' & [Hl Ht Hr _ _ _] & Hf & Hbs & _). replace (op + 0) with oend in Ho by lia.
    split; [lia|]. split; [done|]. split; [done|]. split; [split; [done|done|done|lia]|done].
Qed.

Lemma patch_left d b op bytes n :
  decoding dict ps cap b -> bytes_ok d -> 0 <= op <= oend /\ oend <= zlen d -> zlen bytes = oend - op -> bytes_ok bytes -> 0 <= n <= oend - op ->
  block_left d b op (zpatch d op bytes, n, b).
Proof.
  intros Hdec Hb Hop Hl Hbs Hn. split; [done|]. split; [apply patched_outside; lia|]. split; [by apply bytes_ok_zpatch|done].
Qed.

Lemma copyRawBlock_ok dst_null dst src :
  wp (ZSTD_copyRawBlock dst_null dst src) (fun '(bytes, n) => n = zlen src /\ n <= zlen dst /\ bytes = (if dst_null then dst else zpatch dst 0 src)) any_error.
Proof.
  unfold ZSTD_copyRawBlock. pose proof (zlen_nonneg src). wp_step; [done|]. destruct dst_null.
  - destruct (Z.eqb_spec (zlen src) 0) as [E|]; [|done]. apply wp_Ok. split_and!; try done; lia.
  - rewrite memcpy_at_ok by lia. wp_step. split_and!; try done; lia.
Qed.
Lemma setRleBlock_ok dst_null dst v n :
  0 <= n -> wp (ZSTD_setRleBlock dst_null dst v n) (fun '(bytes, m) => m = n /\ n <= zlen dst /\ bytes = (if dst_null then dst else zpatch dst 0 (zfill n v))) any_error.
Proof.
  intros Hn. unfold ZSTD_setRleBlock. pose proof (zlen_nonneg dst). wp_step; [done|]. destruct dst_null.
  - destruct (Z.eqb_spec n 0) as [E|]; [|done]. apply wp_Ok. split_and!; try done; lia.
  - rewrite memcpy_at_ok by (rewrite ?zlen_zfill; lia). wp_step. split_and!; try done; lia.
Qed.

Lemma decode_block_left d b bp src dst_null op w :
  decoding dict ps cap b -> bytes_ok d -> 0 <= ps <= op /\ op <= oend <= zlen d /\ zlen d < 2 ^ 58 -> bytes_ok src -> block_scratch_ok w ->
  0 <= origSize bp -> (blockType bp = bt_rle -> zlen src = 1) ->
  wp (decode_frame_block le d b bp src dst_null op oend w) (block_left d b op) any_error.
Proof.
  intros Hdec Hb Hdst Hsrc Hw Hsz Hrle. unfold decode_frame_block.
  assert (zlen (zsub d op (oend - op)) = oend - op /\ bytes_ok (zsub d op (oend - op))) as [El Hbz] by (split; [apply zlen_zsub; lia|by apply bytes_ok_zsub]).
  destruct (blockType bp) eqn:Et.
  - wp_step. eapply wp_mono; [apply copyRawBlock_ok| |done]. intros [bytes n] (-> & Hn & ->). wp_step. pose proof (zlen_nonneg src). rewrite El in Hn.
    apply patch_left; [done|done|lia| |destruct dst_null; [done|by apply bytes_ok_zpatch]|lia]. destruct dst_null; [done|]. rewrite zlen_zpatch; lia.
  - specialize (Hrle eq_refl). wp_step. wp_step; [lia|]. pose proof (bytes_ok_zat src 0 Hsrc ltac:(lia)) as Hv. wp_step.
    eapply wp_mono; [by apply setRleBlock_ok| |done]. intros [bytes n] (-> & Hn & ->). wp_step. rewrite El in Hn.
    apply patch_left; [done|done|lia| |destruct dst_null; [done|apply bytes_ok_zpatch; [done|by apply Forall_replicate]]|lia].
    destruct dst_null; [done|]. rewrite zlen_zpatch; rewrite ?zlen_zfill; lia.
  - wp_step. eapply wp_mono; [by apply decompressBlock_any| |done]. intros [[n b'] d'] H. by wp_step.
  - done.
Qed.
End blocks.

(** *** The frame *)

(** What the blocks of a frame do not change. *)
Definition same_frame (dctx dctx' : frame_DCtx) : Prop :=
  fd_dict dctx' = fd_dict dctx /\ fd_stage dctx' = fd_stage dctx /\ fd_format dctx' = fd_format dctx /\
  fd_forceIgnoreChecksum dctx' = fd_forceIgnoreChecksum dctx /\ fd_maxBlockSizeParam dctx' = fd_maxBlockSizeParam dctx /\
  fd_fParams dctx' = fd_fParams dctx /\ fd_validateChecksum dctx' = fd_validateChecksum dctx /\
  same_block (fd_block dctx) (fd_block dctx').

(** The header of a frame is decoded. *)
Record frame_ready (dict : list Z) (ps cap : Z) (dctx : frame_DCtx) : Prop := {
  fr_block : decoding dict ps cap (fd_block dctx);
  fr_validate : fd_validateChecksum dctx = negb (checksumFlag (fd_fParams dctx) =? 0) && negb (fd_forceIgnoreChecksum dctx);
}.

Section run.
Context (le : bool) (dict : list Z) (ps cap : Z) (d0 src : list Z) (dst_null : bool) (w : Z -> block_scratch) (dctx0 : frame_DCtx).
Hypothesis Hdict : bytes_ok dict /\ zlen dict < 2 ^ 58.
Hypothesis Hdst : 0 <= ps /\ 0 <= cap /\ ps + cap <= zlen d0 /\ zlen d0 < 2 ^ 58.
Hypothesis Hsrc : bytes_ok src.
Hypothesis Hw : forall ip, block_scratch_ok (w ip).
Notation oend := (ps + cap).

(** Between two blocks. *)
Definition frame_run (s : list Z * Z * Z * frame_DCtx) : Prop :=
  let '(d, op, ip, dctx) := s in
  ps <= op <= oend /\ 0 <= ip <= zlen src /\ outside oend d0 d ps /\ bytes_ok d /\ decoding dict ps cap (fd_block dctx) /\
  same_frame dctx0 dctx /\ (fd_validateChecksum dctx = true -> xxh_rep 0 (zsub d ps (op - ps)) (fd_xxhState dctx)).

(** What a block that is decoded makes of this. *)
Lemma frame_run_block d op ip dctx d' n b' ip' :
  frame_run (d, op, ip, dctx) -> block_left dict ps cap d (fd_block dctx) op (d', n, b') -> 0 <= ip' <= zlen src ->
  exists st', (if fd_validateChecksum dctx then XXH64_update le (fd_xxhState dctx) (zsub d' op n) else Ok (fd_xxhState dctx)) = Ok st' /\
    frame_run (d', op + n, ip', set_checksum (set_block dctx b') (fd_validateChecksum dctx) st').
Proof.
  intros (Hop & Hip & Ho & Hb & Hdec & Hs & Hx) (Hn & Ho' & Hb' & Hdec' & Hsb) Hip'.
  assert (outside oend d0 d' ps) as Ho2 by (by eapply outside_after; [exact Ho|exact Ho'|lia]).
  assert (same_frame dctx0 (set_checksum (set_block dctx b') (fd_validateChecksum dctx) (fd_xxhState dctx))) as Hs'.
  { unfold same_frame, same_block in *. cbn. intuition congruence. }
  assert (zsub d' ps (op + n - ps) = zsub d ps (op - ps) ++ zsub d' op n) as Ez.
  { replace (op + n - ps) with ((op - ps) + n) by lia. rewrite zsub_split by lia. replace (ps + (op - ps)) with op by lia. f_equal.
    destruct Ho as [El _], Ho' as [El' Hz]. apply zat_ext; [rewrite !zlen_zsub; lia|]. intros i Hi. rewrite zlen_zsub in Hi by lia. rewrite !zat_zsub by lia. apply Hz. lia. }
  destruct (fd_validateChecksum dctx) eqn:Ev.
  - destruct (update_ok le 0 (zsub d ps (op - ps)) (zsub d' op n) (fd_xxhState dctx)) as (st' & Est & Hr); [by apply bytes_ok_zsub|by apply Hx|].
    exists st'. split; [done|]. split; [lia|]. split; [done|]. split; [done|]. split; [done|]. split; [done|]. split; [exact Hs'|]. intros _. cbn. by rewrite Ez.
  - eexists. split; [done|]. split; [lia|]. split; [done|]. split; [done|]. split; [done|]. split; [done|]. split; [exact Hs'|]. done.
Qed.

Lemma frame_step_ok d op ip dctx :
  frame_run (d, op, ip, dctx) ->
  wp (frame_step le src dst_null oend w (d, op, ip, dctx)) (fun r =>
    match r with Break s' | Continue s' => frame_run s' /\ ip < s'.1.2 end) any_error.
Proof.
  intros Hrun. pose proof Hrun as (Hop & Hip & Ho & Hb & Hdec & Hs & Hx). unfold frame_step. cbv zeta. wp_step.
  assert (zlen (zsub src ip (zlen src - ip)) = zlen src - ip) as El by (apply zlen_zsub; lia).
  eapply wp_mono; [apply getcBlockSize_wp; by apply bytes_ok_zsub| |done]. intros [c bp] (Hc & Hlast & Hnr & Hsz & Hrle & Hraw). unfold ZSTD_blockHeaderSize.
  wp_step; [done|]. wp_step.
  eapply wp_mono; [eapply (decode_block_left le dict ps cap); [done|exact Hdec|done|destruct Ho; lia|by apply bytes_ok_zsub|done|lia| ]| |done].
  { intros E. rewrite zlen_zsub by lia. by apply Hrle. }
  intros [[d' n] b'] Hleft. destruct (frame_run_block d op ip dctx d' n b' (ip + 3 + c) Hrun Hleft ltac:(lia)) as (st' & Est & Hrun').
  cbn [set_block fd_validateChecksum fd_xxhState] in *. rewrite Est. cbn [bind]. destruct (negb _); wp_step; (split; [exact Hrun'|cbn; lia]).
Qed.

Lemma frame_checksum_ok d op ip dctx :
  frame_ready dict ps cap dctx0 -> frame_run (d, op, ip, dctx) ->
  wp (frame_checksum le dctx src ip) (fun ip' => ip <= ip' <= zlen src) any_error.
Proof.
  intros [_ Hv] (Hop & Hip & Ho & Hb & Hdec & Hs & Hx). destruct Hs as (_ & _ & _ & Eign & _ & Efp & Ev & _). unfold frame_checksum.
  rewrite <- Ev, <- Efp, <- Eign in Hv. destruct (negb (checksumFlag (fd_fParams dctx) =? 0)) eqn:Ec; [|wp_step; lia]. wp_step; [done|].
  destruct (fd_forceIgnoreChecksum dctx) eqn:Ei; cbn [negb andb] in *; [wp_step; lia|].
  rewrite (digest_ok le 0 (zsub d ps (op - ps))); [|lia|rewrite zlen_zsub by (destruct Ho; lia); lia|by apply Hx]. cbn [bind].
  apply wp_bind. apply wp_readLE32; [done|lia|lia|]. intros v Hv'. cbv beta. wp_step; [done|]. wp_step. lia.
Qed.
End run.

Lemma decoding_memory dict ps cap b : decoding dict ps cap b -> dctx_memory b.
Proof. intros [[_ [[_ Hl] Em] _ Hx] _ _ _]. split; [by rewrite Hl, Em|done]. Qed.

Lemma begun_decoding dict dctx b ps cap zfh :
  begun dict b -> fd_block dctx = ZSTD_checkContinuity b ps cap -> 0 <= cap -> 0 <= blockSizeMax zfh <= ZSTD_BLOCKSIZE_MAX ->
  decoding dict ps cap (fd_block (set_fParams dctx zfh)).
Proof.
  intros Hbg E Hcap Hm. assert (bc_lit (fd_block dctx) = bc_lit b /\ bc_tables (fd_block dctx) = bc_tables b /\ bc_rep (fd_block dctx) = bc_rep b) as (El & Et & Er).
  { rewrite E. unfold ZSTD_checkContinuity. by destruct (_ && _). }
  pose proof Hbg as [[Hm1 Hm2] Hf Ht He Htab Hrep Hp Hend]. split; cbn [set_fParams fd_block bc_lit bc_tables bc_rep bc_prefixStart bc_virtualStart bc_dictEnd].
  - rewrite El. split; [unfold ZSTD_blockSizeMax; cbn; by rewrite Hf|exact Ht|exact He|exact Hm2].
  - by rewrite Et.
  - by rewrite Er.
  - intros Hc. rewrite E. by destruct (checkContinuity_ok dict b ps cap Hbg Hc) as (_ & _ & _ & ? & ? & ?).
Qed.

Lemma selectFrameDDict_ok le c :
  set_searchable le c -> wp (match dctx_ddictSet c with
    | Some _ => if dctx_refMultipleDDicts c then ZSTD_DCtx_selectFrameDDict le c else Ok c
    | None => Ok c
    end) (fun c' => dctx_ddictSet c' = dctx_ddictSet c /\ dctx_refMultipleDDicts c' = dctx_refMultipleDDicts c) any_error.
Proof.
  intros Hs. destruct (dctx_ddictSet c) as [s|] eqn:Es; [|done]. destruct (dctx_refMultipleDDicts c) eqn:Em; [|done].
  unfold ZSTD_DCtx_selectFrameDDict. rewrite Es. destruct (dctx_ddict c); [|done]. specialize (Hs s (dctx_frameDictID c) Es Em).
  destruct (ZSTD_DDictHashSet_getDDict _ _ _) as [[dd|]| |]; done.
Qed.

Lemma decodeFrameHeader_ok le dctx src :
  bytes_ok src -> set_searchable le (fd_dict dctx) ->
  wp (ZSTD_decodeFrameHeader le dctx src) (fun dctx' => exists zfh, header_wf (zlen src) (fd_format dctx) zfh /\
    fd_block dctx' = fd_block (set_fParams dctx zfh) /\ fd_fParams dctx' = zfh /\
    fd_validateChecksum dctx' = negb (checksumFlag zfh =? 0) && negb (fd_forceIgnoreChecksum dctx) /\
    (fd_validateChecksum dctx' = true -> fd_xxhState dctx' = XXH64_reset 0) /\ same_settings dctx dctx') any_error.
Proof.
  intros Hb Hs. unfold ZSTD_decodeFrameHeader. wp_step. eapply wp_mono; [by apply getFrameHeader_wp| |done].
  intros [zfh|n] Hwf; [|by wp_step]. cbv zeta. wp_step.
  assert (set_searchable le (fd_dict (set_fParams dctx zfh))) as Hs' by exact Hs.
  eapply wp_mono; [by apply selectFrameDDict_ok| |done]. intros c [E1 E2]. wp_step; [done|]. wp_step. exists zfh. split; [done|]. split; [done|]. split; [done|]. split; [done|].
  split; [|by split_and!]. cbn. by intros ->.
Qed.

Section frame_.
Context (le : bool) (dict : list Z).
Hypothesis Hdict : bytes_ok dict /\ zlen dict < 2 ^ 58.

(** What the header of a frame leaves. *)
Lemma frame_header_ready dctx b ps cap src :
  begun dict b -> fd_block dctx = ZSTD_checkContinuity b ps cap -> 0 <= cap -> 0 <= fd_maxBlockSizeParam dctx -> bytes_ok src ->
  set_searchable le (fd_dict dctx) ->
  wp (ZSTD_decodeFrameHeader le dctx src) (fun dctx' => let dctx1 := shrink_blockSizeMax dctx' in
    frame_ready dict ps cap dctx1 /\ (fd_validateChecksum dctx1 = true -> fd_xxhState dctx1 = XXH64_reset 0) /\ same_settings dctx dctx1 /\
    0 <= frameContentSize (fd_fParams dctx1)) any_error.
Proof.
  intros Hbg Eb Hcap Hmax Hb Hs. eapply wp_mono; [by apply decodeFrameHeader_ok| |done].
  intros dctx' (zfh & (Hh1 & Hh2 & Hh3 & Hh4 & Hh5 & _) & Eblk & Efp & Ev & Hx & Hset). cbv zeta.
  pose proof (begun_decoding dict dctx b ps cap) as Hdec.
  pose proof Hset as (Hs1 & Hs2 & Hs3 & Hs4 & Hs5).
  unfold shrink_blockSizeMax. rewrite Hs3. destruct (Z.eqb_spec (fd_maxBlockSizeParam dctx) 0) as [E0|E0]; cbn [negb].
  - split; [|split; [done|split; [done|rewrite Efp; lia]]]. split; [rewrite Eblk; apply (Hdec zfh Hbg Eb Hcap Hh5)|by rewrite Ev, Efp, Hs2].
  - rewrite Efp. set (z2 := mkFrameHeader _ _ _ _ _ _ _).
    assert (fd_block (set_fParams dctx' z2) = fd_block (set_fParams dctx z2)) as E2 by (unfold set_fParams; rewrite Eblk; reflexivity).
    split; [|split; [exact Hx|split; [|cbn; lia]]].
    + split; [|cbn; by rewrite Ev, Hs2]. rewrite E2. apply (Hdec z2 Hbg Eb Hcap). unfold z2. cbn [blockSizeMax]. lia.
    + cbn. by split_and!.
Qed.

Lemma decompressFrame_ok d dctx b dst_null ps cap src w :
  begun dict b -> fd_block dctx = ZSTD_checkContinuity b ps cap -> 0 <= ps /\ 0 <= cap /\ ps + cap <= zlen d /\ zlen d < 2 ^ 58 ->
  bytes_ok d -> bytes_ok src -> 0 <= fd_maxBlockSizeParam dctx -> set_searchable le (fd_dict dctx) -> (forall ip, block_scratch_ok (w ip)) ->
  wp (ZSTD_decompressFrame le d dctx dst_null ps cap src w) (fun '(d', n, ip, dctx') =>
    0 <= n <= cap /\ outside (ps + cap) d d' ps /\ bytes_ok d' /\ 0 < ip <= zlen src /\ dctx_memory (fd_block dctx') /\ same_settings dctx dctx') any_error.
Proof.
  intros Hbg Eb Hdst Hd Hb Hmax Hs Hw. unfold ZSTD_decompressFrame. cbv zeta. wp_step; [done|].
  pose proof (startingInputLength_range (fd_format dctx)) as Hmin. unfold ZSTD_blockHeaderSize in *.
  assert (ZSTD_startingInputLength (fd_format dctx) < ZSTD_FRAMEHEADERSIZE_MIN (fd_format dctx)) as Hlt.
  { unfold ZSTD_startingInputLength, ZSTD_FRAMEHEADERSIZE_MIN. case_decide; lia. }
  assert (zlen (zsub src 0 (ZSTD_startingInputLength (fd_format dctx))) = ZSTD_startingInputLength (fd_format dctx)) as El by (apply zlen_zsub; lia).
  rewrite frameHeaderSize_eq by (first [by apply bytes_ok_zsub|lia]). cbn [bind]. set (fhs := fh_size _ _).
  assert (0 < fhs) as Hfhs.
  { assert (0 <= ZSTD_startingInputLength (fd_format dctx) - 1 < zlen (zsub src 0 (ZSTD_startingInputLength (fd_format dctx)))) as Hi by lia.
    pose proof (fh_size_range (fd_format dctx) _ (bytes_ok_zat _ _ (bytes_ok_zsub src 0 (ZSTD_startingInputLength (fd_format dctx)) Hb) Hi)). unfold fhs. lia. }
  wp_step; [done|]. wp_step. eapply wp_mono; [eapply frame_header_ready; try done; [lia|by apply bytes_ok_zsub]| |done].
  intros dctx' (Hready & Hx & Hset & _). set (dctx1 := shrink_blockSizeMax dctx') in *. wp_step.
  eapply (wp_mono _ (fun s => frame_run dict ps cap d src dctx1 s /\ fhs < s.1.2) _ any_error).
  { apply (wp_loop (fun s => frame_run dict ps cap d src dctx1 s /\ fhs <= s.1.2) (fun s => zlen src - s.1.2)).
    - split; [|cbn; lia]. split; [lia|]. split; [lia|]. split; [apply outside_refl|]. split; [done|]. split; [apply Hready|]. split; [unfold same_frame, same_block; by split_and!|].
      intros Hv. replace (ps - ps) with 0 by lia. rewrite (Hx Hv). apply xxh_rep_reset.
    - cbn. clear El. unfold zlen in *. lia.
    - intros [[[d1 op] ip] dctx2] [Hrun Hip]. cbn in Hip. eapply wp_mono; [eapply (frame_step_ok le dict ps cap d src dst_null w dctx1); try done| |done].
      destruct Hrun as (_ & Hr & _). intros [s'|s'] [Hrun' Hlt']; cbn; destruct s' as [[[d2 op2] ip2] dctx3]; cbn in *; pose proof Hrun' as (_ & Hr' & _); (split; [split; [done|lia]|lia]) || (split; [done|lia]). }
  2: { done. }
  intros [[[d1 op] ip] dctx2] [Hrun Hip]. cbn in Hip. wp_step; [done|]. wp_step.
  eapply wp_mono; [by eapply (frame_checksum_ok le dict ps cap d src dctx1)| |done]. intros ip' Hip'. cbv beta in Hip'. wp_step. destruct Hrun as (Hop & _ & Ho & Hb1 & Hdec & Hsf & _).
  split; [lia|]. split; [done|]. split; [done|]. split; [lia|]. split; [by eapply decoding_memory|]. eapply same_settings_trans; [exact Hset|].
  destruct Hsf as (E1 & E2 & E3 & E4 & E5 & _). unfold same_settings. rewrite E1, E3, E4, E5. by split_and!.
Qed.
End frame_.

(** *** The frames of an input *)

(** A dictionary that can be given to the decoder. *)
Definition dict_ok (dict : list Z) (ddict : option DDict_content) : Prop :=
  bytes_ok dict /\ zlen dict < 2 ^ 26 /\ forall dd, ddict = Some dd -> DDict_ok dd /\ zlen (dd_dictContent dd) < 2 ^ 58.

Lemma set_searchable_same le dctx dctx' : set_searchable le (fd_dict dctx) -> same_settings dctx dctx' -> set_searchable le (fd_dict dctx').
Proof. intros Hs (_ & _ & _ & E1 & E2) s id. rewrite E1, E2. by apply Hs. Qed.

Section multi.
Context (le : bool) (dict : list Z) (ddict : option DDict_content) (wd : Z -> dict_scratch) (w : Z -> block_scratch).
Hypothesis Hdict : dict_ok dict ddict.
Hypothesis Hwd : forall n, dict_scratch_ok (wd n).
Hypothesis Hw : forall n, block_scratch_ok (w n).

Lemma frame_begin_ok dctx n :
  dctx_memory (fd_block dctx) ->
  wp (frame_begin le dctx dict ddict (wd n)) (fun dctx' => exists content, bytes_ok content /\ zlen content < 2 ^ 58 /\ begun content (fd_block dctx') /\ same_settings dctx dctx') any_error.
Proof.
  intros Hm. destruct Hdict as (Hb & Hl & Hdd). unfold frame_begin. destruct ddict as [dd|].
  - destruct (Hdd dd eq_refl) as [Hok Hdl]. destruct (decompressBegin_usingDDict_ok dctx (Some dd) Hm) as [H1 H2]; [by intros ? [= <-]|].
    apply wp_Ok. exists (dd_dictContent dd). split; [apply Hok|]. by split.
  - eapply wp_mono; [by apply decompressBegin_usingDict_ok| |done]. intros dctx' (k & Hk & Hbg & Hs).
    eexists. split; [by apply bytes_ok_zsub|]. split; [|by split]. rewrite zlen_zsub; lia.
Qed.

(** Between two frames. *)
Definition multi_run (d0 : list Z) (dctx0 : frame_DCtx) (dst0 cap len : Z) (d : list Z) (dst : Z) (src : list Z) (dctx : frame_DCtx) : Prop :=
  outside (dst0 + cap) d0 d dst0 /\ bytes_ok d /\ dst0 <= dst <= dst0 + cap /\ bytes_ok src /\ zlen src <= len /\
  dctx_memory (fd_block dctx) /\ same_settings dctx0 dctx.

Lemma multi_step_ok d0 dctx0 dst0 cap len dst_null d dst src dctx more :
  0 <= dst0 /\ 0 <= cap /\ dst0 + cap <= zlen d0 /\ zlen d0 < 2 ^ 58 -> 0 <= fd_maxBlockSizeParam dctx0 -> set_searchable le (fd_dict dctx0) ->
  multi_run d0 dctx0 dst0 cap len d dst src dctx ->
  wp (multi_step le dst_null (dst0 + cap) dict ddict wd w (d, dst, src, dctx, more)) (fun r =>
    match r with
    | Break (d', dst', src', dctx') => multi_run d0 dctx0 dst0 cap len d' dst' src' dctx'
    | Continue (d', dst', src', dctx', _) => multi_run d0 dctx0 dst0 cap len d' dst' src' dctx' /\ zlen src' < zlen src
    end) any_error.
Proof.
  intros Hdst Hmax Hs Hrun. pose proof Hrun as (Ho & Hb & Hd & Hbs & Hl & Hm & Hset). unfold multi_step.
  assert (forall n, 0 < n <= zlen src -> bytes_ok (drop (Z.to_nat n) src) /\ zlen (drop (Z.to_nat n) src) = zlen src - n) as Hdrop.
  { intros n Hn. split; [by apply Forall_drop|]. unfold zlen in *. rewrite length_drop. lia. }
  apply wp_if; intros Hc; [|wp_step; exact Hrun]. wp_step.
  eapply (wp_mono _ (fun _ => True) _ any_error); [|intros skippable _|done].
  { apply wp_if; intros Hc2; [|done]. apply andb_true_iff in Hc2 as [_ Hc2]. apply wp_bind. apply wp_readLE32; [done|lia|lia|]. intros v _. cbv beta. by wp_step. }
  apply wp_if; intros Hsk.
  - apply wp_bind. eapply wp_mono; [by apply readSkippableFrameSize_wp| |done]. intros n [Hn _]. wp_step. destruct (Hdrop n ltac:(lia)). split; [split_and!; try done; lia|lia].
  - apply wp_bind. eapply wp_mono; [by apply frame_begin_ok| |done]. intros dctx1 (content & Hcb & Hcl & Hbg & Hs1). cbv zeta. apply wp_bind.
    assert (same_settings dctx0 dctx1) as Hs01 by (by eapply same_settings_trans).
    set (dctx2 := set_block dctx1 _). destruct Ho as [El Ho].
    eapply (wp_mono _ (fun '(d', n, ip, dctx') => 0 <= n <= dst0 + cap - dst /\ outside (dst + (dst0 + cap - dst)) d d' dst /\ bytes_ok d' /\ 0 < ip <= zlen src /\
      dctx_memory (fd_block dctx') /\ same_settings dctx2 dctx') _ any_error).
    + pose proof (decompressFrame_ok le content (conj Hcb Hcl) d dctx2 (fd_block dctx1) dst_null dst (dst0 + cap - dst) src (fun ip => w (zlen src - ip)) Hbg eq_refl) as H.
      destruct Hs01 as (S1 & S2 & S3 & S4 & S5).
      specialize (H ltac:(lia) Hb Hbs). unfold dctx2 in *. cbn [set_block fd_maxBlockSizeParam fd_dict] in H. rewrite S3 in H.
      specialize (H Hmax ltac:(intros s id; rewrite S4, S5; apply Hs) ltac:(intros; apply Hw)).
      unfold after_first_frame. destruct (ZSTD_decompressFrame _ _ _ _ _ _ _ _) as [x|e|]; [exact H| |done]. destruct e; try done. by destruct more.
    + intros [[[d' n] ip] dctx'] (Hn & Ho' & Hb' & Hip & Hm' & Hs'). wp_step. destruct (Hdrop ip Hip). split; [|lia]. replace (dst + (dst0 + cap - dst)) with (dst0 + cap) in Ho' by lia.
      split; [eapply outside_after; [split; [exact El|exact Ho]|exact Ho'|lia]|]. split; [done|]. split; [lia|]. split; [done|]. split; [lia|]. split; [done|].
      eapply same_settings_trans; [exact Hs01|exact Hs'].
    + done.
Qed.

Lemma decompressMultiFrame_ok d dctx dst_null dst cap src :
  dctx_memory (fd_block dctx) -> 0 <= dst /\ 0 <= cap /\ dst + cap <= zlen d /\ zlen d < 2 ^ 58 -> bytes_ok d -> bytes_ok src ->
  0 <= fd_maxBlockSizeParam dctx -> set_searchable le (fd_dict dctx) ->
  wp (ZSTD_decompressMultiFrame le d dctx dst_null dst cap src dict ddict wd w) (fun '(d', n, dctx') =>
    0 <= n <= cap /\ outside (dst + cap) d d' dst /\ bytes_ok d' /\ dctx_memory (fd_block dctx') /\ same_settings dctx dctx') any_error.
Proof.
  intros Hm Hdst Hd Hb Hmax Hs. unfold ZSTD_decompressMultiFrame. wp_step.
  eapply (wp_mono _ (fun '(d', dst', src', dctx') => multi_run d dctx dst cap (zlen src) d' dst' src' dctx') _ any_error); [| |done].
  - apply (wp_loop (fun '(d', dst', src', dctx', _) => multi_run d dctx dst cap (zlen src) d' dst' src' dctx') (fun '(_, _, src', _, _) => zlen src')).
    + split; [apply outside_refl|]. split_and!; try done; lia.
    + unfold zlen. lia.
    + intros [[[[d1 dst1] src1] dctx1] more] Hrun. eapply wp_mono; [by apply (multi_step_ok d dctx dst cap (zlen src))| |done].
      intros [[[[[d2 dst2] src2] dctx2] more2]|[[[d2 dst2] src2] dctx2]]; [|done]. intros [H1 H2]. pose proof (zlen_nonneg src2). split; [done|lia].
  - intros [[[d' dst'] src'] dctx'] (Ho & Hb' & Hd' & _ & _ & Hm' & Hs'). wp_step; [done|]. wp_step. split; [lia|]. by split_and!.
Qed.
End multi.

(** ** Properties *)

(** C2: decompression in one call is safe. Whatever the input and the dictionary, loaded
    or digested, and whatever the workspaces held, [ZSTD_decompress_usingDict] and
    [ZSTD_decompress_usingDDict] end, with an error or with a size that fits in the
    destination; nothing is read or written outside the buffers, the output
    changes only in the destination, and the context can be used again.
    A context that selects among several dictionaries needs a set whose probing is
    defined. *)
Theorem ZSTD_decompress_safe le d dctx dst_null dst cap src dict ddict wd w :
  dctx_memory (fd_block dctx) -> 0 <= dst /\ 0 <= cap /\ dst + cap <= zlen d /\ zlen d < 2 ^ 58 -> bytes_ok d -> bytes_ok src ->
  0 <= fd_maxBlockSizeParam dctx -> set_searchable le (fd_dict dctx) -> dict_ok dict ddict ->
  (forall n, dict_scratch_ok (wd n)) -> (forall n, block_scratch_ok (w n)) ->
  let safe r := wp r (fun '(d', n, dctx') =>
    0 <= n <= cap /\ outside (dst + cap) d d' dst /\ bytes_ok d' /\ dctx_memory (fd_block dctx') /\ same_settings dctx dctx') any_error in
  safe (ZSTD_decompress_usingDict le d dctx dst_null dst cap src dict wd w) /\
  safe (ZSTD_decompress_usingDDict le d dctx dst_null dst cap src ddict wd w).
Proof.
  intros Hm Hdst Hd Hb Hmax Hs (Hdb & Hdl & Hdd) Hwd Hw safe. unfold safe, ZSTD_decompress_usingDict, ZSTD_decompress_usingDDict.
  assert (dict_ok dict None) by (split; [done|]; split; [done|]; by intros).
  assert (dict_ok [] ddict) by (split; [apply Forall_nil_2|]; split; [done|exact Hdd]).
  split; by apply decompressMultiFrame_ok.
Qed.

Definition sample_stage : stage_DCtx := mkStage 5 ZSTDds_getFrameHeaderSize 0 0 bt_raw 0 0 (zfill 18 0).
Definition sample_frame_DCtx : frame_DCtx :=
  mkFrameDCtx sample_block_DCtx (mkDCtx None None 0 ZSTD_dont_use None false true 0) sample_stage ZSTD_f_zstd1 false 0
    (mkFrameHeader 0 0 0 ZSTD_frame 0 0 0) false (XXH64_reset 0).
Definition sample_table_scratch (max : Z) : table_scratch := mkTableScratch (zfill (max + 1) 3) (zfill 512 (mkSym 1 2 3 4)) (sc_wksp sample_scratch).
Definition sample_dict_scratch : dict_scratch := mkDictScratch sample_rdwksp (sample_table_scratch MaxOff) (sample_table_scratch MaxML) (sample_table_scratch MaxLL).

Lemma sample_memory_ok : dctx_memory (fd_block sample_frame_DCtx).
Proof. exact (decoding_memory _ _ _ _ (block_decoding _ _ 30 _ sample_block_DCtx_ok)). Qed.
Lemma sample_dict_scratch_ok : dict_scratch_ok sample_dict_scratch.
Proof. split; [exact sample_rdwksp_ok|]. split_and!; (split; [reflexivity|]; split; [vm_compute; congruence|]; split; reflexivity). Qed.

(** A skippable frame, and a frame of three blocks: raw, repeated and compressed. *)
Definition sample_input : list Z :=
  [0x50; 0x2A; 0x4D; 0x18; 2; 0; 0; 0; 7; 8] ++
  [0x28; 0xB5; 0x2F; 0xFD; 0x20; 17] ++ [0x18; 0; 0; 65; 66; 67] ++ [0x1A; 0; 0; 90] ++ [0x5D; 0; 0] ++ sample_block.

Lemma ZSTD_decompress_safe_witness :
  let safe r := wp r (fun '(d', n, dctx') =>
    0 <= n <= 30 /\ outside (3 + 30) (zfill 40 5) d' 3 /\ bytes_ok d' /\ dctx_memory (fd_block dctx') /\ same_settings sample_frame_DCtx dctx') any_error in
  safe (ZSTD_decompress_usingDict true (zfill 40 5) sample_frame_DCtx false 3 30 sample_input [1; 2] (fun _ => sample_dict_scratch) (fun _ => sample_block_scratch)) /\
  safe (ZSTD_decompress_usingDDict true (zfill 40 5) sample_frame_DCtx false 3 30 sample_input (Some (mkDDictContent [1; 2] 0 None))
    (fun _ => sample_dict_scratch) (fun _ => sample_block_scratch)).
Proof.
  apply (ZSTD_decompress_safe true (zfill 40 5) sample_frame_DCtx false 3 30 sample_input [1; 2] (Some (mkDDictContent [1; 2] 0 None))
    (fun _ => sample_dict_scratch) (fun _ => sample_block_scratch) sample_memory_ok).
  - vm_compute; repeat split; congruence.
  - bytes_dec.
  - bytes_dec.
  - reflexivity.
  - intros s id [=].
  - split; [bytes_dec|]. split; [reflexivity|]. intros dd [= <-]. split; [split; [cbn; bytes_dec|done]|reflexivity].
  - intros _. exact sample_dict_scratch_ok.
  - intros _. exact sample_block_scratch_ok.
Defined.
