(* ===== verification/FrameContent.v ===== *)
(** What a frame means, and its decoding: the content that the header, the blocks and the
    checksum of a frame describe is what [ZSTD_decompressFrame] regenerates, and a sequence
    of frames is decoded to the concatenation of their contents. *)

From S2P Require Import Prelude Errors Outcome Bits Mem HufCode HufDTable HufRoundtrip Wire LzCopy ExecSequence SeqTables SeqDecode SplitLit Frame FrameHeader FrameParse FrameWalk LitDecode BlockDecode XxHash DDict DCtx FrameDecode.

(** ** Specification *)

(** What is kept from a block to the next: the Huffman tables, the tables of sequences
    and the repeated offsets. *)
Definition kept : Type := (HUF_DTable * HUF_ptr * bool) * seq_tables * list Z.
Definition kept_of (b : block_DCtx) : kept :=
  ((lc_hufTable (bc_lit b), lc_HUFptr (bc_lit b), lc_litEntropy (bc_lit b)), bc_tables b, bc_rep b).

(** A context of literals with given tables and block size. *)
Definition lc_of (bsm : Z) (huf : HUF_DTable * HUF_ptr * bool) : lit_DCtx :=
  mkLitDCtx true bsm huf.1.1 huf.1.2 huf.2 [] (Lit_extra 0) 0 ZSTD_not_in_dst (Lit_extra 0) 0.

(** A block as a frame holds it. *)
Inductive frame_block :=
| Plain (b : raw_or_rle)
| Packed (payload : list Z).
Definition fb_type (b : frame_block) : blockType_e := match b with Plain b => block_type b | Packed _ => bt_compressed end.
Definition fb_size (b : frame_block) : Z := match b with Plain b => block_size b | Packed p => zlen p end.
Definition fb_payload (b : frame_block) : list Z := match b with Plain b => block_payload b | Packed p => p end.

Fixpoint fblocks_bytes (bs : list frame_block) : list Z :=
  match bs with
  | [] => []
  | b :: bs' => block_bytes (match bs' with [] => 1 | _ => 0 end) (fb_type b) (fb_size b) (fb_payload b) ++ fblocks_bytes bs'
  end.

Section meaning.
Context (le : bool) (bsm : Z).

(** With any of the tables [K] and the history [h], the compressed block [p] gives the history [h']
    and leaves some of the tables [K'], wherever there is room for what it regenerates and
    whatever the memory of the decoder holds. *)
Definition packed_means (K : kept -> Prop) (h p h' : list Z) (K' : kept -> Prop) : Prop :=
  bytes_ok p /\ zlen h <= zlen h' <= zlen h + bsm /\
  forall k room old w, K k -> zlen h' - zlen h <= room <= bsm ->
    (forall n, 0 <= n <= room -> zlen (old n) = n /\ bytes_ok (old n)) -> block_scratch_ok w ->
    exists huf tables rep, compressed_block_spec le (lc_of bsm k.1.1) k.1.2 k.2 h p false room old w = Ok (h', huf, tables, rep) /\
      K' (huf, tables, rep).

Inductive block_means : (kept -> Prop) -> list Z -> frame_block -> list Z -> (kept -> Prop) -> Prop :=
| plain_means K h b : block_ok b -> block_means K h (Plain b) (h ++ block_content b) K
| compressed_means K h p h' K' : packed_means K h p h' K' -> block_means K h (Packed p) h' K'.

Inductive blocks_mean : (kept -> Prop) -> list Z -> list frame_block -> list Z -> Prop :=
| no_blocks K h : blocks_mean K h [] h
| one_block K h b h1 K1 bs h' : block_means K h b h1 K1 -> blocks_mean K1 h1 bs h' -> blocks_mean K h (b :: bs) h'.
End meaning.

(** The bytes of a frame. *)
Definition frame_bytes (format : ZSTD_format_e) (fp : ZSTD_frameParameters) (windowLog size dictID : Z) (bs : list frame_block) (content : list Z) : list Z :=
  header_bytes format fp windowLog size dictID ++ fblocks_bytes bs ++
  (if fp_checksumFlag fp then le_bytes 4 (u32 (xxh64_spec content 0)) else []).

(** ** Lemmas *)

Lemma block_means_grows le bsm K h b h' K' : block_means le bsm K h b h' K' -> zlen h <= zlen h'.
Proof.
  intros [K0 h0 b0 Hb|K0 h0 p h1 K1 (_ & ? & _)]; [|lia]. rewrite zlen_app. pose proof (zlen_nonneg (block_content b0)). lia.
Qed.
Lemma blocks_mean_grows le bsm K h bs h' : blocks_mean le bsm K h bs h' -> zlen h <= zlen h'.
Proof. induction 1 as [|??????? Hb ? IH]; [lia|]. pose proof (block_means_grows _ _ _ _ _ _ _ Hb). lia. Qed.

Lemma blocks_mean_nil le bsm K h h' : blocks_mean le bsm K h [] h' -> h' = h.
Proof. by inversion 1. Qed.
Lemma blocks_mean_cons le bsm K h b bs h' :
  blocks_mean le bsm K h (b :: bs) h' -> exists h1 K1, block_means le bsm K h b h1 K1 /\ blocks_mean le bsm K1 h1 bs h'.
Proof. inversion 1. eauto. Qed.

Lemma block_content_len b : block_ok b -> zlen (block_content b) = block_size b.
Proof. destruct b as [c|v n]; cbn; [done|]. intros [_ H]. apply zlen_zfill. lia. Qed.

(** A block that means something can be framed. *)
Lemma compressed_fits le bsm K k h p h' K' :
  0 <= bsm <= ZSTD_BLOCKSIZE_MAX -> packed_means le bsm K h p h' K' -> K k -> (exists w, block_scratch_ok w) ->
  bytes_ok p /\ 1 <= zlen p <= bsm /\ exists k', K' k'.
Proof.
  intros Hm (Hb & Hlen & H) Hk [w Hw]. split; [done|].
  destruct (H k bsm (fun n => zfill n 0) w Hk ltac:(lia)) as (huf & t & rep & E & Hk'); [|done|].
  { intros n Hn. split; [apply zlen_zfill; lia|by apply Forall_replicate]. }
  split; [|by eexists]. unfold compressed_block_spec in E. change (ZSTD_blockSizeMax (lc_of bsm k.1.1)) with bsm in E.
  unfold RETURN_ERROR_IF at 1 in E. destruct (Z.gtb_spec (zlen p) bsm); [done|]. unfold literals_spec in E. unfold RETURN_ERROR_IF at 1 in E.
  destruct (Z.ltb_spec (zlen p) 2); [done|]. lia.
Qed.

Lemma fb_header_ok le bsm K k h b h' K' :
  0 <= bsm <= ZSTD_BLOCKSIZE_MAX -> block_means le bsm K h b h' K' -> K k -> (exists w, block_scratch_ok w) ->
  (bytes_ok (fb_payload b) /\ 0 <= fb_size b < 2 ^ 21 /\ fb_type b <> bt_reserved /\
  zlen (fb_payload b) = (if decide (fb_type b = bt_rle) then 1 else fb_size b)) /\ exists k', K' k'.
Proof.
  intros Hm H Hk Hw. destruct H as [K h b Hb|K h p h' K' H]; cbn.
  - split; [|by exists k]. split; [by apply block_payload_ok|]. split; [by apply block_size_range|]. split; [by destruct b|]. apply block_payload_len.
  - destruct (compressed_fits _ _ _ _ _ _ _ _ Hm H Hk Hw) as (? & ? & Hk'). pose proof (zlen_nonneg p). unfold ZSTD_BLOCKSIZE_MAX in Hm.
    split; [|done]. split; [done|]. split; [lia|]. done.
Qed.

(** The specification only reads the tables of the context. *)
Lemma compressed_block_spec_lc le lc tables rep h p dn room old w :
  lc_isFrameDecompression lc = true ->
  compressed_block_spec le lc tables rep h p dn room old w
  = compressed_block_spec le (lc_of (lc_blockSizeMax lc) (lc_hufTable lc, lc_HUFptr lc, lc_litEntropy lc)) tables rep h p dn room old w.
Proof. destruct lc. cbn. intros ->. reflexivity. Qed.

Lemma fblocks_len bs : zlen bs <= zlen (fblocks_bytes bs).
Proof. induction bs as [|b bs IH]; [done|]. cbn [fblocks_bytes]. rewrite zlen_app, zlen_block_bytes. pose proof (zlen_nonneg (fb_payload b)). unfold zlen in *. cbn [length]. lia. Qed.

Section run.
Context (le : bool) (dict : list Z) (ps cap : Z) (d0 src : list Z) (w : Z -> block_scratch) (dctx0 : frame_DCtx) (bsm : Z).
Hypothesis Hdict : bytes_ok dict /\ zlen dict < 2 ^ 58.
Hypothesis Hdst : 0 <= ps /\ 0 <= cap /\ ps + cap <= zlen d0 /\ zlen d0 < 2 ^ 58.
Hypothesis Hw : forall ip, block_scratch_ok (w ip).
Hypothesis Hbsm : 0 <= bsm <= ZSTD_BLOCKSIZE_MAX.
Notation oend := (ps + cap).

(** *** One block *)

Lemma decompressBlock_means d b op h K p h' K' streaming w0 :
  decoding dict ps cap b -> bytes_ok d -> ps <= op <= oend -> oend <= zlen d < 2 ^ 58 -> block_scratch_ok w0 ->
  K (kept_of b) -> lc_isFrameDecompression (bc_lit b) = true -> lc_blockSizeMax (bc_lit b) = bsm ->
  history ps dict d op = h -> packed_means le bsm K h p h' K' -> zlen h' - zlen h <= oend - op ->
  wp (ZSTD_decompressBlock_internal le d b p false op (oend - op) streaming w0)
    (fun '(n, b', d') => history ps dict d' (op + n) = h' /\ K' (kept_of b')) no_errors.
Proof.
  intros Hdec Hb Hop Hl Hw0 Ek Ef Eb Eh (Hp & Hlen & Hspec) Hroom.
  set (room := Z.min (ZSTD_blockSizeMax (bc_lit b)) (oend - op)).
  assert (room = Z.min bsm (oend - op)) as Eroom by (unfold room, ZSTD_blockSizeMax; by rewrite Ef, Eb).
  pose proof (dc_lit _ _ _ _ Hdec) as Hlit.
  assert (exists huf' tables' rep', compressed_block_spec le (bc_lit b) (bc_tables b) (bc_rep b) h p false room (old_literals d (bc_lit b) op (oend - op) streaming) w0
    = Ok (h', huf', tables', rep') /\ K' (huf', tables', rep')) as (huf' & tables' & rep' & Hs & Hk').
  { rewrite compressed_block_spec_lc by done. rewrite Eb. apply (Hspec (kept_of b)); [done|lia| |done].
    intros n Hn. apply (old_literals_ok d (bc_lit b) op (oend - op) streaming Hlit ltac:(lia) Hb n ltac:(fold room; lia)). }
  destruct (Z_lt_le_dec 0 cap) as [Hcap|Hcap].
  - destruct (decompressBlock_ok le dict d p ps op (oend - op) b false streaming w0) as [_ H]; try done; [by apply (decoding_block dict ps cap)|tauto|lia|].
    rewrite <- Eh in Hs. eapply wp_mono; [exact (H h' huf' tables' rep' Hs)| |done]. intros [[n b'] d'] (E1 & E2 & E3 & E4). split; [done|]. unfold kept_of. by rewrite E2, E3, E4.
  - assert (op = oend /\ op = ps) as [E1 E2] by lia. assert (oend - op = 0) as E0 by lia. unfold room in Hs. rewrite E0 in Hs |- *. pose proof Hdec as [H1 H2 H3 H4].
    pose (b0 := mkBlockDCtx (bc_lit b) (bc_tables b) (bc_rep b) (In_dst ps) (In_dst ps) (ps - zlen dict) (In_buf dict (zlen dict))).
    eapply (decompressBlock_pointers le d b b0); try done; [lia|lia|].
    destruct (decompressBlock_ok le dict d p ps op 0 (with_pointers b b0) false streaming w0) as [_ H]; try done; [tauto|lia|].
    rewrite <- Eh in Hs. eapply wp_mono; [exact (H h' huf' tables' rep' Hs)| |done]. intros [[n b'] d'] (E3 & E4 & E5 & E6). split; [done|].
    unfold kept_of, with_pointers. cbn. by rewrite E4, E5, E6.
Qed.

Lemma history_copied d op c h :
  history ps dict d op = h -> ps <= op <= oend -> oend <= zlen d -> zlen c <= oend - op ->
  history ps dict (zpatch d op (zpatch (zsub d op (oend - op)) 0 c)) (op + zlen c) = h ++ c.
Proof.
  intros Eh Hop Hl Hc. assert (zlen (zsub d op (oend - op)) = oend - op) as El by (apply zlen_zsub; lia).
  pose proof (zlen_nonneg c). rewrite <- Eh. unfold history. rewrite <- app_assoc. f_equal.
  replace (op + zlen c - ps) with ((op - ps) + zlen c) by lia. rewrite zsub_split by lia. replace (ps + (op - ps)) with op by lia. f_equal.
  - apply zsub_zpatch_before; rewrite ?zlen_zpatch; lia.
  - rewrite zsub_zpatch_prefix by (rewrite ?zlen_zpatch; lia). exact (zsub_zpatch (zsub d op (oend - op)) c 0 ltac:(lia) ltac:(lia)).
Qed.

Lemma decode_block_means d b op h K fb h' K' last w0 :
  decoding dict ps cap b -> bytes_ok d -> ps <= op <= oend -> oend <= zlen d < 2 ^ 58 -> block_scratch_ok w0 ->
  K (kept_of b) -> lc_isFrameDecompression (bc_lit b) = true -> lc_blockSizeMax (bc_lit b) = bsm ->
  history ps dict d op = h -> block_means le bsm K h fb h' K' -> zlen h' - zlen h <= oend - op ->
  wp (decode_frame_block le d b (mkBlockProperties (fb_type fb) last (fb_size fb)) (fb_payload fb) false op oend w0)
    (fun '(d', n, b') => history ps dict d' (op + n) = h' /\ K' (kept_of b')) no_errors.
Proof.
  intros Hdec Hb Hop Hl Hw0 Ek Ef Eb Eh Hm Hroom. unfold decode_frame_block. cbn [blockType origSize].
  assert (zlen (zsub d op (oend - op)) = oend - op) as El by (apply zlen_zsub; lia).
  destruct Hm as [K h rb Hok|K h p h' K' Hp].
  - rewrite zlen_app in Hroom. rewrite block_content_len in Hroom by done. destruct rb as [c|v n]; cbn in *.
    + unfold ZSTD_copyRawBlock. pose proof (zlen_nonneg c). unfold RETURN_ERROR_IF. destruct (Z.gtb_spec (zlen c) (zlen (zsub d op (oend - op)))); [lia|].
      rewrite memcpy_at_ok by lia. cbn [bind wp]. split; [apply (history_copied d op _ h); done || lia|done].
    + destruct Hok as [Hv Hn]. rewrite rd_ok by (change (zlen [v]) with 1; lia). cbn [bind]. change (zat [v] 0) with v. unfold ZSTD_setRleBlock, RETURN_ERROR_IF.
      destruct (Z.gtb_spec n (zlen (zsub d op (oend - op)))); [lia|]. rewrite memcpy_at_ok by (rewrite ?zlen_zfill; lia). cbn [bind wp]. split; [|done].
      rewrite <- (zlen_zfill n v) at 2 by lia. apply (history_copied d op _ h); rewrite ?zlen_zfill; done || lia.
  - cbn. wp_step. eapply wp_mono; [by eapply decompressBlock_means| |done]. intros [[n b'] d'] H. wp_step. exact H.
Qed.

(** *** The blocks of a frame *)

Lemma frame_step_means pre fb last rest d op dctx h K h' K' :
  src = pre ++ block_bytes last (fb_type fb) (fb_size fb) (fb_payload fb) ++ rest -> bytes_ok src -> 0 <= last <= 1 ->
  frame_run dict ps cap d0 src dctx0 (d, op, zlen pre, dctx) -> lc_isFrameDecompression (bc_lit (fd_block dctx)) = true ->
  lc_blockSizeMax (bc_lit (fd_block dctx)) = bsm ->
  K (kept_of (fd_block dctx)) -> history ps dict d op = h -> block_means le bsm K h fb h' K' -> zlen h' - zlen h <= oend - op ->
  exists d' dctx', let s' := (d', op + (zlen h' - zlen h), zlen (pre ++ block_bytes last (fb_type fb) (fb_size fb) (fb_payload fb)), dctx') in
    frame_step le src false oend w (d, op, zlen pre, dctx) = Ok (if negb (last =? 0) then Break s' else Continue s') /\
    frame_run dict ps cap d0 src dctx0 s' /\ K' (kept_of (fd_block dctx')) /\ history ps dict d' (op + (zlen h' - zlen h)) = h' /\
    lc_isFrameDecompression (bc_lit (fd_block dctx')) = true /\ lc_blockSizeMax (bc_lit (fd_block dctx')) = bsm.
Proof.
  intros Es Hsrc Hlast Hrun Ef Eb Ek Eh Hm Hroom. destruct (fb_header_ok le bsm K _ h fb h' K' Hbsm Hm Ek (ex_intro _ (w 0) (Hw 0))) as [(Hp & Hsz & Hty & Hpl) _].
  set (bb := block_bytes last (fb_type fb) (fb_size fb) (fb_payload fb)) in *. assert (zlen bb = 3 + zlen (fb_payload fb)) as Ebb by apply zlen_block_bytes.
  assert (bytes_ok rest) as Hrest by (rewrite Es in Hsrc; apply Forall_app in Hsrc as [_ Hsrc]; by apply Forall_app in Hsrc as [_ Hsrc]).
  assert (zlen src = zlen pre + zlen bb + zlen rest) as Els by (rewrite Es, !zlen_app; lia). pose proof (zlen_nonneg pre). pose proof (zlen_nonneg rest). pose proof (zlen_nonneg (fb_payload fb)).
  pose proof Hrun as (Hop & Hip & Ho & Hb & Hdec & Hs & Hx). destruct Ho as [El Ho].
  unfold frame_step. cbv zeta.
  assert (zsub src (zlen pre) (zlen src - zlen pre) = bb ++ rest) as ->.
  { rewrite Es, <- (app_nil_r (bb ++ rest)) at 1. rewrite zsub_mid; [done|done|]. rewrite !zlen_app. lia. }
  unfold bb at 1. rewrite getcBlockSize_block by done. cbn [bind]. fold bb. rewrite <- Hpl. unfold ZSTD_blockHeaderSize, RETURN_ERROR_IF.
  destruct (Z.gtb_spec (zlen (fb_payload fb)) (zlen src - zlen pre - 3)); [lia|].
  assert (zsub src (zlen pre + 3) (zlen (fb_payload fb)) = fb_payload fb) as ->.
  { rewrite Es. unfold bb, block_bytes. rewrite <- !app_assoc. rewrite app_assoc. apply zsub_mid; [rewrite zlen_app, zlen_le_bytes; lia|done]. }
  assert (wp (decode_frame_block le d (fd_block dctx) (mkBlockProperties (fb_type fb) last (fb_size fb)) (fb_payload fb) false op oend (w (zlen pre + 3)))
    (fun x => block_left dict ps cap d (fd_block dctx) op x /\ let '(d', n, b') := x in history ps dict d' (op + n) = h' /\ K' (kept_of b')) no_errors) as Hwp.
  { pose proof (decode_block_left le dict ps cap Hdict d (fd_block dctx) (mkBlockProperties (fb_type fb) last (fb_size fb)) (fb_payload fb) false op (w (zlen pre + 3))
      Hdec Hb ltac:(lia) Hp (Hw _) ltac:(cbn; lia) ltac:(cbn; intros E; rewrite Hpl, E; by rewrite decide_True)) as HA.
    pose proof (decode_block_means d (fd_block dctx) op h K fb h' K' last (w (zlen pre + 3)) Hdec Hb Hop ltac:(lia) (Hw _) Ek Ef Eb Eh Hm Hroom) as HB.
    destruct (decode_frame_block _ _ _ _ _ _ _ _ _); [by split|done|done]. }
  destruct (wp_no_errors_Ok _ _ Hwp) as ([[d' n] b'] & E & Hleft & Eh' & Ek'). rewrite E. cbn [bind].
  assert (n = zlen h' - zlen h) as ->.
  { rewrite <- Eh', <- Eh. unfold history. destruct Hleft as (Hn & [El' _] & _). rewrite !zlen_app, !zlen_zsub by lia. lia. }
  destruct (frame_run_block le dict ps cap d0 src dctx0 Hdict Hdst d op (zlen pre) dctx d' (zlen h' - zlen h) b' (zlen pre + 3 + zlen (fb_payload fb)) Hrun Hleft ltac:(lia)) as (st' & Est & Hrun').
  cbn [set_block fd_validateChecksum fd_xxhState] in *. rewrite Est. cbn [bind lastBlock]. exists d'. eexists. cbv zeta. rewrite zlen_app, Ebb. rewrite !Z.add_assoc.
  split; [destruct (negb (last =? 0)); reflexivity|]. split; [exact Hrun'|]. split; [done|]. split; [done|]. destruct Hleft as (_ & _ & _ & _ & Hsb1 & Hsb2 & _). cbn. split; congruence.
Qed.

Lemma frame_blocks_mean bs : bs <> [] -> forall fuel pre rest d op dctx h K h',
  (length bs <= fuel)%nat -> src = pre ++ fblocks_bytes bs ++ rest -> bytes_ok src ->
  frame_run dict ps cap d0 src dctx0 (d, op, zlen pre, dctx) -> lc_isFrameDecompression (bc_lit (fd_block dctx)) = true ->
  lc_blockSizeMax (bc_lit (fd_block dctx)) = bsm ->
  K (kept_of (fd_block dctx)) -> history ps dict d op = h -> blocks_mean le bsm K h bs h' -> zlen h' - zlen h <= oend - op ->
  exists d' dctx', let s' := (d', op + (zlen h' - zlen h), zlen (pre ++ fblocks_bytes bs), dctx') in
    loop_ fuel (frame_step le src false oend w) (d, op, zlen pre, dctx) = Ok s' /\
    frame_run dict ps cap d0 src dctx0 s' /\ history ps dict d' (op + (zlen h' - zlen h)) = h'.
Proof.
  induction bs as [|fb bs IH]; [done|]. intros _ fuel pre rest d op dctx h K h' Hf Es Hsrc Hrun Ef Eb Ek Eh Hm Hroom.
  apply blocks_mean_cons in Hm as (h1 & K1 & Hm1 & Hms). destruct fuel as [|fuel]; [cbn in Hf; lia|]. cbn [fblocks_bytes] in *.
  set (last := match bs with [] => 1 | _ => 0 end) in *. set (bb := block_bytes last _ _ _) in *.
  pose proof (block_means_grows _ _ _ _ _ _ _ Hm1). pose proof (blocks_mean_grows _ _ _ _ _ _ Hms).
  destruct (frame_step_means pre fb last (fblocks_bytes bs ++ rest) d op dctx h K h1 K1) as (d1 & dctx1 & Est & Hrun1 & Ek1 & Eh1 & Ef1 & Eb1); try done.
  { rewrite Es. by rewrite <- app_assoc. }
  { unfold last. destruct bs; lia. }
  { lia. }
  cbn [loop_]. rewrite Est. cbn [bind]. fold bb in Hrun1 |- *. destruct bs as [|fb' bs].
  - cbn [last Z.eqb negb] in *. apply blocks_mean_nil in Hms as ->. exists d1, dctx1. cbn [fblocks_bytes]. rewrite app_nil_r. split; [done|]. split; [exact Hrun1|done].
  - cbn [last Z.eqb negb] in *.
    destruct (IH ltac:(done) fuel (pre ++ bb) rest d1 (op + (zlen h1 - zlen h)) dctx1 h1 K1 h') as (d2 & dctx2 & El & Hrun2 & Eh2); try done.
    { cbn in Hf |- *. lia. }
    { rewrite Es. by rewrite <- !app_assoc. }
    { lia. }
    exists d2, dctx2. cbv zeta. rewrite El. rewrite (app_assoc pre).
    replace (op + (zlen h' - zlen h)) with (op + (zlen h1 - zlen h) + (zlen h' - zlen h1)) by lia. done.
Qed.
End run.

(** *** A frame *)

Lemma fblocks_ok le bsm bs : 0 <= bsm <= ZSTD_BLOCKSIZE_MAX -> (exists w, block_scratch_ok w) -> forall K k h h',
  blocks_mean le bsm K h bs h' -> K k -> bytes_ok (fblocks_bytes bs).
Proof.
  intros Hm Hw. induction bs as [|b bs IH]; intros K k h h' H Hk; [apply Forall_nil_2|]. apply blocks_mean_cons in H as (h1 & K1 & H1 & H2).
  destruct (fb_header_ok _ _ _ _ _ _ _ _ Hm H1 Hk Hw) as [(Hp & _) [k1 Hk1]].
  cbn [fblocks_bytes]. apply bytes_ok_app; [|by eapply IH]. by apply block_bytes_ok.
Qed.

Section header.
Context (format : ZSTD_format_e) (fp : ZSTD_frameParameters) (windowLog size dictID : Z).
Hypothesis Hwl : 10 <= windowLog <= 31.
Hypothesis Hsize : 0 <= size < 2 ^ 64.
Hypothesis Hdid : 0 <= dictID < 2 ^ 32.
Notation header := (header_bytes format fp windowLog size dictID).

Lemma header_ok : bytes_ok header.
Proof.
  pose proof (fhd_range fp windowLog size dictID Hsize Hdid) as Hf. pose proof (did_code_spec (noDictIDFlag fp) dictID Hdid) as Hd.
  pose proof (fcs_code_spec (contentSizeFlag fp) size Hsize) as Hc. unfold header_bytes. repeat apply bytes_ok_app.
  - apply magic_bytes_ok.
  - by apply Forall_singleton.
  - by apply wl_bytes_ok.
  - apply did_bytes_ok. lia.
  - apply fcs_bytes_ok. intros E Hss. unfold single_segment in Hss. destruct (contentSizeFlag fp); [lia|done].
Qed.

Lemma header_min : ZSTD_FRAMEHEADERSIZE_MIN format <= zlen header.
Proof.
  pose proof (header_length ZSTD_f_zstd1_magicless fp windowLog size dictID Hwl Hsize Hdid) as H. rewrite zlen_header_bytes in * by done.
  unfold ZSTD_FRAMEHEADERSIZE_MIN, ZSTD_startingInputLength in *. rewrite decide_False in H by done. case_decide; lia.
Qed.

Lemma header_size_prefix rest :
  bytes_ok rest -> ZSTD_frameHeaderSize_internal (zsub (header ++ rest) 0 (ZSTD_startingInputLength format)) format = Ok (zlen header).
Proof.
  intros Hr. pose proof header_min as Hmin. pose proof (startingInputLength_range format) as Hs. pose proof (zlen_nonneg rest).
  assert (ZSTD_startingInputLength format < ZSTD_FRAMEHEADERSIZE_MIN format) as Hlt.
  { unfold ZSTD_startingInputLength, ZSTD_FRAMEHEADERSIZE_MIN. case_decide; lia. }
  pose proof (FrameHeader.frameHeaderSize_read format fp windowLog size dictID rest Hsize Hdid) as Hfs.
  pose proof (FrameHeader.src_eq format fp windowLog size dictID rest) as E. cbv zeta in Hfs. rewrite <- E in Hfs.
  assert (bytes_ok (header ++ rest)) as Hb by (apply bytes_ok_app; [apply header_ok|done]).
  rewrite frameHeaderSize_eq in Hfs by (rewrite ?zlen_app; done || lia).
  rewrite frameHeaderSize_eq by (first [by apply bytes_ok_zsub|rewrite zlen_zsub; rewrite ?zlen_app; lia]).
  rewrite zat_zsub by (rewrite ?zlen_app; lia). exact Hfs.
Qed.
End header.

(** A frame that a context with the history [h] decodes to [content]. *)
Record frame_means (le : bool) (format : ZSTD_format_e) (fp : ZSTD_frameParameters) (windowLog size dictID : Z) (bs : list frame_block)
    (known : Z) (K : kept -> Prop) (h content : list Z) : Prop := {
  fm_windowLog : 10 <= windowLog <= 31;
  fm_size : 0 <= size < 2 ^ 64 /\ (contentSizeFlag fp = true -> size = zlen content);
  fm_dictID : 0 <= dictID < 2 ^ 32 /\ (noDictIDFlag fp = true \/ dictID = 0 \/ dictID = known);
  fm_blocks : bs <> [] /\ blocks_mean le (blockSizeMax (header_of format fp windowLog size dictID)) K h bs (h ++ content);
}.

Lemma header_block_size format fp windowLog size dictID :
  0 <= size -> 0 <= blockSizeMax (header_of format fp windowLog size dictID) <= ZSTD_BLOCKSIZE_MAX.
Proof. intros H. cbn. pose proof (pow2_pos windowLog). unfold ZSTD_BLOCKSIZE_MAX. destruct (single_segment _ _ _); lia. Qed.

Lemma zsub_prefix (a b : list Z) : zsub (a ++ b) 0 (zlen a) = a.
Proof. apply (zsub_mid [] a b); done. Qed.

(** The header, read back, with the dictionary that it names. *)
Lemma decodeFrameHeader_means le dctx format fp windowLog size dictID :
  10 <= windowLog <= 31 -> 0 <= size < 2 ^ 64 -> 0 <= dictID < 2 ^ 32 ->
  noDictIDFlag fp = true \/ dictID = 0 \/ dictID = dctx_dictID (fd_dict dctx) ->
  dctx_refMultipleDDicts (fd_dict dctx) = false -> fd_format dctx = format ->
  let zfh := header_of format fp windowLog size dictID in
  exists dctx1, ZSTD_decodeFrameHeader le dctx (header_bytes format fp windowLog size dictID) = Ok dctx1 /\ fd_fParams dctx1 = zfh /\
    fd_block dctx1 = fd_block (set_fParams dctx zfh).
Proof.
  intros Hwl Hsz Hid Hidk Hmulti Hfmt zfh. pose proof (read_ok format fp windowLog size dictID [] Hwl Hsz Hid (Forall_nil_2 _)) as Hread.
  rewrite app_nil_r in Hread. fold zfh in Hread.
  unfold ZSTD_decodeFrameHeader. rewrite Hfmt, Hread. cbn [bind]. cbv zeta. change (dctx_refMultipleDDicts (fd_dict (set_fParams dctx zfh))) with (dctx_refMultipleDDicts (fd_dict dctx)).
  change (dctx_ddictSet (fd_dict (set_fParams dctx zfh))) with (dctx_ddictSet (fd_dict dctx)). rewrite Hmulti.
  assert (forall A (m : A), (match dctx_ddictSet (fd_dict dctx) with Some _ => m | None => m end) = m) as -> by (by destruct (dctx_ddictSet (fd_dict dctx))).
  cbn [bind]. change (dctx_dictID (fd_dict (set_fParams dctx zfh))) with (dctx_dictID (fd_dict dctx)).
  assert (negb (Frame.dictID zfh =? 0) && negb (dctx_dictID (fd_dict dctx) =? Frame.dictID zfh) = false) as E.
  { unfold zfh, header_of. cbn [Frame.dictID]. destruct (noDictIDFlag fp); [done|]. destruct Hidk as [?|[E0|E0]]; [done|by rewrite E0|]. by rewrite E0, Z.eqb_refl, andb_false_r. }
  unfold RETURN_ERROR_IF. rewrite E. eexists. by split.
Qed.

Section whole_frame.
Context (le : bool) (dict : list Z) (ps cap : Z) (w : Z -> block_scratch).
Hypothesis Hdict : bytes_ok dict /\ zlen dict < 2 ^ 58.
Hypothesis Hw : forall ip, block_scratch_ok (w ip).

Lemma decompressFrame_means d dctx b K format fp windowLog size dictID bs content rest :
  begun dict b -> fd_block dctx = ZSTD_checkContinuity b ps cap -> 0 <= ps /\ 0 <= cap /\ ps + cap <= zlen d /\ zlen d < 2 ^ 58 ->
  bytes_ok d -> bytes_ok rest -> fd_maxBlockSizeParam dctx = 0 -> dctx_refMultipleDDicts (fd_dict dctx) = false -> fd_format dctx = format ->
  frame_means le format fp windowLog size dictID bs (dctx_dictID (fd_dict dctx)) K dict content -> K (kept_of b) -> zlen content <= cap ->
  let frame := frame_bytes format fp windowLog size dictID bs content in
  exists d' dctx', ZSTD_decompressFrame le d dctx false ps cap (frame ++ rest) w = Ok (d', zlen content, zlen frame, dctx') /\
    zsub d' ps (zlen content) = content /\ bytes_ok frame.
Proof.
  intros Hbg Eblk Hdst Hd Hrest Hmax Hmulti Hfmt [Hwl [Hsz Hszc] [Hid Hidk] [Hne Hbm]] HK Hcap frame.
  set (header := header_bytes format fp windowLog size dictID). set (zfh := header_of format fp windowLog size dictID).
  set (bsm := blockSizeMax zfh) in *. pose proof (header_block_size format fp windowLog size dictID ltac:(lia)) as Hbsm. fold zfh bsm in Hbsm.
  set (tail := if fp_checksumFlag fp then le_bytes 4 (u32 (xxh64_spec content 0)) else []).
  assert (bytes_ok header) as Hhb by (by apply header_ok).
  assert (bytes_ok (fblocks_bytes bs)) as Hfb by (eapply fblocks_ok; [exact Hbsm|by exists (w 0)|exact Hbm|exact HK]).
  assert (bytes_ok tail) as Htb by (unfold tail; destruct (fp_checksumFlag fp); [apply le_bytes_ok|apply Forall_nil_2]).
  assert (frame = header ++ fblocks_bytes bs ++ tail) as Ef by done.
  assert (bytes_ok frame) as Hframe by (rewrite Ef; apply bytes_ok_app; [done|by apply bytes_ok_app]).
  set (src := frame ++ rest). assert (src = header ++ (fblocks_bytes bs ++ tail ++ rest)) as Es by (unfold src; rewrite Ef; by rewrite <- !app_assoc).
  assert (bytes_ok src) as Hsrc by (by apply bytes_ok_app).
  pose proof (header_min format fp windowLog size dictID Hwl Hsz Hid) as Hmin. fold header in Hmin.
  assert (3 <= zlen (fblocks_bytes bs)) as Hbl.
  { destruct bs as [|b0 bs0]; [done|]. cbn [fblocks_bytes]. rewrite zlen_app, zlen_block_bytes. pose proof (zlen_nonneg (fb_payload b0)). pose proof (zlen_nonneg (fblocks_bytes bs0)). lia. }
  assert (zlen src = zlen header + zlen (fblocks_bytes bs) + zlen tail + zlen rest) as Els by (rewrite Es, !zlen_app; lia).
  pose proof (zlen_nonneg tail). pose proof (zlen_nonneg rest).
  (* the header *)
  unfold ZSTD_decompressFrame. cbv zeta. rewrite Hfmt. fold src. unfold RETURN_ERROR_IF at 1, ZSTD_blockHeaderSize.
  destruct (Z.ltb_spec (zlen src) (ZSTD_FRAMEHEADERSIZE_MIN format + 3)); [lia|].
  assert (ZSTD_frameHeaderSize_internal (zsub src 0 (ZSTD_startingInputLength format)) format = Ok (zlen header)) as ->.
  { rewrite Es. apply header_size_prefix; [done|done|done|]. by repeat apply bytes_ok_app. }
  cbn [bind]. unfold RETURN_ERROR_IF at 1. destruct (Z.ltb_spec (zlen src) (zlen header + 3)); [lia|].
  assert (zsub src 0 (zlen header) = header) as -> by (rewrite Es; apply zsub_prefix).
  pose proof (frame_header_ready le dict dctx b ps cap header Hbg Eblk ltac:(lia) ltac:(lia) Hhb) as Hready.
  assert (set_searchable le (fd_dict dctx)) as Hsearch by (intros s id _ ?; congruence). specialize (Hready Hsearch).
  destruct (decodeFrameHeader_means le dctx format fp windowLog size dictID) as (dctx1 & E1 & Efp & Eb1); try done. fold header zfh in E1, Efp, Eb1.
  rewrite E1 in Hready |- *. cbn [bind wp] in *. cbv zeta in Hready.
  assert (shrink_blockSizeMax dctx1 = dctx1) as Esh.
  { unfold shrink_blockSizeMax. destruct Hready as (_ & _ & (_ & _ & Em & _) & _). unfold shrink_blockSizeMax in Em.
    destruct (Z.eqb_spec (fd_maxBlockSizeParam dctx1) 0) as [E|E]; cbn [negb] in *; [done|]. cbn in Em. congruence. }
  rewrite Esh in *. destruct Hready as (Hready & Hx & Hset & _). pose proof Hready as [Hdec Hval].
  (* the blocks *)
  assert (bc_lit (fd_block dctx) = bc_lit b /\ bc_tables (fd_block dctx) = bc_tables b /\ bc_rep (fd_block dctx) = bc_rep b) as (El & Et & Er).
  { rewrite Eblk. unfold ZSTD_checkContinuity. split_and!; by case_match. }
  assert (kept_of (fd_block dctx1) = kept_of b) as Ek by (rewrite Eb1; unfold kept_of; cbn; by rewrite El, Et, Er).
  assert (lc_isFrameDecompression (bc_lit (fd_block dctx1)) = true) as Efd by (rewrite Eb1; cbn; rewrite El; apply Hbg).
  assert (lc_blockSizeMax (bc_lit (fd_block dctx1)) = bsm) as Ebs by (by rewrite Eb1).
  assert (history ps dict d ps = dict) as Eh0 by (unfold history; replace (ps - ps) with 0 by lia; apply app_nil_r).
  assert (frame_run dict ps cap d src dctx1 (d, ps, zlen header, dctx1)) as Hrun.
  { split; [lia|]. split; [pose proof (zlen_nonneg (fblocks_bytes bs)); pose proof (zlen_nonneg header); lia|]. split; [apply outside_refl|]. split; [done|]. split; [exact Hdec|].
    split; [unfold same_frame, same_block; by split_and!|]. intros Hv. replace (ps - ps) with 0 by lia. rewrite (Hx Hv). apply xxh_rep_reset. }
  destruct (frame_blocks_mean le dict ps cap d src w dctx1 bsm Hdict Hdst Hw Hbsm bs Hne (S (length src)) header (tail ++ rest) d ps dctx1 dict K (dict ++ content))
    as (d' & dctx' & Eloop & Hrun' & Eh'); try done.
  { pose proof (fblocks_len bs). unfold zlen in *. lia. }
  { by rewrite Ek. }
  { rewrite zlen_app. lia. }
  cbv zeta in Eloop, Hrun'. rewrite zlen_app in Eloop, Hrun', Eh'. replace (ps + (zlen dict + zlen content - zlen dict)) with (ps + zlen content) in * by lia.
  rewrite Eloop. cbn [bind].
  assert (zsub d' ps (zlen content) = content) as Econ.
  { unfold history in Eh'. replace (ps + zlen content - ps) with (zlen content) in Eh' by lia. by apply app_inv_head in Eh'. }
  pose proof Hrun' as (_ & _ & [Eld _] & _ & _ & (_ & _ & _ & Eign & _ & Efp' & Ev' & _) & Hxr). rewrite Efp', Efp. unfold zfh at 1 2, header_of. cbn [frameContentSize].
  assert (negb ((if contentSizeFlag fp then size else ZSTD_CONTENTSIZE_UNKNOWN) =? ZSTD_CONTENTSIZE_UNKNOWN)
    && negb (ps + zlen content - ps =? (if contentSizeFlag fp then size else ZSTD_CONTENTSIZE_UNKNOWN)) = false) as ->.
  { destruct (contentSizeFlag fp); [|done]. rewrite (Hszc eq_refl). replace (ps + zlen content - ps) with (zlen content) by lia. by rewrite Z.eqb_refl, andb_false_r. }
  cbn [RETURN_ERROR_IF].
  (* the checksum *)
  assert (frame_checksum le dctx' src (zlen (header ++ fblocks_bytes bs)) = Ok (zlen frame)) as ->.
  { unfold frame_checksum. rewrite Efp', Efp. unfold zfh, header_of. cbn [checksumFlag]. rewrite b2z_eq0, negb_involutive.
    assert (zlen frame = zlen (header ++ fblocks_bytes bs) + zlen tail) as -> by (rewrite Ef, !zlen_app; lia).
    assert (zlen (header ++ fblocks_bytes bs) = zlen header + zlen (fblocks_bytes bs)) as Ehf by apply zlen_app.
    destruct (fp_checksumFlag fp) eqn:Eck; [|unfold tail; do 2 f_equal; change (zlen []) with 0; lia].
    unfold tail in *. rewrite zlen_le_bytes in *. unfold RETURN_ERROR_IF at 1. destruct (Z.ltb_spec (zlen src - zlen (header ++ fblocks_bytes bs)) 4); [lia|].
    destruct (fd_forceIgnoreChecksum dctx') eqn:Eig; cbn [negb]; [done|].
    rewrite (digest_ok le 0 content); [|lia|lia|]. 2: { rewrite Efp in Hval. unfold zfh, header_of in Hval. cbn [checksumFlag] in Hval. rewrite b2z_eq0, Eck, <- Eign in Hval.
      replace (ps + zlen content - ps) with (zlen content) in Hxr by lia. rewrite Econ in Hxr. apply Hxr. by rewrite Ev', Hval. }
    cbn [bind]. rewrite Es, app_assoc. rewrite (parse_LE32 (header ++ fblocks_bytes bs) rest) by (done || (by apply bytes_ok_app) || apply u32_range).
    cbn [bind]. unfold RETURN_ERROR_IF. by rewrite Z.eqb_refl. }
  cbn [bind]. exists d', dctx'. replace (ps + zlen content - ps) with (zlen content) by lia. done.
Qed.
End whole_frame.
