(* ===== verification/PackedBlock.v ===== *)
(** A compressed block is made of a section of literals and a section of sequences. *)

From S2P Require Import Prelude Errors Outcome Bits Mem HufCode HufDTable HufRoundtrip Wire LzCopy ExecSequence SeqTables SeqDecode SplitLit Frame FrameHeader FrameWalk LitDecode LitEncode BlockDecode XxHash DDict DCtx FrameDecode FrameContent.

Lemma lz_block_room h lits room e seqs ended h' :
  0 <= e -> lz_block h lits room seqs ended = Ok h' -> lz_block h lits (room + e) seqs ended = Ok h'.
Proof.
  intros He. unfold lz_block. destruct (lz_exec h lits room seqs) as [[[h1 l1] room1]|e'|] eqn:E; cbn [bind]; [|done|done].
  rewrite (lz_exec_room _ _ _ _ _ _ _ e He E). cbn [bind].
  unfold RETURN_ERROR_IF. destruct (negb ended); [done|]. destruct (Z.gtb_spec (zlen l1) room1); [done|].
  destruct (Z.gtb_spec (zlen l1) (room1 + e)); [lia|]. done.
Qed.

(** The flag of the tables after a block. *)
Definition after_sequences (tables : seq_tables) (nbSeq : Z) : seq_tables :=
  mkSeqTables (LLTptr tables) (OFTptr tables) (MLTptr tables) (if negb (nbSeq =? 0) then 1 else fseEntropy tables).

(** What the two sections [lb] and [sb] of a block do with the tables [k]. *)
Definition sections_mean (bsm : Z) (k : kept) (h lb lits sb h' : list Z) (w : block_scratch) (K' : kept -> Prop) : Prop :=
  exists huf ip nbSeq tables seqs rep,
    lits_section (lc_of bsm k.1.1) lb lits huf /\
    ZSTD_decodeSeqHeaders k.1.2 sb (bs_LL w) (bs_OF w) (bs_ML w) = Ok (ip, nbSeq, tables) /\
    decode_block (zsub sb ip (zlen sb - ip)) (after_sequences tables nbSeq) k.2 nbSeq = Ok (seqs, rep, true) /\
    lz_block h lits (zlen h' - zlen h) seqs true = Ok h' /\ (0 < nbSeq -> zlen h < zlen h') /\
    K' (huf, after_sequences tables nbSeq, rep).

Lemma sections_packed le bsm K h lb lits sb h' K' :
  bytes_ok lb -> bytes_ok sb -> 1 <= zlen sb -> zlen lb + zlen sb <= bsm -> zlen h <= zlen h' <= zlen h + bsm -> zlen lits <= zlen h' - zlen h ->
  (forall k w, K k -> block_scratch_ok w -> sections_mean bsm k h lb lits sb h' w K') ->
  packed_means le bsm K h (lb ++ sb) h' K'.
Proof.
  intros Hlb Hsb Hsb1 Hfit Hh' Hlits H. split; [by apply bytes_ok_app|]. split; [done|]. intros k room old w Hk Hroom Hold Hw.
  destruct (H k w Hk Hw) as (huf & ip & nbSeq & tables & seqs & rep & [_ Hl] & Eh & Ed & El & Hpos & Hk'). destruct Hw as (Hw0 & _).
  exists huf, (after_sequences tables nbSeq), rep. split; [|done]. unfold compressed_block_spec. change (ZSTD_blockSizeMax (lc_of bsm k.1.1)) with bsm.
  unfold RETURN_ERROR_IF at 1. rewrite zlen_app. destruct (Z.gtb_spec (zlen lb + zlen sb) bsm); [lia|].
  rewrite (Hl le sb room old (bs_huf w)); [|done|done|lia|change (ZSTD_blockSizeMax (lc_of bsm k.1.1)) with bsm; lia|done|done].
  cbn [bind]. replace (zlen lb + zlen sb - zlen lb) with (zlen sb) by lia.
  assert (zsub (lb ++ sb) (zlen lb) (zlen sb) = sb) as -> by (rewrite <- (app_nil_r sb) at 1; by apply zsub_mid).
  rewrite Eh. cbn [bind]. unfold RETURN_ERROR_IF.
  assert ((false || (room =? 0)) && (nbSeq >? 0) = false) as ->.
  { destruct (Z.gtb_spec nbSeq 0); [|by rewrite andb_false_r]. specialize (Hpos ltac:(lia)). rewrite andb_true_r. cbn. lia. }
  fold (after_sequences tables nbSeq). unfold block_spec. rewrite Ed. cbn [bind].
  replace room with (zlen h' - zlen h + (room - (zlen h' - zlen h))) by lia. rewrite (lz_block_room _ _ _ _ _ _ h') by (done || lia). done.
Qed.
