(* ===== verification/FrameInput.v ===== *)
(** The decoding of an input: frames and skippable frames one after another are decoded to
    the contents of the frames. *)

From S2P Require Import Prelude Errors Outcome Bits Mem HufCode HufDTable HufRoundtrip Wire LzCopy ExecSequence SeqTables SeqDecode SplitLit Frame FrameHeader FrameParse FrameWalk Skippable LitDecode LitEncode BlockDecode XxHash DDict DCtx FrameDecode FrameContent PackedBlock.

(** ** Specification *)

(** A part of an input. *)
Inductive input_part :=
| Skipped (variant : Z) (payload : list Z)
| Framed (fp : ZSTD_frameParameters) (windowLog size dictID : Z) (bs : list frame_block) (content : list Z).

Definition part_bytes (format : ZSTD_format_e) (p : input_part) : list Z :=
  match p with
  | Skipped variant payload => skippable_bytes variant payload
  | Framed fp windowLog size dictID bs content => frame_bytes format fp windowLog size dictID bs content
  end.
Definition part_content (p : input_part) : list Z :=
  match p with Skipped _ _ => [] | Framed _ _ _ _ _ content => content end.

Definition input_bytes (format : ZSTD_format_e) (ps : list input_part) : list Z := concat (map (part_bytes format) ps).
Definition input_content (ps : list input_part) : list Z := concat (map part_content ps).

(** A part that decoders with the history [h], a dictionary of number [known] and any of the
    tables [fresh] understand. Only [ZSTD_f_zstd1] has skippable frames. *)
Definition part_ok (le : bool) (format : ZSTD_format_e) (known : Z) (fresh : kept -> Prop) (h : list Z) (p : input_part) : Prop :=
  match p with
  | Skipped variant payload => format = ZSTD_f_zstd1 /\ 0 <= variant <= 15 /\ bytes_ok payload /\ zlen payload < 2 ^ 32 - 8
  | Framed fp windowLog size dictID bs content =>
      frame_means le format fp windowLog size dictID bs known fresh h content
  end.

(** The tables at the start of a frame: those of no dictionary, and those of a digested one.
    What else the context holds is left over from the frame before. *)
Definition fresh_tables (ddict : option DDict_content) (k : kept) : Prop :=
  exists desc mem tables, zlen mem = 4 * 2 ^ ZSTD_HUFFDTABLE_CAPACITY_LOG /\
  let own := reset_hufTable (mkHDTable desc mem) in
  k = match ddict ≫= dd_entropy with
      | Some e => ((own, dict_hufTable (ed_hufTable e), true), mkSeqTables (ed_LLTable e) (ed_OFTable e) (ed_MLTable e) 1, ed_rep e)
      | None => ((own, own_hufTable, false), mkSeqTables (LLTptr tables) (OFTptr tables) (MLTptr tables) 0, repStartValue)
      end.

(** ** Lemmas *)

Section input.
Context (le : bool) (format : ZSTD_format_e) (dict : list Z) (ddict : option DDict_content) (wd : Z -> dict_scratch) (w : Z -> block_scratch)
  (known : Z) (fresh : kept -> Prop) (h : list Z).
Hypothesis Hh : bytes_ok h /\ zlen h < 2 ^ 58.
Hypothesis Hw : forall n, block_scratch_ok (w n).
Hypothesis Hbegin : forall dctx n, dctx_memory (fd_block dctx) -> exists dctx', frame_begin le dctx dict ddict (wd n) = Ok dctx' /\
  begun h (fd_block dctx') /\ same_settings dctx dctx' /\ dctx_dictID (fd_dict dctx') = known /\ fresh (kept_of (fd_block dctx')).

Definition settings_ok (dctx : frame_DCtx) : Prop :=
  fd_format dctx = format /\ fd_maxBlockSizeParam dctx = 0 /\ dctx_refMultipleDDicts (fd_dict dctx) = false.

Lemma settings_same dctx dctx' : settings_ok dctx -> same_settings dctx dctx' -> settings_ok dctx'.
Proof. unfold settings_ok, same_settings. intuition congruence. Qed.

Lemma settings_searchable dctx : settings_ok dctx -> set_searchable le (fd_dict dctx).
Proof. intros (_ & _ & E) s id _ E'. congruence. Qed.

Lemma drop_part (p rest : list Z) : drop (Z.to_nat (zlen p)) (p ++ rest) = rest.
Proof. unfold zlen. rewrite Nat2Z.id. apply drop_app_length. Qed.

(** The next part is decoded. *)
Lemma multi_step_means p rest d dst oend dctx more :
  part_ok le format known fresh h p -> bytes_ok rest -> dctx_memory (fd_block dctx) -> settings_ok dctx -> bytes_ok d ->
  0 <= dst /\ dst + zlen (part_content p) <= oend /\ oend <= zlen d /\ zlen d < 2 ^ 58 ->
  exists d' dctx' more', multi_step le false oend dict ddict wd w (d, dst, part_bytes format p ++ rest, dctx, more)
      = Ok (Continue (d', dst + zlen (part_content p), rest, dctx', more')) /\
    bytes_ok (part_bytes format p) /\ dctx_memory (fd_block dctx') /\ settings_ok dctx' /\ bytes_ok d' /\ outside oend d d' dst /\
    zsub d' dst (zlen (part_content p)) = part_content p.
Proof.
  intros Hp Hrest Hm Hset Hd Hdst. pose proof Hset as (Hfmt & Hmax & Hmulti). unfold multi_step. rewrite Hfmt. pose proof (zlen_nonneg rest).
  pose proof (startingInputLength_range format) as Hsl.
  destruct p as [variant payload|fp windowLog size dictID bs content]; cbn [part_bytes part_content part_ok] in *.
  - destruct Hp as (-> & Hv & Hb & Hl). pose proof (zlen_nonneg payload).
    assert (zlen (skippable_bytes variant payload ++ rest) = zlen payload + 8 + zlen rest) as El by (rewrite zlen_app, zlen_skippable; lia).
    assert (zlen (skippable_bytes variant payload ++ rest) >=? ZSTD_startingInputLength ZSTD_f_zstd1 = true) as -> by (rewrite Z.geb_le, El; change (ZSTD_startingInputLength ZSTD_f_zstd1) with 5; lia).
    assert (zlen (skippable_bytes variant payload ++ rest) >=? 4 = true) as -> by (rewrite Z.geb_le, El; lia).
    rewrite bool_decide_true by done. cbn [andb]. rewrite skippable_magic by (done || lia). cbn [bind]. rewrite skippable_is by done.
    rewrite skippable_size by (done || lia). rewrite (proj2 (Z.ltb_lt _ _)) by lia. cbn [bind].
    exists d, dctx, more. rewrite <- (zlen_skippable payload variant), drop_part. change (zlen []) with 0. rewrite Z.add_0_r.
    split; [done|]. split; [|split_and!; try done; apply outside_refl]. unfold skippable_bytes. repeat apply bytes_ok_app; done || apply le_bytes_ok.
  - pose proof (zlen_nonneg content). set (frame := frame_bytes format fp windowLog size dictID bs content) in *.
    pose proof Hp as [Hwl [Hsz _] [Hid _] _].
    assert (bytes_ok (header_bytes format fp windowLog size dictID)) as Hhb by (by apply header_ok).
    destruct (Hbegin dctx (zlen (frame ++ rest)) Hm) as (dctx1 & E1 & Hbg & Hs1 & Eid & Hfresh).
    set (dctx2 := set_block dctx1 (ZSTD_checkContinuity (fd_block dctx1) dst (oend - dst))).
    assert (settings_ok dctx2) as Hset2 by (apply (settings_same dctx); [done|exact Hs1]). pose proof Hset2 as (Hfmt2 & Hmax2 & Hmulti2).
    set (wf := fun ip => w (zlen (frame ++ rest) - ip)). assert (forall ip, block_scratch_ok (wf ip)) as Hwf by (intros; apply Hw).
    destruct (decompressFrame_means le h dst (oend - dst) wf Hh Hwf d dctx2 (fd_block dctx1) fresh format fp windowLog size dictID bs content rest)
      as (d' & dctx' & Edec & Ecn & Hfb); try done; [lia| |lia|].
    { change (dctx_dictID (fd_dict dctx2)) with (dctx_dictID (fd_dict dctx1)). rewrite Eid. exact Hp. }
    fold frame in Edec, Hfb.
    pose proof (decompressFrame_ok le h Hh d dctx2 (fd_block dctx1) false dst (oend - dst) (frame ++ rest) wf Hbg eq_refl ltac:(lia) Hd (bytes_ok_app _ _ Hfb Hrest) ltac:(lia)
      (settings_searchable _ Hset2) Hwf) as Hok.
    rewrite Edec in Hok. cbn [wp] in Hok. destruct Hok as (_ & Ho & Hb' & Hpos & Hm' & Hs').
    assert (ZSTD_startingInputLength format <= zlen (frame ++ rest)) as Hlen.
    { pose proof (header_min format fp windowLog size dictID Hwl Hsz Hid) as Hmin. unfold frame, frame_bytes. rewrite !zlen_app.
      match goal with |- _ <= _ + (?a + ?b) + _ => assert (0 <= a + b) by (pose proof (zlen_nonneg (fblocks_bytes bs)); match goal with |- 0 <= _ + zlen ?t => pose proof (zlen_nonneg t) end; lia) end.
      unfold ZSTD_startingInputLength, ZSTD_FRAMEHEADERSIZE_MIN in *. case_decide; lia. }
    rewrite (proj2 (Z.geb_le _ _) Hlen). assert (settings_ok dctx') as Hset' by (by apply (settings_same dctx2)).
    assert ((if bool_decide (format = ZSTD_f_zstd1) && (zlen (frame ++ rest) >=? 4)
       then let* magicNumber := readLE32 (frame ++ rest) 0 in Ok (is_skippable_magic magicNumber) else Ok false) = Ok false) as ->.
    { case_bool_decide as Ef; [|done]. cbn [andb]. destruct (Z.geb_spec (zlen (frame ++ rest)) 4); [|done]. unfold frame, frame_bytes. rewrite Ef, <- app_assoc.
      rewrite header_magic; [done|done|done|done|]. apply bytes_ok_app; [|done]. unfold frame, frame_bytes in Hfb. by apply Forall_app in Hfb as [_ Hfb]. }
    cbn [bind]. rewrite E1. cbn [bind]. cbv zeta. fold dctx2 wf. rewrite Edec. cbn [after_first_frame bind]. rewrite drop_part.
    exists d', dctx', true. split; [done|]. replace (dst + (oend - dst)) with oend in Ho by lia. by split_and!.
Qed.

Lemma multi_means parts : forall fuel d dst oend dctx more,
  (length parts < fuel)%nat -> Forall (part_ok le format known fresh h) parts -> dctx_memory (fd_block dctx) -> settings_ok dctx -> bytes_ok d ->
  0 <= dst /\ dst + zlen (input_content parts) <= oend /\ oend <= zlen d /\ zlen d < 2 ^ 58 ->
  bytes_ok (input_bytes format parts) /\
  exists d' dctx', loop_ fuel (multi_step le false oend dict ddict wd w) (d, dst, input_bytes format parts, dctx, more)
      = Ok (d', dst + zlen (input_content parts), [], dctx') /\
    outside oend d d' dst /\ zsub d' dst (zlen (input_content parts)) = input_content parts.
Proof.
  induction parts as [|p parts IH]; intros fuel d dst oend dctx more Hf Hp Hm Hset Hd Hdst.
  - destruct fuel as [|fuel]; [cbn in Hf; lia|]. split; [apply Forall_nil_2|]. exists d, dctx. unfold input_bytes, input_content. cbn [map concat loop_ multi_step].
    pose proof (startingInputLength_range (fd_format dctx)). change (zlen []) with 0. destruct (Z.geb_spec 0 (ZSTD_startingInputLength (fd_format dctx))); [lia|].
    cbn [bind]. rewrite Z.add_0_r. split; [done|]. split; [apply outside_refl|done].
  - destruct fuel as [|fuel]; [cbn in Hf; lia|]. apply Forall_cons in Hp as [Hp Hps]. unfold input_bytes, input_content in *. cbn [map concat] in *.
    rewrite zlen_app in *. pose proof (zlen_nonneg (concat (map part_content parts))). pose proof (zlen_nonneg (part_content p)).
    set (rest := concat (map (part_bytes format) parts)) in *.
    assert (bytes_ok rest) as Hrest by (destruct (IH fuel d dst oend dctx more) as [H1 _]; try done; [cbn in Hf; lia|lia]).
    destruct (multi_step_means p rest d dst oend dctx more) as (d1 & dctx1 & more1 & E1 & Hpb & Hm1 & Hset1 & Hd1 & Ho1 & Ec1); try done; [lia|].
    destruct (IH fuel d1 (dst + zlen (part_content p)) oend dctx1 more1) as [_ (d' & dctx' & E' & Ho' & Ec')]; try done; [cbn in Hf; lia|destruct Ho1; lia|].
    split; [by apply bytes_ok_app|]. exists d', dctx'. cbn [loop_]. rewrite E1. cbn [bind]. rewrite E'. rewrite Z.add_assoc. split; [done|].
    destruct Ho1 as [El1 Hz1], Ho' as [El' Hz'].
    split; [split; [congruence|]|]. 
    + intros i Hi. rewrite Hz' by lia. apply Hz1. lia.
    + rewrite zsub_split by lia. rewrite Ec'. f_equal. rewrite <- Ec1 at 2. apply zat_ext; [rewrite !zlen_zsub; lia|].
      intros i Hi. rewrite zlen_zsub in Hi by lia. rewrite !zat_zsub by lia. apply Hz'. lia.
Qed.

Lemma parts_len parts : Forall (part_ok le format known fresh h) parts -> zlen parts <= zlen (input_bytes format parts).
Proof.
  induction 1 as [|p parts Hp _ IH]; [done|]. unfold input_bytes in *. cbn [map concat]. rewrite zlen_app.
  assert (1 <= zlen (part_bytes format p)) as H1.
  { destruct p as [v c|fp wl size id bs c]; cbn [part_bytes part_ok] in *.
    - rewrite zlen_skippable by lia. pose proof (zlen_nonneg c). lia.
    - destruct Hp as [Hwl [Hsz _] [Hid _] _]. pose proof (header_length format fp wl size id Hwl Hsz Hid).
      unfold frame_bytes. rewrite !zlen_app. pose proof (zlen_nonneg (fblocks_bytes bs)). match goal with |- _ <= _ + (_ + zlen ?t) => pose proof (zlen_nonneg t) end. lia. }
  unfold zlen in *. cbn [length]. lia.
Qed.

Lemma decompressMultiFrame_means d dctx dst cap parts :
  Forall (part_ok le format known fresh h) parts -> dctx_memory (fd_block dctx) -> settings_ok dctx -> bytes_ok d ->
  0 <= dst /\ zlen (input_content parts) <= cap /\ dst + cap <= zlen d /\ zlen d < 2 ^ 58 ->
  exists d' dctx', ZSTD_decompressMultiFrame le d dctx false dst cap (input_bytes format parts) dict ddict wd w
      = Ok (d', zlen (input_content parts), dctx') /\
    outside (dst + cap) d d' dst /\ zsub d' dst (zlen (input_content parts)) = input_content parts.
Proof.
  intros Hp Hm Hset Hd Hdst. unfold ZSTD_decompressMultiFrame. pose proof (parts_len parts Hp) as Hl.
  destruct (multi_means parts (S (length (input_bytes format parts))) d dst (dst + cap) dctx false) as [_ (d' & dctx' & E & Ho & Ec)]; try done.
  { unfold zlen in *. lia. }
  { lia. }
  rewrite E. cbn [bind]. change (zlen []) with 0. cbn. exists d', dctx'. split; [do 3 f_equal; lia|done].
Qed.
End input.

(** *** The start of a frame *)

Lemma memory_fresh dctx ddict :
  dctx_memory (fd_block dctx) -> fresh_tables ddict (kept_of (fd_block (ZSTD_decompressBegin_usingDDict dctx ddict))).
Proof.
  intros [Hm _]. destruct dctx as [b c s f i m z v x]. destruct b as [lc t r p1 p2 p3 p4]. destruct lc as [? ? [desc mem] ? ? ? ? ? ? ? ?]. cbn in Hm.
  exists desc, mem, t. split; [exact Hm|]. destruct ddict as [[content id [e|]]|]; reflexivity.
Qed.

(** The segment before the output and the number of the dictionary. *)
Definition ddict_history (ddict : option DDict_content) : list Z := match ddict with Some dd => dd_dictContent dd | None => [] end.
Definition ddict_known (ddict : option DDict_content) : Z := match ddict with Some dd => dd_dictID dd | None => 0 end.

Lemma begin_digested le ddict (wd : Z -> dict_scratch) dctx n :
  (forall dd, ddict = Some dd -> DDict_ok dd) -> dctx_memory (fd_block dctx) ->
  exists dctx', frame_begin le dctx [] ddict (wd n) = Ok dctx' /\ begun (ddict_history ddict) (fd_block dctx') /\ same_settings dctx dctx' /\
    dctx_dictID (fd_dict dctx') = ddict_known ddict /\ fresh_tables ddict (kept_of (fd_block dctx')).
Proof.
  intros Hdd Hm. destruct (decompressBegin_usingDDict_ok dctx ddict Hm Hdd) as [H1 H2]. exists (ZSTD_decompressBegin_usingDDict dctx ddict).
  split; [by destruct ddict|]. split; [exact H1|]. split; [done|]. split; [by destruct ddict|by apply memory_fresh].
Qed.

(** A dictionary that is only a content. *)
Definition raw_dictionary (dict : list Z) : Prop :=
  bytes_ok dict /\ zlen dict < 2 ^ 58 /\ (8 <= zlen dict -> readLE32 dict 0 <> Ok ZSTD_MAGIC_DICTIONARY).

Lemma begin_raw le dict (wd : Z -> dict_scratch) dctx n :
  raw_dictionary dict -> dctx_memory (fd_block dctx) ->
  exists dctx', frame_begin le dctx dict None (wd n) = Ok dctx' /\ begun dict (fd_block dctx') /\ same_settings dctx dctx' /\
    dctx_dictID (fd_dict dctx') = 0 /\ fresh_tables None (kept_of (fd_block dctx')).
Proof.
  intros (Hb & Hl & Hmagic) Hm. destruct (decompressBegin_ok dctx Hm) as [Hbg Hs]. pose proof (memory_fresh dctx None Hm) as Hf. cbn in Hf.
  cbn [frame_begin]. unfold ZSTD_decompressBegin_usingDict. destruct (Z.eqb_spec (zlen dict) 0) as [E|E]; cbn [negb].
  { assert (dict = []) as -> by (destruct dict; [done|unfold zlen in E; cbn in E; lia]). by eexists. }
  exists (set_block (ZSTD_decompressBegin dctx) (ZSTD_refDictContent (fd_block (ZSTD_decompressBegin dctx)) dict)).
  split; [|split; [by apply refDictContent_ok|done]].
  unfold ZSTD_decompress_insertDictionary. destruct (Z.ltb_spec (zlen dict) 8); [done|]. specialize (Hmagic ltac:(lia)).
  assert (wp (readLE32 dict 0) (fun v => v <> ZSTD_MAGIC_DICTIONARY) no_errors) as Hr.
  { destruct (readLE32 dict 0) as [v|e|] eqn:Er; cbn; [congruence| |].
    all: assert (wp (readLE32 dict 0) (fun _ => True) no_errors) as Hw by (apply wp_readLE32; [done|lia|lia|done]); by rewrite Er in Hw. }
  destruct (wp_no_errors_Ok _ _ Hr) as (v & -> & Hv). cbn [bind]. by rewrite (proj2 (Z.eqb_neq _ _) Hv).
Qed.

(** ** Properties *)

(** C1: frames are decoded to what they mean. When the input is a
    sequence of frames and skippable frames, and each frame is a header, blocks that
    take the dictionary to the dictionary and a content, and the checksum of the content
    if there is one, then [ZSTD_decompress_usingDict], with a dictionary that is only
    a content, and [ZSTD_decompress_usingDDict], with a digested dictionary or none, succeed and
    write the contents one after the other, whatever the context was used for
    before and whatever the memory holds; the context must not select among several
    dictionaries. *)
Theorem ZSTD_decompress_content le format d dctx dst cap parts dict ddict wd w :
  dctx_memory (fd_block dctx) -> settings_ok format dctx -> bytes_ok d -> (forall n, block_scratch_ok (w n)) ->
  0 <= dst /\ zlen (input_content parts) <= cap /\ dst + cap <= zlen d /\ zlen d < 2 ^ 58 ->
  raw_dictionary dict -> (forall dd, ddict = Some dd -> DDict_ok dd /\ zlen (dd_dictContent dd) < 2 ^ 58) ->
  let decoded r := exists d' dctx', r = Ok (d', zlen (input_content parts), dctx') /\
    outside (dst + cap) d d' dst /\ zsub d' dst (zlen (input_content parts)) = input_content parts in
  (Forall (part_ok le format 0 (fresh_tables None) dict) parts ->
    decoded (ZSTD_decompress_usingDict le d dctx false dst cap (input_bytes format parts) dict wd w)) /\
  (Forall (part_ok le format (ddict_known ddict) (fresh_tables ddict) (ddict_history ddict)) parts ->
    decoded (ZSTD_decompress_usingDDict le d dctx false dst cap (input_bytes format parts) ddict wd w)).
Proof.
  intros Hm Hset Hd Hw Hdst Hraw Hdd decoded. split; intros Hp; eapply decompressMultiFrame_means; try done.
  - split; apply Hraw.
  - intros. by apply begin_raw.
  - destruct ddict as [dd|]; [|split; [apply Forall_nil_2|done]]. destruct (Hdd dd eq_refl) as [[H _] ?]. by split.
  - intros. apply begin_digested; [|done]. intros dd E. by apply Hdd.
Qed.

Definition sample_parts : list input_part :=
  [Skipped 0 [7; 8];
   Framed (mkFrameParams true false true) 20 17 0 [Plain (RawBlock [65; 66; 67]); Plain (RleBlock 90 3); Packed sample_block]
     [65; 66; 67; 90; 90; 90; 97; 98; 99; 98; 99; 98; 99; 98; 99; 100; 101]].

Lemma sample_parts_ok : Forall (part_ok true ZSTD_f_zstd1 0 (fresh_tables None) [1; 2]) sample_parts.
Proof.
  constructor; [|constructor; [|done]].
  - split; [done|]. split; [lia|]. split; [bytes_dec|reflexivity].
  - split; [lia|split; [lia|done]|split; [lia|by left]|]. split; [done|].
    eapply (one_block _ _ _ _ _ [1; 2; 65; 66; 67]); [apply (plain_means _ _ _ [1; 2] (RawBlock [65; 66; 67])); split; [bytes_dec|vm_compute; done]|].
    eapply (one_block _ _ _ _ _ [1; 2; 65; 66; 67; 90; 90; 90]); [apply (plain_means _ _ _ [1; 2; 65; 66; 67] (RleBlock 90 3)); split; [unfold is_byte; lia|lia]|].
    eapply (one_block _ _ _ _ _ _ (fun _ => True)); [apply compressed_means|apply no_blocks].
    apply (sections_packed _ _ _ _ (lit_header_bytes set_basic 5 ++ [97; 98; 99; 100; 101]) [97; 98; 99; 100; 101] [1; 0; 0x0D; 0x6E; 0x08]).
    + bytes_dec.
    + bytes_dec.
    + vm_compute; congruence.
    + vm_compute; congruence.
    + vm_compute; split; congruence.
    + vm_compute; congruence.
    + intros k w (desc & mem & tables & _ & ->) _.
      eexists _, 2, 1, _, _, _. split; [apply (raw_section _ [97; 98; 99; 100; 101]); [bytes_dec|reflexivity]|].
      split; [vm_compute; reflexivity|]. split; [vm_compute; reflexivity|]. split; [vm_compute; reflexivity|]. done.
Qed.

Lemma ZSTD_decompress_content_witness :
  let decoded r := exists d' dctx', r = Ok (d', zlen (input_content sample_parts), dctx') /\
    outside (3 + 30) (zfill 40 5) d' 3 /\ zsub d' 3 (zlen (input_content sample_parts)) = input_content sample_parts in
  decoded (ZSTD_decompress_usingDict true (zfill 40 5) sample_frame_DCtx false 3 30 (input_bytes ZSTD_f_zstd1 sample_parts) [1; 2]
    (fun _ => sample_dict_scratch) (fun _ => sample_block_scratch)) /\
  decoded (ZSTD_decompress_usingDDict true (zfill 40 5) sample_frame_DCtx false 3 30 (input_bytes ZSTD_f_zstd1 sample_parts)
    (Some (mkDDictContent [1; 2] 0 None)) (fun _ => sample_dict_scratch) (fun _ => sample_block_scratch)) /\
  input_bytes ZSTD_f_zstd1 sample_parts = sample_input.
Proof.
  intros decoded.
  destruct (ZSTD_decompress_content true ZSTD_f_zstd1 (zfill 40 5) sample_frame_DCtx 3 30 sample_parts [1; 2] (Some (mkDDictContent [1; 2] 0 None))
    (fun _ => sample_dict_scratch) (fun _ => sample_block_scratch) sample_memory_ok) as [H1 H2].
  - done.
  - bytes_dec.
  - intros _. exact sample_block_scratch_ok.
  - vm_compute; repeat split; congruence.
  - split; [bytes_dec|]. split; [reflexivity|]. intros H. exfalso. revert H. by vm_compute.
  - intros dd [= <-]. split; [split; [cbn; bytes_dec|done]|reflexivity].
  - split; [exact (H1 sample_parts_ok)|]. split; [exact (H2 sample_parts_ok)|vm_compute; reflexivity].
Defined.
