(* ===== verification/DContinue.v ===== *)
(** Streaming decompression without buffers (decompress/zstd_decompress.c): the state machine
    [ZSTD_decompressContinue], which is given the number of bytes that it asks for, and the
    loop of a caller that gives it an input piece by piece. *)

From S2P Require Import Prelude Errors Outcome Bits Mem HufCode HufDTable HufDecode HufRoundtrip Wire LzCopy ExecSequence SeqTables SeqDecode SplitLit Frame FrameHeader FrameParse FrameWalk LitDecode BlockDecode XxHash DDict DCtx FrameDecode.

(** ** Definitions *)

Inductive ZSTD_nextInputType_e :=
  | ZSTDnit_frameHeader | ZSTDnit_blockHeader | ZSTDnit_block | ZSTDnit_lastBlock | ZSTDnit_checksum | ZSTDnit_skippableFrame.

Definition ZSTD_nextSrcSizeToDecompress (dctx : frame_DCtx) : Z := sd_expected (fd_stage dctx).

Definition ZSTD_nextSrcSizeToDecompressWithInputSize (dctx : frame_DCtx) (inputSize : Z) : Z :=
  let s := fd_stage dctx in
  if negb (bool_decide (sd_stage s = ZSTDds_decompressBlock) || bool_decide (sd_stage s = ZSTDds_decompressLastBlock)) then sd_expected s
  else if negb (bool_decide (sd_bType s = bt_raw)) then sd_expected s
  else BOUNDED 1 inputSize (sd_expected s).

Definition ZSTD_nextInputType (dctx : frame_DCtx) : ZSTD_nextInputType_e :=
  match sd_stage (fd_stage dctx) with
  | ZSTDds_getFrameHeaderSize | ZSTDds_decodeFrameHeader => ZSTDnit_frameHeader
  | ZSTDds_decodeBlockHeader => ZSTDnit_blockHeader
  | ZSTDds_decompressBlock => ZSTDnit_block
  | ZSTDds_decompressLastBlock => ZSTDnit_lastBlock
  | ZSTDds_checkChecksum => ZSTDnit_checksum
  | ZSTDds_decodeSkippableHeader | ZSTDds_skipFrame => ZSTDnit_skippableFrame
  end.

Definition ZSTD_isSkipFrame (dctx : frame_DCtx) : bool := bool_decide (sd_stage (fd_stage dctx) = ZSTDds_skipFrame).

(** [dctx->expected = expected; dctx->stage = stage]. *)
Definition goto (dctx : frame_DCtx) (stage : ZSTD_dStage) (expected : Z) : frame_DCtx :=
  let s := fd_stage dctx in
  set_stage dctx (mkStage expected stage (sd_processedCSize s) (sd_decodedSize s) (sd_bType s) (sd_rleSize s) (sd_headerSize s) (sd_headerBuffer s)).
Definition set_header (dctx : frame_DCtx) (headerSize : Z) (headerBuffer : list Z) : frame_DCtx :=
  let s := fd_stage dctx in
  set_stage dctx (mkStage (sd_expected s) (sd_stage s) (sd_processedCSize s) (sd_decodedSize s) (sd_bType s) (sd_rleSize s) headerSize headerBuffer).
Definition set_blockProperties (dctx : frame_DCtx) (bp : blockProperties_t) : frame_DCtx :=
  let s := fd_stage dctx in
  set_stage dctx (mkStage (sd_expected s) (sd_stage s) (sd_processedCSize s) (sd_decodedSize s) (blockType bp) (origSize bp) (sd_headerSize s) (sd_headerBuffer s)).
Definition add_decoded (dctx : frame_DCtx) (n : Z) : frame_DCtx :=
  let s := fd_stage dctx in
  set_stage dctx (mkStage (sd_expected s) (sd_stage s) (sd_processedCSize s) (u64 (sd_decodedSize s + n)) (sd_bType s) (sd_rleSize s)
                    (sd_headerSize s) (sd_headerBuffer s)).

(** After the last block. *)
Definition end_of_blocks (dctx : frame_DCtx) : frame_DCtx :=
  if negb (checksumFlag (fd_fParams dctx) =? 0) then goto dctx ZSTDds_checkChecksum 4 else goto dctx ZSTDds_getFrameHeaderSize 0.

Section continue.
Context (MEM_isLittleEndian : bool).

Definition continue_getFrameHeaderSize (dctx : frame_DCtx) (src : list Z) : result frame_DCtx :=
  let s := fd_stage dctx in
  let* skippable :=
    (if bool_decide (fd_format dctx = ZSTD_f_zstd1) then let* magic := readLE32 src 0 in Ok (is_skippable_magic magic) else Ok false) in
  if skippable then
    let* headerBuffer := memcpy_at (sd_headerBuffer s) 0 src in
    Ok (goto (set_header dctx (sd_headerSize s) headerBuffer) ZSTDds_decodeSkippableHeader (ZSTD_SKIPPABLEHEADERSIZE - zlen src))
  else
    let* headerSize := ZSTD_frameHeaderSize_internal src (fd_format dctx) in
    let* headerBuffer := memcpy_at (sd_headerBuffer s) 0 src in
    Ok (goto (set_header dctx headerSize headerBuffer) ZSTDds_decodeFrameHeader (headerSize - zlen src)).

Definition continue_decodeFrameHeader (dctx : frame_DCtx) (src : list Z) : result frame_DCtx :=
  let s := fd_stage dctx in
  let* headerBuffer := memcpy_at (sd_headerBuffer s) (sd_headerSize s - zlen src) src in
  let* header := rd_bytes headerBuffer 0 (sd_headerSize s) in
  let* dctx := ZSTD_decodeFrameHeader MEM_isLittleEndian (set_header dctx (sd_headerSize s) headerBuffer) header in
  Ok (goto dctx ZSTDds_decodeBlockHeader ZSTD_blockHeaderSize).

Definition continue_decodeBlockHeader (dctx : frame_DCtx) (src : list Z) : result frame_DCtx :=
  let* '(cBlockSize, bp) := ZSTD_getcBlockSize src in
  ERROR_IF cBlockSize >? blockSizeMax (fd_fParams dctx) THEN corruption_detected ;;
  let dctx := set_blockProperties dctx bp in
  if negb (cBlockSize =? 0) then
    Ok (goto dctx (if negb (lastBlock bp =? 0) then ZSTDds_decompressLastBlock else ZSTDds_decompressBlock) cBlockSize)
  else
    (* empty block *)
    if negb (lastBlock bp =? 0) then Ok (end_of_blocks dctx)
    else Ok (goto dctx ZSTDds_decodeBlockHeader ZSTD_blockHeaderSize).

(** The output, the bytes regenerated, the context of blocks and what is still expected. *)
Definition continue_block (d : list Z) (dctx : frame_DCtx) (dst_null : bool) (dst dstCapacity : Z) (src : list Z) (w : block_scratch)
  : result (list Z * Z * block_DCtx * Z) :=
  let s := fd_stage dctx in
  match sd_bType s with
  | bt_compressed =>
      let* '(n, b, d) := ZSTD_decompressBlock_internal MEM_isLittleEndian d (fd_block dctx) src dst_null dst dstCapacity is_streaming w in
      Ok (d, n, b, 0)
  | bt_raw =>
      let* '(bytes, n) := ZSTD_copyRawBlock dst_null (zsub d dst dstCapacity) src in
      Ok (zpatch d dst bytes, n, fd_block dctx, sd_expected s - n)
  | bt_rle =>
      let* v := rd src 0 in
      let* '(bytes, n) := ZSTD_setRleBlock dst_null (zsub d dst dstCapacity) v (sd_rleSize s) in
      Ok (zpatch d dst bytes, n, fd_block dctx, 0)
  | bt_reserved => Err corruption_detected
  end.

Definition continue_decompressBlock (d : list Z) (dctx : frame_DCtx) (dst_null : bool) (dst dstCapacity : Z) (src : list Z) (w : block_scratch)
  : result (list Z * Z * frame_DCtx) :=
  let* '(d, rSize, b, expected) := continue_block d dctx dst_null dst dstCapacity src w in
  ERROR_IF rSize >? blockSizeMax (fd_fParams dctx) THEN corruption_detected ;;
  let dctx := add_decoded dctx rSize in
  let* xxhState :=
    (if fd_validateChecksum dctx then XXH64_update MEM_isLittleEndian (fd_xxhState dctx) (zsub d dst rSize) else Ok (fd_xxhState dctx)) in
  let dctx := set_checksum dctx (fd_validateChecksum dctx) xxhState in
  let b := if dst_null then mkBlockDCtx (bc_lit b) (bc_tables b) (bc_rep b) null_ptr (bc_prefixStart b) (bc_virtualStart b) (bc_dictEnd b)
           else set_previousDstEnd b (dst + rSize) in
  let dctx := set_block dctx b in
  let stage := sd_stage (fd_stage dctx) in
  (* Stay on the same stage until we are finished streaming the block. *)
  if expected >? 0 then Ok (d, rSize, goto dctx stage expected)
  else if bool_decide (stage = ZSTDds_decompressLastBlock) then
    let size := frameContentSize (fd_fParams dctx) in
    ERROR_IF negb (size =? ZSTD_CONTENTSIZE_UNKNOWN) && negb (sd_decodedSize (fd_stage dctx) =? size) THEN corruption_detected ;;
    Ok (d, rSize, end_of_blocks dctx)
  else Ok (d, rSize, goto dctx ZSTDds_decodeBlockHeader ZSTD_blockHeaderSize).

Definition continue_checkChecksum (dctx : frame_DCtx) (src : list Z) : result frame_DCtx :=
  let done := Ok (goto dctx ZSTDds_getFrameHeaderSize 0) in
  if fd_validateChecksum dctx then
    let* h := XXH64_digest MEM_isLittleEndian (fd_xxhState dctx) in
    let h32 := u32 h in
    let* check32 := readLE32 src 0 in
    ERROR_IF negb (check32 =? h32) THEN checksum_wrong ;; done
  else done.

Definition continue_decodeSkippableHeader (dctx : frame_DCtx) (src : list Z) : result frame_DCtx :=
  let s := fd_stage dctx in
  let* headerBuffer := memcpy_at (sd_headerBuffer s) (ZSTD_SKIPPABLEHEADERSIZE - zlen src) src in
  let* expected := readLE32 headerBuffer ZSTD_FRAMEIDSIZE in
  Ok (goto (set_header dctx (sd_headerSize s) headerBuffer) ZSTDds_skipFrame expected).

(** The output, the number of bytes generated and the context; [w] is what the workspaces hold. *)
Definition ZSTD_decompressContinue (d : list Z) (dctx : frame_DCtx) (dst_null : bool) (dst dstCapacity : Z) (src : list Z) (w : block_scratch)
  : result (list Z * Z * frame_DCtx) :=
  (* Sanity check *)
  ERROR_IF negb (zlen src =? ZSTD_nextSrcSizeToDecompressWithInputSize dctx (zlen src)) THEN Errors.srcSize_wrong ;;
  let dctx := set_block dctx (ZSTD_checkContinuity (fd_block dctx) dst dstCapacity) in
  let dctx := add_processed dctx (zlen src) in
  let no_output m := let* dctx := m in Ok (d, 0, dctx) in
  match sd_stage (fd_stage dctx) with
  | ZSTDds_getFrameHeaderSize => no_output (continue_getFrameHeaderSize dctx src)
  | ZSTDds_decodeFrameHeader => no_output (continue_decodeFrameHeader dctx src)
  | ZSTDds_decodeBlockHeader => no_output (continue_decodeBlockHeader dctx src)
  | ZSTDds_decompressLastBlock | ZSTDds_decompressBlock => continue_decompressBlock d dctx dst_null dst dstCapacity src w
  | ZSTDds_checkChecksum => no_output (continue_checkChecksum dctx src)
  | ZSTDds_decodeSkippableHeader => no_output (continue_decodeSkippableHeader dctx src)
  | ZSTDds_skipFrame => no_output (Ok (goto dctx ZSTDds_getFrameHeaderSize 0))
  end.
End continue.

(** *** A caller *)

(** A caller of [ZSTD_decompressContinue], which decodes a frame at the end of what it has
    decoded: at the turn [i] it has [pick i] bytes of the input at hand, and gives as many of
    them as are asked for. *)
Section caller.
Context (le : bool) (oend : Z) (pick : nat -> Z) (w : Z -> block_scratch).
Definition feed_step (s : list Z * Z * list Z * frame_DCtx * nat)
  : result (flow (list Z * Z * list Z * frame_DCtx * nat) (list Z * Z * list Z * frame_DCtx)) :=
  let '(d, op, src, dctx, i) := s in
  if ZSTD_nextSrcSizeToDecompress dctx =? 0 then Ok (Break (d, op, src, dctx))
  else
    let n := ZSTD_nextSrcSizeToDecompressWithInputSize dctx (pick i) in
    ERROR_IF n >? zlen src THEN Errors.srcSize_wrong ;;
    let* '(d, m, dctx) := ZSTD_decompressContinue le d dctx false op (oend - op) (zsub src 0 n) (w (zlen src)) in
    Ok (Continue (d, op + m, drop (Z.to_nat n) src, dctx, S i)).
Definition feed (d : list Z) (op : Z) (src : list Z) (dctx : frame_DCtx) : result (list Z * Z * list Z * frame_DCtx) :=
  loop_ (S (length src)) feed_step (d, op, src, dctx, O).
End caller.

(** ** Well-formedness *)

(** A context of blocks whose tables can be used. *)
Record tables_ready (b : block_DCtx) : Prop := {
  tr_memory : dctx_memory b;
  tr_frame : lc_isFrameDecompression (bc_lit b) = true;
  tr_table : hufTable_ok (lc_hufTable (bc_lit b));
  tr_entropy : lc_litEntropy (bc_lit b) = true ->
    dtable_safe (hdt_mem (HUFptr_table (bc_lit b))) (dtd_tableLog (hdt_desc (HUFptr_table (bc_lit b))));
  tr_tables : fseEntropy (bc_tables b) <> 0 -> seq_tables_wf (bc_tables b);
  tr_rep : prev_ok (bc_rep b) /\ prev_small (bc_rep b);
}.

(** The frame is decoded into the [cap] bytes at [ps], after the segment [dict], up to [op]. *)
Section invariant.
Context (le : bool) (dict : list Z) (ps cap : Z).
Notation oend := (ps + cap).

(** The segments: those that the dictionary has set, or those of the output. *)
Definition segments (op : Z) (b : block_DCtx) : Prop :=
  0 < cap ->
  op = ps /\ bc_prefixStart b = In_buf dict 0 /\ bc_previousDstEnd b = In_buf dict (zlen dict) \/
  bc_prefixStart b = In_dst ps /\ bc_virtualStart b = ps - zlen dict /\ bc_dictEnd b = In_buf dict (zlen dict) /\ bc_previousDstEnd b = In_dst op.

(** The header is known, and the checksum is that of the output. *)
Definition header_known (d : list Z) (op : Z) (dctx : frame_DCtx) : Prop :=
  lc_blockSizeMax (bc_lit (fd_block dctx)) = blockSizeMax (fd_fParams dctx) /\ 0 <= blockSizeMax (fd_fParams dctx) <= ZSTD_BLOCKSIZE_MAX /\
  (fd_validateChecksum dctx = true -> xxh_rep 0 (zsub d ps (op - ps)) (fd_xxhState dctx)).

(** What each stage expects. *)
Definition stage_ok (d : list Z) (op : Z) (dctx : frame_DCtx) : Prop :=
  let s := fd_stage dctx in
  let start := ZSTD_startingInputLength (fd_format dctx) in
  match sd_stage s with
  | ZSTDds_getFrameHeaderSize => sd_expected s = start /\ op = ps \/ sd_expected s = 0
  | ZSTDds_decodeFrameHeader =>
      op = ps /\ start + 1 <= sd_headerSize s <= 18 /\ sd_headerSize s = fh_size (fd_format dctx) (zat (sd_headerBuffer s) (start - 1)) /\ sd_expected s = sd_headerSize s - start
  | ZSTDds_decodeBlockHeader => sd_expected s = ZSTD_blockHeaderSize /\ header_known d op dctx
  | ZSTDds_decompressBlock | ZSTDds_decompressLastBlock =>
      1 <= sd_expected s <= blockSizeMax (fd_fParams dctx) /\ sd_bType s <> bt_reserved /\ (sd_bType s = bt_rle -> sd_expected s = 1) /\
      0 <= sd_rleSize s /\ header_known d op dctx
  | ZSTDds_checkChecksum => sd_expected s = 4 /\ header_known d op dctx
  | ZSTDds_decodeSkippableHeader => sd_expected s = ZSTD_SKIPPABLEHEADERSIZE - start
  | ZSTDds_skipFrame => 0 <= sd_expected s < 2 ^ 32
  end.

Record continue_ok (d0 d : list Z) (op : Z) (dctx : frame_DCtx) : Prop := {
  co_op : ps <= op <= oend;
  co_output : outside oend d0 d ps /\ bytes_ok d;
  co_tables : tables_ready (fd_block dctx);
  co_segments : segments op (fd_block dctx);
  co_header : zlen (sd_headerBuffer (fd_stage dctx)) = ZSTD_FRAMEHEADERSIZE_MAX /\ bytes_ok (sd_headerBuffer (fd_stage dctx));
  co_stage : stage_ok d op dctx;
  co_search : set_searchable le (fd_dict dctx);
}.
End invariant.

(** ** Lemmas *)

Lemma begun_ready dict b : begun dict b -> tables_ready b.
Proof. intros []. by split. Qed.

Lemma ready_decoding dict ps cap op b :
  tables_ready b -> segments dict ps cap op b -> (0 < cap -> op = ps -> bc_prefixStart b <> In_buf dict 0) ->
  0 <= lc_blockSizeMax (bc_lit b) <= ZSTD_BLOCKSIZE_MAX -> decoding dict ps cap b.
Proof.
  intros [[Hm1 Hm2] Hf Ht He Htab Hrep] Hs Hn Hb. split; [split; [unfold ZSTD_blockSizeMax; by rewrite Hf|done..]|done|done|].
  intros Hc. destruct (Hs Hc) as [(E1 & E2 & _)|(E1 & E2 & E3 & _)]; [by destruct (Hn Hc E1)|done].
Qed.

Lemma decoding_ready dict ps cap b : decoding dict ps cap b -> lc_isFrameDecompression (bc_lit b) = true -> tables_ready b.
Proof. intros Hd Hf. pose proof (decoding_memory _ _ _ _ Hd) as Hm. destruct Hd as [[] ? ? _]. by split. Qed.

(** A call makes the output the last segment. *)
Lemma checkContinuity_segments dict ps cap op b :
  segments dict ps cap op b -> ps <= op <= ps + cap -> let b' := ZSTD_checkContinuity b op (ps + cap - op) in
  segments dict ps cap op b' /\ (0 < cap -> bc_prefixStart b' = In_dst ps) /\ bc_lit b' = bc_lit b /\ bc_tables b' = bc_tables b /\ bc_rep b' = bc_rep b.
Proof.
  intros Hs Hop b'. assert (bc_lit b' = bc_lit b /\ bc_tables b' = bc_tables b /\ bc_rep b' = bc_rep b) as (E1 & E2 & E3).
  { unfold b', ZSTD_checkContinuity. split_and!; by case_match. }
  destruct (Z_lt_le_dec 0 cap) as [Hc|Hc]; [|split_and!; try done; intros ?; lia].
  destruct (Hs Hc) as [(-> & Ep & Ee)|(Ep & Ev & Ed & Ee)]; unfold b', ZSTD_checkContinuity; rewrite Ee; cbn [is_dst negb andb].
  - rewrite (proj2 (Z.gtb_lt _ 0)) by lia. rewrite Ep. cbn. split; [|done]. intros _. right. split_and!; try done; cbn; lia.
  - rewrite Z.eqb_refl. cbn [negb andb]. by split_and!.
Qed.

Lemma ready_same b b' : tables_ready b -> bc_lit b' = bc_lit b -> bc_tables b' = bc_tables b -> bc_rep b' = bc_rep b -> tables_ready b'.
Proof. intros [[H1 H2] H3 H4 H5 H6 H7] E1 E2 E3. split; [split|..]; by rewrite ?E1, ?E2, ?E3. Qed.

Lemma decodeFrameHeader_stage le dctx src dctx' :
  ZSTD_decodeFrameHeader le dctx src = Ok dctx' -> fd_stage dctx' = fd_stage (add_processed dctx (zlen src)).
Proof.
  unfold ZSTD_decodeFrameHeader. destruct (ZSTD_getFrameHeader_advanced _ _) as [[n|zfh]|e|]; cbn [bind]; [|done|done|done].
  destruct (match dctx_ddictSet _ with Some _ => _ | None => _ end) as [c|e|]; cbn [bind]; [|done|done]. unfold RETURN_ERROR_IF. destruct (_ && _); [done|].
  by intros [= <-].
Qed.

Lemma bounded_again n m : 1 <= m -> BOUNDED 1 (BOUNDED 1 n m) m = BOUNDED 1 n m /\ 1 <= BOUNDED 1 n m <= m.
Proof. unfold BOUNDED. lia. Qed.

Section step.
Context (le : bool) (dict : list Z) (ps cap : Z) (d0 : list Z).
Hypothesis Hdict : bytes_ok dict /\ zlen dict < 2 ^ 58.
Hypothesis Hdst : 0 <= ps /\ 0 <= cap /\ ps + cap <= zlen d0 /\ zlen d0 < 2 ^ 58.
Notation oend := (ps + cap).
Notation continue_ok := (continue_ok le dict ps cap d0).

(** What a stage leaves, when it only changes the stage and what it expects. *)
Lemma continue_goto d op dctx stage expected :
  continue_ok d op dctx -> stage_ok ps d op (goto dctx stage expected) -> continue_ok d op (goto dctx stage expected).
Proof. intros [H1 H2 H3 H4 H5 _ H7] H. by split. Qed.

Lemma end_of_blocks_ok d op dctx : continue_ok d op dctx -> header_known ps d op dctx -> continue_ok d op (end_of_blocks dctx).
Proof.
  intros H Hk. unfold end_of_blocks. destruct (negb _); apply continue_goto; (try done); by right.
Qed.

Lemma getFrameHeaderSize_ok d op dctx src :
  continue_ok d op dctx -> op = ps -> sd_stage (fd_stage dctx) = ZSTDds_getFrameHeaderSize ->
  zlen src = ZSTD_startingInputLength (fd_format dctx) -> bytes_ok src ->
  wp (continue_getFrameHeaderSize dctx src) (continue_ok d op) any_error.
Proof.
  intros [H1 H2 H3 H4 [H5 H5'] H6 H7] Eop Est El Hb. unfold continue_getFrameHeaderSize. cbv zeta. unfold ZSTD_FRAMEHEADERSIZE_MAX in H5.
  pose proof (startingInputLength_range (fd_format dctx)) as Hr.
  assert (bytes_ok (zpatch (sd_headerBuffer (fd_stage dctx)) 0 src) /\ zlen (zpatch (sd_headerBuffer (fd_stage dctx)) 0 src) = 18) as [Hb' El'].
  { split; [by apply bytes_ok_zpatch|]. rewrite zlen_zpatch; lia. }
  apply wp_bind. eapply (wp_mono _ (fun _ => True) _ any_error); [|intros sk _|done].
  { case_bool_decide as Ef; [|done]. apply wp_bind. apply wp_readLE32; [done|lia|rewrite El, Ef; change (ZSTD_startingInputLength ZSTD_f_zstd1) with 5; lia|]. intros v _. by wp_step. }
  destruct sk; rewrite ?memcpy_at_ok by lia; cbn [bind].
  - wp_step. split; try done. cbn. lia.
  - rewrite frameHeaderSize_eq by (done || lia). cbn [bind]. wp_step. split; try done.
    cbn. split; [done|]. split; [by apply fh_size_range, bytes_ok_zat; [|lia]|]. split; [|lia]. rewrite zat_zpatch by lia. rewrite (proj2 (Z.leb_le _ _)) by lia.
    rewrite (proj2 (Z.ltb_lt _ _)) by lia. cbn [andb]. by rewrite Z.sub_0_r.
Qed.

Lemma decodeHeader_ok d op dctx src :
  continue_ok d op dctx -> sd_stage (fd_stage dctx) = ZSTDds_decodeFrameHeader ->
  zlen src = sd_expected (fd_stage dctx) -> bytes_ok src ->
  wp (continue_decodeFrameHeader le dctx src) (continue_ok d op) any_error.
Proof.
  intros [H1 H2 H3 H4 [H5 H5'] H6 Hse] Est El Hb. unfold stage_ok in H6. rewrite Est in H6. destruct H6 as (Eop & _ & Ehs & Eex). unfold ZSTD_FRAMEHEADERSIZE_MAX in H5.
  pose proof (startingInputLength_range (fd_format dctx)) as Hr.
  pose proof (fh_size_range (fd_format dctx) _ (bytes_ok_zat _ (ZSTD_startingInputLength (fd_format dctx) - 1) H5' ltac:(lia))) as Hfh. rewrite <- Ehs in Hfh.
  unfold continue_decodeFrameHeader. cbv zeta. rewrite memcpy_at_ok by lia. cbn [bind]. set (buf := zpatch _ _ _).
  assert (zlen buf = 18) as Elb by (unfold buf; rewrite zlen_zpatch; lia). assert (bytes_ok buf) as Hbb by (by apply bytes_ok_zpatch).
  unfold rd_bytes. rewrite (proj2 (Z.leb_le 0 0)) by lia. rewrite (proj2 (Z.leb_le _ _)) by lia. cbn [andb bind].
  set (dctx1 := set_header _ _ _). pose proof (decodeFrameHeader_ok le dctx1 (zsub buf 0 (sd_headerSize (fd_stage dctx))) ltac:(by apply bytes_ok_zsub) Hse) as Hwp.
  pose proof (decodeFrameHeader_stage le dctx1 (zsub buf 0 (sd_headerSize (fd_stage dctx)))) as Hstage.
  apply wp_bind. destruct (ZSTD_decodeFrameHeader _ _ _) as [dctx'| |]; [|done|done]. cbn [wp] in *. specialize (Hstage _ eq_refl).
  destruct Hwp as (zfh & (_ & _ & _ & _ & Hbs & _) & Eb & Efp & Ev & Hx & Hset).
  assert (bc_lit (fd_block dctx') = bc_lit (fd_block (set_fParams dctx1 zfh))) as Elit by (by rewrite Eb).
  split; cbn [goto fd_block fd_stage set_stage sd_headerBuffer]; [done|done| | | | |by apply (set_searchable_same le dctx1)].
  - rewrite Eb. destruct H3 as [[M1 M2] M3 M4 M5 M6 M7]. by split.
  - rewrite Eb. exact H4.
  - rewrite Hstage. done.
  - split; [done|]. unfold header_known; cbn [goto set_stage fd_block fd_fParams fd_validateChecksum fd_xxhState]. split; [by rewrite Elit, Efp|]. split; [by rewrite Efp|]. intros Hv. rewrite (Hx Hv), Eop. replace (ps - ps) with 0 by lia. apply xxh_rep_reset.
Qed.

Lemma decodeBlockHeader_ok d op dctx src :
  continue_ok d op dctx -> sd_stage (fd_stage dctx) = ZSTDds_decodeBlockHeader -> bytes_ok src ->
  wp (continue_decodeBlockHeader dctx src) (continue_ok d op) any_error.
Proof.
  intros H Est Hb. pose proof H as [H1 H2 H3 H4 H5 H6 H7]. unfold stage_ok in H6. rewrite Est in H6. destruct H6 as [Hex Hk]. unfold continue_decodeBlockHeader.
  apply wp_bind. eapply wp_mono; [by apply getcBlockSize_wp| |done]. intros [c bp] (Hc & Hl & Hnr & Ho & Hrle & Hraw). wp_step; [done|].
  assert (continue_ok d op (set_blockProperties dctx bp)) as H' by (split; try done; unfold stage_ok; cbn; rewrite Est; by split).
  destruct (Z.eqb_spec c 0) as [Ez|Ez]; cbn [negb].
  - destruct (negb (lastBlock bp =? 0)); wp_step; [by apply end_of_blocks_ok|]. by apply continue_goto.
  - wp_step. apply continue_goto; [done|]. unfold stage_ok. cbn. destruct (negb (lastBlock bp =? 0)); (split; [lia|]; split_and!; try done; lia || apply Hk).
Qed.

Lemma continue_block_ok d op dctx src w :
  decoding dict ps cap (fd_block dctx) -> bytes_ok d -> ps <= op <= oend -> oend <= zlen d < 2 ^ 58 -> bytes_ok src -> block_scratch_ok w ->
  let s := fd_stage dctx in 1 <= zlen src <= sd_expected s -> (sd_bType s = bt_raw \/ zlen src = sd_expected s) -> 0 <= sd_rleSize s ->
  wp (continue_block le d dctx false op (oend - op) src w) (fun '(d', n, b', expected) =>
    block_left dict ps cap d (fd_block dctx) op (d', n, b') /\ 0 <= expected < sd_expected s /\ (expected <> 0 -> sd_bType s = bt_raw)) any_error.
Proof.
  intros Hdec Hb Hop Hl Hsrc Hw s Hlen Hty Hrle. unfold continue_block. cbv zeta. fold s.
  assert (zlen (zsub d op (oend - op)) = oend - op /\ bytes_ok (zsub d op (oend - op))) as [El Hbz] by (split; [apply zlen_zsub; lia|by apply bytes_ok_zsub]).
  destruct (sd_bType s) eqn:Et.
  - wp_step. eapply wp_mono; [apply copyRawBlock_ok| |done]. intros [bytes n] (-> & Hn & ->). wp_step. rewrite El in Hn.
    split; [|split; [lia|done]]. apply patch_left; [done|done|lia|rewrite zlen_zpatch; lia|by apply bytes_ok_zpatch|lia].
  - destruct Hty as [?|Hty]; [done|]. wp_step. wp_step; [lia|]. pose proof (bytes_ok_zat src 0 Hsrc ltac:(lia)) as Hv. wp_step.
    eapply wp_mono; [by apply setRleBlock_ok| |done]. intros [bytes n] (-> & Hn & ->). wp_step. rewrite El in Hn.
    split; [|split; [lia|done]]. apply patch_left; [done|done|lia|rewrite zlen_zpatch; rewrite ?zlen_zfill; lia| |lia]. apply bytes_ok_zpatch; [done|by apply Forall_replicate].
  - destruct Hty as [?|Hty]; [done|]. wp_step.
    eapply wp_mono; [by apply (decompressBlock_any le dict ps cap Hdict d (fd_block dctx) src false op is_streaming w); try done; lia| |done].
    intros [[n b'] d'] H. wp_step. split; [done|]. split; [lia|done].
  - done.
Qed.

Lemma decompressBlock_step_ok d op dctx src w :
  continue_ok d op dctx -> (0 < cap -> bc_prefixStart (fd_block dctx) = In_dst ps) -> bytes_ok src -> block_scratch_ok w ->
  let s := fd_stage dctx in sd_stage s = ZSTDds_decompressBlock \/ sd_stage s = ZSTDds_decompressLastBlock ->
  1 <= zlen src <= sd_expected s -> (sd_bType s = bt_raw \/ zlen src = sd_expected s) ->
  wp (continue_decompressBlock le d dctx false op (oend - op) src w)
    (fun '(d', n, dctx') => 0 <= n <= oend - op /\ continue_ok d' (op + n) dctx') any_error.
Proof.
  intros H Hpre Hb Hw s Hst Hlen Hty. pose proof H as [Hop [Ho Hbd] Hr Hseg Hhb Hsok Hse].
  assert (1 <= sd_expected s <= blockSizeMax (fd_fParams dctx) /\ sd_bType s <> bt_reserved /\ (sd_bType s = bt_rle -> sd_expected s = 1) /\
      0 <= sd_rleSize s /\ header_known ps d op dctx) as (Hex & Hnr & Hrle & Hrs & Hk).
  { unfold stage_ok in Hsok. fold s in Hsok. by destruct Hst as [E|E]; rewrite E in Hsok. }
  pose proof Hk as (Ebs & Hbs & Hx).
  assert (decoding dict ps cap (fd_block dctx)) as Hdec.
  { eapply (ready_decoding _ _ _ op); [done|done| |by rewrite Ebs]. intros Hc _. by rewrite Hpre. }
  unfold continue_decompressBlock. wp_step. eapply wp_mono; [apply (continue_block_ok d op dctx src w); try done; destruct Ho; lia| |done].
  intros [[[d' n] b'] expected] (Hleft & He & Heraw). fold s in He, Heraw. wp_step; [done|].
  pose proof Hleft as (Hn & Ho' & Hb' & Hdec' & Ef & Eb & Ep).
  assert (frame_run dict ps cap d0 [] dctx (d, op, 0, dctx)) as Hrun.
  { split; [done|]. split; [by split|]. split; [done|]. split; [done|]. split; [done|]. split; [unfold same_frame, same_block; by split_and!|exact Hx]. }
  destruct (frame_run_block le dict ps cap d0 [] dctx Hdict Hdst d op 0 dctx d' n b' 0 Hrun Hleft ltac:(by split)) as (st & Est & Hrun').
  cbn [add_decoded set_stage fd_validateChecksum fd_xxhState]. rewrite Est. cbn [bind]. cbv zeta.
  set (dctx1 := set_block _ _). change (sd_stage (fd_stage dctx1)) with (sd_stage s). change (fd_fParams dctx1) with (fd_fParams dctx).
  destruct Hrun' as (Hop' & _ & Ho2 & _ & _ & _ & Hx').
  assert (tables_ready (set_previousDstEnd b' (op + n))) as Hr'.
  { destruct (decoding_ready _ _ _ _ Hdec') as [[M1 M2] M3 M4 M5 M6 M7]; [rewrite Ef; apply Hr|]. by split. }
  assert (segments dict ps cap (op + n) (set_previousDstEnd b' (op + n))) as Hseg'.
  { intros Hcap. right. destruct (dc_pointers _ _ _ _ Hdec' Hcap) as (E1 & E2 & E3). by split_and!. }
  assert (header_known ps d' (op + n) dctx1) as Hk'.
  { split; [cbn; by rewrite Eb|]. split; [exact Hbs|]. exact Hx'. }
  assert (forall stage e, stage_ok ps d' (op + n) (goto dctx1 stage e) -> continue_ok d' (op + n) (goto dctx1 stage e)) as Hgoto by (intros stage e Hg; by split).
  assert (continue_ok d' (op + n) (end_of_blocks dctx1)) as Heb.
  { unfold end_of_blocks. destruct (negb _); apply Hgoto; [by split|by right]. }
  destruct (Z.gtb_spec expected 0) as [Hpos|Hpos].
  - wp_step. split; [done|]. apply Hgoto. unfold stage_ok. cbn [goto set_stage fd_stage sd_stage sd_expected sd_bType sd_rleSize]. change (sd_stage (fd_stage dctx1)) with (sd_stage s).
    change (sd_bType (fd_stage dctx1)) with (sd_bType s). change (sd_rleSize (fd_stage dctx1)) with (sd_rleSize s).
    specialize (Heraw ltac:(lia)). destruct Hst as [E|E]; rewrite E; (split; [cbn; lia|]; split; [done|]; split; [by rewrite Heraw|]; split; [done|exact Hk']).
  - case_bool_decide as Elast.
    + wp_step; [done|]. wp_step. by split.
    + wp_step. split; [done|]. apply Hgoto. split; [done|exact Hk'].
Qed.

Lemma checkChecksum_ok d op dctx src :
  continue_ok d op dctx -> sd_stage (fd_stage dctx) = ZSTDds_checkChecksum -> zlen src = 4 -> bytes_ok src ->
  wp (continue_checkChecksum le dctx src) (continue_ok d op) any_error.
Proof.
  intros H Est El Hb. pose proof H as [Hop [Ho _] _ _ _ Hs _]. unfold stage_ok in Hs. rewrite Est in Hs. destruct Hs as (_ & _ & _ & Hx).
  assert (continue_ok d op (goto dctx ZSTDds_getFrameHeaderSize 0)) as Hdone by (apply continue_goto; [done|by right]).
  unfold continue_checkChecksum. cbv zeta. destruct (fd_validateChecksum dctx); [|by wp_step].
  rewrite (digest_ok le 0 (zsub d ps (op - ps))); [|lia|destruct Ho; rewrite zlen_zsub by lia; lia|by apply Hx]. cbn [bind].
  apply wp_bind. apply wp_readLE32; [done|lia|lia|]. intros v _. cbv beta. wp_step; [done|]. by wp_step.
Qed.

Lemma decodeSkippableHeader_ok d op dctx src :
  continue_ok d op dctx -> 3 <= zlen src <= 7 -> bytes_ok src ->
  wp (continue_decodeSkippableHeader dctx src) (continue_ok d op) any_error.
Proof.
  intros [H1 H2 H3 H4 [H5 H5'] H6 H7] El Hb. unfold continue_decodeSkippableHeader. cbv zeta. unfold ZSTD_FRAMEHEADERSIZE_MAX, ZSTD_SKIPPABLEHEADERSIZE, ZSTD_FRAMEIDSIZE in *.
  rewrite memcpy_at_ok by lia. cbn [bind]. apply wp_bind. apply wp_readLE32; [by apply bytes_ok_zpatch|lia|rewrite zlen_zpatch; lia|]. intros v Hv. cbv beta. wp_step.
  split; try done. cbn [goto set_header set_stage fd_stage sd_headerBuffer]. split; [unfold ZSTD_FRAMEHEADERSIZE_MAX; rewrite zlen_zpatch; lia|by apply bytes_ok_zpatch].
Qed.

(** *** A call *)

Lemma nextSrcSize_cases dctx n :
  n = ZSTD_nextSrcSizeToDecompressWithInputSize dctx n ->
  let s := fd_stage dctx in
  n = sd_expected s \/ (sd_stage s = ZSTDds_decompressBlock \/ sd_stage s = ZSTDds_decompressLastBlock) /\ sd_bType s = bt_raw /\ 
    (1 <= sd_expected s -> 1 <= n <= sd_expected s).
Proof.
  intros E s. unfold ZSTD_nextSrcSizeToDecompressWithInputSize in E. fold s in E.
  case_bool_decide as E1; [|case_bool_decide as E2; [|by left]]; cbn [orb negb] in E.
  all: case_bool_decide as E3; cbn [negb] in E; [|by left]; right; (split; [auto|]); split; [done|]; unfold BOUNDED in E; lia.
Qed.

(** The context after the checks that precede a stage. *)
Definition entered (dctx : frame_DCtx) (op n : Z) : frame_DCtx :=
  add_processed (set_block dctx (ZSTD_checkContinuity (fd_block dctx) op (oend - op))) n.

Lemma entered_ok d op dctx n :
  continue_ok d op dctx -> let dctx1 := entered dctx op n in
  continue_ok d op dctx1 /\ (0 < cap -> bc_prefixStart (fd_block dctx1) = In_dst ps) /\ bc_lit (fd_block dctx1) = bc_lit (fd_block dctx) /\
  bc_tables (fd_block dctx1) = bc_tables (fd_block dctx) /\ bc_rep (fd_block dctx1) = bc_rep (fd_block dctx).
Proof.
  intros [H1 H2 H3 H4 H5 H6 H7] dctx1. destruct (checkContinuity_segments dict ps cap op (fd_block dctx) H4 H1) as (Hs1 & Hpre & El & Et & Er).
  split; [|by split_and!]. split; [done|done|by eapply ready_same|exact Hs1|done| |done]. unfold stage_ok, header_known in H6 |- *. cbn. by rewrite El.
Qed.

Lemma decompressContinue_ok d op dctx src w :
  continue_ok d op dctx -> bytes_ok src -> block_scratch_ok w ->
  (sd_stage (fd_stage dctx) = ZSTDds_getFrameHeaderSize -> sd_expected (fd_stage dctx) <> 0) ->
  wp (ZSTD_decompressContinue le d dctx false op (oend - op) src w)
    (fun '(d', n, dctx') => 0 <= n <= oend - op /\ continue_ok d' (op + n) dctx') any_error.
Proof.
  intros H Hb Hw Hne. pose proof H as [H1 H2 H3 H4 H5 H6 H7]. unfold ZSTD_decompressContinue. cbv zeta. wp_step; [done|].
  match goal with E : zlen src = _ |- _ => pose proof (nextSrcSize_cases _ _ E) as Hsz; cbv zeta in Hsz end.
  destruct (entered_ok d op dctx (zlen src) H) as (H' & Hpre & _). unfold entered in *. set (dctx1 := add_processed _ _) in *.
  assert (forall m, wp m (continue_ok d op) any_error -> wp (let* dctx := m in Ok (d, 0, dctx)) (fun '(d', n, dctx') => 0 <= n <= oend - op /\ continue_ok d' (op + n) dctx') any_error) as Hno.
  { intros m Hm. apply wp_bind. eapply wp_mono; [exact Hm| |done]. intros c Hcok. wp_step. rewrite Z.add_0_r. split; [lia|done]. }
  pose proof (startingInputLength_range (fd_format dctx)) as Hstart.
  change (sd_stage (fd_stage dctx1)) with (sd_stage (fd_stage dctx)). unfold stage_ok in H6. destruct (sd_stage (fd_stage dctx)) eqn:Est.
  all: try (destruct Hsz as [Hsz|([?|?] & _)]; [|done|done]).
  - apply Hno. specialize (Hne eq_refl). destruct H6 as [[H6 H6']|H6]; [|done]. apply getFrameHeaderSize_ok; try done. change (fd_format dctx1) with (fd_format dctx). lia.
  - apply Hno. by apply decodeHeader_ok.
  - apply Hno. by apply decodeBlockHeader_ok.
  - apply (decompressBlock_step_ok d op dctx1); try done; [by left| |]; change (fd_stage dctx1) with (fd_stage (add_processed dctx (zlen src))); cbn; [destruct Hsz as [?|(_ & _ & Hsz)]; lia|].
    destruct Hsz as [Hsz|(_ & Hsz & _)]; [by right|by left].
  - apply (decompressBlock_step_ok d op dctx1); try done; [by right| |]; change (fd_stage dctx1) with (fd_stage (add_processed dctx (zlen src))); cbn; [destruct Hsz as [?|(_ & _ & Hsz)]; lia|].
    destruct Hsz as [Hsz|(_ & Hsz & _)]; [by right|by left].
  - apply Hno. apply checkChecksum_ok; try done. lia.
  - apply Hno. apply decodeSkippableHeader_ok; try done. unfold ZSTD_SKIPPABLEHEADERSIZE in H6. lia.
  - apply Hno. wp_step. apply continue_goto; [done|by right].
Qed.
(** *** The caller *)

(** What is asked for can be given. *)
Lemma next_again dctx d op n0 :
  continue_ok d op dctx -> sd_expected (fd_stage dctx) <> 0 ->
  let n := ZSTD_nextSrcSizeToDecompressWithInputSize dctx n0 in
  ZSTD_nextSrcSizeToDecompressWithInputSize dctx n = n /\ 1 <= n <= sd_expected (fd_stage dctx).
Proof.
  intros [_ _ _ _ _ Hs] Hne n. pose proof (startingInputLength_range (fd_format dctx)) as Hr.
  assert (1 <= sd_expected (fd_stage dctx)) as H1.
  { unfold stage_ok in Hs. unfold ZSTD_blockHeaderSize, ZSTD_SKIPPABLEHEADERSIZE in Hs. destruct (sd_stage (fd_stage dctx)); lia. }
  unfold n, ZSTD_nextSrcSizeToDecompressWithInputSize. destruct (negb _); [lia|]. destruct (negb _); [lia|]. by apply bounded_again.
Qed.

Section feeding.
Context (pick : nat -> Z) (w : Z -> block_scratch).
Hypothesis Hw : forall n, block_scratch_ok (w n).

Definition fed_ok (s : list Z * Z * list Z * frame_DCtx) : Prop :=
  let '(d, op, src, dctx) := s in continue_ok d op dctx /\ bytes_ok src.

Lemma feed_step_ok d op src dctx i :
  fed_ok (d, op, src, dctx) ->
  wp (feed_step le oend pick w (d, op, src, dctx, i)) (fun r =>
    match r with
    | Break s' => fed_ok s' /\ sd_expected (fd_stage s'.2) = 0 /\ s' = (d, op, src, dctx)
    | Continue (d', op', src', dctx', i') => fed_ok (d', op', src', dctx') /\ zlen src' < zlen src /\ op <= op'
    end) any_error.
Proof.
  intros [H Hb]. unfold feed_step, ZSTD_nextSrcSizeToDecompress. destruct (Z.eqb_spec (sd_expected (fd_stage dctx)) 0) as [E|E]; [by wp_step|]. cbv zeta.
  destruct (next_again dctx d op (pick i) H E) as [En Hn]. set (n := ZSTD_nextSrcSizeToDecompressWithInputSize dctx (pick i)) in *. wp_step; [done|].
  apply wp_bind. eapply wp_mono; [apply (decompressContinue_ok d op dctx (zsub src 0 n)); [done|by apply bytes_ok_zsub|done|done]| |done].
  intros [[d' m] dctx'] [Hm H']. wp_step. split; [split; [done|by apply Forall_drop]|]. unfold zlen in *. rewrite length_drop. lia.
Qed.

Lemma feed_ok d op src dctx :
  fed_ok (d, op, src, dctx) -> wp (feed le oend pick w d op src dctx) (fun s' => fed_ok s' /\ sd_expected (fd_stage s'.2) = 0) any_error.
Proof.
  intros H. unfold feed. apply (wp_loop (fun '(d, op, src, dctx, _) => fed_ok (d, op, src, dctx)) (fun '(_, _, src, _, _) => zlen src)).
  - done.
  - unfold zlen. lia.
  - intros [[[[d1 op1] src1] dctx1] i] H1. eapply wp_mono; [by apply feed_step_ok| |done].
    intros [[[[[d2 op2] src2] dctx2] i2]|s']; [|tauto]. intros (H2 & H3 & _). pose proof (zlen_nonneg src2). split; [done|lia].
Qed.
End feeding.
End step.
