(* ===== verification/StreamContent.v ===== *)
(** What [ZSTD_decompressContinue] makes of a frame that it is given piece by piece: in as many
    pieces as it asks for, and raw blocks in pieces of any size. *)

From stdpp Require Import relations.
From S2P Require Import Prelude Errors Outcome Bits Mem HufCode HufDTable HufDecode HufRoundtrip Wire LzCopy ExecSequence SeqTables SeqDecode SplitLit Frame FrameHeader FrameParse FrameWalk LitDecode BlockDecode Skippable XxHash DDict DCtx FrameDecode FrameContent PackedBlock FrameInput DContinue.

(** ** Lemmas *)

Section run.
Context (le : bool) (dict : list Z) (ps cap : Z) (d0 : list Z) (pick : nat -> Z) (w : Z -> block_scratch) (zfh : ZSTD_FrameHeader).
Hypothesis Hdict : bytes_ok dict /\ zlen dict < 2 ^ 58.
Hypothesis Hdst : 0 <= ps /\ 0 <= cap /\ ps + cap <= zlen d0 /\ zlen d0 < 2 ^ 58.
Hypothesis Hw : forall n, block_scratch_ok (w n).
Notation oend := (ps + cap).
Notation bsm := (blockSizeMax zfh).

(** Inside a frame with the header [zfh]: the history is [h] and the tables are some of [K]. *)
Record in_frame (d : list Z) (op : Z) (dctx : frame_DCtx) (h : list Z) (K : kept -> Prop) : Prop := {
  if_ok : continue_ok le dict ps cap d0 d op dctx;
  if_kept : K (kept_of (fd_block dctx));
  if_history : history ps dict d op = h;
  if_decoded : sd_decodedSize (fd_stage dctx) = op - ps;
  if_params : fd_fParams dctx = zfh;
  if_validate : fd_validateChecksum dctx = negb (checksumFlag zfh =? 0) && negb (fd_forceIgnoreChecksum dctx);
}.

(** The stage and what it expects. *)
Definition at_stage (dctx : frame_DCtx) (stage : ZSTD_dStage) (expected : Z) : Prop :=
  sd_stage (fd_stage dctx) = stage /\ sd_expected (fd_stage dctx) = expected.
Definition at_end (dctx : frame_DCtx) : Prop :=
  if checksumFlag zfh =? 0 then at_stage dctx ZSTDds_getFrameHeaderSize 0 else at_stage dctx ZSTDds_checkChecksum 4.

(** One turn of the caller. *)
Definition fed (s s' : list Z * Z * list Z * frame_DCtx * nat) : Prop := feed_step le oend pick w s = Ok (Continue s').

Lemma end_of_blocks_at dctx : fd_fParams dctx = zfh -> at_end (end_of_blocks dctx).
Proof. intros E. unfold at_end, end_of_blocks. rewrite E. by destruct (checksumFlag zfh =? 0). Qed.

Lemma end_of_blocks_keeps dctx : let e := end_of_blocks dctx in
  fd_block e = fd_block dctx /\ sd_decodedSize (fd_stage e) = sd_decodedSize (fd_stage dctx) /\ fd_fParams e = fd_fParams dctx /\
  fd_validateChecksum e = fd_validateChecksum dctx /\ fd_forceIgnoreChecksum e = fd_forceIgnoreChecksum dctx.
Proof. unfold end_of_blocks. by destruct (negb _). Qed.

(** A turn that gives what the context asks for. *)
Lemma fed_call d op a rest dctx i d' m dctx' :
  sd_expected (fd_stage dctx) <> 0 -> zlen a = ZSTD_nextSrcSizeToDecompressWithInputSize dctx (pick i) ->
  ZSTD_decompressContinue le d dctx false op (oend - op) a (w (zlen (a ++ rest))) = Ok (d', m, dctx') ->
  fed (d, op, a ++ rest, dctx, i) (d', op + m, rest, dctx', S i).
Proof.
  intros Hne Ea Hc. unfold fed, feed_step, ZSTD_nextSrcSizeToDecompress. rewrite (proj2 (Z.eqb_neq _ _) Hne). cbv zeta. rewrite <- Ea.
  unfold RETURN_ERROR_IF. rewrite zlen_app. pose proof (zlen_nonneg rest). destruct (Z.gtb_spec (zlen a) (zlen a + zlen rest)); [lia|].
  rewrite zsub_prefix, <- zlen_app, Hc. cbn [bind]. unfold zlen. by rewrite Nat2Z.id, drop_app_length.
Qed.

Notation entered := (entered ps cap).

Lemma in_frame_entered d op dctx h K n : in_frame d op dctx h K -> in_frame d op (entered dctx op n) h K.
Proof.
  intros [H1 H2 H3 H4 H5 H6]. destruct (entered_ok le dict ps cap d0 d op dctx n H1) as (H & _ & El & Et & Er). split; try done.
  unfold kept_of. by rewrite El, Et, Er.
Qed.

(** What is given is what is expected, outside raw blocks. *)
Lemma gives_expected dctx i stage e :
  at_stage dctx stage e -> stage <> ZSTDds_decompressBlock -> stage <> ZSTDds_decompressLastBlock ->
  ZSTD_nextSrcSizeToDecompressWithInputSize dctx i = e /\ ZSTD_nextSrcSizeToDecompressWithInputSize dctx e = e.
Proof.
  intros [E1 E2] Hn1 Hn2. unfold ZSTD_nextSrcSizeToDecompressWithInputSize. rewrite E1, E2.
  rewrite !bool_decide_eq_false_2 by done. done.
Qed.

(** The header of a block. *)
Lemma block_header_turn d op rest dctx i h K last ty size c :
  in_frame d op dctx h K -> at_stage dctx ZSTDds_decodeBlockHeader 3 -> 0 <= last <= 1 -> 0 <= size < 2 ^ 21 -> ty <> bt_reserved ->
  c = (if decide (ty = bt_rle) then 1 else size) -> c <= bsm ->
  exists dctx', fed (d, op, block_bytes last ty size [] ++ rest, dctx, i) (d, op, rest, dctx', S i) /\ in_frame d op dctx' h K /\
    if c =? 0 then (if last =? 0 then at_stage dctx' ZSTDds_decodeBlockHeader 3 else at_end dctx')
    else at_stage dctx' (if last =? 0 then ZSTDds_decompressBlock else ZSTDds_decompressLastBlock) c /\
      sd_bType (fd_stage dctx') = ty /\ sd_rleSize (fd_stage dctx') = size.
Proof.
  intros Hin Hst Hlast Hsize Hty Ec Hc. set (a := block_bytes last ty size []). assert (zlen a = 3) as Ea by (unfold a; by rewrite zlen_block_bytes).
  assert (bytes_ok a) as Hba by (apply block_bytes_ok, Forall_nil_2).
  destruct (gives_expected dctx (pick i) _ _ Hst ltac:(done) ltac:(done)) as [Eg1 Eg2]. pose proof (in_frame_entered _ _ _ _ _ (zlen a) Hin) as Hin1. set (dctx1 := entered dctx op (zlen a)) in *.
  pose proof (decodeBlockHeader_ok le dict ps cap d0 d op dctx1 a (if_ok _ _ _ _ _ Hin1) (proj1 Hst) Hba) as Hwp.
  destruct Hin1 as [H1 H2 H3 H4 H5 H6]. unfold continue_decodeBlockHeader in Hwp.
  pose proof (getcBlockSize_block last ty size [] [] Hlast Hsize Hty (Forall_nil_2 _) (Forall_nil_2 _)) as Eg. rewrite app_nil_r in Eg. fold a in Eg. rewrite <- Ec in Eg.
  assert (exists dctx', continue_decodeBlockHeader dctx1 a = Ok dctx' /\ K (kept_of (fd_block dctx')) /\ sd_decodedSize (fd_stage dctx') = op - ps /\ fd_fParams dctx' = zfh /\
    fd_validateChecksum dctx' = negb (checksumFlag zfh =? 0) && negb (fd_forceIgnoreChecksum dctx') /\
    if c =? 0 then (if last =? 0 then at_stage dctx' ZSTDds_decodeBlockHeader 3 else at_end dctx')
    else at_stage dctx' (if last =? 0 then ZSTDds_decompressBlock else ZSTDds_decompressLastBlock) c /\
      sd_bType (fd_stage dctx') = ty /\ sd_rleSize (fd_stage dctx') = size) as (dctx' & Edec & Hk & Hd & Hp & Hv & Hs).
  { unfold continue_decodeBlockHeader. rewrite Eg. cbn [bind]. unfold RETURN_ERROR_IF. rewrite H5. destruct (Z.gtb_spec c bsm); [lia|]. cbn [lastBlock].
    destruct (Z.eqb_spec c 0); cbn [negb]; destruct (Z.eqb_spec last 0); cbn [negb]; eexists; (split; [done|]).
    1,3,4: by split_and!.
    destruct (end_of_blocks_keeps (set_blockProperties dctx1 (mkBlockProperties ty last size))) as (E1 & E2 & E3 & E4 & E5).
    rewrite E1, E2, E3, E4, E5. split_and!; try done. by apply end_of_blocks_at. }
  fold (continue_decodeBlockHeader dctx1 a) in Hwp. rewrite Edec in Hwp. cbn [wp] in Hwp.
  exists dctx'. split; [|split; [by split|exact Hs]]. cut (fed (d, op, a ++ rest, dctx, i) (d, op + 0, rest, dctx', S i)); [by rewrite Z.add_0_r|]. apply fed_call; [destruct Hst; lia|lia|].
  unfold ZSTD_decompressContinue, RETURN_ERROR_IF. rewrite Ea, Eg2. cbn [Z.eqb negb]. cbv zeta. rewrite <- Ea. fold (entered dctx op (zlen a)). fold dctx1.
  change (sd_stage (fd_stage dctx1)) with (sd_stage (fd_stage dctx)). rewrite (proj1 Hst), Edec. done.
Qed.

(** After a part of a block: [expected] bytes of it are left. *)
Definition after_part (dctx : frame_DCtx) (last : Z) (ty : blockType_e) (size expected : Z) : Prop :=
  if expected >? 0 then
    at_stage dctx (if last =? 0 then ZSTDds_decompressBlock else ZSTDds_decompressLastBlock) expected /\
    sd_bType (fd_stage dctx) = ty /\ sd_rleSize (fd_stage dctx) = size
  else if last =? 0 then at_stage dctx ZSTDds_decodeBlockHeader 3 else at_end dctx.

(** The size of the content is checked after the last block. *)
Definition size_ok (n : Z) : Prop := frameContentSize zfh = ZSTD_CONTENTSIZE_UNKNOWN \/ n = frameContentSize zfh.

Lemma block_stages last : 0 <= last <= 1 ->
  (if last =? 0 then ZSTDds_decompressBlock else ZSTDds_decompressLastBlock) = ZSTDds_decompressBlock \/
  (if last =? 0 then ZSTDds_decompressBlock else ZSTDds_decompressLastBlock) = ZSTDds_decompressLastBlock.
Proof. destruct (last =? 0); auto. Qed.

(** A part of a block. *)
Lemma block_turn d op a rest dctx i h K last ty size e h' K' :
  in_frame d op dctx h K -> 0 <= last <= 1 -> e >? 0 = true -> after_part dctx last ty size e -> bytes_ok a ->
  zlen a = ZSTD_nextSrcSizeToDecompressWithInputSize dctx (pick i) -> (ty = bt_raw \/ zlen a = e) -> 1 <= zlen a <= e ->
  zlen h <= zlen h' <= zlen h + bsm -> zlen h' - zlen h <= oend - op -> let e' := e - zlen a in
  (last <> 0 -> e' = 0 -> size_ok (op + (zlen h' - zlen h) - ps)) ->
  wp (continue_block le d (entered dctx op (zlen a)) false op (oend - op) a (w (zlen (a ++ rest)))) (fun '(d', n, b', e1) =>
    history ps dict d' (op + n) = h' /\ K' (kept_of b') /\ e1 = e') no_errors ->
  exists d' dctx', fed (d, op, a ++ rest, dctx, i) (d', op + (zlen h' - zlen h), rest, dctx', S i) /\
    in_frame d' (op + (zlen h' - zlen h)) dctx' h' K' /\ after_part dctx' last ty size e'.
Proof.
  intros Hin Hlast He Hst Hba Ea Hty Hla Hhl Hroom e' Hsize Hblk. unfold after_part in Hst. rewrite He in Hst. destruct Hst as ([Est1 Est2] & Ety & Esz).
  assert (ZSTD_nextSrcSizeToDecompressWithInputSize dctx (zlen a) = zlen a) as Eg.
  { unfold ZSTD_nextSrcSizeToDecompressWithInputSize in Ea |- *. rewrite Ety, Est2 in *. destruct (negb _); [done|]. case_bool_decide; cbn [negb] in *; [|done]. unfold BOUNDED in *. lia. }
  pose proof (in_frame_entered _ _ _ _ _ (zlen a) Hin) as Hin1. destruct (entered_ok le dict ps cap d0 d op dctx (zlen a) (if_ok _ _ _ _ _ Hin)) as (_ & Hpre & _).
  set (dctx1 := entered dctx op (zlen a)) in *. assert (fd_stage dctx1 = fd_stage (add_processed dctx (zlen a))) as Es1 by done.
  pose proof Hin1 as [H1 H2 H3 H4 H5 H6].
  set (w0 := w (zlen (a ++ rest))) in *. assert (block_scratch_ok w0) as Hw0 by apply Hw.
  assert (sd_stage (fd_stage dctx1) = ZSTDds_decompressBlock \/ sd_stage (fd_stage dctx1) = ZSTDds_decompressLastBlock) as Hor by (rewrite Es1; cbn; rewrite Est1; by apply block_stages).
  assert (1 <= e <= bsm /\ ty <> bt_reserved /\ 0 <= size /\ header_known ps d op dctx1) as (Hex & Hnr & Hsz0 & Hk).
  { pose proof (co_stage _ _ _ _ _ _ _ _ H1) as Hs. unfold stage_ok in Hs. rewrite Es1, H5 in Hs. cbn in Hs. rewrite Est1, Est2, Ety, Esz in Hs. destruct (last =? 0); tauto. }
  pose proof Hk as (Hk1 & Hk2 & Hkx). destruct (co_output _ _ _ _ _ _ _ _ H1) as [[Eld _] Hbd]. pose proof (co_op _ _ _ _ _ _ _ _ H1) as Hop.
  assert (decoding dict ps cap (fd_block dctx1)) as Hdec.
  { eapply (ready_decoding _ _ _ op); [apply H1|apply H1| |by rewrite Hk1]. intros Hc _. by rewrite Hpre. }
  pose proof (continue_block_ok le dict ps cap d0 Hdict Hdst d op dctx1 a w0 Hdec Hbd Hop ltac:(lia) Hba Hw0) as Hleft. rewrite Es1 in Hleft. cbn [add_processed set_stage fd_stage sd_expected sd_bType sd_rleSize] in Hleft.
  rewrite Est2, Ety, Esz in Hleft. specialize (Hleft Hla Hty Hsz0).
  pose proof (decompressBlock_step_ok le dict ps cap d0 Hdict Hdst d op dctx1 a w0 H1 Hpre Hba Hw0 Hor) as Hwp.
  specialize (Hwp ltac:(rewrite Es1; cbn; lia) ltac:(rewrite Es1; cbn; rewrite Ety, Est2; exact Hty)).
  destruct (wp_no_errors_Ok _ _ Hblk) as ([[[d' n] b'] e1] & Eblk & Eh' & Hk' & ->). rewrite Eblk in Hleft. cbn [wp] in Hleft. destruct Hleft as ((Hn & [Eld' Hout] & Hbd' & _) & _).
  assert (n = zlen h' - zlen h) as En.
  { rewrite <- Eh', <- H3. unfold history. rewrite !zlen_app, !zlen_zsub by lia. lia. }
  assert (exists st, (if fd_validateChecksum dctx1 then XXH64_update le (fd_xxhState dctx1) (zsub d' op n) else Ok (fd_xxhState dctx1)) = Ok st) as [st Est].
  { destruct (fd_validateChecksum dctx1); [|by eexists]. destruct (update_ok le 0 (zsub d ps (op - ps)) (zsub d' op n) (fd_xxhState dctx1)) as (st & Est & _); [by apply bytes_ok_zsub|by apply Hkx|by exists st]. }
  unfold continue_decompressBlock in Hwp. rewrite Eblk in Hwp. cbn [bind] in Hwp.
  assert (exists dctx', continue_decompressBlock le d dctx1 false op (oend - op) a w0 = Ok (d', n, dctx') /\ kept_of (fd_block dctx') = kept_of b' /\
    sd_decodedSize (fd_stage dctx') = op + n - ps /\ fd_fParams dctx' = zfh /\ fd_validateChecksum dctx' = negb (checksumFlag zfh =? 0) && negb (fd_forceIgnoreChecksum dctx') /\
    after_part dctx' last ty size e') as (dctx' & Edec & F1 & F2 & F3 & F4 & F5).
  { unfold continue_decompressBlock. rewrite Eblk. cbn [bind]. unfold RETURN_ERROR_IF at 1. rewrite H5. destruct (Z.gtb_spec n bsm); [lia|].
    cbn [add_decoded set_stage fd_validateChecksum fd_xxhState]. rewrite Est. cbn [bind]. cbv zeta. set (dctx2 := set_block _ _).
    assert (sd_decodedSize (fd_stage dctx2) = op + n - ps) as Ed2.
    { change (u64 (sd_decodedSize (fd_stage dctx1) + n) = op + n - ps). rewrite H4, u64_small; lia. }
    assert (sd_stage (fd_stage dctx2) = if last =? 0 then ZSTDds_decompressBlock else ZSTDds_decompressLastBlock) as Es2 by exact Est1.
    assert (kept_of (fd_block dctx2) = kept_of b' /\ fd_fParams dctx2 = zfh /\ fd_validateChecksum dctx2 = negb (checksumFlag zfh =? 0) && negb (fd_forceIgnoreChecksum dctx2)) as (G1 & G3 & G4) by done.
    assert (sd_bType (fd_stage dctx2) = ty /\ sd_rleSize (fd_stage dctx2) = size) as [G5 G6] by (split; [exact Ety|exact Esz]).
    clearbody dctx2. rewrite Es2, G3. unfold after_part. fold e'. destruct (Z.gtb_spec e' 0).
    - eexists. split; [done|]. cbn. split_and!; try done.
    - destruct (Z.eqb_spec last 0) as [El|El].
      + rewrite bool_decide_eq_false_2 by done. eexists. split; [done|]. cbn. by split_and!.
      + rewrite bool_decide_eq_true_2 by done. specialize (Hsize El ltac:(lia)). rewrite Ed2.
        assert (negb (frameContentSize zfh =? ZSTD_CONTENTSIZE_UNKNOWN) && negb (op + n - ps =? frameContentSize zfh) = false) as ->.
        { rewrite En. destruct Hsize as [->| ->]; [by rewrite Z.eqb_refl|]. by rewrite Z.eqb_refl, andb_false_r. }
        unfold RETURN_ERROR_IF. eexists. split; [done|]. destruct (end_of_blocks_keeps dctx2) as (E1 & E2 & E3 & E4 & E5).
        rewrite E1, E2, E3, E4, E5. split_and!; try done. by apply end_of_blocks_at. }
  exists d', dctx'. rewrite <- En. split; [|split; [|exact F5]].
  - apply fed_call; [rewrite Est2; lia|exact Ea|]. unfold ZSTD_decompressContinue, RETURN_ERROR_IF. rewrite Eg, Z.eqb_refl. cbn [negb]. cbv zeta. fold w0. fold (entered dctx op (zlen a)). fold dctx1.
    destruct Hor as [E|E]; rewrite E; exact Edec.
  - split; [|by rewrite F1|done|done|done|done]. unfold continue_decompressBlock in Edec. rewrite Eblk in Edec. cbn [bind] in Edec. rewrite Edec in Hwp. apply Hwp.
Qed.

(** *** A block *)

(** A raw block, in pieces of any size. *)
Lemma raw_feed last size n : forall c rest d op dctx i h K,
  (length c <= n)%nat -> 1 <= zlen c <= bsm -> in_frame d op dctx h K -> 0 <= last <= 1 -> after_part dctx last bt_raw size (zlen c) -> bytes_ok c ->
  zlen c <= oend - op -> (last <> 0 -> size_ok (op + zlen c - ps)) ->
  exists d' dctx' i', rtc fed (d, op, c ++ rest, dctx, i) (d', op + zlen c, rest, dctx', i') /\ in_frame d' (op + zlen c) dctx' (h ++ c) K /\
    after_part dctx' last bt_raw size 0.
Proof.
  induction n as [|n IH]; intros c rest d op dctx i h K Hn Hc Hin Hlast Hst Hb Hroom Hsize; [unfold zlen in Hc; lia|].
  assert (zlen c >? 0 = true) as Hpos by (apply Z.gtb_lt; lia). pose proof Hst as Hst0. unfold after_part in Hst0. rewrite Hpos in Hst0. destruct Hst0 as ([_ Eex] & Ety & _).
  destruct (next_again le dict ps cap d0 dctx d op (pick i) (if_ok _ _ _ _ _ Hin) ltac:(lia)) as [_ Hm]. set (m := ZSTD_nextSrcSizeToDecompressWithInputSize dctx (pick i)) in *.
  rewrite Eex in Hm. set (a := zsub c 0 m). set (c' := drop (Z.to_nat m) c).
  assert (c = a ++ c') as Ec by (unfold a, c', zsub; by rewrite take_drop).
  assert (zlen a = m) as Ea by (apply zlen_zsub; lia). assert (zlen c = zlen a + zlen c') as Elc by (rewrite Ec at 1; apply zlen_app).
  assert (bytes_ok a /\ bytes_ok c') as [Hba Hbc'] by (rewrite Ec in Hb; by apply Forall_app in Hb).
  rewrite Ec, <- app_assoc.
  destruct (block_turn d op a (c' ++ rest) dctx i h K last bt_raw size (zlen c) (h ++ a) K) as (d1 & dctx1 & Hfed & Hin1 & Hst1); try done.
  - by left.
  - lia.
  - rewrite zlen_app. lia.
  - rewrite zlen_app. lia.
  - intros Hl E0. rewrite zlen_app. replace (zlen h + zlen a - zlen h) with (zlen c) by lia. by apply Hsize.
  - unfold continue_block. change (sd_bType (fd_stage (entered dctx op (zlen a)))) with (sd_bType (fd_stage dctx)). rewrite Ety.
    pose proof Hin as [H1 _ H3 _ _ _]. destruct (co_output _ _ _ _ _ _ _ _ H1) as [[Eld _] _]. pose proof (co_op _ _ _ _ _ _ _ _ H1) as Hop.
    assert (zlen (zsub d op (oend - op)) = oend - op) as El by (apply zlen_zsub; lia).
    unfold ZSTD_copyRawBlock, RETURN_ERROR_IF. destruct (Z.gtb_spec (zlen a) (zlen (zsub d op (oend - op)))); [lia|]. rewrite memcpy_at_ok by lia. cbn [bind wp].
    split; [apply (history_copied dict ps cap d0 Hdst d op a h); done || lia|]. split; [|change (sd_expected (fd_stage (entered dctx op (zlen a)))) with (sd_expected (fd_stage dctx)); lia].
    apply (in_frame_entered d op dctx h K (zlen a) Hin).
  - rewrite !zlen_app in *. replace (zlen h + zlen a - zlen h) with (zlen a) in * by lia.
    destruct (Z.eq_dec (zlen c') 0) as [E0|E0].
    + assert (c' = []) as -> by (destruct c'; [done|unfold zlen in E0; cbn in E0; lia]). change (zlen []) with 0 in *. rewrite Z.add_0_r, (app_nil_r a). replace (zlen c - zlen a) with 0 in Hst1 by lia.
      exists d1, dctx1, (S i). split; [by apply rtc_once|done].
    + replace (zlen c - zlen a) with (zlen c') in Hst1 by lia. pose proof (zlen_nonneg c').
      destruct (IH c' rest d1 (op + zlen a) dctx1 (S i) (h ++ a) K) as (d2 & dctx2 & i2 & Hfeds & Hin2 & Hst2); try done.
      * unfold zlen in *. lia.
      * lia.
      * lia.
      * intros Hl. replace (op + zlen a + zlen c') with (op + zlen c) by lia. by apply Hsize.
      * exists d2, dctx2, i2. rewrite <- app_assoc in Hin2. rewrite Z.add_assoc. split; [by eapply rtc_l|done].
Qed.

(** A block that [ZSTD_decompressContinue] accepts: neither its payload nor its content is larger than
    what the header allows. *)
Definition fb_limited (b : frame_block) : Prop :=
  match b with Plain b => zlen (block_payload b) <= bsm /\ block_size b <= bsm | Packed _ => True end.

(** The content of a block that is not raw, in one piece. *)
Lemma whole_feed p rest d op dctx i h K last ty size h' K' :
  in_frame d op dctx h K -> 0 <= last <= 1 -> after_part dctx last ty size (zlen p) -> bytes_ok p -> 1 <= zlen p <= bsm -> ty <> bt_raw ->
  zlen h <= zlen h' <= zlen h + bsm -> zlen h' - zlen h <= oend - op ->
  (last <> 0 -> size_ok (op + (zlen h' - zlen h) - ps)) ->
  wp (continue_block le d (entered dctx op (zlen p)) false op (oend - op) p (w (zlen (p ++ rest)))) (fun '(d', n, b', e1) =>
    history ps dict d' (op + n) = h' /\ K' (kept_of b') /\ e1 = 0) no_errors ->
  exists d' dctx' i', rtc fed (d, op, p ++ rest, dctx, i) (d', op + (zlen h' - zlen h), rest, dctx', i') /\
    in_frame d' (op + (zlen h' - zlen h)) dctx' h' K' /\ after_part dctx' last ty size 0.
Proof.
  intros Hin Hlast Hst Hb Hp Hty Hhl Hroom Hsize Hblk. assert (zlen p >? 0 = true) as Hpos by (apply Z.gtb_lt; lia).
  pose proof Hst as Hst0. unfold after_part in Hst0. rewrite Hpos in Hst0. destruct Hst0 as ([_ Eex] & Ety & _).
  assert (zlen p = ZSTD_nextSrcSizeToDecompressWithInputSize dctx (pick i)) as Ea.
  { unfold ZSTD_nextSrcSizeToDecompressWithInputSize. rewrite Ety, Eex. rewrite (bool_decide_eq_false_2 (ty = bt_raw)) by done. by destruct (negb _). }
  destruct (block_turn d op p rest dctx i h K last ty size (zlen p) h' K') as (d1 & dctx1 & Hfed & Hin1 & Hst1); try done.
  - by right.
  - lia.
  - intros Hl _. by apply Hsize.
  - eapply wp_mono; [exact Hblk| |done]. intros [[[d' n] b'] e1] (H1 & H2 & ->). by rewrite Z.sub_diag.
  - rewrite Z.sub_diag in Hst1. exists d1, dctx1, (S i). split; [by apply rtc_once|done].
Qed.

Lemma part_header_known d op dctx h K last ty size e :
  in_frame d op dctx h K -> after_part dctx last ty size e -> 0 < e -> header_known ps d op dctx.
Proof.
  intros [H1 _ _ _ _ _] Hst He. unfold after_part in Hst. rewrite (proj2 (Z.gtb_lt e 0) He) in Hst. destruct Hst as ([Est _] & _).
  pose proof (co_stage _ _ _ _ _ _ _ _ H1) as Hs. unfold stage_ok in Hs. rewrite Est in Hs. destruct (last =? 0); apply Hs.
Qed.

Lemma block_feed fb last rest d op dctx i h K h' K' :
  in_frame d op dctx h K -> at_stage dctx ZSTDds_decodeBlockHeader 3 -> 0 <= last <= 1 -> block_means le bsm K h fb h' K' -> fb_limited fb ->
  zlen h' - zlen h <= oend - op -> (last <> 0 -> size_ok (op + (zlen h' - zlen h) - ps)) ->
  exists d' dctx' i', rtc fed (d, op, block_bytes last (fb_type fb) (fb_size fb) (fb_payload fb) ++ rest, dctx, i)
      (d', op + (zlen h' - zlen h), rest, dctx', i') /\
    in_frame d' (op + (zlen h' - zlen h)) dctx' h' K' /\ (if last =? 0 then at_stage dctx' ZSTDds_decodeBlockHeader 3 else at_end dctx').
Proof.
  intros Hin Hst Hlast Hm Hlim Hroom Hsize.
  pose proof (co_stage _ _ _ _ _ _ _ _ (if_ok _ _ _ _ _ Hin)) as Hs. unfold stage_ok in Hs. rewrite (proj1 Hst) in Hs. destruct Hs as (_ & Hk1 & Hbsm & _).
  rewrite (if_params _ _ _ _ _ Hin) in Hbsm, Hk1.
  destruct (fb_header_ok le bsm K _ h fb h' K' Hbsm Hm (if_kept _ _ _ _ _ Hin) (ex_intro _ (w 0) (Hw 0))) as [(Hp & Hsz & Hty & Hpl) _].
  set (c := zlen (fb_payload fb)) in *. assert (c <= bsm) as Hc.
  { destruct Hm as [K h b Hb|K h p h' K' Hp']; cbn in *; [unfold c; cbn; lia|]. by apply (compressed_fits _ _ _ _ _ _ _ _ Hbsm Hp' (if_kept _ _ _ _ _ Hin) (ex_intro _ (w 0) (Hw 0))). }
  destruct (block_header_turn d op (fb_payload fb ++ rest) dctx i h K last (fb_type fb) (fb_size fb) c Hin Hst Hlast Hsz Hty Hpl Hc) as (dctx1 & Hfed & Hin1 & Hst1).
  assert (block_bytes last (fb_type fb) (fb_size fb) [] ++ fb_payload fb ++ rest = block_bytes last (fb_type fb) (fb_size fb) (fb_payload fb) ++ rest) as Eb.
  { unfold block_bytes. by rewrite app_nil_r, <- app_assoc. }
  rewrite Eb in Hfed.
  cut (exists d' dctx' i', rtc fed (d, op, fb_payload fb ++ rest, dctx1, S i) (d', op + (zlen h' - zlen h), rest, dctx', i') /\
    in_frame d' (op + (zlen h' - zlen h)) dctx' h' K' /\ after_part dctx' last (fb_type fb) (fb_size fb) 0).
  { intros (d' & dctx' & i' & H1 & H2 & H3). exists d', dctx', i'. split; [by eapply rtc_l|]. by split. }
  pose proof (zlen_nonneg (fb_payload fb)) as Hc0. fold c in Hc0.
  assert (c <> 0 -> after_part dctx1 last (fb_type fb) (fb_size fb) c) as Hpart.
  { intros Hne. unfold after_part. rewrite (proj2 (Z.gtb_lt c 0)) by lia. by rewrite (proj2 (Z.eqb_neq c 0) Hne) in Hst1. }
  destruct Hm as [K h b Hb|K h p h' K' Hpk]; cbn [fb_type fb_size fb_payload] in *.
  - destruct b as [ct|v n]; cbn [block_type block_size block_payload block_content] in *.
    + rewrite zlen_app in *. replace (zlen h + zlen ct - zlen h) with (zlen ct) in * by lia. destruct (Z.eqb_spec c 0) as [E0|E0].
      * assert (ct = []) as -> by (destruct ct; [done|unfold c, zlen in E0; cbn in E0; lia]). change (zlen []) with 0. rewrite Z.add_0_r, app_nil_r.
        exists d, dctx1, (S i). split; [done|]. split; [done|]. exact Hst1.
      * destruct Hb as [Hb _]. apply (raw_feed last (zlen ct) (length ct)); try done; [unfold c in *; lia|by apply Hpart].
    + destruct Hb as [Hv Hn]. cbn in Hlim. change (zlen [v]) with 1 in *. unfold c in Hst1, Hpart. change (1 =? 0) with false in Hst1.
      assert (zlen (h ++ zfill n v) - zlen h = n) as En by (rewrite zlen_app, zlen_zfill; lia).
      apply (whole_feed [v] rest d op dctx1 (S i) h K last bt_rle n (h ++ zfill n v) K); try done.
      * lia.
      * unfold continue_block. change (sd_bType (fd_stage (entered dctx1 op (zlen [v])))) with (sd_bType (fd_stage dctx1)). change (sd_rleSize (fd_stage (entered dctx1 op (zlen [v])))) with (sd_rleSize (fd_stage dctx1)).
        destruct Hst1 as (_ & -> & ->). rewrite rd_ok by (change (zlen [v]) with 1; lia). cbn [bind]. change (zat [v] 0) with v. unfold ZSTD_setRleBlock, RETURN_ERROR_IF.
        pose proof Hin1 as [H1 _ H3 _ _ _]. destruct (co_output _ _ _ _ _ _ _ _ H1) as [[Eld _] _]. pose proof (co_op _ _ _ _ _ _ _ _ H1) as Hop.
        assert (zlen (zsub d op (oend - op)) = oend - op) as El by (apply zlen_zsub; lia).
        destruct (Z.gtb_spec n (zlen (zsub d op (oend - op)))); [lia|]. rewrite memcpy_at_ok by (rewrite ?zlen_zfill; lia). cbn [bind wp].
        split; [|split; [apply (in_frame_entered d op dctx1 h K (zlen [v]) Hin1)|done]]. rewrite <- (zlen_zfill n v) at 2 by lia. apply (history_copied dict ps cap d0 Hdst d op _ h); rewrite ?zlen_zfill; done || lia.
  - destruct (compressed_fits _ _ _ _ _ _ _ _ Hbsm Hpk (if_kept _ _ _ _ _ Hin) (ex_intro _ (w 0) (Hw 0))) as (_ & Hp1 & _). pose proof Hpk as (_ & Hhl & _).
    fold c in Hp1. apply (whole_feed p rest d op dctx1 (S i) h K last bt_compressed (zlen p) h' K'); try done.
    + apply Hpart. lia.
    + unfold continue_block. change (sd_bType (fd_stage (entered dctx1 op (zlen p)))) with (sd_bType (fd_stage dctx1)).
      rewrite (proj2 (Z.eqb_neq c 0)) in Hst1 by lia. destruct Hst1 as (_ & -> & _). wp_step.
      pose proof (in_frame_entered d op dctx1 h K (zlen p) Hin1) as [H1 H2 H3 _ H5 _]. destruct (co_output _ _ _ _ _ _ _ _ H1) as [[Eld _] Hbd]. pose proof (co_op _ _ _ _ _ _ _ _ H1) as Hop.
      destruct (entered_ok le dict ps cap d0 d op dctx1 (zlen p) (if_ok _ _ _ _ _ Hin1)) as (_ & Hpre & El1 & _).
      assert (lc_blockSizeMax (bc_lit (fd_block (entered dctx1 op (zlen p)))) = bsm) as Hbs1.
      { rewrite El1. destruct (part_header_known d op dctx1 h K last bt_compressed (zlen p) c Hin1 (Hpart ltac:(lia)) ltac:(lia)) as [-> _]. by rewrite (if_params _ _ _ _ _ Hin1). }
      eapply wp_mono; [eapply (decompressBlock_means le dict ps cap d0 bsm Hdict Hdst Hbsm); try done| |done].
      * eapply (ready_decoding _ _ _ op); [apply H1|apply H1| |by rewrite Hbs1]. intros Hcap _. by rewrite Hpre.
      * lia.
      * apply (tr_frame _ (co_tables _ _ _ _ _ _ _ _ H1)).
      * intros [[n b'] d'] [E1 E2]. wp_step. done.
Qed.

(** *** The blocks of a frame *)

Lemma blocks_feed bs : bs <> [] -> forall rest d op dctx i h K h',
  in_frame d op dctx h K -> at_stage dctx ZSTDds_decodeBlockHeader 3 -> blocks_mean le bsm K h bs h' -> Forall fb_limited bs ->
  zlen h' - zlen h <= oend - op -> size_ok (op + (zlen h' - zlen h) - ps) ->
  exists d' dctx' i' K', rtc fed (d, op, fblocks_bytes bs ++ rest, dctx, i) (d', op + (zlen h' - zlen h), rest, dctx', i') /\
    in_frame d' (op + (zlen h' - zlen h)) dctx' h' K' /\ at_end dctx'.
Proof.
  induction bs as [|fb bs IH]; [done|]. intros _ rest d op dctx i h K h' Hin Hst Hm Hlim Hroom Hsize.
  apply blocks_mean_cons in Hm as (h1 & K1 & Hm1 & Hms). apply Forall_cons in Hlim as [Hlim1 Hlims]. cbn [fblocks_bytes]. rewrite <- app_assoc.
  pose proof (block_means_grows _ _ _ _ _ _ _ Hm1). pose proof (blocks_mean_grows _ _ _ _ _ _ Hms).
  set (last := match bs with [] => 1 | _ => 0 end). assert (0 <= last <= 1) as Hlast by (unfold last; destruct bs; lia).
  destruct (block_feed fb last (fblocks_bytes bs ++ rest) d op dctx i h K h1 K1 Hin Hst Hlast Hm1 Hlim1) as (d1 & dctx1 & i1 & Hf1 & Hin1 & Hst1).
  { lia. }
  { intros Hl. destruct bs as [|fb' bs]; [|done]. by apply blocks_mean_nil in Hms as ->. }
  destruct bs as [|fb' bs].
  - apply blocks_mean_nil in Hms as ->. exists d1, dctx1, i1, K1. split; [exact Hf1|]. by split.
  - destruct (IH ltac:(done) rest d1 (op + (zlen h1 - zlen h)) dctx1 i1 h1 K1 h') as (d2 & dctx2 & i2 & K2 & Hf2 & Hin2 & Hend); try done.
    { lia. }
    { replace (op + (zlen h1 - zlen h) + (zlen h' - zlen h1) - ps) with (op + (zlen h' - zlen h) - ps) by lia. done. }
    replace (op + (zlen h1 - zlen h) + (zlen h' - zlen h1)) with (op + (zlen h' - zlen h)) in * by lia.
    exists d2, dctx2, i2, K2. split; [etrans; [exact Hf1|exact Hf2]|done].
Qed.

(** The end of the frame. *)
Lemma checksum_feed rest d op dctx i h K content :
  in_frame d op dctx h K -> at_end dctx -> h = dict ++ content -> bytes_ok rest ->
  exists dctx' i', rtc fed (d, op, (if checksumFlag zfh =? 0 then [] else le_bytes 4 (u32 (xxh64_spec content 0))) ++ rest, dctx, i)
      (d, op, rest, dctx', i') /\ at_stage dctx' ZSTDds_getFrameHeaderSize 0.
Proof.
  intros Hin Hend Eh Hrest. unfold at_end in Hend. destruct (checksumFlag zfh =? 0) eqn:Ec; [exists dctx, i; split; [apply rtc_refl|done]|].
  set (a := le_bytes 4 (u32 (xxh64_spec content 0))). assert (zlen a = 4) as Ea by apply zlen_le_bytes. assert (bytes_ok a) as Hba by apply le_bytes_ok.
  destruct (gives_expected dctx (pick i) _ _ Hend ltac:(done) ltac:(done)) as [Eg1 Eg2]. pose proof (in_frame_entered _ _ _ _ _ (zlen a) Hin) as [H1 H2 H3 H4 H5 H6].
  set (dctx1 := entered dctx op (zlen a)) in *. exists (goto dctx1 ZSTDds_getFrameHeaderSize 0), (S i). split; [|done]. apply rtc_once.
  cut (fed (d, op, a ++ rest, dctx, i) (d, op + 0, rest, goto dctx1 ZSTDds_getFrameHeaderSize 0, S i)); [by rewrite Z.add_0_r|].
  apply fed_call; [destruct Hend; lia|lia|]. unfold ZSTD_decompressContinue, RETURN_ERROR_IF. rewrite Ea, Eg2. cbn [Z.eqb negb]. cbv zeta. rewrite <- Ea. fold (entered dctx op (zlen a)). fold dctx1.
  change (sd_stage (fd_stage dctx1)) with (sd_stage (fd_stage dctx)). rewrite (proj1 Hend). unfold continue_checkChecksum.
  pose proof (co_stage _ _ _ _ _ _ _ _ H1) as Hs. unfold stage_ok in Hs. change (sd_stage (fd_stage dctx1)) with (sd_stage (fd_stage dctx)) in Hs. rewrite (proj1 Hend) in Hs. destruct Hs as (_ & _ & _ & Hx).
  assert (zsub d ps (op - ps) = content) as Ecn by (rewrite <- H3 in Eh; unfold history in Eh; by apply app_inv_head in Eh).
  destruct (fd_validateChecksum dctx1) eqn:Ev; [|done]. specialize (Hx eq_refl). rewrite Ecn in Hx.
  destruct (co_output _ _ _ _ _ _ _ _ H1) as [[Eld _] _]. pose proof (co_op _ _ _ _ _ _ _ _ H1) as Hop.
  rewrite (digest_ok le 0 content); [|lia|rewrite <- Ecn, zlen_zsub by lia; lia|done]. cbn [bind].
  assert (readLE32 a 0 = Ok (u32 (xxh64_spec content 0))) as ->.
  { unfold a. rewrite <- (app_nil_r (le_bytes 4 _)). apply (parse_LE32 [] []); [done|apply Forall_nil_2|apply Forall_nil_2|apply u32_range]. }
  cbn [bind]. unfold RETURN_ERROR_IF. by rewrite Z.eqb_refl.
Qed.
End run.

(** *** The header of a frame *)

Lemma loop_more {T R} (body : T -> result (flow T R)) f : forall s g, loop_ f body s <> Stuck -> (f <= g)%nat -> loop_ g body s = loop_ f body s.
Proof.
  induction f as [|f IH]; intros s g Hs Hg; [done|]. destruct g as [|g]; [lia|]. cbn [loop_] in *.
  destruct (body s) as [[s'|r]|e|]; cbn [bind] in *; [apply IH; [done|lia]|done..].
Qed.

Lemma rtc_loop {T R} (body : T -> result (flow T R)) s s' r :
  rtc (fun s s' => body s = Ok (Continue s')) s s' -> body s' = Ok (Break r) -> exists f, loop_ f body s = Ok r.
Proof.
  induction 1 as [s|s s1 s' H _ IH]; intros Hb.
  - exists 1%nat. cbn. by rewrite Hb.
  - destruct (IH Hb) as [f Hf]. exists (S f). cbn. by rewrite H.
Qed.

Section whole.
Context (le : bool) (dict : list Z) (ps cap : Z) (d0 : list Z) (pick : nat -> Z) (w : Z -> block_scratch).
Hypothesis Hdict : bytes_ok dict /\ zlen dict < 2 ^ 58.
Hypothesis Hdst : 0 <= ps /\ 0 <= cap /\ ps + cap <= zlen d0 /\ zlen d0 < 2 ^ 58.
Hypothesis Hw : forall n, block_scratch_ok (w n).
Notation oend := (ps + cap).
Notation fed := (fed le ps cap pick w).
Context (format : ZSTD_format_e) (fp : ZSTD_frameParameters) (windowLog size dictID : Z).
Hypothesis Hwl : 10 <= windowLog <= 31.
Hypothesis Hsize : 0 <= size < 2 ^ 64.
Hypothesis Hdid : 0 <= dictID < 2 ^ 32.
Notation header := (header_bytes format fp windowLog size dictID).
Notation zfh := (header_of format fp windowLog size dictID).
Notation start := (ZSTD_startingInputLength format).

(** A context that is ready for a frame. *)
Record frame_start (dctx : frame_DCtx) (K : kept -> Prop) : Prop := {
  fs_ok : continue_ok le dict ps cap d0 d0 ps dctx;
  fs_stage : at_stage dctx ZSTDds_getFrameHeaderSize start;
  fs_decoded : sd_decodedSize (fd_stage dctx) = 0;
  fs_kept : K (kept_of (fd_block dctx));
  fs_format : fd_format dctx = format;
  fs_dict : dctx_refMultipleDDicts (fd_dict dctx) = false /\
    (noDictIDFlag fp = true \/ dictID = 0 \/ dictID = dctx_dictID (fd_dict dctx));
}.

Lemma header_split : header = zsub header 0 start ++ drop (Z.to_nat start) header /\ zlen (zsub header 0 start) = start /\
  zlen (drop (Z.to_nat start) header) = zlen header - start /\ start < zlen header <= 18.
Proof.
  pose proof (header_min format fp windowLog size dictID Hwl Hsize Hdid) as Hmin. pose proof (header_length format fp windowLog size dictID Hwl Hsize Hdid) as Hlen.
  assert (start < ZSTD_FRAMEHEADERSIZE_MIN format) as Hlt by (unfold ZSTD_startingInputLength, ZSTD_FRAMEHEADERSIZE_MIN; case_decide; lia).
  pose proof (startingInputLength_range format). split; [by unfold zsub; rewrite take_drop|]. split; [apply zlen_zsub; lia|]. split; [|lia].
  unfold zlen in *. rewrite length_drop. lia.
Qed.

Lemma header_feed rest dctx i K :
  frame_start dctx K ->
  exists dctx' i', rtc fed (d0, ps, header ++ rest, dctx, i) (d0, ps, rest, dctx', i') /\ in_frame le dict ps cap d0 zfh d0 ps dctx' dict K /\
    at_stage dctx' ZSTDds_decodeBlockHeader 3.
Proof.
  intros [H [Est1 Est2] Hdec HK Hfmt [Hmulti Hid]]. destruct header_split as (Eh & El1 & El2 & Hlen). set (a1 := zsub header 0 start) in *. set (a2 := drop (Z.to_nat start) header) in *.
  pose proof (header_ok format fp windowLog size dictID Hwl Hsize Hdid) as Hhb. pose proof (startingInputLength_range format) as Hst.
  assert (bytes_ok a1 /\ bytes_ok a2) as [Hb1 Hb2] by (rewrite Eh in Hhb; by apply Forall_app in Hhb).
  (* its first bytes *)
  destruct (entered_ok le dict ps cap d0 d0 ps dctx (zlen a1) H) as (H1 & Hpre1 & L1 & T1 & R1). set (dctx1 := entered ps cap dctx ps (zlen a1)) in *.
  set (buf := sd_headerBuffer (fd_stage dctx)) in *. destruct (co_header _ _ _ _ _ _ _ _ H) as [Elb Hbb]. fold buf in Elb, Hbb. change ZSTD_FRAMEHEADERSIZE_MAX with 18 in Elb.
  set (dctx2 := goto (set_header dctx1 (zlen header) (zpatch buf 0 a1)) ZSTDds_decodeFrameHeader (zlen header - zlen a1)).
  assert (continue_getFrameHeaderSize dctx1 a1 = Ok dctx2) as E1.
  { unfold continue_getFrameHeaderSize. cbv zeta. change (fd_format dctx1) with (fd_format dctx). rewrite Hfmt.
    assert ((if bool_decide (format = ZSTD_f_zstd1) then let* magic := readLE32 a1 0 in Ok (is_skippable_magic magic) else Ok false) = Ok false) as ->.
    { case_bool_decide as Ef; [|done]. assert (start = 5) as E5 by (by rewrite Ef).
      pose proof (header_magic fp windowLog size dictID [] Hsize Hdid Hwl (Forall_nil_2 _)) as Em. rewrite app_nil_r, <- Ef in Em.
      rewrite readLE32_spec in Em |- * by (done || lia). unfold a1. rewrite zsub_zsub by lia. injection Em as Em. cbn [bind]. by rewrite Em. }
    cbn [bind]. pose proof (header_size_prefix format fp windowLog size dictID Hwl Hsize Hdid [] (Forall_nil_2 _)) as Esz. rewrite app_nil_r in Esz. fold a1 in Esz. rewrite Esz. cbn [bind].
    change (sd_headerBuffer (fd_stage dctx1)) with buf. rewrite memcpy_at_ok by lia. done. }
  pose proof (getFrameHeaderSize_ok le dict ps cap d0 d0 ps dctx1 a1 H1 eq_refl Est1 ltac:(change (fd_format dctx1) with (fd_format dctx); rewrite Hfmt; lia) Hb1) as H2.
  rewrite E1 in H2. cbn [wp] in H2.
  assert (fed (d0, ps, a1 ++ a2 ++ rest, dctx, i) (d0, ps, a2 ++ rest, dctx2, S i)) as F1.
  { destruct (gives_expected dctx (pick i) _ _ (conj Est1 Est2) ltac:(done) ltac:(done)) as [Eg1 Eg2].
    cut (fed (d0, ps, a1 ++ a2 ++ rest, dctx, i) (d0, ps + 0, a2 ++ rest, dctx2, S i)); [by rewrite Z.add_0_r|]. apply fed_call; [lia|lia|].
    unfold ZSTD_decompressContinue, RETURN_ERROR_IF. rewrite El1, Eg2, Z.eqb_refl. cbn [negb]. cbv zeta. rewrite <- El1. fold (entered ps cap dctx ps (zlen a1)). fold dctx1.
    change (sd_stage (fd_stage dctx1)) with (sd_stage (fd_stage dctx)). rewrite Est1, E1. done. }
  (* the rest of it *)
  destruct (entered_ok le dict ps cap d0 d0 ps dctx2 (zlen a2) H2) as (H3 & Hpre3 & L3 & T3 & R3). set (dctx3 := entered ps cap dctx2 ps (zlen a2)) in *.
  set (dctx4 := set_header dctx3 (zlen header) (zpatch (zpatch buf 0 a1) (zlen header - zlen a2) a2)).
  destruct (decodeFrameHeader_means le dctx4 format fp windowLog size dictID) as (dctx5 & E5 & Efp & Eb5); try done.
  assert (continue_decodeFrameHeader le dctx3 a2 = Ok (goto dctx5 ZSTDds_decodeBlockHeader 3)) as E3.
  { unfold continue_decodeFrameHeader. cbv zeta. change (sd_headerBuffer (fd_stage dctx3)) with (zpatch buf 0 a1). change (sd_headerSize (fd_stage dctx3)) with (zlen header).
    rewrite memcpy_at_ok by (rewrite ?zlen_zpatch; lia). cbn [bind]. unfold rd_bytes. rewrite (proj2 (Z.leb_le 0 0)) by lia.
    rewrite (proj2 (Z.leb_le _ _)) by (rewrite !zlen_zpatch; rewrite ?zlen_zpatch; lia). cbn [andb bind].
    assert (zsub (zpatch (zpatch buf 0 a1) (zlen header - zlen a2) a2) 0 (zlen header) = header) as ->.
    { transitivity (a1 ++ a2); [|by rewrite <- Eh]. replace (zlen header) with (zlen a1 + zlen a2) by lia. replace (zlen a1 + zlen a2 - zlen a2) with (zlen a1) by lia.
      rewrite zsub_split by (rewrite ?zlen_zpatch; rewrite ?zlen_zpatch; lia). f_equal.
      - rewrite zsub_zpatch_before by (rewrite ?zlen_zpatch; lia). apply zsub_zpatch_0. lia.
      - apply (zsub_zpatch (zpatch buf 0 a1) a2 (zlen a1)); rewrite ?zlen_zpatch; lia. }
    fold dctx4. rewrite E5. done. }
  assert (sd_expected (fd_stage dctx2) = zlen a2) as Ex2 by (cbn; lia).
  pose proof (decodeHeader_ok le dict ps cap d0 d0 ps dctx3 a2 H3 eq_refl ltac:(symmetry; exact Ex2) Hb2) as H4. rewrite E3 in H4. cbn [wp] in H4.
  assert (fed (d0, ps, a2 ++ rest, dctx2, S i) (d0, ps, rest, goto dctx5 ZSTDds_decodeBlockHeader 3, S (S i))) as F2.
  { destruct (gives_expected dctx2 (pick (S i)) ZSTDds_decodeFrameHeader (zlen a2) ltac:(by split) ltac:(done) ltac:(done)) as [Eg1 Eg2].
    cut (fed (d0, ps, a2 ++ rest, dctx2, S i) (d0, ps + 0, rest, goto dctx5 ZSTDds_decodeBlockHeader 3, S (S i))); [by rewrite Z.add_0_r|]. apply fed_call; [lia|lia|].
    unfold ZSTD_decompressContinue, RETURN_ERROR_IF. rewrite Eg2, Z.eqb_refl. cbn [negb]. cbv zeta. fold (entered ps cap dctx2 ps (zlen a2)). fold dctx3.
    change (sd_stage (fd_stage dctx3)) with ZSTDds_decodeFrameHeader. rewrite E3. done. }
  exists (goto dctx5 ZSTDds_decodeBlockHeader 3), (S (S i)). split; [|split; [|done]].
  - rewrite Eh, <- app_assoc. eapply rtc_l; [exact F1|]. by apply rtc_once.
  - pose proof (decodeFrameHeader_stage _ _ _ _ E5) as Es5. pose proof (decodeFrameHeader_ok le dctx4 header Hhb (co_search _ _ _ _ _ _ _ _ H3)) as Hwp. rewrite E5 in Hwp. cbn [wp] in Hwp.
    destruct Hwp as (zfh' & _ & _ & Efp' & Ev & _ & (_ & Eign & _)). rewrite Efp in Efp'. subst zfh'.
    split; [exact H4| |unfold history; replace (ps - ps) with 0 by lia; apply app_nil_r| |exact Efp|].
    + change (K (kept_of (fd_block dctx5))). rewrite Eb5.
      assert (kept_of (fd_block (set_fParams dctx4 zfh)) = kept_of (fd_block dctx)) as ->; [|done].
      unfold kept_of. cbn [set_fParams fd_block bc_lit lc_hufTable lc_HUFptr lc_litEntropy bc_tables bc_rep].
      change (fd_block dctx4) with (fd_block dctx3). rewrite L3, T3, R3. change (fd_block dctx2) with (fd_block dctx1). by rewrite L1, T1, R1.
    + change (sd_decodedSize (fd_stage dctx5) = ps - ps). rewrite Es5. change (sd_decodedSize (fd_stage dctx) = ps - ps). lia.
    + change (fd_validateChecksum dctx5 = negb (checksumFlag zfh =? 0) && negb (fd_forceIgnoreChecksum dctx5)). by rewrite Ev, Eign.
Qed.

(** *** A frame *)

Lemma feed_whole src dctx s i :
  fed_ok le dict ps cap d0 (d0, ps, src, dctx) -> rtc fed (d0, ps, src, dctx, 0%nat) (s, i) -> sd_expected (fd_stage s.2) = 0 ->
  feed le oend pick w d0 ps src dctx = Ok s /\ fed_ok le dict ps cap d0 s.
Proof.
  intros H Hrtc He. destruct s as [[[d' op'] src'] dctx'].
  assert (feed_step le oend pick w (d', op', src', dctx', i) = Ok (Break (d', op', src', dctx'))) as Hlast.
  { unfold feed_step, ZSTD_nextSrcSizeToDecompress. cbn in He. by rewrite He. }
  destruct (rtc_loop (feed_step le oend pick w) _ _ _ Hrtc Hlast) as [f Hf].
  pose proof (feed_ok le dict ps cap d0 Hdict Hdst pick w Hw d0 ps src dctx H) as Hok.
  assert (feed le oend pick w d0 ps src dctx = Ok (d', op', src', dctx')) as E; [|by rewrite E in Hok; destruct Hok].
  unfold feed in *. set (n := S (length src)) in *. destruct (Nat.le_gt_cases n f) as [Hle|Hgt].
  - rewrite <- Hf. symmetry. apply loop_more; [|done]. intros E. by rewrite E in Hok.
  - rewrite (loop_more _ f); [done|by rewrite Hf|lia].
Qed.

Lemma frame_feed dctx K bs content rest :
  frame_start dctx K -> bytes_ok rest -> zlen content <= cap ->
  frame_means le format fp windowLog size dictID bs (dctx_dictID (fd_dict dctx)) K dict content -> Forall (fb_limited zfh) bs ->
  exists d' dctx', feed le oend pick w d0 ps (frame_bytes format fp windowLog size dictID bs content ++ rest) dctx = Ok (d', ps + zlen content, rest, dctx') /\
    continue_ok le dict ps cap d0 d' (ps + zlen content) dctx' /\ zsub d' ps (zlen content) = content.
Proof.
  intros Hfs Hrest Hcap [_ [_ Hszc] _ [Hne Hbm]] Hlim. pose proof (fs_ok _ _ Hfs) as Hok. pose proof (fs_kept _ _ Hfs) as HK.
  set (tail := if fp_checksumFlag fp then le_bytes 4 (u32 (xxh64_spec content 0)) else []).
  assert (tail = if checksumFlag zfh =? 0 then [] else le_bytes 4 (u32 (xxh64_spec content 0))) as Et by (unfold tail; cbn; by destruct (fp_checksumFlag fp)).
  assert (bytes_ok tail) as Htb by (unfold tail; destruct (fp_checksumFlag fp); [apply le_bytes_ok|apply Forall_nil_2]).
  pose proof (header_block_size format fp windowLog size dictID ltac:(lia)) as Hbsm.
  assert (bytes_ok (fblocks_bytes bs)) as Hfb by (eapply fblocks_ok; [exact Hbsm|by exists (w 0)|exact Hbm|exact HK]).
  assert (zlen (dict ++ content) - zlen dict = zlen content) as El by (rewrite zlen_app; lia).
  assert (frame_bytes format fp windowLog size dictID bs content ++ rest = header ++ fblocks_bytes bs ++ tail ++ rest) as Ef by (unfold frame_bytes; fold tail; by rewrite <- !app_assoc).
  destruct (header_feed (fblocks_bytes bs ++ tail ++ rest) dctx 0%nat K Hfs) as (dctx1 & i1 & F1 & Hin1 & Hst1).
  destruct (blocks_feed le dict ps cap d0 pick w zfh Hdict Hdst Hw bs Hne (tail ++ rest) d0 ps dctx1 i1 dict K (dict ++ content) Hin1 Hst1 Hbm Hlim)
    as (d2 & dctx2 & i2 & K2 & F2 & Hin2 & Hend); [lia| |].
  { unfold size_ok. rewrite El. replace (ps + zlen content - ps) with (zlen content) by lia. cbn. destruct (contentSizeFlag fp); [right; symmetry; by apply Hszc|by left]. }
  rewrite El in F2, Hin2.
  destruct (checksum_feed le dict ps cap d0 pick w zfh Hdst rest d2 (ps + zlen content) dctx2 i2 (dict ++ content) K2 content Hin2 Hend eq_refl Hrest) as (dctx3 & i3 & F3 & Hst3).
  rewrite <- Et in F3. exists d2, dctx3. rewrite Ef.
  destruct (feed_whole (header ++ fblocks_bytes bs ++ tail ++ rest) dctx (d2, ps + zlen content, rest, dctx3) i3) as [E [H3 _]].
  - split; [done|]. apply bytes_ok_app; [by apply header_ok|]. by repeat apply bytes_ok_app.
  - etrans; [exact F1|]. etrans; [exact F2|exact F3].
  - apply Hst3.
  - split; [exact E|]. split; [exact H3|]. pose proof (if_history _ _ _ _ _ _ _ _ _ _ _ Hin2) as Eh. unfold history in Eh.
    replace (ps + zlen content - ps) with (zlen content) in Eh by lia. by apply app_inv_head in Eh.
Qed.
End whole.

(** *** A skippable frame *)

Section skipping.
Context (le : bool) (dict : list Z) (ps cap : Z) (d0 : list Z) (pick : nat -> Z) (w : Z -> block_scratch).
Hypothesis Hdict : bytes_ok dict /\ zlen dict < 2 ^ 58.
Hypothesis Hdst : 0 <= ps /\ 0 <= cap /\ ps + cap <= zlen d0 /\ zlen d0 < 2 ^ 58.
Hypothesis Hw : forall n, block_scratch_ok (w n).
Notation oend := (ps + cap).
Notation fed := (fed le ps cap pick w).

(** A turn at a stage that only keeps bytes. *)
Lemma plain_turn a rest dctx i dctx' stage :
  at_stage dctx stage (zlen a) -> stage <> ZSTDds_decompressBlock -> stage <> ZSTDds_decompressLastBlock -> zlen a <> 0 ->
  (forall d wn, let dctx1 := entered ps cap dctx ps (zlen a) in
    ZSTD_decompressContinue le d dctx false ps (oend - ps) a wn = Ok (d, 0, dctx')) ->
  fed (d0, ps, a ++ rest, dctx, i) (d0, ps, rest, dctx', S i).
Proof.
  intros Hst H1 H2 Ha Hc. destruct (gives_expected dctx (pick i) _ _ Hst H1 H2) as [Eg _].
  cut (fed (d0, ps, a ++ rest, dctx, i) (d0, ps + 0, rest, dctx', S i)); [by rewrite Z.add_0_r|].
  apply fed_call; [by rewrite (proj2 Hst)|done|apply Hc].
Qed.

Lemma skippable_feed dctx variant payload rest :
  continue_ok le dict ps cap d0 d0 ps dctx -> at_stage dctx ZSTDds_getFrameHeaderSize 5 -> fd_format dctx = ZSTD_f_zstd1 ->
  0 <= variant <= 15 -> bytes_ok payload -> zlen payload < 2 ^ 32 - 8 -> bytes_ok rest ->
  exists dctx', feed le oend pick w d0 ps (skippable_bytes variant payload ++ rest) dctx = Ok (d0, ps, rest, dctx') /\
    continue_ok le dict ps cap d0 d0 ps dctx'.
Proof.
  intros H Hst Hfmt Hv Hb Hl Hrest. pose proof (zlen_nonneg payload).
  set (hd := le_bytes 4 (ZSTD_MAGIC_SKIPPABLE_START + variant) ++ le_bytes 4 (zlen payload)).
  assert (zlen hd = 8) as Elh by (unfold hd; rewrite zlen_app, !zlen_le_bytes; lia).
  assert (bytes_ok hd) as Hbh by (unfold hd; apply bytes_ok_app; apply le_bytes_ok).
  set (a1 := zsub hd 0 5). set (a2 := drop 5 hd).
  assert (hd = a1 ++ a2) as Eh by (unfold a1, a2, zsub; cbn [Z.to_nat drop]; by rewrite drop_0, take_drop).
  assert (zlen a1 = 5) as E1 by (apply zlen_zsub; lia). assert (zlen a2 = 3) as E2 by (rewrite Eh, zlen_app in Elh; lia).
  assert (bytes_ok a1 /\ bytes_ok a2) as [Hb1 Hb2] by (rewrite Eh in Hbh; by apply Forall_app in Hbh).
  destruct (co_header _ _ _ _ _ _ _ _ H) as [Elb Hbb]. change ZSTD_FRAMEHEADERSIZE_MAX with 18 in Elb.
  set (buf1 := zpatch (sd_headerBuffer (fd_stage dctx)) 0 a1). assert (zlen buf1 = 18) as El1 by (unfold buf1; rewrite zlen_zpatch; lia).
  set (buf2 := zpatch buf1 5 a2). assert (zlen buf2 = 18) as El2 by (unfold buf2; rewrite zlen_zpatch; lia).
  assert (bytes_ok buf2) as Hbb2 by (unfold buf2, buf1; repeat apply bytes_ok_zpatch; done).
  assert (zsub buf2 0 8 = hd) as Ebuf.
  { rewrite Eh. transitivity (zsub buf2 0 5 ++ zsub buf2 (0 + 5) 3); [apply (zsub_split buf2 0 5 3); lia|]. by f_equal. }
  pose (c1 := entered ps cap dctx ps 5).
  set (dctx1 := goto (set_header c1 (sd_headerSize (fd_stage c1)) buf1) ZSTDds_decodeSkippableHeader 3).
  pose (c2 := entered ps cap dctx1 ps 3).
  set (dctx2 := goto (set_header c2 (sd_headerSize (fd_stage c2)) buf2) ZSTDds_skipFrame (zlen payload)).
  assert (fed (d0, ps, a1 ++ a2 ++ payload ++ rest, dctx, 0%nat) (d0, ps, a2 ++ payload ++ rest, dctx1, 1%nat)) as F1.
  { apply (plain_turn _ _ _ _ _ ZSTDds_getFrameHeaderSize); [by rewrite E1|done|done|lia|]. intros d wn _.
    destruct (gives_expected dctx 5 _ _ Hst) as [Eg _]; [done|done|].
    unfold ZSTD_decompressContinue, RETURN_ERROR_IF. rewrite E1, Eg. cbn [Z.eqb negb]. cbv zeta. fold (entered ps cap dctx ps 5). fold c1.
    change (sd_stage (fd_stage c1)) with (sd_stage (fd_stage dctx)). rewrite (proj1 Hst). unfold continue_getFrameHeaderSize. cbv zeta.
    change (fd_format c1) with (fd_format dctx). rewrite Hfmt. rewrite bool_decide_true by done.
    assert (readLE32 a1 0 = Ok (ZSTD_MAGIC_SKIPPABLE_START + variant)) as ->.
    { rewrite readLE32_spec by (done || lia). unfold a1. rewrite zsub_zsub by lia. change (0 + 0) with 0. unfold hd.
      rewrite <- (zlen_le_bytes 4 (ZSTD_MAGIC_SKIPPABLE_START + variant)) at 1. change (Z.of_nat 4) with 4. rewrite zsub_prefix, le_val_le_bytes, Z.mod_small; [done|]. unfold ZSTD_MAGIC_SKIPPABLE_START. cbn. lia. }
    cbn [bind]. rewrite skippable_is by done. rewrite memcpy_at_ok by (change (sd_headerBuffer (fd_stage c1)) with (sd_headerBuffer (fd_stage dctx)); lia). cbn [bind]. rewrite E1. done. }
  assert (fed (d0, ps, a2 ++ payload ++ rest, dctx1, 1%nat) (d0, ps, payload ++ rest, dctx2, 2%nat)) as F2.
  { apply (plain_turn _ _ _ _ _ ZSTDds_decodeSkippableHeader); [by rewrite E2|done|done|lia|]. intros d wn _.
    unfold ZSTD_decompressContinue, RETURN_ERROR_IF. rewrite E2. change (ZSTD_nextSrcSizeToDecompressWithInputSize dctx1 3) with 3. cbn [Z.eqb negb]. cbv zeta. fold (entered ps cap dctx1 ps 3). fold c2.
    change (sd_stage (fd_stage c2)) with ZSTDds_decodeSkippableHeader. unfold continue_decodeSkippableHeader. cbv zeta. change (sd_headerBuffer (fd_stage c2)) with buf1.
    rewrite E2. change (ZSTD_SKIPPABLEHEADERSIZE - 3) with 5. rewrite memcpy_at_ok by lia. fold buf2. cbn [bind].
    assert (readLE32 buf2 ZSTD_FRAMEIDSIZE = Ok (zlen payload)) as ->; [|done].
    change ZSTD_FRAMEIDSIZE with 4. rewrite readLE32_spec by (done || lia).
    assert (zsub buf2 4 4 = zsub (zsub buf2 0 8) 4 4) as -> by (rewrite zsub_zsub by lia; done). rewrite Ebuf. unfold hd.
    rewrite <- (app_nil_r (le_bytes 4 (zlen payload))) at 1. rewrite zsub_mid; [rewrite le_val_le_bytes, Z.mod_small; [done|cbn; lia]|by rewrite zlen_le_bytes|by rewrite zlen_le_bytes]. }
  set (dctx3 := if zlen payload =? 0 then dctx2 else goto (entered ps cap dctx2 ps (zlen payload)) ZSTDds_getFrameHeaderSize 0).
  assert (rtc fed (d0, ps, payload ++ rest, dctx2, 2%nat) (d0, ps, rest, dctx3, if zlen payload =? 0 then 2%nat else 3%nat)) as F3.
  { unfold dctx3. destruct (Z.eqb_spec (zlen payload) 0) as [E0|E0].
    - assert (payload = []) as -> by (destruct payload; [done|unfold zlen in E0; cbn in E0; lia]). apply rtc_refl.
    - apply rtc_once. apply (plain_turn _ _ _ _ _ ZSTDds_skipFrame); [done|done|done|done|]. intros d wn _.
      unfold ZSTD_decompressContinue, RETURN_ERROR_IF. change (ZSTD_nextSrcSizeToDecompressWithInputSize dctx2 (zlen payload)) with (zlen payload). rewrite Z.eqb_refl. done. }
  exists dctx3. assert (skippable_bytes variant payload ++ rest = a1 ++ a2 ++ payload ++ rest) as ->.
  { unfold skippable_bytes. rewrite (app_assoc (le_bytes 4 _) (le_bytes 4 _)). fold hd. rewrite Eh, <- !app_assoc. done. }
  destruct (feed_whole le dict ps cap d0 pick w Hdict Hdst Hw (a1 ++ a2 ++ payload ++ rest) dctx (d0, ps, rest, dctx3) (if zlen payload =? 0 then 2%nat else 3%nat)) as [E [H3 _]].
  - split; [done|]. by repeat apply bytes_ok_app.
  - eapply rtc_l; [exact F1|]. eapply rtc_l; [exact F2|exact F3].
  - cbn. unfold dctx3. by destruct (Z.eqb_spec (zlen payload) 0).
  - by split.
Qed.
End skipping.

(** *** The start of a frame *)

Lemma frame_begin_stage le dctx dict ddict wd dctx' :
  frame_begin le dctx dict ddict wd = Ok dctx' -> fd_stage dctx' = fd_stage (ZSTD_decompressBegin dctx).
Proof.
  unfold frame_begin. destruct ddict as [dd|]; [intros [= <-]; cbn; by destruct (dd_entropy dd)|].
  unfold ZSTD_decompressBegin_usingDict. destruct (negb (zlen dict =? 0)); [|by intros [= <-]].
  unfold ZSTD_decompress_insertDictionary, or_dictionary_corrupted at 1. destruct (zlen dict <? 8); [by intros [= <-]|].
  destruct (readLE32 dict 0) as [magic|e|]; cbn [bind]; [|done|done]. destruct (negb (magic =? ZSTD_MAGIC_DICTIONARY)); [by intros [= <-]|].
  destruct (readLE32 dict ZSTD_FRAMEIDSIZE) as [id|e|]; cbn [bind]; [|done|done].
  destruct (or_dictionary_corrupted _) as [[entropy eSize]|e|]; cbn [bind]; [|done|done]. by intros [= <-].
Qed.

Definition header_buffer_ok (dctx : frame_DCtx) : Prop :=
  zlen (sd_headerBuffer (fd_stage dctx)) = ZSTD_FRAMEHEADERSIZE_MAX /\ bytes_ok (sd_headerBuffer (fd_stage dctx)).

(** A context that has begun with [dict] can be given a frame. *)
Lemma begun_continue le dict ps cap d dctx dctx' :
  0 <= ps /\ 0 <= cap /\ ps + cap <= zlen d /\ zlen d < 2 ^ 58 -> bytes_ok d -> header_buffer_ok dctx -> set_searchable le (fd_dict dctx) ->
  begun dict (fd_block dctx') -> same_settings dctx dctx' -> fd_stage dctx' = fd_stage (ZSTD_decompressBegin dctx) ->
  continue_ok le dict ps cap d d ps dctx'.
Proof.
  intros Hdst Hd Hhb Hse Hbg Hs Est. split.
  - lia.
  - split; [apply outside_refl|done].
  - by eapply begun_ready.
  - intros _. left. by destruct Hbg.
  - rewrite Est. exact Hhb.
  - unfold stage_ok. rewrite Est. left. split; [|done]. cbn. destruct Hs as (-> & _). done.
  - by apply (set_searchable_same le dctx).
Qed.

(** A part of an input whose blocks [ZSTD_decompressContinue] accepts. *)
Definition part_limited (format : ZSTD_format_e) (p : input_part) : Prop :=
  match p with
  | Skipped _ _ => True
  | Framed fp windowLog size dictID bs _ => Forall (fb_limited (header_of format fp windowLog size dictID)) bs
  end.

Section part.
Context (le : bool) (format : ZSTD_format_e) (h : list Z) (ps cap : Z) (d : list Z) (pick : nat -> Z) (w : Z -> block_scratch) (known : Z) (fresh : kept -> Prop).
Hypothesis Hh : bytes_ok h /\ zlen h < 2 ^ 58.
Hypothesis Hdst : 0 <= ps /\ 0 <= cap /\ ps + cap <= zlen d /\ zlen d < 2 ^ 58.
Hypothesis Hd : bytes_ok d.
Hypothesis Hw : forall n, block_scratch_ok (w n).

Lemma part_feed p rest dctx dctx1 :
  header_buffer_ok dctx -> settings_ok format dctx ->
  begun h (fd_block dctx1) -> same_settings dctx dctx1 -> dctx_dictID (fd_dict dctx1) = known -> fresh (kept_of (fd_block dctx1)) ->
  fd_stage dctx1 = fd_stage (ZSTD_decompressBegin dctx) ->
  part_ok le format known fresh h p -> part_limited format p -> zlen (part_content p) <= cap -> bytes_ok rest ->
  exists d' dctx', feed le (ps + cap) pick w d ps (part_bytes format p ++ rest) dctx1 = Ok (d', ps + zlen (part_content p), rest, dctx') /\
    outside (ps + cap) d d' ps /\ zsub d' ps (zlen (part_content p)) = part_content p.
Proof.
  intros Hhb Hset Hbg Hs Eid Hfresh Est Hp Hlim Hcap Hrest. pose proof (settings_same format h Hh dctx dctx1 Hset Hs) as (Hfmt & _ & Hmulti).
  pose proof (begun_continue le h ps cap d dctx dctx1 Hdst Hd Hhb ltac:(by eapply settings_searchable) Hbg Hs Est) as Hok.
  assert (at_stage dctx1 ZSTDds_getFrameHeaderSize (ZSTD_startingInputLength format)) as Hst.
  { destruct Hset as (Hfmt0 & _). split; rewrite Est; cbn; by rewrite ?Hfmt0. }
  destruct p as [variant payload|fp windowLog size dictID bs content]; cbn [part_bytes part_content part_ok part_limited] in *.
  - destruct Hp as (-> & Hv & Hb & Hl). destruct (skippable_feed le h ps cap d pick w Hh Hdst Hw dctx1 variant payload rest) as (dctx' & E & _); try done.
    exists d, dctx'. change (zlen []) with 0. rewrite Z.add_0_r. split; [exact E|]. split; [apply outside_refl|done].
  - pose proof Hp as [Hwl [Hsz _] [Hid Hidk] _].
    destruct (frame_feed le h ps cap d pick w Hh Hdst Hw format fp windowLog size dictID Hwl Hsz Hid dctx1 fresh bs content rest) as (d' & dctx' & E & Hok' & Ec); try done.
    + split; try done. { rewrite Est. done. } by rewrite Eid.
    + by rewrite Eid.
    + exists d', dctx'. split; [exact E|]. split; [apply Hok'|exact Ec].
Qed.
End part.

(** ** Properties *)

(** C3: a frame that is given piece by piece is decoded to what it
    means. When a context has begun with a dictionary that is only a content, or with
    a digested one or none, and is given a frame, or a skippable frame, in the pieces that
    [ZSTD_nextSrcSizeToDecompressWithInputSize] asks for, with any number of bytes at hand at each turn
    (raw blocks are then given in parts), the loop takes the bytes of the frame and no more,
    ends with the next size to decompress equal to zero, and has written the content of
    the frame, which is what [ZSTD_decompress_usingDict] makes of it. The blocks must be
    within the block size of the header, which the one-shot functions only
    ask of compressed blocks. *)
Theorem ZSTD_decompressContinue_content le format d dctx ps cap p rest dict ddict pick wd w :
  dctx_memory (fd_block dctx) -> header_buffer_ok dctx -> settings_ok format dctx -> bytes_ok d -> (forall n, block_scratch_ok (w n)) ->
  0 <= ps /\ zlen (part_content p) <= cap /\ ps + cap <= zlen d /\ zlen d < 2 ^ 58 -> bytes_ok rest ->
  raw_dictionary dict -> (forall dd, ddict = Some dd -> DDict_ok dd /\ zlen (dd_dictContent dd) < 2 ^ 58) ->
  part_limited format p ->
  let decoded begin := exists dctx1 d' dctx', begin = Ok dctx1 /\
    feed le (ps + cap) pick w d ps (part_bytes format p ++ rest) dctx1 = Ok (d', ps + zlen (part_content p), rest, dctx') /\
    outside (ps + cap) d d' ps /\ zsub d' ps (zlen (part_content p)) = part_content p in
  (part_ok le format 0 (fresh_tables None) dict p -> decoded (ZSTD_decompressBegin_usingDict le dctx dict wd)) /\
  (part_ok le format (ddict_known ddict) (fresh_tables ddict) (ddict_history ddict) p -> decoded (Ok (ZSTD_decompressBegin_usingDDict dctx ddict))).
Proof.
  intros Hm Hhb Hset Hd Hw Hdst Hrest Hraw Hdd Hlim decoded. pose proof (zlen_nonneg (part_content p)).
  split; intros Hp; unfold decoded.
  - destruct (begin_raw le dict (fun _ => wd) dctx 0 Hraw Hm) as (dctx1 & E1 & Hbg & Hs & Eid & Hf). exists dctx1.
    destruct (part_feed le format dict ps cap d pick w 0 (fresh_tables None)) with (p := p) (rest := rest) (dctx := dctx) (dctx1 := dctx1) as (d' & dctx' & H'); try done.
    + split; apply Hraw.
    + lia.
    + by eapply frame_begin_stage.
    + lia.
    + by exists d', dctx'.
  - destruct (begin_digested le ddict (fun _ => wd) dctx 0) as (dctx1 & E1 & Hbg & Hs & Eid & Hf); [intros dd E; by apply Hdd|done|].
    assert (ZSTD_decompressBegin_usingDDict dctx ddict = dctx1) as -> by (cbn in E1; destruct ddict; by injection E1). exists dctx1.
    destruct (part_feed le format (ddict_history ddict) ps cap d pick w (ddict_known ddict) (fresh_tables ddict)) with (p := p) (rest := rest) (dctx := dctx) (dctx1 := dctx1)
      as (d' & dctx' & H'); try done.
    + destruct ddict as [dd|]; [|split; [apply Forall_nil_2|done]]. destruct (Hdd dd eq_refl) as [[H1 _] ?]. by split.
    + lia.
    + by eapply frame_begin_stage.
    + lia.
    + by exists d', dctx'.
Qed.

(** C4: the context of a streamed frame stays well formed. What has
    begun with any dictionary is well formed; and for a context that is, any input of the size that is
    asked for, and any memory of the workspaces, [ZSTD_decompressContinue] neither reads nor
    writes out of bounds: it fails or generates at most [dstCapacity] bytes, and in that
    case the context is well formed again: its stage and the size that it expects fit
    together, its tables can be used, its pointers are those of the segments of the output
    and its checksum is that of the output. The calls end: a caller that gives what is asked for
    stops, with what is left of its input, at the end of the frame. *)
Theorem ZSTD_decompressContinue_well_formed le d0 ps cap content :
  0 <= ps /\ 0 <= cap /\ ps + cap <= zlen d0 /\ zlen d0 < 2 ^ 58 -> bytes_ok d0 -> bytes_ok content /\ zlen content < 2 ^ 58 ->
  let well_formed := continue_ok le content ps cap d0 in
  (forall dctx dctx', header_buffer_ok dctx -> set_searchable le (fd_dict dctx) -> begun content (fd_block dctx') -> same_settings dctx dctx' ->
    (exists dict ddict wd, frame_begin le dctx dict ddict wd = Ok dctx') -> well_formed d0 ps dctx') /\
  (forall d op dctx src w, well_formed d op dctx -> bytes_ok src -> block_scratch_ok w ->
    (sd_stage (fd_stage dctx) = ZSTDds_getFrameHeaderSize -> ZSTD_nextSrcSizeToDecompress dctx <> 0) ->
    wp (ZSTD_decompressContinue le d dctx false op (ps + cap - op) src w)
      (fun '(d', n, dctx') => 0 <= n <= ps + cap - op /\ well_formed d' (op + n) dctx') any_error) /\
  (forall d op dctx src pick w, well_formed d op dctx -> bytes_ok src -> (forall n, block_scratch_ok (w n)) ->
    wp (feed le (ps + cap) pick w d op src dctx)
      (fun '(d', op', src', dctx') => well_formed d' op' dctx' /\ ZSTD_nextSrcSizeToDecompress dctx' = 0) any_error).
Proof.
  intros Hdst Hd Hc well_formed. split_and!.
  - intros dctx dctx' Hhb Hse Hbg Hs (dict & ddict & wd & E). apply (begun_continue le content ps cap d0 dctx); try done. by eapply frame_begin_stage.
  - intros d op dctx src w H Hsrc Hw Hne. by apply decompressContinue_ok.
  - intros d op dctx src pick w H Hsrc Hw. eapply wp_mono; [by apply (feed_ok le content ps cap d0 Hc Hdst pick w Hw)| |done].
    by intros [[[d' op'] src'] dctx'] [[H1 _] H2].
Qed.

Definition sample_part : input_part :=
  Framed (mkFrameParams true false true) 20 17 0 [Plain (RawBlock [65; 66; 67]); Plain (RleBlock 90 3); Packed sample_block]
    [65; 66; 67; 90; 90; 90; 97; 98; 99; 98; 99; 98; 99; 98; 99; 100; 101].

Lemma sample_part_ok : part_ok true ZSTD_f_zstd1 0 (fresh_tables None) [1; 2] sample_part.
Proof. pose proof sample_parts_ok as H. unfold sample_parts in H. apply Forall_cons in H as [_ H]. by apply Forall_cons in H as [H _]. Qed.

Lemma sample_header_buffer_ok : header_buffer_ok sample_frame_DCtx.
Proof. split; [reflexivity|by apply Forall_replicate]. Qed.

(** The pieces of two bytes at hand at each turn split the raw block. *)
Example sample_feed_trace :
  (let* dctx := ZSTD_decompressBegin_usingDict true sample_frame_DCtx [1; 2] sample_dict_scratch in
   let* '(d, op, src, dctx) := feed true 33 (fun _ => 2) (fun _ => sample_block_scratch) (zfill 40 5) 3 (part_bytes ZSTD_f_zstd1 sample_part ++ [9; 9]) dctx in
   Ok (zsub d 3 17, op, src, ZSTD_nextInputType dctx)) = Ok (part_content sample_part, 20, [9; 9], ZSTDnit_frameHeader).
Proof. vm_compute. reflexivity. Qed.

Lemma ZSTD_decompressContinue_content_witness :
  exists dctx1 d' dctx', ZSTD_decompressBegin_usingDict true sample_frame_DCtx [1; 2] sample_dict_scratch = Ok dctx1 /\
    feed true (3 + 30) (fun _ => 2) (fun _ => sample_block_scratch) (zfill 40 5) 3 (part_bytes ZSTD_f_zstd1 sample_part ++ [9; 9]) dctx1
      = Ok (d', 3 + zlen (part_content sample_part), [9; 9], dctx') /\
    outside (3 + 30) (zfill 40 5) d' 3 /\ zsub d' 3 (zlen (part_content sample_part)) = part_content sample_part.
Proof.
  destruct (ZSTD_decompressContinue_content true ZSTD_f_zstd1 (zfill 40 5) sample_frame_DCtx 3 30 sample_part [9; 9] [1; 2] None
    (fun _ => 2) sample_dict_scratch (fun _ => sample_block_scratch) sample_memory_ok sample_header_buffer_ok) as [H _].
  - done.
  - bytes_dec.
  - intros _. exact sample_block_scratch_ok.
  - vm_compute; repeat split; congruence.
  - bytes_dec.
  - split; [bytes_dec|]. split; [reflexivity|]. intros H. exfalso. revert H. by vm_compute.
  - intros dd [=].
  - repeat (constructor; [vm_compute; repeat split; congruence|]). constructor.
  - exact (H sample_part_ok).
Defined.

Lemma ZSTD_decompressContinue_well_formed_witness :
  exists dctx1, ZSTD_decompressBegin_usingDict true sample_frame_DCtx [1; 2] sample_dict_scratch = Ok dctx1 /\
    continue_ok true [1; 2] 3 30 (zfill 40 5) (zfill 40 5) 3 dctx1 /\
    wp (ZSTD_decompressContinue true (zfill 40 5) dctx1 false 3 (3 + 30 - 3) [0x28; 0xB5; 0x2F; 0xFD; 0x20] sample_block_scratch)
      (fun '(d', n, dctx') => 0 <= n <= 3 + 30 - 3 /\ continue_ok true [1; 2] 3 30 (zfill 40 5) d' (3 + n) dctx') any_error /\
    wp (feed true (3 + 30) (fun _ => 2) (fun _ => sample_block_scratch) (zfill 40 5) 3 (part_bytes ZSTD_f_zstd1 sample_part) dctx1)
      (fun '(d', op', src', dctx') => continue_ok true [1; 2] 3 30 (zfill 40 5) d' op' dctx' /\ ZSTD_nextSrcSizeToDecompress dctx' = 0) any_error.
Proof.
  destruct (ZSTD_decompressContinue_well_formed true (zfill 40 5) 3 30 [1; 2]) as (H1 & H2 & H3).
  - vm_compute; repeat split; congruence.
  - bytes_dec.
  - split; [bytes_dec|reflexivity].
  - destruct (begin_raw true [1; 2] (fun _ => sample_dict_scratch) sample_frame_DCtx 0) as (dctx1 & E1 & Hbg & Hs & _); [|exact sample_memory_ok|].
    { split; [bytes_dec|]. split; [reflexivity|]. intros H. exfalso. revert H. by vm_compute. }
    assert (continue_ok true [1; 2] 3 30 (zfill 40 5) (zfill 40 5) 3 dctx1) as H.
    { apply (H1 sample_frame_DCtx); [exact sample_header_buffer_ok|intros s id [=]|done|done|]. by exists [1; 2], None, sample_dict_scratch. }
    exists dctx1. split; [exact E1|]. split; [exact H|]. split.
    + apply H2; [exact H|bytes_dec|exact sample_block_scratch_ok|]. intros _. unfold ZSTD_nextSrcSizeToDecompress. by rewrite (frame_begin_stage _ _ _ _ _ _ E1).
    + apply H3; [exact H|bytes_dec|intros _; exact sample_block_scratch_ok].
Defined.

(** A frame whose header announces three bytes and whose only block is an empty one:
    the one-shot function compares the size of the content with that of the header, and
    [ZSTD_decompressContinue] does so only after a last block that is not empty. *)
Definition short_frame : list Z := [0x28; 0xB5; 0x2F; 0xFD; 0x20; 3; 1; 0; 0].
Lemma empty_last_block_skips_size_check :
  ZSTD_decompress_usingDict true (zfill 40 5) sample_frame_DCtx false 3 30 short_frame [] (fun _ => sample_dict_scratch) (fun _ => sample_block_scratch)
    = Err corruption_detected /\
  (let* dctx := ZSTD_decompressBegin_usingDict true sample_frame_DCtx [] sample_dict_scratch in
   let* '(_, op, src, dctx) := feed true 33 (fun _ => 2) (fun _ => sample_block_scratch) (zfill 40 5) 3 short_frame dctx in
   Ok (op, src, ZSTD_nextSrcSizeToDecompress dctx)) = Ok (3, [], 0).
Proof. split; vm_compute; reflexivity. Qed.

(** A raw block that is larger than the block size of the header: the window is one
    kilobyte, and the block is of two. *)
Definition wide_frame : list Z := [0x28; 0xB5; 0x2F; 0xFD; 0; 0] ++ block_bytes 1 bt_raw 2048 (zfill 2048 65).
Lemma wide_block_one_shot_only :
  (let* '(_, n, _) := ZSTD_decompress_usingDict true (zfill 2048 5) sample_frame_DCtx false 0 2048 wide_frame []
     (fun _ => sample_dict_scratch) (fun _ => sample_block_scratch) in Ok n) = Ok 2048 /\
  (let* dctx := ZSTD_decompressBegin_usingDict true sample_frame_DCtx [] sample_dict_scratch in
   feed true 2048 (fun _ => 2048) (fun _ => sample_block_scratch) (zfill 2048 5) 0 wide_frame dctx) = Err corruption_detected.
Proof. split; vm_compute; reflexivity. Qed.
