(* ===== verification/Pool.v ===== *)
(** The thread pool (common/pool.c, with ZSTD_MULTITHREAD): its queue, the worker
    threads and the callers of its functions, as a step relation. *)

From stdpp Require Import relations.
From S2P Require Import Prelude Errors Outcome.

(** ** Definitions *)

Section pool.
Context {Job : Type} `{!Inhabited Job}.

(** [POOL_ctx_s], but for the handles: the threads are in [pool_sys], and the
    mutex and the condition variables in the step relation. *)
Record POOL_ctx := mkPool {
  threadCapacity : Z;
  threadLimit : Z;
  pl_queue : list Job;
  queueHead : Z;
  queueTail : Z;
  queueSize : Z;
  numThreadsBusy : Z;
  queueEmpty : bool;
  shutdown : bool;
}.

(** [memory]: the two arrays could be allocated; [created]: the threads that could
    be created. None: NULL. *)
Definition POOL_create_advanced (numThreads queueSize : Z) (memory : bool) (created : Z) : option POOL_ctx :=
  if numThreads =? 0 then None
  else
    let size := u64 (queueSize + 1) in
    if negb memory then None
    else if created <? numThreads then None
    else Some (mkPool numThreads numThreads (zfill size inhabitant) 0 0 size 0 true false).

(** Whether a thread has nothing to do. *)
Definition POOL_thread_idle (ctx : POOL_ctx) : bool :=
  queueEmpty ctx || (numThreadsBusy ctx >=? threadLimit ctx).

(** Pop a job off the queue. *)
Definition POOL_thread_pop (ctx : POOL_ctx) : result (Job * POOL_ctx) :=
  let* job := rd (pl_queue ctx) (queueHead ctx) in
  let queueHead := u64 (queueHead ctx + 1) mod queueSize ctx in
  Ok (job, mkPool (threadCapacity ctx) (threadLimit ctx) (pl_queue ctx) queueHead (queueTail ctx) (queueSize ctx)
             (u64 (numThreadsBusy ctx + 1)) (queueHead =? queueTail ctx) (shutdown ctx)).

(** After the job. *)
Definition POOL_thread_done (ctx : POOL_ctx) : POOL_ctx :=
  mkPool (threadCapacity ctx) (threadLimit ctx) (pl_queue ctx) (queueHead ctx) (queueTail ctx) (queueSize ctx)
    (u64 (numThreadsBusy ctx - 1)) (queueEmpty ctx) (shutdown ctx).

Definition isQueueFull (ctx : POOL_ctx) : bool :=
  if queueSize ctx >? 1 then queueHead ctx =? u64 (queueTail ctx + 1) mod queueSize ctx
  else (numThreadsBusy ctx =? threadLimit ctx) || negb (queueEmpty ctx).

Definition POOL_add_internal (ctx : POOL_ctx) (job : Job) : result POOL_ctx :=
  if shutdown ctx then Ok ctx
  else
    let* queue := wr (pl_queue ctx) (queueTail ctx) job in
    Ok (mkPool (threadCapacity ctx) (threadLimit ctx) queue (queueHead ctx)
          (u64 (queueTail ctx + 1) mod queueSize ctx) (queueSize ctx)
          (numThreadsBusy ctx) false (shutdown ctx)).

(** [POOL_joinJobs] waits while this holds. *)
Definition POOL_jobs_left (ctx : POOL_ctx) : bool :=
  negb (queueEmpty ctx) || (numThreadsBusy ctx >? 0).

(** The start of [POOL_join]. *)
Definition POOL_shutdown (ctx : POOL_ctx) : POOL_ctx :=
  mkPool (threadCapacity ctx) (threadLimit ctx) (pl_queue ctx) (queueHead ctx) (queueTail ctx) (queueSize ctx)
    (numThreadsBusy ctx) (queueEmpty ctx) true.

Definition set_threads (ctx : POOL_ctx) (capacity limit : Z) : POOL_ctx :=
  mkPool capacity limit (pl_queue ctx) (queueHead ctx) (queueTail ctx) (queueSize ctx)
    (numThreadsBusy ctx) (queueEmpty ctx) (shutdown ctx).

(** [memory]: the new array could be allocated; [created]: how many of the
    additional threads can be created. The pool, the threads created, and 0 on
    success. *)
Definition POOL_resize_internal (ctx : POOL_ctx) (numThreads : Z) (memory : bool) (created : Z) : POOL_ctx * Z * Z :=
  if numThreads <=? threadCapacity ctx then
    if numThreads =? 0 then (ctx, 0, 1)
    else (set_threads ctx (threadCapacity ctx) numThreads, 0, 0)
  else if negb memory then (ctx, 0, 1)
  else if created <? numThreads - threadCapacity ctx then
    (set_threads ctx (threadCapacity ctx + created) (threadLimit ctx), created, 1)
  else (set_threads ctx numThreads numThreads, numThreads - threadCapacity ctx, 0).

(** *** Threads, callers and their interleaving *)

(** A worker in [POOL_thread]: about to hold the mutex and evaluate its condition,
    waiting on [queuePopCond], running a job, or returned. *)
Inductive thread_state := T_test | T_wait | T_run (job : Job) | T_exit.

(** The calls of a caller. *)
Inductive POOL_op :=
  | Op_add (job : Job)
  | Op_tryAdd (job : Job)
  | Op_joinJobs
  | Op_resize (numThreads : Z) (memory : bool) (created : Z)
  | Op_free.

(** A caller: about to hold the mutex for its first call, waiting on
    [queuePushCond] inside it, or inside [POOL_join], past the critical section. *)
Inductive client_phase := C_ready | C_wait | C_freePush | C_freePop | C_freeJoin (i : nat).
Record client := mkClient {
  cl_phase : client_phase;
  cl_ops : list POOL_op;
}.

(** The pool, its threads, its callers, and the jobs that were put in the queue,
    started and finished so far. *)
Record pool_sys := mkSys {
  ps_ctx : POOL_ctx;
  ps_threads : list thread_state;
  ps_clients : list client;
  ps_accepted : list Job;
  ps_started : list Job;
  ps_finished : list Job;
}.

Definition thread_waits (t : thread_state) : bool := match t with T_wait => true | _ => false end.
Definition client_waits (c : client) : bool := match cl_phase c with C_wait => true | _ => false end.
Definition thread_wake (t : thread_state) : thread_state := match t with T_wait => T_test | t => t end.
Definition client_wake (c : client) : client := if client_waits c then mkClient C_ready (cl_ops c) else c.

(** [ZSTD_pthread_cond_signal] wakes at least one of the waiters, if there is one. *)
Definition signal {A} (waits : A -> bool) (wake : A -> A) (l l' : list A) : Prop :=
  Forall2 (fun a a' => a' = a \/ a' = wake a) l l' /\
  (existsb waits l = true -> exists i a, l !! i = Some a /\ waits a = true /\ l' !! i = Some (wake a)).
(** [ZSTD_pthread_cond_broadcast] wakes them all: [map wake]. *)

(** A step is a critical section, from the lock of [queueMutex] to its release or
    to the wait that releases it, or what a thread does outside of them. *)
Inductive pool_step : pool_sys -> pool_sys -> Prop :=
  (* POOL_thread *)
  | S_exit ctx ts cs acc st fin i :
      ts !! i = Some T_test -> POOL_thread_idle ctx = true -> shutdown ctx = true ->
      pool_step (mkSys ctx ts cs acc st fin) (mkSys ctx (<[i := T_exit]> ts) cs acc st fin)
  | S_sleep ctx ts cs acc st fin i :
      ts !! i = Some T_test -> POOL_thread_idle ctx = true -> shutdown ctx = false ->
      pool_step (mkSys ctx ts cs acc st fin) (mkSys ctx (<[i := T_wait]> ts) cs acc st fin)
  | S_pop ctx ctx' ts cs cs' acc st fin i job :
      ts !! i = Some T_test -> POOL_thread_idle ctx = false -> POOL_thread_pop ctx = Ok (job, ctx') ->
      signal client_waits client_wake cs cs' ->
      pool_step (mkSys ctx ts cs acc st fin) (mkSys ctx' (<[i := T_run job]> ts) cs' acc (st ++ [job]) fin)
  | S_done ctx ts cs cs' acc st fin i job :
      ts !! i = Some (T_run job) -> signal client_waits client_wake cs cs' ->
      pool_step (mkSys ctx ts cs acc st fin) (mkSys (POOL_thread_done ctx) (<[i := T_test]> ts) cs' acc st (fin ++ [job]))
  (* POOL_add *)
  | S_add_wait ctx ts cs acc st fin i job ops :
      cs !! i = Some (mkClient C_ready (Op_add job :: ops)) -> isQueueFull ctx = true -> shutdown ctx = false ->
      pool_step (mkSys ctx ts cs acc st fin) (mkSys ctx ts (<[i := mkClient C_wait (Op_add job :: ops)]> cs) acc st fin)
  | S_add ctx ctx' ts ts' cs acc st fin i job ops :
      cs !! i = Some (mkClient C_ready (Op_add job :: ops)) -> isQueueFull ctx = false -> shutdown ctx = false ->
      POOL_add_internal ctx job = Ok ctx' -> signal thread_waits thread_wake ts ts' ->
      pool_step (mkSys ctx ts cs acc st fin) (mkSys ctx' ts' (<[i := mkClient C_ready ops]> cs) (acc ++ [job]) st fin)
  | S_add_shutdown ctx ts cs acc st fin i job ops :
      cs !! i = Some (mkClient C_ready (Op_add job :: ops)) -> shutdown ctx = true ->
      pool_step (mkSys ctx ts cs acc st fin) (mkSys ctx ts (<[i := mkClient C_ready ops]> cs) acc st fin)
  (* POOL_tryAdd *)
  | S_tryAdd_full ctx ts cs acc st fin i job ops :
      cs !! i = Some (mkClient C_ready (Op_tryAdd job :: ops)) -> isQueueFull ctx = true \/ shutdown ctx = true ->
      pool_step (mkSys ctx ts cs acc st fin) (mkSys ctx ts (<[i := mkClient C_ready ops]> cs) acc st fin)
  | S_tryAdd ctx ctx' ts ts' cs acc st fin i job ops :
      cs !! i = Some (mkClient C_ready (Op_tryAdd job :: ops)) -> isQueueFull ctx = false -> shutdown ctx = false ->
      POOL_add_internal ctx job = Ok ctx' -> signal thread_waits thread_wake ts ts' ->
      pool_step (mkSys ctx ts cs acc st fin) (mkSys ctx' ts' (<[i := mkClient C_ready ops]> cs) (acc ++ [job]) st fin)
  (* POOL_joinJobs *)
  | S_joinJobs_wait ctx ts cs acc st fin i ops :
      cs !! i = Some (mkClient C_ready (Op_joinJobs :: ops)) -> POOL_jobs_left ctx = true ->
      pool_step (mkSys ctx ts cs acc st fin) (mkSys ctx ts (<[i := mkClient C_wait (Op_joinJobs :: ops)]> cs) acc st fin)
  | S_joinJobs ctx ts cs acc st fin i ops :
      cs !! i = Some (mkClient C_ready (Op_joinJobs :: ops)) -> POOL_jobs_left ctx = false ->
      pool_step (mkSys ctx ts cs acc st fin) (mkSys ctx ts (<[i := mkClient C_ready ops]> cs) acc st fin)
  (* POOL_resize *)
  | S_resize ctx ctx' ts cs acc st fin i numThreads memory created new r ops :
      cs !! i = Some (mkClient C_ready (Op_resize numThreads memory created :: ops)) ->
      POOL_resize_internal ctx numThreads memory created = (ctx', new, r) ->
      pool_step (mkSys ctx ts cs acc st fin)
        (mkSys ctx' (map thread_wake (ts ++ replicate (Z.to_nat new) T_test)) (<[i := mkClient C_ready ops]> cs) acc st fin)
  (* POOL_join *)
  | S_free ctx ts cs acc st fin i ops :
      cs !! i = Some (mkClient C_ready (Op_free :: ops)) ->
      pool_step (mkSys ctx ts cs acc st fin) (mkSys (POOL_shutdown ctx) ts (<[i := mkClient C_freePush (Op_free :: ops)]> cs) acc st fin)
  | S_freePush ctx ts cs acc st fin i ops :
      cs !! i = Some (mkClient C_freePush (Op_free :: ops)) ->
      pool_step (mkSys ctx ts cs acc st fin)
        (mkSys ctx ts (<[i := mkClient C_freePop (Op_free :: ops)]> (map client_wake cs)) acc st fin)
  | S_freePop ctx ts cs acc st fin i ops :
      cs !! i = Some (mkClient C_freePop (Op_free :: ops)) ->
      pool_step (mkSys ctx ts cs acc st fin)
        (mkSys ctx (map thread_wake ts) (<[i := mkClient (C_freeJoin 0) (Op_free :: ops)]> cs) acc st fin)
  | S_freeJoin ctx ts cs acc st fin i k ops :
      cs !! i = Some (mkClient (C_freeJoin k) (Op_free :: ops)) -> Z.of_nat k < threadCapacity ctx -> ts !! k = Some T_exit ->
      pool_step (mkSys ctx ts cs acc st fin) (mkSys ctx ts (<[i := mkClient (C_freeJoin (S k)) (Op_free :: ops)]> cs) acc st fin)
  | S_freeDone ctx ts cs acc st fin i k ops :
      cs !! i = Some (mkClient (C_freeJoin k) (Op_free :: ops)) -> threadCapacity ctx <= Z.of_nat k ->
      pool_step (mkSys ctx ts cs acc st fin) (mkSys ctx ts (<[i := mkClient C_ready ops]> cs) acc st fin).

(** A wait may also end without a signal. *)
Inductive spurious_step : pool_sys -> pool_sys -> Prop :=
  | S_spurious_thread ctx ts cs acc st fin i :
      ts !! i = Some T_wait ->
      spurious_step (mkSys ctx ts cs acc st fin) (mkSys ctx (<[i := T_test]> ts) cs acc st fin)
  | S_spurious_client ctx ts cs acc st fin i ops :
      cs !! i = Some (mkClient C_wait ops) ->
      spurious_step (mkSys ctx ts cs acc st fin) (mkSys ctx ts (<[i := mkClient C_ready ops]> cs) acc st fin).

Definition any_step (s s' : pool_sys) : Prop := pool_step s s' \/ spurious_step s s'.

(** A new pool, with its callers. *)
Definition pool_start (ctx : POOL_ctx) (programs : list (list POOL_op)) : pool_sys :=
  mkSys ctx (replicate (Z.to_nat (threadCapacity ctx)) T_test) (map (mkClient C_ready) programs) [] [] [].

(** The jobs being run. *)
Definition running (ts : list thread_state) : list Job := omap (fun t => match t with T_run j => Some j | _ => None end) ts.

(** The arguments of the calls are words, and threads are created by numbers. *)
Definition op_ok (op : POOL_op) : Prop :=
  match op with Op_resize numThreads _ created => 0 <= numThreads < 2 ^ 64 /\ 0 <= created | _ => True end.

(** The queue holds the jobs [pending], oldest first. *)
Definition ring (ctx : POOL_ctx) (pending : list Job) : Prop :=
  zlen (pl_queue ctx) = queueSize ctx /\ 1 <= queueSize ctx < 2 ^ 64 /\
  0 <= queueHead ctx < queueSize ctx /\
  queueTail ctx = (queueHead ctx + zlen pending) mod queueSize ctx /\
  zlen pending <= Z.max 1 (queueSize ctx - 1) /\
  (forall i, 0 <= i < zlen pending -> zat (pl_queue ctx) ((queueHead ctx + i) mod queueSize ctx) = zat pending i) /\
  queueEmpty ctx = (zlen pending =? 0).

End pool.

#[global] Arguments POOL_ctx : clear implicits.
#[global] Arguments thread_state : clear implicits.
#[global] Arguments POOL_op : clear implicits.
#[global] Arguments client : clear implicits.
#[global] Arguments pool_sys : clear implicits.

(** ** Lemmas *)

(** *** The ring *)

Lemma wrap_mod a s : 0 < s -> 0 <= a < 2 * s -> a mod s = if a <? s then a else a - s.
Proof.
  intros Hs Ha. destruct (Z.ltb_spec a s); [apply Z.mod_small; lia|].
  rewrite <- (Z.mod_add a (-1)) by lia. rewrite Z.mod_small by lia. lia.
Qed.

Lemma zlen_snoc {A} (l : list A) x : zlen (l ++ [x]) = zlen l + 1.
Proof. rewrite zlen_app. done. Qed.

Section ring.
Context {Job : Type} `{!Inhabited Job}.
Implicit Types (ctx : POOL_ctx Job) (P : list Job).

Lemma ring_create n q memory created ctx :
  0 <= n -> 0 <= q < 2 ^ 64 - 1 -> POOL_create_advanced n q memory created = Some ctx ->
  ring ctx [] /\ numThreadsBusy ctx = 0 /\ shutdown ctx = false /\ threadCapacity ctx = n /\ threadLimit ctx = n /\ 1 <= n.
Proof.
  intros Hn Hq. unfold POOL_create_advanced. destruct (Z.eqb_spec n 0); [done|]. destruct memory; [|done]. cbn [negb].
  destruct (created <? n); [done|]. intros [= <-]. rewrite u64_small by lia. split; [|cbn; lia].
  unfold ring. cbn [pl_queue queueSize queueHead queueTail queueEmpty]. rewrite zlen_zfill by lia. change (zlen []) with 0.
  rewrite Z.add_0_r, Z.mod_0_l by lia. split_and!; try done; try lia.
Qed.

Lemma ring_full ctx P :
  ring ctx P -> isQueueFull ctx = false -> zlen P < Z.max 1 (queueSize ctx - 1).
Proof.
  intros (Hl & Hs & Hh & Ht & Hc & _ & He) Hf. pose proof (zlen_nonneg P). unfold isQueueFull in Hf. rewrite Z.gtb_ltb in Hf.
  destruct (Z.ltb_spec 1 (queueSize ctx)).
  - apply Z.eqb_neq in Hf. rewrite wrap_mod in Ht by lia.
    assert (0 <= queueTail ctx < queueSize ctx) as Ht0 by (rewrite Ht; destruct (Z.ltb_spec (queueHead ctx + zlen P) (queueSize ctx)); lia).
    rewrite u64_small, wrap_mod in Hf by lia. rewrite Ht in Hf.
    destruct (Z.ltb_spec (queueHead ctx + zlen P) (queueSize ctx)) as [H1|H1];
      [destruct (Z.ltb_spec (queueHead ctx + zlen P + 1) (queueSize ctx))|destruct (Z.ltb_spec (queueHead ctx + zlen P - queueSize ctx + 1) (queueSize ctx))]; lia.
  - apply orb_false_iff in Hf as [_ Hf]. rewrite He in Hf. destruct (Z.eqb_spec (zlen P) 0); [lia|done].
Qed.

(** What is full is not empty, or all the threads are busy. *)
Lemma ring_not_full ctx : 1 <= threadLimit ctx -> ring ctx [] -> numThreadsBusy ctx = 0 -> isQueueFull ctx = false.
Proof.
  intros Hlim (Hl & Hs & Hh & Ht & _ & _ & He) Hb. change (zlen []) with 0 in *. unfold isQueueFull. rewrite Z.gtb_ltb.
  destruct (Z.ltb_spec 1 (queueSize ctx)).
  - rewrite Z.add_0_r, Z.mod_small in Ht by lia. rewrite Ht, u64_small, wrap_mod by lia. apply Z.eqb_neq.
    destruct (Z.ltb_spec (queueHead ctx + 1) (queueSize ctx)); lia.
  - rewrite He, Hb, (proj2 (Z.eqb_neq 0 _)) by lia. done.
Qed.

(** The fields that the queue does not touch. *)
Definition same_threads ctx ctx' : Prop :=
  threadCapacity ctx' = threadCapacity ctx /\ threadLimit ctx' = threadLimit ctx /\ shutdown ctx' = shutdown ctx.

Lemma ring_add ctx P job :
  ring ctx P -> isQueueFull ctx = false -> shutdown ctx = false ->
  exists ctx', POOL_add_internal ctx job = Ok ctx' /\ ring ctx' (P ++ [job]) /\
    same_threads ctx ctx' /\ numThreadsBusy ctx' = numThreadsBusy ctx.
Proof.
  intros Hr Hf Hsh. pose proof (ring_full ctx P Hr Hf) as Hroom. destruct Hr as (Hl & Hs & Hh & Ht & Hc & Hq & He). pose proof (zlen_nonneg P).
  unfold POOL_add_internal. rewrite Hsh. set (s := queueSize ctx) in *. set (h := queueHead ctx) in *.
  assert (0 <= queueTail ctx < s) as Ht0 by (rewrite Ht; apply Z.mod_pos_bound; lia).
  rewrite wr_ok by lia. cbn [bind]. eexists. split; [done|]. split; [|done].
  unfold ring. cbn [pl_queue queueSize queueHead queueTail queueEmpty]. fold s h. rewrite zlen_zupd, zlen_snoc. split; [done|]. split; [done|]. split; [done|].
  split; [|split; [lia|split]].
  - rewrite u64_small by lia. rewrite Ht. rewrite Zplus_mod_idemp_l. f_equal. lia.
  - intros i Hi. pose proof (Z.mod_pos_bound (h + i) s ltac:(lia)). rewrite zat_zupd by lia.
    destruct (Z.eq_dec i (zlen P)) as [->|Hne].
    + rewrite Ht, Z.eqb_refl. rewrite zat_app_r by lia. by rewrite Z.sub_diag.
    + rewrite zat_app_l by lia. rewrite (proj2 (Z.eqb_neq _ _)); [apply Hq; lia|]. rewrite Ht, !wrap_mod by lia.
      destruct (Z.ltb_spec (h + i) s), (Z.ltb_spec (h + zlen P) s); lia.
  - symmetry. apply Z.eqb_neq. lia.
Qed.

Lemma ring_pop ctx P :
  ring ctx P -> POOL_thread_idle ctx = false -> 0 <= numThreadsBusy ctx < 2 ^ 64 - 1 ->
  exists job P' ctx', P = job :: P' /\ POOL_thread_pop ctx = Ok (job, ctx') /\ ring ctx' P' /\
    same_threads ctx ctx' /\ numThreadsBusy ctx' = numThreadsBusy ctx + 1.
Proof.
  intros (Hl & Hs & Hh & Ht & Hc & Hq & He) Hi Hb. unfold POOL_thread_idle in Hi. apply orb_false_iff in Hi as [Hi _]. rewrite He in Hi.
  destruct P as [|job P']; [done|]. exists job, P'. pose proof (zlen_nonneg P'). assert (zlen (job :: P') = zlen P' + 1) as El by (unfold zlen; cbn [length]; lia).
  rewrite El in *. unfold POOL_thread_pop. set (s := queueSize ctx) in *. set (h := queueHead ctx) in *.
  rewrite rd_ok by lia. cbn [bind]. cbv zeta. eexists. split; [done|]. split.
  - f_equal. f_equal. pose proof (Hq 0 ltac:(lia)) as E. rewrite Z.add_0_r, Z.mod_small in E by lia. by rewrite E.
  - rewrite (u64_small (h + 1)) by lia. split; [|split; [done|cbn; by rewrite u64_small by lia]].
    unfold ring. cbn [pl_queue queueSize queueHead queueTail queueEmpty]. fold s. split; [done|]. split; [done|].
    split; [apply Z.mod_pos_bound; lia|]. split; [|split; [lia|split]].
    + rewrite Ht, Zplus_mod_idemp_l. f_equal. lia.
    + intros i Hi'. rewrite Zplus_mod_idemp_l. pose proof (Hq (i + 1) ltac:(lia)) as E. rewrite zat_cons_S in E by lia.
      replace (h + 1 + i) with (h + (i + 1)) by lia. rewrite E. f_equal. lia.
    + rewrite Ht. destruct (Z.eqb_spec (zlen P') 0) as [E0|E0].
      * rewrite E0. apply Z.eqb_refl.
      * apply Z.eqb_neq. rewrite !wrap_mod by lia. destruct (Z.ltb_spec (h + 1) s), (Z.ltb_spec (h + (zlen P' + 1)) s); lia.
Qed.

(** The calls that leave the queue as it is. *)
Lemma ring_same ctx ctx' P :
  pl_queue ctx' = pl_queue ctx -> queueHead ctx' = queueHead ctx -> queueTail ctx' = queueTail ctx ->
  queueSize ctx' = queueSize ctx -> queueEmpty ctx' = queueEmpty ctx -> ring ctx P -> ring ctx' P.
Proof. unfold ring. by intros -> -> -> -> ->. Qed.

End ring.

(** *** Threads and waits *)

Section threads.
Context {Job : Type} `{!Inhabited Job}.
Implicit Types (ts : list (thread_state Job)) (t : thread_state Job).

Lemma running_insert ts i t t' :
  ts !! i = Some t -> exists R, running ts ≡ₚ running [t] ++ R /\ running (<[i := t']> ts) ≡ₚ running [t'] ++ R.
Proof.
  intros Hi. pose proof (lookup_lt_Some _ _ _ Hi). exists (running (take i ts) ++ running (drop (S i) ts)). unfold running. split.
  - rewrite <- (take_drop_middle ts i t Hi) at 1. change (t :: drop (S i) ts) with ([t] ++ drop (S i) ts).
    rewrite !omap_app. solve_Permutation.
  - rewrite insert_take_drop by done. change (t' :: drop (S i) ts) with ([t'] ++ drop (S i) ts).
    rewrite !omap_app. solve_Permutation.
Qed.

Lemma running_wake ts ts' : Forall2 (fun t t' => t' = t \/ t' = thread_wake t) ts ts' -> running ts' = running ts.
Proof. induction 1 as [|t t' l l' H _ IH]; [done|]. unfold running in *. cbn. destruct H as [->| ->], t; cbn; congruence. Qed.

Lemma running_map_wake ts : running (map thread_wake ts) = running ts.
Proof. apply running_wake. induction ts; constructor; auto. Qed.

Lemma running_new ts n : running (ts ++ replicate n T_test) = running ts.
Proof.
  unfold running. rewrite omap_app. rewrite <- (app_nil_r (omap _ ts)) at 2. f_equal. induction n as [|n IH]; [done|]. cbn. done.
Qed.

Lemma signal_length {A} (waits : A -> bool) wake l l' : signal waits wake l l' -> length l' = length l.
Proof. intros [H _]. symmetry. by apply Forall2_length in H. Qed.

Lemma running_length ts : zlen (running ts) <= zlen ts.
Proof. unfold zlen, running. induction ts as [|t l IH]; [done|]. cbn. destruct t; cbn; lia. Qed.

End threads.

(** *** The invariant *)

Ltac sysn := cbn [ps_ctx ps_threads ps_clients ps_accepted ps_started ps_finished] in *.

Section invariant.
Context {Job : Type} `{!Inhabited Job}.

(** [pending] are the jobs in the queue. *)
Record pool_inv (s : pool_sys Job) (pending : list Job) : Prop := {
  pi_ring : ring (ps_ctx s) pending;
  pi_log : ps_accepted s = ps_started s ++ pending;
  pi_runs : ps_started s ≡ₚ ps_finished s ++ running (ps_threads s);
  pi_busy : numThreadsBusy (ps_ctx s) = zlen (running (ps_threads s));
  pi_limit : 1 <= threadLimit (ps_ctx s) <= threadCapacity (ps_ctx s);
  pi_cap : threadCapacity (ps_ctx s) = zlen (ps_threads s) /\ zlen (ps_threads s) < 2 ^ 64;
  pi_ops : Forall (fun c => Forall op_ok (cl_ops c)) (ps_clients s);
}.

Lemma ops_insert (cs : list (client Job)) i c c' :
  Forall (fun c => Forall op_ok (cl_ops c)) cs -> cs !! i = Some c -> (Forall op_ok (cl_ops c) -> Forall op_ok (cl_ops c')) ->
  Forall (fun c => Forall op_ok (cl_ops c)) (<[i := c']> cs).
Proof. intros H Hi Hc. apply Forall_insert; [done|]. apply Hc. by apply (Forall_lookup_1 _ _ _ _ H Hi). Qed.

Lemma ops_wake (cs cs' : list (client Job)) :
  Forall2 (fun c c' => c' = c \/ c' = client_wake c) cs cs' -> Forall (fun c => Forall op_ok (cl_ops c)) cs -> Forall (fun c => Forall op_ok (cl_ops c)) cs'.
Proof.
  induction 1 as [|c c' l l' H _ IH]; [done|]. intros [Hc Hl]%Forall_cons. constructor; [|auto].
  unfold client_wake in H. destruct H as [->| ->]; [done|]. by destruct (client_waits c).
Qed.

Lemma ops_map_wake (cs : list (client Job)) : Forall (fun c => Forall op_ok (cl_ops c)) cs -> Forall (fun c => Forall op_ok (cl_ops c)) (map client_wake cs).
Proof. apply ops_wake. induction cs; constructor; auto. Qed.

(** A worker that starts or ends nothing. *)
Lemma running_quiet (ts : list (thread_state Job)) i t t' :
  ts !! i = Some t -> running [t] = [] -> running [t'] = [] -> running (<[i := t']> ts) ≡ₚ running ts.
Proof. intros Hi H1 H2. destruct (running_insert ts i t t' Hi) as (R & E1 & E2). rewrite E1, E2, H1, H2. done. Qed.

Lemma zlen_perm {A} (l l' : list A) : l ≡ₚ l' -> zlen l = zlen l'.
Proof. intros H. unfold zlen. by rewrite H. Qed.

Lemma zlen_insert {A} (l : list A) i x : zlen (<[i := x]> l) = zlen l.
Proof. unfold zlen. by rewrite length_insert. Qed.

(** Threads move, and none starts or ends a job. *)
Lemma inv_threads ctx ts ts' cs cs' acc st fin pending :
  pool_inv (mkSys ctx ts cs acc st fin) pending -> running ts' ≡ₚ running ts -> length ts' = length ts ->
  Forall (fun c => Forall op_ok (cl_ops c)) cs' -> pool_inv (mkSys ctx ts' cs' acc st fin) pending.
Proof.
  intros [H1 H2 H3 H4 H5 H6 H7] Hr Hl Hc. sysn. assert (zlen ts' = zlen ts) as El by (unfold zlen; by rewrite Hl).
  split; sysn; try done; [by rewrite Hr|by rewrite (zlen_perm _ _ Hr)|by rewrite El].
Qed.

Lemma resize_inv ctx n memory created ctx' new r pending cs ts acc st fin :
  pool_inv (mkSys ctx ts cs acc st fin) pending -> 0 <= n < 2 ^ 64 -> 0 <= created ->
  POOL_resize_internal ctx n memory created = (ctx', new, r) ->
  0 <= new /\ new <= n /\ ring ctx' pending /\ numThreadsBusy ctx' = numThreadsBusy ctx /\ shutdown ctx' = shutdown ctx /\
  1 <= threadLimit ctx' <= threadCapacity ctx' /\ threadCapacity ctx' = threadCapacity ctx + new /\ threadCapacity ctx + new < 2 ^ 64.
Proof.
  intros [H1 H2 H3 H4 H5 [H6 H6'] H7] Hn Hcr. sysn. pose proof (zlen_nonneg ts). unfold POOL_resize_internal.
  destruct (Z.leb_spec n (threadCapacity ctx)).
  - destruct (Z.eqb_spec n 0); intros [= <- <- <-]; [split_and!; done || lia|]. split; [lia|]. split; [lia|].
    split; [by eapply ring_same; [..|exact H1]|]. cbn. split_and!; done || lia.
  - destruct memory; cbn [negb]; [|intros [= <- <- <-]; split_and!; done || lia].
    destruct (Z.ltb_spec created (n - threadCapacity ctx)); intros [= <- <- <-]; (split; [lia|]); (split; [lia|]);
      (split; [by eapply ring_same; [..|exact H1]|]); cbn; split_and!; done || lia.
Qed.

Lemma running_start (ts : list (thread_state Job)) i job :
  ts !! i = Some T_test -> running (<[i := T_run job]> ts) ≡ₚ running ts ++ [job] /\ zlen (running ts) + 1 <= zlen ts.
Proof.
  intros Hi. destruct (running_insert ts i T_test (T_run job) Hi) as (R & E1 & E2).
  assert (running (<[i := T_run job]> ts) ≡ₚ running ts ++ [job]) as E by (rewrite E1, E2; cbn; solve_Permutation).
  split; [done|]. pose proof (running_length (<[i := T_run job]> ts)) as H. rewrite zlen_insert, (zlen_perm _ _ E), zlen_snoc in H. lia.
Qed.

Lemma running_stop (ts : list (thread_state Job)) i job :
  ts !! i = Some (T_run job) -> running ts ≡ₚ job :: running (<[i := T_test]> ts).
Proof. intros Hi. destruct (running_insert ts i (T_run job) T_test Hi) as (R & E1 & E2). rewrite E1, E2. done. Qed.

Lemma pop_inv ctx ts cs cs' acc st fin pending i :
  pool_inv (mkSys ctx ts cs acc st fin) pending -> ts !! i = Some T_test -> POOL_thread_idle ctx = false ->
  signal client_waits client_wake cs cs' ->
  exists job pending' ctx', pending = job :: pending' /\ POOL_thread_pop ctx = Ok (job, ctx') /\ same_threads ctx ctx' /\
    pool_inv (mkSys ctx' (<[i := T_run job]> ts) cs' acc (st ++ [job]) fin) pending'.
Proof.
  intros [H1 H2 H3 H4 H5 [H6 H6'] H7] Hi Hidle [Hcs _]. sysn. pose proof (zlen_nonneg (running ts)).
  destruct (ring_pop ctx pending H1 Hidle) as (job & P' & ctx' & -> & E & Hr & Hst & Hb); [destruct (running_start ts i inhabitant Hi); lia|].
  destruct (running_start ts i job Hi) as [Hrun _]. pose proof Hst as (Hc & Hl & Hsh).
  exists job, P', ctx'. split; [done|]. split; [done|]. split; [done|]. split; sysn.
  - done.
  - by rewrite H2, <- app_assoc.
  - rewrite Hrun, H3. solve_Permutation.
  - rewrite Hb, H4, (zlen_perm _ _ Hrun), zlen_snoc. done.
  - lia.
  - rewrite zlen_insert. lia.
  - by eapply ops_wake.
Qed.

Lemma done_inv ctx ts cs cs' acc st fin pending i job :
  pool_inv (mkSys ctx ts cs acc st fin) pending -> ts !! i = Some (T_run job) -> signal client_waits client_wake cs cs' ->
  pool_inv (mkSys (POOL_thread_done ctx) (<[i := T_test]> ts) cs' acc st (fin ++ [job])) pending /\
  numThreadsBusy (POOL_thread_done ctx) = numThreadsBusy ctx - 1 /\ 1 <= numThreadsBusy ctx.
Proof.
  intros [H1 H2 H3 H4 H5 [H6 H6'] H7] Hi [Hcs _]. sysn. pose proof (running_stop ts i job Hi) as Hrun.
  pose proof (zlen_perm _ _ Hrun) as El. change (zlen (job :: running (<[i:=T_test]> ts))) with (Z.of_nat (S (length (running (<[i:=T_test]> ts))))) in El.
  assert (zlen (running ts) = zlen (running (<[i:=T_test]> ts)) + 1) as El' by (unfold zlen at 2; lia). pose proof (zlen_nonneg (running (<[i:=T_test]> ts))).
  pose proof (running_length ts). assert (numThreadsBusy (POOL_thread_done ctx) = numThreadsBusy ctx - 1) as Hb by (cbn; rewrite u64_small; lia).
  split; [|lia]. split; sysn; try done.
  - rewrite H3, Hrun. solve_Permutation.
  - lia.
  - rewrite zlen_insert. done.
  - by eapply ops_wake.
Qed.

Lemma add_inv ctx ts ts' cs acc st fin pending i job op ops :
  pool_inv (mkSys ctx ts cs acc st fin) pending -> cs !! i = Some (mkClient C_ready (op :: ops)) ->
  isQueueFull ctx = false -> shutdown ctx = false -> signal thread_waits thread_wake ts ts' ->
  exists ctx', POOL_add_internal ctx job = Ok ctx' /\ same_threads ctx ctx' /\ numThreadsBusy ctx' = numThreadsBusy ctx /\
    pool_inv (mkSys ctx' ts' (<[i := mkClient C_ready ops]> cs) (acc ++ [job]) st fin) (pending ++ [job]).
Proof.
  intros [H1 H2 H3 H4 H5 [H6 H6'] H7] Hi Hf Hsh Hs. sysn. pose proof (signal_length _ _ _ _ Hs) as Hlen. destruct Hs as [Hts _].
  destruct (ring_add ctx pending job H1 Hf Hsh) as (ctx' & E & Hr & (Hc & Hl & Hsh') & Hb). exists ctx'. split; [done|]. split; [done|]. split; [done|].
  assert (zlen ts' = zlen ts) as Ets by (unfold zlen; by rewrite Hlen).
  split; sysn.
  - done.
  - by rewrite H2, app_assoc.
  - by rewrite (running_wake ts ts').
  - by rewrite (running_wake ts ts'), Hb.
  - lia.
  - lia.
  - eapply ops_insert; [done|done|]. cbn. by intros [_ ?]%Forall_cons.
Qed.

(** A caller goes on, and the queue and the threads stay as they are. *)
Lemma client_inv ctx ctx' ts cs acc st fin pending i c c' :
  pool_inv (mkSys ctx ts cs acc st fin) pending -> cs !! i = Some c -> (Forall op_ok (cl_ops c) -> Forall op_ok (cl_ops c')) ->
  ctx' = ctx \/ ctx' = POOL_shutdown ctx -> pool_inv (mkSys ctx' ts (<[i := c']> cs) acc st fin) pending.
Proof.
  intros [H1 H2 H3 H4 H5 H6 H7] Hi Hc Hctx. sysn. assert (Forall (fun c => Forall op_ok (cl_ops c)) (<[i := c']> cs)) by (by eapply ops_insert).
  by destruct Hctx as [->| ->].
Qed.

Lemma resize_step_inv ctx ts cs acc st fin pending i n memory created ctx' new r ops :
  pool_inv (mkSys ctx ts cs acc st fin) pending -> cs !! i = Some (mkClient C_ready (Op_resize n memory created :: ops)) ->
  POOL_resize_internal ctx n memory created = (ctx', new, r) ->
  pool_inv (mkSys ctx' (map thread_wake (ts ++ replicate (Z.to_nat new) T_test)) (<[i := mkClient C_ready ops]> cs) acc st fin) pending /\
  0 <= new <= n /\ numThreadsBusy ctx' = numThreadsBusy ctx /\ shutdown ctx' = shutdown ctx.
Proof.
  intros Hinv Hi E. pose proof (pi_ops _ _ Hinv) as Hops. sysn. pose proof (Forall_lookup_1 _ _ _ _ Hops Hi) as Hop. cbn in Hop.
  apply Forall_cons in Hop as [[Hn Hcr] _].
  destruct (resize_inv _ _ _ _ _ _ _ _ _ _ _ _ _ Hinv Hn Hcr E) as (Hnew & Hnn & Hr & Hb & Hsh & Hlim & Hcap & H64).
  destruct Hinv as [H1 H2 H3 H4 H5 [H6 H6'] H7]. sysn.
  assert (zlen (map thread_wake (ts ++ replicate (Z.to_nat new) T_test)) = zlen ts + new) as El.
  { unfold zlen. rewrite length_map, length_app, length_replicate. lia. }
  split; [|split_and!; done || lia]. split; sysn.
  - done.
  - done.
  - by rewrite running_map_wake, running_new.
  - by rewrite running_map_wake, running_new, Hb.
  - done.
  - lia.
  - eapply ops_insert; [done|done|]. cbn. by intros [_ ?]%Forall_cons.
Qed.

Lemma pool_step_inv s s' pending : pool_inv s pending -> any_step s s' -> exists pending', pool_inv s' pending'.
Proof.
  intros Hinv [Hs|Hs].
  - destruct Hs as [ctx ts cs acc st fin i Hi|ctx ts cs acc st fin i Hi|ctx ctx' ts cs cs' acc st fin i job Hi Hidle E Hsig
      |ctx ts cs cs' acc st fin i job Hi Hsig|ctx ts cs acc st fin i job ops Hi|ctx ctx' ts ts' cs acc st fin i job ops Hi Hf Hsh E Hsig
      |ctx ts cs acc st fin i job ops Hi|ctx ts cs acc st fin i job ops Hi|ctx ctx' ts ts' cs acc st fin i job ops Hi Hf Hsh E Hsig
      |ctx ts cs acc st fin i ops Hi|ctx ts cs acc st fin i ops Hi|ctx ctx' ts cs acc st fin i n mem created new r ops Hi E
      |ctx ts cs acc st fin i ops Hi|ctx ts cs acc st fin i ops Hi|ctx ts cs acc st fin i ops Hi|ctx ts cs acc st fin i k ops Hi|ctx ts cs acc st fin i k ops Hi];
      pose proof (pi_ops _ _ Hinv) as Hops; sysn.
    + exists pending. eapply inv_threads; [exact Hinv|by eapply running_quiet|by rewrite length_insert|done].
    + exists pending. eapply inv_threads; [exact Hinv|by eapply running_quiet|by rewrite length_insert|done].
    + destruct (pop_inv _ _ _ _ _ _ _ _ _ Hinv Hi Hidle Hsig) as (job' & P' & ctx2 & _ & E' & _ & Hinv'). rewrite E in E'. simplify_eq. by exists P'.
    + exists pending. by apply (done_inv _ _ _ _ _ _ _ _ _ _ Hinv).
    + exists pending. eapply client_inv; [exact Hinv|done| |by left]. done.
    + destruct (add_inv _ _ _ _ _ _ _ _ _ job _ _ Hinv Hi Hf Hsh Hsig) as (ctx2 & E' & _ & _ & Hinv'). rewrite E in E'. simplify_eq. by eexists.
    + exists pending. eapply client_inv; [exact Hinv|done| |by left]. cbn. by intros [_ ?]%Forall_cons.
    + exists pending. eapply client_inv; [exact Hinv|done| |by left]. cbn. by intros [_ ?]%Forall_cons.
    + destruct (add_inv _ _ _ _ _ _ _ _ _ job _ _ Hinv Hi Hf Hsh Hsig) as (ctx2 & E' & _ & _ & Hinv'). rewrite E in E'. simplify_eq. by eexists.
    + exists pending. eapply client_inv; [exact Hinv|done| |by left]. done.
    + exists pending. eapply client_inv; [exact Hinv|done| |by left]. cbn. by intros [_ ?]%Forall_cons.
    + exists pending. by apply (resize_step_inv _ _ _ _ _ _ _ _ _ _ _ _ _ _ _ Hinv Hi E).
    + exists pending. eapply client_inv; [exact Hinv|done| |by right]. done.
    + exists pending. eapply (client_inv _ _ _ (map client_wake cs)); [|by rewrite list_lookup_fmap, Hi| |by left]; [|done].
      eapply inv_threads; [exact Hinv|done|done|by apply ops_map_wake].
    + exists pending. eapply (client_inv _ _ (map thread_wake ts)); [|done| |by left]; [|done].
      eapply inv_threads; [exact Hinv|by rewrite running_map_wake|by rewrite length_map|done].
    + exists pending. eapply client_inv; [exact Hinv|done| |by left]. done.
    + exists pending. eapply client_inv; [exact Hinv|done| |by left]. cbn. by intros [_ ?]%Forall_cons.
  - destruct Hs as [ctx ts cs acc st fin i Hi|ctx ts cs acc st fin i ops Hi]; exists pending.
    + eapply inv_threads; [exact Hinv|by eapply running_quiet|by rewrite length_insert|apply (pi_ops _ _ Hinv)].
    + eapply client_inv; [exact Hinv|done| |by left]. done.
Qed.

Lemma start_inv ctx programs n q memory created :
  0 <= n < 2 ^ 64 -> 0 <= q < 2 ^ 64 - 1 -> POOL_create_advanced n q memory created = Some ctx ->
  Forall (Forall op_ok) programs -> pool_inv (pool_start ctx programs) [].
Proof.
  intros Hn Hq E Hp. destruct (ring_create n q memory created ctx ltac:(lia) Hq E) as (Hr & Hb & Hsh & Hc & Hl & Hn1).
  assert (running (replicate (Z.to_nat (threadCapacity ctx)) (@T_test Job)) = []) as Hrun by (induction (Z.to_nat _) as [|k IH]; [done|exact IH]).
  unfold pool_start. split; sysn; try done.
  - by rewrite Hrun.
  - by rewrite Hrun, Hb.
  - lia.
  - unfold zlen. rewrite length_replicate. lia.
  - apply Forall_map. done.
Qed.

Lemma reachable_inv s s' pending : pool_inv s pending -> rtc any_step s s' -> exists pending', pool_inv s' pending'.
Proof. intros Hinv Hs. revert pending Hinv. induction Hs as [|s s1 s' H _ IH]; [eauto|]. intros pending Hinv. destruct (pool_step_inv _ _ _ Hinv H) as [P' HP']. eauto. Qed.

End invariant.

(** ** Properties *)

(** C29: every job that the pool accepts is started once, in the order of the
    calls, and [POOL_joinJobs] returns only when all of them are finished. For any
    number of threads and callers of [POOL_add], [POOL_tryAdd], [POOL_joinJobs],
    [POOL_resize] and [POOL_free], any interleaving of their critical sections
    and any wakeups, spurious ones included: the circular buffer holds exactly the
    jobs accepted and not started, [numThreadsBusy] is the number of threads that
    run a job, adding and popping stay inside the buffer when their conditions
    hold, and when the condition of [POOL_joinJobs] ends, the jobs finished are the
    jobs accepted. *)
Theorem POOL_jobs_once {Job} `{!Inhabited Job} n q memory created ctx (programs : list (list (POOL_op Job))) s :
  0 <= n < 2 ^ 64 -> 0 <= q < 2 ^ 64 - 1 -> POOL_create_advanced n q memory created = Some ctx ->
  Forall (Forall op_ok) programs -> rtc any_step (pool_start ctx programs) s ->
  exists pending, ring (ps_ctx s) pending /\ ps_accepted s = ps_started s ++ pending /\
    ps_started s ≡ₚ ps_finished s ++ running (ps_threads s) /\
    numThreadsBusy (ps_ctx s) = zlen (running (ps_threads s)) /\ threadCapacity (ps_ctx s) = zlen (ps_threads s) /\
    (forall job, isQueueFull (ps_ctx s) = false -> exists ctx', POOL_add_internal (ps_ctx s) job = Ok ctx') /\
    (forall i, ps_threads s !! i = Some T_test -> POOL_thread_idle (ps_ctx s) = false ->
       exists job ctx', POOL_thread_pop (ps_ctx s) = Ok (job, ctx')) /\
    (POOL_jobs_left (ps_ctx s) = false -> ps_finished s ≡ₚ ps_accepted s).
Proof.
  intros Hn Hq E Hp Hs. destruct (reachable_inv _ s [] (start_inv ctx programs n q memory created Hn Hq E Hp) Hs) as (pending & Hinv).
  pose proof Hinv as [H1 H2 H3 H4 H5 [H6 H6'] H7]. exists pending. split; [done|]. split; [done|]. split; [done|]. split; [done|]. split; [done|]. split; [|split].
  - intros job Hf. destruct (shutdown (ps_ctx s)) eqn:Hsh; [unfold POOL_add_internal; rewrite Hsh; eauto|].
    destruct (ring_add _ pending job H1 Hf Hsh) as (ctx' & ? & _). eauto.
  - intros i Hi Hidle. destruct (running_start _ i inhabitant Hi). pose proof (zlen_nonneg (running (ps_threads s))).
    destruct (ring_pop _ pending H1 Hidle) as (job & _ & ctx' & _ & ? & _); [lia|]. eauto.
  - unfold POOL_jobs_left. rewrite orb_false_iff, negb_false_iff, Z.gtb_ltb, Z.ltb_ge. intros [He Hb].
    destruct H1 as (_ & _ & _ & _ & _ & _ & Hem). rewrite Hem in He. apply Z.eqb_eq in He.
    assert (pending = []) as -> by (destruct pending; [done|unfold zlen in He; cbn in He; lia]).
    assert (running (ps_threads s) = []) as Hr by (destruct (running (ps_threads s)); [done|rewrite H4 in Hb; unfold zlen in Hb; cbn in Hb; lia]).
    by rewrite H2, H3, Hr, !app_nil_r.
Qed.

Lemma POOL_jobs_once_witness :
  exists ctx s, POOL_create_advanced 1 1 true 1 = Some ctx /\
    rtc any_step (pool_start ctx [[Op_add 7%nat; Op_joinJobs]]) s /\
    exists pending, ring (ps_ctx s) pending /\ ps_accepted s = ps_started s ++ pending /\
      ps_started s ≡ₚ ps_finished s ++ running (ps_threads s) /\
      numThreadsBusy (ps_ctx s) = zlen (running (ps_threads s)) /\ threadCapacity (ps_ctx s) = zlen (ps_threads s) /\
      (forall job, isQueueFull (ps_ctx s) = false -> exists ctx', POOL_add_internal (ps_ctx s) job = Ok ctx') /\
      (forall i, ps_threads s !! i = Some T_test -> POOL_thread_idle (ps_ctx s) = false ->
         exists job ctx', POOL_thread_pop (ps_ctx s) = Ok (job, ctx')) /\
      (POOL_jobs_left (ps_ctx s) = false -> ps_finished s ≡ₚ ps_accepted s).
Proof.
  eexists _, _. split; [reflexivity|].
  assert (rtc any_step (pool_start (mkPool 1 1 [0%nat; 0%nat] 0 0 2 0 true false) [[Op_add 7%nat; Op_joinJobs]])
    (mkSys (mkPool 1 1 [7%nat; 0%nat] 1 1 2 1 true false) [T_run 7%nat] [mkClient C_ready [Op_joinJobs]] [7%nat] [7%nat] [])) as Hs.
  { eapply rtc_l; [left; eapply (S_add _ _ _ [T_test] _ _ _ _ 0%nat); [reflexivity|reflexivity|reflexivity|reflexivity|split; [repeat constructor|done]]|].
    eapply rtc_l; [left; eapply (S_pop _ _ _ _ [mkClient C_ready [Op_joinJobs]] _ _ _ 0%nat); [reflexivity|reflexivity|reflexivity|split; [repeat constructor|done]]|].
    apply rtc_refl. }
  split; [exact Hs|].
  apply (POOL_jobs_once 1 1 true 1 (mkPool 1 1 [0%nat; 0%nat] 0 0 2 0 true false) [[Op_add 7%nat; Op_joinJobs]]);
    [lia|lia|reflexivity|repeat constructor|exact Hs].
Defined.
