(* ===== verification/PoolLive.v ===== *)
(** Liveness of the thread pool (common/pool.c): with one caller, as its users have
    it, every schedule ends with all the jobs done, without any spurious wakeup;
    with two, a signal can be lost. *)

From stdpp Require Import relations.
From S2P Require Import Prelude Errors Outcome Pool.

(** ** Definitions *)

(** [P] holds after finitely many steps, whatever the choices. *)
Inductive inevitably {A} (R : A -> A -> Prop) (P : A -> Prop) (a : A) : Prop :=
  | inev_now : P a -> inevitably R P a
  | inev_later : (exists b, R a b) -> (forall b, R a b -> inevitably R P b) -> inevitably R P a.

Section live.
Context {Job : Type} `{!Inhabited Job}.
Implicit Types (ops : list (POOL_op Job)) (ts : list (thread_state Job)) (c : client Job).

(** The jobs that the calls of a caller put in the queue. *)
Inductive accepts : list (POOL_op Job) -> list Job -> Prop :=
  | acc_nil : accepts [] []
  | acc_add job ops l : accepts ops l -> accepts (Op_add job :: ops) (job :: l)
  | acc_tryAdd job ops l : accepts ops l -> accepts (Op_tryAdd job :: ops) (job :: l)
  | acc_tryAdd_full job ops l : accepts ops l -> accepts (Op_tryAdd job :: ops) l
  | acc_joinJobs ops l : accepts ops l -> accepts (Op_joinJobs :: ops) l
  | acc_resize n memory created ops l : accepts ops l -> accepts (Op_resize n memory created :: ops) l
  | acc_free ops l : accepts ops l -> accepts (Op_free :: ops) l.

(** [POOL_free] is the last call, if it is one. *)
Fixpoint free_last ops : Prop :=
  match ops with
  | [] => True
  | [Op_free] => True
  | Op_free :: _ => False
  | _ :: ops => free_last ops
  end.

(** The threads that the calls may create. *)
Fixpoint resizes ops : Z :=
  match ops with
  | [] => 0
  | Op_resize n _ _ :: ops => n + resizes ops
  | _ :: ops => resizes ops
  end.

(** What the caller has seen of its pool is still so. *)
Definition client_ok (ctx : POOL_ctx Job) ts c : Prop :=
  match cl_phase c with
  | C_ready => shutdown ctx = false /\ free_last (cl_ops c) \/
      shutdown ctx = true /\ cl_ops c = [] /\ Forall (eq T_exit) ts
  | C_wait => shutdown ctx = false /\ free_last (cl_ops c) /\
      match cl_ops c with
      | Op_add _ :: _ => isQueueFull ctx = true
      | Op_joinJobs :: _ => POOL_jobs_left ctx = true
      | _ => False
      end
  | C_freePush | C_freePop => shutdown ctx = true /\ cl_ops c = [Op_free]
  | C_freeJoin k => shutdown ctx = true /\ cl_ops c = [Op_free] /\ (k <= length ts)%nat /\
      (forall i, ts !! i <> Some T_wait) /\ (forall i, (i < k)%nat -> ts !! i = Some T_exit)
  end.

Definition active ts : Prop := exists i t, ts !! i = Some t /\ t <> T_wait /\ t <> T_exit.

(** A pool with one caller, which began with the calls [prog]; [B] bounds the number
    of threads. *)
Record pool_live (B : Z) (prog : list (POOL_op Job)) (s : pool_sys Job) (pending : list Job) (c : client Job) : Prop := {
  lv_inv : pool_inv s pending;
  lv_one : ps_clients s = [c];
  lv_active : pending <> [] -> active (ps_threads s);
  lv_exit : shutdown (ps_ctx s) = false -> forall i, ps_threads s !! i <> Some T_exit;
  lv_client : client_ok (ps_ctx s) (ps_threads s) c;
  lv_size : zlen (ps_threads s) + resizes (cl_ops c) <= B;
  lv_prog : forall rest, accepts (cl_ops c) rest -> accepts prog (ps_accepted s ++ rest);
  lv_free : Op_free ∈ prog -> shutdown (ps_ctx s) = true \/ Op_free ∈ cl_ops c;
}.

(** The caller has returned from its calls, and the jobs are done. *)
Definition pool_done (prog : list (POOL_op Job)) (s : pool_sys Job) : Prop :=
  ps_clients s = [mkClient C_ready []] /\ accepts prog (ps_accepted s) /\
  ps_started s = ps_accepted s /\ ps_finished s ≡ₚ ps_accepted s /\
  (Op_free ∈ prog -> Forall (eq T_exit) (ps_threads s)).

(** *** A measure of what is left *)

Definition op_weight (B : Z) (op : POOL_op Job) : Z :=
  match op with
  | Op_add _ | Op_tryAdd _ => B + 5
  | Op_joinJobs => 1
  | Op_resize _ _ _ => B + 1
  | Op_free => 2 * B + 5
  end.
Definition client_weight (B : Z) c : Z :=
  let w := zsum (map (op_weight B) (cl_ops c)) in
  match cl_phase c with
  | C_ready => w + 1
  | C_wait => w
  | C_freePush => 2 * B + 4
  | C_freePop => 2 * B + 3
  | C_freeJoin k => B - Z.of_nat k + 2
  end.
Definition thread_weight (t : thread_state Job) : Z := match t with T_test => 1 | T_run _ => 3 | _ => 0 end.
Definition threads_weight ts : Z := zsum (map thread_weight ts).
Definition weight (B : Z) (s : pool_sys Job) (pending : list Job) (c : client Job) : Z :=
  client_weight B c + 4 * zlen pending + threads_weight (ps_threads s).

End live.

(** ** Lemmas *)

Lemma inevitably_measure {A} (R : A -> A -> Prop) (P : A -> Prop) (I : Z -> A -> Prop) :
  (forall n a, I n a -> 0 <= n) -> (forall n a, I n a -> P a \/ exists b, R a b) ->
  (forall n a b, I n a -> R a b -> exists m, m < n /\ I m b) ->
  forall n a, I n a -> inevitably R P a.
Proof.
  intros H0 Hprog Hstep n a. revert a. induction (Z.lt_wf 0 n) as [n _ IH]. intros a Ha.
  destruct (Hprog n a Ha) as [HP|Hb]; [by apply inev_now|]. apply inev_later; [done|]. intros b Hab.
  destruct (Hstep n a b Ha Hab) as (m & Hm & Hb'). pose proof (H0 m b Hb'). apply (IH m); [lia|done].
Qed.

Section proofs.
Context {Job : Type} `{!Inhabited Job}.
Implicit Types (ops : list (POOL_op Job)) (ts : list (thread_state Job)) (c : client Job).

(** *** Wakeups *)

Lemma zsum_cons x l : zsum (x :: l) = x + zsum l.
Proof. done. Qed.

Lemma wake_not_waiting c : client_waits (client_wake c) = false.
Proof. unfold client_wake. destruct (client_waits c) eqn:E; done. Qed.

Lemma wake_ops c : cl_ops (client_wake c) = cl_ops c.
Proof. unfold client_wake. by destruct (client_waits c). Qed.

Lemma signal_one c cs' : signal client_waits client_wake [c] cs' -> cs' = [client_wake c].
Proof.
  intros [H Hw]. apply Forall2_cons_inv_l in H as (c' & l & Hc & Hl & ->). apply Forall2_nil_inv_l in Hl as ->.
  destruct (client_waits c) eqn:E.
  - destruct (Hw ltac:(cbn; by rewrite E)) as (i & a & Ha & _ & Hb). destruct i; [|done]. cbn in *. by simplify_eq.
  - assert (client_wake c = c) as Ec by (unfold client_wake; by rewrite E). rewrite Ec in *. by destruct Hc as [->| ->].
Qed.

(** A signal that wakes them all is one of the possible ones. *)
Lemma signal_all {A} (waits : A -> bool) wake (l : list A) : signal waits wake l (map wake l).
Proof.
  split; [induction l; constructor; auto|]. intros H. apply existsb_exists in H as (a & Ha & Hw). apply list_elem_of_In, list_elem_of_lookup in Ha as [i Hi].
  exists i, a. split; [done|]. split; [done|]. by rewrite list_lookup_fmap, Hi.
Qed.

Lemma threads_weight_insert ts i t t' :
  ts !! i = Some t -> threads_weight (<[i := t']> ts) = threads_weight ts - thread_weight t + thread_weight t'.
Proof.
  intros Hi. pose proof (lookup_lt_Some _ _ _ Hi). unfold threads_weight.
  rewrite <- (take_drop_middle ts i t Hi) at 2. rewrite insert_take_drop by done. rewrite !map_app, !zsum_app, !map_cons, !zsum_cons. lia.
Qed.

Lemma threads_weight_nonneg ts : 0 <= threads_weight ts.
Proof. unfold threads_weight. induction ts as [|t l IH]; [done|]. rewrite map_cons, zsum_cons. destruct t; cbn; lia. Qed.

Lemma threads_weight_wake ts ts' :
  Forall2 (fun t t' => t' = t \/ t' = thread_wake t) ts ts' -> threads_weight ts' <= threads_weight ts + zlen ts.
Proof.
  unfold threads_weight. induction 1 as [|t t' l l' H _ IH]; [done|]. rewrite !map_cons, !zsum_cons.
  assert (zlen (t :: l) = zlen l + 1) as -> by (unfold zlen; cbn [length]; lia). destruct H as [->| ->], t; cbn [thread_weight thread_wake]; lia.
Qed.

Lemma threads_weight_map_wake ts : threads_weight (map thread_wake ts) <= threads_weight ts + zlen ts.
Proof. apply threads_weight_wake. induction ts; constructor; auto. Qed.

(** New threads count as woken ones. *)
Lemma threads_weight_new ts n : threads_weight (map thread_wake (ts ++ replicate n T_test)) <= threads_weight ts + zlen ts + Z.of_nat n.
Proof.
  unfold threads_weight. rewrite map_app, map_app, zsum_app. pose proof (threads_weight_map_wake ts) as H. unfold threads_weight in H.
  assert (zsum (map thread_weight (map thread_wake (replicate n (@T_test Job)))) = Z.of_nat n) as ->; [|lia].
  induction n as [|n IH]; [done|]. cbn [replicate map thread_wake thread_weight]. rewrite zsum_cons. lia.
Qed.

Lemma client_weight_wake B c : client_weight B (client_wake c) <= client_weight B c + 1.
Proof. unfold client_wake, client_waits, client_weight. destruct c as [[] ops]; cbn; lia. Qed.

Lemma ops_weight_nonneg B ops : 0 <= B -> 0 <= zsum (map (op_weight B) ops).
Proof. intros HB. induction ops as [|op l IH]; [done|]. rewrite map_cons, zsum_cons. destruct op; cbn; lia. Qed.

(** *** What the caller has seen stays so *)

Lemma active_wake ts ts' : Forall2 (fun t t' => t' = t \/ t' = thread_wake t) ts ts' -> active ts -> active ts'.
Proof.
  intros H (i & t & Hi & Hw & He). destruct (Forall2_lookup_l _ _ _ _ _ H Hi) as (t' & Hi' & Ht'). exists i, t'. split; [done|].
  destruct Ht' as [->| ->]; destruct t; done.
Qed.

Lemma wake_all_related ts : Forall2 (fun t t' => t' = t \/ t' = thread_wake t) ts (map thread_wake ts).
Proof. induction ts; constructor; auto. Qed.

Lemma active_insert ts i t t' : ts !! i = Some t -> t' <> T_wait -> t' <> T_exit -> active (<[i := t']> ts).
Proof. intros Hi H1 H2. exists i, t'. split; [|done]. apply list_lookup_insert_eq. by eapply lookup_lt_Some. Qed.

Lemma client_ok_wake ctx ts c : client_ok ctx ts c -> client_ok ctx ts (client_wake c).
Proof. unfold client_ok, client_wake, client_waits. destruct c as [[] ops]; cbn; try done. intros (H1 & H2 & _). by left. Qed.

(** A thread moves. *)
Lemma client_ok_thread ctx ctx' ts i t t' c :
  client_ok ctx ts c -> ts !! i = Some t -> t <> T_exit -> shutdown ctx' = shutdown ctx -> (shutdown ctx = true -> t' <> T_wait) ->
  ctx' = ctx \/ client_waits c = false -> client_ok ctx' (<[i := t']> ts) c.
Proof.
  intros H Hi Ht Hsh Hw Hctx. pose proof (lookup_lt_Some _ _ _ Hi) as Hlt. unfold client_ok in *. destruct c as [ph ops]. cbn [cl_phase cl_ops] in *. rewrite Hsh.
  destruct ph.
  - destruct H as [H|(_ & _ & H)]; [by left|]. pose proof (Forall_lookup_1 _ _ _ _ H Hi). congruence.
  - destruct Hctx as [->|]; [done|done].
  - done.
  - done.
  - destruct H as (H1 & H2 & H3 & H4 & H5). split; [done|]. split; [done|]. rewrite length_insert. split; [done|]. split.
    + intros j. destruct (decide (i = j)) as [<-|Hne]; [|by rewrite list_lookup_insert_ne]. rewrite list_lookup_insert_eq by done. intros [=]. by apply Hw.
    + intros j Hj. destruct (decide (i = j)) as [<-|Hne]; [|rewrite list_lookup_insert_ne by done; by apply H5].
      rewrite (H5 i Hj) in Hi. congruence.
Qed.

Lemma running_active ts : running ts <> [] -> exists i job, ts !! i = Some (T_run job).
Proof.
  unfold running. induction ts as [|t l IH]; [done|]. cbn. destruct t as [| |job|]; cbn; intros H; [| |by exists 0%nat, job|];
    destruct (IH H) as (i & job & Hi); exists (S i), job; done.
Qed.

(** An idle thread leaves the others what there is to do. *)
Lemma idle_active ctx ts cs acc st fin pending i t' :
  pool_inv (mkSys ctx ts cs acc st fin) pending -> ts !! i = Some T_test -> POOL_thread_idle ctx = true -> pending <> [] ->
  active (<[i := t']> ts).
Proof.
  intros [H1 _ _ H4 H5 _ _] Hi Hidle Hp. sysn. unfold POOL_thread_idle in Hidle. destruct H1 as (_ & _ & _ & _ & _ & _ & He). rewrite He in Hidle.
  rewrite (proj2 (Z.eqb_neq (zlen pending) 0)) in Hidle by (destruct pending; [done|unfold zlen; cbn [length]; lia]). cbn [orb] in Hidle. apply Z.geb_le in Hidle.
  assert (running ts <> []) as Hr by (intros E; rewrite E in H4; unfold zlen in H4; cbn in H4; lia).
  destruct (running_active ts Hr) as (j & job & Hj). exists j, (T_run job). split; [|done].
  rewrite list_lookup_insert_ne; [done|]. intros ->. congruence.
Qed.

(** *** Every step keeps the invariant and uses up some weight *)

Section steps.
Context (B : Z) (prog : list (POOL_op Job)).

(** The state after a step. *)
Definition lighter (s : pool_sys Job) (P : list Job) c (s' : pool_sys Job) : Prop :=
  exists P' c', pool_live B prog s' P' c' /\ weight B s' P' c' < weight B s P c.

Lemma one_client {A} (a b : A) i : [a] !! i = Some b -> i = 0%nat /\ a = b.
Proof. destruct i as [|[|i]]; intros [=]; done. Qed.

Lemma resizes_nonneg ops : Forall op_ok ops -> 0 <= resizes ops.
Proof. induction 1 as [|op l Hop _ IH]; [done|]. destruct op; cbn in *; lia. Qed.

Lemma live_sizes s P c : pool_live B prog s P c -> 0 <= resizes (cl_ops c) /\ 1 <= zlen (ps_threads s) <= B.
Proof.
  intros Hl. destruct (lv_inv _ _ _ _ _ Hl) as [_ _ _ _ H5 [H6 _] H7]. rewrite (lv_one _ _ _ _ _ Hl) in H7. apply Forall_cons in H7 as [H7 _].
  pose proof (resizes_nonneg _ H7). pose proof (lv_size _ _ _ _ _ Hl). lia.
Qed.

(** A thread finds nothing to do. *)
Lemma live_idle ctx ts cs acc st fin i t' P c :
  pool_live B prog (mkSys ctx ts cs acc st fin) P c -> ts !! i = Some T_test -> POOL_thread_idle ctx = true ->
  t' = T_exit /\ shutdown ctx = true \/ t' = T_wait /\ shutdown ctx = false ->
  lighter (mkSys ctx ts cs acc st fin) P c (mkSys ctx (<[i := t']> ts) cs acc st fin).
Proof.
  intros [Hinv H1 H2 H3 H4 H5 H6 H7] Hi Hidle Ht'. sysn. exists P, c. split.
  - split; sysn; try done.
    + eapply inv_threads; [exact Hinv|eapply running_quiet; [done|done|]|by rewrite length_insert|apply (pi_ops _ _ Hinv)].
      by destruct Ht' as [[-> _]|[-> _]].
    + intros HP. by eapply idle_active.
    + intros Hsh j Hj. apply list_lookup_insert_Some in Hj as [(<- & Ej & _)|[_ Hj]]; [destruct Ht' as [[-> ?]|[-> ?]]; congruence|by apply (H3 Hsh j)].
    + eapply client_ok_thread; [done|done|done|done| |by left]. intros Hsh ->. destruct Ht' as [[? _]|[_ ?]]; congruence.
    + by rewrite zlen_insert.
  - unfold weight. sysn. rewrite (threads_weight_insert ts i T_test t' Hi). destruct Ht' as [[-> _]|[-> _]]; cbn [thread_weight]; lia.
Qed.

Lemma live_pop ctx ctx' ts cs cs' acc st fin i job P c :
  pool_live B prog (mkSys ctx ts cs acc st fin) P c -> ts !! i = Some T_test -> POOL_thread_idle ctx = false ->
  POOL_thread_pop ctx = Ok (job, ctx') -> signal client_waits client_wake cs cs' ->
  lighter (mkSys ctx ts cs acc st fin) P c (mkSys ctx' (<[i := T_run job]> ts) cs' acc (st ++ [job]) fin).
Proof.
  intros [Hinv H1 H2 H3 H4 H5 H6 H7] Hi Hidle E Hsig. sysn.
  destruct (pop_inv _ _ _ _ _ _ _ _ _ Hinv Hi Hidle Hsig) as (job' & P' & ctx2 & -> & E' & (_ & _ & Hsh) & Hinv').
  rewrite E in E'. simplify_eq. apply signal_one in Hsig as ->. exists P', (client_wake c). split.
  - split; sysn; rewrite ?wake_ops, ?Hsh; try done.
    + intros _. by eapply active_insert.
    + intros Hsh' j Hj. apply list_lookup_insert_Some in Hj as [(_ & [=] & _)|[_ Hj]]. by apply (H3 Hsh' j).
    + eapply client_ok_thread; [by apply client_ok_wake|done|done|done|done|right; apply wake_not_waiting].
    + by rewrite zlen_insert.
  - unfold weight. sysn. rewrite (threads_weight_insert ts i T_test _ Hi). cbn [thread_weight]. pose proof (client_weight_wake B c).
    assert (zlen (job' :: P') = zlen P' + 1) by (unfold zlen; cbn [length]; lia). lia.
Qed.

Lemma live_done ctx ts cs cs' acc st fin i job P c :
  pool_live B prog (mkSys ctx ts cs acc st fin) P c -> ts !! i = Some (T_run job) -> signal client_waits client_wake cs cs' ->
  lighter (mkSys ctx ts cs acc st fin) P c (mkSys (POOL_thread_done ctx) (<[i := T_test]> ts) cs' acc st (fin ++ [job])).
Proof.
  intros [Hinv H1 H2 H3 H4 H5 H6 H7] Hi Hsig. sysn. destruct (done_inv _ _ _ _ _ _ _ _ _ _ Hinv Hi Hsig) as [Hinv' _]. sysn. subst cs.
  apply signal_one in Hsig as ->. exists P, (client_wake c). split.
  - split; sysn; rewrite ?wake_ops; try done.
    + intros _. by eapply active_insert.
    + intros Hsh' j Hj. apply list_lookup_insert_Some in Hj as [(_ & [=] & _)|[_ Hj]]. by apply (H3 Hsh' j).
    + eapply client_ok_thread; [by apply client_ok_wake|done|done|done|done|right; apply wake_not_waiting].
    + by rewrite zlen_insert.
  - unfold weight. sysn. rewrite (threads_weight_insert ts i (T_run job) _ Hi). cbn [thread_weight]. pose proof (client_weight_wake B c). lia.
Qed.

(** The caller is ready for its next call. *)
Lemma live_ready ctx ts cs acc st fin i op ops P c :
  pool_live B prog (mkSys ctx ts cs acc st fin) P c -> cs !! i = Some (mkClient C_ready (op :: ops)) ->
  i = 0%nat /\ c = mkClient C_ready (op :: ops) /\ cs = [c] /\ shutdown ctx = false /\ free_last (op :: ops).
Proof.
  intros [Hinv H1 H2 H3 H4 H5 H6 H7] Hi. sysn. subst cs. apply one_client in Hi as [-> ->]. unfold client_ok in H4. cbn in H4.
  destruct H4 as [[? ?]|(_ & ? & _)]; [|done]. done.
Qed.

Lemma free_last_tail op ops : op <> Op_free -> free_last (op :: ops) -> free_last ops.
Proof. by destruct op. Qed.

Lemma live_add ctx ctx' ts ts' cs acc st fin i job op ops P c :
  pool_live B prog (mkSys ctx ts cs acc st fin) P c -> cs !! i = Some (mkClient C_ready (op :: ops)) ->
  op = Op_add job \/ op = Op_tryAdd job -> isQueueFull ctx = false -> shutdown ctx = false ->
  POOL_add_internal ctx job = Ok ctx' -> signal thread_waits thread_wake ts ts' ->
  lighter (mkSys ctx ts cs acc st fin) P c (mkSys ctx' ts' (<[i := mkClient C_ready ops]> cs) (acc ++ [job]) st fin).
Proof.
  intros Hl Hi Hop Hf Hsh E Hsig. pose proof (live_sizes _ _ _ Hl) as [Hrz HB]. destruct (live_ready _ _ _ _ _ _ _ _ _ _ _ Hl Hi) as (-> & -> & -> & _ & Hfl).
  destruct Hl as [Hinv H1 H2 H3 H4 H5 H6 H7]. sysn.
  destruct (add_inv _ _ _ _ _ _ _ _ _ job _ _ Hinv Hi Hf Hsh Hsig) as (ctx2 & E' & (_ & _ & Hsh') & _ & Hinv'). rewrite E in E'. simplify_eq.
  assert (zlen ts' = zlen ts) as El by (unfold zlen; by rewrite (signal_length _ _ _ _ Hsig)). destruct Hsig as [Hts Hwake].
  assert (op <> Op_free) as Hnf by (by destruct Hop as [->| ->]).
  exists (P ++ [job]), (mkClient C_ready ops). split.
  - split; sysn; rewrite ?Hsh'; cbn [cl_ops]; try done.
    + intros _. destruct (existsb thread_waits ts) eqn:Ew.
      * destruct (Hwake eq_refl) as (j & t & Hj & Hwt & Hj'). exists j, (thread_wake t). split; [done|]. by destruct t.
      * destruct ts' as [|t' l']; [unfold zlen in *; cbn in *; lia|]. exists 0%nat, t'. split; [done|].
        destruct (Forall2_lookup_r _ _ _ 0%nat t' Hts eq_refl) as (t & Ht & Hrel).
        assert (thread_waits t = false) as Hnw.
        { apply not_true_iff_false. intros Hw. apply not_true_iff_false in Ew. apply Ew, existsb_exists. exists t. split; [|done].
          apply list_elem_of_In. by eapply list_elem_of_lookup_2. }
        pose proof (H3 Hsh 0%nat) as He. destruct t; try done; destruct Hrel as [->| ->]; done.
    + intros Hsh2 j Hj. destruct (Forall2_lookup_r _ _ _ j _ Hts Hj) as (t & Ht & Hrel). destruct t, Hrel as [Hrel|Hrel]; try done; by apply (H3 Hsh j).
    + left. split; [congruence|]. by eapply free_last_tail.
    + destruct Hop as [-> | ->]; cbn in H5; lia.
    + intros rest Hr. rewrite <- app_assoc. apply H6. cbn. by destruct Hop as [->| ->]; constructor.
    + intros Hfr. destruct (H7 Hfr) as [?|Hin]; [congruence|right]. cbn in Hin. apply elem_of_cons in Hin as [Heq|?]; [by symmetry in Heq|done].
  - unfold weight. sysn. pose proof (threads_weight_wake _ _ Hts). rewrite zlen_snoc. unfold client_weight. cbn [cl_phase cl_ops].
    rewrite map_cons, zsum_cons. destruct Hop as [->| ->]; cbn [op_weight]; lia.
Qed.

(** A call that changes nothing. *)
Lemma live_skip ctx ts cs acc st fin i op ops P c :
  pool_live B prog (mkSys ctx ts cs acc st fin) P c -> cs !! i = Some (mkClient C_ready (op :: ops)) ->
  (exists job, op = Op_tryAdd job) \/ op = Op_joinJobs ->
  lighter (mkSys ctx ts cs acc st fin) P c (mkSys ctx ts (<[i := mkClient C_ready ops]> cs) acc st fin).
Proof.
  intros Hl Hi Hop. pose proof (live_sizes _ _ _ Hl) as [Hrz HB]. destruct (live_ready _ _ _ _ _ _ _ _ _ _ _ Hl Hi) as (-> & -> & -> & Hsh & Hfl).
  destruct Hl as [Hinv H1 H2 H3 H4 H5 H6 H7]. sysn. exists P, (mkClient C_ready ops). assert (op <> Op_free) as Hnf by (by destruct Hop as [[? ->]| ->]). split.
  - split; sysn; cbn [cl_ops]; try done.
    + eapply client_inv; [exact Hinv|done| |by left]. cbn. by intros [_ ?]%Forall_cons.
    + left. split; [done|]. by eapply free_last_tail.
    + by destruct Hop as [[? ->]| ->].
    + intros rest Hr. apply H6. cbn. by destruct Hop as [[? ->]| ->]; constructor.
    + intros Hfr. destruct (H7 Hfr) as [?|Hin]; [congruence|right]. cbn in Hin. apply elem_of_cons in Hin as [Heq|?]; [by symmetry in Heq|done].
  - unfold weight, client_weight. sysn. cbn [cl_phase cl_ops]. rewrite map_cons, zsum_cons. destruct Hop as [[? ->]| ->]; cbn [op_weight]; lia.
Qed.

Lemma live_wait ctx ts cs acc st fin i op ops P c :
  pool_live B prog (mkSys ctx ts cs acc st fin) P c -> cs !! i = Some (mkClient C_ready (op :: ops)) ->
  (exists job, op = Op_add job) /\ isQueueFull ctx = true \/ op = Op_joinJobs /\ POOL_jobs_left ctx = true ->
  lighter (mkSys ctx ts cs acc st fin) P c (mkSys ctx ts (<[i := mkClient C_wait (op :: ops)]> cs) acc st fin).
Proof.
  intros Hl Hi Hop. destruct (live_ready _ _ _ _ _ _ _ _ _ _ _ Hl Hi) as (-> & -> & -> & Hsh & Hfl).
  destruct Hl as [Hinv H1 H2 H3 H4 H5 H6 H7]. sysn. exists P, (mkClient C_wait (op :: ops)). split.
  - split; sysn; try done.
    + eapply client_inv; [exact Hinv|done|done|by left].
    + split; [done|]. split; [done|]. cbn. by destruct Hop as [[[? ->] ?]|[-> ?]].
  - unfold weight, client_weight. sysn. cbn [cl_phase cl_ops]. lia.
Qed.

Lemma live_resize ctx ctx' ts cs acc st fin i n memory created new r ops P c :
  pool_live B prog (mkSys ctx ts cs acc st fin) P c -> cs !! i = Some (mkClient C_ready (Op_resize n memory created :: ops)) ->
  POOL_resize_internal ctx n memory created = (ctx', new, r) ->
  lighter (mkSys ctx ts cs acc st fin) P c
    (mkSys ctx' (map thread_wake (ts ++ replicate (Z.to_nat new) T_test)) (<[i := mkClient C_ready ops]> cs) acc st fin).
Proof.
  intros Hl Hi E. pose proof (live_sizes _ _ _ Hl) as [Hrz HB]. destruct (live_ready _ _ _ _ _ _ _ _ _ _ _ Hl Hi) as (-> & -> & -> & Hsh & Hfl).
  destruct Hl as [Hinv H1 H2 H3 H4 H5 H6 H7]. sysn. destruct (resize_step_inv _ _ _ _ _ _ _ _ _ _ _ _ _ _ _ Hinv Hi E) as (Hinv' & Hnew & _ & Hsh').
  set (ts' := map thread_wake _) in *. assert (zlen ts' = zlen ts + new) as El by (unfold ts', zlen; rewrite length_map, length_app, length_replicate; lia).
  pose proof (pi_ops _ _ Hinv) as Hops. sysn. apply Forall_cons in Hops as [Hops _]. cbn [cl_ops] in Hops. apply Forall_cons in Hops as [_ Hops].
  pose proof (resizes_nonneg _ Hops). cbn [cl_ops resizes] in H5.
  exists P, (mkClient C_ready ops). split.
  - split; sysn; rewrite ?Hsh'; cbn [cl_ops]; try done.
    + intros HP. apply (active_wake (ts ++ replicate (Z.to_nat new) T_test)); [apply wake_all_related|].
      destruct (H2 HP) as (j & t & Hj & Ht). exists j, t. split; [|done]. by apply lookup_app_l_Some.
    + intros _ j Hj. unfold ts' in Hj. rewrite list_lookup_fmap in Hj. apply fmap_Some in Hj as (t & Hj & Ht). destruct t; try done.
      apply lookup_app_Some in Hj as [Hj|[_ Hj]]; [by apply (H3 Hsh j)|]. by apply lookup_replicate_1 in Hj as [[=] _].
    + left. split; [congruence|]. exact Hfl.
    + lia.
    + intros rest Hr. apply H6. cbn. by constructor.
    + intros Hfr. destruct (H7 Hfr) as [?|Hin]; [congruence|right]. cbn in Hin. by apply elem_of_cons in Hin as [[=]|?].
  - unfold weight, client_weight. sysn. cbn [cl_phase cl_ops]. rewrite map_cons, zsum_cons. cbn [op_weight].
    pose proof (threads_weight_new ts (Z.to_nat new)). unfold ts'. lia.
Qed.

(** [POOL_free]: its caller is in [POOL_join]. *)
Lemma live_in_free ctx ts cs acc st fin i ph ops P c :
  pool_live B prog (mkSys ctx ts cs acc st fin) P c -> cs !! i = Some (mkClient ph (Op_free :: ops)) -> ph <> C_wait -> ph <> C_ready ->
  i = 0%nat /\ c = mkClient ph [Op_free] /\ cs = [c] /\ ops = [] /\ shutdown ctx = true.
Proof.
  intros [Hinv H1 H2 H3 H4 H5 H6 H7] Hi Hw Hr. sysn. subst cs. apply one_client in Hi as [-> ->]. unfold client_ok in H4. cbn in H4.
  destruct ph; try done; destruct H4 as (H41 & H42 & _) || destruct H4 as (H41 & H42); by injection H42 as ->.
Qed.

(** A step of [POOL_free] that wakes threads at most. *)
Lemma live_free_step ctx ctx' ts ts' acc st fin ph ph' P :
  pool_live B prog (mkSys ctx ts [mkClient ph [Op_free]] acc st fin) P (mkClient ph [Op_free]) ->
  ctx' = ctx \/ ctx' = POOL_shutdown ctx -> shutdown ctx' = true -> ts' = ts \/ ts' = map thread_wake ts ->
  client_ok ctx' ts' (mkClient ph' [Op_free]) -> 
  pool_live B prog (mkSys ctx' ts' [mkClient ph' [Op_free]] acc st fin) P (mkClient ph' [Op_free]).
Proof.
  intros [Hinv H1 H2 H3 H4 H5 H6 H7] Hctx Hsh Hts Hok. sysn.
  assert (zlen ts' = zlen ts) as El by (destruct Hts as [->| ->]; [done|unfold zlen; by rewrite length_map]).
  split; sysn; try done.
  - assert (pool_inv (mkSys ctx ts' [mkClient ph [Op_free]] acc st fin) P) as Hinv'.
    { destruct Hts as [->| ->]; [done|]. eapply inv_threads; [exact Hinv|by rewrite running_map_wake|by rewrite length_map|apply (pi_ops _ _ Hinv)]. }
    by apply (client_inv ctx ctx' ts' [mkClient ph [Op_free]] acc st fin P 0%nat (mkClient ph [Op_free]) (mkClient ph' [Op_free]) Hinv').
  - intros HP. destruct Hts as [->| ->]; [by apply H2|]. apply (active_wake ts); [apply wake_all_related|by apply H2].
  - congruence.
  - by rewrite El.
  - intros Hfr. by left.
Qed.

Lemma no_waiter_after ts j : map thread_wake ts !! j <> Some T_wait.
Proof. rewrite list_lookup_fmap. intros H. apply fmap_Some in H as (t & _ & Ht). by destruct t. Qed.

Lemma live_free ctx ts cs acc st fin i ops P c :
  pool_live B prog (mkSys ctx ts cs acc st fin) P c -> cs !! i = Some (mkClient C_ready (Op_free :: ops)) ->
  lighter (mkSys ctx ts cs acc st fin) P c (mkSys (POOL_shutdown ctx) ts (<[i := mkClient C_freePush (Op_free :: ops)]> cs) acc st fin).
Proof.
  intros Hl Hi. destruct (live_ready _ _ _ _ _ _ _ _ _ _ _ Hl Hi) as (-> & -> & -> & Hsh & Hfl). destruct ops; [|done].
  exists P, (mkClient C_freePush [Op_free]). split; [by apply (live_free_step _ _ _ _ _ _ _ _ C_freePush P Hl); auto|].
  unfold weight, client_weight. sysn. cbn [cl_phase cl_ops map op_weight]. rewrite zsum_cons. change (zsum []) with 0. lia.
Qed.

Lemma live_freePush ctx ts cs acc st fin i ops P c :
  pool_live B prog (mkSys ctx ts cs acc st fin) P c -> cs !! i = Some (mkClient C_freePush (Op_free :: ops)) ->
  lighter (mkSys ctx ts cs acc st fin) P c (mkSys ctx ts (<[i := mkClient C_freePop (Op_free :: ops)]> (map client_wake cs)) acc st fin).
Proof.
  intros Hl Hi. destruct (live_in_free _ _ _ _ _ _ _ _ _ _ _ Hl Hi) as (-> & -> & -> & -> & Hsh); [done|done|].
  exists P, (mkClient C_freePop [Op_free]). split; [by apply (live_free_step _ _ _ _ _ _ _ _ C_freePop P Hl); auto|].
  unfold weight, client_weight. sysn. cbn [cl_phase cl_ops]. lia.
Qed.

Lemma live_freePop ctx ts cs acc st fin i ops P c :
  pool_live B prog (mkSys ctx ts cs acc st fin) P c -> cs !! i = Some (mkClient C_freePop (Op_free :: ops)) ->
  lighter (mkSys ctx ts cs acc st fin) P c
    (mkSys ctx (map thread_wake ts) (<[i := mkClient (C_freeJoin 0) (Op_free :: ops)]> cs) acc st fin).
Proof.
  intros Hl Hi. pose proof (live_sizes _ _ _ Hl) as [_ HB]. destruct (live_in_free _ _ _ _ _ _ _ _ _ _ _ Hl Hi) as (-> & -> & -> & -> & Hsh); [done|done|].
  exists P, (mkClient (C_freeJoin 0) [Op_free]). split.
  - apply (live_free_step _ _ _ _ _ _ _ _ (C_freeJoin 0) P Hl); auto. split; [done|]. split; [done|]. split; [lia|]. split; [apply no_waiter_after|intros; lia].
  - unfold weight, client_weight. sysn. cbn [cl_phase cl_ops]. pose proof (threads_weight_map_wake ts). lia.
Qed.

Lemma live_freeJoin ctx ts cs acc st fin i k ops P c :
  pool_live B prog (mkSys ctx ts cs acc st fin) P c -> cs !! i = Some (mkClient (C_freeJoin k) (Op_free :: ops)) -> ts !! k = Some T_exit ->
  lighter (mkSys ctx ts cs acc st fin) P c (mkSys ctx ts (<[i := mkClient (C_freeJoin (S k)) (Op_free :: ops)]> cs) acc st fin).
Proof.
  intros Hl Hi Hk. destruct (live_in_free _ _ _ _ _ _ _ _ _ _ _ Hl Hi) as (-> & -> & -> & -> & Hsh); [done|done|].
  pose proof (lv_client _ _ _ _ _ Hl) as (_ & _ & Hle & Hnw & Hex). sysn. pose proof (lookup_lt_Some _ _ _ Hk).
  exists P, (mkClient (C_freeJoin (S k)) [Op_free]). split.
  - apply (live_free_step _ _ _ _ _ _ _ _ (C_freeJoin (S k)) P Hl); auto. split; [done|]. split; [done|]. split; [lia|]. split; [done|].
    intros j Hj. destruct (decide (j = k)) as [->|]; [done|]. apply Hex. lia.
  - unfold weight, client_weight. sysn. cbn [cl_phase cl_ops]. lia.
Qed.

Lemma live_freeDone ctx ts cs acc st fin i k ops P c :
  pool_live B prog (mkSys ctx ts cs acc st fin) P c -> cs !! i = Some (mkClient (C_freeJoin k) (Op_free :: ops)) -> threadCapacity ctx <= Z.of_nat k ->
  lighter (mkSys ctx ts cs acc st fin) P c (mkSys ctx ts (<[i := mkClient C_ready ops]> cs) acc st fin).
Proof.
  intros Hl Hi Hk. pose proof (live_sizes _ _ _ Hl) as [_ HB]. destruct (live_in_free _ _ _ _ _ _ _ _ _ _ _ Hl Hi) as (-> & -> & -> & -> & Hsh); [done|done|].
  destruct Hl as [Hinv H1 H2 H3 (_ & _ & Hle & Hnw & Hex) H5 H6 H7]. sysn. cbn [cl_phase cl_ops] in *. pose proof (pi_cap _ _ Hinv) as [Hcap _]. sysn.
  exists P, (mkClient C_ready []). split.
  - split; sysn; cbn [cl_ops]; try done.
    + eapply client_inv; [exact Hinv|done| |by left]. cbn. by intros [_ ?]%Forall_cons.
    + right. split; [done|]. split; [done|]. apply Forall_lookup. intros j t Hj. pose proof (lookup_lt_Some _ _ _ Hj).
      rewrite Hex in Hj by (unfold zlen in *; lia). congruence.
    + intros rest Hr. apply H6. by constructor.
    + by left.
  - unfold weight, client_weight. sysn. cbn [cl_phase cl_ops map]. change (zsum []) with 0. unfold zlen in *. lia.
Qed.

Lemma step_live s s' P c : pool_live B prog s P c -> pool_step s s' -> lighter s P c s'.
Proof.
  intros Hl Hs. destruct Hs; [eapply live_idle; eauto|eapply live_idle; eauto|by eapply live_pop|by eapply live_done|eapply live_wait; eauto|eapply live_add; eauto| |
    eapply live_skip; eauto|eapply live_add; eauto|eapply live_wait; eauto|eapply live_skip; eauto|by eapply live_resize|by eapply live_free|by eapply live_freePush|
    by eapply live_freePop|by eapply live_freeJoin|by eapply live_freeDone].
  destruct (live_ready _ _ _ _ _ _ _ _ _ _ _ Hl H) as (_ & _ & _ & Hsh & _). congruence.
Qed.

(** *** A step is always possible until all is done *)

Lemma active_step ctx ts cs acc st fin P i t :
  pool_inv (mkSys ctx ts cs acc st fin) P -> ts !! i = Some t -> t <> T_wait -> t <> T_exit ->
  exists s', pool_step (mkSys ctx ts cs acc st fin) s'.
Proof.
  intros Hinv Hi Hw He. destruct t as [| |job|]; [|done| |done].
  - destruct (POOL_thread_idle ctx) eqn:Hidle.
    + destruct (shutdown ctx) eqn:Hsh; eexists; [by eapply S_exit|by eapply S_sleep].
    + destruct (pop_inv _ _ _ _ _ _ _ _ _ Hinv Hi Hidle (signal_all _ _ cs)) as (job & P' & ctx' & _ & E & _).
      eexists. eapply S_pop; [done|done|done|apply signal_all].
  - eexists. eapply S_done; [done|apply signal_all].
Qed.

Lemma work_left ctx ts cs acc st fin P :
  pool_inv (mkSys ctx ts cs acc st fin) P -> (P <> [] -> active ts) ->
  active ts \/ P = [] /\ running ts = [] /\ POOL_jobs_left ctx = false /\ isQueueFull ctx = false.
Proof.
  intros Hinv Hact. destruct (decide (P = [])) as [->|HP]; [|left; by apply Hact].
  destruct (decide (running ts = [])) as [Hr|Hr]; [right|left; destruct (running_active ts Hr) as (i & job & Hi); by exists i, (T_run job)].
  destruct Hinv as [H1 _ _ H4 H5 _ _]. sysn. rewrite Hr in H4. change (zlen []) with 0 in H4. split; [done|]. split; [done|].
  split; [|apply ring_not_full; [lia|done|done]]. destruct H1 as (_ & _ & _ & _ & _ & _ & He). unfold POOL_jobs_left. by rewrite He, H4.
Qed.

Lemma live_progress s P c : pool_live B prog s P c -> pool_done prog s \/ exists s', pool_step s s'.
Proof.
  destruct s as [ctx ts cs acc st fin]. intros [Hinv H1 H2 H3 H4 H5 H6 H7]. sysn. subst cs.
  destruct (work_left _ _ _ _ _ _ _ Hinv H2) as [(i & t & Hi & Hw & He)|(-> & Hr & Hjl & Hnf)]; [right; by eapply active_step|].
  destruct c as [[| | | |k] ops]; unfold client_ok in H4; cbn [cl_phase cl_ops] in *.
  - destruct ops as [|op ops].
    + left. destruct Hinv as [_ Hlog Hruns _ _ _ _]. sysn. rewrite app_nil_r in Hlog. subst acc. rewrite Hr, app_nil_r in Hruns.
      split; [done|]. split; [rewrite <- (app_nil_r st); apply H6; constructor|]. split; [done|]. split; [by symmetry|].
      intros Hfr. destruct (H7 Hfr) as [Hsh|Hin]; [|by apply elem_of_nil in Hin]. destruct H4 as [[? _]|(_ & _ & ?)]; [congruence|done].
    + right. destruct H4 as [[Hsh Hfl]|(_ & [=] & _)]. destruct op as [job|job| |n memory created|].
      * destruct (add_inv _ _ _ _ _ _ _ _ 0%nat job _ _ Hinv eq_refl Hnf Hsh (signal_all _ _ ts)) as (ctx' & E & _).
        eexists. eapply (S_add _ _ _ _ _ _ _ _ 0%nat); [done|done|done|done|apply signal_all].
      * destruct (add_inv _ _ _ _ _ _ _ _ 0%nat job _ _ Hinv eq_refl Hnf Hsh (signal_all _ _ ts)) as (ctx' & E & _).
        eexists. eapply (S_tryAdd _ _ _ _ _ _ _ _ 0%nat); [done|done|done|done|apply signal_all].
      * eexists. by eapply (S_joinJobs _ _ _ _ _ _ 0%nat).
      * destruct (POOL_resize_internal ctx n memory created) as [[ctx' new] r] eqn:E. eexists. by eapply (S_resize _ _ _ _ _ _ _ 0%nat).
      * eexists. by eapply (S_free _ _ _ _ _ _ 0%nat).
  - destruct H4 as (_ & _ & H4). destruct ops as [|[] ops]; try done; congruence.
  - right. destruct H4 as [_ ->]. eexists. by eapply (S_freePush _ _ _ _ _ _ 0%nat).
  - right. destruct H4 as [_ ->]. eexists. by eapply (S_freePop _ _ _ _ _ _ 0%nat).
  - right. destruct H4 as (_ & -> & Hk & Hnw & _). pose proof (pi_cap _ _ Hinv) as [Hcap _]. sysn.
    destruct (Z.leb_spec (threadCapacity ctx) (Z.of_nat k)); [eexists; by eapply (S_freeDone _ _ _ _ _ _ 0%nat)|].
    destruct (lookup_lt_is_Some_2 ts k) as [t Ht]; [unfold zlen in *; lia|]. destruct t as [| |job|].
    + by eapply active_step.
    + by apply Hnw in Ht.
    + by eapply active_step.
    + eexists. by eapply (S_freeJoin _ _ _ _ _ _ 0%nat).
Qed.

Lemma weight_nonneg s P c : pool_live B prog s P c -> 0 <= weight B s P c.
Proof.
  intros Hl. pose proof (live_sizes _ _ _ Hl) as [_ HB]. pose proof (threads_weight_nonneg (ps_threads s)). pose proof (zlen_nonneg P).
  pose proof (ops_weight_nonneg B (cl_ops c) ltac:(lia)). unfold weight.
  assert (0 <= client_weight B c); [|lia]. pose proof (lv_client _ _ _ _ _ Hl) as Hc. unfold client_weight, client_ok in *.
  destruct (cl_phase c); try lia. destruct Hc as (_ & _ & Hk & _). unfold zlen in HB. lia.
Qed.

End steps.

End proofs.

(** ** Properties *)

(** C30: a pool with one caller always gets its work done. From a new pool, for
    any calls of [POOL_add], [POOL_tryAdd], [POOL_joinJobs], [POOL_resize] and a last
    [POOL_free], whatever the order in which the threads run and whichever waiters
    the signals wake, and without any spurious wakeup, after finitely many steps
    the caller has returned from all its calls, every job that [POOL_add] was
    given, and those that [POOL_tryAdd] accepted, are started in order and
    finished, and if the pool was freed all its threads have returned: no call
    blocks for ever, no job is left in the queue, and nothing runs for ever. *)
Theorem POOL_completes {Job} `{!Inhabited Job} n q memory created ctx (prog : list (POOL_op Job)) :
  0 <= n < 2 ^ 64 -> 0 <= q < 2 ^ 64 - 1 -> POOL_create_advanced n q memory created = Some ctx ->
  Forall op_ok prog -> free_last prog ->
  inevitably pool_step (pool_done prog) (pool_start ctx [prog]).
Proof.
  intros Hn Hq E Hops Hfl. destruct (ring_create n q memory created ctx ltac:(lia) Hq E) as (_ & _ & Hsh & Hcap & _ & Hn1).
  set (B := n + resizes prog). set (c := mkClient C_ready prog).
  apply (inevitably_measure pool_step (pool_done prog) (fun m s => exists P c, pool_live B prog s P c /\ m = weight B s P c)) with (n := weight B (pool_start ctx [prog]) [] c).
  - intros m s (P & c' & Hl & ->). by eapply weight_nonneg.
  - intros m s (P & c' & Hl & _). by eapply live_progress.
  - intros m s s' (P & c' & Hl & ->) Hs. destruct (step_live B prog _ _ _ _ Hl Hs) as (P' & c2 & Hl' & Hw). exists (weight B s' P' c2). split; [lia|eauto].
  - exists [], c. split; [|done]. split; cbn [pool_start ps_ctx ps_threads ps_clients ps_accepted]; try done.
    + apply (start_inv ctx [prog] n q memory created Hn Hq E). by constructor.
    + intros _ i Hi. by apply lookup_replicate_1 in Hi as [[=] _].
    + by left.
    + unfold zlen. rewrite length_replicate, Hcap. unfold B, c. cbn [cl_ops]. lia.
    + intros Hfr. by right.
Qed.

Lemma POOL_completes_witness :
  exists ctx, POOL_create_advanced 2 0 true 2 = Some ctx /\
  inevitably pool_step (pool_done [Op_add 1%nat; Op_tryAdd 2%nat; Op_resize 4 true 2; Op_add 3%nat; Op_joinJobs; Op_add 4%nat; Op_free])
    (pool_start ctx [[Op_add 1%nat; Op_tryAdd 2%nat; Op_resize 4 true 2; Op_add 3%nat; Op_joinJobs; Op_add 4%nat; Op_free]]).
Proof.
  eexists. split; [reflexivity|].
  apply (POOL_completes 2 0 true 2); [lia|lia|reflexivity|repeat constructor; lia|exact I].
Defined.

(** A caller of [POOL_joinJobs] can take the wakeup of a caller of [POOL_add].
    Both wait on [queuePushCond] and the threads wake one of them. With one
    thread, room for one job and a second caller inside [POOL_joinJobs], there is a
    run without spurious wakeups that ends with nothing to do, room in the queue,
    and the first caller still waiting in [POOL_add] for ever. *)
Theorem POOL_joinJobs_takes_wakeup :
  exists ctx s, POOL_create_advanced 1 1 true 1 = Some ctx /\
    rtc pool_step (pool_start ctx [[Op_add 1%nat; Op_add 2%nat; Op_add 3%nat]; [Op_joinJobs]]) s /\
    ps_clients s = [mkClient C_wait [Op_add 3%nat]; mkClient C_ready []] /\
    isQueueFull (ps_ctx s) = false /\ forall s', ~ pool_step s s'.
Proof.
  set (ring := fun h t busy e a b => mkPool (Job := nat) 1 1 [a; b] h t 2 busy e false).
  exists (ring 0 0 0 true 0%nat 0%nat).
  exists (mkSys (ring 0 0 0 true 1%nat 2%nat) [T_wait] [mkClient C_wait [Op_add 3%nat]; mkClient C_ready []] [1; 2]%nat [1; 2]%nat [1; 2]%nat).
  split; [reflexivity|]. split; [|split; [reflexivity|split; [reflexivity|]]].
  - assert (forall c1 c2 c2', c2' = client_wake c2 -> client_waits c2 = true -> @signal (client nat) client_waits client_wake [c1; c2] [c1; c2']) as Hsig.
    { intros c1 c2 c2' -> Hw. split; [|intros _; by exists 1%nat, c2]. constructor; [by left|]. constructor; [by right|constructor]. }
    assert (forall l : list (client nat), existsb client_waits l = false -> signal client_waits client_wake l l) as Hnone.
    { intros l Hl. split; [|congruence]. by apply Forall_Forall2_diag, Forall_true; left. }
    assert (forall l : list (thread_state nat), existsb thread_waits l = false -> signal thread_waits thread_wake l l) as Hnone'.
    { intros l Hl. split; [|congruence]. by apply Forall_Forall2_diag, Forall_true; left. }
    eapply rtc_l; [eapply (S_add _ _ _ _ _ _ _ _ 0%nat); [reflexivity|reflexivity|reflexivity|reflexivity|apply Hnone'; reflexivity]|].
    eapply rtc_l; [eapply (S_pop _ _ _ _ _ _ _ _ 0%nat); [reflexivity|reflexivity|reflexivity|apply Hnone; reflexivity]|].
    eapply rtc_l; [eapply (S_add _ _ _ _ _ _ _ _ 0%nat); [reflexivity|reflexivity|reflexivity|reflexivity|apply Hnone'; reflexivity]|].
    eapply rtc_l; [eapply (S_add_wait _ _ _ _ _ _ 0%nat); reflexivity|].
    eapply rtc_l; [eapply (S_joinJobs_wait _ _ _ _ _ _ 1%nat); reflexivity|].
    eapply rtc_l; [eapply (S_done _ _ _ _ _ _ _ 0%nat); [reflexivity|cbn; apply Hsig; reflexivity]|].
    eapply rtc_l; [eapply (S_joinJobs_wait _ _ _ _ _ _ 1%nat); reflexivity|].
    eapply rtc_l; [eapply (S_pop _ _ _ _ _ _ _ _ 0%nat); [reflexivity|reflexivity|reflexivity|cbn; apply Hsig; reflexivity]|].
    eapply rtc_l; [eapply (S_joinJobs_wait _ _ _ _ _ _ 1%nat); reflexivity|].
    eapply rtc_l; [eapply (S_done _ _ _ _ _ _ _ 0%nat); [reflexivity|cbn; apply Hsig; reflexivity]|].
    eapply rtc_l; [eapply (S_joinJobs _ _ _ _ _ _ 1%nat); reflexivity|].
    eapply rtc_l; [eapply (S_sleep _ _ _ _ _ _ 0%nat); reflexivity|]. apply rtc_refl.
  - intros s' Hs. inversion Hs; clear Hs; simplify_eq; repeat match goal with
      | H : _ !! ?i = Some _ |- _ => is_var i; destruct i; cbn in H; try discriminate
      end.
Qed.
